(* ===== verification/_CoqProject ===== *)
-Q . S2P
Prelude.v
IQueue.v
KcpWire.v
KcpSeq.v
KcpState.v
KcpSend.v
KcpRecv.v
KcpInput.v
KcpFlush.v
KcpInv.v
KcpFlushInv.v
KcpOps.v
KcpLink.v
KcpSystem.v
KcpPlan.v
KcpRun.v
KcpFacts.v
KcpProps.v
UdpKcp.v
Queue.v
Net.v
Dhcp.v
JsonText.v
JsonSafe.v
JsonParse.v
JsonPrint.v
JsonRender.v
JsonRound.v
JsonUtf.v
JsonProps.v
JsonMinify.v
JsonHeap.v
JsonTree.v
JsonOwn.v
JsonCopy.v
JsonMemory.v
Mqtt.v
TsBits.v
TsCrc.v
TsPacket.v
TsMux.v
TsMuxRun.v
TsFrame.v
TsStream.v
TsProps.v
Mqueue.v
MppPlat.v
RtmpPush.v
HttpUri.v
HttpUriRef.v
HttpUriRun.v
HttpGrammar.v
HttpServer.v
HttpProps.v
RtpFrame.v
RtpConn.v
RtpShare.v
RtpStream.v
RtpLive.v
RtpProps.v
RtspRing.v
RtspTimer.v
RtspIo.v
RtspTcp.v
RtspMessage.v
RtspParse.v
RtspServe.v
RtspDialogue.v
