(* ===== verification/Prelude.v ===== *)
(** * iotcam: verification of the core of the IoT camera sample

    The repository is the firmware sample of a network camera.  Its application
    is src/sample_iotcamera; the other directories are vendored libraries and
    command-line samples of the vendor's codec and neural network interfaces.
    The parts of the application that carry its logic are the reliable transport
    over which frames and commands travel (KCP/ikcp.c) and the threads that put
    it on a UDP socket (udpkcp.cpp), the queues that hand data between threads
    (queue.c, MEDIAQUEUE/mqueue.h), the DHCP client with its raw packets
    (dhclient.c, dhcp.c, net.c), the JSON library in which commands are written
    (JSON/cJSON.c), the MQTT session over which they arrive (mqtt/mqtt.c), the
    transport stream muxer for the recordings (ts/), the hand-over of encoded
    audio (MPPPLAT/mppplat.cpp), the session that pushes a stream to a server
    (CRtmpPush.cpp), the HTTP server (http-server.c) and the RTSP server with its
    RTP sessions (rtsp/).  This library models these parts and proves what they
    promise to each other.

    ** Conventions

    The target is 32-bit little-endian ARM.  Integers keep their C width through
    the wrap functions below ([u32], [i32], ...).  A run that fails an assertion,
    follows a null pointer, leaves an object, divides by zero or never ends is a
    [Crash] of the type [outcome]; a theorem that says [= Ret _] therefore
    excludes all of these.  Loops that are not structural take fuel, and [Crash
    Diverge] is the end of the fuel: no theorem assumes that it is not reached.

    ** KCP (KCP/ikcp.c, KCP/ikcp.h) and its threads (udpkcp.cpp)

    - IQueue: the intrusive queue macros of ikcp.h on linked nodes.  They are the
      list operations that the other files use ([iqueue_refines_list]).
    - KcpWire: encoding and decoding of integers and of the 24-byte header.
    - KcpState: [struct IKCPCB] as the record [ikcpcb], the allocator, creation,
      release and configuration.
    - KcpSend ([ikcp_send]), KcpRecv ([ikcp_recv], [ikcp_peeksize],
      [ikcp_parse_data]), KcpInput ([ikcp_input] and what it calls), KcpFlush
      ([ikcp_flush], [ikcp_update], [ikcp_check]).
    - KcpSeq, KcpInv, KcpFlushInv: lists in sequence order, the well-formedness
      invariant [kcp_wf] and its preservation by every operation.
    - KcpOps: the exported operations as labels, the callers' obligations and the
      reachable blocks.  KcpLink, KcpSystem: two endpoints and a network that
      loses, duplicates, delays and reorders datagrams.  KcpPlan: what a flush
      has to send, as a function of the block.  KcpFacts: exact effects of single
      operations.  KcpRun: a concrete allocator and an executor.
    - KcpProps: the theorems.  Messages arrive as a prefix of those sent, no
      segment is lost, calls crash only where the allocator refuses a block, a
      flush sends exactly its plan within MTU and window, any datagram is
      survived; besides them the functional behaviour of sending, receiving, reordering, timing and probing.
    - UdpKcp: the receiver, the clock thread and the senders of udpkcp.cpp as
      steps between synchronisation points.  The block stays well formed and every
      step returns, but for refused memory, a message longer than the receiver's
      buffer and 2^27 unsent acknowledgements; nothing
      that is handed to [sendKcpData] is ever sent, since its mutex is not given
      back.

    ** Queue, raw packets, DHCP

    - Queue: queue.c with its nodes in a heap.  As a list used as a queue, and
      under every interleaving of producers and a consumer at the mutex; with
      two consumers a node is used after it was freed.
    - Net: net.c, the IPv4 and UDP headers and the checksum.
    - Dhcp: dhcp.c and dhclient.c, the discover message, the option loop and the
      send and receive loop; the kernel's answers are arguments.

    ** JSON (JSON/cJSON.c)

    - JsonText, JsonParse: the parser; JsonSafe: its leaves stay in bounds;
      JsonUtf: the translation to UTF-8 against RFC 3629.
    - JsonPrint: the printer and its growing block; JsonRender: the reference
      text and that the printer writes it; JsonRound: reading it back.
    - JsonProps: the theorems on texts.  The parser returns on every terminated
      text for every answer of the allocator; what is printed is the reference
      text and is read back as the same value, up to the precision to which the
      code compares numbers; printing into the caller's block
      stays inside.
    - JsonMinify: the minifier in place, against a one-pass reference.
    - JsonHeap: items in memory and every operation on trees.  JsonTree: children
      as lists; JsonOwn: who owns what, and deletion; JsonCopy: duplication;
      JsonMemory: the theorems, with a concrete allocator.

    ** MQTT (mqtt/mqtt.c)

    - Mqtt: the session thread, the library's callbacks and the callers of
      [pubmsg] as steps between synchronisation points, spurious wakeups
      included.  Mutual exclusion and the session invariant hold in every
      reachable state, messages on the subscribed topic reach the callback;
      without spurious wakeups a lost session reconnects and only existing
      clients publish, with them one may publish with a destroyed client.

    ** Transport stream (ts/Mux.cpp, ts/Ts.cpp, ts/Ts.h)

    - TsBits: the bit reader with the Exp-Golomb codes.  TsCrc: the table-driven
      CRC against the division by the polynomial.  TsPacket: the session, the packet
      header with its counters, and the two tables.
    - TsMux: the adaptation field and [PES2TS], which cuts a frame into packets;
      TsMuxRun: that it ends and what the packets carry; TsFrame: from a frame to its
      PES packet, with the entry point [WriteBuf2TsFile]; TsStream: a demultiplexer.
    - TsProps: the theorems.  A session's packets, demultiplexed, are the frames
      that went in; continuity counters are consecutive for each stream; the
      tables parse and their CRC is right.  The clock reference is the time stamp
      for the first 159 seconds only; two pictures with the same stamp, or with
      stamps more than 1000 apart, end in a division by zero.

    ** Queues between threads and the push session

    - Mqueue: MEDIAQUEUE/mqueue.h (the event loop's queue is the same code), with
      its mutex and condition variable.  A bounded queue, and nobody sleeps while
      there is something to take.
    - MppPlat: the audio hand-over of mppplat.cpp on that queue: frames leave in
      order, and each block has one owner.
    - RtmpPush: CRtmpPush.cpp as steps of its thread and of the writers.  The thread
      neither loses nor destroys a connection twice, a writer that calls while the
      status is [CONNECTED] and the thread not tearing down uses a live one, and the
      session settles as it was asked to, if the server accepts.

    ** HTTP (http-server.c, with libevent/http.c and libevent/evutil.c)

    - HttpUri: the URI parser of libevent on its copy of the text, percent encoding
      and decoding.  HttpUriRef: the grammar the code reads and a parser on lists;
      HttpUriRun: that the code computes it; HttpGrammar: the grammar of RFC 3986,
      that the code accepts exactly it but for three stated departures, and the
      round trip of the encoding.
    - HttpServer: the callbacks of http-server.c with their calls of the kernel as a
      list of effects, the choice of the callback, the options.
    - HttpProps: the theorems.  Names that are looked up lie, lexically, below the
      document root (symbolic links are the kernel's), and every request is answered
      once, with the right code and everything released.

    ** RTSP and RTP (rtsp/)

    - RtpFrame: the four sources (H264Source.cpp, H265Source.cpp, AACSource.cpp,
      G711ASource.cpp) cut a frame into packets in blocks of 1600 bytes; receivers of
      the payload formats that put the units together again.
    - RtpConn: RtpConnection.cpp, MediaSession.cpp and [addTriggerEvent].  The thread
      that pushes frames queues each packet on the schedulers of the clients; the
      schedulers write the header into the shared block and send.  The threads meet
      at the points [interfere], where a batch of a schedule runs; the blocks are
      reached through the class [PacketStore], whose instance [shared_blocks] is the
      code and whose instance [own_blocks] gives every packet its own block.
    - RtpShare: the simulation between the two instances.  RtpStream: a receiver of
      RTP and the invariant of one client's stream.  RtpLive: that nothing crashes as
      long as no connection is destroyed.  RtpProps: the theorems.  Sharing blocks is
      not seen from outside, a client's packets have consecutive numbers and carry
      the payloads in order, and the units are read back.
    - RtspRing: RingBuffer.h with its producers and its consumer, step by step, is a
      bounded queue.  RtspTimer: Timer.cpp; repeating timers of at least 1 ms fire once
      each, in the order of their deadlines, a timer
      that does not repeat makes the loop run for ever.
    - RtspIo: BufferReader.cpp as a queue of bytes.  RtspTcp: BufferWriter.cpp,
      TcpConnection.cpp, Channel.h and the channel calls of EpollTaskScheduler.cpp;
      nothing that was accepted is lost or reordered, and until the connection is
      closed writability is asked for exactly when something waits.
    - RtspMessage: RtspMessage.cpp, the parser of requests over the directives of
      [sscanf] it uses, and the answers.  RtspParse: the text of a request is read
      back, and a short line never leaves the arrays.  RtspServe: RtspConnection.cpp
      and the maps of RtspServer.cpp.  RtspDialogue: requests that arrive whole and
      one at a time are answered once, in order, with the right status; a request
      behind an RTCP packet is not read.

    ** Fuel and bounds

    [input_loop] gets one unit per byte of the datagram: each segment takes at
    least 24.  [grow_block] doubles a 32-bit number at most 32 times.  The option
    loop of the DHCP client, the minifier and the text loops get the length of
    their text: each round consumes a byte.  [parse_value] gets five units per
    byte, one for each function between two bytes.  The heap walks of JsonHeap
    and IQueue get the number of allocated blocks, since a chain visits a block
    once; [ClearQueue] takes any fuel from the length of the queue on.  The
    packet loop of the muxer gets one unit per byte that is left and one more:
    each packet takes at least one.  The receiving loop of UdpKcp gets one unit
    per segment that is queued and one more.  The loops over a URI get the length of
    the rest of the text: each round takes a byte.  The loop over the fragments of a
    frame gets the length of its buffer and one more.  The loop of the timer queue
    takes any fuel beyond the number of timers that are due; that it has none that is
    enough for a timer that does not repeat is a theorem.  For each of the others a theorem about
    the code that returns includes that the fuel is enough.

    ** Parameters

    What is not code of the repository is an argument: the memory allocators
    (classes [Alloc], [NodeAlloc], [Allocator], [HeapAlloc], [Calloc], [Malloc]), doubles
    and the functions of the C library on them (class [CDouble]), variables that
    the code reads before it assigns them, the answers of the kernel to the DHCP
    client and to the socket calls of udpkcp.cpp, of the MQTT library and of the
    RTMP server, the file system behind the HTTP server and the C library's test for
    an IPv6 address (class [InetPton]), the contents of new blocks ([fresh]), the clock
    and the answers of the kernel to the RTSP server, and the thread that a signal
    wakes.  The [sscanf] of RtspMessage stores a number that is too large as the C
    library of the target does.  Each class has a concrete
    instance at which the theorems are applied.  Signed overflow is two's
    complement wrap-around.

    ** Not modelled

    Texts that are only printed or logged.  The debug printer of ikcp.c and the
    splice macros of ikcp.h, which nothing uses.  The overloads of the muxer that
    read their frames from files, and the video side of mppplat.cpp, which hands
    the vendor's buffers around.  MQTTProcess.cpp is glue around the vendor's
    interfaces.  MPPPLAT drives the vendor's closed media libraries and keeps its
    state in the drivers.  srsrtmp and the Paho client are
    vendored; of the RTSP server, the mode that pushes to another server, the SDP
    text, the loop around [epoll_wait], the wrappers of the socket calls and the code
    nothing calls are left out.  libevent is vendored too, and only what the HTTP
    server calls on a request is modelled.  [http_main] makes the server from libevent's objects and runs its
    event loop.

    ** Left to do

    [cJSON_Compare] as equality of values; the pushing mode of the RTSP connection. *)

From Stdlib Require Export ZArith Lia List.
From Stdlib Require Ascii String.
From stdpp Require Export base option list.
From stdpp Require Import numbers.

#[global] Set Default Goal Selector "!".
Local Open Scope Z_scope.

(** ** Machine integers

    The target is 32-bit ARM (arm-openwrt-linux-muslgnueabi, little endian,
    ILP32).  An unsigned w-bit object is a [Z] in [[0, 2^w)], a signed one a
    [Z] in [[-2^(w-1), 2^(w-1))]; every conversion and every operation that
    can leave the range goes through one of the wrap functions below.  Signed
    overflow is written as two's complement wrap-around; the theorems that
    exclude it say so. *)
Definition u8 (z : Z) : Z := z mod 256.
Definition u16 (z : Z) : Z := z mod 65536.
Definition u32 (z : Z) : Z := z mod 4294967296.
Definition i32 (z : Z) : Z := (z + 2147483648) mod 4294967296 - 2147483648.

Definition is_u8 (z : Z) : Prop := 0 <= z < 256.
Definition is_u16 (z : Z) : Prop := 0 <= z < 65536.
Definition is_u32 (z : Z) : Prop := 0 <= z < 4294967296.
Definition is_i32 (z : Z) : Prop := -2147483648 <= z < 2147483648.

Definition INT_MAX : Z := 2147483647.
Definition INT_MIN : Z := -2147483648.

(** ** Outcomes

    C code that stops by [assert] or [abort], dereferences a null pointer, divides by zero,
    accesses memory outside an object or loops forever does not return: such
    runs are [Crash]. *)
Inductive crash := AssertFail | NullDeref | OutOfBounds | DivByZero | Diverge.

Inductive outcome (A : Type) :=
| Ret (a : A)
| Crash (c : crash).
Arguments Ret {A} a.
Arguments Crash {A} c.

Definition obind {A B : Type} (m : outcome A) (f : A -> outcome B) : outcome B :=
  match m with
  | Ret a => f a
  | Crash c => Crash c
  end.

Declare Scope c_scope.
Delimit Scope c_scope with c.
Notation "'let!' x := m 'in' k" := (obind m (fun x => k))
  (at level 10, x pattern, m at level 100, k at level 200,
   format "'let!'  x  :=  m  'in' '//' k") : c_scope.
Open Scope c_scope.

(** ** Functional record update

    [r <| f := v |>] is the record [r] with field [f] set to [v].  Each field
    gets an instance of [Setter], built from the eta-expansion of its record
    by [mk_setter]. *)
Class Setter {R T : Type} (proj : R -> T) := upd : (T -> T) -> R -> R.
Arguments upd {R T} proj {_} f r.

Notation "r <| p := v |>" := (upd p (fun _ => v) r)
  (at level 1, p constr, left associativity, format "r  <| p  :=  v |>") : c_scope.

Ltac mk_setter eta :=
  match goal with
  | |- @Setter ?R ?T ?p =>
      exact (fun (f : T -> T) (r : R) =>
               ltac:(let b := eval cbv [eta] in (eta r) in
                     let b' := eval pattern (p r) in b in
                     match b' with
                     | ?g _ => let t := eval cbv beta in (g (f (p r))) in exact t
                     end))
  end.

(** ** Automation *)
Create HintDb ints.
Create Rewrite HintDb ints.

(** Case analysis on the integer comparisons of the code, each with the
    arithmetic fact it decides. *)
Ltac zcase :=
  match goal with
  | |- context [Z.ltb ?a ?b] => destruct (Z.ltb_spec a b)
  | |- context [Z.leb ?a ?b] => destruct (Z.leb_spec a b)
  | |- context [Z.eqb ?a ?b] => destruct (Z.eqb_spec a b)
  | H : context [Z.ltb ?a ?b] |- _ => destruct (Z.ltb_spec a b)
  | H : context [Z.leb ?a ?b] |- _ => destruct (Z.leb_spec a b)
  | H : context [Z.eqb ?a ?b] |- _ => destruct (Z.eqb_spec a b)
  end.

(** Unfold the wrap functions and let [lia] decide the modular arithmetic. *)
Ltac wrap_lia :=
  unfold is_u8, is_u16, is_u32, is_i32, u8, u16, u32, i32, INT_MAX, INT_MIN in *;
  Z.div_mod_to_equations; lia.

(** [lia] with the ranges visible. *)
Ltac rlia := unfold is_u8, is_u16, is_u32, is_i32, INT_MAX, INT_MIN in *; lia.

(** Peel the binds of an outcome equation that returned. *)
Lemma obind_Ret {A B : Type} (m : outcome A) (f : A -> outcome B) b :
  obind m f = Ret b <-> exists a, m = Ret a /\ f a = Ret b.
Proof.
  destruct m as [a|c]; simpl; split.
  - intros H. exists a. auto.
  - intros (a' & [= ->] & H). exact H.
  - discriminate.
  - intros (a' & H & _). discriminate.
Qed.

Lemma Ret_inj {A : Type} (a b : A) : Ret a = Ret b -> a = b.
Proof. intros [=]. assumption. Qed.

Lemma obind_total {A B : Type} (m : outcome A) (f : A -> outcome B) :
  (exists a, m = Ret a /\ exists b, f a = Ret b) -> exists b, obind m f = Ret b.
Proof. intros (a & -> & b & Hb). exists b. exact Hb. Qed.

(** ** Wrap-around lemmas *)
Lemma u32_range z : is_u32 (u32 z).
Proof. apply Z.mod_pos_bound. lia. Qed.

Lemma i32_range z : is_i32 (i32 z).
Proof. wrap_lia. Qed.

Lemma u32_id z : is_u32 z -> u32 z = z.
Proof. intros H. apply Z.mod_small, H. Qed.

Lemma i32_id z : is_i32 z -> i32 z = z.
Proof. wrap_lia. Qed.

Lemma u16_range z : is_u16 (u16 z).
Proof. apply Z.mod_pos_bound. lia. Qed.

Lemma u8_range z : is_u8 (u8 z).
Proof. apply Z.mod_pos_bound. lia. Qed.

Lemma u32_u32 z : u32 (u32 z) = u32 z.
Proof. apply u32_id, u32_range. Qed.

Lemma i32_u32 z : i32 (u32 z) = i32 z.
Proof. wrap_lia. Qed.

Lemma u32_i32 z : u32 (i32 z) = u32 z.
Proof. wrap_lia. Qed.

#[export] Hint Resolve u32_range i32_range u16_range u8_range : ints.
#[export] Hint Rewrite u32_u32 i32_u32 u32_i32 : ints.

(** A field shifted above another. *)
Lemma lor_shiftl_add a b k : 0 <= k -> 0 <= b < 2 ^ k -> Z.lor (Z.shiftl a k) b = a * 2 ^ k + b.
Proof.
  intros Hk Hb. rewrite Z.shiftl_mul_pow2 by lia.
  rewrite <- Z.add_lor_land.
  replace (Z.land (a * 2 ^ k) b) with 0; [lia|].
  symmetry. apply Z.bits_inj'. intros n Hn. rewrite Z.land_spec, Z.bits_0.
  destruct (Z.lt_ge_cases n k).
  - rewrite Z.mul_pow2_bits_low by lia. reflexivity.
  - destruct (Z.eq_dec b 0) as [->|Hb0]; [rewrite Z.bits_0; apply andb_false_r|].
    pose proof (Z.pow_le_mono_r 2 k n ltac:(lia) ltac:(lia)).
    rewrite (Z.bits_above_log2 b n), andb_false_r; [reflexivity | lia |].
    apply (proj1 (Z.log2_lt_pow2 b n ltac:(lia))). lia.
Qed.

(** ** Lists *)
Abbreviation lenZ l := (Z.of_nat (length l)).

(** Longest prefix satisfying a boolean test, and the rest: the shape of every
    "walk the list and stop at the first that fails" loop of the code. *)
Fixpoint dropwhile {A : Type} (f : A -> bool) (l : list A) : list A :=
  match l with
  | [] => []
  | x :: l' => if f x then dropwhile f l' else l
  end.

Lemma dropwhile_suffix {A : Type} (f : A -> bool) l :
  exists p, l = p ++ dropwhile f l /\ Forall (fun x => f x = true) p.
Proof.
  induction l as [|x l [p [Hp Hf]]]; simpl.
  - exists []. split; [reflexivity | constructor].
  - destruct (f x) eqn:E.
    + exists (x :: p). split; [simpl; congruence | constructor; assumption].
    + exists []. split; [reflexivity | constructor].
Qed.

Fixpoint takewhile {A : Type} (f : A -> bool) (l : list A) : list A :=
  match l with
  | [] => []
  | x :: l' => if f x then x :: takewhile f l' else []
  end.

Lemma takewhile_dropwhile {A : Type} (f : A -> bool) l : takewhile f l ++ dropwhile f l = l.
Proof. induction l as [|x l IH]; simpl; [reflexivity|]. destruct (f x); [simpl; rewrite IH|]; reflexivity. Qed.

(** The prefix ends where the test fails first. *)
Lemma while_app {A : Type} (f : A -> bool) p r : Forall (fun x => f x = true) p -> match r with [] => True | x :: _ => f x = false end ->
  takewhile f (p ++ r) = p /\ dropwhile f (p ++ r) = r.
Proof.
  intros H R. induction H as [|x p Hx _ [I1 I2]]; cbn [app takewhile dropwhile].
  - destruct r as [|x r]; [auto|]. cbn. rewrite R. auto.
  - rewrite Hx, I1, I2. auto.
Qed.

(** The characters of a literal. *)
Fixpoint bytes (s : String.string) : list Z :=
  match s with
  | String.EmptyString => []
  | String.String a r => Z.of_N (Ascii.N_of_ascii a) :: bytes r
  end.

(** ** Network byte order *)
Definition htons (v : Z) : Z := u16 (256 * v) + u16 v / 256.
Definition bswap32 (v : Z) : Z :=
  u8 v * 16777216 + u8 (v / 256) * 65536 + u8 (v / 65536) * 256 + u8 (v / 16777216).
Definition htonl (v : Z) : Z := bswap32 v.

(** A swapped 16-bit store leaves the value in network order. *)
Lemma htons_bytes v : is_u16 v -> u8 (htons v) = v / 256 /\ u8 (htons v / 256) = v mod 256.
Proof. unfold htons. intros H. wrap_lia. Qed.

(** ** Bytes of a buffer

    A buffer is the list of its bytes; an access outside it is a crash. *)
Definition put8 (b : list Z) (i : nat) (v : Z) : outcome (list Z) :=
  if (i <? length b)%nat then Ret (<[i := u8 v]> b) else Crash OutOfBounds.

Definition get8 (b : list Z) (i : nat) : outcome Z :=
  match b !! i with Some v => Ret v | None => Crash OutOfBounds end.

Lemma put8_in b i v : (i < length b)%nat -> put8 b i v = Ret (<[i := u8 v]> b).
Proof. intros H. unfold put8. rewrite (proj2 (Nat.ltb_lt _ _) H). reflexivity. Qed.

Lemma get8_total b i : (i < length b)%nat -> exists v, get8 b i = Ret v /\ b !! i = Some v.
Proof.
  intros H. unfold get8. destruct (lookup_lt_is_Some_2 b i H) as [v E]. exists v. rewrite E. auto.
Qed.

Lemma get8_app_l h t i : (i < length h)%nat -> get8 (h ++ t) i = get8 h i.
Proof. intros H. unfold get8. rewrite lookup_app_l by exact H. reflexivity. Qed.

(** [b[i] = v0; b[i + 1] = v1; ...], a run of stores into [b + i]. *)
Fixpoint stores (b : list Z) (i : nat) (vs : list Z) : outcome (list Z) :=
  match vs with
  | [] => Ret b
  | v :: vs' => let! b := put8 b i v in stores b (S i) vs'
  end.

Lemma stores_at vs : forall pre old, (length vs <= length old)%nat ->
  stores (pre ++ old) (length pre) vs = Ret (pre ++ map u8 vs ++ drop (length vs) old).
Proof.
  induction vs as [|v vs IH]; intros pre old H; [cbn; rewrite drop_0; reflexivity|].
  destruct old as [|o old]; [cbn in H; lia|]. cbn [stores]. rewrite put8_in by (rewrite length_app; cbn; lia). cbn [obind].
  rewrite insert_app_r_alt, Nat.sub_diag by lia. cbn [insert list_insert].
  change (pre ++ u8 v :: old) with (pre ++ [u8 v] ++ old). rewrite app_assoc.
  replace (S (length pre)) with (length (pre ++ [u8 v])) by (rewrite length_app; cbn; lia).
  rewrite IH by (cbn in H; lia). rewrite <- app_assoc. reflexivity.
Qed.

Lemma map_u8_id l : Forall is_u8 l -> map u8 l = l.
Proof. induction 1 as [|x l H _ IH]; [reflexivity|]. cbn. rewrite IH. f_equal. apply Z.mod_small, H. Qed.

Lemma u8_u8 z : u8 (u8 z) = u8 z.
Proof. apply Z.mod_mod. lia. Qed.

Lemma repeat_replicate (x : Z) n : repeat x n = replicate n x.
Proof. induction n as [|n IH]; simpl; congruence. Qed.

Lemma repeat0_bytes n : Forall is_u8 (repeat 0 n).
Proof. rewrite repeat_replicate. apply Forall_replicate. rlia. Qed.

Lemma bytes_check l : forallb (fun x => (0 <=? x) && (x <? 256)) l = true -> Forall is_u8 l.
Proof.
  induction l as [|x l IH]; simpl; [constructor|]. intros H.
  apply andb_prop in H as [H1 H2]. constructor; [rlia | apply IH, H2].
Qed.

(** A fact about every byte, by evaluation. *)
Lemma byte_all (P : Z -> bool) : forallb (fun n => P (Z.of_nat n)) (seq 0 256) = true -> forall c, is_u8 c -> P c = true.
Proof.
  intros H c Hc. rewrite forallb_forall in H. specialize (H (Z.to_nat c)). rewrite Z2Nat.id in H by rlia.
  apply H, in_seq. rlia.
Qed.

Lemma byte_cases (f g : Z -> bool) : forallb (fun n => Bool.eqb (f (Z.of_nat n)) (g (Z.of_nat n))) (seq 0 256) = true ->
  forall c, is_u8 c -> f c = g c.
Proof. intros H c Hc. apply eqb_prop. exact (byte_all (fun c => Bool.eqb (f c) (g c)) H c Hc). Qed.
