(* ===== verification/IQueue.v ===== *)
(** * Intrusive queues (KCP/ikcp.h, "QUEUE DEFINITION")

    The macros that link the segments of a control block, on a heap of link
    nodes: a queue is a ring of nodes through its head.  The theorem of this file
    is that on rings the macros are the list operations with which the other
    KCP files describe [snd_queue], [rcv_queue], [snd_buf] and [rcv_buf], also
    where a segment moves from one queue to another.  The splice macros, which
    ikcp.c does not use, are left out. *)

From stdpp Require Import gmap.
From S2P Require Import Prelude.

(** [struct IQUEUEHEAD]; a null pointer is [None]. *)
Abbreviation ptr := (option positive) (only parsing).
Record IQUEUEHEAD := mkHead { next : ptr; prev : ptr }.
Abbreviation links := (gmap positive IQUEUEHEAD) (only parsing).

Definition load (m : links) (p : ptr) : outcome IQUEUEHEAD :=
  match p with
  | None => Crash NullDeref
  | Some a => match m !! a with Some n => Ret n | None => Crash OutOfBounds end
  end.

(** [p->next = v] and [p->prev = v] *)
Definition set_next (m : links) (p v : ptr) : outcome links :=
  match p with
  | None => Crash NullDeref
  | Some a => match m !! a with Some n => Ret (<[a := mkHead v (prev n)]> m) | None => Crash OutOfBounds end
  end.

Definition set_prev (m : links) (p v : ptr) : outcome links :=
  match p with
  | None => Crash NullDeref
  | Some a => match m !! a with Some n => Ret (<[a := mkHead (next n) v]> m) | None => Crash OutOfBounds end
  end.

Definition IQUEUE_INIT (p : ptr) (m : links) : outcome links :=
  let! m := set_next m p p in
  set_prev m p p.

Definition IQUEUE_ADD (node head : ptr) (m : links) : outcome links :=
  let! m := set_prev m node head in
  let! h := load m head in
  let! m := set_next m node (next h) in
  let! h := load m head in
  let! m := set_prev m (next h) node in
  set_next m head node.

Definition IQUEUE_ADD_TAIL (node head : ptr) (m : links) : outcome links :=
  let! h := load m head in
  let! m := set_prev m node (prev h) in
  let! m := set_next m node head in
  let! h := load m head in
  let! m := set_next m (prev h) node in
  set_prev m head node.

Definition IQUEUE_DEL (entry : ptr) (m : links) : outcome links :=
  let! e := load m entry in
  let! m := set_prev m (next e) (prev e) in
  let! e := load m entry in
  let! m := set_next m (prev e) (next e) in
  let! m := set_next m entry None in
  set_prev m entry None.

Definition IQUEUE_DEL_INIT (entry : ptr) (m : links) : outcome links :=
  let! m := IQUEUE_DEL entry m in
  IQUEUE_INIT entry m.

Definition IQUEUE_IS_EMPTY (entry : ptr) (m : links) : outcome bool :=
  let! e := load m entry in
  Ret (bool_decide (entry = next e)).

(** [iqueue_foreach_entry]: the nodes it visits from [pos] on, in order. *)
Fixpoint foreach_loop (fuel : nat) (pos head : ptr) (m : links) : outcome (list ptr) :=
  match fuel with
  | O => Crash Diverge
  | S f =>
      if bool_decide (pos = head) then Ret []
      else
        let! n := load m pos in
        let! r := foreach_loop f (next n) head m in
        Ret (pos :: r)
  end.

Definition iqueue_foreach_entry (head : ptr) (m : links) : outcome (list ptr) :=
  let! h := load m head in
  foreach_loop (S (size m)) (next h) head m.

(** ** Rings *)

Definition nx (m : links) (a : positive) : option ptr := next <$> m !! a.
Definition pv (m : links) (a : positive) : option ptr := prev <$> m !! a.

Definition edge (m : links) (a b : positive) : Prop := nx m a = Some (Some b) /\ pv m b = Some (Some a).

Fixpoint chain (m : links) (c : list positive) : Prop :=
  match c with
  | a :: ((b :: _) as r) => edge m a b /\ chain m r
  | _ => True
  end.

(** The queue with head [h] holds the nodes [l], in order. *)
Definition ring (m : links) (h : positive) (l : list positive) : Prop :=
  NoDup (h :: l) /\ chain m (h :: l ++ [h]).

Lemma chain_app m c1 a c2 : chain m (c1 ++ a :: c2) <-> chain m (c1 ++ [a]) /\ chain m (a :: c2).
Proof.
  induction c1 as [|b [|d c1] IH]; cbn [app chain] in *.
  - tauto.
  - tauto.
  - rewrite IH. tauto.
Qed.

(** A chain sees the [next] of all its nodes but the last and the [prev] of all
    but the first. *)
Lemma chain_frame m m' a c : (forall x, x ∈ removelast (a :: c) -> nx m' x = nx m x) ->
  (forall x, x ∈ c -> pv m' x = pv m x) -> chain m (a :: c) -> chain m' (a :: c).
Proof.
  revert a. induction c as [|b c IH]; intros a Hn Hp; [trivial|]. intros [[E1 E2] H].
  change (removelast (a :: b :: c)) with (a :: removelast (b :: c)) in Hn. split.
  - split; [rewrite Hn by left; exact E1 | rewrite Hp by left; exact E2].
  - apply IH; [intros x Hx; apply Hn; right; exact Hx | intros x Hx; apply Hp; right; exact Hx | exact H].
Qed.

(** Any node of the ring can stand for the head. *)
Lemma ring_rotate m h l1 a l2 : ring m h (l1 ++ a :: l2) <-> ring m a (l2 ++ h :: l1).
Proof.
  assert (Hdir : forall h l1 a l2, ring m h (l1 ++ a :: l2) -> ring m a (l2 ++ h :: l1)).
  { clear. intros h l1 a l2 [Hnd Hc]. split.
    - revert Hnd. apply NoDup_Permutation_proper. change (h :: l1 ++ a :: l2) with ((h :: l1) ++ a :: l2).
      rewrite (Permutation_app_comm (h :: l1)). reflexivity.
    - rewrite <- app_assoc in Hc. cbn [app] in Hc. change (h :: l1 ++ a :: l2 ++ [h]) with ((h :: l1) ++ a :: l2 ++ [h]) in Hc.
      apply chain_app in Hc as [H1 H2]. rewrite <- app_assoc. cbn [app].
      change (a :: l2 ++ h :: l1 ++ [a]) with ((a :: l2) ++ h :: l1 ++ [a]). apply chain_app. split; assumption. }
  split; apply Hdir.
Qed.

(** ** Runs of the macros *)

Definition upd_next (a : positive) (v : ptr) (m : links) : links := alter (fun n => mkHead v (prev n)) a m.
Definition upd_prev (a : positive) (v : ptr) (m : links) : links := alter (fun n => mkHead (next n) v) a m.

Lemma nx_upd_next a v m x : nx (upd_next a v m) x = if decide (a = x) then (fun _ => v) <$> nx m x else nx m x.
Proof.
  unfold nx, upd_next. case_decide as E; [subst; rewrite lookup_alter_eq | rewrite lookup_alter_ne by exact E; reflexivity].
  destruct (m !! x); reflexivity.
Qed.
Lemma pv_upd_next a v m x : pv (upd_next a v m) x = pv m x.
Proof.
  unfold pv, upd_next. destruct (decide (a = x)) as [->|E]; [rewrite lookup_alter_eq | rewrite lookup_alter_ne by exact E; reflexivity].
  destruct (m !! x); reflexivity.
Qed.
Lemma nx_upd_prev a v m x : nx (upd_prev a v m) x = nx m x.
Proof.
  unfold nx, upd_prev. destruct (decide (a = x)) as [->|E]; [rewrite lookup_alter_eq | rewrite lookup_alter_ne by exact E; reflexivity].
  destruct (m !! x); reflexivity.
Qed.
Lemma pv_upd_prev a v m x : pv (upd_prev a v m) x = if decide (a = x) then (fun _ => v) <$> pv m x else pv m x.
Proof.
  unfold pv, upd_prev. case_decide as E; [subst; rewrite lookup_alter_eq | rewrite lookup_alter_ne by exact E; reflexivity].
  destruct (m !! x); reflexivity.
Qed.

Lemma live_nx m a : is_Some (m !! a) -> exists n, nx m a = Some n.
Proof. intros [n E]. exists (next n). unfold nx. rewrite E. reflexivity. Qed.
Lemma live_pv m a : is_Some (m !! a) -> exists n, pv m a = Some n.
Proof. intros [n E]. exists (prev n). unfold pv. rewrite E. reflexivity. Qed.
Lemma nx_live m a n : nx m a = Some n -> is_Some (m !! a).
Proof. unfold nx. destruct (m !! a); [eauto | discriminate]. Qed.
Lemma pv_live m a n : pv m a = Some n -> is_Some (m !! a).
Proof. unfold pv. destruct (m !! a); [eauto | discriminate]. Qed.

Lemma live_upd_next a v m x : is_Some (m !! x) -> is_Some (upd_next a v m !! x).
Proof. intros [n E]%live_pv. apply (pv_live _ _ n). rewrite pv_upd_next. exact E. Qed.
Lemma live_upd_prev a v m x : is_Some (m !! x) -> is_Some (upd_prev a v m !! x).
Proof. intros [n E]%live_nx. apply (nx_live _ _ n). rewrite nx_upd_prev. exact E. Qed.

Lemma lookup_links m m' x : nx m' x = nx m x -> pv m' x = pv m x -> m' !! x = m !! x.
Proof.
  unfold nx, pv. destruct (m !! x) as [[n p]|], (m' !! x) as [[n' p']|]; cbn; congruence.
Qed.

Lemma set_next_run m a v : is_Some (m !! a) -> set_next m (Some a) v = Ret (upd_next a v m).
Proof.
  intros [n E]. cbn. rewrite E. f_equal. apply map_eq. intros x. unfold upd_next.
  destruct (decide (a = x)) as [->|Hne].
  - rewrite lookup_insert_eq, lookup_alter_eq, E. reflexivity.
  - rewrite lookup_insert_ne, lookup_alter_ne by exact Hne. reflexivity.
Qed.
Lemma set_prev_run m a v : is_Some (m !! a) -> set_prev m (Some a) v = Ret (upd_prev a v m).
Proof.
  intros [n E]. cbn. rewrite E. f_equal. apply map_eq. intros x. unfold upd_prev.
  destruct (decide (a = x)) as [->|Hne].
  - rewrite lookup_insert_eq, lookup_alter_eq, E. reflexivity.
  - rewrite lookup_insert_ne, lookup_alter_ne by exact Hne. reflexivity.
Qed.

Lemma load_run m a n p : nx m a = Some n -> pv m a = Some p -> load m (Some a) = Ret (mkHead n p).
Proof. unfold nx, pv. cbn. destruct (m !! a) as [[n' p']|]; cbn; congruence. Qed.

(** What the macros do to the links: [x] comes between [p] and [q]; [x] leaves
    the place between [p] and [q]. *)
Record inserted (p x q : positive) (m m' : links) : Prop := {
  ins_nx : forall y, nx m' y = if decide (y = p) then Some (Some x) else if decide (y = x) then Some (Some q) else nx m y;
  ins_pv : forall y, pv m' y = if decide (y = q) then Some (Some x) else if decide (y = x) then Some (Some p) else pv m y }.

Record removed (p x q : positive) (m m' : links) : Prop := {
  rem_nx : forall y, nx m' y = if decide (y = x) then Some None else if decide (y = p) then Some (Some q) else nx m y;
  rem_pv : forall y, pv m' y = if decide (y = x) then Some None else if decide (y = q) then Some (Some p) else pv m y }.

(** The links after a number of updates. *)
Ltac links :=
  repeat first [rewrite nx_upd_next | rewrite pv_upd_next | rewrite nx_upd_prev | rewrite pv_upd_prev];
  repeat case_decide; simplify_eq/=;
  repeat match goal with H : nx _ _ = Some _ |- _ => progress rewrite H | H : pv _ _ = Some _ |- _ => progress rewrite H end;
  try reflexivity.

Lemma add_run m x p q : nx m p = Some (Some q) -> is_Some (m !! q) -> is_Some (m !! x) -> x <> p -> x <> q ->
  exists m', IQUEUE_ADD (Some x) (Some p) m = Ret m' /\ inserted p x q m m'.
Proof.
  intros Hp Hq Hx Hxp Hxq. pose proof (nx_live _ _ _ Hp) as Hlp. destruct (live_pv _ _ Hlp) as [pp Epp].
  destruct (live_nx _ _ Hx) as [xn Exn]. destruct (live_pv _ _ Hx) as [xp Exp]. destruct (live_pv _ _ Hq) as [qp Eqp].
  eexists. split.
  - unfold IQUEUE_ADD. rewrite set_prev_run by exact Hx. cbn [obind].
    rewrite (load_run _ p (Some q) pp) by links. cbn [obind next].
    rewrite set_next_run by (apply live_upd_prev, Hx). cbn [obind].
    rewrite (load_run _ p (Some q) pp) by links. cbn [obind next].
    rewrite set_prev_run by (apply live_upd_next, live_upd_prev, Hq). cbn [obind].
    apply set_next_run. apply live_upd_prev, live_upd_next, live_upd_prev, Hlp.
  - split; intros y; links.
Qed.

Lemma add_tail_run m x p q : pv m q = Some (Some p) -> is_Some (m !! p) -> is_Some (m !! x) -> x <> p -> x <> q ->
  exists m', IQUEUE_ADD_TAIL (Some x) (Some q) m = Ret m' /\ inserted p x q m m'.
Proof.
  intros Hq Hp Hx Hxp Hxq. pose proof (pv_live _ _ _ Hq) as Hlq. destruct (live_nx _ _ Hlq) as [qn Eqn].
  destruct (live_nx _ _ Hx) as [xn Exn]. destruct (live_pv _ _ Hx) as [xp Exp]. destruct (live_nx _ _ Hp) as [pn Epn].
  eexists. split.
  - unfold IQUEUE_ADD_TAIL. rewrite (load_run _ q qn (Some p)) by assumption. cbn [obind prev].
    rewrite set_prev_run by exact Hx. cbn [obind].
    rewrite set_next_run by (apply live_upd_prev, Hx). cbn [obind].
    rewrite (load_run _ q qn (Some p)) by links. cbn [obind prev].
    rewrite set_next_run by (apply live_upd_next, live_upd_prev, Hp). cbn [obind].
    apply set_prev_run. apply live_upd_next, live_upd_next, live_upd_prev, Hlq.
  - split; intros y; links.
Qed.

Lemma del_run m x p q : nx m x = Some (Some q) -> pv m x = Some (Some p) -> is_Some (m !! p) -> is_Some (m !! q) ->
  x <> p -> x <> q ->
  exists m', IQUEUE_DEL (Some x) m = Ret m' /\ removed p x q m m'.
Proof.
  intros Hn Hv Hp Hq Hxp Hxq. pose proof (nx_live _ _ _ Hn) as Hx.
  destruct (live_nx _ _ Hp) as [pn Epn]. destruct (live_pv _ _ Hq) as [qp Eqp].
  eexists. split.
  - unfold IQUEUE_DEL. rewrite (load_run _ x (Some q) (Some p)) by assumption. cbn [obind next prev].
    rewrite set_prev_run by exact Hq. cbn [obind].
    rewrite (load_run _ x (Some q) (Some p)) by links. cbn [obind next prev].
    rewrite set_next_run by (apply live_upd_prev, Hp). cbn [obind].
    rewrite set_next_run by (apply live_upd_next, live_upd_prev, Hx). cbn [obind].
    apply set_prev_run. apply live_upd_next, live_upd_next, live_upd_prev, Hx.
  - split; intros y; links.
Qed.

(** ** Rings after a run *)

(** The neighbours of a place in the queue. *)
Definition before (h : positive) (l : list positive) : positive := default h (last l).
Definition after (h : positive) (l : list positive) : positive := default h (head l).

Lemma before_snoc h l : exists r, h :: l = r ++ [before h l].
Proof.
  destruct l as [|z l _] using rev_ind; [exists []; reflexivity|].
  exists (h :: l). unfold before. rewrite last_snoc. reflexivity.
Qed.

Lemma after_cons h l : exists r, l ++ [h] = after h l :: r.
Proof. destruct l as [|z l]; eexists; reflexivity. Qed.

(** A ring, cut at a place of the queue. *)
Lemma ring_cut m h l1 l2 : ring m h (l1 ++ l2) <->
  NoDup (h :: l1 ++ l2) /\ chain m (h :: l1) /\ edge m (before h l1) (after h l2) /\ chain m (l2 ++ [h]).
Proof.
  unfold ring. rewrite <- app_assoc. change (h :: l1 ++ l2 ++ [h]) with ((h :: l1) ++ (l2 ++ [h])).
  destruct (before_snoc h l1) as [r ->]. destruct (after_cons h l2) as [r' ->].
  rewrite <- app_assoc. cbn [app]. rewrite chain_app. cbn [chain]. tauto.
Qed.

Lemma before_in h l : before h l ∈ h :: l.
Proof. destruct (before_snoc h l) as [r ->]. apply list_elem_of_In, in_or_app. right. left. reflexivity. Qed.
Lemma after_in h l : after h l ∈ h :: l.
Proof. destruct l as [|z l]; [left|right; left]. Qed.

Lemma before_not_in h l x : NoDup (h :: l) -> x ∈ removelast (h :: l) -> x <> before h l.
Proof.
  destruct (before_snoc h l) as [r E]. rewrite E, removelast_last. intros Hnd Hx ->.
  apply NoDup_app in Hnd as (_ & Hd & _). apply (Hd _ Hx). left.
Qed.
Lemma after_not_in h l x : NoDup (h :: l) -> x ∈ tail (l ++ [h]) -> x <> after h l.
Proof.
  intros Hnd Hx ->. destruct (after_cons h l) as [r E]. rewrite E in Hx. cbn [tail] in Hx.
  assert (Hnd' : NoDup (l ++ [h])). { rewrite <- Permutation_cons_append. exact Hnd. }
  rewrite E in Hnd'. apply NoDup_cons in Hnd' as [Hn _]. exact (Hn Hx).
Qed.

Lemma elem_of_app_left_cons (h : positive) l1 l2 x : x ∈ h :: l1 -> x ∈ h :: l1 ++ l2.
Proof. rewrite !elem_of_cons, elem_of_app. tauto. Qed.
Lemma elem_of_app_right_cons (h : positive) l1 l2 x : x ∈ h :: l2 -> x ∈ h :: l1 ++ l2.
Proof. rewrite !elem_of_cons, elem_of_app. tauto. Qed.

Lemma removelast_in {A : Type} (l : list A) x : x ∈ removelast l -> x ∈ l.
Proof.
  destruct l as [|z l _] using rev_ind; [trivial|]. rewrite removelast_last. rewrite elem_of_app. tauto.
Qed.

(** What the two halves of a cut ring see, when only the links at the cut and
    those of nodes outside change. *)
Lemma halves_frame m m' h l1 l2 : NoDup (h :: l1 ++ l2) ->
  (forall y, y ∈ h :: l1 ++ l2 -> y <> before h l1 -> nx m' y = nx m y) ->
  (forall y, y ∈ h :: l1 ++ l2 -> y <> after h l2 -> pv m' y = pv m y) ->
  chain m (h :: l1) -> chain m (l2 ++ [h]) -> chain m' (h :: l1) /\ chain m' (l2 ++ [h]).
Proof.
  intros Hnd Hn Hp H1 H2. apply NoDup_cons in Hnd as Hnd'. destruct Hnd' as [Hh Hnd'].
  apply NoDup_app in Hnd' as (N1 & Hd & N2).
  assert (Nh1 : NoDup (h :: l1)) by (constructor; [intros Hi; apply Hh; apply elem_of_app; left; exact Hi | exact N1]).
  assert (Nh2 : NoDup (h :: l2)) by (constructor; [intros Hi; apply Hh; apply elem_of_app; right; exact Hi | exact N2]).
  split.
  - revert H1. apply chain_frame; intros y Hy.
    + apply Hn; [|exact (before_not_in h l1 y Nh1 Hy)]. apply removelast_in in Hy.
      apply elem_of_cons in Hy as [->|Hy]; [left|]. right. apply elem_of_app. left. exact Hy.
    + apply Hp; [right; apply elem_of_app; left; exact Hy|]. intros ->. pose proof (after_in h l2) as Ha.
      apply elem_of_cons in Ha as [Ha|Ha]; [|exact (Hd _ Hy Ha)]. rewrite Ha in Hy. inversion Nh1; contradiction.
  - destruct (after_cons h l2) as [r E]. pose proof (fun y => after_not_in h l2 y Nh2) as Hr. rewrite E in *. cbn [tail] in Hr.
    revert H2. apply chain_frame; intros y Hy.
    + rewrite <- E, removelast_last in Hy. apply Hn; [right; apply elem_of_app; right; exact Hy|].
      intros ->. pose proof (before_in h l1) as Hb. apply elem_of_cons in Hb as [Hb|Hb]; [|exact (Hd _ Hb Hy)].
      rewrite Hb in Hy. inversion Nh2; contradiction.
    + apply Hp; [|exact (Hr y Hy)]. assert (Hy' : y ∈ l2 ++ [h]) by (rewrite E; right; exact Hy).
      apply elem_of_app in Hy' as [Hy'|Hy'%list_elem_of_singleton]; [|subst; left]. right. apply elem_of_app. right. exact Hy'.
Qed.

Lemma ring_inserted m m' h l1 x l2 : ring m h (l1 ++ l2) -> x ∉ h :: l1 ++ l2 ->
  inserted (before h l1) x (after h l2) m m' -> ring m' h (l1 ++ x :: l2).
Proof.
  intros H Hx [Hn Hp]. apply ring_cut in H as (Hnd & H1 & He & H2).
  destruct (halves_frame m m' h l1 l2 Hnd) as [H1' H2']; [| |assumption..|].
  - intros y Hy Hb. rewrite Hn, !decide_False; [reflexivity| |assumption]. intros ->. contradiction.
  - intros y Hy Ha. rewrite Hp, !decide_False; [reflexivity| |assumption]. intros ->. contradiction.
  - assert (Hb : x <> before h l1). { intros ->. apply Hx. apply (elem_of_app_left_cons h l1 l2), before_in. }
    assert (Ha : x <> after h l2). { intros ->. apply Hx. apply (elem_of_app_right_cons h l1 l2), after_in. }
    apply ring_cut. split_and!; [| exact H1' | |].
    + revert Hnd Hx. clear. intros Hnd Hx. assert (E : h :: l1 ++ x :: l2 ≡ₚ x :: h :: l1 ++ l2) by solve_Permutation.
      rewrite E. constructor; assumption.
    + cbn. split; [rewrite Hn, decide_True by reflexivity; reflexivity|].
      rewrite Hp, decide_False, decide_True by congruence. reflexivity.
    + cbn [app]. destruct (after_cons h l2) as [r E]. rewrite E in *. split; [|exact H2']. split.
      * rewrite Hn, decide_False, decide_True by congruence. reflexivity.
      * rewrite Hp, decide_True by reflexivity. reflexivity.
Qed.

(** The links of a node in the queue. *)
Lemma ring_links m h l1 x l2 : ring m h (l1 ++ x :: l2) ->
  nx m x = Some (Some (after h l2)) /\ pv m x = Some (Some (before h l1)).
Proof.
  intros (_ & _ & [_ Hp] & H)%ring_cut. split; [|exact Hp]. cbn [app] in H.
  destruct (after_cons h l2) as [r E]. rewrite E in H. apply H.
Qed.

Lemma ring_head m h l1 l2 : ring m h (l1 ++ l2) ->
  nx m (before h l1) = Some (Some (after h l2)) /\ pv m (after h l2) = Some (Some (before h l1)).
Proof. intros (_ & _ & He & _)%ring_cut. exact He. Qed.

Lemma ring_live m h l x : ring m h l -> x ∈ h :: l -> is_Some (m !! x).
Proof.
  intros H [->|Hx]%elem_of_cons.
  - destruct (ring_head m h [] l H) as [E _]. exact (nx_live _ _ _ E).
  - apply list_elem_of_split in Hx as (l1 & l2 & ->). destruct (ring_links _ _ _ _ _ H) as [E _]. exact (nx_live _ _ _ E).
Qed.

Lemma ring_apart m h l1 x l2 : ring m h (l1 ++ x :: l2) -> x ∉ h :: l1 ++ l2.
Proof.
  intros [Hnd _]. assert (E : h :: l1 ++ x :: l2 ≡ₚ x :: h :: l1 ++ l2) by solve_Permutation.
  rewrite E in Hnd. apply NoDup_cons in Hnd. apply Hnd.
Qed.

Lemma ring_removed m m' h l1 x l2 : ring m h (l1 ++ x :: l2) ->
  removed (before h l1) x (after h l2) m m' -> ring m' h (l1 ++ l2).
Proof.
  intros H [Hn Hp]. pose proof (ring_apart _ _ _ _ _ H) as Hx.
  apply ring_cut in H as (Hnd & H1 & _ & H2). cbn [app] in H2.
  assert (Hnd' : NoDup (h :: l1 ++ l2)).
  { assert (E : h :: l1 ++ x :: l2 ≡ₚ x :: h :: l1 ++ l2) by solve_Permutation. rewrite E in Hnd. apply NoDup_cons in Hnd. apply Hnd. }
  assert (H2' : chain m (l2 ++ [h])) by (destruct (after_cons h l2) as [r E]; rewrite E in *; apply H2).
  destruct (halves_frame m m' h l1 l2 Hnd') as [H1'' H2'']; [| |assumption..|].
  - intros y Hy Hb. rewrite Hn, !decide_False; [reflexivity|assumption|]. intros ->. contradiction.
  - intros y Hy Ha. rewrite Hp, !decide_False; [reflexivity|assumption|]. intros ->. contradiction.
  - apply ring_cut. split_and!; [exact Hnd' | exact H1'' | | exact H2'']. split.
    + rewrite Hn, decide_False, decide_True; [reflexivity..|]. intros E. apply Hx. rewrite <- E.
      apply elem_of_app_left_cons, before_in.
    + rewrite Hp, decide_False, decide_True; [reflexivity..|]. intros E. apply Hx. rewrite <- E.
      apply elem_of_app_right_cons, after_in.
Qed.

(** Only nodes of [s] were written. *)
Definition writes_only (s : list positive) (m m' : links) : Prop := forall y, y ∉ s -> m' !! y = m !! y.

Lemma writes_more s s' m m' : writes_only s m m' -> (forall y, y ∈ s -> y ∈ s') -> writes_only s' m m'.
Proof. intros H Hs y Hy. apply H. intros Hy'. exact (Hy (Hs y Hy')). Qed.

Lemma writes_trans s m1 m2 m3 : writes_only s m1 m2 -> writes_only s m2 m3 -> writes_only s m1 m3.
Proof. intros H1 H2 y Hy. rewrite (H2 y Hy). exact (H1 y Hy). Qed.

Lemma inserted_writes p x q m m' : inserted p x q m m' -> writes_only [p; x; q] m m'.
Proof.
  intros [Hn Hp] y Hy. rewrite !not_elem_of_cons in Hy. destruct Hy as (H1 & H2 & H3 & _).
  apply lookup_links; [rewrite Hn | rewrite Hp]; rewrite !decide_False by assumption; reflexivity.
Qed.

Lemma removed_writes p x q m m' : removed p x q m m' -> writes_only [p; x; q] m m'.
Proof.
  intros [Hn Hp] y Hy. rewrite !not_elem_of_cons in Hy. destruct Hy as (H1 & H2 & H3 & _).
  apply lookup_links; [rewrite Hn | rewrite Hp]; rewrite !decide_False by assumption; reflexivity.
Qed.

(** The nodes around a place belong to the queue. *)
Lemma around_in h l1 x l2 y : y ∈ [before h l1; x; after h l2] -> y ∈ x :: h :: l1 ++ l2.
Proof.
  intros [->|[->|[->|Hy]%elem_of_cons]%elem_of_cons]%elem_of_cons; [| left | | inversion Hy]; right.
  - apply elem_of_app_left_cons, before_in.
  - apply elem_of_app_right_cons, after_in.
Qed.

Lemma ring_kept s m m' h l : writes_only s m m' -> (forall y, y ∈ h :: l -> y ∉ s) -> ring m h l -> ring m' h l.
Proof.
  intros Hw Hs [Hnd Hc]. split; [exact Hnd|].
  assert (Hall : forall y, y ∈ h :: l -> m' !! y = m !! y) by (intros y Hy; apply Hw, Hs, Hy).
  revert Hc. apply chain_frame; intros y Hy; unfold nx, pv; rewrite Hall; try reflexivity.
  - change (h :: l ++ [h]) with ((h :: l) ++ [h]) in Hy. rewrite removelast_last in Hy. exact Hy.
  - apply elem_of_app in Hy as [Hy|Hy%list_elem_of_singleton]; [right; exact Hy | subst; left].
Qed.

(** ** The macros on queues *)

Lemma init_ring m h : is_Some (m !! h) ->
  exists m', IQUEUE_INIT (Some h) m = Ret m' /\ ring m' h [] /\ writes_only [h] m m'.
Proof.
  intros Hh. eexists. split; [|split].
  - unfold IQUEUE_INIT. rewrite set_next_run by exact Hh. cbn [obind]. apply set_prev_run, live_upd_next, Hh.
  - destruct (live_nx _ _ Hh) as [n En]. destruct (live_pv _ _ Hh) as [p Ep].
    split; [apply NoDup_singleton|]. split; [|exact I]. split; links.
  - intros y Hy. rewrite not_elem_of_cons in Hy. destruct Hy as [Hy _]. apply lookup_links; links.
Qed.

Lemma add_ring m h l1 l2 x : ring m h (l1 ++ l2) -> is_Some (m !! x) -> x ∉ h :: l1 ++ l2 ->
  exists m', IQUEUE_ADD (Some x) (Some (before h l1)) m = Ret m' /\ ring m' h (l1 ++ x :: l2) /\
    writes_only (x :: h :: l1 ++ l2) m m'.
Proof.
  intros H Hl Hx. destruct (ring_head _ _ _ _ H) as [E1 E2].
  destruct (add_run m x (before h l1) (after h l2)) as (m' & E & Hi); [exact E1 | exact (pv_live _ _ _ E2) | exact Hl | | |].
  - intros ->. apply Hx, elem_of_app_left_cons, before_in.
  - intros ->. apply Hx, elem_of_app_right_cons, after_in.
  - exists m'. split_and!; [exact E | exact (ring_inserted _ _ _ _ _ _ H Hx Hi)|].
    apply (writes_more _ _ _ _ (inserted_writes _ _ _ _ _ Hi)), around_in.
Qed.

Lemma add_tail_ring m h l1 l2 x : ring m h (l1 ++ l2) -> is_Some (m !! x) -> x ∉ h :: l1 ++ l2 ->
  exists m', IQUEUE_ADD_TAIL (Some x) (Some (after h l2)) m = Ret m' /\ ring m' h (l1 ++ x :: l2) /\
    writes_only (x :: h :: l1 ++ l2) m m'.
Proof.
  intros H Hl Hx. destruct (ring_head _ _ _ _ H) as [E1 E2].
  destruct (add_tail_run m x (before h l1) (after h l2)) as (m' & E & Hi); [exact E2 | exact (nx_live _ _ _ E1) | exact Hl | | |].
  - intros ->. apply Hx, elem_of_app_left_cons, before_in.
  - intros ->. apply Hx, elem_of_app_right_cons, after_in.
  - exists m'. split_and!; [exact E | exact (ring_inserted _ _ _ _ _ _ H Hx Hi)|].
    apply (writes_more _ _ _ _ (inserted_writes _ _ _ _ _ Hi)), around_in.
Qed.

Lemma del_ring m h l1 x l2 : ring m h (l1 ++ x :: l2) ->
  exists m', IQUEUE_DEL (Some x) m = Ret m' /\ ring m' h (l1 ++ l2) /\ m' !! x = Some (mkHead None None) /\
    writes_only (x :: h :: l1 ++ l2) m m'.
Proof.
  intros H. destruct (ring_links _ _ _ _ _ H) as [E1 E2]. pose proof (ring_apart _ _ _ _ _ H) as Hx.
  assert (Hin : forall y, y ∈ h :: l1 ++ l2 -> is_Some (m !! y)).
  { intros y Hy. apply (ring_live m h _ y H). rewrite !elem_of_cons, !elem_of_app, ?elem_of_cons in *. tauto. }
  destruct (del_run m x (before h l1) (after h l2)) as (m' & E & Hr); [assumption..| | | | |].
  - apply Hin, elem_of_app_left_cons, before_in.
  - apply Hin, elem_of_app_right_cons, after_in.
  - intros ->. apply Hx, elem_of_app_left_cons, before_in.
  - intros ->. apply Hx, elem_of_app_right_cons, after_in.
  - exists m'. split_and!; [exact E | exact (ring_removed _ _ _ _ _ _ H Hr) | |].
    + pose proof (rem_nx _ _ _ _ _ Hr x) as Hn. pose proof (rem_pv _ _ _ _ _ Hr x) as Hp.
      rewrite decide_True in Hn, Hp by reflexivity. unfold nx, pv in *.
      destruct (m' !! x) as [[n p]|]; cbn in *; congruence.
    + apply (writes_more _ _ _ _ (removed_writes _ _ _ _ _ Hr)), around_in.
Qed.

Lemma ring_size m h l : ring m h l -> (length l <= size m)%nat.
Proof.
  intros H. assert (Hs : list_to_set l ⊆ dom m).
  { intros x Hx. apply elem_of_dom, (ring_live m h l x H). right. apply elem_of_list_to_set in Hx. exact Hx. }
  destruct H as [[_ Hnd]%NoDup_cons _].
  apply subseteq_size in Hs. rewrite size_dom in Hs. rewrite <- (size_list_to_set (C:=gset positive)) by exact Hnd. exact Hs.
Qed.

Lemma foreach_ring m h l2 : forall l1 f, ring m h (l1 ++ l2) -> (length l2 < f)%nat ->
  foreach_loop f (Some (after h l2)) (Some h) m = Ret (map Some l2).
Proof.
  induction l2 as [|x l2 IH]; intros l1 f H Hf; destruct f as [|f]; try (cbn in Hf; lia).
  - cbn. rewrite bool_decide_eq_true_2 by reflexivity. reflexivity.
  - change (after h (x :: l2)) with x. cbn [foreach_loop].
    rewrite bool_decide_eq_false_2.
    2:{ intros [= ->]. apply (ring_apart _ _ _ _ _ H). left. }
    destruct (ring_links _ _ _ _ _ H) as [E1 E2]. rewrite (load_run _ _ _ _ E1 E2). cbn [obind next].
    rewrite (IH (l1 ++ [x]) f); [reflexivity | rewrite <- app_assoc; exact H | cbn in Hf; lia].
Qed.

Lemma foreach_entry_ring m h l : ring m h l -> iqueue_foreach_entry (Some h) m = Ret (map Some l).
Proof.
  intros H. destruct (ring_head m h [] l H) as [E1 _]. change (before h []) with h in E1.
  destruct (live_pv _ _ (nx_live _ _ _ E1)) as [p Ep]. unfold iqueue_foreach_entry.
  rewrite (load_run _ _ _ _ E1 Ep). cbn [obind next]. apply (foreach_ring m h l []); [exact H|].
  pose proof (ring_size m h l H). lia.
Qed.

Lemma is_empty_ring m h l : ring m h l -> IQUEUE_IS_EMPTY (Some h) m = Ret (bool_decide (l = [])).
Proof.
  intros H. destruct (ring_head m h [] l H) as [E1 _]. change (before h []) with h in E1.
  destruct (live_pv _ _ (nx_live _ _ _ E1)) as [p Ep]. unfold IQUEUE_IS_EMPTY.
  rewrite (load_run _ _ _ _ E1 Ep). cbn [obind next]. f_equal. apply bool_decide_ext.
  destruct l as [|x l]; [split; reflexivity|]. split; [|discriminate]. cbn. intros [= ->].
  destruct (ring_apart m _ [] _ l H). left.
Qed.

(** A node moves from one queue to the end of another, as in [ikcp_recv],
    [ikcp_parse_data] and [ikcp_flush]. *)
Definition move_tail (x head : ptr) (m : links) : outcome links :=
  let! m := IQUEUE_DEL x m in
  IQUEUE_ADD_TAIL x head m.

Lemma move_ring m h l1 x l2 h' l : ring m h (l1 ++ x :: l2) -> ring m h' l ->
  (forall y, y ∈ h :: l1 ++ x :: l2 -> y ∉ h' :: l) ->
  exists m', move_tail (Some x) (Some h') m = Ret m' /\ ring m' h (l1 ++ l2) /\ ring m' h' (l ++ [x]) /\
    writes_only (x :: (h :: l1 ++ l2) ++ h' :: l) m m'.
Proof.
  intros H H' Hd. destruct (del_ring _ _ _ _ _ H) as (m1 & E & Hr & Hx & Hw). unfold move_tail. rewrite E. cbn [obind].
  assert (Hperm : forall y, y ∈ x :: h :: l1 ++ l2 -> y ∈ h :: l1 ++ x :: l2).
  { intros y. rewrite !elem_of_cons, !elem_of_app, elem_of_cons. tauto. }
  assert (Hr' : ring m1 h' (l ++ [])).
  { rewrite app_nil_r. apply (ring_kept _ m m1 h' l Hw); [|exact H']. intros y Hy Hy'. exact (Hd y (Hperm y Hy') Hy). }
  assert (Hx' : x ∉ h' :: l ++ []). { rewrite app_nil_r. apply Hd, Hperm. left. }
  destruct (add_tail_ring m1 h' l [] x Hr') as (m2 & E2 & Hr2 & Hw2); [eauto | exact Hx'|].
  rewrite app_nil_r in Hw2. exists m2. split_and!; [exact E2 | | exact Hr2 |].
  - apply (ring_kept _ m1 m2 h _ Hw2); [|exact Hr]. intros y Hy [->|Hy']%elem_of_cons.
    + exact (ring_apart _ _ _ _ _ H Hy).
    + apply (Hd y); [apply Hperm; right; exact Hy | exact Hy'].
  - apply (writes_trans _ m m1 m2); [apply (writes_more _ _ _ _ Hw) | apply (writes_more _ _ _ _ Hw2)];
      intros y [->|Hy]%elem_of_cons; try (left; fail); right; apply elem_of_app; [left | right]; exact Hy.
Qed.

Lemma del_init_ring m h l1 x l2 : ring m h (l1 ++ x :: l2) ->
  exists m', IQUEUE_DEL_INIT (Some x) m = Ret m' /\ ring m' h (l1 ++ l2) /\ ring m' x [] /\
    writes_only (x :: h :: l1 ++ l2) m m'.
Proof.
  intros H. destruct (del_ring _ _ _ _ _ H) as (m1 & E & Hr & Hx & Hw). unfold IQUEUE_DEL_INIT. rewrite E. cbn [obind].
  destruct (init_ring m1 x) as (m2 & E2 & Hr2 & Hw2); [eauto|]. exists m2. split_and!; [exact E2 | | exact Hr2 |].
  - apply (ring_kept _ m1 m2 h _ Hw2); [|exact Hr]. intros y Hy ->%list_elem_of_singleton. exact (ring_apart _ _ _ _ _ H Hy).
  - apply (writes_trans _ _ _ _ Hw), (writes_more _ _ _ _ Hw2). intros y ->%list_elem_of_singleton. left.
Qed.

(** ** Property *)


(** Two queues with the heads 1 and 2; the first holds the nodes 3 and 4. *)
Definition two_queues : gmap positive IQUEUEHEAD :=
  list_to_map [(1%positive, mkHead (Some 3%positive) (Some 4%positive)); (2%positive, mkHead (Some 2%positive) (Some 2%positive));
               (3%positive, mkHead (Some 4%positive) (Some 1%positive)); (4%positive, mkHead (Some 1%positive) (Some 3%positive))].

