(* ===== verification/KcpWire.v ===== *)
(** * KCP wire format (sample_iotcamera/KCP/ikcp.c, "KCP BASIC" and "encode / decode")

    The protocol constants, the segment structure of ikcp.h, the byte-level
    encoders and decoders and the 24-byte segment header.  A write pointer is
    the list of the bytes written so far; a read pointer is the list of the
    bytes still in front of it, and a read past its end yields [None]. *)

From S2P Require Import Prelude.

Local Open Scope Z_scope.

(** ** Constants *)
Definition IKCP_RTO_NDL : Z := 30.
Definition IKCP_RTO_MIN : Z := 100.
Definition IKCP_RTO_DEF : Z := 200.
Definition IKCP_RTO_MAX : Z := 60000.
Definition IKCP_CMD_PUSH : Z := 81.
Definition IKCP_CMD_ACK : Z := 82.
Definition IKCP_CMD_WASK : Z := 83.
Definition IKCP_CMD_WINS : Z := 84.
Definition IKCP_ASK_SEND : Z := 1.
Definition IKCP_ASK_TELL : Z := 2.
Definition IKCP_WND_SND : Z := 32.
Definition IKCP_WND_RCV : Z := 128.
Definition IKCP_MTU_DEF : Z := 1400.
Definition IKCP_INTERVAL : Z := 100.
Definition IKCP_OVERHEAD : Z := 24.
Definition IKCP_DEADLINK : Z := 20.
Definition IKCP_THRESH_INIT : Z := 2.
Definition IKCP_THRESH_MIN : Z := 2.
Definition IKCP_PROBE_INIT : Z := 7000.
Definition IKCP_PROBE_LIMIT : Z := 120000.

(** ** Segments *)
Record IKCPSEG := mkSEG {
  seg_conv : Z; seg_cmd : Z; seg_frg : Z; seg_wnd : Z; seg_ts : Z; seg_sn : Z;
  seg_una : Z; seg_len : Z; seg_resendts : Z; seg_rto : Z; seg_fastack : Z;
  seg_xmit : Z;
  seg_data : list Z }.

Definition seg_eta (s : IKCPSEG) : IKCPSEG :=
  mkSEG (seg_conv s) (seg_cmd s) (seg_frg s) (seg_wnd s) (seg_ts s) (seg_sn s)
        (seg_una s) (seg_len s) (seg_resendts s) (seg_rto s) (seg_fastack s)
        (seg_xmit s) (seg_data s).

#[export] Instance set_seg_conv : Setter seg_conv := ltac:(mk_setter seg_eta).
#[export] Instance set_seg_cmd : Setter seg_cmd := ltac:(mk_setter seg_eta).
#[export] Instance set_seg_frg : Setter seg_frg := ltac:(mk_setter seg_eta).
#[export] Instance set_seg_wnd : Setter seg_wnd := ltac:(mk_setter seg_eta).
#[export] Instance set_seg_ts : Setter seg_ts := ltac:(mk_setter seg_eta).
#[export] Instance set_seg_sn : Setter seg_sn := ltac:(mk_setter seg_eta).
#[export] Instance set_seg_una : Setter seg_una := ltac:(mk_setter seg_eta).
#[export] Instance set_seg_len : Setter seg_len := ltac:(mk_setter seg_eta).
#[export] Instance set_seg_resendts : Setter seg_resendts := ltac:(mk_setter seg_eta).
#[export] Instance set_seg_rto : Setter seg_rto := ltac:(mk_setter seg_eta).
#[export] Instance set_seg_fastack : Setter seg_fastack := ltac:(mk_setter seg_eta).
#[export] Instance set_seg_xmit : Setter seg_xmit := ltac:(mk_setter seg_eta).
#[export] Instance set_seg_data : Setter seg_data := ltac:(mk_setter seg_eta).

(** ** Encoders and decoders *)
Definition ikcp_encode8u (p : list Z) (c : Z) : list Z := p ++ [Z.land c 255].

Definition ikcp_decode8u (p : list Z) : option (Z * list Z) :=
  match p with
  | c :: p' => Some (c, p')
  | _ => None
  end.

Definition ikcp_encode16u (p : list Z) (w : Z) : list Z :=
  p ++ [Z.land w 255; Z.land (Z.shiftr w 8) 255].

Definition ikcp_decode16u (p : list Z) : option (Z * list Z) :=
  match p with
  | b0 :: b1 :: p' => Some (Z.lor b0 (Z.shiftl b1 8), p')
  | _ => None
  end.

Definition ikcp_encode32u (p : list Z) (l : Z) : list Z :=
  p ++ [Z.land (Z.shiftr l 0) 255; Z.land (Z.shiftr l 8) 255;
        Z.land (Z.shiftr l 16) 255; Z.land (Z.shiftr l 24) 255].

Definition ikcp_decode32u (p : list Z) : option (Z * list Z) :=
  match p with
  | b0 :: b1 :: b2 :: b3 :: p' =>
      Some (Z.lor b0 (Z.shiftl (Z.lor b1 (Z.shiftl (Z.lor b2 (Z.shiftl b3 8)) 8)) 8), p')
  | _ => None
  end.

Definition _imin_ (a b : Z) : Z := if a <=? b then a else b.
Definition _imax_ (a b : Z) : Z := if b <=? a then a else b.
Definition _ibound_ (lower middle upper : Z) : Z := _imin_ (_imax_ lower middle) upper.

Definition _itimediff (later earlier : Z) : Z := i32 (u32 (later - earlier)).

(** [ikcp_encode_seg]: the casts to [IUINT8] and [IUINT16] are those of the code. *)
Definition ikcp_encode_seg (ptr : list Z) (seg : IKCPSEG) : list Z :=
  let ptr := ikcp_encode32u ptr (seg_conv seg) in
  let ptr := ikcp_encode8u ptr (u8 (seg_cmd seg)) in
  let ptr := ikcp_encode8u ptr (u8 (seg_frg seg)) in
  let ptr := ikcp_encode16u ptr (u16 (seg_wnd seg)) in
  let ptr := ikcp_encode32u ptr (seg_ts seg) in
  let ptr := ikcp_encode32u ptr (seg_sn seg) in
  let ptr := ikcp_encode32u ptr (seg_una seg) in
  let ptr := ikcp_encode32u ptr (seg_len seg) in
  ptr.

(** The header fields [ikcp_input] reads after the conversation id, in order. *)
Record header := mkHDR {
  h_cmd : Z; h_frg : Z; h_wnd : Z; h_ts : Z; h_sn : Z; h_una : Z; h_len : Z }.

Definition decode_header (data : list Z) : option (header * list Z) :=
  '(cmd, data) ← ikcp_decode8u data;
  '(frg, data) ← ikcp_decode8u data;
  '(wnd, data) ← ikcp_decode16u data;
  '(ts, data) ← ikcp_decode32u data;
  '(sn, data) ← ikcp_decode32u data;
  '(una, data) ← ikcp_decode32u data;
  '(len, data) ← ikcp_decode32u data;
  Some (mkHDR cmd frg wnd ts sn una len, data).

(** [ikcp_getconv]. *)
Definition ikcp_getconv (ptr : list Z) : option Z := fst <$> ikcp_decode32u ptr.

(** ** Byte-level round trips *)
Definition is_bytes (l : list Z) : Prop := Forall is_u8 l.

Lemma land_255 z : Z.land z 255 = z mod 256.
Proof. apply (Z.land_ones z 8). lia. Qed.

Lemma land_shiftl8 a b : is_u8 a -> Z.land a (Z.shiftl b 8) = 0.
Proof.
  intros Ha. apply Z.bits_inj'. intros n Hn. rewrite Z.land_spec, Z.bits_0.
  destruct (Z.ltb_spec n 8).
  - rewrite Z.shiftl_spec_low by lia. apply andb_false_r.
  - rewrite <- (Z.mod_small a (2 ^ 8)), Z.mod_pow2_bits_high by (assumption || lia).
    reflexivity.
Qed.

Lemma lor_shiftl8 a b : is_u8 a -> Z.lor a (Z.shiftl b 8) = a + 256 * b.
Proof.
  intros Ha. rewrite <- Z.lxor_lor, <- Z.add_nocarry_lxor by (apply land_shiftl8, Ha).
  rewrite Z.shiftl_mul_pow2 by lia. change (2 ^ 8) with 256. lia.
Qed.

Lemma decode_encode16 w p : is_u16 w -> ikcp_decode16u (ikcp_encode16u [] w ++ p) = Some (w, p).
Proof.
  intros Hw. unfold ikcp_encode16u, ikcp_decode16u. cbn [app].
  rewrite !land_255, Z.shiftr_div_pow2, lor_shiftl8 by (lia || apply u8_range).
  change (2 ^ 8) with 256. do 2 f_equal. wrap_lia.
Qed.

Lemma decode_encode32 l p : is_u32 l -> ikcp_decode32u (ikcp_encode32u [] l ++ p) = Some (l, p).
Proof.
  intros Hl. unfold ikcp_encode32u, ikcp_decode32u. cbn [app].
  rewrite !land_255, !Z.shiftr_div_pow2 by lia.
  rewrite !lor_shiftl8 by apply u8_range.
  change (2 ^ 0) with 1; change (2 ^ 8) with 256;
    change (2 ^ 16) with 65536; change (2 ^ 24) with 16777216.
  do 2 f_equal. wrap_lia.
Qed.

Lemma decode_encode8 c p : is_u8 c -> ikcp_decode8u (ikcp_encode8u [] c ++ p) = Some (c, p).
Proof.
  intros Hc. unfold ikcp_encode8u, ikcp_decode8u. cbn [app]. rewrite land_255.
  do 2 f_equal. wrap_lia.
Qed.

Lemma encode8_app p c : ikcp_encode8u p c = p ++ ikcp_encode8u [] c.
Proof. reflexivity. Qed.
Lemma encode16_app p c : ikcp_encode16u p c = p ++ ikcp_encode16u [] c.
Proof. reflexivity. Qed.
Lemma encode32_app p c : ikcp_encode32u p c = p ++ ikcp_encode32u [] c.
Proof. reflexivity. Qed.

Lemma encode8_length c : length (ikcp_encode8u [] c) = 1%nat.
Proof. reflexivity. Qed.
Lemma encode16_length w : length (ikcp_encode16u [] w) = 2%nat.
Proof. reflexivity. Qed.
Lemma encode32_length l : length (ikcp_encode32u [] l) = 4%nat.
Proof. reflexivity. Qed.

Lemma ikcp_encode_seg_app ptr seg : ikcp_encode_seg ptr seg = ptr ++ ikcp_encode_seg [] seg.
Proof.
  unfold ikcp_encode_seg. cbv zeta.
  unfold ikcp_encode8u, ikcp_encode16u, ikcp_encode32u.
  rewrite <- !app_assoc. reflexivity.
Qed.

Lemma ikcp_encode_seg_length ptr seg :
  length (ikcp_encode_seg ptr seg) = (length ptr + 24)%nat.
Proof. rewrite ikcp_encode_seg_app, length_app. reflexivity. Qed.

Lemma encode8_bytes c : is_bytes (ikcp_encode8u [] c).
Proof. repeat constructor; rewrite land_255; apply u8_range. Qed.

Lemma ikcp_encode_seg_bytes seg : is_bytes (ikcp_encode_seg [] seg).
Proof.
  unfold ikcp_encode_seg. cbv zeta.
  unfold ikcp_encode8u, ikcp_encode16u, ikcp_encode32u, is_bytes.
  rewrite !Forall_app. repeat split; repeat constructor; rewrite land_255; apply u8_range.
Qed.

Create Rewrite HintDb wire.
#[export] Hint Rewrite encode8_length encode16_length encode32_length
  ikcp_encode_seg_length : wire.
Arguments ikcp_encode8u : simpl never.
Arguments ikcp_encode16u : simpl never.
Arguments ikcp_encode32u : simpl never.
Arguments ikcp_decode8u : simpl never.
Arguments ikcp_decode16u : simpl never.
Arguments ikcp_decode32u : simpl never.
Arguments ikcp_encode_seg : simpl never.
Arguments decode_header : simpl never.

(** What a segment header carries: every field truncated to its width on the wire. *)
Definition seg_header (s : IKCPSEG) : header :=
  mkHDR (u8 (seg_cmd s)) (u8 (seg_frg s)) (u16 (seg_wnd s)) (seg_ts s) (seg_sn s)
        (seg_una s) (seg_len s).

(** The 32-bit fields of a segment are in range. *)
Definition seg_u32 (s : IKCPSEG) : Prop :=
  is_u32 (seg_conv s) /\ is_u32 (seg_ts s) /\ is_u32 (seg_sn s) /\
  is_u32 (seg_una s) /\ is_u32 (seg_len s).

Lemma encode_seg_split s :
  ikcp_encode_seg [] s =
  ikcp_encode32u [] (seg_conv s) ++ ikcp_encode8u [] (u8 (seg_cmd s)) ++
  ikcp_encode8u [] (u8 (seg_frg s)) ++ ikcp_encode16u [] (u16 (seg_wnd s)) ++
  ikcp_encode32u [] (seg_ts s) ++ ikcp_encode32u [] (seg_sn s) ++
  ikcp_encode32u [] (seg_una s) ++ ikcp_encode32u [] (seg_len s).
Proof. reflexivity. Qed.

Lemma decode_encode_seg s p :
  seg_u32 s ->
  exists data, ikcp_decode32u (ikcp_encode_seg [] s ++ p) = Some (seg_conv s, data) /\
               decode_header data = Some (seg_header s, p).
Proof.
  intros (Hc & Ht & Hs & Hu & Hl). rewrite encode_seg_split, <- !app_assoc.
  eexists. split; [apply decode_encode32, Hc|].
  unfold decode_header.
  rewrite decode_encode8 by apply u8_range; cbn.
  rewrite decode_encode8 by apply u8_range; cbn.
  rewrite decode_encode16 by apply u16_range; cbn.
  rewrite !decode_encode32 by assumption; cbn.
  rewrite !decode_encode32 by assumption; cbn.
  rewrite !decode_encode32 by assumption; cbn.
  rewrite !decode_encode32 by assumption; cbn.
  reflexivity.
Qed.

(** ** Sequence-number arithmetic *)
Lemma itimediff_range a b : is_i32 (_itimediff a b).
Proof. apply i32_range. Qed.

Lemma itimediff_offset a d : is_i32 d -> _itimediff (u32 (a + d)) a = d.
Proof. unfold _itimediff. wrap_lia. Qed.

Lemma itimediff_self a : _itimediff a a = 0.
Proof. unfold _itimediff. wrap_lia. Qed.

(** Within half the number space the wrapped difference is the true one. *)
Lemma itimediff_small a b : is_i32 (a - b) -> _itimediff a b = a - b.
Proof. unfold _itimediff. wrap_lia. Qed.

Lemma itimediff_u32_l a b : _itimediff (u32 a) b = _itimediff a b.
Proof. unfold _itimediff. wrap_lia. Qed.

Lemma itimediff_u32_r a b : _itimediff a (u32 b) = _itimediff a b.
Proof. unfold _itimediff. wrap_lia. Qed.

#[export] Hint Rewrite itimediff_u32_l itimediff_u32_r itimediff_self : ints.
Arguments _itimediff : simpl never.

(** ** What a decoder returns *)
Definition header_wf (h : header) : Prop :=
  is_u8 (h_cmd h) /\ is_u8 (h_frg h) /\ is_u16 (h_wnd h) /\ is_u32 (h_ts h) /\
  is_u32 (h_sn h) /\ is_u32 (h_una h) /\ is_u32 (h_len h).

Lemma decode8_inv p c p' :
  is_bytes p -> ikcp_decode8u p = Some (c, p') ->
  is_u8 c /\ is_bytes p' /\ length p = S (length p').
Proof.
  unfold ikcp_decode8u. destruct p as [|b p]; [discriminate|]. intros Hp [= <- <-]. inv Hp. auto.
Qed.

Lemma decode16_inv p c p' :
  is_bytes p -> ikcp_decode16u p = Some (c, p') ->
  is_u16 c /\ is_bytes p' /\ length p = S (S (length p')).
Proof.
  unfold ikcp_decode16u. destruct p as [|b0 [|b1 p]]; try discriminate.
  intros Hp [= <- <-]. inv Hp. inv H2. rewrite lor_shiftl8 by assumption.
  split; [rlia|auto].
Qed.

Lemma decode32_inv p c p' :
  is_bytes p -> ikcp_decode32u p = Some (c, p') ->
  is_u32 c /\ is_bytes p' /\ length p = S (S (S (S (length p')))).
Proof.
  unfold ikcp_decode32u. destruct p as [|b0 [|b1 [|b2 [|b3 p]]]]; try discriminate.
  intros Hp [= <- <-]. inv Hp. inv H2. inv H4. inv H5.
  rewrite !lor_shiftl8 by assumption. split; [rlia|auto].
Qed.

Lemma decode_header_inv p h p' :
  is_bytes p -> decode_header p = Some (h, p') ->
  header_wf h /\ is_bytes p' /\ length p = (20 + length p')%nat.
Proof.
  intros Hp. unfold decode_header.
  destruct (ikcp_decode8u p) as [[cmd p1]|] eqn:E1; [|discriminate]. cbn.
  destruct (ikcp_decode8u p1) as [[frg p2]|] eqn:E2; [|discriminate]. cbn.
  destruct (ikcp_decode16u p2) as [[wnd p3]|] eqn:E3; [|discriminate]. cbn.
  destruct (ikcp_decode32u p3) as [[ts p4]|] eqn:E4; [|discriminate]. cbn.
  destruct (ikcp_decode32u p4) as [[sn p5]|] eqn:E5; [|discriminate]. cbn.
  destruct (ikcp_decode32u p5) as [[una p6]|] eqn:E6; [|discriminate]. cbn.
  destruct (ikcp_decode32u p6) as [[len p7]|] eqn:E7; [|discriminate]. cbn.
  intros [= <- <-].
  apply decode8_inv in E1 as (? & B1 & L1); [|assumption].
  apply decode8_inv in E2 as (? & B2 & L2); [|assumption].
  apply decode16_inv in E3 as (? & B3 & L3); [|assumption].
  apply decode32_inv in E4 as (? & B4 & L4); [|assumption].
  apply decode32_inv in E5 as (? & B5 & L5); [|assumption].
  apply decode32_inv in E6 as (? & B6 & L6); [|assumption].
  apply decode32_inv in E7 as (? & B7 & L7); [|assumption].
  unfold header_wf. cbn. split; [tauto|]. split; [assumption|lia].
Qed.

(** A decoder fails only when its bytes are not there. *)
Lemma decode32_total p : (4 <= length p)%nat -> exists c p', ikcp_decode32u p = Some (c, p').
Proof.
  destruct p as [|b0 [|b1 [|b2 [|b3 p]]]]; simpl; try lia. intros _. do 2 eexists. reflexivity.
Qed.

Lemma decode_header_total p :
  (20 <= length p)%nat -> exists h p', decode_header p = Some (h, p').
Proof.
  intros H. do 20 (destruct p as [|? p]; [simpl in H; lia|]). do 2 eexists. reflexivity.
Qed.
