(* ===== verification/KcpSeq.v ===== *)
(** * Lists of segments in sequence order

    [snd_buf] and [rcv_buf] are kept in the order of their sequence numbers,
    which live on a circle of 2^32.  [sn_sorted base lo hi l] says that, seen
    from [base], the numbers of [l] lie at strictly increasing distances in
    [[lo, hi)].  The lemmas describe what the list walks of the code do to such
    a list. *)

From S2P Require Import Prelude KcpWire.

Local Open Scope Z_scope.

(** Distance of a segment from [base]. *)
Definition off (base : Z) (s : IKCPSEG) : Z := _itimediff (seg_sn s) base.

Fixpoint sn_sorted (base lo hi : Z) (l : list IKCPSEG) : Prop :=
  match l with
  | [] => True
  | s :: l' =>
      is_u32 (seg_sn s) /\ lo <= off base s < hi /\ sn_sorted base (off base s + 1) hi l'
  end.

Lemma sn_sorted_weaken base lo lo' hi hi' l :
  lo' <= lo -> hi <= hi' -> sn_sorted base lo hi l -> sn_sorted base lo' hi' l.
Proof.
  revert lo lo'. induction l as [|s l IH]; simpl; [auto|].
  intros lo lo' Hlo Hhi (Hs & Ho & Hl). split; [assumption|]. split; [lia|].
  eapply IH; [| |exact Hl]; lia.
Qed.

Lemma sn_sorted_app base lo hi l1 l2 :
  sn_sorted base lo hi (l1 ++ l2) <->
  sn_sorted base lo hi l1 /\
  sn_sorted base (match last l1 with Some s => off base s + 1 | None => lo end) hi l2.
Proof.
  revert lo. induction l1 as [|s l1 IH]; intros lo; [simpl; tauto|].
  cbn [app sn_sorted]. rewrite IH. destruct l1 as [|s' l1]; [simpl; tauto|].
  rewrite last_cons_cons. destruct (last (s' :: l1)) eqn:E; [tauto|].
  apply last_None in E. discriminate.
Qed.

Lemma sn_sorted_Forall base lo hi l :
  sn_sorted base lo hi l -> Forall (fun s => is_u32 (seg_sn s) /\ lo <= off base s < hi) l.
Proof.
  revert lo. induction l as [|s l IH]; intros lo; simpl; [constructor|].
  intros (Hs & Ho & Hl). constructor; [tauto|]. apply IH in Hl.
  eapply Forall_impl; [exact Hl|]. simpl. intros x [Hx Hx']. split; [assumption|lia].
Qed.

(** The number at distance [o] from [base]. *)
Lemma sn_of_off base s :
  is_u32 (seg_sn s) -> seg_sn s = u32 (base + off base s).
Proof. unfold off, _itimediff. wrap_lia. Qed.

(** Moving the base forward by [d] moves every distance back by [d]. *)
Lemma off_rebase base d s :
  0 <= d -> is_i32 (off base s) -> is_i32 (off base s - d) ->
  off (u32 (base + d)) s = off base s - d.
Proof. unfold off, _itimediff. wrap_lia. Qed.

Lemma sn_sorted_rebase base d lo hi l :
  0 <= d -> d <= lo -> 0 <= lo -> hi <= 2147483648 ->
  sn_sorted base lo hi l -> sn_sorted (u32 (base + d)) (lo - d) (hi - d) l.
Proof.
  intros Hd. revert lo. induction l as [|s l IH]; intros lo Hlo H0 Hhi; simpl; [auto|].
  intros (Hs & Ho & Hl). rewrite (off_rebase base d s) by rlia.
  split; [assumption|]. split; [lia|].
  replace (off base s - d + 1) with (off base s + 1 - d) by lia. apply IH; [lia..|exact Hl].
Qed.

(** In a sorted list a number occurs once. *)
Lemma sn_sorted_NoDup base lo hi l :
  -2147483648 <= lo -> hi <= 2147483648 -> sn_sorted base lo hi l -> NoDup (map seg_sn l).
Proof.
  intros Hlo Hhi. revert lo Hlo. induction l as [|s l IH]; intros lo Hlo; simpl; [constructor|].
  intros (Hs & Ho & Hl). constructor; [|eapply IH; [|exact Hl]; lia].
  intros (s' & E & Hin)%list_elem_of_fmap.
  eapply Forall_forall in Hin; [|apply (sn_sorted_Forall _ _ _ _ Hl)].
  destruct Hin as [_ Hin]. unfold off in *. rewrite <- E in Hin. lia.
Qed.

Lemma off_inj base s s' :
  is_u32 (seg_sn s) -> is_u32 (seg_sn s') -> off base s = off base s' -> seg_sn s = seg_sn s'.
Proof. unfold off, _itimediff. wrap_lia. Qed.

(** Comparing two numbers of the list compares their distances. *)
Lemma itimediff_off base sn s :
  is_i32 (_itimediff sn base - off base s) ->
  _itimediff sn (seg_sn s) = _itimediff sn base - off base s.
Proof. unfold off, _itimediff. wrap_lia. Qed.

(** The update of a field other than the number keeps the order. *)
Lemma sn_sorted_map base lo hi f l :
  (forall s, seg_sn (f s) = seg_sn s) ->
  sn_sorted base lo hi l -> sn_sorted base lo hi (map f l).
Proof.
  intros Hf. revert lo. induction l as [|s l IH]; intros lo; simpl; [auto|].
  unfold off. rewrite Hf. intros (Hs & Ho & Hl). auto.
Qed.

(** The same for lists that agree on the numbers. *)
Lemma sn_sorted_ext base lo hi l l' :
  map seg_sn l = map seg_sn l' -> sn_sorted base lo hi l -> sn_sorted base lo hi l'.
Proof.
  revert lo l'. induction l as [|s l IH]; intros lo [|s' l']; simpl; try discriminate; [auto|].
  intros [= E El]. unfold off. rewrite <- E. intros (Hs & Ho & Hl). eauto.
Qed.
