(* ===== verification/KcpState.v ===== *)
(** * KCP control block (ikcp.h [struct IKCPCB]; ikcp.c creation, release, configuration)

    The control block with the fields of the C structure, the allocator the
    code goes through, the log and output callbacks, and the operations that
    create, release and configure a block.

    Three fields are read differently from C.  The four intrusive queues are
    lists in queue order (IQueue.v relates the pointer macros to lists).
    [buffer] is the size in bytes of the scratch block it points to
    ([buffer_cap]); what [ikcp_flush] writes there is local to one call.
    [output] and [writelog] say whether the callback is installed; their calls
    are recorded in order in [trace], a field the code does not have. *)

From S2P Require Import Prelude KcpWire.

Local Open Scope Z_scope.

(** What the environment sees of a control block: datagrams handed to [output]
    and log lines handed to [writelog] (by log class, the text is left out). *)
Inductive kevent :=
| EvOutput (data : list Z)
| EvLog (mask : Z).

Record ikcpcb := mkKCB {
  conv : Z; mtu : Z; mss : Z; state : Z; snd_una : Z; snd_nxt : Z; rcv_nxt : Z;
  ts_recent : Z; ts_lastack : Z; ssthresh : Z; rx_rttval : Z; rx_srtt : Z; rx_rto : Z;
  rx_minrto : Z; snd_wnd : Z; rcv_wnd : Z; rmt_wnd : Z; cwnd : Z; probe : Z; current :
  Z; interval : Z; ts_flush : Z; xmit : Z; nrcv_buf : Z; nsnd_buf : Z; nrcv_que : Z;
  nsnd_que : Z; nodelay : Z; updated : Z; ts_probe : Z; probe_wait : Z; dead_link : Z;
  incr : Z; snd_queue : list IKCPSEG; rcv_queue : list IKCPSEG; snd_buf : list IKCPSEG;
  rcv_buf : list IKCPSEG; acklist : list (Z * Z); ackcount : Z; ackblock : Z; user : Z;
  buffer_cap : Z; fastresend : Z; nocwnd : Z; stream : Z; logmask : Z; output : bool;
  writelog : bool; trace : list kevent }.

Definition kcb_eta (k : ikcpcb) : ikcpcb :=
  mkKCB (conv k) (mtu k) (mss k) (state k) (snd_una k) (snd_nxt k) (rcv_nxt k)
    (ts_recent k) (ts_lastack k) (ssthresh k) (rx_rttval k) (rx_srtt k) (rx_rto k)
    (rx_minrto k) (snd_wnd k) (rcv_wnd k) (rmt_wnd k) (cwnd k) (probe k) (current k)
    (interval k) (ts_flush k) (xmit k) (nrcv_buf k) (nsnd_buf k) (nrcv_que k) (nsnd_que
    k) (nodelay k) (updated k) (ts_probe k) (probe_wait k) (dead_link k) (incr k)
    (snd_queue k) (rcv_queue k) (snd_buf k) (rcv_buf k) (acklist k) (ackcount k)
    (ackblock k) (user k) (buffer_cap k) (fastresend k) (nocwnd k) (stream k) (logmask
    k) (output k) (writelog k) (trace k).

#[export] Instance set_conv : Setter conv := ltac:(mk_setter kcb_eta).
#[export] Instance set_mtu : Setter mtu := ltac:(mk_setter kcb_eta).
#[export] Instance set_mss : Setter mss := ltac:(mk_setter kcb_eta).
#[export] Instance set_state : Setter state := ltac:(mk_setter kcb_eta).
#[export] Instance set_snd_una : Setter snd_una := ltac:(mk_setter kcb_eta).
#[export] Instance set_snd_nxt : Setter snd_nxt := ltac:(mk_setter kcb_eta).
#[export] Instance set_rcv_nxt : Setter rcv_nxt := ltac:(mk_setter kcb_eta).
#[export] Instance set_ts_recent : Setter ts_recent := ltac:(mk_setter kcb_eta).
#[export] Instance set_ts_lastack : Setter ts_lastack := ltac:(mk_setter kcb_eta).
#[export] Instance set_ssthresh : Setter ssthresh := ltac:(mk_setter kcb_eta).
#[export] Instance set_rx_rttval : Setter rx_rttval := ltac:(mk_setter kcb_eta).
#[export] Instance set_rx_srtt : Setter rx_srtt := ltac:(mk_setter kcb_eta).
#[export] Instance set_rx_rto : Setter rx_rto := ltac:(mk_setter kcb_eta).
#[export] Instance set_rx_minrto : Setter rx_minrto := ltac:(mk_setter kcb_eta).
#[export] Instance set_snd_wnd : Setter snd_wnd := ltac:(mk_setter kcb_eta).
#[export] Instance set_rcv_wnd : Setter rcv_wnd := ltac:(mk_setter kcb_eta).
#[export] Instance set_rmt_wnd : Setter rmt_wnd := ltac:(mk_setter kcb_eta).
#[export] Instance set_cwnd : Setter cwnd := ltac:(mk_setter kcb_eta).
#[export] Instance set_probe : Setter probe := ltac:(mk_setter kcb_eta).
#[export] Instance set_current : Setter current := ltac:(mk_setter kcb_eta).
#[export] Instance set_interval : Setter interval := ltac:(mk_setter kcb_eta).
#[export] Instance set_ts_flush : Setter ts_flush := ltac:(mk_setter kcb_eta).
#[export] Instance set_xmit : Setter xmit := ltac:(mk_setter kcb_eta).
#[export] Instance set_nrcv_buf : Setter nrcv_buf := ltac:(mk_setter kcb_eta).
#[export] Instance set_nsnd_buf : Setter nsnd_buf := ltac:(mk_setter kcb_eta).
#[export] Instance set_nrcv_que : Setter nrcv_que := ltac:(mk_setter kcb_eta).
#[export] Instance set_nsnd_que : Setter nsnd_que := ltac:(mk_setter kcb_eta).
#[export] Instance set_nodelay : Setter nodelay := ltac:(mk_setter kcb_eta).
#[export] Instance set_updated : Setter updated := ltac:(mk_setter kcb_eta).
#[export] Instance set_ts_probe : Setter ts_probe := ltac:(mk_setter kcb_eta).
#[export] Instance set_probe_wait : Setter probe_wait := ltac:(mk_setter kcb_eta).
#[export] Instance set_dead_link : Setter dead_link := ltac:(mk_setter kcb_eta).
#[export] Instance set_incr : Setter incr := ltac:(mk_setter kcb_eta).
#[export] Instance set_snd_queue : Setter snd_queue := ltac:(mk_setter kcb_eta).
#[export] Instance set_rcv_queue : Setter rcv_queue := ltac:(mk_setter kcb_eta).
#[export] Instance set_snd_buf : Setter snd_buf := ltac:(mk_setter kcb_eta).
#[export] Instance set_rcv_buf : Setter rcv_buf := ltac:(mk_setter kcb_eta).
#[export] Instance set_acklist : Setter acklist := ltac:(mk_setter kcb_eta).
#[export] Instance set_ackcount : Setter ackcount := ltac:(mk_setter kcb_eta).
#[export] Instance set_ackblock : Setter ackblock := ltac:(mk_setter kcb_eta).
#[export] Instance set_user : Setter user := ltac:(mk_setter kcb_eta).
#[export] Instance set_buffer_cap : Setter buffer_cap := ltac:(mk_setter kcb_eta).
#[export] Instance set_fastresend : Setter fastresend := ltac:(mk_setter kcb_eta).
#[export] Instance set_nocwnd : Setter nocwnd := ltac:(mk_setter kcb_eta).
#[export] Instance set_stream : Setter stream := ltac:(mk_setter kcb_eta).
#[export] Instance set_logmask : Setter logmask := ltac:(mk_setter kcb_eta).
#[export] Instance set_output : Setter output := ltac:(mk_setter kcb_eta).
#[export] Instance set_writelog : Setter writelog := ltac:(mk_setter kcb_eta).
#[export] Instance set_trace : Setter trace := ltac:(mk_setter kcb_eta).

(** ** Memory

    [ikcp_malloc] with its hook resolved: whether a request of this size
    succeeds, and what a fresh segment block holds before the code fills it. *)
Class Alloc := {
  malloc_ok : Z -> bool;
  seg_block : Z -> IKCPSEG }.

(** A fresh block has as many bytes as were asked for. *)
Class AllocSized (A : Alloc) : Prop := {
  seg_block_len : forall n, 0 <= n -> lenZ (seg_data (seg_block n)) = n;
  seg_block_bytes : forall n, is_bytes (seg_data (seg_block n)) }.

(** The call stopped where a request for memory was refused: an [assert] on the
    block, or the first store through the null pointer.  Only with an allocator
    that does refuse some request. *)
Definition out_of_memory {A : Alloc} {X : Type} (o : outcome X) : Prop :=
  (o = Crash AssertFail \/ o = Crash NullDeref) /\ exists n, malloc_ok n = false.

Lemma oom_assert {A : Alloc} {X : Type} n :
  malloc_ok n = false -> out_of_memory (Crash AssertFail : outcome X).
Proof. intros H. split; [auto | exists n; exact H]. Qed.

Lemma oom_null {A : Alloc} {X : Type} n :
  malloc_ok n = false -> out_of_memory (Crash NullDeref : outcome X).
Proof. intros H. split; [auto | exists n; exact H]. Qed.

Lemma oom_Ret {A : Alloc} {X : Type} (x : X) : ~ out_of_memory (Ret x).
Proof. intros [[|] _]; discriminate. Qed.

Lemma oom_bind {A : Alloc} {X Y : Type} (o : outcome X) (f : X -> outcome Y) :
  out_of_memory o -> out_of_memory (obind o f).
Proof. intros [[->| ->] H]; (split; [auto | exact H]). Qed.

#[export] Hint Resolve oom_assert oom_null oom_bind : core.

Definition sizeof_IKCPSEG : Z := 60.
Definition sizeof_IKCPCB : Z := 208.

Definition ikcp_segment_new {A : Alloc} (size : Z) : option IKCPSEG :=
  if malloc_ok (u32 (sizeof_IKCPSEG + size)) then Some (seg_block size) else None.

(** ** Log and output *)
Definition IKCP_LOG_OUTPUT : Z := 1.
Definition IKCP_LOG_INPUT : Z := 2.
Definition IKCP_LOG_RECV : Z := 8.
Definition IKCP_LOG_IN_DATA : Z := 16.
Definition IKCP_LOG_IN_ACK : Z := 32.
Definition IKCP_LOG_IN_PROBE : Z := 64.
Definition IKCP_LOG_IN_WINS : Z := 128.

Definition ikcp_canlog (k : ikcpcb) (mask : Z) : bool :=
  if (Z.land mask (logmask k) =? 0) || negb (writelog k) then false else true.

Definition ikcp_log (k : ikcpcb) (mask : Z) : ikcpcb :=
  if (Z.land mask (logmask k) =? 0) || negb (writelog k) then k
  else k <| trace := trace k ++ [EvLog mask] |>.

(** [if (ikcp_canlog(kcp, test)) ikcp_log(kcp, mask, ...)] *)
Definition log_if (k : ikcpcb) (test mask : Z) : ikcpcb :=
  if ikcp_canlog k test then ikcp_log k mask else k.

(** The result of the callback is dropped by every caller. *)
Definition ikcp_output (k : ikcpcb) (data : list Z) : outcome ikcpcb :=
  if negb (output k) then Crash AssertFail
  else
    let k := log_if k IKCP_LOG_OUTPUT IKCP_LOG_OUTPUT in
    if lenZ data =? 0 then Ret k
    else Ret (k <| trace := trace k ++ [EvOutput data] |>).

(** ** Creation and release *)
Definition ikcp_create {A : Alloc} (conv user : Z) : option ikcpcb :=
  if negb (malloc_ok sizeof_IKCPCB) then None
  else
    let mtu := IKCP_MTU_DEF in
    let mss := u32 (mtu - IKCP_OVERHEAD) in
    let cap := u32 ((mtu + IKCP_OVERHEAD) * 3) in
    if negb (malloc_ok cap) then None
    else Some {|
      conv := conv; user := user;
      snd_una := 0; snd_nxt := 0; rcv_nxt := 0;
      ts_recent := 0; ts_lastack := 0; ts_probe := 0; probe_wait := 0;
      snd_wnd := IKCP_WND_SND; rcv_wnd := IKCP_WND_RCV; rmt_wnd := IKCP_WND_RCV;
      cwnd := 0; incr := 0; probe := 0;
      mtu := mtu; mss := mss; stream := 0;
      buffer_cap := cap;
      snd_queue := []; rcv_queue := []; snd_buf := []; rcv_buf := [];
      nrcv_buf := 0; nsnd_buf := 0; nrcv_que := 0; nsnd_que := 0;
      state := 0; acklist := []; ackblock := 0; ackcount := 0;
      rx_srtt := 0; rx_rttval := 0; rx_rto := IKCP_RTO_DEF; rx_minrto := IKCP_RTO_MIN;
      current := 0; interval := IKCP_INTERVAL; ts_flush := IKCP_INTERVAL;
      nodelay := 0; updated := 0; logmask := 0; ssthresh := IKCP_THRESH_INIT;
      fastresend := 0; nocwnd := 0; xmit := 0; dead_link := IKCP_DEADLINK;
      output := false; writelog := false;
      trace := [] |}.

(** What a release hands back to the allocator, in order. *)
Inductive block := BSeg (s : IKCPSEG) | BBuffer | BAcklist | BKcb.

(** [while (!iqueue_is_empty(q)) { seg = first; iqueue_del; ikcp_segment_delete }] *)
Fixpoint drain (q : list IKCPSEG) : list block :=
  match q with
  | [] => []
  | seg :: q' => BSeg seg :: drain q'
  end.

Definition ikcp_release (k : ikcpcb) : list block :=
  drain (snd_buf k) ++ drain (rcv_buf k) ++ drain (snd_queue k) ++ drain (rcv_queue k) ++
  [BBuffer] ++ (if ackblock k =? 0 then [] else [BAcklist]) ++ [BKcb].

(** ** Configuration *)
Definition ikcp_setoutput (k : ikcpcb) (out : bool) : ikcpcb := k <| output := out |>.

(** [ikcp_setmtu]: the sum and product are [unsigned] because [IKCP_OVERHEAD] is. *)
Definition ikcp_setmtu {A : Alloc} (k : ikcpcb) (m : Z) : Z * ikcpcb :=
  if (m <? 50) || (m <? IKCP_OVERHEAD) then (-1, k)
  else
    let cap := u32 (u32 (m + IKCP_OVERHEAD) * 3) in
    if negb (malloc_ok cap) then (-2, k)
    else
      let k := k <| mtu := m |> in
      let k := k <| mss := u32 (mtu k - IKCP_OVERHEAD) |> in
      (0, k <| buffer_cap := cap |>).

Definition ikcp_interval (k : ikcpcb) (iv : Z) : Z * ikcpcb :=
  let iv := if 5000 <? iv then 5000 else if iv <? 10 then 10 else iv in
  (0, k <| interval := iv |>).

Definition ikcp_nodelay (k : ikcpcb) (nd iv resend nc : Z) : Z * ikcpcb :=
  let k :=
    if 0 <=? nd then
      let k := k <| nodelay := nd |> in
      if negb (nd =? 0) then k <| rx_minrto := IKCP_RTO_NDL |>
      else k <| rx_minrto := IKCP_RTO_MIN |>
    else k in
  let k :=
    if 0 <=? iv then
      let iv := if 5000 <? iv then 5000 else if iv <? 10 then 10 else iv in
      k <| interval := iv |>
    else k in
  let k := if 0 <=? resend then k <| fastresend := resend |> else k in
  let k := if 0 <=? nc then k <| nocwnd := nc |> else k in
  (0, k).

Definition ikcp_wndsize (k : ikcpcb) (sndwnd rcvwnd : Z) : Z * ikcpcb :=
  let k := if 0 <? sndwnd then k <| snd_wnd := sndwnd |> else k in
  let k := if 0 <? rcvwnd then k <| rcv_wnd := _imax_ rcvwnd IKCP_WND_RCV |> else k in
  (0, k).

Definition ikcp_waitsnd (k : ikcpcb) : Z := i32 (u32 (nsnd_buf k + nsnd_que k)).

Definition ikcp_wnd_unused (k : ikcpcb) : Z :=
  if nrcv_que k <? rcv_wnd k then i32 (u32 (rcv_wnd k - nrcv_que k)) else 0.
