(* ===== verification/KcpSend.v ===== *)
(** * KCP: sending (ikcp.c [ikcp_send])

    The user side of the sender: appending to the last queued segment in
    stream mode and cutting a message into fragments of at most [mss] bytes. *)

From S2P Require Import Prelude KcpWire KcpState.

Local Open Scope Z_scope.

Section Send.
Context {A : Alloc}.

(** What [memcpy(dst, buffer, n)] leaves in a block that held [old] when the
    caller's pointer may be null. *)
Definition copy_in (buffer : option (list Z)) (n : Z) (old : list Z) : list Z :=
  match buffer with
  | Some b => take (Z.to_nat n) b
  | None => old
  end.

(** [buffer += n] *)
Definition advance (buffer : option (list Z)) (n : Z) : option (list Z) :=
  drop (Z.to_nat n) <$> buffer.

(** Stream mode: extend the last segment of [snd_queue] with the head of the
    buffer.  Returns the rest of the buffer, the rest of [len] and the block. *)
Definition send_append (k : ikcpcb) (buffer : option (list Z)) (len : Z)
  : outcome (option (list Z) * Z * ikcpcb) :=
  match last (snd_queue k) with
  | None => Ret (buffer, len, k)
  | Some old =>
      if seg_len old <? mss k then
        let capacity := i32 (u32 (mss k - seg_len old)) in
        let extend := if len <? capacity then len else capacity in
        match ikcp_segment_new (i32 (u32 (seg_len old + extend))) with
        | None => Crash AssertFail
        | Some seg =>
            let n := Z.to_nat (seg_len old) in
            let seg := seg <| seg_data :=
              take n (seg_data old) ++ copy_in buffer extend (drop n (seg_data seg)) |> in
            let seg := seg <| seg_len := u32 (seg_len old + extend) |> <| seg_frg := 0 |> in
            let k := k <| snd_queue := removelast (snd_queue k) ++ [seg] |> in
            Ret (advance buffer extend, i32 (len - extend), k)
        end
      else Ret (buffer, len, k)
  end.

(** The fragment loop; [todo] counts the iterations left, [count - todo] is [i]. *)
Fixpoint send_frags (todo : nat) (count : Z) (buffer : option (list Z)) (len : Z)
    (k : ikcpcb) : outcome ikcpcb :=
  match todo with
  | O => Ret k
  | S todo' =>
      let i := count - Z.of_nat todo in
      let size := if i32 (mss k) <? len then i32 (mss k) else len in
      match ikcp_segment_new size with
      | None => Crash AssertFail
      | Some seg =>
          let seg := if 0 <? len
                     then seg <| seg_data := copy_in buffer size (seg_data seg) |>
                     else seg in
          let seg := seg <| seg_len := u32 size |> in
          let seg := seg <| seg_frg := if stream k =? 0 then u32 (count - i - 1) else 0 |> in
          let k := k <| snd_queue := snd_queue k ++ [seg] |>
                     <| nsnd_que := u32 (nsnd_que k + 1) |> in
          send_frags todo' count (advance buffer size) (i32 (len - size)) k
      end
  end.

Definition send_count (k : ikcpcb) (len : Z) : Z :=
  if len <=? i32 (mss k) then 1
  else i32 (u32 (len + mss k - 1) / mss k).

Definition ikcp_send (k : ikcpcb) (buffer : option (list Z)) (len : Z)
  : outcome (Z * ikcpcb) :=
  if negb (0 <? mss k) then Crash AssertFail
  else if len <? 0 then Ret (-1, k)
  else
    let! (buffer, len, k) :=
      (if negb (stream k =? 0) then send_append k buffer len else Ret (buffer, len, k)) in
    if negb (stream k =? 0) && (len <=? 0) then Ret (0, k)
    else
      let count := send_count k len in
      if IKCP_WND_RCV <=? u32 count then Ret (-2, k)
      else
        let count := if count =? 0 then 1 else count in
        let! k := send_frags (Z.to_nat count) count buffer len k in
        Ret (0, k).
End Send.
