(* ===== verification/KcpRecv.v ===== *)
(** * KCP: receiving (ikcp.c [ikcp_peeksize], [ikcp_recv], [ikcp_parse_data])

    The user side of the receiver and the reordering buffer: inserting a data
    segment, moving the contiguous ones to [rcv_queue], merging the fragments
    of one message. *)

From S2P Require Import Prelude KcpWire KcpState.

Local Open Scope Z_scope.

(** ** Reordering buffer *)

(** [while (!empty(rcv_buf)) { if (first->sn == rcv_nxt && nrcv_que < rcv_wnd) move; else break }] *)
Fixpoint move_rcv_loop (buf : list IKCPSEG) (k : ikcpcb) : ikcpcb :=
  match buf with
  | [] => k
  | seg :: buf' =>
      if (seg_sn seg =? rcv_nxt k) && (nrcv_que k <? rcv_wnd k) then
        let k := k <| rcv_buf := buf' |> in
        let k := k <| nrcv_buf := u32 (nrcv_buf k - 1) |> in
        let k := k <| rcv_queue := rcv_queue k ++ [seg] |> in
        let k := k <| nrcv_que := u32 (nrcv_que k + 1) |> in
        let k := k <| rcv_nxt := u32 (rcv_nxt k + 1) |> in
        move_rcv_loop buf' k
      else k
  end.

Definition move_rcv (k : ikcpcb) : ikcpcb := move_rcv_loop (rcv_buf k) k.

(** The backward search of [ikcp_parse_data]: [rfront] is the part of
    [rcv_buf] not yet passed, last segment first, [back] the part passed.
    Returns whether the number is there already, and where the walk stopped. *)
Fixpoint rcv_scan (sn : Z) (rfront back : list IKCPSEG)
  : bool * list IKCPSEG * list IKCPSEG :=
  match rfront with
  | [] => (false, rfront, back)
  | seg :: rfront' =>
      if seg_sn seg =? sn then (true, rfront, back)
      else if 0 <? _itimediff sn (seg_sn seg) then (false, rfront, back)
      else rcv_scan sn rfront' (seg :: back)
  end.

(** The part of [ikcp_parse_data] before the move loop. *)
Definition insert_rcv_buf (k : ikcpcb) (newseg : IKCPSEG) : ikcpcb :=
  match rcv_scan (seg_sn newseg) (rev (rcv_buf k)) [] with
  | (false, rfront, back) =>
      let k := k <| rcv_buf := rev rfront ++ newseg :: back |> in
      k <| nrcv_buf := u32 (nrcv_buf k + 1) |>
  | (true, _, _) => k
  end.

Definition ikcp_parse_data (k : ikcpcb) (newseg : IKCPSEG) : ikcpcb :=
  let sn := seg_sn newseg in
  if (0 <=? _itimediff sn (u32 (rcv_nxt k + rcv_wnd k))) || (_itimediff sn (rcv_nxt k) <? 0)
  then k
  else move_rcv (insert_rcv_buf k newseg).

(** ** Messages *)

(** The summing loop of [ikcp_peeksize]. *)
Fixpoint peek_loop (q : list IKCPSEG) (length : Z) : Z :=
  match q with
  | [] => length
  | seg :: q' =>
      let length := i32 (u32 (length + seg_len seg)) in
      if seg_frg seg =? 0 then length else peek_loop q' length
  end.

Definition ikcp_peeksize (k : ikcpcb) : Z :=
  match rcv_queue k with
  | [] => -1
  | seg :: _ =>
      if seg_frg seg =? 0 then i32 (seg_len seg)
      else if nrcv_que k <? u32 (seg_frg seg + 1) then -1
      else peek_loop (rcv_queue k) 0
  end.

(** The merge loop of [ikcp_recv]: [q] is the queue from [p] on, [out] the
    bytes copied to the caller's buffer so far ([copy]: the buffer is given). *)
Fixpoint recv_merge (q : list IKCPSEG) (ispeek copy : bool) (len : Z) (out : list Z)
    (k : ikcpcb) : Z * list Z * ikcpcb :=
  match q with
  | [] => (len, out, k)
  | seg :: q' =>
      let out := if copy then out ++ take (Z.to_nat (seg_len seg)) (seg_data seg) else out in
      let len := i32 (u32 (len + seg_len seg)) in
      let fragment := i32 (seg_frg seg) in
      let k := log_if k IKCP_LOG_RECV IKCP_LOG_RECV in
      let k := if ispeek then k
               else k <| rcv_queue := q' |> <| nrcv_que := u32 (nrcv_que k - 1) |> in
      if fragment =? 0 then (len, out, k)
      else recv_merge q' ispeek copy len out k
  end.

(** Returns the result code, the bytes written to the caller's buffer and the block. *)
Definition ikcp_recv (k : ikcpcb) (copy : bool) (len : Z) : outcome (Z * list Z * ikcpcb) :=
  let ispeek := len <? 0 in
  match rcv_queue k with
  | [] => Ret (-1, [], k)
  | _ :: _ =>
      let len := if len <? 0 then i32 (- len) else len in
      let peeksize := ikcp_peeksize k in
      if peeksize <? 0 then Ret (-2, [], k)
      else if len <? peeksize then Ret (-3, [], k)
      else
        let recover := rcv_wnd k <=? nrcv_que k in
        let '(len, out, k) := recv_merge (rcv_queue k) ispeek copy 0 [] k in
        if negb (len =? peeksize) then Crash AssertFail
        else
          let k := move_rcv k in
          let k := if (nrcv_que k <? rcv_wnd k) && recover
                   then k <| probe := Z.lor (probe k) IKCP_ASK_TELL |> else k in
          Ret (len, out, k)
  end.
