(* ===== verification/KcpInput.v ===== *)
(** * KCP: input (ikcp.c [ikcp_update_ack] to [ikcp_input])

    Processing of a datagram: round-trip estimation, acknowledgement of sent
    segments, the list of acknowledgements to send, and the segment loop. *)

From S2P Require Import Prelude KcpWire KcpState KcpRecv.

Local Open Scope Z_scope.

(** ** Round-trip time *)
Definition ikcp_update_ack (k : ikcpcb) (rtt : Z) : ikcpcb :=
  let k :=
    if rx_srtt k =? 0 then
      let k := k <| rx_srtt := rtt |> in
      k <| rx_rttval := Z.quot rtt 2 |>
    else
      let delta := i32 (rtt - rx_srtt k) in
      let delta := if delta <? 0 then i32 (- delta) else delta in
      let k := k <| rx_rttval := Z.quot (i32 (i32 (3 * rx_rttval k) + delta)) 4 |> in
      let k := k <| rx_srtt := Z.quot (i32 (i32 (7 * rx_srtt k) + rtt)) 8 |> in
      if rx_srtt k <? 1 then k <| rx_srtt := 1 |> else k in
  let rto := i32 (u32 (rx_srtt k + _imax_ (interval k) (u32 (i32 (4 * rx_rttval k))))) in
  k <| rx_rto := i32 (_ibound_ (u32 (rx_minrto k)) (u32 rto) IKCP_RTO_MAX) |>.

(** ** Acknowledgement of sent segments *)
Definition ikcp_shrink_buf (k : ikcpcb) : ikcpcb :=
  match snd_buf k with
  | seg :: _ => k <| snd_una := seg_sn seg |>
  | [] => k <| snd_una := snd_nxt k |>
  end.

(** The loop of [ikcp_parse_ack]: the segment numbered [sn] leaves the list,
    and whether there was one. *)
Fixpoint parse_ack_loop (sn : Z) (l : list IKCPSEG) : bool * list IKCPSEG :=
  match l with
  | [] => (false, [])
  | seg :: l' =>
      if sn =? seg_sn seg then (true, l')
      else if _itimediff sn (seg_sn seg) <? 0 then (false, l)
      else let '(b, r) := parse_ack_loop sn l' in (b, seg :: r)
  end.

Definition ikcp_parse_ack (k : ikcpcb) (sn : Z) : ikcpcb :=
  if (_itimediff sn (snd_una k) <? 0) || (0 <=? _itimediff sn (snd_nxt k)) then k
  else
    match parse_ack_loop sn (snd_buf k) with
    | (true, l) => k <| snd_buf := l |> <| nsnd_buf := u32 (nsnd_buf k - 1) |>
    | (false, _) => k
    end.

Fixpoint parse_una_loop (una : Z) (l : list IKCPSEG) (k : ikcpcb) : ikcpcb :=
  match l with
  | [] => k
  | seg :: l' =>
      if 0 <? _itimediff una (seg_sn seg) then
        let k := k <| snd_buf := l' |> in
        let k := k <| nsnd_buf := u32 (nsnd_buf k - 1) |> in
        parse_una_loop una l' k
      else k
  end.

Definition ikcp_parse_una (k : ikcpcb) (una : Z) : ikcpcb :=
  parse_una_loop una (snd_buf k) k.

Fixpoint fastack_loop (sn : Z) (l : list IKCPSEG) : list IKCPSEG :=
  match l with
  | [] => []
  | seg :: l' =>
      if _itimediff sn (seg_sn seg) <? 0 then l
      else (if negb (sn =? seg_sn seg)
            then seg <| seg_fastack := u32 (seg_fastack seg + 1) |> else seg)
           :: fastack_loop sn l'
  end.

Definition ikcp_parse_fastack (k : ikcpcb) (sn : Z) : ikcpcb :=
  if (_itimediff sn (snd_una k) <? 0) || (0 <=? _itimediff sn (snd_nxt k)) then k
  else k <| snd_buf := fastack_loop sn (snd_buf k) |>.

(** ** The list of acknowledgements *)

(** [for (newblock = 8; newblock < newsize; newblock <<= 1);]  A 32-bit
    [size_t] is 0 after 29 shifts, so the loop ends within those or never. *)
Fixpoint grow_block (fuel : nat) (newblock newsize : Z) : option Z :=
  if newblock <? newsize then
    match fuel with
    | O => None
    | S fuel' => grow_block fuel' (u32 (Z.shiftl newblock 1)) newsize
    end
  else Some newblock.

Section Input.
Context {A : Alloc}.

(** [acklist] holds the cells written so far; those from [ackcount] on are dead.
    The block behind it has [newblock * 8] bytes, computed in [size_t]. *)
Definition ikcp_ack_push (k : ikcpcb) (sn ts : Z) : outcome ikcpcb :=
  let newsize := u32 (ackcount k + 1) in
  let! k :=
    (if ackblock k <? newsize then
       match grow_block 32 8 newsize with
       | None => Crash Diverge
       | Some newblock =>
           if negb (malloc_ok (u32 (newblock * 8))) then Crash AssertFail
           else
             let k := k <| acklist := take (Z.to_nat (ackcount k)) (acklist k) |> in
             Ret (k <| ackblock := newblock |>)
       end
     else Ret k) in
  if u32 (ackblock k * 8) <=? ackcount k * 8 then Crash OutOfBounds
  else
    let k := k <| acklist := take (Z.to_nat (ackcount k)) (acklist k) ++ [(sn, ts)] |> in
    Ret (k <| ackcount := u32 (ackcount k + 1) |>).

(** [ikcp_ack_get] *)
Definition ikcp_ack_get (k : ikcpcb) (p : nat) : outcome (Z * Z) :=
  match acklist k !! p with
  | Some e => Ret e
  | None => Crash OutOfBounds
  end.

(** ** The segment loop of [ikcp_input] *)

(** Locals that survive an iteration. *)
Record input_locals := mkIL { il_maxack : Z; il_flag : Z }.

(** [IKCP_CMD_ACK] *)
Definition input_ack (k : ikcpcb) (l : input_locals) (h : header) : ikcpcb * input_locals :=
  let k := if 0 <=? _itimediff (current k) (h_ts h)
           then ikcp_update_ack k (_itimediff (current k) (h_ts h)) else k in
  let k := ikcp_parse_ack k (h_sn h) in
  let k := ikcp_shrink_buf k in
  let l := if il_flag l =? 0 then mkIL (h_sn h) 1
           else if 0 <? _itimediff (h_sn h) (il_maxack l) then mkIL (h_sn h) (il_flag l)
           else l in
  (log_if k IKCP_LOG_IN_ACK IKCP_LOG_IN_DATA, l).

(** The segment [ikcp_input] builds from a push header and its payload. *)
Definition input_seg (blk : IKCPSEG) (cv : Z) (h : header) (payload : list Z) : IKCPSEG :=
  let seg := blk <| seg_conv := cv |> <| seg_cmd := h_cmd h |> <| seg_frg := h_frg h |>
                 <| seg_wnd := h_wnd h |> <| seg_ts := h_ts h |> <| seg_sn := h_sn h |>
                 <| seg_una := h_una h |> <| seg_len := h_len h |> in
  if 0 <? h_len h then seg <| seg_data := payload |> else seg.

(** [IKCP_CMD_PUSH]; [data] starts at the payload. *)
Definition input_push (k : ikcpcb) (cv : Z) (h : header) (data : list Z) : outcome ikcpcb :=
  let k := log_if k IKCP_LOG_IN_DATA IKCP_LOG_IN_DATA in
  if _itimediff (h_sn h) (u32 (rcv_nxt k + rcv_wnd k)) <? 0 then
    let! k := ikcp_ack_push k (h_sn h) (h_ts h) in
    if 0 <=? _itimediff (h_sn h) (rcv_nxt k) then
      match ikcp_segment_new (i32 (h_len h)) with
      | None => Crash NullDeref
      | Some blk =>
          if lenZ data <? h_len h then Crash OutOfBounds
          else Ret (ikcp_parse_data k
                      (input_seg blk cv h (take (Z.to_nat (h_len h)) data)))
      end
    else Ret k
  else Ret k.

(** What one iteration does with a segment whose header passed the checks. *)
Definition input_dispatch (k : ikcpcb) (l : input_locals) (cv : Z) (h : header)
    (data : list Z) : outcome (ikcpcb * input_locals) :=
  let k := k <| rmt_wnd := h_wnd h |> in
  let k := ikcp_parse_una k (h_una h) in
  let k := ikcp_shrink_buf k in
  if h_cmd h =? IKCP_CMD_ACK then Ret (input_ack k l h)
  else if h_cmd h =? IKCP_CMD_PUSH then
    let! k := input_push k cv h data in Ret (k, l)
  else if h_cmd h =? IKCP_CMD_WASK then
    let k := k <| probe := Z.lor (probe k) IKCP_ASK_TELL |> in
    Ret (log_if k IKCP_LOG_IN_PROBE IKCP_LOG_IN_PROBE, l)
  else Ret (log_if k IKCP_LOG_IN_WINS IKCP_LOG_IN_WINS, l).

(** How the loop ends: it leaves by [break], or returns an error code. *)
Inductive loop_exit := LDone (l : input_locals) | LError (code : Z).

(** The command test of the loop. *)
Definition valid_cmd (cmd : Z) : bool :=
  (cmd =? IKCP_CMD_PUSH) || (cmd =? IKCP_CMD_ACK) || (cmd =? IKCP_CMD_WASK) ||
  (cmd =? IKCP_CMD_WINS).

(** [while (1)]: each iteration takes at least the 24 bytes of a header off
    [size], so [size] bytes of fuel are enough. *)
Fixpoint input_loop (fuel : nat) (k : ikcpcb) (l : input_locals) (data : list Z) (size : Z)
  : outcome (ikcpcb * loop_exit) :=
  match fuel with
  | O => Crash Diverge
  | S fuel' =>
      if size <? IKCP_OVERHEAD then Ret (k, LDone l)
      else
        match ikcp_decode32u data with
        | None => Crash OutOfBounds
        | Some (cv, data) =>
            if negb (cv =? conv k) then Ret (k, LError (-1))
            else
              match decode_header data with
              | None => Crash OutOfBounds
              | Some (h, data) =>
                  let size := size - IKCP_OVERHEAD in
                  if (size <? i32 (h_len h)) || (i32 (h_len h) <? 0) then Ret (k, LError (-2))
                  else if negb (valid_cmd (h_cmd h)) then Ret (k, LError (-3))
                  else
                    let! (k, l) := input_dispatch k l cv h data in
                    input_loop fuel' k l (drop (Z.to_nat (h_len h)) data) (size - h_len h)
              end
        end
  end.

(** The congestion window after new data was acknowledged; [una] is [snd_una]
    as it was before the datagram. *)
Definition input_cwnd (k : ikcpcb) (una : Z) : ikcpcb :=
  if 0 <? _itimediff (snd_una k) una then
    if cwnd k <? rmt_wnd k then
      let m := mss k in
      let k :=
        if cwnd k <? ssthresh k then
          let k := k <| cwnd := u32 (cwnd k + 1) |> in
          k <| incr := u32 (incr k + m) |>
        else
          let k := if incr k <? m then k <| incr := m |> else k in
          let k := k <| incr := u32 (incr k + (u32 (m * m) / incr k + m / 16)) |> in
          if u32 (u32 (cwnd k + 1) * m) <=? incr k
          then k <| cwnd := u32 (cwnd k + 1) |> else k in
      if rmt_wnd k <? cwnd k then
        let k := k <| cwnd := rmt_wnd k |> in
        k <| incr := u32 (rmt_wnd k * m) |>
      else k
    else k
  else k.

Definition ikcp_input (k : ikcpcb) (data : option (list Z)) (size : Z)
  : outcome (Z * ikcpcb) :=
  let una := snd_una k in
  let k := log_if k IKCP_LOG_INPUT IKCP_LOG_INPUT in
  match data with
  | None => Ret (-1, k)
  | Some data =>
      if i32 size <? IKCP_OVERHEAD then Ret (-1, k)
      else
        let! (k, e) := input_loop (Z.to_nat size) k (mkIL 0 0) data size in
        match e with
        | LError code => Ret (code, k)
        | LDone l =>
            let k := if negb (il_flag l =? 0) then ikcp_parse_fastack k (il_maxack l) else k in
            Ret (0, input_cwnd k una)
        end
  end.
End Input.
