(* ===== verification/KcpFlush.v ===== *)
(** * KCP: flushing and the clock (ikcp.c [ikcp_flush], [ikcp_update], [ikcp_check])

    One flush sends the pending acknowledgements, the window probes and the
    data segments that are due, in datagrams of at most [mtu] bytes built in
    [kcp->buffer].  A write past the end of that block is a crash. *)

From S2P Require Import Prelude KcpWire KcpState KcpRecv KcpInput.

Local Open Scope Z_scope.

(** ** The output buffer *)

(** The bytes in front of the write pointer after a write: [ptr - buffer] must
    stay inside the block. *)
Definition buf_check (k : ikcpcb) (ptr : list Z) : outcome (list Z) :=
  if lenZ ptr <=? buffer_cap k then Ret ptr else Crash OutOfBounds.

(** [size = ptr - buffer; if (size + need > (int)kcp->mtu) { ikcp_output; ptr = buffer; }] *)
Definition make_room (k : ikcpcb) (ptr : list Z) (need : Z) : outcome (ikcpcb * list Z) :=
  if i32 (mtu k) <? lenZ ptr + need then
    let! k := ikcp_output k ptr in Ret (k, [])
  else Ret (k, ptr).

(** A header-only segment. *)
Definition put_seg (k : ikcpcb) (ptr : list Z) (seg : IKCPSEG) : outcome (ikcpcb * list Z) :=
  let! (k, ptr) := make_room k ptr IKCP_OVERHEAD in
  let! ptr := buf_check k (ikcp_encode_seg ptr seg) in
  Ret (k, ptr).

(** ** Stages of [ikcp_flush] *)

(** The local [seg] as it is set up before the acknowledgements. *)
Definition flush_seg (k : ikcpcb) : IKCPSEG := {|
  seg_conv := conv k; seg_cmd := IKCP_CMD_ACK; seg_frg := 0;
  seg_wnd := u32 (ikcp_wnd_unused k); seg_una := rcv_nxt k; seg_len := 0;
  seg_sn := 0; seg_ts := 0;
  seg_resendts := 0; seg_rto := 0; seg_fastack := 0; seg_xmit := 0; seg_data := [] |}.

(** [for (i = 0; i < count; i++)]: [n] acknowledgements left, [i] the next one. *)
Fixpoint flush_acks (n i : nat) (k : ikcpcb) (ptr : list Z) (seg : IKCPSEG)
  : outcome (ikcpcb * list Z * IKCPSEG) :=
  match n with
  | O => Ret (k, ptr, seg)
  | S n' =>
      let! (k, ptr) := make_room k ptr IKCP_OVERHEAD in
      let! (sn, ts) := ikcp_ack_get k i in
      let seg := seg <| seg_sn := sn |> <| seg_ts := ts |> in
      let! ptr := buf_check k (ikcp_encode_seg ptr seg) in
      flush_acks n' (S i) k ptr seg
  end.

(** The probe timer. *)
Definition flush_probe (k : ikcpcb) : ikcpcb :=
  if rmt_wnd k =? 0 then
    if probe_wait k =? 0 then
      let k := k <| probe_wait := IKCP_PROBE_INIT |> in
      k <| ts_probe := u32 (current k + probe_wait k) |>
    else if 0 <=? _itimediff (current k) (ts_probe k) then
      let k := if probe_wait k <? IKCP_PROBE_INIT
               then k <| probe_wait := IKCP_PROBE_INIT |> else k in
      let k := k <| probe_wait := u32 (probe_wait k + probe_wait k / 2) |> in
      let k := if IKCP_PROBE_LIMIT <? probe_wait k
               then k <| probe_wait := IKCP_PROBE_LIMIT |> else k in
      let k := k <| ts_probe := u32 (current k + probe_wait k) |> in
      k <| probe := Z.lor (probe k) IKCP_ASK_SEND |>
    else k
  else k <| ts_probe := 0 |> <| probe_wait := 0 |>.

(** [if (kcp->probe & flag) { seg.cmd = cmd; ... ptr = ikcp_encode_seg(ptr, &seg); }] *)
Definition flush_cmd (flag cmd : Z) (k : ikcpcb) (ptr : list Z) (seg : IKCPSEG)
  : outcome (ikcpcb * list Z * IKCPSEG) :=
  if negb (Z.land (probe k) flag =? 0) then
    let seg := seg <| seg_cmd := cmd |> in
    let! (k, ptr) := put_seg k ptr seg in
    Ret (k, ptr, seg)
  else Ret (k, ptr, seg).

(** The two probe commands; [seg] is reused with its command replaced. *)
Definition flush_cmds (k : ikcpcb) (ptr : list Z) (seg : IKCPSEG)
  : outcome (ikcpcb * list Z * IKCPSEG) :=
  let! (k, ptr, seg) := flush_cmd IKCP_ASK_SEND IKCP_CMD_WASK k ptr seg in
  let! (k, ptr, seg) := flush_cmd IKCP_ASK_TELL IKCP_CMD_WINS k ptr seg in
  Ret (k <| probe := 0 |>, ptr, seg).

(** The window of this flush. *)
Definition flush_cwnd (k : ikcpcb) : Z :=
  let w := _imin_ (snd_wnd k) (rmt_wnd k) in
  if nocwnd k =? 0 then _imin_ (cwnd k) w else w.

(** The fields a segment gets when it enters [snd_buf]. *)
Definition number_seg (k : ikcpcb) (wnd : Z) (newseg : IKCPSEG) : IKCPSEG :=
  newseg <| seg_conv := conv k |> <| seg_cmd := IKCP_CMD_PUSH |>
         <| seg_wnd := wnd |> <| seg_ts := current k |>
         <| seg_sn := snd_nxt k |> <| seg_una := rcv_nxt k |>
         <| seg_resendts := current k |> <| seg_rto := u32 (rx_rto k) |>
         <| seg_fastack := 0 |> <| seg_xmit := 0 |>.

(** [while (_itimediff(snd_nxt, snd_una + cwnd) < 0)]: move segments from
    [snd_queue] (here [q]) to [snd_buf] and number them. *)
Fixpoint move_snd_loop (q : list IKCPSEG) (w wnd : Z) (k : ikcpcb) : ikcpcb :=
  match q with
  | [] => k
  | newseg :: q' =>
      if _itimediff (snd_nxt k) (u32 (snd_una k + w)) <? 0 then
        let s := number_seg k wnd newseg in
        let k := k <| snd_queue := q' |> in
        let k := k <| snd_buf := snd_buf k ++ [s] |> in
        let k := k <| nsnd_que := u32 (nsnd_que k - 1) |> in
        let k := k <| nsnd_buf := u32 (nsnd_buf k + 1) |> in
        let k := k <| snd_nxt := u32 (snd_nxt k + 1) |> in
        move_snd_loop q' w wnd k
      else k
  end.

Definition move_snd (k : ikcpcb) (w wnd : Z) : ikcpcb := move_snd_loop (snd_queue k) w wnd k.

(** Why a data segment is sent now. *)
Inductive due := NotDue | FirstSend | Timeout | FastResend.

Definition seg_due (k : ikcpcb) (resent : Z) (s : IKCPSEG) : due :=
  if seg_xmit s =? 0 then FirstSend
  else if 0 <=? _itimediff (current k) (seg_resendts s) then Timeout
  else if resent <=? seg_fastack s then FastResend
  else NotDue.

(** The three branches that update the timers of a segment. *)
Definition seg_resend (k : ikcpcb) (rtomin : Z) (d : due) (s : IKCPSEG) : IKCPSEG :=
  match d with
  | NotDue => s
  | FirstSend =>
      let s := s <| seg_xmit := u32 (seg_xmit s + 1) |> <| seg_rto := u32 (rx_rto k) |> in
      s <| seg_resendts := u32 (current k + seg_rto s + rtomin) |>
  | Timeout =>
      let s := s <| seg_xmit := u32 (seg_xmit s + 1) |> in
      let s := s <| seg_rto := u32 (seg_rto s + (if nodelay k =? 0 then rx_rto k
                                                 else Z.quot (rx_rto k) 2)) |> in
      s <| seg_resendts := u32 (current k + seg_rto s) |>
  | FastResend =>
      let s := s <| seg_xmit := u32 (seg_xmit s + 1) |> <| seg_fastack := 0 |> in
      s <| seg_resendts := u32 (current k + seg_rto s) |>
  end.

(** Locals of the data loop. *)
Record data_locals := mkDL { dl_ptr : list Z; dl_lost : bool; dl_change : Z }.

(** One iteration for a segment that is due. *)
Definition send_one (k : ikcpcb) (ptr : list Z) (wnd : Z) (s : IKCPSEG)
  : outcome (ikcpcb * list Z * IKCPSEG) :=
  let s := s <| seg_ts := current k |> <| seg_wnd := wnd |> <| seg_una := rcv_nxt k |> in
  let! (k, ptr) := make_room k ptr (i32 (u32 (IKCP_OVERHEAD + seg_len s))) in
  let! ptr := buf_check k (ikcp_encode_seg ptr s) in
  let! ptr := (if 0 <? seg_len s
               then buf_check k (ptr ++ take (Z.to_nat (seg_len s)) (seg_data s))
               else Ret ptr) in
  let k := if dead_link k <=? seg_xmit s then k <| state := u32 (-1) |> else k in
  Ret (k, ptr, s).

(** The data loop; returns the segments as the loop leaves them. *)
Fixpoint flush_data (l : list IKCPSEG) (k : ikcpcb) (wnd resent rtomin : Z)
    (v : data_locals) : outcome (list IKCPSEG * ikcpcb * data_locals) :=
  match l with
  | [] => Ret ([], k, v)
  | s :: l' =>
      let d := seg_due k resent s in
      let s := seg_resend k rtomin d s in
      match d with
      | NotDue =>
          let! (r, k, v) := flush_data l' k wnd resent rtomin v in
          Ret (s :: r, k, v)
      | _ =>
          let k := match d with Timeout => k <| xmit := u32 (xmit k + 1) |> | _ => k end in
          let v := match d with
                   | Timeout => mkDL (dl_ptr v) true (dl_change v)
                   | FastResend => mkDL (dl_ptr v) (dl_lost v) (i32 (dl_change v + 1))
                   | _ => v
                   end in
          let! (k, ptr, s) := send_one k (dl_ptr v) wnd s in
          let! (r, k, v) := flush_data l' k wnd resent rtomin
                              (mkDL ptr (dl_lost v) (dl_change v)) in
          Ret (s :: r, k, v)
      end
  end.

(** Slow-start threshold and congestion window at the end of a flush; [w] is
    the window the flush used. *)
Definition flush_ssthresh (k : ikcpcb) (resent w : Z) (lost : bool) (change : Z) : ikcpcb :=
  let k :=
    if negb (change =? 0) then
      let inflight := u32 (snd_nxt k - snd_una k) in
      let k := k <| ssthresh := inflight / 2 |> in
      let k := if ssthresh k <? IKCP_THRESH_MIN
               then k <| ssthresh := IKCP_THRESH_MIN |> else k in
      let k := k <| cwnd := u32 (ssthresh k + resent) |> in
      k <| incr := u32 (cwnd k * mss k) |>
    else k in
  let k :=
    if lost then
      let k := k <| ssthresh := w / 2 |> in
      let k := if ssthresh k <? IKCP_THRESH_MIN
               then k <| ssthresh := IKCP_THRESH_MIN |> else k in
      let k := k <| cwnd := 1 |> in
      k <| incr := mss k |>
    else k in
  if cwnd k <? 1 then
    let k := k <| cwnd := 1 |> in
    k <| incr := mss k |>
  else k.

Definition flush_resent (k : ikcpcb) : Z :=
  if 0 <? fastresend k then u32 (fastresend k) else 4294967295.

Definition flush_rtomin (k : ikcpcb) : Z :=
  if nodelay k =? 0 then u32 (Z.shiftr (rx_rto k) 3) else 0.

(** [size = ptr - buffer; if (size > 0) ikcp_output(kcp, buffer, size);] *)
Definition flush_rest (k : ikcpcb) (ptr : list Z) : outcome ikcpcb :=
  if 0 <? lenZ ptr then ikcp_output k ptr else Ret k.

(** The first part of [ikcp_flush], up to [kcp->probe = 0]. *)
Definition flush_ctl (k : ikcpcb) : outcome (ikcpcb * list Z * IKCPSEG) :=
  let seg := flush_seg k in
  let! (k, ptr, seg) := flush_acks (Z.to_nat (ackcount k)) 0 k [] seg in
  let k := k <| ackcount := 0 |> in
  let k := flush_probe k in
  flush_cmds k ptr seg.

Definition ikcp_flush (k : ikcpcb) : outcome ikcpcb :=
  if updated k =? 0 then Ret k
  else
    let! (k, ptr, seg) := flush_ctl k in
    let w := flush_cwnd k in
    let k := move_snd k w (seg_wnd seg) in
    let resent := flush_resent k in
    let rtomin := flush_rtomin k in
    let! (r, k, v) := flush_data (snd_buf k) k (seg_wnd seg) resent rtomin
                        (mkDL ptr false 0) in
    let k := k <| snd_buf := r |> in
    let! k := flush_rest k (dl_ptr v) in
    Ret (flush_ssthresh k resent w (dl_lost v) (dl_change v)).

(** ** The clock *)
Definition ikcp_update (k : ikcpcb) (now : Z) : outcome ikcpcb :=
  let k := k <| current := now |> in
  let k := if updated k =? 0
           then let k := k <| updated := 1 |> in k <| ts_flush := current k |>
           else k in
  let slap := _itimediff (current k) (ts_flush k) in
  let '(k, slap) := if (10000 <=? slap) || (slap <? -10000)
                    then (k <| ts_flush := current k |>, 0) else (k, slap) in
  if 0 <=? slap then
    let k := k <| ts_flush := u32 (ts_flush k + interval k) |> in
    let k := if 0 <=? _itimediff (current k) (ts_flush k)
             then k <| ts_flush := u32 (current k + interval k) |> else k in
    ikcp_flush k
  else Ret k.

(** The scan of [snd_buf] in [ikcp_check]: [None] when a segment is due now,
    else the smallest time to a resend. *)
Fixpoint check_loop (l : list IKCPSEG) (now tm_packet : Z) : option Z :=
  match l with
  | [] => Some tm_packet
  | seg :: l' =>
      let diff := _itimediff (seg_resendts seg) now in
      if diff <=? 0 then None
      else check_loop l' now (if diff <? tm_packet then diff else tm_packet)
  end.

Definition ikcp_check (k : ikcpcb) (now : Z) : Z :=
  if updated k =? 0 then now
  else
    let tsf := if (10000 <=? _itimediff now (ts_flush k)) || (_itimediff now (ts_flush k) <? -10000)
               then now else ts_flush k in
    if 0 <=? _itimediff now tsf then now
    else
      let tm_flush := _itimediff tsf now in
      match check_loop (snd_buf k) now 2147483647 with
      | None => now
      | Some tm_packet =>
          let minimal := u32 (if tm_packet <? tm_flush then tm_packet else tm_flush) in
          let minimal := if interval k <=? minimal then interval k else minimal in
          u32 (now + minimal)
      end.
