(* ===== verification/KcpInv.v ===== *)
(** * KCP: well-formedness of a control block

    What every operation of ikcp.c keeps true of a control block, in four
    parts (configuration, sender, receiver, acknowledgements), and the closed
    forms of the operations that the proofs of preservation use: each is an
    update of a few named fields. *)

From S2P Require Import Prelude KcpWire KcpSeq KcpState KcpSend KcpRecv KcpInput.
From S2P Require Import KcpFlush.

Local Open Scope Z_scope.

(** ** The invariant *)

(** [len] counts the bytes of [data], and the fragment number fits the wire. *)
Definition seg_payload (s : IKCPSEG) : Prop :=
  seg_len s = lenZ (seg_data s) /\ lenZ (seg_data s) < 2147483648 /\
  is_bytes (seg_data s) /\ is_u8 (seg_frg s).

(** A numbered data segment of conversation [c]. *)
Definition seg_sent (c : Z) (s : IKCPSEG) : Prop :=
  seg_conv s = c /\ seg_cmd s = IKCP_CMD_PUSH /\
  is_u32 (seg_ts s) /\ is_u32 (seg_una s) /\ is_u32 (seg_resendts s).

Record cfg_wf (k : ikcpcb) : Prop := {
  wf_conv : is_u32 (conv k);
  wf_mtu : 50 <= mtu k <= 1431655741;
  wf_mss : mss k = mtu k - IKCP_OVERHEAD;
  wf_buffer : buffer_cap k = (mtu k + IKCP_OVERHEAD) * 3;
  wf_snd_wnd : 0 < snd_wnd k < 2147483648;
  wf_rcv_wnd : IKCP_WND_RCV <= rcv_wnd k < 2147483648;
  wf_rmt_wnd : is_u16 (rmt_wnd k);
  wf_cwnd : is_u32 (cwnd k);
  wf_interval : 10 <= interval k <= 5000;
  wf_minrto : 0 <= rx_minrto k <= IKCP_RTO_MAX;
  wf_rto : 0 <= rx_rto k <= IKCP_RTO_MAX;
  wf_current : is_u32 (current k);
  wf_ts_flush : is_u32 (ts_flush k) }.

(** Segments in flight lie between [snd_una] and [snd_nxt], in order. *)
Definition inflight (k : ikcpcb) : Z := _itimediff (snd_nxt k) (snd_una k).

Record snd_wf (k : ikcpcb) : Prop := {
  wf_snd_una : is_u32 (snd_una k);
  wf_snd_nxt : is_u32 (snd_nxt k);
  wf_inflight : 0 <= inflight k <= 65535;
  wf_snd_sorted : sn_sorted (snd_una k) 0 (inflight k) (snd_buf k);
  wf_snd_sent : Forall (seg_sent (conv k)) (snd_buf k);
  wf_snd_payload : Forall seg_payload (snd_buf k);
  wf_queue_payload : Forall seg_payload (snd_queue k);
  wf_nsnd_buf : nsnd_buf k = u32 (lenZ (snd_buf k));
  wf_nsnd_que : nsnd_que k = u32 (lenZ (snd_queue k)) }.

(** Received segments wait in order at or after [rcv_nxt]. *)
Record rcv_wf (k : ikcpcb) : Prop := {
  wf_rcv_nxt : is_u32 (rcv_nxt k);
  wf_rcv_sorted : sn_sorted (rcv_nxt k) 0 2147483648 (rcv_buf k);
  wf_rbuf_payload : Forall seg_payload (rcv_buf k);
  wf_rque_payload : Forall seg_payload (rcv_queue k);
  wf_nrcv_buf : nrcv_buf k = u32 (lenZ (rcv_buf k));
  wf_nrcv_que : nrcv_que k = lenZ (rcv_queue k);
  wf_nrcv_que_u32 : is_u32 (nrcv_que k) }.

Definition ack_entry_wf (e : Z * Z) : Prop := is_u32 e.1 /\ is_u32 e.2.

Record ack_wf (k : ikcpcb) : Prop := {
  wf_ackcount : 0 <= ackcount k <= ackblock k;
  wf_ackblock : ackblock k <= 268435456;
  wf_acklen : ackcount k <= lenZ (acklist k);
  wf_acks : Forall ack_entry_wf (acklist k) }.

Record kcp_wf (k : ikcpcb) : Prop := {
  wf_cfg : cfg_wf k;
  wf_snd : snd_wf k;
  wf_rcv : rcv_wf k;
  wf_ack : ack_wf k }.

(** Every outgoing segment fits a datagram.  Changing the MTU can break it. *)
Definition segs_fit (k : ikcpcb) : Prop :=
  Forall (fun s => seg_len s <= mss k) (snd_queue k) /\
  Forall (fun s => seg_len s <= mss k) (snd_buf k).

(** ** Closed forms *)
Ltac kcb_eq := match goal with k : ikcpcb |- _ => destruct k; reflexivity end.

Lemma log_if_eq k a b : exists t, log_if k a b = k <| trace := trace k ++ t |> /\
  Forall (fun e => exists m, e = EvLog m) t.
Proof.
  assert (E : k = k <| trace := trace k ++ [] |>) by (rewrite app_nil_r; kcb_eq).
  unfold log_if, ikcp_log. destruct (ikcp_canlog k a); [|exists []; auto].
  case_match; [exists []; auto|].
  exists [EvLog b]. split; [reflexivity|]. repeat constructor. eauto.
Qed.

(** The loops keep a counter in step with its list. *)
Definition synced (n : Z) (l : list IKCPSEG) : Prop := n = u32 (lenZ l).

Lemma synced_pop n s l : synced n (s :: l) -> synced (u32 (n - 1)) l.
Proof. unfold synced. cbn [length]. intros ->. wrap_lia. Qed.

Lemma synced_push n l s : synced n l -> synced (u32 (n + 1)) (l ++ [s]).
Proof. unfold synced. intros ->. rewrite length_app. cbn [length]. wrap_lia. Qed.

Definition una_test (una : Z) (s : IKCPSEG) : bool := 0 <? _itimediff una (seg_sn s).

Lemma parse_una_loop_eq una l k :
  snd_buf k = l ->
  exists n, parse_una_loop una l k =
      k <| snd_buf := dropwhile (una_test una) l |> <| nsnd_buf := n |> /\
    (synced (nsnd_buf k) l -> synced n (dropwhile (una_test una) l)).
Proof.
  revert k. induction l as [|s l IH]; intros k Hk; simpl.
  - exists (nsnd_buf k). split; [rewrite <- Hk; kcb_eq | auto].
  - unfold una_test at 1 3. destruct (0 <? _itimediff una (seg_sn s)).
    + edestruct (IH (k <| snd_buf := l |> <| nsnd_buf := u32 (nsnd_buf k - 1) |>))
        as (n & E & Hn); [reflexivity|].
      exists n. split; [exact E|]. intros H. apply Hn, (synced_pop _ _ _ H).
    + exists (nsnd_buf k). split; [rewrite <- Hk; kcb_eq | auto].
Qed.

Lemma parse_una_eq k una :
  exists n, ikcp_parse_una k una =
      k <| snd_buf := dropwhile (una_test una) (snd_buf k) |> <| nsnd_buf := n |> /\
    (synced (nsnd_buf k) (snd_buf k) -> synced n (dropwhile (una_test una) (snd_buf k))).
Proof. apply parse_una_loop_eq. reflexivity. Qed.

Lemma shrink_buf_eq k :
  ikcp_shrink_buf k =
  k <| snd_una := match snd_buf k with s :: _ => seg_sn s | [] => snd_nxt k end |>.
Proof. unfold ikcp_shrink_buf. destruct (snd_buf k); reflexivity. Qed.

Lemma parse_ack_loop_spec sn l :
  match parse_ack_loop sn l with
  | (true, r) => exists l1 s l2, l = l1 ++ s :: l2 /\ r = l1 ++ l2 /\ seg_sn s = sn
  | (false, r) => r = l
  end.
Proof.
  induction l as [|s l IH]; simpl; [reflexivity|].
  destruct (Z.eqb_spec sn (seg_sn s)) as [->|].
  - exists [], s, l. auto.
  - destruct (_itimediff sn (seg_sn s) <? 0); [reflexivity|].
    destruct (parse_ack_loop sn l) as [[] r].
    + destruct IH as (l1 & s' & l2 & -> & -> & E). exists (s :: l1), s', l2. auto.
    + congruence.
Qed.

Lemma parse_ack_eq k sn :
  ikcp_parse_ack k sn = k \/
  exists l1 s l2 n, snd_buf k = l1 ++ s :: l2 /\ seg_sn s = sn /\
    ikcp_parse_ack k sn = k <| snd_buf := l1 ++ l2 |> <| nsnd_buf := n |> /\
    (synced (nsnd_buf k) (snd_buf k) -> synced n (l1 ++ l2)).
Proof.
  unfold ikcp_parse_ack. case_match; [auto|].
  pose proof (parse_ack_loop_spec sn (snd_buf k)) as H'.
  destruct (parse_ack_loop sn (snd_buf k)) as [[] r]; [|auto].
  destruct H' as (l1 & s & l2 & E & -> & Hs). right.
  exists l1, s, l2, (u32 (nsnd_buf k - 1)). split; [assumption|]. split; [assumption|].
  split; [reflexivity|]. unfold synced. intros ->. rewrite E, !length_app. cbn [length].
  wrap_lia.
Qed.

Lemma fastack_loop_core sn l (f : IKCPSEG -> list Z * list Z) :
  (forall s v, f (s <| seg_fastack := v |>) = f s) -> map f (fastack_loop sn l) = map f l.
Proof.
  intros Hf. induction l as [|s l IH]; simpl; [reflexivity|].
  case_match; [reflexivity|]. simpl. rewrite IH. case_match; [rewrite Hf|]; reflexivity.
Qed.

(** ** Sender *)
Lemma sn_sorted_app_r base lo hi l1 l2 :
  0 <= lo -> sn_sorted base lo hi (l1 ++ l2) -> sn_sorted base lo hi l2.
Proof.
  rewrite sn_sorted_app. intros Hlo [H1 H2]. eapply sn_sorted_weaken; [| |exact H2]; [|lia].
  destruct (last l1) as [s|] eqn:E; [|lia].
  apply sn_sorted_Forall in H1. apply last_Some_elem_of in E.
  eapply Forall_forall in H1; [|exact E]. lia.
Qed.

Lemma sn_sorted_del base lo hi l1 s l2 :
  sn_sorted base lo hi (l1 ++ s :: l2) -> sn_sorted base lo hi (l1 ++ l2).
Proof.
  rewrite !sn_sorted_app. intros (H1 & Hs & Ho & H2). split; [exact H1|].
  eapply sn_sorted_weaken; [| |exact H2]; [|lia]. destruct (last l1); lia.
Qed.

Lemma snd_wf_parse_una k una : snd_wf k -> snd_wf (ikcp_parse_una k una).
Proof.
  intros [? ? ? Hsort Hsent Hpay ? Hn ?]. destruct (parse_una_eq k una) as (n & -> & Hs).
  destruct (dropwhile_suffix (una_test una) (snd_buf k)) as (p & E & _).
  rewrite E in Hsort, Hsent, Hpay. apply Forall_app in Hsent as [_ Hsent].
  apply Forall_app in Hpay as [_ Hpay].
  constructor; cbn; try assumption; [|apply Hs, Hn].
  eapply sn_sorted_app_r; [|exact Hsort]. lia.
Qed.

Lemma snd_wf_shrink k : snd_wf k -> snd_wf (ikcp_shrink_buf k).
Proof.
  intros [Hu Hx Hi Hsort Hsent Hpay Hq Hn ?]. rewrite shrink_buf_eq.
  destruct (snd_buf k) as [|s l] eqn:E.
  - constructor; cbn; rewrite ?E; try assumption; unfold inflight; cbn; autorewrite with ints; lia.
  - cbn in Hsort. destruct Hsort as (Hs & Ho & Hl).
    assert (Hb : seg_sn s = u32 (snd_una k + off (snd_una k) s)) by (apply sn_of_off, Hs).
    assert (Hi' : _itimediff (snd_nxt k) (seg_sn s) = inflight k - off (snd_una k) s)
      by (apply itimediff_off; unfold inflight in *; rlia).
    assert (H0 : off (seg_sn s) s = 0) by apply itimediff_self.
    constructor; cbn; rewrite ?E; try assumption; unfold inflight; cbn; rewrite Hi'; [lia|].
    rewrite H0. split; [assumption|]. split; [lia|].
    rewrite Hb at 1. eapply sn_sorted_weaken; [| |apply sn_sorted_rebase; [| | | |exact Hl]]; lia.
Qed.

Lemma snd_wf_parse_ack k sn : snd_wf k -> snd_wf (ikcp_parse_ack k sn).
Proof.
  intros Hwf. destruct (parse_ack_eq k sn) as [->|(l1 & s & l2 & n & E & _ & -> & Hs)];
    [exact Hwf|].
  destruct Hwf as [? ? ? Hsort Hsent Hpay ? Hn ?]. rewrite E in *.
  apply Forall_app in Hsent as [? Hsent]. apply Forall_app in Hpay as [? Hpay].
  inv Hsent. inv Hpay.
  constructor; cbn; try assumption; try (apply Forall_app; split; assumption);
    [eapply sn_sorted_del; exact Hsort | apply Hs, Hn].
Qed.

(** The fields of a segment that acknowledgement processing leaves alone. *)
Definition seg_fixed (s : IKCPSEG) :=
  (seg_conv s, seg_cmd s, seg_frg s, seg_sn s, seg_len s, seg_data s).

Lemma fastack_loop_Forall (P : IKCPSEG -> Prop) sn l :
  (forall s v, P s -> P (s <| seg_fastack := v |>)) -> Forall P l -> Forall P (fastack_loop sn l).
Proof.
  intros HP. induction 1 as [|s l Hs Hl IH]; simpl; [constructor|].
  case_match; constructor; auto. case_match; auto.
Qed.

Lemma fastack_loop_fixed sn l : map seg_fixed (fastack_loop sn l) = map seg_fixed l.
Proof.
  induction l as [|s l IH]; simpl; [reflexivity|].
  case_match; [reflexivity|]. simpl. rewrite IH. case_match; reflexivity.
Qed.

Lemma fixed_sn l l' : map seg_fixed l = map seg_fixed l' -> map seg_sn l = map seg_sn l'.
Proof.
  revert l'. induction l as [|s l IH]; intros [|s' l']; simpl; try discriminate; [auto|].
  unfold seg_fixed at 1 3. intros [=]. f_equal; auto.
Qed.

Lemma snd_wf_fastack k sn : snd_wf k -> snd_wf (ikcp_parse_fastack k sn).
Proof.
  intros Hwf. unfold ikcp_parse_fastack. case_match; [exact Hwf|]. clear H.
  destruct Hwf as [? ? ? Hsort Hsent Hpay ? Hn ?].
  pose proof (fastack_loop_fixed sn (snd_buf k)) as E.
  constructor; cbn; try assumption.
  - eapply sn_sorted_ext; [symmetry; apply fixed_sn, E | exact Hsort].
  - apply fastack_loop_Forall; [auto|exact Hsent].
  - apply fastack_loop_Forall; [auto|exact Hpay].
  - rewrite Hn. apply (f_equal length) in E. rewrite !length_map in E. congruence.
Qed.

(** ** Receiver *)

(** Consecutive numbers from [base] on. *)
Fixpoint sn_contig (base : Z) (l : list IKCPSEG) : Prop :=
  match l with
  | [] => True
  | s :: l' => seg_sn s = base /\ sn_contig (u32 (base + 1)) l'
  end.

(** The closed form of the move loop. *)
Definition moved_rcv (k : ikcpcb) (moved rest : list IKCPSEG) : ikcpcb :=
  k <| rcv_buf := rest |> <| nrcv_buf := u32 (lenZ rest) |>
    <| rcv_queue := rcv_queue k ++ moved |> <| nrcv_que := lenZ (rcv_queue k ++ moved) |>
    <| rcv_nxt := u32 (rcv_nxt k + lenZ moved) |>.

(** Why the loop stopped. *)
Definition move_stops (k : ikcpcb) (rest : list IKCPSEG) : Prop :=
  match rest with
  | [] => True
  | s :: _ => seg_sn s <> rcv_nxt k \/ rcv_wnd k <= nrcv_que k
  end.

Lemma rcv_wf_step k s buf :
  rcv_wf k -> is_u32 (rcv_wnd k) -> rcv_buf k = s :: buf -> seg_sn s = rcv_nxt k ->
  nrcv_que k < rcv_wnd k -> rcv_wf (moved_rcv k [s] buf).
Proof.
  intros [Hx Hsort Hpb Hpq Hnb Hnq Hqu] Hw E Es Hlt. rewrite E in *.
  cbn in Hsort. destruct Hsort as (_ & Ho & Hl). inv Hpb.
  assert (H0 : off (rcv_nxt k) s = 0) by (unfold off; rewrite Es; apply itimediff_self).
  rewrite H0 in Hl.
  constructor; cbn; try assumption; try apply u32_range.
  - eapply sn_sorted_weaken; [| |apply sn_sorted_rebase; [| | | |exact Hl]]; lia.
  - apply Forall_app. split; [assumption|]. repeat constructor; apply H1.
  - reflexivity.
  - reflexivity.
  - rewrite length_app. cbn. rlia.
Qed.

Lemma move_step_eq k s buf :
  rcv_wf k -> is_u32 (rcv_wnd k) -> rcv_buf k = s :: buf -> nrcv_que k < rcv_wnd k ->
  k <| rcv_buf := buf |> <| nrcv_buf := u32 (nrcv_buf k - 1) |>
    <| rcv_queue := rcv_queue k ++ [s] |> <| nrcv_que := u32 (nrcv_que k + 1) |>
    <| rcv_nxt := u32 (rcv_nxt k + 1) |> = moved_rcv k [s] buf.
Proof.
  intros [Hx _ _ _ Hnb Hnq Hqu] Hw E Hlt. unfold moved_rcv. rewrite E in Hnb.
  rewrite (synced_pop _ _ _ Hnb), (u32_id (nrcv_que k + 1)) by rlia.
  rewrite Hnq, length_app, Nat2Z.inj_add. reflexivity.
Qed.

Lemma moved_rcv_nil k :
  rcv_wf k -> moved_rcv k [] (rcv_buf k) = k.
Proof.
  intros [Hx _ _ _ Hnb Hnq _]. unfold moved_rcv. rewrite app_nil_r, <- Hnb, <- Hnq.
  cbn [length]. rewrite Z.add_0_r, u32_id by assumption. kcb_eq.
Qed.

Lemma moved_rcv_cons k s buf moved rest :
  moved_rcv (moved_rcv k [s] buf) moved rest = moved_rcv k (s :: moved) rest.
Proof.
  unfold moved_rcv. cbn. rewrite <- app_assoc. cbn [app length].
  replace (u32 (u32 (rcv_nxt k + Z.of_nat 1) + lenZ moved))
    with (u32 (rcv_nxt k + Z.of_nat (S (length moved)))) by wrap_lia.
  reflexivity.
Qed.

Lemma move_rcv_loop_spec buf k :
  rcv_wf k -> is_u32 (rcv_wnd k) -> rcv_buf k = buf ->
  exists moved rest, buf = moved ++ rest /\ sn_contig (rcv_nxt k) moved /\
    move_rcv_loop buf k = moved_rcv k moved rest /\ rcv_wf (moved_rcv k moved rest) /\
    move_stops (moved_rcv k moved rest) rest.
Proof.
  revert k. induction buf as [|s buf IH]; intros k Hwf Hw E; simpl.
  - exists [], []. assert (Hm := moved_rcv_nil k Hwf). rewrite E in Hm. rewrite Hm. cbn. auto.
  - destruct ((seg_sn s =? rcv_nxt k) && (nrcv_que k <? rcv_wnd k)) eqn:Hc.
    + apply andb_prop in Hc as [Hs Hq]. apply Z.eqb_eq in Hs. apply Z.ltb_lt in Hq.
      assert (Hwf1 := rcv_wf_step _ _ _ Hwf Hw E Hs Hq).
      destruct (IH _ Hwf1 Hw eq_refl) as (moved & rest & -> & Hcg & Hm & Hwf' & Hst).
      exists (s :: moved), rest. cbn [app sn_contig].
      rewrite <- (moved_rcv_cons k s (moved ++ rest)), <- Hm.
      rewrite <- (move_step_eq k s _ Hwf Hw E Hq) in Hcg, Hst, Hwf', Hm |- *.
      split; [reflexivity|]. split; [split; [exact Hs | exact Hcg]|].
      split; [reflexivity|]. rewrite Hm. split; [exact Hwf' | exact Hst].
    + exists [], (s :: buf). assert (Hm := moved_rcv_nil k Hwf). rewrite E in Hm. rewrite Hm.
      split; [reflexivity|]. split; [exact I|]. split; [reflexivity|]. split; [assumption|].
      cbn. apply andb_false_iff in Hc as [Hc|Hc]; [left | right]; lia.
Qed.

Lemma move_rcv_spec k :
  rcv_wf k -> is_u32 (rcv_wnd k) ->
  exists moved rest, rcv_buf k = moved ++ rest /\ sn_contig (rcv_nxt k) moved /\
    move_rcv k = moved_rcv k moved rest /\ rcv_wf (move_rcv k) /\
    move_stops (move_rcv k) rest.
Proof.
  intros Hwf Hw. destruct (move_rcv_loop_spec _ _ Hwf Hw eq_refl) as
    (moved & rest & E & Hc & Hm & Hwf' & Hs).
  exists moved, rest. unfold move_rcv. rewrite Hm. auto.
Qed.

(** Where the backward search stops. *)
Lemma rcv_scan_spec sn rf bk b rf' bk' :
  rcv_scan sn rf bk = (b, rf', bk') ->
  rev rf' ++ bk' = rev rf ++ bk /\
  (b = true -> exists s, head rf' = Some s /\ seg_sn s = sn) /\
  (b = false ->
     (forall s, head rf' = Some s -> 0 < _itimediff sn (seg_sn s)) /\
     (Forall (fun s => _itimediff sn (seg_sn s) <= 0 /\ seg_sn s <> sn) bk ->
      Forall (fun s => _itimediff sn (seg_sn s) <= 0 /\ seg_sn s <> sn) bk')).
Proof.
  revert bk. induction rf as [|s rf IH]; simpl; intros bk E.
  - inv E. split; [reflexivity|]. split; [discriminate|]. intros _. split; [discriminate|auto].
  - destruct (Z.eqb_spec (seg_sn s) sn) as [Es|Es].
    + inv E. split; [reflexivity|]. split; [|discriminate]. intros _. exists s. auto.
    + destruct (Z.ltb_spec 0 (_itimediff sn (seg_sn s))) as [Hs|Hs].
      * inv E. split; [reflexivity|]. split; [discriminate|]. intros _.
        split; [intros s' [= <-]; exact Hs | auto].
      * destruct (IH _ E) as (H1 & H2 & H3). rewrite <- app_assoc.
        split; [exact H1|]. split; [exact H2|]. intros Hb. destruct (H3 Hb) as [H4 H5].
        split; [exact H4|]. intros Hbk. apply H5. constructor; auto.
Qed.

Lemma sn_sorted_insert base lo hi l1 new l2 :
  sn_sorted base lo hi (l1 ++ l2) -> is_u32 (seg_sn new) -> lo <= off base new < hi ->
  (forall s, last l1 = Some s -> off base s < off base new) ->
  (forall s, head l2 = Some s -> off base new < off base s) ->
  sn_sorted base lo hi (l1 ++ new :: l2).
Proof.
  rewrite !sn_sorted_app. intros [H1 H2] Hn Ho Hb Ha. split; [exact H1|]. cbn [sn_sorted].
  split; [exact Hn|]. split.
  - destruct (last l1) as [s|]; [specialize (Hb s eq_refl)|]; lia.
  - destruct l2 as [|s l2]; [exact I|]. cbn in H2 |- *. specialize (Ha s eq_refl).
    destruct H2 as (? & ? & ?). split; [assumption|]. split; [lia|assumption].
Qed.

Lemma last_rev {X : Type} (l : list X) : last (rev l) = head l.
Proof. destruct l as [|x l]; [reflexivity|]. cbn [rev]. rewrite last_snoc. reflexivity. Qed.

(** Either the number was there, or the segment goes to its place. *)
Lemma insert_rcv_buf_spec k s :
  rcv_wf k -> is_u32 (seg_sn s) -> 0 <= off (rcv_nxt k) s < 2147483648 ->
  (insert_rcv_buf k s = k /\ exists s', s' ∈ rcv_buf k /\ seg_sn s' = seg_sn s) \/
  (exists l1 l2 n, rcv_buf k = l1 ++ l2 /\
     insert_rcv_buf k s = k <| rcv_buf := l1 ++ s :: l2 |> <| nrcv_buf := n |> /\
     synced n (l1 ++ s :: l2) /\ sn_sorted (rcv_nxt k) 0 2147483648 (l1 ++ s :: l2)).
Proof.
  intros [Hx Hsort _ _ Hnb _ _] Hs Ho. unfold insert_rcv_buf.
  destruct (rcv_scan (seg_sn s) (rev (rcv_buf k)) []) as [[b rf] bk] eqn:E.
  apply rcv_scan_spec in E as (E & Ht & Hf). rewrite rev_involutive, app_nil_r in E.
  destruct b.
  - left. split; [reflexivity|]. destruct (Ht eq_refl) as (s' & Hh & Es).
    exists s'. split; [|exact Es]. rewrite <- E. apply elem_of_app. left.
    apply last_Some_elem_of. rewrite last_rev. exact Hh.
  - right. destruct (Hf eq_refl) as [Hh Hb]. specialize (Hb (Forall_nil_2 _)).
    assert (Hoff : forall x, x ∈ rcv_buf k -> 0 <= off (rcv_nxt k) x < 2147483648 /\ is_u32 (seg_sn x)).
    { intros x Hin. apply sn_sorted_Forall in Hsort.
      eapply Forall_forall in Hsort; [|exact Hin]. simpl in Hsort. tauto. }
    exists (rev rf), bk, (u32 (nrcv_buf k + 1)). split; [auto|]. split; [reflexivity|].
    split.
    + unfold synced. rewrite Hnb, <- E, !length_app. cbn [length]. wrap_lia.
    + apply sn_sorted_insert; [rewrite E; exact Hsort | exact Hs | exact Ho | |].
      * intros x Hl. assert (Hin : x ∈ rcv_buf k).
        { rewrite <- E. apply elem_of_app. left. apply last_Some_elem_of, Hl. }
        rewrite last_rev in Hl. apply Hh in Hl. destruct (Hoff _ Hin) as [Hi _].
        rewrite (itimediff_off (rcv_nxt k)) in Hl; unfold off in *; rlia.
      * intros x Hl. destruct bk as [|y bk]; [discriminate|]. injection Hl as ->.
        assert (Hin : x ∈ rcv_buf k) by (rewrite <- E; apply elem_of_app; right; left).
        destruct (Hoff _ Hin) as [Hi Hu]. inv Hb. destruct H1 as [H1 Hne].
        rewrite (itimediff_off (rcv_nxt k)) in H1; unfold off in *; [|rlia].
        destruct (Z.eq_dec (_itimediff (seg_sn s) (rcv_nxt k)) (_itimediff (seg_sn x) (rcv_nxt k)));
          [|lia]. exfalso. apply Hne. symmetry. eapply (off_inj (rcv_nxt k)); eassumption.
Qed.

Lemma insert_rcv_buf_wf k s :
  rcv_wf k -> is_u32 (seg_sn s) -> seg_payload s -> 0 <= off (rcv_nxt k) s < 2147483648 ->
  rcv_wf (insert_rcv_buf k s).
Proof.
  intros Hwf Hs Hp Ho.
  destruct (insert_rcv_buf_spec k s Hwf Hs Ho) as [[-> _]|(l1 & l2 & n & E & -> & Hn & Hso)];
    [exact Hwf|].
  destruct Hwf as [? _ Hpb ? _ ? ?]. rewrite E in Hpb. apply Forall_app in Hpb as [? ?].
  constructor; cbn; try assumption. apply Forall_app. split; [assumption|]. constructor; assumption.
Qed.

Lemma insert_rcv_buf_frame k s :
  exists b n, insert_rcv_buf k s = k <| rcv_buf := b |> <| nrcv_buf := n |>.
Proof.
  unfold insert_rcv_buf. destruct (rcv_scan _ _ _) as [[[] rf] bk].
  - exists (rcv_buf k), (nrcv_buf k). kcb_eq.
  - do 2 eexists. reflexivity.
Qed.

Lemma rcv_wf_parse_data k s :
  rcv_wf k -> is_u32 (rcv_wnd k) -> is_u32 (seg_sn s) -> seg_payload s ->
  rcv_wf (ikcp_parse_data k s).
Proof.
  intros Hwf Hw Hs Hp. unfold ikcp_parse_data. case_match eqn:Hc; [exact Hwf|].
  apply orb_false_iff in Hc as [_ Hc]. apply Z.ltb_ge in Hc.
  assert (Hi : rcv_wf (insert_rcv_buf k s)).
  { apply insert_rcv_buf_wf; try assumption. pose proof (itimediff_range (seg_sn s) (rcv_nxt k)).
    unfold off. rlia. }
  destruct (insert_rcv_buf_frame k s) as (b & n & E).
  apply move_rcv_spec in Hi as (m & r & _ & _ & _ & H & _); [exact H|]. rewrite E. exact Hw.
Qed.

(** ** Round-trip time *)
Definition rto_of (k : ikcpcb) (srtt rttval : Z) : Z :=
  i32 (_ibound_ (u32 (rx_minrto k))
         (u32 (i32 (u32 (srtt + _imax_ (interval k) (u32 (i32 (4 * rttval)))))))
         IKCP_RTO_MAX).

Lemma update_ack_eq k rtt :
  exists a b, ikcp_update_ack k rtt =
    k <| rx_srtt := a |> <| rx_rttval := b |> <| rx_rto := rto_of k a b |>.
Proof.
  unfold ikcp_update_ack. destruct (rx_srtt k =? 0); [do 2 eexists; reflexivity|].
  cbv zeta. case_match; do 2 eexists; reflexivity.
Qed.

Lemma rto_of_bounds k a b :
  0 <= rx_minrto k <= IKCP_RTO_MAX -> rx_minrto k <= rto_of k a b <= IKCP_RTO_MAX.
Proof.
  intros Hm. unfold rto_of, _ibound_, _imin_, _imax_, IKCP_RTO_MAX in *.
  rewrite (u32_id (rx_minrto k)) by rlia.
  rewrite i32_id; repeat (zcase; try rlia).
Qed.

Lemma cfg_wf_update_ack k rtt : cfg_wf k -> cfg_wf (ikcp_update_ack k rtt).
Proof.
  intros [? ? ? ? ? ? ? ? ? Hm ? ? ?]. destruct (update_ack_eq k rtt) as (a & b & ->).
  constructor; cbn; try assumption. pose proof (rto_of_bounds k a b Hm). lia.
Qed.

(** ** Acknowledgements *)
Lemma shl_pow2 i : 0 <= i < 31 -> u32 (Z.shiftl (2 ^ i) 1) = 2 ^ (i + 1).
Proof.
  intros Hi. rewrite Z.shiftl_mul_pow2, <- Z.pow_add_r by lia. apply u32_id. split.
  - apply Z.pow_nonneg. lia.
  - change 4294967296 with (2 ^ 32). apply Z.pow_lt_mono_r; lia.
Qed.

(** From zero the doubling loop never ends. *)
Lemma grow_block_zero fuel size : 0 < size -> grow_block fuel 0 size = None.
Proof.
  intros Hs. induction fuel; simpl; (destruct (Z.ltb_spec 0 size); [|lia]); auto.
Qed.

(** The loop stops at a power of two that is large enough. *)
Lemma grow_block_spec fuel i size n :
  0 <= i <= 31 -> grow_block fuel (2 ^ i) size = Some n ->
  size <= n /\ exists j, i <= j <= 31 /\ n = 2 ^ j /\ (n = 2 ^ i \/ n < 2 * size).
Proof.
  revert i. induction fuel as [|fuel IH]; intros i Hi; simpl;
    (destruct (Z.ltb_spec (2 ^ i) size);
     [|intros [= <-]; split; [lia|]; exists i; split; [lia|]; auto]); [discriminate|].
  intros E. destruct (Z.eq_dec i 31) as [->|].
  - change (u32 (Z.shiftl (2 ^ 31) 1)) with 0 in E.
    rewrite grow_block_zero in E by (assert (0 < 2 ^ 31) by reflexivity; lia). discriminate.
  - rewrite shl_pow2 in E by lia. apply IH in E as (Hs & j & Hj & -> & Hb); [|lia].
    split; [exact Hs|]. exists j. split; [lia|]. split; [reflexivity|]. right.
    destruct Hb as [->|Hb]; [|exact Hb]. rewrite Z.pow_add_r by lia. lia.
Qed.

Lemma grow_block_total size :
  size <= 2147483648 -> exists n, grow_block 32 8 size = Some n.
Proof.
  intros Hs.
  assert (H : forall j fuel i, (j <= fuel)%nat -> i + Z.of_nat j = 31 -> 0 <= i ->
            exists n, grow_block fuel (2 ^ i) size = Some n).
  { induction j as [|j IH]; intros fuel i Hf E Hi.
    - exists (2 ^ i). assert (i = 31) as -> by lia. change (2 ^ 31) with 2147483648 in *.
      destruct fuel; simpl; destruct (Z.ltb_spec 2147483648 size); try lia; reflexivity.
    - destruct fuel as [|fuel]; [lia|]. simpl.
      destruct (Z.ltb_spec (2 ^ i) size); [|eauto]. rewrite shl_pow2 by lia. apply IH; lia. }
  apply (H 28%nat _ 3); lia.
Qed.

(** The bytes of the block: too many cells make the size wrap to 0. *)
Lemma ack_bytes j : 3 <= j <= 31 -> 0 < u32 (2 ^ j * 8) -> 2 ^ j <= 268435456.
Proof.
  intros Hj H. destruct (Z.le_gt_cases j 28) as [Hl|Hl].
  - change 268435456 with (2 ^ 28). apply Z.pow_le_mono_r; lia.
  - exfalso. assert (j = 29 \/ j = 30 \/ j = 31) as [-> | [-> | ->]] by lia; discriminate.
Qed.

Section Acks.
Context {A : Alloc}.

Lemma ack_push_eq k sn ts k' :
  0 <= ackcount k -> ikcp_ack_push k sn ts = Ret k' ->
  exists b, k' = k <| acklist := take (Z.to_nat (ackcount k)) (acklist k) ++ [(sn, ts)] |>
                   <| ackblock := b |> <| ackcount := u32 (ackcount k + 1) |> /\
    (0 <= ackblock k <= 268435456 -> ackcount k < b <= 268435456).
Proof.
  intros H0. unfold ikcp_ack_push. intros (k1 & E1 & E2)%obind_Ret.
  assert (H : exists b l, k1 = k <| acklist := l |> <| ackblock := b |> /\
    take (Z.to_nat (ackcount k)) l = take (Z.to_nat (ackcount k)) (acklist k) /\
    (0 <= ackblock k <= 268435456 -> 0 < u32 (b * 8) -> 0 <= b <= 268435456)).
  { destruct (ackblock k <? _).
    - destruct (grow_block _ _ _) as [nb|] eqn:G; [|discriminate].
      destruct (negb _); [discriminate|]. injection E1 as <-.
      apply (grow_block_spec _ 3) in G as (_ & j & Hj & -> & _); [|lia].
      exists (2 ^ j), (take (Z.to_nat (ackcount k)) (acklist k)).
      split; [reflexivity|]. rewrite take_take, Nat.min_id. split; [reflexivity|].
      intros _ Hp. split; [apply Z.pow_nonneg; lia | apply ack_bytes; assumption].
    - injection E1 as <-. exists (ackblock k), (acklist k). split; [kcb_eq | auto]. }
  destruct H as (b & l & -> & Hl & Hb). cbn in E2.
  destruct (Z.leb_spec (u32 (b * 8)) (ackcount k * 8)) as [|Hlt]; [discriminate|]. injection E2 as <-.
  exists b. rewrite Hl. split; [reflexivity|].
  assert (u32 (b * 8) <= b * 8 \/ b < 0) by (unfold u32; Z.div_mod_to_equations; lia).
  intros Hb0. specialize (Hb Hb0 ltac:(lia)). lia.
Qed.

Lemma ack_wf_push k sn ts k' :
  ack_wf k -> is_u32 sn -> is_u32 ts -> ikcp_ack_push k sn ts = Ret k' -> ack_wf k'.
Proof.
  intros [Hc Hb Hl Ha] Hs Ht E. apply ack_push_eq in E as (b & -> & Hlt); [|lia].
  specialize (Hlt ltac:(lia)). constructor; cbn.
  - rewrite u32_id by rlia. lia.
  - lia.
  - rewrite length_app, length_take, u32_id by rlia. cbn [length]. lia.
  - apply Forall_app. split; [apply Forall_take, Ha|]. apply Forall_singleton. split; assumption.
Qed.

Lemma ack_push_total k sn ts :
  ack_wf k -> ackcount k < 134217728 ->
  out_of_memory (ikcp_ack_push k sn ts) \/ exists k', ikcp_ack_push k sn ts = Ret k'.
Proof.
  intros [Hc Hb Hl Ha] Hlt. unfold ikcp_ack_push. rewrite u32_id by rlia.
  destruct (Z.ltb_spec (ackblock k) (ackcount k + 1)).
  - destruct (grow_block_total (ackcount k + 1)) as [n Hn]; [lia|]. rewrite Hn.
    apply (grow_block_spec _ 3) in Hn as (Hn & j & Hj & _ & Hd); [|lia].
    destruct (malloc_ok _) eqn:Em; cbn [negb obind]; [right | left; eauto].
    cbn. rewrite u32_id by (change (2 ^ 3) with 8 in Hd; rlia).
    destruct (Z.leb_spec (n * 8) (ackcount k * 8)); [lia|]. eauto.
  - right. cbn. rewrite u32_id by rlia. destruct (Z.leb_spec (ackblock k * 8) (ackcount k * 8)); [lia|]. eauto.
Qed.
End Acks.

(** ** Input *)
Ltac wf_frame :=
  match goal with
  | H : ?P _ |- ?P _ => destruct H; constructor; assumption
  end.

Lemma kcp_wf_trace k t : kcp_wf k -> kcp_wf (k <| trace := t |>).
Proof. intros [? ? ? ?]. constructor; wf_frame. Qed.

Lemma kcp_wf_log k a b : kcp_wf k -> kcp_wf (log_if k a b).
Proof. destruct (log_if_eq k a b) as (t & -> & _). apply kcp_wf_trace. Qed.

Lemma kcp_wf_probe k p : kcp_wf k -> kcp_wf (k <| probe := p |>).
Proof. intros [? ? ? ?]. constructor; wf_frame. Qed.

Lemma kcp_wf_rmt_wnd k w : is_u16 w -> kcp_wf k -> kcp_wf (k <| rmt_wnd := w |>).
Proof. intros Hw [? ? ? ?]. constructor; [|wf_frame..]. destruct wf_cfg0. constructor; assumption. Qed.

Lemma kcp_wf_update_ack k rtt : kcp_wf k -> kcp_wf (ikcp_update_ack k rtt).
Proof.
  intros [Hc ? ? ?]. pose proof (cfg_wf_update_ack k rtt Hc) as Hc'.
  destruct (update_ack_eq k rtt) as (a & b & E). rewrite E in *.
  constructor; [exact Hc' | wf_frame..].
Qed.

Lemma kcp_wf_parse_una k una : kcp_wf k -> kcp_wf (ikcp_parse_una k una).
Proof.
  intros [? Hs ? ?]. apply (snd_wf_parse_una _ una) in Hs.
  destruct (parse_una_eq k una) as (n & E & _). rewrite E in *.
  constructor; [wf_frame | exact Hs | wf_frame..].
Qed.

Lemma kcp_wf_shrink k : kcp_wf k -> kcp_wf (ikcp_shrink_buf k).
Proof.
  intros [? Hs ? ?]. apply snd_wf_shrink in Hs. rewrite shrink_buf_eq in *.
  constructor; [wf_frame | exact Hs | wf_frame..].
Qed.

Lemma kcp_wf_parse_ack k sn : kcp_wf k -> kcp_wf (ikcp_parse_ack k sn).
Proof.
  intros Hwf. pose proof (snd_wf_parse_ack k sn (wf_snd _ Hwf)) as Hs.
  destruct (parse_ack_eq k sn) as [->|(l1 & s & l2 & n & _ & _ & E & _)]; [exact Hwf|].
  rewrite E in *. destruct Hwf. constructor; [wf_frame | exact Hs | wf_frame..].
Qed.

Lemma kcp_wf_fastack k sn : kcp_wf k -> kcp_wf (ikcp_parse_fastack k sn).
Proof.
  intros [? Hs ? ?]. apply (snd_wf_fastack _ sn) in Hs. unfold ikcp_parse_fastack in *.
  case_match; constructor; try exact Hs; wf_frame.
Qed.

Lemma kcp_wf_input_cwnd k una : kcp_wf k -> kcp_wf (input_cwnd k una).
Proof.
  intros [Hc ? ? ?].
  assert (H : exists c i, input_cwnd k una = k <| cwnd := c |> <| incr := i |> /\ is_u32 c).
  { assert (Hu := wf_cwnd _ Hc).
    assert (E : exists c i, k = k <| cwnd := c |> <| incr := i |> /\ is_u32 c)
      by (exists (cwnd k), (incr k); split; [kcb_eq | exact Hu]).
    assert (Hr : is_u32 (rmt_wnd k)) by (pose proof (wf_rmt_wnd _ Hc); rlia).
    unfold input_cwnd. destruct (0 <? _); [|exact E].
    destruct (cwnd k <? rmt_wnd k); [|exact E].
    cbv zeta. repeat case_match; cbn in *; do 2 eexists; (split; [reflexivity|]);
      try assumption; apply u32_range. }
  destruct H as (c & i & -> & Hu). constructor; [|wf_frame..].
  destruct Hc; constructor; assumption.
Qed.

(** The receiving half as one update: what [ikcp_parse_data] and [ikcp_recv] may touch. *)
Definition rcv_half (k k' : ikcpcb) : Prop :=
  k' = k <| rcv_buf := rcv_buf k' |> <| nrcv_buf := nrcv_buf k' |>
         <| rcv_queue := rcv_queue k' |> <| nrcv_que := nrcv_que k' |>
         <| rcv_nxt := rcv_nxt k' |>.

Lemma rcv_half_refl k : rcv_half k k.
Proof. unfold rcv_half. kcb_eq. Qed.

Lemma rcv_half_trans k1 k2 k3 : rcv_half k1 k2 -> rcv_half k2 k3 -> rcv_half k1 k3.
Proof. unfold rcv_half. intros H1 H2. rewrite H2, H1. reflexivity. Qed.

Lemma rcv_half_move buf k : rcv_half k (move_rcv_loop buf k).
Proof.
  revert k. induction buf as [|s buf IH]; intros k; simpl; [apply rcv_half_refl|].
  case_match; [|apply rcv_half_refl]. eapply rcv_half_trans; [|apply IH]. reflexivity.
Qed.

Lemma parse_data_frame k s : rcv_half k (ikcp_parse_data k s).
Proof.
  unfold ikcp_parse_data. case_match; [apply rcv_half_refl|].
  eapply rcv_half_trans; [|apply rcv_half_move].
  destruct (insert_rcv_buf_frame k s) as (b & n & ->). reflexivity.
Qed.

Lemma kcp_wf_parse_data k s :
  is_u32 (seg_sn s) -> seg_payload s -> kcp_wf k -> kcp_wf (ikcp_parse_data k s).
Proof.
  intros Hs Hp [Hc ? Hr ?].
  assert (Hr' : rcv_wf (ikcp_parse_data k s))
    by (apply rcv_wf_parse_data; try assumption; pose proof (wf_rcv_wnd _ Hc);
        unfold IKCP_WND_RCV in *; rlia).
  pose proof (parse_data_frame k s) as E. red in E. rewrite E in *. clear E.
  constructor; [wf_frame | wf_frame | exact Hr' | wf_frame].
Qed.

Section InputWf.
Context {A : Alloc} `{!AllocSized A}.

Lemma kcp_wf_ack_push k sn ts k' :
  is_u32 sn -> is_u32 ts -> ikcp_ack_push k sn ts = Ret k' -> kcp_wf k -> kcp_wf k'.
Proof.
  intros Hs Ht E [? ? ? Ha]. pose proof (ack_wf_push _ _ _ _ Ha Hs Ht E) as Ha'.
  apply ack_push_eq in E as (b & -> & _); [|apply Ha].
  constructor; [wf_frame.. | exact Ha'].
Qed.

(** The segment built from a checked header carries exactly its payload. *)
Lemma input_seg_payload cv h data :
  header_wf h -> is_bytes data -> 0 <= i32 (h_len h) -> h_len h <= lenZ data ->
  seg_payload (input_seg (seg_block (i32 (h_len h))) cv h (take (Z.to_nat (h_len h)) data)).
Proof.
  intros (_ & Hf & _ & _ & _ & _ & Hl) Hb Hi Hd.
  assert (Hlen : i32 (h_len h) = h_len h) by wrap_lia.
  assert (Hlt : h_len h < 2147483648) by (pose proof (i32_range (h_len h)); rlia).
  unfold input_seg. destruct (Z.ltb_spec 0 (h_len h)); unfold seg_payload; cbn.
  - rewrite length_take. split; [lia|]. split; [lia|]. split; [apply Forall_take, Hb | exact Hf].
  - assert (h_len h = 0) as E by lia. rewrite Hlen, E.
    pose proof (seg_block_len 0 ltac:(lia)) as E'.
    assert (En : seg_data (seg_block 0) = []) by (apply nil_length_inv; lia).
    rewrite En. cbn. split; [reflexivity|]. split; [lia|]. split; [constructor | exact Hf].
Qed.

Lemma kcp_wf_input_push k cv h data k' :
  header_wf h -> is_bytes data -> 0 <= i32 (h_len h) ->
  input_push k cv h data = Ret k' -> kcp_wf k -> kcp_wf k'.
Proof.
  intros Hh Hb Hi E Hwf. unfold input_push in E.
  apply (kcp_wf_log _ IKCP_LOG_IN_DATA IKCP_LOG_IN_DATA) in Hwf.
  revert E. generalize dependent (log_if k IKCP_LOG_IN_DATA IKCP_LOG_IN_DATA). clear k.
  intros k Hwf E. destruct (_ <? 0); [|injection E as <-; exact Hwf].
  apply obind_Ret in E as (k1 & E1 & E).
  assert (Hwf1 : kcp_wf k1) by (eapply kcp_wf_ack_push; [..|exact E1|exact Hwf]; apply Hh).
  destruct (0 <=? _); [|injection E as <-; exact Hwf1].
  unfold ikcp_segment_new in E. destruct (malloc_ok _); [|discriminate].
  destruct (Z.ltb_spec (lenZ data) (h_len h)); [discriminate|]. injection E as <-.
  apply kcp_wf_parse_data; [|apply input_seg_payload; assumption|exact Hwf1].
  unfold input_seg. destruct (0 <? h_len h); apply Hh.
Qed.

Lemma kcp_wf_input_ack k l h : kcp_wf k -> kcp_wf (input_ack k l h).1.
Proof.
  intros Hwf. unfold input_ack. cbn [fst]. apply kcp_wf_log, kcp_wf_shrink, kcp_wf_parse_ack.
  case_match; [apply kcp_wf_update_ack|]; exact Hwf.
Qed.

Lemma kcp_wf_dispatch k l cv h data k' l' :
  header_wf h -> is_bytes data -> 0 <= i32 (h_len h) ->
  input_dispatch k l cv h data = Ret (k', l') -> kcp_wf k -> kcp_wf k'.
Proof.
  intros Hh Hb Hi E Hwf. unfold input_dispatch in E.
  assert (Hwf1 : kcp_wf (ikcp_shrink_buf (ikcp_parse_una (k <| rmt_wnd := h_wnd h |>) (h_una h))))
    by (apply kcp_wf_shrink, kcp_wf_parse_una, kcp_wf_rmt_wnd; [apply Hh | exact Hwf]).
  destruct (h_cmd h =? IKCP_CMD_ACK).
  { apply Ret_inj in E. change k' with (k', l').1. rewrite <- E. apply kcp_wf_input_ack, Hwf1. }
  destruct (h_cmd h =? IKCP_CMD_PUSH).
  { apply obind_Ret in E as (k1 & E1 & [= <- <-]). eapply kcp_wf_input_push; eassumption. }
  destruct (h_cmd h =? IKCP_CMD_WASK); injection E as <- _; apply kcp_wf_log;
    [apply kcp_wf_probe|]; exact Hwf1.
Qed.

Lemma kcp_wf_input_loop fuel k l data size k' e :
  is_bytes data -> input_loop fuel k l data size = Ret (k', e) -> kcp_wf k -> kcp_wf k'.
Proof.
  revert k l data size. induction fuel as [|fuel IH]; intros k l data size Hb E Hwf; simpl in E;
    [discriminate|].
  destruct (size <? IKCP_OVERHEAD); [injection E as <- _; exact Hwf|].
  destruct (ikcp_decode32u data) as [[cv d1]|] eqn:E1; [|discriminate].
  apply decode32_inv in E1 as (_ & Hb1 & _); [|exact Hb].
  destruct (negb (cv =? conv k)); [injection E as <- _; exact Hwf|].
  destruct (decode_header d1) as [[h d2]|] eqn:E2; [|discriminate].
  apply decode_header_inv in E2 as (Hh & Hb2 & _); [|exact Hb1].
  destruct ((_ <? i32 (h_len h)) || (i32 (h_len h) <? 0)) eqn:E3;
    [injection E as <- _; exact Hwf|].
  apply orb_false_iff in E3 as [_ E3]. apply Z.ltb_ge in E3.
  destruct (negb (valid_cmd (h_cmd h))); [injection E as <- _; exact Hwf|].
  apply obind_Ret in E as ([k1 l1] & E4 & E).
  eapply IH; [|exact E|]; [apply Forall_drop, Hb2|].
  eapply kcp_wf_dispatch; [..|exact E4|exact Hwf]; assumption.
Qed.

Lemma kcp_wf_input k data size r k' :
  (forall d, data = Some d -> is_bytes d) ->
  ikcp_input k data size = Ret (r, k') -> kcp_wf k -> kcp_wf k'.
Proof.
  intros Hb E Hwf. unfold ikcp_input in E.
  apply (kcp_wf_log _ IKCP_LOG_INPUT IKCP_LOG_INPUT) in Hwf.
  destruct data as [d|]; [|injection E as _ <-; exact Hwf].
  destruct (_ <? IKCP_OVERHEAD); [injection E as _ <-; exact Hwf|].
  apply obind_Ret in E as ([k1 e] & E1 & E).
  apply kcp_wf_input_loop in E1; [|apply Hb; reflexivity|exact Hwf].
  destruct e as [l|c]; injection E as _ <-; [|exact E1].
  apply kcp_wf_input_cwnd. case_match; [apply kcp_wf_fastack|]; exact E1.
Qed.
End InputWf.

(** ** Reading messages *)

(** The segments of the first message (up to the first fragment numbered 0),
    and what follows them. *)
Fixpoint split_msg (q : list IKCPSEG) : list IKCPSEG * list IKCPSEG :=
  match q with
  | [] => ([], [])
  | s :: q' =>
      if seg_frg s =? 0 then ([s], q')
      else let '(m, r) := split_msg q' in (s :: m, r)
  end.

Definition msg_bytes (m : list IKCPSEG) : list Z := concat (map seg_data m).

Lemma split_msg_app q : (split_msg q).1 ++ (split_msg q).2 = q.
Proof.
  induction q as [|s q IH]; simpl; [reflexivity|]. case_match; [reflexivity|].
  destruct (split_msg q) as [m r]. cbn in *. congruence.
Qed.

Lemma peek_loop_eq q n :
  Forall seg_payload q ->
  i32 (peek_loop q n) = i32 (n + lenZ (msg_bytes (split_msg q).1)).
Proof.
  intros H. revert n. induction H as [|s q (Hl & _) Hq IH]; intros n; simpl.
  - f_equal. lia.
  - destruct (seg_frg s =? 0).
    + unfold msg_bytes. cbn. rewrite app_nil_r, Hl. autorewrite with ints. wrap_lia.
    + rewrite IH. destruct (split_msg q) as [m r]. cbn.
      unfold msg_bytes. cbn. rewrite length_app, Hl, Nat2Z.inj_add. wrap_lia.
Qed.

(** The merge loop in closed form; the copied bytes are those of the message. *)
Lemma recv_merge_spec q ispeek copy len out k :
  Forall seg_payload q -> (ispeek = false -> rcv_queue k = q) ->
  exists t, Forall (fun e => exists m, e = EvLog m) t /\
    recv_merge q ispeek copy len out k =
    (peek_loop q len,
     if copy then out ++ msg_bytes (split_msg q).1 else out,
     let k := k <| trace := trace k ++ t |> in
     if ispeek || (match q with [] => true | _ => false end) then k
     else k <| rcv_queue := (split_msg q).2 |>
            <| nrcv_que := u32 (nrcv_que k - lenZ (split_msg q).1) |>).
Proof.
  intros H. revert len out k. induction H as [|s q (Hl & Hlt & _ & Hf) Hq IH]; intros len out k Hk.
  - exists []. split; [constructor|]. simpl. rewrite !app_nil_r, orb_true_r.
    destruct copy; f_equal; kcb_eq.
  - simpl. destruct (log_if_eq k IKCP_LOG_RECV IKCP_LOG_RECV) as (t0 & -> & Ht0).
    assert (Hfe : (i32 (seg_frg s) =? 0) = (seg_frg s =? 0)) by (rewrite i32_id by rlia; reflexivity).
    rewrite Hfe, Hl, Nat2Z.id, take_ge by lia. clear Hfe.
    destruct (seg_frg s =? 0).
    + exists t0. split; [exact Ht0|]. rewrite orb_false_r. unfold msg_bytes. cbn.
      rewrite app_nil_r. destruct ispeek; reflexivity.
    + edestruct (IH (i32 (u32 (len + lenZ (seg_data s))))
                   (if copy then out ++ seg_data s else out)
                   (if ispeek then k <| trace := trace k ++ t0 |>
                    else k <| trace := trace k ++ t0 |> <| rcv_queue := q |>
                           <| nrcv_que := u32 (nrcv_que k - 1) |>)) as (t & Ht & E).
      { intros ->. reflexivity. }
      exists (t0 ++ t). split; [apply Forall_app; auto|].
      etransitivity; [exact E|]. clear E. rewrite orb_false_r.
      destruct (split_msg q) as [m r] eqn:Em. cbn.
      unfold msg_bytes. cbn. rewrite !app_assoc.
      f_equal; [f_equal; destruct copy; rewrite ?app_assoc; reflexivity|].
      destruct ispeek; cbn; [rewrite ?app_assoc; reflexivity|].
      destruct q as [|s' q'].
      * injection Em as <- <-. cbn. rewrite ?app_assoc. reflexivity.
      * cbn. rewrite ?app_assoc.
        replace (u32 (u32 (nrcv_que k - 1) - lenZ m)) with
          (u32 (nrcv_que k - Z.of_nat (S (length m)))) by wrap_lia.
        reflexivity.
Qed.

(** The queue a successful read leaves before the move loop. *)
Definition read_queue (ispeek : bool) (q : list IKCPSEG) : list IKCPSEG :=
  if ispeek then q else (split_msg q).2.

(** The block after a successful read that moved [moved] out of [rcv_buf]. *)
Definition recv_done (k : ikcpcb) (ispeek : bool) (t : list kevent)
    (moved rest : list IKCPSEG) (p : Z) : ikcpcb :=
  let q := read_queue ispeek (rcv_queue k) in
  (moved_rcv (k <| trace := trace k ++ t |> <| rcv_queue := q |> <| nrcv_que := lenZ q |>)
     moved rest) <| probe := p |>.

Lemma rcv_wf_read k ispeek t :
  rcv_wf k ->
  let q := read_queue ispeek (rcv_queue k) in
  rcv_wf (k <| trace := trace k ++ t |> <| rcv_queue := q |> <| nrcv_que := lenZ q |>).
Proof.
  intros [? ? ? Hp ? Hq Hu]. cbv zeta. unfold read_queue. rewrite Hq in Hu.
  pose proof (split_msg_app (rcv_queue k)) as E.
  assert (Hlen : (length (split_msg (rcv_queue k)).2 <= length (rcv_queue k))%nat)
    by (rewrite <- E at 2; rewrite length_app; lia).
  constructor; cbn; try assumption; destruct ispeek; try assumption; try reflexivity.
  - rewrite <- E in Hp. apply Forall_app in Hp. tauto.
  - rlia.
Qed.

Lemma peeksize_range k : ikcp_peeksize k = i32 (ikcp_peeksize k).
Proof.
  unfold ikcp_peeksize. destruct (rcv_queue k) as [|s q]; [reflexivity|].
  case_match; [symmetry; apply i32_id, i32_range|]. case_match; [reflexivity|].
  clear. simpl. case_match; [symmetry; apply i32_id, i32_range|].
  generalize (i32 (u32 (0 + seg_len s))), (i32_range (u32 (0 + seg_len s))).
  induction q as [|s' q IH]; intros n Hn; simpl; [symmetry; apply i32_id, Hn|].
  case_match; [symmetry; apply i32_id, i32_range|]. apply IH, i32_range.
Qed.

Lemma peeksize_eq k :
  rcv_wf k -> 0 <= ikcp_peeksize k ->
  ikcp_peeksize k = peek_loop (rcv_queue k) 0 /\
  ikcp_peeksize k = i32 (lenZ (msg_bytes (split_msg (rcv_queue k)).1)).
Proof.
  intros [_ _ _ Hp _ _ _] H.
  assert (E : ikcp_peeksize k = peek_loop (rcv_queue k) 0).
  { unfold ikcp_peeksize in *. destruct (rcv_queue k) as [|s q]; [lia|]. simpl.
    inv Hp. destruct H2 as (Hl & Hlt & _).
    destruct (seg_frg s =? 0); [autorewrite with ints; f_equal; lia|].
    destruct (_ <? u32 _); [lia|reflexivity]. }
  split; [exact E|]. rewrite peeksize_range, E, (peek_loop_eq _ 0) by exact Hp. reflexivity.
Qed.

Lemma recv_merge_read k ispeek copy :
  rcv_wf k -> rcv_queue k <> [] ->
  exists t, Forall (fun e => exists m, e = EvLog m) t /\
    recv_merge (rcv_queue k) ispeek copy 0 [] k =
    (peek_loop (rcv_queue k) 0, if copy then msg_bytes (split_msg (rcv_queue k)).1 else [],
     let q := read_queue ispeek (rcv_queue k) in
     k <| trace := trace k ++ t |> <| rcv_queue := q |> <| nrcv_que := lenZ q |>).
Proof.
  intros Hr Hne.
  destruct (recv_merge_spec (rcv_queue k) ispeek copy 0 [] k) as (t & Ht & ->);
    [apply Hr | reflexivity|].
  exists t. split; [exact Ht|]. f_equal. unfold read_queue. cbv zeta.
  destruct (rcv_queue k) as [|s q] eqn:Eq; [congruence|]. rewrite <- Eq, orb_false_r.
  destruct ispeek.
  - rewrite <- (wf_nrcv_que _ Hr). kcb_eq.
  - replace (lenZ (split_msg (rcv_queue k)).2)
      with (u32 (nrcv_que k - lenZ (split_msg (rcv_queue k)).1)); [reflexivity|].
    pose proof (f_equal length (split_msg_app (rcv_queue k))) as El. rewrite length_app in El.
    pose proof (wf_nrcv_que_u32 _ Hr). rewrite (wf_nrcv_que _ Hr) in *.
    rewrite u32_id; rlia.
Qed.

Inductive recv_result (k : ikcpcb) (copy : bool) (len : Z) : Z * list Z * ikcpcb -> Prop :=
| RecvEmpty : rcv_queue k = [] -> recv_result k copy len (-1, [], k)
| RecvPartial : rcv_queue k <> [] -> ikcp_peeksize k < 0 -> recv_result k copy len (-2, [], k)
| RecvShort : 0 <= ikcp_peeksize k -> i32 (Z.abs len) < ikcp_peeksize k ->
    recv_result k copy len (-3, [], k)
| RecvOk t moved rest p :
    0 <= ikcp_peeksize k <= i32 (Z.abs len) ->
    Forall (fun e => exists m, e = EvLog m) t ->
    rcv_buf k = moved ++ rest -> sn_contig (rcv_nxt k) moved ->
    recv_result k copy len
      (ikcp_peeksize k, if copy then msg_bytes (split_msg (rcv_queue k)).1 else [],
       recv_done k (len <? 0) t moved rest p).

Lemma ikcp_recv_result k copy len :
  kcp_wf k -> is_i32 len ->
  exists r, ikcp_recv k copy len = Ret r /\ recv_result k copy len r /\ kcp_wf r.2.
Proof.
  intros Hwf Hlen. pose proof (wf_cfg _ Hwf) as Hc. pose proof (wf_rcv _ Hwf) as Hr.
  unfold ikcp_recv. destruct (rcv_queue k) as [|s0 q0] eqn:Eq.
  { eexists. split; [reflexivity|]. split; [constructor; exact Eq | exact Hwf]. }
  rewrite <- Eq. destruct (Z.ltb_spec (ikcp_peeksize k) 0) as [Hp|Hp].
  { eexists. split; [reflexivity|]. split; [|exact Hwf]. apply RecvPartial; [congruence|exact Hp]. }
  assert (Hlen' : (if len <? 0 then i32 (- len) else len) = i32 (Z.abs len))
    by (destruct (Z.ltb_spec len 0); [f_equal; lia | rewrite i32_id; rlia]).
  rewrite Hlen'. destruct (Z.ltb_spec (i32 (Z.abs len)) (ikcp_peeksize k)) as [Hs|Hs].
  { eexists. split; [reflexivity|]. split; [|exact Hwf]. apply RecvShort; assumption. }
  destruct (peeksize_eq k Hr Hp) as [E1 E2].
  destruct (recv_merge_read k (len <? 0) copy Hr) as (t & Ht & ->); [congruence|].
  rewrite E1, Z.eqb_refl. cbn [negb]. rewrite <- E1. cbv zeta.
  pose proof (rcv_wf_read k (len <? 0) t Hr) as Hr1. cbv zeta in Hr1.
  pose proof (wf_rcv_wnd _ Hc) as Hw. unfold IKCP_WND_RCV in Hw.
  apply move_rcv_spec in Hr1 as (moved & rest & Hm & Hcg & E & Hw' & _); [|cbn; rlia].
  rewrite E in *. cbn in Hm, Hcg.
  assert (Hwf' : forall p, kcp_wf (recv_done k (len <? 0) t moved rest p)).
  { intros p. unfold recv_done. cbv zeta. apply kcp_wf_probe.
    destruct Hwf. constructor; [wf_frame | wf_frame | exact Hw' | wf_frame]. }
  set (out := if copy then _ else _).
  destruct (_ && _).
  - exists (ikcp_peeksize k, out,
            recv_done k (len <? 0) t moved rest (Z.lor (probe k) IKCP_ASK_TELL)).
    split; [reflexivity|]. split; [apply RecvOk; auto | apply Hwf'].
  - exists (ikcp_peeksize k, out, recv_done k (len <? 0) t moved rest (probe k)).
    split; [reflexivity|]. split; [apply RecvOk; auto | apply Hwf'].
Qed.

(** ** Sending *)

(** The caller's buffer holds [len] bytes, if there is one. *)
Definition buffer_ok (buffer : option (list Z)) (len : Z) : Prop :=
  match buffer with
  | Some b => is_bytes b /\ len <= lenZ b
  | None => True
  end.

(** The fragment numbers of [n] fragments: [n - 1] down to 0. *)
Fixpoint frg_desc (n : nat) : list Z :=
  match n with
  | O => []
  | S n' => Z.of_nat n' :: frg_desc n'
  end.

(** What the fragment loop queued for [len] bytes of [buffer]. *)
Record frags_ok (k : ikcpcb) (buffer : option (list Z)) (len : Z) (n : nat)
    (segs : list IKCPSEG) : Prop := {
  fr_payload : Forall seg_payload segs;
  fr_fit : Forall (fun s => seg_len s <= mss k) segs;
  fr_frg : map seg_frg segs = if stream k =? 0 then frg_desc n else repeat 0 n;
  fr_bytes : forall b, buffer = Some b -> msg_bytes segs = take (Z.to_nat len) b }.

Section SendWf.
Context {A : Alloc} `{!AllocSized A}.

Lemma buffer_ok_advance buffer len n :
  0 <= n <= len -> buffer_ok buffer len -> buffer_ok (advance buffer n) (len - n).
Proof.
  destruct buffer as [b|]; cbn; [|auto]. intros Hn [Hb Hl].
  split; [apply Forall_drop, Hb | rewrite length_drop; lia].
Qed.

Lemma copy_in_ok buffer n old :
  0 <= n -> buffer_ok buffer n -> is_bytes old -> lenZ old = n ->
  is_bytes (copy_in buffer n old) /\ lenZ (copy_in buffer n old) = n.
Proof.
  destruct buffer as [b|]; cbn; [|auto]. intros Hn [Hb Hl] _ _.
  split; [apply Forall_take, Hb | rewrite length_take; lia].
Qed.

Lemma buffer_ok_le buffer n m : n <= m -> buffer_ok buffer m -> buffer_ok buffer n.
Proof. destruct buffer as [b|]; cbn; [|auto]. intros H [? ?]. split; [assumption|lia]. Qed.

Lemma copy_in_zero buffer n (old : list Z) :
  lenZ old = 0 -> n <= 0 -> copy_in buffer n old = [].
Proof.
  intros Ho Hn. destruct old; [|cbn in Ho; lia]. unfold copy_in.
  destruct buffer; [|reflexivity]. replace (Z.to_nat n) with O by lia. apply take_0.
Qed.

(** One fragment. *)
Lemma frag_eq buffer len size :
  0 <= size <= len ->
  size < 2147483648 -> buffer_ok buffer len -> (len = 0 -> size = 0) ->
  exists s, (if 0 <? len then (seg_block size) <| seg_data := copy_in buffer size (seg_data (seg_block size)) |>
             else seg_block size) = s /\
    is_bytes (seg_data s) /\ lenZ (seg_data s) = size /\
    forall b, buffer = Some b -> seg_data s = take (Z.to_nat size) b.
Proof.
  intros Hs Hlt Hb H0. eexists. split; [reflexivity|].
  pose proof (seg_block_len size ltac:(lia)) as Hl. pose proof (seg_block_bytes size) as Hby.
  destruct (Z.ltb_spec 0 len).
  - cbn. destruct (copy_in_ok buffer size (seg_data (seg_block size))) as [? ?];
      [lia | eapply buffer_ok_le; [|exact Hb]; lia | assumption | assumption|].
    split; [assumption|]. split; [assumption|]. intros b ->. reflexivity.
  - split; [assumption|]. split; [assumption|]. intros b ->.
    assert (size = 0) as -> by lia. cbn. destruct (seg_data (seg_block 0)); [reflexivity|discriminate].
Qed.

Lemma send_frags_spec todo count buffer len k :
  0 < mss k < 2147483648 -> 0 <= len <= Z.of_nat todo * mss k -> is_i32 len ->
  (todo <= 128)%nat -> buffer_ok buffer len ->
  out_of_memory (send_frags todo count buffer len k) \/
  exists segs n, send_frags todo count buffer len k =
      Ret (k <| snd_queue := snd_queue k ++ segs |> <| nsnd_que := n |>) /\
    (synced (nsnd_que k) (snd_queue k) -> synced n (snd_queue k ++ segs)) /\
    frags_ok k buffer len todo segs.
Proof.
  revert buffer len k. induction todo as [|todo IH]; intros buffer len k Hm Hlen Hi Ht Hb.
  { right. exists [], (nsnd_que k). rewrite app_nil_r. split; [simpl; do 2 f_equal; kcb_eq|].
    split; [auto|]. constructor; [constructor..| |].
    - destruct (stream k =? 0); reflexivity.
    - intros b ->. replace (Z.to_nat len) with O by lia. reflexivity. }
  cbn [send_frags]. unfold ikcp_segment_new. destruct (malloc_ok _) eqn:Em; [|left; eauto].
  rewrite (i32_id (mss k)) by rlia.
  set (size := if mss k <? len then mss k else len).
  assert (Hsz : 0 <= size <= len /\ size <= mss k /\ len - size <= Z.of_nat todo * mss k).
  { subst size. rewrite Nat2Z.inj_succ in Hlen. destruct (Z.ltb_spec (mss k) len); nia. }
  clearbody size.
  destruct (frag_eq buffer len size) as (s & -> & Hby & Hl & Hd); [lia|lia|assumption|lia|].
  set (s1 := s <| seg_len := u32 size |>
               <| seg_frg := if stream k =? 0 then _ else 0 |>).
  edestruct (IH (advance buffer size) (i32 (len - size))
               (k <| snd_queue := snd_queue k ++ [s1] |> <| nsnd_que := u32 (nsnd_que k + 1) |>))
    as [Ho|(segs & n & E & Hn & Hf)]; rewrite ?i32_id by rlia; cbn; try lia; try assumption;
    [rlia | apply buffer_ok_advance; [lia|assumption]| |];
    [left; rewrite i32_id in Ho by rlia; exact Ho | right].
  rewrite i32_id in E by rlia.
  exists (s1 :: segs), n. split; [etransitivity; [exact E|]; cbn; rewrite <- app_assoc; reflexivity|].
  split; [intros Hq; rewrite (app_assoc _ [s1] segs : _ ++ s1 :: segs = _); apply Hn, synced_push, Hq|].
  destruct Hf as [Hp Hfit Hfrg Hbytes]. cbn in Hfrg.
  assert (Hsf : seg_frg s1 = if stream k =? 0 then Z.of_nat todo else 0).
  { cbn. destruct (stream k =? 0); [|reflexivity]. rewrite Nat2Z.inj_succ. wrap_lia. }
  constructor.
  - constructor; [|exact Hp]. unfold seg_payload. rewrite Hsf.
    change (seg_len s1) with (u32 size). change (seg_data s1) with (seg_data s).
    rewrite Hl, u32_id by rlia. split; [reflexivity|]. split; [lia|]. split; [exact Hby|].
    destruct (stream k =? 0); rlia.
  - constructor; [|exact Hfit]. change (seg_len s1) with (u32 size). rewrite u32_id by rlia. lia.
  - cbn [map]. rewrite Hsf, Hfrg. destruct (stream k =? 0); reflexivity.
  - intros b ->. unfold msg_bytes. cbn [map concat]. change (seg_data s1) with (seg_data s).
    rewrite (Hd b eq_refl). fold (msg_bytes segs). rewrite (Hbytes _ eq_refl).
    rewrite i32_id by rlia. rewrite <- (take_drop (Z.to_nat size) (take (Z.to_nat len) b)).
    rewrite take_take, skipn_firstn_comm. f_equal; [f_equal; lia|]. f_equal. lia.
Qed.

(** Stream mode: the last queued segment grows by the head of the buffer. *)
Lemma send_append_spec k buffer len :
  cfg_wf k -> snd_wf k -> segs_fit k -> 0 <= len -> is_i32 len -> buffer_ok buffer len ->
  out_of_memory (send_append k buffer len) \/
  exists n q, send_append k buffer len =
      Ret (advance buffer n, len - n, k <| snd_queue := q |>) /\
    0 <= n <= len /\ length q = length (snd_queue k) /\ Forall seg_payload q /\
    Forall (fun s => seg_len s <= mss k) q /\
    (forall b, buffer = Some b ->
       msg_bytes q = msg_bytes (snd_queue k) ++ take (Z.to_nat n) b).
Proof.
  intros Hc Hs [Hfit _] H0 Hi Hb. unfold send_append.
  pose proof (wf_mss _ Hc) as Hms. pose proof (wf_mtu _ Hc) as Hmt. unfold IKCP_OVERHEAD in *.
  assert (Hnop : exists n q, Ret (buffer, len, k) =
      Ret (advance buffer n, len - n, k <| snd_queue := q |>) /\
    0 <= n <= len /\ length q = length (snd_queue k) /\ Forall seg_payload q /\
    Forall (fun s => seg_len s <= mss k) q /\
    (forall b, buffer = Some b ->
       msg_bytes q = msg_bytes (snd_queue k) ++ take (Z.to_nat n) b)).
  { exists 0, (snd_queue k). split; [|split; [lia|]; split; [reflexivity|];
      split; [apply Hs|]; split; [exact Hfit|]; intros; rewrite take_0, app_nil_r; reflexivity].
    do 2 f_equal; [f_equal; [destruct buffer; reflexivity | lia] | kcb_eq]. }
  destruct (last (snd_queue k)) as [old|] eqn:El; [|right; exact Hnop].
  destruct (Z.ltb_spec (seg_len old) (mss k)) as [Hlt|]; [|right; exact Hnop]. clear Hnop.
  apply last_Some in El as [q0 Eq]. rewrite Eq in *.
  pose proof (wf_queue_payload _ Hs) as Hp. rewrite Eq in Hp.
  apply Forall_app in Hp as [Hp0 Hp]. rewrite Forall_singleton in Hp.
  destruct Hp as (Hol & Holt & Hob & Hof).
  apply Forall_app in Hfit as [Hf0 _].
  rewrite (u32_id (mss k - seg_len old)), (i32_id (mss k - seg_len old)) by rlia.
  set (ext := if len <? mss k - seg_len old then len else mss k - seg_len old).
  assert (Hext : 0 <= ext <= len /\ seg_len old + ext <= mss k)
    by (subst ext; destruct (Z.ltb_spec len (mss k - seg_len old)); lia).
  clearbody ext. unfold ikcp_segment_new. destruct (malloc_ok _) eqn:Em; [right | left; eauto].
  rewrite (u32_id (seg_len old + ext)), (i32_id (seg_len old + ext)), (i32_id (len - ext)) by rlia.
  assert (Hrl : removelast (q0 ++ [old]) = q0) by apply removelast_last. rewrite Hrl.
  pose proof (seg_block_len (seg_len old + ext) ltac:(lia)) as Hbl.
  destruct (copy_in_ok buffer ext
     (drop (Z.to_nat (seg_len old)) (seg_data (seg_block (seg_len old + ext))))) as [Hcb Hcl];
    [lia | eapply buffer_ok_le; [|exact Hb]; lia | apply Forall_drop, seg_block_bytes
     | rewrite length_drop; lia|].
  do 2 eexists. split; [reflexivity|]. split; [lia|].
  split; [rewrite !length_app; reflexivity|].
  rewrite !Forall_app, !Forall_singleton. unfold seg_payload. cbn.
  rewrite (take_ge (seg_data old)) by lia.
  rewrite length_app, Nat2Z.inj_add, Hcl, <- Hol.
  split; [split; [exact Hp0|]; split; [lia|]; split; [lia|]; split;
          [apply Forall_app; auto | rlia]|].
  split; [split; [exact Hf0 | lia]|].
  intros b ->. unfold msg_bytes. rewrite !map_app, !concat_app. cbn.
  rewrite !app_nil_r, app_assoc. reflexivity.
Qed.

(** The number of fragments: enough for [len] bytes, at least one. *)
Lemma send_count_spec k len :
  cfg_wf k -> 0 <= len -> is_i32 len ->
  0 < send_count k len /\ len <= send_count k len * mss k /\
  (send_count k len - 1) * mss k <= Z.max 0 (len - 1) /\ is_i32 (send_count k len).
Proof.
  intros Hc H0 Hi. unfold send_count.
  pose proof (wf_mss _ Hc) as Hms. pose proof (wf_mtu _ Hc) as Hmt. unfold IKCP_OVERHEAD in *.
  rewrite (i32_id (mss k)) by rlia. destruct (Z.leb_spec len (mss k)); [rlia|].
  rewrite u32_id by rlia.
  assert (Hd := Z.div_mod (len + mss k - 1) (mss k) ltac:(lia)).
  assert (Hr := Z.mod_pos_bound (len + mss k - 1) (mss k) ltac:(lia)).
  assert (0 < (len + mss k - 1) / mss k <= len) by nia.
  rewrite i32_id by rlia. split; [lia|]. split; [nia|]. split; [nia|rlia].
Qed.

(** What a call of [ikcp_send] can do: refuse, or queue all bytes.  In stream
    mode the first [n] bytes are appended to the last queued segment. *)
Inductive send_result (k : ikcpcb) (buffer : option (list Z)) (len : Z) : Z * ikcpcb -> Prop :=
| SendNeg : len < 0 -> send_result k buffer len (-1, k)
| SendMerged q :
    stream k <> 0 -> 0 <= len -> length q = length (snd_queue k) ->
    (forall b, buffer = Some b ->
       msg_bytes q = msg_bytes (snd_queue k) ++ take (Z.to_nat len) b) ->
    send_result k buffer len (0, k <| snd_queue := q |>)
| SendTooBig n q :
    0 <= n <= len -> length q = length (snd_queue k) ->
    IKCP_WND_RCV <= send_count k (len - n) ->
    (stream k = 0 -> n = 0 /\ q = snd_queue k) ->
    (forall b, buffer = Some b ->
       msg_bytes q = msg_bytes (snd_queue k) ++ take (Z.to_nat n) b) ->
    send_result k buffer len (-2, k <| snd_queue := q |>)
| SendQueued n q segs c :
    0 <= n <= len -> length q = length (snd_queue k) ->
    (stream k = 0 -> n = 0 /\ q = snd_queue k) ->
    (forall b, buffer = Some b ->
       msg_bytes q = msg_bytes (snd_queue k) ++ take (Z.to_nat n) b) ->
    frags_ok k (advance buffer n) (len - n) (Z.to_nat (send_count k (len - n))) segs ->
    0 < send_count k (len - n) < IKCP_WND_RCV ->
    synced c (q ++ segs) ->
    send_result k buffer len (0, k <| snd_queue := q ++ segs |> <| nsnd_que := c |>).

Lemma ikcp_send_result k buffer len :
  kcp_wf k -> segs_fit k -> is_i32 len -> buffer_ok buffer len ->
  out_of_memory (ikcp_send k buffer len) \/
  exists r, ikcp_send k buffer len = Ret r /\ send_result k buffer len r /\
            kcp_wf r.2 /\ segs_fit r.2.
Proof.
  intros Hwf Hfit Hi Hb. pose proof (wf_cfg _ Hwf) as Hc. pose proof (wf_snd _ Hwf) as Hs.
  pose proof (wf_mss _ Hc) as Hms. pose proof (wf_mtu _ Hc) as Hmt. unfold IKCP_OVERHEAD in *.
  unfold ikcp_send. destruct (Z.ltb_spec 0 (mss k)); [|lia]. cbn [negb].
  destruct (Z.ltb_spec len 0) as [Hn|Hn].
  { right. eexists. split; [reflexivity|]. split; [constructor; exact Hn | auto]. }
  assert (Happ : out_of_memory (if negb (stream k =? 0) then send_append k buffer len
             else Ret (buffer, len, k)) \/ exists n q, (if negb (stream k =? 0) then send_append k buffer len
             else Ret (buffer, len, k)) = Ret (advance buffer n, len - n, k <| snd_queue := q |>) /\
    0 <= n <= len /\ length q = length (snd_queue k) /\ Forall seg_payload q /\
    Forall (fun s => seg_len s <= mss k) q /\ (stream k = 0 -> n = 0 /\ q = snd_queue k) /\
    (forall b, buffer = Some b ->
       msg_bytes q = msg_bytes (snd_queue k) ++ take (Z.to_nat n) b)).
  { destruct (Z.eqb_spec (stream k) 0) as [E|E]; cbn [negb].
    - right. exists 0, (snd_queue k). split; [do 2 f_equal; [f_equal; [destruct buffer; reflexivity|lia]
        | kcb_eq]|]. split; [lia|]. split; [reflexivity|]. split; [apply Hs|].
      split; [apply Hfit|]. split; [auto|]. intros. rewrite take_0, app_nil_r. reflexivity.
    - destruct (send_append_spec k buffer len Hc Hs Hfit Hn Hi Hb) as [Ho|(n & q & E1 & H1 & H2 & H3 & H4 & H5)];
        [left; exact Ho | right].
      exists n, q. split; [exact E1|]. do 4 (split; [assumption|]). split; [congruence|exact H5]. }
  destruct Happ as [Ho|(n & q & -> & Hnl & Hql & Hqp & Hqf & Hst & Hby)]; [left; apply oom_bind, Ho|].
  cbn [obind].
  assert (Hwq : kcp_wf (k <| snd_queue := q |>)).
  { destruct Hwf. constructor; [wf_frame | | wf_frame..]. destruct wf_snd0.
    constructor; try assumption. cbn. rewrite Hql. assumption. }
  assert (Hfq : segs_fit (k <| snd_queue := q |>)) by (split; [exact Hqf | apply Hfit]).
  change (stream (k <| snd_queue := q |>)) with (stream k).
  destruct (negb (stream k =? 0) && (len - n <=? 0)) eqn:Em.
  { apply andb_prop in Em as [E1 E2]. apply negb_true_iff, Z.eqb_neq in E1. apply Z.leb_le in E2.
    right. eexists. split; [reflexivity|]. split; [|auto]. apply SendMerged; [assumption|lia|assumption|].
    replace len with n by lia. exact Hby. }
  change (send_count (k <| snd_queue := q |>)) with (send_count k).
  assert (Hin : is_i32 (len - n)) by rlia.
  destruct (send_count_spec k (len - n) Hc ltac:(lia) Hin) as (Hc0 & Hcm & _ & Hci).
  rewrite u32_id by rlia. destruct (Z.leb_spec IKCP_WND_RCV (send_count k (len - n))) as [Hbig|Hsm].
  { right. eexists. split; [reflexivity|]. split; [|auto]. eapply SendTooBig; eassumption. }
  destruct (Z.eqb_spec (send_count k (len - n)) 0) as [|_]; [lia|]. unfold IKCP_WND_RCV in *.
  destruct (send_frags_spec (Z.to_nat (send_count k (len - n))) (send_count k (len - n))
    (advance buffer n) (len - n) (k <| snd_queue := q |>)) as [Ho|(segs & c & -> & Hsy & Hfr)];
    [cbn; lia | cbn; rewrite Z2Nat.id by lia; lia | assumption | lia
     | apply buffer_ok_advance; assumption | left; apply oom_bind, Ho | right].
  assert (Hsy' : synced c (q ++ segs)) by (apply Hsy; cbn; red; rewrite Hql; apply Hs).
  eexists. split; [reflexivity|]. cbn [snd].
  split; [eapply (SendQueued k buffer len n q segs c); try assumption; [|split; [lia|exact Hsm]];
          destruct Hfr; constructor; assumption|].
  destruct Hfr as [Hfp Hff _ _].
  split.
  - destruct Hwq. constructor; [wf_frame | | wf_frame..]. destruct wf_snd0.
    constructor; try assumption. cbn. apply Forall_app. auto.
  - split; [cbn; apply Forall_app; auto | apply Hfit].
Qed.
End SendWf.
