(* ===== verification/KcpFlushInv.v ===== *)
(** * KCP: what a flush sends and keeps

    [ikcp_flush] on a well-formed block never writes outside [kcp->buffer],
    keeps the block well formed, and hands to [output] only datagrams of 1 to
    [mtu] bytes, each the concatenation of wire images of acknowledgements,
    window probes and numbered data segments of this block. *)

From S2P Require Import Prelude KcpWire KcpSeq KcpState KcpSend KcpRecv KcpInput.
From S2P Require Import KcpFlush KcpInv.

Local Open Scope Z_scope.

(** ** Datagrams *)

(** Header and payload as they appear on the wire. *)
Definition seg_wire (s : IKCPSEG) : list Z :=
  ikcp_encode_seg [] s ++ take (Z.to_nat (seg_len s)) (seg_data s).

Definition wire (segs : list IKCPSEG) : list Z := concat (map seg_wire segs).

(** Acknowledgements and probes of a block: no payload, [una] is [rcv_nxt]. *)
Definition ctl_seg (k : ikcpcb) (s : IKCPSEG) : Prop :=
  seg_conv s = conv k /\ seg_una s = rcv_nxt k /\ seg_len s = 0 /\ seg_frg s = 0 /\
  is_u32 (seg_sn s) /\ is_u32 (seg_ts s) /\ is_u32 (seg_wnd s) /\
  ((seg_cmd s = IKCP_CMD_ACK /\
      exists ts, (seg_sn s, ts) ∈ take (Z.to_nat (ackcount k)) (acklist k)) \/
   seg_cmd s = IKCP_CMD_WASK \/ seg_cmd s = IKCP_CMD_WINS).

(** A data segment: number, fragment and payload are those of one in [buf]. *)
Definition push_seg (k : ikcpcb) (buf : list IKCPSEG) (s : IKCPSEG) : Prop :=
  seg_una s = rcv_nxt k /\ is_u32 (seg_ts s) /\ is_u32 (seg_wnd s) /\
  exists s0, s0 ∈ buf /\ seg_fixed s = seg_fixed s0.

Definition out_seg (k : ikcpcb) (buf : list IKCPSEG) (s : IKCPSEG) : Prop :=
  ctl_seg k s \/ push_seg k buf s.

Definition good_pkt (k : ikcpcb) (buf : list IKCPSEG) (d : list Z) : Prop :=
  exists segs, d = wire segs /\ Forall (out_seg k buf) segs.

Definition ev_ok (k : ikcpcb) (buf : list IKCPSEG) (e : kevent) : Prop :=
  match e with
  | EvOutput d => good_pkt k buf d /\ 0 < lenZ d <= mtu k
  | EvLog _ => True
  end.

Lemma wire_app l1 l2 : wire (l1 ++ l2) = wire l1 ++ wire l2.
Proof. unfold wire. rewrite map_app, concat_app. reflexivity. Qed.

Lemma good_pkt_nil k buf : good_pkt k buf [].
Proof. exists []. split; [reflexivity | constructor]. Qed.

Lemma good_pkt_snoc k buf ptr s :
  good_pkt k buf ptr -> out_seg k buf s -> good_pkt k buf (ptr ++ seg_wire s).
Proof.
  intros (segs & -> & Hs) H. exists (segs ++ [s]). rewrite wire_app. split.
  - unfold wire. cbn. rewrite app_nil_r. reflexivity.
  - apply Forall_app. split; [assumption|]. apply Forall_singleton, H.
Qed.

Lemma log_events_ok k buf t :
  Forall (fun e => exists m, e = EvLog m) t -> Forall (ev_ok k buf) t.
Proof. intros H. eapply Forall_impl; [exact H|]. intros e [m ->]. exact I. Qed.

(** ** The output buffer *)
Section Flush.

(** [k0] is the block as the flush found it, [buf] its segments in flight. *)
Variable (k0 : ikcpcb) (buf : list IKCPSEG).
Hypothesis Hcfg : cfg_wf k0.

(** The configuration a stage still sees. *)
Definition same_cfg (k : ikcpcb) : Prop :=
  conv k = conv k0 /\ mtu k = mtu k0 /\ buffer_cap k = buffer_cap k0 /\
  output k = true /\ acklist k = acklist k0.

(** A partly filled buffer. *)
Definition ptr_ok (ptr : list Z) : Prop := good_pkt k0 buf ptr /\ lenZ ptr <= mtu k0.

Lemma same_cfg_trace k t : same_cfg k -> same_cfg (k <| trace := t |>).
Proof. exact id. Qed.

Lemma ikcp_output_ok k d :
  same_cfg k -> good_pkt k0 buf d -> lenZ d <= mtu k0 ->
  exists t, ikcp_output k d = Ret (k <| trace := trace k ++ t |>) /\ Forall (ev_ok k0 buf) t.
Proof.
  intros (_ & _ & _ & Ho & _) Hd Hl. unfold ikcp_output. rewrite Ho. cbn [negb].
  destruct (log_if_eq k IKCP_LOG_OUTPUT IKCP_LOG_OUTPUT) as (t & -> & Ht).
  apply (log_events_ok k0 buf) in Ht.
  destruct (Z.eqb_spec (lenZ d) 0); [exists t; auto|].
  exists (t ++ [EvOutput d]). cbn. rewrite app_assoc. split; [reflexivity|].
  apply Forall_app. split; [assumption|]. apply Forall_singleton. cbn. split; [assumption|lia].
Qed.

Lemma make_room_ok k ptr need :
  same_cfg k -> ptr_ok ptr -> 0 <= need <= mtu k0 ->
  exists t ptr', make_room k ptr need = Ret (k <| trace := trace k ++ t |>, ptr') /\
    Forall (ev_ok k0 buf) t /\ good_pkt k0 buf ptr' /\ lenZ ptr' + need <= mtu k0.
Proof.
  intros Hk [Hg Hl] Hn. unfold make_room. assert (Hm := Hk). destruct Hm as (_ & Hm & _).
  pose proof (wf_mtu _ Hcfg). rewrite Hm, i32_id by rlia.
  destruct (Z.ltb_spec (mtu k0) (lenZ ptr + need)).
  - destruct (ikcp_output_ok k ptr Hk Hg Hl) as (t & -> & Ht). exists t, [].
    split; [reflexivity|]. split; [assumption|]. split; [apply good_pkt_nil|]. cbn. lia.
  - exists [], ptr. rewrite app_nil_r. split; [do 2 f_equal; kcb_eq|].
    split; [constructor|]. auto.
Qed.

Lemma buf_check_ok k ptr :
  same_cfg k -> lenZ ptr <= mtu k0 -> buf_check k ptr = Ret ptr.
Proof.
  intros (_ & _ & Hb & _) Hl. unfold buf_check. rewrite Hb, (wf_buffer _ Hcfg).
  pose proof (wf_mtu _ Hcfg). unfold IKCP_OVERHEAD.
  destruct (Z.leb_spec (lenZ ptr) ((mtu k0 + 24) * 3)); [reflexivity|lia].
Qed.

(** The tail shared by every stage that appends a header-only segment. *)
Lemma put_header_ok k ptr s :
  same_cfg k -> good_pkt k0 buf ptr -> lenZ ptr + IKCP_OVERHEAD <= mtu k0 -> ctl_seg k0 s ->
  buf_check k (ikcp_encode_seg ptr s) = Ret (ikcp_encode_seg ptr s) /\
  ptr_ok (ikcp_encode_seg ptr s).
Proof.
  intros Hk Hg Hl Hs. unfold IKCP_OVERHEAD in Hl.
  assert (Hlen : lenZ (ikcp_encode_seg ptr s) <= mtu k0)
    by (rewrite ikcp_encode_seg_length; lia).
  split; [apply buf_check_ok; assumption|]. split; [|exact Hlen].
  rewrite ikcp_encode_seg_app.
  assert (E : seg_wire s = ikcp_encode_seg [] s).
  { unfold seg_wire. destruct Hs as (_ & _ & -> & _). rewrite take_0. apply app_nil_r. }
  rewrite <- E. apply good_pkt_snoc; [assumption | left; exact Hs].
Qed.

Lemma put_seg_ok k ptr s :
  same_cfg k -> ptr_ok ptr -> ctl_seg k0 s ->
  exists t ptr', put_seg k ptr s = Ret (k <| trace := trace k ++ t |>, ptr') /\
    Forall (ev_ok k0 buf) t /\ ptr_ok ptr'.
Proof.
  intros Hk Hp Hs. unfold put_seg.
  destruct (make_room_ok k ptr IKCP_OVERHEAD Hk Hp) as (t & ptr' & -> & Ht & Hg & Hl);
    [pose proof (wf_mtu _ Hcfg); unfold IKCP_OVERHEAD; lia|]. cbn [obind].
  destruct (put_header_ok _ ptr' s (same_cfg_trace _ (trace k ++ t) Hk) Hg Hl Hs) as [-> Hp'].
  exists t, (ikcp_encode_seg ptr' s). split; [reflexivity|]. auto.
Qed.

(** ** Acknowledgements and probes *)

(** The local [seg] between the stages. *)
Definition base_seg (s : IKCPSEG) : Prop :=
  seg_conv s = conv k0 /\ seg_una s = rcv_nxt k0 /\ seg_len s = 0 /\ seg_frg s = 0 /\
  is_u32 (seg_sn s) /\ is_u32 (seg_ts s) /\ is_u32 (seg_wnd s).

Lemma flush_seg_base : rcv_wf k0 -> base_seg (flush_seg k0).
Proof.
  intros Hr. repeat split; cbn; try lia; apply u32_range.
Qed.

Hypothesis Hack : ack_wf k0.

Lemma flush_acks_ok n i k ptr seg :
  same_cfg k -> ptr_ok ptr -> base_seg seg -> seg_cmd seg = IKCP_CMD_ACK ->
  Z.of_nat (i + n) = ackcount k0 ->
  exists t ptr' seg', flush_acks n i k ptr seg = Ret (k <| trace := trace k ++ t |>, ptr', seg') /\
    Forall (ev_ok k0 buf) t /\ ptr_ok ptr' /\ base_seg seg' /\ seg_wnd seg' = seg_wnd seg.
Proof.
  revert i k ptr seg. induction n as [|n IH]; intros i k ptr seg Hk Hp Hs Hcmd Hn; simpl.
  { exists [], ptr, seg. rewrite app_nil_r. split; [do 3 f_equal; kcb_eq|].
    split; [constructor|]. auto. }
  destruct (make_room_ok k ptr IKCP_OVERHEAD Hk Hp) as (t & ptr1 & -> & Ht & Hg & Hl);
    [pose proof (wf_mtu _ Hcfg); unfold IKCP_OVERHEAD; lia|]. cbn [obind].
  unfold ikcp_ack_get. cbn [acklist upd set_trace].
  assert (Ea : acklist k = acklist k0) by apply Hk. rewrite Ea.
  destruct (lookup_lt_is_Some_2 (acklist k0) i) as [[sn ts] Ei];
    [pose proof (wf_acklen _ Hack); lia|].
  rewrite Ei. cbn [obind].
  assert (Hin : (sn, ts) ∈ take (Z.to_nat (ackcount k0)) (acklist k0)).
  { eapply list_elem_of_lookup_2. rewrite lookup_take_lt; [exact Ei|lia]. }
  assert (He : ack_entry_wf (sn, ts)).
  { pose proof (wf_acks _ Hack) as Ha. eapply Forall_lookup_1 in Ha; [exact Ha | exact Ei]. }
  set (seg1 := seg <| seg_sn := sn |> <| seg_ts := ts |>).
  assert (Hb1 : base_seg seg1) by (unfold base_seg in *; cbn; destruct He; tauto).
  assert (Hc1 : ctl_seg k0 seg1)
    by (unfold ctl_seg, base_seg in *; cbn in *; destruct He; intuition eauto).
  destruct (put_header_ok _ ptr1 seg1 (same_cfg_trace _ (trace k ++ t) Hk) Hg Hl Hc1) as [-> Hp1].
  cbn [obind].
  destruct (IH (S i) (k <| trace := trace k ++ t |>) (ikcp_encode_seg ptr1 seg1) seg1)
    as (t' & ptr' & seg' & -> & Ht' & Hp' & Hb' & Hw'); try assumption; [lia|].
  exists (t ++ t'), ptr', seg'. cbn. rewrite app_assoc. split; [reflexivity|].
  split; [apply Forall_app; auto|]. auto.
Qed.

Lemma flush_cmd_ok flag cmd k ptr seg :
  cmd = IKCP_CMD_WASK \/ cmd = IKCP_CMD_WINS ->
  same_cfg k -> ptr_ok ptr -> base_seg seg ->
  exists t ptr' seg', flush_cmd flag cmd k ptr seg = Ret (k <| trace := trace k ++ t |>, ptr', seg') /\
    Forall (ev_ok k0 buf) t /\ ptr_ok ptr' /\ base_seg seg' /\ seg_wnd seg' = seg_wnd seg.
Proof.
  intros Hcmd Hk Hp Hs. unfold flush_cmd. cbv zeta. destruct (negb _).
  - destruct (put_seg_ok k ptr (seg <| seg_cmd := cmd |>)) as (t & ptr' & -> & Ht & Hp');
      [assumption | assumption | unfold ctl_seg, base_seg in *; cbn; tauto |].
    exists t, ptr', (seg <| seg_cmd := cmd |>). auto.
  - exists [], ptr, seg. rewrite app_nil_r. split; [do 3 f_equal; kcb_eq|].
    split; [constructor|]. auto.
Qed.

Lemma flush_cmds_ok k ptr seg :
  same_cfg k -> ptr_ok ptr -> base_seg seg ->
  exists t ptr' seg', flush_cmds k ptr seg =
      Ret (k <| trace := trace k ++ t |> <| probe := 0 |>, ptr', seg') /\
    Forall (ev_ok k0 buf) t /\ ptr_ok ptr' /\ seg_wnd seg' = seg_wnd seg.
Proof.
  intros Hk Hp Hs. unfold flush_cmds.
  destruct (flush_cmd_ok IKCP_ASK_SEND IKCP_CMD_WASK k ptr seg) as
    (t1 & ptr1 & seg1 & -> & Ht1 & Hp1 & Hs1 & Hw1); [auto..|]. cbn [obind].
  destruct (flush_cmd_ok IKCP_ASK_TELL IKCP_CMD_WINS (k <| trace := trace k ++ t1 |>) ptr1 seg1)
    as (t2 & ptr2 & seg2 & -> & Ht2 & Hp2 & _ & Hw2); [auto..|]. cbn [obind].
  exists (t1 ++ t2), ptr2, seg2. cbn. rewrite app_assoc. split; [reflexivity|].
  split; [apply Forall_app; auto|]. split; [assumption|congruence].
Qed.

(** ** Data segments *)
Lemma seg_resend_fixed k rtomin d s : seg_fixed (seg_resend k rtomin d s) = seg_fixed s.
Proof. destruct d; reflexivity. Qed.

(** Timers written by the loop stay in range. *)
Lemma seg_resend_sent k rtomin d s :
  seg_sent (conv k0) s -> seg_sent (conv k0) (seg_resend k rtomin d s).
Proof.
  intros (? & ? & ? & ? & ?). destruct d; repeat split; cbn; try assumption; try apply u32_range;
    rlia.
Qed.

(** What the loop may do to the block besides sending. *)
Definition data_frame (k k' : ikcpcb) : Prop :=
  exists t st xm, k' = k <| trace := trace k ++ t |> <| state := st |> <| xmit := xm |> /\
    Forall (ev_ok k0 buf) t.

Lemma data_frame_refl k : data_frame k k.
Proof. exists [], (state k), (xmit k). rewrite app_nil_r. split; [kcb_eq | constructor]. Qed.

Lemma data_frame_trans k1 k2 k3 : data_frame k1 k2 -> data_frame k2 k3 -> data_frame k1 k3.
Proof.
  intros (t1 & st1 & xm1 & -> & H1) (t2 & st2 & xm2 & -> & H2).
  exists (t1 ++ t2), st2, xm2. cbn. rewrite app_assoc. split; [reflexivity|].
  apply Forall_app. auto.
Qed.

Lemma same_cfg_frame k k' : data_frame k k' -> same_cfg k -> same_cfg k'.
Proof. intros (t & st & xm & -> & _). exact id. Qed.

Lemma send_one_ok k ptr wnd s :
  same_cfg k -> ptr_ok ptr -> current k = current k0 -> rcv_nxt k = rcv_nxt k0 ->
  is_u32 wnd -> seg_payload s -> seg_len s <= mss k0 ->
  (exists s0, s0 ∈ buf /\ seg_fixed s = seg_fixed s0) ->
  exists k' ptr', send_one k ptr wnd s =
      Ret (k', ptr', s <| seg_ts := current k |> <| seg_wnd := wnd |> <| seg_una := rcv_nxt k |>) /\
    data_frame k k' /\ ptr_ok ptr'.
Proof.
  intros Hk Hp Hcur Hnx Hw (Hl & Hlt & _) Hfit Hin. unfold send_one. cbv zeta.
  set (s1 := s <| seg_ts := _ |> <| seg_wnd := _ |> <| seg_una := _ |>).
  change (seg_len s1) with (seg_len s). change (seg_data s1) with (seg_data s).
  pose proof (wf_mtu _ Hcfg) as Hm. pose proof (wf_mss _ Hcfg) as Hms. unfold IKCP_OVERHEAD in *.
  rewrite u32_id, i32_id by rlia.
  destruct (make_room_ok k ptr (24 + seg_len s) Hk Hp) as (t & ptr1 & -> & Ht & Hg & Hr); [lia|].
  cbn [obind].
  assert (Hout : out_seg k0 buf s1).
  { right. split; [exact Hnx|]. split; [cbn; rewrite Hcur; apply Hcfg|]. split; [exact Hw|].
    destruct Hin as (s0 & Hin & E). exists s0. split; [exact Hin|]. exact E. }
  assert (Hpkt : good_pkt k0 buf (ptr1 ++ seg_wire s1)) by (apply good_pkt_snoc; assumption).
  assert (Hwl : lenZ (seg_wire s1) = 24 + seg_len s).
  { unfold seg_wire. rewrite length_app, ikcp_encode_seg_length, length_take.
    change (seg_data s1) with (seg_data s). change (seg_len s1) with (seg_len s). cbn [length]. lia. }
  pose proof (same_cfg_trace _ (trace k ++ t) Hk) as Hk1.
  rewrite (buf_check_ok _ _ Hk1) by (rewrite ikcp_encode_seg_length; lia). cbn [obind].
  assert (Hfin : (if 0 <? seg_len s
      then buf_check (k <| trace := trace k ++ t |>)
             (ikcp_encode_seg ptr1 s1 ++ take (Z.to_nat (seg_len s)) (seg_data s))
      else Ret (ikcp_encode_seg ptr1 s1)) = Ret (ptr1 ++ seg_wire s1)).
  { unfold seg_wire. rewrite ikcp_encode_seg_app. change (seg_data s1) with (seg_data s).
    change (seg_len s1) with (seg_len s). rewrite <- app_assoc.
    destruct (Z.ltb_spec 0 (seg_len s)).
    - apply buf_check_ok; [exact Hk1|]. unfold seg_wire in Hwl.
      change (seg_data s1) with (seg_data s) in Hwl. change (seg_len s1) with (seg_len s) in Hwl.
      rewrite length_app. lia.
    - replace (Z.to_nat (seg_len s)) with O by lia. rewrite take_0, app_nil_r. reflexivity. }
  rewrite Hfin. cbn [obind].
  do 2 eexists. split; [reflexivity|]. split.
  - destruct (_ <=? _).
    + exists t, (u32 (-1)), (xmit k). split; [reflexivity|assumption].
    + exists t, (state k), (xmit k). split; [reflexivity|assumption].
  - split; [exact Hpkt|]. rewrite length_app. lia.
Qed.

Lemma payload_fixed s s' : seg_fixed s = seg_fixed s' -> seg_payload s' -> seg_payload s.
Proof. unfold seg_fixed, seg_payload. intros [=]. congruence. Qed.

(** What the data loop needs of a segment. *)
Definition due_ok (s : IKCPSEG) : Prop :=
  seg_payload s /\ seg_len s <= mss k0 /\ seg_sent (conv k0) s /\
  exists s0, s0 ∈ buf /\ seg_fixed s = seg_fixed s0.

Lemma due_ok_resend k rtomin d s : due_ok s -> due_ok (seg_resend k rtomin d s).
Proof.
  pose proof (seg_resend_fixed k rtomin d s) as E. intros (Hp & Hl & Hs & s0 & Hin & E0).
  split; [eapply payload_fixed; eassumption|].
  split; [unfold seg_fixed in E; congruence|].
  split; [apply seg_resend_sent, Hs|]. exists s0. split; [assumption|congruence].
Qed.

Lemma flush_data_ok l k wnd resent rtomin v :
  same_cfg k -> current k = current k0 -> rcv_nxt k = rcv_nxt k0 -> is_u32 (rcv_nxt k0) ->
  is_u32 wnd -> ptr_ok (dl_ptr v) -> Forall due_ok l ->
  exists r k' v', flush_data l k wnd resent rtomin v = Ret (r, k', v') /\
    map seg_fixed r = map seg_fixed l /\ Forall (seg_sent (conv k0)) r /\
    data_frame k k' /\ ptr_ok (dl_ptr v').
Proof.
  intros Hk Hcur Hnx Hrn Hw Hp Hl. revert k v Hk Hcur Hnx Hp.
  induction Hl as [|s l Hs Hl IH]; intros k v Hk Hcur Hnx Hp; cbn [flush_data].
  { exists [], k, v. split; [reflexivity|]. split; [reflexivity|]. split; [constructor|].
    split; [apply data_frame_refl | exact Hp]. }
  set (d := seg_due k resent s). pose proof (due_ok_resend k rtomin d s Hs) as Hs1.
  pose proof (seg_resend_fixed k rtomin d s) as E1.
  set (s1 := seg_resend k rtomin d s) in *. clearbody s1. cbv zeta.
  assert (Hsend : forall k1 v1, data_frame k k1 -> dl_ptr v1 = dl_ptr v ->
    exists r k' v', (let! (k, ptr, s) := send_one k1 (dl_ptr v1) wnd s1 in
      let! (r, k, v) := flush_data l k wnd resent rtomin (mkDL ptr (dl_lost v1) (dl_change v1)) in
      Ret (s :: r, k, v)) = Ret (r, k', v') /\
    map seg_fixed r = map seg_fixed (s :: l) /\ Forall (seg_sent (conv k0)) r /\
    data_frame k k' /\ ptr_ok (dl_ptr v')).
  { intros k1 v1 Hf1 Hv1. pose proof (same_cfg_frame _ _ Hf1 Hk) as Hk1.
    assert (Hc1 : current k1 = current k0 /\ rcv_nxt k1 = rcv_nxt k0)
      by (destruct Hf1 as (? & ? & ? & -> & _); auto).
    destruct Hc1 as [Hc1 Hn1]. destruct Hs1 as (Hp1 & Hl1 & Hs1 & Hin1).
    destruct (send_one_ok k1 (dl_ptr v1) wnd s1) as (k2 & ptr2 & -> & Hf2 & Hp2);
      [exact Hk1 | rewrite Hv1; exact Hp | assumption..|]. cbn [obind].
    pose proof (same_cfg_frame _ _ Hf2 Hk1) as Hk2.
    assert (Hc2 : current k2 = current k0 /\ rcv_nxt k2 = rcv_nxt k0)
      by (destruct Hf2 as (? & ? & ? & -> & _); auto).
    destruct Hc2 as [Hc2 Hn2].
    destruct (IH k2 (mkDL ptr2 (dl_lost v1) (dl_change v1))) as (r & k3 & v3 & -> & Er & Hr & Hf3 & Hp3);
      try assumption. cbn [obind].
    do 3 eexists. split; [reflexivity|].
    split; [cbn [map]; rewrite Er; f_equal; exact E1|].
    split; [constructor; [|exact Hr]; destruct Hs1 as (? & ? & ? & ? & ?);
            repeat split; cbn; try assumption; try rlia; rewrite ?Hc1, ?Hn1; try apply Hcfg; apply Hrn|].
    split; [|exact Hp3]. eapply data_frame_trans; [exact Hf1|].
    eapply data_frame_trans; [exact Hf2 | exact Hf3]. }
  destruct d.
  - destruct (IH k v Hk Hcur Hnx Hp) as (r & k' & v' & -> & Er & Hr & Hf & Hp'). cbn [obind].
    do 3 eexists. split; [reflexivity|]. split; [cbn [map]; congruence|].
    split; [constructor; [apply Hs1 | exact Hr]|]. auto.
  - apply (Hsend k v); [apply data_frame_refl | reflexivity].
  - apply (Hsend (k <| xmit := u32 (xmit k + 1) |>) (mkDL (dl_ptr v) true (dl_change v)));
      [|reflexivity].
    exists [], (state k), (u32 (xmit k + 1)). rewrite app_nil_r. split; [kcb_eq|constructor].
  - apply (Hsend k (mkDL (dl_ptr v) (dl_lost v) (i32 (dl_change v + 1))));
      [apply data_frame_refl | reflexivity].
Qed.
End Flush.

(** ** Moving segments into flight *)

(** The fixed fields of queued segments once numbered from [base] on. *)
Fixpoint numbered (c base : Z) (l : list IKCPSEG) :=
  match l with
  | [] => []
  | s :: l' =>
      (c, IKCP_CMD_PUSH, seg_frg s, base, seg_len s, seg_data s) :: numbered c (u32 (base + 1)) l'
  end.

(** The sending half as one update. *)
Definition snd_half (k k' : ikcpcb) : Prop :=
  k' = k <| snd_queue := snd_queue k' |> <| snd_buf := snd_buf k' |>
         <| nsnd_que := nsnd_que k' |> <| nsnd_buf := nsnd_buf k' |>
         <| snd_nxt := snd_nxt k' |>.

Lemma snd_half_refl k : snd_half k k.
Proof. unfold snd_half. kcb_eq. Qed.

Lemma snd_half_trans k1 k2 k3 : snd_half k1 k2 -> snd_half k2 k3 -> snd_half k1 k3.
Proof. unfold snd_half. intros H1 H2. rewrite H2, H1. reflexivity. Qed.

Lemma sn_sorted_snoc base hi l s :
  sn_sorted base 0 hi l -> 0 <= hi -> is_u32 (seg_sn s) -> off base s = hi ->
  sn_sorted base 0 (hi + 1) (l ++ [s]).
Proof.
  intros Hl Hh Hs Ho. apply sn_sorted_app. split; [eapply sn_sorted_weaken; [| |exact Hl]; lia|].
  cbn. split; [assumption|]. split; [|exact I]. rewrite Ho.
  destruct (last l) as [x|] eqn:E; [|lia]. apply sn_sorted_Forall in Hl.
  apply last_Some_elem_of in E. eapply Forall_forall in Hl; [|exact E]. lia.
Qed.

(** One iteration. *)
Definition moved_one (k : ikcpcb) (wnd : Z) (s : IKCPSEG) (q : list IKCPSEG) : ikcpcb :=
  k <| snd_queue := q |> <| snd_buf := snd_buf k ++ [number_seg k wnd s] |>
    <| nsnd_que := u32 (nsnd_que k - 1) |> <| nsnd_buf := u32 (nsnd_buf k + 1) |>
    <| snd_nxt := u32 (snd_nxt k + 1) |>.

Lemma snd_wf_move k w wnd s q :
  snd_wf k -> is_u32 (rcv_nxt k) -> is_u32 (current k) -> is_u32 (conv k) ->
  snd_queue k = s :: q -> 0 <= w <= 65535 -> _itimediff (snd_nxt k) (u32 (snd_una k + w)) < 0 ->
  snd_wf (moved_one k wnd s q).
Proof.
  intros [Hu Hx Hi Hso Hse Hp Hq Hnb Hnq] Hr Hc Hcv E Hw Hlt. rewrite E in *.
  assert (Hinf : inflight k < w).
  { revert Hlt Hi. unfold inflight, _itimediff. wrap_lia. }
  assert (Hi1 : inflight (moved_one k wnd s q) = inflight k + 1).
  { unfold inflight in *. cbn. rewrite itimediff_u32_l. unfold _itimediff in *. wrap_lia. }
  inv Hq.
  constructor; cbn [moved_one snd_una snd_nxt snd_buf snd_queue nsnd_buf nsnd_que conv]; cbn;
    try assumption; try apply u32_range.
  - rewrite Hi1. lia.
  - rewrite Hi1. apply sn_sorted_snoc; [assumption|lia|exact Hx|]. reflexivity.
  - apply Forall_app. split; [assumption|]. apply Forall_singleton.
    split; [reflexivity|]. split; [reflexivity|]. split; [exact Hc|]. split; [exact Hr|exact Hc].
  - apply Forall_app. split; [assumption|]. apply Forall_singleton. exact H1.
  - apply synced_push, Hnb.
  - apply (synced_pop _ _ _ Hnq).
Qed.

Lemma move_snd_loop_spec q w wnd k :
  snd_wf k -> is_u32 (rcv_nxt k) -> is_u32 (current k) -> is_u32 (conv k) ->
  snd_queue k = q -> 0 <= w <= 65535 ->
  exists moved, q = moved ++ snd_queue (move_snd_loop q w wnd k) /\
    snd_wf (move_snd_loop q w wnd k) /\ snd_half k (move_snd_loop q w wnd k) /\
    map seg_fixed (snd_buf (move_snd_loop q w wnd k)) =
      map seg_fixed (snd_buf k) ++ numbered (conv k) (snd_nxt k) moved /\
    (moved = [] -> move_snd_loop q w wnd k = k) /\
    snd_nxt (move_snd_loop q w wnd k) = u32 (snd_nxt k + lenZ moved).
Proof.
  revert k. induction q as [|s q IH]; intros k Hwf Hr Hc Hcv E Hw; cbn [move_snd_loop].
  - exists []. rewrite E. split; [reflexivity|]. split; [assumption|]. split; [apply snd_half_refl|].
    split; [rewrite app_nil_r; reflexivity|]. split; [auto|].
    cbn. rewrite Z.add_0_r, u32_id; [reflexivity|apply Hwf].
  - destruct (Z.ltb_spec (_itimediff (snd_nxt k) (u32 (snd_una k + w))) 0) as [Hlt|Hge].
    + pose proof (snd_wf_move k w wnd s q Hwf Hr Hc Hcv E Hw Hlt) as Hwf1.
      change (k <| snd_queue := q |> <| snd_buf := snd_buf (k <| snd_queue := q |>) ++ _ |>
                <| nsnd_que := _ |> <| nsnd_buf := _ |> <| snd_nxt := _ |>)
        with (moved_one k wnd s q).
      destruct (IH (moved_one k wnd s q) Hwf1 Hr Hc Hcv eq_refl Hw) as
        (moved & Hq & Hwf' & Hh & Hf & _ & Hn).
      exists (s :: moved). cbv zeta. split; [cbn [app]; congruence|]. split; [assumption|].
      split; [eapply snd_half_trans; [|exact Hh]; reflexivity|].
      split; [|split; [discriminate|]].
      * rewrite Hf. cbn. rewrite map_app, <- app_assoc. reflexivity.
      * rewrite Hn. cbn. wrap_lia.
    + exists []. rewrite E. split; [reflexivity|]. split; [assumption|]. split; [apply snd_half_refl|].
      split; [rewrite app_nil_r; reflexivity|]. split; [auto|].
      cbn. rewrite Z.add_0_r, u32_id; [reflexivity|apply Hwf].
Qed.

(** ** The whole flush *)

(** The fields a flush may change. *)
Definition flush_frame (k k' : ikcpcb) : Prop :=
  k' = k <| trace := trace k' |> <| ackcount := ackcount k' |> <| ts_probe := ts_probe k' |>
         <| probe_wait := probe_wait k' |> <| probe := probe k' |>
         <| snd_queue := snd_queue k' |> <| snd_buf := snd_buf k' |>
         <| nsnd_que := nsnd_que k' |> <| nsnd_buf := nsnd_buf k' |>
         <| snd_nxt := snd_nxt k' |> <| xmit := xmit k' |> <| state := state k' |>
         <| ssthresh := ssthresh k' |> <| cwnd := cwnd k' |> <| incr := incr k' |>.

Lemma flush_frame_trans k1 k2 k3 : flush_frame k1 k2 -> flush_frame k2 k3 -> flush_frame k1 k3.
Proof. unfold flush_frame. intros H1 H2. rewrite H2, H1. reflexivity. Qed.

Lemma flush_probe_eq k :
  flush_probe k = k <| ts_probe := ts_probe (flush_probe k) |>
                    <| probe_wait := probe_wait (flush_probe k) |>
                    <| probe := probe (flush_probe k) |>.
Proof.
  unfold flush_probe. destruct (rmt_wnd k =? 0); [|reflexivity].
  destruct (probe_wait k =? 0); [reflexivity|]. destruct (0 <=? _); [|kcb_eq].
  cbv zeta. repeat case_match; reflexivity.
Qed.

Lemma flush_ssthresh_eq k resent w lost change :
  let k' := flush_ssthresh k resent w lost change in
  k' = k <| ssthresh := ssthresh k' |> <| cwnd := cwnd k' |> <| incr := incr k' |>.
Proof.
  unfold flush_ssthresh. cbv zeta.
  destruct (negb (change =? 0)), lost; repeat case_match; try reflexivity; kcb_eq.
Qed.

Lemma flush_ssthresh_cwnd k resent w lost change :
  is_u32 (cwnd k) ->
  let k' := flush_ssthresh k resent w lost change in 1 <= cwnd k' /\ is_u32 (cwnd k').
Proof.
  intros Hu. unfold flush_ssthresh. cbv zeta.
  assert (H : forall k1, is_u32 (cwnd k1) ->
    let k' := if cwnd k1 <? 1 then let k := k1 <| cwnd := 1 |> in k <| incr := mss k |> else k1 in
    1 <= cwnd k' /\ is_u32 (cwnd k')).
  { intros k1 H1. cbv zeta. destruct (Z.ltb_spec (cwnd k1) 1); cbn; [rlia|auto]. }
  apply H. destruct lost; [cbn; rlia|].
  destruct (negb (change =? 0)); [apply u32_range | exact Hu].
Qed.

Lemma flush_rest_ok k0 buf k ptr :
  cfg_wf k0 -> same_cfg k0 k -> ptr_ok k0 buf ptr ->
  exists t, flush_rest k ptr = Ret (k <| trace := trace k ++ t |>) /\ Forall (ev_ok k0 buf) t.
Proof.
  intros Hc Hk [Hg Hl]. unfold flush_rest. destruct (0 <? lenZ ptr).
  - apply (ikcp_output_ok k0 buf); assumption.
  - exists []. rewrite app_nil_r. split; [f_equal; kcb_eq | constructor].
Qed.

Lemma flush_cwnd_range k : cfg_wf k -> 0 <= flush_cwnd k <= 65535.
Proof.
  intros Hc. pose proof (wf_rmt_wnd _ Hc). pose proof (wf_snd_wnd _ Hc). pose proof (wf_cwnd _ Hc).
  unfold flush_cwnd, _imin_. repeat zcase; rlia.
Qed.

Lemma numbered_length c b l : length (numbered c b l) = length l.
Proof. revert b. induction l; intros b; simpl; auto. Qed.

Lemma fixed_Forall (P : IKCPSEG -> Prop) l l' :
  (forall s s', seg_fixed s = seg_fixed s' -> P s' -> P s) ->
  map seg_fixed l = map seg_fixed l' -> Forall P l' -> Forall P l.
Proof.
  intros HP. revert l'. induction l as [|s l IH]; intros [|s' l']; simpl; try discriminate; [auto|].
  intros E Hl. injection E as E0 E1. apply Forall_cons in Hl as [? ?].
  constructor; [|eapply IH; eassumption].
  apply (HP s s'); [unfold seg_fixed; congruence | assumption].
Qed.

(** A flush sends [t], moves [moved] into flight and keeps everything else. *)
Record flush_result (k : ikcpcb) (t : list kevent) (moved : list IKCPSEG) (k' : ikcpcb) : Prop := {
  fl_wf : kcp_wf k';
  fl_fit : segs_fit k';
  fl_frame : flush_frame k k';
  fl_trace : trace k' = trace k ++ t;
  fl_events : Forall (ev_ok k (snd_buf k')) t;
  fl_acks : ackcount k' = 0;
  fl_queue : snd_queue k = moved ++ snd_queue k';
  fl_buf : map seg_fixed (snd_buf k') =
             map seg_fixed (snd_buf k) ++ numbered (conv k) (snd_nxt k) moved;
  fl_nxt : snd_nxt k' = u32 (snd_nxt k + lenZ moved);
  fl_cwnd : 1 <= cwnd k' }.

Lemma ev_ok_fixed k buf buf' e :
  map seg_fixed buf = map seg_fixed buf' -> ev_ok k buf e -> ev_ok k buf' e.
Proof.
  intros E. destruct e as [d|m]; [|auto]. intros [(segs & -> & Hs) Hl]. split; [|exact Hl].
  exists segs. split; [reflexivity|]. eapply Forall_impl; [exact Hs|].
  intros s [Hc|(? & ? & ? & s0 & Hin & Es)]; [left; exact Hc|right].
  split; [assumption|]. split; [assumption|]. split; [assumption|].
  assert (H' : seg_fixed s0 ∈ map seg_fixed buf') by (rewrite <- E; apply list_elem_of_fmap_2, Hin).
  apply list_elem_of_fmap in H' as (s1 & E1 & Hin1). exists s1. split; [assumption|congruence].
Qed.

Lemma ev_ok_weaken k buf e : ev_ok k [] e -> ev_ok k buf e.
Proof.
  destruct e as [d|m]; [|auto]. intros [(segs & -> & Hs) Hl]. split; [|exact Hl].
  exists segs. split; [reflexivity|]. eapply Forall_impl; [exact Hs|].
  intros s [Hc|(? & ? & ? & s0 & Hin & _)]; [left; exact Hc|]. inv Hin.
Qed.

Lemma ptr_ok_weaken k buf p : ptr_ok k [] p -> ptr_ok k buf p.
Proof.
  intros [(segs & -> & Hs) Hl]. split; [|exact Hl]. exists segs. split; [reflexivity|].
  eapply Forall_impl; [exact Hs|].
  intros s [Hc|(? & ? & ? & s0 & Hin & _)]; [left; exact Hc|]. inv Hin.
Qed.

Lemma snd_wf_fixed k r :
  snd_wf k -> map seg_fixed r = map seg_fixed (snd_buf k) -> Forall (seg_sent (conv k)) r ->
  snd_wf (k <| snd_buf := r |>).
Proof.
  intros [? ? ? Hso ? Hp ? Hn ?] E Hr. constructor; cbn; try assumption.
  - eapply sn_sorted_ext; [apply fixed_sn; symmetry; exact E | exact Hso].
  - eapply fixed_Forall; [|exact E|exact Hp]. apply payload_fixed.
  - rewrite Hn. apply (f_equal length) in E. rewrite !length_map in E. congruence.
Qed.

(** The first half: acknowledgements, probes and the numbering of new segments. *)
Lemma flush_head k :
  kcp_wf k -> output k = true -> 
  exists t1 t2 a b c ptr seg,
    let k1 := k <| trace := trace k ++ t1 |> in
    let k2 := k1 <| ackcount := 0 |> <| ts_probe := a |> <| probe_wait := b |> <| probe := c |> in
    let k3 := k2 <| trace := trace k2 ++ t2 |> <| probe := 0 |> in
    flush_ctl k = Ret (k3, ptr, seg) /\
    Forall (ev_ok k []) (t1 ++ t2) /\ ptr_ok k [] ptr /\ is_u32 (seg_wnd seg).
Proof.
  intros [Hc Hs Hr Ha] Ho. unfold flush_ctl.
  assert (Hk : same_cfg k k) by (repeat split; assumption).
  assert (Hp0 : ptr_ok k [] []).
  { split; [apply good_pkt_nil|]. cbn. pose proof (wf_mtu _ Hc). lia. }
  pose proof (wf_ackcount _ Ha) as Hcnt.
  destruct (flush_acks_ok k [] Hc Ha (Z.to_nat (ackcount k)) 0 k [] (flush_seg k) Hk Hp0)
    as (t1 & ptr1 & seg1 & -> & Ht1 & Hp1 & Hs1 & Hw1);
    [apply flush_seg_base, Hr | reflexivity | lia|]. cbn [obind]. cbv zeta.
  rewrite flush_probe_eq.
  generalize (ts_probe (flush_probe (k <| trace := trace k ++ t1 |> <| ackcount := 0 |>))) as a,
    (probe_wait (flush_probe (k <| trace := trace k ++ t1 |> <| ackcount := 0 |>))) as b,
    (probe (flush_probe (k <| trace := trace k ++ t1 |> <| ackcount := 0 |>))) as c.
  intros a b c.
  destruct (flush_cmds_ok k [] Hc
    (k <| trace := trace k ++ t1 |> <| ackcount := 0 |> <| ts_probe := a |>
       <| probe_wait := b |> <| probe := c |>) ptr1 seg1) as (t2 & ptr2 & seg2 & E & Ht2 & Hp2 & Hw2);
    [exact Hk | exact Hp1 | exact Hs1|].
  exists t1, t2, a, b, c, ptr2, seg2. split; [exact E|]. split; [apply Forall_app; auto|].
  split; [exact Hp2|]. rewrite Hw2, Hw1. apply u32_range.
Qed.

(** The block between the numbering of new segments and the data loop. *)
Record flush_mid (k : ikcpcb) (t : list kevent) (moved : list IKCPSEG) (k4 : ikcpcb) : Prop := {
  mid_frame : flush_frame k k4;
  mid_snd : snd_wf k4;
  mid_cfg : same_cfg k k4;
  mid_current : current k4 = current k;
  mid_rcv_nxt : rcv_nxt k4 = rcv_nxt k;
  mid_cwnd : cwnd k4 = cwnd k;
  mid_acks : ackcount k4 = 0;
  mid_trace : trace k4 = trace k ++ t;
  mid_queue : snd_queue k = moved ++ snd_queue k4;
  mid_buf : map seg_fixed (snd_buf k4) =
              map seg_fixed (snd_buf k) ++ numbered (conv k) (snd_nxt k) moved;
  mid_nxt : snd_nxt k4 = u32 (snd_nxt k + lenZ moved) }.

Lemma flush_mid_ok k t1 t2 a b c w wnd :
  kcp_wf k -> output k = true ->
  let k1 := k <| trace := trace k ++ t1 |> in
  let k2 := k1 <| ackcount := 0 |> <| ts_probe := a |> <| probe_wait := b |> <| probe := c |> in
  let k3 := k2 <| trace := trace k2 ++ t2 |> <| probe := 0 |> in
  w = flush_cwnd k3 ->
  exists moved, flush_mid k (t1 ++ t2) moved (move_snd k3 w wnd).
Proof.
  intros [Hc Hs Hr Ha] Ho. cbv zeta.
  set (k3 := k <| trace := _ |> <| ackcount := _ |> <| ts_probe := _ |> <| probe_wait := _ |>
               <| probe := _ |> <| trace := _ |> <| probe := _ |>).
  assert (Hc3 : cfg_wf k3) by (clear -Hc; subst k3; wf_frame).
  assert (Hs3 : snd_wf k3) by (clear -Hs; subst k3; wf_frame).
  pose proof (flush_cwnd_range k3 Hc3) as Hfw. intros ->.
  destruct (move_snd_loop_spec (snd_queue k3) (flush_cwnd k3) wnd k3 Hs3) as
    (moved & Hq & Hs4 & Hh & Hf & _ & Hn); [apply Hr | apply Hc | apply Hc | reflexivity | exact Hfw|].
  exists moved. fold (move_snd k3 (flush_cwnd k3) wnd) in Hq, Hs4, Hh, Hf, Hn.
  generalize dependent (move_snd k3 (flush_cwnd k3) wnd). intros k4 Hq Hs4 Hh Hf Hn.
  red in Hh.
  constructor; try assumption; rewrite Hh; try reflexivity.
  - repeat split. exact Ho.
  - cbn. rewrite app_assoc. reflexivity.
Qed.

(** The numbered segments still fit a datagram. *)
Lemma flush_mid_fit k t moved k4 :
  flush_mid k t moved k4 -> segs_fit k -> Forall (fun s => seg_len s <= mss k) (snd_buf k4).
Proof.
  intros Hm [Hfq Hfb]. apply Forall_forall. intros s Hin.
  assert (H' : seg_fixed s ∈ map seg_fixed (snd_buf k4)) by (apply list_elem_of_fmap_2, Hin).
  rewrite (mid_buf _ _ _ _ Hm) in H'. apply elem_of_app in H' as [H'|H'].
  - apply list_elem_of_fmap in H' as (s0 & E & Hin0).
    eapply Forall_forall in Hfb; [|exact Hin0].
    unfold seg_fixed in E. injection E. intros. cbn in Hfb. lia.
  - rewrite (mid_queue _ _ _ _ Hm) in Hfq.
    apply Forall_app in Hfq as [Hfq _]. revert H'. generalize (snd_nxt k), (conv k).
    clear -Hfq. induction Hfq as [|x l Hx Hl IH]; intros n cv H'; simpl in H'; [inv H'|].
    apply elem_of_cons in H' as [E|H']; [|eapply IH, H'].
    unfold seg_fixed in E. injection E. intros. lia.
Qed.

Lemma flush_mid_due k t moved k4 :
  flush_mid k t moved k4 -> segs_fit k -> conv k4 = conv k ->
  Forall (due_ok k (snd_buf k4)) (snd_buf k4).
Proof.
  intros Hm Hfit Hcv. pose proof (flush_mid_fit _ _ _ _ Hm Hfit) as H3.
  pose proof (wf_snd_sent _ (mid_snd _ _ _ _ Hm)) as H1. rewrite Hcv in H1.
  pose proof (wf_snd_payload _ (mid_snd _ _ _ _ Hm)) as H2. rewrite !Forall_forall in *.
  intros s Hin. split; [apply H2, Hin|]. split; [apply H3, Hin|]. split; [apply H1, Hin|]. eauto.
Qed.

(** The part of [flush_result] that follows from [flush_mid] once the data loop
    has rewritten the timers of the segments in flight to [r]. *)
Lemma flush_finish k t moved k4 t3 st xm r th cw inc :
  kcp_wf k -> segs_fit k -> flush_mid k t moved k4 ->
  map seg_fixed r = map seg_fixed (snd_buf k4) -> Forall (seg_sent (conv k)) r ->
  Forall (ev_ok k r) (t ++ t3) -> 1 <= cw -> is_u32 cw ->
  flush_result k (t ++ t3) moved
    (k4 <| trace := trace k4 ++ t3 |> <| state := st |> <| xmit := xm |> <| snd_buf := r |>
        <| ssthresh := th |> <| cwnd := cw |> <| incr := inc |>).
Proof.
  intros [Hc Hs Hr Ha] Hfit Hm Er Hse Hev Hcw Hcu.
  pose proof (flush_mid_fit _ _ _ _ Hm Hfit) as Hf4.
  destruct Hm as [Hfr Hs4 Hk4 Hcur Hrn Hcw4 Hac Htr Hq Hb Hn].
  destruct Hfit as [Hfq Hfb].
  assert (Hs5 : snd_wf (k4 <| snd_buf := r |>)).
  { apply snd_wf_fixed; [exact Hs4 | exact Er|]. destruct Hk4 as (-> & _). exact Hse. }
  assert (Hcfg : cfg_wf (k <| cwnd := cw |>)) by (destruct Hc; constructor; assumption).
  red in Hfr. constructor; cbn.
  - constructor.
    + rewrite Hfr. clear -Hcfg. wf_frame.
    + clear -Hs5. wf_frame.
    + rewrite Hfr. clear -Hr. wf_frame.
    + assert (Ha' : ack_wf (k <| ackcount := 0 |>)).
      { destruct Ha. constructor; cbn; try assumption; lia. }
      rewrite Hfr, Hac. clear -Ha'. wf_frame.
  - assert (Hms : mss k4 = mss k) by (rewrite Hfr; reflexivity).
    split; cbn; rewrite Hms.
    + rewrite Hq in Hfq. apply Forall_app in Hfq. tauto.
    + eapply (fixed_Forall (fun s => seg_len s <= mss k)); [|exact Er|exact Hf4].
      intros s s' E. injection E. intros. cbn in *. lia.
  - red. rewrite Hfr. reflexivity.
  - rewrite Htr, app_assoc. reflexivity.
  - exact Hev.
  - exact Hac.
  - exact Hq.
  - rewrite Er. exact Hb.
  - exact Hn.
  - exact Hcw.
Qed.

Lemma ikcp_flush_spec k :
  kcp_wf k -> segs_fit k -> output k = true -> updated k <> 0 ->
  exists k' t moved, ikcp_flush k = Ret k' /\ flush_result k t moved k'.
Proof.
  intros Hwf Hfit Ho Hup. unfold ikcp_flush.
  destruct (Z.eqb_spec (updated k) 0) as [|_]; [contradiction|].
  destruct (flush_head k Hwf Ho) as (t1 & t2 & a & b & c & ptr & seg & -> & Ht & Hp & Hw).
  cbn [obind]. cbv zeta.
  match goal with |- context [move_snd ?K ?W _] =>
    destruct (flush_mid_ok k t1 t2 a b c W (seg_wnd seg) Hwf Ho eq_refl) as [moved Hm];
    set (w := W) in *; generalize dependent (move_snd K w (seg_wnd seg)) end.
  intros k4 Hm. pose proof (wf_cfg _ Hwf) as Hc.
  assert (Hcv : conv k4 = conv k) by apply (mid_cfg _ _ _ _ Hm).
  destruct (flush_data_ok k (snd_buf k4) Hc (snd_buf k4) k4 (seg_wnd seg) (flush_resent k4)
    (flush_rtomin k4) (mkDL ptr false 0)) as (r & k5 & v & -> & Er & Hse & Hf5 & Hp5);
    [apply Hm | apply Hm | apply Hm | apply (wf_rcv _ Hwf) | exact Hw
     | apply ptr_ok_weaken, Hp | eapply flush_mid_due; eassumption |]. cbn [obind]. cbv zeta.
  destruct Hf5 as (t3 & st & xm & -> & Ht3).
  destruct (flush_rest_ok k (snd_buf k4) (k4 <| trace := trace k4 ++ t3 |> <| state := st |>
     <| xmit := xm |> <| snd_buf := r |>) (dl_ptr v) Hc) as (t4 & -> & Ht4);
    [apply (mid_cfg _ _ _ _ Hm) | exact Hp5 |]. cbn [obind].
  rewrite flush_ssthresh_eq.
  match goal with |- context [flush_ssthresh ?K ?R ?W ?L ?C] =>
    destruct (flush_ssthresh_cwnd K R W L C) as [Hcw Hcu];
      [cbn; rewrite (mid_cwnd _ _ _ _ Hm); apply Hc|];
    generalize dependent (flush_ssthresh K R W L C) end.
  intros k' Hcw Hcu. do 3 eexists. split; [reflexivity|]. cbn [trace upd set_trace set_snd_buf
    set_xmit set_state]. rewrite <- (app_assoc (trace k4) t3 t4).
  eapply (flush_finish k (t1 ++ t2) moved k4 (t3 ++ t4) st xm r); try eassumption.
  assert (Hx : Forall (ev_ok k (snd_buf k4)) ((t1 ++ t2) ++ t3 ++ t4)).
  { apply Forall_app. split; [eapply Forall_impl; [exact Ht | apply ev_ok_weaken]|].
    apply Forall_app. auto. }
  eapply Forall_impl; [exact Hx|]. intros e. apply ev_ok_fixed. symmetry. exact Er.
Qed.
