(* ===== verification/KcpOps.v ===== *)
(** * KCP: the interface of a control block and its reachable states

    Every exported operation of ikcp.c that changes a block as one label of
    [kop], what a caller owes for each of them ([op_ok]), and the states that
    calls which meet these obligations can lead to ([reachable]).  The lemmas
    show that every such call returns and keeps the block well formed. *)

From S2P Require Import Prelude KcpWire KcpSeq KcpState KcpSend KcpRecv KcpInput.
From S2P Require Import KcpFlush KcpInv KcpFlushInv.

Local Open Scope Z_scope.

(** ** Creation and configuration *)
Section Config.
Context {A : Alloc}.

Lemma create_wf c u k :
  is_u32 c -> ikcp_create c u = Some k -> kcp_wf k /\ segs_fit k.
Proof.
  intros Hc. unfold ikcp_create. destruct (negb _); [discriminate|]. cbv zeta.
  destruct (negb _); [discriminate|]. intros [= <-].
  split; [|split; constructor].
  constructor; constructor; cbn; auto; try (vm_compute; intuition discriminate); try constructor.
Qed.

(** What [ikcp_setmtu] does to the block when it succeeds. *)
Lemma setmtu_ok k m k' :
  50 <= m <= 1431655741 -> ikcp_setmtu k m = (0, k') ->
  k' = k <| mtu := m |> <| mss := m - IKCP_OVERHEAD |>
         <| buffer_cap := (m + IKCP_OVERHEAD) * 3 |>.
Proof.
  intros Hm. unfold ikcp_setmtu, IKCP_OVERHEAD.
  destruct (Z.ltb_spec m 50); [lia|]. destruct (Z.ltb_spec m 24); [lia|]. cbn [orb].
  destruct (negb _); [discriminate|]. cbv zeta. intros [= <-].
  rewrite (u32_id (m + 24)), (u32_id ((m + 24) * 3)) by rlia. cbn [mtu upd set_mtu].
  rewrite (u32_id (m - 24)) by rlia. reflexivity.
Qed.

Lemma setmtu_result k m :
  (ikcp_setmtu k m).1 = 0 /\ 50 <= m \/ (ikcp_setmtu k m).2 = k.
Proof.
  unfold ikcp_setmtu, IKCP_OVERHEAD.
  destruct (Z.ltb_spec m 50); [right; reflexivity|].
  destruct (Z.ltb_spec m 24); [right; reflexivity|]. cbn [orb].
  destruct (negb _); [right; reflexivity|]. left. split; [reflexivity|lia].
Qed.

Lemma setmtu_wf k m :
  m <= 1431655741 -> kcp_wf k -> kcp_wf (ikcp_setmtu k m).2.
Proof.
  intros Hm Hwf. destruct (setmtu_result k m) as [[E H]|E]; [|rewrite E; exact Hwf].
  destruct (ikcp_setmtu k m) as [r k'] eqn:Es. cbn in E. subst r.
  apply setmtu_ok in Es as ->; [|lia].
  destruct Hwf as [Hc Hs Hr Ha]. constructor; [|wf_frame..].
  destruct Hc. constructor; cbn; try assumption; try reflexivity; lia.
Qed.

(** A larger MTU keeps the queued segments inside a datagram. *)
Lemma setmtu_fit k m :
  m <= 1431655741 -> mtu k <= m -> kcp_wf k -> segs_fit k -> segs_fit (ikcp_setmtu k m).2.
Proof.
  intros Hm Hge Hwf Hf. destruct (setmtu_result k m) as [[E H]|E]; [|rewrite E; exact Hf].
  destruct (ikcp_setmtu k m) as [r k'] eqn:Es. cbn in E. subst r.
  apply setmtu_ok in Es as ->; [|lia]. pose proof (wf_mss _ (wf_cfg _ Hwf)).
  destruct Hf as [Hq Hb]. split; cbn; (eapply Forall_impl; [eassumption|]); cbn; intros; lia.
Qed.
End Config.

Lemma interval_wf k iv : kcp_wf k -> kcp_wf (ikcp_interval k iv).2.
Proof.
  intros [Hc Hs Hr Ha]. constructor; [|wf_frame..]. destruct Hc.
  constructor; cbn; try assumption. repeat zcase; lia.
Qed.

(** The four independent settings of [ikcp_nodelay], in one update. *)
Lemma nodelay_eq k nd iv rs nc :
  let k' := (ikcp_nodelay k nd iv rs nc).2 in
  k' = k <| nodelay := nodelay k' |> <| rx_minrto := rx_minrto k' |> <| interval := interval k' |>
         <| fastresend := fastresend k' |> <| nocwnd := nocwnd k' |> /\
  (rx_minrto k' = rx_minrto k \/ rx_minrto k' = IKCP_RTO_NDL \/ rx_minrto k' = IKCP_RTO_MIN) /\
  (interval k' = interval k \/ 10 <= interval k' <= 5000).
Proof.
  cbv zeta. unfold ikcp_nodelay.
  destruct (0 <=? nd), (negb (nd =? 0)), (0 <=? iv), (0 <=? rs), (0 <=? nc);
    (split; [destruct k; reflexivity|]); (split; [cbn; auto|]); cbn; auto;
    right; repeat zcase; lia.
Qed.

Lemma nodelay_wf k nd iv rs nc : kcp_wf k -> kcp_wf (ikcp_nodelay k nd iv rs nc).2.
Proof.
  intros [Hc Hs Hr Ha]. pose proof (nodelay_eq k nd iv rs nc) as (E & Hm & Hi). cbv zeta in *.
  remember (ikcp_nodelay k nd iv rs nc).2 as k' eqn:Ek. clear Ek.
  generalize dependent (rx_minrto k'). generalize dependent (interval k'). intros iv' Hiv mr E Hmr.
  rewrite E. constructor; [|wf_frame..]. destruct Hc. constructor; cbn; try assumption.
  - destruct Hiv as [-> |]; assumption.
  - unfold IKCP_RTO_NDL, IKCP_RTO_MIN, IKCP_RTO_MAX in *. intuition lia.
Qed.

Lemma wndsize_wf k sw rw : is_i32 sw -> is_i32 rw -> kcp_wf k -> kcp_wf (ikcp_wndsize k sw rw).2.
Proof.
  intros Hsw Hrw [Hc Hs Hr Ha]. unfold ikcp_wndsize. cbn [snd].
  destruct Hc as [? ? ? ? H5 H6 ? ? ? ? ? ? ?].
  constructor; repeat zcase; try (clear -Hs; wf_frame); try (clear -Hr; wf_frame);
    try (clear -Ha; wf_frame); constructor; cbn; try assumption; try rlia;
    unfold _imax_, IKCP_WND_RCV in *; repeat zcase; rlia.
Qed.

(** ** The clock *)

(** The block as [ikcp_update] hands it to [ikcp_flush]. *)
Definition at_time (k : ikcpcb) (now u tf : Z) : ikcpcb :=
  k <| current := now |> <| updated := u |> <| ts_flush := tf |>.

Lemma update_eq k now :
  is_u32 now -> is_u32 (ts_flush k) ->
  exists u tf, u <> 0 /\ is_u32 tf /\
    (ikcp_update k now = Ret (at_time k now u tf) \/
     ikcp_update k now = ikcp_flush (at_time k now u tf)).
Proof.
  intros Hn Ht. unfold ikcp_update. cbv zeta.
  assert (H : exists u tf, u <> 0 /\ is_u32 tf /\
    (if updated (k <| current := now |>) =? 0
     then k <| current := now |> <| updated := 1 |> <| ts_flush := now |>
     else k <| current := now |>) = at_time k now u tf).
  { cbn [updated upd set_current]. destruct (Z.eqb_spec (updated k) 0) as [E|E].
    - exists 1, now. auto.
    - exists (updated k), (ts_flush k). split; [exact E|]. split; [exact Ht|]. unfold at_time. kcb_eq. }
  destruct H as (u & tf & Hu & Htf & E). cbn in E |- *. rewrite E. clear E. exists u.
  destruct ((10000 <=? _) || _); cbn.
  - exists (u32 (now + interval k)). split; [exact Hu|]. split; [apply u32_range|]. right.
    destruct (0 <=? _itimediff now _); reflexivity.
  - destruct (0 <=? _itimediff now tf); [|exists tf; auto].
    destruct (0 <=? _); eexists; (split; [exact Hu|]); (split; [|right; reflexivity]); apply u32_range.
Qed.

Lemma at_time_wf k now u tf : is_u32 now -> is_u32 tf -> kcp_wf k -> kcp_wf (at_time k now u tf).
Proof.
  intros Hn Ht [Hc Hs Hr Ha]. unfold at_time. constructor; [|wf_frame..].
  destruct Hc. constructor; assumption.
Qed.

Lemma update_spec k now :
  kcp_wf k -> segs_fit k -> output k = true -> is_u32 now ->
  exists k', ikcp_update k now = Ret k' /\ kcp_wf k' /\ segs_fit k' /\ output k' = true.
Proof.
  intros Hwf Hf Ho Hn.
  destruct (update_eq k now Hn (wf_ts_flush _ (wf_cfg _ Hwf))) as (u & tf & Hu & Ht & E).
  pose proof (at_time_wf k now u tf Hn Ht Hwf) as Hwf1.
  destruct E as [-> | ->]; [eauto|].
  destruct (ikcp_flush_spec (at_time k now u tf) Hwf1 Hf Ho Hu) as (k' & t & moved & -> & Hr).
  exists k'. split; [reflexivity|]. split; [apply Hr|]. split; [apply Hr|].
  pose proof (fl_frame _ _ _ _ Hr) as Hfr. red in Hfr. rewrite Hfr. exact Ho.
Qed.

(** ** Input *)

(** What a segment does to the sending half ([una], acknowledgement, window). *)
Definition snd_touch (k k' : ikcpcb) : Prop :=
  k' = k <| rmt_wnd := rmt_wnd k' |> <| snd_buf := snd_buf k' |> <| nsnd_buf := nsnd_buf k' |>
         <| snd_una := snd_una k' |> <| rx_srtt := rx_srtt k' |> <| rx_rttval := rx_rttval k' |>
         <| rx_rto := rx_rto k' |> <| probe := probe k' |> <| trace := trace k' |>.

(** What a data segment does to the receiving half. *)
Definition rcv_touch (k k' : ikcpcb) : Prop :=
  k' = k <| trace := trace k' |> <| acklist := acklist k' |> <| ackblock := ackblock k' |>
         <| ackcount := ackcount k' |> <| rcv_buf := rcv_buf k' |> <| nrcv_buf := nrcv_buf k' |>
         <| rcv_queue := rcv_queue k' |> <| nrcv_que := nrcv_que k' |>
         <| rcv_nxt := rcv_nxt k' |>.

Lemma snd_touch_refl k : snd_touch k k.
Proof. unfold snd_touch. kcb_eq. Qed.

Lemma snd_touch_trans k1 k2 k3 : snd_touch k1 k2 -> snd_touch k2 k3 -> snd_touch k1 k3.
Proof. unfold snd_touch. intros H1 H2. rewrite H2, H1. reflexivity. Qed.

Lemma rcv_touch_refl k : rcv_touch k k.
Proof. unfold rcv_touch. kcb_eq. Qed.

Lemma rcv_touch_trans k1 k2 k3 : rcv_touch k1 k2 -> rcv_touch k2 k3 -> rcv_touch k1 k3.
Proof. unfold rcv_touch. intros H1 H2. rewrite H2, H1. reflexivity. Qed.

Lemma snd_touch_log k a b : snd_touch k (log_if k a b).
Proof. destruct (log_if_eq k a b) as (t & -> & _). reflexivity. Qed.

Lemma rcv_touch_log k a b : rcv_touch k (log_if k a b).
Proof. destruct (log_if_eq k a b) as (t & -> & _). reflexivity. Qed.

Lemma snd_touch_una k una : snd_touch k (ikcp_parse_una k una).
Proof. destruct (parse_una_eq k una) as (n & -> & _). reflexivity. Qed.

Lemma snd_touch_shrink k : snd_touch k (ikcp_shrink_buf k).
Proof. rewrite shrink_buf_eq. reflexivity. Qed.

Lemma snd_touch_ack k sn : snd_touch k (ikcp_parse_ack k sn).
Proof.
  destruct (parse_ack_eq k sn) as [-> | (l1 & s & l2 & n & _ & _ & -> & _)];
    [apply snd_touch_refl | reflexivity].
Qed.

Lemma snd_touch_update_ack k rtt : snd_touch k (ikcp_update_ack k rtt).
Proof. destruct (update_ack_eq k rtt) as (a & b & ->). reflexivity. Qed.

Create HintDb touch.
#[export] Hint Resolve snd_touch_refl snd_touch_log snd_touch_una snd_touch_shrink snd_touch_ack
  snd_touch_update_ack rcv_touch_refl rcv_touch_log : touch.

(** The common head of every segment: the window and [una]. *)
Definition input_una (k : ikcpcb) (h : header) : ikcpcb :=
  ikcp_shrink_buf (ikcp_parse_una (k <| rmt_wnd := h_wnd h |>) (h_una h)).

Lemma snd_touch_input_una k h : snd_touch k (input_una k h).
Proof.
  unfold input_una. eapply snd_touch_trans; [|apply snd_touch_shrink].
  eapply snd_touch_trans; [|apply snd_touch_una]. reflexivity.
Qed.

Lemma snd_touch_input_ack k l h : snd_touch k (input_ack k l h).1.
Proof.
  unfold input_ack. cbn [fst]. eapply snd_touch_trans; [|apply snd_touch_log].
  eapply snd_touch_trans; [|apply snd_touch_shrink].
  eapply snd_touch_trans; [|apply snd_touch_ack]. case_match; auto with touch.
Qed.

Section InputTotal.
Context {A : Alloc}.

Lemma rcv_touch_push k cv h data k' : ack_wf k -> input_push k cv h data = Ret k' -> rcv_touch k k'.
Proof.
  intros Ha E. unfold input_push in E. pose proof (rcv_touch_log k IKCP_LOG_IN_DATA IKCP_LOG_IN_DATA) as Hl.
  assert (Ha1 : 0 <= ackcount (log_if k IKCP_LOG_IN_DATA IKCP_LOG_IN_DATA)).
  { destruct (log_if_eq k IKCP_LOG_IN_DATA IKCP_LOG_IN_DATA) as (t & -> & _). apply Ha. }
  destruct (_ <? 0); [|injection E as <-; exact Hl].
  apply obind_Ret in E as (k1 & E1 & E). apply ack_push_eq in E1 as (b & Ek & _); [|exact Ha1].
  assert (H1 : rcv_touch k k1).
  { eapply rcv_touch_trans; [exact Hl|]. red. rewrite Ek. reflexivity. }
  clear Ek. destruct (0 <=? _); [|injection E as <-; exact H1].
  destruct (ikcp_segment_new _); [|discriminate]. destruct (_ <? h_len h); [discriminate|].
  injection E as <-. eapply rcv_touch_trans; [exact H1|].
  pose proof (parse_data_frame k1 (input_seg i cv h (take (Z.to_nat (h_len h)) data))) as Hf.
  red in Hf. red. rewrite Hf. reflexivity.
Qed.

Lemma push_ackcount k cv h data k' :
  ack_wf k -> input_push k cv h data = Ret k' -> ackcount k' <= ackcount k + 1.
Proof.
  intros Ha E. unfold input_push in E.
  destruct (log_if_eq k IKCP_LOG_IN_DATA IKCP_LOG_IN_DATA) as (t & Et & _). rewrite Et in E. clear Et.
  cbn in E. destruct (_ <? 0); [|injection E as <-; cbn; lia].
  apply obind_Ret in E as (k1 & E1 & E). apply ack_push_eq in E1 as (b & Ek & _); [|apply Ha].
  assert (H1 : ackcount k1 <= ackcount k + 1).
  { rewrite Ek. cbn. pose proof (wf_ackcount _ Ha). pose proof (wf_ackblock _ Ha).
    rewrite u32_id by rlia. lia. }
  clear Ek. destruct (0 <=? _); [|injection E as <-; exact H1].
  destruct (ikcp_segment_new _); [|discriminate]. destruct (_ <? h_len h); [discriminate|].
  injection E as <-.
  pose proof (parse_data_frame k1 (input_seg i cv h (take (Z.to_nat (h_len h)) data))) as Hf.
  red in Hf. rewrite Hf. exact H1.
Qed.

Lemma push_total k cv h data :
  ack_wf k -> ackcount k < 134217728 -> h_len h <= lenZ data ->
  out_of_memory (input_push k cv h data) \/ exists k', input_push k cv h data = Ret k'.
Proof.
  intros Ha Hlt Hd. unfold input_push.
  destruct (log_if_eq k IKCP_LOG_IN_DATA IKCP_LOG_IN_DATA) as (t & -> & _). cbn.
  destruct (_ <? 0); [|eauto].
  assert (Ha1 : ack_wf (k <| trace := trace k ++ t |>)) by (clear -Ha; wf_frame).
  destruct (ack_push_total _ (h_sn h) (h_ts h) Ha1 Hlt) as [Ho|[k1 ->]];
    [left; apply oom_bind, Ho|]. cbn [obind].
  destruct (0 <=? _); [|eauto]. unfold ikcp_segment_new. destruct (malloc_ok _) eqn:Em; [|left; eauto].
  destruct (Z.ltb_spec (lenZ data) (h_len h)); [lia|]. eauto.
Qed.

Lemma dispatch_total k l cv h data :
  kcp_wf k -> ackcount k < 134217728 -> header_wf h -> h_len h <= lenZ data ->
  out_of_memory (input_dispatch k l cv h data) \/
  exists k' l', input_dispatch k l cv h data = Ret (k', l') /\
    ackcount k' <= ackcount k + 1 /\ conv k' = conv k.
Proof.
  intros Hwf Hlt Hh Hd. unfold input_dispatch. cbv zeta.
  change (ikcp_shrink_buf (ikcp_parse_una (k <| rmt_wnd := h_wnd h |>) (h_una h))) with (input_una k h).
  assert (Hwf1 : kcp_wf (input_una k h))
    by (apply kcp_wf_shrink, kcp_wf_parse_una, kcp_wf_rmt_wnd; [apply Hh | exact Hwf]).
  pose proof (snd_touch_input_una k h) as Ht.
  assert (Hst : forall k1 (l1 : input_locals), snd_touch k k1 ->
    exists k' l', Ret (k1, l1) = Ret (k', l') /\
    ackcount k' <= ackcount k + 1 /\ conv k' = conv k).
  { intros k1 l1 Hk. exists k1, l1. split; [reflexivity|]. red in Hk. rewrite Hk. cbn. split; [lia|reflexivity]. }
  destruct (h_cmd h =? IKCP_CMD_ACK).
  { right. rewrite (surjective_pairing (input_ack _ _ _)). apply Hst.
    eapply snd_touch_trans; [exact Ht | apply snd_touch_input_ack]. }
  destruct (h_cmd h =? IKCP_CMD_PUSH).
  - assert (Hc : ackcount (input_una k h) = ackcount k) by (red in Ht; rewrite Ht; reflexivity).
    assert (Hv : conv (input_una k h) = conv k) by (red in Ht; rewrite Ht; reflexivity).
    destruct (push_total (input_una k h) cv h data (wf_ack _ Hwf1)) as [Ho|[k' E]];
      [lia | exact Hd | left; apply oom_bind, Ho | right].
    exists k', l. rewrite E. split; [reflexivity|].
    pose proof (push_ackcount _ _ _ _ _ (wf_ack _ Hwf1) E). split; [lia|].
    apply rcv_touch_push in E; [|apply Hwf1]. red in E. rewrite E. exact Hv.
  - right. destruct (h_cmd h =? IKCP_CMD_WASK); apply Hst;
      (eapply snd_touch_trans; [|apply snd_touch_log]); [|exact Ht].
    eapply snd_touch_trans; [exact Ht|]. reflexivity.
Qed.

Context `{!AllocSized A}.

(** The segment loop ends within [fuel] iterations whenever [24 * fuel] exceeds [size]. *)
Lemma input_loop_total fuel k l data size :
  kcp_wf k -> is_bytes data -> size <= lenZ data -> 0 <= size < 24 * Z.of_nat fuel ->
  24 * ackcount k + size < 3221225472 ->
  out_of_memory (input_loop fuel k l data size) \/
  exists k' e, input_loop fuel k l data size = Ret (k', e).
Proof.
  revert k l data size. induction fuel as [|fuel IH]; intros k l data size Hwf Hb Hd Hs Ha; [lia|].
  simpl. unfold IKCP_OVERHEAD in *. destruct (Z.ltb_spec size 24); [eauto|].
  destruct (decode32_total data) as (cv & d1 & E1); [lia|]. rewrite E1.
  apply decode32_inv in E1 as (_ & Hb1 & L1); [|exact Hb].
  destruct (negb (cv =? conv k)); [eauto|].
  destruct (decode_header_total d1) as (h & d2 & E2); [lia|]. rewrite E2.
  apply decode_header_inv in E2 as (Hh & Hb2 & L2); [|exact Hb1].
  destruct (_ || _) eqn:E3; [eauto|]. apply orb_false_iff in E3 as [E3 E4].
  apply Z.ltb_ge in E3, E4.
  assert (Hlen : i32 (h_len h) = h_len h) by (destruct Hh as (_ & _ & _ & _ & _ & _ & Hl); wrap_lia).
  rewrite Hlen in *. destruct (negb (valid_cmd (h_cmd h))); [eauto|].
  destruct (dispatch_total k l cv h d2 Hwf) as [Ho|(k1 & l1 & E5 & Hc & _)];
    [lia | exact Hh | lia | left; apply oom_bind, Ho |].
  rewrite E5. cbn [obind].
  apply kcp_wf_dispatch in E5; [|assumption|assumption|lia|exact Hwf].
  apply IH; [exact E5 | apply Forall_drop, Hb2 | rewrite length_drop; lia | lia | lia].
Qed.

Lemma input_total k data size :
  kcp_wf k -> is_bytes data -> is_i32 size -> size <= lenZ data ->
  24 * ackcount k + size < 3221225472 ->
  out_of_memory (ikcp_input k (Some data) size) \/
  exists r k', ikcp_input k (Some data) size = Ret (r, k').
Proof.
  intros Hwf Hb Hi Hd Ha. unfold ikcp_input. cbv zeta. rewrite i32_id by exact Hi.
  unfold IKCP_OVERHEAD. destruct (Z.ltb_spec size 24); [eauto|].
  destruct (input_loop_total (Z.to_nat size) (log_if k IKCP_LOG_INPUT IKCP_LOG_INPUT)
    (mkIL 0 0) data size) as [Ho|(k' & e & ->)]; try assumption;
    [apply kcp_wf_log, Hwf | lia | | left; apply oom_bind, Ho |].
  - destruct (log_if_eq k IKCP_LOG_INPUT IKCP_LOG_INPUT) as (t & -> & _). exact Ha.
  - cbn [obind]. destruct e; eauto.
Qed.
End InputTotal.

(** ** What a whole datagram may touch *)
Definition input_frame (k k' : ikcpcb) : Prop :=
  k' = k <| rmt_wnd := rmt_wnd k' |> <| snd_buf := snd_buf k' |> <| nsnd_buf := nsnd_buf k' |>
         <| snd_una := snd_una k' |> <| rx_srtt := rx_srtt k' |> <| rx_rttval := rx_rttval k' |>
         <| rx_rto := rx_rto k' |> <| probe := probe k' |> <| trace := trace k' |>
         <| acklist := acklist k' |> <| ackblock := ackblock k' |>
         <| ackcount := ackcount k' |> <| rcv_buf := rcv_buf k' |> <| nrcv_buf := nrcv_buf k' |>
         <| rcv_queue := rcv_queue k' |> <| nrcv_que := nrcv_que k' |>
         <| rcv_nxt := rcv_nxt k' |> <| cwnd := cwnd k' |> <| incr := incr k' |>.

Lemma input_frame_refl k : input_frame k k.
Proof. unfold input_frame. kcb_eq. Qed.

Lemma input_frame_trans k1 k2 k3 : input_frame k1 k2 -> input_frame k2 k3 -> input_frame k1 k3.
Proof. unfold input_frame. intros H1 H2. rewrite H2, H1. reflexivity. Qed.

Lemma snd_touch_frame k k' : snd_touch k k' -> input_frame k k'.
Proof. unfold snd_touch, input_frame. intros ->. reflexivity. Qed.

Lemma rcv_touch_frame k k' : rcv_touch k k' -> input_frame k k'.
Proof. unfold rcv_touch, input_frame. intros ->. reflexivity. Qed.

Lemma input_cwnd_eq k una :
  input_cwnd k una = k <| cwnd := cwnd (input_cwnd k una) |> <| incr := incr (input_cwnd k una) |>.
Proof.
  unfold input_cwnd. destruct (0 <? _); [|kcb_eq]. destruct (cwnd k <? rmt_wnd k); [|kcb_eq].
  cbv zeta. repeat case_match; try reflexivity; kcb_eq.
Qed.

Lemma fastack_eq k sn :
  ikcp_parse_fastack k sn = k <| snd_buf := snd_buf (ikcp_parse_fastack k sn) |> /\
  map seg_fixed (snd_buf (ikcp_parse_fastack k sn)) = map seg_fixed (snd_buf k).
Proof.
  unfold ikcp_parse_fastack. case_match; [split; [kcb_eq | reflexivity]|].
  split; [reflexivity | apply fastack_loop_fixed].
Qed.

(** How a segment changes the list of segments in flight: it only takes
    segments out, those below [una] and the one it acknowledges. *)
Record buf_shrinks (k k' : ikcpcb) (h : header) : Prop := {
  bs_sub : forall s, s ∈ snd_buf k' -> s ∈ snd_buf k;
  bs_gone : forall s, s ∈ snd_buf k ->
    s ∈ snd_buf k' \/ 0 < _itimediff (h_una h) (seg_sn s) \/
    (h_cmd h = IKCP_CMD_ACK /\ seg_sn s = h_sn h) }.

Lemma buf_shrinks_una k h : buf_shrinks k (input_una k h) h.
Proof.
  unfold input_una. rewrite shrink_buf_eq.
  destruct (parse_una_eq (k <| rmt_wnd := h_wnd h |>) (h_una h)) as (n & -> & _). cbn.
  destruct (dropwhile_suffix (una_test (h_una h)) (snd_buf k)) as (p & E & Hp).
  split; cbn; intros s Hs.
  - rewrite E. apply elem_of_app. auto.
  - rewrite E in Hs. apply elem_of_app in Hs as [Hs|Hs]; [|auto]. right; left.
    eapply Forall_forall in Hp; [|exact Hs]. cbn in Hp. unfold una_test in Hp. lia.
Qed.

Lemma buf_shrinks_more k k1 k' h :
  buf_shrinks k k1 h ->
  (forall s, s ∈ snd_buf k' -> s ∈ snd_buf k1) ->
  (forall s, s ∈ snd_buf k1 -> s ∈ snd_buf k' \/ (h_cmd h = IKCP_CMD_ACK /\ seg_sn s = h_sn h)) ->
  buf_shrinks k k' h.
Proof.
  intros [Hs Hg] H1 H2. split; [auto|]. intros s Hin. destruct (Hg s Hin) as [H|H]; [|auto].
  destruct (H2 s H); auto.
Qed.

Lemma input_ack_buf k l h :
  let k' := (input_ack k l h).1 in
  (forall s, s ∈ snd_buf k' -> s ∈ snd_buf k) /\
  (forall s, s ∈ snd_buf k -> s ∈ snd_buf k' \/ seg_sn s = h_sn h).
Proof.
  cbv zeta. unfold input_ack. cbn [fst].
  match goal with |- context [ikcp_parse_ack ?K _] =>
    assert (E0 : snd_buf K = snd_buf k)
      by (case_match; [destruct (update_ack_eq k (_itimediff (current k) (h_ts h))) as (a & b & ->)|];
          reflexivity); generalize dependent K end.
  intros k0 E0. match goal with |- context [log_if ?K ?a ?b] =>
    destruct (log_if_eq K a b) as (t & -> & _) end. rewrite shrink_buf_eq. cbn. rewrite <- E0.
  destruct (parse_ack_eq k0 (h_sn h)) as [-> | (l1 & s0 & l2 & n & -> & Hs & -> & _)]; [auto|].
  cbn. split; intros s Hin; apply elem_of_app in Hin as [Hin|Hin]; rewrite ?elem_of_app; auto.
  - right. right. exact Hin.
  - apply elem_of_cons in Hin as [-> |]; auto.
Qed.

Section InputFrame.
Context {A : Alloc}.

Lemma dispatch_effect k l cv h data k' l' :
  ack_wf k -> input_dispatch k l cv h data = Ret (k', l') ->
  input_frame k k' /\ buf_shrinks k k' h.
Proof.
  intros Ha E. unfold input_dispatch in E. cbv zeta in E.
  change (ikcp_shrink_buf (ikcp_parse_una (k <| rmt_wnd := h_wnd h |>) (h_una h)))
    with (input_una k h) in E.
  pose proof (snd_touch_input_una k h) as Ht. pose proof (buf_shrinks_una k h) as Hb.
  assert (Ha1 : ack_wf (input_una k h)) by (red in Ht; rewrite Ht; clear -Ha; wf_frame).
  assert (Hlog : forall k1 a b, snd_touch k k1 -> snd_buf k1 = snd_buf (input_una k h) ->
    input_frame k (log_if k1 a b) /\ buf_shrinks k (log_if k1 a b) h).
  { intros k1 a b H1 H2. split.
    - apply snd_touch_frame. eapply snd_touch_trans; [exact H1 | apply snd_touch_log].
    - destruct (log_if_eq k1 a b) as (t & -> & _).
      eapply buf_shrinks_more; [exact Hb|..]; cbn; rewrite H2; auto. }
  destruct (Z.eqb_spec (h_cmd h) IKCP_CMD_ACK) as [Ec|_].
  { apply Ret_inj in E. assert (Ek : k' = (input_ack (input_una k h) l h).1) by (rewrite E; reflexivity).
    rewrite Ek. split.
    - apply snd_touch_frame. eapply snd_touch_trans; [exact Ht | apply snd_touch_input_ack].
    - destruct (input_ack_buf (input_una k h) l h) as [H1 H2].
      eapply buf_shrinks_more; [exact Hb | exact H1|]. intros s Hs. destruct (H2 s Hs); auto. }
  destruct (h_cmd h =? IKCP_CMD_PUSH).
  { apply obind_Ret in E as (k1 & E1 & [= <- <-]). apply rcv_touch_push in E1; [|exact Ha1].
    split; [eapply input_frame_trans; [apply snd_touch_frame, Ht | apply rcv_touch_frame, E1]|].
    red in E1. rewrite E1. eapply buf_shrinks_more; [exact Hb|..]; cbn; auto. }
  destruct (h_cmd h =? IKCP_CMD_WASK); injection E as <- _; apply Hlog; try reflexivity; [|exact Ht].
  eapply snd_touch_trans; [exact Ht | reflexivity].
Qed.

Context `{!AllocSized A}.

Lemma input_loop_effect fuel k l data size k' e :
  kcp_wf k -> is_bytes data -> input_loop fuel k l data size = Ret (k', e) ->
  input_frame k k' /\ (forall s, s ∈ snd_buf k' -> s ∈ snd_buf k).
Proof.
  revert k l data size. induction fuel as [|fuel IH]; intros k l data size Hwf Hb E; simpl in E;
    [discriminate|].
  assert (Hr : forall e', Ret (k, e') = Ret (k', e) ->
    input_frame k k' /\ (forall s, s ∈ snd_buf k' -> s ∈ snd_buf k)).
  { intros e' [= <- _]. split; [apply input_frame_refl | auto]. }
  destruct (size <? IKCP_OVERHEAD); [eauto|].
  destruct (ikcp_decode32u data) as [[cv d1]|] eqn:E1; [|discriminate].
  apply decode32_inv in E1 as (_ & Hb1 & _); [|exact Hb].
  destruct (negb (cv =? conv k)); [eauto|].
  destruct (decode_header d1) as [[h d2]|] eqn:E2; [|discriminate].
  apply decode_header_inv in E2 as (Hh & Hb2 & _); [|exact Hb1].
  destruct ((_ <? i32 (h_len h)) || (i32 (h_len h) <? 0)) eqn:E3; [eauto|].
  apply orb_false_iff in E3 as [_ E3]. apply Z.ltb_ge in E3.
  destruct (negb (valid_cmd (h_cmd h))); [eauto|].
  apply obind_Ret in E as ([k1 l1] & E4 & E).
  pose proof (kcp_wf_dispatch _ _ _ _ _ _ _ Hh Hb2 E3 E4 Hwf) as Hwf1.
  apply dispatch_effect in E4 as [Hf [Hs _]]; [|apply Hwf].
  apply IH in E as [Hf' Hs']; [|exact Hwf1|apply Forall_drop, Hb2].
  split; [exact (input_frame_trans _ _ _ Hf Hf')|]. intros s Hin. apply Hs, Hs', Hin.
Qed.

Lemma input_effect k data size r k' :
  kcp_wf k -> (forall d, data = Some d -> is_bytes d) -> ikcp_input k data size = Ret (r, k') ->
  input_frame k k' /\ (segs_fit k -> segs_fit k').
Proof.
  intros Hwf Hb E. unfold ikcp_input in E. cbv zeta in E.
  assert (Hf0 := snd_touch_frame _ _ (snd_touch_log k IKCP_LOG_INPUT IKCP_LOG_INPUT)).
  pose proof (kcp_wf_log _ IKCP_LOG_INPUT IKCP_LOG_INPUT Hwf) as Hwf0.
  assert (Hs0 : snd_buf (log_if k IKCP_LOG_INPUT IKCP_LOG_INPUT) = snd_buf k)
    by (destruct (log_if_eq k IKCP_LOG_INPUT IKCP_LOG_INPUT) as (t & -> & _); reflexivity).
  assert (Hfit : forall k1, input_frame k k1 ->
    (forall s, s ∈ snd_buf k1 -> exists s0, s0 ∈ snd_buf k /\ seg_fixed s = seg_fixed s0) ->
    segs_fit k -> segs_fit k1).
  { intros k1 Hf Hs [Hq Hk]. split; [red in Hf; rewrite Hf; exact Hq|]. apply Forall_forall.
    intros s Hin. destruct (Hs s Hin) as (s0 & Hin0 & Es). eapply Forall_forall in Hk; [|exact Hin0].
    assert (Em : mss k1 = mss k) by (red in Hf; rewrite Hf; reflexivity). rewrite Em.
    unfold seg_fixed in Es. injection Es. intros. cbn in Hk. lia. }
  assert (Hshort : forall r1, Ret (r1, log_if k IKCP_LOG_INPUT IKCP_LOG_INPUT) = Ret (r, k') ->
    input_frame k k' /\ (segs_fit k -> segs_fit k')).
  { intros r1 [= _ <-]. split; [exact Hf0|]. apply Hfit; [exact Hf0|]. rewrite Hs0. eauto. }
  destruct data as [d|]; [|exact (Hshort _ E)].
  destruct (_ <? IKCP_OVERHEAD); [exact (Hshort _ E)|]. clear Hshort.
  apply obind_Ret in E as ([k1 e] & E1 & E).
  apply input_loop_effect in E1 as [Hf1 Hs1]; [|exact Hwf0|auto]. rewrite Hs0 in Hs1.
  pose proof (input_frame_trans _ _ _ Hf0 Hf1) as Hf.
  destruct e as [l|c]; injection E as _ <-; [|split; [exact Hf|]; apply Hfit; [exact Hf|]; eauto].
  match goal with |- input_frame _ (input_cwnd ?K ?u) /\ _ =>
    assert (H2 : input_frame k1 K /\ map seg_fixed (snd_buf K) = map seg_fixed (snd_buf k1));
    [|generalize dependent K] end.
  { case_match; [|split; [apply input_frame_refl | reflexivity]].
    destruct (fastack_eq k1 (il_maxack l)) as [E E']. split; [|exact E']. red. rewrite E. reflexivity. }
  intros k2 [Hf2 Hs2].
  assert (Hf3 : input_frame k (input_cwnd k2 (snd_una k))).
  { eapply input_frame_trans; [exact (input_frame_trans _ _ _ Hf Hf2)|]. rewrite input_cwnd_eq. reflexivity. }
  split; [exact Hf3|]. apply Hfit; [exact Hf3|]. rewrite input_cwnd_eq. cbn. intros s Hin.
  assert (H' : seg_fixed s ∈ map seg_fixed (snd_buf k1)) by (rewrite <- Hs2; apply list_elem_of_fmap_2, Hin).
  apply list_elem_of_fmap in H' as (s0 & Es & Hin0). eauto.
Qed.
End InputFrame.

(** ** Calls *)

(** A call of the exported interface on a block. *)
Inductive kop :=
| OpSend (buffer : option (list Z)) (len : Z)
| OpRecv (copy : bool) (len : Z)
| OpInput (data : list Z) (size : Z)
| OpUpdate (now : Z)
| OpFlush
| OpSetoutput
| OpSetmtu (m : Z)
| OpInterval (iv : Z)
| OpNodelay (nd iv resend nc : Z)
| OpWndsize (sw rw : Z).

Section Calls.
Context {A : Alloc}.

Definition run_op (k : ikcpcb) (op : kop) : outcome ikcpcb :=
  match op with
  | OpSend b n => let! (_, k') := ikcp_send k b n in Ret k'
  | OpRecv c n => let! (_, _, k') := ikcp_recv k c n in Ret k'
  | OpInput d n => let! (_, k') := ikcp_input k (Some d) n in Ret k'
  | OpUpdate now => ikcp_update k now
  | OpFlush => ikcp_flush k
  | OpSetoutput => Ret (ikcp_setoutput k true)
  | OpSetmtu m => Ret (ikcp_setmtu k m).2
  | OpInterval iv => Ret (ikcp_interval k iv).2
  | OpNodelay nd iv rs nc => Ret (ikcp_nodelay k nd iv rs nc).2
  | OpWndsize sw rw => Ret (ikcp_wndsize k sw rw).2
  end.

(** What the caller owes: [int] arguments in range, buffers as long as it
    says, an output callback before the first flush, an MTU that is not
    lowered under queued segments and not so large that the size of the
    buffer wraps, and fewer than 2^27 unsent acknowledgements. *)
Definition op_ok (k : ikcpcb) (op : kop) : Prop :=
  match op with
  | OpSend b n => is_i32 n /\ buffer_ok b n
  | OpRecv _ n => is_i32 n
  | OpInput d n => is_bytes d /\ is_i32 n /\ n <= lenZ d /\ 24 * ackcount k + n < 3221225472
  | OpUpdate now => is_u32 now /\ output k = true
  | OpFlush => output k = true
  | OpSetoutput => True
  | OpSetmtu m =>
      m <= 1431655741 /\ (mtu k <= m \/ (snd_queue k = [] /\ snd_buf k = []))
  | OpInterval _ => True
  | OpNodelay _ _ _ _ => True
  | OpWndsize sw rw => is_i32 sw /\ is_i32 rw
  end.
End Calls.

(** The calls that ask for memory and do not look at the answer, or only assert it. *)
Definition allocates (op : kop) : bool :=
  match op with OpSend _ _ | OpInput _ _ => true | _ => false end.

(** The blocks calls can lead to.  The answers of the allocator may change from
    call to call. *)
Inductive reachable : ikcpcb -> Prop :=
| ReachNew (A : Alloc) c u k : is_u32 c -> ikcp_create c u = Some k -> reachable k
| ReachCall (A : Alloc) k op k' :
    AllocSized A -> reachable k -> op_ok k op -> run_op k op = Ret k' -> reachable k'.

Lemma recv_fit k copy len r : recv_result k copy len r -> segs_fit k -> segs_fit r.2.
Proof. intros H Hf. destruct H; exact Hf. Qed.

Lemma fit_frame k k' :
  mss k' = mss k -> snd_queue k' = snd_queue k -> snd_buf k' = snd_buf k ->
  segs_fit k -> segs_fit k'.
Proof. unfold segs_fit. intros -> -> ->. auto. Qed.

(** Every call that meets its obligations returns a well-formed block, or was
    refused memory. *)
Lemma run_op_spec {A : Alloc} `{!AllocSized A} k op :
  kcp_wf k -> segs_fit k -> op_ok k op ->
  (allocates op = true /\ out_of_memory (run_op k op)) \/
  exists k', run_op k op = Ret k' /\ kcp_wf k' /\ segs_fit k'.
Proof.
  intros Hwf Hf Hok. destruct op as [b n|c n|d n|now| | |m|iv|nd iv rs nc|sw rw];
    cbn [op_ok] in Hok; cbn [run_op].
  - destruct Hok as [Hi Hb].
    destruct (ikcp_send_result k b n Hwf Hf Hi Hb) as [Ho|([r k'] & -> & _ & Hk)];
      [left; split; [reflexivity | apply oom_bind, Ho]|].
    right. exists k'. auto.
  - right. destruct (ikcp_recv_result k c n Hwf Hok) as ([[r o] k'] & -> & Hr & Hwf').
    exists k'. split; [reflexivity|]. split; [exact Hwf'|]. exact (recv_fit _ _ _ _ Hr Hf).
  - destruct Hok as (Hb & Hi & Hl & Ha).
    destruct (input_total k d n Hwf Hb Hi Hl Ha) as [Ho|(r & k' & E)];
      [left; split; [reflexivity | apply oom_bind, Ho]|].
    right. exists k'. rewrite E.
    assert (Hd : forall d0, Some d = Some d0 -> is_bytes d0) by (intros d0 [= <-]; exact Hb).
    split; [reflexivity|]. split; [exact (kcp_wf_input _ _ _ _ _ Hd E Hwf)|].
    exact (proj2 (input_effect _ _ _ _ _ Hwf Hd E) Hf).
  - right. destruct Hok as [Hn Ho]. destruct (update_spec k now Hwf Hf Ho Hn) as (k' & -> & H1 & H2 & _).
    eauto.
  - right. destruct (Z.eqb_spec (updated k) 0) as [E|E].
    + exists k. unfold ikcp_flush. rewrite E. auto.
    + destruct (ikcp_flush_spec k Hwf Hf Hok E) as (k' & t & mv & -> & Hr).
      exists k'. split; [reflexivity|]. split; apply Hr.
  - right. eexists. split; [reflexivity|]. split; [|exact Hf]. destruct Hwf. constructor; wf_frame.
  - right. destruct Hok as [Hm Hs]. eexists. split; [reflexivity|]. split; [apply setmtu_wf; assumption|].
    destruct Hs as [Hs|[H1 H2]]; [apply setmtu_fit; assumption|].
    destruct (setmtu_result k m) as [[E Hr]|E]; [|rewrite E; exact Hf].
    destruct (ikcp_setmtu k m) as [r k'] eqn:Es. cbn in E. subst r.
    apply setmtu_ok in Es as ->; [|lia]. split; cbn; rewrite ?H1, ?H2; constructor.
  - right. eexists. split; [reflexivity|]. split; [apply interval_wf, Hwf | exact Hf].
  - right. eexists. split; [reflexivity|]. split; [apply nodelay_wf, Hwf|].
    destruct (nodelay_eq k nd iv rs nc) as (E & _). apply (fit_frame k); try exact Hf; rewrite E; reflexivity.
  - right. destruct Hok as [Hs Hr]. eexists. split; [reflexivity|]. split; [apply wndsize_wf; assumption|].
    unfold ikcp_wndsize. cbn [snd]. destruct (0 <? sw), (0 <? rw); exact Hf.
Qed.

Lemma reachable_wf k : reachable k -> kcp_wf k /\ segs_fit k.
Proof.
  induction 1 as [A c u k Hc E|A k op k' HA _ [Hwf Hf] Hok E].
  - exact (create_wf _ _ _ Hc E).
  - destruct (run_op_spec k op Hwf Hf Hok) as [[_ Ho]|(k1 & E1 & Hk)]; rewrite E in *; [destruct (oom_Ret _ Ho)|].
    apply Ret_inj in E1 as <-. exact Hk.
Qed.
