(* ===== verification/KcpLink.v ===== *)
(** * KCP: a datagram of one endpoint read by the other

    [ikcp_input] on a datagram that [ikcp_flush] built takes the segments of
    the datagram one by one.  For one direction of a conversation, the log of
    the segments numbered so far relates the sender to the receiver; the lemmas
    say what each operation does to that relation. *)

From S2P Require Import Prelude KcpWire KcpSeq KcpState KcpSend KcpRecv KcpInput.
From S2P Require Import KcpFlush KcpInv KcpFlushInv KcpOps.

Local Open Scope Z_scope.

(** A field that a frame equation leaves alone. *)
Ltac frame E := rewrite E; reflexivity.

(** ** Reading a datagram segment by segment *)

(** The payload on the wire. *)
Definition payload (s : IKCPSEG) : list Z := take (Z.to_nat (seg_len s)) (seg_data s).

(** A segment that [ikcp_input] of conversation [c] accepts. *)
Record wire_ok (c : Z) (s : IKCPSEG) : Prop := {
  wo_conv : seg_conv s = c;
  wo_u32 : seg_u32 s;
  wo_cmd : valid_cmd (seg_cmd s) = true;
  wo_frg : is_u8 (seg_frg s);
  wo_len : lenZ (payload s) = seg_len s;
  wo_small : seg_len s < 2147483648;
  wo_bytes : is_bytes (payload s) }.

Lemma valid_cmd_u8 c : valid_cmd c = true -> is_u8 c.
Proof.
  unfold valid_cmd, IKCP_CMD_PUSH, IKCP_CMD_ACK, IKCP_CMD_WASK, IKCP_CMD_WINS.
  intros H. repeat (apply orb_true_iff in H as [H|H]); apply Z.eqb_eq in H; rlia.
Qed.

Lemma u8_id z : is_u8 z -> u8 z = z.
Proof. intros H. apply Z.mod_small, H. Qed.

(** The header as it is read back. *)
Lemma wire_ok_header c s :
  wire_ok c s ->
  h_cmd (seg_header s) = seg_cmd s /\ h_frg (seg_header s) = seg_frg s /\ header_wf (seg_header s).
Proof.
  intros [_ (_ & Ht & Hs & Hu & Hl) Hc Hf _ _ _]. apply valid_cmd_u8 in Hc. cbn.
  rewrite !u8_id by assumption. split; [reflexivity|]. split; [reflexivity|].
  unfold header_wf. cbn. rewrite !u8_id by assumption. pose proof (u16_range (seg_wnd s)).
  repeat (split; [assumption|]). assumption.
Qed.

Lemma wire_cons s segs : wire (s :: segs) = ikcp_encode_seg [] s ++ payload s ++ wire segs.
Proof. unfold wire. cbn. unfold seg_wire. rewrite <- app_assoc. reflexivity. Qed.

Lemma wire_bytes c segs : Forall (wire_ok c) segs -> is_bytes (wire segs).
Proof.
  induction 1 as [|s segs Hs Hl IH]; [constructor|]. rewrite wire_cons.
  apply Forall_app. split; [apply ikcp_encode_seg_bytes|].
  apply Forall_app. split; [apply Hs | exact IH].
Qed.

Section Read.
Context {A : Alloc}.

(** What holds of the block and is kept by every segment holds at the end. *)
Lemma input_loop_wire (P : ikcpcb -> Prop) c segs fuel k l k' e :
  (forall k, P k -> conv k = c) ->
  (forall k l s rest k' l', s ∈ segs -> is_bytes rest -> P k ->
     input_dispatch k l c (seg_header s) (payload s ++ rest) = Ret (k', l') -> P k') ->
  Forall (wire_ok c) segs -> P k ->
  input_loop fuel k l (wire segs) (lenZ (wire segs)) = Ret (k', e) -> P k'.
Proof.
  intros Hcv Hstep Hok. revert fuel k l. induction Hok as [|s segs Hs Hok IH];
    intros fuel k l Hk E; (destruct fuel as [|fuel]; [discriminate|]); cbn [input_loop] in E.
  { injection E as <- _. exact Hk. }
  destruct (lenZ (wire (s :: segs)) <? IKCP_OVERHEAD); [injection E as <- _; exact Hk|].
  rewrite wire_cons in E. pose proof (wo_u32 _ _ Hs) as Hu.
  destruct (decode_encode_seg s (payload s ++ wire segs) Hu) as (d & E1 & E2).
  rewrite E1, E2, (wo_conv _ _ Hs), (Hcv k Hk), Z.eqb_refl in E. cbn [negb] in E.
  destruct (wire_ok_header c s Hs) as (Hc & _ & _). rewrite Hc, (wo_cmd _ _ Hs) in E.
  cbn [h_len seg_header negb] in E.
  destruct (_ || _); [injection E as <- _; exact Hk|].
  apply obind_Ret in E as ([k1 l1] & E3 & E).
  assert (Hk1 : P k1) by (eapply (Hstep k l s); [left | exact (wire_bytes _ _ Hok) | exact Hk | exact E3]).
  pose proof (wo_len _ _ Hs) as Hl.
  assert (Ed : drop (Z.to_nat (seg_len s)) (payload s ++ wire segs) = wire segs).
  { apply drop_app_length'. lia. }
  rewrite Ed in E. eapply IH; [|exact Hk1|].
  - intros k0 l0 s0 rest k0' l0' Hin. apply (Hstep k0 l0 s0). right. exact Hin.
  - rewrite <- E. f_equal. rewrite !length_app, ikcp_encode_seg_length. unfold IKCP_OVERHEAD.
    rewrite !Nat2Z.inj_add, Hl. cbn. lia.
Qed.

(** The whole of [ikcp_input]: the steps after the loop change only the fast
    resend counters and the congestion window. *)
Lemma input_wire (P : ikcpcb -> Prop) c segs k r k' :
  (forall k, P k -> conv k = c) ->
  (forall k l s rest k' l', s ∈ segs -> is_bytes rest -> P k ->
     input_dispatch k l c (seg_header s) (payload s ++ rest) = Ret (k', l') -> P k') ->
  (forall k t, P k -> P (k <| trace := t |>)) ->
  (forall k una, P k -> P (input_cwnd k una)) ->
  (forall k sn, P k -> P (ikcp_parse_fastack k sn)) ->
  Forall (wire_ok c) segs -> P k ->
  ikcp_input k (Some (wire segs)) (lenZ (wire segs)) = Ret (r, k') -> P k'.
Proof.
  intros Hcv Hstep Htr Hcw Hfa Hok Hk E. unfold ikcp_input in E. cbv zeta in E.
  assert (Hk0 : P (log_if k IKCP_LOG_INPUT IKCP_LOG_INPUT))
    by (destruct (log_if_eq k IKCP_LOG_INPUT IKCP_LOG_INPUT) as (t & -> & _); apply Htr, Hk).
  destruct (_ <? IKCP_OVERHEAD); [injection E as _ <-; exact Hk0|].
  apply obind_Ret in E as ([k1 e] & E1 & E).
  assert (Hk1 : P k1) by (eapply input_loop_wire; [exact Hcv | exact Hstep | exact Hok | exact Hk0 | exact E1]).
  destruct e as [l|cd]; injection E as _ <-; [|exact Hk1].
  apply Hcw. destruct (negb _); [apply Hfa|]; exact Hk1.
Qed.
End Read.

(** ** The receiving end of a direction *)

(** What a segment carries for the application. *)
Definition pay (s : IKCPSEG) : Z * list Z := (seg_frg s, seg_data s).

(** The number [i] has arrived. *)
Definition received (k : ikcpcb) (i : Z) : Prop :=
  0 <= i < rcv_nxt k \/ exists s, s ∈ rcv_buf k /\ seg_sn s = i.

(** [log] lists the segments the peer numbered, from 0 on; [done] what the
    application has read. *)
Record rcv_link (log done : list (Z * list Z)) (k : ikcpcb) : Prop := {
  rl_nxt : rcv_nxt k <= lenZ log;
  rl_buf : forall s, s ∈ rcv_buf k -> log !! Z.to_nat (seg_sn s) = Some (pay s);
  rl_que : take (Z.to_nat (rcv_nxt k)) log = done ++ map pay (rcv_queue k) }.

(** Nothing that has arrived is forgotten. *)
Definition rcv_mono (k k' : ikcpcb) : Prop :=
  rcv_nxt k <= rcv_nxt k' /\ forall i, received k i -> received k' i.

Lemma rcv_mono_refl k : rcv_mono k k.
Proof. split; [lia | auto]. Qed.

Lemma rcv_mono_trans k1 k2 k3 : rcv_mono k1 k2 -> rcv_mono k2 k3 -> rcv_mono k1 k3.
Proof. intros [? H1] [? H2]. split; [lia | auto]. Qed.

Lemma rcv_mono_same k k' : rcv_nxt k' = rcv_nxt k -> rcv_buf k' = rcv_buf k -> rcv_mono k k'.
Proof. unfold rcv_mono, received. intros -> ->. split; [lia | auto]. Qed.

Lemma rcv_link_same log done k k' :
  rcv_nxt k' = rcv_nxt k -> rcv_buf k' = rcv_buf k -> rcv_queue k' = rcv_queue k ->
  rcv_link log done k -> rcv_link log done k'.
Proof. intros E1 E2 E3 []. constructor; rewrite ?E1, ?E2, ?E3; assumption. Qed.

(** More segments numbered by the peer. *)
Lemma rcv_link_log log done k more :
  rcv_link log done k -> is_u32 (rcv_nxt k) -> rcv_link (log ++ more) done k.
Proof.
  intros [H1 H2 H3] Hu. constructor.
  - rewrite length_app. lia.
  - intros s Hs. apply lookup_app_l_Some, H2, Hs.
  - rewrite take_app_le by lia. exact H3.
Qed.

(** A run of consecutive numbers that are all in the log. *)
Lemma contig_log log n moved :
  is_u32 n -> lenZ log < 2147483648 -> n <= lenZ log -> sn_contig n moved ->
  (forall s, s ∈ moved -> log !! Z.to_nat (seg_sn s) = Some (pay s)) ->
  n + lenZ moved <= lenZ log /\
  take (Z.to_nat (n + lenZ moved)) log = take (Z.to_nat n) log ++ map pay moved /\
  (forall s, s ∈ moved -> n <= seg_sn s < n + lenZ moved).
Proof.
  revert n. induction moved as [|s moved IH]; intros n Hn Hlog Hle Hc Hin.
  { cbn. rewrite Z.add_0_r, app_nil_r. split; [exact Hle|]. split; [reflexivity|]. intros s H. inv H. }
  cbn in Hc. destruct Hc as [Es Hc].
  pose proof (Hin s ltac:(left)) as Hs. rewrite Es in Hs.
  assert (Hlt : n < lenZ log) by (apply lookup_lt_Some in Hs; rlia).
  rewrite u32_id in Hc by rlia.
  destruct (IH (n + 1)) as (H1 & H2 & H3); [rlia | exact Hlog | lia | exact Hc | intros x Hx; apply Hin; right; exact Hx |].
  cbn [length map]. rewrite Nat2Z.inj_succ.
  split; [lia|]. split.
  - replace (n + Z.succ (lenZ moved)) with (n + 1 + lenZ moved) by lia. rewrite H2.
    replace (Z.to_nat (n + 1)) with (S (Z.to_nat n)) by rlia.
    rewrite (take_S_r _ _ _ Hs), <- app_assoc. reflexivity.
  - intros x Hx. apply elem_of_cons in Hx as [-> |Hx]; [lia|]. apply H3 in Hx. lia.
Qed.

(** The move loop. *)
Lemma move_rcv_link log done k moved rest :
  rcv_wf k -> lenZ log < 2147483648 -> rcv_buf k = moved ++ rest -> sn_contig (rcv_nxt k) moved ->
  rcv_link log done k ->
  rcv_link log done (moved_rcv k moved rest) /\ rcv_mono k (moved_rcv k moved rest).
Proof.
  intros Hwf Hlog E Hc [H1 H2 H3]. pose proof (wf_rcv_nxt _ Hwf) as Hu.
  destruct (contig_log log (rcv_nxt k) moved) as (Hn & Ht & Hr); try assumption.
  { intros s Hs. apply H2. rewrite E. apply elem_of_app. auto. }
  assert (En : u32 (rcv_nxt k + lenZ moved) = rcv_nxt k + lenZ moved) by (apply u32_id; rlia).
  split; [constructor; cbn; rewrite ?En|].
  - lia.
  - intros s Hs. apply H2. rewrite E. apply elem_of_app. auto.
  - rewrite Ht, H3, map_app, app_assoc. reflexivity.
  - split; cbn; rewrite ?En; [lia|]. intros i [Hi|(s & Hs & Ei)]; unfold received; cbn; rewrite En.
    + left. lia.
    + rewrite E in Hs. apply elem_of_app in Hs as [Hs|Hs]; [|right; eauto]. left.
      apply Hr in Hs. rlia.
Qed.

Lemma move_rcv_same log done k :
  rcv_wf k -> is_u32 (rcv_wnd k) -> lenZ log < 2147483648 -> rcv_link log done k ->
  rcv_link log done (move_rcv k) /\ rcv_mono k (move_rcv k).
Proof.
  intros Hwf Hw Hlog Hl. destruct (move_rcv_spec k Hwf Hw) as (m & r & E & Hc & -> & _ & _).
  apply move_rcv_link; assumption.
Qed.

(** A data segment of the log arrives: it is kept, or it was there. *)
Lemma parse_data_link log done k s :
  rcv_wf k -> is_u32 (rcv_wnd k) -> is_u32 (seg_sn s) -> seg_payload s ->
  lenZ log + rcv_wnd k < 2147483648 -> log !! Z.to_nat (seg_sn s) = Some (pay s) ->
  rcv_link log done k ->
  let k' := ikcp_parse_data k s in
  rcv_link log done k' /\ rcv_mono k k' /\
  (seg_sn s < rcv_nxt k + rcv_wnd k -> received k' (seg_sn s)).
Proof.
  intros Hwf Hw Hs Hp Hlog Hlk Hl. cbv zeta. unfold ikcp_parse_data.
  pose proof (rl_nxt _ _ _ Hl) as Hn. pose proof (wf_rcv_nxt _ Hwf) as Hu.
  assert (Hlt : seg_sn s < lenZ log) by (apply lookup_lt_Some in Hlk; rlia).
  rewrite itimediff_u32_r, !itimediff_small by rlia.
  destruct (Z.leb_spec 0 (seg_sn s - (rcv_nxt k + rcv_wnd k))) as [Hge|Hlt1].
  { split; [exact Hl|]. split; [apply rcv_mono_refl | lia]. }
  cbn [orb]. destruct (Z.ltb_spec (seg_sn s - rcv_nxt k) 0) as [Hold|Hnew].
  { split; [exact Hl|]. split; [apply rcv_mono_refl|]. intros _. left. rlia. }
  assert (Ho : 0 <= off (rcv_nxt k) s < 2147483648).
  { unfold off. rewrite itimediff_small by rlia. rlia. }
  pose proof (insert_rcv_buf_wf k s Hwf Hs Hp Ho) as Hwf1.
  assert (H : rcv_link log done (insert_rcv_buf k s) /\ rcv_mono k (insert_rcv_buf k s) /\
              received (insert_rcv_buf k s) (seg_sn s) /\ rcv_wnd (insert_rcv_buf k s) = rcv_wnd k).
  { destruct (insert_rcv_buf_spec k s Hwf Hs Ho) as [[-> (s' & H1 & H2)]|(l1 & l2 & n & E & -> & _)].
    - split; [exact Hl|]. split; [apply rcv_mono_refl|]. split; [right; eauto | reflexivity].
    - assert (Hel : forall x, x ∈ l1 ++ s :: l2 <-> x = s \/ x ∈ rcv_buf k)
        by (intros x; rewrite E, !elem_of_app, elem_of_cons; tauto).
      split; [|split; [split|split; [|reflexivity]]]; cbn.
      + destruct Hl as [L1 L2 L3]. constructor; cbn; [exact L1 | | exact L3].
        intros x Hx. apply Hel in Hx as [-> |Hx]; [exact Hlk | apply L2, Hx].
      + lia.
      + intros i [Hi|(x & Hx & Ex)]; [left; exact Hi|]. right. exists x. cbn. rewrite Hel. auto.
      + right. exists s. cbn. rewrite Hel. auto. }
  destruct H as (Hl1 & Hm1 & Hr1 & Hw1). rewrite <- Hw1 in Hw.
  destruct (move_rcv_same log done _ Hwf1 Hw) as [Hl2 Hm2]; [rlia | exact Hl1|].
  split; [exact Hl2|]. split; [exact (rcv_mono_trans _ _ _ Hm1 Hm2)|]. intros _. apply Hm2, Hr1.
Qed.

(** ** Segments on the wire *)

(** What is true of every segment an endpoint has sent: data is in its log,
    [una] and acknowledgements tell only what it has received. *)
Record net_seg (c : Z) (log : list (Z * list Z)) (k : ikcpcb) (s : IKCPSEG) : Prop := {
  ns_wire : wire_ok c s;
  ns_data : seg_cmd s = IKCP_CMD_PUSH ->
              log !! Z.to_nat (seg_sn s) = Some (seg_frg s, payload s);
  ns_una : seg_una s <= rcv_nxt k;
  ns_ack : seg_cmd s = IKCP_CMD_ACK -> received k (seg_sn s) }.

Definition net_pkt (c : Z) (log : list (Z * list Z)) (k : ikcpcb) (d : list Z) : Prop :=
  exists segs, d = wire segs /\ Forall (net_seg c log k) segs.

Lemma net_pkt_mono c log more k k' d :
  rcv_mono k k' -> net_pkt c log k d -> net_pkt c (log ++ more) k' d.
Proof.
  intros [Hn Hr] (segs & -> & H). exists segs. split; [reflexivity|].
  eapply Forall_impl; [exact H|]. intros s [H1 H2 H3 H4]. constructor; [exact H1 | | lia | auto].
  intros E. apply lookup_app_l_Some, H2, E.
Qed.

(** Acknowledgements that wait to be sent are for segments that arrived. *)
Definition acks_ok (k : ikcpcb) : Prop :=
  forall e, e ∈ take (Z.to_nat (ackcount k)) (acklist k) -> received k e.1.

Lemma acks_ok_same k k' :
  acklist k' = acklist k -> ackcount k' = ackcount k -> rcv_mono k k' -> acks_ok k -> acks_ok k'.
Proof. intros E1 E2 [_ Hm] H e. rewrite E1, E2. intros He. apply Hm, H, He. Qed.

Lemma acks_push_elem k sn ts e :
  ack_wf k ->
  e ∈ take (Z.to_nat (u32 (ackcount k + 1)))
        (take (Z.to_nat (ackcount k)) (acklist k) ++ [(sn, ts)]) ->
  e.1 = sn \/ e ∈ take (Z.to_nat (ackcount k)) (acklist k).
Proof.
  intros [Hc Hb Hl _] He. rewrite take_ge in He.
  - apply elem_of_app in He as [He|He]; [auto|]. apply list_elem_of_singleton in He as ->. auto.
  - rewrite length_app, length_take, u32_id by rlia. cbn. lia.
Qed.

(** Every number of [log] is still in flight at [kx] or has arrived at [ky]. *)
Definition covered (log : list (Z * list Z)) (kx ky : ikcpcb) : Prop :=
  forall i, 0 <= i < lenZ log -> (exists s, s ∈ snd_buf kx /\ seg_sn s = i) \/ received ky i.

Definition buf_in_log (log : list (Z * list Z)) (k : ikcpcb) : Prop :=
  forall s, s ∈ snd_buf k -> log !! Z.to_nat (seg_sn s) = Some (pay s).

(** ** One segment of a datagram *)
Section Dispatch.
Context {A : Alloc} `{!AllocSized A}.
Variables (c : Z) (logx logy done : list (Z * list Z)) (k0 ky : ikcpcb).
Hypothesis Hrange : lenZ logy + rcv_wnd k0 < 2147483648.
Hypothesis Hrangex : lenZ logx < 2147483648.
Hypothesis Hcv0 : conv k0 = c.
Hypothesis Hrny : is_u32 (rcv_nxt ky) /\ rcv_nxt ky <= lenZ logx.

(** The state of [x] while it reads a datagram of [y]; [k0] is the block the
    datagram found. *)
Record reading (k : ikcpcb) : Prop := {
  rd_wf : kcp_wf k;
  rd_frame : input_frame k0 k;
  rd_buf : forall s, s ∈ snd_buf k -> exists s0, s0 ∈ snd_buf k0 /\ seg_fixed s = seg_fixed s0;
  rd_log : buf_in_log logx k;
  rd_covered : covered logx k ky;
  rd_link : rcv_link logy done k;
  rd_acks : acks_ok k;
  rd_mono : rcv_mono k0 k }.

Lemma reading_conv k : reading k -> conv k = c.
Proof. intros H. pose proof (rd_frame _ H) as E. red in E. rewrite E. exact Hcv0. Qed.

Lemma reading_rcv_wnd k : reading k -> rcv_wnd k = rcv_wnd k0.
Proof. intros H. pose proof (rd_frame _ H) as E. red in E. rewrite E. reflexivity. Qed.

(** The segment that [input_push] hands to [ikcp_parse_data]. *)
Lemma input_seg_pay cv s rest :
  wire_ok c s ->
  let sg := input_seg (seg_block (i32 (seg_len s))) cv (seg_header s)
              (take (Z.to_nat (seg_len s)) (payload s ++ rest)) in
  seg_sn sg = seg_sn s /\ pay sg = (seg_frg s, payload s) /\ seg_payload sg.
Proof.
  intros Hs. pose proof (wire_ok_header c s Hs) as (_ & Hf & Hh).
  destruct Hs as [_ (_ & _ & _ & _ & Hl) _ Hfu Hlen Hsm Hby].
  assert (Ei : i32 (seg_len s) = seg_len s) by (apply i32_id; rlia).
  assert (Et : take (Z.to_nat (seg_len s)) (payload s ++ rest) = payload s)
    by (apply take_app_length'; lia).
  cbv zeta. rewrite Et, Ei. unfold input_seg. cbn [h_len seg_header h_frg h_sn].
  rewrite (u8_id (seg_frg s) Hfu).
  assert (E0 : seg_len s <= 0 -> payload s = [] /\ seg_data (seg_block (seg_len s)) = []).
  { intros Hz. assert (Ez : seg_len s = 0) by rlia. unfold payload. rewrite Ez.
    split; [apply take_0|].
    pose proof (seg_block_len 0 ltac:(lia)). apply nil_length_inv. lia. }
  destruct (Z.ltb_spec 0 (seg_len s)) as [Hp|Hp]; unfold seg_payload, pay; cbn.
  - split; [reflexivity|]. split; [reflexivity|]. split; [lia|]. split; [lia|]. auto.
  - destruct (E0 Hp) as [-> Ed]. rewrite Ed. split; [reflexivity|]. split; [reflexivity|].
    split; [cbn; rlia|]. split; [cbn; lia|]. split; [constructor | exact Hfu].
Qed.

Lemma push_link s k rest k' :
  net_seg c logy ky s -> seg_cmd s = IKCP_CMD_PUSH -> kcp_wf k -> rcv_wnd k = rcv_wnd k0 ->
  rcv_link logy done k -> acks_ok k ->
  input_push k c (seg_header s) (payload s ++ rest) = Ret k' ->
  rcv_link logy done k' /\ acks_ok k' /\ rcv_mono k k'.
Proof.
  intros Hs Hcmd Hwf Hw Hl Ha E. unfold input_push in E. pose proof (ns_wire _ _ _ _ Hs) as Hok.
  destruct (log_if_eq k IKCP_LOG_IN_DATA IKCP_LOG_IN_DATA) as (t & Et & _). rewrite Et in E. clear Et.
  cbn [h_sn h_ts h_len seg_header rcv_nxt rcv_wnd upd set_trace] in E.
  pose proof (ns_data _ _ _ _ Hs Hcmd) as Hlk. pose proof (wf_rcv_nxt _ (wf_rcv _ Hwf)) as Hu.
  pose proof (rl_nxt _ _ _ Hl) as Hn. destruct (wo_u32 _ _ Hok) as (_ & _ & Hsn & _ & Hlu).
  assert (Hlt : seg_sn s < lenZ logy) by (apply lookup_lt_Some in Hlk; rlia).
  pose proof (wf_rcv_wnd _ (wf_cfg _ Hwf)) as Hwr. unfold IKCP_WND_RCV in Hwr.
  rewrite itimediff_u32_r, itimediff_small in E by (rewrite Hw; rlia).
  destruct (Z.ltb_spec (seg_sn s - (rcv_nxt k + rcv_wnd k)) 0) as [Hin|Hin].
  2:{ injection E as <-. split; [apply (rcv_link_same _ _ k); auto|].
      split; [apply (acks_ok_same k); auto; apply rcv_mono_same; reflexivity|].
      apply rcv_mono_same; reflexivity. }
  apply obind_Ret in E as (k1 & E1 & E).
  pose proof (kcp_wf_trace k (trace k ++ t) Hwf) as Hwft.
  assert (Hwf1 : kcp_wf k1) by (eapply kcp_wf_ack_push; [| |exact E1|exact Hwft]; apply Hok).
  apply ack_push_eq in E1 as (b & Ek & _); [|apply Hwf].
  assert (Hl1 : rcv_link logy done k1) by (apply (rcv_link_same _ _ k); rewrite ?Ek; auto).
  assert (Hm1 : rcv_mono k k1) by (apply rcv_mono_same; rewrite Ek; reflexivity).
  assert (Ha1 : forall k2, rcv_mono k1 k2 -> acklist k2 = acklist k1 -> ackcount k2 = ackcount k1 ->
                 received k2 (seg_sn s) -> acks_ok k2).
  { intros k2 Hm2 E2 E3 Hr e. rewrite E2, E3, Ek. cbn. intros He.
    apply acks_push_elem in He as [-> |He]; [exact Hr | | apply Hwf].
    apply Hm2, Hm1, Ha, He. }
  assert (En : rcv_nxt k1 = rcv_nxt k) by (rewrite Ek; reflexivity).
  assert (Ew : rcv_wnd k1 = rcv_wnd k) by (rewrite Ek; reflexivity). clear Ek.
  rewrite En, itimediff_small in E by rlia.
  destruct (Z.leb_spec 0 (seg_sn s - rcv_nxt k)) as [Hge|Hold].
  2:{ injection E as <-. split; [exact Hl1|]. split; [|exact Hm1].
      apply Ha1; try reflexivity; [apply rcv_mono_refl|]. left. rlia. }
  unfold ikcp_segment_new in E. destruct (malloc_ok _); [|discriminate].
  destruct (_ <? seg_len s); [discriminate|]. injection E as <-.
  destruct (input_seg_pay c s rest Hok) as (Esn & Epay & Hpay).
  set (sg := input_seg _ _ _ _) in *. clearbody sg.
  destruct (parse_data_link logy done k1 sg) as (Hl2 & Hm2 & Hr2);
    [apply Hwf1 | rewrite Ew; rlia | rewrite Esn; exact Hsn | exact Hpay
     | rewrite Ew, Hw; exact Hrange | rewrite Esn, Epay; exact Hlk | exact Hl1|].
  pose proof (parse_data_frame k1 sg) as Hf. red in Hf.
  split; [exact Hl2|]. split; [|exact (rcv_mono_trans _ _ _ Hm1 Hm2)].
  apply Ha1; [exact Hm2 | rewrite Hf; reflexivity | rewrite Hf; reflexivity|].
  rewrite Esn in Hr2. apply Hr2. rewrite En, Ew. lia.
Qed.

(** Segments leave [snd_buf] only when the peer has them. *)
Lemma shrinks_covered s k k' :
  net_seg c logy ky s -> buf_in_log logx k -> snd_wf k -> covered logx k ky ->
  buf_shrinks k k' (seg_header s) -> covered logx k' ky.
Proof.
  intros Hs Hlog Hwf Hcov [_ Hg] i Hi. destruct (Hcov i Hi) as [(x & Hx & Ex)|H]; [|auto].
  destruct (Hg x Hx) as [H|[H|[Hc Hsn]]].
  - left. eauto.
  - right. left. pose proof (ns_una _ _ _ _ Hs) as Hu. cbn [h_una seg_header] in H.
    destruct (wo_u32 _ _ (ns_wire _ _ _ _ Hs)) as (_ & _ & _ & Huu & _).
    rewrite Ex, itimediff_small in H by (destruct Hrny; rlia). lia.
  - right. rewrite <- Ex, Hsn. apply (ns_ack _ _ _ _ Hs).
    destruct (wire_ok_header _ _ (ns_wire _ _ _ _ Hs)) as (E & _). rewrite <- E. exact Hc.
Qed.

(** A segment other than data leaves the receiving half alone. *)
Lemma dispatch_rcv_same k l h data k' l' :
  h_cmd h <> IKCP_CMD_PUSH -> input_dispatch k l c h data = Ret (k', l') -> snd_touch k k'.
Proof.
  intros Hne E. unfold input_dispatch in E. cbv zeta in E.
  change (ikcp_shrink_buf (ikcp_parse_una (k <| rmt_wnd := h_wnd h |>) (h_una h)))
    with (input_una k h) in E.
  pose proof (snd_touch_input_una k h) as Ht.
  destruct (h_cmd h =? IKCP_CMD_ACK).
  { apply Ret_inj in E. assert (Ek : k' = (input_ack (input_una k h) l h).1) by (rewrite E; reflexivity).
    rewrite Ek. exact (snd_touch_trans _ _ _ Ht (snd_touch_input_ack _ _ _)). }
  destruct (Z.eqb_spec (h_cmd h) IKCP_CMD_PUSH) as [|_]; [contradiction|].
  destruct (h_cmd h =? IKCP_CMD_WASK); injection E as <- _.
  - assert (H1 : snd_touch (input_una k h)
      ((input_una k h) <| probe := Z.lor (probe (input_una k h)) IKCP_ASK_TELL |>)) by reflexivity.
    exact (snd_touch_trans _ _ _ (snd_touch_trans _ _ _ Ht H1) (snd_touch_log _ _ _)).
  - exact (snd_touch_trans _ _ _ Ht (snd_touch_log _ _ _)).
Qed.

(** A data segment: [una] and the window first, then the push. *)
Lemma dispatch_push_eq k l h data k' l' :
  h_cmd h = IKCP_CMD_PUSH -> input_dispatch k l c h data = Ret (k', l') ->
  input_push (input_una k h) c h data = Ret k'.
Proof.
  intros Hc E. unfold input_dispatch in E. cbv zeta in E. rewrite Hc in E. cbn in E.
  apply obind_Ret in E as (k1 & E1 & [= <- <-]). exact E1.
Qed.

Lemma dispatch_link s k l rest k' l' :
  net_seg c logy ky s -> kcp_wf k -> rcv_wnd k = rcv_wnd k0 ->
  rcv_link logy done k -> acks_ok k ->
  input_dispatch k l c (seg_header s) (payload s ++ rest) = Ret (k', l') ->
  rcv_link logy done k' /\ acks_ok k' /\ rcv_mono k k'.
Proof.
  intros Hs Hwf Hw Hl Ha E. pose proof (ns_wire _ _ _ _ Hs) as Hok.
  destruct (wire_ok_header _ _ Hok) as (Ec & _ & Hh).
  destruct (Z.eq_dec (seg_cmd s) IKCP_CMD_PUSH) as [Ep|Ep].
  - apply dispatch_push_eq in E; [|rewrite Ec; exact Ep].
    pose proof (snd_touch_input_una k (seg_header s)) as Ht.
    assert (Hwf1 : kcp_wf (input_una k (seg_header s)))
      by (apply kcp_wf_shrink, kcp_wf_parse_una, kcp_wf_rmt_wnd; [apply Hh | exact Hwf]).
    generalize dependent (input_una k (seg_header s)). intros k1 E Ht Hwf1. red in Ht.
    assert (Hm : rcv_mono k k1) by (apply rcv_mono_same; rewrite Ht; reflexivity).
    apply (push_link s) in E as (H1 & H2 & H3); try assumption.
    + split; [exact H1|]. split; [exact H2|]. exact (rcv_mono_trans _ _ _ Hm H3).
    + rewrite Ht. exact Hw.
    + apply (rcv_link_same _ _ k); [frame Ht.. | exact Hl].
    + apply (acks_ok_same k); [frame Ht | frame Ht | exact Hm | exact Ha].
  - apply dispatch_rcv_same in E; [|rewrite Ec; exact Ep]. red in E.
    assert (Hm : rcv_mono k k') by (apply rcv_mono_same; rewrite E; reflexivity).
    split; [apply (rcv_link_same _ _ k); [frame E.. | exact Hl]|]. split; [|exact Hm].
    apply (acks_ok_same k); [frame E | frame E | exact Hm | exact Ha].
Qed.

Lemma reading_dispatch s k l rest k' l' :
  net_seg c logy ky s -> is_bytes rest -> reading k ->
  input_dispatch k l c (seg_header s) (payload s ++ rest) = Ret (k', l') -> reading k'.
Proof.
  intros Hs Hb Hr E. pose proof (reading_rcv_wnd k Hr) as Hw.
  destruct Hr as [Hwf Hf Hbuf Hlog Hcov Hl Ha Hm].
  pose proof (ns_wire _ _ _ _ Hs) as Hok. destruct (wire_ok_header _ _ Hok) as (_ & _ & Hh).
  destruct (dispatch_link s k l rest k' l') as (H1 & H2 & H3); try assumption.
  destruct (dispatch_effect k l c _ _ k' l' (wf_ack _ Hwf) E) as [Hf' Hsh].
  constructor; try assumption.
  - eapply kcp_wf_dispatch; [exact Hh | | | exact E | exact Hwf].
    + apply Forall_app. split; [apply Hok | exact Hb].
    + cbn. destruct Hok as [_ (_ & _ & _ & _ & ?) _ _ _ ? _]. rewrite i32_id; rlia.
  - exact (input_frame_trans _ _ _ Hf Hf').
  - intros x Hx. apply Hbuf, (bs_sub _ _ _ Hsh), Hx.
  - intros x Hx. apply Hlog, (bs_sub _ _ _ Hsh), Hx.
  - apply (shrinks_covered s k); try assumption. apply Hwf.
  - exact (rcv_mono_trans _ _ _ Hm H3).
Qed.

(** Changes outside the two halves. *)
Lemma reading_outside k k' :
  reading k -> kcp_wf k' -> input_frame k k' ->
  map seg_fixed (snd_buf k') = map seg_fixed (snd_buf k) ->
  rcv_nxt k' = rcv_nxt k -> rcv_buf k' = rcv_buf k -> rcv_queue k' = rcv_queue k ->
  acklist k' = acklist k -> ackcount k' = ackcount k -> reading k'.
Proof.
  intros [Hwf Hf Hbuf Hlog Hcov Hl Ha Hm] Hwf' Hf' Es E1 E2 E3 E4 E5.
  assert (Hm' : rcv_mono k k') by (apply rcv_mono_same; assumption).
  assert (Hel : forall l l' s, map seg_fixed l = map seg_fixed l' -> s ∈ l ->
            exists s0, s0 ∈ l' /\ seg_fixed s = seg_fixed s0).
  { intros l l' s E Hs. assert (H' : seg_fixed s ∈ map seg_fixed l')
      by (rewrite <- E; apply list_elem_of_fmap_2, Hs).
    apply list_elem_of_fmap in H' as (s0 & ? & ?). eauto. }
  constructor.
  - exact Hwf'.
  - exact (input_frame_trans _ _ _ Hf Hf').
  - intros s Hs. destruct (Hel _ _ s Es Hs) as (s1 & H1 & Ea).
    destruct (Hbuf s1 H1) as (s0 & H0 & Eb). exists s0. split; [exact H0 | congruence].
  - intros s Hs. destruct (Hel _ _ s Es Hs) as (s1 & H1 & Ea). injection Ea. intros.
    unfold pay. replace (seg_sn s) with (seg_sn s1) by congruence.
    rewrite (Hlog s1 H1). unfold pay. congruence.
  - intros i Hi. destruct (Hcov i Hi) as [(s & Hs & Ei)|H]; [left | right; exact H].
    destruct (Hel _ _ s (eq_sym Es) Hs) as (s1 & H1 & Ea). exists s1. split; [exact H1|].
    injection Ea. intros. congruence.
  - exact (rcv_link_same _ _ k k' E1 E2 E3 Hl).
  - exact (acks_ok_same k k' E4 E5 Hm' Ha).
  - exact (rcv_mono_trans _ _ _ Hm Hm').
Qed.

Lemma reading_input d r k' :
  net_pkt c logy ky d -> reading k0 -> ikcp_input k0 (Some d) (lenZ d) = Ret (r, k') -> reading k'.
Proof.
  intros (segs & -> & Hs) H0 E.
  eapply (input_wire reading c segs k0); [..|exact H0|exact E].
  - exact reading_conv.
  - intros k l s rest k1 l1 Hin Hb Hk E1. eapply Forall_forall in Hs; [|exact Hin].
    eapply reading_dispatch; [exact Hs | exact Hb | exact Hk | exact E1].
  - intros k t Hk. eapply reading_outside; [exact Hk | apply kcp_wf_trace, Hk | reflexivity..].
  - intros k una Hk. pose proof (input_cwnd_eq k una) as Ec.
    eapply reading_outside; [exact Hk | apply kcp_wf_input_cwnd, Hk | red; rewrite Ec; reflexivity
      | frame Ec..].
  - intros k sn Hk. destruct (fastack_eq k sn) as [Ef Es].
    eapply reading_outside; [exact Hk | apply kcp_wf_fastack, Hk | red; rewrite Ef; reflexivity | exact Es
      | frame Ef..].
  - eapply Forall_impl; [exact Hs|]. intros s. apply ns_wire.
Qed.
End Dispatch.
