(* ===== verification/KcpSystem.v ===== *)
(** * KCP: two endpoints over an unreliable network

    Two control blocks of one conversation exchange datagrams.  The network may
    lose, duplicate, delay and reorder datagrams: a step may hand over any
    datagram the peer has ever sent.  Applications send messages, read
    messages and drive the clock in any order.

    The invariant relates each sender to the receiver of its direction through
    the log of the segments numbered so far.  It holds as long as fewer than
    2^31 segments (less the receive window) have been numbered, the range in
    which comparison by [_itimediff] is the order of the numbers. *)

From S2P Require Import Prelude KcpWire KcpSeq KcpState KcpSend KcpRecv KcpInput.
From S2P Require Import KcpFlush KcpInv KcpFlushInv KcpOps KcpLink.

Local Open Scope Z_scope.

(** ** The system *)

(** An endpoint with its history: the segments it has numbered, the datagrams
    it has sent, the messages [ikcp_send] accepted and [ikcp_recv] returned. *)
Record endpoint := mkEP {
  ep_kcb : ikcpcb;
  ep_log : list (Z * list Z);
  ep_out : list (list Z);
  ep_sent : list (list Z);
  ep_got : list (list Z) }.

(** The datagrams among a list of events. *)
Definition outputs (t : list kevent) : list (list Z) :=
  concat (map (fun e => match e with EvOutput d => [d] | EvLog _ => [] end) t).

(** The segments a flush took from [snd_queue]. *)
Definition taken (k k' : ikcpcb) : list IKCPSEG :=
  take (length (snd_queue k) - length (snd_queue k')) (snd_queue k).

Section System.
Context {A : Alloc}.

(** One call at an endpoint whose peer has sent the datagrams [inbox]. *)
Inductive ep_step (inbox : list (list Z)) (x : endpoint) : endpoint -> Prop :=
| StepSend m r k' :
    is_bytes m -> lenZ m < 2147483648 ->
    ikcp_send (ep_kcb x) (Some m) (lenZ m) = Ret (r, k') ->
    ep_step inbox x (mkEP k' (ep_log x) (ep_out x)
      (if r =? 0 then ep_sent x ++ [m] else ep_sent x) (ep_got x))
| StepRecv len r out k' :
    is_i32 len -> ikcp_recv (ep_kcb x) true len = Ret (r, out, k') ->
    ep_step inbox x (mkEP k' (ep_log x) (ep_out x) (ep_sent x)
      (if (0 <=? r) && (0 <=? len) then ep_got x ++ [out] else ep_got x))
| StepInput d r k' :
    d ∈ inbox -> ikcp_input (ep_kcb x) (Some d) (lenZ d) = Ret (r, k') ->
    ep_step inbox x (mkEP k' (ep_log x) (ep_out x) (ep_sent x) (ep_got x))
| StepUpdate now k' :
    is_u32 now -> ikcp_update (ep_kcb x) now = Ret k' ->
    ep_step inbox x (mkEP k' (ep_log x ++ map pay (taken (ep_kcb x) k'))
      (ep_out x ++ outputs (drop (length (trace (ep_kcb x))) (trace k')))
      (ep_sent x) (ep_got x)).

Record fresh (c : Z) (k : ikcpcb) : Prop := {
  fr_wf : kcp_wf k;
  fr_conv : conv k = c;
  fr_output : output k = true;
  fr_stream : stream k = 0;
  fr_nums : snd_nxt k = 0 /\ rcv_nxt k = 0 /\ ackcount k = 0;
  fr_empty : snd_queue k = [] /\ snd_buf k = [] /\ rcv_queue k = [] /\ rcv_buf k = [] }.

Definition new_ep (k : ikcpcb) : endpoint := mkEP k [] [] [] [].

(** The range of numbers in which the theorems hold. *)
Definition in_range (x y : endpoint) : Prop :=
  lenZ (ep_log x) + rcv_wnd (ep_kcb y) < 2147483648 /\
  lenZ (ep_log y) + rcv_wnd (ep_kcb x) < 2147483648.

(** Runs of the system within that range. *)
Inductive sys_reach (c : Z) : endpoint -> endpoint -> Prop :=
| SysNew kx ky : fresh c kx -> fresh c ky -> sys_reach c (new_ep kx) (new_ep ky)
| SysLeft x y x' :
    sys_reach c x y -> ep_step (ep_out y) x x' -> in_range x' y -> sys_reach c x' y
| SysRight x y y' :
    sys_reach c x y -> ep_step (ep_out x) y y' -> in_range x y' -> sys_reach c x y'.

(** ** The invariant *)

(** The fragments of a message: numbered down to 0, their bytes are the message. *)
Definition frag_msg (m : list Z) (fs : list (Z * list Z)) : Prop :=
  exists n, map fst fs = frg_desc (S n) /\ concat (map snd fs) = m.

Record ep_inv (c : Z) (x : endpoint) : Prop := {
  ei_wf : kcp_wf (ep_kcb x);
  ei_fit : segs_fit (ep_kcb x);
  ei_conv : conv (ep_kcb x) = c;
  ei_output : output (ep_kcb x) = true;
  ei_stream : stream (ep_kcb x) = 0;
  ei_nxt : snd_nxt (ep_kcb x) = lenZ (ep_log x);
  ei_buf : buf_in_log (ep_log x) (ep_kcb x);
  ei_acks : acks_ok (ep_kcb x);
  ei_out : Forall (net_pkt c (ep_log x) (ep_kcb x)) (ep_out x) }.

(** The direction from [x] to [y]: [frs] are the fragments of the messages of
    [x], [j] how many messages the application at [y] has read. *)
Record link (frs : list (list (Z * list Z))) (j : nat) (x y : endpoint) : Prop := {
  lk_msgs : Forall2 frag_msg (ep_sent x) frs;
  lk_log : ep_log x ++ map pay (snd_queue (ep_kcb x)) = concat frs;
  lk_covered : covered (ep_log x) (ep_kcb x) (ep_kcb y);
  lk_got : ep_got y = take j (ep_sent x);
  lk_le : (j <= length (ep_sent x))%nat;
  lk_rcv : rcv_link (ep_log x) (concat (take j frs)) (ep_kcb y) }.

Definition linked (x y : endpoint) : Prop := exists frs j, link frs j x y.

Lemma covered_mono log kx ky ky' : rcv_mono ky ky' -> covered log kx ky -> covered log kx ky'.
Proof. intros [_ Hm] H i Hi. destruct (H i Hi); auto. Qed.

Lemma out_mono c log more k k' l :
  rcv_mono k k' -> Forall (net_pkt c log k) l -> Forall (net_pkt c (log ++ more) k') l.
Proof. intros Hm H. eapply Forall_impl; [exact H|]. intros d. apply net_pkt_mono, Hm. Qed.

Lemma out_mono_log c log k k' l :
  rcv_mono k k' -> Forall (net_pkt c log k) l -> Forall (net_pkt c log k') l.
Proof. intros Hm H. rewrite <- (app_nil_r log). exact (out_mono c log [] k k' l Hm H). Qed.

(** A direction seen from its receiver, when only the sender changed, and the converse. *)
Lemma link_rcv_same frs j x y y' :
  rcv_nxt (ep_kcb y') = rcv_nxt (ep_kcb y) -> rcv_buf (ep_kcb y') = rcv_buf (ep_kcb y) ->
  rcv_queue (ep_kcb y') = rcv_queue (ep_kcb y) -> ep_got y' = ep_got y ->
  link frs j x y -> link frs j x y'.
Proof.
  intros E1 E2 E3 E4 [L1 L2 L3 L4 L5 L6]. constructor; try assumption.
  - eapply covered_mono; [|exact L3]. apply rcv_mono_same; assumption.
  - rewrite E4. exact L4.
  - exact (rcv_link_same _ _ _ _ E1 E2 E3 L6).
Qed.

Lemma link_snd_same frs j x x' y :
  snd_queue (ep_kcb x') = snd_queue (ep_kcb x) -> snd_buf (ep_kcb x') = snd_buf (ep_kcb x) ->
  ep_log x' = ep_log x -> ep_sent x' = ep_sent x -> link frs j x y -> link frs j x' y.
Proof.
  intros E1 E2 E3 E4 [L1 L2 L3 L4 L5 L6]. constructor; rewrite ?E1, ?E3, ?E4; try assumption.
  intros i Hi. rewrite E2. exact (L3 i Hi).
Qed.

(** ** Sending a message *)
Context `{!AllocSized A}.

Lemma send_frags_msg k buffer len n segs b :
  stream k = 0 -> buffer = Some b -> (0 < n)%nat -> len = lenZ b ->
  frags_ok k buffer len n segs -> frag_msg b (map pay segs).
Proof.
  intros Hst -> Hn -> [_ _ Hf Hb]. rewrite Hst in Hf. cbn in Hf.
  destruct n as [|n]; [lia|]. exists n. split.
  - rewrite map_map. exact Hf.
  - rewrite map_map. transitivity (msg_bytes segs); [reflexivity|].
    rewrite (Hb b eq_refl). apply take_ge. lia.
Qed.

(** In message mode a send either changes nothing or queues the fragments. *)
Lemma send_msg k m r k' :
  kcp_wf k -> segs_fit k -> stream k = 0 -> is_bytes m -> lenZ m < 2147483648 ->
  ikcp_send k (Some m) (lenZ m) = Ret (r, k') ->
  kcp_wf k' /\ segs_fit k' /\ exists segs n,
    k' = k <| snd_queue := snd_queue k ++ segs |> <| nsnd_que := n |> /\
    ((r <> 0 /\ segs = []) \/ (r = 0 /\ frag_msg m (map pay segs))).
Proof.
  intros Hwf Hf Hst Hb Hm E.
  destruct (ikcp_send_result k (Some m) (lenZ m) Hwf Hf) as [Ho|([r1 k1] & E1 & Hr & Hwf' & Hf')];
    [rlia | split; [exact Hb | lia] | rewrite E in Ho; destruct (oom_Ret _ Ho)|].
  rewrite E in E1. apply Ret_inj in E1. injection E1 as <- <-. cbn in Hwf', Hf'.
  split; [exact Hwf'|]. split; [exact Hf'|]. clear Hwf' Hf' E.
  inv Hr.
  - lia.
  - destruct (H4 Hst) as [-> ->]. exists [], (nsnd_que k). rewrite app_nil_r.
    split; [kcb_eq|]. left. split; [lia | reflexivity].
  - match goal with H : stream k = 0 -> _ |- _ => destruct (H Hst) as [-> ->] end. exists segs, c. split; [reflexivity|]. right. split; [reflexivity|].
    eapply (send_frags_msg k _ _ _ _ m Hst); [| | |eassumption]; [reflexivity | lia | lia].
Qed.

Lemma step_send c x m r k' :
  ep_inv c x -> is_bytes m -> lenZ m < 2147483648 ->
  ikcp_send (ep_kcb x) (Some m) (lenZ m) = Ret (r, k') ->
  let x' := mkEP k' (ep_log x) (ep_out x)
              (if r =? 0 then ep_sent x ++ [m] else ep_sent x) (ep_got x) in
  ep_inv c x' /\ (forall y, linked x y -> linked x' y) /\ (forall y, linked y x -> linked y x').
Proof.
  intros [Hwf Hf Hcv Ho Hst Hn Hb Ha Hp] Hm Hl E. cbv zeta.
  apply send_msg in E as (Hwf' & Hf' & segs & n & Ek & Hr); try assumption.
  split; [|split].
  - constructor; cbn; try assumption; rewrite Ek; try assumption.
    eapply out_mono_log; [|exact Hp]. apply rcv_mono_same; reflexivity.
  - intros y (frs & j & [L1 L2 L3 L4 L5 L6]).
    destruct Hr as [[Hr ->]|[-> Hm']].
    + exists frs, j. destruct (Z.eqb_spec r 0); [contradiction|]. rewrite app_nil_r in Ek.
      constructor; cbn; rewrite ?Ek; assumption.
    + exists (frs ++ [map pay segs]), j. cbn [Z.eqb].
      pose proof (Forall2_length _ _ _ L1) as Hlen.
      constructor; cbn.
      * apply Forall2_app; [exact L1 | constructor; [exact Hm' | constructor]].
      * rewrite Ek. cbn. rewrite map_app, app_assoc, L2, concat_app. cbn. rewrite app_nil_r. reflexivity.
      * rewrite Ek. exact L3.
      * rewrite take_app_le by exact L5. exact L4.
      * rewrite length_app. lia.
      * rewrite take_app_le by lia. exact L6.
  - intros y (frs & j & L). exists frs, j. eapply link_rcv_same; [..|exact L]; cbn; rewrite ?Ek; reflexivity.
Qed.

(** ** Reading a message *)

(** The first message of a queue that starts with its fragments. *)
Lemma split_msg_frags n q fs rest :
  map fst fs = frg_desc (S n) -> map pay q = fs ++ rest ->
  map pay (split_msg q).1 = fs /\ map pay (split_msg q).2 = rest.
Proof.
  revert q fs. induction n as [|n IH]; intros q [|[f d] fs] Hf Hq; try discriminate;
    (destruct q as [|s q]; [discriminate|]); cbn in Hf, Hq; injection Hf as -> Hf;
    injection Hq as Es Ed Hq; cbn; rewrite Es.
  - destruct fs; [|discriminate]. change (Z.of_nat 0 =? 0) with true. cbn.
    unfold pay at 1. rewrite Es, Ed. auto.
  - destruct (Z.eqb_spec (Z.of_nat (S n)) 0); [lia|].
    destruct (IH q fs Hf Hq) as [H1 H2]. destruct (split_msg q) as [a b]. cbn in *.
    unfold pay at 1. rewrite ?Es, ?Ed, H1. auto.
Qed.

Lemma frg_desc_length n : length (frg_desc n) = n.
Proof. induction n; cbn; auto. Qed.

(** A queue long enough for its first message holds all of its fragments. *)
Lemma queue_first_msg q f frs :
  (exists n, map fst f = frg_desc (S n)) -> q <> [] ->
  map pay q `prefix_of` f ++ frs ->
  (forall s q', q = s :: q' -> seg_frg s + 1 <= lenZ q) ->
  map pay (split_msg q).1 = f /\ map pay (split_msg q).2 `prefix_of` frs.
Proof.
  intros [n Hf] Hne [r Hr] Hlen. destruct q as [|s q]; [contradiction|].
  specialize (Hlen s q eq_refl).
  assert (Hfl : length f = S n) by (rewrite <- (length_map fst f), Hf; apply frg_desc_length).
  destruct f as [|[a d] f]; [discriminate|]. cbn in Hf, Hr. injection Hf as -> Hf.
  injection Hr as Es Ed Hr.
  assert (Hpre : f `prefix_of` map pay q).
  { exists (drop (length f) (map pay q)). rewrite <- (take_drop (length f) (map pay q)) at 1. f_equal.
    apply (f_equal (take (length f))) in Hr. rewrite take_app_length in Hr.
    rewrite take_app_le in Hr by (rewrite length_map; cbn in Hfl, Hlen; lia). symmetry. exact Hr. }
  destruct Hpre as [r1 Hr1].
  destruct (split_msg_frags n (s :: q) ((Z.of_nat n, d) :: f) r1) as [H1 H2].
  - cbn. f_equal. exact Hf.
  - cbn. unfold pay at 1. rewrite <- Es, <- Ed, Hr1. reflexivity.
  - split; [exact H1|]. rewrite H2. exists r. rewrite Hr1, <- app_assoc in Hr. apply app_inv_head in Hr.
    exact Hr.
Qed.

Lemma peeksize_enough k s q :
  rcv_wf k -> 0 <= ikcp_peeksize k -> rcv_queue k = s :: q -> seg_frg s + 1 <= lenZ (rcv_queue k).
Proof.
  intros Hwf Hp E. pose proof (wf_nrcv_que _ Hwf) as Hn. pose proof (wf_rque_payload _ Hwf) as Hpay.
  rewrite E in *. inv Hpay. destruct H1 as (_ & _ & _ & Hf).
  unfold ikcp_peeksize in Hp. rewrite E in Hp.
  destruct (Z.eqb_spec (seg_frg s) 0) as [E0|]; [cbn [length]; lia|].
  rewrite u32_id in Hp by rlia. destruct (Z.ltb_spec (nrcv_que k) (seg_frg s + 1)); lia.
Qed.

(** The message at the head of the queue is the next one that was sent. *)
Lemma link_first_msg frs j y x :
  link frs j y x -> rcv_wf (ep_kcb x) -> rcv_queue (ep_kcb x) <> [] ->
  0 <= ikcp_peeksize (ep_kcb x) ->
  let sp := split_msg (rcv_queue (ep_kcb x)) in
  exists m, ep_sent y !! j = Some m /\ msg_bytes sp.1 = m /\
    concat (take (S j) frs) = concat (take j frs) ++ map pay sp.1.
Proof.
  intros [L1 L2 _ _ _ L6] Hwf Hne Hp. cbv zeta.
  assert (Hpre : map pay (rcv_queue (ep_kcb x)) `prefix_of` concat (drop j frs)).
  { pose proof (rl_que _ _ _ L6) as Hq.
    exists (drop (Z.to_nat (rcv_nxt (ep_kcb x))) (ep_log y) ++ map pay (snd_queue (ep_kcb y))).
    apply (app_inv_head (concat (take j frs))). rewrite <- concat_app, take_drop, <- L2.
    rewrite !app_assoc, <- Hq, take_drop. reflexivity. }
  destruct (frs !! j) as [f|] eqn:Ef.
  2:{ apply lookup_ge_None in Ef. rewrite drop_ge in Hpre by exact Ef.
      apply prefix_nil_inv in Hpre. destruct (rcv_queue (ep_kcb x)); [contradiction|discriminate]. }
  destruct (Forall2_lookup_r _ _ _ _ _ L1 Ef) as (m & Em & n & Hfn & Hfm).
  rewrite (drop_S _ _ _ Ef) in Hpre. cbn in Hpre.
  destruct (queue_first_msg (rcv_queue (ep_kcb x)) f (concat (drop (S j) frs))) as [H1 _];
    [exists n; exact Hfn | exact Hne | exact Hpre
     | intros s q E; exact (peeksize_enough _ _ _ Hwf Hp E) |].
  exists m. split; [exact Em|]. split.
  - rewrite <- Hfm, <- H1, map_map. reflexivity.
  - rewrite (take_S_r _ _ _ Ef), concat_app, H1. cbn. rewrite app_nil_r. reflexivity.
Qed.

(** The queue, one message shorter, against the log. *)
Lemma rcv_link_pop log done k t :
  rcv_link log done k ->
  let sp := split_msg (rcv_queue k) in
  rcv_link log (done ++ map pay sp.1)
    (k <| trace := t |> <| rcv_queue := sp.2 |> <| nrcv_que := lenZ sp.2 |>).
Proof.
  intros [L1 L2 L3]. cbv zeta. constructor; cbn; try assumption.
  rewrite L3, <- (split_msg_app (rcv_queue k)) at 1. rewrite map_app, app_assoc. reflexivity.
Qed.

(** What a successful read does to a direction, before the move loop. *)
Lemma link_read frs j y x ispeek t :
  link frs j y x -> rcv_wf (ep_kcb x) -> rcv_queue (ep_kcb x) <> [] ->
  0 <= ikcp_peeksize (ep_kcb x) ->
  let k := ep_kcb x in
  let q := read_queue ispeek (rcv_queue k) in
  let k1 := k <| trace := t |> <| rcv_queue := q |> <| nrcv_que := lenZ q |> in
  let got := if ispeek then ep_got x else ep_got x ++ [msg_bytes (split_msg (rcv_queue k)).1] in
  exists j', got = take j' (ep_sent y) /\ (j' <= length (ep_sent y))%nat /\
    rcv_link (ep_log y) (concat (take j' frs)) k1.
Proof.
  intros L Hwf Hne Hp. cbv zeta. destruct ispeek.
  - exists j. destruct L. split; [assumption|]. split; [assumption|].
    eapply rcv_link_same; [..|eassumption]; reflexivity.
  - destruct (link_first_msg frs j y x L Hwf Hne Hp) as (m & Em & Eb & Ec).
    exists (S j). destruct L as [_ _ _ L4 _ L6]. split; [|split].
    + rewrite L4, Eb, (take_S_r _ _ _ Em). reflexivity.
    + apply lookup_lt_Some in Em. lia.
    + rewrite Ec. apply rcv_link_pop, L6.
Qed.

(** The fields of the sending half and the configuration that a read keeps. *)
Definition snd_half_same (k k' : ikcpcb) : Prop :=
  mss k' = mss k /\ snd_buf k' = snd_buf k /\ snd_queue k' = snd_queue k /\ conv k' = conv k /\
  output k' = output k /\ stream k' = stream k /\ snd_nxt k' = snd_nxt k /\
  acklist k' = acklist k /\ ackcount k' = ackcount k.

(** The window flag aside, a read leaves the block as the move loop made it. *)
Lemma recv_done_link log done k ispeek t moved rest p :
  let q := read_queue ispeek (rcv_queue k) in
  let k1 := k <| trace := trace k ++ t |> <| rcv_queue := q |> <| nrcv_que := lenZ q |> in
  let k' := recv_done k ispeek t moved rest p in
  rcv_link log done (moved_rcv k1 moved rest) /\ rcv_mono k1 (moved_rcv k1 moved rest) ->
  rcv_link log done k' /\ rcv_mono k k'.
Proof.
  cbv zeta. unfold recv_done. cbv zeta.
  set (k1 := k <| trace := _ |> <| rcv_queue := _ |> <| nrcv_que := _ |>).
  assert (Hk : rcv_mono k k1) by (apply rcv_mono_same; reflexivity).
  generalize (moved_rcv k1 moved rest). intros k2 [H1 H2]. split.
  - apply (rcv_link_same _ _ k2); [reflexivity..|exact H1].
  - apply (rcv_mono_trans _ _ _ (rcv_mono_trans _ _ _ Hk H2)). apply rcv_mono_same; reflexivity.
Qed.

(** A failed read changes nothing. *)
Lemma step_nothing c x :
  ep_inv c x ->
  let x' := mkEP (ep_kcb x) (ep_log x) (ep_out x) (ep_sent x) (ep_got x) in
  ep_inv c x' /\ (forall y, linked x y -> linked x' y) /\ (forall y, linked y x -> linked y x').
Proof. destruct x. auto. Qed.

Lemma step_recv c x y len r out k' :
  ep_inv c x -> is_i32 len -> lenZ (ep_log y) < 2147483648 ->
  ikcp_recv (ep_kcb x) true len = Ret (r, out, k') -> linked x y -> linked y x ->
  let x' := mkEP k' (ep_log x) (ep_out x) (ep_sent x)
              (if (0 <=? r) && (0 <=? len) then ep_got x ++ [out] else ep_got x) in
  ep_inv c x' /\ linked x' y /\ linked y x'.
Proof.
  intros Hx Hi Hlog E Lxy Lyx. cbv zeta.
  destruct (ikcp_recv_result (ep_kcb x) true len (ei_wf _ _ Hx) Hi) as ([[r1 o1] k1] & E1 & Hr & Hwf').
  rewrite E in E1. apply Ret_inj in E1. injection E1 as <- <- <-. cbn [snd] in Hwf'.
  destruct (step_nothing c x Hx) as (Hx0 & Lx0 & Ly0).
  assert (Hfail : forall r0, r0 < 0 -> let x' := mkEP (ep_kcb x) (ep_log x) (ep_out x) (ep_sent x)
            (if (0 <=? r0) && (0 <=? len) then ep_got x ++ [[]] else ep_got x) in
            ep_inv c x' /\ linked x' y /\ linked y x').
  { intros r0 H0. destruct (Z.leb_spec 0 r0); [lia|]. cbn [andb]. auto. }
  remember (r, out, k') as res eqn:Er.
  destruct Hr as [Hq|Hq Hp|Hp Hs|t moved rest p Hp Ht Eb Hc]; injection Er as <- <- <-;
    try (apply Hfail; reflexivity). clear Hfail Hx0 Lx0 Ly0 E.
  pose proof (wf_rcv _ (ei_wf _ _ Hx)) as Hrw.
  assert (Hne : rcv_queue (ep_kcb x) <> []).
  { intros E0. unfold ikcp_peeksize in Hp. rewrite E0 in Hp. lia. }
  destruct Lyx as (frs & j & L). pose proof L as [L1 L2 L3 _ _ _].
  destruct (link_read frs j y x (len <? 0) (trace (ep_kcb x) ++ t) L Hrw Hne (proj1 Hp))
    as (j' & Hgot & Hj & Hl1).
  pose proof (rcv_wf_read (ep_kcb x) (len <? 0) t Hrw) as Hrw1. cbv zeta in Hrw1.
  match type of Hrw1 with rcv_wf ?K =>
    destruct (move_rcv_link (ep_log y) (concat (take j' frs)) K moved rest Hrw1 Hlog Eb Hc Hl1)
      as [Hl2 Hm2] end.
  destruct (recv_done_link _ _ _ _ _ _ _ p (conj Hl2 Hm2)) as [Hl3 Hm]. clear Hl2 Hm2.
  assert (Hfr : snd_half_same (ep_kcb x) (recv_done (ep_kcb x) (len <? 0) t moved rest p))
    by (repeat split).
  cbn [snd] in Hwf'. generalize dependent (recv_done (ep_kcb x) (len <? 0) t moved rest p).
  intros k' Hwf' Hl3 Hm (F1 & F2 & F3 & F4 & F5 & F6 & F7 & F8 & F9).
  assert (Hgot' : (if (0 <=? ikcp_peeksize (ep_kcb x)) && (0 <=? len)
      then ep_got x ++ [msg_bytes (split_msg (rcv_queue (ep_kcb x))).1] else ep_got x) = take j' (ep_sent y)).
  { rewrite <- Hgot. destruct (Z.leb_spec 0 (ikcp_peeksize (ep_kcb x))); [|lia]. cbn [andb].
    destruct (Z.leb_spec 0 len), (Z.ltb_spec len 0); try lia; reflexivity. }
  rewrite Hgot'. split; [|split].
  - destruct Hx. constructor; cbn; try assumption.
    + split; rewrite ?F1, ?F2, ?F3; apply ei_fit0.
    + congruence.
    + congruence.
    + congruence.
    + congruence.
    + intros s. rewrite F2. apply ei_buf0.
    + exact (acks_ok_same _ _ F8 F9 Hm ei_acks0).
    + eapply out_mono_log; [exact Hm | assumption].
  - destruct Lxy as (frs' & j0 & L'). exists frs', j0.
    eapply link_snd_same; [exact F3 | exact F2 | reflexivity | reflexivity | exact L'].
  - exists frs, j'. constructor; cbn; try assumption; try reflexivity.
    eapply covered_mono; [exact Hm | exact L3].
Qed.

(** ** Delivering a datagram *)
Lemma step_input c x y d r k' :
  ep_inv c x -> ep_inv c y -> in_range x y -> linked x y -> linked y x -> d ∈ ep_out y ->
  ikcp_input (ep_kcb x) (Some d) (lenZ d) = Ret (r, k') ->
  let x' := mkEP k' (ep_log x) (ep_out x) (ep_sent x) (ep_got x) in
  ep_inv c x' /\ linked x' y /\ linked y x'.
Proof.
  intros Hx Hy [R1 R2] (frs & j & Lxy) (frs' & j' & Lyx) Hin E. cbv zeta.
  pose proof (ei_out _ _ Hy) as Hd. eapply Forall_forall in Hd; [|exact Hin].
  assert (Hwy : 0 <= rcv_wnd (ep_kcb y)).
  { pose proof (wf_rcv_wnd _ (wf_cfg _ (ei_wf _ _ Hy))). unfold IKCP_WND_RCV in *. lia. }
  assert (H0 : reading (ep_log x) (ep_log y) (concat (take j' frs')) (ep_kcb x) (ep_kcb y) (ep_kcb x)).
  { destruct Hx. constructor; try assumption.
    - apply input_frame_refl.
    - eauto.
    - apply Lxy.
    - apply Lyx.
    - apply rcv_mono_refl. }
  assert (Hd' : is_bytes d).
  { destruct Hd as (segs & -> & Hs). apply (wire_bytes c). eapply Forall_impl; [exact Hs|].
    intros s. apply ns_wire. }
  destruct (input_effect (ep_kcb x) (Some d) (lenZ d) r k' (ei_wf _ _ Hx)) as [_ Hfit];
    [intros d0 [= <-]; exact Hd' | exact E|].
  assert (Hny : is_u32 (rcv_nxt (ep_kcb y)) /\ rcv_nxt (ep_kcb y) <= lenZ (ep_log x))
    by (split; [apply Hy | apply (lk_rcv _ _ _ _ Lxy)]).
  apply (reading_input c (ep_log x) (ep_log y) (concat (take j' frs')) (ep_kcb x) (ep_kcb y)) in E;
    [| exact R2 | lia | apply Hx | exact Hny | exact Hd | exact H0].
  destruct E as [Ewf Ef _ Elog Ecov Elink Eack Em]. red in Ef.
  split; [|split].
  - destruct Hx. constructor; cbn; try assumption.
    + exact (Hfit ei_fit0).
    + rewrite Ef. assumption.
    + rewrite Ef. assumption.
    + rewrite Ef. assumption.
    + rewrite Ef. assumption.
    + eapply out_mono_log; [exact Em | assumption].
  - exists frs, j. destruct Lxy. constructor; cbn; try assumption. rewrite Ef. assumption.
  - exists frs', j'. destruct Lyx. constructor; cbn; try assumption.
    eapply covered_mono; [exact Em | assumption].
Qed.

(** ** Flushing *)
Lemma numbered_lookup c base l i :
  is_u32 base ->
  numbered c base l !! i =
  (fun s => (c, IKCP_CMD_PUSH, seg_frg s, u32 (base + Z.of_nat i), seg_len s, seg_data s)) <$> (l !! i).
Proof.
  revert base i. induction l as [|s l IH]; intros base i Hb; [destruct i; reflexivity|].
  destruct i as [|i]; cbn [numbered].
  - cbn. rewrite Z.add_0_r, u32_id by exact Hb. reflexivity.
  - cbn [lookup list_lookup]. rewrite IH by apply u32_range.
    replace (u32 (u32 (base + 1) + Z.of_nat i)) with (u32 (base + Z.of_nat (S i))) by wrap_lia.
    reflexivity.
Qed.

Section Flushed.
Variables (c : Z) (log : list (Z * list Z)) (k : ikcpcb) (t : list kevent) (moved : list IKCPSEG)
  (k' : ikcpcb).
Hypothesis Hwf : kcp_wf k.
Hypothesis Hcv : conv k = c.
Hypothesis Hn : snd_nxt k = lenZ log.
Hypothesis Hbuf : buf_in_log log k.
Hypothesis Hres : flush_result k t moved k'.
Hypothesis Hrange : lenZ (log ++ map pay moved) < 2147483648.

Lemma flushed_taken : taken k k' = moved.
Proof using Hres.
  clear -Hres. unfold taken. rewrite (fl_queue _ _ _ _ Hres), length_app.
  replace (_ + _ - _)%nat with (length moved) by lia. apply take_app_length.
Qed.

Lemma flushed_nxt : snd_nxt k' = lenZ (log ++ map pay moved).
Proof.
  rewrite (fl_nxt _ _ _ _ Hres), Hn. rewrite length_app, length_map, Nat2Z.inj_add in *.
  apply u32_id. rlia.
Qed.

(** A segment in flight after the flush is an old one or a new number. *)
Lemma flushed_elem s :
  s ∈ snd_buf k' ->
  (exists s0, s0 ∈ snd_buf k /\ seg_fixed s = seg_fixed s0) \/
  (exists i s0, moved !! i = Some s0 /\ seg_sn s = lenZ log + Z.of_nat i /\ pay s = pay s0).
Proof.
  intros Hs. assert (H : seg_fixed s ∈ map seg_fixed (snd_buf k')) by (apply list_elem_of_fmap_2, Hs).
  rewrite (fl_buf _ _ _ _ Hres) in H. apply elem_of_app in H as [H|H].
  - left. apply list_elem_of_fmap in H as (s0 & E & H0). eauto.
  - right. apply list_elem_of_lookup in H as [i H]. rewrite numbered_lookup in H by apply Hwf.
    destruct (moved !! i) as [s0|] eqn:E0; [|discriminate]. cbn in H. injection H as _ _ E2 E3 _ E5.
    exists i, s0. split; [exact E0|]. apply lookup_lt_Some in E0.
    rewrite length_app, length_map in Hrange. rewrite <- E3, Hn, u32_id by rlia.
    split; [reflexivity|]. unfold pay. congruence.
Qed.

Lemma flushed_buf : buf_in_log (log ++ map pay moved) k'.
Proof.
  intros s Hs. destruct (flushed_elem s Hs) as [(s0 & H0 & E)|(i & s0 & H0 & Es & Ep)].
  - injection E. intros. apply lookup_app_l_Some.
    replace (seg_sn s) with (seg_sn s0) by congruence. rewrite (Hbuf s0 H0). unfold pay. congruence.
  - rewrite Es, Ep. rewrite lookup_app_r by lia.
    replace (Z.to_nat _ - length log)%nat with i by lia.
    apply (list_lookup_fmap_Some_2 pay). exact H0.
Qed.

Lemma flushed_covered ky : covered log k ky -> covered (log ++ map pay moved) k' ky.
Proof.
  intros Hcov i Hi.
  assert (Hex : forall f, f ∈ map seg_fixed (snd_buf k') -> f.1.1.2 = i ->
            exists s, s ∈ snd_buf k' /\ seg_sn s = i).
  { intros f Hf Ei. apply list_elem_of_fmap in Hf as (s & -> & Hs). exists s. auto. }
  rewrite (fl_buf _ _ _ _ Hres) in Hex.
  destruct (Z.lt_ge_cases i (lenZ log)) as [Hlt|Hge].
  - destruct (Hcov i ltac:(lia)) as [(s & Hs & Es)|H]; [left | right; exact H].
    apply (Hex (seg_fixed s)); [|exact Es]. apply elem_of_app. left. apply list_elem_of_fmap_2, Hs.
  - left. rewrite length_app, length_map in Hi, Hrange.
    destruct (lookup_lt_is_Some_2 moved (Z.to_nat (i - lenZ log))) as [s0 H0]; [lia|].
    eapply Hex.
    + apply elem_of_app. right. apply (list_elem_of_lookup_2 _ (Z.to_nat (i - lenZ log))).
      rewrite numbered_lookup, H0 by apply Hwf. reflexivity.
    + cbn. rewrite Hn, u32_id by rlia. lia.
Qed.

Hypothesis Hacks : acks_ok k.

Lemma flushed_mono : rcv_mono k k'.
Proof.
  pose proof (fl_frame _ _ _ _ Hres) as Hf. red in Hf. apply rcv_mono_same; frame Hf.
Qed.

Lemma flushed_ctl s : ctl_seg k s -> net_seg c (log ++ map pay moved) k' s.
Proof.
  intros (H1 & H2 & H3 & H4 & H5 & H6 & H7 & H8). destruct flushed_mono as [Hm1 Hm2].
  assert (Hp : payload s = []) by (unfold payload; rewrite H3; apply take_0).
  pose proof (wf_conv _ (wf_cfg _ Hwf)) as Hc. pose proof (wf_rcv_nxt _ (wf_rcv _ Hwf)) as Hr.
  constructor.
  - constructor; rewrite ?Hp, ?H3; cbn; try rlia.
    + unfold seg_u32. rewrite H1, H2, H3. split; [exact Hc|]. split; [exact H6|]. split; [exact H5|].
      split; [exact Hr | rlia].
    + destruct H8 as [[-> _]|[-> | ->]]; reflexivity.
    + constructor.
  - intros E. destruct H8 as [[E' _]|[E'|E']]; rewrite E' in E; discriminate.
  - lia.
  - intros E. destruct H8 as [[_ [ts Hts]]|[E'|E']]; [|rewrite E' in E; discriminate..].
    apply Hm2. exact (Hacks _ Hts).
Qed.

Lemma flushed_push s : push_seg k (snd_buf k') s -> net_seg c (log ++ map pay moved) k' s.
Proof.
  intros (H1 & H2 & H3 & s0 & H0 & E). destruct flushed_mono as [Hm1 _].
  pose proof (fl_wf _ _ _ _ Hres) as Hwf'. pose proof (wf_snd _ Hwf') as Hs'.
  pose proof (wf_snd_payload _ Hs') as Hp. eapply Forall_forall in Hp; [|exact H0].
  pose proof (wf_snd_sent _ Hs') as Hse. eapply Forall_forall in Hse; [|exact H0].
  pose proof (sn_sorted_Forall _ _ _ _ (wf_snd_sorted _ Hs')) as Hso.
  eapply Forall_forall in Hso; [|exact H0]. destruct Hso as [Hsn _].
  pose proof (flushed_buf s0 H0) as Hlk.
  assert (Hcv' : conv k' = c).
  { pose proof (fl_frame _ _ _ _ Hres) as Hf. red in Hf. rewrite Hf. exact Hcv. }
  destruct Hp as (P1 & P2 & P3 & P4). destruct Hse as (S1 & S2 & _). rewrite Hcv' in S1.
  unfold seg_fixed in E. injection E as E1 E2 E3 E4 E5 E6.
  assert (Hpl : payload s = seg_data s0).
  { unfold payload. rewrite E5, E6, P1. apply take_ge. lia. }
  pose proof (wf_conv _ (wf_cfg _ Hwf')) as Hc. rewrite Hcv' in Hc.
  pose proof (wf_rcv_nxt _ (wf_rcv _ Hwf)) as Hr.
  constructor.
  - constructor; rewrite ?Hpl.
    + congruence.
    + unfold seg_u32. rewrite E1, E4, E5, H1, S1. split; [exact Hc|]. split; [exact H2|].
      split; [exact Hsn|]. split; [exact Hr | rlia].
    + rewrite E2, S2. reflexivity.
    + rewrite E3. exact P4.
    + lia.
    + lia.
    + exact P3.
  - intros _. rewrite E4, Hlk, Hpl. unfold pay. congruence.
  - lia.
  - intros Ea. rewrite E2, S2 in Ea. discriminate.
Qed.

Lemma flushed_pkt d : good_pkt k (snd_buf k') d -> net_pkt c (log ++ map pay moved) k' d.
Proof.
  intros (segs & -> & Hs). exists segs. split; [reflexivity|].
  eapply Forall_impl; [exact Hs|]. intros s [Hc|Hp]; [apply flushed_ctl, Hc | apply flushed_push, Hp].
Qed.

Lemma flushed_out : Forall (net_pkt c (log ++ map pay moved) k') (outputs t).
Proof.
  pose proof flushed_pkt as Hp. pose proof (fl_events _ _ _ _ Hres) as He. unfold outputs.
  revert Hp He. generalize (snd_buf k'). intros b Hp He. clear - Hp He.
  induction He as [|e l H Hl IH]; cbn; [constructor|].
  apply Forall_app. split; [|exact IH]. destruct e as [d|m]; [|constructor].
  apply Forall_singleton, Hp, H.
Qed.
End Flushed.

Lemma step_update c x y now k' :
  ep_inv c x -> is_u32 now -> ikcp_update (ep_kcb x) now = Ret k' ->
  linked x y -> linked y x ->
  let x' := mkEP k' (ep_log x ++ map pay (taken (ep_kcb x) k'))
              (ep_out x ++ outputs (drop (length (trace (ep_kcb x))) (trace k')))
              (ep_sent x) (ep_got x) in
  lenZ (ep_log x') < 2147483648 -> is_u32 (rcv_nxt (ep_kcb y)) ->
  ep_inv c x' /\ linked x' y /\ linked y x'.
Proof.
  intros Hx Hn E (frs & j & Lxy) (frs' & j' & Lyx). cbv zeta. cbn [ep_log]. intros Hlen Hny.
  destruct (update_eq (ep_kcb x) now Hn (wf_ts_flush _ (wf_cfg _ (ei_wf _ _ Hx)))) as (u & tf & Hu & Ht & Eu).
  pose proof (at_time_wf _ now u tf Hn Ht (ei_wf _ _ Hx)) as Hwf1.
  assert (Hr : exists t moved, k' = at_time (ep_kcb x) now u tf /\ t = [] /\ moved = [] \/
            flush_result (at_time (ep_kcb x) now u tf) t moved k').
  { rewrite E in Eu. destruct Eu as [Eu|Eu].
    - apply Ret_inj in Eu. exists [], []. auto.
    - destruct (ikcp_flush_spec (at_time (ep_kcb x) now u tf) Hwf1 (ei_fit _ _ Hx) (ei_output _ _ Hx) Hu)
        as (k1 & t & moved & E1 & Hr). rewrite E1 in Eu. apply Ret_inj in Eu as ->.
      exists t, moved. right. exact Hr. }
  clear E Eu. destruct Hr as (t & moved & [(-> & _ & _)|Hr]).
  - assert (Etk : taken (ep_kcb x) (at_time (ep_kcb x) now u tf) = [])
      by (unfold taken; cbn; rewrite Nat.sub_diag; apply take_0).
    rewrite Etk. cbn [trace at_time upd set_current set_updated set_ts_flush].
    rewrite drop_all. cbn. rewrite !app_nil_r. split; [|split].
    + destruct Hx. constructor; cbn; try assumption. eapply out_mono_log; [|eassumption].
      apply rcv_mono_same; reflexivity.
    + exists frs, j. eapply link_snd_same; [..|exact Lxy]; reflexivity.
    + exists frs', j'. eapply link_rcv_same; [..|exact Lyx]; reflexivity.
  - set (k1 := at_time (ep_kcb x) now u tf) in *.
    assert (Etk : taken (ep_kcb x) k' = moved) by apply (flushed_taken k1 t moved k' Hr).
    rewrite Etk in *. rewrite (fl_trace _ _ _ _ Hr : trace k' = trace (ep_kcb x) ++ t), drop_app_length.
    destruct Hx. pose proof (fl_frame _ _ _ _ Hr) as Hf. red in Hf.
    assert (Hm : rcv_mono (ep_kcb x) k') by (apply rcv_mono_same; rewrite Hf; reflexivity).
    split; [|split].
    + constructor; cbn.
      * apply Hr.
      * apply Hr.
      * rewrite Hf. assumption.
      * rewrite Hf. assumption.
      * rewrite Hf. assumption.
      * apply (flushed_nxt (ep_log x) k1 t moved k'); assumption.
      * apply (flushed_buf (ep_log x) k1 t moved k'); assumption.
      * intros e. rewrite (fl_acks _ _ _ _ Hr). cbn. intros He. inv He.
      * apply Forall_app. split; [exact (out_mono _ _ _ _ _ _ Hm ei_out0)|].
        apply (flushed_out c (ep_log x) k1 t moved k'); assumption.
    + exists frs, j. destruct Lxy as [L1 L2 L3 L4 L5 L6]. constructor; cbn; try assumption.
      * rewrite <- L2, <- app_assoc. f_equal.
        rewrite (fl_queue _ _ _ _ Hr : snd_queue (ep_kcb x) = _), map_app. reflexivity.
      * apply (flushed_covered (ep_log x) k1 t moved k'); assumption.
      * apply rcv_link_log; [exact L6|]. exact Hny.
    + exists frs', j'. apply (link_rcv_same frs' j' y x); cbn [ep_kcb ep_got];
      [frame Hf..|reflexivity|exact Lyx].
Qed.

(** ** Reachable systems *)
(** One step at [x] keeps everything; the case of a step at [y] is the same. *)
Lemma step_inv c x y x' :
  ep_inv c x -> ep_inv c y -> linked x y -> linked y x -> in_range x y ->
  lenZ (ep_log x') < 2147483648 -> ep_step (ep_out y) x x' ->
  ep_inv c x' /\ linked x' y /\ linked y x'.
Proof.
  intros Hx Hy Lxy Lyx Hr Hlen Hst.
  assert (Hly : lenZ (ep_log y) < 2147483648).
  { destruct Hr as [_ Hr]. pose proof (wf_rcv_wnd _ (wf_cfg _ (ei_wf _ _ Hx))).
    unfold IKCP_WND_RCV in *. lia. }
  destruct Hst as [m r k' Hm Hl E|len r out k' Hi E|d r k' Hd E|now k' Hn E].
  - destruct (step_send c x m r k' Hx Hm Hl E) as (H1 & H2 & H3). auto.
  - apply (step_recv c x y len r out k'); assumption.
  - apply (step_input c x y d r k'); assumption.
  - apply (step_update c x y now k'); try assumption. apply Hy.
Qed.

Lemma fresh_inv c k : fresh c k -> ep_inv c (new_ep k).
Proof.
  intros [Hwf Hc Ho Hs (N1 & N2 & N3) (Q1 & Q2 & Q3 & Q4)].
  constructor; cbn; try assumption.
  - split; rewrite ?Q1, ?Q2; constructor.
  - intros s. rewrite Q2. intros H. inv H.
  - intros e. rewrite N3. cbn. intros H. inv H.
  - constructor.
Qed.

Lemma fresh_link c kx ky : fresh c kx -> fresh c ky -> linked (new_ep kx) (new_ep ky).
Proof.
  intros [_ _ _ _ _ (Q1 & _)] [_ _ _ _ (_ & N2 & _) (_ & _ & Q3 & Q4)]. exists [], O.
  constructor; cbn.
  - constructor.
  - rewrite Q1. reflexivity.
  - intros i Hi. cbn in Hi. lia.
  - reflexivity.
  - lia.
  - constructor; cbn.
    + rewrite N2. lia.
    + intros s. rewrite Q4. intros H. inv H.
    + rewrite N2, Q3. reflexivity.
Qed.

Lemma fresh_range c kx ky : fresh c kx -> fresh c ky -> in_range (new_ep kx) (new_ep ky).
Proof.
  intros Hx Hy. pose proof (wf_rcv_wnd _ (wf_cfg _ (fr_wf _ _ Hx))).
  pose proof (wf_rcv_wnd _ (wf_cfg _ (fr_wf _ _ Hy))). split; cbn; lia.
Qed.

Record sys_inv (c : Z) (x y : endpoint) : Prop := {
  si_left : ep_inv c x;
  si_right : ep_inv c y;
  si_xy : linked x y;
  si_yx : linked y x;
  si_range : in_range x y }.

Lemma in_range_log c x y : ep_inv c y -> in_range x y -> lenZ (ep_log x) < 2147483648.
Proof.
  intros Hy [R _]. pose proof (wf_rcv_wnd _ (wf_cfg _ (ei_wf _ _ Hy))). unfold IKCP_WND_RCV in *. lia.
Qed.

Lemma sys_reach_inv c x y : sys_reach c x y -> sys_inv c x y.
Proof.
  induction 1 as [kx ky Hx Hy|x y x' _ [Hx Hy Lxy Lyx R] Hst R'|x y y' _ [Hx Hy Lxy Lyx R] Hst R'].
  - constructor; [apply fresh_inv, Hx | apply fresh_inv, Hy | exact (fresh_link _ _ _ Hx Hy)
      | exact (fresh_link _ _ _ Hy Hx) | exact (fresh_range _ _ _ Hx Hy)].
  - destruct (step_inv c x y x') as (H1 & H2 & H3); try assumption.
    + exact (in_range_log c x' y Hy R').
    + constructor; assumption.
  - destruct (step_inv c y x y') as (H1 & H2 & H3); try assumption.
    + destruct R. split; assumption.
    + apply (in_range_log c y' x Hx). destruct R'. split; assumption.
    + constructor; assumption.
Qed.
End System.
