(* ===== verification/KcpPlan.v ===== *)
(** * KCP: exactly what a flush sends

    [flush_plan] lists the segments a flush has to send, as a function of the
    block alone: the pending acknowledgements, the window probes, and the data
    segments that are new, timed out or fast-resent.  [ikcp_flush], with its
    loops, its reused local segment and its output buffer, sends the wire
    images of exactly these segments in this order. *)

From S2P Require Import Prelude KcpWire KcpSeq KcpState KcpSend KcpRecv KcpInput.
From S2P Require Import KcpFlush KcpInv KcpFlushInv KcpOps KcpLink KcpSystem.

Local Open Scope Z_scope.

(** ** The plan *)
Definition with_ack (seg : IKCPSEG) (e : Z * Z) : IKCPSEG :=
  seg <| seg_sn := e.1 |> <| seg_ts := e.2 |>.

Definition ack_segs (k : ikcpcb) : list IKCPSEG :=
  map (with_ack (flush_seg k)) (take (Z.to_nat (ackcount k)) (acklist k)).

Definition with_cmd (seg : IKCPSEG) (cmd : Z) : IKCPSEG := seg <| seg_cmd := cmd |>.

(** Probes reuse the local segment, with the numbers of the last acknowledgement. *)
Definition probe_segs (k : ikcpcb) : list IKCPSEG :=
  let seg := default (flush_seg k) (last (ack_segs k)) in
  let p := probe (flush_probe k) in
  (if Z.land p IKCP_ASK_SEND =? 0 then [] else [with_cmd seg IKCP_CMD_WASK]) ++
  (if Z.land p IKCP_ASK_TELL =? 0 then [] else [with_cmd seg IKCP_CMD_WINS]).

(** A data segment as it goes out: timers advanced, then stamped. *)
Definition stamp (k : ikcpcb) (wnd : Z) (s : IKCPSEG) : IKCPSEG :=
  s <| seg_ts := current k |> <| seg_wnd := wnd |> <| seg_una := rcv_nxt k |>.

Definition due_seg (k : ikcpcb) (wnd resent rtomin : Z) (s : IKCPSEG) : option IKCPSEG :=
  match seg_due k resent s with
  | NotDue => None
  | d => Some (stamp k wnd (seg_resend k rtomin d s))
  end.

Definition data_segs (k : ikcpcb) : list IKCPSEG :=
  let wnd := seg_wnd (flush_seg k) in
  omap (due_seg k wnd (flush_resent k) (flush_rtomin k))
       (snd_buf (move_snd k (flush_cwnd k) wnd)).

Definition flush_plan (k : ikcpcb) : list IKCPSEG := ack_segs k ++ probe_segs k ++ data_segs k.

(** ** Bytes out *)

(** The bytes handed to [output] so far. *)
Definition sent_bytes (k : ikcpcb) : list Z := concat (outputs (trace k)).

#[local] Arguments outputs : simpl never.

Lemma outputs_app t1 t2 : outputs (t1 ++ t2) = outputs t1 ++ outputs t2.
Proof. unfold outputs. rewrite map_app, concat_app. reflexivity. Qed.

Lemma outputs_Forall (P : list Z -> Prop) t :
  Forall (fun e => match e with EvOutput d => P d | EvLog _ => True end) t -> Forall P (outputs t).
Proof.
  unfold outputs. induction 1 as [|e t He _ IH]; cbn; [constructor|].
  apply Forall_app. split; [|exact IH]. destruct e; [|constructor]. apply Forall_singleton, He.
Qed.

Lemma log_if_bytes k a b : sent_bytes (log_if k a b) = sent_bytes k.
Proof.
  destruct (log_if_eq k a b) as (t & -> & Ht). unfold sent_bytes. cbn. rewrite outputs_app, concat_app.
  assert (E : outputs t = []); [|rewrite E; apply app_nil_r].
  clear -Ht. induction Ht as [|e t [m ->] _ IH]; [reflexivity | exact IH].
Qed.

Lemma output_bytes k d k' : ikcp_output k d = Ret k' -> sent_bytes k' = sent_bytes k ++ d.
Proof.
  unfold ikcp_output. destruct (negb (output k)); [discriminate|]. cbv zeta.
  pose proof (log_if_bytes k IKCP_LOG_OUTPUT IKCP_LOG_OUTPUT) as E.
  destruct (Z.eqb_spec (lenZ d) 0) as [H|H]; intros [= <-].
  - rewrite E. destruct d; [symmetry; apply app_nil_r | cbn in H; lia].
  - rewrite <- E. unfold sent_bytes. cbn. rewrite outputs_app, concat_app. f_equal.
    unfold outputs. cbn. apply app_nil_r.
Qed.

(** Only the trace changes when a datagram is handed over. *)
Lemma output_trace k d k' : ikcp_output k d = Ret k' -> k' = k <| trace := trace k' |>.
Proof.
  unfold ikcp_output. destruct (negb (output k)); [discriminate|]. cbv zeta.
  destruct (log_if_eq k IKCP_LOG_OUTPUT IKCP_LOG_OUTPUT) as (t & -> & _).
  destruct (lenZ d =? 0); intros [= <-]; reflexivity.
Qed.

(** A stage that has [ptr] waiting in the buffer, and what it adds. *)
Definition emits (k : ikcpcb) (ptr : list Z) (segs : list IKCPSEG) (k' : ikcpcb) (ptr' : list Z) : Prop :=
  sent_bytes k' ++ ptr' = sent_bytes k ++ ptr ++ wire segs.

Lemma emits_trans k1 p1 s1 k2 p2 s2 k3 p3 :
  emits k1 p1 s1 k2 p2 -> emits k2 p2 s2 k3 p3 -> emits k1 p1 (s1 ++ s2) k3 p3.
Proof.
  unfold emits. intros H1 H2. rewrite H2, app_assoc, H1, wire_app, <- !app_assoc. reflexivity.
Qed.

Lemma emits_nil k p : emits k p [] k p.
Proof. unfold emits. cbn. rewrite app_nil_r. reflexivity. Qed.

Lemma make_room_emits k ptr need k' ptr' :
  make_room k ptr need = Ret (k', ptr') ->
  k' = k <| trace := trace k' |> /\ emits k ptr [] k' ptr'.
Proof.
  unfold make_room. case_match.
  - intros (k1 & E1 & [= <- <-])%obind_Ret. split; [exact (output_trace _ _ _ E1)|].
    unfold emits. rewrite (output_bytes _ _ _ E1). cbn. rewrite !app_nil_r. reflexivity.
  - intros [= <- <-]. split; [kcb_eq | apply emits_nil].
Qed.

Lemma buf_check_inv k p p' : buf_check k p = Ret p' -> p' = p.
Proof. unfold buf_check. case_match; [|discriminate]. intros [= <-]. reflexivity. Qed.

Lemma wire_single s : wire [s] = seg_wire s.
Proof. unfold wire. cbn. apply app_nil_r. Qed.

(** A header-only segment. *)
Lemma header_emits k ptr seg :
  seg_len seg = 0 -> emits k ptr [seg] k (ikcp_encode_seg ptr seg).
Proof.
  intros Hl. unfold emits. rewrite wire_single. unfold seg_wire.
  rewrite Hl, take_0, app_nil_r, ikcp_encode_seg_app. reflexivity.
Qed.

(** ** The stages *)
Lemma flush_acks_emits n i k ptr seg k' ptr' seg' :
  seg_len seg = 0 -> (i + n <= length (acklist k))%nat ->
  flush_acks n i k ptr seg = Ret (k', ptr', seg') ->
  let segs := map (with_ack seg) (take n (drop i (acklist k))) in
  k' = k <| trace := trace k' |> /\ emits k ptr segs k' ptr' /\ seg' = default seg (last segs).
Proof.
  cbv zeta. revert i k ptr seg. induction n as [|n IH]; intros i k ptr seg Hl Hi E; cbn [flush_acks] in E.
  { injection E as <- <- <-. split; [kcb_eq|]. split; [apply emits_nil | reflexivity]. }
  apply obind_Ret in E as ([k1 p1] & E1 & E). apply make_room_emits in E1 as [Hk1 Hm1].
  apply obind_Ret in E as ([sn ts] & E2 & E). apply obind_Ret in E as (p2 & E3 & E).
  apply buf_check_inv in E3 as ->.
  assert (Ea : acklist k1 = acklist k) by (rewrite Hk1; reflexivity).
  unfold ikcp_ack_get in E2. rewrite Ea in E2.
  destruct (acklist k !! i) as [e|] eqn:Ei; [|discriminate]. injection E2 as ->.
  apply IH in E as (Hk2 & Hm2 & Hs2); [|exact Hl | rewrite Ea; lia].
  change (seg <| seg_sn := sn |> <| seg_ts := ts |>) with (with_ack seg (sn, ts)) in Hm2, Hs2.
  rewrite (drop_S _ _ _ Ei). cbn [take map]. rewrite Ea in Hm2, Hs2.
  change (with_ack (with_ack seg (sn, ts))) with (with_ack seg) in Hm2, Hs2.
  split; [rewrite Hk2, Hk1; reflexivity|]. split.
  - pose proof (header_emits k1 p1 (with_ack seg (sn, ts)) Hl) as Hh.
    exact (emits_trans _ _ _ _ _ _ _ _ Hm1 (emits_trans _ _ _ _ _ _ _ _ Hh Hm2)).
  - rewrite Hs2. destruct (take n (drop (S i) (acklist k))) as [|e l]; [reflexivity|].
    cbn [map]. rewrite last_cons_cons.
    destruct (last (with_ack seg e :: map (with_ack seg) l)) eqn:Ela; [reflexivity|].
    apply last_None in Ela. discriminate.
Qed.

Lemma flush_cmd_emits flag cmd k ptr seg k' ptr' seg' :
  seg_len seg = 0 -> flush_cmd flag cmd k ptr seg = Ret (k', ptr', seg') ->
  k' = k <| trace := trace k' |> /\
  emits k ptr (if Z.land (probe k) flag =? 0 then [] else [with_cmd seg cmd]) k' ptr' /\
  (seg' = seg \/ seg' = with_cmd seg cmd).
Proof.
  intros Hl. unfold flush_cmd, put_seg. destruct (Z.land (probe k) flag =? 0); cbn [negb].
  { intros [= <- <- <-]. split; [kcb_eq|]. split; [apply emits_nil | auto]. }
  intros ([k1 p1] & E1 & [= <- <- <-])%obind_Ret.
  apply obind_Ret in E1 as ([k2 p2] & E2 & E1). apply make_room_emits in E2 as [Hk Hm].
  apply obind_Ret in E1 as (p3 & E3 & [= <- <-]). apply buf_check_inv in E3 as ->.
  split; [exact Hk|]. split; [|auto].
  exact (emits_trans _ _ _ _ _ _ _ _ Hm (header_emits k2 p2 (with_cmd seg cmd) Hl)).
Qed.

Lemma flush_cmds_emits k ptr seg k' ptr' seg' :
  seg_len seg = 0 -> flush_cmds k ptr seg = Ret (k', ptr', seg') ->
  k' = k <| trace := trace k' |> <| probe := 0 |> /\ seg_wnd seg' = seg_wnd seg /\
  emits k ptr
    ((if Z.land (probe k) IKCP_ASK_SEND =? 0 then [] else [with_cmd seg IKCP_CMD_WASK]) ++
     (if Z.land (probe k) IKCP_ASK_TELL =? 0 then [] else [with_cmd seg IKCP_CMD_WINS])) k' ptr'.
Proof.
  intros Hl. unfold flush_cmds. intros ([[k1 p1] s1] & E1 & E)%obind_Ret.
  apply flush_cmd_emits in E1 as (Hk1 & Hm1 & Hs1); [|exact Hl].
  apply obind_Ret in E as ([[k2 p2] s2] & E2 & [= <- <- <-]).
  apply flush_cmd_emits in E2 as (Hk2 & Hm2 & Hs2); [|destruct Hs1 as [-> | ->]; exact Hl].
  assert (Ep : probe k1 = probe k) by (rewrite Hk1; reflexivity). rewrite Ep in Hm2.
  split; [rewrite Hk2, Hk1; reflexivity|].
  split; [destruct Hs1 as [-> | ->], Hs2 as [-> | ->]; reflexivity|].
  assert (Es : with_cmd s1 IKCP_CMD_WINS = with_cmd seg IKCP_CMD_WINS)
    by (destruct Hs1 as [-> | ->]; reflexivity).
  rewrite Es in Hm2. exact (emits_trans _ _ _ _ _ _ _ _ Hm1 Hm2).
Qed.

Lemma send_one_emits k ptr wnd s k' ptr' s' :
  send_one k ptr wnd s = Ret (k', ptr', s') ->
  s' = stamp k wnd s /\ k' = k <| trace := trace k' |> <| state := state k' |> /\
  emits k ptr [stamp k wnd s] k' ptr'.
Proof.
  unfold send_one. fold (stamp k wnd s). cbv zeta.
  intros ([k1 p1] & E1 & E)%obind_Ret. apply make_room_emits in E1 as [Hk Hm].
  apply obind_Ret in E as (p2 & E2 & E). apply buf_check_inv in E2 as ->.
  apply obind_Ret in E as (p3 & E3 & [= <- <- <-]).
  assert (Ep : p3 = p1 ++ seg_wire (stamp k wnd s)).
  { unfold seg_wire. rewrite app_assoc, <- ikcp_encode_seg_app.
    destruct (Z.ltb_spec 0 (seg_len (stamp k wnd s))) as [Hp|Hp].
    - apply buf_check_inv in E3. exact E3.
    - injection E3 as <-. replace (Z.to_nat (seg_len (stamp k wnd s))) with O by lia.
      rewrite take_0, app_nil_r. reflexivity. }
  split; [reflexivity|]. clear E3.
  split; [rewrite Hk; destruct (dead_link _ <=? _); [reflexivity | destruct k; reflexivity]|].
  unfold emits in *. rewrite Ep, wire_single. cbn in Hm. rewrite app_nil_r in Hm.
  rewrite (app_assoc (sent_bytes k)), <- Hm, <- app_assoc. destruct (dead_link _ <=? _); reflexivity.
Qed.

(** The fields the data loop reads stay as they are. *)
Definition loop_frame (k k' : ikcpcb) : Prop :=
  k' = k <| trace := trace k' |> <| state := state k' |> <| xmit := xmit k' |>.

Lemma loop_frame_trans k1 k2 k3 : loop_frame k1 k2 -> loop_frame k2 k3 -> loop_frame k1 k3.
Proof. unfold loop_frame. intros H1 H2. rewrite H2, H1. reflexivity. Qed.

Lemma due_seg_frame k k' wnd resent rtomin s :
  loop_frame k k' -> due_seg k' wnd resent rtomin s = due_seg k wnd resent rtomin s.
Proof. unfold loop_frame. intros ->. reflexivity. Qed.

Lemma omap_ext {X Y : Type} (f g : X -> option Y) (l : list X) :
  (forall x, f x = g x) -> omap f l = omap g l.
Proof. intros H. induction l as [|x l IH]; [reflexivity|]. csimpl. rewrite H, IH. reflexivity. Qed.

Lemma flush_data_emits l k wnd resent rtomin v r k' v' :
  flush_data l k wnd resent rtomin v = Ret (r, k', v') ->
  loop_frame k k' /\
  emits k (dl_ptr v) (omap (due_seg k wnd resent rtomin) l) k' (dl_ptr v').
Proof.
  revert k v r k' v'. induction l as [|s l IH]; intros k v r k' v' E; cbn [flush_data] in E.
  { injection E as _ <- <-. split; [red; kcb_eq | apply emits_nil]. }
  assert (Hdue : forall k1 v1 d,
    due_seg k wnd resent rtomin s = Some (stamp k wnd (seg_resend k rtomin d s)) ->
    dl_ptr v1 = dl_ptr v -> loop_frame k k1 -> sent_bytes k1 = sent_bytes k ->
    (let! (k, ptr, s) := send_one k1 (dl_ptr v1) wnd (seg_resend k rtomin d s) in
     let! (r, k, v) := flush_data l k wnd resent rtomin (mkDL ptr (dl_lost v1) (dl_change v1)) in
     Ret (s :: r, k, v)) = Ret (r, k', v') ->
    loop_frame k k' /\
    emits k (dl_ptr v) (omap (due_seg k wnd resent rtomin) (s :: l)) k' (dl_ptr v')).
  { clear E. intros k1 v1 d Hd Hv Hf Hb E.
    apply obind_Ret in E as ([[k2 p2] s2] & E1 & E). apply send_one_emits in E1 as (_ & Hk2 & Hm).
    apply obind_Ret in E as ([[r2 k3] v3] & E2 & [= <- <- <-]).
    apply IH in E2 as [Hf3 Hm3]. cbn [dl_ptr] in Hm3.
    assert (Hf2 : loop_frame k k2).
    { apply (loop_frame_trans _ k1); [exact Hf|]. red. rewrite Hk2. reflexivity. }
    split; [exact (loop_frame_trans _ _ _ Hf2 Hf3)|].
    rewrite (omap_ext _ (due_seg k wnd resent rtomin)) in Hm3
      by (intros x; apply due_seg_frame, Hf2).
    assert (Es : stamp k1 wnd (seg_resend k rtomin d s) = stamp k wnd (seg_resend k rtomin d s))
      by (red in Hf; rewrite Hf; reflexivity).
    rewrite Es, Hv in Hm. unfold emits in Hm. rewrite Hb in Hm.
    csimpl. rewrite Hd. exact (emits_trans _ _ [_] _ _ _ _ _ Hm Hm3). }
  destruct (seg_due k resent s) eqn:Ed; cbn [seg_resend] in E.
  - apply obind_Ret in E as ([[r2 k3] v3] & E2 & [= _ <- <-]). apply IH in E2.
    csimpl. unfold due_seg at 1. rewrite Ed. exact E2.
  - apply (Hdue k v FirstSend); try reflexivity; [unfold due_seg; rewrite Ed; reflexivity | red; kcb_eq | exact E].
  - apply (Hdue (k <| xmit := u32 (xmit k + 1) |>) (mkDL (dl_ptr v) true (dl_change v)) Timeout);
      try reflexivity; [unfold due_seg; rewrite Ed; reflexivity | exact E].
  - apply (Hdue k (mkDL (dl_ptr v) (dl_lost v) (i32 (dl_change v + 1))) FastResend);
      try reflexivity; [unfold due_seg; rewrite Ed; reflexivity | red; kcb_eq | exact E].
Qed.

(** ** The whole flush *)

(** The fields the plan reads are not among those the control stages write. *)
Definition ctl_frame (k k' : ikcpcb) : Prop :=
  k' = k <| trace := trace k' |> <| ackcount := ackcount k' |> <| ts_probe := ts_probe k' |>
         <| probe_wait := probe_wait k' |> <| probe := probe k' |>.

Lemma flush_ctl_emits k k' ptr seg :
  ack_wf k -> flush_ctl k = Ret (k', ptr, seg) ->
  ctl_frame k k' /\ seg_wnd seg = seg_wnd (flush_seg k) /\
  emits k [] (ack_segs k ++ probe_segs k) k' ptr.
Proof.
  intros Ha. unfold flush_ctl. intros ([[k1 p1] s1] & E1 & E)%obind_Ret.
  apply flush_acks_emits in E1 as (Hk1 & Hm1 & Hs1);
    [|reflexivity | destruct Ha; lia].
  rewrite drop_0 in Hm1, Hs1. fold (ack_segs k) in Hm1, Hs1.
  assert (Hp : probe (flush_probe (k1 <| ackcount := 0 |>)) = probe (flush_probe k)).
  { rewrite Hk1. unfold flush_probe. cbn. repeat case_match; reflexivity. }
  pose proof (flush_probe_eq (k1 <| ackcount := 0 |>)) as Hk2.
  generalize dependent (flush_probe (k1 <| ackcount := 0 |>)). intros k2 E Hp Hk2.
  assert (Hw1 : seg_wnd s1 = seg_wnd (flush_seg k) /\ seg_len s1 = 0).
  { rewrite Hs1. unfold ack_segs. generalize (take (Z.to_nat (ackcount k)) (acklist k)). intros l.
    destruct (last (map (with_ack (flush_seg k)) l)) as [x|] eqn:El; [|split; reflexivity].
    apply last_Some_elem_of, list_elem_of_fmap in El as (e & -> & _). split; reflexivity. }
  apply flush_cmds_emits in E as (Hk' & Hw & Hm); [|apply Hw1].
  split; [red; rewrite Hk', Hk2, Hk1; reflexivity|].
  split; [rewrite Hw; apply Hw1|].
  assert (Eb : sent_bytes k2 = sent_bytes k1) by (rewrite Hk2; reflexivity).
  rewrite Hp, Hs1 in Hm. unfold probe_segs.
  unfold emits in Hm. rewrite Eb in Hm. exact (emits_trans _ _ _ _ _ _ _ _ Hm1 Hm).
Qed.

(** Numbering commutes with the writes of the control stages. *)
Definition ctl_set (k : ikcpcb) (t : list kevent) (a b c d : Z) : ikcpcb :=
  k <| trace := t |> <| ackcount := a |> <| ts_probe := b |> <| probe_wait := c |> <| probe := d |>.

Lemma move_snd_ctl q w wnd k t a b c d :
  move_snd_loop q w wnd (ctl_set k t a b c d) = ctl_set (move_snd_loop q w wnd k) t a b c d.
Proof.
  revert k. induction q as [|s q IH]; intros k; cbn [move_snd_loop]; [reflexivity|].
  change (_itimediff (snd_nxt (ctl_set k t a b c d)) (u32 (snd_una (ctl_set k t a b c d) + w)))
    with (_itimediff (snd_nxt k) (u32 (snd_una k + w))).
  destruct (_ <? 0); [|reflexivity]. cbv zeta. rewrite <- IH. reflexivity.
Qed.

Lemma move_snd_frame q w wnd k k' :
  ctl_frame k k' -> snd_buf (move_snd_loop q w wnd k') = snd_buf (move_snd_loop q w wnd k).
Proof.
  intros Hf. red in Hf.
  change (k' = ctl_set k (trace k') (ackcount k') (ts_probe k') (probe_wait k') (probe k')) in Hf.
  rewrite Hf, move_snd_ctl. reflexivity.
Qed.

Lemma snd_half_loop q w wnd k : snd_half k (move_snd_loop q w wnd k).
Proof.
  revert k. induction q as [|s q IH]; intros k; cbn [move_snd_loop]; [apply snd_half_refl|].
  case_match; [|apply snd_half_refl]. eapply snd_half_trans; [|apply IH]. reflexivity.
Qed.

Lemma flush_rest_bytes k ptr k' : flush_rest k ptr = Ret k' -> sent_bytes k' = sent_bytes k ++ ptr.
Proof.
  unfold flush_rest. destruct (Z.ltb_spec 0 (lenZ ptr)) as [H|H]; [apply output_bytes|].
  intros [= <-]. destruct ptr; [symmetry; apply app_nil_r | cbn in H; lia].
Qed.

Lemma flush_emits_plan k k' :
  ack_wf k -> updated k <> 0 -> ikcp_flush k = Ret k' ->
  sent_bytes k' = sent_bytes k ++ wire (flush_plan k).
Proof.
  intros Ha Hu. unfold ikcp_flush. destruct (Z.eqb_spec (updated k) 0) as [|_]; [contradiction|].
  intros ([[k1 p1] seg] & E1 & E)%obind_Ret.
  apply flush_ctl_emits in E1 as (Hf & Hw & Hm1); [|exact Ha].
  assert (Ew : flush_cwnd k1 = flush_cwnd k) by (red in Hf; frame Hf).
  rewrite Ew, Hw in E. cbv zeta in E.
  set (k2 := move_snd k1 (flush_cwnd k) (seg_wnd (flush_seg k))) in E.
  assert (Hb2 : snd_buf k2 = snd_buf (move_snd k (flush_cwnd k) (seg_wnd (flush_seg k)))).
  { unfold k2, move_snd. replace (snd_queue k1) with (snd_queue k) by (red in Hf; symmetry; frame Hf).
    apply move_snd_frame, Hf. }
  assert (Hh : snd_half k1 k2) by apply snd_half_loop.
  clearbody k2. red in Hh, Hf.
  assert (Er : flush_resent k2 = flush_resent k) by (rewrite Hh, Hf; reflexivity).
  assert (Et : flush_rtomin k2 = flush_rtomin k) by (rewrite Hh, Hf; reflexivity).
  assert (Ed : forall x, due_seg k2 (seg_wnd (flush_seg k)) (flush_resent k) (flush_rtomin k) x =
                         due_seg k (seg_wnd (flush_seg k)) (flush_resent k) (flush_rtomin k) x)
    by (intros x; rewrite Hh, Hf; reflexivity).
  assert (E2 : sent_bytes k2 = sent_bytes k1) by (rewrite Hh; reflexivity).
  rewrite Er, Et in E. clear Er Et Hh.
  apply obind_Ret in E as ([[r k3] v] & E3 & E). apply flush_data_emits in E3 as [Hf3 Hm3].
  apply obind_Ret in E as (k4 & E4 & [= <-]). apply flush_rest_bytes in E4.
  rewrite flush_ssthresh_eq. unfold sent_bytes at 1. cbn.
  change (concat (outputs (trace k4))) with (sent_bytes k4). rewrite E4. cbn [dl_ptr] in Hm3.
  rewrite (omap_ext _ _ _ Ed), Hb2 in Hm3. fold (data_segs k) in Hm3.
  change (sent_bytes (k3 <| snd_buf := r |>)) with (sent_bytes k3).
  unfold emits in Hm3. rewrite E2 in Hm3.
  pose proof (emits_trans _ _ _ _ _ _ _ _ Hm1 Hm3) as H. red in H. rewrite H.
  unfold flush_plan. rewrite <- app_assoc. reflexivity.
Qed.
