(* ===== verification/KcpRun.v ===== *)
(** * KCP: executable runs

    A concrete allocator and an executor for the two-endpoint system, so that
    the hypotheses of the theorems can be met by evaluation. *)

From S2P Require Import Prelude KcpWire KcpSeq KcpState KcpSend KcpRecv KcpInput.
From S2P Require Import KcpFlush KcpInv KcpFlushInv KcpOps KcpLink KcpSystem.

Local Open Scope Z_scope.

(** An allocator that never fails and clears its blocks. *)
Definition zero_seg (n : Z) : IKCPSEG := {|
  seg_conv := 0; seg_cmd := 0; seg_frg := 0; seg_wnd := 0; seg_ts := 0; seg_sn := 0;
  seg_una := 0; seg_len := 0; seg_resendts := 0; seg_rto := 0; seg_fastack := 0;
  seg_xmit := 0; seg_data := repeat 0 (Z.to_nat n) |}.

#[export] Instance calloc : Alloc := { malloc_ok := fun _ => true; seg_block := zero_seg }.

#[export] Instance calloc_sized : AllocSized calloc.
Proof.
  constructor; intros n; cbn.
  - intros Hn. rewrite repeat_length. lia.
  - apply Forall_forall. intros x Hx. apply list_elem_of_In, repeat_spec in Hx as ->. rlia.
Qed.

(** With it no call stops for memory. *)
Lemma calloc_total {X : Type} (o : outcome X) : ~ out_of_memory (A := calloc) o.
Proof. intros [_ [n H]]. discriminate. Qed.

(** One that refuses every block of more than 100 bytes. *)
Definition tiny : Alloc := {| malloc_ok := fun n => n <=? 100; seg_block := zero_seg |}.

#[export] Instance tiny_sized : AllocSized tiny.
Proof. constructor; apply calloc_sized. Qed.

(** A block as [ikcp_create(7, 0)] and [ikcp_setoutput] leave it. *)
Definition kcb0 : ikcpcb :=
  ltac:(let o := eval vm_compute in (ikcp_create 7 0) in
        match o with Some ?k => exact (ikcp_setoutput k true) end).

Lemma kcb0_reachable : reachable kcb0.
Proof.
  apply (ReachCall calloc (kcb0 <| output := false |>) OpSetoutput); [exact _ | |exact I | reflexivity].
  apply (ReachNew calloc 7 0); [rlia | vm_compute; reflexivity].
Qed.

Lemma kcb0_fresh : fresh 7 kcb0.
Proof.
  constructor; try reflexivity; [apply (reachable_wf kcb0 kcb0_reachable) | |]; vm_compute; auto.
Qed.

(** ** The executor *)
Inductive act := ASend (m : list Z) | ARecv (len : Z) | AInput (i : nat) | AUpdate (now : Z).

Definition ep_exec (inbox : list (list Z)) (x : endpoint) (a : act) : option endpoint :=
  match a with
  | ASend m =>
      if forallb (fun b => (0 <=? b) && (b <? 256)) m && (lenZ m <? 2147483648) then
        match ikcp_send (ep_kcb x) (Some m) (lenZ m) with
        | Ret (r, k') => Some (mkEP k' (ep_log x) (ep_out x)
            (if r =? 0 then ep_sent x ++ [m] else ep_sent x) (ep_got x))
        | Crash _ => None
        end
      else None
  | ARecv len =>
      if (-2147483648 <=? len) && (len <? 2147483648) then
        match ikcp_recv (ep_kcb x) true len with
        | Ret (r, out, k') => Some (mkEP k' (ep_log x) (ep_out x) (ep_sent x)
            (if (0 <=? r) && (0 <=? len) then ep_got x ++ [out] else ep_got x))
        | Crash _ => None
        end
      else None
  | AInput i =>
      match inbox !! i with
      | Some d =>
          match ikcp_input (ep_kcb x) (Some d) (lenZ d) with
          | Ret (_, k') => Some (mkEP k' (ep_log x) (ep_out x) (ep_sent x) (ep_got x))
          | Crash _ => None
          end
      | None => None
      end
  | AUpdate now =>
      if (0 <=? now) && (now <? 4294967296) then
        match ikcp_update (ep_kcb x) now with
        | Ret k' => Some (mkEP k' (ep_log x ++ map pay (taken (ep_kcb x) k'))
            (ep_out x ++ outputs (drop (length (trace (ep_kcb x))) (trace k')))
            (ep_sent x) (ep_got x))
        | Crash _ => None
        end
      else None
  end.

Lemma ep_exec_step inbox x a x' : ep_exec inbox x a = Some x' -> ep_step inbox x x'.
Proof.
  destruct a as [m|len|i|now]; cbn [ep_exec].
  - destruct (forallb _ m && _) eqn:E; [|discriminate]. apply andb_prop in E as [E1 E2].
    destruct (ikcp_send _ _ _) as [[r k']|] eqn:Es; [|discriminate]. intros [= <-].
    apply StepSend; [|lia|exact Es]. apply Forall_forall. intros b Hb.
    rewrite forallb_forall in E1. apply list_elem_of_In in Hb. apply E1 in Hb. rlia.
  - destruct (_ && _) eqn:E; [|discriminate].
    destruct (ikcp_recv _ _ _) as [[[r out] k']|] eqn:Es; [|discriminate]. intros [= <-].
    apply StepRecv; [rlia | exact Es].
  - destruct (inbox !! i) as [d|] eqn:Ei; [|discriminate].
    destruct (ikcp_input _ _ _) as [[r k']|] eqn:Es; [|discriminate]. intros [= <-].
    apply (StepInput _ _ d r); [|exact Es]. apply (list_elem_of_lookup_2 _ i), Ei.
  - destruct (_ && _) eqn:E; [|discriminate].
    destruct (ikcp_update _ _) as [k'|] eqn:Es; [|discriminate]. intros [= <-].
    apply (StepUpdate _ _ now); [rlia | exact Es].
Qed.

Definition in_range_b (x y : endpoint) : bool :=
  (lenZ (ep_log x) + rcv_wnd (ep_kcb y) <? 2147483648) &&
  (lenZ (ep_log y) + rcv_wnd (ep_kcb x) <? 2147483648).

(** A schedule: [true] for a call at the left endpoint. *)
Fixpoint sys_exec (x y : endpoint) (l : list (bool * act)) : option (endpoint * endpoint) :=
  match l with
  | [] => Some (x, y)
  | (true, a) :: l' =>
      match ep_exec (ep_out y) x a with
      | Some x' => if in_range_b x' y then sys_exec x' y l' else None
      | None => None
      end
  | (false, a) :: l' =>
      match ep_exec (ep_out x) y a with
      | Some y' => if in_range_b x y' then sys_exec x y' l' else None
      | None => None
      end
  end.

Lemma in_range_b_ok x y : in_range_b x y = true -> in_range x y.
Proof. unfold in_range_b, in_range. intros [H1 H2]%andb_prop. lia. Qed.

Lemma sys_exec_reach c x y l x' y' :
  sys_reach c x y -> sys_exec x y l = Some (x', y') -> sys_reach c x' y'.
Proof.
  revert x y. induction l as [|[[] a] l IH]; intros x y Hr; cbn [sys_exec].
  - intros [= <- <-]. exact Hr.
  - destruct (ep_exec (ep_out y) x a) as [x1|] eqn:E; [|discriminate].
    destruct (in_range_b x1 y) eqn:Er; [|discriminate]. apply IH.
    exact (SysLeft c x y x1 Hr (ep_exec_step _ _ _ _ E) (in_range_b_ok _ _ Er)).
  - destruct (ep_exec (ep_out x) y a) as [y1|] eqn:E; [|discriminate].
    destruct (in_range_b x y1) eqn:Er; [|discriminate]. apply IH.
    exact (SysRight c x y y1 Hr (ep_exec_step _ _ _ _ E) (in_range_b_ok _ _ Er)).
Qed.

(** The left endpoint sends two messages; the first datagram is delivered
    twice, acknowledged, and the right endpoint reads both messages. *)
Definition schedule : list (bool * act) :=
  [(true, ASend [104; 101; 108; 108; 111]); (true, AUpdate 1000);
   (true, ASend [119; 111]); (true, AUpdate 1100);
   (false, AInput 0); (false, AInput 0); (false, AUpdate 1000); (true, AInput 0);
   (false, ARecv 100); (true, AUpdate 1200); (false, AInput 1); (false, ARecv 100)].

Definition run1 : option (endpoint * endpoint) :=
  Eval vm_compute in sys_exec (new_ep kcb0) (new_ep kcb0) schedule.
