(* ===== verification/KcpFacts.v ===== *)
(** * KCP: exact effects of the acknowledgement, window and clock operations

    Lemmas that describe single operations of ikcp.c as filters, bounds and
    comparisons; the theorems of KcpProps.v are put together from them. *)

From S2P Require Import Prelude KcpWire KcpSeq KcpState KcpSend KcpRecv KcpInput.
From S2P Require Import KcpFlush KcpInv KcpFlushInv KcpOps KcpLink KcpSystem KcpPlan.

Local Open Scope Z_scope.

(** ** Acknowledgements as filters *)

(** On a list where the test never comes back once it failed, dropping the
    head that passes is filtering. *)
Lemma dropwhile_filter {X : Type} (f : X -> bool) l :
  (forall l1 x l2, l = l1 ++ x :: l2 -> f x = false -> Forall (fun y => f y = false) l2) ->
  dropwhile f l = List.filter (fun x => negb (f x)) l.
Proof.
  induction l as [|x l IH]; intros H; simpl; [reflexivity|].
  destruct (f x) eqn:E; simpl.
  - apply IH. intros l1 y l2 ->. apply (H (x :: l1)). reflexivity.
  - f_equal. pose proof (H [] x l eq_refl E) as Hl. clear -Hl.
    induction Hl as [|y l Hy _ IH]; simpl; [reflexivity|]. rewrite Hy. simpl. congruence.
Qed.

(** The part of a sorted list behind a segment lies further on. *)
Lemma sn_sorted_behind base lo hi l1 s l2 :
  sn_sorted base lo hi (l1 ++ s :: l2) -> Forall (fun x => off base s < off base x) l2.
Proof.
  intros H. apply sn_sorted_app in H as [_ H]. cbn in H. destruct H as (_ & _ & H).
  apply sn_sorted_Forall in H. eapply Forall_impl; [exact H|]. cbn. intros x Hx. lia.
Qed.

Lemma sn_sorted_mid base lo hi l1 s l2 :
  sn_sorted base lo hi (l1 ++ s :: l2) -> is_u32 (seg_sn s) /\ lo <= off base s < hi.
Proof.
  intros H. apply sn_sorted_Forall in H. apply Forall_app in H as [_ H]. inv H. assumption.
Qed.

Lemma una_filter k una :
  snd_wf k -> -2147418112 <= _itimediff una (snd_una k) ->
  dropwhile (una_test una) (snd_buf k) =
  List.filter (fun s => _itimediff una (seg_sn s) <=? 0) (snd_buf k).
Proof.
  intros [Hu Hx Hi Hso _ _ _ _ _] Hr. rewrite dropwhile_filter.
  - apply filter_ext. intros s. unfold una_test. destruct (Z.ltb_spec 0 (_itimediff una (seg_sn s)));
      destruct (Z.leb_spec (_itimediff una (seg_sn s)) 0); try reflexivity; lia.
  - intros l1 s l2 E Hs. rewrite E in Hso. pose proof (sn_sorted_behind _ _ _ _ _ _ Hso) as Hb.
    destruct (sn_sorted_mid _ _ _ _ _ _ Hso) as [_ Ho].
    assert (Hall : Forall (fun x => is_u32 (seg_sn x) /\ 0 <= off (snd_una k) x < inflight k) l2).
    { apply sn_sorted_Forall in Hso. apply Forall_app in Hso as [_ Hso]. inv Hso. assumption. }
    unfold una_test in *. apply Z.ltb_ge in Hs.
    pose proof (itimediff_range una (snd_una k)) as Hru.
    rewrite (itimediff_off (snd_una k)) in Hs by rlia.
    eapply Forall_impl; [exact (proj2 (Forall_and _ _) (conj Hb Hall))|]. cbn. intros x [H1 [_ H2]].
    rewrite (itimediff_off (snd_una k)) by rlia. apply Z.ltb_ge. lia.
Qed.

(** Removing the segment a sorted list has at most once. *)
Lemma parse_ack_filter base lo hi sn l :
  0 <= _itimediff sn base < hi -> hi <= 65536 -> is_u32 sn -> 0 <= lo -> sn_sorted base lo hi l ->
  (parse_ack_loop sn l).2 = List.filter (fun s => negb (seg_sn s =? sn)) l /\
  ((parse_ack_loop sn l).1 = false -> (parse_ack_loop sn l).2 = l).
Proof.
  intros Hsn Hhi Hu. revert lo. induction l as [|s l IH]; intros lo Hlo; simpl; [auto|].
  intros (Hs & Ho & Hl).
  assert (Hne : forall m, sn_sorted base m hi l -> _itimediff sn base < m ->
            List.filter (fun s => negb (seg_sn s =? sn)) l = l).
  { clear -Hu. intros m Hl Hm. apply sn_sorted_Forall in Hl.
    induction Hl as [|x l [Hx Hox] _ IHl]; simpl; [reflexivity|].
    destruct (Z.eqb_spec (seg_sn x) sn) as [E|]; [unfold off in Hox; rewrite E in Hox; lia|].
    simpl. rewrite IHl. reflexivity. }
  destruct (Z.eqb_spec sn (seg_sn s)) as [E|Hn].
  - cbn. rewrite <- E, Z.eqb_refl. cbn. split; [|discriminate].
    symmetry. eapply Hne; [exact Hl|]. unfold off. rewrite <- E. lia.
  - destruct (Z.eqb_spec (seg_sn s) sn) as [|_]; [congruence|]. cbn.
    destruct (Z.ltb_spec (_itimediff sn (seg_sn s)) 0) as [Hlt|Hge].
    + cbn. split; [|auto]. f_equal. symmetry. eapply Hne; [exact Hl|].
      rewrite (itimediff_off base) in Hlt by rlia. lia.
    + destruct (IH (off base s + 1) ltac:(lia) Hl) as [E1 E2]. destruct (parse_ack_loop sn l) as [b r]. cbn in *.
      split; [congruence|]. intros ->. f_equal. auto.
Qed.

Lemma ack_filter k sn :
  snd_wf k -> is_u32 sn ->
  snd_buf (ikcp_parse_ack k sn) = List.filter (fun s => negb (seg_sn s =? sn)) (snd_buf k).
Proof.
  intros Hwf Hu. pose proof Hwf as [Hua Hx Hi Hso _ _ _ _ _]. unfold ikcp_parse_ack.
  destruct ((_itimediff sn (snd_una k) <? 0) || (0 <=? _itimediff sn (snd_nxt k))) eqn:Ec.
  - symmetry. apply sn_sorted_Forall in Hso.
    assert (Hout : ~ 0 <= _itimediff sn (snd_una k) < inflight k).
    { intros Hin. apply orb_true_iff in Ec as [Ec|Ec]; [lia|]. apply Z.leb_le in Ec.
      revert Hin Ec Hi Hua Hx Hu. unfold inflight, _itimediff. clear. wrap_lia. }
    induction Hso as [|x l [Hxu Hxo] _ IHl]; simpl; [reflexivity|].
    destruct (Z.eqb_spec (seg_sn x) sn) as [E|]; [unfold off in Hxo; rewrite E in Hxo; lia|].
    simpl. rewrite IHl. reflexivity.
  - apply orb_false_iff in Ec as [E1 E2]. apply Z.ltb_ge in E1. apply Z.leb_gt in E2.
    assert (Hin : 0 <= _itimediff sn (snd_una k) < inflight k).
    { revert E1 E2 Hi Hua Hx Hu. unfold inflight, _itimediff. clear. wrap_lia. }
    destruct (parse_ack_filter (snd_una k) 0 (inflight k) sn (snd_buf k)) as [E3 E4]; try assumption; [lia | lia|].
    destruct (parse_ack_loop sn (snd_buf k)) as [[] r]; cbn in *; [exact E3|].
    rewrite <- E3. symmetry. auto.
Qed.

(** ** The send window *)
Lemma move_snd_window q w wnd k :
  snd_wf k -> is_u32 (rcv_nxt k) -> is_u32 (current k) -> is_u32 (conv k) ->
  snd_queue k = q -> 0 <= w <= 65535 ->
  let k' := move_snd_loop q w wnd k in
  inflight k' <= Z.max (inflight k) w /\ (snd_queue k' = [] \/ w <= inflight k').
Proof.
  cbv zeta. revert k. induction q as [|s q IH]; intros k Hwf Hr Hc Hcv E Hw; cbn [move_snd_loop].
  { split; [lia | left; exact E]. }
  destruct (Z.ltb_spec (_itimediff (snd_nxt k) (u32 (snd_una k + w))) 0) as [Hlt|Hge].
  - pose proof (snd_wf_move k w wnd s q Hwf Hr Hc Hcv E Hw Hlt) as Hwf1.
    assert (Hinf : inflight k < w).
    { destruct Hwf as [_ _ Hi _ _ _ _ _ _]. revert Hlt Hi. clear -Hw.
      unfold inflight, _itimediff. wrap_lia. }
    assert (Hi1 : inflight (moved_one k wnd s q) = inflight k + 1).
    { pose proof (wf_inflight _ Hwf) as Hi. clear -Hi. unfold inflight in *. cbn.
      rewrite itimediff_u32_l. unfold _itimediff in *. wrap_lia. }
    destruct (IH (moved_one k wnd s q) Hwf1 Hr Hc Hcv eq_refl Hw) as [H1 H2].
    split; [|exact H2]. cbv zeta. unfold moved_one in H1 at 1. 
    etransitivity; [exact H1|]. rewrite Hi1. lia.
  - split; [lia|]. right. pose proof (wf_inflight _ Hwf) as Hi. revert Hge Hi Hw. clear.
    unfold inflight, _itimediff. wrap_lia.
Qed.

(** The numbers and queue a flush ends with are those of the move loop. *)
Lemma flush_numbers k k' :
  ack_wf k -> updated k <> 0 -> ikcp_flush k = Ret k' ->
  let m := move_snd k (flush_cwnd k) (seg_wnd (flush_seg k)) in
  snd_nxt k' = snd_nxt m /\ snd_una k' = snd_una m /\ snd_queue k' = snd_queue m.
Proof.
  intros Ha Hu. cbv zeta. unfold ikcp_flush. destruct (Z.eqb_spec (updated k) 0) as [|_]; [contradiction|].
  intros ([[k1 p1] seg] & E1 & E)%obind_Ret.
  apply flush_ctl_emits in E1 as (Hf & Hw & _); [|exact Ha].
  assert (Ew : flush_cwnd k1 = flush_cwnd k) by (red in Hf; frame Hf).
  assert (Eq : snd_queue k1 = snd_queue k) by (red in Hf; frame Hf).
  rewrite Ew, Hw in E. cbv zeta in E. unfold move_snd in *. rewrite Eq in E. red in Hf.
  change (k1 = ctl_set k (trace k1) (ackcount k1) (ts_probe k1) (probe_wait k1) (probe k1)) in Hf.
  rewrite Hf, move_snd_ctl in E. clear Hf Ew Eq.
  generalize dependent (move_snd_loop (snd_queue k) (flush_cwnd k) (seg_wnd (flush_seg k)) k). intros m E.
  apply obind_Ret in E as ([[r k3] v] & E3 & E). apply flush_data_emits in E3 as [Hf3 _]. red in Hf3.
  apply obind_Ret in E as (k4 & E4 & [= <-]). rewrite flush_ssthresh_eq.
  assert (Hk4 : k4 = k3 <| snd_buf := r |> <| trace := trace k4 |>).
  { unfold flush_rest in E4. destruct (0 <? _); [exact (output_trace _ _ _ E4)|].
    injection E4 as <-. destruct k3; reflexivity. }
  cbn. rewrite Hk4, Hf3. split; [reflexivity|]. split; reflexivity.
Qed.

(** ** The clock *)
Lemma check_loop_le l now tm m :
  check_loop l now tm = Some m ->
  m <= tm /\ Forall (fun s => 0 < _itimediff (seg_resendts s) now /\ m <= _itimediff (seg_resendts s) now) l.
Proof.
  revert tm. induction l as [|s l IH]; intros tm; cbn [check_loop].
  { intros [= <-]. split; [lia | constructor]. }
  destruct (Z.leb_spec (_itimediff (seg_resendts s) now) 0) as [|Hp]; [discriminate|].
  intros E. apply IH in E as [H1 H2]. revert H1.
  destruct (Z.ltb_spec (_itimediff (seg_resendts s) now) tm); intros H1; (split; [lia|]);
    (constructor; [split; lia | exact H2]).
Qed.

Lemma check_loop_pos l now tm m : 0 < tm -> check_loop l now tm = Some m -> 0 < m.
Proof.
  revert tm. induction l as [|s l IH]; intros tm Ht; cbn [check_loop].
  { intros [= <-]. exact Ht. }
  destruct (Z.leb_spec (_itimediff (seg_resendts s) now) 0) as [|Hp]; [discriminate|].
  apply IH. destruct (_ <? tm); lia.
Qed.

(** Either a call is due now, or every deadline is at least [m] away. *)
Lemma check_cases k now :
  kcp_wf k -> updated k <> 0 -> is_u32 now ->
  ikcp_check k now = now \/
  exists m, ikcp_check k now = u32 (now + m) /\ 0 < m <= interval k /\
    m <= _itimediff (ts_flush k) now <= 10000 /\
    Forall (fun s => m <= _itimediff (seg_resendts s) now) (snd_buf k).
Proof.
  intros Hwf Hu Hn. unfold ikcp_check. destruct (Z.eqb_spec (updated k) 0) as [|_]; [contradiction|].
  pose proof (wf_interval _ (wf_cfg _ Hwf)) as Hiv. pose proof (wf_ts_flush _ (wf_cfg _ Hwf)) as Ht.
  destruct ((10000 <=? _itimediff now (ts_flush k)) || (_itimediff now (ts_flush k) <? -10000)) eqn:Ec.
  { rewrite itimediff_self. left. reflexivity. }
  apply orb_false_iff in Ec as [E1 E2]. apply Z.leb_gt in E1. apply Z.ltb_ge in E2.
  destruct (Z.leb_spec 0 (_itimediff now (ts_flush k))) as [|Hlt]; [left; reflexivity|].
  assert (Hd : 0 < _itimediff (ts_flush k) now <= 10000).
  { revert Hlt E2 Hn Ht. clear. unfold _itimediff. wrap_lia. }
  destruct (check_loop (snd_buf k) now 2147483647) as [tp|] eqn:El; [|left; reflexivity]. right.
  pose proof (check_loop_pos _ _ 2147483647 _ ltac:(lia) El) as Hp.
  apply check_loop_le in El as [Htp Hall].
  set (m0 := if tp <? _itimediff (ts_flush k) now then tp else _itimediff (ts_flush k) now).
  assert (Hm0 : 0 < m0 /\ m0 <= tp /\ m0 <= _itimediff (ts_flush k) now)
    by (subst m0; destruct (Z.ltb_spec tp (_itimediff (ts_flush k) now)); lia).
  cbv zeta. rewrite (u32_id m0) by rlia.
  exists (if interval k <=? m0 then interval k else m0). split; [reflexivity|].
  destruct (Z.leb_spec (interval k) m0); (split; [lia|]; split; [lia|]);
    (eapply Forall_impl; [exact Hall|]); cbn; intros s Hs; lia.
Qed.

(** Before the time [ikcp_check] returned, [ikcp_update] has nothing to do. *)
Lemma check_update k now t :
  kcp_wf k -> updated k <> 0 -> is_u32 now ->
  0 <= _itimediff t now < _itimediff (ikcp_check k now) now ->
  ikcp_update k t = Ret (k <| current := t |>) /\
  Forall (fun s => _itimediff t (seg_resendts s) < 0) (snd_buf k).
Proof.
  intros Hwf Hu Hn Ht.
  destruct (check_cases k now Hwf Hu Hn) as [E|(m & E & Hm & Hf & Hall)].
  { rewrite E, itimediff_self in Ht. lia. }
  pose proof (wf_interval _ (wf_cfg _ Hwf)) as Hiv. rewrite E, itimediff_offset in Ht by rlia.
  assert (Hs : -10000 <= _itimediff t (ts_flush k) < 0).
  { revert Ht Hf. clear. unfold _itimediff. wrap_lia. }
  split.
  - unfold ikcp_update. cbn [updated current upd set_current].
    destruct (Z.eqb_spec (updated k) 0) as [|_]; [contradiction|]. cbn [current ts_flush upd set_current].
    destruct (Z.leb_spec 10000 (_itimediff t (ts_flush k))); [lia|].
    destruct (Z.ltb_spec (_itimediff t (ts_flush k)) (-10000)); [lia|]. cbn [orb].
    destruct (Z.leb_spec 0 (_itimediff t (ts_flush k))); [lia|]. reflexivity.
  - eapply Forall_impl; [exact Hall|]. cbn. intros s Hs'.
    pose proof (itimediff_range (seg_resendts s) now) as Hr. assert (Htn : 0 <= _itimediff t now < 5000) by lia.
    revert Hs' Hr Ht Htn. clear. unfold _itimediff. wrap_lia.
Qed.

(** ** Return codes *)
Section Codes.
Context {A : Alloc}.

Lemma input_loop_code fuel k l data size k' c :
  input_loop fuel k l data size = Ret (k', LError c) -> c = -1 \/ c = -2 \/ c = -3.
Proof.
  revert k l data size. induction fuel as [|fuel IH]; intros k l data size E; cbn [input_loop] in E;
    [discriminate|].
  destruct (size <? IKCP_OVERHEAD); [discriminate|].
  destruct (ikcp_decode32u data) as [[cv d1]|]; [|discriminate].
  destruct (negb (cv =? conv k)); [injection E as _ <-; auto|].
  destruct (decode_header d1) as [[h d2]|]; [|discriminate].
  destruct (_ || _); [injection E as _ <-; auto|].
  destruct (negb _); [injection E as _ <-; auto|].
  apply obind_Ret in E as ([k1 l1] & _ & E). exact (IH _ _ _ _ E).
Qed.

Lemma input_code k data size r k' :
  ikcp_input k data size = Ret (r, k') -> -3 <= r <= 0.
Proof.
  unfold ikcp_input. cbv zeta. destruct data as [d|]; [|intros [= <- _]; lia].
  destruct (_ <? IKCP_OVERHEAD); [intros [= <- _]; lia|].
  intros ([k1 e] & E1 & E)%obind_Ret. destruct e as [l|c]; [injection E as <- _; lia|].
  injection E as <- _. apply input_loop_code in E1. lia.
Qed.
End Codes.

(** ** Messages *)
Section Messages.
Context {A : Alloc} `{!AllocSized A}.

(** [ikcp_send] in message mode. *)
Lemma send_message_spec k m :
  kcp_wf k -> segs_fit k -> stream k = 0 -> is_bytes m -> lenZ m < 2147483648 ->
  out_of_memory (ikcp_send k (Some m) (lenZ m)) \/
  (IKCP_WND_RCV <= send_count k (lenZ m) /\ ikcp_send k (Some m) (lenZ m) = Ret (-2, k)) \/
  (exists segs n, ikcp_send k (Some m) (lenZ m) =
       Ret (0, k <| snd_queue := snd_queue k ++ segs |> <| nsnd_que := n |>) /\
     map seg_frg segs = frg_desc (Z.to_nat (send_count k (lenZ m))) /\
     concat (map seg_data segs) = m /\ Forall (fun s => seg_len s <= mss k) segs).
Proof.
  intros Hwf Hf Hst Hb Hm.
  destruct (ikcp_send_result k (Some m) (lenZ m) Hwf Hf) as [Ho|([r k'] & E & Hr & _)];
    [rlia | split; [exact Hb | lia] | left; exact Ho | right]. rewrite E.
  remember (r, k') as res eqn:Er. destruct Hr as [Hn|q Hs _ _ _|n q Hn Hq Hbig Hs _|n q segs c Hn Hq Hs Hq' Hfr Hc Hsy];
    injection Er as <- <-.
  - lia.
  - contradiction.
  - left. destruct (Hs Hst) as [-> ->]. rewrite Z.sub_0_r in Hbig. split; [exact Hbig|].
    replace (k <| snd_queue := snd_queue k |>) with k by (destruct k; reflexivity). reflexivity.
  - right. destruct (Hs Hst) as [-> ->]. rewrite Z.sub_0_r in *. exists segs, c. split; [reflexivity|].
    destruct Hfr as [_ Hfit Hfrg Hby]. rewrite Hst in Hfrg. cbn in Hfrg. split; [exact Hfrg|].
    split; [|exact Hfit]. etransitivity; [exact (Hby m eq_refl)|]. apply take_ge. lia.
Qed.

(** In any mode the queued bytes grow by a prefix of the buffer, by all of it
    when the call reports success. *)
Lemma send_bytes k m :
  kcp_wf k -> segs_fit k -> is_bytes m -> lenZ m < 2147483648 ->
  out_of_memory (ikcp_send k (Some m) (lenZ m)) \/
  exists r k' n, ikcp_send k (Some m) (lenZ m) = Ret (r, k') /\ 0 <= n <= lenZ m /\
    msg_bytes (snd_queue k') = msg_bytes (snd_queue k) ++ take (Z.to_nat n) m /\
    (r = 0 /\ n = lenZ m \/ r = -2 /\ (stream k = 0 -> n = 0)).
Proof.
  intros Hwf Hf Hb Hm.
  destruct (ikcp_send_result k (Some m) (lenZ m) Hwf Hf) as [Ho|([r k'] & E & Hr & _)];
    [rlia | split; [exact Hb | lia] | left; exact Ho | right]. rewrite E. exists r, k'.
  remember (r, k') as res eqn:Er. destruct Hr as [Hn|q Hs H0 Hq Hby|n q Hn Hq Hbig Hs Hby|n q segs c Hn Hq Hs Hby Hfr Hc Hsy];
    injection Er as <- <-.
  - lia.
  - exists (lenZ m). split; [reflexivity|]. split; [lia|]. split; [exact (Hby m eq_refl) | auto].
  - exists n. split; [reflexivity|]. split; [exact Hn|]. split; [exact (Hby m eq_refl)|].
    right. split; [reflexivity|]. intros H. apply (Hs H).
  - exists (lenZ m). split; [reflexivity|]. split; [lia|]. split; [|auto]. cbn.
    unfold msg_bytes. rewrite map_app, concat_app. fold (msg_bytes q) (msg_bytes segs).
    rewrite (Hby m eq_refl), (fr_bytes _ _ _ _ _ Hfr _ eq_refl), <- app_assoc. f_equal.
    rewrite (take_ge m (Z.to_nat (lenZ m))) by lia.
    rewrite (take_ge (drop (Z.to_nat n) m)) by (rewrite length_drop; lia). apply take_drop.
Qed.
End Messages.

(** ** Reordering *)
Lemma parse_data_effect k s :
  kcp_wf k -> is_u32 (seg_sn s) -> seg_payload s ->
  0 <= _itimediff (seg_sn s) (rcv_nxt k) ->
  _itimediff (seg_sn s) (u32 (rcv_nxt k + rcv_wnd k)) < 0 ->
  let k' := ikcp_parse_data k s in
  rcv_wf k' /\
  (exists moved, rcv_queue k' = rcv_queue k ++ moved /\ sn_contig (rcv_nxt k) moved /\
     rcv_nxt k' = u32 (rcv_nxt k + lenZ moved) /\
     exists s', s' ∈ moved ++ rcv_buf k' /\ seg_sn s' = seg_sn s) /\
  move_stops k' (rcv_buf k').
Proof.
  intros Hwf Hs Hp H1 H2. cbv zeta. unfold ikcp_parse_data.
  destruct (Z.leb_spec 0 (_itimediff (seg_sn s) (u32 (rcv_nxt k + rcv_wnd k)))); [lia|].
  destruct (Z.ltb_spec (_itimediff (seg_sn s) (rcv_nxt k)) 0); [lia|]. cbn [orb].
  pose proof (itimediff_range (seg_sn s) (rcv_nxt k)) as Hr.
  assert (Ho : 0 <= off (rcv_nxt k) s < 2147483648) by (unfold off; rlia).
  pose proof (wf_rcv _ Hwf) as Hrw.
  pose proof (insert_rcv_buf_wf k s Hrw Hs Hp Ho) as Hw1.
  assert (Hin : exists s', s' ∈ rcv_buf (insert_rcv_buf k s) /\ seg_sn s' = seg_sn s).
  { destruct (insert_rcv_buf_spec k s Hrw Hs Ho) as [[-> (s' & ? & ?)]|(l1 & l2 & n & _ & -> & _)]; [eauto|].
    exists s. cbn. rewrite elem_of_app, elem_of_cons. auto. }
  destruct (insert_rcv_buf_frame k s) as (b & n & E). rewrite E in *.
  assert (Hu : is_u32 (rcv_wnd k)).
  { pose proof (wf_rcv_wnd _ (wf_cfg _ Hwf)). unfold IKCP_WND_RCV in *. rlia. }
  destruct (move_rcv_spec _ Hw1 Hu) as (moved & rest & Eb & Hc & Em & Hw2 & Hst).
  split; [exact Hw2|]. rewrite Em in *. split; [|exact Hst].
  exists moved. split; [reflexivity|]. split; [exact Hc|]. split; [reflexivity|]. cbn in Eb, Hin |- *.
  rewrite <- Eb. exact Hin.
Qed.

(** ** Round-trip time *)
Lemma update_ack_smooth k rtt :
  0 < rx_srtt k <= 268435455 -> 0 <= rx_rttval k <= 268435455 -> 0 <= rtt <= 268435455 ->
  let k' := ikcp_update_ack k rtt in
  rx_srtt k' = Z.max 1 ((7 * rx_srtt k + rtt) / 8) /\
  rx_rttval k' = (3 * rx_rttval k + Z.abs (rtt - rx_srtt k)) / 4.
Proof.
  intros H1 H2 H3. cbv zeta. unfold ikcp_update_ack.
  destruct (Z.eqb_spec (rx_srtt k) 0) as [|_]; [lia|]. cbv zeta.
  assert (Ed : (if i32 (rtt - rx_srtt k) <? 0 then i32 (- i32 (rtt - rx_srtt k))
                else i32 (rtt - rx_srtt k)) = Z.abs (rtt - rx_srtt k)).
  { rewrite (i32_id (rtt - rx_srtt k)) by rlia. destruct (Z.ltb_spec (rtt - rx_srtt k) 0).
    - rewrite i32_id by rlia. lia.
    - lia. }
  rewrite Ed. cbn [rx_srtt upd set_rx_srtt set_rx_rttval].
  rewrite (i32_id (3 * rx_rttval k)), (i32_id (7 * rx_srtt k)) by rlia.
  rewrite (i32_id (3 * rx_rttval k + _)), (i32_id (7 * rx_srtt k + rtt)) by rlia.
  rewrite !Z.quot_div_nonneg by lia.
  destruct (Z.ltb_spec ((7 * rx_srtt k + rtt) / 8) 1); cbn; (split; [lia | reflexivity]).
Qed.

(** ** Window probes *)
Lemma land_lor_self p f : f <> 0 -> Z.land (Z.lor p f) f <> 0.
Proof.
  intros Hf. rewrite Z.land_lor_distr_l, Z.land_diag. intros E. apply Z.lor_eq_0_iff in E. tauto.
Qed.

Lemma probe_due k :
  rmt_wnd k = 0 -> 0 < probe_wait k <= IKCP_PROBE_LIMIT -> 0 <= _itimediff (current k) (ts_probe k) ->
  Z.land (probe (flush_probe k)) IKCP_ASK_SEND <> 0 /\
  IKCP_PROBE_INIT <= probe_wait (flush_probe k) <= IKCP_PROBE_LIMIT /\
  ts_probe (flush_probe k) = u32 (current k + probe_wait (flush_probe k)).
Proof.
  intros H1 H2 H3. unfold flush_probe, IKCP_PROBE_LIMIT, IKCP_PROBE_INIT in *. rewrite H1. cbn [Z.eqb].
  destruct (Z.eqb_spec (probe_wait k) 0) as [|_]; [lia|].
  destruct (Z.leb_spec 0 (_itimediff (current k) (ts_probe k))) as [_|]; [|lia]. cbv zeta.
  assert (Hd : 0 <= probe_wait k / 2 <= 60000) by (Z.div_mod_to_equations; lia).
  destruct (Z.ltb_spec (probe_wait k) 7000); cbn [probe_wait upd set_probe_wait].
  - change (u32 (7000 + 7000 / 2)) with 10500. cbn. split; [apply land_lor_self; discriminate|].
    split; [lia | reflexivity].
  - rewrite (u32_id (probe_wait k + _)) by rlia.
    destruct (Z.ltb_spec 120000 (probe_wait k + probe_wait k / 2)); cbn;
      (split; [apply land_lor_self; discriminate|]); (split; [lia | reflexivity]).
Qed.
