(* ===== verification/KcpProps.v ===== *)
(** * KCP: the theorems

    The properties of ikcp.c, each followed by a witness that applies it to a
    concrete block or run, and the behaviours of the code that differ from what
    its comments and callers expect. *)

From S2P Require Import Prelude KcpWire KcpSeq KcpState KcpSend KcpRecv KcpInput.
From S2P Require Import KcpFlush KcpInv KcpFlushInv KcpOps KcpLink KcpSystem KcpPlan.
From S2P Require Import KcpRun KcpFacts.

Local Open Scope Z_scope.

(** ** Concrete blocks *)

(** The endpoints at the end of [schedule]. *)
Definition end_left : endpoint := match run1 with Some (x, _) => x | None => new_ep kcb0 end.
Definition end_right : endpoint := match run1 with Some (_, y) => y | None => new_ep kcb0 end.

Lemma run1_reach : sys_reach 7 end_left end_right.
Proof.
  apply (sys_exec_reach 7 (new_ep kcb0) (new_ep kcb0) schedule).
  - apply SysNew; apply kcb0_fresh.
  - vm_compute. reflexivity.
Qed.

Lemma kcb0_wf : kcp_wf kcb0 /\ segs_fit kcb0.
Proof. exact (reachable_wf kcb0 kcb0_reachable). Qed.

Lemma end_left_wf : kcp_wf (ep_kcb end_left) /\ segs_fit (ep_kcb end_left).
Proof. split; apply (si_left _ _ _ (sys_reach_inv _ _ _ run1_reach)). Qed.

Lemma end_right_wf : kcp_wf (ep_kcb end_right) /\ segs_fit (ep_kcb end_right).
Proof. split; apply (si_right _ _ _ (sys_reach_inv _ _ _ run1_reach)). Qed.

(** ** End to end *)
Section EndToEnd.
Context {A : Alloc} `{!AllocSized A}.

(** C1: Reliable delivery. Over a network that loses, duplicates, delays and
    reorders datagrams, the messages [ikcp_recv] has returned at one endpoint
    are a prefix of the messages [ikcp_send] has accepted at the other: whole,
    unchanged, in order, none twice.  Both directions at once. *)
Theorem messages_delivered_in_order (c : Z) (x y : endpoint) (H : sys_reach c x y) :
  ep_got y `prefix_of` ep_sent x /\ ep_got x `prefix_of` ep_sent y.
Proof.
  destruct (sys_reach_inv c x y H) as [_ _ (frs & j & L) (frs' & j' & L') _].
  rewrite (lk_got _ _ _ _ L), (lk_got _ _ _ _ L'). split; apply prefix_take.
Qed.

(** C2: No segment is forgotten. Every number the sender has given out is either
    still in its [snd_buf], where it is resent until acknowledged, or has been
    received by the peer; and each segment in [snd_buf] carries what was
    logged under its number. *)
Theorem no_segment_lost (c : Z) (x y : endpoint) (H : sys_reach c x y) (i : Z)
    (Hi : 0 <= i < snd_nxt (ep_kcb x)) :
  (exists s, s ∈ snd_buf (ep_kcb x) /\ seg_sn s = i /\
             ep_log x !! Z.to_nat i = Some (seg_frg s, seg_data s)) \/
  received (ep_kcb y) i.
Proof.
  destruct (sys_reach_inv c x y H) as [Hx _ (frs & j & L) _ _].
  rewrite (ei_nxt _ _ Hx) in Hi.
  destruct (lk_covered _ _ _ _ L i Hi) as [(s & Hs & E)|Hr]; [left | right; exact Hr].
  exists s. split; [exact Hs|]. split; [exact E|]. rewrite <- E. exact (ei_buf _ _ Hx s Hs).
Qed.

(** C3: No call crashes but for memory. Whatever sequence of calls created and
    used a block, each meeting its obligations ([op_ok]), and whatever the
    allocator answered, the next call that meets them returns a well-formed
    block: no assertion fails, no access leaves its object, every loop ends.
    The one exception is a send or an input for which the allocator refuses a
    block: it stops at the assertion on that block or at the null pointer. *)
Theorem calls_never_crash (k : ikcpcb) (op : kop) (Hk : reachable k) (Hop : op_ok k op) :
  (exists k', run_op k op = Ret k' /\ kcp_wf k' /\ segs_fit k') \/
  (allocates op = true /\ (run_op k op = Crash AssertFail \/ run_op k op = Crash NullDeref) /\
   exists n, malloc_ok n = false).
Proof.
  destruct (reachable_wf k Hk) as [Hwf Hf]. destruct (run_op_spec k op Hwf Hf Hop) as [H|H]; [right | left]; exact H.
Qed.
End EndToEnd.

Lemma messages_delivered_in_order_witness :
  length (ep_got end_right) = 2%nat /\
  ep_got end_right `prefix_of` ep_sent end_left /\ ep_got end_left `prefix_of` ep_sent end_right.
Proof.
  split; [reflexivity|]. apply (messages_delivered_in_order 7 end_left end_right). exact run1_reach.
Defined.

Lemma no_segment_lost_witness :
  snd_nxt (ep_kcb end_left) = 2 /\
  ((exists s, s ∈ snd_buf (ep_kcb end_left) /\ seg_sn s = 1 /\
              ep_log end_left !! Z.to_nat 1 = Some (seg_frg s, seg_data s)) \/
   received (ep_kcb end_right) 1).
Proof.
  split; [reflexivity|]. apply (no_segment_lost 7 end_left end_right run1_reach 1).
  vm_compute. split; [discriminate | reflexivity].
Defined.

(** A send of 50 bytes, with memory and with an allocator that refuses it. *)
Definition send50 : kop := OpSend (Some (repeat 65 50)) 50.

Lemma send50_ok : op_ok kcb0 send50.
Proof. split; [rlia|]. split; [apply Forall_forall; intros x Hx%list_elem_of_In%repeat_spec; subst; rlia | cbn; lia]. Qed.

Lemma calls_never_crash_witness :
  (exists k', run_op kcb0 send50 = Ret k' /\ kcp_wf k' /\ segs_fit k') /\
  run_op (A := tiny) kcb0 send50 = Crash AssertFail.
Proof.
  split.
  - destruct (calls_never_crash (A := calloc) kcb0 send50 kcb0_reachable send50_ok) as [H|[_ H]];
      [exact H | destruct (calloc_total _ H)].
  - destruct (calls_never_crash (A := tiny) kcb0 send50 kcb0_reachable send50_ok) as [(k' & E & _)|(_ & [E|E] & _)];
      [vm_compute in E; discriminate | exact E | vm_compute in E; discriminate].
Defined.

(** ** Flushing *)

(** C4: What a flush sends. On a well-formed block with segments that fit,
    [ikcp_flush] returns; the bytes it hands to [output] are the wire images
    of [flush_plan] (acknowledgements, probes, due data) in order, cut into
    datagrams of 1 to [mtu] bytes; nothing is written outside [kcp->buffer]. *)
Theorem flush_sends_plan (k : ikcpcb) (Hwf : kcp_wf k) (Hfit : segs_fit k)
    (Ho : output k = true) (Hu : updated k <> 0) :
  exists k' t, ikcp_flush k = Ret k' /\ trace k' = trace k ++ t /\
    concat (outputs t) = wire (flush_plan k) /\
    Forall (fun d => 0 < lenZ d <= mtu k) (outputs t).
Proof.
  destruct (ikcp_flush_spec k Hwf Hfit Ho Hu) as (k' & t & moved & E & Hr).
  exists k', t. split; [exact E|]. pose proof (fl_trace _ _ _ _ Hr) as Et. split; [exact Et|]. split.
  - pose proof (flush_emits_plan k k' (wf_ack _ Hwf) Hu E) as Hp.
    unfold sent_bytes in Hp. rewrite Et, outputs_app, concat_app in Hp. exact (app_inv_head _ _ _ Hp).
  - apply outputs_Forall. eapply Forall_impl; [exact (fl_events _ _ _ _ Hr)|].
    intros [d|m]; [|auto]. intros [_ Hd]. exact Hd.
Qed.


Definition busy : ikcpcb := (ep_kcb end_left) <| current := 9000 |>.

Lemma busy_wf : kcp_wf busy /\ segs_fit busy.
Proof.
  split; [|exact (proj2 end_left_wf)]. destruct (proj1 end_left_wf) as [Hc Hs Hr Ha].
  constructor; [|wf_frame..]. destruct Hc. constructor; assumption.
Qed.

Lemma flush_sends_plan_witness :
  length (flush_plan busy) = 1%nat /\
  exists k' t, ikcp_flush busy = Ret k' /\ trace k' = trace busy ++ t /\
    concat (outputs t) = wire (flush_plan busy) /\
    Forall (fun d => 0 < lenZ d <= mtu busy) (outputs t).
Proof.
  split; [vm_compute; reflexivity|]. apply (flush_sends_plan busy).
  - apply busy_wf.
  - apply busy_wf.
  - reflexivity.
  - vm_compute. discriminate.
Defined.


(** ** Sending and receiving *)
Section Messages.
Context {A : Alloc} `{!AllocSized A}.

(** Fragmentation. In message mode [ikcp_send] either refuses a message of 128
    or more fragments with -2 and leaves the block as it was, or returns 0 and
    queues fragments of at most [mss] bytes, numbered down to 0, whose bytes
    are the message; or a request for memory was refused. *)
Theorem send_fragments (k : ikcpcb) (m : list Z) (Hwf : kcp_wf k) (Hf : segs_fit k)
    (Hst : stream k = 0) (Hb : is_bytes m) (Hm : lenZ m < 2147483648) :
  out_of_memory (ikcp_send k (Some m) (lenZ m)) \/
  (IKCP_WND_RCV <= send_count k (lenZ m) /\ ikcp_send k (Some m) (lenZ m) = Ret (-2, k)) \/
  (exists segs n, ikcp_send k (Some m) (lenZ m) =
       Ret (0, k <| snd_queue := snd_queue k ++ segs |> <| nsnd_que := n |>) /\
     map seg_frg segs = frg_desc (Z.to_nat (send_count k (lenZ m))) /\
     concat (map seg_data segs) = m /\ Forall (fun s => seg_len s <= mss k) segs).
Proof. exact (send_message_spec k m Hwf Hf Hst Hb Hm). Qed.

(** Bytes queued. In message and in stream mode a send extends the queued
    bytes by a prefix of the buffer: by all of it when it returns 0; when it
    returns -2, by nothing in message mode; or a request for memory was refused. *)
Theorem send_appends_bytes (k : ikcpcb) (m : list Z) (Hwf : kcp_wf k) (Hf : segs_fit k)
    (Hb : is_bytes m) (Hm : lenZ m < 2147483648) :
  out_of_memory (ikcp_send k (Some m) (lenZ m)) \/
  exists r k' n, ikcp_send k (Some m) (lenZ m) = Ret (r, k') /\ 0 <= n <= lenZ m /\
    msg_bytes (snd_queue k') = msg_bytes (snd_queue k) ++ take (Z.to_nat n) m /\
    (r = 0 /\ n = lenZ m \/ r = -2 /\ (stream k = 0 -> n = 0)).
Proof. exact (send_bytes k m Hwf Hf Hb Hm). Qed.

(** Input is safe on any bytes. For every datagram, whatever it holds,
    [ikcp_input] returns a code between -3 and 0, reads nothing outside the
    datagram, and keeps the block well formed; or a request for memory was refused. *)
Theorem input_any_datagram (k : ikcpcb) (d : list Z) (size : Z) (Hwf : kcp_wf k) (Hf : segs_fit k)
    (Hb : is_bytes d) (Hs : is_i32 size) (Hl : size <= lenZ d)
    (Ha : 24 * ackcount k + size < 3221225472) :
  out_of_memory (ikcp_input k (Some d) size) \/
  exists r k', ikcp_input k (Some d) size = Ret (r, k') /\ -3 <= r <= 0 /\ kcp_wf k' /\ segs_fit k'.
Proof.
  destruct (input_total k d size Hwf Hb Hs Hl Ha) as [Ho|(r & k' & E)]; [left; exact Ho | right]. exists r, k'.
  assert (Hd : forall d0, Some d = Some d0 -> is_bytes d0) by (intros d0 [= <-]; exact Hb).
  split; [exact E|]. split; [exact (input_code _ _ _ _ _ E)|].
  split; [exact (kcp_wf_input _ _ _ _ _ Hd E Hwf) | exact (proj2 (input_effect _ _ _ _ _ Hwf Hd E) Hf)].
Qed.
End Messages.

(** Reassembly. [ikcp_recv] with a buffer of [len] bytes returns -1 on an
    empty queue, -2 on an incomplete message, -3 on a short buffer, each time
    leaving the block as it was; otherwise it returns [ikcp_peeksize], copies
    the fragments of the first message, takes exactly these off the queue and
    appends what has become contiguous. *)
Theorem recv_first_message (k : ikcpcb) (len : Z) (Hwf : kcp_wf k) (Hl : 0 <= len < 2147483648) :
  exists r out k', ikcp_recv k true len = Ret (r, out, k') /\
    ((out = [] /\ k' = k /\
      (r = -1 /\ rcv_queue k = [] \/
       r = -2 /\ rcv_queue k <> [] /\ ikcp_peeksize k < 0 \/
       r = -3 /\ len < ikcp_peeksize k)) \/
     (r = ikcp_peeksize k /\ 0 <= r <= len /\
      out = msg_bytes (split_msg (rcv_queue k)).1 /\ r = i32 (lenZ out) /\
      exists moved, rcv_queue k' = (split_msg (rcv_queue k)).2 ++ moved /\
        rcv_buf k = moved ++ rcv_buf k' /\ sn_contig (rcv_nxt k) moved)).
Proof.
  destruct (ikcp_recv_result k true len Hwf ltac:(rlia)) as ([[r out] k'] & E & Hr & _).
  exists r, out, k'. split; [exact E|]. clear E.
  assert (Ea : i32 (Z.abs len) = len) by (rewrite i32_id; rlia).
  remember (r, out, k') as res eqn:Er.
  destruct Hr as [Hq|Hq Hp|Hp Hs|t moved rest p Hp Ht Eb Hc]; injection Er as <- <- <-.
  - left. auto.
  - left. auto 8.
  - left. rewrite Ea in Hs. auto 8.
  - right. rewrite Ea in Hp. split; [reflexivity|]. split; [exact Hp|]. split; [reflexivity|].
    split; [exact (proj2 (peeksize_eq k (wf_rcv _ Hwf) (proj1 Hp)))|].
    exists moved. destruct (Z.ltb_spec len 0); [lia|]. auto.
Qed.

(** Reordering. A data segment inside the receive window is kept in its place
    in [rcv_buf] (or was already there), the run of consecutive numbers from
    [rcv_nxt] on moves to [rcv_queue], and what stays in [rcv_buf] is in
    strictly increasing order and does not start at [rcv_nxt] unless the queue
    is full. *)
Theorem parse_data_orders (k : ikcpcb) (s : IKCPSEG) (Hwf : kcp_wf k) (Hs : is_u32 (seg_sn s))
    (Hp : seg_payload s) (H1 : 0 <= _itimediff (seg_sn s) (rcv_nxt k))
    (H2 : _itimediff (seg_sn s) (u32 (rcv_nxt k + rcv_wnd k)) < 0) :
  let k' := ikcp_parse_data k s in
  sn_sorted (rcv_nxt k') 0 2147483648 (rcv_buf k') /\
  (exists moved, rcv_queue k' = rcv_queue k ++ moved /\ sn_contig (rcv_nxt k) moved /\
     rcv_nxt k' = u32 (rcv_nxt k + lenZ moved) /\
     exists s', s' ∈ moved ++ rcv_buf k' /\ seg_sn s' = seg_sn s) /\
  move_stops k' (rcv_buf k').
Proof.
  destruct (parse_data_effect k s Hwf Hs Hp H1 H2) as (Hr & Hm). split; [apply Hr | exact Hm].
Qed.

(** ** Acknowledgements *)

(** Cumulative acknowledgement. [ikcp_parse_una] removes from [snd_buf]
    exactly the segments numbered below [una] and keeps the counter in step. *)
Theorem parse_una_removes_acked (k : ikcpcb) (una : Z) (Hwf : kcp_wf k)
    (Hu : -2147418112 <= _itimediff una (snd_una k)) :
  let k' := ikcp_parse_una k una in
  snd_buf k' = List.filter (fun s => _itimediff una (seg_sn s) <=? 0) (snd_buf k) /\
  nsnd_buf k' = u32 (lenZ (snd_buf k')).
Proof.
  cbv zeta. split; [|exact (wf_nsnd_buf _ (wf_snd _ (kcp_wf_parse_una k una Hwf)))].
  rewrite <- (una_filter k una (wf_snd _ Hwf) Hu). destruct (parse_una_eq k una) as (n & -> & _).
  reflexivity.
Qed.

(** Selective acknowledgement. [ikcp_parse_ack] removes exactly the segment
    with the acknowledged number, whatever number the peer names. *)
Theorem parse_ack_removes_one (k : ikcpcb) (sn : Z) (Hwf : kcp_wf k) (Hs : is_u32 sn) :
  let k' := ikcp_parse_ack k sn in
  snd_buf k' = List.filter (fun s => negb (seg_sn s =? sn)) (snd_buf k) /\
  nsnd_buf k' = u32 (lenZ (snd_buf k')) /\ NoDup (map seg_sn (snd_buf k')).
Proof.
  cbv zeta. pose proof (wf_snd _ (kcp_wf_parse_ack k sn Hwf)) as Hwf'.
  split; [exact (ack_filter k sn (wf_snd _ Hwf) Hs)|]. split; [apply Hwf'|].
  eapply sn_sorted_NoDup; [| |exact (wf_snd_sorted _ Hwf')]; [lia|].
  pose proof (wf_inflight _ Hwf'). lia.
Qed.

(** Retransmission timeout. Whatever round-trip times the peer's timestamps
    suggest, the timeout stays between [rx_minrto] and 60 s. *)
Theorem rto_in_bounds (k : ikcpcb) (rtt : Z) (Hwf : kcp_wf k) :
  rx_minrto k <= rx_rto (ikcp_update_ack k rtt) <= IKCP_RTO_MAX.
Proof.
  destruct (update_ack_eq k rtt) as (a & b & ->). exact (rto_of_bounds k a b (wf_minrto _ (wf_cfg _ Hwf))).
Qed.

(** Smoothing. For samples and estimates below 2^28 ms the integer
    arithmetic of [ikcp_update_ack] does not overflow and computes the
    exponentially weighted averages of the round-trip time and its deviation. *)
Theorem rtt_smoothing (k : ikcpcb) (rtt : Z) (H1 : 0 < rx_srtt k <= 268435455)
    (H2 : 0 <= rx_rttval k <= 268435455) (H3 : 0 <= rtt <= 268435455) :
  let k' := ikcp_update_ack k rtt in
  rx_srtt k' = Z.max 1 ((7 * rx_srtt k + rtt) / 8) /\
  rx_rttval k' = (3 * rx_rttval k + Z.abs (rtt - rx_srtt k)) / 4.
Proof. exact (update_ack_smooth k rtt H1 H2 H3). Qed.

(** ** Timers *)

(** [ikcp_check] is sound. Between [now] and the time it returns, at most one
    interval later, [ikcp_update] flushes nothing and changes only the clock,
    and no segment in flight reaches its resend time. *)
Theorem check_until_update (k : ikcpcb) (now t : Z) (Hwf : kcp_wf k) (Hu : updated k <> 0)
    (Hn : is_u32 now) (Ht : 0 <= _itimediff t now < _itimediff (ikcp_check k now) now) :
  ikcp_update k t = Ret (k <| current := t |>) /\
  Forall (fun s => _itimediff t (seg_resendts s) < 0) (snd_buf k) /\
  _itimediff (ikcp_check k now) now <= interval k.
Proof.
  destruct (check_update k now t Hwf Hu Hn Ht) as [E1 E2]. split; [exact E1|]. split; [exact E2|].
  pose proof (wf_interval _ (wf_cfg _ Hwf)).
  destruct (check_cases k now Hwf Hu Hn) as [E|(m & E & Hm & _)]; rewrite E.
  - rewrite itimediff_self. lia.
  - rewrite itimediff_offset by rlia. lia.
Qed.

(** No deadlock on a closed window. While the peer's window is 0, each time
    the probe timer expires the flush sends a window request, and the timer is
    set again, 7 to 120 seconds ahead. *)
Theorem closed_window_is_probed (k : ikcpcb) (H1 : rmt_wnd k = 0)
    (H2 : 0 < probe_wait k <= IKCP_PROBE_LIMIT) (H3 : 0 <= _itimediff (current k) (ts_probe k)) :
  (exists s, s ∈ flush_plan k /\ seg_cmd s = IKCP_CMD_WASK) /\
  IKCP_PROBE_INIT <= probe_wait (flush_probe k) <= IKCP_PROBE_LIMIT /\
  ts_probe (flush_probe k) = u32 (current k + probe_wait (flush_probe k)).
Proof.
  destruct (probe_due k H1 H2 H3) as (Hf & Hrest). split; [|exact Hrest].
  exists (with_cmd (default (flush_seg k) (last (ack_segs k))) IKCP_CMD_WASK). split; [|reflexivity].
  unfold flush_plan, probe_segs. destruct (Z.eqb_spec (Z.land (probe (flush_probe k)) IKCP_ASK_SEND) 0);
    [contradiction|]. rewrite !elem_of_app. right. left. left. left.
Qed.

(** ** The wire format *)

(** Header round trip. Decoding the 24 bytes that [ikcp_encode_seg] writes
    gives back the conversation and every header field, and leaves the bytes
    behind the header. *)
Theorem header_roundtrip (s : IKCPSEG) (rest : list Z) (H : seg_u32 s)
    (Hc : is_u8 (seg_cmd s)) (Hf : is_u8 (seg_frg s)) (Hw : is_u16 (seg_wnd s)) :
  length (ikcp_encode_seg [] s) = 24%nat /\
  ikcp_getconv (ikcp_encode_seg [] s ++ rest) = Some (seg_conv s) /\
  exists d, ikcp_decode32u (ikcp_encode_seg [] s ++ rest) = Some (seg_conv s, d) /\
    decode_header d = Some (mkHDR (seg_cmd s) (seg_frg s) (seg_wnd s) (seg_ts s) (seg_sn s)
                              (seg_una s) (seg_len s), rest).
Proof.
  destruct (decode_encode_seg s rest H) as (d & E1 & E2).
  split; [apply ikcp_encode_seg_length|]. split; [unfold ikcp_getconv; rewrite E1; reflexivity|].
  exists d. split; [exact E1|]. rewrite E2. unfold seg_header.
  rewrite !u8_id by assumption. unfold u16. rewrite Z.mod_small by exact Hw. reflexivity.
Qed.

(** ** Witnesses *)
Lemma bytes_repeat b n : is_u8 b -> is_bytes (repeat b n).
Proof. intros Hb. induction n; constructor; assumption. Qed.

Lemma send_fragments_witness :
  exists segs n, ikcp_send kcb0 (Some (repeat 65 3000)) (lenZ (repeat 65 3000)) =
       Ret (0, kcb0 <| snd_queue := snd_queue kcb0 ++ segs |> <| nsnd_que := n |>) /\
     map seg_frg segs = [2; 1; 0].
Proof.
  destruct (send_fragments kcb0 (repeat 65 3000)) as [Ho|[[H _]|(segs & n & E & Hf & _)]].
  - apply kcb0_wf.
  - apply kcb0_wf.
  - reflexivity.
  - apply bytes_repeat. rlia.
  - vm_compute. reflexivity.
  - destruct (calloc_total _ Ho).
  - vm_compute in H. contradiction H. reflexivity.
  - exists segs, n. split; [exact E|]. rewrite Hf. vm_compute. reflexivity.
Defined.

Definition stream_kcb : ikcpcb := kcb0 <| stream := 1 |>.

Lemma send_appends_bytes_witness :
  exists r k' n, ikcp_send stream_kcb (Some [1; 2]) (lenZ [1; 2]) = Ret (r, k') /\
    0 <= n <= lenZ [1; 2] /\
    msg_bytes (snd_queue k') = msg_bytes (snd_queue stream_kcb) ++ take (Z.to_nat n) [1; 2] /\
    (r = 0 /\ n = lenZ [1; 2] \/ r = -2 /\ (stream stream_kcb = 0 -> n = 0)).
Proof.
  destruct (send_appends_bytes stream_kcb [1; 2]) as [Ho|H]; [..|destruct (calloc_total _ Ho)|exact H].
  - destruct (proj1 kcb0_wf). constructor; wf_frame.
  - apply kcb0_wf.
  - repeat (apply Forall_cons; split; [rlia|]). constructor.
  - vm_compute. reflexivity.
Defined.

Lemma input_any_datagram_witness :
  exists r k', ikcp_input kcb0 (Some (repeat 7 30)) 30 = Ret (r, k') /\ -3 <= r <= 0 /\
    kcp_wf k' /\ segs_fit k'.
Proof.
  destruct (input_any_datagram kcb0 (repeat 7 30) 30) as [Ho|H]; [..|destruct (calloc_total _ Ho)|exact H].
  - apply kcb0_wf.
  - apply kcb0_wf.
  - apply bytes_repeat. rlia.
  - rlia.
  - vm_compute. discriminate.
  - vm_compute. reflexivity.
Defined.

(** A received segment that waits to be read. *)
Definition two_waiting : ikcpcb :=
  let s n f d := (zero_seg 0) <| seg_sn := n |> <| seg_frg := f |> <| seg_len := 1 |> <| seg_data := [d] |> in
  ikcp_parse_data (ikcp_parse_data kcb0 (s 0 1 5)) (s 1 0 6).

Lemma two_waiting_wf : kcp_wf two_waiting.
Proof.
  assert (Hp : forall n f d, is_u32 n -> is_u8 f -> is_u8 d ->
    let s := (zero_seg 0) <| seg_sn := n |> <| seg_frg := f |> <| seg_len := 1 |> <| seg_data := [d] |> in
    is_u32 (seg_sn s) /\ seg_payload s).
  { intros n f d Hn Hf Hd. split; [exact Hn|]. split; [reflexivity|]. split; [cbn; lia|].
    split; [apply Forall_singleton, Hd | exact Hf]. }
  unfold two_waiting. cbv zeta.
  apply kcp_wf_parse_data; [apply Hp; rlia | apply Hp; rlia|].
  apply kcp_wf_parse_data; [apply Hp; rlia | apply Hp; rlia | apply kcb0_wf].
Qed.

Lemma recv_first_message_witness :
  ikcp_peeksize two_waiting = 2 /\
  exists r out k', ikcp_recv two_waiting true 10 = Ret (r, out, k') /\
    ((out = [] /\ k' = two_waiting /\
      (r = -1 /\ rcv_queue two_waiting = [] \/
       r = -2 /\ rcv_queue two_waiting <> [] /\ ikcp_peeksize two_waiting < 0 \/
       r = -3 /\ 10 < ikcp_peeksize two_waiting)) \/
     (r = ikcp_peeksize two_waiting /\ 0 <= r <= 10 /\
      out = msg_bytes (split_msg (rcv_queue two_waiting)).1 /\ r = i32 (lenZ out) /\
      exists moved, rcv_queue k' = (split_msg (rcv_queue two_waiting)).2 ++ moved /\
        rcv_buf two_waiting = moved ++ rcv_buf k' /\ sn_contig (rcv_nxt two_waiting) moved)).
Proof.
  split; [vm_compute; reflexivity|]. apply (recv_first_message two_waiting 10).
  - exact two_waiting_wf.
  - lia.
Defined.

Lemma parse_data_orders_witness :
  let s := (zero_seg 0) <| seg_sn := 2 |> in
  let k' := ikcp_parse_data kcb0 s in
  map seg_sn (rcv_buf k') = [2] /\ sn_sorted (rcv_nxt k') 0 2147483648 (rcv_buf k').
Proof.
  cbv zeta. split; [vm_compute; reflexivity|].
  apply (parse_data_orders kcb0 ((zero_seg 0) <| seg_sn := 2 |>)).
  - apply kcb0_wf.
  - cbn. rlia.
  - split; [reflexivity|]. split; [vm_compute; reflexivity|]. split; [constructor | cbn; rlia].
  - vm_compute. discriminate.
  - vm_compute. reflexivity.
Defined.

Lemma parse_una_removes_acked_witness :
  map seg_sn (snd_buf (ep_kcb end_left)) = [1] /\
  snd_buf (ikcp_parse_una (ep_kcb end_left) 2) =
    List.filter (fun s => _itimediff 2 (seg_sn s) <=? 0) (snd_buf (ep_kcb end_left)).
Proof.
  split; [vm_compute; reflexivity|]. apply (parse_una_removes_acked (ep_kcb end_left) 2).
  - apply end_left_wf.
  - vm_compute. discriminate.
Defined.

Lemma parse_ack_removes_one_witness :
  snd_buf (ikcp_parse_ack (ep_kcb end_left) 1) =
    List.filter (fun s => negb (seg_sn s =? 1)) (snd_buf (ep_kcb end_left)).
Proof.
  apply (parse_ack_removes_one (ep_kcb end_left) 1).
  - apply end_left_wf.
  - rlia.
Defined.

Lemma rto_in_bounds_witness : rx_minrto kcb0 <= rx_rto (ikcp_update_ack kcb0 2147483647) <= IKCP_RTO_MAX.
Proof. apply (rto_in_bounds kcb0 2147483647). apply kcb0_wf. Defined.

Definition timed_kcb : ikcpcb := kcb0 <| rx_srtt := 100 |> <| rx_rttval := 50 |>.

Lemma rtt_smoothing_witness :
  rx_srtt (ikcp_update_ack timed_kcb 20) = Z.max 1 ((7 * rx_srtt timed_kcb + 20) / 8).
Proof. apply (rtt_smoothing timed_kcb 20); cbn; lia. Defined.

Lemma check_until_update_witness :
  ikcp_update (ep_kcb end_left) 1250 = Ret ((ep_kcb end_left) <| current := 1250 |>).
Proof.
  apply (check_until_update (ep_kcb end_left) 1200 1250).
  - apply end_left_wf.
  - vm_compute. discriminate.
  - rlia.
  - vm_compute. split; [discriminate | reflexivity].
Defined.

Lemma closed_window_is_probed_witness :
  let k := kcb0 <| rmt_wnd := 0 |> <| probe_wait := 7000 |> <| ts_probe := 7000 |> <| current := 7100 |> in
  exists s, s ∈ flush_plan k /\ seg_cmd s = IKCP_CMD_WASK.
Proof.
  cbv zeta. apply closed_window_is_probed.
  - reflexivity.
  - cbn. unfold IKCP_PROBE_LIMIT. lia.
  - vm_compute. discriminate.
Defined.

Definition push_hdr : IKCPSEG :=
  (zero_seg 0) <| seg_conv := 7 |> <| seg_cmd := 81 |> <| seg_wnd := 128 |>.

Lemma header_roundtrip_witness :
  ikcp_getconv (ikcp_encode_seg [] push_hdr ++ [1; 2]) = Some (seg_conv push_hdr).
Proof.
  apply (header_roundtrip push_hdr [1; 2]); cbn; try rlia. unfold seg_u32. cbn. rlia.
Defined.

(** ** Behaviour that differs from the intent of the code *)

(** Lowering the MTU while a larger segment is queued succeeds, and the next
    flush writes past the end of the new, smaller buffer. *)
Theorem setmtu_overruns_buffer :
  exists k1 k2 k3, ikcp_update kcb0 0 = Ret k1 /\
    ikcp_send k1 (Some (repeat 65 1000)) 1000 = Ret (0, k2) /\
    ikcp_setmtu k2 100 = (0, k3) /\ ikcp_update k3 100 = Crash OutOfBounds.
Proof.
  destruct (ikcp_update kcb0 0) as [k1|] eqn:E1; [|vm_compute in E1; discriminate].
  vm_compute in E1. injection E1 as <-.
  match goal with |- exists a b c, Ret ?K = _ /\ _ => exists K;
    destruct (ikcp_send K (Some (repeat 65 1000)) 1000) as [[r k2]|] eqn:E2;
      [|vm_compute in E2; discriminate] end.
  vm_compute in E2. injection E2 as <- <-.
  do 2 eexists. split; [reflexivity|]. split; [reflexivity|].
  split; [vm_compute; reflexivity|]. vm_compute. reflexivity.
Qed.

(** An MTU of 1431655742 is accepted with a buffer of two bytes: the size
    computed in 32 bits wraps. *)
Theorem setmtu_size_wraps :
  (ikcp_setmtu kcb0 1431655742).1 = 0 /\ buffer_cap (ikcp_setmtu kcb0 1431655742).2 = 2.
Proof. vm_compute. split; reflexivity. Qed.

(** In stream mode a send that returns the error -2 has already queued the part
    of the buffer that fitted the last segment. *)
Theorem stream_send_fails_partially :
  exists k1 k2, ikcp_send ((ikcp_setmtu kcb0 50).2 <| stream := 1 |>) (Some [1]) 1 = Ret (0, k1) /\
    ikcp_send k1 (Some (repeat 2 4000)) 4000 = Ret (-2, k2) /\
    msg_bytes (snd_queue k1) = [1] /\ msg_bytes (snd_queue k2) = 1 :: repeat 2 25.
Proof.
  do 2 eexists. split; [vm_compute; reflexivity|]. split; [vm_compute; reflexivity|].
  split; vm_compute; reflexivity.
Qed.

(** With the log mask set to acknowledgements only, an acknowledgement is not
    logged: the code tests one class and writes under another. *)
Theorem ack_log_is_lost (k : ikcpcb) (l : input_locals) (h : header) :
  logmask k = IKCP_LOG_IN_ACK -> trace (input_ack k l h).1 = trace k.
Proof.
  intros Hm. unfold input_ack. cbn [fst].
  match goal with |- context [log_if ?K _ _] => assert (Hk : snd_touch k K) end.
  { eapply snd_touch_trans; [|apply snd_touch_shrink]. eapply snd_touch_trans; [|apply snd_touch_ack].
    case_match; auto with touch. }
  match goal with |- context [log_if ?K _ _] => assert (Ht : trace K = trace k) end.
  { rewrite shrink_buf_eq. cbn.
    match goal with |- context [ikcp_parse_ack ?K ?s] =>
      assert (E : trace K = trace k);
      [case_match; [destruct (update_ack_eq k (_itimediff (current k) (h_ts h))) as (a & b & ->)|]; reflexivity|];
      destruct (parse_ack_eq K s) as [-> | (l1 & s0 & l2 & n & _ & _ & -> & _)]; exact E end. }
  match goal with |- context [log_if ?K _ _] => generalize dependent K end. intros k1 Hk Ht.
  unfold log_if, ikcp_log, ikcp_canlog. red in Hk. 
  assert (Hm1 : logmask k1 = IKCP_LOG_IN_ACK) by (rewrite Hk; exact Hm). rewrite Hm1. cbn.
  destruct (writelog k1); cbn; exact Ht.
Qed.
