(* ===== verification/UdpKcp.v ===== *)
(** * KCP over UDP (udpkcp.cpp)

    The threads around one control block: [udp_msg_sender], which despite its name
    receives, [handle_update] and the callers of [sendKcpData], with the mutex
    [kcpThreadLock].  The control block and its operations are those of ikcp.c.
    The kernel's answers are arguments of the steps: what [recvfrom] delivers and
    what the clock says.  [wire] collects what [udp_output] was given. *)

From S2P Require Import Prelude KcpWire KcpSeq KcpState KcpSend KcpRecv KcpInput KcpFlush KcpInv KcpFlushInv KcpOps KcpRun.

Local Open Scope Z_scope.

Definition BUFF_LEN : nat := 512.

(** ** Threads *)

Inductive recv_pc := RRecv | RLock (d : list Z) | RIn (d : list Z).
Inductive upd_pc := ULock | UIn.
Inductive send_pc := SIdle | SLock (buffer : list Z) | SIn (buffer : list Z) | SDone (ret : Z).

(** Who holds [kcpThreadLock]. *)
Inductive owner := Receiver | Updater | Sender (i : nat).

Record udp := mkUdp {
  kcp1 : ikcpcb; lastrecvtim : Z; kcpThreadLock : option owner;
  r_pc : recv_pc; u_pc : upd_pc; s_pc : list send_pc;
  wire : list (list Z); nsent : nat }.

Section Udp.
Context {A : Alloc}.

(** ** Functions *)

Definition initKCP : outcome ikcpcb :=
  match ikcp_create 1 0 with
  | None => Crash NullDeref
  | Some k =>
      let k := ikcp_setoutput k true in
      let k := (ikcp_wndsize k 2048 2048).2 in
      let k := (ikcp_nodelay k 1 10 2 1).2 in
      let k := k <| rx_minrto := 10 |> in
      Ret (k <| fastresend := 1 |>)
  end.

(** The datagrams a call gave to [udp_output]. *)
Definition outputs (k k' : ikcpcb) : list (list Z) :=
  omap (fun e => match e with EvOutput d => Some d | _ => None end) (drop (length (trace k)) (trace k')).

(** [while (1) { hr = ikcp_recv(kcp1, buffer, 1024); ... }] on a buffer of
    [BUFF_LEN] bytes.  Every message takes at least one segment out. *)
Fixpoint recv_loop (fuel : nat) (k : ikcpcb) (last : Z) : outcome (ikcpcb * Z) :=
  match fuel with
  | O => Crash Diverge
  | S fuel =>
      let! (hr, bytes, k) := ikcp_recv k true 1024 in
      if (BUFF_LEN <? length bytes)%nat then Crash OutOfBounds
      else if hr <=? 0 then Ret (k, last) else recv_loop fuel k 0
  end.

Definition segments (k : ikcpcb) : nat := length (rcv_queue k) + length (rcv_buf k).

(** The receiver between [pthread_mutex_lock] and [pthread_mutex_unlock]. *)
Definition udp_msg_sender (k : ikcpcb) (last : Z) (d : list Z) : outcome (ikcpcb * Z) :=
  let buffer := d ++ repeat 0 (BUFF_LEN - length d) in
  let! (_, k) := ikcp_input k (Some buffer) (lenZ d) in
  recv_loop (S (segments k)) k last.

(** One turn of the loop of [handle_update]: the block, the counter and what was
    sent.  [iclock] says [now]. *)
Definition handle_update (k : ikcpcb) (last now : Z) : outcome (ikcpcb * Z * list (list Z)) :=
  let last := u32 (last + 1) in
  let! k' := ikcp_update k now in
  let out := outputs k k' in
  if 5000 <? last then let! k' := initKCP in Ret (k', last, out) else Ret (k', last, out).

Definition sendKcpData (k : ikcpcb) (buffer : list Z) : outcome (Z * ikcpcb) := ikcp_send k (Some buffer) (lenZ buffer).

(** [socket] answered [client_fd] and [bind] answered [ret].  Returns the result and,
    if it is 0, the state in which both threads start, with [n] threads that may
    send. *)
Definition udpKcpInit (client_fd ret : Z) (n : nat) : outcome (Z * option udp) :=
  if client_fd <? 0 then Ret (-1, None)
  else if ret <? 0 then Ret (-1, None)
  else let! k := initKCP in Ret (0, Some (mkUdp k 0 None RRecv ULock (repeat SIdle n) [] 0)).

(** ** Steps *)

Inductive uaction :=
| URecv (d : option (list Z))      (* [recvfrom] fails or delivers *)
| URecvLock | URecvBody
| UUpdLock | UUpdBody (now : Z)
| USend (i : nat) (buffer : list Z) | USendLock (i : nat) | USendBody (i : nat).

(** [None]: the step is not possible, the thread waits or is elsewhere. *)
Definition uexec (s : udp) (a : uaction) : option (outcome udp) :=
  let '(mkUdp k last lock r u ss w n) := s in
  match a with
  | URecv None => match r with RRecv => Some (Ret s) | _ => None end
  | URecv (Some d) =>
      match r with RRecv => if (length d <=? BUFF_LEN)%nat then Some (Ret (mkUdp k last lock (RLock d) u ss w n)) else None | _ => None end
  | URecvLock =>
      match lock, r with None, RLock d => Some (Ret (mkUdp k last (Some Receiver) (RIn d) u ss w n)) | _, _ => None end
  | URecvBody =>
      match r with
      | RIn d => Some (let! (k', last') := udp_msg_sender k last d in Ret (mkUdp k' last' None RRecv u ss (w ++ outputs k k') n))
      | _ => None
      end
  | UUpdLock => match lock, u with None, ULock => Some (Ret (mkUdp k last (Some Updater) r UIn ss w n)) | _, _ => None end
  | UUpdBody now =>
      match u with
      | UIn => Some (let! (k', last', out) := handle_update k last now in Ret (mkUdp k' last' lock r u ss (w ++ out) n))
      | ULock => None
      end
  | USend i b =>
      match ss !! i with
      | Some SIdle | Some (SDone _) => Some (Ret (mkUdp k last lock r u (<[i := SLock b]> ss) w n))
      | _ => None
      end
  | USendLock i =>
      match lock, ss !! i with
      | None, Some (SLock b) => Some (Ret (mkUdp k last (Some (Sender i)) r u (<[i := SIn b]> ss) w n))
      | _, _ => None
      end
  | USendBody i =>
      match ss !! i with
      | Some (SIn b) => Some (let! (ret, k') := sendKcpData k b in
                              Ret (mkUdp k' last lock r u (<[i := SDone ret]> ss) (w ++ outputs k k') (S n)))
      | _ => None
      end
  end.

(** What the environment owes: bytes, and a clock of 32 bits. *)
Definition action_ok (a : uaction) : Prop :=
  match a with
  | URecv (Some d) => is_bytes d
  | UUpdBody now => is_u32 now
  | USend _ b => is_bytes b /\ lenZ b <= INT_MAX
  | _ => True
  end.

Inductive ureach (n : nat) : udp -> Prop :=
| ureach_init client_fd ret s : udpKcpInit client_fd ret n = Ret (0, Some s) -> ureach n s
| ureach_step s a s' : ureach n s -> action_ok a -> uexec s a = Some (Ret s') -> ureach n s'.
End Udp.

(** ** Only the clock sends *)

(** The calls of [ikcp_output] are all in [ikcp_flush]; with no log callback the
    other functions leave [trace] alone. *)
Definition quiet (k k' : ikcpcb) : Prop := writelog k = false -> writelog k' = false /\ trace k' = trace k.

Lemma quiet_refl k : quiet k k.
Proof. intros H. auto. Qed.

Lemma quiet_trans k1 k2 k3 : quiet k1 k2 -> quiet k2 k3 -> quiet k1 k3.
Proof. intros H1 H2 H. destruct (H1 H) as [W1 T1]. destruct (H2 W1) as [W2 T2]. split; congruence. Qed.

Lemma quiet_log k a b : quiet k (log_if k a b).
Proof. intros H. unfold log_if, ikcp_canlog. rewrite H, orb_true_r. auto. Qed.

Lemma quiet_parse_una una l : forall k, quiet k (parse_una_loop una l k).
Proof. induction l as [|s l IH]; intros k; cbn; [apply quiet_refl|]. case_match; [|apply quiet_refl]. eapply quiet_trans; [|apply IH]. intros Hw. auto. Qed.

Lemma quiet_shrink k : quiet k (ikcp_shrink_buf k).
Proof. unfold ikcp_shrink_buf. case_match; intros Hw; auto. Qed.

Lemma quiet_parse_ack k sn : quiet k (ikcp_parse_ack k sn).
Proof. unfold ikcp_parse_ack. case_match; [apply quiet_refl|]. destruct (parse_ack_loop sn (snd_buf k)) as [[] ?]; intros Hw; auto. Qed.

Lemma quiet_update_ack k rtt : quiet k (ikcp_update_ack k rtt).
Proof. unfold ikcp_update_ack. intros Hw. repeat case_match; auto. Qed.

Lemma quiet_fastack k sn : quiet k (ikcp_parse_fastack k sn).
Proof. unfold ikcp_parse_fastack. case_match; intros Hw; auto. Qed.

Lemma quiet_cwnd k una : quiet k (input_cwnd k una).
Proof. rewrite input_cwnd_eq. intros H. auto. Qed.

Lemma quiet_move_rcv_loop buf : forall k, quiet k (move_rcv_loop buf k).
Proof.
  induction buf as [|s buf IH]; intros k; cbn; [apply quiet_refl|]. case_match; [|apply quiet_refl]. eapply quiet_trans; [|apply IH].
  intros Hw. auto.
Qed.

Lemma quiet_parse_data k s : quiet k (ikcp_parse_data k s).
Proof.
  unfold ikcp_parse_data. case_match; [apply quiet_refl|]. eapply quiet_trans; [|apply quiet_move_rcv_loop].
  unfold insert_rcv_buf. destruct (rcv_scan _ _ _) as [[[] ?] ?]; intros Hw; auto.
Qed.

Section Quiet.
Context {A : Alloc}.

Lemma quiet_ack_push k sn ts k' : ikcp_ack_push k sn ts = Ret k' -> quiet k k'.
Proof.
  unfold ikcp_ack_push. intros E. apply obind_Ret in E as (k1 & E1 & E). destruct (_ <=? _) in E; [discriminate|]. injection E as <-.
  apply (quiet_trans _ k1); [|intros Hw; auto]. destruct (ackblock k <? _); [|injection E1 as <-; apply quiet_refl].
  destruct (grow_block _ _ _); [|discriminate]. destruct (negb _); [discriminate|]. injection E1 as <-. intros Hw. auto.
Qed.

Lemma quiet_push k cv h data k' : input_push k cv h data = Ret k' -> quiet k k'.
Proof.
  unfold input_push. intros E. apply (quiet_trans _ (log_if k IKCP_LOG_IN_DATA IKCP_LOG_IN_DATA)); [apply quiet_log|].
  revert E. generalize (log_if k IKCP_LOG_IN_DATA IKCP_LOG_IN_DATA). clear k. intros k E.
  destruct (_ <? 0) in E; [|injection E as <-; apply quiet_refl]. apply obind_Ret in E as (k1 & E1 & E).
  apply (quiet_trans _ k1); [exact (quiet_ack_push _ _ _ _ E1)|]. destruct (0 <=? _) in E; [|injection E as <-; apply quiet_refl].
  destruct (ikcp_segment_new _); [|discriminate]. destruct (_ <? _) in E; [discriminate|]. injection E as <-. apply quiet_parse_data.
Qed.

Lemma quiet_dispatch k l cv h data k' l' : input_dispatch k l cv h data = Ret (k', l') -> quiet k k'.
Proof.
  unfold input_dispatch. intros E. set (k0 := ikcp_shrink_buf _) in E.
  assert (H0 : quiet k k0).
  { unfold k0. eapply quiet_trans; [|apply quiet_shrink]. eapply quiet_trans; [|apply quiet_parse_una]. intros Hw. auto. }
  apply (quiet_trans _ k0); [exact H0|]. clearbody k0.
  destruct (h_cmd h =? IKCP_CMD_ACK).
  - injection E as <- _.
    eapply quiet_trans; [|apply quiet_log]. eapply quiet_trans; [|apply quiet_shrink]. eapply quiet_trans; [|apply quiet_parse_ack].
    case_match; [apply quiet_update_ack | apply quiet_refl].
  - destruct (h_cmd h =? IKCP_CMD_PUSH).
    + apply obind_Ret in E as (k1 & E1 & E). injection E as <- _. exact (quiet_push _ _ _ _ _ E1).
    + destruct (h_cmd h =? IKCP_CMD_WASK); injection E as <- _; [|apply quiet_log]. eapply quiet_trans; [|apply quiet_log]. intros Hw. auto.
Qed.

Lemma quiet_input_loop fuel : forall k l data size k' e, input_loop fuel k l data size = Ret (k', e) -> quiet k k'.
Proof.
  induction fuel as [|fuel IH]; intros k l data size k' e E; cbn [input_loop] in E; [discriminate|].
  destruct (size <? IKCP_OVERHEAD); [injection E as <- _; apply quiet_refl|].
  destruct (ikcp_decode32u data) as [[cv d1]|]; [|discriminate].
  destruct (negb (cv =? conv k)); [injection E as <- _; apply quiet_refl|].
  destruct (decode_header d1) as [[h d2]|]; [|discriminate]. cbv zeta in E.
  destruct (_ || _) in E; [injection E as <- _; apply quiet_refl|]. destruct (negb _) in E; [injection E as <- _; apply quiet_refl|].
  apply obind_Ret in E as ([k1 l1] & E1 & E). exact (quiet_trans _ _ _ (quiet_dispatch _ _ _ _ _ _ _ E1) (IH _ _ _ _ _ _ E)).
Qed.

Lemma quiet_input k data size r k' : ikcp_input k data size = Ret (r, k') -> quiet k k'.
Proof.
  unfold ikcp_input. intros E. apply (quiet_trans _ (log_if k IKCP_LOG_INPUT IKCP_LOG_INPUT)); [apply quiet_log|].
  destruct data as [d|]; [|injection E as _ <-; apply quiet_refl]. destruct (_ <? _) in E; [injection E as _ <-; apply quiet_refl|].
  apply obind_Ret in E as ([k1 e] & E1 & E). apply quiet_input_loop in E1. apply (quiet_trans _ k1); [exact E1|].
  destruct e; injection E as _ <-; [|apply quiet_refl]. eapply quiet_trans; [|apply quiet_cwnd].
  case_match; [apply quiet_fastack | apply quiet_refl].
Qed.

Lemma quiet_outputs k k' : writelog k = false -> quiet k k' -> outputs k k' = [].
Proof. intros Hw H. destruct (H Hw) as [_ E]. unfold outputs. rewrite E, drop_all. reflexivity. Qed.
End Quiet.

(** ** The block between the calls *)

Record block_ok (k : ikcpcb) : Prop := {
  bo_wf : kcp_wf k; bo_fit : segs_fit k; bo_output : output k = true; bo_log : writelog k = false }.

(** Nothing but log entries was added. *)
Definition logs_only (k k' : ikcpcb) : Prop :=
  exists t, trace k' = trace k ++ t /\ Forall (fun e => exists m, e = EvLog m) t.

Lemma logs_outputs k k' : logs_only k k' -> outputs k k' = [].
Proof.
  intros (t & E & Ht). unfold outputs. rewrite E, drop_app_ge, Nat.sub_diag, drop_0 by lia.
  clear E. induction Ht as [|e t (m & ->) _ IH]; [reflexivity | exact IH].
Qed.

Lemma logs_trans k1 k2 k3 : logs_only k1 k2 -> logs_only k2 k3 -> logs_only k1 k3.
Proof. intros (t1 & E1 & H1) (t2 & E2 & H2). exists (t1 ++ t2). split; [rewrite E2, E1, app_assoc; reflexivity | apply Forall_app; auto]. Qed.

Lemma logs_same k k' : trace k' = trace k -> logs_only k k'.
Proof. intros E. exists []. rewrite app_nil_r. split; [exact E | constructor]. Qed.

(** [ikcp_recv] calls with room for 1024 bytes that each gave a message of at most
    [BUFF_LEN] bytes. *)
Inductive reads : ikcpcb -> ikcpcb -> Prop :=
| reads_none k : reads k k
| reads_one k hr bytes k1 k2 :
    ikcp_recv k true 1024 = Ret (hr, bytes, k1) -> 0 < hr -> (length bytes <= BUFF_LEN)%nat -> reads k1 k2 -> reads k k2.

(** The first message [ikcp_recv] would copy is longer than the receiver's buffer. *)
Definition long_message (k : ikcpcb) : Prop :=
  0 <= ikcp_peeksize k <= 1024 /\ (BUFF_LEN < length (msg_bytes (split_msg (rcv_queue k)).1))%nat.

(** The receiver takes datagram [d] in and comes to a message longer than its buffer. *)
Definition long_message_after {A : Alloc} (k : ikcpcb) (d : list Z) : Prop :=
  exists c k1 k2, ikcp_input k (Some (d ++ repeat 0 (BUFF_LEN - length d))) (lenZ d) = Ret (c, k1) /\
    reads k1 k2 /\ long_message k2.

Section Safe.
Context {A : Alloc} `{!AllocSized A}.

Lemma init_ok : out_of_memory initKCP \/ exists k, initKCP = Ret k /\ block_ok k.
Proof.
  unfold initKCP. destruct (ikcp_create 1 0) as [k|] eqn:E.
  2:{ left. unfold ikcp_create in E. destruct (malloc_ok sizeof_IKCPCB) eqn:E1; [|eauto].
      destruct (malloc_ok (u32 ((IKCP_MTU_DEF + IKCP_OVERHEAD) * 3))) eqn:E2; [discriminate | eauto]. }
  right. destruct (create_wf 1 0 k ltac:(rlia) E) as [Hwf Hf]. unfold ikcp_create in E.
  destruct (negb _); [discriminate|]. cbv zeta in E. destruct (negb _); [discriminate|]. injection E as <-.
  eexists. split; [reflexivity|]. split; [|exact Hf | reflexivity | reflexivity].
  constructor; constructor; cbn; auto; try (vm_compute; intuition discriminate); try constructor.
Qed.

Lemma input_ok k d : block_ok k -> is_bytes d -> (length d <= BUFF_LEN)%nat -> 24 * ackcount k + 512 < 3221225472 ->
  out_of_memory (ikcp_input k (Some (d ++ repeat 0 (BUFF_LEN - length d))) (lenZ d)) \/
  exists r k', ikcp_input k (Some (d ++ repeat 0 (BUFF_LEN - length d))) (lenZ d) = Ret (r, k').
Proof.
  intros [Hwf _ _ _] Hd Hl Ha. unfold BUFF_LEN in *. apply input_total; [exact Hwf | | rlia | rewrite length_app; lia | lia].
  apply Forall_app. split; [exact Hd|]. apply Forall_forall. intros x Hx%list_elem_of_In%repeat_spec. subst. rlia.
Qed.

Lemma padded_bytes d : is_bytes d -> forall x, Some (d ++ repeat 0 (BUFF_LEN - length d)) = Some x -> is_bytes x.
Proof.
  intros Hd x [= <-]. apply Forall_app. split; [exact Hd|]. apply Forall_forall. intros y Hy%list_elem_of_In%repeat_spec. subst. rlia.
Qed.

Lemma input_keeps k d r k' : block_ok k -> is_bytes d ->
  ikcp_input k (Some (d ++ repeat 0 (BUFF_LEN - length d))) (lenZ d) = Ret (r, k') -> block_ok k' /\ logs_only k k'.
Proof.
  intros [Hwf Hf Ho Hw] Hd E. destruct (input_effect _ _ _ _ _ Hwf (padded_bytes d Hd) E) as [Hfr Hfit].
  destruct (quiet_input _ _ _ _ _ E Hw) as [Hw' Ht]. split; [|exact (logs_same _ _ Ht)].
  split; [exact (kcp_wf_input _ _ _ _ _ (padded_bytes d Hd) E Hwf) | exact (Hfit Hf) | red in Hfr; rewrite Hfr; exact Ho | exact Hw'].
Qed.

Lemma recv_loop_ok fuel : forall k last, block_ok k -> (segments k < fuel)%nat ->
  (recv_loop fuel k last = Crash OutOfBounds /\ exists k2, reads k k2 /\ long_message k2) \/
  exists k' last', recv_loop fuel k last = Ret (k', last') /\ block_ok k' /\ logs_only k k'.
Proof.
  induction fuel as [|fuel IH]; intros k last Hk Hf; [lia|]. cbn [recv_loop]. pose proof Hk as [Hwf Hfit Ho Hw].
  destruct (ikcp_recv_result k true 1024 Hwf ltac:(rlia)) as ([[hr bytes] k1] & Er0 & Hr & Hwf1). rewrite Er0. cbn [obind snd] in *.
  destruct (Nat.ltb_spec BUFF_LEN (length bytes)) as [Hlong|Hshort].
  { left. split; [reflexivity|]. exists k. split; [constructor|].
    remember (hr, bytes, k1) as res eqn:Er. destruct Hr as [Hq|Hq Hp|Hp1 Hp2|t moved rest p Hp Ht Hb Hc]; injection Er as <- <- <-;
      [cbn in Hlong; lia.. |]. split; [exact Hp | exact Hlong]. }
  remember (hr, bytes, k1) as res eqn:Er. destruct Hr as [Hq|Hq Hp|Hp1 Hp2|t moved rest p Hp Ht Hb Hc]; injection Er as <- <- <-.
  1, 2, 3: right; exists k, last; split; [reflexivity | split; [exact Hk | apply logs_same; reflexivity]].
  set (k1 := recv_done k (1024 <? 0) t moved rest p) in *.
  assert (Hk1 : block_ok k1) by (split; [exact Hwf1 | exact Hfit | exact Ho | exact Hw]).
  assert (Hl : logs_only k k1) by (exists t; split; [reflexivity | exact Ht]).
  destruct (Z.leb_spec (ikcp_peeksize k) 0) as [H0|H0]; [right; eauto 6|].
  destruct (IH k1 0 Hk1) as [[E (k2 & Hr2 & Hm)]|(k' & last' & E & Hk' & Hl')].
  - assert (Hm : (1 <= length (split_msg (rcv_queue k)).1)%nat).
    { destruct (peeksize_eq k (wf_rcv _ Hwf) ltac:(lia)) as [_ E]. destruct (split_msg (rcv_queue k)).1 eqn:Es; [|cbn; lia].
      rewrite E in H0. vm_compute in H0. discriminate. }
    pose proof (f_equal length (split_msg_app (rcv_queue k))) as El. rewrite length_app in El.
    unfold segments in *. unfold k1, recv_done, moved_rcv. cbn [rcv_queue rcv_buf upd set_probe set_rcv_queue set_rcv_buf set_nrcv_buf set_nrcv_que set_rcv_nxt set_trace].
    unfold read_queue. change (1024 <? 0) with false. cbn. rewrite length_app. rewrite Hb, length_app in Hf. lia.
  - left. split; [exact E|]. exists k2. split; [|exact Hm]. eapply reads_one; [exact Er0 | lia | exact Hshort | exact Hr2].
  - right. exists k', last'. split; [exact E|]. split; [exact Hk' | exact (logs_trans _ _ _ Hl Hl')].
Qed.

(** ** Who may run *)

Definition in_recv (r : recv_pc) : bool := match r with RIn _ => true | _ => false end.
Definition no_in (ss : list send_pc) : Prop := forall j b, ss !! j <> Some (SIn b).
Definition only_in (i : nat) (ss : list send_pc) : Prop :=
  (exists b, ss !! i = Some (SIn b)) /\ forall j b, ss !! j = Some (SIn b) -> j = i.

(** The mutex is free or the receiver has it: nothing was sent.  The updater or a
    sender has it: it stays there. *)
Definition phase (s : udp) : Prop :=
  match kcpThreadLock s with
  | None => in_recv (r_pc s) = false /\ u_pc s = ULock /\ no_in (s_pc s) /\ wire s = [] /\ nsent s = 0%nat
  | Some Receiver => in_recv (r_pc s) = true /\ u_pc s = ULock /\ no_in (s_pc s) /\ wire s = [] /\ nsent s = 0%nat
  | Some Updater => in_recv (r_pc s) = false /\ u_pc s = UIn /\ no_in (s_pc s) /\ nsent s = 0%nat
  | Some (Sender i) => in_recv (r_pc s) = false /\ u_pc s = ULock /\ wire s = [] /\
      (nsent s = 0%nat /\ only_in i (s_pc s) \/ nsent s = 1%nat /\ no_in (s_pc s))
  end.

Definition send_ok (p : send_pc) : Prop :=
  match p with SLock b | SIn b => is_bytes b /\ lenZ b <= INT_MAX | _ => True end.

Record uinv (s : udp) : Prop := {
  ui_block : block_ok (kcp1 s);
  ui_phase : phase s;
  ui_recv : match r_pc s with RRecv => True | RLock d | RIn d => is_bytes d /\ (length d <= BUFF_LEN)%nat end;
  ui_send : Forall send_ok (s_pc s) }.

Lemma uinv_init fd ret n s : udpKcpInit fd ret n = Ret (0, Some s) -> uinv s.
Proof.
  unfold udpKcpInit. destruct (fd <? 0); [discriminate|]. destruct (ret <? 0); [discriminate|].
  intros (k & E & Es)%obind_Ret. injection Es as <-. assert (Hk : block_ok k).
  { destruct init_ok as [Ho|(k1 & E1 & Hk)]; rewrite E in *; [destruct (oom_Ret _ Ho) | injection E1 as ->; exact Hk]. }
  assert (Hr : Forall (eq SIdle) (repeat SIdle n)) by (apply Forall_forall; intros x Hx%list_elem_of_In%repeat_spec; auto).
  split; cbn; [exact Hk | | exact I |].
  - split_and!; try reflexivity. intros j b Hj. rewrite Forall_lookup in Hr. specialize (Hr _ _ Hj). discriminate.
  - eapply Forall_impl; [exact Hr|]. intros x <-. exact I.
Qed.

Lemma no_in_insert ss i p : no_in ss -> (forall b, p <> SIn b) -> no_in (<[i := p]> ss).
Proof.
  intros H Hp j b Hj. apply list_lookup_insert_Some in Hj as [(_ & E & _)|(_ & Hj)]; [exact (Hp b E) | exact (H j b Hj)].
Qed.

Lemma only_in_insert ss i : no_in ss -> forall b p, ss !! i = Some p -> only_in i (<[i := SIn b]> ss).
Proof.
  intros H b p Hi. split; [exists b; apply list_lookup_insert_eq, lookup_lt_is_Some; eauto|].
  intros j b' Hj. apply list_lookup_insert_Some in Hj as [(? & _)|(_ & Hj)]; [congruence | destruct (H j b' Hj)].
Qed.

(** The one inside leaves. *)
Lemma only_in_leave ss i r : only_in i ss -> no_in (<[i := SDone r]> ss).
Proof.
  intros [_ H] j b Hj. apply list_lookup_insert_Some in Hj as [(_ & ? & _)|(Hne & Hj)]; [discriminate | exact (Hne (eq_sym (H j b Hj)))].
Qed.

(** A thread outside that is changed is not the one inside. *)
Lemma only_in_outside ss i j p p' : only_in i ss -> ss !! j = Some p -> (forall b, p <> SIn b) -> (forall b, p' <> SIn b) ->
  only_in i (<[j := p']> ss).
Proof.
  intros [(b & Hb) H] Hj Hp Hp'. split.
  - exists b. rewrite list_lookup_insert_ne; [exact Hb|]. intros ->. rewrite Hj in Hb. injection Hb as ->. exact (Hp b eq_refl).
  - intros k b' Hk. apply list_lookup_insert_Some in Hk as [(_ & E & _)|(_ & Hk)]; [destruct (Hp' b' E) | exact (H k b' Hk)].
Qed.

(** [sendKcpData] and a turn of [handle_update] on a good block return a good block. *)
Lemma send_returns k b : block_ok k -> is_bytes b -> lenZ b <= INT_MAX ->
  out_of_memory (sendKcpData k b) \/
  exists ret k', sendKcpData k b = Ret (ret, k') /\ block_ok k' /\ logs_only k k'.
Proof.
  intros [Hwf Hf Ho Hw] Hb Hl. unfold sendKcpData.
  destruct (ikcp_send_result k (Some b) (lenZ b) Hwf Hf) as [Hm|([r k'] & -> & Hr & Hwf' & Hf')];
    [rlia | split; [exact Hb | lia] | left; exact Hm | right].
  exists r, k'. split; [reflexivity|]. cbn [snd] in *.
  assert (H : output k' = true /\ writelog k' = false /\ trace k' = trace k).
  { remember (r, k') as res eqn:Er. destruct Hr; injection Er as <- <-; auto. }
  destruct H as (H1 & H2 & H3). split; [split; assumption | apply logs_same, H3].
Qed.

Lemma update_returns k last now : block_ok k -> is_u32 now ->
  out_of_memory (handle_update k last now) \/ exists r, handle_update k last now = Ret r /\ block_ok r.1.1.
Proof.
  intros [Hwf Hf Ho Hw] Hn. unfold handle_update. destruct (update_spec k now Hwf Hf Ho Hn) as (k' & E & H1 & H2 & H3). rewrite E. cbn [obind].
  assert (Hk' : block_ok k').
  { split; try assumption. destruct (update_eq k now Hn (wf_ts_flush _ (wf_cfg _ Hwf))) as (u & tf & Hu & Ht & [E'|E']).
    - rewrite E in E'. injection E' as ->. exact Hw.
    - pose proof (at_time_wf k now u tf Hn Ht Hwf) as Hwf1. destruct (ikcp_flush_spec (at_time k now u tf) Hwf1 Hf Ho Hu) as (k2 & t & moved & E2 & Hr).
      rewrite E', E2 in E. injection E as <-. pose proof (fl_frame _ _ _ _ Hr) as Hfr. red in Hfr. rewrite Hfr. exact Hw. }
  destruct (5000 <? u32 (last + 1)); [|eauto].
  destruct init_ok as [Hm|(k2 & -> & Hk2)]; [left; apply oom_bind, Hm | right]. cbn [obind]. eauto.
Qed.

Lemma recv_returns k last d : block_ok k -> is_bytes d -> forall r, udp_msg_sender k last d = Ret r -> block_ok r.1 /\ logs_only k r.1.
Proof.
  intros Hk Hd r H. unfold udp_msg_sender in H. apply obind_Ret in H as ([c k1] & E1 & H). destruct (input_keeps _ _ _ _ Hk Hd E1) as [Hk1 Hl1].
  destruct (recv_loop_ok (S (segments k1)) k1 last Hk1 ltac:(lia)) as [[E _]|(k' & last' & E & Hk' & Hl')]; rewrite E in H; [discriminate|].
  injection H as <-. split; [exact Hk' | exact (logs_trans _ _ _ Hl1 Hl')].
Qed.

Lemma uexec_inv s a s' : uinv s -> action_ok a -> uexec s a = Some (Ret s') -> uinv s'.
Proof.
  destruct s as [k last lock r u ss w n]. intros [B P R S] Ha H. cbn [kcp1 r_pc s_pc] in *. unfold phase in P. cbn in P.
  destruct a as [[d|]| | | |now|i b|i|i]; cbn [uexec] in H.
  - destruct r; try discriminate. destruct (Nat.leb_spec (length d) BUFF_LEN) as [Hl|]; [|discriminate]. injection H as <-.
    split; [exact B | exact P | split; [exact Ha | exact Hl] | exact S].
  - destruct r; try discriminate. injection H as <-. split; assumption.
  - destruct lock; [discriminate|]. destruct r as [|d|]; try discriminate. injection H as <-. destruct P as (_ & P).
    split; [exact B | split; [reflexivity | exact P] | exact R | exact S].
  - destruct r as [| |d]; try discriminate. injection H as H. apply obind_Ret in H as ([k' last'] & E & H). injection H as <-.
    destruct (recv_returns _ _ _ B (proj1 R) _ E) as [B' L']. cbn [fst] in *.
    destruct lock as [[]|]; destruct P as (P1 & P); try discriminate. destruct P as (P2 & P3 & P4 & P5).
    split; [exact B' | | exact I | exact S]. cbn. rewrite (logs_outputs _ _ L'), P4. auto.
  - destruct lock; [discriminate|]. destruct u; [|discriminate]. injection H as <-. destruct P as (P1 & P2 & P3 & P4 & P5).
    split; [exact B | cbn; auto | exact R | exact S].
  - destruct u; [discriminate|]. injection H as H. apply obind_Ret in H as ([[k' last'] out] & E & H). injection H as <-.
    destruct (update_returns _ last now B Ha) as [Ho|(x & E' & B')]; rewrite E in *; [destruct (oom_Ret _ Ho)|]. injection E' as <-. cbn [fst] in B'.
    destruct lock as [[]|]; destruct P as (P1 & P2 & P3); try discriminate.
    split; [exact B' | cbn; auto | exact R | exact S].
  - assert (E : s' = mkUdp k last lock r u (<[i := SLock b]> ss) w n /\ exists p, ss !! i = Some p /\ forall b, p <> SIn b).
    { destruct (ss !! i) as [[]|] eqn:Ei; try discriminate; injection H as <-; (split; [reflexivity|]); eexists; (split; [reflexivity | discriminate]). }
    destruct E as (-> & p & Ei & Hp). split; [exact B | | exact R | apply Forall_insert; [exact S | exact Ha]]. unfold phase. cbn.
    assert (N : no_in ss -> no_in (<[i := SLock b]> ss)) by (intros Hn; apply no_in_insert; [exact Hn | discriminate]).
    destruct lock as [[| |j]|]; [intuition | intuition | | intuition]. destruct P as (P1 & P2 & P3 & P4). split_and!; try assumption.
    destruct P4 as [[? ?]|[? ?]]; [left | right]; (split; [assumption|]); [|auto]. apply (only_in_outside _ _ _ p); auto.
  - destruct lock; [discriminate|]. destruct (ss !! i) as [[]|] eqn:Ei; try discriminate. injection H as <-. destruct P as (P1 & P2 & P3 & P4 & P5).
    split; [exact B | | exact R |].
    + cbn. split_and!; try assumption. left. split; [exact P5 | exact (only_in_insert _ _ P3 _ _ Ei)].
    + apply Forall_insert; [exact S|]. rewrite Forall_lookup in S. exact (S _ _ Ei).
  - destruct (ss !! i) as [[| |b|]|] eqn:Ei; try discriminate. injection H as H. apply obind_Ret in H as ([ret k'] & E & H). injection H as <-.
    pose proof S as S'. rewrite Forall_lookup in S'. destruct (S' _ _ Ei) as [Hb Hl]. destruct (send_returns _ b B Hb Hl) as [Ho|(r1 & k1 & E1 & B1 & L1)]; rewrite E in *; [destruct (oom_Ret _ Ho)|].
    injection E1 as <- <-.
    assert (Hlock : exists j, lock = Some (Sender j) /\ only_in j ss /\ n = 0%nat /\ w = [] /\ in_recv r = false /\ u = ULock).
    { destruct lock as [[| |j]|]; destruct P as (P1 & P2 & P3 & P4); [destruct (P3 i b Ei) | destruct (P3 i b Ei) | | destruct (P3 i b Ei)].
      exists j. destruct P4 as [[? ?]|[_ Hn]]; [|destruct (Hn i b Ei)]. auto 7. }
    destruct Hlock as (j & -> & Ho & -> & -> & Hr & ->). pose proof (proj2 Ho i b Ei) as ->.
    split; [exact B1 | | exact R | apply Forall_insert; [exact S | exact I]].
    cbn. rewrite (logs_outputs _ _ L1). split_and!; try reflexivity; [exact Hr|]. right. split; [reflexivity | exact (only_in_leave _ _ _ Ho)].
Qed.

Lemma ureach_inv n s : ureach n s -> uinv s.
Proof. induction 1 as [fd ret s H|s a s' _ IH Ha E]; [exact (uinv_init _ _ n s H) | exact (uexec_inv _ _ _ IH Ha E)]. Qed.

(** ** Properties *)

(** C40: nothing that is handed to [sendKcpData] is ever sent.  The mutex is not
    given back by [sendKcpData] and not by [handle_update]: in no run does a call of
    [sendKcpData] return and [udp_output] get a datagram, and at most one call
    returns at all. *)
Theorem udpkcp_never_transmits n s : ureach n s -> (nsent s <= 1)%nat /\ (nsent s = 0%nat \/ wire s = []).
Proof.
  intros H. destruct (ureach_inv n s H) as [_ P _ _]. unfold phase in P.
  destruct (kcpThreadLock s) as [[| |i]|]; destruct P as (_ & _ & P); [destruct P as (_ & _ & ->) | destruct P as (_ & ->) | | destruct P as (_ & _ & ->)];
    try (split; [lia | left; reflexivity]).
  destruct P as (-> & [[-> _]|[-> _]]); split; auto; lia.
Qed.

(** C23: under every interleaving the control block stays well formed, and every step
    a thread can take returns, with these exceptions: the allocator refused a block
    that [ikcp_send], [ikcp_input] or [initKCP] asked for; the receiver, having
    taken the datagram in, reads a message longer than its buffer of 512 bytes;
    and, for the receiver only, the list of unsent acknowledgements has reached
    2^27 entries. *)
Theorem udpkcp_steps_safe n s a r : ureach n s -> action_ok a -> uexec s a = Some r ->
  kcp_wf (kcp1 s) /\ segs_fit (kcp1 s) /\
  ((exists s', r = Ret s') \/ out_of_memory r \/
   exists d, a = URecvBody /\ r_pc s = RIn d /\
     (r = Crash OutOfBounds /\ long_message_after (kcp1 s) d \/ 3221225472 <= 24 * ackcount (kcp1 s) + 512)).
Proof.
  intros Hr Ha H. destruct (ureach_inv n s Hr) as [B P R Hs]. split; [apply B|]. split; [apply B|].
  destruct s as [k last lock rp u ss w m]. cbn [kcp1 r_pc s_pc] in *.
  destruct a as [[d|]| | | |now|i b|i|i]; cbn [uexec] in H;
    try solve [left; repeat (case_match; try discriminate); simplify_eq; eauto].
  - destruct rp as [| |d]; try discriminate. injection H as <-. destruct (Z.lt_ge_cases (24 * ackcount k + 512) 3221225472) as [Hc|Hc]; [|right; right; eauto 6].
    unfold udp_msg_sender. destruct (input_ok k d B (proj1 R) (proj2 R) Hc) as [Ho|(c & k1 & E1)]; [right; left; apply oom_bind, oom_bind, Ho|].
    rewrite E1. cbn [obind].
    destruct (input_keeps _ _ _ _ B (proj1 R) E1) as [B1 _].
    destruct (recv_loop_ok (S (segments k1)) k1 last B1 ltac:(lia)) as [[-> (k2 & Hr2 & Hm)]|(k' & last' & -> & _)]; cbn [obind]; [right; right | left; eauto].
    exists d. split_and!; [reflexivity..|]. left. split; [reflexivity|]. exists c, k1, k2. auto.
  - destruct u; [discriminate|]. injection H as <-.
    destruct (update_returns k last now B Ha) as [Ho|([[k' l'] o] & -> & _)]; [right; left; apply oom_bind, Ho | left]. cbn [obind]. eauto.
  - destruct (ss !! i) as [[| |b|]|] eqn:Ei; try discriminate. injection H as <-. rewrite Forall_lookup in Hs.
    destruct (Hs _ _ Ei) as [Hb Hl].
    destruct (send_returns _ b B Hb Hl) as [Ho|(r1 & k1 & -> & _)]; [right; left; apply oom_bind, Ho | left]. cbn [obind]. eauto.
Qed.

(** A message of 513 to 1024 bytes overruns the receiver's buffer. *)
Lemma recv_overrun k last d c k1 : ikcp_input k (Some (d ++ repeat 0 (BUFF_LEN - length d))) (lenZ d) = Ret (c, k1) -> kcp_wf k1 ->
  512 < ikcp_peeksize k1 <= 1024 -> udp_msg_sender k last d = Crash OutOfBounds.
Proof.
  intros E Hwf Hp. unfold udp_msg_sender. rewrite E. cbn [obind recv_loop].
  destruct (ikcp_recv_result k1 true 1024 Hwf ltac:(rlia)) as ([[hr bytes] k2] & -> & Hr & _). cbn [obind].
  remember (hr, bytes, k2) as res eqn:Er. destruct Hr as [Hq|Hq Hn|Hp1 Hp2|t moved rest p Hp' Ht Hb Hc]; injection Er as <- <- <-.
  - unfold ikcp_peeksize in Hp. rewrite Hq in Hp. lia.
  - lia.
  - change (i32 (Z.abs 1024)) with 1024 in Hp2. lia.
  - destruct (peeksize_eq k1 (wf_rcv _ Hwf) ltac:(lia)) as [_ Es]. destruct (Nat.ltb_spec BUFF_LEN (length (msg_bytes (split_msg (rcv_queue k1)).1))) as [|Hl]; [reflexivity|].
    unfold BUFF_LEN in Hl. rewrite Es, i32_id in Hp by rlia. lia.
Qed.
End Safe.

(** ** Runs *)

Fixpoint uexecs (s : udp) (l : list uaction) : option udp :=
  match l with
  | [] => Some s
  | a :: l => match uexec s a with Some (Ret s') => uexecs s' l | _ => None end
  end.

Lemma uexecs_reach n l : forall s s', ureach n s -> Forall action_ok l -> uexecs s l = Some s' -> ureach n s'.
Proof.
  induction l as [|a l IH]; intros s s' Hs Hl H; cbn in H; [injection H as <-; exact Hs|]. inversion_clear Hl as [|? ? Ha Hl'].
  destruct (uexec s a) as [[s1|]|] eqn:E; try discriminate. exact (IH _ _ (ureach_step _ _ _ _ Hs Ha E) Hl' H).
Qed.

(** One thread that may send; it does before the clock starts. *)
Definition start1 : udp := ltac:(let r := eval vm_compute in (udpKcpInit 3 0 1) in match r with Ret (_, Some ?s) => exact s end).

Definition sent1 : udp :=
  Eval vm_compute in match uexecs start1 [USend 0 [1; 2; 3]; USendLock 0; USendBody 0] with Some s => s | None => start1 end.

(** A window probe of the peer has arrived and the receiver is inside. *)
Definition probe1 : list Z := [1; 0; 0; 0; 83; 0; 128; 0] ++ repeat 0 16.
Definition inside1 : udp := Eval vm_compute in match uexecs start1 [URecv (Some probe1); URecvLock] with Some s => s | None => start1 end.

Lemma start1_reach : ureach 1 start1.
Proof. apply (ureach_init 1 3 0). vm_compute. reflexivity. Qed.

Lemma sent1_reach : ureach 1 sent1.
Proof.
  apply (uexecs_reach 1 [USend 0 [1; 2; 3]; USendLock 0; USendBody 0] start1 sent1 start1_reach); [|vm_compute; reflexivity].
  repeat constructor; cbn; rlia.
Qed.

Lemma inside1_reach : ureach 1 inside1.
Proof.
  apply (uexecs_reach 1 [URecv (Some probe1); URecvLock] start1 inside1 start1_reach); [|vm_compute; reflexivity].
  repeat constructor; cbn; rlia.
Qed.

Lemma udpkcp_never_transmits_witness : nsent sent1 = 1%nat /\ (nsent sent1 <= 1)%nat /\ (nsent sent1 = 0%nat \/ wire sent1 = []).
Proof. split; [reflexivity | exact (udpkcp_never_transmits 1 sent1 sent1_reach)]. Defined.

Lemma udpkcp_steps_safe_witness : exists r, uexec inside1 URecvBody = Some r /\ kcp_wf (kcp1 inside1) /\ segs_fit (kcp1 inside1) /\
  exists s', r = Ret s'.
Proof.
  destruct (uexec inside1 URecvBody) as [r|] eqn:E; [|vm_compute in E; discriminate]. exists r. split; [reflexivity|].
  destruct (udpkcp_steps_safe 1 inside1 URecvBody r inside1_reach I E) as (H1 & H2 & [H|[Ho|(d & _ & Hd & [[Hc _]|Hc])]]).
  - auto.
  - destruct (calloc_total _ Ho).
  - subst r. vm_compute in E. discriminate.
  - exfalso. apply Hc. vm_compute. reflexivity.
Defined.
