(* ===== verification/Queue.v ===== *)
(** * Frame queue (queue.c, queue.h)

    The linked queue of frame addresses behind a mutex.  Nodes live in an
    explicit heap, a pointer is [Some] address or [None] for NULL; reading or
    freeing a node that is not allocated is a crash.  [EnQueue], [DeQueue] and
    [GetFront] are split at the points where the mutex is taken and released,
    so that their interleavings can be written down. *)

From S2P Require Import Prelude.
From stdpp Require Import gmap.

Local Open Scope Z_scope.

(** ** Data *)
Record Node := mkNode { frame : Z; next : option positive }.

Record Queue := mkQ {
  front : option positive; rear : option positive; size : Z;
  heap : gmap positive Node }.

#[export] Instance Node_eq_dec : EqDecision Node.
Proof. solve_decision. Defined.

Definition InitQueue : Queue := mkQ None None 0 ∅.

(** [malloc(sizeof(Node))]: the address it returns, if it succeeds. *)
Class NodeAlloc := node_malloc : gmap positive Node -> option positive.

(** A block that [malloc] returns is not in use. *)
Class NodeAllocFresh (A : NodeAlloc) : Prop :=
  malloc_fresh : forall h p, node_malloc h = Some p -> h !! p = None.

Definition load (h : gmap positive Node) (p : option positive) : outcome Node :=
  match p with
  | None => Crash NullDeref
  | Some a => match h !! a with Some n => Ret n | None => Crash OutOfBounds end
  end.

Definition IsEmpty (q : Queue) : bool :=
  match front q, rear q with
  | None, None => size q =? 0
  | _, _ => false
  end.

Definition GetSize (q : Queue) : Z := size q.

(** ** The critical sections *)

(** [GetFront] once the queue is not empty: the frame is copied under the lock. *)
Definition getfront_locked (q : Queue) : outcome Z :=
  let! n := load (heap q) (front q) in Ret (frame n).

(** The result is read after the lock is released. *)
Definition getfront_result (q : Queue) : option positive := front q.

Definition GetRear (q : Queue) (old : Z) : outcome (Z * option positive) :=
  if negb (IsEmpty q) then
    let! n := load (heap q) (rear q) in Ret (frame n, rear q)
  else Ret (old, rear q).

(** [rear->next = pnode] *)
Definition set_next (h : gmap positive Node) (p : option positive) (v : option positive)
  : outcome (gmap positive Node) :=
  match p with
  | None => Crash NullDeref
  | Some a => match h !! a with
              | Some n => Ret (<[a := mkNode (frame n) v]> h)
              | None => Crash OutOfBounds
              end
  end.

(** [EnQueue] between lock and unlock; [pnode] was filled before. *)
Definition enqueue_locked (q : Queue) (pnode : positive) : outcome Queue :=
  let! q := (if IsEmpty q then Ret (mkQ (Some pnode) (rear q) (size q) (heap q))
             else let! h := set_next (heap q) (rear q) (Some pnode) in
                  Ret (mkQ (front q) (rear q) (size q) h)) in
  Ret (mkQ (front q) (Some pnode) (i32 (size q + 1)) (heap q)).

(** The block is allocated and filled outside the lock. *)
Definition enqueue_node (q : Queue) (pnode : positive) (f : Z) : Queue :=
  mkQ (front q) (rear q) (size q) (<[pnode := mkNode f None]> (heap q)).

Definition EnQueue `{NodeAlloc} (q : Queue) (f : Z) : outcome (option positive * Queue) :=
  match node_malloc (heap q) with
  | None => Ret (None, q)
  | Some p => let! q := enqueue_locked (enqueue_node q p f) p in Ret (Some p, q)
  end.

(** [free(pnode)] *)
Definition free_node (h : gmap positive Node) (p : option positive)
  : outcome (gmap positive Node) :=
  match p with
  | None => Ret h
  | Some a => match h !! a with Some _ => Ret (delete a h) | None => Crash OutOfBounds end
  end.

(** [DeQueue] between lock and unlock; [pnode] was read before the lock. *)
Definition dequeue_locked (q : Queue) (pnode : option positive) : outcome Queue :=
  if negb (IsEmpty q) then
    let sz := i32 (size q - 1) in
    let! n := load (heap q) pnode in
    let! h := free_node (heap q) pnode in
    Ret (mkQ (next n) (if sz =? 0 then None else rear q) sz h)
  else Ret q.

(** Without interference. *)
Definition DeQueue (q : Queue) : outcome (option positive * Queue) :=
  let pnode := front q in
  let! q := dequeue_locked q pnode in
  Ret (front q, q).

(** [while (!IsEmpty(pqueue)) DeQueue(pqueue);] with a bound on the iterations. *)
Fixpoint ClearQueue (fuel : nat) (q : Queue) : outcome Queue :=
  if negb (IsEmpty q) then
    match fuel with
    | O => Crash Diverge
    | S fuel' => let! (_, q) := DeQueue q in ClearQueue fuel' q
    end
  else Ret q.

(** [QueueTraverse]: the frames visited, for [i] left. *)
Fixpoint traverse (i : nat) (h : gmap positive Node) (p : option positive) : outcome (list Z) :=
  match i with
  | O => Ret []
  | S i' =>
      let! n := load h p in
      let! l := traverse i' h (next n) in
      Ret (frame n :: l)
  end.

Definition QueueTraverse (q : Queue) : outcome (list Z) :=
  if size q <? 0 then Crash Diverge else traverse (Z.to_nat (size q)) (heap q) (front q).

(** ** Representation *)

(** [chain h p l]: from [p] the nodes at the addresses of [l], with the frames
    of [l], end in NULL. *)
Fixpoint chain (h : gmap positive Node) (p : option positive) (l : list (positive * Z)) : Prop :=
  match l with
  | [] => p = None
  | (a, f) :: l' => p = Some a /\ exists n, h !! a = Some n /\ frame n = f /\ chain h (next n) l'
  end.

(** The queue holds [l]; [pend] are nodes that were allocated and filled but
    not yet linked.  No other node is allocated. *)
Record queue_rep (q : Queue) (l pend : list (positive * Z)) : Prop := {
  qr_chain : chain (heap q) (front q) l;
  qr_rear : rear q = fst <$> last l;
  qr_size : size q = lenZ l;
  qr_small : lenZ l < 2147483648;
  qr_nodup : NoDup (map fst l ++ map fst pend);
  qr_pend : forall a f, (a, f) ∈ pend -> heap q !! a = Some (mkNode f None);
  qr_dom : forall a, is_Some (heap q !! a) <-> a ∈ map fst l \/ a ∈ map fst pend }.

Lemma chain_insert h p l a n :
  a ∉ map fst l -> chain h p l -> chain (<[a := n]> h) p l.
Proof.
  revert p. induction l as [|[b f] l IH]; intros p Ha; cbn; [auto|].
  intros (-> & m & Hm & Hf & Hc). split; [reflexivity|]. exists m.
  cbn in Ha. rewrite elem_of_cons in Ha.
  split; [rewrite lookup_insert_ne; [exact Hm | intros ->; tauto]|]. split; [exact Hf|].
  apply IH; tauto.
Qed.

Lemma chain_delete h p l a : a ∉ map fst l -> chain h p l -> chain (delete a h) p l.
Proof.
  revert p. induction l as [|[b f] l IH]; intros p Ha; cbn; [auto|].
  intros (-> & m & Hm & Hf & Hc). split; [reflexivity|]. exists m.
  cbn in Ha. rewrite elem_of_cons in Ha.
  split; [rewrite lookup_delete_ne; [exact Hm | intros ->; tauto]|]. split; [exact Hf|].
  apply IH; tauto.
Qed.

(** Appending a node behind the last one. *)
Lemma chain_snoc h p l r fr a f :
  NoDup (map fst (l ++ [(r, fr)])) -> a ∉ map fst (l ++ [(r, fr)]) ->
  chain h p (l ++ [(r, fr)]) -> h !! a = Some (mkNode f None) ->
  exists n, h !! r = Some n /\ frame n = fr /\
    chain (<[r := mkNode (frame n) (Some a)]> h) p ((l ++ [(r, fr)]) ++ [(a, f)]).
Proof.
  revert p. induction l as [|[b g] l IH]; intros p Hnd Ha Hc Hn.
  - cbn in *. destruct Hc as (-> & n & Hr & Hf & _). exists n. split; [exact Hr|]. split; [exact Hf|].
    split; [reflexivity|]. exists (mkNode (frame n) (Some a)). rewrite lookup_insert_eq.
    split; [reflexivity|]. split; [exact Hf|]. split; [reflexivity|].
    exists (mkNode f None). rewrite lookup_insert_ne; [auto|]. intros ->.
    apply Ha. left.
  - cbn [app map fst] in Hnd, Ha. rewrite NoDup_cons, elem_of_cons in *.
    cbn [app chain] in Hc. destruct Hc as (-> & m & Hm & Hg & Hc).
    destruct (IH (next m)) as (n & Hr & Hf & Hc'); [tauto | tauto | exact Hc | exact Hn |].
    exists n. split; [exact Hr|]. split; [exact Hf|]. split; [reflexivity|]. exists m.
    split; [|auto]. rewrite lookup_insert_ne; [exact Hm|]. intros <-. apply (proj1 Hnd).
    rewrite map_app. apply elem_of_app. right. left.
Qed.

Lemma IsEmpty_rep q l pend :
  queue_rep q l pend -> IsEmpty q = match l with [] => true | _ => false end.
Proof.
  intros [Hc Hr Hs _ _ _ _]. unfold IsEmpty. destruct l as [|[a f] l].
  - cbn in Hc, Hr, Hs. rewrite Hc, Hr, Hs. reflexivity.
  - cbn in Hc. destruct Hc as (-> & _). reflexivity.
Qed.

Lemma InitQueue_rep : queue_rep InitQueue [] [].
Proof.
  constructor; try reflexivity; [constructor | |].
  - intros a f H. inv H.
  - intros a. cbn. rewrite lookup_empty.
    split; [intros [? [=]] | intros [H|H]; inv H].
Qed.

Lemma is_Some_insert_iff (h : gmap positive Node) a n b :
  is_Some ((<[a := n]> h) !! b) <-> b = a \/ is_Some (h !! b).
Proof.
  destruct (decide (a = b)) as [->|Hne].
  - rewrite lookup_insert_eq. split; [auto | eauto].
  - rewrite lookup_insert_ne by exact Hne. split; [auto|]. intros [->|H]; [contradiction | exact H].
Qed.

(** ** The operations on a represented queue *)
Lemma enqueue_node_rep q l pend p f :
  queue_rep q l pend -> heap q !! p = None ->
  queue_rep (enqueue_node q p f) l (pend ++ [(p, f)]).
Proof.
  intros [Hc Hr Hs Hsm Hnd Hp Hd] Hfr.
  assert (Hnl : (p ∉ map fst l) /\ (p ∉ map fst pend)).
  { split; intros H; (assert (Hx : is_Some (heap q !! p)) by (apply Hd; auto)); rewrite Hfr in Hx;
      destruct Hx; discriminate. }
  constructor; cbn; try assumption.
  - apply chain_insert; tauto.
  - rewrite map_app, app_assoc. apply NoDup_app. split; [exact Hnd|]. split; [|apply NoDup_singleton].
    intros x Hx H. apply list_elem_of_singleton in H as ->. apply elem_of_app in Hx. tauto.
  - intros a g H. apply elem_of_app in H as [H|H].
    + rewrite lookup_insert_ne; [apply Hp, H|]. intros <-. apply (proj2 Hnl).
      apply list_elem_of_fmap. exists (p, g). auto.
    + apply list_elem_of_singleton in H. injection H as -> ->. apply lookup_insert_eq.
  - intros a. rewrite is_Some_insert_iff, Hd, map_app, elem_of_app. cbn. rewrite list_elem_of_singleton. tauto.
Qed.

Lemma perm_last {X : Type} (l1 l2 : list X) x : NoDup (l1 ++ x :: l2) -> NoDup ((l1 ++ [x]) ++ l2).
Proof. rewrite <- app_assoc. auto. Qed.

(** Linking a pending node puts it at the end. *)
Lemma enqueue_locked_rep q l p f pend :
  queue_rep q l ((p, f) :: pend) -> lenZ l < 2147483647 ->
  exists q', enqueue_locked q p = Ret q' /\ queue_rep q' (l ++ [(p, f)]) pend.
Proof.
  intros Hq Hlt. unfold enqueue_locked. rewrite (IsEmpty_rep _ _ _ Hq).
  destruct Hq as [Hc Hr Hs Hsm Hnd Hp Hd]. pose proof (Hp p f ltac:(left)) as Hpn.
  assert (Hnd' : NoDup (map fst (l ++ [(p, f)]) ++ map fst pend)).
  { rewrite map_app. apply perm_last. exact Hnd. }
  assert (Hdom : forall a, a ∈ map fst l \/ a ∈ map fst ((p, f) :: pend) <->
                           a ∈ map fst (l ++ [(p, f)]) \/ a ∈ map fst pend).
  { intros a. rewrite map_app, elem_of_app. cbn. rewrite elem_of_cons, list_elem_of_singleton. tauto. }
  assert (Hsz : i32 (size q + 1) = lenZ (l ++ [(p, f)])).
  { rewrite length_app, Hs, i32_id by rlia. cbn. lia. }
  assert (Hsm' : lenZ (l ++ [(p, f)]) < 2147483648) by (rewrite length_app; cbn; lia).
  destruct (last l) as [[r fr]|] eqn:El.
  - apply last_Some in El as [l0 El].
    assert (Hne : match l with [] => true | _ :: _ => false end = false)
      by (rewrite El; destruct l0; reflexivity).
    rewrite Hne. cbn in Hr. rewrite Hr.
    assert (Hpl : p ∉ map fst l).
    { apply NoDup_app in Hnd as (_ & H & _). intros Hx. apply (H p Hx). left. }
    destruct (chain_snoc (heap q) (front q) l0 r fr p f) as (n & Hn & Hf & Hch); rewrite <- ?El;
      [apply NoDup_app in Hnd; tauto | exact Hpl | exact Hc | exact Hpn|].
    rewrite <- El in Hch. cbn [set_next]. rewrite Hn. cbn [obind front rear size heap].
    eexists. split; [reflexivity|].
    assert (Hrl : r ∈ map fst l) by (rewrite El, map_app; apply elem_of_app; right; left).
    constructor; cbn [front rear size heap]; try assumption.
    + rewrite last_snoc. reflexivity.
    + intros a g H. rewrite lookup_insert_ne; [apply Hp; right; exact H|]. intros <-.
      apply NoDup_app in Hnd as (_ & Hx & _). apply (Hx r Hrl). cbn. right.
      apply list_elem_of_fmap. exists (r, g). auto.
    + intros a. rewrite is_Some_insert_iff, Hd, <- Hdom. split; [|auto]. intros [->|H]; auto.
  - apply last_None in El. subst l. cbn [obind front rear size heap]. eexists. split; [reflexivity|].
    constructor; cbn [front rear size heap app]; try assumption; try reflexivity.
    + cbn. split; [reflexivity|]. exists (mkNode f None). auto.
    + intros a g H. apply Hp. right. exact H.
    + intros a. rewrite Hd. apply Hdom.
Qed.

(** The order of the pending nodes does not matter. *)
Lemma queue_rep_perm q l pend pend' :
  pend ≡ₚ pend' -> queue_rep q l pend -> queue_rep q l pend'.
Proof.
  intros Hp [Hc Hr Hs Hsm Hnd Hpe Hd]. constructor; try assumption.
  - rewrite <- Hp. exact Hnd.
  - intros a f H. apply Hpe. rewrite Hp. exact H.
  - intros a. rewrite Hd, Hp. reflexivity.
Qed.

(** With the front it read, [DeQueue] unlinks and frees the first node. *)
Lemma dequeue_locked_rep q a f l pend :
  queue_rep q ((a, f) :: l) pend ->
  exists q', dequeue_locked q (Some a) = Ret q' /\ queue_rep q' l pend.
Proof.
  intros Hq. unfold dequeue_locked. rewrite (IsEmpty_rep _ _ _ Hq). cbn [negb].
  destruct Hq as [Hc Hr Hs Hsm Hnd Hp Hd]. cbn in Hc. destruct Hc as (Hf & n & Hn & Hfn & Hc).
  cbn [load free_node]. rewrite Hn. cbn [obind]. eexists. split; [reflexivity|].
  cbn in Hnd. apply NoDup_cons in Hnd as [Ha Hnd]. rewrite not_elem_of_app in Ha.
  cbn [length] in Hs, Hsm.
  assert (Hsz : i32 (size q - 1) = lenZ l) by (rewrite Hs, i32_id by rlia; lia).
  constructor; cbn [front rear size heap]; try assumption.
  - apply chain_delete; tauto.
  - rewrite Hsz. destruct l as [|x l]; [reflexivity|]. cbn [length].
    destruct (Z.eqb_spec (Z.of_nat (S (length l))) 0); [lia|]. rewrite Hr, last_cons_cons. reflexivity.
  - lia.
  - intros b g H. rewrite lookup_delete_ne; [apply Hp, H|]. intros <-. apply (proj2 Ha).
    apply list_elem_of_fmap. exists (a, g). auto.
  - intros b. destruct (decide (a = b)) as [<-|Hne].
    + rewrite lookup_delete_eq. split; [intros [? [=]]|]. tauto.
    + rewrite lookup_delete_ne, Hd by exact Hne. cbn. rewrite elem_of_cons.
      split; [|tauto]. intros [[->|H]|H]; [contradiction | auto | auto].
Qed.

(** ** Refinement: the operations without interference are those of a list *)
Lemma EnQueue_rep `{Hm : NodeAlloc} `{!NodeAllocFresh Hm} q l f :
  queue_rep q l [] -> lenZ l < 2147483647 ->
  match node_malloc (heap q) with
  | None => EnQueue q f = Ret (None, q)
  | Some p => exists q', EnQueue q f = Ret (Some p, q') /\ queue_rep q' (l ++ [(p, f)]) []
  end.
Proof.
  intros Hq Hlt. unfold EnQueue. destruct (node_malloc (heap q)) as [p|] eqn:E; [|reflexivity].
  pose proof (enqueue_node_rep q l [] p f Hq (malloc_fresh _ _ E)) as Hq1.
  destruct (enqueue_locked_rep _ _ _ _ _ Hq1 Hlt) as (q' & -> & Hq'). eauto.
Qed.

Lemma DeQueue_rep q l :
  queue_rep q l [] ->
  exists q', DeQueue q = Ret (front q', q') /\ queue_rep q' (tail l) [].
Proof.
  intros Hq. unfold DeQueue. destruct l as [|[a f] l].
  - exists q. unfold dequeue_locked. rewrite (IsEmpty_rep _ _ _ Hq). cbn. auto.
  - pose proof (qr_chain _ _ _ Hq) as [Hf _]. rewrite Hf.
    destruct (dequeue_locked_rep _ _ _ _ _ Hq) as (q' & -> & Hq'). exists q'. auto.
Qed.

Lemma ClearQueue_rep fuel q l :
  queue_rep q l [] -> (length l <= fuel)%nat ->
  exists q', ClearQueue fuel q = Ret q' /\ queue_rep q' [] [].
Proof.
  revert q l. induction fuel as [|fuel IH]; intros q l Hq Hf; cbn [ClearQueue];
    rewrite (IsEmpty_rep _ _ _ Hq); destruct l as [|x l]; cbn [negb]; eauto; [cbn in Hf; lia|].
  destruct (DeQueue_rep q (x :: l) Hq) as (q1 & -> & Hq1). cbn [obind].
  apply (IH q1 l Hq1). cbn in Hf. lia.
Qed.

Lemma traverse_rep h p l :
  chain h p l -> traverse (length l) h p = Ret (map snd l).
Proof.
  revert p. induction l as [|[a f] l IH]; intros p; cbn; [auto|].
  intros (-> & n & Hn & Hf & Hc). cbn. rewrite Hn. cbn. rewrite (IH _ Hc), Hf. reflexivity.
Qed.

Lemma QueueTraverse_rep q l pend : queue_rep q l pend -> QueueTraverse q = Ret (map snd l).
Proof.
  intros Hq. unfold QueueTraverse. rewrite (qr_size _ _ _ Hq).
  destruct (Z.ltb_spec (lenZ l) 0); [lia|]. rewrite Nat2Z.id. apply traverse_rep, Hq.
Qed.

Lemma GetRear_rep q l pend old :
  queue_rep q l pend ->
  GetRear q old = Ret (match last l with Some x => x.2 | None => old end, fst <$> last l).
Proof.
  intros Hq. unfold GetRear. rewrite (IsEmpty_rep _ _ _ Hq), (qr_rear _ _ _ Hq).
  destruct l as [|x l]; [reflexivity|]. cbn [negb].
  destruct (last (x :: l)) as [[r f]|] eqn:El; [|apply last_None in El; discriminate].
  apply last_Some in El as [l0 El]. pose proof (qr_chain _ _ _ Hq) as Hc. rewrite El in Hc.
  assert (Hr : exists n, heap q !! r = Some n /\ frame n = f).
  { revert Hc. generalize (front q). clear. induction l0 as [|[b g] l0 IH]; intros p; cbn.
    - intros (_ & n & Hn & Hf & _). eauto.
    - intros (_ & n & _ & _ & Hc). exact (IH _ Hc). }
  destruct Hr as (n & Hn & Hf). cbn. rewrite Hn. cbn. rewrite Hf. reflexivity.
Qed.

Lemma getfront_rep q x l pend :
  queue_rep q (x :: l) pend -> getfront_locked q = Ret x.2 /\ getfront_result q = Some x.1.
Proof.
  intros Hq. destruct x as [a f]. pose proof (qr_chain _ _ _ Hq) as (Hf & n & Hn & Hfn & _).
  unfold getfront_locked, getfront_result. rewrite Hf. cbn. rewrite Hn. cbn. rewrite Hfn. auto.
Qed.

(** ** Interleaving

    Any number of producers call [EnQueue]; consumers loop over [GetFront] and
    [DeQueue].  A step is a critical section or an access outside the lock. *)

(** Where a consumer is: waiting in [GetFront], holding the frame it copied,
    holding the front it read at the start of [DeQueue]. *)
Inductive consumer := CWait | CGot (f : Z) | CHave (f : Z) (pnode : option positive).

Record qsys := mkQS {
  qs_queue : Queue;
  qs_pend : list (positive * Z);
  qs_cons : list consumer;
  qs_in : list Z;
  qs_out : list Z }.

Inductive qact := QMalloc (f : Z) | QLink (i : nat) | QConsumer (i : nat).

(** [None]: the step is not enabled.  [QLink i] is the critical section of the
    producer that holds the [i]-th pending node; [qs_in] is the order of linking. *)
Definition qstep `{NodeAlloc} (s : qsys) (a : qact) : option (outcome qsys) :=
  let q := qs_queue s in
  match a with
  | QMalloc f =>
      match node_malloc (heap q) with
      | None => None
      | Some p => Some (Ret (mkQS (enqueue_node q p f) (qs_pend s ++ [(p, f)]) (qs_cons s)
                               (qs_in s) (qs_out s)))
      end
  | QLink i =>
      match qs_pend s !! i with
      | None => None
      | Some (p, f) =>
          Some (let! q := enqueue_locked q p in
                Ret (mkQS q (delete i (qs_pend s)) (qs_cons s) (qs_in s ++ [f]) (qs_out s)))
      end
  | QConsumer i =>
      match qs_cons s !! i with
      | None => None
      | Some CWait =>
          if IsEmpty q then None
          else Some (let! f := getfront_locked q in
                     Ret (mkQS q (qs_pend s) (<[i := CGot f]> (qs_cons s)) (qs_in s) (qs_out s)))
      | Some (CGot f) =>
          Some (Ret (mkQS q (qs_pend s) (<[i := CHave f (front q)]> (qs_cons s)) (qs_in s) (qs_out s)))
      | Some (CHave f pnode) =>
          Some (let! q := dequeue_locked q pnode in
                Ret (mkQS q (qs_pend s) (<[i := CWait]> (qs_cons s)) (qs_in s) (qs_out s ++ [f])))
      end
  end.

(** Runs of the system with [n] consumers. *)
Inductive qreach `{NodeAlloc} (n : nat) : qsys -> Prop :=
| QNew : qreach n (mkQS InitQueue [] (repeat CWait n) [] [])
| QStep s a s' :
    qreach n s -> lenZ (qs_in s) < 2147483647 -> qstep s a = Some (Ret s') -> qreach n s'.

(** With one consumer. *)
Record qsys_inv (s : qsys) (l : list (positive * Z)) (c : consumer) : Prop := {
  qi_rep : queue_rep (qs_queue s) l (qs_pend s);
  qi_cons : qs_cons s = [c];
  qi_hist : qs_in s = qs_out s ++ map snd l;
  qi_pc : match c with
          | CWait => True
          | CGot f => exists a l', l = (a, f) :: l'
          | CHave f p => exists a l', l = (a, f) :: l' /\ p = Some a
          end }.

Lemma qi_len s l c : qsys_inv s l c -> lenZ l <= lenZ (qs_in s).
Proof. intros H. rewrite (qi_hist _ _ _ H), length_app, length_map. lia. Qed.

Lemma qstep_ok `{Hm : NodeAlloc} `{!NodeAllocFresh Hm} s l c a r :
  qsys_inv s l c -> lenZ (qs_in s) < 2147483647 -> qstep s a = Some r ->
  exists s' l' c', r = Ret s' /\ qsys_inv s' l' c'.
Proof.
  intros Hi Hlt E. pose proof (qi_len _ _ _ Hi) as Hlen. destruct Hi as [Hq Hc Hh Hpc].
  destruct a as [f|i|i]; cbn [qstep] in E.
  - destruct (node_malloc (heap (qs_queue s))) as [p|] eqn:Ep; [|discriminate]. injection E as <-.
    do 3 eexists. split; [reflexivity|]. constructor; cbn; try eassumption.
    apply enqueue_node_rep; [exact Hq | exact (malloc_fresh _ _ Ep)].
  - destruct (qs_pend s !! i) as [[p f]|] eqn:Ep; [|discriminate]. injection E as <-.
    apply (queue_rep_perm _ _ _ _ (delete_Permutation _ _ _ Ep)) in Hq.
    destruct (enqueue_locked_rep _ _ _ _ _ Hq ltac:(lia)) as (q' & -> & Hq'). cbn [obind].
    exists (mkQS q' (delete i (qs_pend s)) (qs_cons s) (qs_in s ++ [f]) (qs_out s)), (l ++ [(p, f)]), c.
    split; [reflexivity|]. constructor; cbn; try assumption.
    + rewrite Hh, map_app, app_assoc. reflexivity.
    + destruct c as [|g|g pn]; [exact I| |].
      * destruct Hpc as (a & l' & ->). exists a, (l' ++ [(p, f)]). reflexivity.
      * destruct Hpc as (a & l' & -> & Hpn). exists a, (l' ++ [(p, f)]). auto.
  - rewrite Hc in E. destruct i as [|i]; [|discriminate]. cbn in E. destruct c as [|f|f pn].
    + rewrite (IsEmpty_rep _ _ _ Hq) in E. destruct l as [|[a f] l]; [discriminate|].
      injection E as <-. pose proof (qr_chain _ _ _ Hq) as (Hf & n & Hn & Hfn & _).
      unfold getfront_locked. rewrite Hf. cbn. rewrite Hn. cbn. rewrite Hfn.
      do 3 eexists. split; [reflexivity|]. constructor; cbn; try eassumption; [reflexivity|].
      exists a, l. reflexivity.
    + injection E as <-. destruct Hpc as (a & l' & ->). pose proof (qr_chain _ _ _ Hq) as (Hf & _).
      do 3 eexists. split; [reflexivity|]. constructor; cbn; try eassumption; [reflexivity|].
      exists a, l'. auto.
    + injection E as <-. destruct Hpc as (a & l' & -> & ->).
      destruct (dequeue_locked_rep _ _ _ _ _ Hq) as (q' & -> & Hq'). cbn [obind].
      exists (mkQS q' (qs_pend s) [CWait] (qs_in s) (qs_out s ++ [f])), l', CWait.
      split; [reflexivity|]. constructor; cbn; try assumption; [reflexivity | | exact I].
      rewrite Hh, <- app_assoc. reflexivity.
Qed.

Lemma qreach_inv `{Hm : NodeAlloc} `{!NodeAllocFresh Hm} s :
  qreach 1 s -> exists l c, qsys_inv s l c.
Proof.
  induction 1 as [|s a s' _ (l & c & Hi) Hlt E].
  - exists [], CWait. constructor; try reflexivity. apply InitQueue_rep.
  - destruct (qstep_ok s l c a _ Hi Hlt E) as (s1 & l1 & c1 & Er & H1).
    apply Ret_inj in Er as <-. eauto.
Qed.

(** ** Theorems *)

(** An allocator that takes the first free address. *)
#[export] Instance first_free : NodeAlloc := fun h => Some (fresh (dom h)).

#[export] Instance first_free_fresh : NodeAllocFresh first_free.
Proof.
  intros h p [= <-]. apply not_elem_of_dom, is_fresh.
Qed.

(** C7: FIFO refinement. Without interference the operations on the linked nodes
    are those of a list: [EnQueue] appends, or changes nothing and returns NULL
    when no node can be allocated; [DeQueue] drops the first, [ClearQueue] all;
    [QueueTraverse] reads the frames in order, [GetRear] gives the last frame
    and its node, the copy of [GetFront] the first, and none of them changes the
    queue; [GetSize] counts.  No node is leaked, lost or used after it was
    freed.  For fewer than 2^31 - 1 nodes. *)
Theorem queue_refines_list `{Hm : NodeAlloc} `{!NodeAllocFresh Hm} (q : Queue)
    (l : list (positive * Z)) (f old : Z) (Hq : queue_rep q l []) (Hl : lenZ l < 2147483647) :
  (forall p, node_malloc (heap q) = Some p ->
     exists q', EnQueue q f = Ret (Some p, q') /\ queue_rep q' (l ++ [(p, f)]) []) /\
  (node_malloc (heap q) = None -> EnQueue q f = Ret (None, q)) /\
  (exists q', DeQueue q = Ret (front q', q') /\ queue_rep q' (tail l) []) /\
  (exists q', ClearQueue (length l) q = Ret q' /\ queue_rep q' [] []) /\
  QueueTraverse q = Ret (map snd l) /\
  GetRear q old = Ret (match last l with Some x => x.2 | None => old end, fst <$> last l) /\
  (forall x l', l = x :: l' -> getfront_locked q = Ret x.2 /\ getfront_result q = Some x.1) /\
  GetSize q = lenZ l /\ (IsEmpty q = true <-> l = []).
Proof.
  split_and!.
  - intros p E. pose proof (EnQueue_rep q l f Hq Hl) as H. rewrite E in H. exact H.
  - intros E. pose proof (EnQueue_rep q l f Hq Hl) as H. rewrite E in H. exact H.
  - exact (DeQueue_rep q l Hq).
  - exact (ClearQueue_rep (length l) q l Hq (le_n _)).
  - exact (QueueTraverse_rep q l [] Hq).
  - exact (GetRear_rep q l [] old Hq).
  - intros x l' ->. exact (getfront_rep q x l' [] Hq).
  - exact (qr_size _ _ _ Hq).
  - rewrite (IsEmpty_rep _ _ _ Hq). destruct l; split; congruence.
Qed.

(** C8: One consumer is safe. With any number of producers and one thread that
    alternates [GetFront] and [DeQueue], in every interleaving no step touches
    a null or freed node, and the frames consumed are, in order, the first
    frames enqueued. *)
Theorem single_consumer_fifo `{Hm : NodeAlloc} `{!NodeAllocFresh Hm} (s : qsys) (a : qact)
    (r : outcome qsys) (Hs : qreach 1 s) (Hl : lenZ (qs_in s) < 2147483647)
    (E : qstep s a = Some r) :
  (exists s', r = Ret s') /\ qs_out s `prefix_of` qs_in s.
Proof.
  destruct (qreach_inv s Hs) as (l & c & Hi). split.
  - destruct (qstep_ok s l c a r Hi Hl E) as (s' & _ & _ & -> & _). eauto.
  - rewrite (qi_hist _ _ _ Hi). exists (map snd l). reflexivity.
Qed.

(** The run of a list of steps. *)
Fixpoint qrun (s : qsys) (l : list qact) : option (outcome qsys) :=
  match l with
  | [] => Some (Ret s)
  | a :: l' =>
      match qstep s a with
      | Some (Ret s') => qrun s' l'
      | r => r
      end
  end.

(** Two consumers are not. [DeQueue] reads the front before it takes the lock,
    so two consumers can hold the same node: the second one reads and frees
    memory the first one freed. *)
Theorem two_consumers_use_after_free :
  qrun (mkQS InitQueue [] [CWait; CWait] [] [])
    [QMalloc 1; QMalloc 2; QLink 1; QLink 0; QConsumer 0; QConsumer 0; QConsumer 1; QConsumer 1;
     QConsumer 0; QConsumer 1] = Some (Crash OutOfBounds).
Proof. vm_compute. reflexivity. Qed.

Lemma qrun_reach n s l s' :
  qreach n s -> lenZ (qs_in s) + lenZ l < 2147483647 -> qrun s l = Some (Ret s') -> qreach n s'.
Proof.
  revert s. induction l as [|a l IH]; intros s Hs Hl; cbn [qrun].
  { intros [= <-]. exact Hs. }
  destruct (qstep s a) as [[s1|c]|] eqn:E; try discriminate. intros E1. cbn [length] in Hl.
  assert (Hin : (length (qs_in s1) <= S (length (qs_in s)))%nat).
  { destruct a as [f|i|i]; cbn [qstep] in E.
    - destruct (node_malloc _); [|discriminate]. injection E as <-. cbn. lia.
    - destruct (qs_pend s !! i) as [[p f]|]; [|discriminate]. injection E as E.
      apply obind_Ret in E as (q1 & _ & [= <-]). cbn. rewrite length_app. cbn. lia.
    - destruct (qs_cons s !! i) as [[|f|f pn]|]; [| | |discriminate].
      + destruct (IsEmpty _); [discriminate|]. injection E as E.
        apply obind_Ret in E as (f & _ & [= <-]). cbn. lia.
      + injection E as <-. cbn. lia.
      + injection E as E. apply obind_Ret in E as (q1 & _ & [= <-]). cbn. lia. }
  apply (IH s1); [|lia|exact E1]. eapply QStep; [exact Hs | lia | exact E].
Qed.

(** A queue of two frames. *)
Definition queue2 : Queue :=
  match EnQueue InitQueue 7 with
  | Ret (_, q) => match EnQueue q 8 with Ret (_, q') => q' | _ => InitQueue end
  | _ => InitQueue
  end.

Lemma queue2_rep : exists p1 p2, queue_rep queue2 [(p1, 7); (p2, 8)] [].
Proof.
  unfold queue2. pose proof (EnQueue_rep InitQueue [] 7 InitQueue_rep eq_refl) as (q1 & -> & H1).
  pose proof (EnQueue_rep q1 _ 8 H1 eq_refl) as (q2 & -> & H2). eexists _, _. exact H2.
Qed.

Lemma queue_refines_list_witness :
  QueueTraverse queue2 = Ret [7; 8] /\ GetSize queue2 = 2 /\
  (exists p, GetRear queue2 0 = Ret (8, Some p)) /\
  (exists q' p, DeQueue queue2 = Ret (front q', q') /\ queue_rep q' [(p, 8)] []).
Proof.
  destruct queue2_rep as (p1 & p2 & H).
  destruct (queue_refines_list queue2 _ 9 0 H eq_refl) as (_ & _ & (q' & H3 & H4) & _ & H5 & H6 & _ & H7 & _).
  split_and!; [exact H5 | exact H7 | exists p2; exact H6 | exists q', p2; auto].
Defined.

Definition sys0 : qsys := mkQS InitQueue [] [CWait] [] [].
Definition sys1 : qsys :=
  match qrun sys0 [QMalloc 7; QMalloc 8; QLink 1; QConsumer 0; QConsumer 0] with
  | Some (Ret s) => s
  | _ => sys0
  end.

Lemma single_consumer_fifo_witness :
  exists r, qstep sys1 (QConsumer 0) = Some r /\
    (exists s', r = Ret s') /\ qs_out sys1 `prefix_of` qs_in sys1.
Proof.
  destruct (qstep sys1 (QConsumer 0)) as [r|] eqn:E; [|vm_compute in E; discriminate].
  exists r. split; [reflexivity|]. apply (single_consumer_fifo sys1 (QConsumer 0) r).
  - apply (qrun_reach 1 sys0 [QMalloc 7; QMalloc 8; QLink 1; QConsumer 0; QConsumer 0]);
      [apply QNew | vm_compute; reflexivity | vm_compute; reflexivity].
  - vm_compute. reflexivity.
  - exact E.
Defined.
