(* ===== verification/Net.v ===== *)
(** * Raw IPv4/UDP packets (net.c, net.h)

    Checksum and header construction in a caller's byte buffer.  A write outside
    the buffer is a crash.  Struct fields are stored little endian as the target
    does; [htons] swaps. *)

From S2P Require Import Prelude.

Local Open Scope Z_scope.

(** ** Bytes of a buffer *)
(** A 16-bit store. *)
Definition put16 (b : list Z) (i : nat) (v : Z) : outcome (list Z) :=
  let! b := put8 b i v in put8 b (S i) (v / 256).

(** A 32-bit store. *)
Definition put32 (b : list Z) (i : nat) (v : Z) : outcome (list Z) :=
  let! b := put16 b i v in put16 b (S (S i)) (v / 65536).

Definition get16 (b : list Z) (i : nat) : outcome Z :=
  let! lo := get8 b i in let! hi := get8 b (S i) in Ret (lo + 256 * hi).

Definition get32 (b : list Z) (i : nat) : outcome Z :=
  let! lo := get16 b i in let! hi := get16 b (S (S i)) in Ret (lo + 65536 * hi).

(** ** Checksum *)

(** [for (sum = 0; nwords > 0; nwords--) sum += *buf++;] *)
Fixpoint csum_loop (b : list Z) (i nwords : nat) (sum : Z) : outcome Z :=
  match nwords with
  | O => Ret sum
  | S n => let! w := get16 b i in csum_loop b (S (S i)) n (u32 (sum + w))
  end.

(** The two folds and the complement. *)
Definition csum_fold (sum : Z) : Z :=
  let sum := u32 (Z.shiftr sum 16 + Z.land sum 65535) in
  let sum := u32 (sum + Z.shiftr sum 16) in
  u16 (Z.lnot sum).

Definition csum_ip (b : list Z) (i nwords : nat) : outcome Z :=
  let! sum := csum_loop b i nwords 0 in Ret (csum_fold sum).

(** ** Interfaces *)
Record hw_eth_iface := mkIface { index : Z; addr_len : Z; hw_addr : list Z }.

Inductive ifreq_get := SIOCGIFINDEX | SIOCGIFHWADDR.

(** The loop that copies six bytes of [ifr_hwaddr.sa_data], which follows the
    two-byte family in the union of [struct ifreq]; [n] left. *)
Fixpoint copy_hwaddr (u : list Z) (n i : nat) (acc : list Z) : outcome (list Z) :=
  match n with
  | O => Ret acc
  | S n' => let! v := get8 u (2 + i) in copy_hwaddr u n' (S i) (acc ++ [v])
  end.

(** [find_iface]: [ioctl] is what the kernel makes of the union of [ifr] (its
    result is not looked at), [u] what the union holds at entry; the union is
    shared by the index and the address. *)
Definition find_iface (ioctl : ifreq_get -> list Z -> list Z) (u : list Z) : outcome hw_eth_iface :=
  let u := ioctl SIOCGIFINDEX u in
  let! idx := get32 u 0 in
  let u := ioctl SIOCGIFHWADDR u in
  let! hw := copy_hwaddr u 6 0 [] in
  Ret (mkIface (i32 idx) 6 hw).

(** ** Headers *)
Definition sizeof_udpheader : Z := 8.
Definition sizeof_ipheader : Z := 20.

(** [build_upd_hdr] at offset [p]; returns the length of the header. *)
Definition build_upd_hdr (b : list Z) (p : nat) (data_len src_port dst_port : Z)
  : outcome (Z * list Z) :=
  let len := sizeof_udpheader in
  let! b := put16 b p (htons src_port) in
  let! b := put16 b (p + 2) (htons dst_port) in
  let! b := put16 b (p + 4) (htons (u16 (len + data_len))) in
  Ret (len, b).

(** The bit-fields of the first byte: [ihl] is its low half. *)
Definition set_ihl (old v : Z) : Z := Z.lor (Z.land old 240) (Z.land v 15).
Definition set_ver (old v : Z) : Z := Z.lor (Z.land old 15) (Z.shiftl (Z.land v 15) 4).

Section IP.
(** [inet_addr] of the C library, on the text of an address; the result is in
    network order. *)
Variable inet_addr : list Z -> Z.

Definition build_ip4_hdr (b : list Z) (p : nat) (data_len : Z) (src dst : list Z) (proto : Z)
  : outcome (Z * list Z) :=
  let len := sizeof_ipheader in
  let! v := get8 b p in
  let! b := put8 b p (set_ihl v 5) in
  let! v := get8 b p in
  let! b := put8 b p (set_ver v 4) in
  let! b := put8 b (p + 1) 0 in
  let! b := put16 b (p + 6) 0 in
  let! b := put16 b (p + 2) (htons (u16 (len + data_len))) in
  let! b := put16 b (p + 4) (htons 54321) in
  let! b := put8 b (p + 8) 64 in
  let! b := put8 b (p + 9) proto in
  let! b := put32 b (p + 12) (inet_addr src) in
  let! b := put32 b (p + 16) (inet_addr dst) in
  let! c := csum_ip b p (Z.to_nat (len / 2)) in
  let! b := put16 b (p + 10) c in
  Ret (len, b).

(** [for (i = 0; i < data_len; i++) buffer[offset + i] = data[i];] with [n] left. *)
Fixpoint copy_data (b : list Z) (o : nat) (data : list Z) (n i : nat) : outcome (list Z) :=
  match n with
  | O => Ret b
  | S n' =>
      let! v := get8 data i in
      let! b := put8 b (o + i) v in
      copy_data b o data n' (S i)
  end.

Definition build_ip4_udp_pkt (buff_len : nat) (data : list Z) (data_len : Z)
    (src dst : list Z) (src_port dst_port proto : Z) : outcome (Z * list Z) :=
  let b := repeat 0 buff_len in
  let! (udp_len, b) := build_upd_hdr b 20 data_len src_port dst_port in
  let! (ip_len, b) := build_ip4_hdr b 0 (u16 (data_len + udp_len)) src dst proto in
  let! b := copy_data b 28 data (Z.to_nat data_len) 0 in
  Ret (data_len + udp_len + ip_len, b).
End IP.

(** ** The checksum law *)
Lemma csum_fold_spec s :
  0 <= s < 2147483648 ->
  exists q, let r := 65535 - csum_fold s in
  0 <= r <= 65535 /\ s = r + 65535 * q /\ (0 < s -> 0 < r).
Proof.
  intros Hs. cbv zeta. unfold csum_fold.
  rewrite !Z.shiftr_div_pow2 by lia. change (2 ^ 16) with 65536.
  change (Z.land s 65535) with (Z.land s (Z.ones 16)).
  rewrite !Z.land_ones by lia. change (2 ^ 16) with 65536. unfold Z.lnot, Z.pred.
  pose proof (Z.div_mod s 65536 ltac:(lia)) as E1.
  pose proof (Z.mod_pos_bound s 65536 ltac:(lia)) as B1.
  set (q := s / 65536) in *. set (m := s mod 65536) in *. clearbody q m.
  rewrite (u32_id (q + m)) by rlia.
  destruct (Z_lt_ge_dec (q + m) 65536) as [Hc|Hc].
  - rewrite (Z.div_small (q + m)), u32_id by rlia. exists q. wrap_lia.
  - replace ((q + m) / 65536) with 1 by (Z.div_mod_to_equations; lia).
    rewrite u32_id by rlia. exists (q + 1). wrap_lia.
Qed.

(** Adding its own checksum to a sum makes the checksum zero. *)
Lemma csum_fold_own s :
  0 < s < 1073741824 -> csum_fold (s + csum_fold s) = 0.
Proof.
  intros Hs. destruct (csum_fold_spec s ltac:(lia)) as (q & H1 & H2 & H3).
  specialize (H3 ltac:(lia)). set (c := csum_fold s) in *.
  destruct (csum_fold_spec (s + c) ltac:(lia)) as (q' & H4 & H5 & H6).
  specialize (H6 ltac:(lia)). set (d := csum_fold (s + c)) in *. clearbody c d.
  lia.
Qed.

(** ** The packet built *)

(** The two bytes of a 16-bit value in network order. *)
Definition be16 (v : Z) : list Z := [v / 256; v mod 256].
(** The bytes of an object as the target stores it. *)
Definition le16 (v : Z) : list Z := [v mod 256; v / 256].
Definition le32 (v : Z) : list Z :=
  [v mod 256; v / 256 mod 256; v / 65536 mod 256; v / 16777216].

(** RFC 791 header without options, checksum field [c] as stored. *)
Definition ip_header (total proto : Z) (c src dst : list Z) : list Z :=
  [69; 0] ++ be16 total ++ be16 54321 ++ [0; 0; 64; proto] ++ c ++ src ++ dst.

(** RFC 768 header, no checksum. *)
Definition udp_header (sport dport len : Z) : list Z :=
  be16 sport ++ be16 dport ++ be16 len ++ [0; 0].

Definition wsum (ws : list Z) : Z := foldr Z.add 0 ws.

(** The words of a byte string. *)
Fixpoint words (b : list Z) : list Z :=
  match b with
  | lo :: hi :: b' => lo + 256 * hi :: words b'
  | _ => []
  end.

Lemma csum_loop_words n : forall pre b s,
  length b = (2 * n)%nat -> Forall is_u8 b -> 0 <= s ->
  s + 65536 * Z.of_nat n < 4294967296 ->
  forall post, csum_loop (pre ++ b ++ post) (length pre) n s = Ret (s + wsum (words b)).
Proof.
  induction n as [|n IH]; intros pre b s Hl Hb Hs Hn post.
  - destruct b; [|discriminate]. simpl. f_equal. lia.
  - destruct b as [|lo [|hi b]]; simpl in Hl; try lia.
    apply Forall_cons in Hb as [Hlo Hb]. apply Forall_cons in Hb as [Hhi Hb].
    cbn [csum_loop words wsum foldr]. unfold get16, get8.
    change ((lo :: hi :: b) ++ post) with (lo :: hi :: b ++ post).
    rewrite (list_lookup_middle pre _ lo (length pre)) by reflexivity.
    replace (pre ++ lo :: hi :: b ++ post) with ((pre ++ [lo; hi]) ++ b ++ post)
      by (rewrite <- app_assoc; reflexivity).
    assert (E : ((pre ++ [lo; hi]) ++ b ++ post) !! S (length pre) = Some hi).
    { rewrite <- app_assoc. rewrite lookup_app_r by lia.
      replace (S (length pre) - length pre)%nat with 1%nat by lia. reflexivity. }
    rewrite E. cbn [obind].
    replace (S (S (length pre))) with (length (pre ++ [lo; hi])) by (rewrite length_app; simpl; lia).
    rewrite u32_id by rlia.
    rewrite IH; [f_equal; unfold wsum; lia | lia | assumption | rlia | rlia].
Qed.

Lemma csum_ip_words b post n :
  length b = (2 * n)%nat -> (n <= 1000)%nat -> Forall is_u8 b ->
  csum_ip (b ++ post) 0 n = Ret (csum_fold (wsum (words b))).
Proof.
  intros Hl Hn Hb. unfold csum_ip.
  pose proof (csum_loop_words n [] b 0 Hl Hb ltac:(lia) ltac:(lia) post) as E.
  cbn [app length] in E. rewrite E. reflexivity.
Qed.

Lemma csum_fold_range s : is_u16 (csum_fold s).
Proof. apply u16_range. Qed.

Lemma copy_data_spec n : forall h d1 d2 z,
  length d2 = n -> (n <= length z)%nat -> Forall is_u8 d2 ->
  copy_data (h ++ d1 ++ z) (length h) (d1 ++ d2) n (length d1) = Ret (h ++ (d1 ++ d2) ++ drop n z).
Proof.
  induction n as [|n IH]; intros h d1 d2 z Hn Hz Hd.
  - destruct d2; [|discriminate]. simpl. rewrite app_nil_r. reflexivity.
  - destruct d2 as [|x d2]; [discriminate|]. destruct z as [|y z]; [simpl in Hz; lia|].
    apply Forall_cons in Hd as [Hx Hd]. cbn [copy_data]. unfold get8, put8.
    rewrite (list_lookup_middle d1 d2 x) by reflexivity. cbn [obind].
    rewrite (proj2 (Nat.ltb_lt _ _)) by (rewrite !length_app; simpl; lia). cbn [obind].
    replace (<[(length h + length d1)%nat:=u8 x]> (h ++ d1 ++ y :: z))
      with (h ++ (d1 ++ [x]) ++ z).
    2:{ rewrite insert_app_r. rewrite <- (Nat.add_0_r (length d1)), insert_app_r. simpl.
        rewrite <- app_assoc. unfold u8. rewrite Z.mod_small by rlia. reflexivity. }
    replace (d1 ++ x :: d2) with ((d1 ++ [x]) ++ d2) by (rewrite <- app_assoc; reflexivity).
    replace (S (length d1)) with (length (d1 ++ [x])) by (rewrite length_app; simpl; lia).
    simpl in Hn, Hz. rewrite IH by (assumption || lia). reflexivity.
Qed.

Lemma le16_bytes v : is_u16 v -> u8 v = v mod 256 /\ u8 (v / 256) = v / 256.
Proof. intros H. wrap_lia. Qed.

Lemma le32_bytes v : is_u32 v ->
  u8 v = v mod 256 /\ u8 (v / 256) = v / 256 mod 256 /\
  u8 (v / 65536) = v / 65536 mod 256 /\ u8 (v / 65536 / 256) = v / 16777216.
Proof. intros H. wrap_lia. Qed.

(** Peel stores at literal offsets of a buffer whose first cells are explicit. *)
Ltac store :=
  repeat (rewrite put8_in by (simpl; lia); cbn [obind insert list_insert lookup list_lookup]).

Lemma build_upd_hdr_spec h z n sp dp :
  length h = 20%nat -> is_u16 sp -> is_u16 dp -> 0 <= n <= 65507 ->
  build_upd_hdr (h ++ repeat 0 8 ++ z) 20 n sp dp
  = Ret (8, h ++ udp_header sp dp (8 + n) ++ z).
Proof.
  intros Hh Hs Hd Hn.
  do 20 (destruct h as [|? h]; [discriminate Hh|]). destruct h; [|discriminate Hh].
  unfold build_upd_hdr, put16. cbn [obind]. 
  cbn [Nat.add app repeat]. store.
  destruct (htons_bytes sp Hs) as [-> ->]. destruct (htons_bytes dp Hd) as [-> ->].
  replace (u16 (sizeof_udpheader + n)) with (8 + n) by (unfold sizeof_udpheader; wrap_lia).
  destruct (htons_bytes (8 + n) ltac:(rlia)) as [-> ->]. reflexivity.
Qed.

(** The header with checksum field zero, and the checksum the code stores. *)
Definition ip_sum (total proto : Z) (src dst : list Z) : Z :=
  wsum (words (ip_header total proto [0; 0] src dst)).

Lemma be16_bytes v : is_u16 v -> Forall is_u8 (be16 v).
Proof. intros H. repeat constructor; wrap_lia. Qed.
Lemma le16_Forall v : is_u16 v -> Forall is_u8 (le16 v).
Proof. intros H. repeat constructor; wrap_lia. Qed.
Lemma le32_Forall v : is_u32 v -> Forall is_u8 (le32 v).
Proof. intros H. repeat constructor; wrap_lia. Qed.
#[export] Hint Resolve be16_bytes le16_Forall le32_Forall : ints.

Lemma ip_header_bytes total proto c src dst :
  is_u16 total -> is_u8 proto -> Forall is_u8 c -> Forall is_u8 src -> Forall is_u8 dst ->
  Forall is_u8 (ip_header total proto c src dst).
Proof.
  intros. unfold ip_header.
  repeat apply Forall_app_2; eauto with ints; try (apply be16_bytes; rlia); repeat constructor; rlia.
Qed.

Section Built.
Variable inet_addr : list Z -> Z.
(** [inet_addr] returns an [in_addr_t], a 32-bit unsigned integer. *)
Hypothesis inet_addr_u32 : forall s, is_u32 (inet_addr s).

Lemma build_ip4_hdr_spec z n src dst proto :
  is_u8 proto -> 0 <= n <= 65515 ->
  let s := le32 (inet_addr src) in
  let d := le32 (inet_addr dst) in
  build_ip4_hdr inet_addr (repeat 0 20 ++ z) 0 n src dst proto
  = Ret (20, ip_header (20 + n) proto (le16 (csum_fold (ip_sum (20 + n) proto s d))) s d ++ z).
Proof.
  intros Hp Hn s d. subst s d.
  pose proof (inet_addr_u32 src) as Hsrc. pose proof (inet_addr_u32 dst) as Hdst.
  set (a := inet_addr src) in *. set (b := inet_addr dst) in *.
  unfold build_ip4_hdr. fold a b. clearbody a b. unfold put32, put16, get8.
  cbn [obind Nat.add app repeat lookup list_lookup].
  change (u8 (set_ihl 0 5)) with 5. store. cbn [lookup list_lookup obind]. store.
  replace (u16 (sizeof_ipheader + n)) with (20 + n) by (unfold sizeof_ipheader; wrap_lia).
  destruct (htons_bytes (20 + n) ltac:(rlia)) as [-> ->].
  destruct (htons_bytes 54321 ltac:(rlia)) as [-> ->].
  destruct (le32_bytes a Hsrc) as (-> & -> & -> & ->).
  destruct (le32_bytes b Hdst) as (-> & -> & -> & ->).
  replace (u8 proto) with proto by wrap_lia.
  match goal with |- context [csum_ip ?l 0 ?k] =>
    change (csum_ip l 0 k)
      with (csum_ip (ip_header (20 + n) proto [0; 0] (le32 a) (le32 b) ++ z) 0 10) end.
  rewrite csum_ip_words; [|reflexivity|lia|].
  2:{ apply ip_header_bytes; auto with ints; try rlia. repeat constructor; rlia. }
  fold (ip_sum (20 + n) proto (le32 a) (le32 b)). cbn [obind]. store.
  destruct (le16_bytes _ (csum_fold_range (ip_sum (20 + n) proto (le32 a) (le32 b)))) as [-> ->].
  reflexivity.
Qed.

(** The stored checksum makes the header verify. *)
Lemma ip_header_verifies total proto s d z :
  is_u16 total -> is_u8 proto -> is_u32 s -> is_u32 d ->
  csum_ip (ip_header total proto (le16 (csum_fold (ip_sum total proto (le32 s) (le32 d))))
             (le32 s) (le32 d) ++ z) 0 10 = Ret 0.
Proof.
  intros Ht Hp Hs Hd. set (c := csum_fold (ip_sum total proto (le32 s) (le32 d))).
  assert (Hc : is_u16 c) by apply csum_fold_range.
  rewrite csum_ip_words; [|reflexivity|lia|apply ip_header_bytes; auto with ints].
  replace (wsum (words (ip_header total proto (le16 c) (le32 s) (le32 d))))
    with (ip_sum total proto (le32 s) (le32 d) + c).
  - f_equal. apply csum_fold_own. unfold ip_sum. cbn. wrap_lia.
  - unfold ip_sum. cbn. rewrite (Z.div_mod c 256) at 1 by lia. lia.
Qed.

Lemma ip4_udp_packet_built buff_len data src dst sp dp proto :
  is_u8 proto -> is_u16 sp -> is_u16 dp -> Forall is_u8 data ->
  lenZ data <= 65507 -> (28 + length data <= buff_len)%nat ->
  let n := lenZ data in
  let s := le32 (inet_addr src) in
  let d := le32 (inet_addr dst) in
  let c := le16 (csum_fold (ip_sum (28 + n) proto s d)) in
  let pkt := ip_header (28 + n) proto c s d ++ udp_header sp dp (8 + n) ++ data
             ++ repeat 0 (buff_len - 28 - length data) in
  build_ip4_udp_pkt inet_addr buff_len data n src dst sp dp proto = Ret (n + 28, pkt)
  /\ csum_ip pkt 0 10 = Ret 0.
Proof.
  intros Hp Hs Hd Hb Hn Hl. cbv zeta. split.
  2:{ apply ip_header_verifies; auto. rlia. }
  unfold build_ip4_udp_pkt.
  replace buff_len with (20 + (8 + (buff_len - 28)))%nat by lia.
  rewrite !repeat_app, build_upd_hdr_spec by (reflexivity || assumption || lia).
  cbn [obind]. replace (u16 (lenZ data + 8)) with (8 + lenZ data) by wrap_lia.
  rewrite build_ip4_hdr_spec by (assumption || lia). cbn [obind].
  replace (20 + (8 + lenZ data)) with (28 + lenZ data) by lia. rewrite Nat2Z.id.
  set (h := ip_header _ _ _ _ _). set (u := udp_header _ _ _).
  pose proof (copy_data_spec (length data) (h ++ u) [] data (repeat 0 (buff_len - 28)) eq_refl) as E.
  rewrite repeat_length in E. specialize (E ltac:(lia) Hb). rewrite <- !app_assoc in E.
  cbn [app length] in E. replace (length (h ++ u)) with 28%nat in E by reflexivity.
  rewrite E. cbn [obind]. do 2 f_equal; [lia|].
  replace (20 + (8 + (buff_len - 28)) - 28 - length data)%nat
    with (buff_len - 28 - length data)%nat by lia.
  do 3 f_equal. replace (buff_len - 28)%nat
    with (length data + (buff_len - 28 - length data))%nat at 1 by lia.
  rewrite repeat_app, drop_app_length'; [reflexivity | now rewrite repeat_length].
Qed.

(** [build_ip4_udp_pkt], on a buffer that holds the data behind the two
    headers and a datagram that fits a 16-bit length, returns the length
    [data_len + 28] and leaves exactly an RFC 791 header (version 4, 20 bytes,
    protocol, total length and addresses as asked), an RFC 768 header (ports
    and length in network order, no checksum), the data and zeros; and the
    header checksum it stored makes [csum_ip] over the header zero, which is
    what a receiver checks. *)
Theorem ip4_udp_packet_layout buff_len data src dst sp dp proto :
  is_u8 proto -> is_u16 sp -> is_u16 dp -> Forall is_u8 data ->
  lenZ data <= 65507 -> (28 + length data <= buff_len)%nat ->
  let n := lenZ data in
  let s := le32 (inet_addr src) in
  let d := le32 (inet_addr dst) in
  let c := le16 (csum_fold (ip_sum (28 + n) proto s d)) in
  let pkt := ip_header (28 + n) proto c s d ++ udp_header sp dp (8 + n) ++ data
             ++ repeat 0 (buff_len - 28 - length data) in
  build_ip4_udp_pkt inet_addr buff_len data n src dst sp dp proto = Ret (n + 28, pkt)
  /\ csum_ip pkt 0 10 = Ret 0.
Proof. intros. apply ip4_udp_packet_built; assumption. Qed.
End Built.

(** Dotted decimal text to an address, one instance of [inet_addr]. *)
Fixpoint dotted (s : list Z) (n : Z) (sh : Z) : Z :=
  match s with
  | [] => u32 (Z.shiftl n sh)
  | c :: s' => if c =? 46 then u32 (Z.shiftl n sh + dotted s' 0 (sh + 8))
               else dotted s' (10 * n + (c - 48)) sh
  end.

Lemma dotted_u32 s : forall n sh, is_u32 (dotted s n sh).
Proof. induction s as [|c s IH]; intros; simpl; [|zcase]; auto with ints. Qed.

Definition text_any : list Z := [48; 46; 48; 46; 48; 46; 48].
Definition text_bcast : list Z := [50; 53; 53; 46; 50; 53; 53; 46; 50; 53; 53; 46; 50; 53; 53].

(** The datagram of two bytes broadcast from port 68 to port 67. *)
Lemma ip4_udp_packet_layout_witness :
  build_ip4_udp_pkt (fun s => dotted s 0 0) 32 [7; 9] 2 text_any text_bcast 68 67 17
  = Ret (30, [69; 0; 0; 30; 212; 49; 0; 0; 64; 17; 166; 158; 0; 0; 0; 0; 255; 255; 255; 255;
              0; 68; 0; 67; 0; 10; 0; 0; 7; 9; 0; 0]).
Proof.
  refine (eq_trans (proj1 (ip4_udp_packet_layout (fun s => dotted s 0 0) (fun s => dotted_u32 s 0 0)
    32 [7; 9] text_any text_bcast 68 67 17 _ _ _ _ _ _)) _); try rlia.
  - repeat constructor; rlia.
  - vm_compute. congruence.
  - simpl. lia.
  - vm_compute. reflexivity.
Defined.
