(* ===== verification/Dhcp.v ===== *)
(** * DHCP client (dhcp.c, dhcp.h, dhclient.c)

    Building the discover message, reading the options of a reply, and the
    client's send/receive loop.  The reply buffer is the 1024-byte array of
    [dhcpmain]; an access outside it is a crash.  Answers of the kernel
    ([sendto], [recvfrom], [ioctl]) are arguments. *)

From S2P Require Import Prelude Net.

Local Open Scope Z_scope.

(** ** dhcp.h *)
Definition DHCP_END : Z := 255.
Definition OPTION_DHCP_MESSAGE_TYPE : Z := 53.
Definition VALUE_MESSAGE_DISCOVER : Z := 1.
Definition OPTION_PARAMETER_REQUEST_LIST : Z := 55.
Definition OPTION_SUBNET_MASK : Z := 1.
Definition OPTION_ROUTER : Z := 3.
Definition OPTION_DNS : Z := 6.
Definition OP_BOOT_REQUEST : Z := 1.
Definition OP_BOOT_REPLY : Z := 2.
Definition HW_TYPE_ETHERNET : Z := 1.
Definition HW_LENGTH_ETHERNET : Z := 6.

Definition DHCP_MAGIC : Z := htonl 1669485411.

(** Offsets of the fields of [struct dhcp_pkt]. *)
Definition sizeof_dhcp_pkt : nat := 368.
Definition off_op : nat := 0.
Definition off_xid : nat := 4.
Definition off_yi_addr : nat := 16.
Definition off_cm_addr : nat := 28.
Definition off_magic : nat := 236.
Definition off_opt : nat := 240.

(** ** dhcp.c *)

(** [for (i = 0; i < mac_len; i++) pkt->cm_addr[i] = src_mac[i];] with [n] left. *)
Fixpoint copy_mac (pkt src_mac : list Z) (n i : nat) : outcome (list Z) :=
  match n with
  | O => Ret pkt
  | S n' =>
      let! v := get8 src_mac i in
      if (i <? 6)%nat then
        let! pkt := put8 pkt (off_cm_addr + i) v in copy_mac pkt src_mac n' (S i)
      else Crash OutOfBounds
  end.

Definition build_dhcp_discover (src_mac : list Z) (mac_len : Z) : outcome (Z * list Z) :=
  let pkt := repeat 0 sizeof_dhcp_pkt in
  let! pkt := put8 pkt off_op OP_BOOT_REQUEST in
  let! pkt := put8 pkt 1 HW_TYPE_ETHERNET in
  let! pkt := put8 pkt 2 HW_LENGTH_ETHERNET in
  let! pkt := put8 pkt 3 0 in
  let! pkt := put32 pkt off_xid 956560166 in
  let! pkt := put16 pkt 8 0 in
  let! pkt := put16 pkt 10 0 in
  let! pkt := put32 pkt 12 0 in
  let! pkt := put32 pkt off_yi_addr 0 in
  let! pkt := put32 pkt 20 0 in
  let! pkt := put32 pkt 24 0 in
  let! pkt := copy_mac pkt src_mac (Z.to_nat mac_len) 0 in
  let! pkt := put32 pkt off_magic DHCP_MAGIC in
  let! pkt := put8 pkt off_opt OPTION_DHCP_MESSAGE_TYPE in
  let! pkt := put8 pkt (off_opt + 1) 1 in
  let! pkt := put8 pkt (off_opt + 2) VALUE_MESSAGE_DISCOVER in
  let! pkt := put8 pkt (off_opt + 3) OPTION_PARAMETER_REQUEST_LIST in
  let! pkt := put8 pkt (off_opt + 4) 3 in
  let! pkt := put8 pkt (off_opt + 5) OPTION_ROUTER in
  let! pkt := put8 pkt (off_opt + 6) OPTION_SUBNET_MASK in
  let! pkt := put8 pkt (off_opt + 7) OPTION_DNS in
  let! pkt := put8 pkt (off_opt + 8) DHCP_END in
  Ret (Z.of_nat sizeof_dhcp_pkt, pkt).

(** A packet at offset [p] of a buffer. *)
Definition is_dhcp (b : list Z) (p : nat) : outcome bool :=
  let! m := get32 b (p + off_magic) in Ret (m =? DHCP_MAGIC).

(** The option at [*offset], as the offset of its first byte from [pkt->opt], or
    [None] for NULL; with the new value of [*offset]. *)
Definition get_dhcp_option (b : list Z) (p offset : nat) : outcome (option nat * nat) :=
  let! id := get8 b (p + off_opt + offset) in
  if (id =? 0) || (id =? DHCP_END) then Ret (None, offset)
  else
    let! len := get8 b (p + off_opt + offset + 1) in
    Ret (Some offset, (offset + (2 + Z.to_nat len))%nat).

(** [htonl(ip[0] << 24 | ip[1] << 16 | ip[2] << 8 | ip[3])] *)
Definition char_to_ip (b : list Z) (i : nat) : outcome Z :=
  let! b0 := get8 b i in
  let! b1 := get8 b (i + 1) in
  let! b2 := get8 b (i + 2) in
  let! b3 := get8 b (i + 3) in
  Ret (htonl (Z.lor (Z.lor (Z.lor (Z.shiftl b0 24) (Z.shiftl b1 16)) (Z.shiftl b2 8)) b3)).

(** ** dhclient.c *)
Definition BUFF_SIZE : nat := 1024.
Definition IPPROTO_UDP : Z := 17.
Definition text := list Z.

(** The requests made of the kernel, in order. *)
Inductive syscall :=
| SetAddr (ifname : text) (addr : Z)       (* SIOCSIFADDR *)
| SetMask (ifname : text) (addr : Z)       (* SIOCSIFNETMASK *)
| AddRoute (gateway : Z)                   (* SIOCADDRT *)
| Close.

Section Client.
(** [inet_addr], [inet_ntoa] and [inet_aton] of the C library. *)
Variable inet_addr : text -> Z.
Variable inet_ntoa : Z -> text.
Variable inet_aton : text -> option Z.

(** [inet_aton(s, &sin->sin_addr)] leaves the address as it is when the text is
    not one, and returns 1 or 0. *)
Definition aton (s : text) (old : Z) : Z * Z :=
  match inet_aton s with Some a => (1, a) | None => (0, old) end.

(** [fd], [ioctl] are the kernel's answers, [rc] the value the automatic
    variable of that name happens to hold. *)
Definition dhcpSetIfAddr (fd : Z) (ioctl : syscall -> Z) (rc : Z)
    (ifname Ipaddr mask gateway : text) : outcome (Z * list syscall) :=
  if fd <? 0 then Ret (-1, [])
  else if (16 <=? length ifname)%nat then Crash OutOfBounds else
    let '(r, a) := aton Ipaddr 0 in
    if r <? 0 then Ret (-2, [])
    else
      let t := [SetAddr ifname a] in
      if ioctl (SetAddr ifname a) <? 0 then Ret (-3, t)
      else
        let '(r, m) := aton mask a in
        if r <? 0 then Ret (-4, t)
        else
          let t := t ++ [SetMask ifname m] in
          if ioctl (SetMask ifname m) <? 0 then Ret (-5, t)
          else
            let '(_, g) := aton gateway 0 in
            let t := t ++ [AddRoute g; Close] in
            if ioctl (AddRoute g) <? 0 then Ret (-1, t)
            else Ret (rc, t).

(** [sprintf(dst, "%s", s)] into a 32-byte array. *)
Definition sprintf32 (s : text) : outcome text :=
  if (length s <? 32)%nat then Ret s else Crash OutOfBounds.

(** The locals the option loop writes: mask, gateway, printed name servers. *)
Record opts := mkOpts { maskip : text; gateip : text; dns : list text }.

(** The body of the loop over the name servers of an option, [n] left. *)
Fixpoint dns_loop (b : list Z) (v : nat) (n i : nat) (acc : list text) : outcome (list text) :=
  match n with
  | O => Ret acc
  | S n' =>
      let! a := char_to_ip b (v + 4 * i) in
      dns_loop b v n' (S i) (acc ++ [inet_ntoa a])
  end.

(** The switch on [opt->id]; [o] is the offset of the option in the buffer. *)
Definition option_case (b : list Z) (o : nat) (s : opts) : outcome opts :=
  let! id := get8 b o in
  let! len := get8 b (o + 1) in
  if id =? OPTION_ROUTER then
    if len =? 4 then
      let! a := char_to_ip b (o + 2) in
      let! t := sprintf32 (inet_ntoa a) in
      Ret (mkOpts (maskip s) t (dns s))
    else Ret s
  else if id =? OPTION_SUBNET_MASK then
    if len =? 4 then
      let! a := char_to_ip b (o + 2) in
      let! t := sprintf32 (inet_ntoa a) in
      Ret (mkOpts t (gateip s) (dns s))
    else Ret s
  else if id =? OPTION_DNS then
    if len mod 4 =? 0 then
      let! l := dns_loop b (o + 2) (Z.to_nat (len / 4)) 0 [] in
      Ret (mkOpts (maskip s) (gateip s) (dns s ++ l))
    else Ret s
  else Ret s.

(** [opt = get_dhcp_option(rdhcp, &offs); while (opt != NULL) ...] *)
Fixpoint option_loop (fuel : nat) (b : list Z) (p offs : nat) (s : opts) : outcome opts :=
  match fuel with
  | O => Crash Diverge
  | S f =>
      let! (opt, offs) := get_dhcp_option b p offs in
      match opt with
      | None => Ret s
      | Some o =>
          let! s := option_case b (p + off_opt + o) s in
          option_loop f b p offs s
      end
  end.

(** The check after [recvfrom]: every condition is evaluated in order and the
    first that holds drops the packet. *)
Definition dropped (b : list Z) : outcome bool :=
  let! proto := get8 b 9 in
  if negb (proto =? IPPROTO_UDP) then Ret true
  else
    let! port := get16 b 22 in
    if negb (port =? htons 68) then Ret true
    else
      let! d := is_dhcp b 28 in
      if negb d then Ret true
      else
        let! op := get8 b (28 + off_op) in
        Ret (negb (op =? OP_BOOT_REPLY)).

Definition text0 : text := [48; 46; 48; 46; 48; 46; 48].
Definition text255 : text := [50; 53; 53; 46; 50; 53; 53; 46; 50; 53; 53; 46; 50; 53; 53].

(** [memset(buffer, 0, BUFF_SIZE)] and [recvfrom] of a datagram. *)
Definition received_buffer (d : list Z) : list Z :=
  let d := take BUFF_SIZE d in d ++ repeat 0 (BUFF_SIZE - length d).

(** Reading an accepted reply: client address, mask, gateway, name servers. *)
Definition read_reply (b : list Z) : outcome (text * opts) :=
  let! yi := get32 b (28 + off_yi_addr) in
  let! cliip := sprintf32 (inet_ntoa yi) in
  let! s := option_loop (S (length b)) b 28 0 (mkOpts text0 text0 []) in
  Ret (cliip, s).

(** How a run of [dhcpmain] ended: it configured the interface, it left by
    [goto exit], or it still waits for the network. *)
Inductive ended :=
| Configured (cliip : text) (s : opts) (calls : list syscall)
| GaveUp
| Waiting.

(** From the label [receive]: one element of [net] per turn, what [sendto]
    returned and the datagram [recvfrom] delivered ([None]: error or timeout).
    Returns the datagrams sent. *)
Fixpoint receive (fd : Z) (ioctl : syscall -> Z) (rc : Z) (ifname : text)
    (net : list (Z * option (list Z))) (buffer : list Z) (len : nat) (sent : list (list Z))
  : outcome (list (list Z) * ended) :=
  match net with
  | [] => Ret (sent, Waiting)
  | (r, d) :: net' =>
      let sent := sent ++ [take len buffer] in
      if r <? 0 then Ret (sent, GaveUp)
      else match d with
           | None | Some [] => Ret (sent, GaveUp)
           | Some d =>
               let buffer := received_buffer d in
               let! drop := dropped buffer in
               if (drop : bool) then receive fd ioctl rc ifname net' buffer len sent
               else
                 let! (cliip, s) := read_reply buffer in
                 let! (_, calls) := dhcpSetIfAddr fd ioctl rc ifname cliip (maskip s) (gateip s) in
                 Ret (sent, Configured cliip s calls)
           end
  end.

(** [dhcpmain]; [get_ifr] and [u] are those of [find_iface]. *)
Definition dhcpmain (get_ifr : ifreq_get -> list Z -> list Z) (u : list Z)
    (fd : Z) (ioctl : syscall -> Z) (rc : Z) (ifname : text)
    (net : list (Z * option (list Z))) : outcome (list (list Z) * ended) :=
  let! iface := find_iface get_ifr u in
  let! (dhcp_len, dhcp) := build_dhcp_discover (hw_addr iface) (addr_len iface) in
  let! (len, buffer) :=
    build_ip4_udp_pkt inet_addr BUFF_SIZE dhcp dhcp_len text0 text255 68 67 IPPROTO_UDP in
  receive fd ioctl rc ifname net buffer (Z.to_nat len) [].
End Client.

(** ** The discover message *)
Definition discover_options : list Z := [53; 1; 1; 55; 3; 3; 1; 6; 255].

Definition discover (mac : list Z) : list Z :=
  [1; 1; 6; 0; 38; 243; 3; 57] ++ repeat 0 20 ++ mac ++ repeat 0 202
  ++ [99; 130; 83; 99] ++ discover_options ++ repeat 0 119.

Lemma build_dhcp_discover_spec mac :
  length mac = 6%nat -> Forall is_u8 mac ->
  build_dhcp_discover mac 6 = Ret (368, discover mac).
Proof.
  intros Hl Hb.
  replace mac with (map u8 mac) at 2.
  2:{ clear Hl. induction Hb as [|x l Hx _ IH]; simpl; [reflexivity|].
      rewrite IH. f_equal. wrap_lia. }
  clear Hb. do 6 (destruct mac as [|? mac]; [discriminate Hl|]). destruct mac; [|discriminate Hl].
  vm_compute. reflexivity.
Qed.

Lemma discover_bytes mac : Forall is_u8 mac -> Forall is_u8 (discover mac).
Proof.
  intros H. unfold discover. repeat apply Forall_app_2; try assumption;
    try apply repeat0_bytes; repeat constructor; rlia.
Qed.

(** ** Options *)

(** An address in memory order, as [struct in_addr] holds it. *)
Definition addr4 (l : list Z) : Z :=
  match l with
  | [a; b; c; d] => a + 256 * b + 65536 * c + 16777216 * d
  | _ => 0
  end.

Lemma bswap_bytes a b c d : is_u8 a -> is_u8 b -> is_u8 c -> is_u8 d ->
  htonl (Z.lor (Z.lor (Z.lor (Z.shiftl a 24) (Z.shiftl b 16)) (Z.shiftl c 8)) d) = addr4 [a; b; c; d].
Proof.
  intros Ha Hb Hc Hd.
  rewrite <- !Z.lor_assoc.
  rewrite (lor_shiftl_add c d 8) by rlia.
  rewrite (lor_shiftl_add b _ 16) by (change (2 ^ 8) with 256; rlia).
  rewrite (lor_shiftl_add a _ 24) by (change (2 ^ 8) with 256; change (2 ^ 16) with 65536; rlia).
  change (2 ^ 8) with 256. change (2 ^ 16) with 65536. change (2 ^ 24) with 16777216.
  unfold htonl, bswap32, u8, addr4.
  replace ((a * 16777216 + (b * 65536 + (c * 256 + d))) / 256) with (a * 65536 + (b * 256 + c))
    by (Z.div_mod_to_equations; rlia).
  replace ((a * 16777216 + (b * 65536 + (c * 256 + d))) / 65536) with (a * 256 + b)
    by (Z.div_mod_to_equations; rlia).
  replace ((a * 16777216 + (b * 65536 + (c * 256 + d))) / 16777216) with a
    by (Z.div_mod_to_equations; rlia).
  replace ((a * 16777216 + (b * 65536 + (c * 256 + d))) mod 256) with d
    by (Z.div_mod_to_equations; rlia).
  replace ((a * 65536 + (b * 256 + c)) mod 256) with c by (Z.div_mod_to_equations; rlia).
  replace ((a * 256 + b) mod 256) with b by (Z.div_mod_to_equations; rlia).
  replace (a mod 256) with a by wrap_lia. lia.
Qed.

Lemma char_to_ip_spec b i l :
  (forall j, (j < 4)%nat -> b !! (i + j)%nat = l !! j) -> length l = 4%nat -> Forall is_u8 l ->
  char_to_ip b i = Ret (addr4 l).
Proof.
  intros H Hl Hb. do 4 (destruct l as [|? l]; [discriminate Hl|]). destruct l; [|discriminate Hl].
  repeat match goal with X : Forall _ (_ :: _) |- _ => apply Forall_cons in X as [? X] end.
  unfold char_to_ip, get8. rewrite <- (Nat.add_0_r i) at 1.
  rewrite !H by lia. cbn. rewrite bswap_bytes by assumption. reflexivity.
Qed.

(** An option as the protocol writes it: code, length, value. *)
Definition enc_option (o : Z * list Z) : list Z := fst o :: lenZ (snd o) :: snd o.

Definition option_ok (o : Z * list Z) : Prop :=
  is_u8 (fst o) /\ fst o <> 0 /\ fst o <> DHCP_END /\ lenZ (snd o) < 256 /\ Forall is_u8 (snd o).

(** The addresses of a value of [4 * n] bytes. *)
Fixpoint addrs (n : nat) (l : list Z) : list Z :=
  match n with O => [] | S n' => addr4 (take 4 l) :: addrs n' (drop 4 l) end.

Lemma flat_map_enc_length os : (length os <= length (flat_map enc_option os))%nat.
Proof. induction os as [|o os IH]; simpl; [lia|]. rewrite length_app. lia. Qed.

Section Options.
Variable inet_ntoa : Z -> text.
(** The text of an address has at most 15 characters. *)
Hypothesis ntoa_len : forall a, (length (inet_ntoa a) <= 15)%nat.

(** What one option means to the client. *)
Definition apply_option (s : opts) (o : Z * list Z) : opts :=
  let '(id, v) := o in
  if (id =? OPTION_ROUTER) && (length v =? 4)%nat then mkOpts (maskip s) (inet_ntoa (addr4 v)) (dns s)
  else if (id =? OPTION_SUBNET_MASK) && (length v =? 4)%nat
       then mkOpts (inet_ntoa (addr4 v)) (gateip s) (dns s)
  else if (id =? OPTION_DNS) && (length v mod 4 =? 0)%nat
       then mkOpts (maskip s) (gateip s) (dns s ++ map inet_ntoa (addrs (length v / 4) v))
  else s.

Lemma sprintf32_ntoa a : sprintf32 (inet_ntoa a) = Ret (inet_ntoa a).
Proof.
  unfold sprintf32. pose proof (ntoa_len a). rewrite (proj2 (Nat.ltb_lt _ _)) by lia. reflexivity.
Qed.

(** [b] holds [l] at offset [i]. *)
Definition holds (b : list Z) (i : nat) (l : list Z) : Prop :=
  forall j, (j < length l)%nat -> b !! (i + j)%nat = l !! j.

Lemma holds_mid h l t : holds (h ++ l ++ t) (length h) l.
Proof.
  intros j Hj. rewrite lookup_app_r by lia.
  replace (length h + j - length h)%nat with j by lia. apply lookup_app_l, Hj.
Qed.

Lemma holds_app b i l1 l2 : holds b i (l1 ++ l2) -> holds b i l1 /\ holds b (i + length l1) l2.
Proof.
  intros H. split; intros j Hj.
  - rewrite H by (rewrite length_app; lia). apply lookup_app_l, Hj.
  - rewrite <- Nat.add_assoc, H by (rewrite length_app; lia). rewrite lookup_app_r by lia.
    f_equal. lia.
Qed.

Lemma holds_get b i x l : holds b i (x :: l) -> get8 b i = Ret x /\ holds b (S i) l.
Proof.
  intros H. split.
  - unfold get8. rewrite <- (Nat.add_0_r i), H by (simpl; lia). reflexivity.
  - intros j Hj. replace (S i + j)%nat with (i + S j)%nat by lia. rewrite H by (simpl; lia). reflexivity.
Qed.

Lemma dns_loop_spec b v n : forall l i acc,
  length l = (4 * n)%nat -> Forall is_u8 l -> holds b (v + 4 * i) l ->
  dns_loop inet_ntoa b v n i acc = Ret (acc ++ map inet_ntoa (addrs n l)).
Proof.
  induction n as [|n IH]; intros l i acc Hl Hb Hh; cbn [dns_loop addrs map].
  - rewrite app_nil_r. reflexivity.
  - rewrite <- (take_drop 4 l) in Hh. apply holds_app in Hh as [H1 H2].
    rewrite length_take_le in H2 by lia.
    rewrite (char_to_ip_spec _ _ (take 4 l)).
    + cbn [obind]. rewrite (IH (drop 4 l)).
      * rewrite <- app_assoc. reflexivity.
      * rewrite length_drop. lia.
      * apply Forall_drop, Hb.
      * replace (v + 4 * S i)%nat with (v + 4 * i + 4)%nat by lia. exact H2.
    + intros j Hj. apply H1. rewrite length_take_le; lia.
    + apply length_take_le. lia.
    + apply Forall_take, Hb.
Qed.

Lemma option_case_spec b o s opt :
  option_ok opt -> holds b o (enc_option opt) ->
  option_case inet_ntoa b o s = Ret (apply_option s opt).
Proof.
  destruct opt as [id v]. intros (Hid & H0 & Hend & Hl & Hv) Hh. cbn [fst snd] in *.
  apply holds_get in Hh as [E1 Hh]. apply holds_get in Hh as [E2 Hh].
  unfold option_case. rewrite E1. cbn [obind]. rewrite Nat.add_1_r, E2. cbn [obind fst snd].
  cbn [snd] in Hh. unfold apply_option. replace (o + 2)%nat with (S (S o)) by lia.
  assert (E4 : (lenZ v =? 4) = (length v =? 4)%nat).
  { destruct (Nat.eqb_spec (length v) 4); zcase; lia || reflexivity. }
  assert (Em : (lenZ v mod 4 =? 0) = (length v mod 4 =? 0)%nat).
  { change 4 with (Z.of_nat 4). rewrite <- Nat2Z.inj_mod.
    destruct (Nat.eqb_spec (length v mod 4) 0); zcase; lia || reflexivity. }
  rewrite E4, Em.
  destruct (id =? OPTION_ROUTER) eqn:Er; [|destruct (id =? OPTION_SUBNET_MASK) eqn:Es;
    [|destruct (id =? OPTION_DNS) eqn:Ed]]; cbn [andb].
  - assert ((id =? OPTION_SUBNET_MASK) = false /\ (id =? OPTION_DNS) = false) as [-> ->].
    { apply Z.eqb_eq in Er as ->. split; reflexivity. }
    destruct (length v =? 4)%nat eqn:En; [|reflexivity]. apply Nat.eqb_eq in En.
    rewrite (char_to_ip_spec _ _ v) by (assumption || (intros j Hj; apply Hh; lia)).
    cbn [obind]. rewrite sprintf32_ntoa. reflexivity.
  - assert ((id =? OPTION_DNS) = false) as ->.
    { apply Z.eqb_eq in Es as ->. reflexivity. }
    destruct (length v =? 4)%nat eqn:En; [|reflexivity]. apply Nat.eqb_eq in En.
    rewrite (char_to_ip_spec _ _ v) by (assumption || (intros j Hj; apply Hh; lia)).
    cbn [obind]. rewrite sprintf32_ntoa. reflexivity.
  - destruct (length v mod 4 =? 0)%nat eqn:En; [|reflexivity]. apply Nat.eqb_eq in En.
    assert (Ev : length v = (4 * (length v / 4))%nat).
    { rewrite (Nat.div_mod_eq (length v) 4) at 1. lia. }
    replace (Z.to_nat (lenZ v / 4)) with (length v / 4)%nat.
    2:{ change 4 with (Z.of_nat 4). rewrite <- Nat2Z.inj_div, Nat2Z.id. reflexivity. }
    rewrite (dns_loop_spec b (S (S o)) (length v / 4) v 0 [] Ev Hv).
    { reflexivity. }
    rewrite Nat.mul_0_r, Nat.add_0_r. exact Hh.
  - reflexivity.
Qed.

(** The loop reads back the options that were written, up to the end mark. *)
Lemma option_loop_spec b p os : forall fuel offs s e,
  Forall option_ok os -> (length os < fuel)%nat -> e = 0 \/ e = DHCP_END ->
  holds b (p + off_opt + offs) (flat_map enc_option os ++ [e]) ->
  option_loop inet_ntoa fuel b p offs s = Ret (foldl apply_option s os).
Proof.
  induction os as [|[id v] os IH]; intros [|fuel] offs s e Hos Hf He Hh; try (simpl in Hf; lia);
    cbn [option_loop]; unfold get_dhcp_option.
  - apply holds_get in Hh as [-> _]. cbn [obind].
    destruct He as [->| ->]; reflexivity.
  - apply Forall_cons in Hos as [Ho Hos].
    assert (Hh' := Hh). cbn [flat_map] in Hh. rewrite <- app_assoc in Hh.
    apply holds_app in Hh as [H1 H2]. assert (H3 := H1).
    apply holds_get in H3 as [E1 H3]. apply holds_get in H3 as [E2 _].
    rewrite E1. cbn [obind fst]. destruct Ho as (Hid & H0 & Hend & Hl & Hv) eqn:Eo. cbn [fst snd] in *.
    rewrite (proj2 (Z.eqb_neq id 0) H0), (proj2 (Z.eqb_neq id DHCP_END) Hend). cbn [orb].
    rewrite Nat.add_1_r, E2. cbn [obind].
    rewrite (option_case_spec _ _ _ (id, v) Ho H1). cbn [obind foldl].
    apply (IH _ _ _ e); [assumption | simpl in Hf; lia | assumption |].
    rewrite Nat2Z.id.
    replace (p + off_opt + (offs + (2 + length v)))%nat
      with (p + off_opt + offs + length (enc_option (id, v)))%nat; [exact H2|].
    cbn [enc_option length fst snd]. lia.
Qed.
End Options.

(** ** Reads of a reply stay in the buffer *)
Lemma get16_total b i : (i + 1 < length b)%nat -> exists v, get16 b i = Ret v.
Proof.
  intros H. unfold get16.
  destruct (get8_total b i ltac:(lia)) as (x & -> & _).
  destruct (get8_total b (S i) ltac:(lia)) as (y & -> & _). eexists. reflexivity.
Qed.

Lemma get32_total b i : (i + 3 < length b)%nat -> exists v, get32 b i = Ret v.
Proof.
  intros H. unfold get32.
  destruct (get16_total b i ltac:(lia)) as (x & ->).
  destruct (get16_total b (S (S i)) ltac:(lia)) as (y & ->). eexists. reflexivity.
Qed.

Lemma char_to_ip_total b i : (i + 3 < length b)%nat -> exists a, char_to_ip b i = Ret a.
Proof.
  intros H. unfold char_to_ip.
  destruct (get8_total b i ltac:(lia)) as (x0 & -> & _).
  destruct (get8_total b (i + 1) ltac:(lia)) as (x1 & -> & _).
  destruct (get8_total b (i + 2) ltac:(lia)) as (x2 & -> & _).
  destruct (get8_total b (i + 3) ltac:(lia)) as (x3 & -> & _). eexists. reflexivity.
Qed.

Section Bounds.
Variable inet_ntoa : Z -> text.
Hypothesis ntoa_len : forall a, (length (inet_ntoa a) <= 15)%nat.

Lemma dns_loop_total b v n : forall i acc,
  (v + 4 * (i + n) <= length b)%nat -> exists l, dns_loop inet_ntoa b v n i acc = Ret l.
Proof.
  induction n as [|n IH]; intros i acc H; cbn [dns_loop]; [eexists; reflexivity|].
  destruct (char_to_ip_total b (v + 4 * i) ltac:(lia)) as [a ->]. apply IH. lia.
Qed.

Lemma option_case_total b o s len :
  (o + 1 < length b)%nat -> b !! (o + 1)%nat = Some len -> is_u8 len ->
  (o + 2 + Z.to_nat len <= length b)%nat ->
  exists s', option_case inet_ntoa b o s = Ret s'.
Proof.
  intros H E Hlen Hv. unfold option_case.
  destruct (get8_total b o ltac:(lia)) as (id & -> & _). cbn [obind].
  unfold get8. rewrite E. cbn [obind].
  destruct (id =? OPTION_ROUTER); [|destruct (id =? OPTION_SUBNET_MASK);
    [|destruct (id =? OPTION_DNS); [|eexists; reflexivity]]].
  1,2: destruct (Z.eqb_spec len 4) as [->|]; [|eexists; reflexivity];
    destruct (char_to_ip_total b (o + 2) ltac:(lia)) as [a ->]; cbn [obind];
    rewrite (sprintf32_ntoa inet_ntoa ntoa_len); eexists; reflexivity.
  destruct (len mod 4 =? 0); [|eexists; reflexivity].
  destruct (dns_loop_total b (o + 2) (Z.to_nat (len / 4)) 0 []) as [l ->]; [|eexists; reflexivity].
  rewrite Nat.add_0_l. assert (Z.to_nat (len / 4) * 4 <= Z.to_nat len)%nat.
  { rewrite Z2Nat.inj_div by rlia. change (Z.to_nat 4) with 4%nat.
    pose proof (Nat.div_mod_eq (Z.to_nat len) 4). lia. }
  lia.
Qed.

(** A buffer of which only the first [n] bytes were received. *)
Definition zero_from (b : list Z) (n : nat) : Prop :=
  forall i, (n <= i < length b)%nat -> b !! i = Some 0.

Lemma option_loop_total b n : forall fuel offs s,
  length b = BUFF_SIZE -> Forall is_u8 b -> zero_from b n -> (n <= 768)%nat ->
  (268 + offs < BUFF_SIZE)%nat -> (BUFF_SIZE < fuel + offs + 268)%nat ->
  exists s', option_loop inet_ntoa fuel b 28 offs s = Ret s'.
Proof.
  unfold BUFF_SIZE. intros fuel. induction fuel as [|fuel IH]; intros offs s Hb H8 Hz Hn Ho Hf; [lia|].
  cbn [option_loop]. unfold get_dhcp_option. replace (28 + off_opt + offs)%nat with (268 + offs)%nat
    by (unfold off_opt; lia).
  destruct (get8_total b (268 + offs) ltac:(lia)) as (id & -> & E). cbn [obind].
  destruct ((id =? 0) || (id =? DHCP_END)) eqn:Ei; [eexists; reflexivity|].
  assert (Hlt : (268 + offs < n)%nat).
  { destruct (Nat.lt_ge_cases (268 + offs) n) as [|Hge]; [assumption|].
    rewrite (Hz (268 + offs)%nat ltac:(lia)) in E. injection E as <-. discriminate. }
  destruct (get8_total b (268 + offs + 1) ltac:(lia)) as (len & -> & El). cbn [obind].
  assert (H8l : is_u8 len) by (eapply Forall_lookup_1; eassumption).
  assert (Hnext : (268 + offs + 2 + Z.to_nat len < 1024)%nat).
  { destruct (Nat.lt_ge_cases (268 + offs + 1) n) as [|Hge]; [rlia|].
    rewrite (Hz (268 + offs + 1)%nat ltac:(lia)) in El. injection El as <-. simpl. lia. }
  replace (28 + off_opt + offs)%nat with (268 + offs)%nat by (unfold off_opt; lia).
  destruct (option_case_total b (268 + offs) s len ltac:(lia) El H8l ltac:(lia)) as [s' ->].
  cbn [obind]. apply IH; auto; lia.
Qed.

Lemma received_buffer_length d : length (received_buffer d) = BUFF_SIZE.
Proof.
  unfold received_buffer. cbv zeta. rewrite length_app, repeat_length, length_take. unfold BUFF_SIZE. lia.
Qed.

Lemma received_buffer_zero d : (length d <= BUFF_SIZE)%nat -> zero_from (received_buffer d) (length d).
Proof.
  intros H i Hi. rewrite received_buffer_length in Hi. unfold received_buffer.
  cbv zeta. rewrite (take_ge d) by exact H. rewrite lookup_app_r by lia.
  rewrite repeat_replicate. apply (lookup_replicate_2 (BUFF_SIZE - length d) 0). lia.
Qed.

Lemma received_buffer_bytes d : Forall is_u8 d -> Forall is_u8 (received_buffer d).
Proof.
  intros H. unfold received_buffer. apply Forall_app_2; [apply Forall_take, H|].
  apply repeat0_bytes.
Qed.

Lemma dropped_total d : exists r, dropped (received_buffer d) = Ret r.
Proof.
  pose proof (received_buffer_length d) as Hl. unfold BUFF_SIZE in Hl.
  set (b := received_buffer d) in *. clearbody b. unfold dropped, is_dhcp, off_magic, off_op.
  destruct (get8_total b 9 ltac:(lia)) as (x & -> & _). cbn [obind].
  destruct (negb _); [eexists; reflexivity|].
  destruct (get16_total b 22 ltac:(lia)) as (y & ->). cbn [obind].
  destruct (negb _); [eexists; reflexivity|].
  destruct (get32_total b (28 + 236) ltac:(lia)) as (z & ->). cbn [obind].
  destruct (negb _); [eexists; reflexivity|].
  destruct (get8_total b (28 + 0) ltac:(lia)) as (w & -> & _). eexists. reflexivity.
Qed.

Lemma read_reply_total d :
  Forall is_u8 d -> (length d <= 768)%nat -> exists r, read_reply inet_ntoa (received_buffer d) = Ret r.
Proof.
  intros H8 Hd. unfold read_reply. pose proof (received_buffer_length d) as Hl.
  unfold BUFF_SIZE in Hl.
  destruct (get32_total (received_buffer d) (28 + off_yi_addr)) as (y & ->).
  { unfold off_yi_addr. lia. }
  cbn [obind]. rewrite (sprintf32_ntoa inet_ntoa ntoa_len). cbn [obind].
  destruct (option_loop_total (received_buffer d) (length d) (S (length (received_buffer d))) 0
              (mkOpts text0 text0 [])) as [s ->]; try (unfold BUFF_SIZE; lia).
  - apply received_buffer_bytes, H8.
  - apply received_buffer_zero. unfold BUFF_SIZE. lia.
  - eexists. reflexivity.
Qed.
End Bounds.

(** ** The client *)
Lemma get32_addr4 b i l : holds b i l -> length l = 4%nat -> get32 b i = Ret (addr4 l).
Proof.
  intros H Hl. do 4 (destruct l as [|? l]; [discriminate Hl|]). destruct l; [|discriminate Hl].
  apply holds_get in H as [E0 H]. apply holds_get in H as [E1 H].
  apply holds_get in H as [E2 H]. apply holds_get in H as [E3 H].
  unfold get32, get16. rewrite E0, E1, E2, E3. cbn [obind addr4]. f_equal. lia.
Qed.

Lemma dropped_app h t : (268 <= length h)%nat -> dropped (h ++ t) = dropped h.
Proof.
  intros H. unfold dropped, is_dhcp, get32, get16, off_magic, off_op.
  rewrite !get8_app_l by lia. reflexivity.
Qed.

Section Run.
Variable inet_addr : text -> Z.
Variable inet_ntoa : Z -> text.
Variable inet_aton : text -> option Z.
(** POSIX: [inet_addr] returns a 32-bit value; [inet_ntoa] writes at most 15
    characters, which [inet_aton] reads back. *)
Hypothesis inet_addr_u32 : forall s, is_u32 (inet_addr s).
Hypothesis ntoa_len : forall a, (length (inet_ntoa a) <= 15)%nat.
Hypothesis ntoa_zero : inet_ntoa 0 = text0.
Hypothesis aton_ntoa : forall a, is_u32 a -> inet_aton (inet_ntoa a) = Some a.

Variable get_ifr : ifreq_get -> list Z -> list Z.
Variable u : list Z.
(** The kernel writes the 16-byte union of the request in place. *)
Hypothesis get_ifr_bytes : forall r v,
  length (get_ifr r v) = 16%nat /\ Forall is_u8 (get_ifr r v).

(** The address [find_iface] copies. *)
Definition mac_of : list Z := take 6 (drop 2 (get_ifr SIOCGIFHWADDR (get_ifr SIOCGIFINDEX u))).

Lemma find_iface_spec : exists idx, find_iface get_ifr u = Ret (mkIface idx 6 mac_of).
Proof.
  unfold find_iface, mac_of.
  destruct (get_ifr_bytes SIOCGIFINDEX u) as [Hi _].
  destruct (get32_total (get_ifr SIOCGIFINDEX u) 0 ltac:(lia)) as [v ->]. cbn [obind].
  destruct (get_ifr_bytes SIOCGIFHWADDR (get_ifr SIOCGIFINDEX u)) as [Hl _].
  set (w := get_ifr SIOCGIFHWADDR _) in *. clearbody w.
  do 16 (destruct w as [|? w]; [discriminate Hl|]). destruct w; [|discriminate Hl].
  eexists. reflexivity.
Qed.

Lemma mac_of_ok : length mac_of = 6%nat /\ Forall is_u8 mac_of.
Proof.
  unfold mac_of. destruct (get_ifr_bytes SIOCGIFHWADDR (get_ifr SIOCGIFINDEX u)) as [Hl Hb].
  split; [rewrite length_take, length_drop; lia | apply Forall_take, Forall_drop, Hb].
Qed.

(** The datagram that carries the discover message. *)
Definition discover_datagram : list Z :=
  let s := le32 (inet_addr text0) in
  let d := le32 (inet_addr text255) in
  ip_header 396 17 (le16 (csum_fold (ip_sum 396 17 s d))) s d ++ udp_header 68 67 376
  ++ discover mac_of.

Lemma discover_datagram_length : length discover_datagram = 396%nat.
Proof.
  destruct mac_of_ok as [Hl _]. unfold discover_datagram, discover.
  rewrite !length_app, Hl, !repeat_length. reflexivity.
Qed.

(** [dhcpmain] enters the loop with the discover datagram in the buffer. *)
Lemma dhcpmain_enters fd ioctl rc ifname net :
  dhcpmain inet_addr inet_ntoa inet_aton get_ifr u fd ioctl rc ifname net
  = receive inet_ntoa inet_aton fd ioctl rc ifname net (discover_datagram ++ repeat 0 628) 396 [].
Proof.
  unfold dhcpmain. destruct find_iface_spec as [idx ->]. cbn [obind hw_addr addr_len].
  destruct mac_of_ok as [Hl Hb].
  rewrite (build_dhcp_discover_spec _ Hl Hb). cbn [obind].
  assert (Hd : length (discover mac_of) = 368%nat).
  { unfold discover. rewrite !length_app, Hl, !repeat_length. reflexivity. }
  change 368 with (Z.of_nat 368). rewrite <- Hd.
  unfold BUFF_SIZE, IPPROTO_UDP.
  pose proof (discover_bytes _ Hb) as H8.
  destruct (ip4_udp_packet_built inet_addr inet_addr_u32 1024 (discover mac_of) text0 text255 68 67 17)
    as [-> _]; try rlia.
  { exact H8. }
  rewrite Hd. cbn [obind]. unfold discover_datagram. rewrite <- !app_assoc. reflexivity.
Qed.

(** Datagrams the client drops: what it sends next is the datagram itself. *)
Definition echoed (d : list Z) : list Z := take 396 (received_buffer d).

Definition is_dropped (d : list Z) : Prop := d <> [] /\ dropped (received_buffer d) = Ret true.

(** A turn in which [sendto] sends the whole datagram and a datagram [d] arrives. *)
Definition sent_and_got (d : list Z) : Z * option (list Z) := (396, Some d).

Lemma receive_dropped fd ioctl rc ifname net : forall ds buffer sent,
  Forall is_dropped ds -> ds <> [] ->
  receive inet_ntoa inet_aton fd ioctl rc ifname (map sent_and_got ds ++ net) buffer 396 sent
  = receive inet_ntoa inet_aton fd ioctl rc ifname net (received_buffer (List.last ds [])) 396
      (sent ++ take 396 buffer :: map echoed (removelast ds)).
Proof.
  induction ds as [|d ds IH]; intros buffer sent Hd Hne; [congruence|].
  apply Forall_cons in Hd as [[Hd0 Hd1] Hd]. cbn [map app receive sent_and_got].
  destruct d as [|x d]; [congruence|]. change (396 <? 0) with false. cbv iota.
  rewrite Hd1. cbn [obind]. destruct ds as [|d' ds]; [reflexivity|].
  rewrite IH by (assumption || discriminate).
  rewrite <- app_assoc. reflexivity.
Qed.

Lemma dhcpSetIfAddr_ok fd ioctl rc ifname a m g :
  0 <= fd -> (forall c, 0 <= ioctl c) -> (length ifname < 16)%nat ->
  is_u32 a -> is_u32 m -> is_u32 g ->
  dhcpSetIfAddr inet_aton fd ioctl rc ifname (inet_ntoa a) (inet_ntoa m) (inet_ntoa g)
  = Ret (rc, [SetAddr ifname a; SetMask ifname m; AddRoute g; Close]).
Proof.
  intros Hfd Hio Hl Ha Hm Hg. unfold dhcpSetIfAddr, aton.
  rewrite !aton_ntoa by assumption.
  rewrite (proj2 (Z.ltb_ge fd 0)) by lia. rewrite (proj2 (Nat.leb_gt 16 _)) by lia.
  change (1 <? 0) with false. cbv iota beta.
  rewrite !(proj2 (Z.ltb_ge (ioctl _) 0)) by auto. reflexivity.
Qed.

Lemma dhcpSetIfAddr_total fd ioctl rc ifname a m g :
  (length ifname < 16)%nat -> exists r, dhcpSetIfAddr inet_aton fd ioctl rc ifname a m g = Ret r.
Proof.
  intros Hl. unfold dhcpSetIfAddr. rewrite (proj2 (Nat.leb_gt 16 _)) by lia.
  destruct (fd <? 0); [eexists; reflexivity|].
  destruct (aton _ a 0) as [r1 a1]. destruct (r1 <? 0); [eexists; reflexivity|].
  cbv zeta. destruct (_ <? 0); [eexists; reflexivity|].
  destruct (aton _ m a1) as [r2 m2]. destruct (r2 <? 0); [eexists; reflexivity|].
  destruct (_ <? 0); [eexists; reflexivity|].
  destruct (aton _ g 0) as [r3 g3]. destruct (_ <? 0); eexists; reflexivity.
Qed.

(** C10: whatever datagrams of at most 768 bytes arrive, in whatever order and
    with whatever contents, the client never reads outside its 1024-byte buffer
    or writes outside its text arrays and every pass over the options of a
    reply ends: [dhcpmain] returns, or still waits, after any number of
    datagrams. *)
Theorem dhcp_client_memory_safe fd ioctl rc ifname net :
  (length ifname < 16)%nat ->
  Forall (fun e => forall d, snd e = Some d -> Forall is_u8 d /\ (length d <= 768)%nat) net ->
  exists r, dhcpmain inet_addr inet_ntoa inet_aton get_ifr u fd ioctl rc ifname net = Ret r.
Proof.
  intros Hl Hnet. rewrite dhcpmain_enters.
  generalize (discover_datagram ++ repeat 0 628) ([] : list (list Z)).
  induction Hnet as [|[r d] net Hd Hnet IH]; intros buffer sent; cbn [receive].
  { eexists. reflexivity. }
  destruct (r <? 0); [eexists; reflexivity|].
  destruct d as [[|x d]|]; try (eexists; reflexivity).
  destruct (Hd _ eq_refl) as [H8 Hle].
  destruct (dropped_total (x :: d)) as [[|] ->]; cbn [obind]; [apply IH|].
  destruct (read_reply_total inet_ntoa ntoa_len _ H8 Hle) as [[c s] ->]. cbn [obind].
  destruct (dhcpSetIfAddr_total fd ioctl rc ifname c (maskip s) (gateip s) Hl) as [[rr calls] ->].
  eexists. reflexivity.
Qed.

(** An accepted reply: 268 bytes up to the options, the options, an end mark. *)
Definition reply (h : list Z) (os : list (Z * list Z)) (e : Z) (rest : list Z) : list Z :=
  h ++ flat_map enc_option os ++ [e] ++ rest.

Lemma read_reply_spec h os e rest :
  length h = 268%nat -> Forall option_ok os -> e = 0 \/ e = DHCP_END ->
  (length (reply h os e rest) <= 1024)%nat -> 
  read_reply inet_ntoa (received_buffer (reply h os e rest))
  = Ret (inet_ntoa (addr4 (take 4 (drop 44 h))), foldl (apply_option inet_ntoa) (mkOpts text0 text0 []) os).
Proof.
  intros Hh Hos He Hlen. unfold read_reply, received_buffer, BUFF_SIZE. cbv zeta.
  rewrite (take_ge (reply h os e rest)) by lia.
  set (z := repeat 0 _).
  assert (H44 : holds (reply h os e rest ++ z) 44 (take 4 (drop 44 h))).
  { rewrite <- (take_drop 44 h) at 1. rewrite <- (take_drop 4 (drop 44 h)) at 1.
    unfold reply. rewrite <- !app_assoc.
    replace 44%nat with (length (take 44 h)) at 4 by (rewrite length_take_le; lia).
    apply holds_mid. }
  change (28 + off_yi_addr)%nat with 44%nat.
  rewrite (get32_addr4 _ _ _ H44) by (rewrite length_take, length_drop; lia).
  cbn [obind]. rewrite (sprintf32_ntoa inet_ntoa ntoa_len). cbn [obind].
  rewrite (option_loop_spec inet_ntoa ntoa_len _ 28 os _ 0 _ e); [reflexivity | assumption | | assumption |].
  - unfold reply. rewrite !length_app. pose proof (flat_map_enc_length os). lia.
  - change (28 + off_opt + 0)%nat with 268%nat. rewrite <- Hh. unfold reply.
    rewrite (app_assoc (flat_map _ _)), <- app_assoc, <- (app_assoc _ rest). apply holds_mid.
Qed.

Lemma addr4_u32 l : Forall is_u8 l -> is_u32 (addr4 l).
Proof.
  intros H. unfold addr4.
  destruct l as [|a [|b [|c [|d [|? ?]]]]]; try rlia.
  repeat match goal with X : Forall _ (_ :: _) |- _ => apply Forall_cons in X as [? X] end. rlia.
Qed.

(** The last router and the last mask of four bytes among the options. *)
Definition last4 (id : Z) (os : list (Z * list Z)) (d : list Z) : list Z :=
  foldl (fun a o => if (fst o =? id) && (length (snd o) =? 4)%nat then snd o else a) d os.

Lemma last4_bytes id os : forall d, Forall option_ok os -> Forall is_u8 d -> Forall is_u8 (last4 id os d).
Proof.
  induction os as [|o os IH]; intros d Hos Hd; [exact Hd|].
  apply Forall_cons in Hos as [Ho Hos]. simpl. apply IH; [exact Hos|].
  destruct (_ && _); [apply Ho | exact Hd].
Qed.

Lemma options_last os : forall s m g,
  maskip s = inet_ntoa (addr4 m) -> gateip s = inet_ntoa (addr4 g) ->
  maskip (foldl (apply_option inet_ntoa) s os) = inet_ntoa (addr4 (last4 OPTION_SUBNET_MASK os m)) /\
  gateip (foldl (apply_option inet_ntoa) s os) = inet_ntoa (addr4 (last4 OPTION_ROUTER os g)).
Proof.
  induction os as [|[id v] os IH]; intros s m g Hm Hg; [split; assumption|].
  cbn [foldl last4]. apply IH; unfold apply_option; cbn [fst snd].
  - destruct (Z.eqb_spec id OPTION_ROUTER) as [->|]; cbn [andb].
    + destruct (length v =? 4)%nat; cbn; exact Hm.
    + destruct (_ && (length v =? 4)%nat); [reflexivity|].
      destruct (_ && _); exact Hm.
  - destruct (_ && (length v =? 4)%nat); [reflexivity|].
    destruct (_ && (length v =? 4)%nat); [exact Hg|].
    destruct (_ && _); exact Hg.
Qed.

(** The end state of a run that accepts a reply. *)
Definition configured (ifname : text) (h : list Z) (os : list (Z * list Z)) (dns : list text) : ended :=
  let zero := [0; 0; 0; 0] in
  let yi := addr4 (take 4 (drop 44 h)) in
  let m := addr4 (last4 OPTION_SUBNET_MASK os zero) in
  let g := addr4 (last4 OPTION_ROUTER os zero) in
  Configured (inet_ntoa yi) (mkOpts (inet_ntoa m) (inet_ntoa g) dns)
    [SetAddr ifname yi; SetMask ifname m; AddRoute g; Close].

Lemma receive_reply fd ioctl rc ifname h os e rest net :
  0 <= fd -> (forall c, 0 <= ioctl c) -> (length ifname < 16)%nat ->
  length h = 268%nat -> Forall is_u8 h -> dropped h = Ret false ->
  Forall option_ok os -> e = 0 \/ e = DHCP_END -> (length (reply h os e rest) <= 1024)%nat ->
  exists dns, forall buffer sent,
  receive inet_ntoa inet_aton fd ioctl rc ifname (sent_and_got (reply h os e rest) :: net) buffer 396 sent
  = Ret (sent ++ [take 396 buffer], configured ifname h os dns).
Proof.
  intros Hfd Hio Hn Hh H8 Hdr Hos He Hlen.
  assert (Hz : Forall is_u8 [0; 0; 0; 0]) by (repeat constructor; rlia).
  set (s := foldl (apply_option inet_ntoa) (mkOpts text0 text0 []) os).
  destruct (options_last os (mkOpts text0 text0 []) [0; 0; 0; 0] [0; 0; 0; 0]
              (eq_sym ntoa_zero) (eq_sym ntoa_zero))
    as [Em Eg]. fold s in Em, Eg.
  exists (dns s). intros buffer sent. cbn [receive sent_and_got]. change (396 <? 0) with false. cbv iota zeta.
  assert (Hd : dropped (received_buffer (reply h os e rest)) = Ret false).
  { unfold received_buffer, BUFF_SIZE. cbv zeta. rewrite (take_ge (reply h os e rest)) by lia.
    unfold reply. rewrite <- app_assoc, dropped_app by lia. exact Hdr. }
  assert (Hne : exists x y, reply h os e rest = x :: y).
  { unfold reply. destruct h as [|x h]; [discriminate Hh|]. eexists _, _. reflexivity. }
  destruct Hne as (x & y & E). rewrite E. rewrite <- E. rewrite Hd. cbn [obind].
  rewrite (read_reply_spec h os e rest Hh Hos He Hlen). cbn [obind]. fold s.
  unfold configured. rewrite Em, Eg, dhcpSetIfAddr_ok; auto.
  - cbn [obind]. destruct s as [sm sg sd]. cbn in Em, Eg. rewrite Em, Eg. reflexivity.
  - apply addr4_u32, Forall_take, Forall_drop, H8.
  - apply addr4_u32, last4_bytes; assumption.
  - apply addr4_u32, last4_bytes; assumption.
Qed.

End Run.

(** ** Concrete addresses *)
Definition dec (n : Z) : text :=
  if n <? 10 then [48 + n]
  else if n <? 100 then [48 + n / 10; 48 + n mod 10]
  else [48 + n / 100; 48 + n / 10 mod 10; 48 + n mod 10].

Definition dotted_of (a : Z) : text :=
  dec (u8 a) ++ 46 :: dec (u8 (a / 256)) ++ 46 :: dec (u8 (a / 65536)) ++ 46 :: dec (u8 (a / 16777216)).

(** Numbers between dots. *)
Fixpoint parse_dots (s : text) (n : Z) : list Z :=
  match s with
  | [] => [n]
  | c :: s' => if c =? 46 then n :: parse_dots s' 0 else parse_dots s' (10 * n + (c - 48))
  end.

Definition addr_of (s : text) : option Z :=
  match parse_dots s 0 with
  | [a; b; c; d] => Some (addr4 [a; b; c; d])
  | _ => None
  end.

Lemma parse_dec n s : is_u8 n ->
  parse_dots (dec n ++ 46 :: s) 0 = n :: parse_dots s 0 /\ parse_dots (dec n) 0 = [n] /\
  (length (dec n) <= 3)%nat.
Proof.
  intros H. unfold dec. repeat zcase; cbn [app parse_dots length];
    repeat (zcase; [exfalso; Z.div_mod_to_equations; rlia|]);
    repeat split; try lia; repeat f_equal; Z.div_mod_to_equations; rlia.
Qed.

Lemma addr_of_dotted a : is_u32 a -> addr_of (dotted_of a) = Some a.
Proof.
  intros H. unfold addr_of, dotted_of.
  destruct (parse_dec (u8 a) (dec (u8 (a / 256)) ++ 46 :: dec (u8 (a / 65536)) ++ 46 ::
    dec (u8 (a / 16777216))) (u8_range _)) as (-> & _).
  destruct (parse_dec (u8 (a / 256)) (dec (u8 (a / 65536)) ++ 46 :: dec (u8 (a / 16777216)))
    (u8_range _)) as (-> & _).
  destruct (parse_dec (u8 (a / 65536)) (dec (u8 (a / 16777216))) (u8_range _)) as (-> & _).
  destruct (parse_dec (u8 (a / 16777216)) [] (u8_range _)) as (_ & -> & _).
  f_equal. unfold addr4. wrap_lia.
Qed.

Lemma dotted_of_len a : (length (dotted_of a) <= 15)%nat.
Proof.
  unfold dotted_of. repeat (rewrite length_app; cbn [length]).
  pose proof (fun x => proj2 (proj2 (parse_dec (u8 x) [] (u8_range x)))) as H.
  pose proof (H a). pose proof (H (a / 256)). pose proof (H (a / 65536)).
  pose proof (H (a / 16777216)). lia.
Qed.

(** ** Concrete runs *)
Definition eth0 : text := [101; 116; 104; 48].
Definition ifr_const (_ : ifreq_get) (_ : list Z) : list Z :=
  [1; 0; 2; 17; 34; 51; 68; 85; 0; 0; 0; 0; 0; 0; 0; 0].
Definition addr_text (s : text) : Z := dotted s 0 0.

Lemma ifr_const_bytes r v : length (ifr_const r v) = 16%nat /\ Forall is_u8 (ifr_const r v).
Proof. split; [reflexivity | repeat constructor; rlia]. Qed.

(** The first 268 bytes of a reply that assigns 192.168.1.50. *)
Definition offer_head : list Z :=
  repeat 0 9 ++ [17] ++ repeat 0 12 ++ [0; 68] ++ repeat 0 4 ++ [2] ++ repeat 0 15
  ++ [192; 168; 1; 50] ++ repeat 0 216 ++ [99; 130; 83; 99].

Definition offer_options : list (Z * list Z) :=
  [(53, [2]); (1, [255; 255; 255; 0]); (3, [192; 168; 1; 1]); (6, [8; 8; 8; 8; 1; 1; 1; 1])].

Lemma dhcp_client_memory_safe_witness :
  exists r, dhcpmain addr_text dotted_of addr_of ifr_const [] 3 (fun _ => 0) 7 eth0
    [(0, Some [1; 2; 3]); (0, Some (reply offer_head offer_options 255 []))] = Ret r.
Proof.
  apply (dhcp_client_memory_safe addr_text dotted_of addr_of (fun s => dotted_u32 s 0 0)
    dotted_of_len ifr_const [] ifr_const_bytes 3 (fun _ => 0) 7 eth0).
  - simpl. lia.
  - apply Forall_cons. split; [|apply Forall_cons; split; [|apply Forall_nil; exact I]];
      intros d [= <-]; (split; [apply bytes_check; reflexivity | vm_compute; lia]).
Defined.


(** Options that fill a reply of 769 bytes; the value of the last would end at
    the last byte of the buffer. *)
Definition long_options : list Z :=
  ([12; 255] ++ repeat 65 255) ++ ([12; 240] ++ repeat 65 240) ++ [12; 255].

(** 768 bytes is the most a reply may have: on a reply of 769 bytes whose
    last option claims 255 bytes of value, [get_dhcp_option] reads the byte
    behind the 1024-byte buffer. *)
Theorem dhcp_options_overread :
  length (offer_head ++ long_options) = 769%nat /\
  dhcpmain addr_text dotted_of addr_of ifr_const [] 3 (fun _ => 0) 7 eth0
    [(0, Some (offer_head ++ long_options))] = Crash OutOfBounds.
Proof. split; vm_compute; reflexivity. Qed.

(** a successful [dhcpSetIfAddr] returns whatever its variable [rc] held,
    since nothing assigns it; and when setting the address fails it returns
    -3 without closing the socket it opened. *)
Theorem dhcpSetIfAddr_rc_and_leak rc :
  dhcpSetIfAddr addr_of 3 (fun _ => 0) rc eth0 text0 text0 text0
  = Ret (rc, [SetAddr eth0 0; SetMask eth0 0; AddRoute 0; Close])
  /\ dhcpSetIfAddr addr_of 3 (fun _ => -1) rc eth0 text0 text0 text0
     = Ret (-3, [SetAddr eth0 0]).
Proof. split; reflexivity. Qed.
