(* ===== verification/JsonText.v ===== *)
(** * JSON text: strings, numbers and white space (JSON/cJSON.c)

    The parse buffer and the leaves of the parser.  A text is the list of its
    bytes, the terminator included; a pointer into it is an index; a read
    outside it and a write outside an allocated block are crashes.  Sizes and
    offsets are natural numbers: no object of the 32-bit target is large
    enough for [offset + 12] to wrap.

    Doubles and the functions of the C library on them are the class
    [CDouble]; [malloc] is the class [Allocator]. *)

From S2P Require Import Prelude.

Local Open Scope Z_scope.

(** ** What the library is given *)

(** [double] and the C library's conversions.  [strtod] returns the value and
    the number of characters it used. *)
Class CDouble := {
  double : Type;
  d_zero : double;
  of_int : Z -> double;
  to_int : double -> Z;
  d_sub : double -> double -> double;
  d_mul : double -> double -> double;
  d_fabs : double -> double;
  d_le : double -> double -> bool;
  d_eq : double -> double -> bool;
  CJSON_DOUBLE_PRECISION : double;
  strtod : list Z -> double * nat;
  sscanf_lg : list Z -> option double;
  sprintf_g : nat -> double -> list Z
}.

(** [malloc]: from the number of the call and the size, the contents of the
    block it returns, or nothing. *)
Class Allocator := allocate : nat -> nat -> option (list Z).

(** A block has the size that was asked for. *)
Class AllocatorSize (A : Allocator) : Prop :=
  allocate_size : forall n sz m, allocate n sz = Some m -> length m = sz.

(** ** Items *)
Definition cJSON_Invalid : Z := 0.
Definition cJSON_False : Z := 1.
Definition cJSON_True : Z := 2.
Definition cJSON_NULL : Z := 4.
Definition cJSON_Number : Z := 8.
Definition cJSON_String : Z := 16.
Definition cJSON_Array : Z := 32.
Definition cJSON_Object : Z := 64.
Definition cJSON_Raw : Z := 128.
Definition CJSON_NESTING_LIMIT : nat := 1000.
Definition sizeof_cJSON : nat := 40.

Section Text.
Context `{D : CDouble} `{A : Allocator}.

(** An item and the list of its children, as a value: while it is parsed or
    printed nobody else holds it.  A string is the contents of its block
    before the final terminator. *)
#[warnings="-register-all"]
Inductive item := mkItem {
  type : Z; valuestring : option (list Z); valueint : Z; valuedouble : double;
  string : option (list Z); child : list item }.

(** [memset(node, 0, sizeof(cJSON))] *)
Definition item0 : item := mkItem 0 None 0 d_zero None [].

Definition set_type (it : item) (t : Z) : item :=
  mkItem t (valuestring it) (valueint it) (valuedouble it) (string it) (child it).

Record parse_buffer := mkPB { content : list Z; offset : nat; depth : nat; allocs : nat }.

Definition at_offset (b : parse_buffer) (o : nat) : parse_buffer :=
  mkPB (content b) o (depth b) (allocs b).
Definition at_depth (b : parse_buffer) (d : nat) : parse_buffer :=
  mkPB (content b) (offset b) d (allocs b).
Definition alloc_called (b : parse_buffer) : parse_buffer :=
  mkPB (content b) (offset b) (depth b) (S (allocs b)).

Definition can_read (b : parse_buffer) (size : nat) : bool :=
  (offset b + size <=? length (content b))%nat.
Definition can_access_at_index (b : parse_buffer) (i : nat) : bool :=
  (offset b + i <? length (content b))%nat.

(** [buffer_at_offset(b)[i]] *)
Definition peek (b : parse_buffer) (i : nat) : outcome Z := get8 (content b) (offset b + i).

Definition cJSON_New_Item (b : parse_buffer) : option item * parse_buffer :=
  (match allocate (allocs b) sizeof_cJSON with Some _ => Some item0 | None => None end,
   alloc_called b).

(** ** White space *)
Fixpoint skip_loop (fuel : nat) (b : parse_buffer) : outcome parse_buffer :=
  match fuel with
  | O => Crash Diverge
  | S f =>
      if can_access_at_index b 0 then
        let! c := peek b 0 in
        if c <=? 32 then skip_loop f (at_offset b (S (offset b))) else Ret b
      else Ret b
  end.

Definition buffer_skip_whitespace (b : parse_buffer) : outcome parse_buffer :=
  let! b := skip_loop (S (length (content b))) b in
  if (offset b =? length (content b))%nat then Ret (at_offset b (offset b - 1)) else Ret b.

(** [strncmp(buffer_at_offset(b), s, n) == 0] for a literal [s] of [n] bytes. *)
Fixpoint lit_at (b : parse_buffer) (i : nat) (s : list Z) : outcome bool :=
  match s with
  | [] => Ret true
  | c :: s' => let! x := peek b i in if x =? c then lit_at b (S i) s' else Ret false
  end.

(** [None]: the function returns NULL. *)
Definition skip_utf8_bom (b : parse_buffer) : outcome (option parse_buffer) :=
  if negb (offset b =? 0)%nat then Ret None
  else if can_access_at_index b 4 then
    let! m := lit_at b 0 [239; 187; 191] in
    Ret (Some (if (m : bool) then at_offset b (offset b + 3) else b))
  else Ret (Some b).

(** ** Numbers *)
Definition get_decimal_point : Z := 46.

Definition is_number_char (c : Z) : bool :=
  ((48 <=? c) && (c <=? 57)) || (c =? 43) || (c =? 45) || (c =? 101) || (c =? 69).

(** The loop that fills [number_c_string]; [n] characters may still be copied. *)
Fixpoint copy_number (b : parse_buffer) (n i : nat) : outcome (list Z) :=
  match n with
  | O => Ret []
  | S n' =>
      if can_access_at_index b i then
        let! c := peek b i in
        if is_number_char c then let! s := copy_number b n' (S i) in Ret (c :: s)
        else if c =? 46 then let! s := copy_number b n' (S i) in Ret (get_decimal_point :: s)
        else Ret []
      else Ret []
  end.

(** The saturating conversion to [valueint]. *)
Definition saturate (number : double) : Z :=
  if d_le (of_int INT_MAX) number then INT_MAX
  else if d_le number (of_int INT_MIN) then INT_MIN
  else to_int number.

(** [None]: the function returns false. *)
Definition parse_number (it : item) (b : parse_buffer) : outcome (option item * parse_buffer) :=
  let! s := copy_number b 63 0 in
  let '(number, used) := strtod s in
  if (used =? 0)%nat then Ret (None, b)
  else Ret (Some (mkItem cJSON_Number (valuestring it) (saturate number) number (string it) (child it)),
            at_offset b (offset b + used)).

Definition cJSON_SetNumberHelper (it : item) (number : double) : item :=
  mkItem (type it) (valuestring it) (saturate number) number (string it) (child it).

Definition compare_double (a b : double) : bool :=
  d_le (d_fabs (d_sub a b)) CJSON_DOUBLE_PRECISION.

(** ** UTF-16 literals *)
Definition hex_digit (c : Z) : option Z :=
  if (48 <=? c) && (c <=? 57) then Some (c - 48)
  else if (65 <=? c) && (c <=? 70) then Some (10 + c - 65)
  else if (97 <=? c) && (c <=? 102) then Some (10 + c - 97)
  else None.

(** [n] digits left. *)
Fixpoint hex4_loop (s : list Z) (i n : nat) (h : Z) : outcome Z :=
  match n with
  | O => Ret h
  | S n' =>
      let! c := get8 s i in
      match hex_digit c with
      | None => Ret 0
      | Some v =>
          let h := u32 (h + v) in
          hex4_loop s (S i) n' (if (n' =? 0)%nat then h else u32 (Z.shiftl h 4))
      end
  end.

Definition parse_hex4 (s : list Z) (i : nat) : outcome Z := hex4_loop s i 4 0.

(** The continuation bytes, last first; the rest of the code point. *)
Fixpoint utf8_tail (n : nat) (codepoint : Z) (acc : list Z) : Z * list Z :=
  match n with
  | O => (codepoint, acc)
  | S n' => utf8_tail n' (Z.shiftr codepoint 6) (u8 (Z.land (Z.lor codepoint 128) 191) :: acc)
  end.

Definition utf8_encode (utf8_length : nat) (first_byte_mark codepoint : Z) : list Z :=
  let '(cp, rest) := utf8_tail (utf8_length - 1) codepoint [] in
  (if (1 <? utf8_length)%nat then u8 (Z.land (Z.lor cp first_byte_mark) 255)
   else u8 (Z.land cp 127)) :: rest.

(** Length and mark of the encoding, by the size of the code point. *)
Definition utf8_class (codepoint : Z) : option (nat * Z) :=
  if codepoint <? 128 then Some (1%nat, 0)
  else if codepoint <? 2048 then Some (2%nat, 192)
  else if codepoint <? 65536 then Some (3%nat, 224)
  else if codepoint <=? 1114111 then Some (4%nat, 240)
  else None.

(** Sequence length and code point; [None] for [goto fail]. *)
Definition utf16_codepoint (s : list Z) (input_pointer input_end : nat) : outcome (option (nat * Z)) :=
  if (input_end - input_pointer <? 6)%nat then Ret None
  else
    let! first_code := parse_hex4 s (input_pointer + 2) in
    if (56320 <=? first_code) && (first_code <=? 57343) then Ret None
    else if (55296 <=? first_code) && (first_code <=? 56319) then
      let second := (input_pointer + 6)%nat in
      if (input_end - second <? 6)%nat then Ret None
      else
        let! c0 := get8 s second in
        if negb (c0 =? 92) then Ret None
        else
          let! c1 := get8 s (S second) in
          if negb (c1 =? 117) then Ret None
          else
            let! second_code := parse_hex4 s (second + 2) in
            if (second_code <? 56320) || (57343 <? second_code) then Ret None
            else Ret (Some (12%nat, 65536 + Z.lor (Z.shiftl (Z.land first_code 1023) 10)
                                                  (Z.land second_code 1023)))
    else Ret (Some (6%nat, first_code)).

(** The sequence length (0 for failure) and the bytes written. *)
Definition utf16_literal_to_utf8 (s : list Z) (input_pointer input_end : nat) : outcome (nat * list Z) :=
  let! r := utf16_codepoint s input_pointer input_end in
  match r with
  | None => Ret (0%nat, [])
  | Some (len, cp) =>
      match utf8_class cp with
      | None => Ret (0%nat, [])
      | Some (n, mark) => Ret (len, utf8_encode n mark cp)
      end
  end.

(** ** Strings *)

(** The first pass: end of the string and number of escapes; [None] when the
    text ends inside the string. *)
Fixpoint scan_string (fuel : nat) (s : list Z) (input_end skipped : nat) : outcome (option (nat * nat)) :=
  match fuel with
  | O => Crash Diverge
  | S f =>
      if (input_end <? length s)%nat then
        let! c := get8 s input_end in
        if c =? 34 then Ret (Some (input_end, skipped))
        else if c =? 92 then
          if (length s <=? input_end + 1)%nat then Ret None
          else scan_string f s (input_end + 2) (S skipped)
        else scan_string f s (input_end + 1) skipped
      else Ret None
  end.

(** Write [bs] behind [out] in a block of [size] bytes. *)
Definition emit (size : nat) (out bs : list Z) : outcome (list Z) :=
  if (length out + length bs <=? size)%nat then Ret (out ++ bs) else Crash OutOfBounds.

(** The byte a one-letter escape stands for. *)
Definition simple_escape (c : Z) : option Z :=
  if c =? 98 then Some 8
  else if c =? 102 then Some 12
  else if c =? 110 then Some 10
  else if c =? 114 then Some 13
  else if c =? 116 then Some 9
  else if (c =? 34) || (c =? 92) || (c =? 47) then Some c
  else None.

(** The second pass; returns the output, or [None] for [goto fail], and the
    input pointer. *)
Fixpoint decode_string (fuel : nat) (s : list Z) (input_pointer input_end size : nat) (out : list Z)
  : outcome (option (list Z) * nat) :=
  match fuel with
  | O => Crash Diverge
  | S f =>
      if (input_pointer <? input_end)%nat then
        let! c := get8 s input_pointer in
        if negb (c =? 92) then
          let! out := emit size out [c] in
          decode_string f s (input_pointer + 1) input_end size out
        else
          let! e := get8 s (input_pointer + 1) in
          match simple_escape e with
          | Some x =>
              let! out := emit size out [x] in
              decode_string f s (input_pointer + 2) input_end size out
          | None =>
              if e =? 117 then
                let! (len, bs) := utf16_literal_to_utf8 s input_pointer input_end in
                if (len =? 0)%nat then Ret (None, input_pointer)
                else
                  let! out := emit size out bs in
                  decode_string f s (input_pointer + len) input_end size out
              else Ret (None, input_pointer)
          end
      else Ret (Some out, input_pointer)
  end.

Definition parse_string (it : item) (b : parse_buffer) : outcome (option item * parse_buffer) :=
  let start := (offset b + 1)%nat in
  let! c := peek b 0 in
  if negb (c =? 34) then Ret (None, at_offset b start)
  else
    let! r := scan_string (S (length (content b))) (content b) start 0 in
    match r with
    | None => Ret (None, at_offset b start)
    | Some (input_end, skipped) =>
        let allocation_length := (input_end - offset b - skipped)%nat in
        let size := (allocation_length + 1)%nat in
        let m := allocate (allocs b) size in
        let b := alloc_called b in
        match m with
        | None => Ret (None, at_offset b start)
        | Some _ =>
            let! (r, input_pointer) :=
              decode_string (S (length (content b))) (content b) start input_end size [] in
            match r with
            | None => Ret (None, at_offset b input_pointer)
            | Some out =>
                let! _ := emit size out [0] in
                Ret (Some (mkItem cJSON_String (Some out) (valueint it) (valuedouble it) (string it) (child it)),
                     at_offset b (S input_end))
            end
        end
    end.
End Text.
