(* ===== verification/JsonSafe.v ===== *)
(** * JSON text: the leaves of the parser stay in bounds

    White space, literals, numbers and strings on every terminated text: they
    return, read only inside the text and write only inside the block they
    allocated, for every answer of the allocator. *)

From S2P Require Import Prelude JsonText.

Local Open Scope Z_scope.

(** ** Segments of a text *)
Definition seg (s : list Z) (i j : nat) : list Z := take (j - i) (drop i s).

Lemma seg_length s i j : (i <= j <= length s)%nat -> length (seg s i j) = (j - i)%nat.
Proof. intros H. unfold seg. rewrite length_take, length_drop. lia. Qed.

Lemma seg_nil s i j : (j <= i)%nat -> seg s i j = [].
Proof. intros H. unfold seg. replace (j - i)%nat with O by lia. reflexivity. Qed.

Lemma seg_cons s i j : (i < j <= length s)%nat ->
  exists c, s !! i = Some c /\ seg s i j = c :: seg s (S i) j.
Proof.
  intros H. destruct (lookup_lt_is_Some_2 s i ltac:(lia)) as [c Hc]. exists c. split; [exact Hc|].
  unfold seg. rewrite (drop_S s c i Hc). replace (j - i)%nat with (S (j - S i)) by lia. reflexivity.
Qed.

(** ** Escapes seen by the first pass *)

(** Backslash pairs of a segment. *)
Fixpoint skips (t : list Z) : nat :=
  match t with
  | [] => 0
  | c :: r => match r with
              | [] => 0
              | _ :: r2 => if (c =? 92)%Z then S (skips r2) else skips r
              end
  end%nat.

(** The most pairs that the first pass can have counted in a segment, whether it
    entered it between two characters or inside a pair. *)
Definition pairs (t : list Z) : nat := Nat.max (skips t) (skips (tail t)).

Lemma skips_cons c t : c <> 92 -> skips (c :: t) = skips t.
Proof. intros H. cbn [skips]. destruct t; [reflexivity|]. zcase; [contradiction|reflexivity]. Qed.

Lemma skips_step b c t : skips (b :: c :: t) = if b =? 92 then S (skips t) else skips (c :: t).
Proof. reflexivity. Qed.

Lemma skips_pair c t : skips (92 :: c :: t) = S (skips t).
Proof. reflexivity. Qed.

Lemma skips_two a b t : (skips (a :: b :: t) <= S (pairs t))%nat.
Proof.
  rewrite skips_step. unfold pairs. destruct (a =? 92); [lia|].
  destruct t as [|c t]; [simpl; lia|]. rewrite skips_step. cbn [tail]. destruct (b =? 92); lia.
Qed.

Lemma pairs_cons c t : c <> 92 -> (pairs (c :: t) <= pairs t)%nat.
Proof. intros H. unfold pairs at 1. rewrite (skips_cons c t H). cbn [tail]. unfold pairs. lia. Qed.

Lemma pairs_two a b t : (pairs (a :: b :: t) <= S (pairs t))%nat.
Proof.
  unfold pairs at 1. cbn [tail]. pose proof (skips_two a b t).
  assert (skips (b :: t) <= S (pairs t))%nat; [|lia].
  destruct t as [|c t]; [simpl; lia|]. rewrite skips_step. unfold pairs. cbn [tail].
  destruct (b =? 92); lia.
Qed.

Lemma pairs_even n : forall t t', length t = (2 * n)%nat -> (pairs (t ++ t') <= n + pairs t')%nat.
Proof.
  induction n as [|n IH]; intros t t' H.
  - destruct t; [simpl; lia | discriminate].
  - destruct t as [|a [|b t]]; simpl in H; try lia. cbn [app].
    pose proof (pairs_two a b (t ++ t')). pose proof (IH t t' ltac:(lia)). lia.
Qed.

Lemma skips_length n : forall t, (length t <= n)%nat -> (skips t <= length t)%nat.
Proof.
  induction n as [|n IH]; intros t H; destruct t as [|c [|d t]]; simpl in H |- *; try lia.
  destruct (c =? 92).
  - pose proof (IH t ltac:(lia)). lia.
  - pose proof (IH (d :: t) ltac:(simpl; lia)). simpl in *. lia.
Qed.

Lemma pairs_length t : (pairs t <= length t)%nat.
Proof.
  unfold pairs. pose proof (skips_length _ t (le_n _)). pose proof (skips_length _ (tail t) (le_n _)).
  destruct t; simpl in *; lia.
Qed.

Section Safe.
Context `{D : CDouble} `{A : Allocator}.

(** A terminated text. *)
Definition terminated (s : list Z) : Prop :=
  exists t, s = t ++ [0] /\ Forall (fun c => 1 <= c < 256) t.

Lemma terminated_length s : terminated s -> (1 <= length s)%nat.
Proof. intros (t & -> & _). rewrite length_app. simpl. lia. Qed.

Lemma terminated_last s i c : terminated s -> s !! i = Some c -> c <> 0 -> (S i < length s)%nat.
Proof.
  intros (t & -> & _) H Hc. rewrite length_app. simpl.
  destruct (Nat.lt_ge_cases i (length t)) as [|Hge]; [lia|].
  rewrite lookup_app_r in H by lia.
  pose proof (lookup_lt_Some _ _ _ H) as Hl. simpl in Hl.
  replace (i - length t)%nat with O in H by lia. injection H as <-. contradiction.
Qed.

(** ** White space and literals *)
Lemma peek_total b i : (offset b + i < length (content b))%nat ->
  exists c, peek b i = Ret c /\ content b !! (offset b + i)%nat = Some c.
Proof. intros H. apply get8_total, H. Qed.

Lemma at_offset_id b : at_offset b (offset b) = b.
Proof. destruct b. reflexivity. Qed.

Lemma skip_loop_spec fuel : forall b,
  (length (content b) < fuel + offset b)%nat -> (offset b <= length (content b))%nat ->
  exists o, skip_loop fuel b = Ret (at_offset b o) /\
    (offset b <= o <= length (content b))%nat /\
    Forall (fun c => c <= 32) (seg (content b) (offset b) o) /\
    (forall c, content b !! o = Some c -> 32 < c).
Proof.
  induction fuel as [|fuel IH]; intros b Hf Ho; [lia|]. cbn [skip_loop].
  unfold can_access_at_index. rewrite Nat.add_0_r.
  destruct (Nat.ltb_spec (offset b) (length (content b))) as [Hlt|Hge].
  - destruct (peek_total b 0 ltac:(lia)) as (c & -> & Ec). rewrite Nat.add_0_r in Ec. cbn [obind].
    destruct (Z.leb_spec c 32) as [Hc|Hc].
    + destruct (IH (at_offset b (S (offset b)))) as (o & E & Hr & Hw & Hn);
        [simpl; lia | simpl; lia |]. simpl in Hr, Hw, Hn.
      exists o. split; [exact E|]. split; [lia|]. split; [|exact Hn].
      destruct (seg_cons (content b) (offset b) o ltac:(lia)) as (c' & E' & ->).
      constructor; [congruence | exact Hw].
    + exists (offset b). rewrite at_offset_id. split; [reflexivity|]. split; [lia|].
      split; [rewrite seg_nil by lia; constructor | congruence].
  - exists (offset b). rewrite at_offset_id. split; [reflexivity|]. split; [lia|].
    split; [rewrite seg_nil by lia; constructor|].
    intros c Hc. apply lookup_lt_Some in Hc. lia.
Qed.

Lemma skip_spec b : (1 <= length (content b))%nat -> (offset b <= length (content b))%nat ->
  exists o, buffer_skip_whitespace b = Ret (at_offset b o) /\ (o < length (content b))%nat /\
    ((offset b <= o)%nat \/ S o = length (content b)).
Proof.
  intros H1 Ho. unfold buffer_skip_whitespace.
  destruct (skip_loop_spec (S (length (content b))) b ltac:(lia) Ho) as (o & -> & Hr & _).
  cbn [obind offset at_offset content].
  destruct (Nat.eqb_spec o (length (content b))) as [->|Hne].
  - exists (length (content b) - 1)%nat. split; [reflexivity|]. lia.
  - exists o. split; [reflexivity|]. lia.
Qed.

(** White space in front of a character is skipped, nothing else. *)
Lemma skip_to b w c rest :
  drop (offset b) (content b) = w ++ c :: rest ->
  Forall (fun x => x <= 32) w -> 32 < c ->
  buffer_skip_whitespace b = Ret (at_offset b (offset b + length w)).
Proof.
  intros Hd Hw Hc. unfold buffer_skip_whitespace.
  assert (Hlen : length (content b) = (offset b + length w + S (length rest))%nat).
  { assert (length (drop (offset b) (content b)) = (length w + S (length rest))%nat) as Hl
      by (rewrite Hd, length_app; reflexivity).
    rewrite length_drop in Hl. destruct (Nat.lt_ge_cases (offset b) (length (content b))); lia. }
  assert (Hloop : forall w fuel b, drop (offset b) (content b) = w ++ c :: rest ->
    Forall (fun x => x <= 32) w -> (length w < fuel)%nat ->
    skip_loop fuel b = Ret (at_offset b (offset b + length w))).
  { clear b w Hd Hw Hlen. induction w as [|x w IH]; intros [|fuel] b Hd Hw Hf; simpl in Hf; try lia;
      cbn [skip_loop]; unfold can_access_at_index, peek, get8; rewrite Nat.add_0_r.
    - assert (E : content b !! offset b = Some c).
      { rewrite <- (Nat.add_0_r (offset b)), <- lookup_drop, Hd. reflexivity. }
      rewrite (proj2 (Nat.ltb_lt _ _) (lookup_lt_Some _ _ _ E)), E. cbn [obind].
      rewrite (proj2 (Z.leb_gt _ _) Hc). destruct b; simpl. rewrite Nat.add_0_r. reflexivity.
    - apply Forall_cons in Hw as [Hx Hw].
      assert (E : content b !! offset b = Some x).
      { rewrite <- (Nat.add_0_r (offset b)), <- lookup_drop, Hd. reflexivity. }
      rewrite (proj2 (Nat.ltb_lt _ _) (lookup_lt_Some _ _ _ E)), E. cbn [obind].
      rewrite (proj2 (Z.leb_le _ _) Hx).
      rewrite (IH fuel (at_offset b (S (offset b)))); [| |exact Hw|lia].
      + unfold at_offset; simpl. do 2 f_equal. lia.
      + simpl. rewrite (drop_S _ _ _ E) in Hd. simpl in Hd. congruence. }
  rewrite (Hloop w) by (try assumption; lia). cbn [obind offset at_offset content].
  destruct (Nat.eqb_spec (offset b + length w) (length (content b))); [lia | reflexivity].
Qed.

Lemma lit_total b s : forall i, (offset b + i + length s <= length (content b))%nat ->
  exists r, lit_at b i s = Ret r.
Proof.
  induction s as [|c s IH]; intros i H; cbn [lit_at]; [eexists; reflexivity|]. simpl in H.
  destruct (peek_total b i ltac:(lia)) as (x & -> & _). cbn [obind].
  destruct (x =? c); [apply IH; lia | eexists; reflexivity].
Qed.

(** ** Numbers *)
Lemma copy_number_total b n : forall i, exists s, copy_number b n i = Ret s /\
  (offset b + i <= length (content b) -> offset b + i + length s <= length (content b))%nat.
Proof.
  induction n as [|n IH]; intros i; cbn [copy_number]; [exists []; split; [reflexivity | simpl; lia]|].
  unfold can_access_at_index. destruct (Nat.ltb_spec (offset b + i) (length (content b))) as [Hlt|];
    [|exists []; split; [reflexivity | simpl; lia]].
  destruct (peek_total b i Hlt) as (c & -> & _). cbn [obind].
  destruct (IH (S i)) as (s & -> & Hs). cbn [obind].
  destruct (is_number_char c); [exists (c :: s); split; [reflexivity | simpl; lia]|].
  destruct (c =? 46); [eexists; split; [reflexivity | simpl; lia] | exists []; split; [reflexivity | simpl; lia]].
Qed.

(** ** Strings *)
Lemma hex_digit_range c v : hex_digit c = Some v -> 0 <= v < 16.
Proof. unfold hex_digit. repeat zcase; cbn [andb]; intros [= <-]; lia. Qed.

Lemma hex4_loop_total s n : forall i h, (i + n <= length s)%nat -> exists v, hex4_loop s i n h = Ret v.
Proof.
  induction n as [|n IH]; intros i h Hi; cbn [hex4_loop]; [eexists; reflexivity|].
  destruct (get8_total s i ltac:(lia)) as (c & -> & _). cbn [obind].
  destruct (hex_digit c); [apply IH; lia | eexists; reflexivity].
Qed.

(** [h] is a multiple of 16 below [16 ^ (4 - n)] until the last digit. *)
Lemma hex4_loop_range s n : forall i h v, (n <= 4)%nat -> 0 <= h -> h + 16 <= 16 ^ Z.of_nat (5 - n) ->
  hex4_loop s i n h = Ret v -> (1 <= n)%nat -> 0 <= v < 65536.
Proof.
  induction n as [|n IH]; intros i h v Hn H0 Hh E H1; [lia|]. cbn [hex4_loop] in E.
  destruct (get8 s i) as [c|]; [|discriminate]. cbn [obind] in E.
  destruct (hex_digit c) as [d|] eqn:Ed; [|injection E as <-; lia].
  apply hex_digit_range in Ed.
  assert (16 ^ Z.of_nat (5 - S n) <= 65536).
  { change 65536 with (16 ^ 4). apply Z.pow_le_mono_r; lia. }
  rewrite (u32_id (h + d)) in E by rlia.
  destruct n as [|n]; cbn [Nat.eqb] in E; [cbn [hex4_loop] in E; injection E as <-; lia|].
  rewrite Z.shiftl_mul_pow2 in E by lia. change (2 ^ 4) with 16 in E.
  rewrite (u32_id ((h + d) * 16)) in E by rlia.
  apply (IH (S i) ((h + d) * 16) v); [lia | lia | | exact E | lia].
  replace (5 - S n)%nat with (S (5 - S (S n))) by lia. rewrite Nat2Z.inj_succ, Z.pow_succ_r by lia. lia.
Qed.

Lemma parse_hex4_spec s i : (i + 4 <= length s)%nat -> exists v, parse_hex4 s i = Ret v /\ 0 <= v < 65536.
Proof.
  intros H. destruct (hex4_loop_total s 4 i 0 H) as [v E]. exists v. split; [exact E|].
  apply (hex4_loop_range s 4 i 0 v); [lia | lia | simpl; lia | exact E | lia].
Qed.

Lemma utf8_tail_length n : forall cp acc, length (snd (utf8_tail n cp acc)) = (n + length acc)%nat.
Proof.
  induction n as [|n IH]; intros cp acc; cbn [utf8_tail]; [reflexivity|]. rewrite IH. simpl. lia.
Qed.

Lemma utf8_encode_length n mark cp : (1 <= n)%nat -> length (utf8_encode n mark cp) = n.
Proof.
  intros H. unfold utf8_encode. pose proof (utf8_tail_length (n - 1) cp []) as E.
  destruct (utf8_tail (n - 1) cp []) as [c r]. simpl in *. lia.
Qed.

(** Six characters give at most three bytes, twelve at most four. *)
Lemma utf16_spec s ip ie : (ie <= length s)%nat ->
  exists len bs, utf16_literal_to_utf8 s ip ie = Ret (len, bs) /\
    (len = O \/ (len = 6 /\ ip + 6 <= ie /\ length bs <= 3)
             \/ (len = 12 /\ ip + 12 <= ie /\ length bs <= 4))%nat.
Proof.
  intros Hie. unfold utf16_literal_to_utf8, utf16_codepoint.
  destruct (Nat.ltb_spec (ie - ip) 6) as [|H6]; [do 2 eexists; split; [reflexivity|]; auto|].
  destruct (parse_hex4_spec s (ip + 2) ltac:(lia)) as (fc & -> & Hfc). cbn [obind].
  destruct (_ && _); [do 2 eexists; split; [reflexivity|]; auto|].
  destruct (_ && _).
  - destruct (Nat.ltb_spec (ie - (ip + 6)) 6) as [|H12]; [do 2 eexists; split; [reflexivity|]; auto|].
    destruct (get8_total s (ip + 6) ltac:(lia)) as (c0 & -> & _). cbn [obind].
    destruct (negb _); [do 2 eexists; split; [reflexivity|]; auto|].
    destruct (get8_total s (S (ip + 6)) ltac:(lia)) as (c1 & -> & _). cbn [obind].
    destruct (negb _); [do 2 eexists; split; [reflexivity|]; auto|].
    destruct (parse_hex4_spec s (ip + 6 + 2) ltac:(lia)) as (sc & -> & Hsc). cbn [obind].
    destruct (_ || _); [do 2 eexists; split; [reflexivity|]; auto|]. cbn [obind].
    unfold utf8_class. repeat zcase; do 2 eexists; (split; [reflexivity|]);
      try (left; reflexivity); right; right; rewrite utf8_encode_length by lia; lia.
  - cbn [obind]. unfold utf8_class. repeat zcase; do 2 eexists; (split; [reflexivity|]);
      try (left; reflexivity); try lia; right; left; rewrite utf8_encode_length by lia; lia.
Qed.

Lemma scan_string_spec s fuel : forall e k,
  (e <= length s < fuel + e)%nat -> exists r, scan_string fuel s e k = Ret r /\
  (forall e' k', r = Some (e', k') -> (e <= e' < length s)%nat /\ s !! e' = Some 34 /\
     k' = (k + skips (seg s e e'))%nat).
Proof.
  induction fuel as [|fuel IH]; intros e k Hf; [lia|]. cbn [scan_string].
  - destruct (Nat.ltb_spec e (length s)) as [He|]; [|exists None; split; [reflexivity | discriminate]].
    destruct (get8_total s e He) as (c & -> & Ec). cbn [obind].
    destruct (Z.eqb_spec c 34) as [->|H34].
    { exists (Some (e, k)). split; [reflexivity|]. intros e' k' [= <- <-].
      rewrite seg_nil by lia. simpl. auto with lia. }
    destruct (Z.eqb_spec c 92) as [->|H92].
    + destruct (Nat.leb_spec (length s) (e + 1)) as [|He1]; [exists None; split; [reflexivity | discriminate]|].
      destruct (IH (e + 2)%nat (S k) ltac:(lia)) as (r & -> & Hr). exists r. split; [reflexivity|].
      intros e' k' E. destruct (Hr e' k' E) as (H1 & H2 & H3). split; [lia|]. split; [exact H2|].
      destruct (seg_cons s e e' ltac:(lia)) as (a & Ea & ->).
      destruct (seg_cons s (S e) e' ltac:(lia)) as (b & Eb & ->).
      rewrite Ec in Ea. injection Ea as <-. rewrite skips_pair.
      replace (S (S e)) with (e + 2)%nat by lia. lia.
    + destruct (IH (e + 1)%nat k ltac:(lia)) as (r & -> & Hr). exists r. split; [reflexivity|].
      intros e' k' E. destruct (Hr e' k' E) as (H1 & H2 & H3). split; [lia|]. split; [exact H2|].
      destruct (seg_cons s e e' ltac:(lia)) as (a & Ea & ->).
      rewrite Ec in Ea. injection Ea as <-. rewrite skips_cons by exact H92.
      replace (S e) with (e + 1)%nat by lia. exact H3.
Qed.

Lemma emit_ok size out bs : (length out + length bs <= size)%nat -> emit size out bs = Ret (out ++ bs).
Proof. intros H. unfold emit. rewrite (proj2 (Nat.leb_le _ _) H). reflexivity. Qed.

Lemma seg_split s i k j : (i + k <= j <= length s)%nat ->
  exists t, length t = k /\ seg s i j = t ++ seg s (i + k) j.
Proof.
  revert i. induction k as [|k IH]; intros i H.
  - exists []. rewrite Nat.add_0_r. split; reflexivity.
  - destruct (seg_cons s i j ltac:(lia)) as (c & _ & ->).
    destruct (IH (S i) ltac:(lia)) as (t & Ht & ->). exists (c :: t).
    replace (S i + k)%nat with (i + S k)%nat by lia. split; [simpl; lia | reflexivity].
Qed.

(** The second pass stays in a block of [size] bytes as long as the characters
    left, less the pairs the first pass can have counted in them, fit. *)
Lemma decode_string_total s ie size : (ie < length s)%nat -> forall fuel ip out,
  (1 <= fuel /\ ie < fuel + ip)%nat ->
  (length out + length (seg s ip ie) + 1 <= size + pairs (seg s ip ie))%nat ->
  exists r ip', decode_string fuel s ip ie size out = Ret (r, ip') /\
    (forall o, r = Some o -> length o + 1 <= size)%nat.
Proof.
  intros Hie. assert (Hie' : (ie <= length s)%nat) by lia.
  assert (Hfin : forall fuel ip out, (ie < fuel + ip)%nat -> (1 <= fuel)%nat -> (ie <= ip)%nat ->
    decode_string fuel s ip ie size out = Ret (Some out, ip)).
  { intros [|fuel] ip out H1 H2 H3; [lia|]. cbn [decode_string].
    rewrite (proj2 (Nat.ltb_ge _ _) H3). reflexivity. }
  induction fuel as [|fuel IH]; intros ip out Hf Hr; [lia|].
  cbn [decode_string]. destruct (Nat.ltb_spec ip ie) as [Hlt|Hge].
  2:{ rewrite seg_nil in Hr by lia. exists (Some out), ip. split; [reflexivity|].
      intros o [= <-]. cbn in Hr. lia. }
  destruct (seg_cons s ip ie ltac:(lia)) as (c & Ec & Es). rewrite Es in Hr.
  pose proof (pairs_length (seg s (S ip) ie)) as Hp.
  unfold get8 at 1. rewrite Ec. cbn [obind].
  destruct (Z.eqb_spec c 92) as [->|Hc]; cbn [negb].
  2:{ pose proof (pairs_cons c (seg s (S ip) ie) Hc). cbn [length] in Hr.
      rewrite emit_ok by (simpl; lia). cbn [obind]. rewrite Nat.add_1_r.
      apply IH; [lia|]. rewrite length_app. simpl. lia. }
  destruct (get8_total s (ip + 1) ltac:(lia)) as (e & -> & Ee). cbn [obind].
  destruct (simple_escape e) as [x|].
  - destruct (Nat.lt_ge_cases (S ip) ie) as [H2|H2].
    + destruct (seg_cons s (S ip) ie ltac:(lia)) as (c' & _ & Es'). rewrite Es' in *.
      pose proof (pairs_two 92 c' (seg s (S (S ip)) ie)).
      pose proof (pairs_length (seg s (S (S ip)) ie)). cbn [length] in Hr.
      rewrite emit_ok by (simpl; lia). cbn [obind]. replace (ip + 2)%nat with (S (S ip)) by lia.
      apply IH; [lia|]. rewrite length_app. simpl. lia.
    + rewrite (seg_nil s (S ip) ie) in Hr by lia. cbn in Hr.
      rewrite emit_ok by (simpl; lia). cbn [obind]. rewrite Hfin by lia.
      exists (Some (out ++ [x])), (ip + 2)%nat. split; [reflexivity|].
      intros o [= <-]. rewrite length_app. simpl. lia.
  - destruct (e =? 117); [|do 2 eexists; split; [reflexivity | discriminate]].
    destruct (utf16_spec s ip ie Hie') as (len & bs & -> & Hlen). cbn [obind].
    destruct (Nat.eqb_spec len 0) as [->|Hl0]; [do 2 eexists; split; [reflexivity | discriminate]|].
    rewrite <- Es in Hr.
    assert (exists n, len = 2 * n /\ length bs + n <= len /\ ip + len <= ie)%nat as (n & E2 & Hb & Hi).
    { destruct Hlen as [|[(-> & ? & ?)|(-> & ? & ?)]]; [lia | exists 3%nat; lia | exists 6%nat; lia]. }
    destruct (seg_split s ip len ie ltac:(lia)) as (t & Ht & Et). rewrite Et in Hr.
    pose proof (pairs_even n t (seg s (ip + len) ie) ltac:(lia)).
    pose proof (pairs_length (seg s (ip + len) ie)). rewrite length_app in Hr.
    rewrite emit_ok by lia. cbn [obind]. apply IH; [lia|]. rewrite length_app. lia.
Qed.

(** [b'] differs from [b] in offset and number of allocations only. *)
Definition same_text (b b' : parse_buffer) : Prop := content b' = content b /\ depth b' = depth b.

Lemma parse_string_total it b : (offset b < length (content b))%nat ->
  exists r b', parse_string it b = Ret (r, b') /\ same_text b b' /\
  (forall it', r = Some it' -> (offset b < offset b' <= length (content b))%nat /\
     exists out, it' = mkItem cJSON_String (Some out) (valueint it) (valuedouble it) (string it) (child it)).
Proof.
  intros Ho. unfold parse_string, same_text.
  destruct (peek_total b 0 ltac:(lia)) as (c & -> & _). cbn [obind].
  destruct (negb _); [do 2 eexists; split; [reflexivity|]; split; [split; reflexivity | discriminate]|].
  destruct (scan_string_spec (content b) (S (length (content b))) (offset b + 1) 0 ltac:(lia))
    as (r & -> & Hr). cbn [obind].
  destruct r as [[ie sk]|]; [|do 2 eexists; split; [reflexivity|]; split; [split; reflexivity | discriminate]].
  destruct (Hr ie sk eq_refl) as (H1 & H2 & H3). cbn [Nat.add] in H3.
  destruct (allocate _ _); [|do 2 eexists; split; [reflexivity|]; split; [split; reflexivity | discriminate]].
  cbn [content alloc_called].
  destruct (decode_string_total (content b) ie (ie - offset b - sk + 1) ltac:(lia)
    (S (length (content b))) (offset b + 1) [] ltac:(lia)) as (r & ip & -> & Hs).
  { rewrite seg_length by lia. unfold pairs. cbn [length].
    pose proof (skips_length _ (seg (content b) (offset b + 1) ie) (le_n _)) as Hk.
    rewrite seg_length in Hk by lia. lia. }
  cbn [obind]. destruct r as [out|];
    [|do 2 eexists; split; [reflexivity|]; split; [split; reflexivity | discriminate]].
  specialize (Hs out eq_refl). rewrite emit_ok by (simpl; lia). cbn [obind].
  do 2 eexists. split; [reflexivity|]. split; [split; reflexivity|].
  intros it' [= <-]. split; [cbn; lia|]. eexists. reflexivity.
Qed.
End Safe.

(** [strtod] uses no more characters than there are. *)
Class StrtodUses (D : CDouble) : Prop :=
  strtod_used : forall s, (snd (strtod s) <= length s)%nat.

Lemma parse_number_total `{D : CDouble} {U : StrtodUses D} it b :
  (offset b <= length (content b))%nat ->
  exists r b', parse_number it b = Ret (r, b') /\ same_text b b' /\
  (forall it', r = Some it' -> (offset b < offset b' <= length (content b))%nat /\
     exists d, it' = mkItem cJSON_Number (valuestring it) (saturate d) d (string it) (child it)).
Proof.
  intros Ho. unfold parse_number. destruct (copy_number_total b 63 0) as (s & -> & Hs). cbn [obind].
  specialize (Hs ltac:(lia)). pose proof (strtod_used s) as Hu.
  destruct (strtod s) as [d used]. cbn [snd] in Hu.
  destruct (Nat.eqb_spec used 0); do 2 eexists; (split; [reflexivity|]); (split; [split; reflexivity|]);
    [discriminate|].
  intros it' [= <-]. split; [cbn; lia|]. eexists. reflexivity.
Qed.
