(* ===== verification/JsonParse.v ===== *)
(** * JSON parser (JSON/cJSON.c)

    [parse_value], [parse_array], [parse_object] and the entry points.  The
    recursion takes fuel; [cJSON_ParseWithOpts] gives five times the length of
    the text, which [parse_all] shows to be enough for every text. *)

From S2P Require Import Prelude JsonText JsonSafe.

Local Open Scope Z_scope.

Section Parse.
Context `{D : CDouble} `{A : Allocator}.

Definition text_null : list Z := [110; 117; 108; 108].
Definition text_false : list Z := [102; 97; 108; 115; 101].
Definition text_true : list Z := [116; 114; 117; 101].

(** [can_read(b, n) && strncmp(buffer_at_offset(b), s, n) == 0] *)
Definition reads (b : parse_buffer) (s : list Z) : outcome bool :=
  if can_read b (length s) then lit_at b 0 s else Ret false.

(** [can_access_at_index(b, 0) && buffer_at_offset(b)[0] == c] *)
Definition next_is (b : parse_buffer) (c : Z) : outcome bool :=
  if can_access_at_index b 0 then let! x := peek b 0 in Ret (x =? c) else Ret false.

Definition next_is_number (b : parse_buffer) : outcome bool :=
  if can_access_at_index b 0 then
    let! x := peek b 0 in Ret ((x =? 45) || ((48 <=? x) && (x <=? 57)))
  else Ret false.

(** [item->type = t; item->child = head;] *)
Definition set_children (it : item) (t : Z) (head : list item) : item :=
  mkItem t (valuestring it) (valueint it) (valuedouble it) (string it) head.

(** [item->string = item->valuestring; item->valuestring = NULL;] *)
Definition swap_name (it : item) : item :=
  mkItem (type it) None (valueint it) (valuedouble it) (valuestring it) (child it).

(** The end of [parse_array] and [parse_object]. *)
Definition close_list (it : item) (t : Z) (head : list item) (b : parse_buffer) : option item * parse_buffer :=
  (Some (set_children it t head), at_offset (at_depth b (depth b - 1)) (S (offset b))).

(** From the bracket to the first element.  [inl true]: the list is empty;
    [inl false]: the text ended; [inr b]: the offset is in front of the first
    element. *)
Definition open_list (b : parse_buffer) (close : Z) : outcome (bool * parse_buffer + parse_buffer) :=
  let! b := buffer_skip_whitespace (at_offset b (S (offset b))) in
  let! e := next_is b close in
  if (e : bool) then Ret (inl (true, b))
  else if negb (can_access_at_index b 0) then Ret (inl (false, at_offset b (offset b - 1)))
  else Ret (inr (at_offset b (offset b - 1))).

(** [None]: the function returns false. *)
Fixpoint parse_value (fuel : nat) (it : item) (b : parse_buffer) {struct fuel}
  : outcome (option item * parse_buffer) :=
  match fuel with
  | O => Crash Diverge
  | S f =>
      let! r := reads b text_null in
      if (r : bool) then Ret (Some (set_type it cJSON_NULL), at_offset b (offset b + 4))
      else
      let! r := reads b text_false in
      if (r : bool) then Ret (Some (set_type it cJSON_False), at_offset b (offset b + 5))
      else
      let! r := reads b text_true in
      if (r : bool) then
        Ret (Some (mkItem cJSON_True (valuestring it) 1 (valuedouble it) (string it) (child it)),
             at_offset b (offset b + 4))
      else
      let! r := next_is b 34 in
      if (r : bool) then parse_string it b
      else
      let! r := next_is_number b in
      if (r : bool) then parse_number it b
      else
      let! r := next_is b 91 in
      if (r : bool) then parse_array f it b
      else
      let! r := next_is b 123 in
      if (r : bool) then parse_object f it b
      else Ret (None, b)
  end
with parse_array (fuel : nat) (it : item) (b : parse_buffer) {struct fuel}
  : outcome (option item * parse_buffer) :=
  match fuel with
  | O => Crash Diverge
  | S f =>
      if (CJSON_NESTING_LIMIT <=? depth b)%nat then Ret (None, b)
      else
        let b := at_depth b (S (depth b)) in
        let! c := peek b 0 in
        if negb (c =? 91) then Ret (None, b)
        else
          let! o := open_list b 93 in
          match o with
          | inl (true, b) => Ret (close_list it cJSON_Array [] b)
          | inl (false, b) => Ret (None, b)
          | inr b => array_loop f it [] b
          end
  end
with array_loop (fuel : nat) (it : item) (head : list item) (b : parse_buffer) {struct fuel}
  : outcome (option item * parse_buffer) :=
  match fuel with
  | O => Crash Diverge
  | S f =>
      let '(n, b) := cJSON_New_Item b in
      match n with
      | None => Ret (None, b)
      | Some new_item =>
          let! b := buffer_skip_whitespace (at_offset b (S (offset b))) in
          let! (r, b) := parse_value f new_item b in
          match r with
          | None => Ret (None, b)
          | Some current_item =>
              let head := head ++ [current_item] in
              let! b := buffer_skip_whitespace b in
              let! comma := next_is b 44 in
              if (comma : bool) then array_loop f it head b
              else
                let! fin := next_is b 93 in
                if (fin : bool) then Ret (close_list it cJSON_Array head b) else Ret (None, b)
          end
      end
  end
with parse_object (fuel : nat) (it : item) (b : parse_buffer) {struct fuel}
  : outcome (option item * parse_buffer) :=
  match fuel with
  | O => Crash Diverge
  | S f =>
      if (CJSON_NESTING_LIMIT <=? depth b)%nat then Ret (None, b)
      else
        let b := at_depth b (S (depth b)) in
        let! brace := next_is b 123 in
        if negb brace then Ret (None, b)
        else
          let! o := open_list b 125 in
          match o with
          | inl (true, b) => Ret (close_list it cJSON_Object [] b)
          | inl (false, b) => Ret (None, b)
          | inr b => object_loop f it [] b
          end
  end
with object_loop (fuel : nat) (it : item) (head : list item) (b : parse_buffer) {struct fuel}
  : outcome (option item * parse_buffer) :=
  match fuel with
  | O => Crash Diverge
  | S f =>
      let '(n, b) := cJSON_New_Item b in
      match n with
      | None => Ret (None, b)
      | Some new_item =>
          let! b := buffer_skip_whitespace (at_offset b (S (offset b))) in
          let! (r, b) := parse_string new_item b in
          match r with
          | None => Ret (None, b)
          | Some named =>
              let! b := buffer_skip_whitespace b in
              let current_item := swap_name named in
              let! colon := next_is b 58 in
              if negb colon then Ret (None, b)
              else
                let! b := buffer_skip_whitespace (at_offset b (S (offset b))) in
                let! (r, b) := parse_value f current_item b in
                match r with
                | None => Ret (None, b)
                | Some current_item =>
                    let head := head ++ [current_item] in
                    let! b := buffer_skip_whitespace b in
                    let! comma := next_is b 44 in
                    if (comma : bool) then object_loop f it head b
                    else
                      let! fin := next_is b 125 in
                      if (fin : bool) then Ret (close_list it cJSON_Object head b) else Ret (None, b)
                end
          end
      end
  end.

(** Unfolding. *)
Lemma parse_array_S f it b :
  parse_array (S f) it b =
  if (CJSON_NESTING_LIMIT <=? depth b)%nat then Ret (None, b)
  else
    let b := at_depth b (S (depth b)) in
    let! c := peek b 0 in
    if negb (c =? 91) then Ret (None, b)
    else
      let! o := open_list b 93 in
      match o with
      | inl (true, b) => Ret (close_list it cJSON_Array [] b)
      | inl (false, b) => Ret (None, b)
      | inr b => array_loop f it [] b
      end.
Proof. reflexivity. Qed.

Lemma parse_object_S f it b :
  parse_object (S f) it b =
  if (CJSON_NESTING_LIMIT <=? depth b)%nat then Ret (None, b)
  else
    let b := at_depth b (S (depth b)) in
    let! brace := next_is b 123 in
    if negb brace then Ret (None, b)
    else
      let! o := open_list b 125 in
      match o with
      | inl (true, b) => Ret (close_list it cJSON_Object [] b)
      | inl (false, b) => Ret (None, b)
      | inr b => object_loop f it [] b
      end.
Proof. reflexivity. Qed.

(** One turn of the loops. *)
Lemma array_loop_S f it head b :
  array_loop (S f) it head b =
  let '(n, b) := cJSON_New_Item b in
  match n with
  | None => Ret (None, b)
  | Some new_item =>
      let! b := buffer_skip_whitespace (at_offset b (S (offset b))) in
      let! (r, b) := parse_value f new_item b in
      match r with
      | None => Ret (None, b)
      | Some current_item =>
          let head := head ++ [current_item] in
          let! b := buffer_skip_whitespace b in
          let! comma := next_is b 44 in
          if (comma : bool) then array_loop f it head b
          else
            let! fin := next_is b 93 in
            if (fin : bool) then Ret (close_list it cJSON_Array head b) else Ret (None, b)
      end
  end.
Proof. reflexivity. Qed.

Lemma object_loop_S f it head b :
  object_loop (S f) it head b =
  let '(n, b) := cJSON_New_Item b in
  match n with
  | None => Ret (None, b)
  | Some new_item =>
      let! b := buffer_skip_whitespace (at_offset b (S (offset b))) in
      let! (r, b) := parse_string new_item b in
      match r with
      | None => Ret (None, b)
      | Some named =>
          let! b := buffer_skip_whitespace b in
          let current_item := swap_name named in
          let! colon := next_is b 58 in
          if negb colon then Ret (None, b)
          else
            let! b := buffer_skip_whitespace (at_offset b (S (offset b))) in
            let! (r, b) := parse_value f current_item b in
            match r with
            | None => Ret (None, b)
            | Some current_item =>
                let head := head ++ [current_item] in
                let! b := buffer_skip_whitespace b in
                let! comma := next_is b 44 in
                if (comma : bool) then object_loop f it head b
                else
                  let! fin := next_is b 125 in
                  if (fin : bool) then Ret (close_list it cJSON_Object head b) else Ret (None, b)
            end
      end
  end.
Proof. reflexivity. Qed.

(** The result of a parse: the item or NULL, the position in [global_error], and
    the position [*return_parse_end] gets if it is written. *)
Record parsed := mkParsed { root : option item; error_position : nat; parse_end : option nat }.

Definition parse_fuel (s : list Z) : nat := (5 * length s + 5)%nat.

(** The exit [fail]. *)
Definition parse_failed (b : parse_buffer) : parsed :=
  let n := length (content b) in
  let pos := if (offset b <? n)%nat then offset b else if (0 <? n)%nat then (n - 1)%nat else O in
  mkParsed None pos (Some pos).

(** [value] is NULL or the text with its terminator, so that [buffer.length] is
    the length of the text. *)
Definition cJSON_ParseWithOpts (value : option (list Z)) (require_null_terminated : bool) : outcome parsed :=
  match value with
  | None => Ret (mkParsed None 0 None)
  | Some value =>
  let b := mkPB value 0 0 0 in
  let '(n, b) := cJSON_New_Item b in
  match n with
  | None => Ret (parse_failed b)
  | Some it =>
      let! o := skip_utf8_bom b in
      match o with
      | None => Ret (parse_failed b)
      | Some b =>
          let! b := buffer_skip_whitespace b in
          let! (r, b) := parse_value (parse_fuel value) it b in
          match r with
          | None => Ret (parse_failed b)
          | Some it =>
              if require_null_terminated then
                let! b := buffer_skip_whitespace b in
                if (length (content b) <=? offset b)%nat then Ret (parse_failed b)
                else
                  let! c := peek b 0 in
                  if negb (c =? 0) then Ret (parse_failed b)
                  else Ret (mkParsed (Some it) 0 (Some (offset b)))
              else Ret (mkParsed (Some it) 0 (Some (offset b)))
          end
      end
  end
  end.

Definition cJSON_Parse (value : option (list Z)) : outcome parsed := cJSON_ParseWithOpts value false.
End Parse.

(** ** JSON values and the items that stand for them *)
Section Values.
Context `{D : CDouble} `{A : Allocator}.

#[warnings="-register-all"]
Inductive json :=
| JNull
| JFalse
| JTrue
| JNum (d : double)
| JStr (s : list Z)
| JArr (l : list json)
| JObj (l : list (list Z * json)).

Fixpoint item_of (name : option (list Z)) (j : json) : item :=
  match j with
  | JNull => mkItem cJSON_NULL None 0 d_zero name []
  | JFalse => mkItem cJSON_False None 0 d_zero name []
  | JTrue => mkItem cJSON_True None 1 d_zero name []
  | JNum d => mkItem cJSON_Number None (saturate d) d name []
  | JStr s => mkItem cJSON_String (Some s) 0 d_zero name []
  | JArr l => mkItem cJSON_Array None 0 d_zero name (map (item_of None) l)
  | JObj l => mkItem cJSON_Object None 0 d_zero name
                (map (fun kv => item_of (Some (fst kv)) (snd kv)) l)
  end.

Definition member_item (kv : list Z * json) : item := item_of (Some (fst kv)) (snd kv).

(** How deeply arrays and objects are nested. *)
Fixpoint height (j : json) : nat :=
  match j with
  | JArr l => S (max_list (map height l))
  | JObj l => S (max_list (map (fun kv => height (snd kv)) l))
  | _ => 0
  end%nat.

(** An item in which only the type and the name may have been set. *)
Definition blank (it : item) (name : option (list Z)) : Prop :=
  exists t, it = mkItem t None 0 d_zero name [].

(** ** The parser returns on every text *)

(** A result that is [None] or the item of a value no deeper than allowed, with
    the offset moved on. *)
Definition good (b : parse_buffer) (d : nat) (name : option (list Z)) (r : option item)
    (b' : parse_buffer) : Prop :=
  content b' = content b /\
  forall it', r = Some it' -> depth b' = d /\ (offset b < offset b' <= length (content b))%nat /\
    exists j, it' = item_of name j /\ (height j + d <= CJSON_NESTING_LIMIT)%nat.

Lemma good_None b d name b' : content b' = content b -> good b d name None b'.
Proof. intros H. split; [exact H | discriminate]. Qed.

Lemma next_is_spec b c : exists r, next_is b c = Ret r /\
  (r = true -> content b !! offset b = Some c).
Proof.
  unfold next_is, can_access_at_index. rewrite Nat.add_0_r.
  destruct (Nat.ltb_spec (offset b) (length (content b))) as [H|];
    [|exists false; split; [reflexivity | discriminate]].
  destruct (peek_total b 0 ltac:(lia)) as (x & -> & Ex). rewrite Nat.add_0_r in Ex. cbn [obind].
  exists (x =? c). split; [reflexivity|]. intros E. apply Z.eqb_eq in E as ->. exact Ex.
Qed.

Lemma next_is_number_spec b : exists r, next_is_number b = Ret r /\
  (r = true -> (offset b < length (content b))%nat).
Proof.
  unfold next_is_number, can_access_at_index. rewrite Nat.add_0_r.
  destruct (Nat.ltb_spec (offset b) (length (content b))) as [H|];
    [|exists false; split; [reflexivity | discriminate]].
  destruct (peek_total b 0 ltac:(lia)) as (x & -> & _). eexists. split; [reflexivity|]. auto.
Qed.

Lemma reads_spec b s : exists r, reads b s = Ret r /\
  (r = true -> (offset b + length s <= length (content b))%nat).
Proof.
  unfold reads, can_read.
  destruct (Nat.leb_spec (offset b + length s) (length (content b))) as [H|];
    [|exists false; split; [reflexivity | discriminate]].
  destruct (lit_total b s 0 ltac:(lia)) as [r ->]. exists r. split; [reflexivity | auto].
Qed.

(** At the terminator no value starts. *)
Lemma parse_value_end f it b :
  content b !! offset b = Some 0 -> S (offset b) = length (content b) ->
  parse_value (S f) it b = Ret (None, b).
Proof.
  intros E Hl. cbn [parse_value].
  assert (Hr : forall c s, c <> 0 -> reads b (c :: s) = Ret false).
  { intros c s Hc. unfold reads. destruct (can_read b _); [|reflexivity].
    cbn [lit_at]. unfold peek, get8. rewrite Nat.add_0_r, E. cbn [obind]. zcase; [lia | reflexivity]. }
  assert (Hn : forall c, c <> 0 -> next_is b c = Ret false).
  { intros c Hc. unfold next_is. destruct (can_access_at_index b 0); [|reflexivity].
    unfold peek, get8. rewrite Nat.add_0_r, E. cbn [obind]. zcase; [lia | reflexivity]. }
  unfold text_null, text_false, text_true. rewrite !Hr, !Hn by lia. cbn [obind].
  unfold next_is_number, peek, get8. destruct (can_access_at_index b 0); [|reflexivity].
  rewrite Nat.add_0_r, E. reflexivity.
Qed.

Context {U : StrtodUses D}.

(** What each function promises with fuel [f]. *)
Definition value_ok (f : nat) : Prop := forall it b name,
  blank it name -> terminated (content b) -> (offset b < length (content b))%nat ->
  (depth b <= CJSON_NESTING_LIMIT)%nat ->
  (4 * (length (content b) - offset b) + 1 <= f)%nat ->
  exists r b', parse_value f it b = Ret (r, b') /\ good b (depth b) name r b'.

Definition list_ok (parse : nat -> item -> parse_buffer -> outcome (option item * parse_buffer))
    (f : nat) : Prop := forall it b name,
  blank it name -> terminated (content b) -> (offset b < length (content b))%nat ->
  (4 * (length (content b) - offset b) <= f)%nat ->
  exists r b', parse f it b = Ret (r, b') /\ good b (depth b) name r b'.

(** The loops run one level deeper than the array or object they fill; [mk] and
    [elt] are its constructor and the item of an element. *)
Definition loop_ok {E : Type} (mk : list E -> json) (elt : E -> item)
    (loop : nat -> item -> list item -> parse_buffer -> outcome (option item * parse_buffer))
    (f : nat) : Prop := forall it b name js,
  blank it name -> terminated (content b) -> (offset b < length (content b))%nat ->
  (1 <= depth b <= CJSON_NESTING_LIMIT)%nat ->
  (height (mk js) + (depth b - 1) <= CJSON_NESTING_LIMIT)%nat ->
  (4 * (length (content b) - offset b) - 1 <= f)%nat ->
  exists r b', loop f it (map elt js) b = Ret (r, b') /\ good b (depth b - 1) name r b'.

Lemma good_leaf b name k j :
  (1 <= k)%nat -> (offset b + k <= length (content b))%nat ->
  (depth b <= CJSON_NESTING_LIMIT)%nat -> height j = O ->
  good b (depth b) name (Some (item_of name j)) (at_offset b (offset b + k)).
Proof.
  intros Hk Hk' Hd Hj. split; [reflexivity|]. intros it' [= <-]. split; [reflexivity|].
  split; [cbn; lia|]. exists j. split; [reflexivity | lia].
Qed.

Lemma value_step f : list_ok parse_array f -> list_ok parse_object f -> value_ok (S f).
Proof.
  intros Ha Ho it b name [t ->] Ht Hlt Hd Hf. cbn [parse_value].
  destruct (reads_spec b text_null) as ([|] & -> & H1); cbn [obind].
  { do 2 eexists. split; [reflexivity|]. apply (good_leaf b name 4 JNull); auto; lia. }
  destruct (reads_spec b text_false) as ([|] & -> & H2); cbn [obind].
  { do 2 eexists. split; [reflexivity|]. apply (good_leaf b name 5 JFalse); auto; lia. }
  destruct (reads_spec b text_true) as ([|] & -> & H3); cbn [obind].
  { do 2 eexists. split; [reflexivity|]. apply (good_leaf b name 4 JTrue); auto; lia. }
  destruct (next_is_spec b 34) as ([|] & -> & _); cbn [obind].
  { destruct (parse_string_total (mkItem t None 0 d_zero name []) b Hlt) as (r & b' & -> & [Hc Hdp] & Hs).
    do 2 eexists. split; [reflexivity|]. split; [exact Hc|]. intros it' E.
    destruct (Hs it' E) as (Hlo & out & ->). split; [exact Hdp|]. split; [exact Hlo|].
    exists (JStr out). split; [reflexivity | exact Hd]. }
  destruct (next_is_number_spec b) as ([|] & -> & _); cbn [obind].
  { destruct (parse_number_total (mkItem t None 0 d_zero name []) b ltac:(lia))
      as (r & b' & -> & [Hc Hdp] & Hs).
    do 2 eexists. split; [reflexivity|]. split; [exact Hc|]. intros it' E.
    destruct (Hs it' E) as (Hlo & d & ->). split; [exact Hdp|]. split; [exact Hlo|].
    exists (JNum d). split; [reflexivity | exact Hd]. }
  destruct (next_is_spec b 91) as ([|] & -> & _); cbn [obind].
  { apply Ha; [exists t; reflexivity | exact Ht | exact Hlt | lia]. }
  destruct (next_is_spec b 123) as ([|] & -> & _); cbn [obind].
  { apply Ho; [exists t; reflexivity | exact Ht | exact Hlt | lia]. }
  do 2 eexists. split; [reflexivity|]. apply good_None. reflexivity.
Qed.

(** The buffer in front of the first element of a list, or its end. *)
Lemma open_list_spec b close :
  (S (offset b) < length (content b))%nat ->
  exists o, open_list b close = Ret o /\
  match o with
  | inl (true, b') => content b' = content b /\ depth b' = depth b /\
                      (offset b <= offset b' < length (content b))%nat /\
                      content b !! offset b' = Some close
  | inl (false, b') => content b' = content b
  | inr b' => content b' = content b /\ depth b' = depth b /\
              (offset b <= offset b' < length (content b))%nat
  end.
Proof.
  intros Hlt. unfold open_list.
  destruct (skip_spec (at_offset b (S (offset b)))) as (o & -> & Ho & Hmono); [simpl; lia.. |].
  cbn [obind]. simpl in Ho, Hmono. set (b1 := at_offset (at_offset b (S (offset b))) o).
  destruct (next_is_spec b1 close) as ([|] & -> & Hc); cbn [obind].
  - eexists. split; [reflexivity|]. specialize (Hc eq_refl). simpl in Hc. subst b1. simpl.
    repeat split; try lia. exact Hc.
  - unfold can_access_at_index. rewrite Nat.add_0_r. subst b1. cbn [offset content at_offset].
    rewrite (proj2 (Nat.ltb_lt _ _) Ho). cbn [negb]. eexists. split; [reflexivity|]. simpl.
    repeat split; lia.
Qed.

Lemma blank_children it name t head :
  blank it name -> set_children it t head = mkItem t None 0 d_zero name head.
Proof. intros [t0 ->]. reflexivity. Qed.

(** Closing a list yields its item. *)
Lemma close_list_good b0 b it name t j head d :
  blank it name -> item_of name j = mkItem t None 0 d_zero name head ->
  content b = content b0 -> depth b = S d -> (offset b0 <= offset b < length (content b0))%nat ->
  (height j + d <= CJSON_NESTING_LIMIT)%nat ->
  good b0 d name (fst (close_list it t head b)) (snd (close_list it t head b)).
Proof.
  intros Hb Hj Hc Hd Ho Hh. split; [exact Hc|]. cbn [fst snd close_list].
  intros it' [= <-]. split; [simpl; lia|]. split; [simpl; lia|].
  exists j. rewrite (blank_children _ _ _ _ Hb). auto.
Qed.

Lemma good_weaken b b0 d name r b' :
  content b = content b0 -> (offset b0 <= offset b)%nat -> good b d name r b' -> good b0 d name r b'.
Proof.
  intros Hc Ho [H1 H2]. split; [congruence|]. intros it' E. destruct (H2 it' E) as (? & ? & ?).
  rewrite Hc in *. split; [assumption|]. split; [lia | assumption].
Qed.

(** From the opening bracket on, arrays and objects do the same. *)
Lemma list_body {E : Type} (mk : list E -> json) (elt : E -> item) loop close t f it b name c :
  loop_ok mk elt loop f -> height (mk []) = 1%nat ->
  item_of name (mk []) = mkItem t None 0 d_zero name [] ->
  blank it name -> terminated (content b) -> content b !! offset b = Some c -> c <> 0 ->
  (depth b < CJSON_NESTING_LIMIT)%nat -> (4 * (length (content b) - offset b) - 1 <= f)%nat ->
  exists r b', (let! o := open_list (at_depth b (S (depth b))) close in
                match o with
                | inl (true, b) => Ret (close_list it t [] b)
                | inl (false, b) => Ret (None, b)
                | inr b => loop f it [] b
                end) = Ret (r, b') /\ good b (depth b) name r b'.
Proof.
  intros Hl H1 Hi Hb Ht Hc Hc0 Hd Hf. pose proof (terminated_last _ _ _ Ht Hc Hc0) as Hlt.
  destruct (open_list_spec (at_depth b (S (depth b))) close Hlt) as (o & -> & Ho). cbn [obind].
  destruct o as [[[|] b']|b']; cbn [content depth offset at_depth] in Ho.
  - destruct Ho as (H2 & H3 & H4 & _). exists (fst (close_list it t [] b')), (snd (close_list it t [] b')).
    split; [reflexivity|]. apply (close_list_good b b' it name t (mk [])); auto. lia.
  - exists None, b'. split; [reflexivity|]. apply good_None, Ho.
  - destruct Ho as (H2 & H3 & H4).
    destruct (Hl it b' name [] Hb) as (r & b2 & E2 & G); rewrite ?H2, ?H3; try assumption; try lia.
    exists r, b2. split; [exact E2|]. rewrite H3 in G. simpl in G. rewrite Nat.sub_0_r in G.
    apply (good_weaken b'); auto. lia.
Qed.

Lemma array_step f : loop_ok JArr (item_of None) array_loop f -> list_ok parse_array (S f).
Proof.
  intros Hl it b name Hb Ht Hlt Hf. cbn [parse_array].
  destruct (Nat.leb_spec CJSON_NESTING_LIMIT (depth b)) as [|Hd].
  { do 2 eexists. split; [reflexivity|]. apply good_None. reflexivity. }
  cbn zeta. destruct (peek_total (at_depth b (S (depth b))) 0) as (c & -> & Ec); [simpl; lia|].
  cbn [obind]. simpl in Ec. rewrite Nat.add_0_r in Ec.
  destruct (Z.eqb_spec c 91) as [->|]; cbn [negb].
  - apply (list_body JArr (item_of None) array_loop 93 cJSON_Array f it b name 91); auto; lia.
  - do 2 eexists. split; [reflexivity|]. apply good_None. reflexivity.
Qed.

Lemma object_step f : loop_ok JObj member_item object_loop f -> list_ok parse_object (S f).
Proof.
  intros Hl it b name Hb Ht Hlt Hf. cbn [parse_object].
  destruct (Nat.leb_spec CJSON_NESTING_LIMIT (depth b)) as [|Hd].
  { do 2 eexists. split; [reflexivity|]. apply good_None. reflexivity. }
  cbn zeta. destruct (next_is_spec (at_depth b (S (depth b))) 123) as ([|] & -> & Hc); cbn [obind negb].
  - apply (list_body JObj member_item object_loop 125 cJSON_Object f it b name 123); auto; lia.
  - do 2 eexists. split; [reflexivity|]. apply good_None. reflexivity.
Qed.

Lemma height_app_arr js j : height (JArr (js ++ [j])) = Nat.max (height (JArr js)) (S (height j)).
Proof.
  cbn [height]. rewrite map_app. induction js as [|x js IH]; cbn in *; lia.
Qed.

Lemma height_app_obj js k j : height (JObj (js ++ [(k, j)])) = Nat.max (height (JObj js)) (S (height j)).
Proof.
  cbn [height]. rewrite map_app. induction js as [|x js IH]; cbn in *; lia.
Qed.

(** A value behind a bracket, a comma or a colon at offset [o]; when the text
    ends there, the white space skipped leads to the terminator. *)
Lemma value_after f it b name :
  value_ok f -> blank it name -> terminated (content b) -> (offset b < length (content b))%nat ->
  (depth b <= CJSON_NESTING_LIMIT)%nat -> (4 * (length (content b) - offset b) - 2 <= f)%nat ->
  exists b1 r b', buffer_skip_whitespace (at_offset b (S (offset b))) = Ret b1 /\
    parse_value f it b1 = Ret (r, b') /\ good b (depth b) name r b' /\ 
    (forall it', r = Some it' -> (S (offset b) < offset b')%nat).
Proof.
  intros Hv Hb Ht Hlt Hd Hf.
  destruct (skip_spec (at_offset b (S (offset b)))) as (o & E & Ho & Hmono); [simpl; lia.. |].
  simpl in Ho, Hmono. exists (at_offset b o). rewrite E.
  destruct (Nat.eq_dec (S o) (length (content b))) as [Hend|Hend].
  - exists None, (at_offset b o). split; [reflexivity|].
    destruct f as [|f]; [lia|]. split.
    + apply parse_value_end; [|exact Hend]. destruct Ht as (t & Et & _). simpl.
      rewrite Et in Hend |- *. rewrite length_app in Hend. simpl in Hend.
      rewrite lookup_app_r by lia. replace (o - length t)%nat with O by lia. reflexivity.
    + split; [apply good_None; reflexivity | discriminate].
  - destruct Hmono as [Hmono|]; [|lia].
    destruct (Hv it (at_offset b o) name Hb) as (r & b' & E2 & G); [simpl; auto; lia.. |].
    exists r, b'. split; [reflexivity|]. split; [exact E2|]. split.
    + apply (good_weaken (at_offset b o)); [reflexivity | simpl; lia | exact G].
    + intros it' Er. destruct G as [_ G]. destruct (G it' Er) as (_ & G2 & _). simpl in G2. lia.
Qed.

(** The common end of a turn of the two loops, after an element was parsed. *)
Lemma loop_tail {E : Type} (mk : list E -> json) (elt : E -> item) loop close t f it b0 b name js d :
  loop_ok mk elt loop f ->
  item_of name (mk js) = mkItem t None 0 d_zero name (map elt js) ->
  blank it name -> terminated (content b0) -> content b = content b0 ->
  depth b = S d -> (S d <= CJSON_NESTING_LIMIT)%nat ->
  (height (mk js) + d <= CJSON_NESTING_LIMIT)%nat ->
  (S (offset b0) < offset b <= length (content b0))%nat ->
  (4 * (length (content b0) - offset b0) - 2 <= f)%nat ->
  exists r b', (let! b := buffer_skip_whitespace b in
                let! comma := next_is b 44 in
                if (comma : bool) then loop f it (map elt js) b
                else let! fin := next_is b close in
                     if (fin : bool) then Ret (close_list it t (map elt js) b) else Ret (None, b))
               = Ret (r, b') /\ good b0 d name r b'.
Proof.
  intros Hl Hi Hb Ht Hc Hd Hd1 Hh Ho Hf. rewrite <- Hc in Ht.
  destruct (skip_spec b) as (o & -> & Hlt & Hm); [rewrite Hc; lia.. |]. cbn [obind].
  destruct (next_is_spec (at_offset b o) 44) as ([|] & -> & Hcom); cbn [obind].
  - specialize (Hcom eq_refl). simpl in Hcom.
    pose proof (terminated_last _ _ _ Ht Hcom ltac:(lia)) as Hnl.
    destruct (Hl it (at_offset b o) name js Hb) as (r & b' & E2 & G);
      cbn [content depth offset at_offset]; rewrite ?Hd, ?Hc in *; try assumption; try lia.
    exists r, b'. split; [exact E2|]. cbn [depth at_offset] in G. rewrite Hd in G.
    cbn [Nat.sub] in G. rewrite Nat.sub_0_r in G.
    apply (good_weaken (at_offset b o)); [exact Hc | simpl; lia | exact G].
  - destruct (next_is_spec (at_offset b o) close) as ([|] & -> & _); cbn [obind].
    + exists (fst (close_list it t (map elt js) (at_offset b o))),
             (snd (close_list it t (map elt js) (at_offset b o))). split; [reflexivity|].
      apply (close_list_good b0 (at_offset b o) it name t (mk js)); auto. simpl.
      rewrite Hc in *. lia.
    + exists None, (at_offset b o). split; [reflexivity|]. apply good_None, Hc.
Qed.

Lemma blank0 : blank item0 None.
Proof. exists 0. reflexivity. Qed.

Lemma array_loop_step f :
  value_ok f -> loop_ok JArr (item_of None) array_loop f -> loop_ok JArr (item_of None) array_loop (S f).
Proof.
  intros Hv Hl it b name js Hb Ht Hlt Hd Hh Hf. rewrite array_loop_S. unfold cJSON_New_Item.
  destruct (allocate _ _).
  2:{ do 2 eexists. split; [reflexivity|]. apply good_None. reflexivity. }
  destruct (value_after f item0 (alloc_called b) None Hv blank0 Ht Hlt) as (b1 & r & b2 & -> & E2 & G & Hs);
    [simpl; lia.. |].
  cbn [obind]. rewrite E2. cbn [obind]. destruct r as [it1|].
  2:{ do 2 eexists. split; [reflexivity|]. apply good_None. apply G. }
  destruct G as [Hc G]. destruct (G it1 eq_refl) as (Hd2 & Ho2 & j & -> & Hj). simpl in Hc, Hd2, Ho2, Hj.
  specialize (Hs _ eq_refl). simpl in Hs.
  replace (map (item_of None) js ++ [item_of None j]) with (map (item_of None) (js ++ [j]))
    by apply map_app.
  apply (loop_tail JArr (item_of None) array_loop 93 cJSON_Array f it b b2 name (js ++ [j]) (depth b - 1));
    try assumption; try reflexivity; try lia.
  rewrite height_app_arr. lia.
Qed.

Lemma object_loop_step f :
  value_ok f -> loop_ok JObj member_item object_loop f -> loop_ok JObj member_item object_loop (S f).
Proof.
  intros Hv Hl it b name js Hb Ht Hlt Hd Hh Hf. rewrite object_loop_S. unfold cJSON_New_Item.
  destruct (allocate _ _).
  2:{ do 2 eexists. split; [reflexivity|]. apply good_None. reflexivity. }
  destruct (skip_spec (at_offset (alloc_called b) (S (offset (alloc_called b))))) as (o & -> & Ho & Hm);
    [simpl; lia.. |].
  cbn [obind]. simpl in Ho, Hm.
  set (b1 := at_offset (at_offset (alloc_called b) (S (offset (alloc_called b)))) o).
  destruct (parse_string_total item0 b1 Ho) as (r & b2 & -> & [Hc2 Hd2] & Hs). cbn [obind].
  destruct r as [it1|].
  2:{ do 2 eexists. split; [reflexivity|]. apply good_None, Hc2. }
  destruct (Hs it1 eq_refl) as (Ho2 & key & ->). clear Hs. simpl in Hc2, Hd2, Ho2.
  cbn [valueint valuedouble string child item0].
  destruct (skip_spec b2) as (o3 & -> & Ho3 & Hm3); [rewrite Hc2; lia.. |]. cbn [obind].
  destruct (next_is_spec (at_offset b2 o3) 58) as ([|] & -> & Hcol); cbn [obind negb].
  2:{ do 2 eexists. split; [reflexivity|]. apply good_None, Hc2. }
  specialize (Hcol eq_refl). simpl in Hcol. rewrite Hc2 in *.
  pose proof (terminated_last _ _ _ Ht Hcol ltac:(lia)) as Hnl.
  destruct (value_after f (swap_name (mkItem cJSON_String (Some key) 0 d_zero None [])) (at_offset b2 o3)
    (Some key) Hv) as (b4 & r & b5 & -> & E5 & G & Hs5);
    cbn [content depth offset at_offset]; rewrite ?Hc2, ?Hd2; try assumption; try lia.
  { exists cJSON_String. reflexivity. }
  cbn [obind]. rewrite E5. cbn [obind]. destruct r as [it1|].
  2:{ do 2 eexists. split; [reflexivity|]. apply good_None. destruct G as [G _]. rewrite G. exact Hc2. }
  destruct G as [Hc G]. destruct (G it1 eq_refl) as (Hd5 & Ho5 & j & -> & Hj).
  cbn [content depth offset at_offset] in *. specialize (Hs5 _ eq_refl).
  replace (map member_item js ++ [item_of (Some key) j]) with (map member_item (js ++ [(key, j)]))
    by (rewrite map_app; reflexivity).
  rewrite Hc2 in *.
  apply (loop_tail JObj member_item object_loop 125 cJSON_Object f it b b5 name (js ++ [(key, j)])
    (depth b - 1)); try assumption; try reflexivity; try lia; try congruence.
  rewrite height_app_obj. lia.
Qed.

Lemma parse_all f : value_ok f /\ list_ok parse_array f /\ list_ok parse_object f /\
  loop_ok JArr (item_of None) array_loop f /\ loop_ok JObj member_item object_loop f.
Proof.
  induction f as [|f (H1 & H2 & H3 & H4 & H5)].
  - repeat split; repeat intro; exfalso; lia.
  - repeat split_and; auto using value_step, array_step, object_step, array_loop_step, object_loop_step.
Qed.
End Values.
