(* ===== verification/JsonPrint.v ===== *)
(** * JSON printer (JSON/cJSON.c)

    The growing output buffer and the rendering of items.  The block a
    [printbuffer] points to is the list of its bytes, so [p->length] is the
    length of that list; a write outside it is a crash. *)

From S2P Require Import Prelude JsonText.

Local Open Scope Z_scope.

Section Print.
Context `{D : CDouble} `{A : Allocator}.

(** [p_allocs] counts the calls of the allocator; [has_realloc] tells whether
    [hooks.reallocate] is set. *)
Record printbuffer := mkP {
  buffer : option (list Z); p_offset : nat; p_depth : nat; noalloc : bool; format : bool;
  has_realloc : bool; p_allocs : nat }.

Definition with_buffer (p : printbuffer) (m : option (list Z)) : printbuffer :=
  mkP m (p_offset p) (p_depth p) (noalloc p) (format p) (has_realloc p) (p_allocs p).
Definition with_offset (p : printbuffer) (o : nat) : printbuffer :=
  mkP (buffer p) o (p_depth p) (noalloc p) (format p) (has_realloc p) (p_allocs p).
Definition with_depth (p : printbuffer) (d : nat) : printbuffer :=
  mkP (buffer p) (p_offset p) d (noalloc p) (format p) (has_realloc p) (p_allocs p).
Definition called (p : printbuffer) : printbuffer :=
  mkP (buffer p) (p_offset p) (p_depth p) (noalloc p) (format p) (has_realloc p) (S (p_allocs p)).

(** Overwrite the bytes of [m] from index [i]. *)
Definition blit (m : list Z) (i : nat) (bs : list Z) : list Z := take i m ++ bs ++ drop (i + length bs) m.

(** [realloc]: the old contents as far as they fit, behind them whatever the
    new block holds. *)
Definition reallocate (n : nat) (old : list Z) (size : nat) : option (list Z) :=
  match allocate n size with
  | Some m => Some (take size old ++ drop (length old) m)
  | None => None
  end.

(** The size [ensure] asks for, if it may. *)
Definition new_size (needed : nat) : option nat :=
  if INT_MAX / 2 <? Z.of_nat needed then
    if Z.of_nat needed <=? INT_MAX then Some (Z.to_nat INT_MAX) else None
  else Some (needed * 2)%nat.

(** [false]: NULL; else the pointer is [p->buffer + p->offset]. *)
Definition ensure (p : printbuffer) (needed : nat) : outcome (bool * printbuffer) :=
  match buffer p with
  | None => Ret (false, p)
  | Some m =>
      if ((0 <? length m) && (length m <=? p_offset p))%nat then Ret (false, p)
      else if INT_MAX <? Z.of_nat needed then Ret (false, p)
      else
        let needed := (needed + (p_offset p + 1))%nat in
        if (needed <=? length m)%nat then Ret (true, p)
        else if noalloc p then Ret (false, p)
        else
          match new_size needed with
          | None => Ret (false, p)
          | Some size =>
              if has_realloc p then
                match reallocate (p_allocs p) m size with
                | None => Ret (false, with_buffer (called p) None)
                | Some m' => Ret (true, with_buffer (called p) (Some m'))
                end
              else
                match allocate (p_allocs p) size with
                | None => Ret (false, with_buffer (called p) None)
                | Some m' =>
                    (* memcpy(newbuffer, p->buffer, p->offset + 1) *)
                    if (p_offset p + 1 <=? length m)%nat then
                      Ret (true, with_buffer (called p) (Some (blit m' 0 (take (p_offset p + 1) m))))
                    else Crash OutOfBounds
                end
          end
  end.

(** Store [bs] from index [i] of the block. *)
Definition store (p : printbuffer) (i : nat) (bs : list Z) : outcome printbuffer :=
  match buffer p with
  | None => Crash NullDeref
  | Some m => if (i + length bs <=? length m)%nat then Ret (with_buffer p (Some (blit m i bs)))
              else Crash OutOfBounds
  end.

(** [strlen] of the string at the head of a list. *)
Fixpoint strlen (m : list Z) : outcome nat :=
  match m with
  | [] => Crash OutOfBounds
  | c :: m' => if c =? 0 then Ret O else let! n := strlen m' in Ret (S n)
  end.

Definition update_offset (p : printbuffer) : outcome printbuffer :=
  match buffer p with
  | None => Ret p
  | Some m => let! n := strlen (drop (p_offset p) m) in Ret (with_offset p (p_offset p + n))
  end.

(** ** Numbers *)

(** [sprintf] into [number_buffer[26]]. *)
Definition sprintf26 (t : list Z) : outcome (list Z) :=
  if (length t <? 26)%nat then Ret t else Crash OutOfBounds.

Definition number_text (d : double) : outcome (list Z) :=
  if negb (d_eq (d_mul d d_zero) d_zero) then sprintf26 [110; 117; 108; 108]
  else
    let! t := sprintf26 (sprintf_g 15 d) in
    let recovered := match sscanf_lg t with Some test => compare_double test d | None => false end in
    if recovered then Ret t else sprintf26 (sprintf_g 17 d).

Definition print_number (it : item) (p : printbuffer) : outcome (bool * printbuffer) :=
  let! t := number_text (valuedouble it) in
  let! (ok, p) := ensure p (length t + 1) in
  if negb ok then Ret (false, p)
  else
    let t' := map (fun c => if c =? get_decimal_point then 46 else c) t in
    let! p := store p (p_offset p) (t' ++ [0]) in
    Ret (true, with_offset p (p_offset p + length t)).

(** ** Strings *)

(** A C string ends at its first zero byte. *)
Fixpoint cstr (s : list Z) : list Z :=
  match s with
  | [] => []
  | c :: s' => if c =? 0 then [] else c :: cstr s'
  end.

Definition one_char_escape (c : Z) : bool :=
  (c =? 34) || (c =? 92) || (c =? 8) || (c =? 12) || (c =? 10) || (c =? 13) || (c =? 9).

(** [escape_characters] *)
Fixpoint escape_count (s : list Z) : nat :=
  match s with
  | [] => 0
  | c :: s' => (if one_char_escape c then 1 else if (c <? 32)%Z then 5 else 0) + escape_count s'
  end%nat.

Definition hex_char (v : Z) : Z := if v <? 10 then 48 + v else 87 + v.

(** The character behind the backslash; [None]: the code point is printed. *)
Definition escape_letter (c : Z) : option Z :=
  if c =? 92 then Some 92
  else if c =? 34 then Some 34
  else if c =? 8 then Some 98
  else if c =? 12 then Some 102
  else if c =? 10 then Some 110
  else if c =? 13 then Some 114
  else if c =? 9 then Some 116
  else None.

(** The copy loop; [o] is the output pointer.  [sprintf] of [u%04x] also stores
    a terminator. *)
Fixpoint escape_loop (s : list Z) (p : printbuffer) (o : nat) : outcome printbuffer :=
  match s with
  | [] => Ret p
  | c :: s' =>
      if (31 <? c) && negb (c =? 34) && negb (c =? 92) then
        let! p := store p o [c] in escape_loop s' p (o + 1)
      else
        let! p := store p o [92] in
        match escape_letter c with
        | Some l => let! p := store p (o + 1) [l] in escape_loop s' p (o + 2)
        | None =>
            let! p := store p (o + 1) [117; 48; 48; hex_char (c / 16); hex_char (c mod 16); 0] in
            escape_loop s' p (o + 6)
        end
  end.

Definition print_string_ptr (input : option (list Z)) (p : printbuffer) : outcome (bool * printbuffer) :=
  match input with
  | None =>
      let! (ok, p) := ensure p 3 in
      if negb ok then Ret (false, p)
      else let! p := store p (p_offset p) [34; 34; 0] in Ret (true, p)
  | Some s =>
      let s := cstr s in
      let escape_characters := escape_count s in
      let output_length := (length s + escape_characters)%nat in
      let! (ok, p) := ensure p (output_length + 3) in
      if negb ok then Ret (false, p)
      else
        let o := p_offset p in
        let! p := store p o [34] in
        let! p := (if (escape_characters =? 0)%nat then store p (o + 1) s
                   else escape_loop s p (o + 1)) in
        let! p := store p (o + output_length + 1) [34] in
        let! p := store p (o + output_length + 2) [0] in
        Ret (true, p)
  end.

Definition print_string (it : item) (p : printbuffer) : outcome (bool * printbuffer) :=
  print_string_ptr (valuestring it) p.

(** ** Arrays and objects *)
Section Lists.
(** [print_value] *)
Variable pv : item -> printbuffer -> outcome (bool * printbuffer).

(** The loop of [print_array] and its closing bracket. *)
Fixpoint print_elements (l : list item) (p : printbuffer) : outcome (bool * printbuffer) :=
  match l with
  | [] =>
      let! (ok, p) := ensure p 2 in
      if negb ok then Ret (false, p)
      else
        let! p := store p (p_offset p) [93; 0] in
        Ret (true, with_depth p (p_depth p - 1))
  | e :: l' =>
      let! (ok, p) := pv e p in
      if negb ok then Ret (false, p)
      else
        let! p := update_offset p in
        match l' with
        | [] => print_elements l' p
        | _ :: _ =>
            let sep := if format p then [44; 32] else [44] in
            let! (ok, p) := ensure p (length sep + 1) in
            if negb ok then Ret (false, p)
            else
              let! p := store p (p_offset p) (sep ++ [0]) in
              print_elements l' (with_offset p (p_offset p + length sep))
        end
  end.

Definition print_array (l : list item) (p : printbuffer) : outcome (bool * printbuffer) :=
  let! (ok, p) := ensure p 1 in
  if negb ok then Ret (false, p)
  else
    let! p := store p (p_offset p) [91] in
    print_elements l (with_depth (with_offset p (p_offset p + 1)) (S (p_depth p))).

(** The loop of [print_object] and its closing brace. *)
Fixpoint print_members (l : list item) (p : printbuffer) : outcome (bool * printbuffer) :=
  match l with
  | [] =>
      let! (ok, p) := ensure p (if format p then p_depth p + 1 else 2)%nat in
      if negb ok then Ret (false, p)
      else
        let tabs := if format p then repeat 9 (p_depth p - 1) else [] in
        let! p := store p (p_offset p) (tabs ++ [125; 0]) in
        Ret (true, with_depth p (p_depth p - 1))
  | e :: l' =>
      let! (ok, p) :=
        (if format p then
           let! (ok, p) := ensure p (p_depth p) in
           if negb ok then Ret (false, p)
           else
             let! p := store p (p_offset p) (repeat 9 (p_depth p)) in
             Ret (true, with_offset p (p_offset p + p_depth p))
         else Ret (true, p)) in
      if negb ok then Ret (false, p)
      else
        let! (ok, p) := print_string_ptr (string e) p in
        if negb ok then Ret (false, p)
        else
          let! p := update_offset p in
          let colon := if format p then [58; 9] else [58] in
          let! (ok, p) := ensure p (length colon) in
          if negb ok then Ret (false, p)
          else
            let! p := store p (p_offset p) colon in
            let! (ok, p) := pv e (with_offset p (p_offset p + length colon)) in
            if negb ok then Ret (false, p)
            else
              let! p := update_offset p in
              let tail := (match l' with [] => [] | _ :: _ => [44] end)
                          ++ (if format p then [10] else []) in
              let! (ok, p) := ensure p (length tail + 1) in
              if negb ok then Ret (false, p)
              else
                let! p := store p (p_offset p) (tail ++ [0]) in
                print_members l' (with_offset p (p_offset p + length tail))
  end.

Definition print_object (l : list item) (p : printbuffer) : outcome (bool * printbuffer) :=
  let head := if format p then [123; 10] else [123] in
  let! (ok, p) := ensure p (length head + 1) in
  if negb ok then Ret (false, p)
  else
    let! p := store p (p_offset p) head in
    print_members l (with_offset (with_depth p (S (p_depth p))) (p_offset p + length head)).
End Lists.

(** [ensure] for [needed] bytes and [strcpy] or [memcpy] of [bs]. *)
Definition print_literal (p : printbuffer) (needed : nat) (bs : list Z) : outcome (bool * printbuffer) :=
  let! (ok, p) := ensure p needed in
  if negb ok then Ret (false, p)
  else let! p := store p (p_offset p) bs in Ret (true, p).

Fixpoint print_value (it : item) (p : printbuffer) {struct it} : outcome (bool * printbuffer) :=
  match it with
  | mkItem type vs vi vd name ch =>
      let t := Z.land type 255 in
      if t =? cJSON_NULL then print_literal p 5 [110; 117; 108; 108; 0]
      else if t =? cJSON_False then print_literal p 6 [102; 97; 108; 115; 101; 0]
      else if t =? cJSON_True then print_literal p 5 [116; 114; 117; 101; 0]
      else if t =? cJSON_Number then print_number it p
      else if t =? cJSON_Raw then
        match vs with
        | None => Ret (false, p)
        | Some s => print_literal p (length (cstr s) + 1) (cstr s ++ [0])
        end
      else if t =? cJSON_String then print_string it p
      else if t =? cJSON_Array then print_array print_value ch p
      else if t =? cJSON_Object then print_object print_value ch p
      else Ret (false, p)
  end.

(** ** Entry points *)
Definition default_buffer_size : nat := 256.

(** [print]; [None] is NULL. *)
Definition print (it : item) (fmt reallocs : bool) : outcome (option (list Z)) :=
  match allocate 0 default_buffer_size with
  | None => Ret None
  | Some m =>
      let! (ok, p) := print_value it (mkP (Some m) 0 0 false fmt reallocs 1) in
      if negb ok then Ret None
      else
        let! p := update_offset p in
        match buffer p with
        | None => Crash NullDeref
        | Some m =>
            let size := (p_offset p + 1)%nat in
            if reallocs then Ret (reallocate (p_allocs p) m size)
            else
              match allocate (p_allocs p) size with
              | None => Ret None
              | Some printed =>
                  let n := Nat.min (length m) size in
                  Ret (Some (blit (blit printed 0 (take n m)) (p_offset p) [0]))
              end
        end
  end.

Definition cJSON_Print (it : item) (reallocs : bool) : outcome (option (list Z)) := print it true reallocs.
Definition cJSON_PrintUnformatted (it : item) (reallocs : bool) : outcome (option (list Z)) :=
  print it false reallocs.

Definition cJSON_PrintBuffered (it : item) (prebuffer : Z) (fmt reallocs : bool) : outcome (option (list Z)) :=
  if prebuffer <? 0 then Ret None
  else match allocate 0 (Z.to_nat prebuffer) with
       | None => Ret None
       | Some m =>
           let! (ok, p) := print_value it (mkP (Some m) 0 0 false fmt reallocs 1) in
           if negb ok then Ret None else Ret (buffer p)
       end.

(** [b] is the caller's block, [None] for NULL; a [length] beyond its end is the
    caller's fault and a crash. *)
Definition cJSON_PrintPreallocated (it : item) (b : option (list Z)) (len : Z) (fmt reallocs : bool)
  : outcome (bool * option (list Z)) :=
  match b with
  | None => Ret (false, None)
  | Some m =>
      if len <? 0 then Ret (false, b)
      else if lenZ m <? len then Crash OutOfBounds
      else
        let n := Z.to_nat len in
        let! (ok, p) := print_value it (mkP (Some (take n m)) 0 0 true fmt reallocs 0) in
        match buffer p with
        | None => Crash NullDeref
        | Some m' => Ret (ok, Some (m' ++ drop n m))
        end
  end.
End Print.
