(* ===== verification/JsonRender.v ===== *)
(** * JSON printer: the text it writes

    [render] is the text of a JSON value.  The printer, on the item of a value,
    stays in its block, and when it returns true the block holds the text. *)

From S2P Require Import Prelude JsonText JsonSafe JsonParse JsonPrint.

Local Open Scope Z_scope.

(** [isfinite], as the printer tests it. *)
Definition finite `{D : CDouble} (d : double) : Prop := d_eq (d_mul d d_zero) d_zero = true.

Definition number_or_dot `{D : CDouble} (c : Z) : Prop := is_number_char c = true \/ c = 46.

(** What [printf] documents of [%.15g] and [%.17g] on finite numbers: digits,
    sign, point and exponent, at most 24 characters, the first a digit or a
    minus sign; and [strtod] uses all of it. *)
Class DoubleText (D : CDouble) : Prop := {
  g_length : forall k d, finite d -> k = 15%nat \/ k = 17%nat ->
    (1 <= length (sprintf_g k d) <= 24)%nat;
  g_chars : forall k d, finite d -> Forall number_or_dot (sprintf_g k d);
  g_head : forall k d c t, finite d -> sprintf_g k d = c :: t -> c = 45 \/ 48 <= c <= 57;
  g_read : forall k d, finite d -> snd (strtod (sprintf_g k d)) = length (sprintf_g k d)
}.

(** Seventeen significant digits determine a [double], and [sscanf] with [%lg]
    converts what [strtod] converts. *)
Class DoubleDigits (D : CDouble) : Prop := {
  g17_exact : forall d, finite d -> fst (strtod (sprintf_g 17 d)) = d;
  sscanf_strtod : forall s x, sscanf_lg s = Some x -> x = fst (strtod s)
}.

Section Render.
Context `{D : CDouble} `{A : Allocator}.

(** ** The text of a value *)
Definition num (d : double) : list Z :=
  if d_eq (d_mul d d_zero) d_zero then
    let t := sprintf_g 15 d in
    if match sscanf_lg t with Some test => compare_double test d | None => false end then t
    else sprintf_g 17 d
  else text_null.

Definition escape1 (c : Z) : list Z :=
  if (31 <? c) && negb (c =? 34) && negb (c =? 92) then [c]
  else match escape_letter c with
       | Some l => [92; l]
       | None => [92; 117; 48; 48; hex_char (c / 16); hex_char (c mod 16)]
       end.

Definition quoted (s : list Z) : list Z := 34 :: flat_map escape1 (cstr s) ++ [34].

(** Elements with a separator between them. *)
Fixpoint separated (sep : list Z) (l : list (list Z)) : list Z :=
  match l with
  | [] => []
  | x :: l' => x ++ match l' with [] => [] | _ :: _ => sep ++ separated sep l' end
  end.

Fixpoint render (fmt : bool) (depth : nat) (j : json) : list Z :=
  match j with
  | JNull => text_null
  | JFalse => text_false
  | JTrue => text_true
  | JNum d => num d
  | JStr s => quoted s
  | JArr l =>
      91 :: separated (if fmt then [44; 32] else [44]) (map (render fmt (S depth)) l) ++ [93]
  | JObj l =>
      (if fmt then [123; 10] else [123])
      ++ separated (if fmt then [44; 10] else [44])
           (map (fun kv => (if fmt then repeat 9 (S depth) else []) ++ quoted (fst kv)
                           ++ (if fmt then [58; 9] else [58]) ++ render fmt (S depth) (snd kv)) l)
      ++ (if fmt then match l with [] => [] | _ :: _ => [10] end ++ repeat 9 depth else []) ++ [125]
  end.

(** ** State of the output *)

(** The text printed so far is [pre], and there is a byte behind it. *)
Definition at_text (p : printbuffer) (pre : list Z) : Prop :=
  exists m, buffer p = Some m /\ take (p_offset p) m = pre /\ p_offset p = length pre /\
    ((length pre < length m)%nat \/ (m = [] /\ has_realloc p = true)).

(** The block holds [pre], [t] and a terminator; the offset is somewhere in [t]. *)
Definition wrote (p : printbuffer) (pre t : list Z) : Prop :=
  exists rest, buffer p = Some (pre ++ t ++ 0 :: rest) /\
    (length pre <= p_offset p <= length pre + length t)%nat.

(** Options are not changed, and a block that may not grow keeps its length. *)
Definition same_options (p p' : printbuffer) : Prop :=
  p_depth p' = p_depth p /\ noalloc p' = noalloc p /\ format p' = format p /\
  has_realloc p' = has_realloc p /\
  (noalloc p = true -> forall m m', buffer p = Some m -> buffer p' = Some m' -> length m' = length m).

(** [malloc] does not fail. *)
Definition plenty : Prop := forall n size, exists m, allocate n size = Some m.

(** How many bytes the block may get. *)
Definition limit (p : printbuffer) : Z :=
  if noalloc p then match buffer p with Some m => Z.min (lenZ m) INT_MAX | None => 0 end else INT_MAX.

Lemma same_options_refl p : same_options p p.
Proof. repeat split. intros _ m m' H H'. congruence. Qed.

Lemma same_options_limit p p' m m' :
  same_options p p' -> buffer p = Some m -> buffer p' = Some m' -> limit p' = limit p.
Proof.
  intros (_ & H2 & _ & _ & H5) E E'. unfold limit. rewrite H2, E, E'.
  destruct (noalloc p) eqn:En; [|reflexivity]. rewrite (H5 eq_refl m m' E E'). reflexivity.
Qed.

Lemma same_options_trans p1 p2 p3 m :
  buffer p2 = Some m -> same_options p1 p2 -> same_options p2 p3 -> same_options p1 p3.
Proof.
  intros Em (H1 & H2 & H3 & H4 & H5) (G1 & G2 & G3 & G4 & G5).
  repeat split; try congruence. intros En m1 m3 E1 E3.
  rewrite (G5 ltac:(congruence) m m3 Em E3). apply H5; assumption.
Qed.

Lemma blit_length m i bs : (i + length bs <= length m)%nat -> length (blit m i bs) = length m.
Proof.
  intros H. unfold blit. rewrite !length_app, length_take, length_drop. lia.
Qed.

Context {AS : AllocatorSize A}.

Lemma new_size_spec needed size :
  new_size needed = Some size -> (needed <= size)%nat.
Proof.
  unfold new_size. repeat zcase; intros [= <-]; unfold INT_MAX in *; lia.
Qed.

Lemma new_size_ok needed : Z.of_nat needed <= INT_MAX -> exists size, new_size needed = Some size.
Proof. intros H. unfold new_size. repeat zcase; try lia; eexists; reflexivity. Qed.

(** The larger block starts with what the old one held. *)
Lemma grown_block p pre m (m' : list Z) size :
  buffer p = Some m -> take (length pre) m = pre -> noalloc p = false ->
  p_offset p = length pre -> take (length pre) m' = pre -> length m' = size -> (length pre < size)%nat ->
  let p' := with_buffer (called p) (Some m') in
  same_options p p' /\ at_text p' pre /\ p_offset p' = p_offset p.
Proof.
  intros Em Hpre En Ho Hm' Hl Hs p'. subst p'. split; [|split; [|reflexivity]].
  - repeat split. congruence.
  - exists m'. simpl. rewrite Ho. split; [reflexivity|]. split; [exact Hm'|]. split; [reflexivity|]. left. lia.
Qed.

(** [ensure] keeps the text and makes room, or returns NULL; it does not fail
    when there is memory and the limit allows. *)
Lemma ensure_spec p pre n :
  at_text p pre ->
  exists ok p', ensure p n = Ret (ok, p') /\
    (ok = true -> same_options p p' /\ at_text p' pre /\ p_offset p' = p_offset p /\
       exists m, buffer p' = Some m /\ take (length pre) m = pre /\ (length pre + n + 1 <= length m)%nat) /\
    (noalloc p = true \/ plenty -> Z.of_nat (length pre + n + 1) <= limit p -> ok = true).
Proof.
  intros Hat. destruct Hat as (m & Em & Hpre & Ho & Hm) eqn:Eat. clear Eat. unfold ensure. rewrite Em.
  assert (Hchk : ((0 <? length m) && (length m <=? p_offset p))%nat = false).
  { destruct Hm as [Hm|[-> _]]; [|reflexivity].
    rewrite (proj2 (Nat.leb_gt (length m) (p_offset p))) by lia. apply andb_false_r. }
  rewrite Hchk. unfold limit. rewrite Em.
  destruct (Z.ltb_spec INT_MAX (Z.of_nat n)) as [Hn|Hn].
  { exists false, p. split; [reflexivity|]. split; [discriminate|].
    intros _ Hl. exfalso. destruct (noalloc p); lia. }
  cbn zeta. destruct (Nat.leb_spec (n + (p_offset p + 1)) (length m)) as [Hfit|Hfit].
  { exists true, p. split; [reflexivity|]. split; [|reflexivity]. intros _.
    split; [apply same_options_refl|]. split; [exact Hat|]. split; [reflexivity|].
    exists m. rewrite <- Ho. split; [exact Em|]. split; [congruence | lia]. }
  destruct (noalloc p) eqn:En.
  { exists false, p. split; [reflexivity|]. split; [discriminate|]. intros _ Hl. exfalso. lia. }
  destruct (new_size (n + (p_offset p + 1))) as [size|] eqn:Es.
  2:{ exists false, p. split; [reflexivity|]. split; [discriminate|]. intros _ Hl. exfalso.
      destruct (new_size_ok (n + (p_offset p + 1))) as [z Ez]; [lia|]. congruence. }
  apply new_size_spec in Es. rewrite Ho in Hpre.
  destruct (has_realloc p) eqn:Er; unfold reallocate.
  - destruct (allocate (p_allocs p) size) as [m'|] eqn:Ea.
    2:{ do 2 eexists. split; [reflexivity|]. split; [discriminate|].
        intros [?|Hp] _; [discriminate|]. destruct (Hp (p_allocs p) size). congruence. }
    apply allocate_size in Ea. do 2 eexists. split; [reflexivity|]. split; [|reflexivity]. intros _.
    set (m2 := take size m ++ drop (length m) m').
    assert (Hl2 : length m2 = size). { subst m2. rewrite length_app, length_take, length_drop. lia. }
    assert (Ht2 : take (length pre) m2 = pre).
    { subst m2. rewrite (take_ge m) by lia. destruct Hm as [Hm|[-> _]].
      - rewrite take_app_le by lia. exact Hpre.
      - rewrite take_nil in Hpre. subst pre. reflexivity. }
    destruct (grown_block p pre m m2 size) as (G1 & G2 & G3); auto; [lia|].
    split; [exact G1|]. split; [exact G2|]. split; [exact G3|].
    exists m2. split; [reflexivity|]. split; [exact Ht2 | lia].
  - destruct (allocate (p_allocs p) size) as [m'|] eqn:Ea.
    2:{ do 2 eexists. split; [reflexivity|]. split; [discriminate|].
        intros [?|Hp] _; [discriminate|]. destruct (Hp (p_allocs p) size). congruence. }
    apply allocate_size in Ea. destruct Hm as [Hm|[_ ?]]; [|discriminate].
    rewrite (proj2 (Nat.leb_le _ _)) by lia.
    do 2 eexists. split; [reflexivity|]. split; [|reflexivity]. intros _.
    set (m2 := blit m' 0 (take (p_offset p + 1) m)).
    assert (Hl1 : length (take (p_offset p + 1) m) = S (length pre)) by (rewrite length_take; lia).
    assert (Hl2 : length m2 = size). { subst m2. rewrite blit_length; lia. }
    assert (Ht2 : take (length pre) m2 = pre).
    { subst m2. unfold blit. change (take 0 m') with (@nil Z). rewrite app_nil_l, take_app_le by lia.
      rewrite take_take, Nat.min_l by lia. exact Hpre. }
    destruct (grown_block p pre m m2 size) as (G1 & G2 & G3); auto; [lia|].
    split; [exact G1|]. split; [exact G2|]. split; [exact G3|].
    exists m2. split; [reflexivity|]. split; [exact Ht2 | lia].
Qed.

(** ** Stores *)
Lemma store_spec p pre m n bs :
  buffer p = Some m -> take (length pre) m = pre -> p_offset p = length pre ->
  (length pre + n + 1 <= length m)%nat -> (length bs <= n + 1)%nat ->
  exists rest, store p (p_offset p) bs = Ret (with_buffer p (Some (pre ++ bs ++ rest))) /\
    length (pre ++ bs ++ rest) = length m.
Proof.
  intros Em Hpre Ho Hm Hn. unfold store. rewrite Em, Ho, (proj2 (Nat.leb_le _ _)) by lia.
  exists (drop (length pre + length bs) m). unfold blit. rewrite Hpre. split; [reflexivity|].
  rewrite !length_app, length_drop. lia.
Qed.

Lemma same_options_store p m m' :
  buffer p = Some m -> length m' = length m -> same_options p (with_buffer p (Some m')).
Proof.
  intros Em Hl. repeat split. intros _ m1 m2 E1 E2. simpl in E2. injection E2 as <-. congruence.
Qed.

Lemma same_options_offset p p' o : same_options p p' -> same_options p (with_offset p' o).
Proof. intros (H1 & H2 & H3 & H4 & H5). repeat split; assumption. Qed.

(** Reserve and store a text that is followed by more: the text is extended. *)
Lemma put_text p pre n t post :
  at_text p pre -> (length (t ++ post) <= n + 1)%nat -> (length t <= n)%nat ->
  exists ok p1, ensure p n = Ret (ok, p1) /\
    (ok = true -> exists p2, store p1 (p_offset p1) (t ++ post) = Ret p2 /\
       p_offset p2 = p_offset p /\ p_depth p2 = p_depth p /\ format p2 = format p /\
       format p1 = format p /\ p_depth p1 = p_depth p /\ p_offset p1 = p_offset p /\
       same_options p p2 /\ at_text (with_offset p2 (p_offset p2 + length t)) (pre ++ t) /\
       (forall x, post = 0 :: x -> wrote p2 pre t)) /\
    (noalloc p = true \/ plenty -> Z.of_nat (length pre + n + 1) <= limit p -> ok = true).
Proof.
  intros Hat Hl Ht. destruct (ensure_spec p pre n Hat) as (ok & p1 & E & Hok & Hlive).
  exists ok, p1. split; [exact E|]. split; [|exact Hlive]. intros Hk.
  destruct (Hok Hk) as (Hs & Hat1 & Ho1 & m & Em & Hpre & Hm). clear Hok Hlive.
  destruct Hat as (m0 & Em0 & _ & Ho & _).
  destruct (store_spec p1 pre m n (t ++ post) Em Hpre ltac:(lia) Hm Hl) as (rest & Est & Hlen).
  rewrite Est. exists (with_buffer p1 (Some (pre ++ (t ++ post) ++ rest))).
  pose proof (same_options_store p1 m _ Em Hlen) as Hs2.
  pose proof (same_options_trans p p1 _ m Em Hs Hs2) as Hs3.
  destruct Hs as (H1 & H2 & H3 & H4 & H5).
  split; [reflexivity|]. simpl. do 6 (split; [assumption|]). split; [exact Hs3|]. split.
  - eexists. simpl. split; [reflexivity|]. rewrite length_app, Ho1, Ho. split.
    + rewrite <- !app_assoc, app_assoc, <- length_app. apply take_app_length.
    + split; [reflexivity|]. left. rewrite Hlen. lia.
  - intros x ->. exists (x ++ rest). simpl. split.
    + rewrite <- !app_assoc. reflexivity.
    + lia.
Qed.

Lemma strlen_text t rest : Forall (fun c => c <> 0) t -> strlen (t ++ 0 :: rest) = Ret (length t).
Proof.
  induction 1 as [|c t Hc _ IH]; cbn [strlen app]; [reflexivity|].
  rewrite (proj2 (Z.eqb_neq c 0) Hc), IH. reflexivity.
Qed.

(** [update_offset] moves behind the text. *)
Lemma update_offset_spec p pre t :
  wrote p pre t -> Forall (fun c => c <> 0) t ->
  update_offset p = Ret (with_offset p (length pre + length t)) /\
  at_text (with_offset p (length pre + length t)) (pre ++ t).
Proof.
  intros (rest & Eb & Ho) Ht. unfold update_offset. rewrite Eb.
  set (k := (p_offset p - length pre)%nat).
  assert (Ek : p_offset p = (length pre + k)%nat) by lia.
  rewrite Ek, <- drop_drop, drop_app_length, drop_app_le by lia.
  rewrite strlen_text by (apply Forall_drop, Ht). cbn [obind]. rewrite length_drop.
  replace (length pre + k + (length t - k))%nat with (length pre + length t)%nat by lia.
  split; [reflexivity|]. eexists. simpl. split; [exact Eb|].
  rewrite app_assoc, <- length_app. split; [apply take_app_length|]. split; [reflexivity|].
  left. rewrite !length_app. simpl. lia.
Qed.

(** ** Leaves *)

(** What printing a text [t] behind [pre] achieves. *)
Definition printed (p : printbuffer) (pre t : list Z) (ok : bool) (p' : printbuffer) : Prop :=
  (ok = true -> wrote p' pre t /\ same_options p p') /\
  (noalloc p = true \/ plenty -> Z.of_nat (length pre + length t + 2) <= limit p -> ok = true).

Lemma print_literal_spec p pre t n :
  at_text p pre -> n = S (length t) ->
  exists ok p', print_literal p n (t ++ [0]) = Ret (ok, p') /\ printed p pre t ok p'.
Proof.
  intros Hat ->. unfold print_literal.
  destruct (put_text p pre (S (length t)) t [0] Hat) as (ok & p1 & -> & Hok & Hlive);
    [rewrite length_app; simpl; lia | lia |].
  cbn [obind]. destruct ok; cbn [negb].
  - destruct (Hok eq_refl) as (p2 & -> & _ & _ & _ & _ & _ & _ & Hs & _ & Hw). cbn [obind].
    exists true, p2. split; [reflexivity|]. split; [|reflexivity].
    intros _. split; [apply (Hw []); reflexivity | exact Hs].
  - exists false, p1. split; [reflexivity|]. split; [discriminate|].
    intros H1 H2. apply Hlive; [exact H1 | lia].
Qed.

Context {DT : DoubleText D}.

Lemma num_facts d : (1 <= length (num d) <= 24)%nat /\ Forall (fun c => 1 <= c) (num d) /\
  number_text d = Ret (num d).
Proof.
  unfold num, number_text. destruct (d_eq (d_mul d d_zero) d_zero) eqn:Ef; cbn [negb].
  2:{ split; [simpl; lia|]. split; [repeat constructor; lia | reflexivity]. }
  pose proof (g_length 15 d Ef ltac:(auto)) as H15. pose proof (g_length 17 d Ef ltac:(auto)) as H17.
  assert (Hc : forall k, Forall (fun c => 1 <= c) (sprintf_g k d)).
  { intros k. eapply Forall_impl; [apply (g_chars k d Ef)|]. intros c [Hc|Hc]; [|lia].
    unfold is_number_char in Hc. lia. }
  unfold sprintf26. rewrite !(proj2 (Nat.ltb_lt _ _)) by lia. cbn [obind].
  destruct (sscanf_lg _) as [x|]; [destruct (compare_double x d)|]; auto.
Qed.

Lemma dots_id t : map (fun c => if c =? get_decimal_point then 46 else c) t = t.
Proof.
  induction t as [|c t IH]; [reflexivity|]. cbn [map]. rewrite IH. f_equal. unfold get_decimal_point.
  zcase; congruence.
Qed.

Lemma print_number_spec p pre it :
  at_text p pre ->
  exists ok p', print_number it p = Ret (ok, p') /\ printed p pre (num (valuedouble it)) ok p'.
Proof.
  intros Hat. unfold print_number. destruct (num_facts (valuedouble it)) as (Hl & _ & ->). cbn [obind].
  set (t := num (valuedouble it)) in *.
  destruct (put_text p pre (length t + 1) t [0] Hat) as (ok & p1 & -> & Hok & Hlive);
    [rewrite length_app; simpl; lia | lia |].
  cbn [obind]. destruct ok; cbn [negb].
  - destruct (Hok eq_refl) as (p2 & E2 & Ho & _ & _ & _ & _ & Ho1 & Hs & _ & Hw).
    rewrite dots_id, E2. cbn [obind]. do 2 eexists. split; [reflexivity|]. split; [|reflexivity].
    intros _. split; [|apply same_options_offset, Hs].
    destruct (Hw [] eq_refl) as (rest & Eb & Hr). exists rest. split; [exact Eb|]. simpl.
    destruct Hat as (m & _ & _ & Hop & _). lia.
  - exists false, p1. split; [reflexivity|]. split; [discriminate|].
    intros H1 H2. apply Hlive; [exact H1 | lia].
Qed.

(** ** Strings *)

(** [p'] is [p] with [bs] stored from index [o]; what is behind may have changed. *)
Definition writes (p : printbuffer) (o : nat) (bs : list Z) (p' : printbuffer) : Prop :=
  exists m m', buffer p = Some m /\ p' = with_buffer p (Some m') /\ length m' = length m /\
    (o + length bs <= length m)%nat /\ take (o + length bs) m' = take o m ++ bs.

Lemma store_writes p m o bs : buffer p = Some m -> (o + length bs <= length m)%nat ->
  exists p', store p o bs = Ret p' /\ writes p o bs p'.
Proof.
  intros Em H. unfold store. rewrite Em, (proj2 (Nat.leb_le _ _) H). eexists. split; [reflexivity|].
  exists m, (blit m o bs). split; [exact Em|]. split; [reflexivity|].
  split; [apply blit_length, H|]. split; [exact H|]. unfold blit.
  rewrite app_assoc. apply take_app_length'. rewrite length_app, length_take. lia.
Qed.

Lemma writes_app p o b1 p1 b2 p2 :
  writes p o b1 p1 -> writes p1 (o + length b1) b2 p2 -> writes p o (b1 ++ b2) p2.
Proof.
  intros (m & m1 & Em & -> & Hl1 & Hb1 & Ht1) (m1' & m2 & Em1 & -> & Hl2 & Hb2 & Ht2).
  simpl in Em1. injection Em1 as <-. exists m, m2. split; [exact Em|]. split; [reflexivity|].
  rewrite length_app, Nat.add_assoc. split; [lia|]. split; [lia|].
  rewrite Ht2, Ht1, app_assoc. reflexivity.
Qed.

Lemma writes_prefix p o b1 b2 p' : writes p o (b1 ++ b2) p' -> writes p o b1 p'.
Proof.
  intros (m & m1 & Em & -> & Hl1 & Hb1 & Ht1). rewrite length_app in Hb1, Ht1.
  exists m, m1. split; [exact Em|]. split; [reflexivity|]. split; [exact Hl1|]. split; [lia|].
  apply (f_equal (take (o + length b1))) in Ht1. rewrite take_take, Nat.min_l in Ht1 by lia.
  rewrite Ht1, app_assoc. apply take_app_length'. rewrite length_app, length_take. lia.
Qed.

Lemma writes_buffer p o bs p' m : writes p o bs p' -> buffer p = Some m ->
  exists m', buffer p' = Some m' /\ length m' = length m.
Proof. intros (m0 & m1 & Em & -> & Hl & _) E. exists m1. split; [reflexivity | congruence]. Qed.

Lemma escape1_length c :
  length (escape1 c) = S (if one_char_escape c then 1 else if (c <? 32)%Z then 5 else 0)%nat.
Proof.
  unfold escape1, one_char_escape, escape_letter.
  repeat zcase; subst; cbn in *; try reflexivity; try congruence; lia.
Qed.

Lemma escape_length s : length (flat_map escape1 s) = (length s + escape_count s)%nat.
Proof.
  induction s as [|c s IH]; [reflexivity|]. cbn [flat_map escape_count length].
  rewrite length_app, IH, escape1_length. lia.
Qed.

Lemma escape_none s : escape_count s = O -> flat_map escape1 s = s.
Proof.
  induction s as [|c s IH]; [reflexivity|]. cbn [flat_map escape_count]. intros H.
  rewrite IH by lia. pose proof (escape1_length c) as Hl.
  assert (H1 : length (escape1 c) = 1%nat) by (destruct (one_char_escape c); destruct (c <? 32); lia).
  revert H1. unfold escape1. destruct (_ && _); [reflexivity|].
  destruct (escape_letter c); discriminate.
Qed.

Lemma escape_loop_spec s : forall p m o,
  buffer p = Some m -> (o + length (flat_map escape1 s) + 1 <= length m)%nat ->
  exists p', escape_loop s p o = Ret p' /\ writes p o (flat_map escape1 s) p'.
Proof.
  induction s as [|c s IH]; intros p m o Em Hm.
  { exists p. split; [reflexivity|]. exists m, m. simpl in *. rewrite Nat.add_0_r, app_nil_r.
    repeat split; try assumption; try lia. destruct p; simpl in *; subst; reflexivity. }
  cbn [flat_map] in Hm |- *. rewrite length_app in Hm. cbn [escape_loop].
  assert (Hgo : forall p1 k, writes p o (escape1 c) p1 -> k = length (escape1 c) ->
    exists p', escape_loop s p1 (o + k) = Ret p' /\ writes p o (escape1 c ++ flat_map escape1 s) p').
  { intros p1 k Hw ->. destruct (writes_buffer _ _ _ _ _ Hw Em) as (m1 & Em1 & Hl1).
    destruct (IH p1 m1 (o + length (escape1 c))%nat Em1 ltac:(lia)) as (p2 & E2 & Hw2).
    exists p2. split; [exact E2|]. apply (writes_app p o _ p1); assumption. }
  unfold escape1 in Hm, Hgo |- *. destruct (_ && _).
  - destruct (store_writes p m o [c] Em ltac:(simpl in *; lia)) as (p1 & -> & Hw). apply Hgo; auto.
  - destruct (escape_letter c) as [l|].
    + destruct (store_writes p m o [92] Em ltac:(simpl in *; lia)) as (p1 & -> & Hw). cbn [obind].
      destruct (writes_buffer _ _ _ _ _ Hw Em) as (m1 & Em1 & Hl1).
      destruct (store_writes p1 m1 (o + 1) [l] Em1 ltac:(simpl in *; lia)) as (p2 & -> & Hw2).
      cbn [obind]. apply Hgo; [|reflexivity]. apply (writes_app p o [92] p1 [l]); assumption.
    + destruct (store_writes p m o [92] Em ltac:(simpl in *; lia)) as (p1 & -> & Hw). cbn [obind].
      destruct (writes_buffer _ _ _ _ _ Hw Em) as (m1 & Em1 & Hl1).
      destruct (store_writes p1 m1 (o + 1) [117; 48; 48; hex_char (c / 16); hex_char (c mod 16); 0] Em1
        ltac:(simpl in *; lia)) as (p2 & -> & Hw2).
      cbn [obind]. apply Hgo; [|reflexivity].
      apply (writes_prefix p o _ [0]). apply (writes_app p o [92] p1); assumption.
Qed.

Lemma writes_wrote p pre m t p' :
  buffer p = Some m -> take (length pre) m = pre -> p_offset p = length pre ->
  writes p (length pre) (t ++ [0]) p' -> wrote p' pre t /\ same_options p p'.
Proof.
  intros Em Hpre Ho (m0 & m1 & Em0 & -> & Hl & Hb & Ht).
  assert (m0 = m) as -> by congruence. split.
  - exists (drop (length pre + length (t ++ [0])) m1). simpl. split; [|lia].
    rewrite <- (take_drop (length pre + length (t ++ [0])) m1) at 1. rewrite Ht, Hpre.
    rewrite <- !app_assoc. reflexivity.
  - apply same_options_store with m; assumption.
Qed.

Lemma print_string_spec p pre s :
  at_text p pre ->
  exists ok p', print_string_ptr (Some s) p = Ret (ok, p') /\ printed p pre (quoted s) ok p'.
Proof.
  intros Hat. cbn [print_string_ptr]. unfold printed, quoted. set (c := cstr s).
  pose proof (escape_length c) as Hel. set (n := (length c + escape_count c)%nat) in *.
  destruct (ensure_spec p pre (n + 3) Hat) as (ok & p1 & -> & Hok & Hlive). cbn [obind].
  destruct ok; cbn [negb].
  2:{ exists false, p1. split; [reflexivity|]. split; [discriminate|].
      intros H1 H2. apply Hlive; [exact H1|]. cbn [length] in H2. rewrite length_app in H2. simpl in H2. lia. }
  destruct (Hok eq_refl) as (Hs & Hat1 & Ho1 & m & Em & Hpre & Hm). clear Hok Hlive.
  destruct Hat as (m0 & Em0 & _ & Ho & _). rewrite Ho1, Ho.
  destruct (store_writes p1 m (length pre) [34] Em ltac:(simpl; lia)) as (p2 & -> & W2). cbn [obind].
  destruct (writes_buffer _ _ _ _ _ W2 Em) as (m2 & Em2 & Hl2).
  assert (exists p3, (if (escape_count c =? 0)%nat then store p2 (length pre + 1) c
                      else escape_loop c p2 (length pre + 1)) = Ret p3 /\
                     writes p2 (length pre + 1) (flat_map escape1 c) p3) as (p3 & -> & W3).
  { destruct (Nat.eqb_spec (escape_count c) 0) as [E0|_].
    - rewrite (escape_none c E0) in *. apply (store_writes p2 m2); [exact Em2 | lia].
    - apply (escape_loop_spec c p2 m2); [exact Em2 | lia]. }
  cbn [obind]. destruct (writes_buffer _ _ _ _ _ W3 Em2) as (m3 & Em3 & Hl3).
  destruct (store_writes p3 m3 (length pre + n + 1) [34] Em3 ltac:(simpl; lia)) as (p4 & -> & W4).
  cbn [obind]. destruct (writes_buffer _ _ _ _ _ W4 Em3) as (m4 & Em4 & Hl4).
  destruct (store_writes p4 m4 (length pre + n + 2) [0] Em4 ltac:(simpl; lia)) as (p5 & -> & W5).
  cbn [obind]. exists true, p5. split; [reflexivity|]. split; [|reflexivity]. intros _.
  assert (W : writes p1 (length pre) ((34 :: flat_map escape1 c ++ [34]) ++ [0]) p5).
  { apply (writes_app p1 _ _ p4).
    - change (34 :: flat_map escape1 c ++ [34]) with ([34] ++ (flat_map escape1 c ++ [34])).
      apply (writes_app p1 _ _ p2); [exact W2|]. apply (writes_app p2 _ _ p3); [exact W3|].
      simpl. replace (length pre + 1 + length (flat_map escape1 c))%nat
        with (length pre + n + 1)%nat by lia. exact W4.
    - cbn [length]. rewrite length_app. simpl.
      replace (length pre + S (length (flat_map escape1 c) + 1))%nat
        with (length pre + n + 2)%nat by lia. exact W5. }
  destruct (writes_wrote p1 pre m _ p5 Em Hpre ltac:(lia) W) as [Hw Hs5].
  split; [exact Hw|]. apply (same_options_trans p p1 p5 m); assumption.
Qed.

(** ** Texts contain no terminator *)
Lemma cstr_nonzero s : Forall (fun c => c <> 0) (cstr s).
Proof. induction s as [|c s IH]; cbn [cstr]; [constructor|]. zcase; [constructor | constructor; assumption]. Qed.

Lemma hex_char_pos v : 0 <= v -> hex_char v <> 0.
Proof. unfold hex_char. zcase; lia. Qed.

Definition nonneg (s : list Z) : Prop := Forall (fun c => 0 <= c) s.

Lemma escape1_nonzero c : 0 <= c -> c <> 0 -> Forall (fun x => x <> 0) (escape1 c).
Proof.
  intros H0 Hc. unfold escape1. destruct (_ && _); [repeat constructor; exact Hc|].
  destruct (escape_letter c) as [l|] eqn:E.
  - unfold escape_letter in E. repeat (zcase; [injection E as <-; repeat constructor; lia|]). discriminate.
  - repeat constructor; try lia; apply hex_char_pos; Z.div_mod_to_equations; lia.
Qed.

Lemma quoted_nonzero s : nonneg s -> Forall (fun x => x <> 0) (quoted s).
Proof.
  intros Hn. constructor; [lia|]. apply Forall_app_2; [|repeat constructor; lia].
  induction Hn as [|c s Hc _ IH]; cbn [cstr]; [constructor|].
  destruct (Z.eqb_spec c 0); [constructor|]. cbn [flat_map]. apply Forall_app_2; [|exact IH].
  apply escape1_nonzero; assumption.
Qed.

(** ** Induction on values *)
Lemma json_induction (P : json -> Prop) :
  P JNull -> P JFalse -> P JTrue -> (forall d, P (JNum d)) -> (forall s, P (JStr s)) ->
  (forall l, Forall P l -> P (JArr l)) -> (forall l, Forall (fun kv => P (snd kv)) l -> P (JObj l)) ->
  forall j, P j.
Proof.
  intros H1 H2 H3 H4 H5 H6 H7. fix IH 1. intros [| | |d|s|l|l].
  - exact H1.
  - exact H2.
  - exact H3.
  - apply H4.
  - apply H5.
  - apply H6. induction l as [|x l IHl]; constructor; [apply IH | exact IHl].
  - apply H7. induction l as [|[k x] l IHl]; constructor; [apply IH | exact IHl].
Qed.

(** Bytes of all strings are not negative. *)
Fixpoint strings_ok (j : json) : Prop :=
  match j with
  | JStr s => nonneg s
  | JArr l => fold_right and True (map strings_ok l)
  | JObj l => fold_right and True (map (fun kv => nonneg (fst kv) /\ strings_ok (snd kv)) l)
  | _ => True
  end.

Lemma separated_nonzero sep l : Forall (fun x => x <> 0) sep -> Forall (Forall (fun x => x <> 0)) l ->
  Forall (fun x => x <> 0) (separated sep l).
Proof.
  intros Hs Hl. induction Hl as [|x l Hx Hl IH]; cbn [separated]; [constructor|].
  apply Forall_app_2; [exact Hx|]. destruct l; [constructor|]. apply Forall_app_2; assumption.
Qed.

Lemma tabs_nonzero n : Forall (fun x => x <> 0) (repeat 9 n).
Proof. rewrite repeat_replicate. apply Forall_replicate. lia. Qed.

Lemma render_nonzero fmt j : forall d, strings_ok j -> Forall (fun x => x <> 0) (render fmt d j).
Proof.
  induction j as [| | |x|s|l IH|l IH] using json_induction; intros d Hok; cbn [render].
  1-3: repeat constructor; lia.
  - eapply Forall_impl; [apply num_facts|]. intros c Hc. simpl in Hc. lia.
  - apply quoted_nonzero, Hok.
  - constructor; [lia|]. apply Forall_app_2; [|repeat constructor; lia].
    apply separated_nonzero; [destruct fmt; repeat constructor; lia|].
    cbn [strings_ok] in Hok. induction IH as [|j l Hj IH IH2]; constructor; [apply Hj, Hok | apply IH2, Hok].
  - apply Forall_app_2; [destruct fmt; repeat constructor; lia|]. apply Forall_app_2.
    + apply separated_nonzero; [destruct fmt; repeat constructor; lia|].
      cbn [strings_ok] in Hok. induction IH as [|[k j] l Hj IH IH2]; constructor; [|apply IH2, Hok].
      destruct Hok as [[Hk Hv] _]. cbn [fst snd] in *.
      apply Forall_app_2; [destruct fmt; [apply tabs_nonzero | constructor]|].
      apply Forall_app_2; [apply quoted_nonzero, Hk|].
      apply Forall_app_2; [destruct fmt; repeat constructor; lia | apply Hj, Hv].
    + apply Forall_app_2; [|repeat constructor; lia]. destruct fmt; [|constructor].
      apply Forall_app_2; [destruct l; repeat constructor; lia | apply tabs_nonzero].
Qed.

(** ** Arrays and objects *)
Definition advanced (p : printbuffer) (pre t : list Z) (q : printbuffer) : Prop :=
  at_text q (pre ++ t) /\ same_options p q /\ limit q = limit p.

Lemma at_text_limit p pre q pre' : at_text p pre -> at_text q pre' -> same_options p q -> limit q = limit p.
Proof.
  intros (m & Em & _) (m' & Em' & _) H. apply (same_options_limit p q m m'); assumption.
Qed.

Lemma advanced_trans p pre t q t' q' : advanced p pre t q -> advanced q (pre ++ t) t' q' ->
  advanced p pre (t ++ t') q'.
Proof.
  intros ((m & Em & H) & Hs & Hl) (H' & Hs' & Hl'). split; [rewrite app_assoc; exact H'|].
  split; [apply (same_options_trans p q q' m); assumption | congruence].
Qed.

Lemma wrote_more p pre a t : wrote p (pre ++ a) t -> wrote p pre (a ++ t).
Proof.
  intros (rest & Eb & Ho). exists rest. rewrite !length_app in *. split; [|lia].
  rewrite Eb, <- !app_assoc. reflexivity.
Qed.

(** A printed text, and the offset moved behind it. *)
Lemma printed_advance p pre t p1 :
  at_text p pre -> printed p pre t true p1 -> Forall (fun c => c <> 0) t ->
  exists q, update_offset p1 = Ret q /\ advanced p pre t q.
Proof.
  intros Hat [H _] Hn. destruct (H eq_refl) as [Hw Hs].
  destruct (update_offset_spec p1 pre t Hw Hn) as [E Hq]. eexists. split; [exact E|].
  pose proof (same_options_offset p p1 (length pre + length t) Hs) as Hs'.
  split; [exact Hq|]. split; [exact Hs' | apply (at_text_limit p pre _ (pre ++ t)); assumption].
Qed.

(** A stored text, and the offset moved behind it. *)
Lemma put_advance p pre n t post :
  at_text p pre -> (length (t ++ post) <= n + 1)%nat -> (length t <= n)%nat ->
  exists ok p1, ensure p n = Ret (ok, p1) /\
    (ok = true -> format p1 = format p /\ p_depth p1 = p_depth p /\
       exists p2, store p1 (p_offset p1) (t ++ post) = Ret p2 /\ p_depth p2 = p_depth p /\
         advanced p pre t (with_offset p2 (p_offset p2 + length t))) /\
    (noalloc p = true \/ plenty -> Z.of_nat (length pre + n + 1) <= limit p -> ok = true).
Proof.
  intros Hat Hl Ht. destruct (put_text p pre n t post Hat Hl Ht) as (ok & p1 & E & Hok & Hlive).
  exists ok, p1. split; [exact E|]. split; [|exact Hlive]. intros Hk.
  destruct (Hok Hk) as (p2 & E2 & _ & Hd & _ & Hf & Hd1 & _ & Hs & Hq & _).
  split; [exact Hf|]. split; [exact Hd1|]. exists p2. split; [exact E2|]. split; [exact Hd|].
  pose proof (same_options_offset p p2 (p_offset p2 + length t) Hs) as Hs'.
  split; [exact Hq|]. split; [exact Hs' | apply (at_text_limit p pre _ (pre ++ t)); assumption].
Qed.

(** The item of [j], printed at any place. *)
Definition value_prints (j : json) : Prop := forall p pre name,
  at_text p pre ->
  exists ok p', print_value (item_of name j) p = Ret (ok, p') /\
    printed p pre (render (format p) (p_depth p) j) ok p'.

(** The loops leave the level they were entered on. *)
Definition listed (p : printbuffer) (pre t : list Z) (ok : bool) (p' : printbuffer) : Prop :=
  (ok = true -> wrote p' pre t /\ p_depth p' = (p_depth p - 1)%nat /\
                same_options p (with_depth p' (p_depth p))) /\
  (noalloc p = true \/ plenty -> Z.of_nat (length pre + length t + 2) <= limit p -> ok = true).

(** The rest of a loop, after the text [t] was printed. *)
Lemma listed_after p pre t q t' ok p' :
  advanced p pre t q -> listed q (pre ++ t) t' ok p' -> listed p pre (t ++ t') ok p'.
Proof.
  intros ((m & Em & Hm) & Hs & Hl) [H1 H2]. split.
  - intros Hk. destruct (H1 Hk) as (Hw & Hd & Hs'). destruct Hs as (G1 & G2 & G3 & G4 & G5).
    split; [apply wrote_more, Hw|]. split; [congruence|].
    rewrite G1 in Hs'. apply (same_options_trans p q _ m); [exact Em | repeat split; assumption | exact Hs'].
  - destruct Hs as (_ & G2 & _). rewrite <- G2, <- Hl. rewrite !length_app in *. intros HA HB.
    apply H2; [exact HA|]. lia.
Qed.

(** A step that may fail for want of room only. *)
Lemma listed_fail p pre t n p' :
  (noalloc p = true \/ plenty -> Z.of_nat (length pre + n + 1) <= limit p -> false = true) ->
  (n <= length t + 1)%nat -> listed p pre t false p'.
Proof. intros H Hn. split; [discriminate|]. intros H1 H2. apply H; [exact H1 | lia]. Qed.

(** The closing bracket. *)
Lemma close_spec p pre n t :
  at_text p pre -> n = S (length t) ->
  exists ok p1, ensure p n = Ret (ok, p1) /\
    (ok = true -> format p1 = format p /\ p_depth p1 = p_depth p /\
      exists p2, store p1 (p_offset p1) (t ++ [0]) = Ret p2 /\ p_depth p2 = p_depth p /\
        listed p pre t true (with_depth p2 (p_depth p2 - 1))) /\
    (ok = false -> listed p pre t false p1).
Proof.
  intros Hat ->. destruct (put_text p pre (S (length t)) t [0] Hat) as (ok & p1 & E & Hok & Hlive);
    [rewrite length_app; simpl; lia | lia |].
  exists ok, p1. split; [exact E|]. split.
  - intros Hk. destruct (Hok Hk) as (p2 & E2 & _ & Hd & _ & Hf & Hd1 & _ & Hs & _ & Hw).
    split; [exact Hf|]. split; [exact Hd1|]. exists p2. split; [exact E2|]. split; [exact Hd|].
    split; [|reflexivity]. intros _. destruct (Hw [] eq_refl) as (rest & Eb & Hr).
    split; [exists rest; split; assumption|]. simpl. split; [lia|].
    destruct Hs as (G1 & G2 & G3 & G4 & G5). repeat split; assumption.
  - intros ->. apply (listed_fail p pre t (S (length t))); [exact Hlive | lia].
Qed.

Lemma print_elements_spec l : Forall value_prints l -> Forall strings_ok l -> forall p pre d,
  at_text p pre -> p_depth p = S d ->
  exists ok p', print_elements print_value (map (item_of None) l) p = Ret (ok, p') /\
    listed p pre (separated (if format p then [44; 32] else [44]) (map (render (format p) (S d)) l) ++ [93])
      ok p'.
Proof.
  intros Hl Hok. induction Hl as [|j l Hj Hl IH]; intros p pre d Hat Hd; cbn [map print_elements separated].
  - destruct (close_spec p pre 2 [93] Hat eq_refl) as (ok & p1 & -> & H1 & H2). cbn [obind].
    destruct ok; cbn [negb].
    + destruct (H1 eq_refl) as (_ & _ & p2 & E2 & _ & Hq). cbn [app] in E2. rewrite E2. cbn [obind].
      do 2 eexists. split; [reflexivity | exact Hq].
    + do 2 eexists. split; [reflexivity | apply H2; reflexivity].
  - apply Forall_cons in Hok as [Hsj Hok].
    destruct (Hj p pre None Hat) as (ok & p1 & -> & Hp). rewrite Hd in Hp. cbn [obind].
    set (r := render (format p) (S d) j) in *.
    destruct ok; cbn [negb].
    2:{ exists false, p1. split; [reflexivity|]. split; [discriminate|]. intros H1 H2. apply (proj2 Hp); [exact H1|].
        rewrite !length_app in H2. lia. }
    destruct (printed_advance p pre r p1 Hat Hp (render_nonzero _ _ _ Hsj)) as (q & -> & Hadv). cbn [obind].
    assert (Hfq : format q = format p) by apply Hadv.
    assert (Hdq : p_depth q = S d) by (rewrite <- Hd; apply Hadv).
    destruct l as [|j' l]; cbn [map].
    + destruct (IH Hok q (pre ++ r) d (proj1 Hadv) Hdq) as (ok & p' & E & Hq). rewrite Hfq in Hq.
      exists ok, p'. split; [exact E|]. rewrite app_nil_r. apply (listed_after p pre r q); assumption.
    + rewrite Hfq. set (sep := if format p then [44; 32] else [44]).
      destruct (put_advance q (pre ++ r) (length sep + 1) sep [0] (proj1 Hadv)) as (ok & p2 & -> & H1 & H2);
        [rewrite length_app; simpl; lia | lia |]. cbn [obind].
      destruct ok; cbn [negb].
      * destruct (H1 eq_refl) as (_ & _ & p3 & -> & Hd3 & Hadv3). cbn [obind].
        pose proof (advanced_trans _ _ _ _ _ _ Hadv Hadv3) as Hadv4.
        destruct (IH Hok _ (pre ++ r ++ sep) d (proj1 Hadv4)) as (ok & p' & E & Hq);
          [simpl; congruence|].
        exists ok, p'. split; [exact E|].
        assert (Hf3 : format (with_offset p3 (p_offset p3 + length sep)) = format p) by apply Hadv4.
        rewrite Hf3 in Hq. fold sep in Hq. rewrite <- app_assoc.
        rewrite <- (app_assoc sep), (app_assoc r sep). apply (listed_after p pre (r ++ sep) _ _ _ _ Hadv4).
        exact Hq.
      * exists false, p2. split; [reflexivity|].
        rewrite <- (app_assoc r), <- (app_assoc sep).
        apply (listed_after p pre r q); [exact Hadv|].
        apply (listed_fail q (pre ++ r) _ (length sep + 1)); [exact H2|]. rewrite length_app. lia.
Qed.

Definition indent (fmt : bool) (d : nat) : list Z := if fmt then repeat 9 d else [].
Definition colon (fmt : bool) : list Z := if fmt then [58; 9] else [58].
Definition line_end (fmt : bool) : list Z := if fmt then [10] else [].

Definition member_text (fmt : bool) (d : nat) (kv : list Z * json) : list Z :=
  indent fmt (S d) ++ quoted (fst kv) ++ colon fmt ++ render fmt (S d) (snd kv).

(** The text behind the opening brace. *)
Definition members_text (fmt : bool) (d : nat) (l : list (list Z * json)) : list Z :=
  separated (if fmt then [44; 10] else [44]) (map (member_text fmt d) l)
  ++ (match l with [] => [] | _ :: _ => line_end fmt end ++ indent fmt d) ++ [125].

Lemma render_obj fmt d l :
  render fmt d (JObj l) = (if fmt then [123; 10] else [123]) ++ members_text fmt d l.
Proof.
  cbn [render]. unfold members_text, member_text, indent, colon, line_end.
  destruct fmt; [|destruct l]; reflexivity.
Qed.

Definition comma {X : Type} (l : list X) : list Z := match l with [] => [] | _ :: _ => [44] end.

Lemma members_cons fmt d kv l :
  members_text fmt d (kv :: l)
  = member_text fmt d kv ++ (comma l ++ line_end fmt) ++ members_text fmt d l.
Proof.
  unfold members_text. cbn [map separated].
  destruct l as [|kv' l]; cbn [map comma]; rewrite <- ?app_assoc; [reflexivity|].
  f_equal. unfold line_end. destruct fmt; reflexivity.
Qed.

Lemma listed_fail_printed q pre t rest p' :
  printed q pre t false p' -> listed q pre (t ++ rest) false p'.
Proof.
  intros [_ H]. split; [discriminate|]. intros H1 H2. apply H; [exact H1|]. rewrite length_app in H2. lia.
Qed.

(** The indentation of a member. *)
Lemma indent_spec p pre rest :
  at_text p pre ->
  exists ok p', (if format p then
                   let! (ok, p) := ensure p (p_depth p) in
                   if negb ok then Ret (false, p)
                   else
                     let! p := store p (p_offset p) (repeat 9 (p_depth p)) in
                     Ret (true, with_offset p (p_offset p + p_depth p))
                 else Ret (true, p)) = Ret (ok, p') /\
    (ok = true -> advanced p pre (indent (format p) (p_depth p)) p') /\
    (ok = false -> listed p pre (indent (format p) (p_depth p) ++ rest) false p').
Proof.
  intros Hat. unfold indent. destruct (format p) eqn:Ef.
  2:{ exists true, p. split; [reflexivity|]. split; [|discriminate]. intros _.
      split; [rewrite app_nil_r; exact Hat|]. split; [apply same_options_refl | reflexivity]. }
  destruct (put_advance p pre (p_depth p) (repeat 9 (p_depth p)) [] Hat) as (ok & p1 & -> & H1 & H2);
    [rewrite app_nil_r, repeat_length; lia | rewrite repeat_length; lia |].
  cbn [obind]. destruct ok; cbn [negb].
  - destruct (H1 eq_refl) as (_ & Hd & p2 & E2 & Hd2 & Hadv). rewrite app_nil_r in E2.
    rewrite Hd, E2. cbn [obind]. do 2 eexists. split; [reflexivity|]. split; [|discriminate]. intros _.
    rewrite repeat_length in Hadv. rewrite Hd2. exact Hadv.
  - do 2 eexists. split; [reflexivity|]. split; [discriminate|]. intros _.
    apply (listed_fail p pre _ (p_depth p)); [exact H2|]. rewrite length_app, repeat_length. lia.
Qed.

Lemma advanced_format p pre t q : advanced p pre t q -> format q = format p.
Proof. intros (_ & (_ & _ & H & _) & _). exact H. Qed.

Lemma advanced_depth p pre t q : advanced p pre t q -> p_depth q = p_depth p.
Proof. intros (_ & (H & _) & _). exact H. Qed.

Lemma listed_step p pre a q rest (X : outcome (bool * printbuffer)) :
  advanced p pre a q ->
  (exists ok p', X = Ret (ok, p') /\ listed q (pre ++ a) rest ok p') ->
  exists ok p', X = Ret (ok, p') /\ listed p pre (a ++ rest) ok p'.
Proof. intros H (ok & p' & E & G). exists ok, p'. split; [exact E | apply (listed_after p pre a q); assumption]. Qed.

(** One member, from its indentation to the end of its line. *)
Lemma print_member_spec k j l tl p pre d :
  value_prints j -> nonneg k -> strings_ok j -> at_text p pre -> p_depth p = S d ->
  (forall q, advanced p pre (member_text (format p) d (k, j) ++ comma l ++ line_end (format p)) q ->
     exists ok p', print_members print_value (map member_item l) q = Ret (ok, p') /\
       listed q (pre ++ (member_text (format p) d (k, j) ++ comma l ++ line_end (format p))) tl ok p') ->
  exists ok p', print_members print_value (member_item (k, j) :: map member_item l) p = Ret (ok, p') /\
    listed p pre (member_text (format p) d (k, j) ++ comma l ++ line_end (format p) ++ tl) ok p'.
Proof.
  intros Hj Hk Hsj Hat Hd IH. cbn [print_members]. unfold member_text in *. cbn [fst snd] in *.
  rewrite <- !app_assoc in *.
  destruct (indent_spec p pre (quoted k ++ colon (format p) ++ render (format p) (S d) j
    ++ comma l ++ line_end (format p) ++ tl) Hat) as (ok & p1 & -> & H1 & H2).
  set (fm := format p) in *. cbn [obind]. rewrite Hd in H1, H2.
  destruct ok; cbn [negb]; [|do 2 eexists; split; [reflexivity | apply H2; reflexivity]].
  specialize (H1 eq_refl). clear H2. apply (listed_step p pre _ p1); [exact H1|].
  change (string (member_item (k, j))) with (string (item_of (Some k) j)).
  replace (string (item_of (Some k) j)) with (Some k) by (destruct j; reflexivity).
  destruct (print_string_spec p1 _ k (proj1 H1)) as (ok & p2 & -> & Hp). cbn [obind].
  destruct ok; cbn [negb]; [|do 2 eexists; split; [reflexivity | apply listed_fail_printed, Hp]].
  destruct (printed_advance p1 _ _ p2 (proj1 H1) Hp (quoted_nonzero k Hk)) as (q2 & -> & A2). cbn [obind].
  apply (listed_step p1 _ _ q2); [exact A2|]. clear Hp p2.
  pose proof (advanced_trans _ _ _ _ _ _ H1 A2) as A12.
  rewrite (advanced_format _ _ _ _ A12). fold fm. fold (colon fm).
  destruct (put_advance q2 _ (length (colon fm)) (colon fm) [] (proj1 A2)) as (ok & p3 & -> & H3 & H4);
    [rewrite app_nil_r; lia | lia |]. cbn [obind].
  destruct ok; cbn [negb].
  2:{ do 2 eexists. split; [reflexivity|]. apply (listed_fail _ _ _ (length (colon fm))); [exact H4|].
      rewrite length_app. lia. }
  destruct (H3 eq_refl) as (_ & _ & p4 & E4 & _ & A4). rewrite app_nil_r in E4. rewrite E4. cbn [obind].
  clear H3 H4 E4. set (q4 := with_offset p4 (p_offset p4 + length (colon fm))) in *.
  apply (listed_step q2 _ _ q4); [exact A4|].
  pose proof (advanced_trans _ _ _ _ _ _ A12 ltac:(rewrite app_assoc; exact A4)) as A14.
  destruct (Hj q4 _ (Some k) (proj1 A4)) as (ok & p5 & E5 & Hp).
  change (print_value (member_item (k, j)) q4) with (print_value (item_of (Some k) j) q4). rewrite E5.
  rewrite (advanced_format _ _ _ _ A14), (advanced_depth _ _ _ _ A14), Hd in Hp. fold fm in Hp. cbn [obind].
  destruct ok; cbn [negb]; [|do 2 eexists; split; [reflexivity | apply listed_fail_printed, Hp]].
  destruct (printed_advance q4 _ _ p5 (proj1 A4) Hp (render_nonzero _ _ _ Hsj)) as (q6 & -> & A6). cbn [obind].
  apply (listed_step q4 _ _ q6); [exact A6|].
  pose proof (advanced_trans _ _ _ _ _ _ A14 ltac:(rewrite !app_assoc in *; exact A6)) as A16.
  rewrite (advanced_format _ _ _ _ A16). fold fm. fold (line_end fm).
  replace (match map member_item l with [] => [] | _ :: _ => [44] end) with (comma l) by (destruct l; reflexivity).
  set (tail := comma l ++ line_end fm).
  destruct (put_advance q6 _ (length tail + 1) tail [0] (proj1 A6)) as (ok & p7 & -> & H7 & H8);
    [rewrite length_app; simpl; lia | lia |]. cbn [obind].
  rewrite (app_assoc (comma l)). fold tail.
  destruct ok; cbn [negb].
  2:{ do 2 eexists. split; [reflexivity|]. apply (listed_fail _ _ _ (length tail + 1)); [exact H8|].
      rewrite length_app. lia. }
  destruct (H7 eq_refl) as (_ & _ & p8 & -> & _ & A8). cbn [obind].
  apply (listed_step q6 _ _ (with_offset p8 (p_offset p8 + length tail))); [exact A8|].
  pose proof (advanced_trans _ _ _ _ _ _ A16 ltac:(rewrite !app_assoc in *; exact A8)) as A18.
  rewrite <- !app_assoc in *. apply IH. exact A18.
Qed.

Lemma print_members_spec l :
  Forall (fun kv => value_prints (snd kv)) l ->
  Forall (fun kv => nonneg (fst kv) /\ strings_ok (snd kv)) l -> forall p pre d,
  at_text p pre -> p_depth p = S d ->
  exists ok p', print_members print_value (map member_item l) p = Ret (ok, p') /\
    listed p pre (members_text (format p) d l) ok p'.
Proof.
  intros Hl Hok. induction Hl as [|[k j] l Hj Hl IH]; intros p pre d Hat Hd; cbn [map].
  - cbn [print_members].
    assert (Ht : members_text (format p) d [] = indent (format p) d ++ [125]) by reflexivity.
    rewrite Ht. rewrite Hd.
    destruct (close_spec p pre (if format p then S d + 1 else 2)%nat (indent (format p) d ++ [125]) Hat)
      as (ok & p1 & -> & H1 & H2).
    { rewrite length_app. unfold indent. destruct (format p); rewrite ?repeat_length; simpl; lia. }
    cbn [obind]. destruct ok; cbn [negb].
    + destruct (H1 eq_refl) as (Hf & Hd1 & p2 & E2 & _ & Hq). rewrite Hf, Hd1, Hd.
      replace (S d - 1)%nat with d by lia. fold (indent (format p) d).
      rewrite <- app_assoc in E2. cbn [app] in E2. rewrite E2. cbn [obind].
      do 2 eexists. split; [reflexivity | exact Hq].
    + do 2 eexists. split; [reflexivity | apply H2; reflexivity].
  - apply Forall_cons in Hok as [[Hk Hsj] Hok]. cbn [fst snd] in *.
    rewrite members_cons, <- (app_assoc (comma l)).
    apply print_member_spec; auto. intros q Hq.
    rewrite <- (advanced_format _ _ _ _ Hq). apply IH; [exact Hok | | ].
    + rewrite (advanced_format _ _ _ _ Hq). apply Hq.
    + rewrite (advanced_depth _ _ _ _ Hq). exact Hd.
Qed.

(** A list entered one level deeper, seen from outside. *)
Lemma listed_printed p pre t q rest ok p' :
  advanced p pre t q -> listed (with_depth q (S (p_depth q))) (pre ++ t) rest ok p' ->
  printed p pre (t ++ rest) ok p'.
Proof.
  intros ((m & Em & Hm) & Hs & Hl) [H1 H2]. split.
  - intros Hk. destruct (H1 Hk) as (Hw & Hd & Hs'). cbn [p_depth with_depth] in Hd, Hs'.
    split; [apply wrote_more, Hw|]. apply (same_options_trans p q p' m Em Hs).
    destruct Hs' as (_ & G2 & G3 & G4 & G5). repeat split; try assumption. lia.
  - intros HA HB. apply H2.
    + destruct Hs as (_ & G2 & _). simpl. rewrite G2. exact HA.
    + change (limit (with_depth q (S (p_depth q)))) with (limit q). rewrite Hl.
      rewrite !length_app in *. lia.
Qed.

Lemma printed_fail p pre t n p' :
  (noalloc p = true \/ plenty -> Z.of_nat (length pre + n + 1) <= limit p -> false = true) ->
  (n <= length t + 1)%nat -> printed p pre t false p'.
Proof. intros H Hn. split; [discriminate|]. intros H1 H2. apply H; [exact H1 | lia]. Qed.

Lemma Forall_strings l : fold_right and True (map strings_ok l) -> Forall strings_ok l.
Proof. induction l as [|j l IH]; simpl; [constructor|]. intros [H1 H2]. constructor; auto. Qed.

Lemma Forall_members l : fold_right and True (map (fun kv => nonneg (fst kv) /\ strings_ok (snd kv)) l) ->
  Forall (fun kv => nonneg (fst kv) /\ strings_ok (snd kv)) l.
Proof. induction l as [|j l IH]; simpl; [constructor|]. intros [H1 H2]. constructor; auto. Qed.

Lemma print_array_spec l p pre :
  Forall value_prints l -> Forall strings_ok l -> at_text p pre ->
  exists ok p', print_array print_value (map (item_of None) l) p = Ret (ok, p') /\
    printed p pre (render (format p) (p_depth p) (JArr l)) ok p'.
Proof.
  intros Hl Hok Hat. unfold print_array. cbn [render].
  destruct (put_advance p pre 1 [91] [] Hat) as (ok & p1 & -> & H1 & H2); [simpl; lia.. |]. cbn [obind].
  destruct ok; cbn [negb].
  2:{ do 2 eexists. split; [reflexivity|]. apply (printed_fail p pre _ 1); [exact H2 | simpl; lia]. }
  destruct (H1 eq_refl) as (_ & _ & p2 & E2 & Hd2 & A2). cbn [app] in E2. rewrite E2. cbn [obind].
  change (length [91]) with 1%nat in A2. set (q := with_offset p2 (p_offset p2 + 1)) in *.
  change (with_depth q (S (p_depth p2))) with (with_depth q (S (p_depth q))).
  destruct (print_elements_spec l Hl Hok (with_depth q (S (p_depth q))) (pre ++ [91]) (p_depth q)
    (proj1 A2) eq_refl) as (ok & p' & -> & Hq).
  exists ok, p'. split; [reflexivity|].
  change (91 :: ?x) with ([91] ++ x). apply (listed_printed p pre [91] q); [exact A2|].
  change (format (with_depth q (S (p_depth q)))) with (format q) in Hq.
  rewrite (advanced_format _ _ _ _ A2), (advanced_depth _ _ _ _ A2) in Hq.
  rewrite (advanced_depth _ _ _ _ A2). exact Hq.
Qed.

Lemma print_object_spec l p pre :
  Forall (fun kv => value_prints (snd kv)) l ->
  Forall (fun kv => nonneg (fst kv) /\ strings_ok (snd kv)) l -> at_text p pre ->
  exists ok p', print_object print_value (map member_item l) p = Ret (ok, p') /\
    printed p pre (render (format p) (p_depth p) (JObj l)) ok p'.
Proof.
  intros Hl Hok Hat. unfold print_object. rewrite render_obj.
  set (head := if format p then [123; 10] else [123]).
  destruct (put_advance p pre (length head + 1) head [] Hat) as (ok & p1 & -> & H1 & H2);
    [rewrite app_nil_r; lia | lia |]. cbn [obind].
  destruct ok; cbn [negb].
  2:{ do 2 eexists. split; [reflexivity|]. apply (printed_fail p pre _ (length head + 1)); [exact H2|].
      rewrite length_app. lia. }
  destruct (H1 eq_refl) as (_ & _ & p2 & E2 & Hd2 & A2). rewrite app_nil_r in E2. rewrite E2. cbn [obind].
  set (q := with_offset p2 (p_offset p2 + length head)) in *.
  change (with_offset (with_depth p2 (S (p_depth p2))) (p_offset p2 + length head))
    with (with_depth q (S (p_depth q))).
  destruct (print_members_spec l Hl Hok (with_depth q (S (p_depth q))) (pre ++ head) (p_depth q)
    (proj1 A2) eq_refl) as (ok & p' & -> & Hq).
  exists ok, p'. split; [reflexivity|]. apply (listed_printed p pre head q); [exact A2|].
  change (format (with_depth q (S (p_depth q)))) with (format q) in Hq.
  rewrite (advanced_format _ _ _ _ A2), (advanced_depth _ _ _ _ A2) in Hq.
  rewrite (advanced_depth _ _ _ _ A2). exact Hq.
Qed.

Lemma print_value_prints j : strings_ok j -> value_prints j.
Proof.
  induction j as [| | |d|s|l IH|l IH] using json_induction; intros Hok p pre name Hat.
  - apply (print_literal_spec p pre text_null 5 Hat eq_refl).
  - apply (print_literal_spec p pre text_false 6 Hat eq_refl).
  - apply (print_literal_spec p pre text_true 5 Hat eq_refl).
  - apply (print_number_spec p pre (item_of name (JNum d)) Hat).
  - apply (print_string_spec p pre s Hat).
  - apply Forall_strings in Hok. apply (print_array_spec l p pre); [|exact Hok|exact Hat].
    induction IH as [|j l Hj _ IHl]; constructor; apply Forall_cons in Hok as [? ?]; auto.
  - apply Forall_members in Hok. apply (print_object_spec l p pre); [|exact Hok|exact Hat].
    induction IH as [|j l Hj _ IHl]; constructor; apply Forall_cons in Hok as [[? ?] ?]; auto.
Qed.

(** ** A block that may not grow *)

(** Whatever the printer returns, such a block stays, with its length. *)
Definition keeps (p p' : printbuffer) : Prop :=
  noalloc p = true -> noalloc p' = true /\
  forall m, buffer p = Some m -> exists m', buffer p' = Some m' /\ length m' = length m.

Lemma keeps_refl p : keeps p p.
Proof. intros H. split; [exact H|]. intros m E. exists m. auto. Qed.

Lemma keeps_trans p q r : keeps p q -> keeps q r -> keeps p r.
Proof.
  intros H1 H2 Hn. destruct (H1 Hn) as [Hq H3]. destruct (H2 Hq) as [Hr H4]. split; [exact Hr|].
  intros m E. destruct (H3 m E) as (m1 & E1 & L1). destruct (H4 m1 E1) as (m2 & E2 & L2).
  exists m2. split; [exact E2 | congruence].
Qed.

Lemma keeps_same p q : noalloc q = noalloc p -> buffer q = buffer p -> keeps p q.
Proof. intros H1 H2 Hn. split; [congruence|]. intros m E. exists m. split; [congruence | reflexivity]. Qed.

Lemma keeps_ensure p n ok q : ensure p n = Ret (ok, q) -> keeps p q.
Proof.
  intros E Hn. unfold ensure in E. rewrite Hn in E.
  assert (q = p) as ->; [|apply keeps_refl, Hn].
  destruct (buffer p) as [m|]; [|congruence]. cbv zeta in E.
  repeat match type of E with context [if ?b then _ else _] => destruct b end; congruence.
Qed.

Lemma keeps_store p i bs q : store p i bs = Ret q -> keeps p q.
Proof.
  unfold store. destruct (buffer p) as [m|] eqn:Em; [|discriminate].
  destruct (Nat.leb_spec (i + length bs) (length m)); [|discriminate]. intros [= <-] Hn.
  split; [exact Hn|]. intros m0 E0. cbn. eexists. split; [reflexivity|].
  rewrite blit_length by assumption. congruence.
Qed.

Lemma keeps_update p q : update_offset p = Ret q -> keeps p q.
Proof.
  unfold update_offset. destruct (buffer p) as [m|] eqn:Em; [|intros [= <-]; apply keeps_refl].
  intros E. apply obind_Ret in E as (n & _ & [= <-]). apply keeps_same; [reflexivity | cbn; congruence].
Qed.

Lemma keeps_offset p o : keeps p (with_offset p o).
Proof. apply keeps_same; reflexivity. Qed.
Lemma keeps_depth p d : keeps p (with_depth p d).
Proof. apply keeps_same; reflexivity. Qed.
End Render.

Create HintDb keep.
#[export] Hint Resolve keeps_refl keeps_ensure keeps_store keeps_update keeps_offset keeps_depth : keep.

(** Follow a run of the printer that returned, step by step. *)
Ltac run_keep :=
  repeat match goal with
  | H : obind _ _ = Ret _ |- _ => apply obind_Ret in H as (? & ? & H)
  | x : bool * printbuffer |- _ => destruct x
  | H : Ret _ = Ret _ |- _ => injection H as ?; subst
  | H : Crash _ = Ret _ |- _ => discriminate H
  | H : (if ?b then _ else _) = Ret _ |- _ => destruct b eqn:?
  | H : match ?l with [] => _ | _ :: _ => _ end = Ret _ |- _ => destruct l eqn:?
  | H : match ?o with Some _ => _ | None => _ end = Ret _ |- _ => destruct o eqn:?
  end.

(** Chain the steps from the first state to the last. *)
Ltac chain_keep :=
  first [ solve [eauto with keep]
        | match goal with
          | H : ensure ?p _ = Ret (_, ?q) |- keeps ?p _ => apply (keeps_trans p q); [eauto with keep | chain_keep]
          | H : store ?p _ _ = Ret ?q |- keeps ?p _ => apply (keeps_trans p q); [eauto with keep | chain_keep]
          | H : update_offset ?p = Ret ?q |- keeps ?p _ => apply (keeps_trans p q); [eauto with keep | chain_keep]
          | H : keeps (with_offset ?p ?n) _ |- keeps ?p _ =>
              apply (keeps_trans p (with_offset p n)); [apply keeps_offset | chain_keep]
          | H : keeps (with_depth (with_offset ?p ?n) ?d) _ |- keeps ?p _ =>
              apply (keeps_trans p (with_offset p n)); [apply keeps_offset |];
              apply (keeps_trans _ (with_depth (with_offset p n) d)); [apply keeps_depth | chain_keep]
          | H : keeps (with_offset (with_depth ?p ?d) ?n) _ |- keeps ?p _ =>
              apply (keeps_trans p (with_depth p d)); [apply keeps_depth |];
              apply (keeps_trans _ (with_offset (with_depth p d) n)); [apply keeps_offset | chain_keep]
          | H : keeps ?p ?q |- keeps ?p _ => apply (keeps_trans p q); [exact H | clear H; chain_keep]
          | |- keeps ?p ?q => match q with with_offset ?r _ => apply (keeps_trans p r); [chain_keep | apply keeps_offset]
                                         | with_depth ?r _ => apply (keeps_trans p r); [chain_keep | apply keeps_depth] end
          end ].

Section Keep.
Context `{D : CDouble} `{A : Allocator}.

Lemma keeps_escape s : forall p o q, escape_loop s p o = Ret q -> keeps p q.
Proof.
  induction s as [|c s IH]; intros p o q H; cbn [escape_loop] in H; run_keep; eauto with keep;
    repeat match goal with X : escape_loop _ _ _ = Ret _ |- _ => apply IH in X end;
    chain_keep.
Qed.

Lemma keeps_literal p n bs ok q : print_literal p n bs = Ret (ok, q) -> keeps p q.
Proof. unfold print_literal. intros H. run_keep; chain_keep. Qed.

Lemma keeps_number it p ok q : print_number it p = Ret (ok, q) -> keeps p q.
Proof. unfold print_number. intros H. run_keep; chain_keep. Qed.

Lemma keeps_string s p ok q : print_string_ptr s p = Ret (ok, q) -> keeps p q.
Proof.
  unfold print_string_ptr. intros H. run_keep;
    repeat match goal with X : escape_loop _ _ _ = Ret _ |- _ => apply keeps_escape in X end; chain_keep.
Qed.

Lemma item_induction (P : item -> Prop) :
  (forall t vs vi vd nm ch, Forall P ch -> P (mkItem t vs vi vd nm ch)) -> forall it, P it.
Proof.
  intros H. fix IH 1. intros [t vs vi vd nm ch]. apply H.
  induction ch as [|x ch IHc]; constructor; [apply IH | exact IHc].
Qed.

Definition value_keeps (it : item) : Prop :=
  forall p ok q, print_value it p = Ret (ok, q) -> keeps p q.

Lemma keeps_elements l : Forall value_keeps l -> forall p ok q,
  print_elements print_value l p = Ret (ok, q) -> keeps p q.
Proof.
  induction 1 as [|it l Hi Hl IH]; intros p ok q H; cbn [print_elements] in H; run_keep;
    repeat match goal with
    | X : print_value _ _ = Ret _ |- _ => apply Hi in X
    | X : print_elements _ _ _ = Ret _ |- _ => apply IH in X
    end; chain_keep.
Qed.

Lemma keeps_members l : Forall value_keeps l -> forall p ok q,
  print_members print_value l p = Ret (ok, q) -> keeps p q.
Proof.
  induction 1 as [|it l Hi Hl IH]; intros p ok q H; cbn [print_members] in H; run_keep;
    repeat match goal with
    | X : print_value _ _ = Ret _ |- _ => apply Hi in X
    | X : print_string_ptr _ _ = Ret _ |- _ => apply keeps_string in X
    | X : print_members _ _ _ = Ret _ |- _ => apply IH in X
    end; chain_keep.
Qed.

Lemma print_value_keeps it : value_keeps it.
Proof.
  induction it as [t vs vi vd nm ch IH] using item_induction. intros p ok q H.
  cbn [print_value] in H. unfold print_string, print_array, print_object in H. run_keep;
    repeat match goal with
    | X : print_literal _ _ _ = Ret _ |- _ => apply keeps_literal in X
    | X : print_number _ _ = Ret _ |- _ => apply keeps_number in X
    | X : print_string_ptr _ _ = Ret _ |- _ => apply keeps_string in X
    | X : print_elements _ _ _ = Ret _ |- _ => apply (keeps_elements _ IH) in X
    | X : print_members _ _ _ = Ret _ |- _ => apply (keeps_members _ IH) in X
    end; chain_keep.
Qed.
End Keep.
