(* ===== verification/JsonRound.v ===== *)
(** * JSON: reading back what was printed

    The parser on the text of a value: strings, numbers, arrays and objects,
    compact or formatted, are read back as the value that was printed. *)

From S2P Require Import Prelude JsonText JsonSafe JsonParse JsonPrint JsonRender.

Local Open Scope Z_scope.

(** ** Reading at a place of a text *)
Lemma drop_plus {X : Type} i (s a r : list X) : drop i s = a ++ r -> drop (i + length a) s = r.
Proof. intros H. rewrite <- drop_drop, H. apply drop_app_length. Qed.

Lemma lookup_at {X : Type} i (s : list X) x r : drop i s = x :: r -> s !! i = Some x.
Proof. intros H. rewrite <- (Nat.add_0_r i), <- lookup_drop, H. reflexivity. Qed.

Lemma get8_at i s x r : drop i s = x :: r -> get8 s i = Ret x.
Proof. intros H. unfold get8. rewrite (lookup_at _ _ _ _ H). reflexivity. Qed.

Lemma drop_next {X : Type} i (s : list X) x r : drop i s = x :: r -> drop (S i) s = r.
Proof. intros H. replace (S i) with (i + length [x])%nat by (simpl; lia). apply (drop_plus i s [x]), H. Qed.

Lemma drop_length {X : Type} i (s a r : list X) : drop i s = a ++ r -> a <> [] -> (i + length a <= length s)%nat.
Proof.
  intros H Ha. assert (length (drop i s) = (length a + length r)%nat) as Hl by (rewrite H; apply length_app).
  rewrite length_drop in Hl. destruct a; [contradiction|]. simpl in *. lia.
Qed.

Section Round.
Context `{D : CDouble} `{A : Allocator}.

(** ** Strings *)
Lemma hex_digit_char v : 0 <= v < 16 -> hex_digit (hex_char v) = Some v.
Proof.
  intros H. unfold hex_digit, hex_char. destruct (Z.ltb_spec v 10); repeat zcase; cbn [andb]; try lia;
    f_equal; lia.
Qed.

Definition text_byte (c : Z) : Prop := 1 <= c < 256.

Lemma cstr_id s : Forall text_byte s -> cstr s = s.
Proof.
  induction 1 as [|c s Hc _ IH]; cbn [cstr]; [reflexivity|]. unfold text_byte in Hc.
  rewrite (proj2 (Z.eqb_neq c 0)) by lia. congruence.
Qed.

(** What [escape1] writes. *)
Lemma escape1_cases c : text_byte c ->
  (escape1 c = [c] /\ c <> 34 /\ c <> 92) \/
  (exists l, escape1 c = [92; l] /\ simple_escape l = Some c) \/
  (c < 32 /\ escape1 c = [92; 117; 48; 48; hex_char (c / 16); hex_char (c mod 16)]).
Proof.
  intros Hc. unfold text_byte in Hc. unfold escape1. destruct (_ && _) eqn:E.
  { left. split; [reflexivity|]. lia. }
  right. destruct (escape_letter c) as [l|] eqn:El; [left | right; split; [|reflexivity]].
  - exists l. split; [reflexivity|]. unfold escape_letter in El. clear E.
    repeat (zcase; [injection El as <-; subst; reflexivity|]). discriminate.
  - unfold escape_letter in El.
    repeat (match type of El with context [Z.eqb ?a ?b] => destruct (Z.eqb_spec a b) end; [discriminate|]).
    lia.
Qed.

Lemma hex_of_escape s i c r : text_byte c -> c < 32 ->
  drop i s = [48; 48; hex_char (c / 16); hex_char (c mod 16)] ++ r -> parse_hex4 s i = Ret c.
Proof.
  intros Hc Hlt E. unfold text_byte in Hc. unfold parse_hex4. cbn [hex4_loop app] in *.
  rewrite (get8_at _ _ _ _ E). cbn [obind]. apply drop_next in E.
  change (hex_digit 48) with (Some 0). cbn [Nat.eqb]. rewrite (get8_at _ _ _ _ E). cbn [obind]. apply drop_next in E.
  change (hex_digit 48) with (Some 0). cbn [Nat.eqb]. rewrite (get8_at _ _ _ _ E). cbn [obind]. apply drop_next in E.
  rewrite hex_digit_char by (Z.div_mod_to_equations; lia). cbn [Nat.eqb].
  rewrite (get8_at _ _ _ _ E). cbn [obind].
  rewrite hex_digit_char by (Z.div_mod_to_equations; lia). cbn [Nat.eqb].
  change (u32 (Z.shiftl (u32 (u32 (Z.shiftl (u32 (0 + 0)) 4) + 0)) 4)) with 0.
  rewrite Z.shiftl_mul_pow2 by lia. change (2 ^ 4) with 16. f_equal. unfold u32.
  Z.div_mod_to_equations. lia.
Qed.

Lemma utf16_of_escape s i ie c r : text_byte c -> c < 32 -> (i + 6 <= ie)%nat ->
  drop i s = [92; 117; 48; 48; hex_char (c / 16); hex_char (c mod 16)] ++ r ->
  utf16_literal_to_utf8 s i ie = Ret (6%nat, [c]).
Proof.
  intros Hc Hlt Hie E. unfold utf16_literal_to_utf8, utf16_codepoint.
  rewrite (proj2 (Nat.ltb_ge _ _)) by lia.
  rewrite (hex_of_escape s (i + 2) c r Hc Hlt).
  2:{ exact (drop_plus i s [92; 117] _ E). }
  cbn [obind]. unfold text_byte in Hc.
  rewrite (proj2 (Z.leb_gt 56320 c)), (proj2 (Z.leb_gt 55296 c)) by lia. cbn [andb obind].
  unfold utf8_class. rewrite (proj2 (Z.ltb_lt c 128)) by lia. do 3 f_equal.
  unfold utf8_encode. cbn [Nat.sub utf8_tail Nat.ltb Nat.leb].
  change (Z.land c 127) with (Z.land c (Z.ones 7)). rewrite Z.land_ones by lia.
  change (2 ^ 7) with 128. unfold u8. f_equal. Z.div_mod_to_equations. lia.
Qed.

Lemma emit_more size size' out bs x : (size <= size')%nat -> emit size out bs = Ret x -> emit size' out bs = Ret x.
Proof.
  unfold emit. intros H. destruct (Nat.leb_spec (length out + length bs) size); [|discriminate].
  intros [= <-]. rewrite (proj2 (Nat.leb_le _ _)) by lia. reflexivity.
Qed.

(** A larger block does not change the result. *)
Lemma decode_more s ie size size' : (size <= size')%nat -> forall fuel ip out r,
  decode_string fuel s ip ie size out = Ret r -> decode_string fuel s ip ie size' out = Ret r.
Proof.
  intros Hs. induction fuel as [|fuel IH]; intros ip out r; cbn [decode_string]; [discriminate|].
  destruct (ip <? ie)%nat; [|auto].
  destruct (get8 s ip) as [c|]; cbn [obind]; [|discriminate].
  destruct (negb (c =? 92)).
  { intros H. apply obind_Ret in H as (o & E & H). rewrite (emit_more _ _ _ _ _ Hs E). cbn [obind]. auto. }
  destruct (get8 s (ip + 1)) as [e|]; cbn [obind]; [|discriminate].
  destruct (simple_escape e).
  { intros H. apply obind_Ret in H as (o & E & H). rewrite (emit_more _ _ _ _ _ Hs E). cbn [obind]. auto. }
  destruct (e =? 117); [|auto].
  destruct (utf16_literal_to_utf8 s ip ie) as [[len bs]|]; cbn [obind]; [|discriminate].
  destruct (len =? 0)%nat; [auto|].
  intros H. apply obind_Ret in H as (o & E & H). rewrite (emit_more _ _ _ _ _ Hs E). cbn [obind]. auto.
Qed.

(** The second pass undoes the escapes. *)
Lemma decode_text txt s : Forall text_byte s -> forall fuel ip size out rest,
  drop ip txt = flat_map escape1 s ++ rest -> (length (flat_map escape1 s) < fuel)%nat ->
  (length out + length s <= size)%nat ->
  let ie := (ip + length (flat_map escape1 s))%nat in
  decode_string fuel txt ip ie size out = Ret (Some (out ++ s), ie).
Proof.
  induction 1 as [|c s Hc Hs IH]; intros [|fuel] ip size out rest E Hf Hsz ie; subst ie;
    cbn [flat_map] in *; rewrite ?length_app in *; try lia; cbn [decode_string].
  - simpl. rewrite Nat.add_0_r, (proj2 (Nat.ltb_ge ip ip)) by lia. rewrite app_nil_r. reflexivity.
  - rewrite <- app_assoc in E. cbn [length] in Hsz.
    assert (Hstep : forall k, k = length (escape1 c) -> (0 < k)%nat ->
      decode_string fuel txt (ip + k) (ip + (k + length (flat_map escape1 s))) size (out ++ [c])
      = Ret (Some (out ++ c :: s), (ip + (k + length (flat_map escape1 s)))%nat)).
    { intros k -> Hk. apply drop_plus in E.
      pose proof (IH fuel (ip + length (escape1 c))%nat size (out ++ [c]) rest E ltac:(lia)) as H.
      rewrite Nat.add_assoc, H; [|rewrite length_app; simpl; lia]. rewrite <- app_assoc. reflexivity. }
    destruct (escape1_cases c Hc) as [(Ec & H34 & H92)|[(l & Ec & Hl)|(Hlt & Ec)]]; rewrite Ec in *;
      cbn [app length] in E |- *; rewrite (proj2 (Nat.ltb_lt _ _)) by lia;
      rewrite (get8_at _ _ _ _ E); cbn [obind].
    + rewrite (proj2 (Z.eqb_neq c 92) H92). cbn [negb]. rewrite emit_ok by (simpl; lia). cbn [obind].
      apply Hstep; [reflexivity | lia].
    + rewrite Nat.add_1_r. rewrite (get8_at _ _ _ _ (drop_next _ _ _ _ E)). cbn [obind negb Z.eqb Pos.eqb].
      rewrite Hl, emit_ok by (simpl; lia). cbn [obind]. apply Hstep; [reflexivity | lia].
    + rewrite Nat.add_1_r. rewrite (get8_at _ _ _ _ (drop_next _ _ _ _ E)). cbn [obind negb Z.eqb Pos.eqb].
      change (simple_escape 117) with (@None Z). cbv iota.
      erewrite utf16_of_escape; [|exact Hc|exact Hlt|lia|exact E]. cbn [obind Nat.eqb].
      rewrite emit_ok by (simpl; lia). cbn [obind]. apply Hstep; [reflexivity | lia].
Qed.

(** The first pass finds the closing quote. *)
Lemma scan_plain txt f e k c rest :
  drop e txt = c :: rest -> c <> 34 -> c <> 92 ->
  scan_string (S f) txt e k = scan_string f txt (S e) k.
Proof.
  intros E H1 H2. cbn [scan_string].
  rewrite (proj2 (Nat.ltb_lt _ _) (lookup_lt_Some _ _ _ (lookup_at _ _ _ _ E))), (get8_at _ _ _ _ E).
  cbn [obind]. rewrite (proj2 (Z.eqb_neq c 34) H1), (proj2 (Z.eqb_neq c 92) H2), Nat.add_1_r. reflexivity.
Qed.

Lemma scan_pair txt f e k c rest :
  drop e txt = 92 :: c :: rest ->
  scan_string (S f) txt e k = scan_string f txt (S (S e)) (S k).
Proof.
  intros E. cbn [scan_string]. pose proof (lookup_lt_Some _ _ _ (lookup_at _ _ _ _ (drop_next _ _ _ _ E))).
  rewrite (proj2 (Nat.ltb_lt _ _)) by lia. rewrite (get8_at _ _ _ _ E). cbn [obind Z.eqb Pos.eqb].
  rewrite (proj2 (Nat.leb_gt _ _)) by lia. replace (e + 2)%nat with (S (S e)) by lia. reflexivity.
Qed.

Lemma hex_char_plain v : 0 <= v < 16 -> hex_char v <> 34 /\ hex_char v <> 92.
Proof. intros Hv. unfold hex_char. zcase; lia. Qed.

Lemma scan_text txt s : Forall text_byte s -> forall fuel e k rest,
  drop e txt = flat_map escape1 s ++ 34 :: rest -> (length (flat_map escape1 s) < fuel)%nat ->
  exists k', scan_string fuel txt e k = Ret (Some ((e + length (flat_map escape1 s))%nat, k')).
Proof.
  induction 1 as [|c s Hc Hs IH]; intros fuel e k rest E Hf; cbn [flat_map] in *.
  - destruct fuel as [|fuel]; [simpl in Hf; lia|]. cbn [scan_string app] in *.
    rewrite (proj2 (Nat.ltb_lt _ _) (lookup_lt_Some _ _ _ (lookup_at _ _ _ _ E))), (get8_at _ _ _ _ E).
    simpl. rewrite Nat.add_0_r. eexists. reflexivity.
  - rewrite length_app in *. rewrite <- app_assoc in E. pose proof (drop_plus _ _ _ _ E) as E'.
    assert (Hgo : forall f' k2, (length (flat_map escape1 s) < f')%nat ->
      exists k', scan_string f' txt (e + length (escape1 c)) k2
        = Ret (Some ((e + (length (escape1 c) + length (flat_map escape1 s)))%nat, k'))).
    { intros f' k2 Hf'. destruct (IH f' _ k2 rest E' Hf') as [k' Hk]. exists k'. rewrite Hk, Nat.add_assoc.
      reflexivity. }
    destruct (escape1_cases c Hc) as [(Ec & H34 & H92)|[(l & Ec & Hl)|(Hlt & Ec)]]; rewrite Ec in *;
      cbn [app length] in *.
    + destruct fuel as [|fuel]; [lia|]. rewrite (scan_plain _ _ _ _ _ _ E H34 H92), <- Nat.add_1_r.
      apply Hgo. lia.
    + destruct fuel as [|fuel]; [lia|]. rewrite (scan_pair _ _ _ _ _ _ E).
      replace (S (S e)) with (e + 2)%nat by lia. apply Hgo. lia.
    + do 5 (destruct fuel as [|fuel]; [lia|]). rewrite (scan_pair _ _ _ _ _ _ E).
      unfold text_byte in Hc.
      destruct (hex_char_plain (c / 16)) as [D1 D2]; [Z.div_mod_to_equations; lia|].
      destruct (hex_char_plain (c mod 16)) as [D3 D4]; [Z.div_mod_to_equations; lia|].
      apply drop_next, drop_next in E. rewrite (scan_plain _ _ _ _ _ _ E) by lia.
      apply drop_next in E. rewrite (scan_plain _ _ _ _ _ _ E) by lia.
      apply drop_next in E. rewrite (scan_plain _ _ _ _ _ _ E) by assumption.
      apply drop_next in E. rewrite (scan_plain _ _ _ _ _ _ E) by assumption.
      replace (S (S (S (S (S (S e)))))) with (e + 6)%nat by lia. apply Hgo. lia.
Qed.

Hypothesis memory : plenty.

(** A printed string is read back. *)
Lemma parse_string_text it b s rest :
  Forall text_byte s -> drop (offset b) (content b) = quoted s ++ rest ->
  exists n, parse_string it b
    = Ret (Some (mkItem cJSON_String (Some s) (valueint it) (valuedouble it) (string it) (child it)),
           mkPB (content b) (offset b + length (quoted s)) (depth b) n).
Proof.
  intros Hs E. unfold quoted in *. rewrite (cstr_id s Hs) in *. cbn [app] in E. rewrite <- app_assoc in E.
  pose proof (lookup_lt_Some _ _ _ (lookup_at _ _ _ _ E)) as Hlt. pose proof (drop_next _ _ _ _ E) as E1.
  pose proof (parse_string_total it b Hlt) as Htot. revert Htot. unfold parse_string.
  unfold peek. rewrite Nat.add_0_r, (get8_at _ _ _ _ E). cbn [obind Z.eqb Pos.eqb negb].
  rewrite Nat.add_1_r.
  assert (Hlen : (S (offset b) + length (flat_map escape1 s) < length (content b))%nat).
  { pose proof (drop_plus _ _ _ _ E1) as E2. apply lookup_at, lookup_lt_Some in E2. exact E2. }
  destruct (scan_text (content b) s Hs (S (length (content b))) (S (offset b)) 0 rest E1 ltac:(lia)) as [k ->].
  cbn [obind]. set (ie := (S (offset b) + length (flat_map escape1 s))%nat) in *.
  set (size := (ie - offset b - k + 1)%nat).
  destruct (memory (allocs b) size) as [m ->]. cbn [content alloc_called].
  intros (r & b' & Hr & _).
  destruct (decode_string (S (length (content b))) (content b) (S (offset b)) ie size []) as [[o ip]|c] eqn:Ed;
    [|cbn [obind] in Hr; discriminate].
  pose proof (decode_text (content b) s Hs (S (length (content b))) (S (offset b))
    (Nat.max size (length s)) [] (34 :: rest) E1 ltac:(lia) ltac:(simpl; lia)) as Ht. cbn zeta in Ht.
  fold ie in Ht.
  pose proof (decode_more _ _ _ _ (Nat.le_max_l size (length s)) _ _ _ _ Ed) as Hm.
  rewrite Ht in Hm. apply Ret_inj in Hm. injection Hm as <- <-. cbn [obind app] in Hr |- *.
  destruct (emit size s [0]) as [x|]; [|cbn [obind] in Hr; discriminate]. cbn [obind].
  exists (S (allocs b)). do 2 f_equal. unfold at_offset, alloc_called. cbn [content offset depth allocs].
  f_equal. subst ie. cbn [length]. rewrite length_app. simpl. lia.
Qed.

(** ** Numbers *)
Context {DT : DoubleText D}.

(** What follows a value: not the continuation of a number. *)
Definition delimited (rest : list Z) : Prop :=
  exists c r, rest = c :: r /\ is_number_char c = false /\ c <> 46.

Lemma copy_number_text b t rest : Forall number_or_dot t -> delimited rest -> forall n i,
  drop (offset b + i) (content b) = t ++ rest -> (length t <= n)%nat -> copy_number b n i = Ret t.
Proof.
  intros Ht (c & r & -> & Hc & H46). induction Ht as [|x t Hx Ht IH]; intros [|n] i E Hn;
    simpl in Hn; try lia; try reflexivity; cbn [copy_number app] in *;
    unfold can_access_at_index, peek;
    rewrite (proj2 (Nat.ltb_lt _ _) (lookup_lt_Some _ _ _ (lookup_at _ _ _ _ E))), (get8_at _ _ _ _ E);
    cbn [obind].
  - rewrite Hc, (proj2 (Z.eqb_neq c 46) H46). reflexivity.
  - rewrite (IH n (S i)); [|rewrite Nat.add_succ_r; apply (drop_next _ _ _ _ E) | lia]. cbn [obind].
    destruct Hx as [Hx| ->]; [rewrite Hx; reflexivity | reflexivity].
Qed.

Lemma num_finite d : finite d -> exists k, num d = sprintf_g k d /\ (k = 15 \/ k = 17)%nat.
Proof.
  intros Hf. unfold num. rewrite Hf.
  destruct (sscanf_lg _) as [x|]; [destruct (compare_double x d)|]; eauto.
Qed.

(** The number that is read back. *)
Definition reread_number (d : double) : double := fst (strtod (num d)).

Lemma parse_number_text it b d rest :
  finite d -> drop (offset b) (content b) = num d ++ rest -> delimited rest ->
  parse_number it b
  = Ret (Some (mkItem cJSON_Number (valuestring it) (saturate (reread_number d)) (reread_number d)
                 (string it) (child it)),
         at_offset b (offset b + length (num d))).
Proof.
  intros Hf E Hr. unfold parse_number, reread_number.
  destruct (num_finite d Hf) as (k & Ek & Hk). rewrite Ek in *.
  pose proof (g_length k d Hf Hk) as Hl.
  rewrite (copy_number_text b _ rest (g_chars k d Hf) Hr 63 0) by (rewrite ?Nat.add_0_r; assumption || lia).
  cbn [obind]. pose proof (g_read k d Hf) as Hu. destruct (strtod (sprintf_g k d)) as [x used].
  cbn [snd] in Hu. subst used. cbn [fst].
  destruct (Nat.eqb_spec (length (sprintf_g k d)) 0); [lia | reflexivity].
Qed.

(** ** Values *)

(** The value that is read back: numbers as far as the text gives them, no
    number at all for an infinity or a NaN. *)
Fixpoint reread (j : json) : json :=
  match j with
  | JNum d => if d_eq (d_mul d d_zero) d_zero then JNum (reread_number d) else JNull
  | JArr l => JArr (map reread l)
  | JObj l => JObj (map (fun kv => (fst kv, reread (snd kv))) l)
  | _ => j
  end.

(** Strings without a zero byte. *)
Fixpoint texts_ok (j : json) : Prop :=
  match j with
  | JStr s => Forall text_byte s
  | JArr l => fold_right and True (map texts_ok l)
  | JObj l => fold_right and True (map (fun kv => Forall text_byte (fst kv) /\ texts_ok (snd kv)) l)
  | _ => True
  end.

Lemma texts_strings j : texts_ok j -> strings_ok j.
Proof.
  assert (Hb : forall s, Forall text_byte s -> nonneg s).
  { intros s H. eapply Forall_impl; [exact H|]. unfold text_byte. intros; lia. }
  induction j as [| | |d|s|l IH|l IH] using json_induction; cbn [texts_ok strings_ok]; intros H; auto.
  - induction IH as [|x l Hx _ IHl]; cbn [map fold_right] in *; [exact I|]. destruct H as [H1 H2]. split; auto.
  - induction IH as [|x l Hx _ IHl]; cbn [map fold_right] in *; [exact I|].
    destruct H as [[H1 H2] H3]. repeat split; auto.
Qed.

Definition white (w : list Z) : Prop := Forall (fun c => c <= 32) w.

Lemma white_indent fmt n : white (indent fmt n).
Proof.
  destruct fmt; [|constructor]. unfold indent, white. rewrite repeat_replicate.
  apply Forall_replicate. lia.
Qed.

Lemma num_head d : exists c t, num d = c :: t /\ 32 < c /\ c <> 93 /\ c <> 125 /\ c < 127.
Proof.
  destruct (d_eq (d_mul d d_zero) d_zero) eqn:Ef.
  - destruct (num_finite d Ef) as (k & Ek & Hk). pose proof (g_length k d Ef Hk) as Hl. rewrite Ek.
    destruct (sprintf_g k d) as [|c t] eqn:Et; [simpl in Hl; lia|]. exists c, t. split; [reflexivity|].
    destruct (g_head k d c t Ef Et); lia.
  - unfold num. rewrite Ef. exists 110. eexists. split; [reflexivity | lia].
Qed.

Lemma render_head fmt d j : exists c t, render fmt d j = c :: t /\ 32 < c /\ c <> 93 /\ c <> 125 /\ c < 127.
Proof.
  destruct j; cbn [render];
    try (eexists _, _; split; [reflexivity | lia]); [apply num_head|].
  destruct fmt; eexists _, _; (split; [reflexivity | lia]).
Qed.

Lemma render_length fmt d j : (1 <= length (render fmt d j))%nat.
Proof. destruct (render_head fmt d j) as (c & t & -> & _). simpl. lia. Qed.

(** The value of [j] is read back wherever its text stands. *)
Definition parses (fmt : bool) (j : json) : Prop := forall d f it b name rest,
  blank it name -> drop (offset b) (content b) = render fmt d j ++ rest -> delimited rest ->
  (height j + depth b <= CJSON_NESTING_LIMIT)%nat ->
  (4 * (length (content b) - offset b) + 1 <= f)%nat ->
  exists n, parse_value f it b
    = Ret (Some (item_of name (reread j)),
           mkPB (content b) (offset b + length (render fmt d j)) (depth b) n).

(** Dispatch on the first character. *)
Lemma reads_other b c t s0 s : drop (offset b) (content b) = c :: t -> c <> s0 -> reads b (s0 :: s) = Ret false.
Proof.
  intros E Hc. unfold reads. destruct (can_read b _); [|reflexivity]. cbn [lit_at]. unfold peek.
  rewrite Nat.add_0_r, (get8_at _ _ _ _ E). cbn [obind]. rewrite (proj2 (Z.eqb_neq c s0) Hc). reflexivity.
Qed.

Lemma lit_same b s : forall i rest, drop (offset b + i) (content b) = s ++ rest -> lit_at b i s = Ret true.
Proof.
  induction s as [|c s IH]; intros i rest E; cbn [lit_at app] in *; [reflexivity|]. unfold peek.
  rewrite (get8_at _ _ _ _ E). cbn [obind]. rewrite Z.eqb_refl. apply (IH _ rest).
  rewrite Nat.add_succ_r. apply (drop_next _ _ _ _ E).
Qed.

Lemma reads_same b s rest : drop (offset b) (content b) = s ++ rest -> s <> [] -> reads b s = Ret true.
Proof.
  intros E Hs. unfold reads, can_read. pose proof (drop_length _ _ _ _ E Hs).
  rewrite (proj2 (Nat.leb_le _ _)) by lia. apply (lit_same b s 0 rest). rewrite Nat.add_0_r. exact E.
Qed.

Lemma next_is_at b c x t : drop (offset b) (content b) = x :: t -> next_is b c = Ret (x =? c).
Proof.
  intros E. unfold next_is, can_access_at_index, peek. rewrite Nat.add_0_r.
  rewrite (proj2 (Nat.ltb_lt _ _) (lookup_lt_Some _ _ _ (lookup_at _ _ _ _ E))), (get8_at _ _ _ _ E).
  reflexivity.
Qed.

Lemma next_is_number_at b x t : drop (offset b) (content b) = x :: t ->
  next_is_number b = Ret ((x =? 45) || ((48 <=? x) && (x <=? 57))).
Proof.
  intros E. unfold next_is_number, can_access_at_index, peek. rewrite Nat.add_0_r.
  rewrite (proj2 (Nat.ltb_lt _ _) (lookup_lt_Some _ _ _ (lookup_at _ _ _ _ E))), (get8_at _ _ _ _ E).
  reflexivity.
Qed.

Lemma parses_literals fmt : parses fmt JNull /\ parses fmt JFalse /\ parses fmt JTrue.
Proof.
  repeat split; intros d f it b name rest [t ->] E Hr Hh Hf; (destruct f as [|f]; [lia|]);
    cbn [parse_value render] in *.
  - rewrite (reads_same b text_null rest E) by discriminate. eexists. reflexivity.
  - unfold text_null. rewrite (reads_other b _ _ 110 _ E) by lia. cbn [obind].
    rewrite (reads_same b text_false rest E) by discriminate. eexists. reflexivity.
  - unfold text_null, text_false. rewrite (reads_other b _ _ 110 _ E), (reads_other b _ _ 102 _ E) by lia.
    cbn [obind]. rewrite (reads_same b text_true rest E) by discriminate. eexists. reflexivity.
Qed.

(** A value that does not start with a letter. *)
Lemma parse_value_other f it b c t :
  drop (offset b) (content b) = c :: t -> c <> 110 -> c <> 102 -> c <> 116 ->
  parse_value (S f) it b =
    if c =? 34 then parse_string it b
    else if (c =? 45) || ((48 <=? c) && (c <=? 57)) then parse_number it b
    else if c =? 91 then parse_array f it b
    else if c =? 123 then parse_object f it b
    else Ret (None, b).
Proof.
  intros E H1 H2 H3. cbn [parse_value]. unfold text_null, text_false, text_true.
  rewrite (reads_other b _ _ 110 _ E), (reads_other b _ _ 102 _ E), (reads_other b _ _ 116 _ E) by assumption.
  cbn [obind]. rewrite !(next_is_at b _ _ _ E), (next_is_number_at b _ _ E). reflexivity.
Qed.

Lemma parses_string fmt s : Forall text_byte s -> parses fmt (JStr s).
Proof.
  intros Hs d f it b name rest [t ->] E Hr Hh Hf. destruct f as [|f]; [lia|]. cbn [render] in *.
  rewrite (parse_value_other f _ b _ _ E) by lia. cbn [Z.eqb Pos.eqb].
  destruct (parse_string_text (mkItem t None 0 d_zero name []) b s rest Hs E) as [n ->].
  exists n. reflexivity.
Qed.

Lemma parses_number fmt d : parses fmt (JNum d).
Proof.
  intros dd f it b name rest Hb E Hr Hh Hf. cbn [render reread] in *.
  destruct (d_eq (d_mul d d_zero) d_zero) eqn:Ef.
  - destruct (num_finite d Ef) as (k & Ek & Hk). pose proof (g_length k d Ef Hk) as Hl.
    destruct (num d) as [|c t] eqn:En; [rewrite <- Ek in Hl; simpl in Hl; lia|].
    assert (Hc : c = 45 \/ 48 <= c <= 57) by (apply (g_head k d c t Ef); congruence).
    destruct f as [|f]; [lia|]. cbn [app] in E. rewrite (parse_value_other f _ b _ _ E) by lia.
    rewrite (proj2 (Z.eqb_neq c 34)) by lia.
    replace ((c =? 45) || ((48 <=? c) && (c <=? 57))) with true by lia.
    change (c :: t ++ rest) with ((c :: t) ++ rest) in E. rewrite <- En in *.
    rewrite (parse_number_text it b d rest Ef E Hr). destruct Hb as [ty ->]. eexists. reflexivity.
  - assert (num d = text_null) as En by (unfold num; rewrite Ef; reflexivity). rewrite En in *.
    apply (proj1 (parses_literals fmt) dd f it b name rest); assumption.
Qed.

(** ** Arrays *)
Lemma delimited_cons c r : is_number_char c = false -> c <> 46 -> delimited (c :: r).
Proof. intros H1 H2. exists c, r. auto. Qed.

Lemma skip_none b c rest : drop (offset b) (content b) = c :: rest -> 32 < c ->
  buffer_skip_whitespace b = Ret b.
Proof.
  intros E Hc. rewrite (skip_to b [] c rest E (Forall_nil_2 _) Hc). simpl. rewrite Nat.add_0_r.
  rewrite at_offset_id. reflexivity.
Qed.

(** White space in front of a value. *)
Lemma skip_value b w fmt d j rest : drop (offset b) (content b) = w ++ render fmt d j ++ rest -> white w ->
  buffer_skip_whitespace b = Ret (at_offset b (offset b + length w)).
Proof.
  intros E Hw. destruct (render_head fmt d j) as (c & t & Er & Hc & _). rewrite Er in E.
  apply (skip_to b w c (t ++ rest)); assumption.
Qed.

Lemma drop_bound {X : Type} i (s : list X) x r : drop i s = x :: r -> (i < length s)%nat.
Proof. intros E. exact (lookup_lt_Some _ _ _ (lookup_at _ _ _ _ E)). Qed.

Definition array_sep (fmt : bool) : list Z := if fmt then [44; 32] else [44].

Lemma array_loop_text fmt d l : Forall (parses fmt) l -> l <> [] -> forall f it b head w rest,
  drop (S (offset b)) (content b) = w ++ separated (array_sep fmt) (map (render fmt d) l) ++ 93 :: rest ->
  white w -> Forall (fun j => height j + depth b <= CJSON_NESTING_LIMIT)%nat l ->
  (4 * (length (content b) - offset b) - 1 <= f)%nat ->
  exists n, array_loop f it head b
    = Ret (Some (set_children it cJSON_Array (head ++ map (item_of None) (map reread l))),
           mkPB (content b)
             (S (offset b) + length w + length (separated (array_sep fmt) (map (render fmt d) l)) + 1)
             (depth b - 1) n).
Proof.
  induction 1 as [|j l Hj Hl IH]; [contradiction|]. intros _ f it b head w rest E Hw Hh Hf.
  apply Forall_cons in Hh as [Hh Hhl]. cbn [map separated] in E |- *. rewrite <- app_assoc in E.
  assert (Hlen : (S (offset b) < length (content b))%nat).
  { destruct (render_head fmt d j) as (c & t & Er & _). rewrite Er in E.
    destruct w as [|x w]; cbn [app] in E; apply drop_bound in E; exact E. }
  destruct f as [|f]; [lia|]. rewrite array_loop_S. unfold cJSON_New_Item.
  destruct (memory (allocs b) sizeof_cJSON) as [m ->]. cbn zeta iota.
  set (b1 := at_offset (alloc_called b) (S (offset (alloc_called b)))).
  rewrite (skip_value b1 w fmt d j _ E Hw). cbn [obind]. apply drop_plus in E.
  set (next := match map (render fmt d) l with
               | [] => [] | _ :: _ => array_sep fmt ++ separated (array_sep fmt) (map (render fmt d) l) end) in *.
  assert (Hd : delimited (next ++ 93 :: rest)).
  { subst next. destruct l; [|destruct fmt]; apply delimited_cons; try reflexivity; lia. }
  destruct (Hj d f item0 (at_offset b1 (offset b1 + length w)) None (next ++ 93 :: rest) blank0) as [n En];
    [exact E | exact Hd | exact Hh | cbn; lia |].
  rewrite En. cbn [obind]. clear En. cbn [content offset depth at_offset b1 alloc_called] in *.
  apply drop_plus in E.
  set (b2 := mkPB (content b) (S (offset b) + length w + length (render fmt d j)) (depth b) n).
  assert (Hskip : buffer_skip_whitespace b2 = Ret b2).
  { subst next. destruct l; [|destruct fmt]; apply (skip_none b2 _ _ E); lia. }
  rewrite Hskip. cbn [obind]. destruct l as [|j' l].
  - subst next. cbn [map app] in *. rewrite !(next_is_at b2 _ _ _ E). cbn [obind Z.eqb Pos.eqb].
    exists n. subst b2. unfold close_list, at_offset, at_depth. cbn [content offset depth allocs].
    rewrite app_nil_r. do 3 f_equal. lia.
  - assert (Esep : exists ws, array_sep fmt = 44 :: ws /\ white ws).
    { destruct fmt; [exists [32] | exists []]; (split; [reflexivity | repeat constructor; lia]). }
    destruct Esep as (ws & Es & Hws). subst next. cbn [map] in E |- *. rewrite Es in E. cbn [app] in E.
    rewrite (next_is_at b2 _ _ _ E). cbn [obind Z.eqb Pos.eqb].
    pose proof (drop_next _ _ _ _ E) as E2. rewrite <- Es, <- app_assoc in E2.
    destruct (IH ltac:(discriminate) f it b2 (head ++ [item_of None (reread j)]) ws rest E2 Hws Hhl) as [n2 E3].
    { pose proof (render_length fmt d j). subst b2. cbn [content offset]. lia. }
    exists n2. rewrite E3. rewrite <- app_assoc. do 3 f_equal. cbn [offset b2 map].
    assert (length (array_sep fmt) = S (length ws)) by (rewrite Es; reflexivity).
    rewrite !length_app. lia.
Qed.

Lemma max_list_le {X : Type} l (f : X -> nat) n : (max_list (map f l) <= n)%nat -> Forall (fun j => f j <= n)%nat l.
Proof. induction l as [|j l IH]; cbn; [constructor|]. intros H. constructor; [lia | apply IH; lia]. Qed.

(** The list behind its opening bracket: the first element starts with [c]. *)
Lemma open_list_text b close w c rest :
  drop (S (offset b)) (content b) = w ++ c :: rest -> white w -> 32 < c -> c <> close ->
  open_list b close = Ret (inr (at_offset b (offset b + length w))).
Proof.
  intros E Hw Hc Hcl. unfold open_list.
  rewrite (skip_to (at_offset b (S (offset b))) w c rest E Hw Hc). cbn [obind offset at_offset].
  apply drop_plus in E. set (b1 := at_offset _ _).
  rewrite (next_is_at b1 _ _ _ E), (proj2 (Z.eqb_neq c close) Hcl). cbn [obind].
  unfold can_access_at_index. rewrite Nat.add_0_r. cbn [offset content b1 at_offset].
  rewrite (proj2 (Nat.ltb_lt _ _) (drop_bound _ _ _ _ E)). cbn [negb]. do 2 f_equal.
  unfold at_offset. cbn [content depth allocs]. f_equal. lia.
Qed.

Lemma open_list_empty b close w rest :
  drop (S (offset b)) (content b) = w ++ close :: rest -> white w -> 32 < close ->
  open_list b close = Ret (inl (true, at_offset b (S (offset b) + length w))).
Proof.
  intros E Hw Hc. unfold open_list.
  rewrite (skip_to (at_offset b (S (offset b))) w close rest E Hw Hc). cbn [obind offset at_offset].
  apply drop_plus in E. set (b1 := at_offset _ _).
  rewrite (next_is_at b1 _ _ _ E), Z.eqb_refl. reflexivity.
Qed.

Lemma parses_array fmt l : Forall (parses fmt) l -> parses fmt (JArr l).
Proof.
  intros Hl d f it b name rest Hb E Hr Hh Hf. cbn [render app reread] in *. fold (array_sep fmt) in *.
  pose proof (drop_bound _ _ _ _ E) as Hlt.
  do 2 (destruct f as [|f]; [lia|]). rewrite (parse_value_other _ _ b _ _ E) by lia.
  change (91 =? 34) with false. change ((91 =? 45) || (48 <=? 91) && (91 <=? 57)) with false.
  change (91 =? 91) with true. cbv iota. cbn [height] in Hh. rewrite parse_array_S.
  rewrite (proj2 (Nat.leb_gt _ _)) by lia. cbv zeta. set (b0 := at_depth b (S (depth b))).
  unfold peek. rewrite Nat.add_0_r, (get8_at (offset b0) (content b0) _ _ E).
  cbn [obind Z.eqb Pos.eqb negb]. pose proof (drop_next _ _ _ _ E) as E1. rewrite <- app_assoc in E1.
  destruct l as [|j l].
  - rewrite (open_list_empty b0 93 [] rest E1 (Forall_nil_2 _)) by lia. cbn [obind].
    exists (allocs b). destruct Hb as [ty ->]. unfold close_list, at_offset, at_depth. cbn.
    do 3 f_equal; lia.
  - destruct (render_head fmt (S d) j) as (c & t & Ec & Hc & H93 & _).
    set (body := separated (array_sep fmt) (map (render fmt (S d)) (j :: l))) in *.
    assert (exists r, body = c :: r) as [r Er].
    { subst body. cbn [map separated]. rewrite Ec. eexists. reflexivity. }
    assert (E2 : drop (S (offset b0)) (content b0) = [] ++ c :: (r ++ 93 :: rest)).
    { cbn [app]. rewrite Er in E1. exact E1. }
    rewrite (open_list_text b0 93 [] c _ E2 (Forall_nil_2 _) Hc H93). cbn [obind length].
    rewrite Nat.add_0_r, at_offset_id.
    destruct (array_loop_text fmt (S d) (j :: l) Hl ltac:(discriminate) f it b0 [] [] rest E1
      (Forall_nil_2 _)) as [n En].
    + apply (Forall_impl (fun x => height x <= CJSON_NESTING_LIMIT - S (depth b))%nat).
      * apply (max_list_le (j :: l) height). lia.
      * intros x Hx. cbn [depth at_depth b0]. lia.
    + cbn [content offset at_depth b0]. lia.
    + exists n. rewrite En. fold body. rewrite (blank_children _ _ _ _ Hb). do 3 f_equal;
        cbn [offset depth at_depth b0 length]; rewrite ?length_app; cbn [length]; lia.
Qed.

(** ** Objects *)
Definition object_sep (fmt : bool) : list Z := if fmt then [44; 10] else [44].

(** The text behind the members. *)
Definition object_end (fmt : bool) (d : nat) : list Z := line_end fmt ++ indent fmt d.

Lemma white_app w w' : white w -> white w' -> white (w ++ w').
Proof. apply Forall_app_2. Qed.

Lemma white_end fmt d : white (object_end fmt d).
Proof. apply white_app; [destruct fmt; repeat constructor; lia | apply white_indent]. Qed.

Definition reread_member (kv : list Z * json) : list Z * json := (fst kv, reread (snd kv)).

(** What stands behind the value of a member. *)
Lemma end_delimited fmt d rest : delimited (object_end fmt d ++ 125 :: rest).
Proof. destruct fmt; apply delimited_cons; try reflexivity; lia. Qed.

(** A member behind its indentation, and the members from there on. *)
Definition member_core (fmt : bool) (d : nat) (kv : list Z * json) : list Z :=
  quoted (fst kv) ++ colon fmt ++ render fmt (S d) (snd kv).

Definition members_core (fmt : bool) (d : nat) (l : list (list Z * json)) : list Z :=
  match l with
  | [] => []
  | kv :: l' => member_core fmt d kv ++
      match l' with [] => [] | _ :: _ => object_sep fmt ++ separated (object_sep fmt) (map (member_text fmt d) l') end
  end.

Lemma separated_core fmt d l : l <> [] ->
  separated (object_sep fmt) (map (member_text fmt d) l) = indent fmt (S d) ++ members_core fmt d l.
Proof.
  destruct l as [|kv l]; [contradiction|]. intros _. cbn [map separated members_core].
  change (member_text fmt d kv) with (indent fmt (S d) ++ member_core fmt d kv).
  rewrite <- app_assoc. destruct l; reflexivity.
Qed.

(** One member up to its value. *)
Lemma member_key_text fmt d k j (tl : item -> parse_buffer -> outcome (option item * parse_buffer)) f b1 w rest :
  Forall text_byte k -> parses fmt j ->
  drop (offset b1) (content b1) = w ++ member_core fmt d (k, j) ++ rest -> white w -> delimited rest ->
  (height j + depth b1 <= CJSON_NESTING_LIMIT)%nat ->
  (4 * (length (content b1) - offset b1) + 1 <= f)%nat ->
  exists n b2, 
    buffer_skip_whitespace b1 = Ret b2 /\
    (let! (r, b) := parse_string item0 b2 in
     match r with
     | None => Ret (None, b)
     | Some named =>
         let! b := buffer_skip_whitespace b in
         let current_item := swap_name named in
         let! colon := next_is b 58 in
         if negb colon then Ret (None, b)
         else
           let! b := buffer_skip_whitespace (at_offset b (S (offset b))) in
           let! (r, b) := parse_value f current_item b in
           match r with
           | None => Ret (None, b)
           | Some current_item => tl current_item b
           end
     end) =
    tl (item_of (Some k) (reread j))
      (mkPB (content b1) (offset b1 + length w + length (member_core fmt d (k, j))) (depth b1) n).
Proof.
  intros Hk Hj E Hw Hr Hh Hf. unfold member_core in E |- *. cbn [fst snd] in *.
  rewrite <- !app_assoc in E.
  assert (Hq : exists q, quoted k = 34 :: q) by (eexists; reflexivity). destruct Hq as [q Eq].
  assert (E0 : drop (offset b1) (content b1) = w ++ 34 :: (q ++ colon fmt ++ render fmt (S d) j ++ rest)).
  { rewrite E, Eq. reflexivity. }
  rewrite (skip_to b1 _ 34 _ E0 Hw) by lia.
  set (b2 := at_offset b1 (offset b1 + length w)). apply drop_plus in E.
  destruct (parse_string_text item0 b2 k _ Hk E) as [n2 E2].
  assert (Hcolon : exists ws, colon fmt = 58 :: ws /\ white ws).
  { destruct fmt; [exists [9] | exists []]; (split; [reflexivity | repeat constructor; lia]). }
  destruct Hcolon as (ws & Ec & Hws). apply drop_plus in E. rewrite Ec in E. cbn [app] in E.
  set (b3 := mkPB (content b2) (offset b2 + length (quoted k)) (depth b2) n2) in E2.
  pose proof (skip_none b3 58 _ E ltac:(lia)) as E3.
  pose proof (next_is_at b3 58 _ _ E) as E4. apply drop_next in E.
  pose proof (skip_value (at_offset b3 (S (offset b3))) ws fmt (S d) j rest E Hws) as E5.
  apply drop_plus in E. set (b4 := at_offset (at_offset b3 _) _) in E5.
  destruct (Hj (S d) f (swap_name (mkItem cJSON_String (Some k) 0 d_zero None [])) b4 (Some k) rest)
    as [n E6]; [exists cJSON_String; reflexivity | exact E | exact Hr | exact Hh | |].
  { subst b4 b3 b2. cbn [content offset at_offset]. lia. }
  exists n, b2. split; [reflexivity|]. rewrite E2. cbn [obind]. rewrite E3. cbn [obind]. rewrite E4.
  cbn [obind Z.eqb Pos.eqb negb]. rewrite E5. cbn [obind].
  cbn [valueint valuedouble string child item0]. rewrite E6. cbn [obind].
  f_equal. subst b4 b3 b2. cbn [content offset depth at_offset]. f_equal.
  rewrite !length_app, Ec. cbn [length]. lia.
Qed.

Lemma object_loop_text fmt d l :
  Forall (fun kv => parses fmt (snd kv)) l -> Forall (fun kv => Forall text_byte (fst kv)) l -> l <> [] ->
  forall f it b head w rest,
  drop (S (offset b)) (content b) = w ++ members_core fmt d l ++ object_end fmt d ++ 125 :: rest ->
  white w -> Forall (fun kv => height (snd kv) + depth b <= CJSON_NESTING_LIMIT)%nat l ->
  (4 * (length (content b) - offset b) - 1 <= f)%nat ->
  exists n, object_loop f it head b
    = Ret (Some (set_children it cJSON_Object (head ++ map member_item (map reread_member l))),
           mkPB (content b)
             (S (offset b) + length w + length (members_core fmt d l) + length (object_end fmt d) + 1)
             (depth b - 1) n).
Proof.
  induction 1 as [|[k j] l Hj Hl IH]; [contradiction|]. intros Hks _ f it b head w rest E Hw Hh Hf.
  apply Forall_cons in Hh as [Hh Hhl]. apply Forall_cons in Hks as [Hk Hks]. cbn [fst snd] in *.
  cbn [members_core] in E |- *. rewrite <- app_assoc in E.
  set (next := match l with
               | [] => []
               | _ :: _ => object_sep fmt ++ separated (object_sep fmt) (map (member_text fmt d) l)
               end) in *.
  assert (Hlen : (S (offset b) + length w + length (member_core fmt d (k, j)) < length (content b))%nat).
  { apply drop_plus, drop_plus in E.
    assert (exists c r, next ++ object_end fmt d ++ 125 :: rest = c :: r) as (c & r & Er).
    { subst next. destruct l; destruct fmt; eexists _, _; reflexivity. }
    rewrite Er in E. apply drop_bound in E. exact E. }
  destruct f as [|f]; [lia|]. rewrite object_loop_S. unfold cJSON_New_Item.
  destruct (memory (allocs b) sizeof_cJSON) as [m ->]. cbv zeta iota.
  set (b1 := at_offset (alloc_called b) (S (offset (alloc_called b)))).
  assert (Hd : delimited (next ++ object_end fmt d ++ 125 :: rest)).
  { subst next. destruct l; [apply end_delimited|]. destruct fmt; apply delimited_cons; try reflexivity; lia. }
  set (tl := fun current_item b =>
    let head := head ++ [current_item] in
    let! b := buffer_skip_whitespace b in
    let! comma := next_is b 44 in
    if (comma : bool) then object_loop f it head b
    else let! fin := next_is b 125 in
         if (fin : bool) then Ret (close_list it cJSON_Object head b) else Ret (None, b)).
  destruct (member_key_text fmt d k j tl f b1 w _ Hk Hj E Hw Hd) as (n & b2 & Es & Ek);
    [exact Hh | cbn [content offset b1 at_offset alloc_called]; lia |].
  rewrite Es. cbn [obind]. unfold tl in Ek. cbv beta zeta in Ek. cbv zeta. rewrite Ek. clear Ek Es b2 tl.
  cbn [content offset depth at_offset b1 alloc_called] in *. apply drop_plus, drop_plus in E.
  set (b2 := mkPB (content b) (S (offset b) + length w + length (member_core fmt d (k, j))) (depth b) n).
  destruct l as [|kv l].
  - subst next. cbn [app] in *. rewrite (skip_to b2 _ 125 rest E (white_end fmt d)) by lia. cbn [obind].
    apply drop_plus in E. set (b3 := at_offset b2 _).
    rewrite !(next_is_at b3 _ _ _ E). cbn [obind Z.eqb Pos.eqb].
    exists n. subst b3 b2. unfold close_list, at_offset, at_depth. cbn [content offset depth allocs].
    rewrite app_nil_r. do 3 f_equal. lia.
  - assert (Esep : exists ws, object_sep fmt = 44 :: ws /\ white ws).
    { destruct fmt; [exists [10] | exists []]; (split; [reflexivity | repeat constructor; lia]). }
    destruct Esep as (ws & Eo & Hws). subst next. rewrite Eo in E. cbn [app] in E.
    rewrite (skip_none b2 _ _ E) by lia. cbn [obind].
    rewrite (next_is_at b2 _ _ _ E). cbn [obind Z.eqb Pos.eqb].
    pose proof (drop_next _ _ _ _ E) as E2. rewrite <- Eo, <- app_assoc in E2.
    rewrite separated_core, <- app_assoc, app_assoc in E2 by discriminate.
    destruct (IH Hks ltac:(discriminate) f it b2 (head ++ [item_of (Some k) (reread j)]) _ rest E2
      (white_app _ _ Hws (white_indent fmt (S d))) Hhl) as [n2 E3].
    { subst b2. cbn [content offset]. lia. }
    exists n2. rewrite E3. rewrite <- app_assoc. do 3 f_equal.
    rewrite (separated_core fmt d (kv :: l)) by discriminate. cbn [offset b2].
    assert (length (object_sep fmt) = S (length ws)) by (rewrite Eo; reflexivity).
    rewrite !length_app. lia.
Qed.

Definition object_head (fmt : bool) : list Z := if fmt then [10] else [].

Lemma render_obj_cons fmt d l :
  render fmt d (JObj l) = 123 :: object_head fmt ++ members_text fmt d l.
Proof. rewrite render_obj. destruct fmt; reflexivity. Qed.

Lemma members_text_some fmt d l : l <> [] ->
  members_text fmt d l = separated (object_sep fmt) (map (member_text fmt d) l) ++ object_end fmt d ++ [125].
Proof.
  intros H. unfold members_text, object_end. destruct l; [contradiction|].
  unfold object_sep. destruct fmt; reflexivity.
Qed.

Lemma white_head fmt : white (object_head fmt).
Proof. destruct fmt; repeat constructor; lia. Qed.

Lemma parses_object fmt l :
  Forall (fun kv => parses fmt (snd kv)) l -> Forall (fun kv => Forall text_byte (fst kv)) l ->
  parses fmt (JObj l).
Proof.
  intros Hl Hks d f it b name rest Hb E Hr Hh Hf. rewrite render_obj_cons in *. cbn [app reread] in *.
  pose proof (drop_bound _ _ _ _ E) as Hlt.
  do 2 (destruct f as [|f]; [lia|]). rewrite (parse_value_other _ _ b _ _ E) by lia.
  change (123 =? 34) with false. change ((123 =? 45) || (48 <=? 123) && (123 <=? 57)) with false.
  change (123 =? 91) with false. change (123 =? 123) with true. cbv iota.
  cbn [height] in Hh. rewrite parse_object_S.
  rewrite (proj2 (Nat.leb_gt _ _)) by lia. cbv zeta. set (b0 := at_depth b (S (depth b))).
  rewrite (next_is_at b0 _ _ _ E). cbn [obind Z.eqb Pos.eqb negb].
  pose proof (drop_next _ _ _ _ E) as E1. rewrite <- app_assoc in E1.
  destruct l as [|[k j] l].
  - unfold members_text in *. cbn [map separated app] in *. rewrite <- app_assoc in E1. cbn [app] in E1.
    rewrite app_assoc in E1.
    rewrite (open_list_empty b0 125 _ rest E1 (white_app _ _ (white_head fmt) (white_indent fmt d))) by lia.
    cbn [obind]. exists (allocs b). unfold close_list. rewrite (blank_children _ _ _ _ Hb).
    subst b0. unfold at_offset, at_depth. cbn [content offset depth allocs]. do 3 f_equal;
      cbn [length]; rewrite ?length_app; cbn [length]; lia.
  - rewrite members_text_some, separated_core in * by discriminate. rewrite <- !app_assoc in E1. cbn [app] in E1.
    assert (exists r, members_core fmt d ((k, j) :: l) = 34 :: r) as [r Er] by (eexists; reflexivity).
    assert (E2 : drop (S (offset b0)) (content b0)
      = (object_head fmt ++ indent fmt (S d)) ++ 34 :: (r ++ object_end fmt d ++ 125 :: rest)).
    { rewrite <- app_assoc. rewrite Er in E1. exact E1. }
    rewrite (open_list_text b0 125 _ 34 _ E2 (white_app _ _ (white_head fmt) (white_indent fmt (S d)))) by lia.
    cbn [obind]. rewrite app_assoc in E1. apply drop_plus in E1.
    set (h := length (object_head fmt ++ indent fmt (S d))) in *.
    destruct (object_loop_text fmt d ((k, j) :: l) Hl Hks ltac:(discriminate) f it
      (at_offset b0 (offset b0 + h)) [] [] rest E1 (Forall_nil_2 _)) as [n En].
    + apply (Forall_impl (fun x => height (snd x) <= CJSON_NESTING_LIMIT - S (depth b))%nat).
      * apply (max_list_le ((k, j) :: l) (fun kv => height (snd kv))). lia.
      * intros x Hx. cbn [depth at_offset at_depth b0]. lia.
    + cbn [content offset at_offset at_depth b0]. lia.
    + exists n. rewrite En, (blank_children _ _ _ _ Hb). do 3 f_equal;
        cbn [offset depth at_offset at_depth b0 length]; rewrite ?length_app; cbn [length];
        subst h; rewrite ?length_app; lia.
Qed.

(** Every value is read back. *)
Lemma parses_all fmt j : texts_ok j -> parses fmt j.
Proof.
  induction j as [| | |d|s|l IH|l IH] using json_induction; intros Hok.
  - apply parses_literals.
  - apply parses_literals.
  - apply parses_literals.
  - apply parses_number.
  - apply parses_string, Hok.
  - apply parses_array. cbn [texts_ok] in Hok.
    induction IH as [|j l Hj _ IHl]; constructor; [apply Hj, Hok | apply IHl, Hok].
  - cbn [texts_ok] in Hok. apply parses_object;
      (induction IH as [|j l Hj _ IHl]; constructor; [|apply IHl, Hok]); [apply Hj, Hok | apply Hok].
Qed.

Lemma delimited0 : delimited [0].
Proof. apply delimited_cons; [reflexivity | lia]. Qed.

(** The printed text, with its terminator, is parsed to the value. *)
Lemma parse_rendered fmt j rnt :
  texts_ok j -> (height j <= CJSON_NESTING_LIMIT)%nat ->
  cJSON_ParseWithOpts (Some (render fmt 0 j ++ [0])) rnt
  = Ret (mkParsed (Some (item_of None (reread j))) 0 (Some (length (render fmt 0 j)))).
Proof.
  intros Hok Hh. unfold cJSON_ParseWithOpts, cJSON_New_Item. cbn [allocs].
  destruct (memory 0%nat sizeof_cJSON) as [m ->]. unfold alloc_called. cbn [content offset depth allocs].
  set (t := render fmt 0 j ++ [0]).
  assert (E : drop 0 t = render fmt 0 j ++ [0]) by reflexivity.
  destruct (render_head fmt 0 j) as (c & r & Er & Hc & _ & _ & Hc').
  assert (Ht : drop 0 t = c :: r ++ [0]) by (rewrite E, Er; reflexivity).
  set (b := mkPB t 0 0 1).
  assert (Hbom : skip_utf8_bom b = Ret (Some b)).
  { unfold skip_utf8_bom. cbn [offset b Nat.eqb negb].
    destruct (can_access_at_index b 4); [|reflexivity].
    cbn [lit_at]. unfold peek. cbn [offset content b Nat.add]. rewrite (get8_at 0 t _ _ Ht). cbn [obind].
    rewrite (proj2 (Z.eqb_neq c 239)) by lia. reflexivity. }
  rewrite Hbom. cbn [obind]. rewrite (skip_none b c _ Ht Hc). cbn [obind].
  destruct (parses_all fmt j Hok 0%nat (parse_fuel t) item0 b None [0] blank0 E delimited0) as [n En];
    [cbn; lia | unfold parse_fuel; cbn; lia |].
  rewrite En. cbn [obind content offset depth b Nat.add].
  destruct rnt; [|reflexivity].
  set (b' := mkPB t (length (render fmt 0 j)) 0 n).
  assert (Hend : drop (offset b') (content b') = [0]).
  { cbn [offset content b']. subst t. apply drop_app_length. }
  assert (Hskip : buffer_skip_whitespace b' = Ret b').
  { unfold buffer_skip_whitespace.
    destruct (skip_loop_spec (S (length (content b'))) b') as (o & -> & Ho & Hw & Hn).
    - lia.
    - pose proof (drop_bound _ _ _ _ Hend). lia.
    - pose proof (drop_bound _ _ _ _ Hend) as Hlt. cbn [obind offset at_offset content].
      assert (Hl : length (content b') = S (offset b')).
      { cbn [content b' offset]. subst t. rewrite length_app. simpl. lia. }
      assert (o = length (content b')) as ->.
      { destruct (Nat.eq_dec o (offset b')) as [->|]; [|lia].
        specialize (Hn 0 (lookup_at _ _ _ _ Hend)). lia. }
      rewrite Nat.eqb_refl. rewrite Hl. cbn [Nat.sub]. rewrite Nat.sub_0_r. reflexivity. }
  rewrite Hskip. cbn [obind]. pose proof (drop_bound _ _ _ _ Hend) as Hlt.
  rewrite (proj2 (Nat.leb_gt _ _) Hlt). unfold peek. rewrite Nat.add_0_r, (get8_at _ _ _ _ Hend).
  reflexivity.
Qed.
(** ** What printing and parsing keep *)

(** The value [j'] is the value [j], but that a finite number may differ by what
    [compare_double] takes for equal and that an infinity or a NaN is null. *)
Fixpoint read_back (j j' : json) {struct j} : Prop :=
  match j, j' with
  | JNull, JNull | JFalse, JFalse | JTrue, JTrue => True
  | JNum d, JNum d' => finite d /\ (d' = d \/ compare_double d' d = true)
  | JNum d, JNull => ~ finite d
  | JStr s, JStr s' => s' = s
  | JArr l, JArr l' =>
      (fix all (l l' : list json) : Prop :=
         match l, l' with
         | [], [] => True
         | x :: l, x' :: l' => read_back x x' /\ all l l'
         | _, _ => False
         end) l l'
  | JObj l, JObj l' =>
      (fix all (l l' : list (list Z * json)) : Prop :=
         match l, l' with
         | [], [] => True
         | (k, x) :: l, (k', x') :: l' => k' = k /\ read_back x x' /\ all l l'
         | _, _ => False
         end) l l'
  | _, _ => False
  end.

Lemma reread_number_close `{!DoubleDigits D} d :
  finite d -> reread_number d = d \/ compare_double (reread_number d) d = true.
Proof.
  intros Hf. unfold reread_number, num. rewrite Hf.
  destruct (sscanf_lg _) as [x|] eqn:E; [|left; apply g17_exact, Hf].
  destruct (compare_double x d) eqn:Ec; [right | left; apply g17_exact, Hf].
  apply sscanf_strtod in E as <-. exact Ec.
Qed.

Lemma reread_back `{!DoubleDigits D} j : read_back j (reread j).
Proof.
  induction j as [| | |d|s|l IH|l IH] using json_induction; cbn [reread]; try exact I.
  - destruct (d_eq (d_mul d d_zero) d_zero) eqn:E; cbn [read_back].
    + split; [exact E | exact (reread_number_close d E)].
    + unfold finite. congruence.
  - reflexivity.
  - cbn [read_back]. induction IH as [|x l Hx _ IHl]; cbn [map]; auto.
  - cbn [read_back]. induction IH as [|[k x] l Hx _ IHl]; cbn [map fst snd]; auto.
Qed.
End Round.
