(* ===== verification/JsonUtf.v ===== *)
(** * UTF-16 literals in JSON strings are translated to UTF-8

    The encoder of cJSON.c against the definition of UTF-8 by quotient and
    remainder (RFC 3629), for single literals and surrogate pairs. *)

From S2P Require Import Prelude JsonText JsonSafe JsonRound.

Local Open Scope Z_scope.

(** RFC 3629. *)
Definition utf8_ref (cp : Z) : list Z :=
  if cp <? 128 then [cp]
  else if cp <? 2048 then [192 + cp / 64; 128 + cp mod 64]
  else if cp <? 65536 then [224 + cp / 4096; 128 + cp / 64 mod 64; 128 + cp mod 64]
  else [240 + cp / 262144; 128 + cp / 4096 mod 64; 128 + cp / 64 mod 64; 128 + cp mod 64].

(** [s] has four hexadecimal digits of value [v] at [i], in either case. *)
Definition hex_at (s : list Z) (i : nat) (v : Z) : Prop :=
  exists x3 x2 x1 x0 v3 v2 v1 v0 r,
    drop i s = x3 :: x2 :: x1 :: x0 :: r /\
    hex_digit x3 = Some v3 /\ hex_digit x2 = Some v2 /\ hex_digit x1 = Some v1 /\ hex_digit x0 = Some v0 /\
    v = 4096 * v3 + 256 * v2 + 16 * v1 + v0.

Lemma parse_hex4_at s i v : hex_at s i v -> parse_hex4 s i = Ret v /\ 0 <= v < 65536.
Proof.
  intros (x3 & x2 & x1 & x0 & v3 & v2 & v1 & v0 & r & E & E3 & E2 & E1 & E0 & ->).
  pose proof (hex_digit_range _ _ E3). pose proof (hex_digit_range _ _ E2).
  pose proof (hex_digit_range _ _ E1). pose proof (hex_digit_range _ _ E0).
  split; [|lia]. unfold parse_hex4. cbn [hex4_loop].
  rewrite (get8_at _ _ _ _ E). cbn [obind]. rewrite E3. cbn [Nat.eqb]. apply drop_next in E.
  rewrite (get8_at _ _ _ _ E). cbn [obind]. rewrite E2. cbn [Nat.eqb]. apply drop_next in E.
  rewrite (get8_at _ _ _ _ E). cbn [obind]. rewrite E1. cbn [Nat.eqb]. apply drop_next in E.
  rewrite (get8_at _ _ _ _ E). cbn [obind]. rewrite E0. cbn [Nat.eqb].
  rewrite !Z.shiftl_mul_pow2 by lia. change (2 ^ 4) with 16.
  rewrite (u32_id (0 + v3)), (u32_id ((0 + v3) * 16)) by rlia.
  rewrite (u32_id ((0 + v3) * 16 + v2)), (u32_id (((0 + v3) * 16 + v2) * 16)) by rlia.
  rewrite (u32_id (((0 + v3) * 16 + v2) * 16 + v1)), (u32_id ((((0 + v3) * 16 + v2) * 16 + v1) * 16)) by rlia.
  rewrite u32_id by rlia. f_equal. lia.
Qed.

(** A property of all numbers below [n], by evaluation. *)
Lemma below_check (f : Z -> bool) n x :
  forallb f (map Z.of_nat (seq 0 n)) = true -> 0 <= x < Z.of_nat n -> f x = true.
Proof.
  intros H Hx. rewrite forallb_forall in H. apply H. apply in_map_iff.
  exists (Z.to_nat x). split; [lia|]. apply in_seq. lia.
Qed.

(** A continuation byte. *)
Lemma continuation_byte cp : u8 (Z.land (Z.lor cp 128) 191) = 128 + cp mod 64.
Proof.
  assert (E : Z.land (Z.lor cp 128) 191 = Z.land (Z.lor (cp mod 256) 128) 191).
  { change 191 with (Z.land (Z.ones 8) 191). rewrite !Z.land_assoc. f_equal.
    rewrite !Z.land_lor_distr_l. f_equal. rewrite !Z.land_ones by lia. change (2 ^ 8) with 256.
    symmetry. apply Z.mod_mod. lia. }
  rewrite E. assert (Hm : cp mod 64 = cp mod 256 mod 64) by (Z.div_mod_to_equations; lia). rewrite Hm.
  apply Z.eqb_eq. apply (below_check (fun c => u8 (Z.land (Z.lor c 128) 191) =? 128 + c mod 64) 256);
    [vm_compute; reflexivity | Z.div_mod_to_equations; lia].
Qed.

Lemma first_byte cp mark n :
  mark = 192 /\ n = 32%nat \/ mark = 224 /\ n = 16%nat \/ mark = 240 /\ n = 8%nat ->
  0 <= cp < Z.of_nat n -> u8 (Z.land (Z.lor cp mark) 255) = mark + cp.
Proof.
  intros H Hc. apply Z.eqb_eq.
  destruct H as [[-> ->]|[[-> ->]|[-> ->]]];
    match goal with |- (u8 (Z.land (Z.lor _ ?m) _) =? _) = true =>
      refine (below_check (fun c => u8 (Z.land (Z.lor c m) 255) =? m + c) _ cp _ Hc); vm_compute; reflexivity
    end.
Qed.

Lemma utf8_encode_ref cp : 0 <= cp <= 1114111 ->
  exists n mark, utf8_class cp = Some (n, mark) /\ utf8_encode n mark cp = utf8_ref cp.
Proof.
  intros H. unfold utf8_class, utf8_ref.
  destruct (Z.ltb_spec cp 128); [|destruct (Z.ltb_spec cp 2048); [|destruct (Z.ltb_spec cp 65536);
    [|destruct (Z.leb_spec cp 1114111); [|lia]]]]; do 2 eexists; (split; [reflexivity|]);
    unfold utf8_encode; cbn [Nat.sub utf8_tail Nat.ltb Nat.leb]; rewrite ?continuation_byte;
    rewrite ?Z.shiftr_div_pow2 by lia; change (2 ^ 6) with 64; rewrite ?Z.div_div by lia;
    change (64 * 64) with 4096; change (4096 * 64) with 262144; change (64 * 4096) with 262144.
  - change 127 with (Z.ones 7). rewrite Z.land_ones by lia. change (2 ^ 7) with 128. f_equal. wrap_lia.
  - rewrite (first_byte _ 192 32); [reflexivity | auto | Z.div_mod_to_equations; lia].
  - rewrite (first_byte _ 224 16); [reflexivity | auto | Z.div_mod_to_equations; lia].
  - rewrite (first_byte _ 240 8); [reflexivity | auto | Z.div_mod_to_equations; lia].
Qed.

(** The code point of a surrogate pair. *)
Lemma pair_codepoint hi lo : 55296 <= hi <= 56319 -> 56320 <= lo <= 57343 ->
  65536 + Z.lor (Z.shiftl (Z.land hi 1023) 10) (Z.land lo 1023) = 65536 + (hi - 55296) * 1024 + (lo - 56320).
Proof.
  intros Hh Hl. change 1023 with (Z.ones 10). rewrite !Z.land_ones by lia. change (2 ^ 10) with 1024.
  replace (hi mod 1024) with (hi - 55296) by (Z.div_mod_to_equations; lia).
  replace (lo mod 1024) with (lo - 56320) by (Z.div_mod_to_equations; lia).
  rewrite lor_shiftl_add by (change (2 ^ 10) with 1024; lia). change (2 ^ 10) with 1024. lia.
Qed.

(** [utf16_literal_to_utf8] is UTF-8: a literal of four hexadecimal digits
    that is no surrogate is replaced by the UTF-8 encoding of its value and uses
    6 characters; a high surrogate followed by a low one is replaced by the
    encoding of the code point of the pair and uses 12. *)
Theorem utf16_is_utf8 s i ie :
  (forall v, hex_at s (i + 2) v -> ~ (55296 <= v <= 57343) -> (i + 6 <= ie)%nat ->
     utf16_literal_to_utf8 s i ie = Ret (6%nat, utf8_ref v)) /\
  (forall hi lo r, hex_at s (i + 2) hi -> 55296 <= hi <= 56319 ->
     drop (i + 6) s = 92 :: 117 :: r -> hex_at s (i + 8) lo -> 56320 <= lo <= 57343 -> (i + 12 <= ie)%nat ->
     utf16_literal_to_utf8 s i ie
     = Ret (12%nat, utf8_ref (65536 + (hi - 55296) * 1024 + (lo - 56320)))).
Proof.
  unfold utf16_literal_to_utf8, utf16_codepoint. split.
  - intros v Hv Hs Hie. destruct (parse_hex4_at _ _ _ Hv) as [-> Hr].
    rewrite (proj2 (Nat.ltb_ge _ _)) by lia. cbn [obind].
    replace ((56320 <=? v) && (v <=? 57343)) with false by lia.
    replace ((55296 <=? v) && (v <=? 56319)) with false by lia. cbn [obind].
    destruct (utf8_encode_ref v ltac:(lia)) as (n & mark & -> & ->). reflexivity.
  - intros hi lo r Hhi Hh E Hlo Hl Hie.
    destruct (parse_hex4_at _ _ _ Hhi) as [-> _]. destruct (parse_hex4_at _ _ _ Hlo) as [El _].
    rewrite (proj2 (Nat.ltb_ge _ _)) by lia. cbn [obind].
    replace ((56320 <=? hi) && (hi <=? 57343)) with false by lia.
    replace ((55296 <=? hi) && (hi <=? 56319)) with true by lia.
    rewrite (proj2 (Nat.ltb_ge _ _)) by lia.
    rewrite (get8_at _ _ _ _ E). cbn [obind Z.eqb Pos.eqb negb].
    rewrite (get8_at _ _ _ _ (drop_next _ _ _ _ E)). cbn [obind Z.eqb Pos.eqb negb].
    replace (i + 6 + 2)%nat with (i + 8)%nat by lia. rewrite El. cbn [obind].
    replace ((lo <? 56320) || (57343 <? lo)) with false by lia. cbn [obind].
    rewrite (pair_codepoint hi lo Hh Hl).
    destruct (utf8_encode_ref (65536 + (hi - 55296) * 1024 + (lo - 56320)) ltac:(lia)) as (n & mark & -> & ->).
    reflexivity.
Qed.

(** U+00E9 and the pair of U+1F600. *)
Definition utf16_sample : list Z :=
  [92; 117; 48; 48; 69; 57; 92; 117; 68; 56; 51; 68; 92; 117; 68; 69; 48; 48; 34; 0].

Lemma utf16_is_utf8_witness :
  utf16_literal_to_utf8 utf16_sample 0 18 = Ret (6%nat, [195; 169]) /\
  utf16_literal_to_utf8 utf16_sample 6 18 = Ret (12%nat, [240; 159; 152; 128]).
Proof.
  split.
  - apply (proj1 (utf16_is_utf8 utf16_sample 0 18) 233); [|lia | lia].
    do 9 eexists. repeat split.
  - refine (proj2 (utf16_is_utf8 utf16_sample 6 18) 55357 56832 _ _ _ eq_refl _ _ _); try lia;
      do 9 eexists; repeat split.
Defined.
