(* ===== verification/JsonProps.v ===== *)
(** * JSON text: theorems

    What the parser and the printer promise to their callers, with runs on a
    concrete arithmetic and allocator. *)

From S2P Require Import Prelude JsonText JsonSafe JsonParse JsonPrint JsonRender JsonRound.

Local Open Scope Z_scope.

(** ** A concrete arithmetic

    Whole numbers below 10^15 are the finite numbers; anything larger behaves
    as an infinity.  Texts are decimal. *)
Module Whole.
Definition is_digit (c : Z) : bool := (48 <=? c) && (c <=? 57).

Fixpoint digit_run (s : list Z) : list Z :=
  match s with
  | c :: s' => if is_digit c then c :: digit_run s' else []
  | [] => []
  end.

Definition value (ds : list Z) : Z := fold_left (fun n c => 10 * n + (c - 48)) ds 0.

Definition strtod (s : list Z) : Z * nat :=
  match s with
  | [] => (0, O)
  | c :: s' =>
      if c =? 45 then
        let ds := digit_run s' in
        match ds with [] => (0, O) | _ :: _ => (- value ds, S (length ds)) end
      else (value (digit_run s), length (digit_run s))
  end.

Fixpoint dec (fuel : nat) (n : Z) (acc : list Z) : list Z :=
  match fuel with
  | O => acc
  | S f => let acc := 48 + n mod 10 :: acc in if n <? 10 then acc else dec f (n / 10) acc
  end.

Definition print (d : Z) : list Z := if d <? 0 then 45 :: dec 20 (- d) [] else dec 20 d [].

Lemma dec_digits fuel : forall n acc, Forall (fun c => is_digit c = true) acc ->
  Forall (fun c => is_digit c = true) (dec fuel n acc).
Proof.
  induction fuel as [|f IH]; intros n acc H; cbn [dec]; [exact H|].
  assert (H' : Forall (fun c => is_digit c = true) (48 + n mod 10 :: acc)).
  { constructor; [|exact H]. unfold is_digit. Z.div_mod_to_equations. lia. }
  destruct (n <? 10); auto.
Qed.

Lemma dec_length fuel : forall n acc,
  (length acc <= length (dec fuel n acc) <= fuel + length acc)%nat /\
  (1 <= fuel -> S (length acc) <= length (dec fuel n acc))%nat.
Proof.
  induction fuel as [|f IH]; intros n acc; cbn [dec]; [lia|].
  destruct (n <? 10); simpl; [lia|]. destruct (IH (n / 10) (48 + n mod 10 :: acc)). simpl in *. lia.
Qed.

Lemma run_digits s : Forall (fun c => is_digit c = true) s -> digit_run s = s.
Proof. induction 1 as [|c s Hc _ IH]; cbn [digit_run]; [reflexivity|]. rewrite Hc. congruence. Qed.

Lemma dec_value fuel : forall n acc, 0 <= n < 10 ^ Z.of_nat fuel ->
  value (dec fuel n acc) = fold_left (fun n c => 10 * n + (c - 48)) acc n.
Proof.
  induction fuel as [|f IH]; intros n acc Hn; [change (10 ^ Z.of_nat 0) with 1 in Hn; assert (n = 0) as -> by lia; reflexivity|].
  rewrite Nat2Z.inj_succ, Z.pow_succ_r in Hn by lia. cbn [dec]. pose proof (Z.mod_pos_bound n 10 eq_refl).
  pose proof (Z.div_mod n 10 ltac:(lia)). destruct (Z.ltb_spec n 10).
  - unfold value. cbn [fold_left]. rewrite Z.mod_small by lia. f_equal. lia.
  - rewrite IH by lia. cbn [fold_left]. f_equal. lia.
Qed.

Lemma run_length s : (length (digit_run s) <= length s)%nat.
Proof. induction s as [|c s IH]; cbn [digit_run]; [lia|]. destruct (is_digit c); simpl; lia. Qed.
End Whole.

(** [d_mul] by zero is zero for the finite numbers only. *)
#[export] Instance whole : CDouble := {|
  double := Z; d_zero := 0; of_int z := z; to_int z := z;
  d_sub a b := a - b;
  d_mul a b := if Z.abs a <? 1000000000000000 then a * b else 1;
  d_fabs := Z.abs; d_le := Z.leb; d_eq := Z.eqb; CJSON_DOUBLE_PRECISION := 0;
  strtod := Whole.strtod;
  sscanf_lg s := Some (fst (Whole.strtod s));
  sprintf_g _ := Whole.print |}.

#[export] Instance whole_uses : StrtodUses whole.
Proof.
  intros [|c s]; cbn [strtod whole Whole.strtod]; [simpl; lia|].
  pose proof (Whole.run_length s) as H. pose proof (Whole.run_length (c :: s)) as H'.
  destruct (c =? 45); [|exact H']. destruct (Whole.digit_run s); simpl in *; lia.
Qed.

#[export] Instance whole_text : DoubleText whole.
Proof.
  assert (Hd : forall n, Forall (fun c => Whole.is_digit c = true) (Whole.dec 20 n []))
    by (intros; apply Whole.dec_digits; constructor).
  assert (Hl : forall n, (1 <= length (Whole.dec 20 n []) <= 20)%nat).
  { intros n. destruct (Whole.dec_length 20 n []) as [H1 H2]. specialize (H2 ltac:(lia)).
    cbn [length] in H1, H2. lia. }
  assert (Hn : forall c, Whole.is_digit c = true -> @number_or_dot whole c).
  { intros c H. left. unfold Whole.is_digit in H. unfold is_number_char. rewrite H. reflexivity. }
  constructor.
  - intros k d _ _. cbn [sprintf_g whole]. unfold Whole.print.
    destruct (d <? 0); cbn [length]; [pose proof (Hl (- d)) | pose proof (Hl d)]; lia.
  - intros k d _. cbn [sprintf_g whole]. unfold Whole.print.
    destruct (d <? 0); [constructor; [left; reflexivity|]|]; (eapply Forall_impl; [apply Hd | exact Hn]).
  - intros k d c t _ E. cbn [sprintf_g whole] in E. unfold Whole.print in E.
    destruct (d <? 0); [left; pose proof (f_equal (hd 0) E) as H; exact (eq_sym H)|].
    right. pose proof (Hd d) as H. rewrite E in H. apply Forall_cons in H as [H _].
    unfold Whole.is_digit in H. lia.
  - intros k d _. cbn [sprintf_g strtod whole]. unfold Whole.print.
    destruct (d <? 0).
    + cbn [Whole.strtod]. rewrite Whole.run_digits by apply Hd. pose proof (Hl (- d)).
      change (45 =? 45) with true. cbv iota.
      destruct (Whole.dec 20 (- d) []); [cbn [length] in *; lia | reflexivity].
    + pose proof (Hd d) as H. pose proof (Hl d) as H'.
      destruct (Whole.dec 20 d []) as [|c t] eqn:E; [cbn [length] in H'; lia|].
      assert (Hc : c <> 45). { apply Forall_cons in H as [H _]. unfold Whole.is_digit in H. lia. }
      cbn [Whole.strtod]. rewrite (proj2 (Z.eqb_neq c 45) Hc), (Whole.run_digits _ H). reflexivity.
Qed.

#[export] Instance whole_digits : DoubleDigits whole.
Proof.
  constructor; [|intros s x [= <-]; reflexivity].
  intros d Hf. unfold finite in Hf. cbn [d_mul d_eq d_zero whole] in Hf.
  destruct (Z.ltb_spec (Z.abs d) 1000000000000000) as [Hd|]; [|discriminate].
  assert (Hn : forall n, 0 <= n <= Z.abs d -> Whole.value (Whole.dec 20 n []) = n).
  { intros n H. rewrite Whole.dec_value; [reflexivity|]. change (10 ^ Z.of_nat 20) with 100000000000000000000. lia. }
  cbn [strtod sprintf_g whole]. unfold Whole.print.
  assert (Hr : forall n, Forall (fun c => Whole.is_digit c = true) (Whole.dec 20 n []))
    by (intros; apply Whole.dec_digits; constructor).
  assert (Hl : forall n, (1 <= length (Whole.dec 20 n []))%nat).
  { intros n. destruct (Whole.dec_length 20 n []) as [_ H2]. specialize (H2 ltac:(lia)). cbn [length] in H2. lia. }
  destruct (Z.ltb_spec d 0).
  - cbn [Whole.strtod]. rewrite Whole.run_digits by apply Hr. change (45 =? 45) with true. cbv iota.
    pose proof (Hl (- d)). pose proof (Hn (- d) ltac:(lia)) as E.
    destruct (Whole.dec 20 (- d) []); [cbn [length] in *; lia|]. cbn [fst]. lia.
  - pose proof (Hr d) as H'. pose proof (Hl d). pose proof (Hn d ltac:(lia)) as E.
    destruct (Whole.dec 20 d []) as [|c t]; [cbn [length] in *; lia|].
    assert (Hc : c <> 45). { apply Forall_cons in H' as [H' _]. unfold Whole.is_digit in H'. lia. }
    cbn [Whole.strtod]. rewrite (proj2 (Z.eqb_neq c 45) Hc), (Whole.run_digits _ H'). exact E.
Qed.

(** An allocator that never fails. *)
#[export] Instance zeroed : Allocator := fun _ size => Some (repeat 0 size).

#[export] Instance zeroed_size : AllocatorSize zeroed.
Proof. intros n sz m [= <-]. apply repeat_length. Qed.

Lemma zeroed_plenty : @plenty zeroed.
Proof. intros n size. eexists. reflexivity. Qed.

(** ** The parser *)
Section Parser.
Context `{D : CDouble} {U : StrtodUses D} `{A : Allocator}.

(** NULL and a position in the text, or the item of a value that is not nested
    too deeply and the end of what was read. *)
Definition parse_result (s : list Z) (r : parsed) : Prop :=
  match root r with
  | None => (error_position r < length s)%nat /\ parse_end r = Some (error_position r)
  | Some it => error_position r = O /\
      (exists j, it = item_of None j /\ (height j <= CJSON_NESTING_LIMIT)%nat) /\
      exists e, parse_end r = Some e /\ (e <= length s)%nat
  end.

(** C11: [cJSON_Parse] and [cJSON_ParseWithOpts] return on every terminated text,
    whatever its bytes and whatever the allocator answers: the parser reads
    nothing outside the text, writes nothing outside the blocks it allocated
    and does not loop.  Either the result is NULL and the reported error
    position lies in the text, or it is the item of a JSON value whose arrays
    and objects are nested at most [CJSON_NESTING_LIMIT] deep, and the end
    reported lies behind the start of the text and not behind its end. *)
Theorem parse_any_text s rnt :
  terminated s ->
  exists r, cJSON_ParseWithOpts (Some s) rnt = Ret r /\ parse_result s r.
Proof.
  intros Ht. pose proof (terminated_length s Ht) as Hl. unfold cJSON_ParseWithOpts, cJSON_New_Item.
  assert (Hfail : forall b, content b = s -> exists r, Ret (parse_failed b) = Ret r /\
    parse_result s r).
  { intros b Hb. eexists. split; [reflexivity|]. unfold parse_result, parse_failed. cbn [root error_position parse_end].
    rewrite Hb. split; [|reflexivity].
    destruct (Nat.ltb_spec (offset b) (length s)); [assumption|].
    rewrite (proj2 (Nat.ltb_lt _ _)) by lia. lia. }
  destruct (allocate _ _) as [m|]; [|apply Hfail; reflexivity].
  set (b := alloc_called (mkPB s 0 0 0)).
  assert (exists o, skip_utf8_bom b = Ret (Some (at_offset b o)) /\ (o <= length s)%nat) as (o & -> & Ho).
  { unfold skip_utf8_bom. cbn [offset b alloc_called Nat.eqb negb]. unfold can_access_at_index.
    destruct (Nat.ltb_spec (offset b + 4) (length (content b))) as [H4|H4]; cbn [offset content b alloc_called] in H4.
    - destruct (lit_total b [239; 187; 191] 0) as [[|] ->]; [cbn; lia | exists 3%nat | exists O];
        (split; [reflexivity | lia]).
    - exists O. split; [reflexivity | lia]. }
  cbn [obind]. destruct (skip_spec (at_offset b o)) as (o1 & -> & Ho1 & _); [cbn; lia.. |]. cbn [obind].
  destruct (parse_all (parse_fuel s)) as (Hv & _).
  destruct (Hv item0 (at_offset (at_offset b o) o1) None blank0) as (r & b2 & -> & Hc & G);
    [exact Ht | exact Ho1 | cbn; lia | unfold parse_fuel; cbn; lia |].
  cbn [obind]. cbn [content at_offset b alloc_called] in Hc. destruct r as [it|]; [|apply Hfail, Hc].
  destruct (G it eq_refl) as (_ & Ho2 & Hj). cbn [offset depth content at_offset b alloc_called] in Ho2, Hj.
  assert (Hok : forall b', (offset b' <= length s)%nat -> exists r,
    Ret (mkParsed (Some it) 0 (Some (offset b'))) = Ret r /\
    parse_result s r).
  { intros b' Hb'. eexists. split; [reflexivity|]. unfold parse_result. cbn [root error_position parse_end].
    split; [reflexivity|]. split; [|eexists; split; [reflexivity | exact Hb']].
    destruct Hj as (j & -> & Hh). exists j. split; [reflexivity | lia]. }
  destruct rnt; [|apply Hok; lia].
  destruct (skip_spec b2) as (o3 & -> & Ho3 & _); [rewrite Hc; lia.. |]. cbn [obind offset content at_offset].
  rewrite (proj2 (Nat.leb_gt _ _) Ho3).
  destruct (peek_total (at_offset b2 o3) 0) as (c & -> & _); [cbn; lia|]. cbn [obind].
  destruct (negb (c =? 0)); [apply Hfail, Hc|].
  apply (Hok (at_offset b2 o3)). cbn [offset at_offset]. rewrite Hc in Ho3. lia.
Qed.
End Parser.

(** An array behind white space, with a string in it. *)
Definition text_sample : list Z := [32; 91; 49; 50; 44; 34; 92; 117; 48; 48; 101; 57; 34; 93; 0].

Lemma parse_any_text_witness :
  terminated text_sample /\
  exists r, cJSON_ParseWithOpts (Some text_sample) true = Ret r /\ parse_result text_sample r.
Proof.
  assert (H : terminated text_sample).
  { exists (removelast text_sample). split; [reflexivity | repeat constructor; lia]. }
  split; [exact H|]. exact (parse_any_text text_sample true H).
Defined.

(** ** The printer *)
Section Printer.
Context `{D : CDouble} {DT : DoubleText D} `{A : Allocator} {AS : AllocatorSize A}.

Lemma print_entry j name (p : printbuffer) :
  strings_ok j -> p_offset p = O -> p_depth p = O -> at_text p [] ->
  exists ok p', print_value (item_of name j) p = Ret (ok, p') /\
    (ok = true -> wrote p' [] (render (format p) 0 j) /\ same_options p p') /\
    (noalloc p = true \/ plenty -> lenZ (render (format p) 0 j) + 2 <= limit p -> ok = true).
Proof.
  intros Hj Ho Hd Hat. destruct (print_value_prints j Hj p [] name Hat) as (ok & p' & E & H1 & H2).
  rewrite Hd in *. exists ok, p'. split; [exact E|]. split; [exact H1|].
  intros HA HB. apply H2; [exact HA|]. cbn [length]. lia.
Qed.

Lemma wrote_exact p t : wrote p [] t -> Forall (fun c => c <> 0) t ->
  exists rest, buffer p = Some (t ++ 0 :: rest) /\ update_offset p = Ret (with_offset p (length t)).
Proof.
  intros Hw Hn. destruct (update_offset_spec p [] t Hw Hn) as [E _]. destruct Hw as (rest & Eb & _).
  exists rest. split; [exact Eb | exact E].
Qed.

Lemma print_spec j name fmt reallocs :
  strings_ok j -> let t := render fmt 0 j ++ [0] in
  exists r, print (item_of name j) fmt reallocs = Ret r /\ (r = None \/ r = Some t) /\
    (plenty -> lenZ t + 1 <= INT_MAX -> r = Some t).
Proof.
  intros Hj t. unfold print. destruct (allocate 0 default_buffer_size) as [m|] eqn:Ea.
  2:{ exists None. split; [reflexivity|]. split; [auto|]. intros Hp. destruct (Hp O default_buffer_size). congruence. }
  apply allocate_size in Ea. set (p := mkP (Some m) 0 0 false fmt reallocs 1).
  destruct (print_entry j name p Hj eq_refl eq_refl) as (ok & p' & -> & H1 & H2).
  { exists m. repeat split. left. rewrite Ea. unfold default_buffer_size. simpl. lia. }
  cbn [obind format p] in *. assert (Ht : lenZ t = lenZ (render fmt 0 j) + 1).
  { subst t. rewrite length_app. simpl. lia. }
  destruct ok; cbn [negb].
  2:{ exists None. split; [reflexivity|]. split; [auto|]. intros Hp Hl.
      discriminate (H2 (or_intror Hp) ltac:(cbn [limit noalloc p]; lia)). }
  destruct (H1 eq_refl) as [Hw _].
  destruct (wrote_exact p' _ Hw (render_nonzero fmt j 0 Hj)) as (rest & Eb & ->).
  cbn [obind buffer with_offset p_offset p_allocs]. rewrite Eb.
  set (n := length (render fmt 0 j)) in *.
  assert (Hm : take (n + 1) (render fmt 0 j ++ 0 :: rest) = t).
  { subst t n. change (0 :: rest) with ([0] ++ rest). rewrite app_assoc.
    apply take_app_length'. rewrite length_app. reflexivity. }
  assert (Hlt : length t = (n + 1)%nat) by (subst t n; rewrite length_app; reflexivity).
  destruct reallocs; unfold reallocate.
  - destruct (allocate (p_allocs p') (n + 1)) as [m'|] eqn:E2.
    2:{ exists None. split; [reflexivity|]. split; [auto|]. intros Hp. destruct (Hp (p_allocs p') (n + 1)%nat). congruence. }
    apply allocate_size in E2. eexists. split; [reflexivity|].
    rewrite Hm, (drop_ge m'), app_nil_r by (rewrite length_app; cbn [length]; lia). auto.
  - destruct (allocate (p_allocs p') (n + 1)) as [m'|] eqn:E2.
    2:{ exists None. split; [reflexivity|]. split; [auto|]. intros Hp. destruct (Hp (p_allocs p') (n + 1)%nat). congruence. }
    apply allocate_size in E2. eexists. split; [reflexivity|].
    rewrite Nat.min_r by (rewrite length_app; cbn [length]; lia). rewrite Hm.
    assert (Hb : blit m' 0 t = t).
    { unfold blit. rewrite (drop_ge m') by lia. cbn. apply app_nil_r. }
    rewrite Hb. assert (Hb2 : blit t n [0] = t).
    { unfold blit. rewrite (drop_ge t) by (cbn [length]; lia). rewrite app_nil_r. subst t n.
      rewrite take_app_length. reflexivity. }
    rewrite Hb2. auto.
Qed.

(** C13: [cJSON_Print] and [cJSON_PrintUnformatted], with or without [realloc], on
    the item of any JSON value: no write leaves the output block, however often
    it has to grow, and the result is NULL or exactly the text of the value and
    its terminator; it is the text when the allocator does not fail and the
    text is shorter than 2^31 - 2 bytes. *)
Theorem print_writes_text j name fmt reallocs :
  strings_ok j ->
  exists r, print (item_of name j) fmt reallocs = Ret r /\
    (r = None \/ r = Some (render fmt 0 j ++ [0])) /\
    (plenty -> lenZ (render fmt 0 j) + 2 <= INT_MAX -> r = Some (render fmt 0 j ++ [0])).
Proof.
  intros Hj. destruct (print_spec j name fmt reallocs Hj) as (r & E & H1 & H2).
  exists r. split; [exact E|]. split; [exact H1|]. intros HA HB. apply H2; [exact HA|].
  rewrite length_app. cbn [length]. lia.
Qed.

(** [cJSON_PrintPreallocated] never writes outside the [length] bytes it is
    given, whether it succeeds or not; when it returns true they start with the
    text of the value and its terminator; and it does return true when [length]
    is the length of the text plus 2 or more. *)
Theorem print_preallocated j name m len fmt reallocs :
  strings_ok j -> 1 <= len <= lenZ m -> len <= INT_MAX ->
  exists ok m', cJSON_PrintPreallocated (item_of name j) (Some m) len fmt reallocs = Ret (ok, Some m') /\
    length m' = length m /\ drop (Z.to_nat len) m' = drop (Z.to_nat len) m /\
    (ok = true -> take (length (render fmt 0 j) + 1) m' = render fmt 0 j ++ [0]) /\
    (lenZ (render fmt 0 j) + 2 <= len -> ok = true).
Proof.
  intros Hj Hl Hmax. unfold cJSON_PrintPreallocated.
  rewrite (proj2 (Z.ltb_ge len 0)), (proj2 (Z.ltb_ge (lenZ m) len)) by lia. cbv zeta.
  set (n := Z.to_nat len). assert (Hn : length (take n m) = n) by (rewrite length_take; lia).
  set (p := mkP (Some (take n m)) 0 0 true fmt reallocs 0).
  destruct (print_entry j name p Hj eq_refl eq_refl) as (ok & p' & E & H1 & H2).
  { exists (take n m). repeat split. left. cbn [length]. lia. }
  destruct (proj2 (print_value_keeps _ _ _ _ E eq_refl) _ eq_refl) as (m1 & Eb & Hm1).
  rewrite E. cbn [obind format p] in *. rewrite Eb. exists ok. eexists. split; [reflexivity|].
  split; [rewrite length_app, Hm1, length_take, length_drop; lia|].
  split; [apply drop_app_length'; lia|]. split.
  - intros Hk. destruct (H1 Hk) as [(rest & Eb' & _) _]. rewrite Eb in Eb'. injection Eb' as ->.
    cbn [app] in *. rewrite take_app_le by (rewrite length_app; cbn [length]; lia).
    change (0 :: rest) with ([0] ++ rest). rewrite app_assoc. apply take_app_length'.
    rewrite length_app. reflexivity.
  - intros HB. apply H2; [left; reflexivity|]. cbn [limit noalloc buffer p]. lia.
Qed.

(** C12: what printing and parsing keep.  When no allocation fails, the text that
    [cJSON_Print] or [cJSON_PrintUnformatted] makes of a JSON value (strings
    without zero bytes, nesting within the limit, text shorter than 2^31) is
    read back by [cJSON_Parse], which stops exactly at its end, as a value with
    the same structure, keys, strings and constants, in which every infinity
    and NaN has become null and every finite number is what [strtod] makes of
    its printed text: the number itself, or one that [compare_double] takes for
    equal.  Assumed of the C library: seventeen digits determine a [double] and
    [sscanf] converts as [strtod] does. *)
Theorem print_parse_roundtrip `{!DoubleDigits D} j fmt reallocs rnt :
  plenty -> texts_ok j -> (height j <= CJSON_NESTING_LIMIT)%nat -> lenZ (render fmt 0 j) + 2 <= INT_MAX ->
  exists t, print (item_of None j) fmt reallocs = Ret (Some t) /\
    cJSON_ParseWithOpts (Some t) rnt
    = Ret (mkParsed (Some (item_of None (reread j))) 0 (Some (length t - 1)%nat)) /\
    read_back j (reread j).
Proof.
  intros Hp Hj Hh Hl. destruct (print_spec j None fmt reallocs (texts_strings j Hj)) as (r & E & _ & H).
  rewrite length_app in H. cbn [length] in H. specialize (H Hp ltac:(lia)). subst r.
  eexists. split; [exact E|]. split; [|apply reread_back].
  rewrite (parse_rendered Hp fmt j rnt Hj Hh), length_app. cbn [length]. do 3 f_equal. lia.
Qed.
End Printer.

(** ** Concrete values *)
Definition sample : json :=
  JObj [([97], JArr [JNum 12; JNum (-7); JNull; JTrue]);
        ([98; 34], JStr [104; 10; 1; 233]);
        ([99], JObj [])].

Lemma sample_ok : strings_ok sample /\ texts_ok sample.
Proof. split; repeat split; repeat constructor; lia. Qed.

Lemma print_writes_text_witness :
  exists r, cJSON_PrintUnformatted (item_of None sample) true = Ret r /\
    r = Some ([123; 34; 97; 34; 58; 91; 49; 50; 44; 45; 55; 44; 110; 117; 108; 108; 44; 116; 114; 117; 101;
      93; 44; 34; 98; 92; 34; 34; 58; 34; 104; 92; 110; 92; 117; 48; 48; 48; 49; 233; 34; 44; 34; 99; 34;
      58; 123; 125; 125] ++ [0]).
Proof.
  destruct (print_writes_text sample None false true (proj1 sample_ok)) as (r & E & _ & H).
  exists r. split; [exact E|]. apply H; [exact zeroed_plenty | vm_compute; discriminate].
Defined.

Lemma print_preallocated_witness :
  exists m', cJSON_PrintPreallocated (item_of None sample) (Some (repeat 7 60)) 51 false true
    = Ret (true, Some m') /\ drop 51 m' = repeat 7 9.
Proof.
  destruct (print_preallocated sample None (repeat 7 60) 51 false true (proj1 sample_ok))
    as (ok & m' & E & _ & Hd & _ & Hk); [vm_compute; split; discriminate | vm_compute; discriminate |].
  rewrite (Hk ltac:(vm_compute; discriminate)) in E. exists m'. split; [exact E | exact Hd].
Defined.

Lemma print_parse_roundtrip_witness :
  exists t, cJSON_Print (item_of None sample) false = Ret (Some t) /\
    cJSON_Parse (Some t) = Ret (mkParsed (Some (item_of None sample)) 0 (Some (length t - 1)%nat)) /\
    read_back sample sample.
Proof.
  exact (print_parse_roundtrip sample true false false zeroed_plenty (proj2 sample_ok)
    ltac:(vm_compute; lia) ltac:(vm_compute; discriminate)).
Defined.

(** ** Departures from JSON and from the interface *)

(** A [\u] escape without hexadecimal digits is accepted: [parse_hex4] answers
    0 for it, so that ["\uZZZZ"] is read as a string that holds a zero byte and
    ends there for every C caller. *)
Theorem bad_hex_accepted :
  cJSON_Parse (Some [34; 92; 117; 90; 90; 90; 90; 34; 0])
  = Ret (mkParsed (Some (item_of None (JStr [0]))) 0 (Some 8%nat)).
Proof. reflexivity. Qed.

(** [cJSON_PrintBuffered] with a size of 0 and an allocator without [realloc]
    copies one byte out of the empty block: [ensure] copies [offset + 1] bytes
    and tests [offset] against the length only when the length is not 0. *)
Theorem print_buffered_overreads fmt :
  cJSON_PrintBuffered (item_of None JNull) 0 fmt false = Crash OutOfBounds.
Proof. reflexivity. Qed.
