(* ===== verification/JsonMinify.v ===== *)
(** * JSON minifier (JSON/cJSON.c)

    [cJSON_Minify] removes white space and comments in place: one block, an
    input and an output pointer into it.  [strip] is the text it should leave;
    the block ends up holding it for every terminated text, and for the
    formatted text of a value it is the compact one. *)

From S2P Require Import Prelude JsonText JsonSafe JsonParse JsonPrint JsonRender JsonRound JsonProps.

Local Open Scope Z_scope.

(** ** The code *)
Fixpoint oneline_loop (fuel : nat) (s : list Z) (input : nat) : outcome nat :=
  match fuel with
  | O => Crash Diverge
  | S f =>
      let! c := get8 s input in
      if c =? 0 then Ret input
      else if c =? 10 then Ret (input + 1)%nat
      else oneline_loop f s (input + 1)
  end.

Definition skip_oneline_comment (s : list Z) (input : nat) : outcome nat :=
  oneline_loop (S (length s)) s (input + 2).

(** The test of one character behind a pointer. *)
Definition holds (s : list Z) (i : nat) (c : Z) : outcome bool := let! x := get8 s i in Ret (x =? c).

Fixpoint multiline_loop (fuel : nat) (s : list Z) (input : nat) : outcome nat :=
  match fuel with
  | O => Crash Diverge
  | S f =>
      let! c := get8 s input in
      if c =? 0 then Ret input
      else
        let! close := (if c =? 42 then holds s (input + 1) 47 else Ret false) in
        if (close : bool) then Ret (input + 2)%nat else multiline_loop f s (input + 1)
  end.

Definition skip_multiline_comment (s : list Z) (input : nat) : outcome nat :=
  multiline_loop (S (length s)) s (input + 2).

(** The loop of [minify_string]; the block and both pointers. *)
Fixpoint string_loop (fuel : nat) (s : list Z) (input output : nat) : outcome (list Z * nat * nat) :=
  match fuel with
  | O => Crash Diverge
  | S f =>
      let! c := get8 s input in
      if c =? 0 then Ret (s, input, output)
      else
        let! s := put8 s output c in
        let! c := get8 s input in
        if c =? 34 then
          let! s := put8 s output 34 in Ret (s, (input + 1)%nat, (output + 1)%nat)
        else
          let! quote := (if c =? 92 then holds s (input + 1) 34 else Ret false) in
          if (quote : bool) then
            let! q := get8 s (input + 1) in
            let! s := put8 s (output + 1) q in
            string_loop f s (input + 2) (output + 2)
          else string_loop f s (input + 1) (output + 1)
  end.

Definition minify_string (s : list Z) (input output : nat) : outcome (list Z * nat * nat) :=
  let! c := get8 s input in
  let! s := put8 s output c in
  string_loop (S (length s)) s (input + 1) (output + 1).

Definition is_blank (c : Z) : bool := (c =? 32) || (c =? 9) || (c =? 13) || (c =? 10).

(** The loop of [cJSON_Minify]; the block and [into]. *)
Fixpoint minify_loop (fuel : nat) (s : list Z) (json into : nat) : outcome (list Z * nat) :=
  match fuel with
  | O => Crash Diverge
  | S f =>
      let! c := get8 s json in
      if c =? 0 then Ret (s, into)
      else if is_blank c then minify_loop f s (json + 1) into
      else if c =? 47 then
        let! line := holds s (json + 1) 47 in
        if (line : bool) then
          let! json := skip_oneline_comment s json in minify_loop f s json into
        else
          let! block := holds s (json + 1) 42 in
          if (block : bool) then
            let! json := skip_multiline_comment s json in minify_loop f s json into
          else minify_loop f s (json + 1) into
      else if c =? 34 then
        let! (s, json, into) := minify_string s json into in minify_loop f s json into
      else
        let! s := put8 s into c in minify_loop f s (json + 1) (into + 1)
  end.

(** [None] is NULL. *)
Definition cJSON_Minify (json : option (list Z)) : outcome (option (list Z)) :=
  match json with
  | None => Ret None
  | Some s =>
      let! (s, into) := minify_loop (S (length s)) s 0 0 in
      let! s := put8 s into 0 in Ret (Some s)
  end.

(** ** The text it should leave *)
Inductive mode := Plain | Quoted | Escaped | LineOpen | Line | BlockOpen | Block | BlockClose.

Definition head_is (s : list Z) (c : Z) : bool := match s with d :: _ => d =? c | [] => false end.

(** One pass over the text, by the part of it the next character is in. *)
Fixpoint strip (m : mode) (s : list Z) : list Z :=
  match s with
  | [] => []
  | c :: s' =>
      match m with
      | Plain =>
          if is_blank c then strip Plain s'
          else if c =? 47 then
            strip (if head_is s' 47 then LineOpen else if head_is s' 42 then BlockOpen else Plain) s'
          else c :: strip (if c =? 34 then Quoted else Plain) s'
      | Quoted =>
          c :: strip (if c =? 34 then Plain
                      else if (c =? 92) && head_is s' 34 then Escaped else Quoted) s'
      | Escaped => c :: strip Quoted s'
      | LineOpen => strip Line s'
      | Line => strip (if c =? 10 then Plain else Line) s'
      | BlockOpen => strip Block s'
      | Block => strip (if (c =? 42) && head_is s' 47 then BlockClose else Block) s'
      | BlockClose => strip Plain s'
      end
  end.

(** ** In place *)

(** The output so far and the input left, in the same block. *)
Record at_work (s : list Z) (json into : nat) (out t r : list Z) : Prop := {
  work_out : take into s = out;
  work_len : length out = into;
  work_in : drop json s = t ++ 0 :: r;
  work_order : (into <= json)%nat;
  work_bytes : Forall text_byte t
}.

Lemma work_bound s json into out t r : at_work s json into out t r -> (json + length t < length s)%nat.
Proof.
  intros H. pose proof (f_equal length (work_in _ _ _ _ _ _ H)) as E.
  rewrite length_drop, length_app in E. cbn [length] in E. lia.
Qed.

Lemma byte_u8 c : text_byte c -> u8 c = c.
Proof. intros H. apply Z.mod_small. unfold text_byte in H. lia. Qed.

(** The character under the input pointer. *)
Lemma work_head s json into out c t r : at_work s json into out (c :: t) r ->
  get8 s json = Ret c /\ text_byte c.
Proof.
  intros H. split; [exact (get8_at _ _ _ _ (work_in _ _ _ _ _ _ H))|].
  pose proof (work_bytes _ _ _ _ _ _ H) as B. apply Forall_cons in B. apply B.
Qed.

Lemma work_end s json into out r : at_work s json into out [] r -> get8 s json = Ret 0.
Proof. intros H. exact (get8_at _ _ _ _ (work_in _ _ _ _ _ _ H)). Qed.

(** The next one, which may be the terminator. *)
Lemma work_second s json into out c t r x : at_work s json into out (c :: t) r -> x <> 0 ->
  holds s (json + 1) x = Ret (head_is t x).
Proof.
  intros H Hx. pose proof (drop_next _ _ _ _ (work_in _ _ _ _ _ _ H)) as E.
  rewrite Nat.add_1_r. unfold holds. destruct t as [|d t]; cbn [app] in E; rewrite (get8_at _ _ _ _ E); cbn [obind head_is].
  - rewrite (proj2 (Z.eqb_neq 0 x)) by lia. reflexivity.
  - reflexivity.
Qed.

(** Leave a character out. *)
Lemma work_skip s json into out c t r : at_work s json into out (c :: t) r ->
  at_work s (json + 1) into out t r.
Proof.
  intros [H1 H2 H3 H4 H5]. rewrite Nat.add_1_r.
  apply Forall_cons in H5 as [_ H5]. constructor; [exact H1 | exact H2 | | lia | exact H5].
  exact (drop_next _ _ _ _ H3).
Qed.

(** Store it: the output pointer is not ahead of the input pointer, so the rest
    of the input is intact, and so is the character itself. *)
Lemma work_store s json into out c t r : at_work s json into out (c :: t) r ->
  exists s', put8 s into c = Ret s' /\ length s' = length s /\ get8 s' json = Ret c /\
    put8 s' into c = Ret s' /\ drop (json + 1) s' = t ++ 0 :: r /\
    at_work s' (json + 1) (into + 1) (out ++ [c]) t r.
Proof.
  intros H. pose proof (work_bound _ _ _ _ _ _ H) as B. cbn [length] in B.
  destruct (work_head _ _ _ _ _ _ _ H) as [Hg Hc].
  destruct H as [H1 H2 H3 H4 H5]. exists (<[into := c]> s).
  assert (Hd : drop (json + 1) (<[into := c]> s) = t ++ 0 :: r).
  { rewrite drop_insert_lt by lia. rewrite Nat.add_1_r. exact (drop_next _ _ _ _ H3). }
  rewrite put8_in, (byte_u8 c Hc) by lia. split; [reflexivity|]. split; [apply length_insert|].
  split; [|split; [|split; [exact Hd|]]].
  - unfold get8 in *. destruct (decide (into = json)) as [->|].
    + rewrite list_lookup_insert_eq by lia. reflexivity.
    + rewrite list_lookup_insert_ne by assumption. exact Hg.
  - rewrite put8_in, (byte_u8 c Hc) by (rewrite length_insert; lia). rewrite list_insert_insert_eq. reflexivity.
  - apply Forall_cons in H5 as [_ H5]. constructor; [| | exact Hd | lia | exact H5].
    + rewrite Nat.add_1_r. rewrite (take_S_r _ _ c) by (apply list_lookup_insert_eq; lia).
      rewrite take_insert_ge by lia. rewrite H1. reflexivity.
    + rewrite length_app. simpl. lia.
Qed.

(** Where a comment ends. *)
Lemma oneline_spec into out r f : forall s json t,
  at_work s json into out t r -> (length t < f)%nat ->
  exists json' t', oneline_loop f s json = Ret json' /\ at_work s json' into out t' r /\
    strip Line t = strip Plain t' /\ (length t' <= length t)%nat.
Proof.
  induction f as [|f IH]; intros s json t H Hf; [lia|]. cbn [oneline_loop].
  destruct t as [|c t].
  { rewrite (work_end _ _ _ _ _ H). exists json, []. auto. }
  destruct (work_head _ _ _ _ _ _ _ H) as [-> Hc]. cbn [obind]. unfold text_byte in Hc.
  rewrite (proj2 (Z.eqb_neq c 0)) by lia. apply work_skip in H. cbn [strip length] in *.
  destruct (c =? 10).
  { exists (json + 1)%nat, t. split_and!; auto. }
  destruct (IH s (json + 1)%nat t H ltac:(lia)) as (j' & t' & -> & Hw & Hs & Hl).
  exists j', t'. split_and!; auto.
Qed.

Lemma multiline_spec into out r f : forall s json t,
  at_work s json into out t r -> (length t < f)%nat ->
  exists json' t', multiline_loop f s json = Ret json' /\ at_work s json' into out t' r /\
    strip Block t = strip Plain t' /\ (length t' <= length t)%nat.
Proof.
  induction f as [|f IH]; intros s json t H Hf; [lia|]. cbn [multiline_loop].
  destruct t as [|c t].
  { rewrite (work_end _ _ _ _ _ H). exists json, []. auto. }
  destruct (work_head _ _ _ _ _ _ _ H) as [-> Hc]. cbn [obind]. unfold text_byte in Hc.
  rewrite (proj2 (Z.eqb_neq c 0)) by lia.
  pose proof (work_second _ _ _ _ _ _ _ 47 H ltac:(lia)) as H2. apply work_skip in H. cbn [strip length] in *.
  assert (E : (if c =? 42 then holds s (json + 1) 47 else Ret false) = Ret ((c =? 42) && head_is t 47)).
  { destruct (c =? 42); [exact H2 | reflexivity]. }
  rewrite E. cbn [obind]. destruct ((c =? 42) && head_is t 47) eqn:Eb.
  - apply andb_prop in Eb as [_ Eb]. destruct t as [|d t]; [discriminate|].
    apply work_skip in H. exists (json + 2)%nat, t. cbn [strip length].
    replace (json + 2)%nat with (json + 1 + 1)%nat by lia. split_and!; auto.
  - destruct (IH s (json + 1)%nat t H ltac:(lia)) as (j' & t' & -> & Hw & Hs & Hl).
    exists j', t'. split_and!; auto.
Qed.

(** The inside of a string and its closing quote are copied. *)
Lemma string_loop_spec r f : forall s json into out t,
  at_work s json into out t r -> (length t < f)%nat ->
  exists s' json' into' w t', string_loop f s json into = Ret (s', json', into') /\
    length s' = length s /\ at_work s' json' into' (out ++ w) t' r /\
    strip Quoted t = w ++ strip Plain t' /\ (length t' <= length t)%nat.
Proof.
  induction f as [|f IH]; intros s json into out t H Hf; [lia|]. cbn [string_loop].
  destruct t as [|c t].
  { rewrite (work_end _ _ _ _ _ H). exists s, json, into, [], []. rewrite app_nil_r. auto. }
  destruct (work_head _ _ _ _ _ _ _ H) as [-> Hc]. cbn [obind]. unfold text_byte in Hc.
  rewrite (proj2 (Z.eqb_neq c 0)) by lia.
  destruct (work_store _ _ _ _ _ _ _ H) as (s1 & -> & L1 & G1 & P1 & D1 & W1). cbn [obind]. rewrite G1. cbn [obind].
  cbn [strip length] in *. destruct (Z.eqb_spec c 34) as [->|Hq].
  { rewrite P1. cbn [obind]. do 3 eexists. exists [34], t. split; [reflexivity|].
    split; [exact L1|]. split; [exact W1|]. split; [reflexivity | lia]. }
  assert (E : (if c =? 92 then holds s1 (json + 1) 34 else Ret false) = Ret ((c =? 92) && head_is t 34)).
  { destruct (c =? 92); [|reflexivity]. unfold holds. destruct t as [|d t]; cbn [app] in D1;
      rewrite (get8_at _ _ _ _ D1); reflexivity. }
  rewrite E. cbn [obind]. destruct ((c =? 92) && head_is t 34) eqn:Eb.
  - apply andb_prop in Eb as [_ Eb]. destruct t as [|d t]; [discriminate|].
    destruct (work_head _ _ _ _ _ _ _ W1) as [-> _]. cbn [obind].
    destruct (work_store _ _ _ _ _ _ _ W1) as (s2 & -> & L2 & _ & _ & _ & W2). cbn [obind length] in *.
    replace (json + 2)%nat with (json + 1 + 1)%nat by lia. replace (into + 2)%nat with (into + 1 + 1)%nat by lia.
    destruct (IH _ _ _ _ _ W2 ltac:(lia)) as (s3 & j3 & i3 & w & t3 & -> & L3 & W3 & S3 & Hl).
    exists s3, j3, i3, (c :: d :: w), t3. split; [reflexivity|]. split; [lia|].
    rewrite <- !app_assoc in W3. split; [exact W3|]. cbn [strip app]. rewrite S3. split; [reflexivity | lia].
  - destruct (IH _ _ _ _ _ W1 ltac:(lia)) as (s3 & j3 & i3 & w & t3 & -> & L3 & W3 & S3 & Hl).
    exists s3, j3, i3, (c :: w), t3. split; [reflexivity|]. split; [lia|].
    rewrite <- app_assoc in W3. split; [exact W3|]. cbn [app]. rewrite S3. split; [reflexivity | lia].
Qed.

Lemma minify_string_spec r s json into out t :
  at_work s json into out (34 :: t) r ->
  exists s' json' into' w t', minify_string s json into = Ret (s', json', into') /\
    length s' = length s /\ at_work s' json' into' (out ++ 34 :: w) t' r /\
    strip Quoted t = w ++ strip Plain t' /\ (length t' <= length t)%nat.
Proof.
  intros H. unfold minify_string. destruct (work_head _ _ _ _ _ _ _ H) as [-> _]. cbn [obind].
  destruct (work_store _ _ _ _ _ _ _ H) as (s1 & -> & L1 & _ & _ & _ & W1). cbn [obind].
  pose proof (work_bound _ _ _ _ _ _ W1).
  destruct (string_loop_spec r (S (length s1)) _ _ _ _ _ W1 ltac:(lia))
    as (s3 & j3 & i3 & w & t3 & -> & L3 & W3 & S3 & Hl).
  exists s3, j3, i3, w, t3. split; [reflexivity|]. split; [lia|].
  rewrite <- app_assoc in W3. split; [exact W3|]. split; [exact S3 | lia].
Qed.

(** A comment, from its first character. *)
Lemma comment_spec (loop : nat -> list Z -> nat -> outcome nat) (m : mode) s json into out c d t r :
  (forall into out r f s json t, at_work s json into out t r -> (length t < f)%nat ->
     exists json' t', loop f s json = Ret json' /\ at_work s json' into out t' r /\
       strip m t = strip Plain t' /\ (length t' <= length t)%nat) ->
  at_work s json into out (c :: d :: t) r ->
  exists json' t', loop (S (length s)) s (json + 2)%nat = Ret json' /\ at_work s json' into out t' r /\
    strip m t = strip Plain t' /\ (length t' <= length t)%nat.
Proof.
  intros Hl H. apply work_skip, work_skip in H. pose proof (work_bound _ _ _ _ _ _ H).
  replace (json + 2)%nat with (json + 1 + 1)%nat by lia. apply Hl; [exact H | lia].
Qed.

Lemma minify_loop_spec r f : forall s json into out t,
  at_work s json into out t r -> (length t < f)%nat ->
  exists s' json', minify_loop f s json into = Ret (s', length (out ++ strip Plain t)) /\
    length s' = length s /\ at_work s' json' (length (out ++ strip Plain t)) (out ++ strip Plain t) [] r.
Proof.
  induction f as [|f IH]; intros s json into out t H Hf; [lia|]. cbn [minify_loop].
  destruct t as [|c t].
  { rewrite (work_end _ _ _ _ _ H). cbn [obind strip]. rewrite app_nil_r, (work_len _ _ _ _ _ _ H).
    exists s, json. auto. }
  destruct (work_head _ _ _ _ _ _ _ H) as [-> Hc]. cbn [obind]. unfold text_byte in Hc.
  rewrite (proj2 (Z.eqb_neq c 0)) by lia. cbn [strip length] in *.
  assert (Hskip : exists s' json', minify_loop f s (json + 1) into = Ret (s', length (out ++ strip Plain t)) /\
    length s' = length s /\ at_work s' json' (length (out ++ strip Plain t)) (out ++ strip Plain t) [] r).
  { apply IH; [eapply work_skip, H | lia]. }
  destruct (is_blank c); [exact Hskip|]. destruct (c =? 47).
  - rewrite (work_second _ _ _ _ _ _ _ 47 H), (work_second _ _ _ _ _ _ _ 42 H) by lia. cbn [obind].
    destruct (head_is t 47) eqn:E1; [|destruct (head_is t 42) eqn:E2; [|exact Hskip]];
      (destruct t as [|d t]; [discriminate|]); cbn [strip length] in *.
    + unfold skip_oneline_comment.
      destruct (comment_spec _ Line _ _ _ _ _ _ _ _ oneline_spec H) as (j & t' & -> & W & -> & Hl).
      cbn [obind]. apply IH; [exact W | lia].
    + unfold skip_multiline_comment.
      destruct (comment_spec _ Block _ _ _ _ _ _ _ _ multiline_spec H) as (j & t' & -> & W & -> & Hl).
      cbn [obind]. apply IH; [exact W | lia].
  - destruct (Z.eqb_spec c 34) as [->|_].
    + destruct (minify_string_spec _ _ _ _ _ _ H) as (s3 & j3 & i3 & w & t3 & -> & L3 & W3 & -> & Hl).
      cbn [obind]. destruct (IH _ _ _ _ _ W3 ltac:(lia)) as (s' & j' & E & L & W).
      rewrite <- app_assoc in E, W. exists s', j'. split; [exact E|]. split; [lia | exact W].
    + destruct (work_store _ _ _ _ _ _ _ H) as (s1 & -> & L1 & _ & _ & _ & W1). cbn [obind].
      destruct (IH _ _ _ _ _ W1 ltac:(lia)) as (s' & j' & E & L & W).
      rewrite <- app_assoc in E, W. exists s', j'. split; [exact E|]. split; [lia | exact W].
Qed.

Lemma minify_spec t r : Forall text_byte t ->
  exists rest, cJSON_Minify (Some (t ++ 0 :: r)) = Ret (Some (strip Plain t ++ 0 :: rest)) /\
    length (strip Plain t ++ 0 :: rest) = length (t ++ 0 :: r) /\
    drop (S (length t)) (strip Plain t ++ 0 :: rest) = r.
Proof.
  intros Ht. unfold cJSON_Minify.
  destruct (minify_loop_spec r (S (length (t ++ 0 :: r))) (t ++ 0 :: r) 0 0 [] t) as (s' & j & -> & L & W);
    [constructor; auto | rewrite length_app; lia |].
  cbn [obind app] in *. pose proof (work_bound _ _ _ _ _ _ W). pose proof (work_order _ _ _ _ _ _ W).
  cbn [length] in *. rewrite put8_in by lia. cbn [obind].
  set (n := length (strip Plain t)) in *. exists (drop (S n) s').
  assert (E : <[n := u8 0]> s' = strip Plain t ++ 0 :: drop (S n) s').
  { rewrite insert_take_drop, (work_out _ _ _ _ _ _ W) by lia. reflexivity. }
  rewrite E. split; [reflexivity|]. rewrite <- E, length_insert. split; [exact L|].
  pose proof (work_in _ _ _ _ _ _ W) as Ed. cbn [app] in Ed.
  assert (Hj : j = length t).
  { pose proof (f_equal length Ed) as El. rewrite length_drop, L, length_app in El. cbn [length] in El. lia. }
  subst j. rewrite drop_insert_lt by lia. exact (drop_next _ _ _ _ Ed).
Qed.

(** ** On printed texts *)
Section Printed.
Context `{D : CDouble} {DT : DoubleText D}.

Definition plain_char (c : Z) : Prop := is_blank c = false /\ c <> 47 /\ c <> 34.

Lemma strip_plain t k : Forall plain_char t -> strip Plain (t ++ k) = t ++ strip Plain k.
Proof.
  induction 1 as [|c t (Hb & H1 & H2) _ IH]; [reflexivity|]. cbn [app strip].
  rewrite Hb, (proj2 (Z.eqb_neq c 47) H1), (proj2 (Z.eqb_neq c 34) H2), IH. reflexivity.
Qed.

Lemma strip_blank t k : Forall (fun c => is_blank c = true) t -> strip Plain (t ++ k) = strip Plain k.
Proof. induction 1 as [|c t Hb _ IH]; [reflexivity|]. cbn [app strip]. rewrite Hb. exact IH. Qed.

Lemma indent_blank d : Forall (fun c => is_blank c = true) (indent true d).
Proof. unfold indent. rewrite repeat_replicate. apply Forall_replicate. reflexivity. Qed.

Lemma num_plain d : Forall plain_char (num d).
Proof.
  assert (Hk : forall k, d_eq (d_mul d d_zero) d_zero = true -> Forall plain_char (sprintf_g k d)).
  { intros k Ef. eapply Forall_impl; [apply (g_chars k d Ef)|]. unfold plain_char, is_blank.
    intros c [Hc|Hc]; [unfold is_number_char in Hc|]; lia. }
  unfold num. destruct (d_eq (d_mul d d_zero) d_zero) eqn:Ef.
  - destruct (match sscanf_lg _ with Some _ => _ | None => _ end); apply Hk; reflexivity.
  - repeat constructor; discriminate.
Qed.

(** A string that does not end in a backslash. *)
Definition no_final_backslash (s : list Z) : Prop := Forall text_byte s /\ last s <> Some 92.

(** Inside a string, one character or one escaped quote at a time. *)
Lemma strip_char c s : c <> 34 -> c <> 92 -> strip Quoted (c :: s) = c :: strip Quoted s.
Proof. intros H1 H2. cbn [strip]. rewrite (proj2 (Z.eqb_neq c 34) H1), (proj2 (Z.eqb_neq c 92) H2). reflexivity. Qed.

Lemma strip_backslash s : head_is s 34 = false -> strip Quoted (92 :: s) = 92 :: strip Quoted s.
Proof. intros H. cbn [strip]. rewrite H. reflexivity. Qed.

Lemma strip_escaped s k : no_final_backslash s ->
  strip Quoted (flat_map escape1 s ++ 34 :: k) = flat_map escape1 s ++ 34 :: strip Plain k.
Proof.
  intros [Hb Hl]. induction Hb as [|c s Hc Hb IH]; [reflexivity|].
  assert (IH' : strip Quoted (flat_map escape1 s ++ 34 :: k) = flat_map escape1 s ++ 34 :: strip Plain k).
  { apply IH. destruct s as [|x s]; [discriminate | exact Hl]. }
  cbn [flat_map]. rewrite <- !app_assoc. clear IH.
  destruct (escape1_cases c Hc) as [(E & H1 & H2)|[(l & E & Hs)|(Hc' & E)]]; rewrite E; cbn [app].
  - rewrite strip_char, IH' by assumption. reflexivity.
  - destruct (Z.eq_dec l 34) as [->|Hl34]; [cbn [strip]; cbn; rewrite IH'; reflexivity|].
    rewrite strip_backslash by (apply Z.eqb_neq, Hl34).
    destruct (Z.eq_dec l 92) as [->|Hl92]; [|rewrite strip_char, IH' by assumption; reflexivity].
    rewrite strip_backslash, IH'; [reflexivity|].
    injection Hs as <-. destruct s as [|x s]; [contradiction|]. cbn [flat_map].
    apply Forall_cons in Hb as [Hx _].
    destruct (escape1_cases x Hx) as [(-> & H1 & _)|[(l' & -> & _)|(_ & ->)]]; cbn [app head_is]; [lia | reflexivity..].
  - assert (Hh : forall v, 0 <= v < 16 -> hex_char v <> 34 /\ hex_char v <> 92).
    { intros v Hv. unfold hex_char. zcase; lia. }
    destruct (Hh (c / 16)) as [E1 E2], (Hh (c mod 16)) as [E3 E4];
      try (unfold text_byte in Hc; Z.div_mod_to_equations; lia).
    rewrite strip_backslash by reflexivity. rewrite !strip_char, IH' by (assumption || lia). reflexivity.
Qed.

Lemma strip_quoted s k : no_final_backslash s -> strip Plain (quoted s ++ k) = quoted s ++ strip Plain k.
Proof.
  intros H. unfold quoted. rewrite (cstr_id s) by apply H. cbn [app strip]. rewrite <- !app_assoc.
  change (is_blank 34) with false. cbn [Z.eqb Pos.eqb app]. rewrite strip_escaped by exact H. reflexivity.
Qed.

(** Values in which no string and no name ends in a backslash. *)
Fixpoint minifiable (j : json) : Prop :=
  match j with
  | JStr s => no_final_backslash s
  | JArr l => fold_right and True (map minifiable l)
  | JObj l => fold_right and True (map (fun kv => no_final_backslash (fst kv) /\ minifiable (snd kv)) l)
  | _ => True
  end.

(** [strip] removes the formatting of a text. *)
Definition minifies (a b : list Z) : Prop := forall k, strip Plain (a ++ k) = b ++ strip Plain k.

Lemma minifies_app a b a' b' : minifies a b -> minifies a' b' -> minifies (a ++ a') (b ++ b').
Proof. intros H H' k. rewrite <- !app_assoc, H, H'. reflexivity. Qed.

Lemma minifies_plain t : Forall plain_char t -> minifies t t.
Proof. intros H k. apply strip_plain, H. Qed.

Lemma minifies_blank t : Forall (fun c => is_blank c = true) t -> minifies t [].
Proof. intros H k. apply strip_blank, H. Qed.

Lemma minifies_separated sep sep' l l' : minifies sep sep' -> Forall2 minifies l l' ->
  minifies (separated sep l) (separated sep' l').
Proof.
  intros Hs. induction 1 as [|x y l l' Hx Hl IH]; [intros k; reflexivity|]. cbn [separated].
  apply minifies_app; [exact Hx|]. destruct Hl; [intros k; reflexivity|].
  apply minifies_app; [exact Hs | exact IH].
Qed.

Ltac plain := apply minifies_plain; repeat constructor; discriminate.

Lemma minifies_map {X : Type} (f g : X -> list Z) (P : X -> Prop) l :
  Forall (fun x => P x -> minifies (f x) (g x)) l -> fold_right and True (map P l) ->
  Forall2 minifies (map f l) (map g l).
Proof. induction 1 as [|x l Hx _ IH]; cbn; [constructor|]. intros [H1 H2]. constructor; auto. Qed.

Lemma minifies_render j : minifiable j -> forall d d', minifies (render true d j) (render false d' j).
Proof.
  induction j as [| | |x|s|l IH|l IH] using json_induction; intros Hok d d'; cbn [render].
  1-3: plain.
  - apply minifies_plain, num_plain.
  - intros k. apply strip_quoted, Hok.
  - apply (minifies_app [91] [91]); [plain|]. apply minifies_app; [|plain].
    apply minifies_separated; [apply (minifies_app [44] [44] [32] []); [plain | apply minifies_blank; repeat constructor]|].
    apply (minifies_map _ _ minifiable); [|exact Hok]. eapply Forall_impl; [exact IH|]. cbv beta. auto.
  - apply minifies_app; [apply (minifies_app [123] [123] [10] []); [plain | apply minifies_blank; repeat constructor]|].
    apply minifies_app.
    + apply minifies_separated; [apply (minifies_app [44] [44] [10] []); [plain | apply minifies_blank; repeat constructor]|].
      apply (minifies_map _ _ (fun kv => no_final_backslash (fst kv) /\ minifiable (snd kv))); [|exact Hok].
      eapply Forall_impl; [exact IH|]. intros kv Hkv [Hn Hm]. cbv beta.
      apply (minifies_app (indent true (S d)) []); [apply minifies_blank, indent_blank|].
      apply minifies_app; [intros k; apply strip_quoted, Hn|].
      apply minifies_app; [apply (minifies_app [58] [58] [9] []); [plain | apply minifies_blank; repeat constructor]|].
      apply Hkv, Hm.
    + apply (minifies_app _ [] [125] [125]); [|plain].
      apply (minifies_app _ [] (indent true d) []); [|apply minifies_blank, indent_blank].
      destruct l; [intros k; reflexivity | apply minifies_blank; repeat constructor].
Qed.

(** The characters of a text. *)
Lemma escape1_bytes c : text_byte c -> Forall text_byte (escape1 c).
Proof.
  intros Hc. destruct (escape1_cases c Hc) as [(-> & _)|[(l & -> & Hs)|(Hc' & ->)]].
  - constructor; [exact Hc | constructor].
  - repeat constructor; unfold text_byte in *; try lia;
      unfold simple_escape in Hs; repeat (zcase; [lia|]); discriminate.
  - assert (Hh : forall v, 0 <= v < 16 -> text_byte (hex_char v)).
    { intros v Hv. unfold hex_char, text_byte. zcase; lia. }
    repeat constructor; try (unfold text_byte; lia); apply Hh; unfold text_byte in Hc; Z.div_mod_to_equations; lia.
Qed.

Lemma quoted_bytes s : Forall text_byte s -> Forall text_byte (quoted s).
Proof.
  intros Hs. unfold quoted. rewrite cstr_id by exact Hs. constructor; [unfold text_byte; lia|].
  apply Forall_app_2; [|repeat constructor; unfold text_byte; lia].
  induction Hs as [|c s Hc _ IH]; cbn [flat_map]; [constructor|].
  apply Forall_app_2; [apply escape1_bytes, Hc | exact IH].
Qed.

Lemma num_bytes d : Forall text_byte (num d).
Proof.
  assert (Hk : forall k, d_eq (d_mul d d_zero) d_zero = true -> Forall text_byte (sprintf_g k d)).
  { intros k Ef. eapply Forall_impl; [apply (g_chars k d Ef)|]. unfold text_byte.
    intros c [Hc|Hc]; [unfold is_number_char in Hc|]; lia. }
  unfold num. destruct (d_eq (d_mul d d_zero) d_zero) eqn:Ef.
  - destruct (match sscanf_lg _ with Some _ => _ | None => _ end); apply Hk; reflexivity.
  - repeat constructor; discriminate.
Qed.

Lemma separated_bytes sep l : Forall text_byte sep -> Forall (Forall text_byte) l ->
  Forall text_byte (separated sep l).
Proof.
  intros Hs. induction 1 as [|x l Hx Hl IH]; cbn [separated]; [constructor|].
  apply Forall_app_2; [exact Hx|]. destruct l; [constructor | apply Forall_app_2; assumption].
Qed.

Ltac bytes := repeat constructor; unfold text_byte; lia.

Lemma tabs_bytes n : Forall text_byte (repeat 9 n).
Proof. rewrite repeat_replicate. apply Forall_replicate. unfold text_byte. lia. Qed.

Lemma Forall_map_and {X : Type} (f : X -> list Z) (P : X -> Prop) l :
  Forall (fun x => P x -> Forall text_byte (f x)) l -> fold_right and True (map P l) ->
  Forall (Forall text_byte) (map f l).
Proof. induction 1 as [|x l Hx _ IH]; cbn; [constructor|]. intros [H1 H2]. constructor; auto. Qed.

Lemma render_bytes fmt j : minifiable j -> forall d, Forall text_byte (render fmt d j).
Proof.
  induction j as [| | |x|s|l IH|l IH] using json_induction; intros Hok d; cbn [render].
  1-3: bytes.
  - apply num_bytes.
  - apply quoted_bytes, Hok.
  - constructor; [unfold text_byte; lia|]. apply Forall_app_2; [|bytes].
    apply separated_bytes; [destruct fmt; bytes|].
    apply (Forall_map_and _ minifiable); [|exact Hok]. eapply Forall_impl; [exact IH|]. cbv beta. auto.
  - apply Forall_app_2; [destruct fmt; bytes|]. apply Forall_app_2.
    + apply separated_bytes; [destruct fmt; bytes|].
      apply (Forall_map_and _ (fun kv => no_final_backslash (fst kv) /\ minifiable (snd kv))); [|exact Hok].
      eapply Forall_impl; [exact IH|]. intros kv Hkv [Hn Hm]. cbv beta.
      apply Forall_app_2; [destruct fmt; [apply tabs_bytes | constructor]|].
      apply Forall_app_2; [apply quoted_bytes, Hn|].
      apply Forall_app_2; [destruct fmt; bytes | apply Hkv, Hm].
    + apply Forall_app_2; [|bytes]. destruct fmt; [|constructor].
      apply Forall_app_2; [destruct l; bytes | apply tabs_bytes].
Qed.

Lemma minifiable_strings j : minifiable j -> strings_ok j.
Proof.
  assert (Hb : forall s, no_final_backslash s -> nonneg s).
  { intros s [H _]. eapply Forall_impl; [exact H|]. unfold text_byte. intros c Hc. cbv beta. lia. }
  induction j as [| | |x|s|l IH|l IH] using json_induction; cbn [minifiable strings_ok]; auto.
  - induction IH as [|x l Hx _ IH]; cbn; [auto|]. intros [H1 H2]. auto.
  - induction IH as [|x l Hx _ IH]; cbn; [auto|]. intros [[H1 H2] H3]. auto.
Qed.

End Printed.

(** ** Theorems *)

(** C16: [cJSON_Minify] returns on every terminated text, comments and strings that
    are not closed included: it reads and writes inside the text only, leaves
    what lies behind the terminator alone, and leaves exactly the text that one
    pass over the original gives, terminated, at the start of the block. *)
Theorem minify_in_place t r :
  Forall text_byte t ->
  exists rest, cJSON_Minify (Some (t ++ 0 :: r)) = Ret (Some (strip Plain t ++ 0 :: rest)) /\
    length (strip Plain t ++ 0 :: rest) = length (t ++ 0 :: r) /\
    drop (S (length t)) (strip Plain t ++ 0 :: rest) = r.
Proof. apply minify_spec. Qed.

(** What [cJSON_Print] prints of a value, minified, is what
    [cJSON_PrintUnformatted] prints of it, if no string and no name in it ends
    in a backslash. *)
Theorem minify_formatted `{D : CDouble} {DT : DoubleText D} `{A : Allocator} {AS : AllocatorSize A}
    j name reallocs t u :
  minifiable j -> cJSON_Print (item_of name j) reallocs = Ret (Some t) ->
  cJSON_PrintUnformatted (item_of name j) reallocs = Ret (Some u) ->
  exists rest, cJSON_Minify (Some t) = Ret (Some (u ++ rest)).
Proof.
  intros Hj Et Eu. pose proof (minifiable_strings j Hj) as Hs. unfold cJSON_Print, cJSON_PrintUnformatted in *.
  destruct (print_spec j name true reallocs Hs) as (r1 & E1 & [->|Hr1] & _); [congruence|].
  destruct (print_spec j name false reallocs Hs) as (r2 & E2 & [->|Hr2] & _); [congruence|].
  rewrite E1, Hr1 in Et. rewrite E2, Hr2 in Eu. injection Et as <-. injection Eu as <-.
  destruct (minify_spec (render true 0 j) [] (render_bytes true j Hj 0)) as (rest & -> & _).
  pose proof (minifies_render j Hj 0 0 []) as H. rewrite app_nil_r in H. rewrite H. cbn [strip].
  exists rest. rewrite app_nil_r, <- app_assoc. reflexivity.
Qed.

(** A string that ends in a backslash makes [cJSON_Minify] take its closing
    quote for an escaped one, so that the inside of the next string counts as
    outside: minifying ["\\", "a b"] as an array loses the space of the second
    string. *)
Theorem minify_backslash :
  exists rest, cJSON_Minify (Some [91; 34; 92; 92; 34; 44; 34; 97; 32; 98; 34; 93; 0])
  = Ret (Some ([91; 34; 92; 92; 34; 44; 34; 97; 98; 34; 93; 0] ++ rest)).
Proof. eexists. vm_compute. reflexivity. Qed.

(** White space, both kinds of comments, and an escaped quote in a string. *)
Definition minify_sample : list Z :=
  [91; 32; 47; 47; 120; 10; 34; 92; 34; 32; 34; 47; 42; 42; 47; 9; 44; 49; 93].

Lemma minify_in_place_witness :
  exists rest, cJSON_Minify (Some (minify_sample ++ 0 :: [7]))
  = Ret (Some ([91; 34; 92; 34; 32; 34; 44; 49; 93] ++ 0 :: rest)).
Proof.
  destruct (minify_in_place minify_sample [7]) as (rest & E & _);
    [repeat constructor; unfold text_byte; lia | exists rest; exact E].
Defined.

Lemma minify_formatted_witness :
  exists t u rest, cJSON_Print (item_of None sample) true = Ret (Some t) /\
    cJSON_PrintUnformatted (item_of None sample) true = Ret (Some u) /\
    cJSON_Minify (Some t) = Ret (Some (u ++ rest)).
Proof.
  assert (Hj : minifiable sample).
  { repeat split; try discriminate; repeat constructor; unfold text_byte; lia. }
  destruct (print_spec sample None true true (proj1 sample_ok)) as (r1 & E1 & _ & H1).
  destruct (print_spec sample None false true (proj1 sample_ok)) as (r2 & E2 & _ & H2).
  rewrite (H1 zeroed_plenty ltac:(vm_compute; discriminate)) in E1.
  rewrite (H2 zeroed_plenty ltac:(vm_compute; discriminate)) in E2.
  destruct (minify_formatted sample None true _ _ Hj E1 E2) as [rest E].
  do 2 eexists. exists rest. split; [exact E1|]. split; [exact E2 | exact E].
Defined.
