(* ===== verification/JsonHeap.v ===== *)
(** * JSON items in memory (JSON/cJSON.c)

    The tree operations work on items that are linked by pointers and owned by
    whoever holds the root, so here items live in a heap: a block is an item or
    a text, an address is a positive number, NULL is [None].  Following NULL,
    using a block that is not allocated and freeing it are crashes.

    A text is the contents of its block before the final terminator; the caller's
    string arguments are addresses of texts like any other.  Every function is a
    state transformer of type [M]. *)

From stdpp Require Import gmap.
From S2P Require Import Prelude JsonText JsonPrint.

Local Open Scope Z_scope.

Definition cJSON_IsReference : Z := 256.
Definition cJSON_StringIsConst : Z := 512.

(** ** Memory *)
Definition addr := positive.
Definition ptr := option addr.

Section Heap.
Context `{D : CDouble}.

Record node := mkNode {
  n_next : ptr; n_prev : ptr; n_child : ptr; n_type : Z; n_valuestring : ptr;
  n_valueint : Z; n_valuedouble : double; n_string : ptr }.

Definition node0 : node := mkNode None None None 0 None 0 d_zero None.

Definition with_next (p : ptr) (n : node) : node :=
  mkNode p (n_prev n) (n_child n) (n_type n) (n_valuestring n) (n_valueint n) (n_valuedouble n) (n_string n).
Definition with_prev (p : ptr) (n : node) : node :=
  mkNode (n_next n) p (n_child n) (n_type n) (n_valuestring n) (n_valueint n) (n_valuedouble n) (n_string n).
Definition with_child (p : ptr) (n : node) : node :=
  mkNode (n_next n) (n_prev n) p (n_type n) (n_valuestring n) (n_valueint n) (n_valuedouble n) (n_string n).
Definition with_type (t : Z) (n : node) : node :=
  mkNode (n_next n) (n_prev n) (n_child n) t (n_valuestring n) (n_valueint n) (n_valuedouble n) (n_string n).
Definition with_valuestring (p : ptr) (n : node) : node :=
  mkNode (n_next n) (n_prev n) (n_child n) (n_type n) p (n_valueint n) (n_valuedouble n) (n_string n).
Definition with_number (i : Z) (d : double) (n : node) : node :=
  mkNode (n_next n) (n_prev n) (n_child n) (n_type n) (n_valuestring n) i d (n_string n).
Definition with_string (p : ptr) (n : node) : node :=
  mkNode (n_next n) (n_prev n) (n_child n) (n_type n) (n_valuestring n) (n_valueint n) (n_valuedouble n) p.

(** [calls] counts the calls of the allocator. *)
Record heap := mkHeap { nodes : gmap addr node; texts : gmap addr (list Z); calls : nat }.

Definition set_nodes (h : heap) (m : gmap addr node) : heap := mkHeap m (texts h) (calls h).
Definition set_texts (h : heap) (m : gmap addr (list Z)) : heap := mkHeap (nodes h) m (calls h).
Definition counted (h : heap) : heap := mkHeap (nodes h) (texts h) (S (calls h)).
End Heap.

(** The allocator: an address for a block of the given size, or nothing. *)
Class HeapAlloc `{D : CDouble} := malloc : heap -> nat -> ptr.

(** An address it gives is not in use. *)
Class HeapAllocFresh `{D : CDouble} (HA : HeapAlloc) : Prop :=
  heap_malloc_fresh : forall h size a, malloc h size = Some a -> nodes h !! a = None /\ texts h !! a = None.

(** ** Computations on the heap *)
Definition M `{D : CDouble} (A : Type) : Type := heap -> outcome (A * heap).
Definition ret `{D : CDouble} {A : Type} (a : A) : M A := fun h => Ret (a, h).
Definition crash_with `{D : CDouble} {A : Type} (c : crash) : M A := fun _ => Crash c.
Definition bind `{D : CDouble} {A B : Type} (m : M A) (f : A -> M B) : M B :=
  fun h => let! (a, h) := m h in f a h.

Notation "'let*' x := m 'in' k" := (bind m (fun x => k))
  (at level 10, x pattern, m at level 100, k at level 200,
   format "'let*'  x  :=  m  'in' '//' k") : c_scope.
Notation "m ;; k" := (bind m (fun _ => k)) (at level 100, k at level 200, right associativity) : c_scope.

Section Access.
Context `{D : CDouble}.

(** The item a pointer points to. *)
Definition deref (p : ptr) : M node := fun h =>
  match p with
  | None => Crash NullDeref
  | Some a => match nodes h !! a with Some n => Ret (n, h) | None => Crash OutOfBounds end
  end.

(** An assignment to a member of it. *)
Definition modify (p : ptr) (f : node -> node) : M unit :=
  let* n := deref p in
  fun h => match p with
           | Some a => Ret (tt, set_nodes h (<[a := f n]> (nodes h)))
           | None => Crash NullDeref
           end.

(** The C string at a pointer. *)
Definition text_at (p : ptr) : M (list Z) := fun h =>
  match p with
  | None => Crash NullDeref
  | Some a => match texts h !! a with Some t => Ret (cstr t, h) | None => Crash OutOfBounds end
  end.

(** [deallocate]; freeing what is not allocated is a crash. *)
Definition free_text (p : ptr) : M unit := fun h =>
  match p with
  | None => Ret (tt, h)
  | Some a => match texts h !! a with
              | Some _ => Ret (tt, set_texts h (delete a (texts h)))
              | None => Crash OutOfBounds
              end
  end.
Definition free_node (p : ptr) : M unit := fun h =>
  match p with
  | None => Ret (tt, h)
  | Some a => match nodes h !! a with
              | Some _ => Ret (tt, set_nodes h (delete a (nodes h)))
              | None => Crash OutOfBounds
              end
  end.

Definition is_null (p : ptr) : bool := match p with None => true | Some _ => false end.

(** [a == b] *)
Definition same_ptr (a b : ptr) : bool := bool_decide (a = b).

(** [type & flag], as a condition. *)
Definition flag (t f : Z) : bool := negb (Z.land t f =? 0).

(** Fuel for a walk along distinct items. *)
Definition fuel_of (h : heap) : nat := S (size (nodes h)).
Definition fueled {A : Type} (m : nat -> M A) : M A := fun h => m (fuel_of h) h.
End Access.

(** ** The operations *)
Section Ops.
Context `{D : CDouble} `{HA : !HeapAlloc}.

Definition cJSON_New_Item : M ptr := fun h =>
  match malloc h sizeof_cJSON with
  | None => Ret (None, counted h)
  | Some a => Ret (Some a, counted (set_nodes h (<[a := node0]> (nodes h))))
  end.

Definition cJSON_strdup (string : ptr) : M ptr :=
  match string with
  | None => ret None
  | Some _ =>
      let* t := text_at string in
      fun h => match malloc h (S (length t)) with
               | None => Ret (None, counted h)
               | Some a => Ret (Some a, counted (set_texts h (<[a := t]> (texts h))))
               end
  end.

(** [cJSON_Delete]; one unit of fuel per item. *)
Fixpoint delete_items (fuel : nat) (item : ptr) : M unit :=
  match fuel with
  | O => crash_with Diverge
  | S f =>
      match item with
      | None => ret tt
      | Some _ =>
          let* n := deref item in
          let next := n_next n in
          (if negb (flag (n_type n) cJSON_IsReference) && negb (is_null (n_child n))
           then delete_items f (n_child n) else ret tt) ;;
          let* n := deref item in
          (if negb (flag (n_type n) cJSON_IsReference) && negb (is_null (n_valuestring n))
           then free_text (n_valuestring n) else ret tt) ;;
          let* n := deref item in
          (if negb (flag (n_type n) cJSON_StringIsConst) && negb (is_null (n_string n))
           then free_text (n_string n) else ret tt) ;;
          free_node item ;;
          delete_items f next
      end
  end.

Definition cJSON_Delete (item : ptr) : M unit := fueled (fun f => delete_items f item).

(** *** Looking up *)
Fixpoint count_items (fuel : nat) (child : ptr) (size : Z) : M Z :=
  match fuel with
  | O => crash_with Diverge
  | S f =>
      match child with
      | None => ret size
      | Some _ => let* n := deref child in count_items f (n_next n) (u32 (size + 1))
      end
  end.

Definition cJSON_GetArraySize (array : ptr) : M Z :=
  if is_null array then ret 0
  else
    let* a := deref array in
    let* size := fueled (fun f => count_items f (n_child a) 0) in
    ret (i32 size).

Fixpoint walk (current_child : ptr) (index : nat) : M ptr :=
  match current_child, index with
  | None, _ => ret None
  | Some _, O => ret current_child
  | Some _, S i => let* n := deref current_child in walk (n_next n) i
  end.

Definition get_array_item (array : ptr) (index : nat) : M ptr :=
  if is_null array then ret None
  else let* a := deref array in walk (n_child a) index.

Definition cJSON_GetArrayItem (array : ptr) (index : Z) : M ptr :=
  if index <? 0 then ret None else get_array_item array (Z.to_nat index).

Definition tolower (c : Z) : Z := if (65 <=? c) && (c <=? 90) then c + 32 else c.

(** The loop over two strings; a string ends with a zero. *)
Fixpoint compare_lower (s1 s2 : list Z) : Z :=
  match s1, s2 with
  | [], [] => 0
  | [], c :: _ => tolower 0 - tolower c
  | c :: _, [] => tolower c - tolower 0
  | c1 :: s1', c2 :: s2' =>
      if tolower c1 =? tolower c2 then compare_lower s1' s2' else tolower c1 - tolower c2
  end.

Definition case_insensitive_strcmp (string1 string2 : ptr) : M Z :=
  if is_null string1 || is_null string2 then ret 1
  else if same_ptr string1 string2 then ret 0
  else
    let* s1 := text_at string1 in
    let* s2 := text_at string2 in
    ret (compare_lower s1 s2).

(** [strcmp(a, b) == 0] *)
Definition strcmp_eq (a b : ptr) : M bool :=
  let* s := text_at a in
  let* t := text_at b in
  ret (bool_decide (s = t)).

(** The condition under which the loops of [get_object_item] go on. *)
Definition differs (case_sensitive : bool) (name string : ptr) : M bool :=
  if case_sensitive then
    if is_null string then ret false else let* e := strcmp_eq name string in ret (negb e)
  else let* r := case_insensitive_strcmp name string in ret (negb (r =? 0)).

Fixpoint find_named (fuel : nat) (current_element name : ptr) (case_sensitive : bool) : M ptr :=
  match fuel with
  | O => crash_with Diverge
  | S f =>
      match current_element with
      | None => ret None
      | Some _ =>
          let* n := deref current_element in
          let* d := differs case_sensitive name (n_string n) in
          if (d : bool) then find_named f (n_next n) name case_sensitive else ret current_element
      end
  end.

Definition get_object_item (object name : ptr) (case_sensitive : bool) : M ptr :=
  if is_null object || is_null name then ret None
  else
    let* o := deref object in
    let* e := fueled (fun f => find_named f (n_child o) name case_sensitive) in
    if is_null e then ret None
    else let* n := deref e in if is_null (n_string n) then ret None else ret e.

Definition cJSON_GetObjectItem (object string : ptr) : M ptr := get_object_item object string false.
Definition cJSON_GetObjectItemCaseSensitive (object string : ptr) : M ptr := get_object_item object string true.
Definition cJSON_HasObjectItem (object string : ptr) : M bool :=
  let* e := cJSON_GetObjectItem object string in ret (negb (is_null e)).

(** *** Adding *)
Definition suffix_object (prev item : ptr) : M unit :=
  modify prev (with_next item) ;; modify item (with_prev prev).

Definition create_reference (item : ptr) : M ptr :=
  if is_null item then ret None
  else
    let* reference := cJSON_New_Item in
    if is_null reference then ret None
    else
      let* n := deref item in
      modify reference (fun _ => n) ;;
      modify reference (with_string None) ;;
      modify reference (fun r => with_type (Z.lor (n_type r) cJSON_IsReference) r) ;;
      modify reference (with_prev None) ;;
      modify reference (with_next None) ;;
      ret reference.

(** [while (child->next) child = child->next;] *)
Fixpoint find_last (fuel : nat) (child : ptr) : M ptr :=
  match fuel with
  | O => crash_with Diverge
  | S f =>
      let* n := deref child in
      if is_null (n_next n) then ret child else find_last f (n_next n)
  end.

Definition add_item_to_array (array item : ptr) : M bool :=
  if is_null item || is_null array then ret false
  else
    let* a := deref array in
    let child := n_child a in
    (if is_null child then
       modify array (with_child item) ;;
       modify item (with_prev item) ;;
       modify item (with_next None)
     else
       let* c := deref child in
       if negb (is_null (n_prev c)) then
         suffix_object (n_prev c) item ;;
         let* a := deref array in
         modify (n_child a) (with_prev item)
       else
         let* child := fueled (fun f => find_last f child) in
         suffix_object child item ;;
         let* a := deref array in
         modify (n_child a) (with_prev item)) ;;
    ret true.

Definition cJSON_AddItemToArray (array item : ptr) : M unit := add_item_to_array array item ;; ret tt.

Definition add_item_to_object (object string item : ptr) (constant_key : bool) : M bool :=
  if is_null object || is_null string || is_null item then ret false
  else
    let* key :=
      (if constant_key then
         let* n := deref item in ret (Some (string, Z.lor (n_type n) cJSON_StringIsConst))
       else
         let* new_key := cJSON_strdup string in
         if is_null new_key then ret None
         else let* n := deref item in ret (Some (new_key, Z.land (n_type n) (Z.lnot cJSON_StringIsConst)))) in
    match key with
    | None => ret false
    | Some (new_key, new_type) =>
        let* n := deref item in
        (if negb (flag (n_type n) cJSON_StringIsConst) && negb (is_null (n_string n))
         then free_text (n_string n) else ret tt) ;;
        modify item (with_string new_key) ;;
        modify item (with_type new_type) ;;
        add_item_to_array object item
    end.

Definition cJSON_AddItemToObject (object string item : ptr) : M unit :=
  add_item_to_object object string item false ;; ret tt.
Definition cJSON_AddItemToObjectCS (object string item : ptr) : M unit :=
  add_item_to_object object string item true ;; ret tt.
Definition cJSON_AddItemReferenceToArray (array item : ptr) : M unit :=
  if is_null array then ret tt
  else let* r := create_reference item in add_item_to_array array r ;; ret tt.
Definition cJSON_AddItemReferenceToObject (object string item : ptr) : M unit :=
  if is_null object || is_null string then ret tt
  else let* r := create_reference item in add_item_to_object object string r false ;; ret tt.

(** *** Creating *)

(** A new item with some members set. *)
Definition create (f : node -> node) : M ptr :=
  let* item := cJSON_New_Item in
  if is_null item then ret item else modify item f ;; ret item.

Definition cJSON_CreateNull : M ptr := create (with_type cJSON_NULL).
Definition cJSON_CreateTrue : M ptr := create (with_type cJSON_True).
Definition cJSON_CreateFalse : M ptr := create (with_type cJSON_False).
Definition cJSON_CreateBool (boolean : bool) : M ptr :=
  create (with_type (if boolean then cJSON_True else cJSON_False)).
Definition cJSON_CreateNumber (num : double) : M ptr :=
  create (fun n => with_number (saturate num) num (with_type cJSON_Number n)).
Definition cJSON_CreateArray : M ptr := create (with_type cJSON_Array).
Definition cJSON_CreateObject : M ptr := create (with_type cJSON_Object).

(** [cJSON_CreateString] and [cJSON_CreateRaw]. *)
Definition create_text (type : Z) (string : ptr) : M ptr :=
  let* item := cJSON_New_Item in
  if is_null item then ret item
  else
    modify item (with_type type) ;;
    let* copy := cJSON_strdup string in
    modify item (with_valuestring copy) ;;
    if is_null copy then cJSON_Delete item ;; ret None else ret item.

Definition cJSON_CreateString (string : ptr) : M ptr := create_text cJSON_String string.
Definition cJSON_CreateRaw (raw : ptr) : M ptr := create_text cJSON_Raw raw.

Definition cJSON_CreateStringReference (string : ptr) : M ptr :=
  create (fun n => with_valuestring string (with_type (Z.lor cJSON_String cJSON_IsReference) n)).
Definition cJSON_CreateObjectReference (child : ptr) : M ptr :=
  create (fun n => with_child child (with_type (Z.lor cJSON_Object cJSON_IsReference) n)).
Definition cJSON_CreateArrayReference (child : ptr) : M ptr :=
  create (fun n => with_child child (with_type (Z.lor cJSON_Array cJSON_IsReference) n)).

Section Arrays.
Context {X : Type} (make : X -> M ptr).

(** The loop of the four array constructors: [todo] elements are left, [i] is the
    index and [p] the item made last. *)
Fixpoint fill_array (numbers : list X) (a : ptr) (todo i : nat) (p : ptr) : M ptr :=
  match todo with
  | O => ret a
  | S todo' =>
      match numbers !! i with
      | None => crash_with OutOfBounds
      | Some x =>
          let* n := make x in
          if is_null n then cJSON_Delete a ;; ret None
          else
            (if (i =? 0)%nat then modify a (with_child n) else suffix_object p n) ;;
            fill_array numbers a todo' (S i) n
      end
  end.

Definition create_array (numbers : option (list X)) (count : Z) : M ptr :=
  match numbers with
  | None => ret None
  | Some numbers =>
      if count <? 0 then ret None
      else
        let* a := cJSON_CreateArray in
        if is_null a then ret a else fill_array numbers a (Z.to_nat count) 0 None
  end.
End Arrays.

Definition cJSON_CreateIntArray : option (list Z) -> Z -> M ptr :=
  create_array (fun z => cJSON_CreateNumber (of_int z)).
Definition cJSON_CreateFloatArray {float : Type} (of_float : float -> double)
  : option (list float) -> Z -> M ptr := create_array (fun x => cJSON_CreateNumber (of_float x)).
Definition cJSON_CreateDoubleArray : option (list double) -> Z -> M ptr := create_array cJSON_CreateNumber.
Definition cJSON_CreateStringArray : option (list ptr) -> Z -> M ptr := create_array cJSON_CreateString.

(** The functions that create an item and add it to an object. *)
Definition add_created (make : M ptr) (object name : ptr) : M ptr :=
  let* item := make in
  let* ok := add_item_to_object object name item false in
  if (ok : bool) then ret item else cJSON_Delete item ;; ret None.

Definition cJSON_AddNullToObject : ptr -> ptr -> M ptr := add_created cJSON_CreateNull.
Definition cJSON_AddTrueToObject : ptr -> ptr -> M ptr := add_created cJSON_CreateTrue.
Definition cJSON_AddFalseToObject : ptr -> ptr -> M ptr := add_created cJSON_CreateFalse.
Definition cJSON_AddBoolToObject (object name : ptr) (boolean : bool) : M ptr :=
  add_created (cJSON_CreateBool boolean) object name.
Definition cJSON_AddNumberToObject (object name : ptr) (number : double) : M ptr :=
  add_created (cJSON_CreateNumber number) object name.
Definition cJSON_AddStringToObject (object name string : ptr) : M ptr :=
  add_created (cJSON_CreateString string) object name.
Definition cJSON_AddRawToObject (object name raw : ptr) : M ptr :=
  add_created (cJSON_CreateRaw raw) object name.
Definition cJSON_AddObjectToObject : ptr -> ptr -> M ptr := add_created cJSON_CreateObject.
Definition cJSON_AddArrayToObject : ptr -> ptr -> M ptr := add_created cJSON_CreateArray.

(** *** Taking out *)
Definition cJSON_DetachItemViaPointer (parent item : ptr) : M ptr :=
  if is_null parent || is_null item then ret None
  else
    let* p := deref parent in
    (if negb (same_ptr item (n_child p)) then
       let* n := deref item in modify (n_prev n) (with_next (n_next n))
     else ret tt) ;;
    let* n := deref item in
    (if negb (is_null (n_next n)) then modify (n_next n) (with_prev (n_prev n)) else ret tt) ;;
    let* p := deref parent in
    (if same_ptr item (n_child p) then
       let* n := deref item in modify parent (with_child (n_next n))
     else ret tt) ;;
    modify item (with_prev None) ;;
    modify item (with_next None) ;;
    ret item.

Definition cJSON_DetachItemFromArray (array : ptr) (which : Z) : M ptr :=
  if which <? 0 then ret None
  else let* item := get_array_item array (Z.to_nat which) in cJSON_DetachItemViaPointer array item.
Definition cJSON_DeleteItemFromArray (array : ptr) (which : Z) : M unit :=
  let* item := cJSON_DetachItemFromArray array which in cJSON_Delete item.
Definition cJSON_DetachItemFromObject (object string : ptr) : M ptr :=
  let* item := cJSON_GetObjectItem object string in cJSON_DetachItemViaPointer object item.
Definition cJSON_DetachItemFromObjectCaseSensitive (object string : ptr) : M ptr :=
  let* item := cJSON_GetObjectItemCaseSensitive object string in cJSON_DetachItemViaPointer object item.
Definition cJSON_DeleteItemFromObject (object string : ptr) : M unit :=
  let* item := cJSON_DetachItemFromObject object string in cJSON_Delete item.
Definition cJSON_DeleteItemFromObjectCaseSensitive (object string : ptr) : M unit :=
  let* item := cJSON_DetachItemFromObjectCaseSensitive object string in cJSON_Delete item.

(** *** Inserting and replacing *)
Definition cJSON_InsertItemInArray (array : ptr) (which : Z) (newitem : ptr) : M unit :=
  if which <? 0 then ret tt
  else
    let* after_inserted := get_array_item array (Z.to_nat which) in
    if is_null after_inserted then add_item_to_array array newitem ;; ret tt
    else
      modify newitem (with_next after_inserted) ;;
      let* n := deref after_inserted in
      modify newitem (with_prev (n_prev n)) ;;
      modify after_inserted (with_prev newitem) ;;
      let* a := deref array in
      if same_ptr after_inserted (n_child a) then modify array (with_child newitem)
      else
        let* n := deref newitem in
        modify (n_prev n) (with_next newitem).

Definition cJSON_ReplaceItemViaPointer (parent item replacement : ptr) : M bool :=
  if is_null parent || is_null replacement || is_null item then ret false
  else if same_ptr replacement item then ret true
  else
    let* n := deref item in
    modify replacement (with_next (n_next n)) ;;
    let* n := deref item in
    modify replacement (with_prev (n_prev n)) ;;
    let* r := deref replacement in
    (if negb (is_null (n_next r)) then modify (n_next r) (with_prev replacement) else ret tt) ;;
    let* p := deref parent in
    (if same_ptr (n_child p) item then modify parent (with_child replacement)
     else
       let* r := deref replacement in
       if negb (is_null (n_prev r)) then modify (n_prev r) (with_next replacement) else ret tt) ;;
    modify item (with_next None) ;;
    modify item (with_prev None) ;;
    cJSON_Delete item ;;
    ret true.

Definition cJSON_ReplaceItemInArray (array : ptr) (which : Z) (newitem : ptr) : M unit :=
  if which <? 0 then ret tt
  else
    let* item := get_array_item array (Z.to_nat which) in
    cJSON_ReplaceItemViaPointer array item newitem ;; ret tt.

Definition replace_item_in_object (object string replacement : ptr) (case_sensitive : bool) : M bool :=
  if is_null replacement || is_null string then ret false
  else
    let* n := deref replacement in
    (if negb (flag (n_type n) cJSON_StringIsConst) && negb (is_null (n_string n))
     then free_text (n_string n) else ret tt) ;;
    let* copy := cJSON_strdup string in
    modify replacement (with_string copy) ;;
    modify replacement (fun r => with_type (Z.land (n_type r) (Z.lnot cJSON_StringIsConst)) r) ;;
    let* item := get_object_item object string case_sensitive in
    cJSON_ReplaceItemViaPointer object item replacement ;;
    ret true.

Definition cJSON_ReplaceItemInObject (object string newitem : ptr) : M unit :=
  replace_item_in_object object string newitem false ;; ret tt.
Definition cJSON_ReplaceItemInObjectCaseSensitive (object string newitem : ptr) : M unit :=
  replace_item_in_object object string newitem true ;; ret tt.

(** *** Copying *)

(** The copy of a name: shared when it is constant. *)
Definition copy_name (n : node) : M ptr :=
  if flag (n_type n) cJSON_StringIsConst then ret (n_string n) else cJSON_strdup (n_string n).

(** [newitem] with the members of [item] copied; [false] for [goto fail]. *)
Definition copy_members (newitem item : ptr) : M bool :=
  let* n := deref item in
  modify newitem (fun m => with_number (n_valueint n) (n_valuedouble n)
                             (with_type (Z.land (n_type n) (Z.lnot cJSON_IsReference)) m)) ;;
  let* ok :=
    (if is_null (n_valuestring n) then ret true
     else
       let* copy := cJSON_strdup (n_valuestring n) in
       modify newitem (with_valuestring copy) ;; ret (negb (is_null copy))) in
  if negb ok then ret false
  else if is_null (n_string n) then ret true
  else
    let* copy := copy_name n in
    modify newitem (with_string copy) ;; ret (negb (is_null copy)).

(** The exit [fail]. *)
Definition duplicate_failed (newitem : ptr) : M ptr := cJSON_Delete newitem ;; ret None.

Fixpoint duplicate (fuel : nat) (item : ptr) (recurse : bool) {struct fuel} : M ptr :=
  match fuel with
  | O => crash_with Diverge
  | S f =>
      if is_null item then ret None
      else
        let* newitem := cJSON_New_Item in
        if is_null newitem then ret None
        else
          let* ok := copy_members newitem item in
          if negb ok then duplicate_failed newitem
          else if negb recurse then ret newitem
          else let* n := deref item in duplicate_children f newitem (n_child n) None
  end
with duplicate_children (fuel : nat) (newitem child next : ptr) {struct fuel} : M ptr :=
  match fuel with
  | O => crash_with Diverge
  | S f =>
      if is_null child then ret newitem
      else
        let* newchild := duplicate f child true in
        if is_null newchild then duplicate_failed newitem
        else
          (if negb (is_null next) then
             modify next (with_next newchild) ;; modify newchild (with_prev next)
           else modify newitem (with_child newchild)) ;;
          let* c := deref child in
          duplicate_children f newitem (n_next c) newchild
  end.

Definition cJSON_Duplicate (item : ptr) (recurse : bool) : M ptr :=
  fueled (fun f => duplicate (2 * f) item recurse).

(** *** Type tests *)
Definition type_is (item : ptr) (t : Z) : M bool :=
  if is_null item then ret false
  else let* n := deref item in ret (Z.land (n_type n) 255 =? t).

Definition cJSON_IsInvalid (item : ptr) : M bool := type_is item cJSON_Invalid.
Definition cJSON_IsFalse (item : ptr) : M bool := type_is item cJSON_False.
Definition cJSON_IsTrue (item : ptr) : M bool := type_is item cJSON_True.
Definition cJSON_IsBool (item : ptr) : M bool :=
  if is_null item then ret false
  else let* n := deref item in ret (flag (n_type n) (Z.lor cJSON_True cJSON_False)).
Definition cJSON_IsNull (item : ptr) : M bool := type_is item cJSON_NULL.
Definition cJSON_IsNumber (item : ptr) : M bool := type_is item cJSON_Number.
Definition cJSON_IsString (item : ptr) : M bool := type_is item cJSON_String.
Definition cJSON_IsArray (item : ptr) : M bool := type_is item cJSON_Array.
Definition cJSON_IsObject (item : ptr) : M bool := type_is item cJSON_Object.
Definition cJSON_IsRaw (item : ptr) : M bool := type_is item cJSON_Raw.

Definition cJSON_GetStringValue (item : ptr) : M ptr :=
  let* s := cJSON_IsString item in
  if negb s then ret None else let* n := deref item in ret (n_valuestring n).

(** *** Comparing *)
Definition known_type (t : Z) : bool :=
  (t =? cJSON_False) || (t =? cJSON_True) || (t =? cJSON_NULL) || (t =? cJSON_Number) ||
  (t =? cJSON_String) || (t =? cJSON_Raw) || (t =? cJSON_Array) || (t =? cJSON_Object).

Fixpoint compare_items (fuel : nat) (a b : ptr) (case_sensitive : bool) {struct fuel} : M bool :=
  match fuel with
  | O => crash_with Diverge
  | S f =>
      if is_null a || is_null b then ret false
      else
        let* na := deref a in
        let* nb := deref b in
        let t := Z.land (n_type na) 255 in
        if negb (t =? Z.land (n_type nb) 255) then ret false
        else
          let* invalid := cJSON_IsInvalid a in
          if (invalid : bool) then ret false
          else if negb (known_type t) then ret false
          else if same_ptr a b then ret true
          else if (t =? cJSON_False) || (t =? cJSON_True) || (t =? cJSON_NULL) then ret true
          else if t =? cJSON_Number then ret (compare_double (n_valuedouble na) (n_valuedouble nb))
          else if (t =? cJSON_String) || (t =? cJSON_Raw) then
            if is_null (n_valuestring na) || is_null (n_valuestring nb) then ret false
            else strcmp_eq (n_valuestring na) (n_valuestring nb)
          else if t =? cJSON_Array then compare_elements f (n_child na) (n_child nb) case_sensitive
          else
            let* r := compare_members f (n_child na) b case_sensitive in
            if negb r then ret false else compare_members f (n_child nb) a case_sensitive
  end
(** The loop over two arrays. *)
with compare_elements (fuel : nat) (a_element b_element : ptr) (case_sensitive : bool) {struct fuel} : M bool :=
  match fuel with
  | O => crash_with Diverge
  | S f =>
      if negb (is_null a_element) && negb (is_null b_element) then
        let* r := compare_items f a_element b_element case_sensitive in
        if negb r then ret false
        else
          let* na := deref a_element in
          let* nb := deref b_element in
          compare_elements f (n_next na) (n_next nb) case_sensitive
      else ret (same_ptr a_element b_element)
  end
(** One of the two loops over the members of an object: every element from
    [a_element] on has an equal one in [b]. *)
with compare_members (fuel : nat) (a_element b : ptr) (case_sensitive : bool) {struct fuel} : M bool :=
  match fuel with
  | O => crash_with Diverge
  | S f =>
      if is_null a_element then ret true
      else
        let* na := deref a_element in
        let* b_element := get_object_item b (n_string na) case_sensitive in
        if is_null b_element then ret false
        else
          let* r := compare_items f a_element b_element case_sensitive in
          if negb r then ret false
          else let* na := deref a_element in compare_members f (n_next na) b case_sensitive
  end.

Definition cJSON_Compare (a b : ptr) (case_sensitive : bool) : M bool :=
  fueled (fun f => compare_items (2 * f) a b case_sensitive).
End Ops.

(** ** Hooks *)

(** [LibC] is [malloc], [free] or [realloc]; [Custom] a function of the caller. *)
Inductive hook := LibC | Custom (id : nat).

#[export] Instance hook_eq_dec : EqDecision hook.
Proof. solve_decision. Defined.

Record internal_hooks := mkHooks { h_allocate : hook; h_deallocate : hook; h_reallocate : option hook }.

Definition global_hooks0 : internal_hooks := mkHooks LibC LibC (Some LibC).

(** [hooks] is NULL or the two members of a [cJSON_Hooks], each possibly NULL. *)
Definition cJSON_InitHooks (hooks : option (option hook * option hook)) : internal_hooks :=
  match hooks with
  | None => mkHooks LibC LibC (Some LibC)
  | Some (malloc_fn, free_fn) =>
      let a := default LibC malloc_fn in
      let d := default LibC free_fn in
      mkHooks a d (if bool_decide (a = LibC) && bool_decide (d = LibC) then Some LibC else None)
  end.
