(* ===== verification/JsonTree.v ===== *)
(** * JSON items in memory: lists of children

    The children of an array or an object are a chain of items; the [prev] of
    the first one is NULL or the last one.  On such a chain the operations of
    JsonHeap are those of a list: looking up, appending, inserting, taking out
    and replacing. *)

From stdpp Require Import gmap.
From S2P Require Import Prelude JsonText JsonPrint JsonHeap.

Local Open Scope Z_scope.

Section Links.
Context `{D : CDouble}.
Implicit Types (m : gmap addr node) (h : heap) (a b p : addr) (l : list addr).

(** ** The links of an item *)
Definition nx m a : option ptr := n_next <$> m !! a.
Definition pv m a : option ptr := n_prev <$> m !! a.
Definition ch m a : option ptr := n_child <$> m !! a.

(** What an item holds besides its links. *)
Definition payload (n : node) : Z * ptr * Z * double * ptr :=
  (n_type n, n_valuestring n, n_valueint n, n_valuedouble n, n_string n).

(** [l] is chained in both directions. *)
Record linked m l : Prop := {
  linked_nodup : NoDup l;
  linked_next : forall i a, l !! i = Some a -> nx m a = Some (l !! S i);
  linked_prev : forall i a, l !! S i = Some a -> pv m a = Some (l !! i);
  linked_head : forall a, l !! O = Some a -> pv m a = Some None \/ pv m a = Some (last l)
}.

(** [p] is an array or object whose children are [l]. *)
Record parent_of m p l : Prop := {
  parent_child : ch m p = Some (head l);
  parent_fresh : p ∉ l;
  parent_linked : linked m l
}.

(** ** Assignments *)
Lemma nx_is m a n : m !! a = Some n -> nx m a = Some (n_next n).
Proof. intros H. unfold nx. rewrite H. reflexivity. Qed.

Lemma lookup_nx m a q : nx m a = Some q -> exists n, m !! a = Some n /\ n_next n = q.
Proof. unfold nx. destruct (m !! a) as [n|]; [|discriminate]. intros [= <-]. exists n. auto. Qed.

Lemma lookup_pv m a q : pv m a = Some q -> exists n, m !! a = Some n /\ n_prev n = q.
Proof. unfold pv. destruct (m !! a) as [n|]; [|discriminate]. intros [= <-]. exists n. auto. Qed.

Lemma lookup_ch m a q : ch m a = Some q -> exists n, m !! a = Some n /\ n_child n = q.
Proof. unfold ch. destruct (m !! a) as [n|]; [|discriminate]. intros [= <-]. exists n. auto. Qed.

Lemma lookup_alter_dec (f : node -> node) m a b :
  alter f a m !! b = if decide (a = b) then f <$> m !! b else m !! b.
Proof.
  destruct (decide (a = b)) as [->|Hne]; [apply lookup_alter_eq | apply lookup_alter_ne, Hne].
Qed.

(** How an assignment changes the links. *)
Lemma nx_alter (f : node -> node) m a b :
  nx (alter f a m) b = if decide (a = b) then n_next ∘ f <$> m !! b else nx m b.
Proof. unfold nx. rewrite lookup_alter_dec. destruct (decide (a = b)); [|reflexivity]. destruct (m !! b); reflexivity. Qed.

Lemma pv_alter (f : node -> node) m a b :
  pv (alter f a m) b = if decide (a = b) then n_prev ∘ f <$> m !! b else pv m b.
Proof. unfold pv. rewrite lookup_alter_dec. destruct (decide (a = b)); [|reflexivity]. destruct (m !! b); reflexivity. Qed.

Lemma ch_alter (f : node -> node) m a b :
  ch (alter f a m) b = if decide (a = b) then n_child ∘ f <$> m !! b else ch m b.
Proof. unfold ch. rewrite lookup_alter_dec. destruct (decide (a = b)); [|reflexivity]. destruct (m !! b); reflexivity. Qed.

Lemma nx_with_prev q m a b : nx (alter (with_prev q) a m) b = nx m b.
Proof. rewrite nx_alter. destruct (decide (a = b)); reflexivity. Qed.
Lemma nx_with_child q m a b : nx (alter (with_child q) a m) b = nx m b.
Proof. rewrite nx_alter. destruct (decide (a = b)); reflexivity. Qed.
Lemma pv_with_next q m a b : pv (alter (with_next q) a m) b = pv m b.
Proof. rewrite pv_alter. destruct (decide (a = b)); reflexivity. Qed.
Lemma pv_with_child q m a b : pv (alter (with_child q) a m) b = pv m b.
Proof. rewrite pv_alter. destruct (decide (a = b)); reflexivity. Qed.
Lemma ch_with_next q m a b : ch (alter (with_next q) a m) b = ch m b.
Proof. rewrite ch_alter. destruct (decide (a = b)); reflexivity. Qed.
Lemma ch_with_prev q m a b : ch (alter (with_prev q) a m) b = ch m b.
Proof. rewrite ch_alter. destruct (decide (a = b)); reflexivity. Qed.

Lemma nx_with_next q m a b :
  nx (alter (with_next q) a m) b = if decide (a = b) then (fun _ => q) <$> m !! b else nx m b.
Proof. apply nx_alter. Qed.
Lemma pv_with_prev q m a b :
  pv (alter (with_prev q) a m) b = if decide (a = b) then (fun _ => q) <$> m !! b else pv m b.
Proof. apply pv_alter. Qed.
Lemma ch_with_child q m a b :
  ch (alter (with_child q) a m) b = if decide (a = b) then (fun _ => q) <$> m !! b else ch m b.
Proof. apply ch_alter. Qed.

(** ** Running the primitives *)
Lemma bind_Ret {A B : Type} (x : M A) (k : A -> M B) h v h' :
  x h = Ret (v, h') -> bind x k h = k v h'.
Proof. intros E. unfold bind. rewrite E. reflexivity. Qed.

Lemma deref_run h a n : nodes h !! a = Some n -> deref (Some a) h = Ret (n, h).
Proof. intros E. cbn. rewrite E. reflexivity. Qed.

Lemma modify_run h a (f : node -> node) : is_Some (nodes h !! a) ->
  modify (Some a) f h = Ret (tt, set_nodes h (alter f a (nodes h))).
Proof.
  intros [n E]. unfold modify, bind. rewrite (deref_run h a n E). cbn.
  f_equal. f_equal. f_equal. apply map_eq. intros b. rewrite lookup_alter_dec.
  destruct (decide (a = b)) as [->|Hne].
  - rewrite lookup_insert_eq, E. reflexivity.
  - rewrite lookup_insert_ne by exact Hne. reflexivity.
Qed.

(** Assignments keep every item allocated. *)
Lemma alter_Some (f : node -> node) m a b : is_Some (m !! b) -> is_Some (alter f a m !! b).
Proof. intros [n E]. rewrite lookup_alter_dec, E. destruct (decide (a = b)); eexists; reflexivity. Qed.

Lemma set_nodes_twice h m m' : set_nodes (set_nodes h m) m' = set_nodes h m'.
Proof. reflexivity. Qed.

Lemma set_nodes_id h : set_nodes h (nodes h) = h.
Proof. destruct h. reflexivity. Qed.

Lemma linked_Some m l i a : linked m l -> l !! i = Some a -> is_Some (m !! a).
Proof. intros H E. destruct (lookup_nx _ _ _ (linked_next _ _ H i a E)) as (n & En & _). eauto. Qed.

(** Only links were changed, and only those of [p] and of the items in [w]. *)
Record relinked (w : list addr) p (m m' : gmap addr node) : Prop := {
  relinked_payload : forall a, payload <$> m' !! a = payload <$> m !! a;
  relinked_child : forall a, a <> p -> ch m' a = ch m a;
  relinked_others : forall a, a <> p -> a ∉ w -> m' !! a = m !! a
}.

Lemma relinked_refl w p m : relinked w p m m.
Proof. constructor; reflexivity. Qed.

Lemma relinked_trans w p m1 m2 m3 : relinked w p m1 m2 -> relinked w p m2 m3 -> relinked w p m1 m3.
Proof.
  intros [H1 H2 H3] [G1 G2 G3]. constructor; intros a.
  - rewrite G1. apply H1.
  - intros Ha. rewrite G2 by exact Ha. apply H2, Ha.
  - intros Ha Hw. rewrite G3 by assumption. apply H3; assumption.
Qed.

Lemma payload_alter (f : node -> node) m a b : (forall n, payload (f n) = payload n) ->
  payload <$> alter f a m !! b = payload <$> m !! b.
Proof.
  intros Hf. rewrite lookup_alter_dec. destruct (decide (a = b)); [|reflexivity].
  destruct (m !! b) as [n|]; cbn; [rewrite Hf|]; reflexivity.
Qed.

Lemma relinked_alter w p m a (f : node -> node) : (forall n, payload (f n) = payload n) ->
  (a = p \/ a ∈ w /\ forall n, n_child (f n) = n_child n) -> relinked w p m (alter f a m).
Proof.
  intros Hf Ha. constructor; intros b.
  - apply payload_alter, Hf.
  - intros Hb. rewrite ch_alter. destruct (decide (a = b)) as [->|]; [|reflexivity].
    destruct Ha as [Ha|[_ Ha]]; [contradiction|]. unfold ch. destruct (m !! b); cbn; [rewrite Ha|]; reflexivity.
  - intros Hb Hw. apply lookup_alter_ne. intros ->. destruct Ha as [Ha|[Ha _]]; contradiction.
Qed.

Lemma relinked_step w p m m1 a (f : node -> node) : relinked w p m m1 ->
  (forall n, payload (f n) = payload n) -> (a = p \/ a ∈ w /\ forall n, n_child (f n) = n_child n) ->
  relinked w p m (alter f a m1).
Proof. intros H Hf Ha. eapply relinked_trans; [exact H | apply relinked_alter; assumption]. Qed.
End Links.

(** ** Reading *)
Section Reading.
Context `{D : CDouble}.
Implicit Types (m : gmap addr node) (h : heap) (a b p : addr) (l : list addr).

Lemma nodup_size m l : NoDup l -> (forall a, a ∈ l -> is_Some (m !! a)) -> (length l <= size m)%nat.
Proof.
  intros Hn Hl. rewrite <- size_dom, <- (size_list_to_set (C := gset addr)) by exact Hn.
  apply subseteq_size. intros a Ha. apply elem_of_list_to_set in Ha. apply elem_of_dom, Hl, Ha.
Qed.

Lemma linked_size m l : linked m l -> (length l <= size m)%nat.
Proof.
  intros H. apply nodup_size; [apply H|]. intros a Ha. apply list_elem_of_lookup in Ha as [i Hi].
  eapply linked_Some; eauto.
Qed.

Lemma linked_deref h l i a : linked (nodes h) l -> l !! i = Some a ->
  exists n, deref (Some a) h = Ret (n, h) /\ n_next n = l !! S i.
Proof.
  intros H E. destruct (lookup_nx _ _ _ (linked_next _ _ H i a E)) as (n & En & Ex).
  exists n. split; [apply deref_run, En | exact Ex].
Qed.

Lemma walk_run h l i : linked (nodes h) l -> forall k, walk (l !! k) i h = Ret (l !! (k + i)%nat, h).
Proof.
  intros H. induction i as [|i IH]; intros k.
  - rewrite Nat.add_0_r. destruct (l !! k); reflexivity.
  - destruct (l !! k) as [a|] eqn:E.
    + cbn [walk]. destruct (linked_deref h l k a H E) as (n & En & Ex).
      rewrite (bind_Ret _ _ _ _ _ En), Ex, IH. replace (k + S i)%nat with (S k + i)%nat by lia. reflexivity.
    + cbn [walk]. rewrite lookup_ge_None_2; [reflexivity|]. apply lookup_ge_None_1 in E. lia.
Qed.

Lemma parent_deref h p l : parent_of (nodes h) p l ->
  exists n, deref (Some p) h = Ret (n, h) /\ n_child n = l !! O.
Proof.
  intros H. destruct (lookup_ch _ _ _ (parent_child _ _ _ H)) as (n & En & Ec).
  exists n. split; [apply deref_run, En|]. rewrite Ec. destruct l; reflexivity.
Qed.

Lemma get_array_item_run h p l i : parent_of (nodes h) p l ->
  get_array_item (Some p) i h = Ret (l !! i, h).
Proof.
  intros H. unfold get_array_item. cbn [is_null].
  destruct (parent_deref h p l H) as (n & En & Ec). rewrite (bind_Ret _ _ _ _ _ En), Ec.
  apply (walk_run h l i (parent_linked _ _ _ H) 0).
Qed.

Lemma count_run h l : linked (nodes h) l -> lenZ l < 4294967296 -> forall f k,
  (k <= length l)%nat -> (length l - k < f)%nat ->
  count_items f (l !! k) (Z.of_nat k) h = Ret (lenZ l, h).
Proof.
  intros H Hl. induction f as [|f IH]; intros k Hk Hf; [lia|]. cbn [count_items].
  destruct (l !! k) as [a|] eqn:E.
  - destruct (linked_deref h l k a H E) as (n & En & Ex). rewrite (bind_Ret _ _ _ _ _ En), Ex.
    pose proof (lookup_lt_Some _ _ _ E). rewrite u32_id by rlia.
    replace (Z.of_nat k + 1) with (Z.of_nat (S k)) by lia. apply IH; lia.
  - apply lookup_ge_None_1 in E. unfold ret. do 3 f_equal. lia.
Qed.

Lemma get_array_size_run h p l : parent_of (nodes h) p l -> lenZ l <= INT_MAX ->
  cJSON_GetArraySize (Some p) h = Ret (lenZ l, h).
Proof.
  intros H Hl. unfold cJSON_GetArraySize. cbn [is_null].
  destruct (parent_deref h p l H) as (n & En & Ec). rewrite (bind_Ret _ _ _ _ _ En), Ec.
  pose proof (linked_size _ _ (parent_linked _ _ _ H)).
  assert (E : count_items (fuel_of h) (l !! 0%nat) 0 h = Ret (lenZ l, h)).
  { apply (count_run h l (parent_linked _ _ _ H) ltac:(rlia) (fuel_of h) 0); unfold fuel_of; lia. }
  erewrite bind_Ret by exact E. unfold ret. rewrite i32_id by rlia. reflexivity.
Qed.

Lemma find_last_run h l : linked (nodes h) l -> forall f k a,
  l !! k = Some a -> (length l - k < f)%nat -> find_last f (Some a) h = Ret (last l, h).
Proof.
  intros H. induction f as [|f IH]; intros k a E Hf; [lia|]. cbn [find_last].
  destruct (linked_deref h l k a H E) as (n & En & Ex). rewrite (bind_Ret _ _ _ _ _ En), Ex.
  pose proof (lookup_lt_Some _ _ _ E). destruct (l !! S k) as [b|] eqn:Eb; cbn [is_null].
  - apply (IH (S k)); [exact Eb | lia].
  - apply lookup_ge_None_1 in Eb. rewrite last_lookup. replace (pred (length l)) with k by lia. rewrite E. reflexivity.
Qed.

(** *** By name *)

(** The name of an item, if it has one. *)
Definition name_at h a : option (list Z) :=
  match nodes h !! a with
  | Some n => match n_string n with
              | Some q => match texts h !! q with Some t => Some (cstr t) | None => None end
              | None => None
              end
  | None => None
  end.

(** The search stops here; without regard to case it passes over items that have
    no name, with regard to case it stops at them. *)
Definition stops_at (case_sensitive : bool) (s : list Z) (name : option (list Z)) : bool :=
  match name with
  | None => case_sensitive
  | Some t => if case_sensitive then bool_decide (s = t) else compare_lower s t =? 0
  end.

Fixpoint first_stop (case_sensitive : bool) (s : list Z) h l : ptr :=
  match l with
  | [] => None
  | a :: l' => if stops_at case_sensitive s (name_at h a) then Some a else first_stop case_sensitive s h l'
  end.

(** The member that is found. *)
Definition member_named (case_sensitive : bool) (s : list Z) h l : ptr :=
  match first_stop case_sensitive s h l with
  | Some a => match name_at h a with Some _ => Some a | None => None end
  | None => None
  end.

(** The names of the items are allocated. *)
Definition names_ok h l : Prop := forall a n q,
  a ∈ l -> nodes h !! a = Some n -> n_string n = Some q -> is_Some (texts h !! q).

Lemma compare_lower_refl s : compare_lower s s = 0.
Proof. induction s as [|c s IH]; cbn [compare_lower]; [reflexivity|]. rewrite Z.eqb_refl. exact IH. Qed.

Lemma text_run h q t : texts h !! q = Some t -> text_at (Some q) h = Ret (cstr t, h).
Proof. intros E. cbn. rewrite E. reflexivity. Qed.

Lemma differs_run h cs q t a n : texts h !! q = Some t -> nodes h !! a = Some n ->
  (forall q', n_string n = Some q' -> is_Some (texts h !! q')) ->
  differs cs (Some q) (n_string n) h = Ret (negb (stops_at cs (cstr t) (name_at h a)), h).
Proof.
  intros Et En Hq. unfold name_at. rewrite En. unfold differs.
  destruct (n_string n) as [q'|] eqn:Es; [|destruct cs; reflexivity].
  destruct (Hq q' eq_refl) as [t' Et']. rewrite Et'. cbn [stops_at is_null]. destruct cs.
  - unfold strcmp_eq, bind. rewrite (text_run h q t Et). cbn [obind]. rewrite (text_run h q' t' Et'). reflexivity.
  - unfold case_insensitive_strcmp. cbn [is_null orb]. unfold same_ptr.
    case_bool_decide as Eq.
    + injection Eq as <-. rewrite Et in Et'. injection Et' as <-.
      rewrite compare_lower_refl. reflexivity.
    + unfold bind. rewrite (text_run h q t Et). cbn [obind]. rewrite (text_run h q' t' Et'). reflexivity.
Qed.

Lemma find_named_run h l cs q t : linked (nodes h) l -> names_ok h l -> texts h !! q = Some t ->
  forall f k, (k <= length l)%nat -> (length l - k < f)%nat ->
  find_named f (l !! k) (Some q) cs h = Ret (first_stop cs (cstr t) h (drop k l), h).
Proof.
  intros H Hn Et. induction f as [|f IH]; intros k Hk Hf; [lia|]. cbn [find_named].
  destruct (l !! k) as [a|] eqn:E.
  - destruct (lookup_nx _ _ _ (linked_next _ _ H k a E)) as (n & En & Ex).
    rewrite (bind_Ret _ _ _ _ _ (deref_run h a n En)).
    erewrite bind_Ret by (apply (differs_run h cs q t a n Et En);
      intros q'; apply (Hn a n q' (list_elem_of_lookup_2 _ _ _ E) En)).
    rewrite (drop_S _ _ _ E). cbn [first_stop].
    destruct (stops_at cs (cstr t) (name_at h a)); cbn [negb]; [reflexivity|].
    rewrite Ex. pose proof (lookup_lt_Some _ _ _ E). apply IH; lia.
  - apply lookup_ge_None_1 in E. rewrite drop_ge by lia. reflexivity.
Qed.

Lemma get_object_item_run h p l cs q t : parent_of (nodes h) p l -> names_ok h l -> texts h !! q = Some t ->
  get_object_item (Some p) (Some q) cs h = Ret (member_named cs (cstr t) h l, h).
Proof.
  intros H Hn Et. unfold get_object_item. cbn [is_null orb].
  destruct (parent_deref h p l H) as (np & Enp & Ec). rewrite (bind_Ret _ _ _ _ _ Enp), Ec.
  pose proof (linked_size _ _ (parent_linked _ _ _ H)).
  assert (E : find_named (fuel_of h) (l !! 0%nat) (Some q) cs h = Ret (first_stop cs (cstr t) h l, h)).
  { apply (find_named_run h l cs q t (parent_linked _ _ _ H) Hn Et _ 0); unfold fuel_of; lia. }
  erewrite bind_Ret by exact E. unfold member_named.
  destruct (first_stop cs (cstr t) h l) as [a|] eqn:Ef; [|reflexivity]. cbn [is_null].
  assert (Ha : a ∈ l).
  { clear -Ef. induction l as [|b l IH]; [discriminate|]. cbn [first_stop] in Ef.
    destruct (stops_at _ _ _); [injection Ef as ->; left | right; apply IH, Ef]. }
  apply list_elem_of_lookup in Ha as [i Ei].
  destruct (lookup_nx _ _ _ (linked_next _ _ (parent_linked _ _ _ H) i a Ei)) as (n & En & _).
  rewrite (bind_Ret _ _ _ _ _ (deref_run h a n En)). unfold name_at. rewrite En.
  destruct (n_string n) as [q'|] eqn:Es; cbn [is_null]; [|reflexivity].
  destruct (Hn a n q' (list_elem_of_lookup_2 _ _ _ Ei) En Es) as [t' ->]. reflexivity.
Qed.
End Reading.

(** ** Writing *)
Ltac links := repeat first
  [ rewrite nx_with_prev | rewrite nx_with_child | rewrite nx_with_next
  | rewrite pv_with_next | rewrite pv_with_child | rewrite pv_with_prev
  | rewrite ch_with_next | rewrite ch_with_prev | rewrite ch_with_child ].

(** Decide the addresses that the links depend on. *)
Ltac same_addr := repeat match goal with
  | |- context [decide (?a = ?b)] => destruct (decide (a = b)) as [?Heq|?Hne]; try subst; try congruence
  end.

Section Segments.
Context `{D : CDouble}.
Implicit Types (m : gmap addr node) (h : heap) (a b x p : addr) (l : list addr) (pp nn : ptr).

Definition head_or l nn : ptr := match l with [] => nn | b :: _ => Some b end.
Definition last_or l pp : ptr := match last l with Some z => Some z | None => pp end.

(** A piece of a chain, between the item (or NULL) before it and the one behind. *)
Fixpoint dll m pp l nn : Prop :=
  match l with
  | [] => True
  | a :: l' => pv m a = Some pp /\ nx m a = Some (head_or l' nn) /\ dll m (Some a) l' nn
  end.

Lemma head_or_app l1 l2 nn : head_or (l1 ++ l2) nn = head_or l1 (head_or l2 nn).
Proof. destruct l1; reflexivity. Qed.

Lemma last_or_cons a l pp : last_or (a :: l) pp = last_or l (Some a).
Proof. unfold last_or. destruct l as [|b l]; [reflexivity|]. cbn [last]. destruct (last (b :: l)) eqn:E; [reflexivity|].
  apply last_None in E. discriminate. Qed.

Lemma dll_app m l1 l2 : forall pp nn,
  dll m pp (l1 ++ l2) nn <-> dll m pp l1 (head_or l2 nn) /\ dll m (last_or l1 pp) l2 nn.
Proof.
  induction l1 as [|a l1 IH]; intros pp nn; cbn [app dll]; [tauto|].
  rewrite head_or_app, last_or_cons, IH. tauto.
Qed.

(** A piece whose inner links are kept and whose ends are set. *)
Lemma dll_ends m m' nn nn' l : forall pp pp', NoDup l -> dll m pp l nn ->
  (forall a, a ∈ l -> nx m' a = if decide (last l = Some a) then Some nn' else nx m a) ->
  (forall a, a ∈ l -> pv m' a = if decide (head l = Some a) then Some pp' else pv m a) ->
  dll m' pp' l nn'.
Proof.
  induction l as [|a l IH]; intros pp pp' Hnd Hd Hn Hp; cbn [dll] in *; [exact I|].
  destruct Hd as (Hpa & Hna & Hd). apply NoDup_cons in Hnd as [Ha Hnd].
  split; [rewrite Hp by left; cbn; destruct (decide _); [reflexivity | contradiction]|].
  assert (Hl : forall b, b ∈ l -> last (a :: l) = last l).
  { intros b Hb. destruct l; [apply not_elem_of_nil in Hb; contradiction | reflexivity]. }
  split.
  - rewrite Hn by left. destruct l as [|b l]; cbn [head_or].
    + destruct (decide _) as [|Hne]; [reflexivity | contradiction Hne; reflexivity].
    + destruct (decide _) as [He|_]; [|exact Hna]. rewrite (Hl b) in He by left.
      contradiction Ha. apply last_Some_elem_of, He.
  - apply (IH (Some a)); [exact Hnd | exact Hd | |].
    + intros b Hb. rewrite Hn by (right; exact Hb). rewrite (Hl b Hb). reflexivity.
    + intros b Hb. rewrite Hp by (right; exact Hb). cbn [head].
      destruct (decide (Some a = Some b)) as [He|_]; [injection He as <-; contradiction|].
      destruct l as [|c l]; [apply not_elem_of_nil in Hb; contradiction|]. cbn [head dll] in *.
      destruct (decide (Some c = Some b)) as [He|_]; [injection He as <-; apply Hd | reflexivity].
Qed.

Lemma dll_frame m m' pp nn l : dll m pp l nn ->
  (forall a, a ∈ l -> nx m' a = nx m a /\ pv m' a = pv m a) -> dll m' pp l nn.
Proof.
  revert pp. induction l as [|a l IH]; intros pp; cbn [dll]; [auto|]. intros (H1 & H2 & H3) H.
  destruct (H a) as [-> ->]; [left|]. repeat split; auto. apply IH; [exact H3|]. intros b Hb. apply H. right. exact Hb.
Qed.

(** The chain of the children as one piece. *)
Lemma dll_index m l nn : forall pp,
  dll m pp l nn <-> forall i a, l !! i = Some a ->
    nx m a = Some (match l !! S i with Some b => Some b | None => nn end) /\
    pv m a = Some (match i with O => pp | S j => l !! j end).
Proof.
  induction l as [|a l IH]; intros pp; cbn [dll].
  { split; [intros _ i a [=] | auto]. }
  rewrite IH. split.
  - intros (H1 & H2 & H3) [|i] b Hb.
    + injection Hb as <-. split; [rewrite H2; destruct l; reflexivity | exact H1].
    + destruct (H3 i b Hb) as [E1 E2]. split; [exact E1|]. rewrite E2. destruct i; reflexivity.
  - intros H. destruct (H O a eq_refl) as [E1 E2]. split; [exact E2|]. split; [rewrite E1; destruct l; reflexivity|].
    intros i b Hb. destruct (H (S i) b Hb) as [E3 E4]. split; [exact E3|]. rewrite E4. destruct i; reflexivity.
Qed.

Lemma linked_dll m l : linked m l <->
  NoDup l /\ exists pp, (pp = None \/ pp = last l) /\ dll m pp l None.
Proof.
  split.
  - intros [H1 H2 H3 H4]. split; [exact H1|].
    assert (Hi : forall pp, (forall a, l !! O = Some a -> pv m a = Some pp) -> dll m pp l None).
    { intros pp Hpp. apply dll_index. intros i a Ha. split.
      - rewrite (H2 i a Ha). destruct (l !! S i); reflexivity.
      - destruct i as [|i]; [apply Hpp, Ha | apply H3, Ha]. }
    destruct l as [|a l]; [exists None; cbn; auto|].
    destruct (H4 a eq_refl) as [E|E]; eexists; (split; [|apply Hi; intros b [= <-]; exact E]); auto.
  - intros [H1 (pp & Hpp & Hd)]. rewrite dll_index in Hd. constructor.
    + exact H1.
    + intros i a Ha. destruct (Hd i a Ha) as [-> _]. destruct (l !! S i); reflexivity.
    + intros i a Ha. apply (Hd (S i) a Ha).
    + intros a Ha. destruct (Hd O a Ha) as [_ ->]. destruct Hpp as [->| ->]; auto.
Qed.

Lemma parent_dll m p l : parent_of m p l <->
  ch m p = Some (head l) /\ NoDup (p :: l) /\ exists pp, (pp = None \/ pp = last l) /\ dll m pp l None.
Proof.
  rewrite NoDup_cons. split.
  - intros [H1 H2 H3]. apply linked_dll in H3 as [H3 H4]. auto.
  - intros (H1 & [H2 H3] & H4). constructor; [exact H1 | exact H2 | apply linked_dll; auto].
Qed.

Lemma dll_Some m l : forall pp nn a, dll m pp l nn -> a ∈ l -> is_Some (m !! a).
Proof.
  induction l as [|b l IH]; intros pp nn a; cbn [dll]; [intros _ Ha; apply not_elem_of_nil in Ha; contradiction|].
  intros (H1 & _ & H2) Ha. apply elem_of_cons in Ha as [->|Ha]; [|eapply IH; eauto].
  destruct (lookup_pv _ _ _ H1) as (n & En & _). eauto.
Qed.
End Segments.

Section Writing.
Context `{D : CDouble}.
Implicit Types (m : gmap addr node) (h : heap) (a b x p : addr) (l : list addr).

(** The value of an assigned link: the item is allocated. *)
Lemma assigned m a (q : ptr) : is_Some (m !! a) -> (fun _ => q) <$> m !! a = Some q.
Proof. intros [n ->]. reflexivity. Qed.

Lemma linked_inj m l i j a : linked m l -> l !! i = Some a -> l !! j = Some a -> i = j.
Proof. intros H. apply NoDup_lookup. apply H. Qed.

Lemma linked_in m l i a : linked m l -> l !! i = Some a -> a ∈ l.
Proof. intros _. apply list_elem_of_lookup_2. Qed.

Lemma modify_step {A : Type} h a (f : node -> node) (k : unit -> M A) : is_Some (nodes h !! a) ->
  bind (modify (Some a) f) k h = k tt (set_nodes h (alter f a (nodes h))).
Proof. intros H. apply bind_Ret, modify_run, H. Qed.

Lemma then_true h h' (x : M unit) : x h = Ret (tt, h') -> (x ;; ret true) h = Ret (true, h').
Proof. intros E. rewrite (bind_Ret _ _ _ _ _ E). reflexivity. Qed.

Lemma parent_Some m p l : parent_of m p l -> is_Some (m !! p).
Proof. intros H. destruct (lookup_ch _ _ _ (parent_child _ _ _ H)) as (n & En & _). eauto. Qed.

(** *** Appending *)
Definition appended m p l x : gmap addr node :=
  match l, last l with
  | a0 :: _, Some z =>
      alter (with_prev (Some x)) a0 (alter (with_prev (Some z)) x (alter (with_next (Some x)) z m))
  | _, _ => alter (with_next None) x (alter (with_prev (Some x)) x (alter (with_child (Some x)) p m))
  end.

Lemma add_item_run h p l x : parent_of (nodes h) p l -> is_Some (nodes h !! x) ->
  add_item_to_array (Some p) (Some x) h = Ret (true, set_nodes h (appended (nodes h) p l x)).
Proof.
  intros H Hx. unfold add_item_to_array. cbn [is_null orb].
  destruct (parent_deref h p l H) as (np & Enp & Ec). rewrite (bind_Ret _ _ _ _ _ Enp), Ec.
  pose proof (parent_Some _ _ _ H) as Hp. pose proof (parent_linked _ _ _ H) as HL.
  destruct l as [|a0 l]; cbn [lookup list_lookup is_null appended].
  { apply then_true. rewrite modify_step by exact Hp.
    rewrite modify_step by (cbn; apply alter_Some, Hx).
    rewrite modify_run by (cbn; apply alter_Some, alter_Some, Hx). reflexivity. }
  destruct (last_is_Some (a0 :: l)) as [_ Hz]. destruct Hz as [z Ez]; [discriminate|].
  assert (Hz : is_Some (nodes h !! z)).
  { rewrite last_lookup in Ez. eapply linked_Some; eauto. }
  assert (Ha0 : is_Some (nodes h !! a0)) by (apply (linked_Some _ _ 0 a0 HL); reflexivity).
  destruct Ha0 as [n0 En0].
  assert (Hrest : forall q, q = Some z ->
    (suffix_object q (Some x) ;; let* o := deref (Some p) in modify (n_child o) (with_prev (Some x))) h
    = Ret (tt, set_nodes h (alter (with_prev (Some x)) a0 (alter (with_prev (Some z)) x (alter (with_next (Some x)) z (nodes h)))))).
  { intros q ->. unfold suffix_object.
    erewrite bind_Ret; [|rewrite modify_step by exact Hz; apply modify_run; cbn; apply alter_Some, Hx].
    set (h1 := set_nodes _ _). assert (Hc1 : ch (nodes h1) p = Some (Some a0)).
    { subst h1. cbn. links. apply (parent_child _ _ _ H). }
    destruct (lookup_ch _ _ _ Hc1) as (np1 & Enp1 & Ec1).
    rewrite (bind_Ret _ _ _ _ _ (deref_run _ _ _ Enp1)), Ec1. rewrite modify_run; [reflexivity|]. subst h1. cbn.
    apply alter_Some, alter_Some. eauto. }
  rewrite Ez. apply then_true.
  rewrite (bind_Ret _ _ _ _ _ (deref_run _ _ _ En0)).
  destruct (linked_head _ _ HL a0 eq_refl) as [Hp0|Hp0]; apply lookup_pv in Hp0 as (n0' & En0' & Hp0);
    rewrite En0 in En0'; injection En0' as <-; rewrite Hp0; cbn [is_null negb].
  - assert (E : find_last (fuel_of h) (Some a0) h = Ret (Some z, h)).
    { rewrite <- Ez. pose proof (linked_size _ _ HL). apply (find_last_run h (a0 :: l) HL _ 0); [reflexivity|].
      unfold fuel_of. cbn [length] in *. lia. }
    erewrite bind_Ret by exact E. apply Hrest. reflexivity.
  - rewrite Ez. cbn [is_null negb]. apply Hrest. reflexivity.
Qed.

Lemma appended_relinked m p l x : relinked (x :: l) p m (appended m p l x).
Proof.
  unfold appended. destruct l as [|a0 l]; [|destruct (last (a0 :: l)) as [z|] eqn:Ez];
    repeat (apply relinked_step; [| reflexivity |]); try apply relinked_refl; try (left; reflexivity);
    right; (split; [|reflexivity]); try apply list_elem_of_here.
  - apply list_elem_of_further. eapply last_Some_elem_of, Ez.
  - apply list_elem_of_further, list_elem_of_here.
Qed.

Lemma appended_spec m p l x : parent_of m p l -> nx m x = Some None -> x <> p -> x ∉ l ->
  parent_of (appended m p l x) p (l ++ [x]).
Proof.
  intros H Hx Hxp Hxl. pose proof (parent_Some _ _ _ H) as Hp.
  assert (Hxs : is_Some (m !! x)) by (destruct (lookup_nx _ _ _ Hx) as (n & En & _); eauto).
  apply parent_dll in H as (Hc & Hnd & pp & Hpp & Hd).
  assert (Hnd' : NoDup (p :: l ++ [x])).
  { change (NoDup ((p :: l) ++ [x])). apply NoDup_app. split; [exact Hnd|].
    split; [|apply NoDup_singleton]. intros y Hy Hyx. apply list_elem_of_singleton in Hyx as ->.
    apply elem_of_cons in Hy as [Hy|Hy]; contradiction. }
  apply parent_dll. split; [|split; [exact Hnd'|]].
  - destruct l as [|a0 l]; cbn [appended app head]; [links; rewrite decide_True by reflexivity; apply assigned, Hp|].
    destruct (last (a0 :: l)) eqn:Ez; [links; exact Hc | apply last_None in Ez; discriminate].
  - exists (Some x). split; [right; symmetry; apply last_snoc|].
    destruct l as [|a0 l]; cbn [appended].
    + cbn. links. rewrite !decide_True by reflexivity. rewrite !assigned by auto using alter_Some. auto.
    + destruct (last (a0 :: l)) as [z|] eqn:Ez; [|apply last_None in Ez; discriminate].
      apply NoDup_cons in Hnd as [_ Hnd]. pose proof (last_Some_elem_of _ _ Ez) as Hz.
      apply dll_app. split.
      * apply (dll_ends m _ None (Some x) (a0 :: l) pp (Some x)); [exact Hnd | exact Hd | |];
          intros a Ha; links; pose proof (dll_Some _ _ _ _ _ Hd Ha).
        -- rewrite Ez. destruct (decide (z = a)) as [->|]; destruct (decide (Some _ = Some _)); try congruence.
           apply assigned. assumption.
        -- cbn [head]. destruct (decide (a0 = a)) as [->|]; destruct (decide (Some _ = Some _)); try congruence.
           ++ apply assigned; auto using alter_Some.
           ++ rewrite decide_False; [reflexivity | congruence].
      * unfold last_or. rewrite Ez. cbn. links.
        rewrite (decide_False (P := a0 = x)) by (intros ->; apply Hxl; left).
        rewrite (decide_False (P := z = x)) by congruence. rewrite decide_True by reflexivity.
        rewrite assigned by auto using alter_Some. auto.
Qed.

(** *** Putting pieces together *)

(** Only the link back from the first item of a piece is set. *)
Lemma dll_first m m' nn l pp pp' : NoDup l -> dll m pp l nn ->
  (forall a, a ∈ l -> nx m' a = nx m a) ->
  (forall a, a ∈ l -> pv m' a = if decide (head l = Some a) then Some pp' else pv m a) ->
  dll m' pp' l nn.
Proof.
  intros Hnd Hd Hn Hp. apply (dll_ends m m' nn nn l pp pp' Hnd Hd); [|exact Hp].
  intros a Ha. rewrite Hn by exact Ha. destruct (decide (last l = Some a)) as [El|]; [|reflexivity].
  rewrite last_lookup in El. rewrite dll_index in Hd. destruct (Hd _ _ El) as [-> _].
  rewrite lookup_ge_None_2; [reflexivity|]. destruct l; cbn [length pred]; lia.
Qed.

Lemma dll_piece m pp l1 a l2 : dll m pp (l1 ++ a :: l2) None ->
  dll m pp l1 (Some a) /\ pv m a = Some (last_or l1 pp) /\ nx m a = Some (head l2) /\ dll m (Some a) l2 None.
Proof.
  intros H. apply dll_app in H as [H1 H2]. cbn [head_or dll] in *. destruct H2 as (H2 & H3 & H4).
  split_and!; auto.
Qed.

(** The distinct addresses of a chain around one item. *)
Lemma chain_fresh p l1 a l2 : NoDup (p :: l1 ++ a :: l2) ->
  NoDup l1 /\ NoDup l2 /\ (a ∉ l1) /\ (a ∉ l2) /\ p <> a /\ (p ∉ l1) /\ (p ∉ l2) /\
  (forall y, y ∈ l1 -> y ∈ l2 -> False).
Proof.
  rewrite NoDup_cons, NoDup_app, NoDup_cons, elem_of_app, elem_of_cons.
  intros (Hp & H1 & H12 & Ha & H2). split_and!; auto.
  - intros Hal. apply (H12 a Hal). left.
  - intros y Hy Hy2. apply (H12 y Hy). right. exact Hy2.
Qed.

Lemma head_last_app l1 a l2 : head (l1 ++ a :: l2) = Some (default a (head l1)).
Proof. destruct l1; reflexivity. Qed.

(** *** Inserting *)
Definition inserted m p l1 a x (q : ptr) : gmap addr node :=
  let m1 := alter (with_prev (Some x)) a (alter (with_prev q) x (alter (with_next (Some a)) x m)) in
  match last l1 with
  | None => alter (with_child (Some x)) p m1
  | Some z => alter (with_next (Some x)) z m1
  end.

Lemma last_in l z : last l = Some z -> z ∈ l.
Proof. apply last_Some_elem_of. Qed.

Lemma same_head p l1 a l2 : NoDup (p :: l1 ++ a :: l2) ->
  same_ptr (Some a) (head (l1 ++ a :: l2)) = match last l1 with None => true | Some _ => false end.
Proof.
  intros H. apply chain_fresh in H as (_ & _ & Ha & _). unfold same_ptr. destruct l1 as [|b l1]; cbn [app head].
  - rewrite bool_decide_true by reflexivity. reflexivity.
  - rewrite bool_decide_false by (intros [= ->]; apply Ha; left).
    destruct (last (b :: l1)) eqn:E; [reflexivity | apply last_None in E; discriminate].
Qed.

Lemma insert_run h p l1 a l2 x q : parent_of (nodes h) p (l1 ++ a :: l2) -> pv (nodes h) a = Some q ->
  (forall z, last l1 = Some z -> q = Some z) -> is_Some (nodes h !! x) -> x <> p -> x ∉ l1 ++ a :: l2 ->
  cJSON_InsertItemInArray (Some p) (lenZ l1) (Some x) h = Ret (tt, set_nodes h (inserted (nodes h) p l1 a x q)).
Proof.
  intros H Hq Hz Hx Hxp Hxl. unfold cJSON_InsertItemInArray. rewrite (proj2 (Z.ltb_ge _ _)) by lia.
  rewrite Nat2Z.id. erewrite bind_Ret by (apply get_array_item_run, H).
  rewrite lookup_app_r, Nat.sub_diag by lia. cbn [lookup list_lookup is_null].
  pose proof (parent_Some _ _ _ H) as Hp. pose proof (parent_child _ _ _ H) as Hc.
  apply parent_dll in H as (_ & Hnd & pp & _ & Hd). pose proof (same_head _ _ _ _ Hnd) as Hsame.
  assert (Ha : is_Some (nodes h !! a)) by (apply (dll_Some _ _ _ _ a Hd), elem_of_app; right; left).
  assert (Hxa : x <> a) by (intros ->; apply Hxl, elem_of_app; right; left).
  rewrite modify_step by exact Hx.
  assert (Hq' : pv (nodes (set_nodes h (alter (with_next (Some a)) x (nodes h)))) a = Some q) by (cbn; links; exact Hq).
  destruct (lookup_pv _ _ _ Hq') as (na & Ena & Epa). rewrite (bind_Ret _ _ _ _ _ (deref_run _ _ _ Ena)), Epa.
  rewrite modify_step by (cbn; auto using alter_Some). rewrite modify_step by (cbn; auto using alter_Some).
  rewrite !set_nodes_twice. cbn [nodes set_nodes].
  set (m1 := alter (with_prev (Some x)) a _).
  assert (Hc1 : ch m1 p = Some (head (l1 ++ a :: l2))) by (subst m1; links; exact Hc).
  destruct (lookup_ch _ _ _ Hc1) as (np & Enp & Ecp).
  rewrite (bind_Ret _ _ _ _ _ (deref_run (set_nodes h m1) _ _ Enp)), Ecp, Hsame. unfold inserted. fold m1.
  destruct (last l1) as [z|] eqn:Ez.
  - assert (Hpx : pv m1 x = Some (Some z)).
    { subst m1. links. rewrite decide_False by congruence. rewrite decide_True by reflexivity.
      rewrite assigned by auto using alter_Some. f_equal. apply Hz. reflexivity. }
    destruct (lookup_pv _ _ _ Hpx) as (nx' & Enx & Epx).
    rewrite (bind_Ret _ _ _ _ _ (deref_run (set_nodes h m1) _ _ Enx)), Epx.
    rewrite modify_run; [reflexivity|]. subst m1. cbn.
    do 3 apply alter_Some. apply (dll_Some _ _ _ _ z Hd). apply elem_of_app. left. apply last_in, Ez.
  - rewrite modify_run; [reflexivity|]. subst m1. cbn. auto using alter_Some.
Qed.

Lemma nodup_insert p l1 l2 x : NoDup (p :: l1 ++ l2) -> x <> p -> x ∉ l1 ++ l2 -> NoDup (p :: l1 ++ x :: l2).
Proof.
  intros H Hp Hl. rewrite <- Permutation_middle. apply NoDup_cons in H as [H1 H2].
  apply NoDup_cons. split; [|apply NoDup_cons; auto].
  intros Hi. apply elem_of_cons in Hi as [->|Hi]; contradiction.
Qed.

(** Decide the comparisons of addresses in a goal about links; what remains are
    the assigned links. *)
Ltac decide_links :=
  repeat match goal with
    | |- context [decide (Some ?a = Some ?b)] =>
        destruct (decide (Some a = Some b)) as [[= ?]|?]; try subst; try contradiction
    | |- context [decide (?a = ?b)] => destruct (decide (a = b)); try subst; try contradiction; try congruence
    end;
  try reflexivity; try (apply assigned; auto using alter_Some).

Lemma insert_spec m p l1 a l2 x pp : NoDup (p :: l1 ++ a :: l2) -> ch m p = Some (head (l1 ++ a :: l2)) ->
  dll m pp (l1 ++ a :: l2) None -> (pp = None \/ pp = last (l1 ++ a :: l2)) ->
  is_Some (m !! x) -> x <> p -> x ∉ l1 ++ a :: l2 ->
  parent_of (inserted m p l1 a x (last_or l1 pp)) p (l1 ++ x :: a :: l2).
Proof.
  intros Hnd Hc Hd Hpp Hx Hxp Hxl. pose proof (chain_fresh _ _ _ _ Hnd) as (N1 & N2 & A1 & A2 & Hpa & P1 & P2 & D12).
  assert (Hp : is_Some (m !! p)) by (destruct (lookup_ch _ _ _ Hc) as (n & En & _); eauto).
  pose proof Hxl as [X1 Xl]%not_elem_of_app. apply not_elem_of_cons in Xl as [Xa X2].
  pose proof (dll_piece _ _ _ _ _ Hd) as (Hd1 & Hpv & Hnx & Hd2).
  assert (Ha : is_Some (m !! a)) by (destruct (lookup_nx _ _ _ Hnx) as (n & En & _); eauto).
  apply parent_dll. split; [|split].
  - unfold inserted. destruct l1 as [|b l1]; cbn [last app head] in *.
    + links. rewrite decide_True by reflexivity. rewrite assigned by auto using alter_Some. reflexivity.
    + destruct (last (b :: l1)) eqn:Ez; [links; exact Hc | apply last_None in Ez; discriminate].
  - apply nodup_insert; [exact Hnd | exact Hxp | exact Hxl].
  - exists pp. split.
    { destruct Hpp as [->| ->]; [left; reflexivity | right]. rewrite !last_app. reflexivity. }
    apply dll_app. unfold inserted. split.
    + apply (dll_ends m _ (Some a) (Some x) l1 pp pp N1 Hd1); intros y Hy; pose proof (dll_Some _ _ _ _ _ Hd1 Hy).
      * destruct (last l1) as [z|] eqn:Ez; links; decide_links.
      * assert (Ey : pv m y = if decide (head l1 = Some y) then Some pp else pv m y).
        { destruct (decide (head l1 = Some y)) as [Eh|]; [|reflexivity]. destruct l1; [discriminate|].
          injection Eh as ->. apply Hd1. }
        rewrite <- Ey. destruct (last l1); links; decide_links.
    + cbn [dll head_or]. destruct (last l1) as [z|] eqn:Ez; [pose proof (last_in _ _ Ez) as Hz|]; links;
        (split_and!; [decide_links | decide_links | decide_links | |]);
        try (apply (dll_frame m); [exact Hd2|]; intros y Hy; links; split; decide_links; exfalso; eauto);
        decide_links; rewrite ?Hnx; destruct l2; reflexivity || (exfalso; eauto).
Qed.

(** *** Taking out *)
Definition detached m p l1 a l2 (q : ptr) : gmap addr node :=
  let m1 := match last l1 with Some z => alter (with_next (head l2)) z m | None => m end in
  let m2 := match head l2 with Some b => alter (with_prev q) b m1 | None => m1 end in
  let m3 := match last l1 with Some _ => m2 | None => alter (with_child (head l2)) p m2 end in
  alter (with_next None) a (alter (with_prev None) a m3).

(** A deref whose members are known from the links. *)
Lemma deref_links h a : is_Some (nodes h !! a) ->
  exists n, deref (Some a) h = Ret (n, h) /\ nx (nodes h) a = Some (n_next n) /\
    pv (nodes h) a = Some (n_prev n) /\ ch (nodes h) a = Some (n_child n).
Proof.
  intros [n En]. exists n. rewrite (deref_run _ _ _ En).
  unfold nx, pv, ch. rewrite En. auto.
Qed.

Lemma detach_run h p l1 a l2 q : parent_of (nodes h) p (l1 ++ a :: l2) -> pv (nodes h) a = Some q ->
  (forall z, last l1 = Some z -> q = Some z) ->
  cJSON_DetachItemViaPointer (Some p) (Some a) h = Ret (Some a, set_nodes h (detached (nodes h) p l1 a l2 q)).
Proof.
  intros H Hq Hz. unfold cJSON_DetachItemViaPointer. cbn [is_null orb].
  pose proof (parent_Some _ _ _ H) as Hp. pose proof (parent_child _ _ _ H) as Hc.
  apply parent_dll in H as (_ & Hnd & pp & _ & Hd). pose proof (same_head _ _ _ _ Hnd) as Hsame.
  pose proof (chain_fresh _ _ _ _ Hnd) as (N1 & N2 & A1 & A2 & Hpa & P1 & P2 & D12).
  pose proof (dll_piece _ _ _ _ _ Hd) as (Hd1 & Hpv & Hnx & Hd2).
  assert (Ha : is_Some (nodes h !! a)) by (destruct (lookup_pv _ _ _ Hq) as (n & En & _); eauto).
  destruct (deref_links h p) as (np' & Er & _ & _ & Ecp'); [exact Hp|]. rewrite (bind_Ret _ _ _ _ _ Er); clear Er. rewrite Hc in Ecp'. injection Ecp' as <-.
  rewrite Hsame. set (m1 := match last l1 with Some z => alter (with_next (head l2)) z (nodes h) | None => nodes h end).
  assert (Hm1 : (if negb (match last l1 with Some _ => false | None => true end) then
    let* n := deref (Some a) in modify (n_prev n) (with_next (n_next n)) else ret tt) h = Ret (tt, set_nodes h m1)).
  { subst m1. destruct (last l1) as [z|] eqn:Ez; cbn [negb]; [|rewrite set_nodes_id; reflexivity].
    destruct (deref_links h a) as (n & Er & En & Ep & _); [exact Ha|]. rewrite (bind_Ret _ _ _ _ _ Er); clear Er.
    rewrite Hnx in En. rewrite Hq, (Hz z eq_refl) in Ep. injection En as <-. injection Ep as <-.
    apply modify_run. apply (dll_Some _ _ _ _ z Hd). apply elem_of_app. left. apply last_in, Ez. }
  rewrite (bind_Ret _ _ _ _ _ Hm1). clear Hm1.
  assert (Hs1 : forall b, is_Some (nodes h !! b) -> is_Some (m1 !! b)).
  { subst m1. intros b Hb. destruct (last l1); auto using alter_Some. }
  assert (Hl1 : nx m1 a = Some (head l2) /\ pv m1 a = Some q /\ ch m1 p = Some (head (l1 ++ a :: l2))).
  { subst m1. destruct (last l1) as [z|] eqn:Ez; links; [|auto]. apply last_in in Ez.
    rewrite decide_False by (intros ->; contradiction). auto. }
  destruct Hl1 as (Hnx1 & Hpv1 & Hc1).
  destruct (deref_links (set_nodes h m1) a) as (n & Er & En & Ep & _); [auto|]. rewrite (bind_Ret _ _ _ _ _ Er); clear Er. cbn [nodes set_nodes] in En, Ep.
  rewrite Hnx1 in En. rewrite Hpv1 in Ep. injection En as <-. injection Ep as <-.
  set (m2 := match head l2 with Some b => alter (with_prev q) b m1 | None => m1 end).
  assert (Hm2 : (if negb (is_null (head l2)) then modify (head l2) (with_prev q) else ret tt) (set_nodes h m1)
    = Ret (tt, set_nodes h m2)).
  { subst m2. destruct l2 as [|b l2]; cbn [head is_null negb]; [reflexivity|].
    rewrite modify_run; [reflexivity|]. apply Hs1, (dll_Some _ _ _ _ b Hd), elem_of_app. right. right. left. }
  rewrite (bind_Ret _ _ _ _ _ Hm2). clear Hm2.
  assert (Hs2 : forall b, is_Some (m1 !! b) -> is_Some (m2 !! b)).
  { subst m2. intros b Hb. destruct (head l2); auto using alter_Some. }
  assert (Hl2 : nx m2 a = Some (head l2) /\ ch m2 p = Some (head (l1 ++ a :: l2))).
  { subst m2. destruct (head l2); links; auto. }
  destruct Hl2 as (Hnx2 & Hc2).
  destruct (deref_links (set_nodes h m2) p) as (np2 & Er & _ & _ & Ec2); [auto|]. rewrite (bind_Ret _ _ _ _ _ Er); clear Er. cbn [nodes set_nodes] in Ec2.
  rewrite Hc2 in Ec2. injection Ec2 as <-. rewrite Hsame.
  set (m3 := match last l1 with Some _ => m2 | None => alter (with_child (head l2)) p m2 end).
  assert (Hm3 : (if match last l1 with Some _ => false | None => true end then
    let* n := deref (Some a) in modify (Some p) (with_child (n_next n)) else ret tt) (set_nodes h m2)
    = Ret (tt, set_nodes h m3)).
  { subst m3. destruct (last l1); [reflexivity|].
    destruct (deref_links (set_nodes h m2) a) as (n2 & Er & En2 & _); [auto|]. rewrite (bind_Ret _ _ _ _ _ Er); clear Er. cbn [nodes set_nodes] in En2.
    rewrite Hnx2 in En2. injection En2 as <-. rewrite modify_run; [reflexivity | auto]. }
  rewrite (bind_Ret _ _ _ _ _ Hm3). clear Hm3.
  assert (Hs3 : is_Some (m3 !! a)) by (subst m3; destruct (last l1); auto using alter_Some).
  rewrite modify_step by exact Hs3. rewrite modify_step by (cbn; auto using alter_Some). reflexivity.
Qed.

(** The first link back of a piece, as an assignment that changes nothing. *)
Lemma dll_head m pp l nn y : dll m pp l nn -> pv m y = if decide (head l = Some y) then Some pp else pv m y.
Proof.
  intros H. destruct (decide (head l = Some y)) as [E|]; [|reflexivity].
  destruct l; [discriminate|]. injection E as ->. apply H.
Qed.

Lemma nodup_remove p l1 a l2 : NoDup (p :: l1 ++ a :: l2) -> NoDup (p :: l1 ++ l2).
Proof.
  rewrite <- Permutation_middle. rewrite !NoDup_cons. intros (H1 & _ & H2). split; [|exact H2].
  intros Hi. apply H1. right. exact Hi.
Qed.

(** Taking out the last of several items is right only when the [prev] of the
    first one is NULL: it is not updated. *)
Lemma detach_spec m p l1 a l2 pp : NoDup (p :: l1 ++ a :: l2) -> ch m p = Some (head (l1 ++ a :: l2)) ->
  dll m pp (l1 ++ a :: l2) None -> (pp = None \/ pp = last (l1 ++ a :: l2)) ->
  (l1 = [] \/ l2 <> [] \/ pp = None) ->
  let m' := detached m p l1 a l2 (last_or l1 pp) in
  parent_of m' p (l1 ++ l2) /\ nx m' a = Some None /\ pv m' a = Some None.
Proof.
  intros Hnd Hc Hd Hpp Hlast m'. pose proof (chain_fresh _ _ _ _ Hnd) as (N1 & N2 & A1 & A2 & Hpa & P1 & P2 & D12).
  assert (Hp : is_Some (m !! p)) by (destruct (lookup_ch _ _ _ Hc) as (n & En & _); eauto).
  pose proof (dll_piece _ _ _ _ _ Hd) as (Hd1 & Hpv & Hnx & Hd2).
  assert (Ha : is_Some (m !! a)) by (destruct (lookup_nx _ _ _ Hnx) as (n & En & _); eauto).
  split; [|subst m'; unfold detached; split; links; rewrite decide_True by reflexivity; apply assigned;
            destruct (last l1), (head l2); auto 10 using alter_Some].
  apply parent_dll. split; [|split; [eapply nodup_remove, Hnd|]].
  - subst m'. unfold detached. destruct l1 as [|b l1]; cbn [last app head] in *.
    + links. rewrite decide_True by reflexivity. apply assigned. destruct l2; cbn [head]; auto using alter_Some.
    + destruct (last (b :: l1)) eqn:Ez; [|apply last_None in Ez; discriminate].
      destruct (head l2); links; exact Hc.
  - exists (match l1 ++ l2 with [] => None | _ => pp end). split.
    { destruct Hpp as [->| ->]; [left; destruct (l1 ++ l2); reflexivity|].
      destruct l2 as [|b l2]; [|right; rewrite !last_app; destruct l1; reflexivity].
      destruct Hlast as [->|[Hl|Hl]]; [left; reflexivity | contradiction |].
      rewrite Hl. left. destruct (l1 ++ []); reflexivity. }
    assert (Hdd : dll m' pp (l1 ++ l2) None); [|destruct (l1 ++ l2); [exact I | exact Hdd]].
    apply dll_app. subst m'. unfold detached. split.
    + apply (dll_ends m _ (Some a) (head_or l2 None) l1 pp pp N1 Hd1); intros y Hy; pose proof (dll_Some _ _ _ _ _ Hd1 Hy).
      * destruct (last l1) as [z|] eqn:Ez; (destruct l2 as [|b l2]; cbn [head head_or] in *); links; decide_links;
          try (exfalso; eapply D12; [exact Hy | left]).
      * rewrite <- (dll_head _ _ _ _ y Hd1).
        destruct (last l1) as [z|] eqn:Ez; (destruct l2 as [|b l2]; cbn [head head_or] in *); links; decide_links;
          (exfalso; eapply D12; [exact Hy | left]).
    + apply (dll_first m _ None l2 (Some a) _ N2 Hd2); intros y Hy; pose proof (dll_Some _ _ _ _ _ Hd2 Hy).
      * destruct (last l1) as [z|] eqn:Ez; [apply last_in in Ez|]; (destruct l2 as [|b l2]; cbn [head head_or] in *);
          links; decide_links; exfalso; eapply D12; eassumption.
      * destruct (last l1) as [z|] eqn:Ez; [apply last_in in Ez|]; (destruct l2 as [|b l2]; cbn [head head_or] in *);
          links; decide_links.
Qed.

(** *** Replacing *)
Definition replaced m p l1 a l2 x (q : ptr) : gmap addr node :=
  let m1 := alter (with_prev q) x (alter (with_next (head l2)) x m) in
  let m2 := match head l2 with Some b => alter (with_prev (Some x)) b m1 | None => m1 end in
  let m3 := match last l1 with
            | Some z => alter (with_next (Some x)) z m2
            | None => alter (with_child (Some x)) p m2
            end in
  alter (with_prev None) a (alter (with_next None) a m3).

Lemma same_ptr_sym (q q' : ptr) : same_ptr q q' = same_ptr q' q.
Proof. unfold same_ptr. apply bool_decide_ext. split; congruence. Qed.

Lemma replace_run h p l1 a l2 x q : parent_of (nodes h) p (l1 ++ a :: l2) -> pv (nodes h) a = Some q ->
  (forall z, last l1 = Some z -> q = Some z) -> is_Some (nodes h !! x) -> x <> p -> x ∉ l1 ++ a :: l2 ->
  cJSON_ReplaceItemViaPointer (Some p) (Some a) (Some x) h
  = (cJSON_Delete (Some a) ;; ret true) (set_nodes h (replaced (nodes h) p l1 a l2 x q)).
Proof.
  intros H Hq Hz Hx Hxp Hxl. unfold cJSON_ReplaceItemViaPointer. cbn [is_null orb].
  pose proof (parent_Some _ _ _ H) as Hp. pose proof (parent_child _ _ _ H) as Hc.
  apply parent_dll in H as (_ & Hnd & pp & _ & Hd). pose proof (same_head _ _ _ _ Hnd) as Hsame.
  pose proof Hxl as [X1 Xl]%not_elem_of_app. apply not_elem_of_cons in Xl as [Xa X2].
  pose proof (dll_piece _ _ _ _ _ Hd) as (Hd1 & Hpv & Hnx & Hd2).
  assert (Ha : is_Some (nodes h !! a)) by (destruct (lookup_pv _ _ _ Hq) as (n & En & _); eauto).
  unfold same_ptr at 1. rewrite bool_decide_false by congruence.
  destruct (deref_links h a Ha) as (n & Er & En & _ & _). rewrite (bind_Ret _ _ _ _ _ Er); clear Er.
  rewrite Hnx in En. injection En as <-. rewrite modify_step by exact Hx.
  set (m0 := alter (with_next (head l2)) x (nodes h)).
  destruct (deref_links (set_nodes h m0) a) as (n' & Er & _ & Ep & _); [apply alter_Some, Ha|].
  rewrite (bind_Ret _ _ _ _ _ Er); clear Er. subst m0. cbn in Ep. rewrite pv_with_next, Hq in Ep. injection Ep as <-.
  rewrite modify_step by (cbn; auto using alter_Some). rewrite set_nodes_twice. cbn [nodes set_nodes].
  set (m1 := alter (with_prev q) x _).
  assert (Hs1 : forall b, is_Some (nodes h !! b) -> is_Some (m1 !! b)) by (subst m1; auto using alter_Some).
  assert (Hl1 : nx m1 x = Some (head l2) /\ pv m1 x = Some q).
  { subst m1. links. rewrite !decide_True by reflexivity. rewrite !assigned by auto using alter_Some. auto. }
  destruct Hl1 as [Hnx1 Hpv1].
  destruct (deref_links (set_nodes h m1) x) as (n1 & Er & En1 & _); [auto|]. rewrite (bind_Ret _ _ _ _ _ Er); clear Er.
  cbn in En1. rewrite Hnx1 in En1. injection En1 as <-.
  set (m2 := match head l2 with Some b => alter (with_prev (Some x)) b m1 | None => m1 end).
  assert (Hm2 : (if negb (is_null (head l2)) then modify (head l2) (with_prev (Some x)) else ret tt) (set_nodes h m1)
    = Ret (tt, set_nodes h m2)).
  { subst m2. destruct l2 as [|b l2]; cbn [head is_null negb]; [reflexivity|].
    rewrite modify_run; [reflexivity|]. apply Hs1, (dll_Some _ _ _ _ b Hd), elem_of_app. right. right. left. }
  rewrite (bind_Ret _ _ _ _ _ Hm2). clear Hm2.
  assert (Hs2 : forall b, is_Some (m1 !! b) -> is_Some (m2 !! b)).
  { subst m2. intros b Hb. destruct (head l2); auto using alter_Some. }
  assert (Hl2 : pv m2 x = Some q /\ ch m2 p = Some (head (l1 ++ a :: l2))).
  { subst m2 m1. destruct l2 as [|b l2]; cbn [head] in *; links.
    - rewrite decide_True by reflexivity. rewrite assigned by auto using alter_Some. auto.
    - rewrite decide_False by (intros ->; apply X2; left). rewrite decide_True by reflexivity.
      rewrite assigned by auto using alter_Some. auto. }
  destruct Hl2 as [Hpv2 Hc2].
  destruct (deref_links (set_nodes h m2) p) as (np & Er & _ & _ & Ec); [auto|]. rewrite (bind_Ret _ _ _ _ _ Er); clear Er.
  cbn in Ec. rewrite Hc2 in Ec. injection Ec as <-. rewrite same_ptr_sym, Hsame.
  set (m3 := match last l1 with Some z => alter (with_next (Some x)) z m2 | None => alter (with_child (Some x)) p m2 end).
  match goal with |- bind ?c _ _ = _ => assert (Hm3 : c (set_nodes h m2) = Ret (tt, set_nodes h m3)) end.
  { subst m3. destruct (last l1) as [z|] eqn:Ez; [|rewrite modify_run; [reflexivity | auto]].
    destruct (deref_links (set_nodes h m2) x) as (n2 & Er & _ & En2 & _); [auto|]. rewrite (bind_Ret _ _ _ _ _ Er); clear Er.
    cbn in En2. rewrite Hpv2, (Hz z eq_refl) in En2. injection En2 as <-. cbn [is_null negb].
    rewrite modify_run; [reflexivity|]. apply Hs2, Hs1, (dll_Some _ _ _ _ z Hd), elem_of_app. left. apply last_in, Ez. }
  rewrite (bind_Ret _ _ _ _ _ Hm3). clear Hm3.
  assert (Hs3 : is_Some (m3 !! a)) by (subst m3; destruct (last l1); auto using alter_Some).
  rewrite modify_step by exact Hs3. rewrite modify_step by (cbn; auto using alter_Some). reflexivity.
Qed.

Lemma replace_spec m p l1 a l2 x pp : NoDup (p :: l1 ++ a :: l2) -> ch m p = Some (head (l1 ++ a :: l2)) ->
  dll m pp (l1 ++ a :: l2) None -> (pp = None \/ pp = last (l1 ++ a :: l2)) ->
  is_Some (m !! x) -> x <> p -> x ∉ l1 ++ a :: l2 -> (l2 <> [] \/ pp = None) ->
  let m' := replaced m p l1 a l2 x (last_or l1 pp) in
  parent_of m' p (l1 ++ x :: l2) /\ nx m' a = Some None.
Proof.
  intros Hnd Hc Hd Hpp Hx Hxp Hxl Hlast m'.
  pose proof (chain_fresh _ _ _ _ Hnd) as (N1 & N2 & A1 & A2 & Hpa & P1 & P2 & D12).
  assert (Hp : is_Some (m !! p)) by (destruct (lookup_ch _ _ _ Hc) as (n & En & _); eauto).
  pose proof Hxl as [X1 Xl]%not_elem_of_app. apply not_elem_of_cons in Xl as [Xa X2].
  pose proof (dll_piece _ _ _ _ _ Hd) as (Hd1 & Hpv & Hnx & Hd2).
  assert (Ha : is_Some (m !! a)) by (destruct (lookup_nx _ _ _ Hnx) as (n & En & _); eauto).
  split; [|subst m'; unfold replaced; links; rewrite decide_True by reflexivity; apply assigned;
            destruct (last l1), (head l2); auto 10 using alter_Some].
  apply parent_dll. split; [|split].
  - subst m'. unfold replaced. destruct l1 as [|b l1]; cbn [last app head] in *.
    + links. rewrite decide_True by reflexivity. apply assigned. destruct l2; cbn [head]; auto using alter_Some.
    + destruct (last (b :: l1)) eqn:Ez; [|apply last_None in Ez; discriminate].
      destruct (head l2); links; exact Hc.
  - apply nodup_insert; [eapply nodup_remove, Hnd | exact Hxp|]. intros [Hi|Hi]%elem_of_app; contradiction.
  - exists pp. split.
    { destruct Hpp as [->| ->]; [left; reflexivity|]. destruct Hlast as [Hl|Hl]; [|rewrite Hl; left; reflexivity].
      right. rewrite !last_app. destruct l2; [contradiction | reflexivity]. }
    apply dll_app. subst m'. unfold replaced. split.
    + apply (dll_ends m _ (Some a) (Some x) l1 pp pp N1 Hd1); intros y Hy; pose proof (dll_Some _ _ _ _ _ Hd1 Hy).
      * destruct (last l1) as [z|] eqn:Ez; (destruct l2 as [|b l2]; cbn [head head_or] in *); links; decide_links;
          try (exfalso; eapply D12; [exact Hy | left]).
      * rewrite <- (dll_head _ _ _ _ y Hd1).
        destruct (last l1) as [z|] eqn:Ez; (destruct l2 as [|b l2]; cbn [head head_or] in *); links; decide_links;
          (exfalso; eapply D12; [exact Hy | left]).
    + cbn [dll]. split; [|split].
      * destruct (last l1) as [z|] eqn:Ez; (destruct l2 as [|b l2]; cbn [head head_or] in *); links; decide_links;
          exfalso; apply X2; left.
      * destruct (last l1) as [z|] eqn:Ez; [apply last_in in Ez|]; (destruct l2 as [|b l2]; cbn [head head_or] in *);
          links; decide_links.
      * apply (dll_first m _ None l2 (Some a) _ N2 Hd2); intros y Hy; pose proof (dll_Some _ _ _ _ _ Hd2 Hy).
        -- destruct (last l1) as [z|] eqn:Ez; [apply last_in in Ez|]; (destruct l2 as [|b l2]; cbn [head head_or] in *);
             links; decide_links; exfalso; eapply D12; eassumption.
        -- destruct (last l1) as [z|] eqn:Ez; [apply last_in in Ez|]; (destruct l2 as [|b l2]; cbn [head head_or] in *);
             links; decide_links.
Qed.
End Writing.
