(* ===== verification/JsonOwn.v ===== *)
(** * JSON items in memory: who owns what

    A tree of items owns its items and the texts they point to, except what it
    only refers to: the contents of an item marked [cJSON_IsReference] and names
    marked [cJSON_StringIsConst].  [cJSON_Delete] frees exactly what the tree
    owns; [cJSON_Duplicate] makes a tree of the same value that owns only new
    blocks, or fails and leaves nothing behind. *)

From stdpp Require Import gmap.
From S2P Require Import Prelude JsonText JsonPrint JsonHeap JsonTree.

Local Open Scope Z_scope.

(** ** Trees of addresses *)
#[warnings="-register-all"]
Inductive tree := Tree (a : addr) (sub : list tree).

Definition root (t : tree) : addr := let '(Tree a _) := t in a.
Definition subtrees (t : tree) : list tree := let '(Tree _ ts) := t in ts.

Fixpoint addrs (t : tree) : list addr := let '(Tree a ts) := t in a :: flat_map addrs ts.

Lemma tree_induction (P : tree -> Prop) :
  (forall a ts, Forall P ts -> P (Tree a ts)) -> forall t, P t.
Proof.
  intros H. fix IH 1. intros [a ts]. apply H. induction ts as [|t ts IHts]; constructor; [apply IH | exact IHts].
Qed.

(** Every element has the property. *)
Definition every {X : Type} (P : X -> Prop) (l : list X) : Prop := fold_right and True (map P l).

Lemma every_Forall {X : Type} (P : X -> Prop) l : every P l <-> Forall P l.
Proof.
  induction l as [|x l IH]; [split; [constructor | exact (fun _ => I)]|].
  change (every P (x :: l)) with (P x /\ every P l). rewrite IH, Forall_cons. reflexivity.
Qed.

Section Own.
Context `{D : CDouble}.
Implicit Types (m : gmap addr node) (h : heap) (t : tree) (ts : list tree) (ns qs : list addr).

Definition first ts : ptr := root <$> head ts.

(** The [next] members lead through the roots. *)
Fixpoint chained m ts : Prop :=
  match ts with
  | [] => True
  | t :: ts' => nx m (root t) = Some (first ts') /\ chained m ts'
  end.

Definition is_ref (n : node) : bool := flag (n_type n) cJSON_IsReference.
Definition is_const (n : node) : bool := flag (n_type n) cJSON_StringIsConst.

(** The texts an item owns. *)
Definition own_texts (n : node) : list addr :=
  (if is_ref n then [] else option_list (n_valuestring n)) ++
  (if is_const n then [] else option_list (n_string n)).

Fixpoint texts_of m t : list addr :=
  let '(Tree a ts) := t in
  (match m !! a with Some n => own_texts n | None => [] end) ++ flat_map (texts_of m) ts.

(** The items of the tree are in memory, linked as the tree says; the children of
    a reference are not its own. *)
Fixpoint owns m t : Prop :=
  let '(Tree a ts) := t in
  exists n, m !! a = Some n /\
    (if is_ref n then ts = [] else n_child n = first ts) /\ chained m ts /\ every (owns m) ts.

(** A list of trees that owns its blocks, each once. *)
Record forest h ts : Prop := {
  forest_chained : chained (nodes h) ts;
  forest_owns : Forall (owns (nodes h)) ts;
  forest_nodup : NoDup (flat_map addrs ts);
  forest_texts : NoDup (flat_map (texts_of (nodes h)) ts);
  forest_alloc : forall q, q ∈ flat_map (texts_of (nodes h)) ts -> is_Some (texts h !! q)
}.

Lemma root_addrs t : root t ∈ addrs t.
Proof. destruct t. left. Qed.

Lemma elem_of_flat {X Y : Type} (f : X -> list Y) l y : y ∈ flat_map f l <-> exists x, x ∈ l /\ y ∈ f x.
Proof.
  rewrite list_elem_of_In, in_flat_map. split; intros (x & H1 & H2); exists x; rewrite ?list_elem_of_In in *; auto.
Qed.

Lemma first_root m ts x : first ts = Some x -> x ∈ flat_map addrs ts.
Proof. destruct ts as [|t ts]; [discriminate|]. intros [= <-]. apply elem_of_app. left. apply root_addrs. Qed.

(** What happens to other items does not matter. *)
Lemma chained_frame m m' ts : (forall x, x ∈ flat_map addrs ts -> m' !! x = m !! x) -> chained m ts -> chained m' ts.
Proof.
  induction ts as [|t ts IH]; cbn [chained flat_map]; [auto|]. intros H [H1 H2]. split.
  - unfold nx. rewrite H by (apply elem_of_app; left; apply root_addrs). exact H1.
  - apply IH; [|exact H2]. intros x Hx. apply H, elem_of_app. right. exact Hx.
Qed.

Lemma owns_frame m m' t : (forall x, x ∈ addrs t -> m' !! x = m !! x) ->
  (owns m t -> owns m' t) /\ texts_of m' t = texts_of m t.
Proof.
  induction t as [a ts IH] using tree_induction. cbn [addrs owns texts_of]. intros H.
  assert (Hsub : forall x, x ∈ flat_map addrs ts -> m' !! x = m !! x) by (intros x Hx; apply H; right; exact Hx).
  rewrite (H a) by left. split.
  - intros (n & E & Hc & Hch & Ho). exists n. split; [exact E|]. split; [exact Hc|].
    split; [eapply chained_frame; eauto|]. rewrite every_Forall in *. clear Hch Hc H.
    induction IH as [|t ts Ht _ IHts]; constructor; apply Forall_cons in Ho as [Ho1 Ho2].
    + apply Ht; [|exact Ho1]. intros x Hx. apply Hsub, elem_of_app. left. exact Hx.
    + apply IHts; [|exact Ho2]. intros x Hx. apply Hsub, elem_of_app. right. exact Hx.
  - f_equal. clear H. induction IH as [|t ts Ht _ IHts]; [reflexivity|]. cbn [flat_map]. f_equal.
    + apply Ht. intros x Hx. apply Hsub, elem_of_app. left. exact Hx.
    + apply IHts. intros x Hx. apply Hsub, elem_of_app. right. exact Hx.
Qed.

Lemma owns_frame_all m m' ts : (forall x, x ∈ flat_map addrs ts -> m' !! x = m !! x) ->
  (Forall (owns m) ts -> Forall (owns m') ts) /\ flat_map (texts_of m') ts = flat_map (texts_of m) ts.
Proof.
  induction ts as [|t ts IH]; cbn [flat_map]; intros H; [auto|].
  destruct (owns_frame m m' t) as [H1 H2]; [intros x Hx; apply H, elem_of_app; left; exact Hx|].
  destruct IH as [H3 H4]; [intros x Hx; apply H, elem_of_app; right; exact Hx|].
  split; [|congruence]. intros Ho. apply Forall_cons in Ho as [Ho1 Ho2]. constructor; auto.
Qed.

Lemma owns_Some m t x : owns m t -> x ∈ addrs t -> is_Some (m !! x).
Proof.
  induction t as [a ts IH] using tree_induction. cbn [addrs owns]. intros (n & E & _ & _ & Ho) Hx.
  apply elem_of_cons in Hx as [->|Hx]; [eauto|]. apply every_Forall in Ho.
  apply elem_of_flat in Hx as (t & Ht & Hx). rewrite Forall_forall in IH, Ho. eauto.
Qed.

(** ** Removing blocks *)
Record removed ns qs h h' : Prop := {
  removed_nodes : forall x, nodes h' !! x = if decide (x ∈ ns) then None else nodes h !! x;
  removed_texts : forall q, texts h' !! q = if decide (q ∈ qs) then None else texts h !! q
}.

Lemma removed_refl h : removed [] [] h h.
Proof. constructor; intros x; (destruct (decide _) as [H|]; [apply not_elem_of_nil in H; contradiction | reflexivity]). Qed.

Lemma removed_trans ns qs ns' qs' h1 h2 h3 : removed ns qs h1 h2 -> removed ns' qs' h2 h3 ->
  removed (ns ++ ns') (qs ++ qs') h1 h3.
Proof.
  intros [H1 H2] [G1 G2]. constructor; intros x; [rewrite G1, H1 | rewrite G2, H2];
    repeat (destruct (decide _) as [?E|?E]); rewrite ?elem_of_app in *; tauto || reflexivity.
Qed.

Lemma removed_same ns qs ns' qs' h h' : (forall x, x ∈ ns <-> x ∈ ns') -> (forall q, q ∈ qs <-> q ∈ qs') ->
  removed ns qs h h' -> removed ns' qs' h h'.
Proof.
  intros Hn Hq [H1 H2]. constructor; intros x; [rewrite H1 | rewrite H2];
    repeat (destruct (decide _) as [?E|?E]); rewrite ?Hn, ?Hq in *; tauto || reflexivity.
Qed.

Lemma removed_keeps ns qs h h' x : removed ns qs h h' -> x ∉ ns -> nodes h' !! x = nodes h !! x.
Proof. intros [H _] Hx. rewrite H. destruct (decide _); [contradiction | reflexivity]. Qed.

Lemma removed_keeps_text ns qs h h' q : removed ns qs h h' -> q ∉ qs -> texts h' !! q = texts h !! q.
Proof. intros [_ H] Hq. rewrite H. destruct (decide _); [contradiction | reflexivity]. Qed.

(** Freeing one block. *)
Lemma free_text_run h q : is_Some (texts h !! q) ->
  exists h', free_text (Some q) h = Ret (tt, h') /\ removed [] [q] h h'.
Proof.
  intros [t E]. cbn. rewrite E. eexists. split; [reflexivity|]. constructor; cbn; intros x.
  - destruct (decide _) as [H|]; [apply not_elem_of_nil in H; contradiction | reflexivity].
  - destruct (decide (x ∈ [q])) as [H|H]; rewrite list_elem_of_singleton in H.
    + subst. apply lookup_delete_eq.
    + apply lookup_delete_ne. congruence.
Qed.

Lemma free_node_run h a : is_Some (nodes h !! a) ->
  exists h', free_node (Some a) h = Ret (tt, h') /\ removed [a] [] h h'.
Proof.
  intros [t E]. cbn. rewrite E. eexists. split; [reflexivity|]. constructor; cbn; intros x.
  - destruct (decide (x ∈ [a])) as [H|H]; rewrite list_elem_of_singleton in H.
    + subst. apply lookup_delete_eq.
    + apply lookup_delete_ne. congruence.
  - destruct (decide _) as [H|]; [apply not_elem_of_nil in H; contradiction | reflexivity].
Qed.

(** Freeing a text if there is one and it is the item's own. *)
Lemma free_own_run h (keep : bool) (p : ptr) : (forall q, q ∈ (if keep then [] else option_list p) -> is_Some (texts h !! q)) ->
  exists h', (if negb keep && negb (is_null p) then free_text p else ret tt) h = Ret (tt, h') /\
    removed [] (if keep then [] else option_list p) h h'.
Proof.
  intros H. destruct keep; cbn [negb andb]; [exists h; split; [reflexivity | apply removed_refl]|].
  destruct p as [q|]; cbn [is_null negb option_list] in *; [|exists h; split; [reflexivity | apply removed_refl]].
  apply free_text_run, H. left.
Qed.

(** ** Deleting *)

(** The parts of a forest. *)
Lemma forest_cons h a n sub ts : nodes h !! a = Some n -> forest h (Tree a sub :: ts) ->
  nx (nodes h) a = Some (first ts) /\ (if is_ref n then sub = [] else n_child n = first sub) /\
  forest h sub /\ forest h ts /\ (a ∉ flat_map addrs sub) /\ (a ∉ flat_map addrs ts) /\
  (forall x, x ∈ flat_map addrs sub -> x ∉ flat_map addrs ts) /\
  NoDup (own_texts n ++ flat_map (texts_of (nodes h)) sub ++ flat_map (texts_of (nodes h)) ts) /\
  (forall q, q ∈ own_texts n -> is_Some (texts h !! q)).
Proof.
  intros E [[Hx Hc] Ho Hn Ht Ha]. apply Forall_cons in Ho as [(n' & E' & Hk & Hsc & Hso) Ho].
  rewrite E in E'. injection E' as <-. apply every_Forall in Hso.
  cbn [flat_map addrs texts_of] in *. rewrite E in Ht, Ha. rewrite <- app_assoc in Ht.
  rewrite <- app_comm_cons in Hn. apply NoDup_cons in Hn as [Hna Hn]. apply NoDup_app in Hn as (Hn1 & Hn2 & Hn3).
  rewrite not_elem_of_app in Hna. destruct Hna as [Ha1 Ha2].
  pose proof Ht as (_ & _ & (Ht1 & _ & Ht2)%NoDup_app)%NoDup_app.
  split_and!; auto; [constructor; auto | constructor; auto |]; intros q Hq; apply Ha; rewrite !elem_of_app; auto.
Qed.

Lemma forest_frame h h' ts : forest h ts ->
  (forall x, x ∈ flat_map addrs ts -> nodes h' !! x = nodes h !! x) ->
  (forall q, q ∈ flat_map (texts_of (nodes h)) ts -> texts h' !! q = texts h !! q) -> forest h' ts.
Proof.
  intros [H1 H2 H3 H4 H5] Hn Hq. destruct (owns_frame_all (nodes h) (nodes h') ts Hn) as [G1 G2].
  constructor; rewrite ?G2; auto.
  - eapply chained_frame; eauto.
  - intros q Hi. rewrite Hq by exact Hi. auto.
Qed.

Lemma nodup_app_not {X : Type} (l1 l2 : list X) x : NoDup (l1 ++ l2) -> x ∈ l1 -> x ∉ l2.
Proof. intros (_ & H & _)%NoDup_app. apply H. Qed.

(** The four blocks of one item. *)
Lemma delete_one h a n sub ts f :
  (forall h0, forest h0 sub -> exists h1, delete_items f (first sub) h0 = Ret (tt, h1) /\
     removed (flat_map addrs sub) (flat_map (texts_of (nodes h0)) sub) h0 h1) ->
  nodes h !! a = Some n -> forest h (Tree a sub :: ts) ->
  exists h', delete_items (S f) (Some a) h = delete_items f (first ts) h' /\
    removed (addrs (Tree a sub)) (texts_of (nodes h) (Tree a sub)) h h'.
Proof.
  intros IH E Hf. destruct (forest_cons h a n sub ts E Hf) as (Hx & Hk & Hs & _ & Ha1 & _ & _ & Hnd & Hal).
  cbn [delete_items]. rewrite (bind_Ret _ _ _ _ _ (deref_run _ _ _ E)).
  assert (Hnext : n_next n = first ts) by (unfold nx in Hx; rewrite E in Hx; injection Hx; auto).
  assert (H1 : exists h1, (if negb (flag (n_type n) cJSON_IsReference) && negb (is_null (n_child n))
      then delete_items f (n_child n) else ret tt) h = Ret (tt, h1) /\
    removed (flat_map addrs sub) (flat_map (texts_of (nodes h)) sub) h h1).
  { change (flag (n_type n) cJSON_IsReference) with (is_ref n). destruct (is_ref n); cbn [negb andb].
    - subst sub. exists h. split; [reflexivity | apply removed_refl].
    - rewrite Hk. destruct sub as [|s sub]; [exists h; split; [reflexivity | apply removed_refl]|]. apply IH, Hs. }
  destruct H1 as (h1 & E1 & R1). rewrite (bind_Ret _ _ _ _ _ E1).
  assert (En1 : nodes h1 !! a = Some n) by (rewrite (removed_keeps _ _ _ _ _ R1) by exact Ha1; exact E).
  rewrite (bind_Ret _ _ _ _ _ (deref_run _ _ _ En1)).
  change (flag (n_type n) cJSON_IsReference) with (is_ref n). change (flag (n_type n) cJSON_StringIsConst) with (is_const n).
  unfold own_texts in Hnd, Hal.
  set (v := if is_ref n then [] else option_list (n_valuestring n)) in *.
  set (s := if is_const n then [] else option_list (n_string n)) in *.
  pose proof Hnd as (Hvs & Hd & _)%NoDup_app.
  destruct (free_own_run h1 (is_ref n) (n_valuestring n)) as (h2 & E2 & R2).
  { intros q Hq. rewrite (removed_keeps_text _ _ _ _ _ R1); [apply Hal, elem_of_app; left; exact Hq|].
    intros Hi. apply (Hd q); rewrite elem_of_app; auto. }
  rewrite (bind_Ret _ _ _ _ _ E2).
  assert (En2 : nodes h2 !! a = Some n) by (rewrite (removed_keeps _ _ _ _ _ R2) by apply not_elem_of_nil; exact En1).
  rewrite (bind_Ret _ _ _ _ _ (deref_run _ _ _ En2)).
  destruct (free_own_run h2 (is_const n) (n_string n)) as (h3 & E3 & R3).
  { intros q Hq. rewrite (removed_keeps_text _ _ _ _ _ R2), (removed_keeps_text _ _ _ _ _ R1).
    - apply Hal, elem_of_app. right. exact Hq.
    - intros Hi. apply (Hd q); rewrite elem_of_app; auto.
    - intros Hi. apply (nodup_app_not v s q Hvs); assumption. }
  change (flag (n_type n) cJSON_StringIsConst) with (is_const n). rewrite (bind_Ret _ _ _ _ _ E3).
  destruct (free_node_run h3 a) as (h4 & E4 & R4).
  { rewrite (removed_keeps _ _ _ _ _ R3) by apply not_elem_of_nil. eauto. }
  rewrite (bind_Ret _ _ _ _ _ E4), Hnext. exists h4. split; [reflexivity|].
  pose proof (removed_trans _ _ _ _ _ _ _ (removed_trans _ _ _ _ _ _ _ (removed_trans _ _ _ _ _ _ _ R1 R2) R3) R4) as R.
  eapply removed_same; [| |exact R]; intros x; cbn [addrs texts_of]; rewrite ?E; unfold own_texts; fold v s;
    rewrite ?elem_of_cons, ?elem_of_app, ?list_elem_of_singleton; pose proof (not_elem_of_nil x); tauto.
Qed.

Lemma delete_forest f : forall ts h, forest h ts -> (length (flat_map addrs ts) < f)%nat ->
  exists h', delete_items f (first ts) h = Ret (tt, h') /\
    removed (flat_map addrs ts) (flat_map (texts_of (nodes h)) ts) h h'.
Proof.
  induction f as [|f IH]; intros ts h Hf Hl; [lia|].
  destruct ts as [|[a sub] ts]; [exists h; split; [reflexivity | apply removed_refl]|].
  pose proof (forest_owns _ _ Hf) as Ho. apply Forall_cons in Ho as [(n & E & _) _].
  destruct (forest_cons h a n sub ts E Hf) as (_ & _ & _ & Hts & _ & Ha2 & Hd & Hnd & _).
  cbn [flat_map addrs length] in Hl. rewrite length_app in Hl. cbn [length] in Hl.
  destruct (delete_one h a n sub ts f) as (h1 & E1 & R1);
    [intros h0 H0; apply IH; [exact H0 | lia] | exact E | exact Hf |].
  cbn [first head fmap option_fmap option_map root]. rewrite E1.
  assert (Hfr : forall x, x ∈ flat_map addrs ts -> nodes h1 !! x = nodes h !! x).
  { intros x Hx. apply (removed_keeps _ _ _ _ _ R1). cbn [addrs]. apply not_elem_of_cons.
    split; [intros ->; contradiction|]. intros Hi. apply (Hd x Hi Hx). }
  assert (Hts1 : forest h1 ts).
  { eapply forest_frame; [exact Hts | exact Hfr|]. intros q Hq. apply (removed_keeps_text _ _ _ _ _ R1).
    cbn [texts_of]. rewrite E. intros Hi. revert Hq. rewrite app_assoc in Hnd. apply (nodup_app_not _ _ _ Hnd Hi). }
  destruct (IH ts h1 Hts1 ltac:(lia)) as (h2 & E2 & R2). exists h2. split; [exact E2|].
  destruct (owns_frame_all (nodes h) (nodes h1) ts Hfr) as [_ Ht]. rewrite Ht in R2.
  exact (removed_trans _ _ _ _ _ _ _ R1 R2).
Qed.

Lemma forest_size h ts : forest h ts -> (length (flat_map addrs ts) < fuel_of h)%nat.
Proof.
  intros H. unfold fuel_of. apply Nat.lt_succ_r, nodup_size; [apply H|].
  intros x Hx. apply elem_of_flat in Hx as (t & Ht & Hx).
  pose proof (forest_owns _ _ H) as Ho. rewrite Forall_forall in Ho. eapply owns_Some; eauto.
Qed.

Lemma delete_run h ts : forest h ts ->
  exists h', cJSON_Delete (first ts) h = Ret (tt, h') /\
    removed (flat_map addrs ts) (flat_map (texts_of (nodes h)) ts) h h'.
Proof. intros H. apply delete_forest; [exact H | apply forest_size, H]. Qed.
End Own.
