(* ===== verification/JsonCopy.v ===== *)
(** * JSON items in memory: [cJSON_Duplicate]

    The copy has the value of the original and owns only blocks that were not
    in use; when the allocator fails on the way, everything allocated so far is
    freed again. *)

From stdpp Require Import gmap.
From S2P Require Import Prelude JsonText JsonPrint JsonHeap JsonTree JsonOwn.

Local Open Scope Z_scope.

Section Value.
Context `{D : CDouble}.
Implicit Types (m : gmap addr node) (h : heap) (t : tree) (ts : list tree) (ns qs : list addr).

(** ** The value of a tree *)
Definition string_at h (p : ptr) : option (list Z) :=
  match p with Some q => cstr <$> texts h !! q | None => None end.

(** The item, as the parser makes it and the printer prints it; strings as C
    programs see them. *)
Fixpoint value h t : item :=
  let '(Tree a ts) := t in
  match nodes h !! a with
  | Some n => mkItem (n_type n) (string_at h (n_valuestring n)) (n_valueint n) (n_valuedouble n)
                     (string_at h (n_string n)) (map (value h) ts)
  | None => item0
  end.

(** Without the marks of references. *)
Fixpoint unref (it : item) : item :=
  match it with
  | mkItem ty vs vi vd nm l => mkItem (Z.land ty (Z.lnot cJSON_IsReference)) vs vi vd nm (map unref l)
  end.

Definition text_ok h (p : ptr) : Prop := forall q, p = Some q -> is_Some (texts h !! q).

(** The strings of the tree are in memory. *)
Fixpoint valid h t : Prop :=
  let '(Tree a ts) := t in
  (exists n, nodes h !! a = Some n /\ text_ok h (n_valuestring n) /\ text_ok h (n_string n)) /\ every (valid h) ts.

(** The items are linked as the tree says. *)
Fixpoint shaped m t : Prop :=
  let '(Tree a ts) := t in ch m a = Some (first ts) /\ chained m ts /\ every (shaped m) ts.

(** No text that was there has changed. *)
Definition texts_kept h h' : Prop := forall q, is_Some (texts h !! q) -> texts h' !! q = texts h !! q.

Lemma texts_kept_refl h : texts_kept h h.
Proof. intros q _. reflexivity. Qed.

Lemma texts_kept_trans h1 h2 h3 : texts_kept h1 h2 -> texts_kept h2 h3 -> texts_kept h1 h3.
Proof. intros H G q Hq. rewrite G; [apply H, Hq|]. rewrite H by exact Hq. exact Hq. Qed.

Lemma text_ok_kept h h' p : texts_kept h h' -> text_ok h p -> text_ok h' p.
Proof. intros H Hp q ->. rewrite H by (apply Hp; reflexivity). apply Hp. reflexivity. Qed.

Lemma string_at_kept h h' p : texts_kept h h' -> text_ok h p -> string_at h' p = string_at h p.
Proof.
  intros H Hp. destruct p as [q|]; [|reflexivity]. cbn. rewrite H by (apply Hp; reflexivity). reflexivity.
Qed.

(** ** Changing links *)

(** The trees look the same: contents and children everywhere, and the chain
    below the root. *)
Record agrees m m' t : Prop := {
  agrees_payload : forall x, x ∈ addrs t -> payload <$> m' !! x = payload <$> m !! x;
  agrees_child : forall x, x ∈ addrs t -> ch m' x = ch m x;
  agrees_next : forall x, x ∈ flat_map addrs (subtrees t) -> nx m' x = nx m x
}.

Lemma agrees_sub m m' a ts t : agrees m m' (Tree a ts) -> t ∈ ts -> agrees m m' t.
Proof.
  intros [H1 H2 H3] Ht. assert (Hin : forall x, x ∈ addrs t -> x ∈ flat_map addrs ts).
  { intros x Hx. apply elem_of_flat. eauto. }
  constructor; intros x Hx.
  - apply H1. right. auto.
  - apply H2. right. auto.
  - apply H3, Hin. destruct t as [b us]. right. exact Hx.
Qed.

Lemma payload_eq (n n' : node) : payload n' = payload n ->
  n_type n' = n_type n /\ n_valuestring n' = n_valuestring n /\ n_valueint n' = n_valueint n /\
  n_valuedouble n' = n_valuedouble n /\ n_string n' = n_string n.
Proof. unfold payload. intros [=]. auto. Qed.

Lemma agrees_root m m' a ts n : agrees m m' (Tree a ts) -> m !! a = Some n ->
  exists n', m' !! a = Some n' /\ payload n' = payload n /\ n_child n' = n_child n.
Proof.
  intros H E. pose proof (agrees_payload _ _ _ H a ltac:(left)) as H1.
  pose proof (agrees_child _ _ _ H a ltac:(left)) as H2. unfold ch in H2. rewrite E in H1, H2.
  destruct (m' !! a) as [n'|]; [|discriminate]. injection H1 as H1. injection H2 as H2.
  exists n'. unfold payload. split; [reflexivity|]. split; congruence.
Qed.

Lemma chained_agrees m m' ts : (forall x, x ∈ flat_map addrs ts -> nx m' x = nx m x) -> chained m ts -> chained m' ts.
Proof.
  induction ts as [|t ts IH]; cbn [chained flat_map]; [auto|]. intros H [H1 H2]. split.
  - rewrite H by (apply elem_of_app; left; apply root_addrs). exact H1.
  - apply IH; [|exact H2]. intros x Hx. apply H, elem_of_app. right. exact Hx.
Qed.

Lemma own_texts_payload (n n' : node) : payload n' = payload n ->
  own_texts n' = own_texts n /\ is_ref n' = is_ref n.
Proof.
  intros H. apply payload_eq in H as (H1 & H2 & _ & _ & H3). unfold own_texts, is_ref, is_const.
  rewrite H1, H2, H3. auto.
Qed.

(** An induction over the subtrees, for facts that agreeing memories share. *)
Lemma agrees_texts m m' t : agrees m m' t -> texts_of m' t = texts_of m t.
Proof.
  induction t as [a ts IH] using tree_induction. intros H. cbn [texts_of]. f_equal.
  - destruct (m !! a) as [n|] eqn:E.
    + destruct (agrees_root _ _ _ _ _ H E) as (n' & -> & Hp & _). apply own_texts_payload, Hp.
    + pose proof (agrees_payload _ _ _ H a ltac:(left)) as Hp. rewrite E in Hp.
      destruct (m' !! a); [discriminate | reflexivity].
  - assert (Hs : forall t, t ∈ ts -> agrees m m' t) by (intros; eapply agrees_sub; eauto). clear H.
    induction IH as [|t ts Ht _ IHts]; [reflexivity|]. cbn [flat_map]. f_equal.
    + apply Ht, Hs. left.
    + apply IHts. intros t' Ht'. apply Hs. right. exact Ht'.
Qed.

Lemma agrees_owns m m' t : agrees m m' t -> owns m t -> owns m' t.
Proof.
  induction t as [a ts IH] using tree_induction. intros H (n & E & Hk & Hc & Ho). cbn [owns].
  destruct (agrees_root _ _ _ _ _ H E) as (n' & E' & Hp & Hch). exists n'.
  destruct (own_texts_payload n n' Hp) as [_ Hr]. rewrite Hr, Hch.
  split; [exact E'|]. split; [exact Hk|]. split; [apply (chained_agrees m); [apply (agrees_next _ _ _ H) | exact Hc]|].
  rewrite every_Forall in *. rewrite Forall_forall in *. intros t Ht. apply IH; [exact Ht | | auto].
  eapply agrees_sub; eauto.
Qed.

Lemma agrees_value h h' t : agrees (nodes h) (nodes h') t -> texts_kept h h' -> valid h t ->
  value h' t = value h t /\ valid h' t.
Proof.
  induction t as [a ts IH] using tree_induction. intros H Hk [(n & E & H1 & H2) Hv]. cbn [value valid].
  destruct (agrees_root _ _ _ _ _ H E) as (n' & E' & Hp & _).
  apply payload_eq in Hp as (P1 & P2 & P3 & P4 & P5). rewrite E, E', P1, P2, P3, P4, P5.
  rewrite !(string_at_kept h h') by assumption.
  assert (Hs : forall t, t ∈ ts -> value h' t = value h t /\ valid h' t).
  { rewrite every_Forall, Forall_forall in Hv. rewrite Forall_forall in IH. intros t Ht.
    apply IH; [exact Ht | eapply agrees_sub; eauto | exact Hk | auto]. }
  split.
  - f_equal. apply map_ext_in. intros t Ht. apply Hs, list_elem_of_In, Ht.
  - split; [exists n'; rewrite P2, P5; split; [reflexivity | split; eapply text_ok_kept; eauto]|].
    apply every_Forall, Forall_forall. intros t Ht. apply Hs, Ht.
Qed.

Lemma agrees_same m m' t : (forall x, x ∈ addrs t -> m' !! x = m !! x) -> agrees m m' t.
Proof.
  intros H. constructor; intros x Hx; unfold ch, nx; rewrite H; auto. destruct t. right. exact Hx.
Qed.

Lemma shaped_Some m t x : shaped m t -> x ∈ addrs t -> is_Some (m !! x).
Proof.
  induction t as [a ts IH] using tree_induction. cbn [addrs shaped]. intros (H1 & _ & Hs) Hx.
  apply elem_of_cons in Hx as [->|Hx]; [destruct (lookup_ch _ _ _ H1) as (n & E & _); eauto|].
  apply every_Forall in Hs. apply elem_of_flat in Hx as (t & Ht & Hx). rewrite Forall_forall in IH, Hs. eauto.
Qed.

Lemma shaped_same m m' t : (forall x, x ∈ addrs t -> m' !! x = m !! x) -> shaped m t -> shaped m' t.
Proof.
  induction t as [a ts IH] using tree_induction. cbn [addrs shaped]. intros H (H1 & H2 & H3).
  split; [unfold ch; rewrite H by left; exact H1|].
  split; [eapply chained_frame; [|exact H2]; intros x Hx; apply H; right; exact Hx|].
  rewrite every_Forall, Forall_forall in *. intros t Ht.
  apply IH; [exact Ht | | auto]. intros x Hx. apply H. right. apply elem_of_flat. eauto.
Qed.

(** ** New blocks *)
Record grown ns qs h h' : Prop := {
  grown_nodes : forall x, x ∉ ns -> nodes h' !! x = nodes h !! x;
  grown_texts : forall q, q ∉ qs -> texts h' !! q = texts h !! q;
  grown_new : forall x, x ∈ ns -> nodes h !! x = None;
  grown_new_text : forall q, q ∈ qs -> texts h !! q = None
}.

Lemma grown_kept ns qs h h' : grown ns qs h h' -> texts_kept h h'.
Proof.
  intros H q [t Et]. apply (grown_texts _ _ _ _ H). intros Hq.
  rewrite (grown_new_text _ _ _ _ H q Hq) in Et. discriminate.
Qed.

Lemma grown_node ns qs h h' x n : grown ns qs h h' -> nodes h !! x = Some n -> nodes h' !! x = Some n.
Proof.
  intros H E. rewrite (grown_nodes _ _ _ _ H); [exact E|]. intros Hx.
  rewrite (grown_new _ _ _ _ H x Hx) in E. discriminate.
Qed.

Definition same_memory h h' : Prop := (forall x, nodes h' !! x = nodes h !! x) /\ forall q, texts h' !! q = texts h !! q.

(** Removing exactly the new blocks. *)
Lemma grown_removed ns qs h h1 h2 : grown ns qs h h1 -> removed ns qs h1 h2 -> same_memory h h2.
Proof.
  intros [G1 G2 G3 G4] [R1 R2]. split; intros x; [rewrite R1 | rewrite R2]; destruct (decide _); auto; symmetry; auto.
Qed.

(** A tree of new blocks that owns them. *)
Record fresh h h' t : Prop := {
  fresh_grown : grown (addrs t) (texts_of (nodes h') t) h h';
  fresh_forest : forest h' [t]
}.

Lemma fresh_deleted h h1 t : fresh h h1 t ->
  exists h2, cJSON_Delete (Some (root t)) h1 = Ret (tt, h2) /\ same_memory h h2.
Proof.
  intros [Hg Hf]. destruct (delete_run h1 [t] Hf) as (h2 & E & R). exists h2. split; [exact E|].
  cbn [flat_map] in R. rewrite !app_nil_r in R. eapply grown_removed; eauto.
Qed.

(** Trees that were there before. *)
Lemma grown_readable ns qs h h' t : grown ns qs h h' -> shaped (nodes h) t -> valid h t ->
  shaped (nodes h') t /\ valid h' t /\ value h' t = value h t.
Proof.
  intros Hg Hs Hv. assert (Hsame : forall x, x ∈ addrs t -> nodes h' !! x = nodes h !! x).
  { intros x Hx. destruct (shaped_Some _ _ _ Hs Hx) as [n E]. rewrite E. eapply grown_node; eauto. }
  split; [eapply shaped_same; eauto|].
  destruct (agrees_value h h' t (agrees_same _ _ _ Hsame) (grown_kept _ _ _ _ Hg) Hv). auto.
Qed.
End Value.

(** ** One item *)
Section Leaf.
Context `{D : CDouble} `{HA : !HeapAlloc} `{HF : !HeapAllocFresh HA}.
Implicit Types (h : heap) (t : tree) (x a : addr) (n : node).

(** [malloc] does not fail. *)
Definition heap_plenty : Prop := forall h size, is_Some (malloc h size).

(** The only new item is [x], an item without children; the new texts are those
    it owns. *)
Record leaf h0 h1 x n : Prop := {
  leaf_nodes : forall y, nodes h1 !! y = if decide (y = x) then Some n else nodes h0 !! y;
  leaf_new : nodes h0 !! x = None;
  leaf_next : n_next n = None;
  leaf_child : n_child n = None;
  leaf_ref : is_ref n = false;
  leaf_texts : NoDup (own_texts n);
  leaf_own : forall q, q ∈ own_texts n -> texts h0 !! q = None /\ is_Some (texts h1 !! q);
  leaf_others : forall q, q ∉ own_texts n -> texts h1 !! q = texts h0 !! q
}.

Lemma leaf_at h0 h1 x n : leaf h0 h1 x n -> nodes h1 !! x = Some n.
Proof. intros H. rewrite (leaf_nodes _ _ _ _ H), decide_True by reflexivity. reflexivity. Qed.

Lemma leaf_old h0 h1 x n y m : leaf h0 h1 x n -> nodes h0 !! y = Some m -> nodes h1 !! y = Some m.
Proof.
  intros H E. rewrite (leaf_nodes _ _ _ _ H). destruct (decide (y = x)) as [->|]; [|exact E].
  rewrite (leaf_new _ _ _ _ H) in E. discriminate.
Qed.

Lemma leaf_kept h0 h1 x n : leaf h0 h1 x n -> texts_kept h0 h1.
Proof.
  intros H q [t Et]. apply (leaf_others _ _ _ _ H). intros Hq.
  destruct (leaf_own _ _ _ _ H q Hq) as [E _]. congruence.
Qed.

Lemma leaf_fresh h0 h1 x n : leaf h0 h1 x n -> fresh h0 h1 (Tree x []).
Proof.
  intros H. pose proof (leaf_at _ _ _ _ H) as E. destruct H as [H1 H2 H3 H4 H5 H6 H7 H8].
  assert (Ht : texts_of (nodes h1) (Tree x []) = own_texts n) by (cbn; rewrite E; apply app_nil_r).
  constructor.
  - rewrite Ht. constructor; [| exact H8 | | intros q Hq; apply H7, Hq].
    + intros y Hy. rewrite H1, decide_False; [reflexivity|]. intros ->. apply Hy. left.
    + intros y Hy. apply list_elem_of_singleton in Hy as ->. exact H2.
  - constructor; cbn [flat_map]; rewrite ?app_nil_r, ?Ht; auto.
    + cbn. split; [|exact I]. unfold nx. rewrite E. cbn. rewrite H3. reflexivity.
    + constructor; [|constructor]. cbn [owns]. exists n. rewrite H5, H4. split_and!; [exact E | reflexivity | exact I | exact I].
    + apply NoDup_singleton.
    + intros q Hq. apply H7, Hq.
Qed.

Lemma new_item_run h : exists r h1, cJSON_New_Item h = Ret (r, h1) /\
  match r with None => same_memory h h1 | Some x => leaf h h1 x node0 end.
Proof.
  unfold cJSON_New_Item. destruct (malloc h sizeof_cJSON) as [x|] eqn:E.
  - apply heap_malloc_fresh in E as [E1 _]. do 2 eexists. split; [reflexivity|].
    constructor; cbn; auto; [| apply NoDup_nil_2 | intros q Hq; apply not_elem_of_nil in Hq; contradiction].
    intros y. destruct (decide (y = x)) as [->|]; [apply lookup_insert_eq | apply lookup_insert_ne; congruence].
  - do 2 eexists. split; [reflexivity|]. split; reflexivity.
Qed.

(** Assigning to its members. *)
Lemma leaf_modify h0 h1 x n (f : node -> node) : leaf h0 h1 x n ->
  n_next (f n) = n_next n -> n_child (f n) = n_child n -> is_ref (f n) = false -> own_texts (f n) = own_texts n ->
  exists h2, modify (Some x) f h1 = Ret (tt, h2) /\ leaf h0 h2 x (f n) /\ texts h2 = texts h1.
Proof.
  intros H F1 F2 F3 F4. pose proof (leaf_at _ _ _ _ H) as E. eexists. split; [apply modify_run; eauto|].
  split; [|reflexivity]. destruct H as [H1 H2 H3 H4 H5 H6 H7 H8].
  constructor; rewrite ?F4, ?F1, ?F2; auto. intros y. cbn. rewrite lookup_alter_dec.
  destruct (decide (x = y)) as [->|]; [rewrite E, decide_True by reflexivity; reflexivity|].
  rewrite H1, decide_False by congruence. rewrite decide_False by congruence. reflexivity.
Qed.

Lemma strdup_run h q s : texts h !! q = Some s ->
  exists r h1, cJSON_strdup (Some q) h = Ret (r, h1) /\ nodes h1 = nodes h /\
    match r with
    | None => texts h1 = texts h /\ ~ heap_plenty
    | Some q' => texts h !! q' = None /\ texts h1 = <[q' := cstr s]> (texts h)
    end.
Proof.
  intros E. cbn [cJSON_strdup]. rewrite (bind_Ret _ _ _ _ _ (text_run h q s E)).
  destruct (malloc h (S (length (cstr s)))) as [q'|] eqn:Em; do 2 eexists; (split; [reflexivity|]).
  - apply heap_malloc_fresh in Em as [_ Em]. auto.
  - split; [reflexivity|]. split; [reflexivity|]. intros Hp. destruct (Hp h (S (length (cstr s)))). congruence.
Qed.

(** Copying a string into a member that is still empty. *)
Lemma leaf_strdup h0 h1 x n q s (g : ptr -> node -> node) : leaf h0 h1 x n -> texts h1 !! q = Some s ->
  (forall r, n_next (g r n) = n_next n /\ n_child (g r n) = n_child n /\ is_ref (g r n) = false /\
     own_texts (g r n) ≡ₚ option_list r ++ own_texts n) ->
  exists r h2, (let* copy := cJSON_strdup (Some q) in modify (Some x) (g copy) ;; ret (negb (is_null copy))) h1
      = Ret (negb (is_null r), h2) /\ leaf h0 h2 x (g r n) /\ texts_kept h1 h2 /\
    (forall q', r = Some q' -> texts h2 !! q' = Some (cstr s)) /\ (r = None -> ~ heap_plenty).
Proof.
  intros H Es Hg. destruct (strdup_run h1 q s Es) as (r & h2 & E & En & Hr). exists r.
  destruct (Hg r) as (G1 & G2 & G3 & G4). pose proof (leaf_at _ _ _ _ H) as Ex.
  rewrite (bind_Ret _ _ _ _ _ E). eexists. split.
  { rewrite modify_step by (rewrite En; eauto). reflexivity. }
  destruct H as [H1 H2 H3 H4 H5 H6 H7 H8].
  assert (Hnew : forall q', r = Some q' -> (q' ∉ own_texts n) /\ texts h0 !! q' = None /\ texts h2 !! q' = Some (cstr s)).
  { intros q' ->. destruct Hr as [Hr1 Hr2]. assert (Hq : q' ∉ own_texts n).
    { intros Hq. destruct (H7 q' Hq) as [_ [u Eu]]. congruence. }
    split; [exact Hq|]. rewrite <- (H8 q' Hq). split; [exact Hr1|]. rewrite Hr2. apply lookup_insert_eq. }
  assert (Hold : forall q', r <> Some q' -> texts h2 !! q' = texts h1 !! q').
  { intros q' Hq. destruct r as [q1|]; [|rewrite (proj1 Hr); reflexivity]. destruct Hr as [_ ->].
    apply lookup_insert_ne. congruence. }
  assert (Hnd : NoDup (own_texts (g r n))).
  { rewrite G4. destruct r as [q'|]; [|exact H6]. apply NoDup_cons. split; [apply Hnew; reflexivity | exact H6]. }
  split; [|split; [|split]].
  - constructor; cbn [nodes texts set_nodes]; rewrite ?G1, ?G2; auto.
    + intros y. rewrite En, lookup_alter_dec. destruct (decide (x = y)) as [->|].
      * rewrite Ex, decide_True by reflexivity. reflexivity.
      * rewrite H1, !decide_False by congruence. reflexivity.
    + intros q' Hq. rewrite G4, elem_of_app in Hq. destruct (decide (r = Some q')) as [Er|Er].
      * destruct (Hnew q' Er) as (_ & N1 & N2). eauto.
      * destruct Hq as [Hq|Hq]; [destruct r; cbn in Hq; [apply list_elem_of_singleton in Hq; congruence | apply not_elem_of_nil in Hq; contradiction]|].
        rewrite Hold by exact Er. auto.
    + intros q' Hq. rewrite G4, not_elem_of_app in Hq. destruct Hq as [Hq1 Hq2].
      rewrite Hold; [apply H8, Hq2|]. intros ->. apply Hq1. left.
  - intros q' [u Eu]. cbn. apply Hold. intros ->. destruct Hr. congruence.
  - intros q' Hq. apply (Hnew q' Hq).
  - intros ->. apply Hr.
Qed.

Lemma cstr_cstr s : cstr (cstr s) = cstr s.
Proof.
  induction s as [|c s IH]; [reflexivity|]. cbn [cstr]. destruct (c =? 0) eqn:E; [reflexivity|].
  cbn [cstr]. rewrite E, IH. reflexivity.
Qed.

Lemma ref_cleared ty : flag (Z.land ty (Z.lnot cJSON_IsReference)) cJSON_IsReference = false /\
  flag (Z.land ty (Z.lnot cJSON_IsReference)) cJSON_StringIsConst = flag ty cJSON_StringIsConst.
Proof.
  unfold flag. rewrite <- !Z.land_assoc.
  change (Z.land (Z.lnot cJSON_IsReference) cJSON_IsReference) with 0.
  change (Z.land (Z.lnot cJSON_IsReference) cJSON_StringIsConst) with cJSON_StringIsConst.
  rewrite Z.land_0_r. auto.
Qed.

(** The members of the copy. *)
Record copied h0 h2 (n n' : node) : Prop := {
  copied_type : n_type n' = Z.land (n_type n) (Z.lnot cJSON_IsReference);
  copied_int : n_valueint n' = n_valueint n;
  copied_double : n_valuedouble n' = n_valuedouble n;
  copied_value : string_at h2 (n_valuestring n') = string_at h0 (n_valuestring n);
  copied_name : string_at h2 (n_string n') = string_at h0 (n_string n);
  copied_value_ok : text_ok h2 (n_valuestring n');
  copied_name_ok : text_ok h2 (n_string n')
}.

Lemma string_copy h0 h2 q s q' : texts h0 !! q = Some s -> texts h2 !! q' = Some (cstr s) ->
  string_at h2 (Some q') = string_at h0 (Some q).
Proof. intros E E'. cbn. rewrite E, E'. cbn. rewrite cstr_cstr. reflexivity. Qed.

(** The string value. *)
Lemma copy_value_run h0 h1 x n vs : leaf h0 h1 x n -> n_valuestring n = None -> n_string n = None -> text_ok h0 vs ->
  exists ok h2 r, (if is_null vs then ret true
     else let* copy := cJSON_strdup vs in
          modify (Some x) (with_valuestring copy) ;; ret (negb (is_null copy))) h1 = Ret (ok, h2) /\
    leaf h0 h2 x (with_valuestring r n) /\
    (ok = true -> string_at h2 r = string_at h0 vs /\ text_ok h2 r) /\ (ok = false -> ~ heap_plenty).
Proof.
  intros H Hv Hs Hok. destruct vs as [q|]; cbn [is_null].
  - destruct (Hok q eq_refl) as [s Es].
    assert (Es1 : texts h1 !! q = Some s) by (rewrite (leaf_kept _ _ _ _ H) by eauto; exact Es).
    destruct (leaf_strdup h0 h1 x n q s with_valuestring H Es1) as (r & h2 & E & H2 & _ & Hr & Hf).
    { intros r. pose proof (leaf_ref _ _ _ _ H) as Hr. split_and!; try reflexivity; [exact Hr|].
      unfold own_texts. change (is_ref (with_valuestring r n)) with (is_ref n). rewrite Hr. cbn. rewrite Hv, Hs. reflexivity. }
    exists (negb (is_null r)), h2, r. split; [exact E|]. split; [exact H2|].
    destruct r as [q'|]; [|split; [discriminate | intros _; apply Hf; reflexivity]].
    split; [|discriminate]. intros _. specialize (Hr q' eq_refl).
    split; [eapply string_copy; eauto|]. intros q0 [= <-]. eauto.
  - exists true, h1, None. split; [reflexivity|].
    split; [|split; [intros _; split; [reflexivity | discriminate] | discriminate]].
    replace (with_valuestring None n) with n; [exact H|]. destruct n. cbn in Hv. subst. reflexivity.
Qed.

(** The name. *)
Lemma copy_name_run h0 h1 x n na : leaf h0 h1 x n -> n_string n = None -> is_const n = is_const na ->
  text_ok h0 (n_string na) ->
  exists ok h2 r, (if is_null (n_string na) then ret true
     else let* copy := copy_name na in
          modify (Some x) (with_string copy) ;; ret (negb (is_null copy))) h1 = Ret (ok, h2) /\
    leaf h0 h2 x (with_string r n) /\ texts_kept h1 h2 /\
    (ok = true -> string_at h2 r = string_at h0 (n_string na) /\ text_ok h2 r) /\ (ok = false -> ~ heap_plenty).
Proof.
  intros H Hs Hc Hok. destruct (n_string na) as [q|] eqn:Eq; cbn [is_null].
  2:{ exists true, h1, None. split; [reflexivity|]. split; [|split; [apply texts_kept_refl | split; [intros _; split; [reflexivity | discriminate] | discriminate]]].
      replace (with_string None n) with n; [exact H|]. destruct n. cbn in Hs. subst. reflexivity. }
  destruct (Hok q eq_refl) as [s Es].
  assert (Es1 : texts h1 !! q = Some s) by (rewrite (leaf_kept _ _ _ _ H) by eauto; exact Es).
  unfold copy_name. change (flag (n_type na) cJSON_StringIsConst) with (is_const na). rewrite Eq.
  destruct (is_const na) eqn:Ec.
  - destruct (leaf_modify h0 h1 x n (with_string (Some q)) H) as (h2 & E & H2 & Et); try reflexivity.
    { apply (leaf_ref _ _ _ _ H). }
    { unfold own_texts. change (is_const (with_string (Some q) n)) with (is_const n). rewrite Hc. reflexivity. }
    exists true, h2, (Some q). split.
    { rewrite (bind_Ret (ret (Some q)) _ h1 (Some q) h1 eq_refl), (bind_Ret _ _ _ _ _ E). reflexivity. }
    split; [exact H2|]. split; [intros q0 _; rewrite Et; reflexivity|]. split; [|discriminate]. intros _. cbn. rewrite Et, Es1, Es.
    split; [reflexivity|]. intros q0 [= <-]. rewrite Et. eauto.
  - destruct (leaf_strdup h0 h1 x n q s with_string H Es1) as (r & h2 & E & H2 & Hk & Hr & Hf).
    { intros r. split_and!; try reflexivity; [apply (leaf_ref _ _ _ _ H)|].
      unfold own_texts. change (is_const (with_string r n)) with (is_const n). rewrite Hc. cbn.
      change (is_ref (with_string r n)) with (is_ref n). rewrite Hs. cbn. rewrite app_nil_r. apply Permutation_app_comm. }
    exists (negb (is_null r)), h2, r. split; [exact E|]. split; [exact H2|]. split; [exact Hk|].
    destruct r as [q'|]; [|split; [discriminate | intros _; apply Hf; reflexivity]].
    split; [|discriminate]. intros _. specialize (Hr q' eq_refl).
    split; [eapply string_copy; eauto|]. intros q0 [= <-]. eauto.
Qed.

Lemma copy_members_run h0 h1 x a na : leaf h0 h1 x node0 -> nodes h0 !! a = Some na ->
  text_ok h0 (n_valuestring na) -> text_ok h0 (n_string na) ->
  exists ok h2 n2, copy_members (Some x) (Some a) h1 = Ret (ok, h2) /\ leaf h0 h2 x n2 /\
    (ok = true -> copied h0 h2 na n2) /\ (ok = false -> ~ heap_plenty).
Proof.
  intros H Ea Hv Hs. unfold copy_members.
  rewrite (bind_Ret _ _ _ _ _ (deref_run _ _ _ (leaf_old _ _ _ _ _ _ H Ea))).
  set (f := fun m : node => with_number _ _ _). destruct (ref_cleared (n_type na)) as [Hr Hc].
  destruct (leaf_modify h0 h1 x node0 f H) as (h2 & E & H2 & _); try reflexivity; [exact Hr | |].
  { unfold own_texts. cbn. destruct (is_ref (f node0)), (is_const (f node0)); reflexivity. }
  rewrite (bind_Ret _ _ _ _ _ E). set (n1 := f node0) in *.
  destruct (copy_value_run h0 h2 x n1 (n_valuestring na) H2 eq_refl eq_refl Hv) as (ok & h3 & r & E3 & H3 & Hok & Hf).
  rewrite (bind_Ret _ _ _ _ _ E3). destruct ok; cbn [negb].
  2:{ exists false, h3, (with_valuestring r n1). split; [reflexivity|]. split; [exact H3|]. split; [discriminate | auto]. }
  destruct (Hok eq_refl) as [V1 V2].
  destruct (copy_name_run h0 h3 x _ na H3 eq_refl Hc Hs) as (ok & h4 & r' & E4 & H4 & Hk & Hok' & Hf').
  exists ok, h4, (with_string r' (with_valuestring r n1)). split; [exact E4|]. split; [exact H4|].
  split; [|exact Hf']. intros ->. destruct (Hok' eq_refl) as [S1 S2]. constructor; try reflexivity; cbn; auto.
  - rewrite (string_at_kept h3 h4) by assumption. exact V1.
  - eapply text_ok_kept; eauto.
Qed.
End Leaf.

(** ** Attaching a copied child *)
Lemma last_in_list {X : Type} (l : list X) z : last l = Some z -> z ∈ l.
Proof. apply last_Some_elem_of. Qed.

Section Attach.
Context `{D : CDouble}.
Implicit Types (m : gmap addr node) (h : heap) (t : tree) (ts ds : list tree) (x : addr).

Definition attached m x ds t : gmap addr node :=
  match last ds with
  | None => alter (with_child (Some (root t))) x m
  | Some z => alter (with_prev (Some (root z))) (root t) (alter (with_next (Some (root t))) (root z) m)
  end.

Lemma attach_run h x ds t : is_Some (nodes h !! x) -> is_Some (nodes h !! root t) ->
  (forall z, last ds = Some z -> is_Some (nodes h !! root z)) ->
  (if negb (is_null (root <$> last ds)) then
     modify (root <$> last ds) (with_next (Some (root t))) ;; modify (Some (root t)) (with_prev (root <$> last ds))
   else modify (Some x) (with_child (Some (root t)))) h = Ret (tt, set_nodes h (attached (nodes h) x ds t)).
Proof.
  intros Hx Ht Hz. unfold attached. destruct (last ds) as [z|]; cbn [fmap option_fmap option_map is_null negb].
  - rewrite modify_step by (apply Hz; reflexivity). rewrite modify_run; [reflexivity|]. cbn. apply alter_Some, Ht.
  - apply modify_run, Hx.
Qed.

Lemma attached_payload m x ds t y : payload <$> attached m x ds t !! y = payload <$> m !! y.
Proof. unfold attached. destruct (last ds); rewrite !payload_alter by reflexivity; reflexivity. Qed.

Lemma attached_ch m x ds t y : y <> x -> ch (attached m x ds t) y = ch m y.
Proof. intros H. unfold attached. destruct (last ds); links; [reflexivity|]. rewrite decide_False by congruence. reflexivity. Qed.

Lemma attached_nx m x ds t y : (forall z, last ds = Some z -> y <> root z) -> nx (attached m x ds t) y = nx m y.
Proof.
  intros H. unfold attached. destruct (last ds) as [z|]; links; [|reflexivity].
  rewrite decide_False; [reflexivity|]. intros E. exact (H z eq_refl (eq_sym E)).
Qed.

Lemma attached_other m x ds t y : y <> x -> y <> root t -> (forall z, last ds = Some z -> y <> root z) ->
  attached m x ds t !! y = m !! y.
Proof.
  intros Hx Ht Hz. unfold attached. destruct (last ds) as [z|]; rewrite !lookup_alter_ne; auto.
  intros E. apply (Hz z eq_refl). auto.
Qed.

Lemma attached_agrees m x ds t d : x ∉ addrs d ->
  (forall z, last ds = Some z -> root z ∉ flat_map addrs (subtrees d)) -> agrees m (attached m x ds t) d.
Proof.
  intros Hx Hz. constructor; intros y Hy.
  - apply attached_payload.
  - apply attached_ch. intros ->. contradiction.
  - apply attached_nx. intros z Ez ->. exact (Hz z Ez Hy).
Qed.

Lemma chained_snoc m m' ts t : NoDup (map root ts) -> chained m ts ->
  (forall y, y ∈ map root ts -> (forall z, last ts = Some z -> y <> root z) -> nx m' y = nx m y) ->
  (forall z, last ts = Some z -> nx m' (root z) = Some (Some (root t))) -> nx m' (root t) = Some None ->
  chained m' (ts ++ [t]).
Proof.
  induction ts as [|s ts IH]; intros Hnd Hc Hn Hl Ht; cbn [app chained]; [auto|].
  cbn [map] in *. apply NoDup_cons in Hnd as [Hs Hnd]. destruct Hc as [H1 H2]. split.
  - destruct ts as [|u ts]; [apply Hl; reflexivity|]. rewrite Hn; [exact H1 | left |].
    intros z Ez E. apply Hs. rewrite E. apply list_elem_of_fmap. exists z. split; [reflexivity | apply last_in_list, Ez].
  - apply IH; auto.
    + intros y Hy Hz. apply Hn; [right; exact Hy|]. intros z Ez. destruct ts; [apply not_elem_of_nil in Hy; contradiction | apply Hz, Ez].
    + intros z Ez. apply Hl. destruct ts; [discriminate | exact Ez].
Qed.

Lemma agrees_trans m1 m2 m3 t : agrees m1 m2 t -> agrees m2 m3 t -> agrees m1 m3 t.
Proof.
  intros [H1 H2 H3] [G1 G2 G3]. constructor; intros y Hy; [rewrite G1 by exact Hy | rewrite G2 by exact Hy | rewrite G3 by exact Hy]; auto.
Qed.

Lemma nodup_flat_inj {X Y : Type} (f : X -> list Y) l u v e :
  NoDup (flat_map f l) -> u ∈ l -> v ∈ l -> e ∈ f u -> e ∈ f v -> u = v.
Proof.
  induction l as [|w l IH]; cbn [flat_map]; [intros _ Hu; apply not_elem_of_nil in Hu; contradiction|].
  intros (N1 & N2 & N3)%NoDup_app Hu Hv He1 He2. apply elem_of_cons in Hu, Hv.
  assert (Hno : forall y, y ∈ l -> e ∈ f y -> e ∉ f w).
  { intros y Hy He Hw. apply (N2 e Hw), elem_of_flat. eauto. }
  destruct Hu as [->|Hu], Hv as [->|Hv]; auto; exfalso; eapply Hno; eauto.
Qed.

Lemma nodup_flat_elem {X Y : Type} (f : X -> list Y) l u : NoDup (flat_map f l) -> u ∈ l -> NoDup (f u).
Proof.
  induction l as [|w l IH]; cbn [flat_map]; [intros _ Hu; apply not_elem_of_nil in Hu; contradiction|].
  intros (N1 & _ & N3)%NoDup_app Hu. apply elem_of_cons in Hu as [->|Hu]; auto.
Qed.

(** No root lies below another tree of the list. *)
Lemma roots_apart ts d z : NoDup (flat_map addrs ts) -> d ∈ ts -> z ∈ ts -> root z ∉ flat_map addrs (subtrees d).
Proof.
  intros Hnd Hd Hz Hi. assert (E : d = z).
  { eapply (nodup_flat_inj addrs ts d z (root z) Hnd Hd Hz); [|apply root_addrs]. destruct d. right. exact Hi. }
  subst d. pose proof (nodup_flat_elem _ _ _ Hnd Hz) as Hn. destruct z as [b us]. cbn in *.
  apply NoDup_cons in Hn as [Hn _]. contradiction.
Qed.

Lemma nodup_roots ts : NoDup (flat_map addrs ts) -> NoDup (map root ts).
Proof.
  induction ts as [|t ts IH]; cbn [flat_map map]; [constructor|]. intros (N1 & N2 & N3)%NoDup_app.
  apply NoDup_cons. split; [|auto]. intros Hi. apply list_elem_of_fmap in Hi as (u & E & Hu).
  apply (N2 (root t) (root_addrs t)), elem_of_flat. exists u. split; [exact Hu|]. rewrite E. apply root_addrs.
Qed.

(** What is known of the pieces before they are put together. *)
Lemma attach_apart h0 h1 h2 x n ds t : fresh h0 h1 (Tree x ds) -> nodes h1 !! x = Some n -> fresh h1 h2 t ->
  (forall y, y ∈ addrs (Tree x ds) -> nodes h2 !! y = nodes h1 !! y) /\
  (forall y, y ∈ addrs (Tree x ds) -> y ∉ addrs t) /\ (x ∉ flat_map addrs ds) /\ NoDup (flat_map addrs ds) /\
  (forall d, d ∈ ds -> agrees (nodes h1) (attached (nodes h2) x ds t) d) /\
  agrees (nodes h2) (attached (nodes h2) x ds t) t.
Proof.
  intros [_ F1] Ex [G2 _]. pose proof (forest_owns _ _ F1) as Ho. apply Forall_cons in Ho as [Ho _].
  pose proof (forest_nodup _ _ F1) as Hn. cbn [flat_map] in Hn. rewrite app_nil_r in Hn. cbn [addrs] in Hn.
  apply NoDup_cons in Hn as [Hxd Hnd].
  assert (Hsome : forall y, y ∈ addrs (Tree x ds) -> is_Some (nodes h1 !! y)) by (intros y; apply owns_Some, Ho).
  assert (H21 : forall y, y ∈ addrs (Tree x ds) -> nodes h2 !! y = nodes h1 !! y).
  { intros y Hy. destruct (Hsome y Hy) as [m Em]. rewrite Em. eapply grown_node; eauto. }
  assert (Hd : forall y, y ∈ addrs (Tree x ds) -> y ∉ addrs t).
  { intros y Hy Ht. destruct (Hsome y Hy) as [m Em]. rewrite (grown_new _ _ _ _ G2 y Ht) in Em. discriminate. }
  split_and!; auto.
  - intros d Hds. assert (Hin : forall y, y ∈ addrs d -> y ∈ flat_map addrs ds) by (intros y Hy; apply elem_of_flat; eauto).
    eapply agrees_trans; [apply agrees_same; intros y Hy; apply H21; right; auto|].
    apply attached_agrees; [intros Hx; apply Hxd; auto|]. intros z Ez. apply roots_apart with ds; auto. apply last_in_list, Ez.
  - apply attached_agrees; [apply Hd; left|]. intros z Ez Hi. apply (Hd (root z)).
    + right. apply elem_of_flat. exists z. split; [apply last_in_list, Ez | apply root_addrs].
    + destruct t. right. exact Hi.
Qed.

Lemma first_snoc ds t : first (ds ++ [t]) = Some (default (root t) (first ds)).
Proof. destruct ds; reflexivity. Qed.

Lemma attached_chained h0 h1 h2 x n ds t : fresh h0 h1 (Tree x ds) -> nodes h1 !! x = Some n -> fresh h1 h2 t ->
  chained (attached (nodes h2) x ds t) (ds ++ [t]).
Proof.
  intros F1 Ex F2. destruct (attach_apart h0 h1 h2 x n ds t F1 Ex F2) as (H21 & Hd & Hxd & Hnd & _ & _).
  pose proof (forest_owns _ _ (fresh_forest _ _ _ F1)) as Ho. apply Forall_cons in Ho as [(n' & _ & _ & Hc & _) _].
  assert (Hin : forall y, y ∈ map root ds -> y ∈ flat_map addrs ds).
  { intros y (u & -> & Hu)%list_elem_of_fmap. apply elem_of_flat. exists u. split; [exact Hu | apply root_addrs]. }
  apply (chained_snoc (nodes h1)); [apply nodup_roots, Hnd | exact Hc | | |].
  - intros y Hy Hz. rewrite attached_nx by exact Hz. unfold nx. rewrite H21; [reflexivity|]. right. auto.
  - intros z Ez. unfold attached. rewrite Ez. links. rewrite decide_True by reflexivity. apply assigned.
    assert (Hz : root z ∈ addrs (Tree x ds)).
    { right. apply Hin, list_elem_of_fmap. exists z. split; [reflexivity | apply last_in_list, Ez]. }
    rewrite H21 by exact Hz. pose proof (forest_owns _ _ (fresh_forest _ _ _ F1)) as Ho.
    apply Forall_cons in Ho as [Ho _]. eapply owns_Some; eauto.
  - rewrite attached_nx.
    + apply (forest_chained _ _ (fresh_forest _ _ _ F2)).
    + intros z Ez E. apply (Hd (root z)); [|rewrite <- E; apply root_addrs].
      right. apply Hin, list_elem_of_fmap. exists z. split; [reflexivity | apply last_in_list, Ez].
Qed.

Lemma attached_root h0 h1 h2 x n ds t : fresh h0 h1 (Tree x ds) -> nodes h1 !! x = Some n -> is_ref n = false ->
  fresh h1 h2 t -> exists n3, attached (nodes h2) x ds t !! x = Some n3 /\ payload n3 = payload n /\
    n_child n3 = first (ds ++ [t]) /\ n_next n3 = None.
Proof.
  intros F1 Ex Hr F2. destruct (attach_apart h0 h1 h2 x n ds t F1 Ex F2) as (H21 & Hd & Hxd & _).
  pose proof (fresh_forest _ _ _ F1) as Fo. pose proof (forest_owns _ _ Fo) as Ho.
  apply Forall_cons in Ho as [(n' & En' & Hk & _) _]. rewrite Ex in En'. injection En' as <-. rewrite Hr in Hk.
  assert (Hx : nodes h2 !! x = Some n) by (rewrite H21 by left; exact Ex).
  assert (Hn : n_next n = None).
  { destruct (forest_chained _ _ Fo) as [Hc _]. unfold nx in Hc. cbn [root] in Hc. rewrite Ex in Hc. injection Hc. auto. }
  unfold attached. destruct (last ds) as [z|] eqn:Ez.
  - assert (Hzx : root z <> x).
    { intros E. apply Hxd, elem_of_flat. exists z. split; [apply last_in_list, Ez|]. rewrite <- E. apply root_addrs. }
    assert (Htx : root t <> x) by (intros E; apply (Hd x); [left | rewrite <- E; apply root_addrs]).
    exists n. rewrite !lookup_alter_ne by assumption. split_and!; auto.
    rewrite Hk. destruct ds; [discriminate | reflexivity].
  - exists (with_child (Some (root t)) n). rewrite lookup_alter_eq, Hx. split_and!; auto.
    apply last_None in Ez. subst ds. reflexivity.
Qed.

Lemma texts_snoc m x ds t n : m !! x = Some n ->
  texts_of m (Tree x (ds ++ [t])) = (own_texts n ++ flat_map (texts_of m) ds) ++ texts_of m t.
Proof. intros E. cbn [texts_of]. rewrite E, flat_map_app. cbn [flat_map]. rewrite app_nil_r, app_assoc. reflexivity. Qed.

Lemma addrs_snoc x ds t : addrs (Tree x (ds ++ [t])) = addrs (Tree x ds) ++ addrs t.
Proof. cbn [addrs]. rewrite flat_map_app. cbn [flat_map]. rewrite app_nil_r. reflexivity. Qed.

Lemma flat_map_same {X Y : Type} (f g : X -> list Y) l : (forall e, e ∈ l -> f e = g e) -> flat_map f l = flat_map g l.
Proof.
  induction l as [|e l IH]; intros H; cbn [flat_map]; [reflexivity|].
  rewrite H by left. rewrite IH; [reflexivity|]. intros y Hy. apply H. right. exact Hy.
Qed.

(** The texts of the whole are those of the two pieces. *)
Lemma attached_texts h0 h1 h2 x n ds t : fresh h0 h1 (Tree x ds) -> nodes h1 !! x = Some n -> is_ref n = false ->
  fresh h1 h2 t ->
  texts_of (attached (nodes h2) x ds t) (Tree x (ds ++ [t])) = texts_of (nodes h1) (Tree x ds) ++ texts_of (nodes h2) t.
Proof.
  intros F1 Ex Hr F2. destruct (attach_apart h0 h1 h2 x n ds t F1 Ex F2) as (_ & _ & _ & _ & Ad & At).
  destruct (attached_root h0 h1 h2 x n ds t F1 Ex Hr F2) as (n3 & E3 & Hp & _).
  rewrite (texts_snoc _ _ _ _ _ E3), (agrees_texts _ _ _ At). cbn [texts_of]. rewrite Ex.
  destruct (own_texts_payload _ _ Hp) as [-> _]. f_equal. f_equal.
  apply flat_map_same. intros d Hd. apply agrees_texts, Ad, Hd.
Qed.

Lemma attach_fresh h0 h1 h2 x n ds t : fresh h0 h1 (Tree x ds) -> nodes h1 !! x = Some n -> is_ref n = false ->
  fresh h1 h2 t -> fresh h0 (set_nodes h2 (attached (nodes h2) x ds t)) (Tree x (ds ++ [t])).
Proof.
  intros F1 Ex Hr F2. destruct (attach_apart h0 h1 h2 x n ds t F1 Ex F2) as (H21 & Hd & Hxd & Hnd & Ad & At).
  destruct (attached_root h0 h1 h2 x n ds t F1 Ex Hr F2) as (n3 & E3 & Hp & Hch & Hnx).
  pose proof (attached_texts h0 h1 h2 x n ds t F1 Ex Hr F2) as Htx.
  pose proof (attached_chained h0 h1 h2 x n ds t F1 Ex F2) as Hcs.
  destruct F1 as [[G1 G2 G3 G4] [C1 O1 N1 T1 A1]], F2 as [[K1 K2 K3 K4] [C2 O2 N2 T2 A2]].
  cbn [flat_map] in *. rewrite !app_nil_r in *.
  constructor; cbn [nodes texts set_nodes]; rewrite ?Htx, ?addrs_snoc.
  - constructor; cbn [nodes texts set_nodes].
    + intros y [Hy1 Hy2]%not_elem_of_app. rewrite attached_other, K1, G1; auto.
      * intros ->. apply Hy1. left.
      * intros ->. apply Hy2, root_addrs.
      * intros z Ez ->. apply Hy1. right. apply elem_of_flat. exists z. split; [apply last_in_list, Ez | apply root_addrs].
    + intros q [Hq1 Hq2]%not_elem_of_app. rewrite K2, G2; auto.
    + intros y [Hy|Hy]%elem_of_app; [auto|]. rewrite <- G1; [auto|]. intros Hi. exact (Hd y Hi Hy).
    + intros q [Hq|Hq]%elem_of_app; [auto|]. rewrite <- G2; [auto|]. intros Hi.
      destruct (A1 q Hi) as [u Eu]. rewrite (K4 q Hq) in Eu. discriminate.
  - constructor; cbn [nodes texts set_nodes flat_map]; rewrite ?app_nil_r, ?Htx.
    + cbn [chained root]. split; [|exact I]. unfold nx. rewrite E3. cbn. rewrite Hnx. reflexivity.
    + constructor; [|constructor]. cbn [owns]. exists n3. destruct (own_texts_payload _ _ Hp) as [_ ->]. rewrite Hr.
      split_and!; auto. apply every_Forall, Forall_app. split.
      * apply Forall_cons in O1 as [(n' & _ & _ & _ & Ho) _]. apply every_Forall in Ho.
        rewrite Forall_forall in *. intros d Hds. eapply agrees_owns; [apply Ad, Hds | auto].
      * constructor; [|constructor]. apply Forall_cons in O2 as [Ho _]. eapply agrees_owns; eauto.
    + rewrite addrs_snoc. apply NoDup_app. auto.
    + apply NoDup_app. split_and!; auto. intros q Hq Hq2. destruct (A1 q Hq) as [u Eu].
      rewrite (K4 q Hq2) in Eu. discriminate.
    + intros q [Hq|Hq]%elem_of_app; [|auto]. rewrite K2; [auto|]. intros Hq2. destruct (A1 q Hq) as [u Eu].
      rewrite (K4 q Hq2) in Eu. discriminate.
Qed.
End Attach.

(** ** The whole copy *)
Section Duplicate.
Context `{D : CDouble} `{HA : !HeapAlloc} `{HF : !HeapAllocFresh HA}.
Implicit Types (h : heap) (t : tree) (ts ds : list tree) (x : addr).

(** NULL and the memory as it was, or a new tree of the same value. *)
Definition copy_result h t (r : ptr) h' : Prop :=
  match r with
  | None => same_memory h h' /\ ~ heap_plenty
  | Some a => exists t', root t' = a /\ fresh h h' t' /\ valid h' t' /\ value h' t' = unref (value h t)
  end.

Definition duplicates f : Prop := forall h t, shaped (nodes h) t -> valid h t -> (2 * length (addrs t) <= f)%nat ->
  exists r h', duplicate f (Some (root t)) true h = Ret (r, h') /\ copy_result h t r h'.

(** The children [rs] are still to be copied to [x], which has the copies [ds]. *)
Definition duplicates_children f : Prop := forall h0 h1 x n ds rs,
  fresh h0 h1 (Tree x ds) -> nodes h1 !! x = Some n -> is_ref n = false -> Forall (valid h1) ds ->
  chained (nodes h0) rs -> Forall (shaped (nodes h0)) rs -> Forall (valid h0) rs ->
  (2 * length (flat_map addrs rs) + 1 <= f)%nat ->
  exists r h', duplicate_children f (Some x) (first rs) (root <$> last ds) h1 = Ret (r, h') /\
    match r with
    | None => same_memory h0 h' /\ ~ heap_plenty
    | Some a => a = x /\ exists ds' n', fresh h0 h' (Tree x ds') /\ nodes h' !! x = Some n' /\ payload n' = payload n /\
        texts_kept h1 h' /\ Forall (valid h') ds' /\
        map (value h') ds' = map (value h1) ds ++ map unref (map (value h0) rs)
    end.

Lemma same_memory_trans h1 h2 h3 : same_memory h1 h2 -> same_memory h2 h3 -> same_memory h1 h3.
Proof. intros [H1 H2] [G1 G2]. split; intros y; [rewrite G1 | rewrite G2]; auto. Qed.

(** The memory a failed copy leaves is as good as the one before. *)
Lemma fresh_same h0 h1 h2 t : fresh h0 h1 t -> same_memory h1 h2 -> fresh h0 h2 t.
Proof.
  intros [[G1 G2 G3 G4] F] [S1 S2].
  destruct (owns_frame (nodes h1) (nodes h2) t) as [_ Et]; [auto|].
  constructor; [rewrite Et; constructor; auto; intros y Hy; rewrite ?S1, ?S2; auto|].
  eapply forest_frame; eauto.
Qed.

Lemma fresh_Some h0 h1 t y : fresh h0 h1 t -> y ∈ addrs t -> is_Some (nodes h1 !! y).
Proof.
  intros [_ F] Hy. pose proof (forest_owns _ _ F) as Ho. apply Forall_cons in Ho as [Ho _]. eapply owns_Some; eauto.
Qed.

Lemma failed_run h0 h1 x ds : fresh h0 h1 (Tree x ds) ->
  exists h', duplicate_failed (Some x) h1 = Ret (None, h') /\ same_memory h0 h'.
Proof.
  intros F. destruct (fresh_deleted h0 h1 _ F) as (h2 & E & S). exists h2.
  split; [unfold duplicate_failed; rewrite (bind_Ret _ _ _ _ _ E); reflexivity | exact S].
Qed.

Lemma duplicates_children_S f : duplicates f -> duplicates_children f -> duplicates_children (S f).
Proof.
  intros IHt IHc h0 h1 x n ds rs F Ex Hr Hv Hc Hs Hvr Hf. cbn [duplicate_children].
  destruct rs as [|r rs].
  { exists (Some x), h1. split; [reflexivity|]. split; [reflexivity|]. exists ds, n. cbn. rewrite app_nil_r.
    split_and!; auto. apply texts_kept_refl. }
  cbn [first head fmap option_fmap option_map is_null flat_map chained] in *. rewrite length_app in Hf.
  destruct Hc as [Hx Hc]. apply Forall_cons in Hs as [Hs1 Hs], Hvr as [Hv1 Hvr].
  destruct (grown_readable _ _ _ _ r (fresh_grown _ _ _ F) Hs1 Hv1) as (Hs1' & Hv1' & Ev1).
  destruct (IHt h1 r Hs1' Hv1' ltac:(lia)) as ([a|] & h2 & E & R); rewrite (bind_Ret _ _ _ _ _ E); cbn [is_null].
  2:{ destruct R as [R Hp]. destruct (failed_run h0 h2 x ds (fresh_same _ _ _ _ F R)) as (h' & E' & S).
      exists None, h'. auto. }
  destruct R as (t' & <- & F2 & V2 & Ev). pose proof (fresh_grown _ _ _ F2) as G2.
  erewrite bind_Ret; [|apply (attach_run h2 x ds t')].
  2:{ exists n. eapply grown_node; eauto. }
  2:{ eapply fresh_Some; [exact F2 | apply root_addrs]. }
  2:{ intros z Ez. destruct (fresh_Some h0 h1 (Tree x ds) (root z) F) as [m Em]; [|exists m; eapply grown_node; eauto].
      right. apply elem_of_flat. exists z. split; [apply last_in_list, Ez | apply root_addrs]. }
  destruct (attach_apart h0 h1 h2 x n ds t' F Ex F2) as (_ & _ & _ & _ & Ad & At).
  destruct (attached_root h0 h1 h2 x n ds t' F Ex Hr F2) as (n3 & E3 & Hp3 & _).
  pose proof (attach_fresh h0 h1 h2 x n ds t' F Ex Hr F2) as F3.
  set (h3 := set_nodes h2 _) in *.
  assert (K : texts_kept h1 h3 /\ texts_kept h2 h3) by (split; [exact (grown_kept _ _ _ _ G2) | intros q _; reflexivity]).
  assert (Vds : forall d, d ∈ ds -> value h3 d = value h1 d /\ valid h3 d).
  { intros d Hd. rewrite Forall_forall in Hv. apply agrees_value; [apply Ad, Hd | apply K | apply Hv, Hd]. }
  destruct (agrees_value h2 h3 t' At (proj2 K) V2) as [Vt1 Vt2].
  destruct (lookup_nx _ _ _ Hx) as (nr & Er & Enx).
  rewrite (bind_Ret _ _ _ _ _ (deref_run _ _ _ (grown_node _ _ _ _ _ _ (fresh_grown _ _ _ F3) Er))), Enx.
  destruct (own_texts_payload _ _ Hp3) as [_ Hr3]. rewrite Hr in Hr3.
  replace (Some (root t')) with (root <$> last (ds ++ [t'])) by (rewrite last_snoc; reflexivity).
  destruct (IHc h0 h3 x n3 (ds ++ [t']) rs F3 E3 Hr3) as (res & h' & E' & R'); auto.
  { apply Forall_app. split; [apply Forall_forall; apply Vds | constructor; [exact Vt2 | constructor]]. }
  { pose proof (root_addrs r). destruct (addrs r); [apply not_elem_of_nil in H; contradiction | cbn [length] in *; lia]. }
  exists res, h'. split; [exact E'|]. destruct res as [a|]; [|exact R'].
  destruct R' as (-> & ds' & n' & F' & En' & Hp' & K' & V' & M'). split; [reflexivity|].
  exists ds', n'. split_and!; auto; [congruence | eapply texts_kept_trans; [apply K | exact K']|].
  rewrite M', map_app, <- app_assoc. cbn [map app]. rewrite Vt1, Ev, Ev1. f_equal.
  apply map_ext_in. intros d Hd. apply Vds, list_elem_of_In, Hd.
Qed.

Lemma duplicates_S f : duplicates_children f -> duplicates (S f).
Proof.
  intros IHc h [a ts] Hs Hv Hf. cbn [duplicate root is_null].
  destruct (new_item_run h) as ([x|] & h1 & E & L); rewrite (bind_Ret _ _ _ _ _ E); cbn [is_null].
  2:{ exists None, h1. split; [reflexivity|]. split; [exact L|]. intros Hp.
      unfold cJSON_New_Item in E. destruct (Hp h sizeof_cJSON) as [y Ey]. rewrite Ey in E. discriminate. }
  cbn [shaped valid] in Hs, Hv. destruct Hs as (Hc & Hch & Hs), Hv as [(na & Ea & O1 & O2) Hv].
  destruct (copy_members_run h h1 x a na L Ea O1 O2) as (ok & h2 & n2 & E2 & L2 & Hok & Hf2).
  rewrite (bind_Ret _ _ _ _ _ E2). pose proof (leaf_fresh _ _ _ _ L2) as F2.
  destruct ok; cbn [negb].
  2:{ destruct (failed_run h h2 x [] F2) as (h' & E' & S). exists None, h'. split; [exact E'|]. split; [exact S | apply Hf2; reflexivity]. }
  destruct (Hok eq_refl) as [C1 C2 C3 C4 C5 C6 C7].
  rewrite (bind_Ret _ _ _ _ _ (deref_run _ _ _ (leaf_old _ _ _ _ _ _ L2 Ea))).
  assert (Ec : n_child na = first ts) by (unfold ch in Hc; rewrite Ea in Hc; injection Hc; auto). rewrite Ec.
  apply every_Forall in Hs, Hv. cbn [addrs length] in Hf.
  destruct (IHc h h2 x n2 [] ts F2 (leaf_at _ _ _ _ L2) (leaf_ref _ _ _ _ L2)) as (r & h' & E' & R); auto; [lia|].
  exists r, h'. split; [exact E'|]. destruct r as [y|]; [|exact R].
  destruct R as (-> & ds' & n' & F' & En' & Hp' & K' & V' & M'). exists (Tree x ds').
  split; [reflexivity|]. split; [exact F'|]. apply payload_eq in Hp' as (P1 & P2 & P3 & P4 & P5).
  split.
  - cbn [valid]. split; [|apply every_Forall, V']. exists n'. rewrite P2, P5.
    split; [exact En'|]. split; eapply text_ok_kept; eauto.
  - cbn [value unref]. rewrite En', Ea, P1, P2, P3, P4, P5, M', C1, C2, C3.
    rewrite !(string_at_kept h2 h') by assumption. rewrite C4, C5. reflexivity.
Qed.

Lemma duplicates_all f : duplicates f /\ duplicates_children f.
Proof.
  induction f as [|f [IH1 IH2]].
  - split; [intros h [a ts] _ _ Hf; cbn in Hf; lia | intros h0 h1 x n ds rs _ _ _ _ _ _ _ Hf; lia].
  - split; [apply duplicates_S, IH2 | apply duplicates_children_S; assumption].
Qed.

Lemma duplicate_run h t : shaped (nodes h) t -> valid h t -> NoDup (addrs t) ->
  exists r h', cJSON_Duplicate (Some (root t)) true h = Ret (r, h') /\ copy_result h t r h'.
Proof.
  intros Hs Hv Hn. apply duplicates_all; [exact Hs | exact Hv|].
  assert (length (addrs t) <= size (nodes h))%nat; [|unfold fuel_of; lia].
  apply nodup_size; [exact Hn|]. intros y Hy. eapply shaped_Some; eauto.
Qed.
End Duplicate.
