(* ===== verification/JsonMemory.v ===== *)
(** * JSON items in memory: theorems

    What the tree operations of cJSON.c promise to the code that builds, edits,
    copies and frees items, with runs on a concrete allocator. *)

From stdpp Require Import gmap.
From S2P Require Import Prelude JsonText JsonPrint JsonHeap JsonTree JsonOwn JsonCopy JsonProps.

Local Open Scope Z_scope.

(** ** A concrete allocator: never fails, never gives an address twice *)
Definition top_key {X : Type} (m : gmap addr X) : addr := foldr Pos.max 1%positive (map fst (map_to_list m)).

Lemma max_above l (a : addr) : a ∈ l -> (a <= foldr Pos.max 1%positive l)%positive.
Proof. induction 1; cbn [foldr]; lia. Qed.

Lemma top_key_fresh {X : Type} (m : gmap addr X) a : (top_key m < a)%positive -> m !! a = None.
Proof.
  intros H. destruct (m !! a) as [v|] eqn:E; [|reflexivity]. exfalso.
  apply elem_of_map_to_list in E. unfold top_key in H.
  assert (Ha : a ∈ map fst (map_to_list m)) by (apply list_elem_of_fmap; exists (a, v); auto).
  apply (Pos.lt_irrefl a). eapply Pos.le_lt_trans; [apply max_above, Ha | exact H].
Qed.

#[export] Instance counting `{D : CDouble} : HeapAlloc := fun h _ =>
  Some (Pos.succ (Pos.max (Pos.of_succ_nat (calls h)) (Pos.max (top_key (nodes h)) (top_key (texts h))))).

#[export] Instance counting_fresh `{D : CDouble} : HeapAllocFresh counting.
Proof. intros h size a [= <-]. split; apply top_key_fresh; lia. Qed.

Lemma counting_plenty `{D : CDouble} : heap_plenty.
Proof. intros h size. eexists. reflexivity. Qed.

(** ** Lists of children *)
Section Children.
Context `{D : CDouble} `{HA : !HeapAlloc}.
Implicit Types (m : gmap addr node) (h : heap) (a x p : addr) (l : list addr).

(** The first item does not point back to the last one. *)
Definition head_open m l : Prop := forall a, l !! O = Some a -> pv m a = Some None.

Ltac relink := repeat (apply relinked_step; [| reflexivity |]); try apply relinked_refl;
  try (left; reflexivity); right; (split; [|reflexivity]);
  try (apply list_elem_of_here); try apply list_elem_of_further; apply elem_of_app;
  first [left; apply last_in; eassumption | right; repeat constructor].

Lemma inserted_relinked m p l1 a l2 x q : relinked (x :: l1 ++ a :: l2) p m (inserted m p l1 a x q).
Proof. unfold inserted. destruct (last l1) as [z|] eqn:Ez; relink. Qed.

Lemma detached_relinked m p l1 a l2 q : relinked (l1 ++ a :: l2) p m (detached m p l1 a l2 q).
Proof. unfold detached. destruct (last l1) as [z|] eqn:Ez; (destruct l2 as [|b l2]; cbn [head]); relink. Qed.

Lemma replaced_relinked m p l1 a l2 x q : relinked (x :: l1 ++ a :: l2) p m (replaced m p l1 a l2 x q).
Proof. unfold replaced. destruct (last l1) as [z|] eqn:Ez; (destruct l2 as [|b l2]; cbn [head]); relink. Qed.

(** An array around one of its items. *)
Lemma parent_split m p l i a : parent_of m p l -> l !! i = Some a ->
  l = take i l ++ a :: drop (S i) l /\ length (take i l) = i /\
  NoDup (p :: take i l ++ a :: drop (S i) l) /\
  ch m p = Some (head (take i l ++ a :: drop (S i) l)) /\
  exists pp, dll m pp (take i l ++ a :: drop (S i) l) None /\
    (pp = None \/ pp = last (take i l ++ a :: drop (S i) l)) /\
    pv m a = Some (last_or (take i l) pp) /\ (forall z, last (take i l) = Some z -> last_or (take i l) pp = Some z) /\
    (head_open m l -> pp = None).
Proof.
  intros H E. pose proof (take_drop_middle l i a E) as El. split; [auto|].
  split; [rewrite length_take; pose proof (lookup_lt_Some _ _ _ E); lia|].
  apply parent_dll in H as (Hc & Hnd & pp & Hpp & Hd). rewrite El. split; [exact Hnd|]. split; [exact Hc|].
  exists pp. split; [exact Hd|]. split; [exact Hpp|]. rewrite <- El in Hd.
  pose proof (dll_piece _ _ _ _ _ Hd) as (_ & Hp & _ & _). rewrite El in Hd.
  split; [exact Hp|]. split; [intros z Ez; unfold last_or; rewrite Ez; reflexivity|].
  intros Ho. destruct l as [|b l]; [discriminate|]. cbn [dll] in Hd. destruct Hd as [Hb _].
  rewrite (Ho b eq_refl) in Hb. injection Hb. auto.
Qed.

Lemma insert_item h p l i x : parent_of (nodes h) p l -> (i < length l)%nat -> is_Some (nodes h !! x) ->
  x <> p -> x ∉ l -> exists m', cJSON_InsertItemInArray (Some p) (Z.of_nat i) (Some x) h = Ret (tt, set_nodes h m') /\
    parent_of m' p (take i l ++ x :: drop i l) /\ relinked (x :: l) p (nodes h) m'.
Proof.
  intros H Hi Hx Hxp Hxl. destruct (lookup_lt_is_Some_2 l i Hi) as [a E].
  destruct (parent_split _ _ _ _ _ H E) as (El & Hlen & Hnd & Hc & pp & Hd & Hpp & Hpv & Hz & _).
  rewrite El in H, Hxl. eexists. split; [|split].
  - rewrite <- Hlen at 1. apply (insert_run h p _ a _ x _ H Hpv Hz Hx Hxp Hxl).
  - rewrite (drop_S _ _ _ E). apply insert_spec; assumption.
  - rewrite El at 1. apply inserted_relinked.
Qed.

(** The condition under which taking out item [i] keeps the list right. *)
Definition detachable m l (i : nat) : Prop := i = O \/ (S i < length l)%nat \/ head_open m l.

Lemma detach_item h p l i a : parent_of (nodes h) p l -> l !! i = Some a -> detachable (nodes h) l i ->
  exists m', cJSON_DetachItemFromArray (Some p) (Z.of_nat i) h = Ret (Some a, set_nodes h m') /\
    parent_of m' p (list_delete i l) /\ nx m' a = Some None /\ pv m' a = Some None /\ relinked l p (nodes h) m'.
Proof.
  intros H E Hlast. unfold cJSON_DetachItemFromArray. rewrite (proj2 (Z.ltb_ge _ _)), Nat2Z.id by lia.
  rewrite (bind_Ret _ _ _ _ _ (get_array_item_run h p l i H)), E.
  destruct (parent_split _ _ _ _ _ H E) as (El & Hlen & Hnd & Hc & pp & Hd & Hpp & Hpv & Hz & Ho).
  rewrite El in H. eexists. split; [apply (detach_run h p _ a _ _ H Hpv Hz)|].
  destruct (detach_spec (nodes h) p _ a _ pp Hnd Hc Hd Hpp) as (P1 & P2 & P3).
  { destruct Hlast as [->|[Hl|Hl]]; [left; reflexivity | right; left | right; right; auto].
    intros Hnil. apply (f_equal length) in Hnil. rewrite length_drop in Hnil. cbn in Hnil. lia. }
  change (list_delete i l) with (delete i l). rewrite delete_take_drop.
  split_and!; auto. rewrite El at 1. apply detached_relinked.
Qed.

Lemma replace_item h p l i a x : parent_of (nodes h) p l -> l !! i = Some a ->
  ((S i < length l)%nat \/ head_open (nodes h) l) -> is_Some (nodes h !! x) -> x <> p -> x ∉ l ->
  exists m', cJSON_ReplaceItemInArray (Some p) (Z.of_nat i) (Some x) h
      = (cJSON_Delete (Some a) ;; ret tt) (set_nodes h m') /\
    parent_of m' p (<[i := x]> l) /\ nx m' a = Some None /\ relinked (x :: l) p (nodes h) m'.
Proof.
  intros H E Hlast Hx Hxp Hxl. unfold cJSON_ReplaceItemInArray. rewrite (proj2 (Z.ltb_ge _ _)), Nat2Z.id by lia.
  rewrite (bind_Ret _ _ _ _ _ (get_array_item_run h p l i H)), E.
  destruct (parent_split _ _ _ _ _ H E) as (El & Hlen & Hnd & Hc & pp & Hd & Hpp & Hpv & Hz & Ho).
  pose proof (lookup_lt_Some _ _ _ E) as Hi.
  rewrite El in H, Hxl. exists (replaced (nodes h) p (take i l) a (drop (S i) l) x (last_or (take i l) pp)). split.
  { unfold bind at 1. rewrite (replace_run h p _ a _ x _ H Hpv Hz Hx Hxp Hxl). unfold bind, ret.
    destruct (cJSON_Delete (Some a) _) as [[[] h']|c]; reflexivity. }
  destruct (replace_spec (nodes h) p _ a _ x pp Hnd Hc Hd Hpp Hx Hxp Hxl) as (P1 & P2).
  { destruct Hlast as [Hl|Hl]; [left | right; auto].
    intros Hnil. apply (f_equal length) in Hnil. rewrite length_drop in Hnil. cbn in Hnil. lia. }
  rewrite insert_take_drop by exact Hi. split_and!; auto. rewrite El at 1. apply replaced_relinked.
Qed.

(** C14: on an array or object whose children are the list [l] (at most 2^31 - 1
    items), the operations of cJSON are those of a list: the size, the item at
    an index and the member of a name are read without a change to memory;
    adding a free item appends it; inserting at an index [i] of the list puts
    the item in front of the one there; taking out item [i] returns it unlinked
    and leaves the others; replacing item [i] puts the new one in its place and
    then calls [cJSON_Delete] on the unlinked old one.  Up to that deletion
    nothing but links of the items involved changes, and the chain is right
    again in both directions.  Taking out the last of several items, or replacing
    the last item, is covered only when the [prev] of the first item is NULL:
    not in a list that [cJSON_AddItemToArray] built, where it points to the last
    item and the chain is left wrong (see [last_item_dangles]). *)
Theorem children_refine_list h p l (H : parent_of (nodes h) p l) (Hl : lenZ l <= INT_MAX) :
  cJSON_GetArraySize (Some p) h = Ret (lenZ l, h) /\
  (forall i, cJSON_GetArrayItem (Some p) i h = Ret (if i <? 0 then None else l !! Z.to_nat i, h)) /\
  (forall cs q t, names_ok h l -> texts h !! q = Some t ->
     get_object_item (Some p) (Some q) cs h = Ret (member_named cs (cstr t) h l, h)) /\
  (forall x, nx (nodes h) x = Some None -> x <> p -> x ∉ l ->
     exists m', cJSON_AddItemToArray (Some p) (Some x) h = Ret (tt, set_nodes h m') /\
       parent_of m' p (l ++ [x]) /\ relinked (x :: l) p (nodes h) m') /\
  (forall i x, (i < length l)%nat -> is_Some (nodes h !! x) -> x <> p -> x ∉ l ->
     exists m', cJSON_InsertItemInArray (Some p) (Z.of_nat i) (Some x) h = Ret (tt, set_nodes h m') /\
       parent_of m' p (take i l ++ x :: drop i l) /\ relinked (x :: l) p (nodes h) m') /\
  (forall i a, l !! i = Some a -> detachable (nodes h) l i ->
     exists m', cJSON_DetachItemFromArray (Some p) (Z.of_nat i) h = Ret (Some a, set_nodes h m') /\
       parent_of m' p (list_delete i l) /\ nx m' a = Some None /\ pv m' a = Some None /\
       relinked l p (nodes h) m') /\
  (forall i a x, l !! i = Some a -> (S i < length l)%nat \/ head_open (nodes h) l ->
     is_Some (nodes h !! x) -> x <> p -> x ∉ l ->
     exists m', cJSON_ReplaceItemInArray (Some p) (Z.of_nat i) (Some x) h
         = (cJSON_Delete (Some a) ;; ret tt) (set_nodes h m') /\
       parent_of m' p (<[i := x]> l) /\ nx m' a = Some None /\ relinked (x :: l) p (nodes h) m').
Proof.
  split; [apply get_array_size_run; assumption|].
  split; [intros i; unfold cJSON_GetArrayItem; destruct (i <? 0); [reflexivity | apply get_array_item_run, H]|].
  split; [intros cs q t; apply get_object_item_run, H|].
  split.
  { intros x Hx Hxp Hxl. exists (appended (nodes h) p l x).
    split; [|split; [apply appended_spec; assumption | apply appended_relinked]].
    unfold cJSON_AddItemToArray. erewrite bind_Ret; [reflexivity|]. apply add_item_run; [exact H|].
    destruct (lookup_nx _ _ _ Hx) as (n & En & _). eauto. }
  split; [intros i x; apply insert_item, H|].
  split; [intros i a; apply detach_item, H | intros i a x; apply replace_item, H].
Qed.
End Children.

(** ** Ownership *)

(** C15: [cJSON_Delete] on trees of items that own what they point to (items marked
    as references and constant names excepted) returns, frees every item and
    every text the trees own exactly once, and touches nothing else. *)
Theorem delete_frees_exactly `{D : CDouble} (h : heap) (ts : list tree) (H : forest h ts) :
  exists h', cJSON_Delete (first ts) h = Ret (tt, h') /\
    removed (flat_map addrs ts) (flat_map (texts_of (nodes h)) ts) h h'.
Proof. apply delete_run, H. Qed.

(** [cJSON_Duplicate] with [recurse], on any tree of items in memory: either it
    returns NULL, which it does only when the allocator fails, and then memory
    is as it was before, everything allocated on the way having been freed; or
    it returns the root of a tree made of new blocks only, which it owns, with
    the value of the original, the marks of references removed. *)
Theorem duplicate_copies `{D : CDouble} `{HA : !HeapAlloc} `{HF : !HeapAllocFresh HA}
    (h : heap) (t : tree) (Hs : shaped (nodes h) t) (Hv : valid h t) (Hn : NoDup (addrs t)) :
  exists r h', cJSON_Duplicate (Some (root t)) true h = Ret (r, h') /\
    match r with
    | None => same_memory h h' /\ ~ heap_plenty
    | Some a => exists t', root t' = a /\ fresh h h' t' /\ value h' t' = unref (value h t)
    end.
Proof.
  destruct (duplicate_run h t Hs Hv Hn) as ([a|] & h' & E & R); [|exists None, h'; auto].
  destruct R as (t' & R1 & R2 & _ & R3). exists (Some a), h'. split; [exact E|]. exists t'. auto.
Qed.

(** ** Concrete memory *)

(** An object with a string and a number as members, an item by itself, and a
    caller's string. *)
Definition memory : heap := {|
  nodes := {[ 1%positive := mkNode None None (Some 2%positive) cJSON_Object None 0 0 None;
              2%positive := mkNode (Some 3%positive) (Some 3%positive) None cJSON_String (Some 5%positive) 0 0 (Some 6%positive);
              3%positive := mkNode None (Some 2%positive) None cJSON_Number None 7 7 (Some 7%positive);
              4%positive := mkNode None None None cJSON_NULL None 0 0 None ]};
  texts := {[ 5%positive := [104; 105]; 6%positive := [97]; 7%positive := [98]; 8%positive := [66] ]};
  calls := 8 |}.

Definition memory_tree : tree := Tree 1%positive [Tree 2%positive []; Tree 3%positive []].

Lemma nodup_check (l : list addr) : bool_decide (NoDup l) = true -> NoDup l.
Proof. apply bool_decide_eq_true. Qed.

Lemma memory_parent : parent_of (nodes memory) 1%positive [2%positive; 3%positive].
Proof.
  apply parent_dll. split; [reflexivity|]. split; [apply nodup_check; vm_compute; reflexivity|].
  exists (Some 3%positive). split; [right; reflexivity|]. repeat split.
Qed.

Lemma memory_names : names_ok memory [2%positive; 3%positive].
Proof.
  intros a n q Ha En Eq. apply elem_of_cons in Ha as [->|Ha]; [|apply list_elem_of_singleton in Ha as ->];
    injection En as <-; injection Eq as <-; eexists; reflexivity.
Qed.

Lemma memory_forest : forest memory [memory_tree].
Proof.
  constructor.
  - repeat split.
  - constructor; [|constructor]. eexists. split; [reflexivity|]. split; [reflexivity|].
    split; [repeat split|]. repeat split; eexists; repeat split.
  - apply nodup_check. vm_compute. reflexivity.
  - apply nodup_check. reflexivity.
  - intros q Hq. change (q ∈ [5%positive; 6%positive; 7%positive]) in Hq.
    repeat (apply elem_of_cons in Hq as [->|Hq]; [eexists; reflexivity|]). apply not_elem_of_nil in Hq. contradiction.
Qed.

Lemma children_refine_list_witness :
  cJSON_GetObjectItem (Some 1%positive) (Some 8%positive) memory = Ret (Some 3%positive, memory) /\
  exists m', cJSON_AddItemToArray (Some 1%positive) (Some 4%positive) memory = Ret (tt, set_nodes memory m') /\
    parent_of m' 1%positive [2%positive; 3%positive; 4%positive].
Proof.
  destruct (children_refine_list memory 1%positive [2%positive; 3%positive] memory_parent ltac:(discriminate))
    as (_ & _ & Hget & Hadd & _).
  split; [exact (Hget false 8%positive [66] memory_names eq_refl)|].
  destruct (Hadd 4%positive eq_refl) as (m' & E & P & _); [discriminate | |exists m'; auto].
  rewrite !elem_of_cons, elem_of_nil. intros [H|[H|H]]; [discriminate H | discriminate H | exact H].
Defined.

Lemma delete_frees_exactly_witness :
  exists h', cJSON_Delete (Some 1%positive) memory = Ret (tt, h') /\
    nodes h' !! 2%positive = None /\ nodes h' !! 4%positive = nodes memory !! 4%positive /\
    texts h' !! 5%positive = None.
Proof.
  destruct (delete_frees_exactly memory [memory_tree] memory_forest) as (h' & E & R).
  exists h'. split; [exact E|]. rewrite !(removed_nodes _ _ _ _ R), (removed_texts _ _ _ _ R).
  split; [reflexivity|]. split; reflexivity.
Defined.

Lemma memory_shaped : shaped (nodes memory) memory_tree /\ valid memory memory_tree.
Proof.
  split; [repeat split|].
  assert (Hn : text_ok memory None) by (intros q; discriminate).
  assert (Hs : forall q t, texts memory !! q = Some t -> text_ok memory (Some q)) by (intros q t E q' [= <-]; eauto).
  repeat split; eexists; (split; [reflexivity|]); split; cbn; eauto.
Qed.

Lemma duplicate_copies_witness :
  exists a h' t', cJSON_Duplicate (Some 1%positive) true memory = Ret (Some a, h') /\
    root t' = a /\ value h' t' = value memory memory_tree.
Proof.
  destruct (duplicate_copies memory memory_tree (proj1 memory_shaped) (proj2 memory_shaped))
    as ([a|] & h' & E & R); [apply nodup_check; vm_compute; reflexivity | |].
  - destruct R as (t' & R1 & _ & R2). exists a, h', t'. split; [exact E|]. split; [exact R1|]. exact R2.
  - destruct R as [_ R]. destruct (R counting_plenty).
Defined.

(** ** The last item *)

(** Deleting the last of several items leaves the [prev] of the first one
    pointing to it, and the next item added to the list is written through that
    pointer into freed memory: two items added to an array, the second one
    deleted, a third one added. *)
Theorem last_item_dangles :
  (let* a := cJSON_CreateArray in
   let* x := cJSON_CreateNull in
   let* y := cJSON_CreateTrue in
   let* z := cJSON_CreateFalse in
   cJSON_AddItemToArray a x ;;
   cJSON_AddItemToArray a y ;;
   cJSON_DeleteItemFromArray a 1 ;;
   cJSON_AddItemToArray a z) (mkHeap ∅ ∅ 0) = Crash OutOfBounds.
Proof. reflexivity. Qed.
