(* ===== verification/Mqtt.v ===== *)
(** * MQTT session (mqtt/mqtt.c, mqtt/mqtt.h)

    The client's globals and functions.  The session thread, the callbacks of the
    MQTT library and the callers of [pubmsg] meet at one mutex and one condition
    variable: [mstep] is one step of one of them between two synchronisation
    points.  The library is seen through its documented calls: a handle exists
    between [MQTTClient_create] and [MQTTClient_destroy], connecting may fail,
    and a connection that breaks is reported once through [connlost].  The
    client id, taken as set before the thread starts, is a parameter of the
    session; [subClient] and [pubClient] have empty bodies. *)

From stdpp Require Import relations.
From S2P Require Import Prelude JsonPrint JsonRender.

Local Open Scope Z_scope.

Definition MQTT_MAX_MSGLEN : nat := 2048.

(** ** Strings *)

(** [snprintf] of a text into an array of [size] bytes: what the array holds
    before its terminator. *)
Definition snprintf (size : nat) (t : list Z) : list Z := take (size - 1) t.

Fixpoint starts_with (s p : list Z) : bool :=
  match p, s with
  | [], _ => true
  | c :: p', d :: s' => (c =? d) && starts_with s' p'
  | _ :: _, [] => false
  end.

(** [strstr(s, p) != NULL] *)
Fixpoint strstr (s p : list Z) : bool :=
  starts_with s p || match s with [] => false | _ :: s' => strstr s' p end.

Definition text_general : list Z := [103; 101; 110; 101; 114; 97; 108; 47; 51; 47].
Definition text_down : list Z := [47; 100; 111; 119; 110].
Definition text_up : list Z := [47; 117; 112].

(** What [set_mqtt_clientid] leaves in [mqttclientid[128]] for a C string. *)
Definition clientid_text (clientid : list Z) : list Z := snprintf 128 (cstr clientid).
Definition down_topic (mqttclientid : list Z) : list Z := snprintf 512 (text_general ++ mqttclientid ++ text_down).
Definition up_topic (mqttclientid : list Z) : list Z := snprintf 512 (text_general ++ mqttclientid ++ text_up).

(** ** The client's variables *)

(** The globals outside the session: the client id up to its terminator, the
    registered callback ([None]: the null pointer; callbacks are numbered) and the
    last delivery token. *)
Record mqtt_vars := mkVars { mqttclientid : list Z; p2psignal_cb : option nat; deliveredtoken : Z }.

(** The id starts as "NULL". *)
Definition vars0 : mqtt_vars := mkVars [78; 85; 76; 76] None 0.

Definition set_mqtt_clientid (clientid : list Z) (v : mqtt_vars) : Z * mqtt_vars :=
  (0, mkVars (clientid_text clientid) (p2psignal_cb v) (deliveredtoken v)).

Definition set_p2psignal_callback (msgrecv : option nat) (v : mqtt_vars) : Z * mqtt_vars :=
  (0, mkVars (mqttclientid v) msgrecv (deliveredtoken v)).

Definition delivered (dt : Z) (v : mqtt_vars) : mqtt_vars := mkVars (mqttclientid v) (p2psignal_cb v) dt.

(** [start_mqtt_client] for the answer of [pthread_create]. *)
Definition start_mqtt_client (created : Z) : Z := if created =? -1 then -1 else 0.

(** [msgarrvd]: the callback that is called and the contents of [msg] it gets;
    [None]: none is called.  A payload longer than [msg] is copied behind it. *)
Definition msgarrvd (topicName payload : list Z) (v : mqtt_vars) : outcome (option (nat * list Z)) :=
  if (length payload <=? MQTT_MAX_MSGLEN)%nat then
    let msg := payload ++ repeat 0 (MQTT_MAX_MSGLEN - length payload) in
    Ret (if strstr (cstr topicName) (mqttclientid v) then (fun cb => (cb, msg)) <$> p2psignal_cb v else None)
  else Crash OutOfBounds.

(** ** The session *)

(** Where the session thread is: before [mqttcd.conn = 0]; at the lock behind
    CONNECT; holding it in front of the library calls; holding it in front of
    [pthread_cond_wait]; in it; signalled and waiting for the lock; holding it
    behind RECONNECT. *)
Inductive session_pc := SInit | SLock | SConnect | SEnter | SWaiting | SWoken | SReconnect.

(** The library's thread: idle, or in [connlost] in front of the lock. *)
Inductive callback_pc := CIdle | CLost.

(** A thread in [pubmsg]: outside, in front of the lock with a message, holding it. *)
Inductive pub_pc := POut | PLock (msg : list Z) | PHold (msg : list Z).

Inductive owner := Session | Publisher (i : nat).

Inductive event :=
| Subscribed (topic : list Z)
| Published (with_client : bool) (topic payload : list Z).

(** [client]: the handle [mqttclient] exists; [link]: its connection is up. *)
Record mqtt := mkMqtt {
  conn : Z; client : bool; link : bool; mutex : option owner;
  session : session_pc; callback : callback_pc; pubs : list pub_pc; events : list event }.

Definition mqtt0 (n : nat) : mqtt := mkMqtt 0 false false None SInit CIdle (replicate n POut) [].

(** [mqtt_client_thread], one step; [ok] is the answer of [MQTTClient_connect].
    [None]: it is blocked. *)
Definition session_step (mqttclientid : list Z) (ok : bool) (s : mqtt) : option mqtt :=
  match session s with
  | SInit => Some (mkMqtt 0 (client s) (link s) (mutex s) SLock (callback s) (pubs s) (events s))
  | SLock =>
      match mutex s with
      | None => Some (mkMqtt (conn s) (client s) (link s) (Some Session) SConnect (callback s) (pubs s) (events s))
      | Some _ => None
      end
  | SConnect =>
      if ok then
        Some (mkMqtt 1 true true (mutex s) SEnter (callback s) (pubs s)
                     (events s ++ [Subscribed (down_topic mqttclientid)]))
      else Some (mkMqtt 0 true false (mutex s) SReconnect (callback s) (pubs s) (events s))
  | SEnter => Some (mkMqtt (conn s) (client s) (link s) None SWaiting (callback s) (pubs s) (events s))
  | SWaiting => None
  | SWoken =>
      match mutex s with
      | None => Some (mkMqtt (conn s) (client s) (link s) (Some Session) SReconnect (callback s) (pubs s) (events s))
      | Some _ => None
      end
  | SReconnect => Some (mkMqtt (conn s) false false None SLock (callback s) (pubs s) (events s))
  end.

(** [connlost], once it has the lock. *)
Definition connlost (s : mqtt) : mqtt :=
  mkMqtt 0 (client s) (link s) (mutex s)
         (match session s with SWaiting => SWoken | pc => pc end) CIdle (pubs s) (events s).

(** [pubmsg] while it holds the lock. *)
Definition pubmsg (mqttclientid msg : list Z) (i : nat) (s : mqtt) : mqtt :=
  mkMqtt (conn s) (client s) (link s) None (session s) (callback s) (<[i := POut]> (pubs s))
         (if conn s =? 1 then events s ++ [Published (client s) (up_topic mqttclientid) (cstr msg)] else events s).

Definition set_pub (s : mqtt) (i : nat) (pc : pub_pc) (m : option owner) : mqtt :=
  mkMqtt (conn s) (client s) (link s) m (session s) (callback s) (<[i := pc]> (pubs s)) (events s).

(** POSIX lets [pthread_cond_wait] return without a signal. *)
Definition spurious (s : mqtt) : mqtt :=
  mkMqtt (conn s) (client s) (link s) (mutex s)
         (match session s with SWaiting => SWoken | pc => pc end) (callback s) (pubs s) (events s).

(** [w]: the system is one in which spurious wakeups do happen. *)
Inductive mstep (w : bool) (mqttclientid : list Z) : mqtt -> mqtt -> Prop :=
| m_session ok s s' : session_step mqttclientid ok s = Some s' -> mstep w mqttclientid s s'
| m_drop s : link s = true -> callback s = CIdle ->
    mstep w mqttclientid s (mkMqtt (conn s) (client s) false (mutex s) (session s) CLost (pubs s) (events s))
| m_connlost s : callback s = CLost -> mutex s = None -> mstep w mqttclientid s (connlost s)
| m_spurious s : w = true -> session s = SWaiting -> mstep w mqttclientid s (spurious s)
| m_call s i msg : pubs s !! i = Some POut -> mstep w mqttclientid s (set_pub s i (PLock msg) (mutex s))
| m_lock s i msg : pubs s !! i = Some (PLock msg) -> mutex s = None ->
    mstep w mqttclientid s (set_pub s i (PHold msg) (Some (Publisher i)))
| m_publish s i msg : pubs s !! i = Some (PHold msg) -> mstep w mqttclientid s (pubmsg mqttclientid msg i s).

Definition mreach (w : bool) (mqttclientid : list Z) (n : nat) : mqtt -> Prop := rtc (mstep w mqttclientid) (mqtt0 n).

(** ** Invariant *)
Definition holds_lock (pc : session_pc) : bool :=
  match pc with SConnect | SEnter | SReconnect => true | _ => false end.

(** The session is up: in front of [pthread_cond_wait] or in it. *)
Definition is_up (pc : session_pc) : Prop := pc = SEnter \/ pc = SWaiting.

Record session_ok (w : bool) (mqttclientid : list Z) (s : mqtt) : Prop := {
  (* the flag is set while a session is up; without spurious wakeups only then *)
  ok_conn : conn s = 1 -> w = false -> is_up (session s);
  ok_wait : is_up (session s) -> conn s = 1;
  (* the handle exists from the connection attempt to the end of RECONNECT *)
  ok_client : client s = false -> session s = SInit \/ session s = SLock \/ session s = SConnect;
  ok_init : session s = SInit -> conn s = 0;
  (* a broken connection is about to be reported *)
  ok_link : is_up (session s) -> link s = false -> callback s = CLost;
  ok_lost : callback s = CLost -> w = false -> link s = false /\ is_up (session s);
  ok_linked : link s = true -> w = false -> is_up (session s);
  (* the mutex *)
  ok_session : mutex s = Some Session <-> holds_lock (session s) = true;
  ok_pub : forall i, mutex s = Some (Publisher i) <-> exists msg, pubs s !! i = Some (PHold msg);
  (* what was done *)
  ok_events : Forall (fun e => match e with
      | Subscribed t => t = down_topic mqttclientid
      | Published c t _ => (w = false -> c = true) /\ t = up_topic mqttclientid end) (events s)
}.

Lemma mqtt0_ok w id n : session_ok w id (mqtt0 n).
Proof.
  constructor; cbn; try discriminate; try (intros [H|H]; discriminate H); auto.
  - split; discriminate.
  - intros i. split; [discriminate|]. intros [msg E]. apply lookup_replicate_1 in E as [E _]. discriminate.
Qed.

(** A thread in [pubmsg] that does not get or give back the lock. *)
Lemma pubs_other (l : list pub_pc) i pc (o : option owner) :
  (forall j, o = Some (Publisher j) <-> exists msg, l !! j = Some (PHold msg)) ->
  (forall msg, pc <> PHold msg) -> (forall msg, l !! i <> Some (PHold msg)) ->
  forall j, o = Some (Publisher j) <-> exists msg, <[i := pc]> l !! j = Some (PHold msg).
Proof.
  intros H Hpc Hi j. rewrite H. destruct (decide (i = j)) as [->|Hne].
  - split; intros [msg E]; [destruct (Hi _ E)|].
    apply list_lookup_insert_Some in E as [(_ & -> & _)|[Hne _]]; [destruct (Hpc _ eq_refl) | contradiction].
  - rewrite list_lookup_insert_ne by exact Hne. reflexivity.
Qed.

(** The lock is not held by two threads. *)
Lemma pub_lock_pc w id s i msg : session_ok w id s -> pubs s !! i = Some (PHold msg) ->
  mutex s = Some (Publisher i) /\ holds_lock (session s) = false.
Proof.
  intros H E. assert (Hm : mutex s = Some (Publisher i)) by (apply (ok_pub _ _ _ H); eauto). split; [exact Hm|].
  apply not_true_is_false. intros Hl. apply (ok_session _ _ _ H) in Hl. congruence.
Qed.

Definition no_publisher (o : option owner) : Prop := o = None \/ o = Some Session.

Lemma pubs_kept (P : nat -> Prop) o o' : (forall j, o = Some (Publisher j) <-> P j) -> no_publisher o -> no_publisher o' ->
  forall j, o' = Some (Publisher j) <-> P j.
Proof.
  unfold no_publisher. intros H Ho Ho' j. rewrite <- (H j).
  split; intros E; [destruct Ho' | destruct Ho]; congruence.
Qed.

Ltac session_case :=
  constructor; unfold is_up in *; cbn -[down_topic up_topic] in *; try tauto; try congruence; try (split; congruence);
  try (intros; repeat match goal with
       | H : _ \/ _ |- _ => destruct H
       | H : ?A -> _, H' : ?A |- _ => specialize (H H')
       | H : _ /\ _ |- _ => destruct H
       end; discriminate || congruence || tauto).

Lemma session_step_ok w id ok s s' : session_ok w id s -> session_step id ok s = Some s' -> session_ok w id s'.
Proof.
  intros [H1 H2 H0 Hin H3 H4 H5 H6 H7 H8] E. destruct s as [c cl li mu se ca pu ev]. cbn -[down_topic up_topic] in *.
  assert (Hm : holds_lock se = true -> no_publisher mu) by (intros Hl; right; apply H6, Hl).
  assert (Hk : forall mu', no_publisher mu -> no_publisher mu' ->
    forall i, mu' = Some (Publisher i) <-> exists msg, pu !! i = Some (PHold msg)).
  { intros mu' Hn Hn'. exact (pubs_kept _ mu mu' H7 Hn Hn'). }
  destruct se; cbn -[down_topic up_topic] in *; try discriminate.
  - injection E as <-. session_case.
  - destruct mu; [discriminate|]. injection E as <-. session_case. apply Hk; [left | right]; reflexivity.
  - destruct ok; injection E as <-; session_case. apply Forall_app. split; [exact H8 | repeat constructor].
  - injection E as <-. session_case. apply Hk; [apply Hm; reflexivity | left; reflexivity].
  - destruct mu; [discriminate|]. injection E as <-. session_case. apply Hk; [left | right]; reflexivity.
  - injection E as <-. session_case. apply Hk; [apply Hm; reflexivity | left; reflexivity].
Qed.

Lemma mstep_ok w id s s' : session_ok w id s -> mstep w id s s' -> session_ok w id s'.
Proof.
  intros H. destruct 1 as [ok s s' E|s Hl Hc|s Hc Hm|s Hw Hs|s i msg E|s i msg E Hm|s i msg E].
  - eapply session_step_ok; eauto.
  - destruct H as [H1 H2 H0 Hin H3 H4 H5 H6 H7 H8]. session_case.
  - destruct H as [H1 H2 H0 Hin H3 H4 H5 H6 H7 H8]. destruct s as [c cl li mu se ca pu ev].
    cbn -[down_topic up_topic] in *. subst.
    destruct se; try discriminate (proj2 H6 eq_refl); session_case;
      intros Hli Hw; destruct (H4 eq_refl Hw); congruence.
  - destruct H as [H1 H2 H0 Hin H3 H4 H5 H6 H7 H8]. destruct s as [c cl li mu se ca pu ev].
    cbn -[down_topic up_topic] in *. subst. session_case.
  - pose proof (pubs_other (pubs s) i (PLock msg) (mutex s) (ok_pub _ _ _ H)) as Hp.
    destruct H as [H1 H2 H0 Hin H3 H4 H5 H6 H7 H8]. session_case. apply Hp; congruence.
  - pose proof (lookup_lt_Some _ _ _ E) as Hi. destruct H as [H1 H2 H0 Hin H3 H4 H5 H6 H7 H8]. session_case.
    + rewrite <- H6, Hm. split; congruence.
    + intros j. destruct (decide (i = j)) as [->|Hne].
      * rewrite list_lookup_insert_eq by exact Hi. split; [eauto | reflexivity].
      * rewrite list_lookup_insert_ne by exact Hne. rewrite <- (H7 j), Hm. split; congruence.
  - destruct (pub_lock_pc w id s i msg H E) as [Hm Hl]. pose proof (lookup_lt_Some _ _ _ E) as Hi.
    destruct H as [H1 H2 H0 Hin H3 H4 H5 H6 H7 H8]. session_case.
    + intros j. destruct (decide (i = j)) as [->|Hne].
      * rewrite list_lookup_insert_eq by exact Hi. split; [discriminate|]. intros [m Em]. discriminate.
      * rewrite list_lookup_insert_ne by exact Hne. rewrite <- (H7 j), Hm. split; [discriminate | congruence].
    + destruct (Z.eqb_spec (conn s) 1) as [Hc|]; [|exact H8].
      apply Forall_app. split; [exact H8|]. constructor; [|constructor]. split; [|reflexivity].
      intros Hw. destruct (client s) eqn:Ec; [reflexivity|]. destruct (H1 Hc Hw), (H0 eq_refl) as [|[|]]; congruence.
Qed.

Lemma mreach_ok w id n s : mreach w id n s -> session_ok w id s.
Proof.
  unfold mreach. intros H. remember (mqtt0 n) as s0 eqn:E.
  assert (H0 : session_ok w id s0) by (subst; apply mqtt0_ok). clear E.
  induction H as [|x y z Hxy _ IH]; [exact H0|]. apply IH, (mstep_ok w id x y H0 Hxy).
Qed.

(** ** Topics and payloads *)

Lemma starts_with_app p t : starts_with (p ++ t) p = true.
Proof. induction p as [|c p IH]; [destruct t; reflexivity|]. cbn. rewrite Z.eqb_refl. exact IH. Qed.

Lemma strstr_app a p b : strstr (a ++ p ++ b) p = true.
Proof.
  induction a as [|c a IH]; cbn [app].
  - pose proof (starts_with_app p b) as E. destruct (p ++ b); cbn [strstr]; rewrite E; reflexivity.
  - cbn [strstr]. rewrite IH. apply orb_true_r.
Qed.

Lemma cstr_nonzero_app s t : Forall (fun c => c <> 0) s -> cstr (s ++ t) = s ++ cstr t.
Proof.
  induction 1 as [|c s Hc _ IH]; [reflexivity|]. cbn [app cstr].
  destruct (Z.eqb_spec c 0); [contradiction | rewrite IH; reflexivity].
Qed.

Lemma cstr_pad s n : cstr (s ++ repeat 0 n) = cstr s.
Proof.
  induction s as [|c s IH]; cbn [app cstr]; [destruct n; reflexivity|]. rewrite IH. reflexivity.
Qed.

Lemma clientid_nonzero c : Forall (fun b => b <> 0) (clientid_text c).
Proof. apply Forall_take, cstr_nonzero. Qed.

Lemma clientid_length c : (length (clientid_text c) <= 127)%nat.
Proof. unfold clientid_text, snprintf. rewrite length_take. lia. Qed.

(** Both topics fit their arrays. *)
Lemma topic_whole c e : (length e <= 5)%nat ->
  snprintf 512 (text_general ++ clientid_text c ++ e) = text_general ++ clientid_text c ++ e.
Proof.
  intros He. unfold snprintf. apply take_ge. pose proof (clientid_length c).
  rewrite !length_app. cbn [text_general length]. lia.
Qed.

Lemma down_topic_matches c : strstr (cstr (down_topic (clientid_text c))) (clientid_text c) = true.
Proof.
  unfold down_topic. rewrite topic_whole by (cbn; lia).
  rewrite cstr_nonzero_app by (repeat constructor; discriminate).
  rewrite cstr_nonzero_app by apply clientid_nonzero. apply strstr_app.
Qed.

(** ** Reconnecting *)

(** [session_step] twice or more, as steps of the system. *)
Lemma session_run w id ok s s' : session_step id ok s = Some s' -> rtc (mstep w id) s s'.
Proof. intros E. apply rtc_once. exact (m_session w id ok s s' E). Qed.

(** Whoever holds the lock while a session is up gives it back. *)
Lemma lock_released w id s : session_ok w id s -> session s = SEnter \/ session s = SWaiting ->
  exists s', rtc (mstep w id) s s' /\ session s' = SWaiting /\ mutex s' = None /\ callback s' = callback s.
Proof.
  intros H [Hs|Hs].
  - eexists. split; [|split_and!].
    + apply (session_run w id true). unfold session_step. rewrite Hs. reflexivity.
    + reflexivity.
    + reflexivity.
    + reflexivity.
  - destruct (mutex s) as [[|i]|] eqn:Em.
    + apply (ok_session _ _ _ H) in Em. rewrite Hs in Em. discriminate.
    + destruct (proj1 (ok_pub _ _ _ H i) Em) as [msg E].
      exists (pubmsg id msg i s). split; [apply rtc_once, m_publish, E|]. split_and!; [exact Hs|reflexivity|reflexivity].
    + exists s. split_and!; [constructor|assumption..|reflexivity].
Qed.

(** From the waiting session to the next connection attempt. *)
Lemma reconnect_run w id s : session s = SWaiting -> mutex s = None -> callback s = CLost ->
  rtc (mstep w id) s (mkMqtt 0 false false (Some Session) SConnect CIdle (pubs s) (events s)).
Proof.
  intros Hs Hm Hc. destruct s as [c cl li mu se ca pu ev]. cbn in *. subst.
  eapply rtc_l; [apply m_connlost; reflexivity|]. unfold connlost. cbn.
  do 3 (etrans; [apply (session_run w id true); reflexivity|]; cbn). constructor.
Qed.

(** ** Properties *)

(** C17: In every reachable state of the session thread, the library's callback
    and any number of threads in [pubmsg], spurious wakeups of
    [pthread_cond_wait] included: at most one of them is between lock and unlock;
    a thread waiting in [pthread_cond_wait] has [conn] set, a client handle, and
    either a live connection or a [connlost] about to report that it broke; and
    everything subscribed to or published so far went to the client's own down
    or up topic.  A publisher that holds the lock with [conn] set has a client
    handle, except while the session thread stands between RECONNECT and its
    next lock; and without spurious wakeups every publication so far was made
    with an existing handle. *)
Theorem mqtt_session_safe (w : bool) (id : list Z) (n : nat) (s : mqtt) : mreach w id n s ->
  (forall i j m m', pubs s !! i = Some (PHold m) -> pubs s !! j = Some (PHold m') ->
     i = j /\ holds_lock (session s) = false) /\
  (session s = SWaiting -> conn s = 1 /\ client s = true /\ (link s = true \/ callback s = CLost)) /\
  Forall (fun e => match e with
    | Subscribed t => t = down_topic id
    | Published c t _ => (w = false -> c = true) /\ t = up_topic id end) (events s) /\
  (forall i m, pubs s !! i = Some (PHold m) -> conn s = 1 ->
     client s = true \/ w = true /\ session s = SLock).
Proof.
  intros Hr. pose proof (mreach_ok w id n s Hr) as H. split_and!.
  - intros i j m m' Ei Ej. destruct (pub_lock_pc _ _ _ _ _ H Ei) as [Hi Hl].
    destruct (pub_lock_pc _ _ _ _ _ H Ej) as [Hj _]. split; [congruence | exact Hl].
  - intros Hs. assert (Hu : is_up (session s)) by (right; exact Hs).
    split_and!; [exact (ok_wait _ _ _ H Hu) | |].
    + destruct (client s) eqn:Ec; [reflexivity|]. destruct (ok_client _ _ _ H Ec) as [|[|]]; congruence.
    + destruct (link s) eqn:El; [left; reflexivity | right; exact (ok_link _ _ _ H Hu El)].
  - exact (ok_events _ _ _ H).
  - intros i m Ei Hc. destruct (client s) eqn:Ec; [left; reflexivity | right].
    destruct (pub_lock_pc _ _ _ _ _ H Ei) as [_ Hl]. destruct w.
    + split; [reflexivity|]. destruct (ok_client _ _ _ H Ec) as [E|[E|E]];
        [rewrite (ok_init _ _ _ H E) in Hc; discriminate | exact E |]. rewrite E in Hl. discriminate.
    + destruct (ok_conn _ _ _ H Hc eq_refl), (ok_client _ _ _ H Ec) as [|[|]]; congruence.
Qed.

(** Without spurious wakeups, whatever was going on when the connection broke,
    once [connlost] is about to report it there is a run in which the mutex is
    given back, the flag is cleared, the old client is destroyed and the session
    thread stands at the next connection attempt with the mutex. *)
Theorem lost_session_reconnects (id : list Z) (n : nat) (s : mqtt) : mreach false id n s -> callback s = CLost ->
  exists s', rtc (mstep false id) s s' /\ session s' = SConnect /\ mutex s' = Some Session /\
    conn s' = 0 /\ client s' = false /\ callback s' = CIdle.
Proof.
  intros Hr Hc. pose proof (mreach_ok false id n s Hr) as H. destruct (ok_lost _ _ _ H Hc eq_refl) as [_ Hs].
  destruct (lock_released false id s H Hs) as (s1 & R1 & Hs1 & Hm1 & Hc1). rewrite Hc in Hc1.
  eexists. split; [etrans; [exact R1 | exact (reconnect_run false id s1 Hs1 Hm1 Hc1)]|]. split_and!; reflexivity.
Qed.

(** [pthread_cond_wait] is not in a loop that tests [conn]: when it returns
    without a signal, [conn] stays set over RECONNECT while the client is
    destroyed, and a caller of [pubmsg] publishes with a handle that no longer
    exists. *)
Definition destroyed_state (id : list Z) : mqtt :=
  mkMqtt 1 false false None SLock CIdle [POut] [Subscribed (down_topic id)].

Lemma destroyed_reached id : mreach true id 1 (destroyed_state id).
Proof.
  unfold mreach. do 4 (etrans; [apply (session_run true id true); reflexivity|]; cbn -[down_topic]).
  eapply rtc_l; [apply m_spurious; reflexivity|]. unfold spurious. cbn -[down_topic].
  do 2 (etrans; [apply (session_run true id true); reflexivity|]; cbn -[down_topic]). constructor.
Qed.

Theorem spurious_wakeup_publishes_without_client (id msg : list Z) :
  exists s, mreach true id 1 s /\ Published false (up_topic id) (cstr msg) ∈ events s.
Proof.
  eexists. split.
  - unfold mreach. etrans; [exact (destroyed_reached id)|]. unfold destroyed_state.
    eapply rtc_l; [apply (m_call true id _ 0 msg); reflexivity|]. unfold set_pub. cbn -[down_topic].
    eapply rtc_l; [apply (m_lock true id _ 0 msg); reflexivity|]. unfold set_pub. cbn -[down_topic].
    eapply rtc_l; [apply (m_publish true id _ 0 msg); reflexivity|]. constructor.
  - cbn -[down_topic up_topic]. apply list_elem_of_In. right. left. reflexivity.
Qed.

(** A message on the topic the session subscribed to reaches the callback: with
    whatever id and callback were set, in either order, a payload of up to 2047
    bytes arrives terminated and whole up to its first zero byte.  A payload of
    more than 2048 bytes is copied over the end of the array, on any topic. *)
Theorem message_passed_on (c payload : list Z) (cb : nat) (v : mqtt_vars) :
  (forall v', v' = snd (set_p2psignal_callback (Some cb) (snd (set_mqtt_clientid c v))) \/
              v' = snd (set_mqtt_clientid c (snd (set_p2psignal_callback (Some cb) v))) ->
   (length payload < MQTT_MAX_MSGLEN)%nat ->
   exists msg, msgarrvd (down_topic (mqttclientid v')) payload v' = Ret (Some (cb, msg)) /\
     length msg = MQTT_MAX_MSGLEN /\ 0 ∈ msg /\ cstr msg = cstr payload) /\
  ((MQTT_MAX_MSGLEN < length payload)%nat -> forall topic, msgarrvd topic payload v = Crash OutOfBounds).
Proof.
  unfold msgarrvd. split.
  - intros v' Hv Hl. rewrite (proj2 (Nat.leb_le _ _)) by lia.
    assert (Hid : mqttclientid v' = clientid_text c /\ p2psignal_cb v' = Some cb) by (destruct Hv as [-> | ->]; split; reflexivity).
    destruct Hid as [-> ->]. rewrite down_topic_matches. eexists. split; [reflexivity|].
    split_and!.
    + rewrite length_app, repeat_length. lia.
    + apply list_elem_of_In, in_or_app. right. destruct (MQTT_MAX_MSGLEN - length payload)%nat eqn:E; [lia|]. left. reflexivity.
    + apply cstr_pad.
  - intros Hl topic. rewrite (proj2 (Nat.leb_gt _ _)) by lia. reflexivity.
Qed.

(** ** Witnesses *)

(** A broken session with a thread waiting in [pubmsg]. *)
Definition broken : mqtt := mkMqtt 1 true false None SWaiting CLost [PLock [104; 105]] [Subscribed (down_topic [55])].

Lemma broken_reached w : mreach w [55] 1 broken.
Proof.
  unfold mreach. do 4 (etrans; [apply (session_run w [55] true); reflexivity|]; cbn -[down_topic]).
  eapply rtc_l; [apply m_drop; reflexivity|]. cbn -[down_topic].
  eapply rtc_l; [apply (m_call w [55] _ 0 [104; 105]); reflexivity|]. constructor.
Qed.

Lemma mqtt_session_safe_witness :
  (conn broken = 1 /\ client broken = true /\ (link broken = true \/ callback broken = CLost)) /\
  Forall (fun e => match e with
    | Subscribed t => t = down_topic [55]
    | Published c t _ => (true = false -> c = true) /\ t = up_topic [55] end) (events (destroyed_state [55])).
Proof.
  split.
  - destruct (mqtt_session_safe false [55] 1 broken (broken_reached false)) as (_ & H & _). apply H. reflexivity.
  - destruct (mqtt_session_safe true [55] 1 (destroyed_state [55]) (destroyed_reached [55])) as (_ & _ & H & _). exact H.
Defined.

Lemma lost_session_reconnects_witness : exists s', rtc (mstep false [55]) broken s' /\ session s' = SConnect /\
  mutex s' = Some Session /\ conn s' = 0 /\ client s' = false /\ callback s' = CIdle.
Proof. apply (lost_session_reconnects [55] 1 broken (broken_reached false)). reflexivity. Defined.

Lemma message_passed_on_witness :
  let v := snd (set_p2psignal_callback (Some 3%nat) (snd (set_mqtt_clientid [55] vars0))) in
  exists msg, msgarrvd (down_topic (mqttclientid v)) [104; 105] v = Ret (Some (3%nat, msg)) /\
    length msg = MQTT_MAX_MSGLEN /\ 0 ∈ msg /\ cstr msg = [104; 105].
Proof.
  intros v. apply (message_passed_on [55] [104; 105] 3 vars0); [left; reflexivity|].
  unfold MQTT_MAX_MSGLEN. cbn [length]. lia.
Defined.
