(* ===== verification/TsBits.v ===== *)
(** * Bit reader of the transport stream muxer (ts/Mybs.cpp, ts/Mybs.h)

    [bs_read] takes bits off a buffer, most significant first; [bs_read_ue]
    decodes an unsigned Exp-Golomb number, which is how the headers of H.264
    slices store theirs.  The theorem relates both to the sequence of bits that
    is still unread. *)

From S2P Require Import Prelude.

Local Open Scope Z_scope.

(** [struct Tag_bs_t]: [mem] is the block [p] points into, [p] and [p_end] are
    offsets in it ([p_end] may lie in front of [p]). *)
Record bs_t := mkBs { mem : list Z; p : nat; p_end : Z; i_left : Z }.

Definition bs_init (mem : list Z) (p_data : nat) (i_data : Z) : bs_t :=
  mkBs mem p_data (Z.of_nat p_data + i_data) 8.

Definition i_mask : list Z := [
  0x00;
  0x01; 0x03; 0x07; 0x0f;
  0x1f; 0x3f; 0x7f; 0xff;
  0x1ff; 0x3ff; 0x7ff; 0xfff;
  0x1fff; 0x3fff; 0x7fff; 0xffff;
  0x1ffff; 0x3ffff; 0x7ffff; 0xfffff;
  0x1fffff; 0x3fffff; 0x7fffff; 0xffffff;
  0x1ffffff; 0x3ffffff; 0x7ffffff; 0xfffffff;
  0x1fffffff; 0x3fffffff; 0x7fffffff; 0xffffffff].

Definition mask (n : Z) : outcome Z := get8 i_mask (Z.to_nat n).

Definition at_end (s : bs_t) : bool := p_end s <=? Z.of_nat (p s).

Definition next_byte (s : bs_t) : bs_t := mkBs (mem s) (S (p s)) (p_end s) 8.

(** The loop of [bs_read]; each round takes at least one bit. *)
Fixpoint bs_read_loop (fuel : nat) (s : bs_t) (i_count i_result : Z) : outcome (Z * bs_t) :=
  match fuel with
  | O => Crash Diverge
  | S f =>
      if 0 <? i_count then
        if at_end s then Ret (i_result, s)
        else
          let i_shr := i_left s - i_count in
          let! b := get8 (mem s) (p s) in
          if 0 <=? i_shr then
            let! k := mask i_count in
            let i_result := i32 (Z.lor i_result (Z.land (Z.shiftr b i_shr) k)) in
            let s := mkBs (mem s) (p s) (p_end s) (i_left s - i_count) in
            Ret (i_result, if i_left s =? 0 then next_byte s else s)
          else
            let! k := mask (i_left s) in
            let i_result := i32 (Z.lor i_result (i32 (Z.shiftl (Z.land b k) (- i_shr)))) in
            bs_read_loop f (next_byte s) (i_count - i_left s) i_result
      else Ret (i_result, s)
  end.

Definition bs_read (s : bs_t) (i_count : Z) : outcome (Z * bs_t) :=
  bs_read_loop (S (Z.to_nat i_count)) s i_count 0.

Definition bs_read1 (s : bs_t) : outcome (Z * bs_t) :=
  if negb (at_end s) then
    let s := mkBs (mem s) (p s) (p_end s) (i_left s - 1) in
    let! b := get8 (mem s) (p s) in
    let i_result := Z.land (Z.shiftr b (i_left s)) 1 in
    Ret (i_result, if i_left s =? 0 then next_byte s else s)
  else Ret (0, s).

(** [while (bs_read1(s) == 0 && s->p < s->p_end && i < 32) i++]; at most 33 rounds. *)
Fixpoint count_zeros (fuel : nat) (s : bs_t) (i : Z) : outcome (Z * bs_t) :=
  match fuel with
  | O => Crash Diverge
  | S f =>
      let! (b, s) := bs_read1 s in
      if (b =? 0) && negb (at_end s) && (i <? 32) then count_zeros f s (i + 1) else Ret (i, s)
  end.

Definition bs_read_ue (s : bs_t) : outcome (Z * bs_t) :=
  let! (i, s) := count_zeros 33 s 0 in
  let! (v, s) := bs_read s i in
  Ret (i32 (i32 (Z.shiftl 1 i) - 1 + v), s).

(** ** Bits *)

Definition byte_bits (b : Z) : list bool := map (Z.testbit b) [7; 6; 5; 4; 3; 2; 1; 0].

(** The number a list of bits stands for. *)
Definition val (l : list bool) : Z := foldl (fun a b => 2 * a + Z.b2z b) 0 l.

(** The unread bytes and the unread bits. *)
Definition tail_bytes (s : bs_t) : list Z := drop (p s) (take (Z.to_nat (p_end s)) (mem s)).
Definition unread (s : bs_t) : list bool := drop (Z.to_nat (8 - i_left s)) (flat_map byte_bits (tail_bytes s)).

(** A reader inside its buffer. *)
Record bs_ok (s : bs_t) : Prop := {
  ok_bytes : Forall is_u8 (mem s);
  ok_left : 1 <= i_left s <= 8;
  ok_end : p_end s <= lenZ (mem s);
  ok_fresh : at_end s = true -> i_left s = 8 }.

Lemma val_app l1 l2 : val (l1 ++ l2) = val l1 * 2 ^ lenZ l2 + val l2.
Proof.
  unfold val. rewrite foldl_app. generalize (foldl (fun a b => 2 * a + Z.b2z b) 0 l1). clear l1.
  induction l2 as [|b l2 IH] using rev_ind; intros a; [cbn; lia|].
  rewrite !foldl_app, length_app, IH. cbn [foldl length].
  rewrite Nat2Z.inj_add, Z.pow_add_r by lia. change (2 ^ Z.of_nat 1) with 2. lia.
Qed.

Lemma val_zeros n : val (replicate n false) = 0.
Proof. induction n as [|n IH]; [reflexivity|]. rewrite replicate_S_end, val_app, IH. reflexivity. Qed.

Lemma val_range l : 0 <= val l < 2 ^ lenZ l.
Proof.
  induction l as [|b l IH] using rev_ind; [cbn; lia|].
  rewrite val_app, length_app. cbn [length]. rewrite Nat2Z.inj_add, Z.pow_add_r by lia.
  change (2 ^ Z.of_nat 1) with 2. destruct b; cbn [val foldl Z.b2z]; lia.
Qed.

Lemma byte_bits_length b : length (byte_bits b) = 8%nat.
Proof. reflexivity. Qed.

(** Shifting and masking a byte takes bits out of it: checked byte by byte. *)
Definition field_check (b l n : nat) : bool :=
  (val (take n (drop (8 - l) (byte_bits (Z.of_nat b)))) =?
   Z.land (Z.shiftr (Z.of_nat b) (Z.of_nat (l - n))) (nth n i_mask 0)).

Lemma field_all : forallb (fun b => forallb (fun l => forallb (fun n => negb (n <=? l)%nat || field_check b l n)
  (seq 0 9)) (seq 0 9)) (seq 0 256) = true.
Proof. vm_compute. reflexivity. Qed.

Lemma field_bits b l n : is_u8 b -> (n <= l <= 8)%nat ->
  val (take n (drop (8 - l) (byte_bits b))) = Z.land (Z.shiftr b (Z.of_nat (l - n))) (nth n i_mask 0).
Proof.
  intros Hb Hn. pose proof field_all as H. rewrite forallb_forall in H.
  specialize (H (Z.to_nat b)). cbn beta in H. rewrite forallb_forall in H by (apply in_seq; rlia).
  assert (H' := H ltac:(apply in_seq; rlia) l ltac:(apply in_seq; lia)). cbn beta in H'.
  rewrite forallb_forall in H'. specialize (H' n ltac:(apply in_seq; lia)).
  rewrite (proj2 (Nat.leb_le n l)) in H' by lia. cbn [negb orb] in H'. unfold field_check in H'.
  rewrite Z2Nat.id in H' by rlia. apply Z.eqb_eq in H'. exact H'.
Qed.

(** ** Reading *)

Lemma unread_end s : bs_ok s -> at_end s = true -> unread s = [].
Proof.
  intros H E. unfold unread, tail_bytes. unfold at_end in E. apply Z.leb_le in E.
  rewrite (drop_ge (take _ _)) by (rewrite length_take; lia). apply drop_nil.
Qed.

Lemma unread_next s : bs_ok s -> at_end s = false ->
  exists b, get8 (mem s) (p s) = Ret b /\ is_u8 b /\ bs_ok (next_byte s) /\
    unread s = drop (Z.to_nat (8 - i_left s)) (byte_bits b) ++ unread (next_byte s).
Proof.
  intros [H1 H2 H3 H4] E. unfold at_end in E. apply Z.leb_gt in E.
  destruct (get8_total (mem s) (p s)) as (b & Eb & Lb); [lia|].
  exists b. split_and!; [exact Eb | exact (Forall_lookup_1 _ _ _ _ H1 Lb) | split; cbn; (assumption || lia || reflexivity) |].
  unfold unread, tail_bytes. cbn [next_byte mem p p_end i_left].
  rewrite (drop_S _ b (p s)) by (rewrite lookup_take_lt by lia; exact Lb). cbn [flat_map].
  change (Z.to_nat (8 - 8)) with 0%nat. rewrite drop_0.
  apply drop_app_le. rewrite byte_bits_length. lia.
Qed.

Lemma mask_run n : 0 <= n <= 8 -> mask n = Ret (nth (Z.to_nat n) i_mask 0).
Proof.
  intros H. unfold mask, get8. destruct (nth_lookup_or_length i_mask (Z.to_nat n) 0) as [E|E].
  - rewrite E. reflexivity.
  - cbn in E. lia.
Qed.

(** The bits a read takes: missing ones are zero. *)
Definition taken (n : nat) (l : list bool) : list bool := take n (l ++ replicate n false).

Lemma taken_length n l : length (taken n l) = n.
Proof. unfold taken. rewrite length_take, length_app, length_replicate. lia. Qed.

Lemma taken_le n l : (n <= length l)%nat -> taken n l = take n l.
Proof. intros H. unfold taken. apply take_app_le. exact H. Qed.

Lemma taken_app n l1 l2 : (length l1 <= n)%nat -> taken n (l1 ++ l2) = l1 ++ taken (n - length l1) l2.
Proof.
  intros H. unfold taken. rewrite <- app_assoc, take_app_ge by exact H. f_equal.
  replace n with ((n - length l1) + length l1)%nat at 2 by lia. rewrite replicate_add, app_assoc.
  apply take_app_le. rewrite length_app, length_replicate. lia.
Qed.

(** One field of the current byte, as the code cuts it out. *)
Lemma cut_byte b left n : is_u8 b -> 1 <= left <= 8 -> 0 <= n <= left ->
  Z.land (Z.shiftr b (left - n)) (nth (Z.to_nat n) i_mask 0) =
  val (take (Z.to_nat n) (drop (Z.to_nat (8 - left)) (byte_bits b))).
Proof.
  intros Hb Hl Hn. replace (Z.to_nat (8 - left)) with (8 - Z.to_nat left)%nat by lia.
  rewrite field_bits by (assumption || lia). do 2 f_equal. lia.
Qed.

Lemma lor_mul_add a b k : 0 <= k -> 0 <= b < 2 ^ k -> Z.lor (a * 2 ^ k) b = a * 2 ^ k + b.
Proof. intros Hk Hb. rewrite <- (lor_shiftl_add a b k Hk Hb), Z.shiftl_mul_pow2 by exact Hk. reflexivity. Qed.

Lemma bs_read_loop_spec fuel : forall s n r, bs_ok s -> 0 <= n -> (Z.to_nat n < fuel)%nat ->
  0 <= r -> (r + 1) * 2 ^ n <= 2 ^ 31 ->
  exists s', bs_read_loop fuel s n (r * 2 ^ n) = Ret (r * 2 ^ n + val (taken (Z.to_nat n) (unread s)), s') /\
    bs_ok s' /\ unread s' = drop (Z.to_nat n) (unread s).
Proof.
  induction fuel as [|fuel IH]; intros s n r Hs Hn Hf Hr Hb; [lia|]. cbn [bs_read_loop].
  destruct (Z.ltb_spec 0 n) as [Hn0|Hn0].
  2:{ assert (n = 0) as -> by lia. exists s. unfold taken. cbn. rewrite take_0, drop_0. cbn. split; [f_equal; f_equal; lia | auto]. }
  destruct (at_end s) eqn:Ee.
  { exists s. rewrite (unread_end s Hs Ee). unfold taken. rewrite take_ge by (cbn; rewrite length_replicate; lia).
    cbn [app]. rewrite val_zeros, drop_nil. split; [f_equal; f_equal; lia | split; [exact Hs | reflexivity]]. }
  destruct (unread_next s Hs Ee) as (b & Eb & Hbyte & Hs' & Hu). rewrite Eb. cbn [obind].
  pose proof (ok_left s Hs) as Hl. set (fld := drop (Z.to_nat (8 - i_left s)) (byte_bits b)) in *.
  assert (Hfl : length fld = Z.to_nat (i_left s)) by (unfold fld; rewrite length_drop, byte_bits_length; lia).
  destruct (Z.leb_spec 0 (i_left s - n)) as [Hle|Hgt].
  - rewrite mask_run by lia. cbn [obind]. rewrite cut_byte by (assumption || lia). fold fld.
    assert (Et : taken (Z.to_nat n) (unread s) = take (Z.to_nat n) fld).
    { rewrite Hu, taken_le by (rewrite length_app; lia). apply take_app_le. lia. }
    rewrite <- Et. pose proof (val_range (taken (Z.to_nat n) (unread s))) as Hv. rewrite taken_length, Z2Nat.id in Hv by lia.
    rewrite lor_mul_add by lia.
    rewrite i32_id by (unfold is_i32; lia). eexists. split; [reflexivity|].
    cbn [i_left mem p p_end]. destruct (Z.eqb_spec (i_left s - n) 0) as [E0|E0].
    + split; [exact Hs'|]. rewrite Hu, drop_app_ge by lia. replace (Z.to_nat n - length fld)%nat with 0%nat by lia.
      rewrite drop_0. reflexivity.
    + split; [split; cbn [mem p p_end i_left]; [apply Hs | lia | apply Hs |]|].
      * unfold at_end in *. cbn [p_end p]. congruence.
      * unfold unread, tail_bytes. cbn [mem p p_end i_left]. rewrite drop_drop. f_equal. lia.
  - rewrite mask_run by lia. cbn [obind].
    pose proof (cut_byte b (i_left s) (i_left s) Hbyte Hl ltac:(lia)) as Ec. rewrite Z.sub_diag, Z.shiftr_0_r in Ec. rewrite Ec.
    fold fld. rewrite take_ge by lia. set (v := val fld).
    assert (Hv : 0 <= v < 2 ^ i_left s). { unfold v. pose proof (val_range fld) as Hv. rewrite Hfl, Z2Nat.id in Hv by lia. exact Hv. }
    set (d := n - i_left s). replace (- (i_left s - n)) with d by (unfold d; lia).
    assert (Hp : 2 ^ n = 2 ^ i_left s * 2 ^ d) by (rewrite <- Z.pow_add_r by (unfold d; lia); f_equal; unfold d; lia).
    assert (Hd : 0 < 2 ^ d) by (apply Z.pow_pos_nonneg; unfold d; lia).
    assert (Hvd : 0 <= v * 2 ^ d < 2 ^ n) by (rewrite Hp; nia).
    rewrite Z.shiftl_mul_pow2 by (unfold d; lia). rewrite (i32_id (v * 2 ^ d)) by (unfold is_i32; nia).
    rewrite (lor_mul_add r) by lia.
    rewrite i32_id by (unfold is_i32; nia).
    replace (r * 2 ^ n + v * 2 ^ d) with ((r * 2 ^ i_left s + v) * 2 ^ d) by (rewrite Hp; ring).
    destruct (IH (next_byte s) d (r * 2 ^ i_left s + v)) as (s' & E & Hok & Hun); [exact Hs' | unfold d; lia | unfold d; lia | nia | nia |].
    exists s'. rewrite E. split_and!; [|exact Hok|].
    + f_equal. f_equal. rewrite Hu, taken_app by lia. rewrite val_app, taken_length. fold v.
      replace (Z.to_nat n - length fld)%nat with (Z.to_nat d) by (unfold d; lia).
      rewrite Z2Nat.id by (unfold d; lia). rewrite Hp. ring.
    + rewrite Hun, Hu, drop_app_ge by lia. f_equal. unfold d. lia.
Qed.

Lemma bs_read_spec s n : bs_ok s -> 0 <= n <= 31 ->
  exists s', bs_read s n = Ret (val (taken (Z.to_nat n) (unread s)), s') /\ bs_ok s' /\
    unread s' = drop (Z.to_nat n) (unread s).
Proof.
  intros Hs Hn. assert (H2 : 2 ^ n <= 2 ^ 31) by (apply Z.pow_le_mono_r; lia).
  destruct (bs_read_loop_spec (S (Z.to_nat n)) s n 0 Hs) as (s' & E & H); [lia..|].
  exists s'. split; [exact E | exact H].
Qed.

(** A read returns whatever is asked of it, and stays inside the buffer. *)
Lemma bs_read_loop_total fuel : forall s n r, bs_ok s -> (Z.to_nat n < fuel)%nat ->
  exists v s', bs_read_loop fuel s n r = Ret (v, s') /\ bs_ok s'.
Proof.
  induction fuel as [|fuel IH]; intros s n r Hs Hf; [lia|]. cbn [bs_read_loop].
  destruct (Z.ltb_spec 0 n) as [Hn0|Hn0]; [|eauto]. destruct (at_end s) eqn:Ee; [eauto|].
  destruct (unread_next s Hs Ee) as (b & Eb & _ & Hs' & _). rewrite Eb. cbn [obind]. pose proof (ok_left s Hs) as Hl.
  destruct (Z.leb_spec 0 (i_left s - n)) as [Hle|Hgt]; rewrite mask_run by lia; cbn [obind].
  - do 2 eexists. split; [reflexivity|]. cbn [i_left]. destruct (Z.eqb_spec (i_left s - n) 0); [exact Hs'|].
    split; cbn; [apply Hs | lia | apply Hs |]. unfold at_end in *. cbn. congruence.
  - apply IH; [exact Hs' | lia].
Qed.

Lemma bs_read1_end s : at_end s = true -> bs_read1 s = Ret (0, s).
Proof. intros E. unfold bs_read1. rewrite E. reflexivity. Qed.

Lemma unread_some s : bs_ok s -> at_end s = false -> unread s <> [].
Proof.
  intros Hs E H. destruct (unread_next s Hs E) as (b & _ & _ & _ & Hu). rewrite H in Hu.
  apply (f_equal length) in Hu. rewrite length_app, length_drop, byte_bits_length in Hu.
  pose proof (ok_left s Hs). cbn [length] in Hu. lia.
Qed.

Lemma bs_read1_spec s c rest : bs_ok s -> unread s = c :: rest ->
  exists s', bs_read1 s = Ret (Z.b2z c, s') /\ bs_ok s' /\ unread s' = rest.
Proof.
  intros Hs Hu. destruct (at_end s) eqn:Ee; [rewrite (unread_end s Hs Ee) in Hu; discriminate|].
  destruct (bs_read_spec s 1 Hs ltac:(lia)) as (s' & E & Hok & Hun). exists s'.
  rewrite Hu in E, Hun. split_and!; [|exact Hok|exact Hun].
  destruct (unread_next s Hs Ee) as (b & Eb & Hb & _). pose proof (ok_left s Hs) as Hl.
  unfold bs_read in E. change (S (Z.to_nat 1)) with 2%nat in E. cbn [bs_read_loop] in E.
  rewrite Ee, Eb in E. cbn [Z.ltb obind] in E. rewrite (proj2 (Z.leb_le 0 (i_left s - 1))) in E by lia.
  rewrite mask_run in E by lia. cbn [obind Z.compare] in E. unfold bs_read1. rewrite Ee. cbn [negb mem p i_left].
  rewrite Eb. cbn [obind]. cbn [i_left] in E. injection E as Ev Es.
  rewrite Z.lor_0_l in Ev. change (nth (Z.to_nat 1) i_mask 0) with 1 in Ev.
  rewrite i32_id in Ev. 2:{ change 1 with (Z.ones 1). rewrite Z.land_ones by lia. wrap_lia. }
  rewrite Ev, Es. destruct c; reflexivity.
Qed.

Lemma bs_read1_total s : bs_ok s -> exists v s', bs_read1 s = Ret (v, s') /\ bs_ok s'.
Proof.
  intros Hs. destruct (unread s) as [|c rest] eqn:E.
  - destruct (at_end s) eqn:Ee; [rewrite bs_read1_end by exact Ee; eauto|]. destruct (unread_some s Hs Ee E).
  - destruct (bs_read1_spec s c rest Hs E) as (s' & -> & H & _). eauto.
Qed.

(** Exp-Golomb code: as many zeros as there are bits behind the first one of the
    number plus 1, then that number. *)
Fixpoint to_bits (k : nat) (v : Z) : list bool :=
  match k with O => [] | S k' => to_bits k' (v / 2) ++ [Z.odd v] end.

Definition ue_code (v : Z) : list bool :=
  let k := Z.to_nat (Z.log2 (v + 1)) in replicate k false ++ true :: to_bits k (v + 1).

Lemma to_bits_length k : forall v, length (to_bits k v) = k.
Proof. induction k as [|k IH]; intros v; [reflexivity|]. cbn. rewrite length_app, IH. cbn. lia. Qed.

Lemma val_to_bits k : forall v, val (to_bits k v) = v mod 2 ^ Z.of_nat k.
Proof.
  induction k as [|k IH]; intros v; [cbn; rewrite Z.mod_1_r; reflexivity|].
  cbn [to_bits]. rewrite val_app, IH. cbn [length]. rewrite (Nat2Z.inj_succ k), Z.pow_succ_r by lia.
  rewrite Z.rem_mul_r by (try apply Z.pow_pos_nonneg; lia). change (2 ^ Z.of_nat 1) with 2.
  unfold val. cbn [foldl]. rewrite Zmod_odd. destruct (Z.odd v); cbn [Z.b2z]; lia.
Qed.

Lemma count_zeros_spec k : forall fuel s i rest, bs_ok s -> (k < fuel)%nat -> i + Z.of_nat k <= 32 ->
  unread s = replicate k false ++ true :: rest ->
  exists s', count_zeros fuel s i = Ret (i + Z.of_nat k, s') /\ bs_ok s' /\ unread s' = rest.
Proof.
  induction k as [|k IH]; intros fuel s i rest Hs Hf Hi Hu; (destruct fuel as [|fuel]; [lia|]); cbn [count_zeros].
  - destruct (bs_read1_spec s true rest Hs Hu) as (s' & -> & Hok & Hun). cbn [obind]. cbn.
    exists s'. split; [f_equal; f_equal; lia | auto].
  - destruct (bs_read1_spec s false _ Hs Hu) as (s' & -> & Hok & Hun). cbn [obind].
    assert (Ee : at_end s' = false).
    { destruct (at_end s') eqn:Ee; [|reflexivity]. rewrite (unread_end s' Hok Ee) in Hun. destruct k; discriminate. }
    rewrite Ee, (proj2 (Z.ltb_lt i 32)) by lia. cbn [Z.b2z Z.eqb negb andb].
    destruct (IH fuel s' (i + 1) rest Hok ltac:(lia) ltac:(lia) Hun) as (s2 & -> & H). exists s2. split; [f_equal; f_equal; lia | exact H].
Qed.

Lemma count_zeros_total fuel : forall s i, bs_ok s -> 33 - i <= Z.of_nat fuel -> 0 <= i <= 32 ->
  exists v s', count_zeros fuel s i = Ret (v, s') /\ bs_ok s' /\ 0 <= v <= 32.
Proof.
  induction fuel as [|fuel IH]; intros s i Hs Hf Hi; [lia|]. cbn [count_zeros].
  destruct (bs_read1_total s Hs) as (b & s' & -> & Hok). cbn [obind].
  destruct ((b =? 0) && negb (at_end s') && (i <? 32)) eqn:E; [|eauto].
  apply andb_prop in E as [_ E]. apply Z.ltb_lt in E. apply IH; [exact Hok | lia | lia].
Qed.

Lemma bs_read_ue_total s : bs_ok s -> exists v s', bs_read_ue s = Ret (v, s') /\ bs_ok s'.
Proof.
  intros Hs. unfold bs_read_ue. destruct (count_zeros_total 33 s 0 Hs ltac:(lia) ltac:(lia)) as (i & s1 & -> & H1 & Hi).
  cbn [obind]. unfold bs_read. destruct (bs_read_loop_total (S (Z.to_nat i)) s1 i 0 H1 ltac:(lia)) as (v & s2 & -> & H2).
  cbn [obind]. eauto.
Qed.

Lemma bs_read_ue_spec s v rest : bs_ok s -> 0 <= v < 2147483647 -> unread s = ue_code v ++ rest ->
  exists s', bs_read_ue s = Ret (v, s') /\ bs_ok s' /\ unread s' = rest.
Proof.
  intros Hs Hv Hu. unfold ue_code in Hu. set (k := Z.log2 (v + 1)) in *.
  assert (Hk : 0 <= k <= 30).
  { split; [apply Z.log2_nonneg|]. apply Z.lt_succ_r, Z.log2_lt_pow2; [lia|]. change (2 ^ Z.succ 30) with 2147483648. lia. }
  destruct (Z.log2_spec (v + 1) ltac:(lia)) as [Hlo Hhi]. fold k in Hlo, Hhi. rewrite Z.pow_succ_r in Hhi by lia.
  rewrite <- app_assoc in Hu. cbn [app] in Hu. unfold bs_read_ue.
  destruct (count_zeros_spec (Z.to_nat k) 33 s 0 _ Hs ltac:(lia) ltac:(lia) Hu) as (s1 & -> & H1 & Hu1).
  rewrite Z.add_0_l, Z2Nat.id by lia. cbn [obind].
  destruct (bs_read_spec s1 k H1 ltac:(lia)) as (s2 & -> & H2 & Hu2). cbn [obind].
  rewrite Hu1 in *. exists s2. split_and!; [|exact H2|].
  - rewrite taken_le by (rewrite length_app, to_bits_length; lia).
    rewrite take_app_le, take_ge by (rewrite to_bits_length; lia). rewrite val_to_bits, Z2Nat.id by lia.
    replace (v + 1) with ((v + 1 - 2 ^ k) + 1 * 2 ^ k) by lia.
    rewrite Z.mod_add, Z.mod_small by lia. rewrite Z.shiftl_mul_pow2, Z.mul_1_l by lia.
    rewrite (i32_id (2 ^ k)) by (unfold is_i32; lia). rewrite i32_id by (unfold is_i32; lia). f_equal. f_equal. lia.
  - rewrite Hu2, drop_app_ge by (rewrite to_bits_length; lia). rewrite to_bits_length, Nat.sub_diag. reflexivity.
Qed.
