(* ===== verification/TsCrc.v ===== *)
(** * CRC-32 of the transport stream tables (ts/crc.h, ts/Mycrc_32.cpp)

    The table-driven checksum of the code against the division of the message by
    the generator polynomial, bit by bit, and the property that makes it a
    checksum: a section followed by its checksum has the remainder 0. *)

From S2P Require Import Prelude.

Local Open Scope Z_scope.

Definition crc_tab : list Z := [
  0x00000000; 0x04c11db7; 0x09823b6e; 0x0d4326d9; 0x130476dc; 0x17c56b6b; 0x1a864db2; 0x1e475005;
  0x2608edb8; 0x22c9f00f; 0x2f8ad6d6; 0x2b4bcb61; 0x350c9b64; 0x31cd86d3; 0x3c8ea00a; 0x384fbdbd;
  0x4c11db70; 0x48d0c6c7; 0x4593e01e; 0x4152fda9; 0x5f15adac; 0x5bd4b01b; 0x569796c2; 0x52568b75;
  0x6a1936c8; 0x6ed82b7f; 0x639b0da6; 0x675a1011; 0x791d4014; 0x7ddc5da3; 0x709f7b7a; 0x745e66cd;
  0x9823b6e0; 0x9ce2ab57; 0x91a18d8e; 0x95609039; 0x8b27c03c; 0x8fe6dd8b; 0x82a5fb52; 0x8664e6e5;
  0xbe2b5b58; 0xbaea46ef; 0xb7a96036; 0xb3687d81; 0xad2f2d84; 0xa9ee3033; 0xa4ad16ea; 0xa06c0b5d;
  0xd4326d90; 0xd0f37027; 0xddb056fe; 0xd9714b49; 0xc7361b4c; 0xc3f706fb; 0xceb42022; 0xca753d95;
  0xf23a8028; 0xf6fb9d9f; 0xfbb8bb46; 0xff79a6f1; 0xe13ef6f4; 0xe5ffeb43; 0xe8bccd9a; 0xec7dd02d;
  0x34867077; 0x30476dc0; 0x3d044b19; 0x39c556ae; 0x278206ab; 0x23431b1c; 0x2e003dc5; 0x2ac12072;
  0x128e9dcf; 0x164f8078; 0x1b0ca6a1; 0x1fcdbb16; 0x018aeb13; 0x054bf6a4; 0x0808d07d; 0x0cc9cdca;
  0x7897ab07; 0x7c56b6b0; 0x71159069; 0x75d48dde; 0x6b93dddb; 0x6f52c06c; 0x6211e6b5; 0x66d0fb02;
  0x5e9f46bf; 0x5a5e5b08; 0x571d7dd1; 0x53dc6066; 0x4d9b3063; 0x495a2dd4; 0x44190b0d; 0x40d816ba;
  0xaca5c697; 0xa864db20; 0xa527fdf9; 0xa1e6e04e; 0xbfa1b04b; 0xbb60adfc; 0xb6238b25; 0xb2e29692;
  0x8aad2b2f; 0x8e6c3698; 0x832f1041; 0x87ee0df6; 0x99a95df3; 0x9d684044; 0x902b669d; 0x94ea7b2a;
  0xe0b41de7; 0xe4750050; 0xe9362689; 0xedf73b3e; 0xf3b06b3b; 0xf771768c; 0xfa325055; 0xfef34de2;
  0xc6bcf05f; 0xc27dede8; 0xcf3ecb31; 0xcbffd686; 0xd5b88683; 0xd1799b34; 0xdc3abded; 0xd8fba05a;
  0x690ce0ee; 0x6dcdfd59; 0x608edb80; 0x644fc637; 0x7a089632; 0x7ec98b85; 0x738aad5c; 0x774bb0eb;
  0x4f040d56; 0x4bc510e1; 0x46863638; 0x42472b8f; 0x5c007b8a; 0x58c1663d; 0x558240e4; 0x51435d53;
  0x251d3b9e; 0x21dc2629; 0x2c9f00f0; 0x285e1d47; 0x36194d42; 0x32d850f5; 0x3f9b762c; 0x3b5a6b9b;
  0x0315d626; 0x07d4cb91; 0x0a97ed48; 0x0e56f0ff; 0x1011a0fa; 0x14d0bd4d; 0x19939b94; 0x1d528623;
  0xf12f560e; 0xf5ee4bb9; 0xf8ad6d60; 0xfc6c70d7; 0xe22b20d2; 0xe6ea3d65; 0xeba91bbc; 0xef68060b;
  0xd727bbb6; 0xd3e6a601; 0xdea580d8; 0xda649d6f; 0xc423cd6a; 0xc0e2d0dd; 0xcda1f604; 0xc960ebb3;
  0xbd3e8d7e; 0xb9ff90c9; 0xb4bcb610; 0xb07daba7; 0xae3afba2; 0xaafbe615; 0xa7b8c0cc; 0xa379dd7b;
  0x9b3660c6; 0x9ff77d71; 0x92b45ba8; 0x9675461f; 0x8832161a; 0x8cf30bad; 0x81b02d74; 0x857130c3;
  0x5d8a9099; 0x594b8d2e; 0x5408abf7; 0x50c9b640; 0x4e8ee645; 0x4a4ffbf2; 0x470cdd2b; 0x43cdc09c;
  0x7b827d21; 0x7f436096; 0x7200464f; 0x76c15bf8; 0x68860bfd; 0x6c47164a; 0x61043093; 0x65c52d24;
  0x119b4be9; 0x155a565e; 0x18197087; 0x1cd86d30; 0x029f3d35; 0x065e2082; 0x0b1d065b; 0x0fdc1bec;
  0x3793a651; 0x3352bbe6; 0x3e119d3f; 0x3ad08088; 0x2497d08d; 0x2056cd3a; 0x2d15ebe3; 0x29d4f654;
  0xc5a92679; 0xc1683bce; 0xcc2b1d17; 0xc8ea00a0; 0xd6ad50a5; 0xd26c4d12; 0xdf2f6bcb; 0xdbee767c;
  0xe3a1cbc1; 0xe760d676; 0xea23f0af; 0xeee2ed18; 0xf0a5bd1d; 0xf464a0aa; 0xf9278673; 0xfde69bc4;
  0x89b8fd09; 0x8d79e0be; 0x803ac667; 0x84fbdbd0; 0x9abc8bd5; 0x9e7d9662; 0x933eb0bb; 0x97ffad0c;
  0xafb010b1; 0xab710d06; 0xa6322bdf; 0xa2f33668; 0xbcb4666d; 0xb8757bda; 0xb5365d03; 0xb1f740b4].

Definition crctable : list Z := [
  0x00000000; 0x04c11db7; 0x09823b6e; 0x0d4326d9; 0x130476dc; 0x17c56b6b; 0x1a864db2; 0x1e475005;
  0x2608edb8; 0x22c9f00f; 0x2f8ad6d6; 0x2b4bcb61; 0x350c9b64; 0x31cd86d3; 0x3c8ea00a; 0x384fbdbd;
  0x4c11db70; 0x48d0c6c7; 0x4593e01e; 0x4152fda9; 0x5f15adac; 0x5bd4b01b; 0x569796c2; 0x52568b75;
  0x6a1936c8; 0x6ed82b7f; 0x639b0da6; 0x675a1011; 0x791d4014; 0x7ddc5da3; 0x709f7b7a; 0x745e66cd;
  0x9823b6e0; 0x9ce2ab57; 0x91a18d8e; 0x95609039; 0x8b27c03c; 0x8fe6dd8b; 0x82a5fb52; 0x8664e6e5;
  0xbe2b5b58; 0xbaea46ef; 0xb7a96036; 0xb3687d81; 0xad2f2d84; 0xa9ee3033; 0xa4ad16ea; 0xa06c0b5d;
  0xd4326d90; 0xd0f37027; 0xddb056fe; 0xd9714b49; 0xc7361b4c; 0xc3f706fb; 0xceb42022; 0xca753d95;
  0xf23a8028; 0xf6fb9d9f; 0xfbb8bb46; 0xff79a6f1; 0xe13ef6f4; 0xe5ffeb43; 0xe8bccd9a; 0xec7dd02d;
  0x34867077; 0x30476dc0; 0x3d044b19; 0x39c556ae; 0x278206ab; 0x23431b1c; 0x2e003dc5; 0x2ac12072;
  0x128e9dcf; 0x164f8078; 0x1b0ca6a1; 0x1fcdbb16; 0x018aeb13; 0x054bf6a4; 0x0808d07d; 0x0cc9cdca;
  0x7897ab07; 0x7c56b6b0; 0x71159069; 0x75d48dde; 0x6b93dddb; 0x6f52c06c; 0x6211e6b5; 0x66d0fb02;
  0x5e9f46bf; 0x5a5e5b08; 0x571d7dd1; 0x53dc6066; 0x4d9b3063; 0x495a2dd4; 0x44190b0d; 0x40d816ba;
  0xaca5c697; 0xa864db20; 0xa527fdf9; 0xa1e6e04e; 0xbfa1b04b; 0xbb60adfc; 0xb6238b25; 0xb2e29692;
  0x8aad2b2f; 0x8e6c3698; 0x832f1041; 0x87ee0df6; 0x99a95df3; 0x9d684044; 0x902b669d; 0x94ea7b2a;
  0xe0b41de7; 0xe4750050; 0xe9362689; 0xedf73b3e; 0xf3b06b3b; 0xf771768c; 0xfa325055; 0xfef34de2;
  0xc6bcf05f; 0xc27dede8; 0xcf3ecb31; 0xcbffd686; 0xd5b88683; 0xd1799b34; 0xdc3abded; 0xd8fba05a;
  0x690ce0ee; 0x6dcdfd59; 0x608edb80; 0x644fc637; 0x7a089632; 0x7ec98b85; 0x738aad5c; 0x774bb0eb;
  0x4f040d56; 0x4bc510e1; 0x46863638; 0x42472b8f; 0x5c007b8a; 0x58c1663d; 0x558240e4; 0x51435d53;
  0x251d3b9e; 0x21dc2629; 0x2c9f00f0; 0x285e1d47; 0x36194d42; 0x32d850f5; 0x3f9b762c; 0x3b5a6b9b;
  0x0315d626; 0x07d4cb91; 0x0a97ed48; 0x0e56f0ff; 0x1011a0fa; 0x14d0bd4d; 0x19939b94; 0x1d528623;
  0xf12f560e; 0xf5ee4bb9; 0xf8ad6d60; 0xfc6c70d7; 0xe22b20d2; 0xe6ea3d65; 0xeba91bbc; 0xef68060b;
  0xd727bbb6; 0xd3e6a601; 0xdea580d8; 0xda649d6f; 0xc423cd6a; 0xc0e2d0dd; 0xcda1f604; 0xc960ebb3;
  0xbd3e8d7e; 0xb9ff90c9; 0xb4bcb610; 0xb07daba7; 0xae3afba2; 0xaafbe615; 0xa7b8c0cc; 0xa379dd7b;
  0x9b3660c6; 0x9ff77d71; 0x92b45ba8; 0x9675461f; 0x8832161a; 0x8cf30bad; 0x81b02d74; 0x857130c3;
  0x5d8a9099; 0x594b8d2e; 0x5408abf7; 0x50c9b640; 0x4e8ee645; 0x4a4ffbf2; 0x470cdd2b; 0x43cdc09c;
  0x7b827d21; 0x7f436096; 0x7200464f; 0x76c15bf8; 0x68860bfd; 0x6c47164a; 0x61043093; 0x65c52d24;
  0x119b4be9; 0x155a565e; 0x18197087; 0x1cd86d30; 0x029f3d35; 0x065e2082; 0x0b1d065b; 0x0fdc1bec;
  0x3793a651; 0x3352bbe6; 0x3e119d3f; 0x3ad08088; 0x2497d08d; 0x2056cd3a; 0x2d15ebe3; 0x29d4f654;
  0xc5a92679; 0xc1683bce; 0xcc2b1d17; 0xc8ea00a0; 0xd6ad50a5; 0xd26c4d12; 0xdf2f6bcb; 0xdbee767c;
  0xe3a1cbc1; 0xe760d676; 0xea23f0af; 0xeee2ed18; 0xf0a5bd1d; 0xf464a0aa; 0xf9278673; 0xfde69bc4;
  0x89b8fd09; 0x8d79e0be; 0x803ac667; 0x84fbdbd0; 0x9abc8bd5; 0x9e7d9662; 0x933eb0bb; 0x97ffad0c;
  0xafb010b1; 0xab710d06; 0xa6322bdf; 0xa2f33668; 0xbcb4666d; 0xb8757bda; 0xb5365d03; 0xb1f740b4].

Definition crc_step (crc b : Z) : Z :=
  Z.lxor (u32 (Z.shiftl crc 8)) (nth (Z.to_nat (Z.land (Z.lxor (Z.shiftr crc 24) b) 0xff)) crc_tab 0).

Definition calc_crc32 (data : list Z) : Z := foldl crc_step 0xffffffff data.

Definition CalculateCRC_32 (aData : list Z) : Z :=
  foldl (fun crc32 b => let tabitem := Z.lxor (Z.shiftr crc32 24) b in
                        Z.lxor (u32 (Z.shiftl crc32 8)) (nth (Z.to_nat tabitem) crctable 0)) 0 aData.

Definition BSWAP16C (x : Z) : Z :=
  Z.lor (Z.land (u32 (Z.shiftl x 8)) 0xff00) (Z.land (Z.shiftr x 8) 0x00ff).
Definition BSWAP32C (x : Z) : Z :=
  Z.lor (u32 (Z.shiftl (BSWAP16C x) 16)) (BSWAP16C (Z.shiftr x 16)).

(** The target is little endian. *)
Definition Zwg_ntohl (s : Z) : Z := BSWAP32C s.

(** ** The polynomial *)

Definition polynomial : Z := 0x04c11db7.

(** One step of the division. *)
Definition divide1 (c : Z) : Z :=
  if Z.testbit c 31 then Z.lxor (u32 (Z.shiftl c 1)) polynomial else u32 (Z.shiftl c 1).

Definition divide_byte (c b : Z) : Z := Nat.iter 8 divide1 (Z.lxor c (Z.shiftl b 24)).

(** The remainder of a message, most significant bit first, with the register
    preset to ones. *)
Definition crc_ref (data : list Z) : Z := foldl divide_byte 0xffffffff data.

Lemma u32_lxor a b : u32 (Z.lxor a b) = Z.lxor (u32 a) (u32 b).
Proof.
  unfold u32. change 4294967296 with (2 ^ 32). rewrite <- !Z.land_ones by lia. apply Z.bits_inj'. intros n Hn.
  rewrite ?Z.land_spec, ?Z.lxor_spec, ?Z.land_spec.
  destruct (Z.testbit a n), (Z.testbit b n), (Z.testbit (Z.ones 32) n); reflexivity.
Qed.

Lemma divide1_lxor a b : divide1 (Z.lxor a b) = Z.lxor (divide1 a) (divide1 b).
Proof.
  unfold divide1. rewrite Z.lxor_spec, Z.shiftl_lxor, u32_lxor.
  destruct (Z.testbit a 31), (Z.testbit b 31); cbn [xorb].
  - rewrite (Z.lxor_comm (u32 (Z.shiftl b 1)) polynomial), Z.lxor_assoc.
    rewrite <- (Z.lxor_assoc polynomial), Z.lxor_nilpotent, Z.lxor_0_l. reflexivity.
  - rewrite !Z.lxor_assoc. f_equal. apply Z.lxor_comm.
  - rewrite Z.lxor_assoc. reflexivity.
  - reflexivity.
Qed.

Lemma divide_lxor n a b : Nat.iter n divide1 (Z.lxor a b) = Z.lxor (Nat.iter n divide1 a) (Nat.iter n divide1 b).
Proof. induction n as [|n IH]; [reflexivity|]. rewrite !Nat.iter_succ, IH. apply divide1_lxor. Qed.

(** Below the register's top nothing is divided. *)
Lemma divide_low n : forall c, 0 <= c < 2 ^ (32 - Z.of_nat n) -> (n <= 32)%nat -> Nat.iter n divide1 c = c * 2 ^ Z.of_nat n.
Proof.
  induction n as [|n IH]; intros c Hc Hn; [cbn; lia|].
  assert (Hp : 2 ^ (32 - Z.of_nat n) = 2 * 2 ^ (32 - Z.of_nat (S n))).
  { rewrite <- Z.pow_succ_r by lia. f_equal. lia. }
  assert (Hq : 2 ^ Z.of_nat (S n) = 2 * 2 ^ Z.of_nat n) by (rewrite Nat2Z.inj_succ, Z.pow_succ_r by lia; reflexivity).
  assert (Hr : 2 ^ (32 - Z.of_nat (S n)) * 2 ^ Z.of_nat n = 2 ^ 31) by (rewrite <- Z.pow_add_r by lia; f_equal; lia).
  assert (Hpos : 0 < 2 ^ Z.of_nat n) by (apply Z.pow_pos_nonneg; lia).
  rewrite Nat.iter_succ, IH by lia. unfold divide1.
  assert (Hlt : 0 <= c * 2 ^ Z.of_nat n < 2 ^ 31) by nia.
  replace (Z.testbit (c * 2 ^ Z.of_nat n) 31) with false.
  2:{ symmetry. rewrite Z.testbit_false by lia. rewrite Z.div_small by lia. reflexivity. }
  rewrite Z.shiftl_mul_pow2 by lia. rewrite u32_id by (unfold is_u32; lia). rewrite Hq. lia.
Qed.

Definition table_check (t : nat) : bool := nth t crc_tab 0 =? Nat.iter 8 divide1 (Z.shiftl (Z.of_nat t) 24).
Lemma table_all : forallb table_check (seq 0 256) = true.
Proof. vm_compute. reflexivity. Qed.

Lemma table_entry t : is_u8 t -> nth (Z.to_nat t) crc_tab 0 = Nat.iter 8 divide1 (Z.shiftl t 24).
Proof.
  intros Ht. pose proof table_all as H. rewrite forallb_forall in H.
  specialize (H (Z.to_nat t) ltac:(apply in_seq; rlia)). unfold table_check in H.
  rewrite Z2Nat.id in H by rlia. apply Z.eqb_eq in H. exact H.
Qed.

Lemma land_ff x : Z.land x 0xff = x mod 256.
Proof. change 0xff with (Z.ones 8). apply Z.land_ones. lia. Qed.

(** A register splits into its top byte and the rest. *)
Lemma crc_split c : is_u32 c -> c = Z.lxor (Z.shiftl (Z.shiftr c 24) 24) (c mod 2 ^ 24).
Proof.
  intros Hc. rewrite Z.shiftr_div_pow2 by lia. apply Z.bits_inj'. intros n Hn.
  rewrite Z.lxor_spec. destruct (Z.lt_ge_cases n 24).
  - rewrite Z.shiftl_spec_low, Z.mod_pow2_bits_low by lia. reflexivity.
  - rewrite Z.shiftl_spec_high, Z.mod_pow2_bits_high, Z.div_pow2_bits by lia. rewrite xorb_false_r. f_equal. lia.
Qed.

Lemma u8_lxor a b : is_u8 a -> is_u8 b -> is_u8 (Z.lxor a b).
Proof.
  intros Ha Hb. unfold is_u8 in *. change 256 with (2 ^ 8) in *.
  assert (E : Z.lxor a b = Z.lxor a b mod 2 ^ 8).
  { apply Z.bits_inj'. intros n Hn. destruct (Z.lt_ge_cases n 8).
    - rewrite Z.mod_pow2_bits_low by lia. reflexivity.
    - rewrite Z.mod_pow2_bits_high by lia. rewrite Z.lxor_spec.
      rewrite <- (Z.mod_small a (2 ^ 8)), <- (Z.mod_small b (2 ^ 8)) by lia.
      rewrite !Z.mod_pow2_bits_high by lia. reflexivity. }
  rewrite E. apply Z.mod_pos_bound. lia.
Qed.

Lemma top_byte c : is_u32 c -> is_u8 (Z.shiftr c 24).
Proof. intros H. rewrite Z.shiftr_div_pow2 by lia. change (2 ^ 24) with 16777216. wrap_lia. Qed.

(** The step of the code is eight steps of the division. *)
Lemma crc_step_divides c b : is_u32 c -> is_u8 b -> crc_step c b = divide_byte c b.
Proof.
  intros Hc Hb. pose proof (top_byte c Hc) as Ht. pose proof (u8_lxor _ _ Ht Hb) as Hx.
  unfold crc_step, divide_byte. rewrite land_ff, Z.mod_small, table_entry by assumption.
  replace (Z.lxor c (Z.shiftl b 24)) with (Z.lxor (Z.shiftl (Z.lxor (Z.shiftr c 24) b) 24) (c mod 2 ^ 24)).
  2:{ rewrite Z.shiftl_lxor. rewrite (crc_split c Hc) at 3. rewrite !Z.lxor_assoc. f_equal. apply Z.lxor_comm. }
  rewrite divide_lxor, (Z.lxor_comm (u32 _)). f_equal.
  rewrite divide_low by (cbn; try lia; apply Z.mod_pos_bound; lia).
  unfold u32. rewrite Z.shiftl_mul_pow2 by lia. change 4294967296 with (2 ^ 24 * 2 ^ 8).
  rewrite Z.mul_mod_distr_r by lia. reflexivity.
Qed.

Lemma u32_lxor_range a b : is_u32 a -> is_u32 b -> is_u32 (Z.lxor a b).
Proof. intros Ha Hb. rewrite <- (u32_id a Ha), <- (u32_id b Hb), <- u32_lxor. apply u32_range. Qed.

Lemma table_range n : is_u32 (nth n crc_tab 0).
Proof.
  assert (H : Forall is_u32 crc_tab).
  { assert (Hb : forallb (fun x => (0 <=? x) && (x <? 4294967296)) crc_tab = true) by (vm_compute; reflexivity).
    apply Forall_forall. intros x Hx. rewrite forallb_forall in Hb. apply list_elem_of_In in Hx.
    specialize (Hb x Hx). apply andb_prop in Hb as [H1 H2]. unfold is_u32. lia. }
  destruct (nth_in_or_default n crc_tab 0) as [Hin| ->]; [|unfold is_u32; lia].
  apply (proj1 (Forall_forall _ _) H), list_elem_of_In, Hin.
Qed.

Lemma crc_step_range c b : is_u32 (crc_step c b).
Proof. apply u32_lxor_range; [apply u32_range | apply table_range]. Qed.

Lemma crc_fold_ref data : forall c, is_u32 c -> Forall is_u8 data -> foldl crc_step c data = foldl divide_byte c data.
Proof.
  induction data as [|b data IH]; intros c Hc Hd; [reflexivity|]. apply Forall_cons in Hd as [Hb Hd]. cbn [foldl].
  rewrite <- crc_step_divides by assumption. apply IH; [apply crc_step_range | exact Hd].
Qed.

Lemma calc_crc32_range data : is_u32 (calc_crc32 data).
Proof.
  unfold calc_crc32. destruct data as [|b data _] using rev_ind; [unfold is_u32; cbn; lia|].
  rewrite foldl_app. apply crc_step_range.
Qed.

(** ** The stored bytes *)

(** [memcpy] of the low four bytes of an integer. *)
Definition le32 (v : Z) : list Z := [u8 v; u8 (Z.shiftr v 8); u8 (Z.shiftr v 16); u8 (Z.shiftr v 24)].
Definition be32 (v : Z) : list Z := [u8 (Z.shiftr v 24); u8 (Z.shiftr v 16); u8 (Z.shiftr v 8); u8 v].

Lemma swap16 x : 0 <= x -> BSWAP16C x = 256 * (x mod 256) + x / 256 mod 256.
Proof.
  intros Hx. unfold BSWAP16C. change 0x00ff with 0xff. rewrite land_ff, Z.shiftr_div_pow2 by lia.
  replace (Z.land (u32 (Z.shiftl x 8)) 0xff00) with (Z.shiftl (x mod 256) 8).
  2:{ unfold u32. rewrite (Z.shiftl_mul_pow2 x) by lia. change 4294967296 with (2 ^ 24 * 2 ^ 8). rewrite Z.mul_mod_distr_r by lia.
      rewrite <- (Z.shiftl_mul_pow2 (x mod 2 ^ 24)) by lia. change 0xff00 with (Z.shiftl 0xff 8). rewrite <- Z.shiftl_land, land_ff.
      f_equal. change 256 with (2 ^ 8). change (2 ^ 24) with (2 ^ 8 * 2 ^ 16). rewrite Z.rem_mul_r by lia.
      rewrite (Z.mul_comm (2 ^ 8)), Z.mod_add, Z.mod_mod by lia. reflexivity. }
  rewrite lor_shiftl_add by (try lia; apply Z.mod_pos_bound; lia). change (2 ^ 8) with 256. lia.
Qed.

Lemma stored_crc c : is_u32 c -> le32 (Zwg_ntohl c) = be32 c.
Proof.
  intros Hc. unfold Zwg_ntohl, BSWAP32C. rewrite (swap16 c), (swap16 (Z.shiftr c 16)) by (try apply Z.shiftr_nonneg; rlia).
  rewrite !Z.shiftr_div_pow2 by lia. change (2 ^ 16) with 65536.
  rewrite (u32_id (Z.shiftl _ 16)).
  2:{ rewrite Z.shiftl_mul_pow2 by lia. change (2 ^ 16) with 65536. wrap_lia. }
  rewrite lor_shiftl_add by (try lia; change (2 ^ 16) with 65536; wrap_lia).
  unfold le32, be32. rewrite !Z.shiftr_div_pow2 by lia. change (2 ^ 16) with 65536. change (2 ^ 24) with 16777216. change (2 ^ 8) with 256.
  repeat (f_equal; try wrap_lia).
Qed.

(** Appending the checksum leaves no remainder. *)
Lemma crc_residue c : is_u32 c -> foldl crc_step c (be32 c) = 0.
Proof.
  assert (Hs : forall x, is_u32 x -> crc_step x (u8 (Z.shiftr x 24)) = u32 (Z.shiftl x 8)).
  { intros x Hx. pose proof (top_byte x Hx) as Ht. unfold crc_step, u8. rewrite (Z.mod_small (Z.shiftr x 24)) by exact Ht.
    rewrite Z.lxor_nilpotent. cbn. apply Z.lxor_0_r. }
  intros Hc. unfold be32. cbn [foldl]. rewrite (Hs c Hc).
  assert (E1 : u8 (Z.shiftr c 16) = u8 (Z.shiftr (u32 (Z.shiftl c 8)) 24)).
  { rewrite Z.shiftl_mul_pow2, !Z.shiftr_div_pow2 by lia. change (2 ^ 16) with 65536. change (2 ^ 24) with 16777216. change (2 ^ 8) with 256. wrap_lia. }
  rewrite E1, Hs by apply u32_range.
  set (c1 := u32 (Z.shiftl c 8)). assert (H1 : c1 = (c * 256) mod 4294967296) by (unfold c1, u32; rewrite Z.shiftl_mul_pow2 by lia; reflexivity).
  set (c2 := u32 (Z.shiftl c1 8)). assert (H2 : c2 = (c * 65536) mod 4294967296).
  { unfold c2, u32. rewrite Z.shiftl_mul_pow2, H1 by lia. rewrite Z.mul_mod_idemp_l by lia. f_equal. lia. }
  assert (E2 : u8 (Z.shiftr c 8) = u8 (Z.shiftr c2 24)).
  { rewrite H2, !Z.shiftr_div_pow2 by lia. change (2 ^ 24) with 16777216. change (2 ^ 8) with 256. wrap_lia. }
  rewrite E2, Hs by (unfold c2; apply u32_range).
  set (c3 := u32 (Z.shiftl c2 8)). assert (H3 : c3 = (c * 16777216) mod 4294967296).
  { unfold c3, u32. rewrite Z.shiftl_mul_pow2, H2 by lia. rewrite Z.mul_mod_idemp_l by lia. f_equal. lia. }
  assert (E3 : u8 c = u8 (Z.shiftr c3 24)).
  { rewrite H3, !Z.shiftr_div_pow2 by lia. change (2 ^ 24) with 16777216. wrap_lia. }
  rewrite E3, Hs by (unfold c3; apply u32_range).
  unfold u32 at 1. rewrite Z.shiftl_mul_pow2, H3 by lia. rewrite Z.mul_mod_idemp_l by lia.
  replace (c * 16777216 * 2 ^ 8) with (c * 4294967296) by lia. apply Z.mod_mul. lia.
Qed.
