(* ===== verification/TsPacket.v ===== *)
(** * Transport stream packets (ts/Ts.h, ts/Ts.cpp, ts/FileIo.cpp)

    The muxer's session, the packet header with its continuity counters, and the
    two tables a receiver starts from.  [written] is the list of the buffers
    handed to the session's [writets] callback, which the code does not have.
    The scratch block [m_One_Frame_Buf] is left out: [Write_Pat] and [Write_Pmt]
    fill the 188 bytes they hand on. *)

From S2P Require Import Prelude TsCrc.

Local Open Scope Z_scope.

Definition TS_PACKET_SIZE : nat := 188.
Definition TS_SYNC_BYTE : Z := 0x47.
Definition TS_PAT_PID : Z := 0x00.
Definition TS_PMT_PID : Z := 0xFFF.
Definition TS_H264_PID : Z := 0x100.
Definition TS_AAC_PID : Z := 0x101.
Definition TS_H264_STREAM_ID : Z := 0xE0.
Definition TS_AAC_STREAM_ID : Z := 0xC0.
Definition PMT_STREAM_TYPE_VIDEO : Z := 0x1B.
Definition PMT_STREAM_TYPE_AUDIO : Z := 0x0F.
Definition MAX_ONE_FRAME_SIZE : Z := 1024 * 1024.

Record Continuity_Counter := mkCounter {
  continuity_counter_pat : Z; continuity_counter_pmt : Z;
  continuity_counter_video : Z; continuity_counter_audio : Z }.

(** [struct Tag_TsPtsDts], the half that is used. *)
Record TsPtsDts := mkPts {
  reserved_1 : Z; pts_32_30 : Z; marker_bit1 : Z; pts_29_15 : Z; marker_bit2 : Z; pts_14_0 : Z; marker_bit3 : Z }.

(** [struct Tag_TsPes].  [Es] is the array of [MAX_ONE_FRAME_SIZE] bytes up to
    the last one that was written since it was cleared; the bytes behind are
    zero. *)
Record TsPes := mkPes {
  packet_start_code_prefix : Z; stream_id : Z; PES_packet_length : Z; marker_bit : Z;
  PES_scrambling_control : Z; PES_priority : Z; data_alignment_indicator : Z; copyright : Z;
  original_or_copy : Z; PTS_DTS_flags : Z; ESCR_flag : Z; ES_rate_flag : Z; DSM_trick_mode_flag : Z;
  additional_copy_info_flag : Z; PES_CRC_flag : Z; PES_extension_flag : Z; PES_header_data_length : Z;
  tsptsdts : TsPtsDts; Es : list Z; Pes_Packet_Length_Beyond : Z }.

Definition pes0 : TsPes := mkPes 0 0 0 0 0 0 0 0 0 0 0 0 0 0 0 0 0 (mkPts 0 0 0 0 0 0 0) [] 0.

Record TSPKG_SESSION := mkSession {
  continuity_counter : Continuity_Counter; m_video_tspes : TsPes; m_audio_tspes : TsPes;
  WritePacketNum : Z; Timestamp_video : Z; Timestamp_audio : Z; pts : Z;
  decode_video_done : Z; decode_audio_done : Z; writets : bool; written : list (list Z) }.

Definition session_eta (s : TSPKG_SESSION) : TSPKG_SESSION :=
  mkSession (continuity_counter s) (m_video_tspes s) (m_audio_tspes s) (WritePacketNum s) (Timestamp_video s)
    (Timestamp_audio s) (pts s) (decode_video_done s) (decode_audio_done s) (writets s) (written s).

#[export] Instance set_continuity_counter : Setter continuity_counter := ltac:(mk_setter session_eta).
#[export] Instance set_m_video_tspes : Setter m_video_tspes := ltac:(mk_setter session_eta).
#[export] Instance set_m_audio_tspes : Setter m_audio_tspes := ltac:(mk_setter session_eta).
#[export] Instance set_WritePacketNum : Setter WritePacketNum := ltac:(mk_setter session_eta).
#[export] Instance set_Timestamp_video : Setter Timestamp_video := ltac:(mk_setter session_eta).
#[export] Instance set_Timestamp_audio : Setter Timestamp_audio := ltac:(mk_setter session_eta).
#[export] Instance set_pts : Setter pts := ltac:(mk_setter session_eta).
#[export] Instance set_decode_video_done : Setter decode_video_done := ltac:(mk_setter session_eta).
#[export] Instance set_decode_audio_done : Setter decode_audio_done := ltac:(mk_setter session_eta).
#[export] Instance set_written : Setter written := ltac:(mk_setter session_eta).

(** ** Buffers *)

(** [memset] of [n] bytes at [b + i]. *)
Definition memset (b : list Z) (i : nat) (v : Z) (n : nat) : outcome (list Z) := stores b i (repeat v n).

Definition WriteFile (session : TSPKG_SESSION) (Buffer : list Z) : TSPKG_SESSION :=
  if writets session then session <| written := written session ++ [Buffer] |> else session.

(** ** Header *)

(** The counter of a PID and the counters with it counted up; [None] for a PID
    the code does not know. *)
Definition count_packet (c : Continuity_Counter) (PID : Z) : option (Z * Continuity_Counter) :=
  let '(mkCounter a b v d) := c in
  if PID =? TS_PAT_PID then Some (a mod 16, mkCounter (u8 (a + 1)) b v d)
  else if PID =? TS_PMT_PID then Some (b mod 16, mkCounter a (u8 (b + 1)) v d)
  else if PID =? TS_H264_PID then Some (v mod 16, mkCounter a b (u8 (v + 1)) d)
  else if PID =? TS_AAC_PID then Some (d mod 16, mkCounter a b v (u8 (d + 1)))
  else None.

Section Header.

(** The value of a variable that was never assigned. *)
Variable indeterminate : Z.

(** The bit-fields keep the low bits of what is assigned to them. *)
Definition WriteStruct_Packetheader (session : TSPKG_SESSION) (Buf : list Z) (PID play_init ada_field_C : Z)
  : outcome (TSPKG_SESSION * list Z) :=
  let '(conti_cter, session) :=
    match count_packet (continuity_counter session) PID with
    | Some (n, c) => (n, session <| continuity_counter := c |>)
    | None => (indeterminate, session)
    end in
  let h_play_init := play_init mod 2 in
  let h_PID := PID mod 8192 in
  let h_ada := ada_field_C mod 4 in
  let h_cter := conti_cter mod 16 in
  let! Buf := stores Buf 0 [TS_SYNC_BYTE;
    Z.lor (Z.lor (Z.lor (Z.shiftl 0 7) (Z.shiftl h_play_init 6)) (Z.shiftl 0 5)) (Z.land (Z.shiftr h_PID 8) 0x1f);
    Z.land h_PID 0x00ff;
    Z.lor (Z.lor (Z.shiftl 0 6) (Z.shiftl h_ada 4)) h_cter] in
  Ret (session, Buf).

(** ** Tables *)

Definition WriteStruct_Pat (session : TSPKG_SESSION) : outcome (TSPKG_SESSION * list Z) :=
  let Buf := repeat 0xFF TS_PACKET_SIZE in
  let section_length := 0x0d in
  let transport_stream_id := 0x01 in
  let program_number := 0x01 in
  let program_map_PID := TS_PMT_PID in
  let! (session, Buf) := WriteStruct_Packetheader session Buf TS_PAT_PID 0x01 0x01 in
  let! Buf := stores Buf 4 [0] in
  let! Buf := stores Buf 5 [0x00;
    Z.lor (Z.lor (Z.lor (Z.shiftl 1 7) (Z.shiftl 0 6)) (Z.shiftl 3 4)) (Z.land (Z.shiftr section_length 8) 0x0F);
    Z.land section_length 0x00FF;
    Z.shiftr transport_stream_id 8;
    Z.land transport_stream_id 0x00FF;
    Z.lor (Z.lor (Z.shiftl 3 6) (Z.shiftl 0 1)) 1;
    0x00;
    0x00;
    Z.shiftr program_number 8;
    Z.land program_number 0x00FF;
    Z.lor (Z.shiftl 7 5) (Z.land (Z.shiftr program_map_PID 8) 0x0F);
    Z.land program_map_PID 0x00FF] in
  let PAT_CRC := Zwg_ntohl (calc_crc32 (take 12 (drop 5 Buf))) in
  let! Buf := stores Buf 17 (le32 PAT_CRC) in
  Ret (session, Buf).

Definition WriteStruct_Pmt (session : TSPKG_SESSION) : outcome (TSPKG_SESSION * list Z) :=
  let Buf := repeat 0xFF TS_PACKET_SIZE in
  let section_length := 0x17 in
  let program_number := 1 in
  let PCR_PID := TS_H264_PID in
  let program_info_length := 0x00 in
  let elementary_PID_video := TS_H264_PID in
  let ES_info_length_video := 0x00 in
  let elementary_PID_audio := TS_AAC_PID in
  let ES_info_length_audio := 0x00 in
  let! (session, Buf) := WriteStruct_Packetheader session Buf TS_PMT_PID 0x01 0x01 in
  let! Buf := stores Buf 4 [0] in
  let! Buf := stores Buf 5 [0x02;
    Z.lor (Z.lor (Z.lor (Z.shiftl 1 7) (Z.shiftl 0 6)) (Z.shiftl 3 4)) (Z.land (Z.shiftr section_length 8) 0x0F);
    Z.land section_length 0x00FF;
    Z.shiftr program_number 8;
    Z.land program_number 0x00FF;
    Z.lor (Z.lor (Z.shiftl 3 6) (Z.shiftl 0 1)) 1;
    0x00;
    0x00;
    Z.lor (Z.shiftl 7 5) (Z.land (Z.shiftr PCR_PID 8) 0x1F);
    Z.land PCR_PID 0x0FF;
    Z.lor (Z.shiftl 0x0F 4) (Z.land (Z.shiftr program_info_length 8) 0x0F);
    Z.land program_info_length 0xFF;
    PMT_STREAM_TYPE_VIDEO;
    Z.lor (Z.shiftl 7 5) (Z.land (Z.shiftr elementary_PID_video 8) 0x1F);
    Z.land elementary_PID_video 0x00FF;
    Z.lor (Z.shiftl 0x0F 4) (Z.land (Z.shiftr ES_info_length_video 8) 0x0F);
    Z.land ES_info_length_video 0x0FF;
    PMT_STREAM_TYPE_AUDIO;
    Z.lor (Z.shiftl 7 5) (Z.land (Z.shiftr elementary_PID_audio 8) 0x1F);
    Z.land elementary_PID_audio 0x00FF;
    Z.lor (Z.shiftl 0x0F 4) (Z.land (Z.shiftr ES_info_length_audio 8) 0x0F);
    Z.land ES_info_length_audio 0x0FF] in
  let pmt_pos := 27 in
  let len := pmt_pos - 8 + 4 in
  let len := if 0xffff <? len then 0 else len in
  let! Buf := stores Buf 6 [Z.lor 0xb0 (Z.shiftr len 8); len] in
  let PMT_CRC := Zwg_ntohl (calc_crc32 (take 22 (drop 5 Buf))) in
  let! Buf := stores Buf 27 (le32 PMT_CRC) in
  Ret (session, Buf).

Definition Write_Pat (session : TSPKG_SESSION) : outcome TSPKG_SESSION :=
  let! (session, buf) := WriteStruct_Pat session in Ret (WriteFile session buf).

Definition Write_Pmt (session : TSPKG_SESSION) : outcome TSPKG_SESSION :=
  let! (session, buf) := WriteStruct_Pmt session in Ret (WriteFile session buf).

End Header.

(** ** What a receiver reads *)

(** A packet as ISO/IEC 13818-1 defines it: PID, start of a unit, continuity
    counter and payload. *)
Record ts_packet := mkTs { pid : Z; unit_start : bool; counter : Z; payload : list Z }.

Definition parse_packet (b : list Z) : option ts_packet :=
  match b with
  | b0 :: b1 :: b2 :: b3 :: rest =>
      if (length b =? 188)%nat && (b0 =? 0x47) && (b1 <? 128) && (b3 <? 64) then
        let mk := mkTs (256 * (b1 mod 32) + b2) (b1 / 64 mod 2 =? 1) (b3 mod 16) in
        match b3 / 16 with
        | 1 => Some (mk rest)
        | 3 => match rest with
               | l :: r => if l <? 183 then Some (mk (drop (Z.to_nat l) r)) else None
               | [] => None
               end
        | _ => None
        end
      else None
  | _ => None
  end.

(** A section behind its pointer field: table id and body, if its length and its
    checksum are right. *)
Definition parse_section (pl : list Z) : option (Z * list Z) :=
  match pl with
  | 0 :: ((t :: l1 :: l2 :: body) as sec) =>
      let n := Z.to_nat (256 * (l1 mod 16) + l2) in
      if (4 <=? n)%nat && (n <=? length body)%nat && (foldl divide_byte 0xffffffff (take (3 + n) sec) =? 0)
      then Some (t, take (n - 4) body) else None
  | _ => None
  end.

(** The programs of a program association table, with the PID of their maps. *)
Fixpoint pat_programs (l : list Z) : list (Z * Z) :=
  match l with
  | a :: b :: c :: d :: r => (256 * a + b, 256 * (c mod 32) + d) :: pat_programs r
  | _ => []
  end.

(** The streams of a program map table without descriptors: type and PID. *)
Fixpoint pmt_streams (l : list Z) : list (Z * Z) :=
  match l with
  | t :: a :: b :: _ :: _ :: r => (t, 256 * (a mod 32) + b) :: pmt_streams r
  | _ => []
  end.

(** ** Runs *)

Lemma memset_at pre old v n : (n <= length old)%nat ->
  memset (pre ++ old) (length pre) v n = Ret (pre ++ repeat (u8 v) n ++ drop n old).
Proof.
  intros H. unfold memset. rewrite stores_at by (rewrite repeat_length; exact H).
  rewrite repeat_length, map_repeat. reflexivity.
Qed.

Definition known (PID : Z) : Prop := PID = TS_PAT_PID \/ PID = TS_PMT_PID \/ PID = TS_H264_PID \/ PID = TS_AAC_PID.

Definition cnt (c : Continuity_Counter) (PID : Z) : Z :=
  if PID =? TS_PAT_PID then continuity_counter_pat c
  else if PID =? TS_PMT_PID then continuity_counter_pmt c
  else if PID =? TS_H264_PID then continuity_counter_video c
  else if PID =? TS_AAC_PID then continuity_counter_audio c else 0.

Lemma count_packet_spec c PID : known PID -> exists c', count_packet c PID = Some (cnt c PID mod 16, c') /\
  forall q, cnt c' q = if q =? PID then u8 (cnt c q + 1) else cnt c q.
Proof.
  intros H. destruct c as [a b v d]. destruct H as [->|[->|[->| ->]]]; eexists; (split; [reflexivity|]); intros q; unfold cnt;
    cbn [continuity_counter_pat continuity_counter_pmt continuity_counter_video continuity_counter_audio];
    unfold TS_PAT_PID, TS_PMT_PID, TS_H264_PID, TS_AAC_PID; repeat zcase; reflexivity || lia.
Qed.

Definition hdr_bytes (PID play_init ada c : Z) : list Z := [0x47; 64 * play_init + PID / 256; PID mod 256; 16 * ada + c].

(** The header of a packet on a known PID. *)
Lemma header_run ind s Buf PID pi ada : known PID -> pi = 0 \/ pi = 1 -> ada = 1 \/ ada = 3 -> (4 <= length Buf)%nat ->
  exists c', WriteStruct_Packetheader ind s Buf PID pi ada =
    Ret (s <| continuity_counter := c' |>, hdr_bytes PID pi ada (cnt (continuity_counter s) PID mod 16) ++ drop 4 Buf) /\
  forall q, cnt c' q = if q =? PID then u8 (cnt (continuity_counter s) q + 1) else cnt (continuity_counter s) q.
Proof.
  intros HP Hpi Hada Hl. destruct (count_packet_spec (continuity_counter s) PID HP) as (c' & E & Hc).
  exists c'. split; [|exact Hc]. unfold WriteStruct_Packetheader. rewrite E. set (n := cnt (continuity_counter s) PID mod 16).
  assert (Hn : 0 <= n < 16) by (apply Z.mod_pos_bound; lia). clearbody n. clear E Hc.
  change (stores Buf 0) with (stores ([] ++ Buf) (length (@nil Z))). rewrite stores_at by exact Hl. cbn [app obind length].
  do 3 f_equal. assert (E3 : forall a, a = 1 \/ a = 3 -> u8 (Z.lor (Z.shiftl a 4) (n mod 16)) = 16 * a + n).
  { intros a Ha. rewrite lor_shiftl_add by (try lia; apply Z.mod_pos_bound; lia). rewrite (Z.mod_small n) by lia. change (2 ^ 4) with 16. wrap_lia. }
  unfold hdr_bytes, TS_SYNC_BYTE. cbn [map].
  destruct HP as [->|[->|[->| ->]]], Hpi as [->| ->], Hada as [->| ->];
    (rewrite <- E3 by (lia || auto)); reflexivity.
Qed.

Lemma parse_hdr PID pi ada c rest : known PID -> pi = 0 \/ pi = 1 -> ada = 1 \/ ada = 3 -> 0 <= c < 16 -> length rest = 184%nat ->
  parse_packet (hdr_bytes PID pi ada c ++ rest) =
    if ada =? 1 then Some (mkTs PID (pi =? 1) c rest)
    else match rest with
         | l :: r => if l <? 183 then Some (mkTs PID (pi =? 1) c (drop (Z.to_nat l) r)) else None
         | [] => None
         end.
Proof.
  intros HP Hpi Hada Hc Hl. unfold hdr_bytes. cbn [app parse_packet]. cbn [length]. rewrite Hl. cbn [Nat.eqb andb].
  assert (Hb1 : (64 * pi + PID / 256 <? 128) = true /\ (64 * pi + PID / 256) / 64 mod 2 = pi /\ 256 * ((64 * pi + PID / 256) mod 32) + PID mod 256 = PID).
  { destruct HP as [->|[->|[->| ->]]], Hpi as [->| ->]; split_and!; reflexivity. }
  destruct Hb1 as (-> & -> & ->). rewrite (proj2 (Z.ltb_lt (16 * ada + c) 64)) by lia. cbn [andb Z.eqb].
  replace ((16 * ada + c) mod 16) with c by (rewrite Z.add_comm, (Z.mul_comm 16), Z.mod_add, Z.mod_small by lia; reflexivity).
  replace ((16 * ada + c) / 16) with ada by (rewrite Z.add_comm, (Z.mul_comm 16), Z.div_add, Z.div_small by lia; lia).
  destruct Hada as [->| ->]; reflexivity.
Qed.

(** ** Tables *)

Definition pat_payload : list Z :=
  [0; 0; 176; 13; 0; 1; 193; 0; 0; 0; 1; 239; 255; 54; 144; 226; 61] ++ repeat 255 167.
Definition pmt_payload : list Z :=
  [0; 2; 176; 23; 0; 1; 193; 0; 0; 225; 0; 240; 0; 27; 225; 0; 240; 0; 15; 225; 1; 240; 0; 47; 68; 185; 155] ++ repeat 255 157.

(** A session in which one more packet was handed over. *)
Record emit1 (s s' : TSPKG_SESSION) (PID : Z) (start : bool) (pl : list Z) : Prop := {
  em_packet : exists b, parse_packet b = Some (mkTs PID start (cnt (continuity_counter s) PID mod 16) pl) /\
    written s' = written s ++ [b];
  em_counter : forall q, cnt (continuity_counter s') q =
    if q =? PID then u8 (cnt (continuity_counter s) q + 1) else cnt (continuity_counter s) q;
  em_frame : s' = s <| continuity_counter := continuity_counter s' |> <| written := written s' |>
                    <| WritePacketNum := WritePacketNum s' |>
}.

Lemma cnt_mod s PID : 0 <= cnt (continuity_counter s) PID mod 16 < 16.
Proof. apply Z.mod_pos_bound. lia. Qed.

(** A packet is a header on a known PID and 184 bytes. *)
Lemma emit_packet s c' PID pi ada rest w pl : known PID -> pi = 0 \/ pi = 1 -> ada = 1 \/ ada = 3 ->
  length rest = 184%nat -> writets s = true ->
  (forall q, cnt c' q = if q =? PID then u8 (cnt (continuity_counter s) q + 1) else cnt (continuity_counter s) q) ->
  (ada = 1 /\ pl = rest \/ exists l r, ada = 3 /\ rest = l :: r /\ l < 183 /\ pl = drop (Z.to_nat l) r) ->
  emit1 s ((WriteFile (s <| continuity_counter := c' |>)
              (hdr_bytes PID pi ada (cnt (continuity_counter s) PID mod 16) ++ rest)) <| WritePacketNum := w |>) PID (pi =? 1) pl.
Proof.
  intros HP Hpi Hada Hl Hw Hc Hpl. unfold WriteFile. cbn [writets upd set_continuity_counter]. rewrite Hw. split.
  - eexists. split; [|reflexivity]. rewrite (parse_hdr PID pi ada) by (assumption || apply cnt_mod).
    destruct Hpl as [[-> ->]|(l & r & -> & -> & Hlt & ->)]; cbn [Z.eqb]; [reflexivity|].
    cbn. rewrite (proj2 (Z.ltb_lt l 183) Hlt). reflexivity.
  - exact Hc.
  - destruct s. reflexivity.
Qed.

Lemma WriteFile_num s b : WritePacketNum (WriteFile s b) = WritePacketNum s.
Proof. unfold WriteFile. destruct (writets s); reflexivity. Qed.

Lemma upd_same s b : (WriteFile s b) <| WritePacketNum := WritePacketNum s |> = WriteFile s b.
Proof. unfold WriteFile. destruct s as [? ? ? ? ? ? ? ? ? w ?], w; reflexivity. Qed.

(** The session and the header stay symbolic; the rest of a table is computed. *)
Ltac table_run HP :=
  match goal with |- context [WriteStruct_Packetheader ?ind ?s ?B ?PID 1 1] =>
    destruct (header_run ind s B PID 1 1) as (c' & -> & Hc); [HP | right; reflexivity | left; reflexivity | cbn; lia |];
    exists c'; split; [|exact Hc];
    unfold hdr_bytes; set (b3 := 16 * 1 + cnt (continuity_counter s) PID mod 16);
    set (s' := s <| continuity_counter := c' |>); clearbody b3 s'; vm_compute; reflexivity
  end.

Lemma WriteStruct_Pat_run ind s : exists c', WriteStruct_Pat ind s =
    Ret (s <| continuity_counter := c' |>, hdr_bytes TS_PAT_PID 1 1 (cnt (continuity_counter s) TS_PAT_PID mod 16) ++ pat_payload) /\
  forall q, cnt c' q = if q =? TS_PAT_PID then u8 (cnt (continuity_counter s) q + 1) else cnt (continuity_counter s) q.
Proof. unfold WriteStruct_Pat. table_run ltac:(left; reflexivity). Qed.

Lemma WriteStruct_Pmt_run ind s : exists c', WriteStruct_Pmt ind s =
    Ret (s <| continuity_counter := c' |>, hdr_bytes TS_PMT_PID 1 1 (cnt (continuity_counter s) TS_PMT_PID mod 16) ++ pmt_payload) /\
  forall q, cnt c' q = if q =? TS_PMT_PID then u8 (cnt (continuity_counter s) q + 1) else cnt (continuity_counter s) q.
Proof. unfold WriteStruct_Pmt. table_run ltac:(right; left; reflexivity). Qed.

Lemma Write_Pat_run ind s : writets s = true ->
  exists s', Write_Pat ind s = Ret s' /\ emit1 s s' TS_PAT_PID true pat_payload /\ WritePacketNum s' = WritePacketNum s.
Proof.
  intros Hw. unfold Write_Pat. destruct (WriteStruct_Pat_run ind s) as (c' & -> & Hc). cbn [obind].
  eexists. split; [reflexivity|]. split; [|rewrite WriteFile_num; reflexivity]. rewrite <- upd_same.
  apply (emit_packet s c' TS_PAT_PID 1 1); auto. left. reflexivity.
Qed.

Lemma Write_Pmt_run ind s : writets s = true ->
  exists s', Write_Pmt ind s = Ret s' /\ emit1 s s' TS_PMT_PID true pmt_payload /\ WritePacketNum s' = WritePacketNum s.
Proof.
  intros Hw. unfold Write_Pmt. destruct (WriteStruct_Pmt_run ind s) as (c' & -> & Hc). cbn [obind].
  eexists. split; [reflexivity|]. split; [|rewrite WriteFile_num; reflexivity]. rewrite <- upd_same.
  apply (emit_packet s c' TS_PMT_PID 1 1); auto. right. left. reflexivity.
Qed.
