(* ===== verification/TsMux.v ===== *)
(** * Packetising a PES packet (ts/Mux.cpp)

    The adaptation field and [PES2TS], which cuts one frame with its PES header
    into transport stream packets of 188 bytes. *)

From S2P Require Import Prelude TsCrc TsPacket.

Local Open Scope Z_scope.

(** ** Adaptation field *)

Record Ts_Adaptation_field := mkField {
  discontinuty_indicator : Z; random_access_indicator : Z; elementary_stream_priority_indicator : Z;
  PCR_flag : Z; OPCR_flag : Z; splicing_point_flag : Z; transport_private_data_flag : Z;
  adaptation_field_extension_flag : Z; adaptation_field_length : Z; pcr : Z; opcr : Z;
  splice_countdown : Z; private_data_len : Z; private_data : list Z }.

(** [Videopts * 300] is a product of 32-bit integers. *)
Definition WriteAdaptive_flags_Head (f : Ts_Adaptation_field) (Videopts : Z) : Ts_Adaptation_field :=
  mkField 0 0 0 1 0 0 0 0 7 (u32 (Videopts * 300)) 0 0 0 (private_data f).

Definition WriteAdaptive_flags_Tail (f : Ts_Adaptation_field) : Ts_Adaptation_field :=
  mkField 0 0 0 0 0 0 0 0 1 0 0 0 0 (private_data f).

Definition test (z : Z) : bool := negb (z =? 0).

Definition pcr_bytes (pcr : Z) : list Z :=
  let pcr_base := pcr / 300 in
  let pcr_ext := u32 (pcr mod 300) in
  [Z.land (Z.shiftr pcr_base 25) 0xff; Z.land (Z.shiftr pcr_base 17) 0xff; Z.land (Z.shiftr pcr_base 9) 0xff;
   Z.land (Z.shiftr pcr_base 1) 0xff; Z.lor (Z.lor (Z.shiftl pcr_base 7) (Z.shiftr pcr_ext 8)) 0x7e; Z.land pcr_ext 0xff].

Definition opcr_bytes (opcr : Z) : list Z :=
  let opcr_base := opcr / 300 in
  let opcr_ext := u32 (opcr mod 300) in
  [Z.land (Z.shiftr opcr_base 25) 0xff; Z.land (Z.shiftr opcr_base 17) 0xff; Z.land (Z.shiftr opcr_base 9) 0xff;
   Z.land (Z.shiftr opcr_base 1) 0xff;
   Z.lor (Z.land (Z.shiftl opcr_base 7) 0x80) (Z.land (Z.shiftr opcr_ext 8) 0x01); Z.land opcr_ext 0xff].

(** [CreateAdaptive_Ts(f, b + o, AdaptiveLength)]: what [b] holds afterwards.  When
    the private data do not fit it returns before the flags are written. *)
Definition CreateAdaptive_Ts (f : Ts_Adaptation_field) (b : list Z) (o : nat) (AdaptiveLength : Z) : outcome (list Z) :=
  if 0 <? adaptation_field_length f then
    let pos := 1%nat in let cur := 2 in let flags := 0 in
    let flags := if test (discontinuty_indicator f) then Z.lor flags 0x80 else flags in
    let flags := if test (random_access_indicator f) then Z.lor flags 0x40 else flags in
    let flags := if test (elementary_stream_priority_indicator f) then Z.lor flags 0x20 else flags in
    let! (b, pos, cur, flags) :=
      (if test (PCR_flag f) then
         let! b := stores b (o + pos) (pcr_bytes (pcr f)) in Ret (b, (pos + 6)%nat, cur + 6, Z.lor flags 0x10)
       else Ret (b, pos, cur, flags)) in
    let! (b, pos, cur, flags) :=
      (if test (OPCR_flag f) then
         let! b := stores b (o + pos) (opcr_bytes (opcr f)) in Ret (b, (pos + 6)%nat, cur + 6, Z.lor flags 0x08)
       else Ret (b, pos, cur, flags)) in
    let! (b, pos, cur, flags) :=
      (if test (splicing_point_flag f) then
         let! b := stores b (o + pos) [splice_countdown f] in Ret (b, (pos + 1)%nat, cur + 1, Z.lor flags 0x04)
       else Ret (b, pos, cur, flags)) in
    let! r :=
      (if 0 <? private_data_len f then
         let flags := Z.lor flags 0x02 in
         if u32 (AdaptiveLength - cur) <? 1 + private_data_len f then Ret (inl b)
         else
           let! b := stores b (o + pos) [private_data_len f] in
           let! b := stores b (o + pos + 1) (take (Z.to_nat (private_data_len f)) (private_data f)) in
           Ret (inr (b, (pos + 1 + Z.to_nat (private_data_len f))%nat, flags))
       else Ret (inr (b, pos, flags))) in
    match r with
    | inl b => Ret b
    | inr (b, pos, flags) =>
        let! (b, flags) :=
          (if test (adaptation_field_extension_flag f) then
             let! b := stores b (o + pos + 1) [1; 0] in Ret (b, Z.lor flags 0x01)
           else Ret (b, flags)) in
        stores b o [flags]
    end
  else Ret b.

(** ** PES header *)

Definition pes_header (q : TsPes) : list Z :=
  [Z.land (Z.shiftr (packet_start_code_prefix q) 16) 0xFF; Z.land (Z.shiftr (packet_start_code_prefix q) 8) 0xFF;
   Z.land (packet_start_code_prefix q) 0xFF; stream_id q;
   Z.land (Z.shiftr (PES_packet_length q) 8) 0xFF; Z.land (PES_packet_length q) 0xFF;
   Z.lor (Z.lor (Z.lor (Z.lor (Z.lor (Z.shiftl (marker_bit q) 6) (Z.shiftl (PES_scrambling_control q) 4))
     (Z.shiftl (PES_priority q) 3)) (Z.shiftl (data_alignment_indicator q) 2)) (Z.shiftl (copyright q) 1)) (original_or_copy q);
   Z.lor (Z.lor (Z.lor (Z.lor (Z.lor (Z.lor (Z.shiftl (PTS_DTS_flags q) 6) (Z.shiftl (ESCR_flag q) 5)) (Z.shiftl (ES_rate_flag q) 4))
     (Z.shiftl (DSM_trick_mode_flag q) 3)) (Z.shiftl (additional_copy_info_flag q) 2)) (Z.shiftl (PES_CRC_flag q) 1)) (PES_extension_flag q);
   PES_header_data_length q].

Definition pts_bytes (t : Z) : list Z :=
  [Z.land (Z.lor (Z.lor (Z.shiftl 0x3 4) (Z.land (Z.shiftr t 29) 0x0E)) 0x01) 0xff;
   Z.land (Z.shiftr (Z.lor (Z.land (Z.shiftr t 14) 0xfffe) 0x01) 8) 0xff;
   Z.land (Z.lor (Z.land (Z.shiftr t 14) 0xfffe) 0x01) 0xff;
   Z.land (Z.shiftr (Z.lor (Z.land (u32 (Z.shiftl t 1)) 0xfffe) 0x01) 8) 0xff;
   Z.land (Z.lor (Z.land (u32 (Z.shiftl t 1)) 0xfffe) 0x01) 0xff].

(** The time stamp by stream; [None]: the code reports an unknown stream. *)
Definition pes_pts (q : TsPes) (Videopts Adudiopts : Z) : option (list Z) :=
  if stream_id q =? TS_H264_STREAM_ID then Some (pts_bytes Videopts)
  else if stream_id q =? TS_AAC_STREAM_ID then Some (pts_bytes Adudiopts) else None.

(** [n] bytes from [Es + i] on. *)
Definition es_read (q : TsPes) (i n : nat) : outcome (list Z) :=
  if Z.of_nat (i + n) <=? MAX_ONE_FRAME_SIZE then Ret (take n (drop i (Es q) ++ repeat 0 n)) else Crash OutOfBounds.

Section Mux.
Variable indeterminate : Z.

Definition tables (session : TSPKG_SESSION) : outcome TSPKG_SESSION :=
  if WritePacketNum session mod 40 =? 0 then
    let! session := Write_Pat indeterminate session in Write_Pmt indeterminate session
  else Ret session.

Definition count_written (session : TSPKG_SESSION) : TSPKG_SESSION :=
  session <| WritePacketNum := u32 (WritePacketNum session + 1) |>.

(** The loop behind the first packet: [rest] is [Pes_Packet_Length_Beyond], [neaf]
    the offset of [NeafBuf] in [Es]. *)
Fixpoint pes_loop (fuel : nat) (session : TSPKG_SESSION) (q : TsPes) (PID : Z) (neaf : nat) (rest : Z) : outcome TSPKG_SESSION :=
  match fuel with
  | O => Crash Diverge
  | S f =>
      if rest =? 0 then Ret session
      else
        let TSbuf := repeat 0 TS_PACKET_SIZE in
        let! session := tables session in
        if 184 <=? rest then
          let! (session, TSbuf) := WriteStruct_Packetheader indeterminate session TSbuf PID 0x00 0x01 in
          let! data := es_read q neaf 184 in
          let! TSbuf := stores TSbuf 4 data in
          pes_loop f (count_written (WriteFile session TSbuf)) q PID (neaf + 184) (u32 (rest - 184))
        else if (rest =? 183) || (rest =? 182) then
          let! session := tables session in
          let! (session, TSbuf) := WriteStruct_Packetheader indeterminate session TSbuf PID 0x00 0x03 in
          let! TSbuf := stores TSbuf 4 [0x01; 0x00] in
          let! data := es_read q neaf 182 in
          let! TSbuf := stores TSbuf 6 data in
          pes_loop f (count_written (WriteFile session TSbuf)) q PID (neaf + 182) (u32 (rest - 182))
        else
          let! session := tables session in
          let! (session, TSbuf) := WriteStruct_Packetheader indeterminate session TSbuf PID 0x00 0x03 in
          let! TSbuf := stores TSbuf 4 [u32 (184 - rest - 1); 0x00] in
          let stuff := Z.to_nat (u32 (184 - rest - 2)) in
          let! TSbuf := memset TSbuf 6 0xFF stuff in
          let! data := es_read q neaf (Z.to_nat rest) in
          let! TSbuf := stores TSbuf (6 + stuff) data in
          pes_loop f (count_written (count_written (WriteFile session TSbuf))) q PID neaf 0
  end.

(** The result is [WritePacketNum], or [None] for what [getchar] answers when the
    stream is unknown; the last component is the PES packet as it is left. *)
Definition PES2TS (session : TSPKG_SESSION) (q : TsPes) (PID : Z) (head : Ts_Adaptation_field) (Videopts Adudiopts : Z)
  : outcome (option Z * TSPKG_SESSION * TsPes) :=
  let with_rest r := mkPes (packet_start_code_prefix q) (stream_id q) (PES_packet_length q) (marker_bit q)
    (PES_scrambling_control q) (PES_priority q) (data_alignment_indicator q) (copyright q) (original_or_copy q)
    (PTS_DTS_flags q) (ESCR_flag q) (ES_rate_flag q) (DSM_trick_mode_flag q) (additional_copy_info_flag q)
    (PES_CRC_flag q) (PES_extension_flag q) (PES_header_data_length q) (tsptsdts q) (Es q) r in
  let len := Pes_Packet_Length_Beyond q in
  let TSbuf := repeat 0 TS_PACKET_SIZE in
  let FirstPacketLoadLength := u32 (188 - 4 - 1 - adaptation_field_length head - 14) in
  if len <? FirstPacketLoadLength then
    let TSbuf := repeat 0xFF TS_PACKET_SIZE in
    let! (session, TSbuf) := WriteStruct_Packetheader indeterminate session TSbuf PID 0x01 0x03 in
    let! TSbuf := stores TSbuf 4 [u32 (184 - len - 9 - 5 - 1); 0x00] in
    let stuff := Z.to_nat (u32 (184 - len - 9 - 5 - 2)) in
    let! TSbuf := memset TSbuf 6 0xFF stuff in
    let! TSbuf := stores TSbuf (6 + stuff) (pes_header q) in
    match pes_pts q Videopts Adudiopts with
    | None => Ret (None, session, q)
    | Some ptsb =>
        let! TSbuf := stores TSbuf (6 + stuff + 9) ptsb in
        let! data := es_read q 0 (Z.to_nat len) in
        let! TSbuf := stores TSbuf (6 + stuff + 14) data in
        let session := count_written (WriteFile session TSbuf) in
        Ret (Some (WritePacketNum session), session, q)
    end
  else
    let! session := tables session in
    let! (session, TSbuf) := WriteStruct_Packetheader indeterminate session TSbuf PID 0x01 0x03 in
    let! TSbuf := stores TSbuf 4 [adaptation_field_length head] in
    let! TSbuf := CreateAdaptive_Ts head TSbuf 5 (188 - 4 - 1 - 14) in
    let ts_pos := (5 + Z.to_nat (adaptation_field_length head))%nat in
    let! TSbuf := stores TSbuf ts_pos (pes_header q) in
    match pes_pts q Videopts Adudiopts with
    | None => Ret (None, session, q)
    | Some ptsb =>
        let! TSbuf := stores TSbuf (ts_pos + 9) ptsb in
        let! data := es_read q 0 (Z.to_nat FirstPacketLoadLength) in
        let! TSbuf := stores TSbuf (ts_pos + 14) data in
        let session := count_written (WriteFile session TSbuf) in
        let rest := u32 (len - FirstPacketLoadLength) in
        let! session := pes_loop (S (Z.to_nat rest)) session q PID (Z.to_nat FirstPacketLoadLength) rest in
        Ret (Some (WritePacketNum session), session, with_rest 0)
    end.

End Mux.
