(* ===== verification/TsMuxRun.v ===== *)
(** * Packetising a PES packet: the packets

    [PES2TS] on a well-formed PES packet returns and hands over packets of which
    those on the stream's PID carry exactly the PES packet, the first one marked
    as its start; all others are tables. *)

From S2P Require Import Prelude TsCrc TsPacket TsMux.

Local Open Scope Z_scope.

(** ** Sequences of packets *)

Abbreviation event := (Z * bool * list Z)%type.

Inductive emits : TSPKG_SESSION -> list event -> TSPKG_SESSION -> Prop :=
| em_nil s : emits s [] s
| em_cons s s1 s2 P st pl l : emit1 s s1 P st pl -> emits s1 l s2 -> emits s ((P, st, pl) :: l) s2.

Lemma emits_app s1 l1 s2 l2 s3 : emits s1 l1 s2 -> emits s2 l2 s3 -> emits s1 (l1 ++ l2) s3.
Proof. induction 1; intros H2; [exact H2|]. cbn. econstructor; eauto. Qed.

Lemma emits_one s s' P st pl : emit1 s s' P st pl -> emits s [(P, st, pl)] s'.
Proof. intros H. econstructor; [exact H | constructor]. Qed.

(** What the packets leave alone. *)
Lemma emit1_frame s s' P st pl : emit1 s s' P st pl ->
  writets s' = writets s /\ m_video_tspes s' = m_video_tspes s /\ m_audio_tspes s' = m_audio_tspes s /\
  Timestamp_video s' = Timestamp_video s /\ Timestamp_audio s' = Timestamp_audio s /\ pts s' = pts s.
Proof. intros [_ _ ->]. split_and!; reflexivity. Qed.

Lemma emits_frame s l s' : emits s l s' ->
  writets s' = writets s /\ m_video_tspes s' = m_video_tspes s /\ m_audio_tspes s' = m_audio_tspes s /\
  Timestamp_video s' = Timestamp_video s /\ Timestamp_audio s' = Timestamp_audio s /\ pts s' = pts s.
Proof.
  induction 1 as [|s s1 s2 P st pl l H _ IH]; [split_and!; reflexivity|].
  apply emit1_frame in H. destruct H as (? & ? & ? & ? & ? & ?), IH as (? & ? & ? & ? & ? & ?). split_and!; congruence.
Qed.

Lemma emits_writets s l s' : emits s l s' -> writets s = true -> writets s' = true.
Proof. intros H E. apply emits_frame in H. destruct H as [-> _]. exact E. Qed.

Definition is_psi (e : event) : Prop := e = (TS_PAT_PID, true, pat_payload) \/ e = (TS_PMT_PID, true, pmt_payload).

Definition stream_pid (PID : Z) : Prop := PID = TS_H264_PID \/ PID = TS_AAC_PID.

Lemma stream_known PID : stream_pid PID -> known PID.
Proof. unfold known. intros [->| ->]; auto. Qed.

(** A table or a further packet of the unit that is being sent. *)
Definition goes_on (PID : Z) (e : event) : Prop := is_psi e \/ exists pl, e = (PID, false, pl).

(** The payloads on a PID, one behind the other. *)
Definition payloads (PID : Z) (l : list event) : list Z :=
  flat_map (fun '(P, _, pl) => if P =? PID then pl else []) l.

Lemma payloads_app PID l1 l2 : payloads PID (l1 ++ l2) = payloads PID l1 ++ payloads PID l2.
Proof. apply flat_map_app. Qed.

Lemma payloads_psi PID l : stream_pid PID -> Forall is_psi l -> payloads PID l = [].
Proof.
  intros HP. induction 1 as [|e l He _ IH]; [reflexivity|]. cbn. fold (payloads PID l). rewrite IH.
  destruct He as [->| ->], HP as [->| ->]; reflexivity.
Qed.

(** The packets of one unit: tables, the start, and what goes on. *)
Definition carries (PID : Z) (l : list event) (u : list Z) : Prop :=
  exists l0 pl l1, l = l0 ++ (PID, true, pl) :: l1 /\ Forall is_psi l0 /\ Forall (goes_on PID) l1 /\ pl ++ payloads PID l1 = u.

(** ** Tables *)

Lemma tables_run ind s : writets s = true ->
  exists s' l, tables ind s = Ret s' /\ emits s l s' /\ Forall is_psi l /\ writets s' = true.
Proof.
  intros Hw. unfold tables. destruct (WritePacketNum s mod 40 =? 0).
  - destruct (Write_Pat_run ind s Hw) as (s1 & -> & H1 & _). cbn [obind].
    assert (Hw1 : writets s1 = true) by (destruct (emit1_frame _ _ _ _ _ H1) as [-> _]; exact Hw).
    destruct (Write_Pmt_run ind s1 Hw1) as (s2 & -> & H2 & _).
    exists s2, [(TS_PAT_PID, true, pat_payload); (TS_PMT_PID, true, pmt_payload)].
    assert (He : emits s [(TS_PAT_PID, true, pat_payload); (TS_PMT_PID, true, pmt_payload)] s2) by (econstructor; [exact H1 | apply emits_one, H2]).
    split_and!; [reflexivity | exact He | repeat constructor; (left; reflexivity) || (right; reflexivity) | exact (emits_writets _ _ _ He Hw)].
  - exists s, []. split_and!; [reflexivity | constructor | constructor | exact Hw].
Qed.

(** ** One packet *)

Lemma stores_pos n pre old vs : n = length pre -> (length vs <= length old)%nat ->
  stores (pre ++ old) n vs = Ret ((pre ++ map u8 vs) ++ drop (length vs) old).
Proof. intros -> H. rewrite stores_at, app_assoc by exact H. reflexivity. Qed.

Lemma memset_pos n pre old v k : n = length pre -> (k <= length old)%nat ->
  memset (pre ++ old) n v k = Ret ((pre ++ repeat (u8 v) k) ++ drop k old).
Proof. intros -> H. rewrite memset_at, app_assoc by exact H. reflexivity. Qed.

Lemma drop_repeat {A : Type} (x : A) n k : drop n (repeat x k) = repeat x (k - n).
Proof. revert k. induction n as [|n IH]; intros [|k]; cbn; try reflexivity. apply IH. Qed.

(** The bytes of the frame in [Es]. *)
Definition frame (q : TsPes) : list Z := take (Z.to_nat (Pes_Packet_Length_Beyond q)) (Es q).

Lemma es_read_in q i n : (i + n <= length (frame q))%nat -> lenZ (frame q) <= MAX_ONE_FRAME_SIZE ->
  es_read q i n = Ret (take n (drop i (frame q))).
Proof.
  intros H Hm. unfold es_read. rewrite (proj2 (Z.leb_le _ _)) by lia. unfold frame in *. rewrite length_take in H.
  rewrite take_app_le by (rewrite length_drop; lia). rewrite skipn_firstn_comm, take_take. do 2 f_equal. lia.
Qed.

Lemma bytes_cut q i n : Forall is_u8 (frame q) -> Forall is_u8 (take n (drop i (frame q))).
Proof. intros H. apply Forall_take, Forall_drop, H. Qed.

Lemma cut_length q i n : (i + n <= length (frame q))%nat -> length (take n (drop i (frame q))) = n.
Proof. intros H. rewrite length_take, length_drop. lia. Qed.

(** Lengths of what was written so far and of what is left of the buffer. *)
Ltac len :=
  unfold TS_PACKET_SIZE in *; cbn [hdr_bytes length map pes_header pts_bytes];
  repeat (rewrite ?length_app, ?length_drop, ?length_map, ?repeat_length; cbn [hdr_bytes length map pes_header pts_bytes]);
  lia.

Ltac put := rewrite stores_pos by len; cbn [obind].

(** The end of a buffer that was filled. *)
Lemma filled {A : Type} (n : nat) (l : list A) : (length l <= n)%nat -> drop n l = [].
Proof. apply drop_ge. Qed.

(** A packet in the middle of a unit: 184 bytes. *)
Lemma middle_packet ind s q PID i w : stream_pid PID -> writets s = true -> Forall is_u8 (frame q) ->
  lenZ (frame q) <= MAX_ONE_FRAME_SIZE -> (i + 184 <= length (frame q))%nat ->
  exists s1 b, WriteStruct_Packetheader ind s (repeat 0 TS_PACKET_SIZE) PID 0 1 = Ret (s1, b) /\
   es_read q i 184 = Ret (take 184 (drop i (frame q))) /\
   exists b', stores b 4 (take 184 (drop i (frame q))) = Ret b' /\ WritePacketNum (WriteFile s1 b') = WritePacketNum s /\
   emit1 s ((WriteFile s1 b') <| WritePacketNum := w |>) PID false (take 184 (drop i (frame q))).
Proof.
  intros HP Hw Hb Hm Hi. destruct (header_run ind s (repeat 0 TS_PACKET_SIZE) PID 0 1) as (c' & -> & Hc);
    [apply stream_known, HP | auto | auto | cbn; lia |]. do 2 eexists. split; [reflexivity|].
  pose proof (cut_length q i 184 Hi) as Hl. split; [apply es_read_in; assumption|].
  eexists. split; [rewrite stores_pos by (rewrite ?Hl; len); reflexivity|]. split; [rewrite WriteFile_num; reflexivity|].
  rewrite (filled (length _) (drop 4 _)) by (rewrite Hl; len). rewrite app_nil_r, map_u8_id by (apply bytes_cut, Hb).
  apply (emit_packet s c' PID 0 1); auto. apply stream_known, HP.
Qed.

(** A packet with [k] bytes of stuffing and the payload [d] in the code's order of
    stores: the length of the adaptation field, its flags, the stuffing. *)
Lemma stuffed_packet s c' PID pi l k d w : known PID -> pi = 0 \/ pi = 1 -> writets s = true ->
  (forall q, cnt c' q = if q =? PID then u8 (cnt (continuity_counter s) q + 1) else cnt (continuity_counter s) q) ->
  u8 l = Z.of_nat k + 1 -> (2 + k + length d = 184)%nat -> (1 <= length d)%nat ->
  emit1 s ((WriteFile (s <| continuity_counter := c' |>)
     (((hdr_bytes PID pi 3 (cnt (continuity_counter s) PID mod 16) ++ map u8 [l; 0]) ++ repeat (u8 255) k) ++ d)) <| WritePacketNum := w |>)
    PID (pi =? 1) d.
Proof.
  intros HP Hpi Hw Hc Hl Hd Hd1. rewrite <- !app_assoc. cbn [map app].
  apply (emit_packet s c' PID pi 3); auto.
  - cbn [length]. rewrite length_app, repeat_length. lia.
  - right. exists (u8 l), (u8 0 :: repeat (u8 255) k ++ d). rewrite Hl. split_and!; [reflexivity..|lia|].
    replace (Z.to_nat (Z.of_nat k + 1)) with (S k) by lia. cbn [drop].
    rewrite drop_app_ge by (rewrite repeat_length; lia). rewrite repeat_length, Nat.sub_diag. reflexivity.
Qed.

(** ** The loop *)

Lemma u32_small z : 0 <= z < 4294967296 -> u32 z = z.
Proof. apply Z.mod_small. Qed.

Lemma goes_on_psi PID l : Forall is_psi l -> Forall (goes_on PID) l.
Proof. intros H. apply (Forall_impl _ _ _ H). intros e He. left. exact He. Qed.

Lemma payloads_one PID pl : payloads PID [(PID, false, pl)] = pl.
Proof. cbn. rewrite Z.eqb_refl. apply app_nil_r. Qed.

(** One more packet in front of a run. *)
Lemma loop_cons PID s s1 s2 s3 lp pl l d : stream_pid PID -> emits s lp s1 -> Forall is_psi lp ->
  emit1 s1 s2 PID false pl -> emits s2 l s3 -> Forall (goes_on PID) l -> payloads PID l = d ->
  exists l', emits s l' s3 /\ Forall (goes_on PID) l' /\ payloads PID l' = pl ++ d.
Proof.
  intros HP H0 Hp H1 H2 Hg <-. exists (lp ++ (PID, false, pl) :: l). split_and!.
  - apply (emits_app _ _ _ _ _ H0). econstructor; eassumption.
  - apply Forall_app. split; [apply goes_on_psi, Hp|]. constructor; [right; eauto | exact Hg].
  - rewrite payloads_app, payloads_psi by assumption. cbn. rewrite Z.eqb_refl. reflexivity.
Qed.

Lemma drop_cut {A : Type} (l : list A) i n : take n (drop i l) ++ drop (i + n) l = drop i l.
Proof. rewrite <- drop_drop. apply take_drop. Qed.

(** The last packets: [tables] runs twice in front of them. *)
Lemma tables_twice ind s : writets s = true ->
  exists s1 s2 l, tables ind s = Ret s1 /\ tables ind s1 = Ret s2 /\ emits s l s2 /\ Forall is_psi l /\ writets s2 = true.
Proof.
  intros Hw. destruct (tables_run ind s Hw) as (s1 & l1 & E1 & H1 & P1 & W1).
  destruct (tables_run ind s1 W1) as (s2 & l2 & E2 & H2 & P2 & W2).
  exists s1, s2, (l1 ++ l2). split_and!; [exact E1 | exact E2 | exact (emits_app _ _ _ _ _ H1 H2) | apply Forall_app; auto | exact W2].
Qed.

Lemma pes_loop_run ind q PID : stream_pid PID -> Forall is_u8 (frame q) -> lenZ (frame q) <= MAX_ONE_FRAME_SIZE ->
  forall fuel s i rest, writets s = true -> Z.of_nat i + rest = lenZ (frame q) -> 0 <= rest -> (Z.to_nat rest < fuel)%nat ->
  exists s' l, pes_loop ind fuel s q PID i rest = Ret s' /\ emits s l s' /\ Forall (goes_on PID) l /\
    payloads PID l = drop i (frame q).
Proof.
  intros HP Hb Hm. induction fuel as [|fuel IH]; intros s i rest Hw Hi H0 Hf; [lia|]. cbn [pes_loop].
  unfold MAX_ONE_FRAME_SIZE in Hm.
  destruct (Z.eqb_spec rest 0) as [->|Hr0].
  { exists s, []. split_and!; [reflexivity | constructor | constructor |]. rewrite drop_ge by lia. reflexivity. }
  destruct (tables_twice ind s Hw) as (s1 & s1' & lp' & E1 & E1' & H1' & P1' & W1').
  destruct (tables_run ind s Hw) as (s1x & lp & E1x & H1 & P1 & W1). rewrite E1 in E1x. injection E1x as <-.
  rewrite E1. cbn [obind].
  destruct (Z.leb_spec 184 rest) as [Hbig|Hsmall].
  - destruct (middle_packet ind s1 q PID i (u32 (WritePacketNum s1 + 1)) HP W1 Hb Hm ltac:(lia)) as (s2 & b & -> & -> & b' & E & Hn & He).
    cbn [obind]. rewrite E. cbn [obind]. unfold count_written. rewrite Hn.
    assert (W2 := proj1 (emit1_frame _ _ _ _ _ He)). rewrite W1 in W2.
    destruct (IH _ (i + 184)%nat (rest - 184) W2 ltac:(lia) ltac:(lia) ltac:(lia)) as (s' & l & E' & H' & G' & P').
    rewrite (u32_small (rest - 184)) by lia. rewrite E'.
    destruct (loop_cons PID _ _ _ _ _ _ _ _ HP H1 P1 He H' G' P') as (l' & H2 & G2 & P2). exists s', l'.
    split_and!; [reflexivity | exact H2 | exact G2 |]. rewrite P2. apply drop_cut.
  - assert (Hk : known PID) by (apply stream_known, HP).
    destruct ((rest =? 183) || (rest =? 182)) eqn:E18; rewrite E1'; cbn [obind];
      (destruct (header_run ind s1' (repeat 0 TS_PACKET_SIZE) PID 0 3) as (c' & Eh & Hc); [exact Hk | auto | auto | cbn; lia |]);
      rewrite Eh; cbn [obind]; put.
    + assert (Hr : 182 <= rest) by (apply orb_prop in E18 as [E18|E18]; apply Z.eqb_eq in E18; lia).
      rewrite es_read_in by (try exact Hm; lia). cbn [obind].
      pose proof (cut_length q i 182 ltac:(lia)) as Hl.
      rewrite stores_pos by (rewrite ?Hl; len). cbn [obind]. rewrite (filled (length _)) by (rewrite Hl; len).
      rewrite app_nil_r, (map_u8_id (take _ _)) by (apply bytes_cut, Hb). unfold count_written. rewrite WriteFile_num.
      pose proof (stuffed_packet s1' c' PID 0 1 0 (take 182 (drop i (frame q))) (u32 (WritePacketNum s1' + 1)) Hk (or_introl eq_refl) W1' Hc eq_refl
        ltac:(rewrite Hl; lia) ltac:(rewrite Hl; lia)) as He. cbn [repeat] in He. rewrite app_nil_r in He.
      cbn [WritePacketNum upd set_continuity_counter] in *.
      assert (W2 := proj1 (emit1_frame _ _ _ _ _ He)). rewrite W1' in W2.
      destruct (IH _ (i + 182)%nat (rest - 182) W2 ltac:(lia) ltac:(lia) ltac:(lia)) as (s' & l & E' & H' & G' & P').
      rewrite (u32_small (rest - 182)) by lia. rewrite E'.
      destruct (loop_cons PID _ _ _ _ _ _ _ _ HP H1' P1' He H' G' P') as (l' & H2 & G2 & P2). exists s', l'.
      split_and!; [reflexivity | exact H2 | exact G2 |]. rewrite P2. apply drop_cut.
    + apply orb_false_elim in E18 as [E183 E182]. apply Z.eqb_neq in E183, E182.
      rewrite !(u32_small (184 - rest - 2)) by lia. set (k := Z.to_nat (184 - rest - 2)).
      rewrite memset_pos by (subst k; len). cbn [obind]. rewrite es_read_in by (try exact Hm; lia). cbn [obind].
      pose proof (cut_length q i (Z.to_nat rest) ltac:(lia)) as Hl.
      rewrite stores_pos by (rewrite ?Hl; subst k; len). cbn [obind]. rewrite (filled (length _)) by (rewrite Hl; subst k; len).
      rewrite app_nil_r, (map_u8_id (take _ _)) by (apply bytes_cut, Hb). unfold count_written. rewrite WriteFile_num.
      pose proof (stuffed_packet s1' c' PID 0 (u32 (184 - rest - 1)) k (take (Z.to_nat rest) (drop i (frame q)))
        (u32 (u32 (WritePacketNum s1' + 1) + 1)) Hk (or_introl eq_refl) W1' Hc
        ltac:(subst k; rewrite u32_small by lia; unfold u8; rewrite Z.mod_small by lia; lia)
        ltac:(rewrite Hl; subst k; lia) ltac:(rewrite Hl; lia)) as He.
      cbn [WritePacketNum upd set_continuity_counter set_WritePacketNum] in *.
      assert (W2 := proj1 (emit1_frame _ _ _ _ _ He)). rewrite W1' in W2.
      destruct fuel as [|fuel]; [lia|]. cbn [pes_loop Z.eqb].
      eexists. destruct (loop_cons PID _ _ _ _ _ _ _ [] HP H1' P1' He (em_nil _) (Forall_nil_2 _) eq_refl) as (l' & H2 & G2 & P2).
      exists l'. split_and!; [reflexivity | exact H2 | exact G2 |]. rewrite P2, app_nil_r. apply take_ge. rewrite length_drop. lia.
Qed.

(** ** The first packet *)

(** The two adaptation fields the muxer makes. *)
Definition made_field (f : Ts_Adaptation_field) : Prop :=
  exists f0, (exists t, f = WriteAdaptive_flags_Head f0 t) \/ f = WriteAdaptive_flags_Tail f0.

Definition field_bytes (f : Ts_Adaptation_field) : list Z :=
  if test (PCR_flag f) then 0x10 :: map u8 (pcr_bytes (pcr f)) else [0].

Lemma field_bytes_length f : made_field f -> length (field_bytes f) = Z.to_nat (adaptation_field_length f) /\ 1 <= adaptation_field_length f <= 7.
Proof. intros (f0 & [[t ->]| ->]); split; (reflexivity || cbn; lia). Qed.

Lemma adaptive_run f pre old : made_field f -> length pre = 5%nat -> (7 <= length old)%nat ->
  CreateAdaptive_Ts f (pre ++ old) 5 (188 - 4 - 1 - 14) = Ret ((pre ++ field_bytes f) ++ drop (length (field_bytes f)) old).
Proof.
  intros Hf Hp Ho. destruct old as [|o old]; [cbn in Ho; lia|]. cbn in Ho. destruct Hf as (f0 & [[t ->]| ->]).
  - unfold CreateAdaptive_Ts, field_bytes. cbn -[stores pcr_bytes].
    set (pb := pcr_bytes (u32 (t * 300))). assert (Hpb : length pb = 6%nat) by reflexivity.
    change (pre ++ o :: old) with (pre ++ [o] ++ old). rewrite app_assoc. rewrite stores_pos by (rewrite ?length_app, ?Hp, ?Hpb; cbn; lia).
    cbn [obind]. rewrite <- !app_assoc. rewrite stores_pos by (rewrite ?Hp; cbn; lia). rewrite length_map, <- !app_assoc.
    reflexivity.
  - unfold CreateAdaptive_Ts, field_bytes. cbn -[stores]. apply stores_pos; [lia | cbn; lia].
Qed.

(** The PES packet as it goes on the wire. *)
Definition pes_unit (q : TsPes) (ptsb : list Z) : list Z := map u8 (pes_header q) ++ map u8 ptsb ++ frame q.

Lemma pes_pts_length q v a ptsb : pes_pts q v a = Some ptsb -> length ptsb = 5%nat.
Proof. unfold pes_pts. repeat zcase; intros [= <-]; reflexivity. Qed.

(** A PES packet and the PID it is sent on. *)
Record pes_ok (q : TsPes) : Prop := {
  po_bytes : Forall is_u8 (frame q);
  po_size : lenZ (frame q) <= MAX_ONE_FRAME_SIZE;
  po_len : Pes_Packet_Length_Beyond q = lenZ (frame q) }.

Lemma PES2TS_small ind s q PID f v a ptsb : stream_pid PID -> writets s = true -> pes_ok q -> made_field f ->
  pes_pts q v a = Some ptsb -> lenZ (frame q) < 169 - adaptation_field_length f ->
  exists r s', PES2TS ind s q PID f v a = Ret (r, s', q) /\ emit1 s s' PID true (pes_unit q ptsb).
Proof.
  intros HP Hw [Hb Hm Hlen] Hf Hpts Hsmall. pose proof (pes_pts_length _ _ _ _ Hpts) as Hp5.
  destruct (field_bytes_length f Hf) as [_ Ha]. pose proof (stream_known PID HP) as Hk.
  unfold PES2TS. rewrite Hlen, Hpts. rewrite (u32_small (188 - 4 - 1 - _ - 14)) by lia.
  rewrite (proj2 (Z.ltb_lt _ _)) by lia. set (n := length (frame q)) in *.
  destruct (header_run ind s (repeat 0xFF TS_PACKET_SIZE) PID 1 3) as (c' & -> & Hc); [exact Hk | auto | auto | cbn; lia |].
  cbn [obind]. put. rewrite !(u32_small (184 - Z.of_nat n - 9 - 5 - 2)) by lia.
  set (k := Z.to_nat (184 - Z.of_nat n - 9 - 5 - 2)). assert (Hk' : (Z.of_nat k = 168 - Z.of_nat n)) by lia. clearbody k.
  rewrite memset_pos by len. cbn [obind]. put.
  rewrite stores_pos by (rewrite ?Hp5; len). cbn [obind]. rewrite es_read_in by (try exact Hm; lia). cbn [obind].
  pose proof (cut_length q 0 (Z.to_nat (Z.of_nat n)) ltac:(lia)) as Hl.
  rewrite stores_pos by (rewrite ?Hl; repeat (rewrite ?length_app, ?length_map, ?Hp5, ?length_drop, ?repeat_length); cbn [hdr_bytes length pes_header]; unfold TS_PACKET_SIZE; lia).
  cbn [obind].
  rewrite (filled (length (take _ (drop 0 _)))) by (rewrite Hl; repeat (rewrite ?length_app, ?length_map, ?Hp5, ?length_drop, ?repeat_length); cbn [length pes_header map]; unfold TS_PACKET_SIZE; lia).
  rewrite app_nil_r, (map_u8_id (take _ _)) by (apply bytes_cut, Hb). rewrite drop_0, take_ge by (subst n; lia).
  do 2 eexists. split; [reflexivity|]. unfold count_written. rewrite <- !app_assoc.
  rewrite (app_assoc (hdr_bytes _ _ _ _)), (app_assoc (_ ++ _) (repeat _ _)).
  change (map u8 (pes_header q) ++ map u8 ptsb ++ frame q) with (pes_unit q ptsb).
  apply (stuffed_packet s c' PID 1); auto.
  - rewrite u32_small by lia. unfold u8. rewrite Z.mod_small by lia. lia.
  - unfold pes_unit. rewrite !length_app, !length_map, Hp5. fold n. cbn [pes_header length]. lia.
  - unfold pes_unit. cbn [pes_header map app length]. lia.
Qed.

(** A packet that starts a unit behind an adaptation field. *)
Lemma start_packet s c' PID l af d w : known PID -> writets s = true ->
  (forall q, cnt c' q = if q =? PID then u8 (cnt (continuity_counter s) q + 1) else cnt (continuity_counter s) q) ->
  u8 l = lenZ af -> (1 + length af + length d = 184)%nat -> (1 <= length d)%nat ->
  emit1 s ((WriteFile (s <| continuity_counter := c' |>)
     (((hdr_bytes PID 1 3 (cnt (continuity_counter s) PID mod 16) ++ map u8 [l]) ++ af) ++ d)) <| WritePacketNum := w |>) PID true d.
Proof.
  intros HP Hw Hc Hl Hd Hd1. rewrite <- !app_assoc. cbn [map app].
  apply (emit_packet s c' PID 1 3); auto.
  - cbn [length]. rewrite length_app. lia.
  - right. exists (u8 l), (af ++ d). rewrite Hl. split_and!; [reflexivity..|lia|].
    rewrite Nat2Z.id, drop_app_length. reflexivity.
Qed.

Lemma PES2TS_big ind s q PID f v a ptsb : stream_pid PID -> writets s = true -> pes_ok q -> made_field f ->
  pes_pts q v a = Some ptsb -> 169 - adaptation_field_length f <= lenZ (frame q) ->
  exists r s' q' l, PES2TS ind s q PID f v a = Ret (r, s', q') /\ emits s l s' /\ carries PID l (pes_unit q ptsb).
Proof.
  intros HP Hw [Hb Hm Hlen] Hf Hpts Hbig. pose proof (pes_pts_length _ _ _ _ Hpts) as Hp5. unfold MAX_ONE_FRAME_SIZE in Hm.
  destruct (field_bytes_length f Hf) as [Haf Ha]. pose proof (stream_known PID HP) as Hk.
  unfold PES2TS. rewrite Hlen, Hpts. rewrite !(u32_small (188 - 4 - 1 - _ - 14)) by lia.
  set (al := adaptation_field_length f) in *. rewrite (proj2 (Z.ltb_ge _ _)) by lia.
  set (n1 := Z.to_nat (188 - 4 - 1 - al - 14)). assert (Hn1 : Z.of_nat n1 = 169 - al) by lia.
  destruct (tables_run ind s Hw) as (s1 & lp & -> & H1 & P1 & W1). cbn [obind].
  destruct (header_run ind s1 (repeat 0 TS_PACKET_SIZE) PID 1 3) as (c' & -> & Hc); [exact Hk | auto | auto | cbn; lia |].
  cbn [obind]. put.
  rewrite adaptive_run by (exact Hf || len). cbn [obind].
  rewrite stores_pos by (repeat (rewrite ?length_app, ?length_map, ?Haf, ?length_drop, ?repeat_length); cbn [hdr_bytes length pes_header]; unfold TS_PACKET_SIZE; lia).
  cbn [obind].
  rewrite stores_pos by (repeat (rewrite ?length_app, ?length_map, ?Haf, ?Hp5, ?length_drop, ?repeat_length); cbn [hdr_bytes length pes_header map]; unfold TS_PACKET_SIZE; lia).
  cbn [obind]. rewrite es_read_in by (try exact Hm; lia). cbn [obind].
  pose proof (cut_length q 0 n1 ltac:(lia)) as Hl.
  rewrite stores_pos by (rewrite ?Hl; repeat (rewrite ?length_app, ?length_map, ?Haf, ?Hp5, ?length_drop, ?repeat_length); cbn [hdr_bytes length pes_header map]; unfold TS_PACKET_SIZE; lia).
  cbn [obind].
  rewrite (filled (length (take _ (drop 0 _)))) by (rewrite Hl; repeat (rewrite ?length_app, ?length_map, ?Haf, ?Hp5, ?length_drop, ?repeat_length); cbn [length pes_header map]; unfold TS_PACKET_SIZE; lia).
  rewrite app_nil_r, (map_u8_id (take _ _)) by (apply bytes_cut, Hb). rewrite drop_0.
  unfold count_written. rewrite WriteFile_num. rewrite <- !app_assoc.
  rewrite (app_assoc (hdr_bytes _ _ _ _)), (app_assoc (_ ++ _) (field_bytes f)).
  set (d := map u8 (pes_header q) ++ map u8 ptsb ++ take n1 (frame q)).
  assert (Hd : length d = (14 + n1)%nat) by (unfold d; rewrite !length_app, !length_map, Hp5; rewrite drop_0 in Hl; rewrite Hl; cbn [pes_header length]; lia).
  pose proof (start_packet s1 c' PID al (field_bytes f) d (u32 (WritePacketNum s1 + 1)) Hk W1 Hc
    ltac:(unfold u8; rewrite Z.mod_small by lia; lia) ltac:(lia) ltac:(lia)) as He.
  cbn [WritePacketNum upd set_continuity_counter] in *.
  assert (W2 := proj1 (emit1_frame _ _ _ _ _ He)). rewrite W1 in W2.
  rewrite !(u32_small (lenZ (frame q) - _)) by lia.
  destruct (pes_loop_run ind q PID HP Hb Hm (S (Z.to_nat (lenZ (frame q) - (188 - 4 - 1 - al - 14)))) _ n1 (lenZ (frame q) - (188 - 4 - 1 - al - 14))
    W2 ltac:(lia) ltac:(lia) ltac:(lia)) as (s' & l & E' & H' & G' & P').
  rewrite E'. cbn [obind]. do 3 eexists. exists (lp ++ (PID, true, d) :: l). split; [reflexivity|]. split.
  - eapply emits_app; [exact H1|]. econstructor; [exact He | exact H'].
  - exists lp, d, l. split_and!; [reflexivity | exact P1 | exact G' |]. rewrite P'. unfold d, pes_unit.
    rewrite <- !app_assoc. do 2 f_equal. apply take_drop.
Qed.

Lemma PES2TS_run ind s q PID f v a ptsb : stream_pid PID -> writets s = true -> pes_ok q -> made_field f ->
  pes_pts q v a = Some ptsb ->
  exists r s' q' l, PES2TS ind s q PID f v a = Ret (r, s', q') /\ emits s l s' /\ carries PID l (pes_unit q ptsb).
Proof.
  intros HP Hw Hq Hf Hp. destruct (Z.lt_ge_cases (lenZ (frame q)) (169 - adaptation_field_length f)) as [Hs|Hs].
  - destruct (PES2TS_small ind s q PID f v a ptsb HP Hw Hq Hf Hp Hs) as (r & s' & E & He).
    do 4 eexists. split; [exact E|]. split; [apply emits_one, He|].
    exists [], (pes_unit q ptsb), []. split_and!; [reflexivity | constructor | constructor | apply app_nil_r].
  - exact (PES2TS_big ind s q PID f v a ptsb HP Hw Hq Hf Hp Hs).
Qed.
