(* ===== verification/TsFrame.v ===== *)
(** * From frames to the transport stream (ts/Video.cpp, ts/Audio.cpp, ts/Mux.cpp)

    The entry point [WriteBuf2TsFile] and what it calls to wrap one H.264 or AAC
    frame in a PES packet.  The overloads that read their frames from files are
    left out: [OpenFile] and [ReadFile] are empty in this program. *)

From S2P Require Import Prelude TsBits TsCrc TsPacket TsMux.

Local Open Scope Z_scope.

Definition MAX_VIDEO_TAG_BUF_SIZE : Z := 1024 * 1024.
Definition NAL_SLICE : Z := 1.
Definition NAL_SLICE_IDR : Z := 5.
Definition NAL_SEI : Z := 6.
Definition NAL_SPS : Z := 7.
Definition NAL_PPS : Z := 8.
Definition FRAME_I : Z := 15.
Definition FRAME_P : Z := 16.
Definition FRAME_B : Z := 17.

(** Whether [calloc] of this many bytes succeeds. *)
Class Calloc := calloc_ok : Z -> bool.

(** [struct Tag_NALU_t].  As with [Es], [buf] is the block of [max_size] bytes up
    to the last one that was written, zeros behind. *)
Record NALU_t := mkNalu {
  forbidden_bit : Z; nal_reference_idc : Z; nal_unit_type : Z; startcodeprefix_len : Z;
  len : Z; max_size : Z; buf : list Z; Frametype : Z }.

(** [memcpy(dst, src + i, n)] into a cleared block of [cap] bytes, from a block of
    [size] bytes that starts with [src] and is zero behind. *)
Definition copy_block (cap size : Z) (src : list Z) (i : nat) (n : Z) : outcome (list Z) :=
  if (n <=? cap) && (Z.of_nat i + n <=? size) then Ret (take (Z.to_nat n) (drop i src ++ repeat 0 (Z.to_nat n)))
  else Crash OutOfBounds.

Section Frames.
Context `{C : Calloc}.
Variable indeterminate : Z.

(** When the second [calloc] fails the freed block is returned and used. *)
Definition AllocNALU (buffersize : Z) : outcome NALU_t :=
  if calloc_ok 28 then
    if calloc_ok buffersize then Ret (mkNalu 0 0 0 0 0 buffersize [] 0) else Crash OutOfBounds
  else Crash NullDeref.

(** [GetAnnexbNALU(nalu, pData, iDataSize)]; it returns 4. *)
Definition GetAnnexbNALU (nalu : NALU_t) (pData : list Z) (iDataSize : Z) : outcome NALU_t :=
  if calloc_ok (max_size nalu) then
    let! Buf := copy_block (max_size nalu) (lenZ pData) pData 0 (u32 iDataSize) in
    let len := u32 (iDataSize - 4) in
    let! buf := copy_block (max_size nalu) (max_size nalu) Buf 4 len in
    let b0 := nth 0 buf 0 in
    Ret (mkNalu (Z.land b0 0x80) (Z.land b0 0x60) (Z.land b0 0x1f) 4 len (max_size nalu) buf (Frametype nalu))
  else Crash NullDeref.

Definition slice_frame_type (frame_type old : Z) : Z :=
  if (frame_type =? 0) || (frame_type =? 5) then FRAME_P
  else if (frame_type =? 1) || (frame_type =? 6) then FRAME_B
  else if (frame_type =? 3) || (frame_type =? 8) then FRAME_P
  else if (frame_type =? 2) || (frame_type =? 7) then FRAME_I
  else if (frame_type =? 4) || (frame_type =? 9) then FRAME_I else old.

(** [OneFrameBuf_H264] after the start code and the data were copied into it. *)
Definition one_frame (nal : NALU_t) : list Z :=
  if startcodeprefix_len nal =? 3 then [0; 0; 1] ++ take (Z.to_nat (len nal)) (buf nal) ++ [0]
  else if startcodeprefix_len nal =? 4 then [0; 0; 0; 1] ++ take (Z.to_nat (len nal)) (buf nal)
  else repeat 0 (Z.to_nat (u32 (len nal + 4))).

Definition with_frametype (nal : NALU_t) (t : Z) : NALU_t :=
  mkNalu (forbidden_bit nal) (nal_reference_idc nal) (nal_unit_type nal) (startcodeprefix_len nal) (len nal)
         (max_size nal) (buf nal) t.

Definition GetFrameType (nal : NALU_t) : outcome NALU_t :=
  if calloc_ok (u32 (len nal + 4)) then
    let s := bs_init (one_frame nal) (Z.to_nat (startcodeprefix_len nal) + 1) (i32 (len nal - 1)) in
    if (nal_unit_type nal =? NAL_SLICE) || (nal_unit_type nal =? NAL_SLICE_IDR) then
      let! (_, s) := bs_read_ue s in
      let! (frame_type, _) := bs_read_ue s in
      Ret (with_frametype nal (slice_frame_type frame_type (Frametype nal)))
    else if nal_unit_type nal =? NAL_SEI then Ret (with_frametype nal NAL_SEI)
    else if nal_unit_type nal =? NAL_SPS then Ret (with_frametype nal NAL_SPS)
    else if nal_unit_type nal =? NAL_PPS then Ret (with_frametype nal NAL_PPS)
    else Ret nal
  else Ret nal.

(** [Read_One_H264_Frame(session, Es, &type, pData, iDataSize)] on a cleared [Es]:
    the size of the frame, its type and the contents of [Es]. *)
Definition Read_One_H264_Frame (pData : list Z) (iDataSize : Z) : outcome (Z * Z * list Z) :=
  let! n := AllocNALU MAX_VIDEO_TAG_BUF_SIZE in
  let! n := GetAnnexbNALU n pData iDataSize in
  let! n := GetFrameType n in
  if startcodeprefix_len n + len n <=? MAX_ONE_FRAME_SIZE then
    let code := if startcodeprefix_len n =? 3 then [0; 0; 1] else [0; 0; 0; 1] in
    Ret (u32 (startcodeprefix_len n + len n), Frametype n, code ++ take (Z.to_nat (len n)) (buf n))
  else Crash OutOfBounds.

(** The time stamp fields of a PES packet. *)
Definition pts_fields (t : Z) : TsPtsDts :=
  let high := 0x7FFFFFFF <? t in
  let middle := 0x7FFF <? t in
  mkPts 3 (if high then Z.land (Z.shiftr t 30) 0x07 else 0) (if high then 1 else 0)
    (if middle then Z.land (Z.shiftr t 15) 0x007FFF else 0) (if middle then 1 else 0) (Z.land t 0x007FFF) 1.

Definition H2642PES (session : TSPKG_SESSION) (Videopts : Z) (pData : list Z) (iDataSize : Z) : outcome (Z * Z * TsPes) :=
  let! (n, videoframetype, es) := Read_One_H264_Frame pData iDataSize in
  let h264pes_pos := u32 (n + (if 0xFFFF <? n then 16 else 14)) in
  Ret (h264pes_pos, videoframetype,
       mkPes 0x000001 TS_H264_STREAM_ID 0x00 0x02 0 0 0 0 0 0x02 0 0 0 0 0 0 0x05 (pts_fields Videopts) es n).

Definition AAC2PES (q : TsPes) (Adudiopts : Z) (pData : list Z) (iDataSize : Z) : outcome (Z * TsPes) :=
  let n := u32 iDataSize in
  if (n <=? MAX_ONE_FRAME_SIZE) && (n <=? lenZ pData) then
    let es := take (Z.to_nat n) pData ++ drop (Z.to_nat n) (Es q) in
    let aacpes_pos := u32 (n + (if 0xFFFF <? n then 16 else 14)) in
    Ret (aacpes_pos, mkPes 0x000001 TS_AAC_STREAM_ID 0x00 0x02 0 0 0 0 0 0x02 0 0 0 0 0 0 0x05 (pts_fields Adudiopts) es n)
  else Crash OutOfBounds.

(** Unsigned division. *)
Definition udiv (a b : Z) : outcome Z := if b =? 0 then Crash DivByZero else Ret (a / b).

(** A local [Ts_Adaptation_field] before it is filled. *)
Definition field0 : Ts_Adaptation_field := mkField 0 0 0 0 0 0 0 0 0 0 0 0 0 [].

(** The audio branch, the video branch for pictures and for other NAL units. *)
Definition write_audio (session : TSPKG_SESSION) (framerate : Z) (pData : list Z) (iDataSize : Z) : outcome TSPKG_SESSION :=
  let! (_, q) := AAC2PES (m_audio_tspes session) (Timestamp_audio session) pData iDataSize in
  let session := session <| m_audio_tspes := q |> in
  if negb (Pes_Packet_Length_Beyond q =? 0) then
    let! (_, session, q) := PES2TS indeterminate session q TS_AAC_PID (WriteAdaptive_flags_Tail field0)
                              (Timestamp_video session) (Timestamp_audio session) in
    let! d := udiv (1024 * 1000 * 90) framerate in
    Ret (session <| m_audio_tspes := q |> <| Timestamp_audio := u32 (Timestamp_audio session + d) |>)
  else Ret session.

Definition is_picture (videoframetype : Z) : bool :=
  (videoframetype =? FRAME_I) || (videoframetype =? FRAME_P) || (videoframetype =? FRAME_B).

(** The time stamp is advanced twice: by the frame rate the caller gave and by the
    one computed from the distance to the last picture. *)
Definition write_video (session : TSPKG_SESSION) (framerate npts : Z) (pData : list Z) (iDataSize : Z) : outcome TSPKG_SESSION :=
  let! (_, videoframetype, q) := H2642PES session (Timestamp_video session) pData iDataSize in
  let session := session <| m_video_tspes := q |> in
  if negb (Pes_Packet_Length_Beyond q =? 0) then
    if is_picture videoframetype then
      let! (_, session, q) := PES2TS indeterminate session q TS_H264_PID (WriteAdaptive_flags_Head field0 (Timestamp_video session))
                                (Timestamp_video session) (Timestamp_audio session) in
      let! d := udiv (1000 * 90) framerate in
      let session := session <| m_video_tspes := q |> <| Timestamp_video := u32 (Timestamp_video session + d) |> in
      let! framerate := udiv 1000 (u32 (npts - pts session)) in
      let session := session <| pts := npts |> in
      let! d := udiv (1000 * 90) framerate in
      Ret (session <| Timestamp_video := u32 (Timestamp_video session + d) |>)
    else
      let! (_, session, q) := PES2TS indeterminate session q TS_H264_PID (WriteAdaptive_flags_Tail field0)
                                (Timestamp_video session) (Timestamp_audio session) in
      Ret (session <| m_video_tspes := q |>)
  else Ret session.

Definition WriteBuf2TsFile (session : TSPKG_SESSION) (framerate pts iStreamType : Z) (pData : list Z) (iDataSize : Z)
  : outcome TSPKG_SESSION :=
  if iStreamType =? 0 then write_audio session framerate pData iDataSize
  else if iStreamType =? 1 then write_video session framerate pts pData iDataSize
  else Ret session.

End Frames.
