(* ===== verification/TsStream.v ===== *)
(** * The transport stream a receiver sees

    The packets a session has handed over, demultiplexed: continuity counters by
    PID, and the PES packets of a stream put together again from the payloads. *)

From S2P Require Import Prelude TsBits TsCrc TsPacket TsMux TsMuxRun TsFrame.

Local Open Scope Z_scope.

(** ** Demultiplexer *)

Definition packet_event (k : ts_packet) : event := (pid k, unit_start k, payload k).

(** A packet starts a unit or continues the last one. *)
Definition collect (PID : Z) (us : list (list Z)) (e : event) : list (list Z) :=
  let '(P, st, pl) := e in
  if P =? PID then
    if st then us ++ [pl]
    else match last us with Some u => removelast us ++ [u ++ pl] | None => us end
  else us.

Definition units (PID : Z) (ps : list ts_packet) : list (list Z) := foldl (collect PID) [] (map packet_event ps).

Definition counters (PID : Z) (ps : list ts_packet) : list Z := map counter (filter (fun k => pid k = PID) ps).

(** 33 bits of time stamp between marker bits. *)
Definition decode_pts (l : list Z) : Z :=
  match l with
  | [a; b; c; d; e] => a / 2 mod 8 * 2 ^ 30 + (128 * b + c / 2) * 2 ^ 15 + (128 * d + e / 2)
  | _ => 0
  end.

(** A PES packet with a header of the usual form: stream id, time stamp, data. *)
Definition parse_pes (u : list Z) : option (Z * Z * list Z) :=
  match u with
  | 0 :: 0 :: 1 :: id :: _ :: _ :: f1 :: f2 :: hl :: r =>
      if (f1 / 64 =? 2) && (f2 / 64 =? 2) && (5 <=? hl) then Some (id, decode_pts (take 5 r), drop (Z.to_nat hl) r) else None
  | _ => None
  end.

(** ** What was handed over between two states *)

(** [n] counter values from [c] on. *)
Fixpoint consecutive (c : Z) (n : nat) : list Z :=
  match n with O => [] | S n' => c mod 16 :: consecutive (c + 1) n' end.

Record log (s s' : TSPKG_SESSION) (ps : list ts_packet) : Prop := {
  lg_parse : map parse_packet (written s') = map parse_packet (written s) ++ map Some ps;
  lg_count : forall PID, counters PID ps = consecutive (cnt (continuity_counter s) PID) (length (counters PID ps));
  lg_next : forall PID, cnt (continuity_counter s') PID mod 16 =
    (cnt (continuity_counter s) PID + lenZ (counters PID ps)) mod 16 }.

Lemma consecutive_app n1 : forall c n2, consecutive c (n1 + n2) = consecutive c n1 ++ consecutive (c + Z.of_nat n1) n2.
Proof.
  induction n1 as [|n1 IH]; intros c n2; cbn [consecutive app Nat.add]; [f_equal; lia|].
  rewrite IH. do 3 f_equal. lia.
Qed.

Lemma consecutive_mod n : forall c c', c mod 16 = c' mod 16 -> consecutive c n = consecutive c' n.
Proof.
  induction n as [|n IH]; intros c c' H; [reflexivity|]. cbn [consecutive]. rewrite H. f_equal. apply IH.
  rewrite <- (Z.add_mod_idemp_l c), H, Z.add_mod_idemp_l by lia. reflexivity.
Qed.

Lemma consecutive_length n : forall c, length (consecutive c n) = n.
Proof. induction n as [|n IH]; intros c; [reflexivity|]. cbn. rewrite IH. reflexivity. Qed.

Lemma consecutive_lookup n : forall c i x, consecutive c n !! i = Some x -> x = (c + Z.of_nat i) mod 16.
Proof.
  induction n as [|n IH]; intros c i x H; [discriminate|]. destruct i as [|i]; cbn in H.
  - injection H as <-. rewrite Z.add_0_r. reflexivity.
  - rewrite (IH (c + 1) i x H). f_equal. lia.
Qed.

Lemma counters_app PID p1 p2 : counters PID (p1 ++ p2) = counters PID p1 ++ counters PID p2.
Proof. unfold counters. rewrite filter_app, map_app. reflexivity. Qed.

Lemma log_refl s s' : written s' = written s -> continuity_counter s' = continuity_counter s -> log s s' [].
Proof. intros H1 H2. split; [rewrite H1, app_nil_r; reflexivity | reflexivity |]. intros PID. rewrite H2. cbn. rewrite Z.add_0_r. reflexivity. Qed.

Lemma log_trans s1 s2 s3 p1 p2 : log s1 s2 p1 -> log s2 s3 p2 -> log s1 s3 (p1 ++ p2).
Proof.
  intros [P1 C1 N1] [P2 C2 N2]. split.
  - rewrite P2, P1, map_app, app_assoc. reflexivity.
  - intros PID. rewrite counters_app, length_app, consecutive_app, <- C1. f_equal.
    rewrite (C2 PID) at 1. apply consecutive_mod, N1.
  - intros PID. rewrite N2, counters_app, length_app, Nat2Z.inj_add, Z.add_assoc.
    rewrite <- Z.add_mod_idemp_l, N1, Z.add_mod_idemp_l by lia. reflexivity.
Qed.

Lemma u8_mod16 z : u8 z mod 16 = z mod 16.
Proof. unfold u8. change 256 with (16 * 16). rewrite Z.rem_mul_r by lia. rewrite (Z.mul_comm 16), Z.mod_add, Z.mod_mod by lia. reflexivity. Qed.

Lemma emit1_log s s' P st pl : emit1 s s' P st pl -> exists k, log s s' [k] /\ packet_event k = (P, st, pl).
Proof.
  intros [(b & Hb & Hw) Hc _]. exists (mkTs P st (cnt (continuity_counter s) P mod 16) pl).
  split; [|reflexivity]. split.
  - rewrite Hw, map_app. cbn. rewrite Hb. reflexivity.
  - intros PID. unfold counters. rewrite filter_cons. cbn [pid]. case_decide as E; [|reflexivity]. subst. reflexivity.
  - intros PID. rewrite Hc. unfold counters. rewrite filter_cons. cbn [pid]. destruct (Z.eqb_spec PID P) as [->|Hne].
    + rewrite decide_True by reflexivity. apply u8_mod16.
    + rewrite decide_False by congruence. cbn. rewrite Z.add_0_r. reflexivity.
Qed.

Lemma emits_log s l s' : emits s l s' -> exists ps, log s s' ps /\ map packet_event ps = l.
Proof.
  induction 1 as [s|s s1 s2 P st pl l H _ (ps & Hl & He)].
  - exists []. split; [apply log_refl; reflexivity | reflexivity].
  - destruct (emit1_log _ _ _ _ _ H) as (k & Hk & Ek). exists (k :: ps). split; [exact (log_trans _ _ _ [k] ps Hk Hl)|].
    cbn. rewrite Ek, He. reflexivity.
Qed.

(** ** Putting units together *)

Lemma collect_psi PID us l : stream_pid PID -> Forall is_psi l -> foldl (collect PID) us l = us.
Proof.
  intros HP. induction 1 as [|e l He _ IH]; [reflexivity|]. cbn [foldl]. replace (collect PID us e) with us; [exact IH|].
  destruct He as [->| ->], HP as [->| ->]; reflexivity.
Qed.

Lemma collect_goes_on PID us u l : stream_pid PID -> Forall (goes_on PID) l ->
  foldl (collect PID) (us ++ [u]) l = us ++ [u ++ payloads PID l].
Proof.
  intros HP H. revert u. induction H as [|e l He _ IH]; intros u; [cbn; rewrite app_nil_r; reflexivity|].
  cbn [foldl]. destruct He as [He|[pl ->]].
  - assert (E : collect PID (us ++ [u]) e = us ++ [u]) by (destruct He as [->| ->], HP as [->| ->]; reflexivity).
    rewrite E, IH. f_equal. f_equal. f_equal. change (e :: l) with ([e] ++ l). rewrite payloads_app, (payloads_psi PID [e]); auto.
  - cbn [collect]. rewrite Z.eqb_refl, last_snoc, removelast_last, IH. do 2 f_equal.
    cbn [payloads flat_map]. rewrite Z.eqb_refl, app_assoc. reflexivity.
Qed.

(** The packets of one unit add this unit to its stream and nothing to others. *)
Lemma collect_carries PID us l u : stream_pid PID -> carries PID l u -> foldl (collect PID) us l = us ++ [u].
Proof.
  intros HP (l0 & pl & l1 & -> & H0 & H1 & <-). rewrite foldl_app, (collect_psi PID us l0) by assumption. cbn [foldl collect].
  rewrite Z.eqb_refl. apply collect_goes_on; assumption.
Qed.

Lemma collect_other PID PID' us l u : stream_pid PID -> stream_pid PID' -> PID <> PID' -> carries PID' l u ->
  foldl (collect PID) us l = us.
Proof.
  intros HP HP' Hne (l0 & pl & l1 & -> & H0 & H1 & _). rewrite foldl_app, (collect_psi PID us l0) by assumption. cbn [foldl collect].
  rewrite (proj2 (Z.eqb_neq PID' PID)) by congruence. induction H1 as [|e l1 He _ IH]; [reflexivity|]. cbn [foldl].
  replace (collect PID us e) with us; [exact IH|]. destruct He as [He|[pl' ->]].
  - destruct He as [->| ->], HP as [->| ->]; reflexivity.
  - cbn [collect]. rewrite (proj2 (Z.eqb_neq PID' PID)) by congruence. reflexivity.
Qed.

(** ** PES headers *)

Lemma land_even x m : Z.land x (2 * m) = 2 * Z.land (x / 2) m.
Proof.
  apply Z.bits_inj'. intros n Hn. rewrite Z.land_spec.
  destruct (Z.eq_dec n 0) as [->|Hn0].
  - rewrite !Z.double_bits. cbn. apply andb_false_r.
  - rewrite !Z.double_bits, Z.land_spec, Z.div2_bits by lia. do 2 f_equal. lia.
Qed.

Lemma lor_odd y : Z.lor (2 * y) 1 = 2 * y + 1.
Proof.
  pose proof (lor_shiftl_add y 1 1 ltac:(lia) ltac:(lia)) as H. rewrite Z.shiftl_mul_pow2 in H by lia.
  change (2 ^ 1) with 2 in H. rewrite (Z.mul_comm y 2) in H. exact H.
Qed.

(** A 15-bit field with its marker bit. *)
Lemma marked x : Z.lor (Z.land x 0xfffe) 0x01 = 2 * (x / 2 mod 32768) + 1.
Proof.
  change 0xfffe with (2 * 0x7fff). rewrite land_even, lor_odd. change 0x7fff with (Z.ones 15). rewrite Z.land_ones by lia. reflexivity.
Qed.

Lemma pts_bytes_eq t : is_u32 t -> map u8 (pts_bytes t) =
  let w1 := 2 * (t / 32768 mod 32768) + 1 in let w2 := 2 * (t mod 32768) + 1 in
  [49 + 2 * (t / 1073741824); w1 / 256; w1 mod 256; w2 / 256; w2 mod 256].
Proof.
  intros Ht. unfold pts_bytes. rewrite !marked, !land_ff. rewrite !Z.shiftr_div_pow2 by lia.
  replace (Z.land (t / 2 ^ 29) 0x0E) with (2 * (t / 1073741824 mod 8)).
  2:{ change 0x0E with (2 * 7). rewrite land_even. change 7 with (Z.ones 3). rewrite Z.land_ones, Z.div_div by lia. reflexivity. }
  rewrite lor_shiftl_add by (try lia; change (2 ^ 4) with 16; wrap_lia).
  replace (3 * 2 ^ 4 + 2 * (t / 1073741824 mod 8)) with (2 * (24 + t / 1073741824 mod 8)) by lia. rewrite lor_odd.
  rewrite Z.shiftl_mul_pow2 by lia. change (2 ^ 14) with 16384. change (2 ^ 8) with 256. change (2 ^ 1) with 2.
  cbv zeta. cbn [map]. unfold is_u32 in Ht.
  replace (t / 16384 / 2) with (t / 32768) by (rewrite Z.div_div by lia; reflexivity).
  replace (u32 (t * 2) / 2 mod 32768) with (t mod 32768) by (unfold u32; Z.div_mod_to_equations; lia).
  unfold u8. rewrite !Z.mod_mod by lia. repeat f_equal; Z.div_mod_to_equations; lia.
Qed.

Lemma pts_roundtrip t : is_u32 t -> decode_pts (map u8 (pts_bytes t)) = t.
Proof.
  intros Ht. rewrite pts_bytes_eq by exact Ht. unfold is_u32 in Ht. cbv zeta. cbn [decode_pts].
  change (2 ^ 30) with 1073741824. change (2 ^ 15) with 32768. Z.div_mod_to_equations. lia.
Qed.

(** The PES packets the muxer makes. *)
Definition made_pes (q : TsPes) (id t : Z) : Prop :=
  exists es n, q = mkPes 0x000001 id 0x00 0x02 0 0 0 0 0 0x02 0 0 0 0 0 0 0x05 (pts_fields t) es n.

Lemma parse_unit q id t : made_pes q id t -> id = TS_H264_STREAM_ID \/ id = TS_AAC_STREAM_ID -> is_u32 t ->
  parse_pes (pes_unit q (pts_bytes t)) = Some (id, t, frame q).
Proof.
  intros (es & n & ->) Hid Ht. unfold pes_unit. pose proof (pts_roundtrip t Ht) as Hp.
  assert (Hl : length (map u8 (pts_bytes t)) = 5%nat) by reflexivity. set (b := map u8 (pts_bytes t)) in *. clearbody b.
  assert (E : forall r, take 5 (b ++ r) = b /\ drop (Z.to_nat 5) (b ++ r) = r).
  { intros r. split; [rewrite take_app_le, take_ge by lia; reflexivity|].
    change (Z.to_nat 5) with 5%nat. rewrite drop_app_ge, Hl, Nat.sub_diag by lia. reflexivity. }
  set (q := mkPes _ _ _ _ _ _ _ _ _ _ _ _ _ _ _ _ _ _ _ _). destruct (E (frame q)) as [E1 E2].
  assert (Eh : map u8 (pes_header q) = [0; 0; 1; id; 0; 0; 128; 128; 5]) by (destruct Hid as [->| ->]; reflexivity).
  rewrite Eh. clear Eh. generalize dependent (frame q). intros fr E1 E2. cbn [app parse_pes].
  rewrite E1, E2, Hp. reflexivity.
Qed.

(** ** Frames *)

Section Run.
Context `{C : Calloc}.
Variable indeterminate : Z.

(** The start code in front of a NAL unit is written anew. *)
Definition annexb (data : list Z) : list Z := [0; 0; 0; 1] ++ drop 4 data.

(** The type the code gives to a video frame. *)
Definition type_of (data : list Z) : Z :=
  match Read_One_H264_Frame data (lenZ data) with Ret (_, t, _) => t | Crash _ => 0 end.

Hypothesis plenty : forall n, calloc_ok n = true.

Lemma GetFrameType_total n : Forall is_u8 (buf n) -> startcodeprefix_len n = 4 -> len n = lenZ (buf n) -> lenZ (buf n) < 2147483648 ->
  exists t, GetFrameType n = Ret (with_frametype n t).
Proof.
  intros Hb H4 Hl Hm. unfold GetFrameType. rewrite plenty.
  assert (Hs : bs_ok (bs_init (one_frame n) (Z.to_nat (startcodeprefix_len n) + 1) (i32 (len n - 1)))).
  { assert (Ho : one_frame n = [0; 0; 0; 1] ++ buf n).
    { unfold one_frame. rewrite H4. cbn [Z.eqb Pos.eqb]. rewrite take_ge by lia. reflexivity. }
    rewrite H4, Hl, i32_id by (unfold is_i32; lia). split; cbn [bs_init mem p p_end i_left]; [| lia | | reflexivity].
    - rewrite Ho. apply Forall_app. split; [repeat constructor; unfold is_u8; lia | exact Hb].
    - rewrite Ho, length_app. cbn [length]. lia. }
  destruct ((nal_unit_type n =? NAL_SLICE) || (nal_unit_type n =? NAL_SLICE_IDR)).
  - destruct (bs_read_ue_total _ Hs) as (v & s1 & -> & H1). cbn [obind].
    destruct (bs_read_ue_total _ H1) as (v2 & s2 & -> & _). cbn [obind]. eauto.
  - repeat match goal with |- context [if ?c then _ else _] => destruct c end; eauto.
    exists (Frametype n). destruct n. reflexivity.
Qed.

Lemma copy_block_run cap size src i n : 0 <= n -> n <= cap -> Z.of_nat i + n <= size -> Z.of_nat i + n <= lenZ src ->
  copy_block cap size src i n = Ret (take (Z.to_nat n) (drop i src)).
Proof.
  intros H0 H1 H2 H3. unfold copy_block. rewrite (proj2 (Z.leb_le _ _) H1), (proj2 (Z.leb_le _ _) H2). cbn [andb].
  rewrite take_app_le by (rewrite length_drop; lia). reflexivity.
Qed.

Lemma Read_frame_run data : Forall is_u8 data -> 4 <= lenZ data <= MAX_ONE_FRAME_SIZE ->
  Read_One_H264_Frame data (lenZ data) = Ret (lenZ data, type_of data, annexb data).
Proof.
  intros Hb Hl. unfold MAX_ONE_FRAME_SIZE in Hl.
  enough (H : exists t, Read_One_H264_Frame data (lenZ data) = Ret (lenZ data, t, annexb data)).
  { destruct H as [t H]. unfold type_of. rewrite H. reflexivity. }
  unfold Read_One_H264_Frame, AllocNALU, GetAnnexbNALU. rewrite !plenty. cbn [obind max_size Frametype]. rewrite plenty.
  unfold MAX_VIDEO_TAG_BUF_SIZE. rewrite !(u32_small (lenZ data)), !(u32_small (lenZ data - 4)) by lia.
  rewrite copy_block_run by lia. cbn [obind]. rewrite drop_0, take_ge by lia.
  rewrite copy_block_run by lia. cbn [obind]. rewrite take_ge by (rewrite length_drop; lia).
  set (n := mkNalu _ _ _ _ _ _ _ _).
  destruct (GetFrameType_total n) as [t ->]; [apply Forall_drop, Hb | reflexivity | | |].
  - cbn [n len buf]. rewrite length_drop. lia.
  - cbn [n buf]. rewrite length_drop. lia.
  - cbn [obind with_frametype startcodeprefix_len len buf Frametype n]. unfold MAX_ONE_FRAME_SIZE.
    rewrite (proj2 (Z.leb_le _ _)) by lia. exists t. rewrite u32_small by lia. cbn [Z.eqb Pos.eqb].
    rewrite take_ge by (rewrite length_drop; lia). unfold annexb. repeat f_equal. lia.
Qed.

(** One PES packet sent: the stream gets one unit that parses to what was put in. *)
Lemma pes_sent s q PID id t f v a : stream_pid PID -> id = TS_H264_STREAM_ID \/ id = TS_AAC_STREAM_ID ->
  writets s = true -> pes_ok q -> made_pes q id t -> made_field f -> is_u32 t ->
  pes_pts q v a = Some (pts_bytes t) ->
  exists r s' q' ps u, PES2TS indeterminate s q PID f v a = Ret (r, s', q') /\ log s s' ps /\
    carries PID (map packet_event ps) u /\ parse_pes u = Some (id, t, frame q) /\
    writets s' = true /\ Timestamp_video s' = Timestamp_video s /\ Timestamp_audio s' = Timestamp_audio s /\ pts s' = pts s.
Proof.
  intros HP Hid Hw Hq Hm Hf Ht Hp. destruct (PES2TS_run indeterminate s q PID f v a _ HP Hw Hq Hf Hp) as (r & s' & q' & l & E & He & Hc).
  destruct (emits_log _ _ _ He) as (ps & Hl & El). destruct (emits_frame _ _ _ He) as (W & _ & _ & T1 & T2 & T3).
  exists r, s', q', ps, (pes_unit q (pts_bytes t)). rewrite El. split_and!; try assumption; [|congruence].
  exact (parse_unit q id t Hm Hid Ht).
Qed.

Lemma log_same s s1 s' s'' ps : log s1 s' ps -> written s1 = written s -> continuity_counter s1 = continuity_counter s ->
  written s'' = written s' -> continuity_counter s'' = continuity_counter s' -> log s s'' ps.
Proof. intros [P1 C1 N1] Hw Hc Hw' Hc'. split; [rewrite Hw', P1, Hw; reflexivity | |]; intros PID; rewrite <- Hc, ?Hc'; [apply C1 | apply N1]. Qed.

Lemma udiv_run a b : 0 < b -> udiv a b = Ret (a / b).
Proof. intros H. unfold udiv. rewrite (proj2 (Z.eqb_neq b 0)) by lia. reflexivity. Qed.

Lemma write_audio_run s rate data : writets s = true -> Forall is_u8 data -> 1 <= lenZ data <= MAX_ONE_FRAME_SIZE ->
  0 < rate -> is_u32 (Timestamp_audio s) ->
  exists s' ps u, write_audio indeterminate s rate data (lenZ data) = Ret s' /\ log s s' ps /\
    carries TS_AAC_PID (map packet_event ps) u /\ parse_pes u = Some (TS_AAC_STREAM_ID, Timestamp_audio s, data) /\
    writets s' = true /\ Timestamp_video s' = Timestamp_video s /\
    Timestamp_audio s' = u32 (Timestamp_audio s + 92160000 / rate) /\ pts s' = pts s.
Proof.
  intros Hw Hb Hl Hr Ht. unfold MAX_ONE_FRAME_SIZE in Hl. unfold write_audio, AAC2PES, MAX_ONE_FRAME_SIZE. rewrite !(u32_small (lenZ data)) by lia.
  rewrite (proj2 (Z.leb_le (lenZ data) (1024 * 1024))), (proj2 (Z.leb_le (lenZ data) (lenZ data))) by lia. cbn [andb obind].
  set (q := mkPes _ _ _ _ _ _ _ _ _ _ _ _ _ _ _ _ _ _ _ _).
  assert (Hfr : frame q = data).
  { unfold frame, q. cbn [Pes_Packet_Length_Beyond Es]. rewrite take_app_le, take_take, take_ge by (rewrite ?length_take; lia). reflexivity. }
  cbn [Pes_Packet_Length_Beyond q]. rewrite (proj2 (Z.eqb_neq (lenZ data) 0)) by lia. cbn [negb].
  destruct (pes_sent (s <| m_audio_tspes := q |>) q TS_AAC_PID TS_AAC_STREAM_ID (Timestamp_audio s) (WriteAdaptive_flags_Tail field0)
    (Timestamp_video s) (Timestamp_audio s)) as (r & s' & q' & ps & u & E & Hlog & Hc & Hp & W & T1 & T2 & T3);
    [right; reflexivity | right; reflexivity | exact Hw | split; rewrite Hfr; [exact Hb | unfold MAX_ONE_FRAME_SIZE; lia | reflexivity]
    | do 2 eexists; reflexivity | exists field0; right; reflexivity | exact Ht | reflexivity |].
  cbn [Timestamp_video Timestamp_audio upd set_m_audio_tspes] in *. rewrite E. cbn [obind]. rewrite udiv_run by exact Hr. cbn [obind].
  rewrite Hfr in Hp. do 3 eexists. split; [reflexivity|]. split; [apply (log_same s _ s' _ ps Hlog); reflexivity|].
  split_and!; [exact Hc | exact Hp | exact W | exact T1 | | exact T3]. cbn [Timestamp_audio upd set_Timestamp_audio]. rewrite T2. reflexivity.
Qed.

(** The stamp of the next picture: the frame interval the caller gave and the one
    measured against the last picture, both added. *)
Definition next_video (t rate d : Z) : Z := u32 (u32 (t + 90000 / rate) + 90000 / (1000 / d)).

Lemma H2642PES_run s t data : Forall is_u8 data -> 4 <= lenZ data <= MAX_ONE_FRAME_SIZE ->
  exists n q, H2642PES s t data (lenZ data) = Ret (n, type_of data, q) /\ made_pes q TS_H264_STREAM_ID t /\ pes_ok q /\ frame q = annexb data /\ Pes_Packet_Length_Beyond q = lenZ data /\ forall v a, pes_pts q v a = Some (pts_bytes v).
Proof.
  intros Hb Hl. unfold H2642PES. rewrite Read_frame_run by assumption. cbn [obind].
  set (q := mkPes _ _ _ _ _ _ _ _ _ _ _ _ _ _ _ _ _ _ _ _). do 2 eexists. split; [reflexivity|].
  assert (La : lenZ (annexb data) = lenZ data) by (unfold annexb; rewrite length_app, length_drop; cbn [length]; lia).
  assert (Hfr : frame q = annexb data) by (unfold frame, q; cbn [Pes_Packet_Length_Beyond Es]; rewrite take_ge by lia; reflexivity).
  split; [do 2 eexists; reflexivity|].
  split; [|split; [exact Hfr | split; reflexivity]]. split; rewrite ?Hfr, ?La; [|apply Hl | reflexivity].
  apply Forall_app. split; [repeat constructor; unfold is_u8; lia | apply Forall_drop, Hb].
Qed.

(** A video frame sent, with any adaptation field. *)
Lemma video_sent s data : writets s = true -> Forall is_u8 data -> 4 <= lenZ data <= MAX_ONE_FRAME_SIZE -> is_u32 (Timestamp_video s) ->
  exists n q, H2642PES s (Timestamp_video s) data (lenZ data) = Ret (n, type_of data, q) /\ (Pes_Packet_Length_Beyond q =? 0) = false /\
  forall f, made_field f -> exists r s' q' ps u,
    PES2TS indeterminate (s <| m_video_tspes := q |>) q TS_H264_PID f (Timestamp_video s) (Timestamp_audio s) = Ret (r, s', q') /\
    log (s <| m_video_tspes := q |>) s' ps /\
    carries TS_H264_PID (map packet_event ps) u /\ parse_pes u = Some (TS_H264_STREAM_ID, Timestamp_video s, annexb data) /\
    writets s' = true /\ Timestamp_video s' = Timestamp_video s /\ Timestamp_audio s' = Timestamp_audio s /\ pts s' = pts s.
Proof.
  intros Hw Hb Hl Ht. destruct (H2642PES_run s (Timestamp_video s) data Hb Hl) as (n & q & E & Hm & Hq & Hfr & Hn & Hp).
  exists n, q. split; [exact E|]. split; [rewrite Hn; apply Z.eqb_neq; lia|]. intros f Hf. rewrite <- Hfr.
  set (s1 := s <| m_video_tspes := q |>).
  exact (pes_sent s1 q TS_H264_PID TS_H264_STREAM_ID (Timestamp_video s) f (Timestamp_video s)
    (Timestamp_audio s) (or_introl eq_refl) (or_introl eq_refl) Hw Hq Hm Hf Ht (Hp _ _)).
Qed.

Lemma write_video_run s rate npts data : writets s = true -> Forall is_u8 data -> 4 <= lenZ data <= MAX_ONE_FRAME_SIZE ->
  is_u32 (Timestamp_video s) -> (is_picture (type_of data) = true -> 0 < rate /\ 1 <= u32 (npts - pts s) <= 1000) ->
  exists s' ps u, write_video indeterminate s rate npts data (lenZ data) = Ret s' /\ log s s' ps /\
    carries TS_H264_PID (map packet_event ps) u /\ parse_pes u = Some (TS_H264_STREAM_ID, Timestamp_video s, annexb data) /\
    writets s' = true /\ Timestamp_audio s' = Timestamp_audio s /\
    Timestamp_video s' = (if is_picture (type_of data) then next_video (Timestamp_video s) rate (u32 (npts - pts s)) else Timestamp_video s) /\
    pts s' = (if is_picture (type_of data) then npts else pts s).
Proof.
  intros Hw Hb Hl Ht Hpic. unfold write_video. destruct (video_sent s data Hw Hb Hl Ht) as (n & q & -> & Hn & Hs). cbn [obind].
  rewrite Hn. cbn [negb Timestamp_video Timestamp_audio upd set_m_video_tspes]. destruct (is_picture (type_of data)).
  - destruct (Hpic eq_refl) as [Hr Hd].
    destruct (Hs (WriteAdaptive_flags_Head field0 (Timestamp_video s))) as (r & s' & q' & ps & u & E' & Hlog & Hc & Hu & W & T1 & T2 & T3);
      [exists field0; left; eauto|].
    rewrite E'. cbn [obind]. rewrite (udiv_run _ rate) by lia. cbn [obind pts upd set_m_video_tspes set_Timestamp_video].
    rewrite T3, (udiv_run 1000) by lia. cbn [obind]. rewrite udiv_run by (apply Z.div_str_pos; lia). cbn [obind].
    do 3 eexists. split; [reflexivity|]. split; [apply (log_same s _ s' _ ps Hlog); reflexivity|].
    split_and!; [exact Hc | exact Hu | exact W | exact T2 | | reflexivity]. cbn [Timestamp_video upd set_Timestamp_video set_m_video_tspes set_pts].
    rewrite T1. reflexivity.
  - destruct (Hs (WriteAdaptive_flags_Tail field0)) as (r & s' & q' & ps & u & E' & Hlog & Hc & Hu & W & T1 & T2 & T3);
      [exists field0; right; reflexivity|].
    rewrite E'. cbn [obind]. do 3 eexists. split; [reflexivity|]. split; [apply (log_same s _ s' _ ps Hlog); reflexivity|].
    split_and!; [exact Hc | exact Hu | exact W | exact T2 | exact T1 | exact T3].
Qed.

Lemma write_video_crash s rate npts data : writets s = true -> Forall is_u8 data -> 4 <= lenZ data <= MAX_ONE_FRAME_SIZE ->
  is_u32 (Timestamp_video s) -> is_picture (type_of data) = true -> 0 < rate ->
  u32 (npts - pts s) = 0 \/ 1000 < u32 (npts - pts s) ->
  write_video indeterminate s rate npts data (lenZ data) = Crash DivByZero.
Proof.
  intros Hw Hb Hl Ht Hpic Hr Hd. unfold write_video. destruct (video_sent s data Hw Hb Hl Ht) as (n & q & -> & Hn & Hs). cbn [obind].
  rewrite Hn, Hpic. cbn [negb Timestamp_video Timestamp_audio upd set_m_video_tspes].
  destruct (Hs (WriteAdaptive_flags_Head field0 (Timestamp_video s))) as (r & s' & q' & ps & u & E' & _ & _ & _ & _ & _ & _ & T3);
    [exists field0; left; eauto|].
  rewrite E'. cbn [obind]. rewrite (udiv_run _ rate) by lia. cbn [obind pts upd set_m_video_tspes set_Timestamp_video]. rewrite T3.
  destruct Hd as [Hd|Hd]; [rewrite Hd; reflexivity|].
  rewrite (udiv_run 1000) by lia. cbn [obind]. rewrite Z.div_small by lia. reflexivity.
Qed.

(** ** A sequence of calls *)

(** The arguments of one call of [WriteBuf2TsFile]. *)
Record call := mkCall { c_rate : Z; c_pts : Z; c_type : Z; c_data : list Z }.

Fixpoint write_calls (s : TSPKG_SESSION) (cs : list call) : outcome TSPKG_SESSION :=
  match cs with
  | [] => Ret s
  | c :: cs =>
      let! s := WriteBuf2TsFile indeterminate s (c_rate c) (c_pts c) (c_type c) (c_data c) (lenZ (c_data c)) in
      write_calls s cs
  end.

(** What the calls depend on: the two time stamps and the caller's last stamp. *)
Record clock := mkClock { k_video : Z; k_audio : Z; k_pts : Z }.

Definition clock_of (s : TSPKG_SESSION) : clock := mkClock (Timestamp_video s) (Timestamp_audio s) (pts s).

Definition tick (k : clock) (c : call) : clock :=
  if c_type c =? 0 then mkClock (k_video k) (u32 (k_audio k + 92160000 / c_rate c)) (k_pts k)
  else if (c_type c =? 1) && is_picture (type_of (c_data c)) then
    mkClock (next_video (k_video k) (c_rate c) (u32 (c_pts c - k_pts k))) (k_audio k) (c_pts c)
  else k.

(** A frame of bytes of a size the buffers hold, a frame rate, and pictures at most
    one second apart. *)
Definition call_ok (k : clock) (c : call) : Prop :=
  Forall is_u8 (c_data c) /\ lenZ (c_data c) <= MAX_ONE_FRAME_SIZE /\
  (c_type c = 0 -> 1 <= lenZ (c_data c) /\ 0 < c_rate c) /\
  (c_type c = 1 -> 4 <= lenZ (c_data c) /\
    (is_picture (type_of (c_data c)) = true -> 0 < c_rate c /\ 1 <= u32 (c_pts c - k_pts k) <= 1000)).

Fixpoint calls_ok (k : clock) (cs : list call) : Prop :=
  match cs with [] => True | c :: cs => call_ok k c /\ calls_ok (tick k c) cs end.

(** The PES packets a stream is to carry: stream id, time stamp, data. *)
Definition sends (PID : Z) (k : clock) (c : call) : list (Z * Z * list Z) :=
  if (c_type c =? 0) && (PID =? TS_AAC_PID) then [(TS_AAC_STREAM_ID, k_audio k, c_data c)]
  else if (c_type c =? 1) && (PID =? TS_H264_PID) then [(TS_H264_STREAM_ID, k_video k, annexb (c_data c))]
  else [].

Fixpoint sent (PID : Z) (k : clock) (cs : list call) : list (Z * Z * list Z) :=
  match cs with [] => [] | c :: cs => sends PID k c ++ sent PID (tick k c) cs end.

(** The events [l] add to every stream exactly the units that parse to [fs]. *)
Definition delivers (l : list event) (fs : Z -> list (Z * Z * list Z)) : Prop :=
  forall PID, stream_pid PID -> exists us', (forall us, foldl (collect PID) us l = us ++ us') /\ map parse_pes us' = map Some (fs PID).

Lemma delivers_app l1 l2 f1 f2 : delivers l1 f1 -> delivers l2 f2 -> delivers (l1 ++ l2) (fun PID => f1 PID ++ f2 PID).
Proof.
  intros H1 H2 PID HP. destruct (H1 PID HP) as (u1 & E1 & P1), (H2 PID HP) as (u2 & E2 & P2).
  exists (u1 ++ u2). split; [|rewrite !map_app, P1, P2; reflexivity]. intros us. rewrite foldl_app, E1, E2, app_assoc. reflexivity.
Qed.

Lemma carries_delivers PID l u f : stream_pid PID -> carries PID l u -> parse_pes u = Some f ->
  delivers l (fun PID' => if PID' =? PID then [f] else []).
Proof.
  intros HP Hc Hp PID' HP'. destruct (Z.eqb_spec PID' PID) as [->|Hne].
  - exists [u]. split; [intros us; apply collect_carries; assumption | cbn; rewrite Hp; reflexivity].
  - exists []. split; [|reflexivity]. intros us. rewrite app_nil_r. apply (collect_other PID' PID us l u); assumption.
Qed.

Lemma delivers_ext l f g : (forall PID, stream_pid PID -> f PID = g PID) -> delivers l f -> delivers l g.
Proof. intros H Hd PID HP. rewrite <- H by exact HP. apply Hd, HP. Qed.

Definition session_ok (s : TSPKG_SESSION) : Prop :=
  writets s = true /\ is_u32 (Timestamp_video s) /\ is_u32 (Timestamp_audio s).

Lemma write_call_run s c : session_ok s -> call_ok (clock_of s) c ->
  exists s' ps, WriteBuf2TsFile indeterminate s (c_rate c) (c_pts c) (c_type c) (c_data c) (lenZ (c_data c)) = Ret s' /\
    log s s' ps /\ session_ok s' /\ clock_of s' = tick (clock_of s) c /\
    delivers (map packet_event ps) (fun PID => sends PID (clock_of s) c).
Proof.
  intros (Hw & Hv & Ha) (Hb & Hm & H0 & H1). unfold WriteBuf2TsFile, tick.
  destruct (Z.eqb_spec (c_type c) 0) as [E0|N0]; [|destruct (Z.eqb_spec (c_type c) 1) as [E1|N1]].
  - destruct (H0 E0) as [Hl Hr]. destruct (write_audio_run s (c_rate c) (c_data c)) as (s' & ps & u & E & Hlog & Hc & Hp & W & T1 & T2 & T3); auto.
    exists s', ps. rewrite E. split_and!; [reflexivity | exact Hlog | | |].
    + split_and!; [exact W | rewrite T1; exact Hv | rewrite T2; apply u32_range].
    + unfold clock_of. rewrite T1, T2, T3. reflexivity.
    + refine (delivers_ext _ _ _ _ (carries_delivers _ _ _ _ (or_intror eq_refl) Hc Hp)). intros PID HP. unfold sends. rewrite E0.
      destruct HP as [->| ->]; reflexivity.
  - destruct (H1 E1) as [Hl Hr]. destruct (write_video_run s (c_rate c) (c_pts c) (c_data c)) as (s' & ps & u & E & Hlog & Hc & Hp & W & T1 & T2 & T3); auto.
    exists s', ps. rewrite E. cbn [andb]. split_and!; [reflexivity | exact Hlog | | |].
    + split_and!; [exact W | rewrite T2; case_match; [apply u32_range | exact Hv] | rewrite T1; exact Ha].
    + unfold clock_of. rewrite T1, T2, T3. case_match; reflexivity.
    + refine (delivers_ext _ _ _ _ (carries_delivers _ _ _ _ (or_introl eq_refl) Hc Hp)). intros PID HP. unfold sends. rewrite E1.
      destruct HP as [->| ->]; reflexivity.
  - exists s, []. split_and!; [reflexivity | apply log_refl; reflexivity | split_and!; assumption | reflexivity |].
    intros PID _. exists []. split; [intros us; apply eq_sym, app_nil_r|]. unfold sends.
    rewrite (proj2 (Z.eqb_neq _ _) N0), (proj2 (Z.eqb_neq _ _) N1). reflexivity.
Qed.

Lemma write_calls_run cs : forall s, session_ok s -> calls_ok (clock_of s) cs ->
  exists s' ps, write_calls s cs = Ret s' /\ log s s' ps /\ session_ok s' /\
    delivers (map packet_event ps) (fun PID => sent PID (clock_of s) cs).
Proof.
  induction cs as [|c cs IH]; intros s Hs Hk; cbn [write_calls].
  - exists s, []. split_and!; [reflexivity | apply log_refl; reflexivity | exact Hs |].
    intros PID _. exists []. split; [intros us; apply eq_sym, app_nil_r | reflexivity].
  - destruct Hk as [Hc Hk]. destruct (write_call_run s c Hs Hc) as (s1 & p1 & -> & L1 & Hs1 & E1 & D1). cbn [obind].
    rewrite <- E1 in Hk. destruct (IH s1 Hs1 Hk) as (s2 & p2 & -> & L2 & Hs2 & D2).
    exists s2, (p1 ++ p2). split_and!; [reflexivity | exact (log_trans _ _ _ _ _ L1 L2) | exact Hs2 |].
    rewrite map_app. rewrite E1 in D2. exact (delivers_app _ _ _ _ D1 D2).
Qed.
End Run.
