(* ===== verification/TsProps.v ===== *)
(** * Properties of the transport stream muxer *)

From S2P Require Import Prelude TsBits TsCrc TsPacket TsMux TsMuxRun TsFrame TsStream.

Local Open Scope Z_scope.

(** ** Inputs for the witnesses *)

(** A session at rest: all counters zero, a callback installed. *)
Definition session0 : TSPKG_SESSION := mkSession (mkCounter 0 0 0 0) pes0 pes0 0 0 0 0 0 0 true [].

#[local] Instance calloc_always : Calloc := fun _ => true.

(** A parameter set, a key frame of two packets, a sound, a picture of one packet. *)
Definition sps : list Z := [0; 0; 0; 1; 0x67; 0x42; 0xe0; 0x14].
Definition idr : list Z := [0; 0; 0; 1; 0x65; 0x88; 0x84] ++ repeat 0xaa 300.
Definition sound : list Z := [0xff; 0xf1; 0x4c; 0x80; 0x01; 0x7f; 0xfc; 0x21].
Definition slice : list Z := [0; 0; 0; 1; 0x41; 0x9a; 0x24; 0x6c].

Definition calls0 : list call :=
  [mkCall 25 40 1 sps; mkCall 25 40 1 idr; mkCall 48000000 0 0 sound; mkCall 25 80 1 slice].

Lemma bytes_ok (l : list Z) : forallb (fun b => (0 <=? b) && (b <? 256)) l = true -> Forall is_u8 l.
Proof.
  rewrite forallb_forall. intros H. apply Forall_forall. intros x Hx%list_elem_of_In%H.
  apply andb_prop in Hx as [H0 H1]. apply Z.leb_le in H0. apply Z.ltb_lt in H1. split; assumption.
Qed.

Lemma calls0_ok : calls_ok (clock_of session0) calls0.
Proof.
  assert (K : forall k r p t d, forallb (fun b => (0 <=? b) && (b <? 256)) d = true -> 4 <= lenZ d <= MAX_ONE_FRAME_SIZE -> 0 < r ->
    t = 0 \/ 1 <= u32 (p - k_pts k) <= 1000 \/ is_picture (type_of d) = false -> call_ok k (mkCall r p t d)).
  { intros k r p t d Hb Hl Hr Hd. split_and!; [apply bytes_ok, Hb | apply Hl | cbn; lia|]. cbn [c_type c_data c_rate c_pts].
    intros Ht. split; [apply Hl|]. intros Hp. split; [exact Hr|]. destruct Hd as [E|[E|E]]; [lia | exact E | congruence]. }
  unfold calls0. cbn [calls_ok]. split_and!; try exact I; apply K; try reflexivity; try (vm_compute; split; congruence).
  - right. right. vm_compute. reflexivity.
  - right. left. vm_compute. split; congruence.
  - left. reflexivity.
  - right. left. vm_compute. split; congruence.
Qed.

(** ** Multiplexing and demultiplexing *)



(** What the frames of the witness become: the stamp moves by 3600 for the frame
    rate and by 3600 for the interval. *)
Example sent_video : map (fun f => (f.1.1, f.1.2, length f.2)) (sent TS_H264_PID (clock_of session0) calls0) =
  [(0xE0, 0, 8%nat); (0xE0, 0, 307%nat); (0xE0, 7200, 8%nat)].
Proof. reflexivity. Qed.

(** C19: continuity.  Under the same conditions, on every PID the packets handed
    over, tables included, carry consecutive continuity counters modulo 16,
    starting with the counter of the session, and the session's counter is left
    at the next one: a receiver never sees a packet as lost or repeated. *)
Theorem ts_continuity `{Calloc} ind s cs PID : (forall n, calloc_ok n = true) -> session_ok s -> written s = [] ->
  calls_ok (clock_of s) cs ->
  exists s' ps, write_calls ind s cs = Ret s' /\ map parse_packet (written s') = map Some ps /\
    (forall i c, counters PID ps !! i = Some c -> c = (cnt (continuity_counter s) PID + Z.of_nat i) mod 16) /\
    cnt (continuity_counter s') PID mod 16 = (cnt (continuity_counter s) PID + lenZ (counters PID ps)) mod 16.
Proof.
  intros Hp Hs Hw Hk. destruct (write_calls_run ind Hp cs s Hs Hk) as (s' & ps & E & L & _).
  exists s', ps. split_and!; [exact E | rewrite (lg_parse _ _ _ L), Hw; reflexivity | | apply (lg_next _ _ _ L)].
  intros i c Hc. rewrite (lg_count _ _ _ L) in Hc. exact (consecutive_lookup _ _ _ _ Hc).
Qed.

Lemma ts_continuity_witness : exists s' ps, write_calls 0 session0 calls0 = Ret s' /\ map parse_packet (written s') = map Some ps /\
    (forall i c, counters TS_H264_PID ps !! i = Some c -> c = (0 + Z.of_nat i) mod 16) /\
    cnt (continuity_counter s') TS_H264_PID mod 16 = (0 + lenZ (counters TS_H264_PID ps)) mod 16.
Proof.
  apply (ts_continuity 0 session0 calls0 TS_H264_PID);
    [intros n; reflexivity | repeat split; vm_compute; congruence | reflexivity | exact calls0_ok].
Defined.

(** ** Tables *)

(** the program association table and the program map table are packets whose
    sections have the right length and checksum; the first names program 1 with
    the PID of the second, the second an H.264 and an AAC stream with the PIDs the
    frames are sent on. *)
Theorem ts_tables ind s : writets s = true ->
  exists s1 s2 b1 b2 k1 k2 body1 body2, Write_Pat ind s = Ret s1 /\ Write_Pmt ind s1 = Ret s2 /\
    written s2 = written s ++ [b1; b2] /\
    parse_packet b1 = Some k1 /\ pid k1 = 0 /\ unit_start k1 = true /\
    parse_section (payload k1) = Some (0, body1) /\ pat_programs (drop 5 body1) = [(1, TS_PMT_PID)] /\
    parse_packet b2 = Some k2 /\ pid k2 = TS_PMT_PID /\ unit_start k2 = true /\
    parse_section (payload k2) = Some (2, body2) /\
    pmt_streams (drop 9 body2) = [(PMT_STREAM_TYPE_VIDEO, TS_H264_PID); (PMT_STREAM_TYPE_AUDIO, TS_AAC_PID)].
Proof.
  intros Hw. destruct (Write_Pat_run ind s Hw) as (s1 & E1 & [(b1 & P1 & W1) _ F1] & _).
  assert (Hw1 : writets s1 = true) by (rewrite F1; exact Hw).
  destruct (Write_Pmt_run ind s1 Hw1) as (s2 & E2 & [(b2 & P2 & W2) _ _] & _).
  do 8 eexists. split; [exact E1|]. split; [exact E2|]. split; [rewrite W2, W1, <- app_assoc; reflexivity|].
  split; [exact P1|]. do 2 (split; [reflexivity|]). split; [vm_compute; reflexivity|]. split; [reflexivity|].
  split; [exact P2|]. do 2 (split; [reflexivity|]). split; [vm_compute; reflexivity|]. reflexivity.
Qed.

Lemma ts_tables_witness : exists s1 s2 b1 b2 k1 k2 body1 body2, Write_Pat 0 session0 = Ret s1 /\ Write_Pmt 0 s1 = Ret s2 /\
    written s2 = [] ++ [b1; b2] /\
    parse_packet b1 = Some k1 /\ pid k1 = 0 /\ unit_start k1 = true /\
    parse_section (payload k1) = Some (0, body1) /\ pat_programs (drop 5 body1) = [(1, TS_PMT_PID)] /\
    parse_packet b2 = Some k2 /\ pid k2 = TS_PMT_PID /\ unit_start k2 = true /\
    parse_section (payload k2) = Some (2, body2) /\
    pmt_streams (drop 9 body2) = [(PMT_STREAM_TYPE_VIDEO, TS_H264_PID); (PMT_STREAM_TYPE_AUDIO, TS_AAC_PID)].
Proof. exact (ts_tables 0 session0 eq_refl). Defined.

(** A frame that fits into one packet is sent without the tables, also when
    they are due: exactly one packet is handed over. *)
Theorem ts_small_frame_no_tables ind s q PID f v a : PID = TS_H264_PID \/ PID = TS_AAC_PID -> writets s = true -> pes_ok q ->
  made_field f -> pes_pts q v a <> None -> lenZ (frame q) < 169 - adaptation_field_length f -> WritePacketNum s mod 40 = 0 ->
  exists r s' k, PES2TS ind s q PID f v a = Ret (r, s', q) /\
    map parse_packet (written s') = map parse_packet (written s) ++ [Some k] /\ pid k = PID.
Proof.
  intros HP Hw Hq Hf Hp Hs _. destruct (pes_pts q v a) as [b|] eqn:E; [|congruence].
  destruct (PES2TS_small ind s q PID f v a b HP Hw Hq Hf E Hs) as (r & s' & E' & [(bb & P1 & W1) _ _]).
  do 3 eexists. split; [exact E'|]. rewrite W1, map_app. cbn [map]. rewrite P1. split; reflexivity.
Qed.

Definition small_pes : TsPes :=
  mkPes 0x000001 TS_AAC_STREAM_ID 0x00 0x02 0 0 0 0 0 0x02 0 0 0 0 0 0 0x05 (pts_fields 0) sound 8.

Lemma ts_small_frame_no_tables_witness : exists r s' k,
    PES2TS 0 session0 small_pes TS_AAC_PID (WriteAdaptive_flags_Tail field0) 0 0 = Ret (r, s', small_pes) /\
    map parse_packet (written s') = map parse_packet (written session0) ++ [Some k] /\ pid k = TS_AAC_PID.
Proof.
  apply ts_small_frame_no_tables; [right; reflexivity | reflexivity | | exists field0; right; reflexivity | discriminate | reflexivity | reflexivity].
  split; [apply bytes_ok; reflexivity | vm_compute; congruence | reflexivity].
Defined.

(** ** Checksum *)

(** C20: the table-driven checksum is the remainder of the division by the
    polynomial of ISO/IEC 13818-1, bit by bit, and the four bytes stored behind the
    data make the remainder of the whole zero. *)
Theorem ts_crc data : Forall is_u8 data ->
  calc_crc32 data = crc_ref data /\ crc_ref (data ++ le32 (Zwg_ntohl (calc_crc32 data))) = 0.
Proof.
  intros Hd. assert (E : calc_crc32 data = crc_ref data) by (apply crc_fold_ref; [rlia | exact Hd]). split; [exact E|].
  rewrite stored_crc by apply calc_crc32_range. unfold crc_ref in *. rewrite foldl_app, <- E, <- crc_fold_ref.
  - apply crc_residue, calc_crc32_range.
  - apply calc_crc32_range.
  - unfold be32. repeat constructor; apply u8_range.
Qed.

Lemma ts_crc_witness : Forall is_u8 [0; 0xb0; 0x0d; 0; 1; 0xc1; 0; 0; 0; 1; 0xef; 0xff] /\
  calc_crc32 [0; 0xb0; 0x0d; 0; 1; 0xc1; 0; 0; 0; 1; 0xef; 0xff] = 0x3690e23d /\
  crc_ref ([0; 0xb0; 0x0d; 0; 1; 0xc1; 0; 0; 0; 1; 0xef; 0xff] ++
    le32 (Zwg_ntohl (calc_crc32 [0; 0xb0; 0x0d; 0; 1; 0xc1; 0; 0; 0; 1; 0xef; 0xff]))) = 0.
Proof.
  assert (H : Forall is_u8 [0; 0xb0; 0x0d; 0; 1; 0xc1; 0; 0; 0; 1; 0xef; 0xff]) by (apply bytes_ok; reflexivity).
  split; [exact H|]. split; [reflexivity | exact (proj2 (ts_crc _ H))].
Defined.

(** ** Slice headers *)

(** An Exp-Golomb code of a number below 2^31 - 1 anywhere in the data is read
    as that number, and the reader is left behind it. *)
Theorem ue_roundtrip s v rest : bs_ok s -> 0 <= v < 2147483647 -> unread s = ue_code v ++ rest ->
  exists s', bs_read_ue s = Ret (v, s') /\ bs_ok s' /\ unread s' = rest.
Proof. apply bs_read_ue_spec. Qed.

Lemma ue_roundtrip_witness : exists s', bs_read_ue (bs_init [0x26; 0x6c] 0 2) = Ret (3, s') /\ bs_ok s' /\
    unread s' = [true; true; false; false; true; true; false; true; true; false; false].
Proof.
  apply ue_roundtrip; [|lia | reflexivity]. split; cbn; [apply bytes_ok; reflexivity | lia | lia | reflexivity].
Defined.

(** ** Clock *)

(** The program clock reference of an adaptation field, its part that counts at
    90 kHz. *)
Definition decode_pcr_base (l : list Z) : Z :=
  match l with
  | [a; b; c; d; e; _] => a * 2 ^ 25 + b * 2 ^ 17 + c * 2 ^ 9 + d * 2 + e / 128
  | _ => 0
  end.

Lemma decode_pcr_bytes p : is_u32 p -> decode_pcr_base (map u8 (pcr_bytes p)) = p / 300.
Proof.
  intros Hp. unfold pcr_bytes, decode_pcr_base. cbn [map]. rewrite !land_ff, !Z.shiftr_div_pow2 by lia.
  assert (E : u8 (Z.lor (Z.lor (Z.shiftl (p / 300) 7) (u32 (p mod 300) / 2 ^ 8)) 0x7e) / 128 = (p / 300) mod 2).
  { unfold u8. change 256 with (128 * 2). rewrite Z.rem_mul_r by lia. rewrite Z.add_comm, Z.mul_comm.
    rewrite Z.div_add_l, (Z.div_small (_ mod 128)), Z.add_0_r by (try apply Z.mod_pos_bound; lia).
    change 128 with (2 ^ 7). rewrite <- Z.shiftr_div_pow2, !Z.shiftr_lor, Z.shiftr_shiftl_l by lia. rewrite Z.shiftl_0_r.
    assert (E0 : Z.shiftr (u32 (p mod 300) / 2 ^ 8) 7 = 0) by (rewrite Z.shiftr_div_pow2 by lia; apply Z.div_small; change (2 ^ 8) with 256; change (2 ^ 7) with 128; wrap_lia).
    rewrite E0. change (Z.shiftr 126 7) with 0. rewrite !Z.lor_0_r. reflexivity. }
  rewrite E. unfold is_u32 in Hp. change (2 ^ 25) with 33554432. change (2 ^ 17) with 131072. change (2 ^ 9) with 512. change (2 ^ 1) with 2.
  unfold u8. rewrite !Z.mod_mod by lia. set (b := p / 300). assert (Hb : 0 <= b < 33554432) by (unfold b; Z.div_mod_to_equations; lia).
  clearbody b. Z.div_mod_to_equations. lia.
Qed.

(** The clock reference of a picture is the picture's time stamp up to 14316557,
    about 159 seconds; from then on the product with 300 has wrapped around in 32
    bits and the clock is behind the time stamp, never equal to it. *)
Theorem pcr_wraps f t b : is_u32 t -> length b = TS_PACKET_SIZE ->
  exists b', CreateAdaptive_Ts (WriteAdaptive_flags_Head f t) b 5 169 = Ret b' /\ nth 5 b' 0 = 0x10 /\
    decode_pcr_base (take 6 (drop 6 b')) = u32 (t * 300) / 300 /\
    (decode_pcr_base (take 6 (drop 6 b')) = t <-> t <= 14316557).
Proof.
  intros Ht Hb. pose proof (adaptive_run (WriteAdaptive_flags_Head f t) (take 5 b) (drop 5 b)) as R.
  rewrite take_drop in R. change (188 - 4 - 1 - 14) with 169 in R.
  rewrite R by (first [exists f; left; eauto | rewrite ?length_take, ?length_drop, Hb; cbn; lia]). clear R.
  set (p := u32 (t * 300)). assert (Hp : is_u32 p) by apply u32_range.
  assert (Ef : field_bytes (WriteAdaptive_flags_Head f t) = 0x10 :: map u8 (pcr_bytes p)) by reflexivity. rewrite Ef.
  assert (L5 : length (take 5 b) = 5%nat) by (rewrite length_take, Hb; reflexivity).
  eexists. split; [reflexivity|]. rewrite <- app_assoc. cbn [app].
  assert (Ed : forall r, decode_pcr_base (take 6 (drop 6 (take 5 b ++ 0x10 :: map u8 (pcr_bytes p) ++ r))) = p / 300).
  { intros r. rewrite drop_app_ge, L5 by lia. change (drop (6 - 5) (0x10 :: map u8 (pcr_bytes p) ++ r)) with (map u8 (pcr_bytes p) ++ r).
    rewrite take_app_le, take_ge by (cbn; lia). apply decode_pcr_bytes, Hp. }
  rewrite Ed. split_and!; [rewrite app_nth2, L5 by lia; reflexivity | reflexivity |].
  unfold p, u32, is_u32 in *. split; intros; Z.div_mod_to_equations; lia.
Qed.

Lemma pcr_wraps_witness : exists b', CreateAdaptive_Ts (WriteAdaptive_flags_Head field0 14316558) (repeat 0 188) 5 169 = Ret b' /\
    nth 5 b' 0 = 0x10 /\ decode_pcr_base (take 6 (drop 6 b')) = u32 (14316558 * 300) / 300 /\
    (decode_pcr_base (take 6 (drop 6 b')) = 14316558 <-> 14316558 <= 14316557).
Proof. apply pcr_wraps; [rlia | reflexivity]. Defined.

(** a picture that comes with the same caller's stamp as the picture before, or
    more than 1000 after it, is sent and then ends in a division by zero. *)
Theorem video_interval_crash `{Calloc} ind s rate npts data : (forall n, calloc_ok n = true) -> session_ok s ->
  Forall is_u8 data -> 4 <= lenZ data <= MAX_ONE_FRAME_SIZE -> is_picture (type_of data) = true -> 0 < rate ->
  u32 (npts - pts s) = 0 \/ 1000 < u32 (npts - pts s) ->
  WriteBuf2TsFile ind s rate npts 1 data (lenZ data) = Crash DivByZero.
Proof.
  intros Hc (Hw & Hv & _) Hb Hl Hp Hr Hd. exact (write_video_crash ind Hc s rate npts data Hw Hb Hl Hv Hp Hr Hd).
Qed.

Lemma video_interval_crash_witness : is_picture (type_of idr) = true /\
  WriteBuf2TsFile 0 session0 25 0 1 idr (lenZ idr) = Crash DivByZero.
Proof.
  split; [vm_compute; reflexivity|]. apply video_interval_crash; [intros n; reflexivity | repeat split; vm_compute; congruence
    | apply bytes_ok; reflexivity | vm_compute; split; congruence | vm_compute; reflexivity | lia | left; reflexivity].
Defined.
