(* ===== verification/Mqueue.v ===== *)
(** * The blocking queue (MEDIAQUEUE/mqueue.h, EVENTLOOP/eventloop.h)

    [class MQUEUE], a bounded queue under a mutex with two condition variables;
    [class EventLoop] is the same code with another capacity.  Any number of
    threads call [PushData] and [PopData].  A thread runs from one synchronisation
    point to the next: taking the mutex, the section under the mutex up to the
    wait or the unlock, waking up.  A thread that has been woken takes the mutex
    again and repeats the test, as a thread that just called does. *)

From S2P Require Import Prelude.

Local Open Scope Z_scope.

(** ** Threads *)

Inductive qpc :=
| QIdle
| PushLock (data : Z) | PushIn (data : Z) | PushWait (data : Z)
| PopLock | PopIn | PopWait.

Record MQUEUE := mkMq { mq : list Z; mcap : Z; mmutex : option nat; threads : list qpc }.

(** What a call that ended did. *)
Inductive qevent := Pushed (i : nat) (data : Z) | Popped (i : nat) (data : Z).

Definition NUM : Z := 180.
Definition EventLoop_NUM : Z := 8.

(** The constructor, with [n] threads that have not called yet. *)
Definition MQUEUE_new (cap : Z) (n : nat) : MQUEUE := mkMq [] cap None (repeat QIdle n).

Definition IsEmpty (s : MQUEUE) : bool := lenZ (mq s) =? 0.
Definition IsFull (s : MQUEUE) : bool := lenZ (mq s) =? u32 (mcap s).

(** [pthread_cond_signal] on [full] and on [empty]: one waiting thread goes on to
    take the mutex, [w] says which; [None] when nobody waits. *)
Definition wake_full (p : qpc) : option qpc := match p with PushWait d => Some (PushLock d) | _ => None end.
Definition wake_empty (p : qpc) : option qpc := match p with PopWait => Some PopLock | _ => None end.

Definition notify (wake : qpc -> option qpc) (t : list qpc) (w : option nat) : option (list qpc) :=
  match w with
  | None => if forallb (fun p => match wake p with None => true | _ => false end) t then Some t else None
  | Some j => match t !! j with
              | Some p => match wake p with Some p' => Some (<[j := p']> t) | None => None end
              | None => None
              end
  end.

Definition NotifyProduct := notify wake_full.
Definition NotifyConsume := notify wake_empty.

(** ** The sections under the mutex *)

Definition PushData (s : MQUEUE) (i : nat) (data : Z) (w : option nat) : option (MQUEUE * option qevent) :=
  t ← NotifyConsume (threads s) w;
  if IsFull s then Some (mkMq (mq s) (mcap s) None (<[i := PushWait data]> t), None)
  else Some (mkMq (mq s ++ [data]) (mcap s) None (<[i := QIdle]> t), Some (Pushed i data)).

Definition PopData (s : MQUEUE) (i : nat) (w : option nat) : option (MQUEUE * option qevent) :=
  t ← NotifyProduct (threads s) w;
  match mq s with
  | [] => Some (mkMq [] (mcap s) None (<[i := PopWait]> t), None)
  | x :: q => Some (mkMq q (mcap s) None (<[i := QIdle]> t), Some (Popped i x))
  end.

(** ** Steps *)

Inductive qaction :=
| ACallPush (i : nat) (data : Z)
| ACallPop (i : nat)
| ALock (i : nat)
| ABody (i : nat) (w : option nat)
| ASpurious (i : nat).

Definition set_thread (s : MQUEUE) (i : nat) (p : qpc) : MQUEUE := mkMq (mq s) (mcap s) (mmutex s) (<[i := p]> (threads s)).

Definition qexec (s : MQUEUE) (a : qaction) : option (MQUEUE * option qevent) :=
  match a with
  | ACallPush i d => match threads s !! i with Some QIdle => Some (set_thread s i (PushLock d), None) | _ => None end
  | ACallPop i => match threads s !! i with Some QIdle => Some (set_thread s i PopLock, None) | _ => None end
  | ALock i =>
      match mmutex s, threads s !! i with
      | None, Some (PushLock d) => Some (mkMq (mq s) (mcap s) (Some i) (<[i := PushIn d]> (threads s)), None)
      | None, Some PopLock => Some (mkMq (mq s) (mcap s) (Some i) (<[i := PopIn]> (threads s)), None)
      | _, _ => None
      end
  | ABody i w =>
      match threads s !! i with
      | Some (PushIn d) => PushData s i d w
      | Some PopIn => PopData s i w
      | _ => None
      end
  | ASpurious i =>
      match threads s !! i with
      | Some (PushWait d) => Some (set_thread s i (PushLock d), None)
      | Some PopWait => Some (set_thread s i PopLock, None)
      | _ => None
      end
  end.

(** A run and the calls that ended in it. *)
Inductive qrun (P : qaction -> bool) : MQUEUE -> list qevent -> MQUEUE -> Prop :=
| qrun_refl s : qrun P s [] s
| qrun_step s a s1 e tr s2 : P a = true -> qexec s a = Some (s1, e) -> qrun P s1 tr s2 -> qrun P s (option_list e ++ tr) s2.

Definition any (a : qaction) : bool := true.

(** The threads that are in a call go on; nobody calls and nobody wakes up by chance. *)
Definition going_on (a : qaction) : bool := match a with ALock _ | ABody _ _ => true | _ => false end.

(** ** A bounded queue *)

Definition fifo_step (cap : Z) (q : list Z) (e : qevent) : option (list Z) :=
  match e with
  | Pushed _ d => if lenZ q <? cap then Some (q ++ [d]) else None
  | Popped _ d => match q with x :: q' => if x =? d then Some q' else None | [] => None end
  end.

Fixpoint fifo_run (cap : Z) (q : list Z) (tr : list qevent) : option (list Z) :=
  match tr with [] => Some q | e :: tr => q' ← fifo_step cap q e; fifo_run cap q' tr end.

(** ** Counting threads *)

Fixpoint count (f : qpc -> bool) (l : list qpc) : Z :=
  match l with [] => 0 | p :: l => Z.b2z (f p) + count f l end.

Definition popping (p : qpc) : bool := match p with PopLock | PopIn => true | _ => false end.
Definition pushing (p : qpc) : bool := match p with PushLock _ | PushIn _ => true | _ => false end.
Definition pop_waits (p : qpc) : bool := match p with PopWait => true | _ => false end.
Definition push_waits (p : qpc) : bool := match p with PushWait _ => true | _ => false end.
Definition holding (p : qpc) : bool := match p with PushIn _ | PopIn => true | _ => false end.

Lemma count_nonneg f l : 0 <= count f l.
Proof. induction l as [|p l IH]; cbn; [lia|]. destruct (f p); cbn; lia. Qed.

Lemma count_insert f l : forall i a b, l !! i = Some a -> count f (<[i := b]> l) = count f l - Z.b2z (f a) + Z.b2z (f b).
Proof.
  induction l as [|p l IH]; intros i a b H; [discriminate|]. destruct i as [|i].
  - cbn in *. injection H as ->. lia.
  - change (<[S i := b]> (p :: l)) with (p :: <[i := b]> l). cbn [count]. rewrite (IH i a b H). lia.
Qed.

Lemma count_elem f l i a : l !! i = Some a -> f a = true -> 0 < count f l.
Proof.
  revert i. induction l as [|p l IH]; intros i H Hf; [discriminate|]. pose proof (count_nonneg f l). destruct i as [|i]; cbn in *.
  - injection H as ->. rewrite Hf. cbn. lia.
  - specialize (IH i H Hf). destruct (f p); cbn; lia.
Qed.

Lemma count_find f l : 0 < count f l -> exists i a, l !! i = Some a /\ f a = true.
Proof.
  induction l as [|p l IH]; cbn; [lia|]. destruct (f p) eqn:E; [intros _; exists 0%nat, p; auto|].
  intros H. destruct (IH ltac:(cbn in H; lia)) as (i & a & Hl & Hf). exists (S i), a. auto.
Qed.

Lemma count_none f g l : forallb g l = true -> (forall p, g p = true -> f p = false) -> count f l = 0.
Proof. intros H Hfg. induction l as [|p l IH]; cbn in *; [reflexivity|]. apply andb_prop in H as [H1 H2]. rewrite (IH H2), (Hfg p H1). reflexivity. Qed.

Lemma count_idle f n : f QIdle = false -> count f (repeat QIdle n) = 0.
Proof. intros H. induction n as [|n IH]; cbn; [reflexivity|]. rewrite H, IH. reflexivity. Qed.

(** ** Invariant *)

(** The thread that holds the mutex is the one inside; waiting consumers are no
    more left alone with data than there are consumers on their way, and so for
    producers and free places. *)
Record mq_inv (s : MQUEUE) : Prop := {
  qi_range : 0 < mcap s < 4294967296;
  qi_cap : lenZ (mq s) <= mcap s;
  qi_in : forall i p, threads s !! i = Some p -> holding p = true -> mmutex s = Some i;
  qi_owner : forall i, mmutex s = Some i -> exists p, threads s !! i = Some p /\ holding p = true;
  qi_pop : 0 < count pop_waits (threads s) -> lenZ (mq s) <= count popping (threads s);
  qi_push : 0 < count push_waits (threads s) -> mcap s - lenZ (mq s) <= count pushing (threads s) }.

Lemma mq_inv_new cap n : 0 < cap < 4294967296 -> mq_inv (MQUEUE_new cap n).
Proof.
  intros Hc. split; cbn; try lia; [|discriminate | |].
  - intros i p H%list_elem_of_lookup_2%list_elem_of_In%repeat_spec. subst. discriminate.
  - rewrite count_idle by reflexivity. lia.
  - rewrite count_idle by reflexivity. lia.
Qed.

Lemma IsFull_spec s : mq_inv s -> IsFull s = (lenZ (mq s) =? mcap s).
Proof. intros [H ? ? ? ? ?]. unfold IsFull. rewrite u32_id by rlia. reflexivity. Qed.

(** Waking one waiting thread: nobody is left waiting, or the waiting threads are
    one fewer and the ones on their way one more; the thread inside stays. *)
Record notified (waits moves other_waits other_moves : qpc -> bool) (t t' : list qpc) : Prop := {
  no_waits : count waits t = 0 /\ t' = t \/
    count waits t' = count waits t - 1 /\ count moves t' = count moves t + 1;
  no_other : count other_waits t' = count other_waits t /\ count other_moves t' = count other_moves t;
  no_inside : forall i p, holding p = true -> (t' !! i = Some p <-> t !! i = Some p) }.

Lemma lookup_insert_other {A : Type} (t : list A) i j a b p : t !! j = Some a -> a <> p -> b <> p -> (<[j := b]> t !! i = Some p <-> t !! i = Some p).
Proof.
  intros Hj Ha Hb. destruct (decide (i = j)) as [->|Hne]; [|rewrite list_lookup_insert_ne by congruence; reflexivity].
  rewrite list_lookup_insert_eq by (apply lookup_lt_is_Some; eauto). rewrite Hj. split; intros [= ->]; congruence.
Qed.

Lemma notify_consume t w t' : NotifyConsume t w = Some t' -> notified pop_waits popping push_waits pushing t t'.
Proof.
  unfold NotifyConsume, notify. destruct w as [j|].
  - destruct (t !! j) as [p|] eqn:E; [|discriminate]. destruct p; try discriminate. intros [= <-]. split.
    + right. rewrite !(count_insert _ _ _ _ _ E). cbn. lia.
    + rewrite !(count_insert _ _ _ _ _ E). cbn. lia.
    + intros i p Hp. apply (lookup_insert_other _ _ _ _ _ _ E); intros <-; discriminate.
  - destruct (forallb _ t) eqn:E; [|discriminate]. intros [= <-]. split; [left | auto | reflexivity]. split; [|reflexivity].
    apply (count_none _ _ _ E). intros []; cbn; congruence.
Qed.

Lemma notify_product t w t' : NotifyProduct t w = Some t' -> notified push_waits pushing pop_waits popping t t'.
Proof.
  unfold NotifyProduct, notify. destruct w as [j|].
  - destruct (t !! j) as [p|] eqn:E; [|discriminate]. destruct p; try discriminate. intros [= <-]. split.
    + right. rewrite !(count_insert _ _ _ _ _ E). cbn. lia.
    + rewrite !(count_insert _ _ _ _ _ E). cbn. lia.
    + intros i p Hp. apply (lookup_insert_other _ _ _ _ _ _ E); intros <-; discriminate.
  - destruct (forallb _ t) eqn:E; [|discriminate]. intros [= <-]. split; [left | auto | reflexivity]. split; [|reflexivity].
    apply (count_none _ _ _ E). intros []; cbn; congruence.
Qed.

(** ** Steps keep the invariant *)

(** A thread that does not hold the mutex and does not take it changes its state. *)
Lemma moved_mutex (t : list qpc) (i : nat) p p' m : t !! i = Some p -> holding p = false -> holding p' = false ->
  (forall j x, t !! j = Some x -> holding x = true -> m = Some j) ->
  (forall j, m = Some j -> exists x, t !! j = Some x /\ holding x = true) ->
  (forall j x, <[i := p']> t !! j = Some x -> holding x = true -> m = Some j) /\
  (forall j, m = Some j -> exists x, <[i := p']> t !! j = Some x /\ holding x = true).
Proof.
  intros Hi Hp Hp' H1 H2.
  assert (K : forall j x, holding x = true -> (<[i := p']> t !! j = Some x <-> t !! j = Some x)).
  { intros j x Hx. apply (lookup_insert_other _ _ _ _ _ _ Hi); intros <-; congruence. }
  split; [intros j x Hj Hx; apply (H1 j x); [apply K; assumption | exact Hx]|].
  intros j Hj. destruct (H2 j Hj) as (x & Hx & Hh). exists x. split; [apply K; assumption | exact Hh].
Qed.

(** The thread inside leaves. *)
Lemma left_mutex (t t' : list qpc) (i : nat) p' m : (forall j x, holding x = true -> (t' !! j = Some x <-> t !! j = Some x)) -> holding p' = false -> m = Some i ->
  (forall j x, t !! j = Some x -> holding x = true -> m = Some j) ->
  forall j x, <[i := p']> t' !! j = Some x -> holding x = true -> False.
Proof.
  intros Hn Hp' Hm H1 j x Hj Hx. destruct (decide (j = i)) as [->|Hne].
  - apply list_lookup_insert_Some in Hj as [(_ & <- & _)|(? & _)]; congruence.
  - rewrite list_lookup_insert_ne in Hj by congruence. apply Hn in Hj; [|exact Hx]. pose proof (H1 j x Hj Hx). congruence.
Qed.

Lemma call_inv s i p p' : mq_inv s -> threads s !! i = Some p -> holding p = false -> holding p' = false ->
  pop_waits p' = false -> push_waits p' = false -> popping p = false -> pushing p = false -> mq_inv (set_thread s i p').
Proof.
  intros [R C I O P1 P2] Hi Hp Hp' W1 W2 M1 M2. destruct (moved_mutex _ _ _ p' _ Hi Hp Hp' I O) as [K1 K2].
  split; cbn [mq mcap mmutex threads set_thread]; try assumption.
  - rewrite !(count_insert _ _ _ _ _ Hi), W1, M1. pose proof (count_nonneg popping (threads s)).
    destruct (pop_waits p), (popping p'); cbn; lia.
  - rewrite !(count_insert _ _ _ _ _ Hi), W2, M2. destruct (push_waits p), (pushing p'); cbn; lia.
Qed.

Lemma lock_inv s i p p' : mq_inv s -> mmutex s = None -> threads s !! i = Some p -> holding p = false -> holding p' = true ->
  (forall f, f = pop_waits \/ f = push_waits \/ f = popping \/ f = pushing -> f p' = f p) ->
  mq_inv (mkMq (mq s) (mcap s) (Some i) (<[i := p']> (threads s))).
Proof.
  intros [R C I O P1 P2] Hm Hi Hp Hp' F. split; cbn [mq mcap mmutex threads]; try assumption.
  - intros j x Hj Hx. destruct (decide (j = i)) as [->|Hne]; [reflexivity|]. rewrite list_lookup_insert_ne in Hj by congruence.
    rewrite (I j x Hj Hx) in Hm. discriminate.
  - intros j [= <-]. exists p'. split; [apply list_lookup_insert_eq, lookup_lt_is_Some; eauto | exact Hp'].
  - rewrite !(count_insert _ _ _ _ _ Hi), !F by auto. intros H. assert (H' : 0 < count pop_waits (threads s)) by lia. apply P1 in H'. lia.
  - rewrite !(count_insert _ _ _ _ _ Hi), !F by auto. intros H. assert (H' : 0 < count push_waits (threads s)) by lia. apply P2 in H'. lia.
Qed.

Lemma PushData_inv s i d w s' e : mq_inv s -> threads s !! i = Some (PushIn d) -> PushData s i d w = Some (s', e) ->
  mq_inv s' /\ match e with None => IsFull s = true /\ mq s' = mq s | Some e => fifo_step (mcap s) (mq s) e = Some (mq s') end /\ mcap s' = mcap s.
Proof.
  intros Hs Hi H. unfold PushData in H. destruct (NotifyConsume (threads s) w) as [t|] eqn:En; [|discriminate]. cbn in H.
  pose proof (IsFull_spec s Hs) as Hf. destruct (notify_consume _ _ _ En) as [N1 [N2 N3] N4].
  pose proof Hs as [R C I O P1 P2]. pose proof (I i _ Hi eq_refl) as Hm. pose proof (proj2 (N4 i (PushIn d) eq_refl) Hi) as Hi'.
  destruct (IsFull s) eqn:Ef.
  - injection H as <- <-. symmetry in Hf. apply Z.eqb_eq in Hf. split_and!; [split|reflexivity|reflexivity|reflexivity]; cbn [mq mcap mmutex threads].
    1, 2: lia.
    + intros j x Hj Hx. destruct (left_mutex _ _ _ (PushWait d) _ N4 eq_refl Hm I j x Hj Hx).
    + discriminate.
    + rewrite !(count_insert _ _ _ _ _ Hi'). cbn. destruct N1 as [[E ->]|[E1 E2]]; [lia|]. 
      pose proof (count_nonneg pop_waits (threads s)). lia.
    + rewrite !(count_insert _ _ _ _ _ Hi'). cbn. pose proof (count_elem pushing _ _ _ Hi' eq_refl). lia.
  - injection H as <- <-. symmetry in Hf. apply Z.eqb_neq in Hf. cbn [fifo_step]. rewrite (proj2 (Z.ltb_lt _ _)) by lia.
    split_and!; [split|reflexivity|reflexivity]; cbn [mq mcap mmutex threads]; rewrite ?length_app; cbn [length].
    1, 2: lia.
    + intros j x Hj Hx. destruct (left_mutex _ _ _ QIdle _ N4 eq_refl Hm I j x Hj Hx).
    + discriminate.
    + rewrite !(count_insert _ _ _ _ _ Hi'). cbn. destruct N1 as [[E ->]|[E1 E2]]; [lia|]. lia.
    + rewrite !(count_insert _ _ _ _ _ Hi'). cbn. rewrite N2, N3. intros H. lia.
Qed.

Lemma PopData_inv s i w s' e : mq_inv s -> threads s !! i = Some PopIn -> PopData s i w = Some (s', e) ->
  mq_inv s' /\ match e with None => mq s = [] /\ mq s' = [] | Some e => fifo_step (mcap s) (mq s) e = Some (mq s') end /\ mcap s' = mcap s.
Proof.
  intros Hs Hi H. unfold PopData in H. destruct (NotifyProduct (threads s) w) as [t|] eqn:En; [|discriminate]. cbn in H.
  destruct (notify_product _ _ _ En) as [N1 [N2 N3] N4].
  pose proof Hs as [R C I O P1 P2]. pose proof (I i _ Hi eq_refl) as Hm. pose proof (proj2 (N4 i PopIn eq_refl) Hi) as Hi'.
  destruct (mq s) as [|x q] eqn:Eq.
  - injection H as <- <-. split_and!; [split|reflexivity|reflexivity|reflexivity]; cbn [mq mcap mmutex threads length] in *.
    1, 2: lia.
    + intros j x Hj Hx. destruct (left_mutex _ _ _ PopWait _ N4 eq_refl Hm I j x Hj Hx).
    + discriminate.
    + rewrite !(count_insert _ _ _ _ _ Hi'). cbn. pose proof (count_elem popping _ _ _ Hi' eq_refl). lia.
    + rewrite !(count_insert _ _ _ _ _ Hi'). cbn. destruct N1 as [[E ->]|[E1 E2]]; lia.
  - injection H as <- <-. cbn [fifo_step]. rewrite Z.eqb_refl.
    split_and!; [split|reflexivity|reflexivity]; cbn [mq mcap mmutex threads length] in *.
    1, 2: lia.
    + intros j y Hj Hx. destruct (left_mutex _ _ _ QIdle _ N4 eq_refl Hm I j y Hj Hx).
    + discriminate.
    + rewrite !(count_insert _ _ _ _ _ Hi'). cbn. rewrite N2, N3. intros H. lia.
    + rewrite !(count_insert _ _ _ _ _ Hi'). cbn. destruct N1 as [[E ->]|[E1 E2]]; lia.
Qed.

Lemma qexec_inv s a s' e : mq_inv s -> qexec s a = Some (s', e) ->
  mq_inv s' /\ mcap s' = mcap s /\ match e with None => mq s' = mq s | Some e => fifo_step (mcap s) (mq s) e = Some (mq s') end.
Proof.
  intros Hs H. destruct a as [i d|i|i|i w|i]; cbn in H.
  - destruct (threads s !! i) as [[]|] eqn:E; try discriminate. injection H as <- <-. split; [|auto]. eapply call_inv; eauto.
  - destruct (threads s !! i) as [[]|] eqn:E; try discriminate. injection H as <- <-. split; [|auto]. eapply call_inv; eauto.
  - destruct (mmutex s) eqn:Em; [discriminate|]. destruct (threads s !! i) as [[]|] eqn:E; try discriminate; injection H as <- <-;
      (split; [|auto]); eapply lock_inv; eauto; intros f [->|[->|[->| ->]]]; reflexivity.
  - destruct (threads s !! i) as [[]|] eqn:E; try discriminate.
    + destruct (PushData_inv _ _ _ _ _ _ Hs E H) as (I1 & I2 & I3). split_and!; [exact I1 | exact I3|]. destruct e; [exact I2 | apply I2].
    + destruct (PopData_inv _ _ _ _ _ Hs E H) as (I1 & I2 & I3). split_and!; [exact I1 | exact I3|]. destruct e; [exact I2 | destruct I2; congruence].
  - destruct (threads s !! i) as [[]|] eqn:E; try discriminate; injection H as <- <-; (split; [|auto]); eapply call_inv; eauto.
Qed.

(** ** Progress *)

Lemma qrun_one P s a s1 e : P a = true -> qexec s a = Some (s1, e) -> qrun P s (option_list e) s1.
Proof. intros Hp H. rewrite <- (app_nil_r (option_list e)). exact (qrun_step _ _ _ _ _ _ _ Hp H (qrun_refl _ _)). Qed.

Lemma notify_total wake t : exists w t', notify wake t w = Some t'.
Proof.
  destruct (forallb (fun p => match wake p with None => true | _ => false end) t) eqn:E; [exists None; cbn; rewrite E; eauto|].
  apply not_true_iff_false in E. assert (H : Exists (fun p => wake p <> None) t).
  { apply not_Forall_Exists; [intros p; destruct (wake p); [right | left]; congruence|].
    intros H. apply E, forallb_forall. intros p Hp%list_elem_of_In. rewrite Forall_forall in H. specialize (H p Hp).
    rewrite H. reflexivity. }
  apply Exists_exists in H as (p & Hp & Hw). apply list_elem_of_lookup in Hp as [j Hj].
  destruct (wake p) as [p'|] eqn:Ew; [|congruence]. exists (Some j). cbn. rewrite Hj, Ew. eauto.
Qed.

Definition poppers (s : MQUEUE) : Z := count popping (threads s) + count pop_waits (threads s).
Definition pushers (s : MQUEUE) : Z := count pushing (threads s) + count push_waits (threads s).

(** The thread inside ends its section; consumers that go on to wait and producers
    that do stay in their calls. *)
Lemma push_body s i d : mq_inv s -> threads s !! i = Some (PushIn d) ->
  exists s' e, qrun going_on s (option_list e) s' /\ mq_inv s' /\ mmutex s' = None /\ mcap s' = mcap s /\ poppers s' = poppers s /\
    (lenZ (mq s) = mcap s /\ e = None /\ mq s' = mq s \/ lenZ (mq s) < mcap s /\ e = Some (Pushed i d) /\ mq s' = mq s ++ [d]).
Proof.
  intros Hs Hi. destruct (notify_total wake_empty (threads s)) as (w & t & En).
  destruct (PushData s i d w) as [[s' e]|] eqn:E; [|unfold PushData, NotifyConsume in E; rewrite En in E; cbn in E; destruct (IsFull s); discriminate].
  exists s', e. destruct (PushData_inv _ _ _ _ _ _ Hs Hi E) as (I1 & _ & I3).
  split; [apply (qrun_one _ s (ABody i w)); [reflexivity | cbn; rewrite Hi; exact E]|]. split; [exact I1|].
  pose proof (IsFull_spec s Hs) as Hf. pose proof (notify_consume _ _ _ En) as [N1 _ N4]. pose proof (proj2 (N4 i (PushIn d) eq_refl) Hi) as Hi'.
  assert (Hp : forall p', popping p' = false -> pop_waits p' = false ->
    count popping (<[i := p']> t) + count pop_waits (<[i := p']> t) = count popping (threads s) + count pop_waits (threads s)).
  { intros p' H1 H2. rewrite !(count_insert _ _ _ _ _ Hi'), H1, H2. cbn. destruct N1 as [[_ ->]|N1]; lia. }
  pose proof (qi_cap _ Hs) as Hc. unfold PushData, NotifyConsume in E. rewrite En in E. cbn in E. unfold poppers.
  destruct (IsFull s); injection E as <- <-; cbn [threads mq mcap mmutex]; (split; [reflexivity|]); (split; [reflexivity|]);
    (split; [apply Hp; reflexivity|]); [left | right]; symmetry in Hf.
  - apply Z.eqb_eq in Hf. auto.
  - apply Z.eqb_neq in Hf. split; [lia | auto].
Qed.

Lemma pop_body s i : mq_inv s -> threads s !! i = Some PopIn ->
  exists s' e, qrun going_on s (option_list e) s' /\ mq_inv s' /\ mmutex s' = None /\ mcap s' = mcap s /\ pushers s' = pushers s /\
    (mq s = [] /\ e = None /\ mq s' = [] \/ exists x, mq s = x :: mq s' /\ e = Some (Popped i x)).
Proof.
  intros Hs Hi. destruct (notify_total wake_full (threads s)) as (w & t & En).
  destruct (PopData s i w) as [[s' e]|] eqn:E; [|unfold PopData, NotifyProduct in E; rewrite En in E; cbn in E; destruct (mq s); discriminate].
  exists s', e. destruct (PopData_inv _ _ _ _ _ Hs Hi E) as (I1 & _ & I3).
  split; [apply (qrun_one _ s (ABody i w)); [reflexivity | cbn; rewrite Hi; exact E]|]. split; [exact I1|].
  pose proof (notify_product _ _ _ En) as [N1 _ N4]. pose proof (proj2 (N4 i PopIn eq_refl) Hi) as Hi'.
  assert (Hp : forall p', pushing p' = false -> push_waits p' = false ->
    count pushing (<[i := p']> t) + count push_waits (<[i := p']> t) = count pushing (threads s) + count push_waits (threads s)).
  { intros p' H1 H2. rewrite !(count_insert _ _ _ _ _ Hi'), H1, H2. cbn. destruct N1 as [[_ ->]|N1]; lia. }
  unfold PopData, NotifyProduct in E. rewrite En in E. cbn in E. unfold pushers.
  destruct (mq s) as [|x q]; injection E as <- <-; cbn [threads mq mcap mmutex]; (split; [reflexivity|]); (split; [reflexivity|]);
    (split; [apply Hp; reflexivity|]); [left | right]; eauto.
Qed.

(** With the mutex free, a consumer on its way takes it and gets its data. *)
Lemma free_pop s : mq_inv s -> mmutex s = None -> mq s <> [] -> 0 < poppers s ->
  exists s' j x, qrun going_on s [Popped j x] s'.
Proof.
  intros Hs Hm Hq Hp. unfold poppers in Hp. assert (Hlen : 0 < lenZ (mq s)) by (destruct (mq s); [congruence | cbn; lia]).
  assert (Ha : 0 < count popping (threads s)).
  { pose proof (qi_pop _ Hs). pose proof (count_nonneg pop_waits (threads s)).
    destruct (Z.eq_dec (count pop_waits (threads s)) 0); lia. }
  apply count_find in Ha as (j & p & Hj & Hpop). destruct p; try discriminate.
  2:{ pose proof (qi_in _ Hs j PopIn Hj eq_refl). congruence. }
  set (s1 := mkMq (mq s) (mcap s) (Some j) (<[j := PopIn]> (threads s))).
  assert (E1 : qexec s (ALock j) = Some (s1, None)) by (cbn; rewrite Hm, Hj; reflexivity).
  destruct (qexec_inv _ _ _ _ Hs E1) as (Hs1 & _).
  destruct (pop_body s1 j Hs1) as (s' & e & R & _ & _ & _ & _ & H); [apply list_lookup_insert_eq, lookup_lt_is_Some; eauto|].
  destruct H as [(H & _)|(x & _ & ->)]; [destruct (Hq H)|]. exists s', j, x.
  exact (qrun_step _ _ _ _ _ _ _ eq_refl E1 R).
Qed.

Lemma free_push s : mq_inv s -> mmutex s = None -> lenZ (mq s) < mcap s -> 0 < pushers s ->
  exists s' j x, qrun going_on s [Pushed j x] s'.
Proof.
  intros Hs Hm Hq Hp. unfold pushers in Hp.
  assert (Ha : 0 < count pushing (threads s)).
  { pose proof (qi_push _ Hs). pose proof (count_nonneg push_waits (threads s)).
    destruct (Z.eq_dec (count push_waits (threads s)) 0); lia. }
  apply count_find in Ha as (j & p & Hj & Hpop). destruct p as [|d|d| | | |]; try discriminate.
  2:{ pose proof (qi_in _ Hs j (PushIn d) Hj eq_refl). congruence. }
  set (s1 := mkMq (mq s) (mcap s) (Some j) (<[j := PushIn d]> (threads s))).
  assert (E1 : qexec s (ALock j) = Some (s1, None)) by (cbn; rewrite Hm, Hj; reflexivity).
  destruct (qexec_inv _ _ _ _ Hs E1) as (Hs1 & _).
  destruct (push_body s1 j d Hs1) as (s' & e & R & _ & _ & _ & _ & H); [apply list_lookup_insert_eq, lookup_lt_is_Some; eauto|].
  destruct H as [(H & _)|(_ & -> & _)]; [cbn in H; lia|]. exists s', j, d.
  exact (qrun_step _ _ _ _ _ _ _ eq_refl E1 R).
Qed.

Lemma qrun_app P s1 t1 s2 t2 s3 : qrun P s1 t1 s2 -> qrun P s2 t2 s3 -> qrun P s1 (t1 ++ t2) s3.
Proof.
  intros H. revert t2 s3. induction H as [|s a s1 e tr s2 Hp E _ IH]; intros t2 s3 H2; [exact H2|].
  rewrite <- app_assoc. exact (qrun_step _ _ _ _ _ _ _ Hp E (IH _ _ H2)).
Qed.

Lemma qrun_inv P s tr s' : qrun P s tr s' -> mq_inv s -> mq_inv s' /\ mcap s' = mcap s /\ fifo_run (mcap s) (mq s) tr = Some (mq s').
Proof.
  induction 1 as [s|s a s1 e tr s2 _ E _ IH]; intros Hs; [auto|].
  destruct (qexec_inv _ _ _ _ Hs E) as (I1 & I2 & I3). destruct (IH I1) as (J1 & J2 & J3). rewrite I2 in J2, J3.
  split_and!; [exact J1 | exact J2 |]. destruct e as [e|]; cbn [option_list app fifo_run]; [|rewrite <- I3; exact J3].
  apply bind_Some. eauto.
Qed.

(** ** Properties *)

Ltac in_list := apply list_elem_of_In; rewrite ?in_app_iff; cbn; auto.

(** C21: under every interleaving of any number of threads, with wakeups by chance,
    the calls of [PushData] and [PopData] that end are, in the order in which they
    end, the operations of a first-in first-out queue of at most [cap] elements,
    and two threads are never inside at the same time. *)
Theorem mqueue_refines_fifo cap n tr s : 0 < cap < 4294967296 -> qrun any (MQUEUE_new cap n) tr s ->
  fifo_run cap [] tr = Some (mq s) /\ lenZ (mq s) <= cap /\
  (forall i j p p', threads s !! i = Some p -> threads s !! j = Some p' -> holding p = true -> holding p' = true -> i = j).
Proof.
  intros Hc R. destruct (qrun_inv _ _ _ _ R (mq_inv_new cap n Hc)) as (I1 & I2 & I3). cbn in I2, I3.
  split; [exact I3|]. split; [rewrite <- I2; apply (qi_cap _ I1)|].
  intros i j p p' Hi Hj Hp Hp'. pose proof (qi_in _ I1 _ _ Hi Hp). pose proof (qi_in _ I1 _ _ Hj Hp'). congruence.
Qed.

(** Two producers and a consumer on a queue of one place: the first producer wakes
    the consumer, the second has to wait until the consumer wakes it. *)
Definition actions0 : list qaction :=
  [ACallPop 2; ALock 2; ABody 2 None; ACallPush 0 7; ACallPush 1 8; ALock 0; ABody 0 (Some 2%nat); ALock 1; ABody 1 None;
   ALock 2; ABody 2 (Some 1%nat); ALock 1; ABody 1 None].

Fixpoint qexecs (s : MQUEUE) (l : list qaction) : option (MQUEUE * list qevent) :=
  match l with
  | [] => Some (s, [])
  | a :: l => match qexec s a with
              | Some (s1, e) => match qexecs s1 l with Some (s2, tr) => Some (s2, option_list e ++ tr) | None => None end
              | None => None
              end
  end.

Lemma qexecs_run l : forall s s' tr, qexecs s l = Some (s', tr) -> qrun any s tr s'.
Proof.
  induction l as [|a l IH]; intros s s' tr H; cbn in H; [injection H as <- <-; constructor|].
  destruct (qexec s a) as [[s1 e]|] eqn:E; [|discriminate]. destruct (qexecs s1 l) as [[s2 tr2]|] eqn:E2; [|discriminate].
  injection H as <- <-. exact (qrun_step _ _ _ _ _ _ _ eq_refl E (IH _ _ _ E2)).
Qed.

Definition after0 : MQUEUE := mkMq [8] 1 None [QIdle; QIdle; QIdle].
Definition trace0 : list qevent := [Pushed 0 7; Popped 2 7; Pushed 1 8].

Lemma run0 : qrun any (MQUEUE_new 1 3) trace0 after0.
Proof. apply (qexecs_run actions0). reflexivity. Qed.

Lemma mqueue_refines_fifo_witness : fifo_run 1 [] trace0 = Some [8] /\ lenZ (mq after0) <= 1 /\
  (forall i j p p', threads after0 !! i = Some p -> threads after0 !! j = Some p' -> holding p = true -> holding p' = true -> i = j).
Proof. exact (mqueue_refines_fifo 1 3 trace0 after0 ltac:(lia) run0). Defined.

(** C22: no wakeup is lost.  In every state the threads can reach, if data are in the
    queue and a thread is in [PopData], waiting or not, then the threads in their
    calls alone can go on to one that gets data; if there is room and a thread is in
    [PushData], to one that puts its data into the queue. *)
Theorem mqueue_no_lost_wakeup cap n tr s : 0 < cap < 4294967296 -> qrun any (MQUEUE_new cap n) tr s ->
  (mq s <> [] -> 0 < poppers s -> exists s' tr' j x, qrun going_on s tr' s' /\ Popped j x ∈ tr') /\
  (lenZ (mq s) < cap -> 0 < pushers s -> exists s' tr' j x, qrun going_on s tr' s' /\ Pushed j x ∈ tr').
Proof.
  intros Hc R. destruct (qrun_inv _ _ _ _ R (mq_inv_new cap n Hc)) as (Hs & Ec & _). cbn in Ec. subst cap.
  destruct (mmutex s) as [i|] eqn:Em.
  - destruct (qi_owner _ Hs i Em) as (p & Hi & Hp). destruct p as [| |d| | | |]; try discriminate.
    + destruct (push_body s i d Hs Hi) as (s1 & e & R1 & Hs1 & Hm1 & Hc1 & Hp1 & HE). split.
      * intros Hq Hpop. destruct (free_pop s1 Hs1 Hm1) as (s2 & j & x & R2); [|lia|].
        { destruct HE as [(_ & _ & ->)|(_ & _ & ->)]; [exact Hq | destruct (mq s); discriminate]. }
        exists s2, (option_list e ++ [Popped j x]), j, x. split; [exact (qrun_app _ _ _ _ _ _ R1 R2) | in_list].
      * intros Hl _. destruct HE as [(? & _)|(_ & -> & _)]; [lia|]. exists s1, [Pushed i d], i, d. split; [exact R1 | in_list].
    + destruct (pop_body s i Hs Hi) as (s1 & e & R1 & Hs1 & Hm1 & Hc1 & Hp1 & HE). split.
      * intros Hq _. destruct HE as [(? & _)|(x & _ & ->)]; [congruence|]. exists s1, [Popped i x], i, x. split; [exact R1 | in_list].
      * intros Hl Hpush. destruct (free_push s1 Hs1 Hm1) as (s2 & j & x & R2); [|lia|].
        { destruct HE as [(_ & _ & ->)|(x & Hx & _)]; [cbn; rewrite Hc1; pose proof (qi_range _ Hs); lia|].
          rewrite Hx in Hl. cbn in Hl. lia. }
        exists s2, (option_list e ++ [Pushed j x]), j, x. split; [exact (qrun_app _ _ _ _ _ _ R1 R2) | in_list].
  - split; intros H1 H2.
    + destruct (free_pop s Hs Em H1 H2) as (s2 & j & x & R2). exists s2, [Popped j x], j, x. split; [exact R2 | in_list].
    + destruct (free_push s Hs Em H1 H2) as (s2 & j & x & R2). exists s2, [Pushed j x], j, x. split; [exact R2 | in_list].
Qed.

(** The state in which the second producer waits and the consumer has been woken. *)
Definition full0 : MQUEUE := mkMq [7] 1 None [QIdle; PushWait 8; PopLock].

Lemma run_full0 : qrun any (MQUEUE_new 1 3) [Pushed 0 7] full0.
Proof. apply (qexecs_run (firstn 9 actions0)). reflexivity. Qed.

Lemma mqueue_no_lost_wakeup_witness : exists s' tr' j x, qrun going_on full0 tr' s' /\ Popped j x ∈ tr'.
Proof.
  apply (proj1 (mqueue_no_lost_wakeup 1 3 [Pushed 0 7] full0 ltac:(lia) run_full0)); [discriminate | reflexivity].
Defined.
