(* ===== verification/MppPlat.v ===== *)
(** * Audio frames through the media queue (MPPPLAT/mppplat.cpp, MEDIAQUEUE/mqueue.h)

    [setAudioData] and [getAudioData] hand blocks [MDATA] through the queue
    [mqe[2]].  The blocks live in a heap: [new] adds one, [delete] removes one,
    and reading a block that is not there is an access to freed memory.  The
    addresses are what the queue carries. *)

From stdpp Require Import gmap.
From S2P Require Import Prelude Mqueue.

Local Open Scope Z_scope.

(** [class MDATA]. *)
Record MDATA := mkMdata { refcount : Z; mtype : Z; mdata : Z; dlen : Z }.

(** [mqe[2]], the blocks, and the blocks that threads have taken from the queue and
    not yet read. *)
Record mpp := mkMpp { mqe2 : MQUEUE; blocks : gmap Z MDATA; taken : gmap nat Z }.

Definition initMpp (n : nat) : mpp := mkMpp (MQUEUE_new NUM n) ∅ ∅.

(** A frame: the pointer and the length [setAudioData] was given. *)
Abbreviation frame := (Z * Z)%type.

Definition frame_of (B : gmap Z MDATA) (addr : Z) : frame :=
  match B !! addr with Some md => (mdata md, dlen md) | None => (0, 0) end.

(** A frame is in the queue, taken from it, and given to the caller. *)
Inductive mevent := Put (i : nat) (f : frame) | Took (i : nat) (f : frame) | Returned (i : nat) (f : frame).

Inductive maction :=
| setAudioData (i : nat) (audiodata len : Z) (addr : Z)
| getAudioData (i : nat)
| inside (a : qaction)
| read_md (i : nat).

Definition is_call (a : qaction) : bool := match a with ACallPush _ _ | ACallPop _ => true | _ => false end.

(** [None]: the step is not possible in this state.  [setAudioData] starts with
    [new MDATA] at a free address, [getAudioData] ends with reading and deleting
    the block. *)
Definition mexec (s : mpp) (x : maction) : option (outcome (mpp * option mevent)) :=
  match x with
  | setAudioData i audiodata len addr =>
      match taken s !! i, blocks s !! addr, qexec (mqe2 s) (ACallPush i addr) with
      | None, None, Some (q, _) => Some (Ret (mkMpp q (<[addr := mkMdata 0 0 audiodata len]> (blocks s)) (taken s), None))
      | _, _, _ => None
      end
  | getAudioData i =>
      match taken s !! i, qexec (mqe2 s) (ACallPop i) with
      | None, Some (q, _) => Some (Ret (mkMpp q (blocks s) (taken s), None))
      | _, _ => None
      end
  | inside a =>
      if is_call a then None
      else match qexec (mqe2 s) a with
           | Some (q, None) => Some (Ret (mkMpp q (blocks s) (taken s), None))
           | Some (q, Some (Pushed i addr)) => Some (Ret (mkMpp q (blocks s) (taken s), Some (Put i (frame_of (blocks s) addr))))
           | Some (q, Some (Popped i addr)) =>
               Some (Ret (mkMpp q (blocks s) (<[i := addr]> (taken s)), Some (Took i (frame_of (blocks s) addr))))
           | None => None
           end
  | read_md i =>
      match taken s !! i with
      | None => None
      | Some addr =>
          Some (match blocks s !! addr with
                | Some md => Ret (mkMpp (mqe2 s) (delete addr (blocks s)) (delete i (taken s)), Some (Returned i (mdata md, dlen md)))
                | None => Crash OutOfBounds
                end)
      end
  end.

Inductive mrun : mpp -> list mevent -> mpp -> Prop :=
| mrun_refl s : mrun s [] s
| mrun_step s tr s1 x s2 e : mrun s tr s1 -> mexec s1 x = Some (Ret (s2, e)) -> mrun s (tr ++ option_list e) s2.

(** ** A queue of frames *)

(** The frames in the queue and the ones the threads hold. *)
Definition frames_state := (list frame * gmap nat frame)%type.

Definition frames_step (st : frames_state) (e : mevent) : option frames_state :=
  let '(fs, ts) := st in
  match e with
  | Put _ f => if lenZ fs <? NUM then Some (fs ++ [f], ts) else None
  | Took i f => match fs with
                | f' :: fs' => if decide (f' = f /\ ts !! i = None) then Some (fs', <[i := f]> ts) else None
                | [] => None
                end
  | Returned i f => if decide (ts !! i = Some f) then Some (fs, delete i ts) else None
  end.

Fixpoint frames_run (st : frames_state) (tr : list mevent) : option frames_state :=
  match tr with [] => Some st | e :: tr => st' ← frames_step st e; frames_run st' tr end.

(** ** Addresses on their way into the queue *)

Definition arg (p : qpc) : option Z := match p with PushLock d | PushIn d | PushWait d => Some d | _ => None end.

Definition inflight (q : MQUEUE) : list Z := omap arg (threads q).

Lemma omap_insert_same (t : list qpc) i p p' : t !! i = Some p -> arg p' = arg p -> omap arg (<[i := p']> t) = omap arg t.
Proof.
  intros Hi Ha. rewrite <- (take_drop_middle t i p Hi) at 2. rewrite insert_take_drop by (apply lookup_lt_is_Some; eauto).
  rewrite !omap_app. cbn. rewrite Ha. reflexivity.
Qed.

Lemma omap_insert_in (t : list qpc) i p p' d : t !! i = Some p -> arg p = None -> arg p' = Some d ->
  omap arg (<[i := p']> t) ≡ₚ d :: omap arg t.
Proof.
  intros Hi Ha Ha'. rewrite <- (take_drop_middle t i p Hi) at 2. rewrite insert_take_drop by (apply lookup_lt_is_Some; eauto).
  rewrite !omap_app. cbn. rewrite Ha, Ha'. rewrite <- Permutation_middle. reflexivity.
Qed.

Lemma omap_insert_out (t : list qpc) i p p' d : t !! i = Some p -> arg p = Some d -> arg p' = None ->
  omap arg t ≡ₚ d :: omap arg (<[i := p']> t).
Proof.
  intros Hi Ha Ha'. rewrite <- (take_drop_middle t i p Hi) at 1. rewrite insert_take_drop by (apply lookup_lt_is_Some; eauto).
  rewrite !omap_app. cbn. rewrite Ha, Ha'. rewrite <- Permutation_middle. reflexivity.
Qed.

Lemma insert_idle (t : list qpc) i k p p' : t !! i = Some p -> p <> QIdle -> t !! k = Some QIdle -> <[i := p']> t !! k = Some QIdle.
Proof. intros Hi Hp Hk. rewrite list_lookup_insert_ne by congruence. exact Hk. Qed.

Lemma notify_args wake t w t' : wake = wake_full \/ wake = wake_empty -> notify wake t w = Some t' ->
  omap arg t' = omap arg t /\ (forall k, t !! k = Some QIdle -> t' !! k = Some QIdle) /\
  (forall k p, holding p = true -> t !! k = Some p -> t' !! k = Some p).
Proof.
  intros Hw H. destruct w as [j|]; cbn in H.
  - destruct (t !! j) as [p|] eqn:E; [|discriminate].
    destruct Hw as [->| ->]; destruct p; try discriminate; injection H as <-; (split; [apply (omap_insert_same _ _ _ _ E); reflexivity|]);
      (split; [intros k; apply (insert_idle _ _ _ _ _ E); discriminate|]); intros k p Hp Hk;
      rewrite list_lookup_insert_ne; [exact Hk | intros ->; rewrite E in Hk; injection Hk as <-; discriminate
                                     | exact Hk | intros ->; rewrite E in Hk; injection Hk as <-; discriminate].
  - destruct (forallb _ t); [|discriminate]. injection H as <-. auto.
Qed.

(** What a step of the queue does to the addresses on their way. *)
Lemma qexec_inflight q a q' e : mq_inv q -> is_call a = false -> qexec q a = Some (q', e) ->
  (forall k, threads q !! k = Some QIdle -> threads q' !! k = Some QIdle) /\
  match e with
  | None => mq q' = mq q /\ inflight q' = inflight q
  | Some (Pushed i d) => mq q' = mq q ++ [d] /\ inflight q ≡ₚ d :: inflight q' /\ lenZ (mq q) < mcap q
  | Some (Popped i d) => mq q = d :: mq q' /\ inflight q' = inflight q /\ threads q !! i = Some PopIn /\ threads q' !! i = Some QIdle
  end.
Proof.
  intros Hq Hc H. unfold inflight. destruct a as [i d|i|i|i w|i]; try discriminate; cbn in H.
  - destruct (mmutex q); [discriminate|]. destruct (threads q !! i) as [[]|] eqn:E; try discriminate; injection H as <- <-; cbn;
      (split; [intros k; apply (insert_idle _ _ _ _ _ E); discriminate|]); (split; [reflexivity|]); apply (omap_insert_same _ _ _ _ E); reflexivity.
  - destruct (threads q !! i) as [p|] eqn:E; [|discriminate]. destruct p; try discriminate.
    + unfold PushData in H. destruct (NotifyConsume (threads q) w) as [t|] eqn:En; [|discriminate]. cbn in H.
      destruct (notify_args _ _ _ _ (or_intror eq_refl) En) as (N1 & N2 & N3). pose proof (N3 i (PushIn data) eq_refl E) as E'. rewrite IsFull_spec in H by exact Hq.
      destruct (Z.eqb_spec (lenZ (mq q)) (mcap q)) as [Hf|Hf]; injection H as <- <-; cbn;
        (split; [intros k Hk; apply (insert_idle _ _ _ _ _ E'); [discriminate | apply N2, Hk]|]).
      * split; [reflexivity|]. rewrite <- N1. apply (omap_insert_same _ _ _ _ E'). reflexivity.
      * split; [reflexivity|]. split; [|pose proof (qi_cap _ Hq); lia]. rewrite <- N1. apply (omap_insert_out _ _ _ _ _ E'); reflexivity.
    + unfold PopData in H. destruct (NotifyProduct (threads q) w) as [t|] eqn:En; [|discriminate]. cbn in H.
      destruct (notify_args _ _ _ _ (or_introl eq_refl) En) as (N1 & N2 & N3). pose proof (N3 i PopIn eq_refl E) as E'.
      destruct (mq q) as [|x l] eqn:Eq; injection H as <- <-; cbn;
        (split; [intros k Hk; apply (insert_idle _ _ _ _ _ E'); [discriminate | apply N2, Hk]|]); (split; [reflexivity|]).
      * rewrite <- N1. apply (omap_insert_same _ _ _ _ E'). reflexivity.
      * split_and!; [rewrite <- N1; apply (omap_insert_same _ _ _ _ E'); reflexivity | exact E |].
        apply list_lookup_insert_eq, lookup_lt_is_Some. eauto.
  - destruct (threads q !! i) as [[]|] eqn:E; try discriminate; injection H as <- <-; cbn;
      (split; [intros k; apply (insert_idle _ _ _ _ _ E); discriminate|]); (split; [reflexivity|]); apply (omap_insert_same _ _ _ _ E); reflexivity.
Qed.

(** ** Invariant *)

(** The addresses in use: in the queue, on their way into it, taken from it. *)
Definition in_use (s : mpp) : list Z := mq (mqe2 s) ++ inflight (mqe2 s) ++ (map_to_list (taken s)).*2.

Record mpp_inv (s : mpp) : Prop := {
  mi_queue : mq_inv (mqe2 s);
  mi_cap : mcap (mqe2 s) = NUM;
  mi_once : NoDup (in_use s);
  mi_blocks : forall x, x ∈ in_use s <-> is_Some (blocks s !! x);
  mi_idle : forall i x, taken s !! i = Some x -> threads (mqe2 s) !! i = Some QIdle }.

Definition abs (s : mpp) : frames_state :=
  (map (frame_of (blocks s)) (mq (mqe2 s)), frame_of (blocks s) <$> taken s).

Lemma in_use_perm s s' : in_use s ≡ₚ in_use s' -> blocks s' = blocks s -> NoDup (in_use s) ->
  (forall x, x ∈ in_use s <-> is_Some (blocks s !! x)) -> NoDup (in_use s') /\ forall x, x ∈ in_use s' <-> is_Some (blocks s' !! x).
Proof. intros Hp Hb H1 H2. rewrite <- Hp, Hb. split; [exact H1|]. intros x. rewrite <- Hp. apply H2. Qed.

Lemma mpp_inv_init n : mpp_inv (initMpp n).
Proof.
  assert (E : in_use (initMpp n) = []).
  { unfold in_use, inflight, initMpp. cbn. rewrite map_to_list_empty. cbn. rewrite app_nil_r. induction n; [reflexivity | assumption]. }
  split; [apply mq_inv_new; unfold NUM; lia | reflexivity | rewrite E; constructor | | intros i x H; cbn in H; rewrite lookup_empty in H; discriminate].
  intros x. rewrite E. cbn. rewrite lookup_empty. split; [intros H; inversion H | intros [? H]; discriminate].
Qed.

Lemma frame_of_ext B B' l : (forall x, x ∈ l -> B' !! x = B !! x) -> map (frame_of B') l = map (frame_of B) l.
Proof. intros H. apply map_ext_in. intros x Hx%list_elem_of_In. unfold frame_of. rewrite H by exact Hx. reflexivity. Qed.

Lemma abs_ext s q' B' : (forall x, x ∈ in_use s -> B' !! x = blocks s !! x) -> mq q' = mq (mqe2 s) ->
  abs (mkMpp q' B' (taken s)) = abs s.
Proof.
  intros H Hq. unfold abs. cbn. rewrite Hq. f_equal.
  - apply frame_of_ext. intros x Hx. apply H. apply elem_of_app. left. exact Hx.
  - apply map_fmap_ext. intros i x Hi. unfold frame_of. rewrite H; [reflexivity|]. apply elem_of_app. right. apply elem_of_app. right.
    apply list_elem_of_fmap. exists (i, x). split; [reflexivity|]. apply elem_of_map_to_list, Hi.
Qed.

(** ** Steps *)

Definition step_ok (s : mpp) (r : outcome (mpp * option mevent)) : Prop :=
  exists s' e, r = Ret (s', e) /\ mpp_inv s' /\
    match e with None => abs s' = abs s | Some e => frames_step (abs s) e = Some (abs s') end.

Lemma taken_in_use s i x : taken s !! i = Some x -> x ∈ in_use s.
Proof.
  intros Hi. apply elem_of_app. right. apply elem_of_app. right. apply list_elem_of_fmap. exists (i, x).
  split; [reflexivity|]. apply elem_of_map_to_list, Hi.
Qed.

Lemma set_ok s i a n addr r : mpp_inv s -> mexec s (setAudioData i a n addr) = Some r -> step_ok s r.
Proof.
  intros [Q C N B D] H. cbn [mexec] in H. destruct (taken s !! i) eqn:Et; [discriminate|]. destruct (blocks s !! addr) eqn:Eb; [discriminate|].
  destruct (qexec (mqe2 s) (ACallPush i addr)) as [[q e]|] eqn:Eq; [|discriminate]. injection H as <-.
  destruct (qexec_inv _ _ _ _ Q Eq) as (Q' & C' & _). cbn in Eq. destruct (threads (mqe2 s) !! i) as [[]|] eqn:Ei; try discriminate. injection Eq as <- <-.
  assert (Hn : addr ∉ in_use s) by (rewrite B, Eb; intros [? ?]; discriminate).
  set (s' := mkMpp _ _ _). assert (Hp : in_use s' ≡ₚ addr :: in_use s).
  { unfold in_use, inflight, s'. cbn. rewrite (omap_insert_in _ _ _ (PushLock addr) addr Ei) by reflexivity. cbn. rewrite <- Permutation_middle. reflexivity. }
  exists s', None. split; [reflexivity|]. split.
  - split; [exact Q' | cbn; congruence | rewrite Hp; constructor; assumption | |].
    + intros x. rewrite Hp, elem_of_cons, B. cbn. destruct (decide (x = addr)) as [->|Hne].
      * rewrite lookup_insert_eq. split; [eauto | auto].
      * rewrite lookup_insert_ne by congruence. split; [intros [?|?]; [congruence | assumption] | auto].
    + intros k x Hk. cbn in Hk |- *. rewrite list_lookup_insert_ne; [exact (D k x Hk) | congruence].
  - apply abs_ext; [|reflexivity]. intros x Hx. apply lookup_insert_ne. congruence.
Qed.

Lemma get_ok s i r : mpp_inv s -> mexec s (getAudioData i) = Some r -> step_ok s r.
Proof.
  intros [Q C N B D] H. cbn [mexec] in H. destruct (taken s !! i) eqn:Et; [discriminate|].
  destruct (qexec (mqe2 s) (ACallPop i)) as [[q e]|] eqn:Eq; [|discriminate]. injection H as <-.
  destruct (qexec_inv _ _ _ _ Q Eq) as (Q' & C' & _). cbn in Eq. destruct (threads (mqe2 s) !! i) as [[]|] eqn:Ei; try discriminate. injection Eq as <- <-.
  set (s' := mkMpp _ _ _). assert (Hp : in_use s' = in_use s).
  { unfold in_use, inflight, s'. cbn. rewrite (omap_insert_same _ _ _ PopLock Ei) by reflexivity. reflexivity. }
  exists s', None. split; [reflexivity|]. split; [|apply abs_ext; reflexivity].
  split; [exact Q' | cbn; congruence | rewrite Hp; exact N | rewrite Hp; exact B |].
  intros k x Hk. cbn in Hk |- *. rewrite list_lookup_insert_ne; [exact (D k x Hk) | congruence].
Qed.

Lemma inside_ok s a r : mpp_inv s -> mexec s (inside a) = Some r -> step_ok s r.
Proof.
  intros [Q C N B D] H. cbn [mexec] in H. destruct (is_call a) eqn:Ec; [discriminate|].
  destruct (qexec (mqe2 s) a) as [[q e]|] eqn:Eq; [|discriminate]. destruct (qexec_inv _ _ _ _ Q Eq) as (Q' & C' & _).
  destruct (qexec_inflight _ _ _ _ Q Ec Eq) as [Hidle He].
  assert (Hinv : forall tk, let s' := mkMpp q (blocks s) tk in in_use s ≡ₚ in_use s' ->
    (forall k x, tk !! k = Some x -> threads q !! k = Some QIdle) -> mpp_inv s').
  { intros tk s' Hp Hk. destruct (in_use_perm s s' Hp eq_refl N B). split; try assumption. cbn. congruence. }
  destruct e as [[i d|i d]|].
  - destruct He as (Em & Hp & Hl). injection H as <-. do 2 eexists. split; [reflexivity|]. split.
    + apply (Hinv (taken s)); [|intros k x Hk; exact (Hidle k (D k x Hk))]. unfold in_use. cbn. rewrite Hp, Em, <- app_assoc. reflexivity.
    + unfold abs. cbn [frames_step mqe2 blocks taken]. rewrite length_map, (proj2 (Z.ltb_lt _ _)) by (rewrite <- C; exact Hl).
      rewrite Em, map_app. reflexivity.
  - destruct He as (Em & Hp & Hi & Hi'). assert (Et : taken s !! i = None).
    { destruct (taken s !! i) as [x|] eqn:E; [|reflexivity]. rewrite (D i x E) in Hi. discriminate. }
    injection H as <-. do 2 eexists. split; [reflexivity|]. split.
    + apply (Hinv (<[i := d]> (taken s))).
      * unfold in_use. cbn. rewrite Em, Hp, (map_to_list_insert _ _ _ Et). cbn. rewrite !(app_assoc (mq q)). apply Permutation_middle.
      * intros k x Hk. destruct (decide (k = i)) as [->|Hne]; [exact Hi'|]. rewrite lookup_insert_ne in Hk by congruence. exact (Hidle k (D k x Hk)).
    + unfold abs. cbn [frames_step mqe2 blocks taken]. rewrite Em. cbn [map]. rewrite decide_True.
      * rewrite fmap_insert. reflexivity.
      * split; [reflexivity|]. rewrite lookup_fmap, Et. reflexivity.
  - destruct He as (Em & Hp). injection H as <-. do 2 eexists. split; [reflexivity|]. split; [|apply abs_ext; [reflexivity | exact Em]].
    apply (Hinv (taken s)); [|intros k x Hk; exact (Hidle k (D k x Hk))]. unfold in_use. cbn. rewrite Hp, Em. reflexivity.
Qed.

Lemma read_ok s i r : mpp_inv s -> mexec s (read_md i) = Some r -> step_ok s r.
Proof.
  intros Hs H. pose proof Hs as [Q C N B D]. cbn [mexec] in H. destruct (taken s !! i) as [d|] eqn:Et; [|discriminate].
  destruct (proj1 (B d) (taken_in_use _ _ _ Et)) as [md Eb]. rewrite Eb in H. injection H as <-.
  set (s' := mkMpp _ _ _). assert (Hp : in_use s ≡ₚ d :: in_use s').
  { unfold in_use, s'. cbn. rewrite <- (map_to_list_delete _ _ _ Et). cbn. rewrite !(app_assoc (mq (mqe2 s))). symmetry. apply Permutation_middle. }
  pose proof N as N'. rewrite Hp in N'. apply NoDup_cons in N' as [Hd N'].
  assert (K : forall x, x ∈ in_use s' -> delete d (blocks s) !! x = blocks s !! x) by (intros x Hx; apply lookup_delete_ne; congruence).
  exists s'. eexists. split; [reflexivity|]. split.
  - split; [exact Q | exact C | exact N' | |].
    + intros x. change (blocks s') with (delete d (blocks s)). destruct (decide (x = d)) as [->|Hne].
      * rewrite lookup_delete_eq. split; [intros Hx; destruct (Hd Hx) | intros [? ?]; discriminate].
      * rewrite lookup_delete_ne, <- B, Hp, elem_of_cons by congruence. split; [auto | intros [?|?]; [congruence | assumption]].
    + intros k x Hk. cbn in Hk. apply lookup_delete_Some in Hk as [_ Hk]. exact (D k x Hk).
  - unfold abs. cbn [frames_step]. rewrite decide_True; [|rewrite lookup_fmap, Et; cbn; unfold frame_of; rewrite Eb; reflexivity].
    change (mqe2 s') with (mqe2 s). change (blocks s') with (delete d (blocks s)). change (taken s') with (delete i (taken s)).
    f_equal. f_equal.
    + symmetry. apply frame_of_ext. intros x Hx. apply K, elem_of_app. left. exact Hx.
    + rewrite <- fmap_delete. apply map_fmap_ext. intros k x Hk. unfold frame_of. rewrite K; [reflexivity|]. exact (taken_in_use s' k x Hk).
Qed.

Lemma mexec_ok s x r : mpp_inv s -> mexec s x = Some r -> step_ok s r.
Proof. destruct x; [apply set_ok | apply get_ok | apply inside_ok | apply read_ok]. Qed.

Lemma frames_run_app t1 : forall st t2, frames_run st (t1 ++ t2) = frames_run st t1 ≫= fun st' => frames_run st' t2.
Proof.
  induction t1 as [|e t1 IH]; intros st t2; [reflexivity|]. cbn [app frames_run]. destruct (frames_step st e); [apply IH | reflexivity].
Qed.

Lemma mrun_inv s tr s' : mrun s tr s' -> mpp_inv s -> mpp_inv s' /\ frames_run (abs s) tr = Some (abs s').
Proof.
  induction 1 as [s|s tr s1 x s2 e _ IH E]; intros Hs; [auto|]. destruct (IH Hs) as [H1 R1].
  destruct (mexec_ok _ _ _ H1 E) as (s3 & e' & [= <- <-] & H2 & He). split; [exact H2|].
  rewrite frames_run_app, R1. apply bind_Some. exists (abs s1). split; [reflexivity|].
  destruct e as [e|]; cbn [option_list frames_run]; [apply bind_Some; eauto | rewrite He; reflexivity].
Qed.

(** ** Properties *)

(** whatever threads call [setAudioData] and [getAudioData] and however they
    interleave, no call reads a block that was deleted, the frames leave the queue
    in the order in which they came in, at most 180 wait there, and every caller of
    [getAudioData] is given the pointer and the length of the frame it took. *)
Theorem audio_frames_fifo n tr s : mrun (initMpp n) tr s ->
  frames_run ([], ∅) tr = Some (abs s) /\ forall x r, mexec s x = Some r -> exists s' e, r = Ret (s', e).
Proof.
  intros H. destruct (mrun_inv _ _ _ H (mpp_inv_init n)) as [Hs R]. split.
  - rewrite <- R. unfold abs, initMpp. cbn. rewrite fmap_empty. reflexivity.
  - intros x r Hx. destruct (mexec_ok _ _ _ Hs Hx) as (s' & e & -> & _). eauto.
Qed.

(** No block is lost and none is deleted twice: the blocks that exist are those
    in the queue, those of callers still in [setAudioData] and those a caller of
    [getAudioData] has taken, each at one of these places only.  When no thread is
    in a call the queue's blocks are all there are. *)
Theorem audio_blocks_accounted n tr s : mrun (initMpp n) tr s ->
  NoDup (in_use s) /\ (forall x, x ∈ in_use s <-> is_Some (blocks s !! x)) /\
  (Forall (eq QIdle) (threads (mqe2 s)) -> taken s = ∅ -> forall x, x ∈ mq (mqe2 s) <-> is_Some (blocks s !! x)).
Proof.
  intros H. destruct (mrun_inv _ _ _ H (mpp_inv_init n)) as [[Q C N B D] _]. split; [exact N|]. split; [exact B|].
  intros Hi Ht x. rewrite <- B. unfold in_use, inflight. rewrite Ht, map_to_list_empty. cbn.
  assert (E : omap arg (threads (mqe2 s)) = []) by (clear D; induction Hi as [|p t <- _ IH]; [reflexivity | exact IH]).
  rewrite E, !app_nil_r. reflexivity.
Qed.

(** A frame goes through while the consumer waits. *)
Definition audio_actions : list maction :=
  [getAudioData 1; inside (ALock 1); inside (ABody 1 None); setAudioData 0 4096 160 7; inside (ALock 0); inside (ABody 0 (Some 1%nat));
   inside (ALock 1); inside (ABody 1 None); read_md 1].

Fixpoint mexecs (s : mpp) (l : list maction) (tr : list mevent) : option (mpp * list mevent) :=
  match l with
  | [] => Some (s, tr)
  | a :: l => match mexec s a with Some (Ret (s1, e)) => mexecs s1 l (tr ++ option_list e) | _ => None end
  end.

Lemma mexecs_run l s0 : forall s tr s' tr', mrun s0 tr s -> mexecs s l tr = Some (s', tr') -> mrun s0 tr' s'.
Proof.
  induction l as [|a l IH]; intros s tr s' tr' R H; cbn in H; [injection H as <- <-; exact R|].
  destruct (mexec s a) as [[[s1 e]|]|] eqn:E; try discriminate. exact (IH _ _ _ _ (mrun_step _ _ _ _ _ _ R E) H).
Qed.

Definition audio_trace : list mevent := [Put 0 (4096, 160); Took 1 (4096, 160); Returned 1 (4096, 160)].
Definition audio_after : mpp := mkMpp (mkMq [] 180 None [QIdle; QIdle]) ∅ ∅.

Lemma audio_run : mrun (initMpp 2) audio_trace audio_after.
Proof. apply (mexecs_run audio_actions _ _ _ _ _ (mrun_refl _)). vm_compute. reflexivity. Qed.

Lemma audio_frames_fifo_witness : frames_run ([], ∅) audio_trace = Some (abs audio_after).
Proof. exact (proj1 (audio_frames_fifo 2 audio_trace audio_after audio_run)). Defined.

Lemma audio_blocks_accounted_witness : forall x, x ∈ mq (mqe2 audio_after) <-> is_Some (blocks audio_after !! x).
Proof.
  apply (audio_blocks_accounted 2 audio_trace audio_after audio_run); [repeat constructor | reflexivity].
Defined.
