(* ===== verification/RtmpPush.v ===== *)
(** * RTMP push session (CRtmpPush.cpp, CRtmpPush.h)

    [class CRtmpPush] connects to a server and takes frames from other threads.
    The thread [run] is a state machine over [status]; the callers of
    [writeH264RawData] and [writeAACRawData] read [status] and use the connection
    [_rtmp]; [startPush] and [stopPush] set [run_status].  No mutex protects them
    ([NO_THREAD_LOCK]), so every access to the shared members is a step of its own,
    the use of [_rtmp] by a call of the library counting as one.
    The RTMP library is seen through what it promises about handles:
    [srs_rtmp_create] returns a new one or NULL, [srs_rtmp_destroy] ends one, and
    no other call may be given one that was ended. *)

From S2P Require Import Prelude.

Local Open Scope Z_scope.

Inductive push_status := CONNINIT | CONNECTED | CONNERR | STOPPUSH.
Inductive push_run := RUN_STATUS_START | RUN_STATUS_EXIT.

#[export] Instance push_status_eq : EqDecision push_status.
Proof. solve_decision. Defined.
#[export] Instance push_run_eq : EqDecision push_run.
Proof. solve_decision. Defined.

(** What comes behind [deinit()] in the three places that call it. *)
Inductive after := AfterInit | AfterCheck | AfterErr.

(** Where [run] is: at the [switch], in a case, in [cleanup] before the test, before
    [_rtmp = NULL] and behind it. *)
Inductive run_pc := AtSwitch | AtStop | AtInit | AtConnected | AtCheck | Destroy (k : after) | SetNull (k : after) | Behind (k : after).

(** Where another thread is: outside; in a writer behind the test of [status], or
    behind a call that returned 1009; in [stopPush] behind its test of [status]. *)
Inductive write_pc := WOut | WCall | WErr | WStop.

Record CRtmpPush := mkPush {
  _rtmp : option nat; status : push_status; run_status : push_run;
  at_run : run_pc; writers : list write_pc;
  live : list nat;     (* the handles that were created and not destroyed *)
  created : nat }.

Definition CRtmpPush_new (n : nat) : CRtmpPush := mkPush None STOPPUSH RUN_STATUS_EXIT AtSwitch (repeat WOut n) [] 0.

(** ** The thread *)

(** How [open_url] ends: no handle, a handle and an error, a connection. *)
Inductive answer := NoHandle | Refused | Accepted.

Definition open_url (s : CRtmpPush) (a : answer) : CRtmpPush * bool :=
  let '(mkPush _ st rs pc ws l n) := s in
  match a with
  | NoHandle => (mkPush None st rs pc ws l n, false)
  | Refused => (mkPush (Some n) st rs pc ws (n :: l) (S n), false)
  | Accepted => (mkPush (Some n) st rs pc ws (n :: l) (S n), true)
  end.

Definition goto (s : CRtmpPush) (pc : run_pc) : CRtmpPush :=
  mkPush (_rtmp s) (status s) (run_status s) pc (writers s) (live s) (created s).
Definition set_push_status (s : CRtmpPush) (st : push_status) : CRtmpPush :=
  mkPush (_rtmp s) st (run_status s) (at_run s) (writers s) (live s) (created s).
Definition set_run_status (s : CRtmpPush) (rs : push_run) : CRtmpPush :=
  mkPush (_rtmp s) (status s) rs (at_run s) (writers s) (live s) (created s).

(** [cleanup]: the test and [srs_rtmp_destroy], then [_rtmp = NULL]. *)
Definition cleanup_destroy (s : CRtmpPush) (k : after) : outcome CRtmpPush :=
  match _rtmp s with
  | None => Ret (goto s (Behind k))
  | Some h =>
      if decide (h ∈ live s)
      then Ret (mkPush (_rtmp s) (status s) (run_status s) (SetNull k) (writers s) (List.remove Nat.eq_dec h (live s)) (created s))
      else Crash OutOfBounds
  end.

Definition cleanup_null (s : CRtmpPush) (k : after) : CRtmpPush :=
  mkPush None (status s) (run_status s) (Behind k) (writers s) (live s) (created s).

(** One step of [run]; [a] is how [open_url] ends if it is called. *)
Definition run_step (a : answer) (s : CRtmpPush) : outcome CRtmpPush :=
  match at_run s with
  | AtSwitch =>
      Ret (goto s (match status s with
                   | STOPPUSH => AtStop | CONNINIT => AtInit | CONNECTED => AtCheck | CONNERR => Destroy AfterErr
                   end))
  | AtStop =>
      Ret (goto (match run_status s with RUN_STATUS_START => set_push_status s CONNINIT | RUN_STATUS_EXIT => s end) AtSwitch)
  | AtInit => let '(s, ok) := open_url s a in Ret (goto s (if ok then AtConnected else Destroy AfterInit))
  | AtConnected => Ret (goto (set_push_status s CONNECTED) AtCheck)
  | AtCheck => Ret (goto s (match run_status s with RUN_STATUS_EXIT => Destroy AfterCheck | RUN_STATUS_START => AtSwitch end))
  | Destroy k => cleanup_destroy s k
  | SetNull k => Ret (cleanup_null s k)
  | Behind AfterInit => Ret (goto s AtCheck)
  | Behind AfterCheck => Ret (goto (set_push_status s STOPPUSH) AtSwitch)
  | Behind AfterErr => Ret (goto (set_push_status s CONNINIT) AtCheck)
  end.

(** ** The other threads *)

Definition startPush (s : CRtmpPush) : CRtmpPush := set_run_status s RUN_STATUS_START.
Definition set_writer (s : CRtmpPush) (i : nat) (p : write_pc) : CRtmpPush :=
  mkPush (_rtmp s) (status s) (run_status s) (at_run s) (<[i := p]> (writers s)) (live s) (created s).

(** [stopPush]: the [switch] on [status], then the assignment. *)
Definition stopPush_test (s : CRtmpPush) (i : nat) : CRtmpPush :=
  match status s with STOPPUSH => s | _ => set_writer s i WStop end.
Definition stopPush_set (s : CRtmpPush) (i : nat) : CRtmpPush := set_writer (set_run_status s RUN_STATUS_EXIT) i WOut.

(** A writer's test of [status], its call with [_rtmp], which returns [wret], and the
    assignment of [CONNERR]. *)
Definition write_test (s : CRtmpPush) (i : nat) : CRtmpPush :=
  match status s with CONNECTED => set_writer s i WCall | _ => s end.

Definition write_call (s : CRtmpPush) (i : nat) (wret : Z) : outcome CRtmpPush :=
  match _rtmp s with
  | None => Crash NullDeref
  | Some h => if decide (h ∈ live s) then Ret (set_writer s i (if wret =? 1009 then WErr else WOut)) else Crash OutOfBounds
  end.

Inductive paction := PRun (a : answer) | PStart | PStop (i : nat) | PStopSet (i : nat) | PTest (i : nat) | PCall (i : nat) (wret : Z) | PErr (i : nat).

Definition pexec (s : CRtmpPush) (x : paction) : option (outcome CRtmpPush) :=
  match x with
  | PRun a => Some (run_step a s)
  | PStart => Some (Ret (startPush s))
  | PStop i => match writers s !! i with Some WOut => Some (Ret (stopPush_test s i)) | _ => None end
  | PStopSet i => match writers s !! i with Some WStop => Some (Ret (stopPush_set s i)) | _ => None end
  | PTest i => match writers s !! i with Some WOut => Some (Ret (write_test s i)) | _ => None end
  | PCall i wret => match writers s !! i with Some WCall => Some (write_call s i wret) | _ => None end
  | PErr i => match writers s !! i with Some WErr => Some (Ret (set_writer (set_push_status s CONNERR) i WOut)) | _ => None end
  end.

Inductive preach (n : nat) : CRtmpPush -> Prop :=
| preach_new : preach n (CRtmpPush_new n)
| preach_step s x s' : preach n s -> pexec s x = Some (Ret s') -> preach n s'.

(** ** Handles *)

(** [_rtmp] is NULL or the one handle that exists, but for the moment between
    [srs_rtmp_destroy] and the assignment. *)
Definition handles (s : CRtmpPush) : Prop :=
  match at_run s with
  | SetNull _ => live s = [] /\ _rtmp s <> None
  | _ => live s = match _rtmp s with Some h => [h] | None => [] end
  end.

(** Where a new handle may be made there is none, and [CONNECTED] means there is one
    except while the thread tears the connection down. *)
Definition at_rest (s : CRtmpPush) : Prop :=
  match at_run s with
  | AtStop | AtInit | Behind AfterInit => _rtmp s = None /\ status s <> CONNECTED
  | Behind _ => _rtmp s = None
  | AtConnected => _rtmp s <> None
  | AtSwitch | AtCheck => match status s with
                          | CONNINIT | STOPPUSH => _rtmp s = None
                          | CONNECTED => _rtmp s <> None
                          | CONNERR => True
                          end
  | Destroy AfterInit | SetNull AfterInit => status s <> CONNECTED
  | Destroy _ | SetNull _ => True
  end.

Record push_inv (s : CRtmpPush) : Prop := { pi_handles : handles s; pi_rest : at_rest s }.

Lemma remove_one (h : nat) : List.remove Nat.eq_dec h [h] = [].
Proof. cbn. destruct (Nat.eq_dec h h); congruence. Qed.

Lemma cleanup_ok s k : push_inv s -> at_run s = Destroy k -> exists s', cleanup_destroy s k = Ret s' /\ push_inv s'.
Proof.
  destruct s as [r st rs pc ws l n]. cbn. intros [H R] ->. unfold handles, at_rest in H, R. cbn in H, R. unfold cleanup_destroy. cbn.
  destruct r as [h|]; subst l.
  - rewrite decide_True by (left; reflexivity). eexists. split; [reflexivity|].
    split; unfold handles, at_rest; cbn; [|destruct k; exact R]. split; [apply (remove_one h) | discriminate].
  - eexists. split; [reflexivity|]. split; unfold handles, at_rest; cbn; [reflexivity|]. destruct k; auto.
Qed.

Lemma run_step_ok a s : push_inv s -> exists s', run_step a s = Ret s' /\ push_inv s'.
Proof.
  intros Hs. destruct (at_run s) as [| | | | |k|k|k] eqn:Ep; unfold run_step; rewrite Ep;
    [.. | exact (cleanup_ok s k Hs Ep) | |];
    destruct s as [r st rs pc ws l n]; cbn in Ep; subst pc; destruct Hs as [H R]; unfold handles, at_rest in H, R; cbn in H, R.
  - eexists. split; [reflexivity|]. destruct st; split; unfold handles, at_rest; cbn; auto.
  - destruct R as [-> R]. eexists. split; [reflexivity|]. destruct rs; split; unfold handles, at_rest; cbn; auto. destruct st; auto.
  - destruct R as [-> R]. cbn in H. subst l. destruct a; cbn; eexists; (split; [reflexivity|]); split; unfold handles, at_rest; cbn; auto.
  - eexists. split; [reflexivity|]. split; unfold handles, at_rest; cbn; auto.
  - eexists. split; [reflexivity|]. destruct rs; split; unfold handles, at_rest; cbn; auto.
  - destruct H as [-> _]. eexists. split; [reflexivity|]. split; unfold handles, at_rest; cbn; [reflexivity|]. destruct k; auto.
  - destruct k; eexists; (split; [reflexivity|]); split; unfold handles, at_rest; cbn; auto; destruct R as [-> R]; destruct st; auto; congruence.
Qed.

(** The other threads do not touch [_rtmp]; a writer may only set [CONNERR]. *)
Lemma status_err s : push_inv s -> push_inv (set_push_status s CONNERR).
Proof.
  destruct s as [r st rs pc ws l n]. intros [H R]. split; [exact H|]. unfold at_rest in *. cbn in *.
  destruct pc as [| | | | |[]|[]|[]]; auto; destruct R; split; auto || discriminate.
Qed.

Ltac keep Hs := destruct Hs as [?H ?R]; split; assumption.

Lemma pexec_inv s x s' : push_inv s -> pexec s x = Some (Ret s') -> push_inv s'.
Proof.
  intros Hs H. destruct x as [a| |i|i|i|i wret|i]; cbn in H.
  - destruct (run_step_ok a s Hs) as (s1 & E & H1). rewrite E in H. injection H as <-. exact H1.
  - injection H as <-. keep Hs.
  - destruct (writers s !! i) as [[]|]; try discriminate. injection H as <-. unfold stopPush_test. destruct (status s); keep Hs.
  - destruct (writers s !! i) as [[]|]; try discriminate. injection H as <-. keep Hs.
  - destruct (writers s !! i) as [[]|]; try discriminate. injection H as <-. unfold write_test. destruct (status s); keep Hs.
  - destruct (writers s !! i) as [[]|]; try discriminate. unfold write_call in H. destruct (_rtmp s); [|discriminate].
    destruct (decide _); [|discriminate]. injection H as <-. keep Hs.
  - destruct (writers s !! i) as [[]|]; try discriminate. injection H as <-. pose proof (status_err s Hs) as Hs'. keep Hs'.
Qed.

Lemma preach_inv n s : preach n s -> push_inv s.
Proof.
  induction 1 as [|s x s' _ IH E]; [|exact (pexec_inv _ _ _ IH E)]. split; reflexivity.
Qed.

Lemma handles_one s : handles s -> live s = [] \/ exists h, _rtmp s = Some h /\ live s = [h].
Proof. unfold handles. destruct (at_run s), (_rtmp s) as [h|]; try (intros [-> _]; auto); intros ->; eauto. Qed.

(** ** Properties *)

(** C24: whatever the threads do, the thread [run] never destroys a handle twice and
    never loses one: there is at most one connection, its handle is in [_rtmp], and
    every step of [run] returns.  A writer whose call finds [status] still
    [CONNECTED] and [run] not in the middle of tearing the connection down uses
    a live handle; one that passed its test earlier may not ([rtmp_write_race]). *)
Theorem rtmp_handles_safe n s : preach n s ->
  (length (live s) <= 1)%nat /\ (forall h, h ∈ live s -> _rtmp s = Some h) /\ (forall a, exists s', run_step a s = Ret s') /\
  (status s = CONNECTED -> (forall k, at_run s <> Destroy k /\ at_run s <> SetNull k /\ at_run s <> Behind k) ->
   forall i wret, exists s', write_call s i wret = Ret s').
Proof.
  intros Hr. pose proof (preach_inv n s Hr) as [H R]. split_and!.
  - destruct (handles_one s H) as [->|(h & _ & ->)]; cbn; lia.
  - intros h Hh. destruct (handles_one s H) as [E|(h' & E & E')]; [rewrite E in Hh; inversion Hh|].
    rewrite E' in Hh. apply list_elem_of_singleton in Hh. congruence.
  - intros a. destruct (run_step_ok a s (preach_inv n s Hr)) as (s' & E & _). eauto.
  - intros Hst Hpc i wret. unfold at_rest, handles in *. rewrite Hst in R. unfold write_call.
    assert (E : exists h, _rtmp s = Some h /\ live s = [h]).
    { destruct (at_run s) as [| | | | |k|k|k]; try (destruct (Hpc k) as (? & ? & ?); congruence);
        try (destruct R; congruence); destruct (_rtmp s) as [h|]; eauto; congruence. }
    destruct E as (h & -> & ->). rewrite decide_True by (left; reflexivity). eauto.
Qed.

(** A writer that got through the test before the thread tore the connection down. *)
Definition pexecs (s : CRtmpPush) (l : list paction) : option (outcome CRtmpPush) :=
  foldl (fun r x => match r with Some (Ret s) => pexec s x | r => r end) (Some (Ret s)) l.

Lemma pexecs_reach n l : forall s s', preach n s -> pexecs s l = Some (Ret s') -> preach n s'.
Proof.
  unfold pexecs. induction l as [|x l IH]; intros s s' Hs H; cbn in H; [injection H as <-; exact Hs|].
  destruct (pexec s x) as [[s1|c]|] eqn:E.
  - exact (IH s1 s' (preach_step _ _ _ _ Hs E) H).
  - exfalso. clear -H. induction l as [|y l IH]; [discriminate | exact (IH H)].
  - exfalso. clear -H. induction l as [|y l IH]; [discriminate | exact (IH H)].
Qed.

(** Started, connected, one writer behind its test of [status]. *)
Definition connect : list paction := [PStart; PRun Accepted; PRun Accepted; PRun Accepted; PRun Accepted; PRun Accepted; PTest 0].
Definition connected : CRtmpPush := mkPush (Some 0%nat) CONNECTED RUN_STATUS_START AtCheck [WCall; WOut] [0%nat] 1.

Lemma connected_reach : preach 2 connected.
Proof. apply (pexecs_reach 2 connect _ _ (preach_new 2)). reflexivity. Qed.

Lemma rtmp_handles_safe_witness : (length (live connected) <= 1)%nat /\ exists s', write_call connected 0 0 = Ret s'.
Proof.
  destruct (rtmp_handles_safe 2 connected connected_reach) as (H1 & _ & _ & H2). split; [exact H1|].
  apply H2; [reflexivity|]. intros k. split_and!; discriminate.
Defined.

(** Nothing keeps the thread from destroying the connection under a writer. *)
Lemma rtmp_write_race : pexecs connected [PStop 1; PStopSet 1; PRun Accepted; PRun Accepted; PCall 0 0] = Some (Crash OutOfBounds).
Proof. reflexivity. Qed.

(** ** Starting and stopping *)

Definition stopped (s : CRtmpPush) : bool :=
  match status s, _rtmp s, live s, at_run s with STOPPUSH, None, [], AtSwitch => true | _, _, _, _ => false end.

(** The thread alone, with these answers of the server: some state on the way
    satisfies the test. *)
Fixpoint passes (test : CRtmpPush -> bool) (l : list answer) (s : CRtmpPush) : bool :=
  test s || match l with [] => false | a :: l => match run_step a s with Ret s => passes test l s | Crash _ => false end end.

(** Connected, with a live handle and not about to be torn down. *)
Definition is_connected (s : CRtmpPush) : bool :=
  match status s, _rtmp s, live s, at_run s with
  | CONNECTED, Some h, [h'], (AtSwitch | AtCheck) => (h =? h')%nat
  | _, _, _, _ => false
  end.

Lemma cleanup_some h st rs pc ws n k : cleanup_destroy (mkPush (Some h) st rs pc ws [h] n) k = Ret (mkPush (Some h) st rs (SetNull k) ws [] n).
Proof. unfold cleanup_destroy. cbn [_rtmp live]. rewrite decide_True by (left; reflexivity). cbn [status run_status writers created]. rewrite remove_one. reflexivity. Qed.

Lemma cleanup_none st rs pc ws l n k : cleanup_destroy (mkPush None st rs pc ws l n) k = Ret (mkPush None st rs (Behind k) ws l n).
Proof. reflexivity. Qed.

(** Follow the thread from a state with a given [at_run], [status] and [_rtmp]. *)
Ltac follow :=
  repeat (cbn -[cleanup_destroy Nat.eqb]; unfold goto, set_push_status, cleanup_null; cbn -[cleanup_destroy Nat.eqb];
          first [reflexivity | rewrite Nat.eqb_refl | rewrite cleanup_some | rewrite cleanup_none
                | match goal with |- context [match ?a with NoHandle => _ | Refused => _ | Accepted => _ end] => is_var a; destruct a end]).

(** At most twelve steps bring [run] from any state to the end it is asked for. *)
Lemma settles s : push_inv s ->
  (run_status s = RUN_STATUS_EXIT -> forall l, length l = 12%nat -> passes stopped l s = true) /\
  (run_status s = RUN_STATUS_START -> passes is_connected (repeat Accepted 12) s = true).
Proof.
  destruct s as [r st rs pc ws l n]. intros [H R]. unfold handles, at_rest in H, R. cbn in H, R.
  split; cbn [run_status]; intros ->; [intros ans Ha; do 12 (destruct ans as [|? ans]; [discriminate|]); destruct ans; [clear Ha | discriminate]|].
  all: destruct pc as [| | | | |[]|[]|[]]; destruct r as [h|]; try match type of H with _ /\ _ => destruct H as [-> H] end; subst;
    try match type of R with _ /\ _ => destruct R end; try congruence; destruct st; try congruence; follow.
Qed.

(** C25: from every state the threads can reach, a thread [run] that is left alone
    brings a session that is asked to stop to rest, with the connection destroyed,
    within twelve steps, whatever the server answers; and, when the server accepts
    every attempt, it has within twelve steps connected one that is asked to
    start, with a live connection.  A stop that is requested before [run] has
    picked up the start is not noticed: [stopPush] changes nothing and the session
    connects. *)
Theorem rtmp_settles n s : preach n s ->
  (run_status s = RUN_STATUS_EXIT -> forall l, length l = 12%nat -> passes stopped l s = true) /\
  (run_status s = RUN_STATUS_START -> passes is_connected (repeat Accepted 12) s = true) /\
  (status s = STOPPUSH -> run_status s = RUN_STATUS_START -> forall i,
   stopPush_test s i = s /\ passes is_connected (repeat Accepted 12) (stopPush_test s i) = true).
Proof.
  intros Hr. destruct (settles s (preach_inv n s Hr)) as [H1 H2]. split; [exact H1|]. split; [exact H2|].
  intros Hs Hst i. unfold stopPush_test. rewrite Hs. split; [reflexivity | exact (H2 Hst)].
Qed.

(** The session asked to stop, the other thread having returned. *)
Definition stopping : CRtmpPush := stopPush_set (stopPush_test connected 1) 1.

Lemma rtmp_settles_witness : passes stopped (repeat Refused 12) stopping = true.
Proof.
  apply (rtmp_settles 2); [|reflexivity | reflexivity].
  apply (pexecs_reach 2 [PStop 1; PStopSet 1] connected); [exact connected_reach | reflexivity].
Defined.
