(* ===== verification/HttpUri.v ===== *)
(** * URIs of the HTTP server (libevent/http.c, libevent/evutil.c)

    What http-server.c does with the text of a request: [evhttp_uri_parse] splits
    it, [evhttp_uridecode] undoes the percent encoding.  A text is the list of its
    bytes, the terminator included; a pointer into it is an index, and the parser
    cuts its copy of the text by writing terminators into it.

    [mm_malloc] gives the contents of a new block or nothing, from the number of
    the call and the size; [inet_pton6] is the C library's test for an IPv6 address. *)

From S2P Require Import Prelude.

Local Open Scope Z_scope.

(** ** Characters *)
Definition EVUTIL_ISALPHA_TABLE : list Z := [0; 0; 0x7fffffe; 0x7fffffe; 0; 0; 0; 0].
Definition EVUTIL_ISALNUM_TABLE : list Z := [0; 0x3ff0000; 0x7fffffe; 0x7fffffe; 0; 0; 0; 0].
Definition EVUTIL_ISXDIGIT_TABLE : list Z := [0; 0x3ff0000; 0x7e; 0x7e; 0; 0; 0; 0].
Definition EVUTIL_ISDIGIT_TABLE : list Z := [0; 0x3ff0000; 0; 0; 0; 0; 0; 0].

(** [IMPL_CTYPE_FN]: a bit of eight words. *)
Definition ctype_fn (table : list Z) (c : Z) : bool :=
  Z.testbit (nth (Z.to_nat (Z.land (Z.shiftr (u8 c) 5) 7)) table 0) (Z.land (u8 c) 31).

Definition ISALPHA (c : Z) : bool := ctype_fn EVUTIL_ISALPHA_TABLE c.
Definition ISALNUM (c : Z) : bool := ctype_fn EVUTIL_ISALNUM_TABLE c.
Definition ISXDIGIT (c : Z) : bool := ctype_fn EVUTIL_ISXDIGIT_TABLE c.
Definition ISDIGIT (c : Z) : bool := ctype_fn EVUTIL_ISDIGIT_TABLE c.

Definition uri_chars : list Z := [
  0; 0; 0; 0; 0; 0; 0; 0;   0; 0; 0; 0; 0; 0; 0; 0;
  0; 0; 0; 0; 0; 0; 0; 0;   0; 0; 0; 0; 0; 0; 0; 0;
  0; 0; 0; 0; 0; 0; 0; 0;   0; 0; 0; 0; 0; 1; 1; 0;
  1; 1; 1; 1; 1; 1; 1; 1;   1; 1; 0; 0; 0; 0; 0; 0;

  0; 1; 1; 1; 1; 1; 1; 1;   1; 1; 1; 1; 1; 1; 1; 1;
  1; 1; 1; 1; 1; 1; 1; 1;   1; 1; 1; 0; 0; 0; 0; 1;
  0; 1; 1; 1; 1; 1; 1; 1;   1; 1; 1; 1; 1; 1; 1; 1;
  1; 1; 1; 1; 1; 1; 1; 1;   1; 1; 1; 0; 0; 0; 1; 0;

  0; 0; 0; 0; 0; 0; 0; 0;   0; 0; 0; 0; 0; 0; 0; 0;
  0; 0; 0; 0; 0; 0; 0; 0;   0; 0; 0; 0; 0; 0; 0; 0;
  0; 0; 0; 0; 0; 0; 0; 0;   0; 0; 0; 0; 0; 0; 0; 0;
  0; 0; 0; 0; 0; 0; 0; 0;   0; 0; 0; 0; 0; 0; 0; 0;

  0; 0; 0; 0; 0; 0; 0; 0;   0; 0; 0; 0; 0; 0; 0; 0;
  0; 0; 0; 0; 0; 0; 0; 0;   0; 0; 0; 0; 0; 0; 0; 0;
  0; 0; 0; 0; 0; 0; 0; 0;   0; 0; 0; 0; 0; 0; 0; 0;
  0; 0; 0; 0; 0; 0; 0; 0;   0; 0; 0; 0; 0; 0; 0; 0].

Definition CHAR_IS_UNRESERVED (c : Z) : bool := negb (nth (Z.to_nat (u8 c)) uri_chars 0 =? 0).

(** ["!$&'()*+,;="] and its terminator: [strchr] finds both. *)
Definition SUBDELIMS : list Z := [33; 36; 38; 39; 40; 41; 42; 43; 44; 59; 61; 0].
Definition in_SUBDELIMS (c : Z) : bool := existsb (Z.eqb c) SUBDELIMS.

(** ** Strings *)
Fixpoint cstr (l : list Z) : outcome (list Z) :=
  match l with
  | [] => Crash OutOfBounds
  | c :: r => if c =? 0 then Ret [] else let! s := cstr r in Ret (c :: s)
  end.

Fixpoint chr_from (l : list Z) (c : Z) (i : nat) : outcome (option nat) :=
  match l with
  | [] => Crash OutOfBounds
  | x :: r => if x =? c then Ret (Some i) else if x =? 0 then Ret None else chr_from r c (S i)
  end.

(** [strchr(b + i, c)] as an index of [b]. *)
Definition strchr (b : list Z) (i : nat) (c : Z) : outcome (option nat) := chr_from (drop i b) c i.

Class Malloc := mm_malloc : nat -> nat -> option (list Z).
Definition malloc_ok `{Malloc} (n size : nat) : bool := match mm_malloc n size with Some _ => true | None => false end.

(** A block has the size that was asked for. *)
Class MallocSize (A : Malloc) : Prop := mm_malloc_size : forall n size m, mm_malloc n size = Some m -> length m = size.

Class InetPton := inet_pton6 : list Z -> bool.

(** ** The parser *)
Record evhttp_uri := mkUri {
  flags : Z; scheme : option (list Z); userinfo : option (list Z); host : option (list Z);
  port : Z; path : option (list Z); query : option (list Z); fragment : option (list Z) }.

Definition EVHTTP_URI_NONCONFORMANT : Z := 0x01.
Definition EVHTTP_URI_HOST_HAS_BRACKETS : Z := 0x02.
Definition EVHTTP_URI_HOST_STRIP_BRACKETS : Z := 0x04.

Definition has (fl bit : Z) : bool := negb (Z.land fl bit =? 0).

Definition uri_eta (u : evhttp_uri) : evhttp_uri :=
  mkUri (flags u) (scheme u) (userinfo u) (host u) (port u) (path u) (query u) (fragment u).
#[export] Instance set_flags : Setter flags. Proof. mk_setter uri_eta. Defined.
#[export] Instance set_scheme : Setter scheme. Proof. mk_setter uri_eta. Defined.
#[export] Instance set_userinfo : Setter userinfo. Proof. mk_setter uri_eta. Defined.
#[export] Instance set_host : Setter host. Proof. mk_setter uri_eta. Defined.
#[export] Instance set_port : Setter port. Proof. mk_setter uri_eta. Defined.
#[export] Instance set_path : Setter path. Proof. mk_setter uri_eta. Defined.
#[export] Instance set_query : Setter query. Proof. mk_setter uri_eta. Defined.
#[export] Instance set_fragment : Setter fragment. Proof. mk_setter uri_eta. Defined.

(** [EVUTIL_ISXDIGIT_(s[1]) && EVUTIL_ISXDIGIT_(s[2])] *)
Definition xdigits_at (b : list Z) (s : nat) : outcome bool :=
  let! x := get8 b (s + 1) in
  if ISXDIGIT x then let! y := get8 b (s + 2) in Ret (ISXDIGIT y) else Ret false.

Fixpoint scheme_rest (fuel : nat) (b : list Z) (s eos : nat) : outcome bool :=
  if (s <? eos)%nat then
    match fuel with
    | O => Crash Diverge
    | S f =>
        let! c := get8 b s in
        if negb (ISALNUM c) && negb (c =? 43) && negb (c =? 45) && negb (c =? 46) then Ret false
        else scheme_rest f b (S s) eos
    end
  else Ret true.

Definition scheme_ok (b : list Z) (s eos : nat) : outcome bool :=
  if (eos <? s)%nat then Crash AssertFail
  else if (s =? eos)%nat then Ret false
  else
    let! c := get8 b s in
    if negb (ISALPHA c) then Ret false else scheme_rest (eos - S s) b (S s) eos.

Fixpoint userinfo_ok (fuel : nat) (b : list Z) (s eos : nat) : outcome bool :=
  if (s <? eos)%nat then
    match fuel with
    | O => Crash Diverge
    | S f =>
        let! c := get8 b s in
        if CHAR_IS_UNRESERVED c || in_SUBDELIMS c || (c =? 58) then userinfo_ok f b (S s) eos
        else
          let! x := if (c =? 37) && (s + 2 <? eos)%nat then xdigits_at b s else Ret false in
          if x then userinfo_ok f b (s + 3) eos else Ret false
    end
  else Ret true.

Fixpoint regname_ok (fuel : nat) (b : list Z) (s eos : nat) : outcome bool :=
  if (s <? eos)%nat then
    match fuel with
    | O => Crash Diverge
    | S f =>
        let! c := get8 b s in
        if CHAR_IS_UNRESERVED c || in_SUBDELIMS c then regname_ok f b (S s) eos
        else
          let! x := if c =? 37 then xdigits_at b s else Ret false in
          if x then regname_ok f b (s + 3) eos else Ret false
    end
  else Ret true.

Fixpoint parse_port (fuel : nat) (b : list Z) (s eos : nat) (portnum : Z) : outcome Z :=
  if (s <? eos)%nat then
    match fuel with
    | O => Crash Diverge
    | S f =>
        let! c := get8 b s in
        if negb (ISDIGIT c) then Ret (-1)
        else
          let portnum := i32 (portnum * 10 + (c - 48)) in
          if portnum <? 0 then Ret (-1)
          else if 65535 <? portnum then Ret (-1)
          else parse_port f b (S s) eos portnum
    end
  else Ret portnum.

(** The two loops of [bracket_addr_ok]: the version of an IPvFuture address up to
    the point, [None] for junk, and what follows the point. *)
Fixpoint future_version (fuel : nat) (b : list Z) (s eos : nat) : outcome (option nat) :=
  if (s <? eos)%nat then
    match fuel with
    | O => Crash Diverge
    | S f =>
        let! c := get8 b s in
        if c =? 46 then Ret (Some s)
        else if ISXDIGIT c then future_version f b (S s) eos else Ret None
    end
  else Ret (Some s).

Fixpoint future_address (fuel : nat) (b : list Z) (s eos : nat) : outcome bool :=
  if (s <? eos)%nat then
    match fuel with
    | O => Crash Diverge
    | S f =>
        let! c := get8 b s in
        if CHAR_IS_UNRESERVED c || in_SUBDELIMS c || (c =? 58) then future_address f b (S s) eos else Ret false
    end
  else Ret true.

Section Parser.
Context `{Malloc} `{InetPton}.

(** [mm_strdup(b + i)], as the [n]-th allocation. *)
Definition mm_strdup (b : list Z) (i n : nat) : outcome (option (list Z)) :=
  let! s := cstr (drop i b) in
  Ret (if malloc_ok n (S (length s)) then Some s else None).

(** 0 for bad, 1 for IPv6, 2 for IPvFuture. *)
Definition bracket_addr_ok (b : list Z) (s eos : nat) : outcome Z :=
  if (eos <? s + 3)%nat then Ret 0
  else
    let! c0 := get8 b s in
    if negb (c0 =? 91) then Ret 0
    else
      let! cl := get8 b (eos - 1) in
      if negb (cl =? 93) then Ret 0
      else
        let! c1 := get8 b (s + 1) in
        if c1 =? 118 then
          let s := (s + 2)%nat in
          let eos := (eos - 1)%nat in
          let! c := get8 b s in
          if negb (ISXDIGIT c) then Ret 0
          else
            let! v := future_version (eos - s) b s eos in
            match v with
            | None => Ret 0
            | Some s =>
                let! c := get8 b s in
                if negb (c =? 46) then Ret 0
                else
                  let! ok := future_address (eos - S s) b (S s) eos in
                  Ret (if ok then 2 else 0)
            end
        else
          let n_chars := (eos - s - 2)%nat in
          if (64 <=? n_chars)%nat then Ret 0
          else
            let! buf := cstr (take n_chars (drop (s + 1) b) ++ [0]) in
            Ret (if inet_pton6 buf then 1 else 0).

(** [for (port = eos-1; port >= cp && EVUTIL_ISDIGIT_( *port); --port)]; the result
    is [port + 1]. *)
Fixpoint port_scan (b : list Z) (cp k : nat) : outcome nat :=
  match k with
  | O => Ret O
  | S p =>
      if (cp <=? p)%nat then
        let! c := get8 b p in
        if ISDIGIT c then port_scan b cp p else Ret k
      else Ret k
  end.

(** [parse_authority] from the host on. *)
Definition authority_host (b : list Z) (n : nat) (uri : evhttp_uri) (cp eos : nat) : outcome (option evhttp_uri) :=
  if (eos <? cp)%nat then Crash AssertFail
  else
    let! c := get8 b cp in
    let! last := if (c =? 91) && (cp + 2 <=? eos)%nat then get8 b (eos - 1) else Ret 0 in
    let strip := has (flags uri) EVHTTP_URI_HOST_STRIP_BRACKETS in
    let! ok :=
      if last =? 93 then let! r := bracket_addr_ok b cp eos in Ret (negb (r =? 0))
      else regname_ok (eos - cp) b cp eos in
    if negb ok then Ret None
    else
      let len := if (last =? 93) && strip then (eos - cp - 2)%nat else (eos - cp)%nat in
      if negb (malloc_ok n (S len)) then Ret None
      else if (c =? 91) && strip then
        Ret (Some (uri <| host := Some (take len (drop (S cp) b)) |>
                       <| flags := Z.lor (flags uri) EVHTTP_URI_HOST_HAS_BRACKETS |>))
      else Ret (Some (uri <| host := Some (take len (drop cp b)) |>)).

(** [parse_authority] from the port on. *)
Definition authority_port (b : list Z) (n : nat) (uri : evhttp_uri) (cp eos : nat) : outcome (option evhttp_uri) :=
  let! k := port_scan b cp eos in
  let! colon := if (cp <? k)%nat then let! c := get8 b (k - 1) in Ret (c =? 58) else Ret false in
  if colon then
    if (k =? eos)%nat then authority_host b n (uri <| port := -1 |>) cp (k - 1)
    else
      let! p := parse_port (eos - k) b k eos 0 in
      if p <? 0 then Ret None else authority_host b n (uri <| port := p |>) cp (k - 1)
  else authority_host b n uri cp eos.

(** The block, the number of allocations so far, and the result: [None] is -1. *)
Definition parse_authority (b : list Z) (n : nat) (uri : evhttp_uri) (s eos : nat) :
    outcome (option evhttp_uri * list Z * nat) :=
  if (eos =? s)%nat then
    Ret (if malloc_ok n 1 then Some (uri <| host := Some [] |>) else None, b, S n)
  else
    let! cp := strchr b s 64 in
    match cp with
    | Some cp =>
        if (cp <? eos)%nat then
          let! ok := userinfo_ok (cp - s) b s cp in
          if negb ok then Ret (None, b, n)
          else
            let! b := put8 b cp 0 in
            let! u := mm_strdup b s n in
            match u with
            | None => Ret (None, b, S n)
            | Some u =>
                let! r := authority_port b (S n) (uri <| userinfo := Some u |>) (S cp) eos in
                Ret (r, b, S (S n))
            end
        else let! r := authority_port b n uri s eos in Ret (r, b, S n)
    | None => let! r := authority_port b n uri s eos in Ret (r, b, S n)
    end.

(** Loops over the rest of a string: structural on the rest, with the index. *)
Fixpoint end_of_authority (l : list Z) (cp : nat) : outcome nat :=
  match l with
  | [] => Crash OutOfBounds
  | c :: r =>
      if c =? 0 then Ret cp
      else if (c =? 63) || (c =? 35) || (c =? 47) then Ret cp
      else end_of_authority r (S cp)
  end.

Inductive uri_part := PART_PATH | PART_QUERY | PART_FRAGMENT.

(** [end_of_path] for [EVHTTP_URI_NONCONFORMANT]. *)
Fixpoint end_nonconformant (part : uri_part) (l : list Z) (cp : nat) : outcome nat :=
  match l with
  | [] => Crash OutOfBounds
  | c :: r =>
      if c =? 0 then Ret cp
      else
        match part with
        | PART_PATH => if (c =? 35) || (c =? 63) then Ret cp else end_nonconformant part r (S cp)
        | PART_QUERY => if c =? 35 then Ret cp else end_nonconformant part r (S cp)
        | PART_FRAGMENT => end_nonconformant part r (S cp)
        end
  end.

Definition is_query (part : uri_part) : bool := match part with PART_PATH => false | _ => true end.

Fixpoint end_conformant (fuel : nat) (part : uri_part) (b : list Z) (cp : nat) : outcome nat :=
  let! c := get8 b cp in
  if c =? 0 then Ret cp
  else
    match fuel with
    | O => Crash Diverge
    | S f =>
        if CHAR_IS_UNRESERVED c || in_SUBDELIMS c || (c =? 58) || (c =? 64) || (c =? 47)
        then end_conformant f part b (S cp)
        else
          let! x := if c =? 37 then xdigits_at b cp else Ret false in
          if x then end_conformant f part b (cp + 3)
          else if (c =? 63) && is_query part then end_conformant f part b (S cp)
          else Ret cp
    end.

Definition end_of_path (part : uri_part) (fl : Z) (b : list Z) (cp : nat) : outcome nat :=
  if has fl EVHTTP_URI_NONCONFORMANT then end_nonconformant part (drop cp b) cp
  else end_conformant (length b - cp) part b cp.

Fixpoint path_matches_noscheme (l : list Z) : outcome bool :=
  match l with
  | [] => Crash OutOfBounds
  | c :: r =>
      if c =? 0 then Ret true
      else if c =? 58 then Ret false else if c =? 47 then Ret true else path_matches_noscheme r
  end.

(** An optional component is copied at the end. *)
Definition dup_opt (b : list Z) (p : option nat) (n : nat) : outcome (option (option (list Z)) * nat) :=
  match p with
  | None => Ret (Some None, n)
  | Some i => let! s := mm_strdup b i n in Ret (match s with Some s => Some (Some s) | None => None end, S n)
  end.

(** [evhttp_uri_parse_with_flags] after the text has been cut. *)
Definition uri_finish (b : list Z) (n : nat) (uri : evhttp_uri) (got_authority : bool)
    (pathp : nat) (queryp fragmentp : option nat) : outcome (option evhttp_uri) :=
  let! p0 := get8 b pathp in
  let! bad := if negb got_authority && (p0 =? 47) then let! p1 := get8 b (pathp + 1) in Ret (p1 =? 47) else Ret false in
  if bad then Ret None
  else if got_authority && negb (p0 =? 47) && negb (p0 =? 0) then Ret None
  else
    let! nosch := match scheme uri with None => path_matches_noscheme (drop pathp b) | Some _ => Ret true end in
    if negb nosch then Ret None
    else
      let! p := mm_strdup b pathp n in
      match p with
      | None => Ret None
      | Some p =>
          let! (q, n) := dup_opt b queryp (S n) in
          match q with
          | None => Ret None
          | Some q =>
              let! (f, _) := dup_opt b fragmentp n in
              match f with
              | None => Ret None
              | Some f => Ret (Some (uri <| path := Some p |> <| query := q |> <| fragment := f |>))
              end
          end
      end.

(** From the path on: cut off query and fragment. *)
Definition uri_tail (b : list Z) (n : nat) (uri : evhttp_uri) (got_authority : bool) (fl : Z) (pathp : nat) :
    outcome (option evhttp_uri) :=
  let! readp := end_of_path PART_PATH fl b pathp in
  let! c := get8 b readp in
  let! (b, queryp, readp) :=
    if c =? 63 then
      let! b := put8 b readp 0 in
      let! e := end_of_path PART_QUERY fl b (S readp) in
      Ret (b, Some (S readp), e)
    else Ret (b, None, readp) in
  let! c := get8 b readp in
  let! (b, fragmentp, readp) :=
    if c =? 35 then
      let! b := put8 b readp 0 in
      let! e := end_of_path PART_FRAGMENT fl b (S readp) in
      Ret (b, Some (S readp), e)
    else Ret (b, None, readp) in
  let! c := get8 b readp in
  if negb (c =? 0) then Ret None
  else uri_finish b n uri got_authority pathp queryp fragmentp.

(** From the optional authority on. *)
Definition uri_hier (b : list Z) (n : nat) (uri : evhttp_uri) (readp : nat) : outcome (option evhttp_uri) :=
  let fl := flags uri in
  let! c0 := get8 b readp in
  let! slashes := if c0 =? 47 then let! c1 := get8 b (readp + 1) in Ret (c1 =? 47) else Ret false in
  if slashes then
    let authority := (readp + 2)%nat in
    let! e := end_of_authority (drop authority b) authority in
    let! (u, b, n) := parse_authority b n uri authority e in
    match u with
    | None => Ret None
    | Some u => uri_tail b n u true fl e
    end
  else uri_tail b n uri false fl readp.

(** The first two allocations are the structure and the copy of the text. *)
Definition evhttp_uri_parse_with_flags (source_uri : list Z) (fl : Z) : outcome (option evhttp_uri) :=
  if negb (malloc_ok 0 32) then Ret None
  else
    let uri := mkUri fl None None None (-1) None None None in
    let! readbuf := mm_strdup source_uri 0 1 in
    match readbuf with
    | None => Ret None
    | Some t =>
        let b := t ++ [0] in
        let! token := strchr b 0 58 in
        let! ok := match token with Some k => scheme_ok b 0 k | None => Ret false end in
        match token, ok with
        | Some k, true =>
            let! b := put8 b k 0 in
            let! s := mm_strdup b 0 2 in
            match s with
            | None => Ret None
            | Some s => uri_hier b 3 (uri <| scheme := Some s |>) (S k)
            end
        | _, _ => uri_hier b 2 uri 0
        end
    end.

Definition evhttp_uri_parse (source_uri : list Z) : outcome (option evhttp_uri) :=
  evhttp_uri_parse_with_flags source_uri 0.

End Parser.

(** ** Percent encoding *)
Section Codec.
Context `{Malloc}.

Definition hex_upper (d : Z) : Z := if d <? 10 then 48 + d else 55 + d.

(** ["%%%02X"] *)
Definition pct (c : Z) : list Z := [37; hex_upper (u8 c / 16); hex_upper (u8 c mod 16)].

(** [evhttp_uriencode]: the buffer grows by one piece per character. *)
Definition uriencode_chars (s : list Z) (space_as_plus : bool) : list Z :=
  flat_map (fun c => if CHAR_IS_UNRESERVED c then [c] else if (c =? 32) && space_as_plus then [43] else pct c) s.

Definition strtol16_digit (c : Z) : Z :=
  if ISDIGIT c then c - 48 else if 97 <=? c then c - 87 else c - 55.

(** [evhttp_decode_uri_internal]: [i] in the text, [j] in the block [ret], which
    the caller allocated. *)
Fixpoint decode_loop (fuel : nat) (uri : list Z) (length : nat) (ret : list Z) (ctl : Z) (decode_plus : bool) (i j : nat) :
    outcome (list Z * nat) :=
  if (i <? length)%nat then
    match fuel with
    | O => Crash Diverge
    | S f =>
        let! c := get8 uri i in
        if c =? 63 then
          let! ret := put8 ret j c in
          decode_loop f uri length ret ctl (decode_plus || (ctl <? 0)) (S i) (S j)
        else if (c =? 43) && decode_plus then
          let! ret := put8 ret j 32 in
          decode_loop f uri length ret ctl decode_plus (S i) (S j)
        else
          let! x := if (i + 2 <? length)%nat && (c =? 37) then xdigits_at uri i else Ret false in
          if x then
            let! t0 := get8 uri (i + 1) in
            let! t1 := get8 uri (i + 2) in
            let! ret := put8 ret j (strtol16_digit t0 * 16 + strtol16_digit t1) in
            decode_loop f uri length ret ctl decode_plus (i + 3) (S j)
          else
            let! ret := put8 ret j c in
            decode_loop f uri length ret ctl decode_plus (S i) (S j)
    end
  else
    let! ret := put8 ret j 0 in
    Ret (ret, j).

Definition evhttp_decode_uri_internal (uri : list Z) (length : nat) (ret : list Z) (ctl : Z) : outcome (list Z * nat) :=
  decode_loop length uri length ret ctl (ctl =? 1) 0 0.

(** [evhttp_uridecode], as the [n]-th allocation: the block and the value of
    [size_out]. *)
Definition evhttp_uridecode (uri : list Z) (decode_plus : bool) (n : nat) : outcome (option (list Z * nat)) :=
  let! s := cstr uri in
  match mm_malloc n (length s + 1) with
  | None => Ret None
  | Some ret => let! r := evhttp_decode_uri_internal uri (length s) ret (if decode_plus then 1 else 0) in Ret (Some r)
  end.

(** [evhttp_uriencode] with a negative length and a buffer that can grow. *)
Definition evhttp_uriencode (uri : list Z) (space_as_plus : bool) (n : nat) : outcome (option (list Z)) :=
  let! s := cstr uri in
  let r := uriencode_chars s space_as_plus ++ [0] in
  Ret (if malloc_ok n (length r) then Some r else None).

End Codec.
