(* ===== verification/HttpUriRef.v ===== *)
(** * URIs: the grammar, and a parser on lists

    The generic syntax of RFC 3986 as far as libevent/http.c follows it: the parts
    of a URI, their characters and the text they make up; and a parser that cuts
    lists instead of a buffer. *)

From S2P Require Import Prelude HttpUri.

Local Open Scope Z_scope.

(** ** Characters of RFC 3986 *)
Definition within (c lo hi : Z) : bool := (lo <=? c) && (c <=? hi).
Definition digit (c : Z) : bool := within c 48 57.
Definition alpha (c : Z) : bool := within c 65 90 || within c 97 122.
Definition hexdig (c : Z) : bool := digit c || within c 65 70 || within c 97 102.
Definition one_of (cs : list Z) (c : Z) : bool := existsb (Z.eqb c) cs.
Definition unreserved (c : Z) : bool := alpha c || digit c || one_of [45; 46; 95; 126] c.
Definition sub_delim (c : Z) : bool := one_of [33; 36; 38; 39; 40; 41; 42; 43; 44; 59; 61] c.

Definition scheme_char (c : Z) : bool := alpha c || digit c || one_of [43; 45; 46] c.
Definition reg_char (c : Z) : bool := unreserved c || sub_delim c.
Definition user_char (c : Z) : bool := reg_char c || (c =? 58).
Definition path_char (c : Z) : bool := user_char c || one_of [64; 47] c.
Definition query_char (c : Z) : bool := path_char c || (c =? 63).

(** Characters of a class, or percent-encoded ones. *)
Fixpoint pct_all (ok : Z -> bool) (l : list Z) : bool :=
  match l with
  | [] => true
  | c :: r =>
      if ok c then pct_all ok r
      else match r with
           | x :: y :: r' => (c =? 37) && hexdig x && hexdig y && pct_all ok r'
           | _ => false
           end
  end.

(** The longest such prefix, and the rest. *)
Fixpoint pct_span (ok : Z -> bool) (l : list Z) : list Z * list Z :=
  match l with
  | [] => ([], [])
  | c :: r =>
      if ok c then let '(a, t) := pct_span ok r in (c :: a, t)
      else match r with
           | x :: y :: r' =>
               if (c =? 37) && hexdig x && hexdig y then let '(a, t) := pct_span ok r' in (c :: x :: y :: a, t) else ([], l)
           | _ => ([], l)
           end
  end.

Fixpoint span {A : Type} (ok : A -> bool) (l : list A) : list A * list A :=
  match l with
  | [] => ([], [])
  | c :: r => if ok c then let '(a, t) := span ok r in (c :: a, t) else ([], l)
  end.

Lemma span_app {A : Type} (f : A -> bool) (l : list A) : forall x r, span f l = (x, r) -> l = x ++ r.
Proof.
  induction l as [|c l IH]; cbn; [intros ? ? [= <- <-]; reflexivity|]. intros x r.
  destruct (f c); [|intros [= <- <-]; reflexivity]. destruct (span f l) as [y q]. intros [= <- <-]. cbn. f_equal. apply IH. reflexivity.
Qed.

Lemma span_all {A : Type} (f : A -> bool) (l : list A) : forall x r, span f l = (x, r) -> forallb f x = true.
Proof.
  induction l as [|c l IH]; cbn; [intros ? ? [= <- <-]; reflexivity|]. intros x r.
  destruct (f c) eqn:E; [|intros [= <- <-]; reflexivity]. destruct (span f l) as [y q]. intros [= <- <-]. cbn. rewrite E. apply (IH _ _ eq_refl).
Qed.

Lemma span_stop {A : Type} (f : A -> bool) (l : list A) : forall x c r, span f l = (x, c :: r) -> f c = false.
Proof.
  induction l as [|d l IH]; cbn; [discriminate|]. intros x c r.
  destruct (f d) eqn:E; [|intros [= <- <- <-]; exact E]. destruct (span f l) as [y q]. intros [= <- ->]. apply (IH _ _ _ eq_refl).
Qed.

(** ** Parts of a URI *)
Record authority := mkAuth { a_user : option (list Z); a_host : list Z; a_port : option (list Z) }.
Record parts := mkParts {
  p_scheme : option (list Z); p_auth : option authority; p_path : list Z;
  p_query : option (list Z); p_fragment : option (list Z) }.

Definition pre (c : Z) (s : option (list Z)) : list Z := match s with Some s => c :: s | None => [] end.
Definition post (c : Z) (s : option (list Z)) : list Z := match s with Some s => s ++ [c] | None => [] end.
Definition auth_text (a : authority) : list Z := post 64 (a_user a) ++ a_host a ++ pre 58 (a_port a).
Definition slashes_text (a : option authority) : list Z := match a with Some a => 47 :: 47 :: auth_text a | None => [] end.
Definition parts_text (p : parts) : list Z :=
  post 58 (p_scheme p) ++ slashes_text (p_auth p) ++ p_path p ++ pre 63 (p_query p) ++ pre 35 (p_fragment p).

Definition scheme_syntax (s : list Z) : bool :=
  match s with [] => false | c :: r => alpha c && forallb scheme_char r end.

Definition future_syntax (v : list Z) : bool :=
  let '(x, r) := span hexdig v in
  negb (bool_decide (x = [])) && match r with c :: a => (c =? 46) && forallb user_char a | [] => false end.

Section Hosts.
Context `{InetPton}.

(** What libevent takes between brackets: an IPv6 address, or an IPvFuture with a
    small v that may be empty behind its point.  How this and [port_syntax] differ
    from RFC 3986 is stated with [libevent_syntax]. *)
Definition literal_syntax (body : list Z) : bool :=
  match body with
  | [] => false
  | c :: v => if c =? 118 then future_syntax v else (length body <? 64)%nat && inet_pton6 body
  end.

Definition bracket_syntax (h : list Z) : bool :=
  match h with
  | c :: t => (c =? 91) && match rev t with d :: t' => (d =? 93) && literal_syntax (rev t') | [] => false end
  | [] => false
  end.

Definition host_syntax (h : list Z) : bool := pct_all reg_char h || bracket_syntax h.

Definition digits_value (acc : Z) (ds : list Z) : Z := fold_left (fun a c => a * 10 + (c - 48)) ds acc.
Definition port_syntax (p : list Z) : bool := forallb digit p && (digits_value 0 p <=? 65535).

Definition opt_all (f : list Z -> bool) (o : option (list Z)) : bool := match o with Some s => f s | None => true end.
Definition auth_syntax (a : authority) : bool :=
  opt_all (pct_all user_char) (a_user a) && host_syntax (a_host a) && opt_all port_syntax (a_port a).

(** [path-abempty] after an authority, no [//] without one, and no colon in the
    first segment of a relative reference. *)
Definition path_start (p : parts) : bool :=
  match p_auth p with
  | Some _ => match p_path p with [] => true | c :: _ => c =? 47 end
  | None => match p_path p with c :: d :: _ => negb ((c =? 47) && (d =? 47)) | _ => true end
  end.
Definition first_segment (l : list Z) : list Z := fst (span (fun c => negb (c =? 47)) l).
Definition relative_ok (p : parts) : bool :=
  match p_scheme p with Some _ => true | None => forallb (fun c => negb (c =? 58)) (first_segment (p_path p)) end.

Definition parts_syntax (p : parts) : bool :=
  opt_all scheme_syntax (p_scheme p) && match p_auth p with Some a => auth_syntax a | None => true end &&
  pct_all path_char (p_path p) && opt_all (pct_all query_char) (p_query p) &&
  opt_all (pct_all query_char) (p_fragment p) && path_start p && relative_ok p.

(** The structure the parser returns for the parts. *)
Definition port_number (p : option (list Z)) : Z :=
  match p with None | Some [] => -1 | Some ds => digits_value 0 ds end.

Definition stripped (fl : Z) (h : list Z) : bool :=
  has fl EVHTTP_URI_HOST_STRIP_BRACKETS && match h with c :: _ => c =? 91 | [] => false end.

Definition uri_of (fl : Z) (p : parts) : evhttp_uri :=
  match p_auth p with
  | None => mkUri fl (p_scheme p) None None (-1) (Some (p_path p)) (p_query p) (p_fragment p)
  | Some a =>
      let strip := stripped fl (a_host a) in
      mkUri (if strip then Z.lor fl EVHTTP_URI_HOST_HAS_BRACKETS else fl) (p_scheme p) (a_user a)
        (Some (if strip then take (length (a_host a) - 2) (drop 1 (a_host a)) else a_host a))
        (port_number (a_port a)) (Some (p_path p)) (p_query p) (p_fragment p)
  end.

(** ** A parser on lists *)
Fixpoint cut (c : Z) (l : list Z) : option (list Z * list Z) :=
  match l with
  | [] => None
  | x :: r => if x =? c then Some ([], r) else '(a, t) ← cut c r; Some (x :: a, t)
  end.

Definition split_port (r : list Z) : list Z * option (list Z) :=
  let '(d, h) := span digit (rev r) in
  match h with
  | c :: h' => if c =? 58 then (rev h', Some (rev d)) else (r, None)
  | [] => (r, None)
  end.

Definition split_auth (t : list Z) : authority :=
  let '(u, r) := match cut 64 t with Some (u, r) => (Some u, r) | None => (None, t) end in
  let '(h, p) := split_port r in mkAuth u h p.

Definition nonconformant_char (part : uri_part) (c : Z) : bool :=
  match part with
  | PART_PATH => negb ((c =? 35) || (c =? 63))
  | PART_QUERY => negb (c =? 35)
  | PART_FRAGMENT => true
  end.

Definition part_char (part : uri_part) : Z -> bool := match part with PART_PATH => path_char | _ => query_char end.

Definition part_span (part : uri_part) (fl : Z) (l : list Z) : list Z * list Z :=
  if has fl EVHTTP_URI_NONCONFORMANT then span (nonconformant_char part) l else pct_span (part_char part) l.

Definition split_opt (c : Z) (part : uri_part) (fl : Z) (l : list Z) : option (list Z) * list Z :=
  match l with
  | x :: t => if x =? c then let '(a, r) := part_span part fl t in (Some a, r) else (None, l)
  | [] => (None, [])
  end.

Definition auth_char (c : Z) : bool := negb ((c =? 63) || (c =? 35) || (c =? 47)).

Definition split_scheme (s : list Z) : option (list Z) * list Z :=
  match cut 58 s with
  | Some (a, r) => if scheme_syntax a then (Some a, r) else (None, s)
  | None => (None, s)
  end.

Definition split_slashes (r : list Z) : option authority * list Z :=
  match r with
  | c :: d :: t =>
      if (c =? 47) && (d =? 47) then let '(a, r) := span auth_char t in (Some (split_auth a), r) else (None, r)
  | _ => (None, r)
  end.

Definition split_tail (fl : Z) (sc : option (list Z)) (au : option authority) (r : list Z) : option parts :=
  let '(pa, r) := part_span PART_PATH fl r in
  let '(qu, r) := split_opt 63 PART_QUERY fl r in
  let '(fr, r) := split_opt 35 PART_FRAGMENT fl r in
  let p := mkParts sc au pa qu fr in
  match r with
  | [] => if path_start p && relative_ok p then Some p else None
  | _ => None
  end.

Definition split_uri (fl : Z) (s : list Z) : option parts :=
  let '(sc, r) := split_scheme s in
  let '(au, r) := split_slashes r in
  match au with
  | Some a => if auth_syntax a then split_tail fl sc au r else None
  | None => split_tail fl sc None r
  end.

End Hosts.

(** ** Tables and classes *)
Lemma isdigit_digit c : is_u8 c -> ISDIGIT c = digit c.
Proof. apply byte_cases. vm_compute. reflexivity. Qed.
Lemma isalpha_alpha c : is_u8 c -> ISALPHA c = alpha c.
Proof. apply byte_cases. vm_compute. reflexivity. Qed.
Lemma isxdigit_hexdig c : is_u8 c -> ISXDIGIT c = hexdig c.
Proof. apply byte_cases. vm_compute. reflexivity. Qed.
Lemma unreserved_spec c : is_u8 c -> CHAR_IS_UNRESERVED c = unreserved c.
Proof. apply byte_cases. vm_compute. reflexivity. Qed.
Lemma subdelims_spec c : c <> 0 -> in_SUBDELIMS c = sub_delim c.
Proof. intros Hc. unfold in_SUBDELIMS, sub_delim, one_of. cbn. rewrite (proj2 (Z.eqb_neq c 0) Hc). reflexivity. Qed.
Lemma scheme_char_spec c : is_u8 c ->
  (negb (ISALNUM c) && negb (c =? 43) && negb (c =? 45) && negb (c =? 46)) = negb (scheme_char c).
Proof. apply (byte_cases (fun c => negb (ISALNUM c) && negb (c =? 43) && negb (c =? 45) && negb (c =? 46)) (fun c => negb (scheme_char c))). vm_compute. reflexivity. Qed.

(** A text: bytes, none of them the terminator. *)
Definition char (c : Z) : Prop := is_u8 c /\ c <> 0.
Abbreviation txt l := (Forall char l).

Lemma reg_char_spec c : char c -> (CHAR_IS_UNRESERVED c || in_SUBDELIMS c) = reg_char c.
Proof. intros [H1 H2]. rewrite unreserved_spec, subdelims_spec by assumption. reflexivity. Qed.
Lemma user_char_spec c : char c -> (CHAR_IS_UNRESERVED c || in_SUBDELIMS c || (c =? 58)) = user_char c.
Proof. intros H. rewrite reg_char_spec by exact H. reflexivity. Qed.
Lemma path_char_spec c : char c ->
  (CHAR_IS_UNRESERVED c || in_SUBDELIMS c || (c =? 58) || (c =? 64) || (c =? 47)) = path_char c.
Proof. intros H. rewrite user_char_spec by exact H. unfold path_char, one_of. cbn. rewrite orb_false_r, <- orb_assoc. reflexivity. Qed.
