(* ===== verification/HttpUriRun.v ===== *)
(** * URIs: the parser of libevent/http.c cuts a text as the parser on lists does

    Every loop over the buffer against the corresponding function on lists, and the
    whole parser: it stays inside its copy of the text, ends, and returns the parts,
    or nothing when an allocation fails. *)

From S2P Require Import Prelude HttpUri HttpUriRef.

Local Open Scope Z_scope.
Implicit Types (a b l r t u : list Z) (c d : Z) (s e n : nat).

(** ** Positions in a buffer *)
Lemma at_head b s c r : drop s b = c :: r -> get8 b s = Ret c.
Proof. intros H. unfold get8. rewrite <- (Nat.add_0_r s), <- lookup_drop, H. reflexivity. Qed.

Lemma at_skip b s a r : drop s b = a ++ r -> drop (s + length a) b = r.
Proof. intros H. rewrite <- drop_drop, H. apply drop_app_length. Qed.

Lemma at_tail b s c r : drop s b = c :: r -> drop (S s) b = r.
Proof. intros H. rewrite <- Nat.add_1_r. exact (at_skip b s [c] r H). Qed.

Lemma at_tail2 b s c d r : drop s b = c :: d :: r -> get8 b (s + 1) = Ret d.
Proof. intros H. rewrite Nat.add_1_r. exact (at_head b (S s) d r (at_tail _ _ _ _ H)). Qed.

Lemma at_tail3 b s c d (x : Z) r : drop s b = c :: d :: x :: r -> get8 b (s + 2) = Ret x.
Proof. intros H. replace (s + 2)%nat with (S (S s)) by lia. exact (at_head b _ x r (at_tail _ _ _ _ (at_tail _ _ _ _ H))). Qed.

Lemma at_write b s a c r : drop s b = a ++ c :: r ->
  exists b', put8 b (s + length a) 0 = Ret b' /\ drop s b' = a ++ 0 :: r /\ forall e, (s + length a < e)%nat -> drop e b' = drop e b.
Proof.
  intros H. assert (L : length (drop s b) = length (a ++ c :: r)) by (rewrite H; reflexivity).
  rewrite length_drop, length_app in L. cbn in L. exists (<[(s + length a)%nat := 0]> b). split; [|split].
  - rewrite put8_in by lia. reflexivity.
  - rewrite drop_insert_ge by lia. replace (s + length a - s)%nat with (length a) by lia.
    rewrite H. rewrite insert_app_r_alt by lia. rewrite Nat.sub_diag. reflexivity.
  - intros e He. apply drop_insert_lt. lia.
Qed.

Lemma cstr_stop a r : txt a -> cstr (a ++ 0 :: r) = Ret a.
Proof.
  induction 1 as [|c a [_ Hc] _ IH]; [reflexivity|]. cbn. rewrite (proj2 (Z.eqb_neq c 0) Hc), IH. reflexivity.
Qed.

(** The next three characters when the first is a percent sign. *)
Lemma xdigits_run b s c l t : drop s b = c :: l ++ t -> txt l ->
  match t with [] => False | d :: _ => is_u8 d /\ hexdig d = false end ->
  xdigits_at b s = Ret (match l with x :: y :: _ => hexdig x && hexdig y | _ => false end).
Proof.
  intros Hb Hl Ht. unfold xdigits_at. destruct t as [|d t]; [contradiction|]. destruct Ht as [Hd Ht].
  destruct l as [|x [|y l]]; cbn [app] in Hb; rewrite (at_tail2 _ _ _ _ _ Hb); cbn [obind].
  - rewrite isxdigit_hexdig, Ht by exact Hd. reflexivity.
  - inversion_clear Hl as [|? ? [Hx _] _]. rewrite isxdigit_hexdig by exact Hx. destruct (hexdig x); [|reflexivity].
    rewrite (at_tail3 _ _ _ _ _ _ Hb). cbn. rewrite isxdigit_hexdig, Ht by exact Hd. reflexivity.
  - inversion_clear Hl as [|? ? [Hx _] Hl']. inversion_clear Hl' as [|? ? [Hy _] _].
    rewrite isxdigit_hexdig by exact Hx. destruct (hexdig x); [|reflexivity].
    rewrite (at_tail3 _ _ _ _ _ _ Hb). cbn. rewrite isxdigit_hexdig by exact Hy. reflexivity.
Qed.

Ltac in_range := match goal with |- context [(?a <? ?b)%nat] => destruct (Nat.ltb_spec a b); [|cbn [length] in *; lia] end.
Ltac at_end := cbn [length]; rewrite ?Nat.add_0_r, Nat.ltb_irrefl; reflexivity.

Lemma scheme_rest_run b : forall a fuel s t, drop s b = a ++ t -> txt a -> (length a <= fuel)%nat ->
  scheme_rest fuel b s (s + length a) = Ret (forallb scheme_char a).
Proof.
  induction a as [|c a IH]; intros fuel s t Hb Ha Hf.
  - destruct fuel; cbn [scheme_rest]; at_end.
  - destruct fuel as [|fuel]; [cbn in Hf; lia|]. cbn [scheme_rest]. in_range.
    inversion_clear Ha as [|? ? [Hc _] Ha']. rewrite (at_head _ _ _ _ Hb). cbn [obind]. rewrite scheme_char_spec by exact Hc.
    cbn [forallb]. destruct (scheme_char c); [|reflexivity]. cbn [negb andb].
    replace (s + length (c :: a))%nat with (S s + length a)%nat by (cbn; lia).
    apply (IH fuel (S s) t); [exact (at_tail _ _ _ _ Hb) | exact Ha' | cbn in Hf; lia].
Qed.

Lemma scheme_ok_run b s a t : drop s b = a ++ t -> txt a -> scheme_ok b s (s + length a) = Ret (scheme_syntax a).
Proof.
  intros Hb Ha. unfold scheme_ok. destruct (Nat.ltb_spec (s + length a) s); [lia|].
  destruct a as [|c a]; [cbn [length]; rewrite Nat.add_0_r, Nat.eqb_refl; reflexivity|].
  destruct (Nat.eqb_spec s (s + length (c :: a))); [cbn in *; lia|]. rewrite (at_head _ _ _ _ Hb). cbn [obind].
  inversion_clear Ha as [|? ? [Hc _] Ha']. rewrite isalpha_alpha by exact Hc. cbn [scheme_syntax]. destruct (alpha c); [|reflexivity].
  cbn [negb andb]. replace (s + length (c :: a))%nat with (S s + length a)%nat by (cbn; lia).
  apply (scheme_rest_run b a _ (S s) t); [exact (at_tail _ _ _ _ Hb) | exact Ha' | lia].
Qed.

Lemma pct_all_eq ok c r : ok c = false ->
  pct_all ok (c :: r) = (c =? 37) && match r with x :: y :: r' => hexdig x && hexdig y && pct_all ok r' | _ => false end.
Proof. intros H. cbn. rewrite H. destruct r as [|x [|y r]]; rewrite ?andb_false_r, ?andb_assoc; reflexivity. Qed.

Lemma regname_run b d u : is_u8 d -> hexdig d = false ->
  forall fuel a s, drop s b = a ++ d :: u -> txt a -> (length a <= fuel)%nat ->
  regname_ok fuel b s (s + length a) = Ret (pct_all reg_char a).
Proof.
  intros Hd Hx. induction fuel as [|fuel IH]; intros a s Hb Ha Hf.
  - destruct a; [|cbn in Hf; lia]. cbn [regname_ok]. at_end.
  - destruct a as [|c a]; cbn [regname_ok]; [at_end|]. in_range.
    rewrite (at_head _ _ _ _ Hb). cbn [obind]. pose proof Ha as Ha0. inversion_clear Ha as [|? ? Hc Ha'].
    rewrite reg_char_spec by exact Hc. destruct (reg_char c) eqn:E.
    + replace (s + length (c :: a))%nat with (S s + length a)%nat by (cbn; lia).
      rewrite IH; [cbn; rewrite E; reflexivity | exact (at_tail _ _ _ _ Hb) | exact Ha' | cbn in Hf; lia].
    + rewrite pct_all_eq by exact E. destruct (c =? 37); [|reflexivity].
      rewrite (xdigits_run b s c a (d :: u)) by (try exact Hb; auto). cbn [obind andb].
      destruct a as [|x [|y a]]; try reflexivity. destruct (hexdig x && hexdig y); [|reflexivity]. cbn [andb].
      replace (s + length (c :: x :: y :: a))%nat with (s + 3 + length a)%nat by (cbn; lia).
      apply IH; [exact (at_skip b s [c; x; y] _ Hb) | | cbn in Hf; lia].
      inversion_clear Ha' as [|? ? _ Ha2]. inversion_clear Ha2. assumption.
Qed.

Lemma userinfo_run b d u : is_u8 d -> hexdig d = false ->
  forall fuel a s, drop s b = a ++ d :: u -> txt a -> (length a <= fuel)%nat ->
  userinfo_ok fuel b s (s + length a) = Ret (pct_all user_char a).
Proof.
  intros Hd Hx. induction fuel as [|fuel IH]; intros a s Hb Ha Hf.
  - destruct a; [|cbn in Hf; lia]. cbn [userinfo_ok]. at_end.
  - destruct a as [|c a]; cbn [userinfo_ok]; [at_end|]. in_range.
    rewrite (at_head _ _ _ _ Hb). cbn [obind]. pose proof Ha as Ha0. inversion_clear Ha as [|? ? Hc Ha'].
    rewrite user_char_spec by exact Hc. destruct (user_char c) eqn:E.
    + replace (s + length (c :: a))%nat with (S s + length a)%nat by (cbn; lia).
      rewrite IH; [cbn; rewrite E; reflexivity | exact (at_tail _ _ _ _ Hb) | exact Ha' | cbn in Hf; lia].
    + rewrite pct_all_eq by exact E. destruct (c =? 37); [|reflexivity]. cbn [andb].
      destruct (Nat.ltb_spec (s + 2) (s + length (c :: a))) as [L|L]; cbn [length] in L.
      * rewrite (xdigits_run b s c a (d :: u)) by (try exact Hb; auto). cbn [obind].
        destruct a as [|x [|y a]]; try reflexivity. destruct (hexdig x && hexdig y); [|reflexivity]. cbn [andb].
        replace (s + length (c :: x :: y :: a))%nat with (s + 3 + length a)%nat by (cbn; lia).
        apply IH; [exact (at_skip b s [c; x; y] _ Hb) | | cbn in Hf; lia].
        inversion_clear Ha' as [|? ? _ Ha2]. inversion_clear Ha2. assumption.
      * destruct a as [|x [|y a]]; try reflexivity. cbn in L. lia.
Qed.

Lemma digits_value_ge ds : forall acc, forallb digit ds = true -> 0 <= acc -> acc <= digits_value acc ds.
Proof.
  unfold digits_value. induction ds as [|c ds IH]; intros acc Hd Ha; cbn [fold_left]; [lia|].
  apply andb_prop in Hd as [Hc Hd]. unfold digit, within in Hc. specialize (IH (acc * 10 + (c - 48)) Hd ltac:(lia)). lia.
Qed.

Lemma parse_port_run b : forall a fuel s t acc, drop s b = a ++ t -> forallb digit a = true -> 0 <= acc <= 65535 ->
  (length a <= fuel)%nat ->
  parse_port fuel b s (s + length a) acc = Ret (if digits_value acc a <=? 65535 then digits_value acc a else -1).
Proof.
  induction a as [|c a IH]; intros fuel s t acc Hb Hd Hacc Hf.
  - replace (digits_value acc [] <=? 65535) with true by (cbn; lia). destruct fuel; cbn [parse_port]; at_end.
  - destruct fuel as [|fuel]; [cbn in Hf; lia|]. cbn [parse_port]. in_range. rewrite (at_head _ _ _ _ Hb). cbn [obind].
    cbn in Hd. apply andb_prop in Hd as [Hc Hd]. assert (Hr : 48 <= c <= 57) by (unfold digit, within in Hc; lia).
    rewrite isdigit_digit, Hc by rlia. cbn [negb]. cbv zeta. rewrite i32_id by rlia.
    destruct (Z.ltb_spec (acc * 10 + (c - 48)) 0); [lia|].
    change (digits_value acc (c :: a)) with (digits_value (acc * 10 + (c - 48)) a).
    destruct (Z.ltb_spec 65535 (acc * 10 + (c - 48))).
    + pose proof (digits_value_ge a (acc * 10 + (c - 48)) Hd ltac:(lia)). zcase; [lia | reflexivity].
    + replace (s + length (c :: a))%nat with (S s + length a)%nat by (cbn; lia).
      apply (IH fuel (S s) t); [exact (at_tail _ _ _ _ Hb) | exact Hd | lia | cbn in Hf; lia].
Qed.

Lemma future_version_run b : forall a fuel s t, drop s b = a ++ t -> txt a -> (length a <= fuel)%nat ->
  future_version fuel b s (s + length a) =
    Ret (let '(x, r) := span hexdig a in
         match r with c :: _ => if c =? 46 then Some (s + length x)%nat else None | [] => Some (s + length x)%nat end).
Proof.
  induction a as [|c a IH]; intros fuel s t Hb Ha Hf.
  - destruct fuel; cbn [future_version span]; at_end.
  - destruct fuel as [|fuel]; [cbn in Hf; lia|]. cbn [future_version]. in_range. rewrite (at_head _ _ _ _ Hb). cbn [obind].
    inversion_clear Ha as [|? ? [Hc _] Ha']. rewrite isxdigit_hexdig by exact Hc. cbn [span].
    destruct (Z.eqb_spec c 46) as [->|N]; [cbn; rewrite Nat.add_0_r; reflexivity|].
    destruct (hexdig c); [|apply Z.eqb_neq in N; rewrite N; reflexivity].
    replace (s + length (c :: a))%nat with (S s + length a)%nat by (cbn; lia).
    rewrite (IH fuel (S s) t); [|exact (at_tail _ _ _ _ Hb) | exact Ha' | cbn in Hf; lia].
    destruct (span hexdig a) as [x r]. cbn [length]. rewrite Nat.add_succ_r. reflexivity.
Qed.

Lemma future_address_run b : forall a fuel s t, drop s b = a ++ t -> txt a -> (length a <= fuel)%nat ->
  future_address fuel b s (s + length a) = Ret (forallb user_char a).
Proof.
  induction a as [|c a IH]; intros fuel s t Hb Ha Hf.
  - destruct fuel; cbn [future_address]; at_end.
  - destruct fuel as [|fuel]; [cbn in Hf; lia|]. cbn [future_address]. in_range. rewrite (at_head _ _ _ _ Hb). cbn [obind].
    inversion_clear Ha as [|? ? Hc Ha']. rewrite user_char_spec by exact Hc. cbn [forallb].
    destruct (user_char c); [|reflexivity].
    replace (s + length (c :: a))%nat with (S s + length a)%nat by (cbn; lia).
    apply (IH fuel (S s) t); [exact (at_tail _ _ _ _ Hb) | exact Ha' | cbn in Hf; lia].
Qed.

(** ** The authority *)
Lemma txt_app_inv l r : txt (l ++ r) -> txt l /\ txt r.
Proof. apply Forall_app. Qed.

Section Run.
Context `{M : Malloc} `{I : InetPton}.

Lemma literal_future_run b s v u : drop s b = v ++ 93 :: u -> txt v ->
  (let! c := get8 b s in
   if negb (ISXDIGIT c) then Ret 0
   else
     let! o := future_version (s + length v - s) b s (s + length v) in
     match o with
     | None => Ret 0
     | Some s' =>
         let! c := get8 b s' in
         if negb (c =? 46) then Ret 0
         else let! ok := future_address (s + length v - S s') b (S s') (s + length v) in Ret (if ok then 2 else 0)
     end) = Ret (if future_syntax v then 2 else 0).
Proof.
  intros Hb Hv. unfold future_syntax. destruct v as [|c v].
  - rewrite (at_head _ _ _ _ Hb). reflexivity.
  - rewrite (at_head _ _ _ _ Hb). cbn [obind]. pose proof Hv as Hv0. inversion_clear Hv as [|? ? [Hc _] _].
    rewrite isxdigit_hexdig by exact Hc. destruct (hexdig c) eqn:Ec; cbn [negb]; [|cbn [span]; rewrite Ec; reflexivity].
    rewrite (future_version_run b (c :: v) _ s (93 :: u)) by (try exact Hb; try exact Hv0; lia). cbn [obind].
    destruct (span hexdig (c :: v)) as [x r] eqn:Es. pose proof (span_app _ _ _ _ Es) as Ea.
    assert (Hx : bool_decide (x = []) = false).
    { apply bool_decide_eq_false. intros ->. cbn in Es. rewrite Ec in Es. destruct (span hexdig v). discriminate. }
    rewrite Hx. cbn [negb andb]. rewrite Ea in Hb, Hv0 |- *. rewrite <- app_assoc in Hb. pose proof (at_skip _ _ _ _ Hb) as Hr.
    destruct r as [|d r]; cbn [app] in Hr.
    + rewrite (at_head _ _ _ _ Hr). reflexivity.
    + destruct (d =? 46) eqn:Ed; cbn [andb]; [|reflexivity]. rewrite (at_head _ _ _ _ Hr). cbn [obind]. rewrite Ed. cbn [negb].
      replace (s + length (x ++ d :: r))%nat with (S (s + length x) + length r)%nat by (rewrite length_app; cbn; lia).
      rewrite (future_address_run b r _ (S (s + length x)) (93 :: u)); [reflexivity | exact (at_tail _ _ _ _ Hr) | | lia].
      apply txt_app_inv in Hv0 as [_ Hv0]. inversion_clear Hv0. assumption.
Qed.

Lemma bracket_run b s h u : drop s b = h ++ u -> txt h ->
  (let! k := bracket_addr_ok b s (s + length h) in Ret (negb (k =? 0))) = Ret (bracket_syntax h).
Proof.
  intros Hb Hh. unfold bracket_addr_ok, bracket_syntax. destruct h as [|c t].
  { cbn [length]. rewrite Nat.add_0_r. in_range. reflexivity. }
  destruct t as [|d t _] using rev_ind.
  { in_range. cbn. rewrite andb_false_r. reflexivity. }
  rewrite rev_unit. rewrite <- app_comm_cons in Hb. destruct (Nat.ltb_spec (s + length (c :: t ++ [d])) (s + 3)) as [L|L].
  { destruct t; [|cbn in L; rewrite length_app in L; cbn in L; lia]. cbn. rewrite !andb_false_r. reflexivity. }
  rewrite (at_head _ _ _ _ Hb). cbn [obind]. destruct (c =? 91); [|reflexivity]. cbn [negb andb].
  inversion_clear Hh as [|? ? _ Ht]. apply txt_app_inv in Ht as [Ht Hd].
  pose proof (at_tail _ _ _ _ Hb) as Ht1. rewrite <- app_assoc in Ht1. cbn [app] in Ht1.
  assert (El : (s + length (c :: t ++ [d]) = S s + length t + 1)%nat) by (cbn; rewrite length_app; cbn; lia).
  rewrite El. replace (S s + length t + 1 - 1)%nat with (S s + length t)%nat by lia.
  rewrite (at_head _ _ _ _ (at_skip _ _ _ _ Ht1)). cbn [obind]. destruct (Z.eqb_spec d 93) as [->|]; [|reflexivity]. cbn [negb andb].
  rewrite rev_involutive. destruct t as [|e t]; [rewrite El in L; cbn in L; lia|]. rewrite Nat.add_1_r, (at_head _ _ _ _ Ht1). cbn [obind literal_syntax].
  destruct (e =? 118).
  - cbv zeta. inversion_clear Ht as [|? ? _ Hv]. pose proof (at_tail _ _ _ _ Ht1) as Hv1.
    replace (s + 2)%nat with (S (S s)) by lia. replace (S s + length (e :: t))%nat with (S (S s) + length t)%nat by (cbn; lia).
    rewrite (literal_future_run b _ t u Hv1 Hv). destruct (future_syntax t); reflexivity.
  - replace (S s + length (e :: t) + 1 - s - 2)%nat with (length (e :: t)) by lia. rewrite (Nat.ltb_antisym 64 (length (e :: t))).
    destruct (64 <=? length (e :: t))%nat; [reflexivity|]. cbn [negb andb]. rewrite Ht1, take_app_length, (cstr_stop _ [] Ht).
    cbn. destruct (inet_pton6 (e :: t)); reflexivity.
Qed.

Lemma port_scan_run b cp : forall r u, drop cp b = r ++ u -> txt r ->
  port_scan b cp (cp + length r) = Ret (cp + length r - length (fst (span digit (rev r))))%nat.
Proof.
  induction r as [|c r IH] using rev_ind; intros u Hb Hr.
  - cbn [length]. rewrite Nat.add_0_r. cbn. rewrite Nat.sub_0_r. destruct cp; [reflexivity|]. cbn [port_scan].
    destruct (Nat.leb_spec (S cp) cp); [lia | reflexivity].
  - rewrite length_app, rev_unit. cbn [length]. replace (cp + (length r + 1))%nat with (S (cp + length r)) by lia. cbn [port_scan].
    destruct (Nat.leb_spec cp (cp + length r)); [|lia]. rewrite <- app_assoc in Hb. apply txt_app_inv in Hr as [Hr Hc].
    rewrite (at_head _ _ _ _ (at_skip _ _ _ _ Hb)). cbn [obind span]. inversion_clear Hc as [|? ? [Hc' _] _].
    rewrite isdigit_digit by exact Hc'. destruct (digit c); [|cbn; f_equal; lia].
    rewrite (IH _ Hb Hr). destruct (span digit (rev r)). reflexivity.
Qed.

(** The result, or nothing because an allocation failed. *)
Definition alloc_or {A : Type} (r o : option A) : Prop := o = r \/ o = None /\ exists n k, mm_malloc n k = None.

Lemma alloc_or_refl {A : Type} (r : option A) : alloc_or r r.
Proof. left. reflexivity. Qed.

Lemma malloc_fails n k : malloc_ok n k = false -> exists n k, mm_malloc n k = None.
Proof. intros H. exists n, k. unfold malloc_ok in H. destruct (mm_malloc n k); congruence. Qed.

Definition with_host (uri : evhttp_uri) (h : list Z) : evhttp_uri :=
  if stripped (flags uri) h
  then uri <| host := Some (take (length h - 2) (drop 1 h)) |> <| flags := Z.lor (flags uri) EVHTTP_URI_HOST_HAS_BRACKETS |>
  else uri <| host := Some h |>.

Definition with_auth (uri : evhttp_uri) (a : authority) : evhttp_uri :=
  with_host (uri <| userinfo := a_user a |> <| port := port_number (a_port a) |>) (a_host a).

(** A character that ends a host. *)
Definition delim (d : Z) : Prop := In d [0; 35; 47; 58; 63].

Lemma delim_not_hex d : delim d -> is_u8 d /\ hexdig d = false /\ d <> 91.
Proof. intros H. repeat (destruct H as [<-|H]; [split; [rlia | split; [reflexivity | lia]]|]). contradiction. Qed.

Lemma bracket_not_regname c t : c = 91 -> pct_all reg_char (c :: t) = false.
Proof. intros ->. rewrite pct_all_eq by reflexivity. reflexivity. Qed.

(** Which of the two tests of a host the code makes. *)
Lemma host_test b s h d u : drop s b = h ++ d :: u -> txt h -> delim d ->
  exists c last, get8 b s = Ret c /\
    (if (c =? 91) && (s + 2 <=? s + length h)%nat then get8 b (s + length h - 1) else Ret 0) = Ret last /\
    (if last =? 93 then let! k := bracket_addr_ok b s (s + length h) in Ret (negb (k =? 0))
     else regname_ok (s + length h - s) b s (s + length h)) = Ret (host_syntax h) /\
    (c =? 91) = match h with c :: _ => c =? 91 | [] => false end /\ (host_syntax h = true -> (c =? 91) = (last =? 93)).
Proof.
  intros Hb Hh Hd. destruct (delim_not_hex d Hd) as (Du & Dx & Db). unfold host_syntax.
  assert (R : regname_ok (s + length h - s) b s (s + length h) = Ret (pct_all reg_char h))
    by (apply (regname_run b d u Du Dx); [exact Hb | exact Hh | lia]).
  destruct h as [|c t].
  { exists d, 0. rewrite (proj2 (Z.eqb_neq d 91) Db). split; [exact (at_head _ _ _ _ Hb)|]. cbn [andb]. split; [reflexivity|].
    change (0 =? 93) with false. cbn iota. rewrite R. auto. }
  exists c. destruct (Z.eqb_spec c 91) as [Ec|Ec]; cbn [andb].
  - rewrite (bracket_not_regname c t Ec) in *. cbn [orb]. destruct t as [|e t _] using rev_ind.
    + exists 0. split; [exact (at_head _ _ _ _ Hb)|].
      destruct (Nat.leb_spec (s + 2) (s + length [c])); [cbn in *; lia|]. split; [reflexivity|]. change (0 =? 93) with false. cbn iota.
      rewrite R. unfold bracket_syntax. cbn [rev]. rewrite andb_false_r. auto.
    + exists e. split; [exact (at_head _ _ _ _ Hb)|]. rewrite app_comm_cons in *. rewrite length_app. cbn [length].
      destruct (Nat.leb_spec (s + 2) (s + (S (length t) + 1))); [|lia]. pose proof Hb as Hb0. rewrite <- app_assoc in Hb.
      replace (s + (S (length t) + 1) - 1)%nat with (s + length (c :: t))%nat by (cbn; lia).
      split; [exact (at_head _ _ _ _ (at_skip _ _ _ _ Hb))|]. destruct (Z.eqb_spec e 93) as [->|N].
      * split; [|auto]. replace (s + (S (length t) + 1))%nat with (s + length ((c :: t) ++ [93%Z]))%nat by (rewrite length_app; cbn; lia).
        exact (bracket_run b s _ _ Hb0 Hh).
      * rewrite length_app in R. cbn [length] in R. rewrite R.
        assert (Eb : bracket_syntax ((c :: t) ++ [e]) = false).
        { unfold bracket_syntax. cbn [app]. rewrite rev_unit, (proj2 (Z.eqb_neq e 93) N). apply andb_false_r. }
        rewrite Eb. split; [reflexivity|]. split; [reflexivity | discriminate].
  - exists 0. split; [exact (at_head _ _ _ _ Hb)|]. split; [reflexivity|]. change (0 =? 93) with false. cbn iota. rewrite R.
    unfold bracket_syntax. rewrite (proj2 (Z.eqb_neq c 91) Ec), orb_false_r. auto.
Qed.

Lemma authority_host_run b n uri s h d u : drop s b = h ++ d :: u -> txt h -> delim d ->
  exists o, authority_host b n uri s (s + length h) = Ret o /\
    alloc_or (if host_syntax h then Some (with_host uri h) else None) o.
Proof.
  intros Hb Hh Hd. destruct (host_test b s h d u Hb Hh Hd) as (c & last & E1 & E2 & E3 & Ec & El).
  unfold authority_host. destruct (Nat.ltb_spec (s + length h) s); [lia|]. rewrite E1. cbn [obind]. rewrite E2. cbn [obind]. rewrite E3. cbn [obind].
  destruct (host_syntax h); cbn [negb]; [|exists None; split; [reflexivity | left; reflexivity]].
  rewrite <- (El eq_refl). unfold with_host, stripped. rewrite <- Ec.
  match goal with |- context [malloc_ok n ?k] => destruct (malloc_ok n k) eqn:Em end; cbn [negb];
    [|exists None; split; [reflexivity | right; split; [reflexivity | exact (malloc_fails _ _ Em)]]].
  replace (s + length h - s)%nat with (length h) by lia.
  destruct (c =? 91) eqn:E91; cbn [andb]; rewrite ?andb_false_r, ?andb_true_r.
  - destruct (has (flags uri) EVHTTP_URI_HOST_STRIP_BRACKETS); eexists; (split; [reflexivity|]); left; do 2 f_equal.
    + destruct h as [|x h]; [discriminate|]. rewrite (at_tail b s x (h ++ d :: u) Hb). rewrite take_app_le by (cbn; lia). reflexivity.
    + rewrite Hb, take_app_length. reflexivity.
  - eexists. split; [reflexivity|]. left. rewrite Hb, take_app_length. reflexivity.
Qed.

Lemma split_port_eq r : split_port r =
  (let '(x, h) := span digit (rev r) in match h with c :: h' => if c =? 58 then (rev h', Some (rev x)) else (r, None) | [] => (r, None) end).
Proof. reflexivity. Qed.

Lemma forallb_rev (f : Z -> bool) l : forallb f l = true -> forallb f (rev l) = true.
Proof. rewrite !forallb_forall. intros H x Hx. apply H, in_rev, Hx. Qed.

Lemma rev_split r t l : rev r = t ++ l -> r = rev l ++ rev t.
Proof. intros E. rewrite <- rev_app_distr, <- E, rev_involutive. reflexivity. Qed.

(** A host and a port. *)
Lemma authority_colon_run b n uri s h ds d u : drop s b = h ++ 58 :: ds ++ d :: u -> txt h -> txt ds -> delim d ->
  forallb digit ds = true ->
  exists o, (let k := (s + length h + 1)%nat in let eos := (k + length ds)%nat in
             if (k =? eos)%nat then authority_host b n (uri <| port := -1 |>) s (k - 1)
             else let! p := parse_port (eos - k) b k eos 0 in
                  if p <? 0 then Ret None else authority_host b n (uri <| port := p |>) s (k - 1)) = Ret o /\
    alloc_or (if host_syntax h && port_syntax ds then Some (with_host (uri <| port := port_number (Some ds) |>) h) else None) o.
Proof.
  intros Hb Hh Hds Hd Hx. cbv zeta. replace (s + length h + 1 - 1)%nat with (s + length h)%nat by lia.
  assert (D58 : delim 58) by (unfold delim; cbn; auto). pose proof (fun uri => authority_host_run b n uri s h 58 _ Hb Hh D58) as R.
  unfold port_syntax. rewrite Hx. cbn [andb]. pose proof (at_skip b s h _ Hb) as Hc. pose proof (at_tail _ _ _ _ Hc) as Hp.
  destruct ds as [|c ds].
  - cbn [length]. rewrite Nat.add_0_r, Nat.eqb_refl. change (digits_value 0 [] <=? 65535) with true. rewrite andb_true_r. apply R.
  - destruct (Nat.eqb_spec (s + length h + 1) (s + length h + 1 + length (c :: ds))); [cbn in *; lia|].
    replace (s + length h + 1)%nat with (S (s + length h)) by lia.
    rewrite (parse_port_run b (c :: ds) _ _ (d :: u)) by (try exact Hp; try exact Hx; lia). cbn [obind].
    pose proof (digits_value_ge (c :: ds) 0 Hx ltac:(lia)). change (port_number (Some (c :: ds))) with (digits_value 0 (c :: ds)).
    destruct (digits_value 0 (c :: ds) <=? 65535).
    + rewrite andb_true_r. rewrite (proj2 (Z.ltb_ge _ 0)) by lia. apply R.
    + rewrite andb_false_r. exists None. split; [reflexivity | left; reflexivity].
Qed.

Lemma authority_port_run b n uri s r d u : drop s b = r ++ d :: u -> txt r -> delim d -> port uri = -1 ->
  exists o, authority_port b n uri s (s + length r) = Ret o /\
    alloc_or (let '(h, p) := split_port r in
              if host_syntax h && opt_all port_syntax p then Some (with_host (uri <| port := port_number p |>) h) else None) o.
Proof.
  intros Hb Hr Hd Hp. unfold authority_port. rewrite (port_scan_run b s r (d :: u) Hb Hr). cbn [obind]. rewrite split_port_eq.
  destruct (span digit (rev r)) as [x h] eqn:Es. cbn [fst]. pose proof (span_app _ _ _ _ Es) as Ea. pose proof (span_all _ _ _ _ Es) as Hx.
  apply rev_split in Ea.
  assert (Eu : uri <| port := port_number None |> = uri) by (destruct uri; cbn in Hp |- *; subst; reflexivity).
  assert (R : exists o, authority_host b n uri s (s + length r) = Ret o /\
    alloc_or (if host_syntax r && opt_all port_syntax None then Some (with_host (uri <| port := port_number None |>) r) else None) o).
  { rewrite Eu. cbn [opt_all]. rewrite andb_true_r. exact (authority_host_run b n uri s r d u Hb Hr Hd). }
  assert (Lr : length r = (length h + length x)%nat) by (rewrite Ea, length_app, !length_rev; reflexivity).
  replace (s + length r - length x)%nat with (s + length h)%nat by lia.
  destruct h as [|c h].
  - cbn [length]. rewrite Nat.add_0_r, Nat.ltb_irrefl. exact R.
  - in_range. cbn [rev] in Ea. rewrite <- app_assoc in Ea. cbn [app] in Ea. rewrite Ea in Hb. rewrite <- app_assoc in Hb. cbn [app] in Hb.
    replace (s + length (c :: h) - 1)%nat with (s + length (rev h))%nat by (rewrite length_rev; cbn; lia).
    rewrite (at_head _ _ _ _ (at_skip _ _ _ _ Hb)). cbn [obind]. destruct (Z.eqb_spec c 58) as [->|]; [|exact R].
    rewrite Ea in Hr. apply txt_app_inv in Hr as [Hh Hr]. inversion_clear Hr as [|? ? _ Hds].
    destruct (authority_colon_run b n uri s (rev h) (rev x) d u Hb Hh Hds Hd (forallb_rev _ _ Hx)) as (o & Eo & Ho).
    exists o. split; [|exact Ho]. rewrite <- Eo. cbv zeta.
    replace (s + length (58%Z :: h))%nat with (s + length (rev h) + 1)%nat by (rewrite length_rev; cbn; lia).
    replace (s + length r)%nat with (s + length (rev h) + 1 + length (rev x))%nat by (rewrite Lr, !length_rev; cbn; lia).
    replace (s + length (rev h) + 1 - 1)%nat with (s + length (rev h))%nat by lia. reflexivity.
Qed.

Lemma cut_app c l : forall a t, cut c l = Some (a, t) -> l = a ++ c :: t.
Proof.
  induction l as [|y l IH]; cbn; [discriminate|]. intros a t. destruct (Z.eqb_spec y c) as [->|]; [intros [= <- <-]; reflexivity|].
  destruct (cut c l) as [[a' t']|]; [|discriminate]. intros [= <- <-]. cbn. f_equal. apply IH. reflexivity.
Qed.

Lemma chr_from_run c : forall l u i, txt l ->
  chr_from (l ++ 0 :: u) c i = Ret (match cut c l with Some (a, _) => Some (i + length a)%nat | None => if 0 =? c then Some (i + length l)%nat else None end).
Proof.
  induction l as [|y l IH]; intros u i Hl; cbn [chr_from app cut length].
  - rewrite Nat.add_0_r, Z.eqb_refl. destruct (0 =? c); reflexivity.
  - inversion_clear Hl as [|? ? [_ Hy] Hl']. destruct (y =? c); [cbn; rewrite Nat.add_0_r; reflexivity|].
    rewrite (proj2 (Z.eqb_neq y 0) Hy), (IH _ _ Hl'). destruct (cut c l) as [[a t]|]; cbn [mbind option_bind length]; [f_equal; f_equal; lia|].
    destruct (0 =? c); [do 2 f_equal; lia | reflexivity].
Qed.

Lemma cut_app_some c l t : forall x y, cut c l = Some (x, y) -> cut c (l ++ t) = Some (x, y ++ t).
Proof.
  induction l as [|z l IH]; cbn; [discriminate|]. intros x y. destruct (z =? c); [intros [= <- <-]; reflexivity|].
  destruct (cut c l) as [[x' y']|]; [|discriminate]. intros [= <- <-]. rewrite (IH _ _ eq_refl). reflexivity.
Qed.

Lemma cut_app_none c l t : cut c l = None -> cut c (l ++ t) = '(x, y) ← cut c t; Some (l ++ x, y).
Proof.
  induction l as [|z l IH]; cbn; [intros _; destruct (cut c t) as [[]|]; reflexivity|]. destruct (z =? c); [discriminate|].
  destruct (cut c l) as [[x' y']|]; [discriminate|]. intros _. rewrite (IH eq_refl). destruct (cut c t) as [[]|]; reflexivity.
Qed.

(** The first at sign of the authority, or none before its end. *)
Lemma at_sign_run b s a t : drop s b = a ++ t ++ [0] -> txt a -> txt t ->
  exists o, strchr b s 64 = Ret o /\
    match cut 64 a with
    | Some (x, _) => o = Some (s + length x)%nat
    | None => match o with Some k => (s + length a <= k)%nat | None => True end
    end.
Proof.
  intros Hb Ha Ht. unfold strchr. rewrite Hb, app_assoc, chr_from_run by (apply Forall_app; auto).
  eexists. split; [reflexivity|]. destruct (cut 64 a) as [[x y]|] eqn:E.
  - rewrite (cut_app_some _ _ _ _ _ E). reflexivity.
  - rewrite (cut_app_none _ _ _ E). destruct (cut 64 t) as [[x y]|]; cbn; [rewrite length_app; lia | exact Logic.I].
Qed.

Lemma parse_authority_run b n uri s a t : drop s b = a ++ t ++ [0] -> txt a -> txt t ->
  match t with d :: _ => delim d | [] => True end -> port uri = -1 -> userinfo uri = None ->
  exists o b' n', parse_authority b n uri s (s + length a) = Ret (o, b', n') /\
    drop (s + length a) b' = drop (s + length a) b /\
    alloc_or (if auth_syntax (split_auth a) then Some (with_auth uri (split_auth a)) else None) o.
Proof.
  intros Hb Ha Ht Hd Hp Hu. unfold parse_authority. destruct (Nat.eqb_spec (s + length a) s) as [L|L].
  { destruct a; [|cbn in L; lia]. do 3 eexists. split; [reflexivity|]. split; [reflexivity|].
    unfold with_auth, with_host, stripped. cbn. rewrite andb_false_r. destruct (malloc_ok n 1) eqn:Em.
    - left. destruct uri; cbn in *; subst. reflexivity.
    - right. split; [reflexivity | exact (malloc_fails _ _ Em)]. }
  destruct (at_sign_run b s a t Hb Ha Ht) as (o & -> & Ho). cbn [obind].
  assert (exists d u, t ++ [0] = d :: u /\ delim d) as (d & u & Et & Hd').
  { destruct t as [|d t]; [exists 0, []; unfold delim; cbn; auto | exists d, (t ++ [0]); auto]. }
  unfold split_auth. destruct (cut 64 a) as [[x y]|] eqn:Ec.
  - subst o. pose proof (cut_app _ _ _ _ Ec) as ->. apply txt_app_inv in Ha as [Hx Ha]. inversion_clear Ha as [|? ? _ Hy].
    rewrite length_app. cbn [length]. destruct (Nat.ltb_spec (s + length x) (s + (length x + S (length y)))); [|lia].
    rewrite <- app_assoc in Hb. cbn [app] in Hb.
    rewrite (userinfo_run b 64 _ ltac:(rlia) eq_refl _ x s Hb Hx) by lia. cbn [obind].
    unfold auth_syntax. destruct (split_port y) as [h p] eqn:Ep. cbn [a_user opt_all a_host a_port]. destruct (pct_all user_char x); cbn [negb andb].
    2: { do 3 eexists. split; [reflexivity|]. split; [reflexivity|]. left. reflexivity. }
    destruct (at_write b s x 64 _ Hb) as (b' & -> & Hb' & Hk). cbn [obind]. unfold mm_strdup. rewrite Hb', (cstr_stop _ _ Hx). cbn [obind].
    destruct (malloc_ok n (S (length x))) eqn:Em.
    2: { do 3 eexists. split; [reflexivity|]. split; [apply Hk; lia|]. right. split; [reflexivity | exact (malloc_fails _ _ Em)]. }
    rewrite Et in Hb. pose proof (at_tail _ _ _ _ (at_skip _ _ _ _ Hb)) as Hy'. rewrite <- (Hk (S (s + length x)) ltac:(lia)) in Hy'.
    assert (Hp' : port (uri <| userinfo := Some x |>) = -1) by exact Hp.
    destruct (authority_port_run b' (S n) _ (S (s + length x)) y d u Hy' Hy Hd' Hp') as (o & Eo & Ho).
    replace (s + (length x + S (length y)))%nat with (S (s + length x) + length y)%nat by lia. rewrite Eo. cbn [obind].
    do 3 eexists. split; [reflexivity|]. split; [apply Hk; lia|]. rewrite Ep in Ho. exact Ho.
  - rewrite Et in Hb. destruct (authority_port_run b n uri s a d u Hb Ha Hd' Hp) as (o' & Eo & Ho').
    exists o', b, (S n). split; [|split; [reflexivity|]].
    + destruct o as [k|]; [|rewrite Eo; reflexivity]. destruct (Nat.ltb_spec k (s + length a)); [lia|]. rewrite Eo. reflexivity.
    + unfold auth_syntax, with_auth. destruct (split_port a) as [h p]. cbn [a_user opt_all a_host a_port andb].
      replace (uri <| userinfo := None |>) with uri by (destruct uri; cbn in *; subst; reflexivity). exact Ho'.
Qed.

(** ** The whole text *)
Lemma end_of_authority_run : forall l u s, txt l ->
  end_of_authority (l ++ 0 :: u) s = Ret (s + length (fst (span auth_char l)))%nat.
Proof.
  induction l as [|c l IH]; intros u s Hl; [cbn; rewrite Nat.add_0_r; reflexivity|]. inversion_clear Hl as [|? ? [_ Hc] Hl'].
  cbn [end_of_authority app span]. rewrite (proj2 (Z.eqb_neq c 0) Hc). unfold auth_char at 1.
  destruct ((c =? 63) || (c =? 35) || (c =? 47)); cbn [negb]; [cbn; rewrite Nat.add_0_r; reflexivity|].
  rewrite (IH _ _ Hl'). destruct (span auth_char l). cbn. rewrite Nat.add_succ_r. reflexivity.
Qed.

Lemma end_nonconformant_run part : forall l u s, txt l ->
  end_nonconformant part (l ++ 0 :: u) s = Ret (s + length (fst (span (nonconformant_char part) l)))%nat.
Proof.
  induction l as [|c l IH]; intros u s Hl; [cbn; rewrite Nat.add_0_r; reflexivity|]. inversion_clear Hl as [|? ? [_ Hc] Hl'].
  cbn [end_nonconformant app span]. rewrite (proj2 (Z.eqb_neq c 0) Hc).
  assert (R : end_nonconformant part (l ++ 0 :: u) (S s) =
    Ret (s + length (fst (let '(a, t) := span (nonconformant_char part) l in (c :: a, t))))%nat).
  { rewrite (IH _ _ Hl'). destruct (span _ l). cbn. rewrite Nat.add_succ_r. reflexivity. }
  destruct part; cbn [nonconformant_char]; [destruct ((c =? 35) || (c =? 63)) | destruct (c =? 35) | exact R]; cbn [negb];
    try exact R; cbn; rewrite Nat.add_0_r; reflexivity.
Qed.

Lemma part_char_spec part c : char c ->
  part_char part c = (CHAR_IS_UNRESERVED c || in_SUBDELIMS c || (c =? 58) || (c =? 64) || (c =? 47)) || (c =? 63) && is_query part.
Proof. intros H. rewrite path_char_spec by exact H. destruct part; cbn [part_char is_query]; rewrite ?andb_false_r, ?orb_false_r, ?andb_true_r; reflexivity. Qed.

Lemma pct_span_eq ok c r : ok c = false -> pct_span ok (c :: r) =
  match r with
  | x :: y :: r' => if (c =? 37) && (hexdig x && hexdig y) then let '(a, t) := pct_span ok r' in (c :: x :: y :: a, t) else ([], c :: r)
  | _ => ([], c :: r)
  end.
Proof. intros H. cbn. rewrite H. destruct r as [|x [|y r]]; rewrite <- ?andb_assoc; reflexivity. Qed.

Lemma end_conformant_run part b u : forall fuel l s, drop s b = l ++ 0 :: u -> txt l -> (length l <= fuel)%nat ->
  end_conformant fuel part b s = Ret (s + length (fst (pct_span (part_char part) l)))%nat.
Proof.
  induction fuel as [|fuel IH]; intros l s Hb Hl Hf.
  - destruct l; [|cbn in Hf; lia]. cbn [end_conformant]. rewrite (at_head _ _ _ _ Hb). cbn. rewrite Nat.add_0_r. reflexivity.
  - cbn [end_conformant]. destruct l as [|c l]; rewrite (at_head _ _ _ _ Hb); cbn [obind]; [cbn; rewrite Nat.add_0_r; reflexivity|].
    inversion_clear Hl as [|? ? Hc Hl']. pose proof (part_char_spec part c Hc) as Hp. rewrite (proj2 (Z.eqb_neq c 0) (proj2 Hc)).
    assert (R : part_char part c = true -> end_conformant fuel part b (S s) = Ret (s + length (fst (pct_span (part_char part) (c :: l))))%nat).
    { intros E. cbn [pct_span]. rewrite E, (IH l (S s) (at_tail _ _ _ _ Hb) Hl') by (cbn in Hf; lia).
      destruct (pct_span _ l). cbn. rewrite Nat.add_succ_r. reflexivity. }
    destruct (CHAR_IS_UNRESERVED c || in_SUBDELIMS c || (c =? 58) || (c =? 64) || (c =? 47)); [apply R; exact Hp|]. cbn [orb] in Hp.
    destruct (Z.eqb_spec c 37) as [->|N].
    + rewrite (xdigits_run b s 37 l (0 :: u) Hb Hl') by (split; [rlia | reflexivity]). cbn [obind].
      rewrite pct_span_eq by exact Hp. destruct l as [|x [|y l]]; try (cbn; rewrite Nat.add_0_r; reflexivity).
      change (37 =? 37) with true. cbn [andb]. destruct (hexdig x && hexdig y); [|cbn; rewrite Nat.add_0_r; reflexivity].
      rewrite (IH l (s + 3)%nat (at_skip b s [37; x; y] _ Hb)) by (try (cbn in Hf; lia); inversion_clear Hl' as [|? ? _ Hl2]; inversion_clear Hl2; assumption).
      destruct (pct_span _ l). cbn. f_equal. lia.
    + cbn [obind]. destruct ((c =? 63) && is_query part); [apply R; exact Hp|].
      rewrite pct_span_eq by exact Hp. rewrite (proj2 (Z.eqb_neq c 37) N). destruct l as [|x [|y l]]; cbn; rewrite Nat.add_0_r; reflexivity.
Qed.

Lemma end_of_path_run part fl b s l u : drop s b = l ++ 0 :: u -> txt l ->
  end_of_path part fl b s = Ret (s + length (fst (part_span part fl l)))%nat.
Proof.
  intros Hb Hl. unfold end_of_path, part_span. destruct (has fl EVHTTP_URI_NONCONFORMANT).
  - rewrite Hb. apply end_nonconformant_run, Hl.
  - apply (end_conformant_run part b u); [exact Hb | exact Hl |]. pose proof (f_equal length Hb) as L.
    rewrite length_drop, length_app in L. cbn in L. lia.
Qed.

Lemma noscheme_run : forall l u, txt l ->
  path_matches_noscheme (l ++ 0 :: u) = Ret (forallb (fun c => negb (c =? 58)) (first_segment l)).
Proof.
  induction l as [|c l IH]; intros u Hl; [reflexivity|]. inversion_clear Hl as [|? ? [_ Hc] Hl'].
  cbn [path_matches_noscheme app]. rewrite (proj2 (Z.eqb_neq c 0) Hc). unfold first_segment. cbn [span].
  destruct (Z.eqb_spec c 58) as [->|N]; [change (58 =? 47) with false; cbn; destruct (span _ l); reflexivity|].
  destruct (c =? 47); [reflexivity|]. cbn [negb]. rewrite (IH _ Hl'). unfold first_segment. destruct (span _ l). cbn.
  apply Z.eqb_neq in N. rewrite N. reflexivity.
Qed.

Lemma pct_span_app ok : forall k l a r, (length l <= k)%nat -> pct_span ok l = (a, r) -> l = a ++ r.
Proof.
  induction k as [|k IH]; intros l a r Hk; (destruct l as [|c l]; [intros [= <- <-]; reflexivity|]); [cbn in Hk; lia|].
  cbn in Hk. destruct (ok c) eqn:E.
  - cbn. rewrite E. destruct (pct_span ok l) as [a' t] eqn:Es. intros [= <- <-]. cbn. f_equal. apply IH; [lia | exact Es].
  - rewrite pct_span_eq by exact E. destruct l as [|x [|y l]]; try (intros [= <- <-]; reflexivity).
    destruct ((c =? 37) && (hexdig x && hexdig y)); [|intros [= <- <-]; reflexivity].
    destruct (pct_span ok l) as [a' t] eqn:Es. intros [= <- <-]. cbn in *. do 3 f_equal. apply IH; [lia | exact Es].
Qed.

Lemma part_span_app part fl l a r : part_span part fl l = (a, r) -> l = a ++ r.
Proof. unfold part_span. destruct (has _ _); [apply span_app | apply (pct_span_app _ (length l)); lia]. Qed.

(** A component in the buffer and the pointer to it. *)
Definition holds (b : list Z) (o : option (list Z)) (p : option nat) : Prop :=
  match o, p with
  | None, None => True
  | Some q, Some k => txt q /\ exists w, drop k b = q ++ 0 :: w
  | _, _ => False
  end.

Lemma dup_opt_run b o p n : holds b o p ->
  exists q n', dup_opt b p n = Ret (q, n') /\ (q = Some o \/ q = None /\ exists n k, mm_malloc n k = None).
Proof.
  destruct o as [q|], p as [k|]; cbn; try contradiction; [intros [Hq [w Hw]] | eauto].
  unfold mm_strdup. rewrite Hw, (cstr_stop _ _ Hq). cbn [obind].
  destruct (malloc_ok n (S (length q))) eqn:Em; do 2 eexists; (split; [reflexivity|]); [left; reflexivity | right].
  split; [reflexivity | exact (malloc_fails _ _ Em)].
Qed.

Definition with_parts (uri : evhttp_uri) (p : parts) : evhttp_uri :=
  uri <| path := Some (p_path p) |> <| query := p_query p |> <| fragment := p_fragment p |>.

Definition is_auth (au : option authority) : bool := match au with Some _ => true | None => false end.

Lemma path_start_run b s pa w p : drop s b = pa ++ 0 :: w -> txt pa -> p_path p = pa ->
  exists p0, get8 b s = Ret p0 /\
    exists bad, (if negb (is_auth (p_auth p)) && (p0 =? 47) then let! p1 := get8 b (s + 1) in Ret (p1 =? 47) else Ret false) = Ret bad /\
    path_start p = negb bad && negb (is_auth (p_auth p) && negb (p0 =? 47) && negb (p0 =? 0)).
Proof.
  intros Hb Hpa Ep. unfold path_start. rewrite Ep. destruct pa as [|c pa].
  - exists 0. split; [exact (at_head _ _ _ _ Hb)|]. exists false. rewrite andb_false_r. split; [reflexivity|].
    rewrite andb_false_r. destruct (p_auth p); reflexivity.
  - exists c. split; [exact (at_head _ _ _ _ Hb)|]. inversion_clear Hpa as [|? ? [_ Hc] Hpa']. apply Z.eqb_neq in Hc. rewrite Hc.
    destruct (p_auth p); cbn [is_auth negb andb].
    + exists false. split; [reflexivity|]. destruct (c =? 47); reflexivity.
    + destruct (c =? 47); cbn [andb]; [|exists false; split; [reflexivity|]; destruct pa; reflexivity].
      destruct pa as [|d pa]; rewrite (at_tail2 _ _ _ _ _ Hb); cbn [obind]; eexists; (split; [reflexivity|]); [reflexivity|].
      rewrite andb_true_r. reflexivity.
Qed.

Lemma uri_finish_run b n uri s w qp fp p : drop s b = p_path p ++ 0 :: w -> txt (p_path p) ->
  holds b (p_query p) qp -> holds b (p_fragment p) fp -> p_scheme p = scheme uri ->
  exists o, uri_finish b n uri (is_auth (p_auth p)) s qp fp = Ret o /\
    alloc_or (if path_start p && relative_ok p then Some (with_parts uri p) else None) o.
Proof.
  intros Hb Hpa Hq Hf Hs. unfold uri_finish.
  destruct (path_start_run b s _ w p Hb Hpa eq_refl) as (p0 & -> & bad & Eb & ->). cbn [obind]. rewrite Eb. cbn [obind].
  destruct bad; [exists None; split; [reflexivity | left; reflexivity]|]. cbn [negb andb].
  destruct (is_auth (p_auth p) && negb (p0 =? 47) && negb (p0 =? 0)); [exists None; split; [reflexivity | left; reflexivity]|]. cbn [negb andb].
  assert (En : match scheme uri with None => path_matches_noscheme (drop s b) | Some _ => Ret true end = Ret (relative_ok p)).
  { unfold relative_ok. rewrite Hs. destruct (scheme uri); [reflexivity|]. rewrite Hb. apply noscheme_run, Hpa. }
  rewrite En. cbn [obind]. destruct (relative_ok p); cbn [negb]; [|exists None; split; [reflexivity | left; reflexivity]].
  unfold mm_strdup. rewrite Hb, (cstr_stop _ _ Hpa). cbn [obind].
  destruct (malloc_ok n (S (length (p_path p)))) eqn:Em; [|exists None; split; [reflexivity | right; split; [reflexivity | exact (malloc_fails _ _ Em)]]].
  destruct (dup_opt_run b _ qp (S n) Hq) as (q & n1 & -> & [->|[-> Eq]]); cbn [obind]; [|exists None; split; [reflexivity | right; auto]].
  destruct (dup_opt_run b _ fp n1 Hf) as (f & n2 & -> & [->|[-> Ef]]); cbn [obind]; [|exists None; split; [reflexivity | right; auto]].
  eexists. split; [reflexivity | left; reflexivity].
Qed.

(** One optional component: the byte that starts it becomes the terminator of what
    comes before it. *)
Lemma cut_component part fl c b s pa l : c <> 0 -> drop s b = pa ++ l ++ [0] -> txt l ->
  let '(o, r) := split_opt c part fl l in
  exists x b' p k, get8 b (s + length pa) = Ret x /\
    (if x =? c then let! b := put8 b (s + length pa) 0 in
                    let! e := end_of_path part fl b (S (s + length pa)) in Ret (b, Some (S (s + length pa)), e)
     else Ret (b, None, (s + length pa)%nat)) = Ret (b', p, k) /\
    exists m, drop s b' = pa ++ m ++ r ++ [0] /\ k = (s + length pa + length m)%nat /\ txt r /\
      match o with
      | None => m = [] /\ p = None
      | Some q => m = 0 :: q /\ p = Some (S (s + length pa)) /\ txt q
      end.
Proof.
  intros Hc Hb Hl. unfold split_opt. pose proof (at_skip b s pa _ Hb) as Hk. destruct l as [|x l].
  - exists 0, b, None, (s + length pa)%nat. split; [exact (at_head _ _ _ _ Hk)|]. rewrite (proj2 (Z.eqb_neq 0 c)) by lia. split; [reflexivity|].
    exists []. cbn. rewrite Nat.add_0_r. auto.
  - destruct (Z.eqb_spec x c) as [->|N].
    + destruct (at_write b s pa c (l ++ [0]) Hb) as (b' & Ew & Hb' & Hkeep). destruct (part_span part fl l) as [q r] eqn:Es.
      inversion_clear Hl as [|? ? _ Hl']. pose proof (part_span_app _ _ _ _ _ Es) as El.
      exists c, b', (Some (S (s + length pa))), (S (s + length pa) + length q)%nat. split; [exact (at_head _ _ _ _ Hk)|].
      rewrite Z.eqb_refl, Ew. cbn [obind].
      rewrite (end_of_path_run part fl b' (S (s + length pa)) l []), Es; [|rewrite Hkeep by lia; exact (at_tail _ _ _ _ Hk) | exact Hl'].
      split; [reflexivity|]. exists (0 :: q). rewrite El in Hl'. apply txt_app_inv in Hl' as [Hq Hr].
      split; [rewrite Hb', El, <- app_assoc; reflexivity|]. cbn. split; [lia | auto].
    + exists x, b, None, (s + length pa)%nat. split; [exact (at_head _ _ _ _ Hk)|]. rewrite (proj2 (Z.eqb_neq x c) N). split; [reflexivity|].
      exists []. cbn. rewrite Nat.add_0_r. auto.
Qed.

Lemma starts_with_terminator (m : list Z) r : (m = [] \/ exists q, m = 0 :: q) -> (exists w, r = 0 :: w) -> exists w, m ++ r = 0 :: w.
Proof. intros [->|[q ->]] [w ->]; [exists w | exists (q ++ 0 :: w)]; reflexivity. Qed.

Lemma uri_tail_run b n uri au fl s l : drop s b = l ++ [0] -> txt l ->
  exists o, uri_tail b n uri (is_auth au) fl s = Ret o /\ alloc_or (p ← split_tail fl (scheme uri) au l; Some (with_parts uri p)) o.
Proof.
  intros Hb Hl. unfold uri_tail, split_tail. rewrite (end_of_path_run PART_PATH fl b s l [] Hb Hl). cbn [obind].
  destruct (part_span PART_PATH fl l) as [pa r] eqn:E0. cbn [fst]. pose proof (part_span_app _ _ _ _ _ E0) as ->.
  apply txt_app_inv in Hl as [Hpa Hr]. rewrite <- app_assoc in Hb.
  pose proof (cut_component PART_QUERY fl 63 b s pa r ltac:(lia) Hb Hr) as C1.
  destruct (split_opt 63 PART_QUERY fl r) as [qu r1]. destruct C1 as (x1 & b1 & qp & k1 & -> & E1 & m1 & Hb1 & -> & Hr1 & Hq).
  cbn [obind]. rewrite E1. cbn [obind]. rewrite app_assoc in Hb1. rewrite <- Nat.add_assoc, <- length_app.
  pose proof (cut_component PART_FRAGMENT fl 35 b1 s (pa ++ m1) r1 ltac:(lia) Hb1 Hr1) as C2.
  destruct (split_opt 35 PART_FRAGMENT fl r1) as [fr r2]. destruct C2 as (x2 & b2 & fp & k2 & -> & E2 & m2 & Hb2 & -> & Hr2 & Hf).
  cbn [obind]. rewrite E2. cbn [obind]. rewrite app_assoc in Hb2. rewrite <- Nat.add_assoc, <- length_app.
  pose proof (at_skip _ _ _ _ Hb2) as Hend. destruct r2 as [|c r2]; rewrite (at_head _ _ _ _ Hend); cbn [obind].
  2: { inversion_clear Hr2 as [|? ? [_ Hc] _]. rewrite (proj2 (Z.eqb_neq c 0) Hc). exists None. split; [reflexivity | left; reflexivity]. }
  change (0 =? 0) with true. cbn [negb]. set (p := mkParts (scheme uri) au pa qu fr).
  assert (M1 : m1 = [] \/ exists q, m1 = 0 :: q) by (destruct qu; destruct Hq as [-> _]; eauto).
  assert (M2 : m2 = [] \/ exists q, m2 = 0 :: q) by (destruct fr; destruct Hf as [-> _]; eauto).
  rewrite <- !app_assoc in Hb2. cbn [app] in Hb2.
  destruct (starts_with_terminator m2 [0] M2 ltac:(eauto)) as [w2 W2].
  destruct (starts_with_terminator m1 (0 :: w2) M1 ltac:(eauto)) as [w1 W1].
  assert (Hq' : holds b2 (p_query p) qp).
  { destruct qu as [q|]; destruct Hq as [-> Hq]; [destruct Hq as [-> Hq]|subst; exact Logic.I]. cbn. split; [exact Hq|].
    exists w2. rewrite <- W2. exact (at_tail _ _ _ _ (at_skip b2 s pa _ Hb2)). }
  assert (Hf' : holds b2 (p_fragment p) fp).
  { destruct fr as [q|]; destruct Hf as [-> Hf]; [destruct Hf as [-> Hf]|subst; exact Logic.I]. cbn. split; [exact Hf|].
    exists []. rewrite app_assoc in Hb2. exact (at_tail _ _ _ _ (at_skip b2 s (pa ++ m1) _ Hb2)). }
  rewrite W2, W1 in Hb2. change (is_auth au) with (is_auth (p_auth p)).
  destruct (uri_finish_run b2 n uri s w1 qp fp p Hb2 Hpa Hq' Hf' eq_refl) as (o & -> & Ho).
  exists o. split; [reflexivity|]. destruct (path_start p && relative_ok p); exact Ho.
Qed.

Lemma span_auth_rest l a r : span auth_char l = (a, r) -> match r with d :: _ => delim d | [] => True end.
Proof.
  intros E. destruct r as [|d r]; [exact Logic.I|]. pose proof (span_stop _ _ _ _ _ E) as H. unfold auth_char in H.
  unfold delim. cbn. destruct (Z.eqb_spec d 63); [auto 7|]. destruct (Z.eqb_spec d 35); [auto|]. destruct (Z.eqb_spec d 47); [auto|discriminate].
Qed.

Lemma with_auth_fields uri (a : authority) : scheme (with_auth uri a) = scheme uri.
Proof. unfold with_auth, with_host. destruct (stripped _ _); reflexivity. Qed.

Lemma uri_hier_run b n uri s l : drop s b = l ++ [0] -> txt l -> port uri = -1 -> userinfo uri = None ->
  exists o, uri_hier b n uri s = Ret o /\
    alloc_or (let '(au, r) := split_slashes l in
              match au with
              | Some a => if auth_syntax a then p ← split_tail (flags uri) (scheme uri) au r; Some (with_parts (with_auth uri a) p) else None
              | None => p ← split_tail (flags uri) (scheme uri) None r; Some (with_parts uri p)
              end) o.
Proof.
  intros Hb Hl Hp Hu. unfold uri_hier, split_slashes. pose proof (uri_tail_run b n uri None (flags uri) s l Hb Hl) as T.
  destruct l as [|c l]; rewrite (at_head _ _ _ _ Hb); cbn [obind]; [exact T|].
  destruct (c =? 47); cbn [obind andb]; [|destruct l; exact T].
  destruct l as [|d l]; rewrite (at_tail2 _ _ _ _ _ Hb); cbn [obind]; [exact T|]. destruct (d =? 47); [|exact T].
  pose proof (at_skip b s [c; d] (l ++ [0]) Hb) as Ha. cbn [length] in Ha. rewrite Ha.
  inversion_clear Hl as [|? ? _ Hl1]. inversion_clear Hl1 as [|? ? _ Hl2]. rewrite (end_of_authority_run l [] _ Hl2). cbn [obind].
  destruct (span auth_char l) as [a r] eqn:Es. cbn [fst]. pose proof (span_auth_rest _ _ _ Es) as Hd. apply span_app in Es as ->.
  rewrite <- app_assoc in Ha. apply txt_app_inv in Hl2 as [Hla Hlr].
  destruct (parse_authority_run b n uri (s + 2) a r Ha Hla Hlr Hd Hp Hu) as (o & b' & n' & -> & Hk & Ho). cbn [obind].
  rewrite (at_skip _ _ _ _ Ha) in Hk. destruct (auth_syntax (split_auth a)).
  2: { destruct Ho as [->|[-> _]]; exists None; split; [reflexivity | left; reflexivity | reflexivity | left; reflexivity]. }
  destruct Ho as [->|[-> Hm]]; [|exists None; split; [reflexivity | right; auto]].
  destruct (uri_tail_run b' n' (with_auth uri (split_auth a)) (Some (split_auth a)) (flags uri) _ r Hk Hlr) as (o & E & Ho).
  exists o. split; [exact E|]. rewrite with_auth_fields in Ho. exact Ho.
Qed.

Lemma split_tail_parts fl sc au r p : split_tail fl sc au r = Some p -> p_scheme p = sc /\ p_auth p = au.
Proof.
  unfold split_tail. destruct (part_span _ _ _) as [pa r0]. destruct (split_opt 63 _ _ _) as [qu r1]. destruct (split_opt 35 _ _ _) as [fr r2].
  destruct r2; [|discriminate]. destruct (_ && _); [|discriminate]. intros [= <-]. auto.
Qed.

(** The parser returns the parts of every text, unless it runs out of memory. *)
Lemma uri_parse_run src u fl : txt src ->
  exists o, evhttp_uri_parse_with_flags (src ++ 0 :: u) fl = Ret o /\ alloc_or (p ← split_uri fl src; Some (uri_of fl p)) o.
Proof.
  intros Hs. unfold evhttp_uri_parse_with_flags.
  destruct (malloc_ok 0 32) eqn:E0; cbn [negb]; [|exists None; split; [reflexivity | right; split; [reflexivity | exact (malloc_fails _ _ E0)]]].
  unfold mm_strdup at 1. change (drop 0 (src ++ 0 :: u)) with (src ++ 0 :: u). rewrite (cstr_stop _ _ Hs). cbn [obind].
  destruct (malloc_ok 1 (S (length src))) eqn:E1; [|exists None; split; [reflexivity | right; split; [reflexivity | exact (malloc_fails _ _ E1)]]].
  set (uri0 := mkUri fl None None None (-1) None None None). cbv zeta. unfold strchr. change (drop 0 (src ++ [0])) with (src ++ [0]).
  rewrite (chr_from_run 58 src [] 0 Hs). change (0 =? 58) with false. cbn iota. cbn [obind Nat.add].
  assert (F : forall uri l, scheme uri = fst (split_scheme src) -> flags uri = fl -> port uri = -1 -> userinfo uri = None ->
     uri = uri0 <| scheme := scheme uri |> -> l = snd (split_scheme src) ->
     (let '(au, r) := split_slashes l in
      match au with
      | Some a => if auth_syntax a then p ← split_tail (flags uri) (scheme uri) au r; Some (with_parts (with_auth uri a) p) else None
      | None => p ← split_tail (flags uri) (scheme uri) None r; Some (with_parts uri p)
      end) = p ← split_uri fl src; Some (uri_of fl p)).
  { intros uri l H1 H2 H3 H4 H5 ->. unfold split_uri. destruct (split_scheme src) as [sc r]. cbn [fst snd] in *.
    destruct (split_slashes r) as [[a|] r']; rewrite H2, H1 in *; [destruct (auth_syntax a); [|reflexivity]|];
    destruct (split_tail _ _ _ _) as [p|] eqn:Et; try reflexivity; apply split_tail_parts in Et as [Ep Ea];
    cbn [mbind option_bind]; unfold uri_of; rewrite Ep, Ea; f_equal.
    - unfold with_parts, with_auth, with_host. rewrite H5. cbn. destruct (stripped fl (a_host a)); reflexivity.
    - rewrite H5. reflexivity. }
  unfold split_scheme in F. destruct (cut 58 src) as [[a t]|] eqn:Ec.
  - pose proof (cut_app _ _ _ _ Ec) as ->. pose proof Hs as Hs0. apply txt_app_inv in Hs0 as [Ha Ht]. inversion_clear Ht as [|? ? _ Ht'].
    rewrite <- app_assoc. cbn [app].
    pose proof (scheme_ok_run (a ++ 58 :: t ++ [0]) 0 a (58 :: t ++ [0]) eq_refl Ha) as Es. cbn [Nat.add] in Es. rewrite Es. cbn [obind].
    destruct (scheme_syntax a); cbn [fst snd] in F.
    + destruct (at_write (a ++ 58 :: t ++ [0]) 0 a 58 (t ++ [0]) eq_refl) as (b & Eb & Hb & Hk). cbn [Nat.add] in *. rewrite Eb. cbn [obind].
      unfold mm_strdup. rewrite Hb, (cstr_stop _ _ Ha). cbn [obind].
      destruct (malloc_ok 2 (S (length a))) eqn:E2; [|exists None; split; [reflexivity | right; split; [reflexivity | exact (malloc_fails _ _ E2)]]].
      assert (Ht : drop (S (length a)) b = t ++ [0]).
      { rewrite Hk by lia. exact (at_tail _ _ _ _ (at_skip (a ++ 58 :: t ++ [0]) 0 a (58 :: t ++ [0]) eq_refl)). }
      pose (uri1 := uri0 <| scheme := Some a |>).
      destruct (uri_hier_run b 3 uri1 (S (length a)) t Ht Ht' eq_refl eq_refl) as (o & Eo & Ho).
      exists o. split; [exact Eo|]. rewrite F in Ho by reflexivity. exact Ho.
    + destruct (uri_hier_run (a ++ 58 :: t ++ [0]) 2 uri0 0 (a ++ 58 :: t) ltac:(cbn; rewrite <- app_assoc; reflexivity) Hs eq_refl eq_refl) as (o & Eo & Ho).
      exists o. split; [exact Eo|]. rewrite F in Ho by reflexivity. exact Ho.
  - cbn [obind]. destruct (uri_hier_run (src ++ [0]) 2 uri0 0 src eq_refl Hs eq_refl eq_refl) as (o & Eo & Ho).
    exists o. split; [exact Eo|]. rewrite F in Ho by reflexivity. exact Ho.
Qed.

End Run.
