(* ===== verification/HttpGrammar.v ===== *)
(** * URIs: what [evhttp_uri_parse] accepts is the grammar

    The parser on lists finds parts exactly when the text is the text of parts with
    the right syntax, and then these; that syntax against the grammar of RFC 3986,
    with libevent's departures from it; and percent encoding, with its inverse. *)

From Stdlib Require Import Btauto.
From S2P Require Import Prelude HttpUri HttpUriRef HttpUriRun.

Local Open Scope Z_scope.

(** An IPv6 address consists of 2 to 45 hexadecimal digits, colons and points. *)
Class InetPtonChars (I : InetPton) : Prop := {
  inet_pton6_chars : forall s, inet_pton6 s = true -> forallb (fun c => hexdig c || one_of [46; 58] c) s = true;
  inet_pton6_length : forall s, inet_pton6 s = true -> (2 <= length s < 46)%nat }.

(** ** RFC 3986

    The grammar of the RFC with its own rule for hosts ([IP-literal] in brackets,
    or [reg-name], which covers [IPv4address]) as a parameter; an IPv6 address is
    what [inet_pton] accepts. *)
Section Rfc.
Context `{I : InetPton}.

(** [IPvFuture = "v" 1*HEXDIG "." 1*( unreserved / sub-delims / ":" )], the letter
    in either case. *)
Definition rfc_future (body : list Z) : bool :=
  match body with
  | c :: v =>
      ((c =? 118) || (c =? 86)) &&
      let '(x, r) := span hexdig v in
      negb (bool_decide (x = [])) &&
      match r with d :: a => (d =? 46) && negb (bool_decide (a = [])) && forallb user_char a | [] => false end
  | [] => false
  end.

Definition bracketed (ok : list Z -> bool) (h : list Z) : bool :=
  match h with
  | c :: t => (c =? 91) && match rev t with d :: t' => (d =? 93) && ok (rev t') | [] => false end
  | [] => false
  end.

Definition rfc_host (h : list Z) : bool := pct_all reg_char h || bracketed (fun b => inet_pton6 b || rfc_future b) h.

(** The texts of the RFC, given a rule for hosts. *)
Definition syntax_with (host : list Z -> bool) (p : parts) : bool :=
  opt_all scheme_syntax (p_scheme p) &&
  match p_auth p with
  | Some a => opt_all (pct_all user_char) (a_user a) && host (a_host a) && opt_all (forallb digit) (a_port a)
  | None => true
  end &&
  pct_all path_char (p_path p) && opt_all (pct_all query_char) (p_query p) &&
  opt_all (pct_all query_char) (p_fragment p) && path_start p && relative_ok p.

Definition rfc_syntax : parts -> bool := syntax_with rfc_host.

(** Where libevent departs from it: an IPvFuture with a capital V is refused, one
    that is empty behind its point is accepted, and the port must fit 16 bits. *)
Definition capital_future : list Z -> bool := bracketed (fun b => match b with c :: _ => c =? 86 | [] => false end).
Definition empty_future : list Z -> bool :=
  bracketed (fun b => match b with
    | c :: v => (c =? 118) && let '(x, r) := span hexdig v in negb (bool_decide (x = [])) && bool_decide (r = [46])
    | [] => false end).
Definition port_fits (p : parts) : bool :=
  match p_auth p with Some a => opt_all (fun d => digits_value 0 d <=? 65535) (a_port a) | None => true end.

Definition libevent_syntax (p : parts) : bool :=
  syntax_with (fun h => rfc_host h && negb (capital_future h) || empty_future h) p && port_fits p.
End Rfc.

(** ** Texts of a class *)
Lemma pct_all_in ok d : ok d = false -> d <> 37 -> hexdig d = false -> forall k l, (length l <= k)%nat -> pct_all ok l = true -> ~ In d l.
Proof.
  intros H1 H2 H3. induction k as [|k IH]; intros l Hk Hl Hin; (destruct l as [|c l]; [contradiction|]); cbn in Hk; [lia|].
  destruct (ok c) eqn:E.
  - cbn in Hl. rewrite E in Hl. destruct Hin as [->|Hin]; [congruence | exact (IH l ltac:(lia) Hl Hin)].
  - rewrite pct_all_eq in Hl by exact E. destruct l as [|x [|y l]]; try (rewrite andb_false_r in Hl; discriminate).
    apply andb_prop in Hl as [Hc Hl]. apply andb_prop in Hl as [Hx Hl]. apply andb_prop in Hx as [Hx Hy].
    destruct Hin as [->|[->|[->|Hin]]]; [lia | congruence | congruence | exact (IH l ltac:(cbn in Hk; lia) Hl Hin)].
Qed.

Lemma pct_all_no ok d l : pct_all ok l = true -> ok d = false -> d <> 37 -> hexdig d = false -> ~ In d l.
Proof. intros Hl H1 H2 H3. exact (pct_all_in ok d H1 H2 H3 (length l) l (le_n _) Hl). Qed.

Lemma forallb_no (f : Z -> bool) d l : forallb f l = true -> f d = false -> ~ In d l.
Proof. rewrite forallb_forall. intros H Hd Hin. rewrite (H d Hin) in Hd. discriminate. Qed.

(** Where a span stops. *)
Definition stops (ok : Z -> bool) (r : list Z) : Prop := match r with [] => True | c :: _ => ok c = false end.

Lemma span_complete (f : Z -> bool) l r : forallb f l = true -> stops f r -> span f (l ++ r) = (l, r).
Proof.
  intros Hl Hr. induction l as [|c l IH]; cbn.
  - destruct r as [|c r]; [reflexivity|]. cbn in Hr |- *. rewrite Hr. reflexivity.
  - cbn in Hl. apply andb_prop in Hl as [Hc Hl]. rewrite Hc, (IH Hl). reflexivity.
Qed.

Lemma pct_span_complete ok r : stops (fun c => ok c || (c =? 37)) r ->
  forall k l, (length l <= k)%nat -> pct_all ok l = true -> pct_span ok (l ++ r) = (l, r).
Proof.
  intros Hr. assert (Hnil : pct_span ok r = ([], r)).
  { destruct r as [|c r]; [reflexivity|]. cbn in Hr. apply orb_false_elim in Hr as [H1 H2]. rewrite pct_span_eq by exact H1.
    rewrite H2. destruct r as [|x [|y r]]; reflexivity. }
  induction k as [|k IH]; intros l Hk Hl; (destruct l as [|c l]; [exact Hnil|]); cbn in Hk; [lia|]. destruct (ok c) eqn:E.
  - cbn in Hl |- *. rewrite E in Hl |- *. rewrite (IH l ltac:(lia) Hl). reflexivity.
  - rewrite pct_all_eq in Hl by exact E. destruct l as [|x [|y l]]; try (rewrite andb_false_r in Hl; discriminate).
    apply andb_prop in Hl as [Hc Hl]. apply andb_prop in Hl as [Hx Hl]. cbn [app]. rewrite pct_span_eq by exact E.
    rewrite Hc, Hx. cbn [andb]. rewrite (IH l) by (try exact Hl; cbn in Hk; lia). reflexivity.
Qed.

Lemma pct_span_all ok : forall k l a r, (length l <= k)%nat -> pct_span ok l = (a, r) -> pct_all ok a = true.
Proof.
  induction k as [|k IH]; intros l a r Hk; (destruct l as [|c l]; [intros [= <- <-]; reflexivity|]); [cbn in Hk; lia|].
  cbn in Hk. destruct (ok c) eqn:E.
  - cbn. rewrite E. destruct (pct_span ok l) as [a' t] eqn:Es. intros [= <- <-]. cbn. rewrite E. apply (IH l a' t); [lia | exact Es].
  - rewrite pct_span_eq by exact E. destruct l as [|x [|y l]]; try (intros [= <- <-]; reflexivity).
    destruct ((c =? 37) && (hexdig x && hexdig y)) eqn:Ex; [|intros [= <- <-]; reflexivity].
    destruct (pct_span ok l) as [a' t] eqn:Es. intros [= <- <-]. rewrite pct_all_eq by exact E.
    apply andb_prop in Ex as [-> Ex]. rewrite Ex. cbn. apply (IH l a' t); [cbn in Hk; lia | exact Es].
Qed.

Lemma cut_complete c l r : ~ In c l -> cut c (l ++ c :: r) = Some (l, r).
Proof.
  induction l as [|x l IH]; cbn; intros H; [rewrite Z.eqb_refl; reflexivity|].
  rewrite (proj2 (Z.eqb_neq x c)) by (intros ->; apply H; auto). rewrite IH by tauto. reflexivity.
Qed.

Lemma cut_none c l : ~ In c l -> cut c l = None.
Proof.
  induction l as [|x l IH]; cbn; intros H; [reflexivity|].
  rewrite (proj2 (Z.eqb_neq x c)) by (intros ->; apply H; auto). rewrite IH by tauto. reflexivity.
Qed.

Lemma split_opt_text c part fl l o r : split_opt c part fl l = (o, r) -> l = pre c o ++ r.
Proof.
  unfold split_opt. destruct l as [|x t]; [intros [= <- <-]; reflexivity|]. destruct (Z.eqb_spec x c) as [->|]; [|intros [= <- <-]; reflexivity].
  destruct (part_span part fl t) as [a r0] eqn:E. intros [= <- <-]. cbn. f_equal. exact (part_span_app _ _ _ _ _ E).
Qed.

Lemma part_span_0 part l : part_span part 0 l = pct_span (part_char part) l.
Proof. reflexivity. Qed.

Lemma split_opt_all c part l o r : split_opt c part 0 l = (o, r) -> opt_all (pct_all (part_char part)) o = true.
Proof.
  unfold split_opt. destruct l as [|x t]; [intros [= <- <-]; reflexivity|]. destruct (x =? c); [|intros [= <- <-]; reflexivity].
  rewrite part_span_0. destruct (pct_span _ t) as [a r0] eqn:E. intros [= <- <-]. exact (pct_span_all _ _ _ _ _ (le_n _) E).
Qed.

Lemma split_opt_complete c part o r : opt_all (pct_all (part_char part)) o = true ->
  stops (fun x => part_char part x || (x =? 37)) r -> match o with None => stops (Z.eqb c) r | Some _ => True end ->
  split_opt c part 0 (pre c o ++ r) = (o, r).
Proof.
  destruct o as [q|]; cbn [opt_all pre app]; intros Hq Hr Hc; unfold split_opt.
  - rewrite Z.eqb_refl, part_span_0, (pct_span_complete _ _ Hr (length q) q (le_n _) Hq). reflexivity.
  - destruct r as [|x r]; [reflexivity|]. cbn in Hc. rewrite Z.eqb_sym, Hc. reflexivity.
Qed.

Section Grammar.
Context `{I : InetPton} `{C : !InetPtonChars I}.

(** ** What is found is in the text *)
Lemma split_auth_text l : auth_text (split_auth l) = l.
Proof.
  unfold split_auth. assert (P : forall r, let '(h, p) := split_port r in h ++ pre 58 p = r).
  { intros r. unfold split_port. destruct (span digit (rev r)) as [x h] eqn:E. apply span_app, rev_split in E.
    destruct h as [|c h]; [apply app_nil_r|]. destruct (Z.eqb_spec c 58) as [->|]; [|apply app_nil_r].
    cbn in E |- *. rewrite E, <- app_assoc. reflexivity. }
  destruct (cut 64 l) as [[u r]|] eqn:Ec; specialize (P (match cut 64 l with Some (_, r) => r | None => l end)); rewrite Ec in P;
    destruct (split_port _) as [h p]; unfold auth_text; cbn [a_user a_host a_port post app].
  - apply cut_app in Ec as ->. rewrite P, <- app_assoc. reflexivity.
  - exact P.
Qed.

Lemma split_scheme_text s sc r : split_scheme s = (sc, r) -> s = post 58 sc ++ r /\ opt_all scheme_syntax sc = true.
Proof.
  unfold split_scheme. destruct (cut 58 s) as [[a t]|] eqn:E; [|intros [= <- <-]; auto].
  destruct (scheme_syntax a) eqn:Ea; intros [= <- <-]; [|auto]. apply cut_app in E as ->. cbn. rewrite <- app_assoc. auto.
Qed.

Lemma split_slashes_text r au r' : split_slashes r = (au, r') -> r = slashes_text au ++ r'.
Proof.
  unfold split_slashes. destruct r as [|c [|d t]]; try (intros [= <- <-]; reflexivity).
  destruct (Z.eqb_spec c 47) as [->|]; cbn [andb]; [|intros [= <- <-]; reflexivity].
  destruct (Z.eqb_spec d 47) as [->|]; [|intros [= <- <-]; reflexivity].
  destruct (span auth_char t) as [a q] eqn:E. intros [= <- <-]. cbn. rewrite split_auth_text. do 2 f_equal. exact (span_app _ _ _ _ E).
Qed.

Lemma split_tail_sound sc au r p : split_tail 0 sc au r = Some p ->
  p_scheme p = sc /\ p_auth p = au /\ r = p_path p ++ pre 63 (p_query p) ++ pre 35 (p_fragment p) /\
  pct_all path_char (p_path p) && opt_all (pct_all query_char) (p_query p) &&
  opt_all (pct_all query_char) (p_fragment p) && path_start p && relative_ok p = true.
Proof.
  unfold split_tail. rewrite part_span_0. destruct (pct_span _ r) as [pa r0] eqn:E0. destruct (split_opt 63 _ _ _) as [qu r1] eqn:E1.
  destruct (split_opt 35 _ _ _) as [fr r2] eqn:E2. destruct r2; [|discriminate].
  destruct (path_start _ && relative_ok _) eqn:Ep; [|discriminate]. intros [= <-]. cbn [p_scheme p_auth p_path p_query p_fragment].
  split_and!; try reflexivity.
  - rewrite (pct_span_app _ _ _ _ _ (le_n _) E0), (split_opt_text _ _ _ _ _ _ E1), (split_opt_text _ _ _ _ _ _ E2), app_nil_r. reflexivity.
  - rewrite <- !andb_assoc, Ep, !andb_true_r. pose proof (pct_span_all _ _ _ _ _ (le_n _) E0) as H0. cbn [part_char] in H0. rewrite H0.
    pose proof (split_opt_all _ _ _ _ _ E1) as H1. pose proof (split_opt_all _ _ _ _ _ E2) as H2. cbn [part_char] in H1, H2.
    rewrite H1, H2. reflexivity.
Qed.

Lemma split_uri_sound s p : split_uri 0 s = Some p -> parts_text p = s /\ parts_syntax p = true.
Proof.
  unfold split_uri. destruct (split_scheme s) as [sc r] eqn:E1. destruct (split_slashes r) as [au r'] eqn:E2.
  apply split_scheme_text in E1 as [-> Hs]. apply split_slashes_text in E2 as ->. unfold parts_text, parts_syntax.
  destruct au as [a|]; [destruct (auth_syntax a) eqn:Ea; [|discriminate]|];
    intros (<- & -> & -> & H)%split_tail_sound; (split; [reflexivity|]); rewrite Hs, ?Ea; cbn [andb]; exact H.
Qed.

(** ** Every text of the grammar is found *)
Ltac class_char := first [reflexivity | discriminate | lia].

Lemma user_chars_no u d : pct_all user_char u = true -> In d [35; 47; 63; 64] -> ~ In d u.
Proof. intros Hu Hd. repeat (destruct Hd as [<-|Hd]; [apply (pct_all_no _ _ _ Hu); class_char|]). contradiction. Qed.

Lemma literal_chars_no body d : literal_syntax body = true -> In d [35; 47; 63; 64] -> ~ In d body.
Proof.
  intros Hb Hd. unfold literal_syntax in Hb. destruct body as [|c v]; [discriminate|]. destruct (Z.eqb_spec c 118) as [->|_].
  - unfold future_syntax in Hb. destruct (span hexdig v) as [x r] eqn:E. pose proof (span_app _ _ _ _ E) as ->. apply span_all in E.
    apply andb_prop in Hb as [_ Hb]. destruct r as [|e a]; [discriminate|]. apply andb_prop in Hb as [He Ha].
    assert (e = 46) as -> by lia. intros Hin. cbn in Hin. rewrite in_app_iff in Hin.
    destruct Hin as [<-|[Hin|[<-|Hin]]]; [cbn in Hd; lia | revert Hin; apply (forallb_no hexdig); [exact E|] |
      cbn in Hd; lia | revert Hin; apply (forallb_no user_char); [exact Ha|]];
      repeat (destruct Hd as [<-|Hd]; [reflexivity|]); contradiction.
  - apply andb_prop in Hb as [_ Hb]. apply inet_pton6_chars in Hb. apply (forallb_no _ _ _ Hb).
    repeat (destruct Hd as [<-|Hd]; [reflexivity|]). contradiction.
Qed.

Lemma bracket_shape h : bracket_syntax h = true -> exists body, h = 91 :: body ++ [93] /\ literal_syntax body = true.
Proof.
  unfold bracket_syntax. destruct h as [|c t]; [discriminate|]. intros H. apply andb_prop in H as [Hc H].
  destruct (rev t) as [|d t'] eqn:E; [discriminate|]. apply andb_prop in H as [Hd H]. exists (rev t').
  assert (c = 91) as -> by lia. assert (d = 93) as -> by lia. split; [|exact H]. f_equal.
  rewrite <- (rev_involutive t), E. reflexivity.
Qed.

Lemma host_no h d : host_syntax h = true -> In d [35; 47; 63; 64] -> ~ In d h.
Proof.
  intros Hh Hd. apply orb_prop in Hh as [Hh|Hh].
  - repeat (destruct Hd as [<-|Hd]; [apply (pct_all_no _ _ _ Hh); class_char|]). contradiction.
  - apply bracket_shape in Hh as (body & -> & Hb). pose proof (literal_chars_no body d Hb Hd) as Hn.
    intros [<-|Hin]; [cbn in Hd; lia|]. rewrite in_app_iff in Hin. destruct Hin as [Hin|[<-|[]]]; [contradiction | cbn in Hd; lia].
Qed.

Lemma port_no p d : opt_all port_syntax p = true -> In d [35; 47; 63; 64] -> ~ In d (pre 58 p).
Proof.
  intros Hp Hd. destruct p as [ds|]; cbn; [|tauto]. apply andb_prop in Hp as [Hp _].
  intros [<-|Hin]; [cbn in Hd; lia|]. revert Hin. apply (forallb_no _ _ _ Hp).
  repeat (destruct Hd as [<-|Hd]; [reflexivity|]). contradiction.
Qed.

Lemma split_port_complete h p : host_syntax h = true -> opt_all port_syntax p = true -> split_port (h ++ pre 58 p) = (h, p).
Proof.
  intros Hh Hp. unfold split_port. destruct p as [ds|]; cbn [pre].
  - apply andb_prop in Hp as [Hp _]. rewrite rev_app_distr. cbn [rev]. rewrite <- app_assoc. cbn [app].
    rewrite (span_complete digit (rev ds) (58 :: rev h) (forallb_rev _ _ Hp) eq_refl). rewrite Z.eqb_refl, !rev_involutive. reflexivity.
  - rewrite app_nil_r. destruct (span digit (rev h)) as [x t] eqn:E. destruct t as [|c t]; [reflexivity|].
    destruct (Z.eqb_spec c 58) as [->|]; [|reflexivity]. exfalso. apply orb_prop in Hh as [Hh|Hh].
    + apply (pct_all_no reg_char 58 h Hh); try class_char. apply in_rev. rewrite (span_app _ _ _ _ E). apply in_app_iff. right. left. reflexivity.
    + apply bracket_shape in Hh as (body & -> & _). cbn [rev] in E. rewrite rev_app_distr in E. discriminate E.
Qed.

Lemma split_auth_complete a : auth_syntax a = true -> split_auth (auth_text a) = a /\ forallb auth_char (auth_text a) = true.
Proof.
  unfold auth_syntax. intros H. apply andb_prop in H as [H Hp]. apply andb_prop in H as [Hu Hh]. destruct a as [u h p]. unfold auth_text.
  cbn [a_user a_host a_port] in *.
  assert (N : forall d, In d [35; 47; 63; 64] -> ~ In d (h ++ pre 58 p)).
  { intros d Hd Hin. apply in_app_iff in Hin as [Hin|Hin]; [exact (host_no h d Hh Hd Hin) | exact (port_no p d Hp Hd Hin)]. }
  split.
  - unfold split_auth. destruct u as [u|]; cbn [post app].
    + rewrite <- app_assoc. cbn [app]. rewrite cut_complete by (apply (user_chars_no u); [exact Hu | cbn; auto]).
      rewrite split_port_complete by assumption. reflexivity.
    + rewrite cut_none by (apply N; cbn; auto). rewrite split_port_complete by assumption. reflexivity.
  - apply forallb_forall. intros d Hin. apply in_app_iff in Hin. unfold auth_char.
    assert (K : In d [35; 47; 63] -> False).
    { intros Hd. assert (Hd' : In d [35; 47; 63; 64]) by (cbn in *; tauto). destruct Hin as [Hin|Hin]; [|exact (N d Hd' Hin)].
      destruct u as [u|]; [|exact Hin]. cbn in Hin. apply in_app_iff in Hin as [Hin|[<-|[]]]; [exact (user_chars_no u d Hu Hd' Hin) | cbn in Hd; lia]. }
    destruct (Z.eqb_spec d 63); [exfalso; apply K; cbn; auto|]. destruct (Z.eqb_spec d 35); [exfalso; apply K; cbn; auto|].
    destruct (Z.eqb_spec d 47); [exfalso; apply K; cbn; auto|]. reflexivity.
Qed.

Definition tail_text (p : parts) : list Z := p_path p ++ pre 63 (p_query p) ++ pre 35 (p_fragment p).

Lemma split_tail_complete p : parts_syntax p = true -> split_tail 0 (p_scheme p) (p_auth p) (tail_text p) = Some p.
Proof.
  unfold parts_syntax. intros H. apply andb_prop in H as [H Hr]. apply andb_prop in H as [H Hps]. apply andb_prop in H as [H Hf].
  apply andb_prop in H as [H Hq]. apply andb_prop in H as [_ Hpa]. unfold split_tail, tail_text. rewrite part_span_0.
  assert (S0 : stops (fun c => path_char c || (c =? 37)) (pre 63 (p_query p) ++ pre 35 (p_fragment p)))
    by (destruct (p_query p), (p_fragment p); exact Logic.I || reflexivity).
  cbn [part_char]. rewrite (pct_span_complete path_char _ S0 _ (p_path p) (le_n _) Hpa).
  rewrite (split_opt_complete 63 PART_QUERY (p_query p) (pre 35 (p_fragment p)));
    [|exact Hq | destruct (p_fragment p); exact Logic.I || reflexivity | destruct (p_query p), (p_fragment p); exact Logic.I || reflexivity].
  pose proof (split_opt_complete 35 PART_FRAGMENT (p_fragment p) [] Hf Logic.I) as E. rewrite app_nil_r in E.
  rewrite E by (destruct (p_fragment p); exact Logic.I). destruct p as [sc au pa qu fr]. cbn [p_scheme p_auth p_path p_query p_fragment] in *.
  rewrite Hps, Hr. reflexivity.
Qed.

(** What follows the authority ends it; without one, no double slash comes. *)
Lemma tail_stops p : parts_syntax p = true -> p_auth p <> None -> stops auth_char (tail_text p).
Proof.
  unfold parts_syntax, path_start, tail_text. intros H Ha. apply andb_prop in H as [H _]. apply andb_prop in H as [_ H].
  destruct (p_auth p); [|congruence]. destruct (p_path p) as [|c pa].
  - destruct (p_query p), (p_fragment p); exact Logic.I || reflexivity.
  - cbn. assert (c = 47) as -> by lia. reflexivity.
Qed.

Lemma split_slashes_complete p : parts_syntax p = true ->
  split_slashes (slashes_text (p_auth p) ++ tail_text p) = (p_auth p, tail_text p).
Proof.
  intros H. destruct (p_auth p) as [a|] eqn:Ea.
  - assert (Sa : auth_syntax a = true).
    { unfold parts_syntax in H. rewrite Ea in H. repeat (apply andb_prop in H as [H ?]). assumption. }
    destruct (split_auth_complete a Sa) as [E1 E2]. pose proof (tail_stops p H ltac:(congruence)) as Ht.
    cbn [slashes_text app]. unfold split_slashes. cbn. rewrite (span_complete _ _ _ E2 Ht), E1. reflexivity.
  - cbn [slashes_text app]. unfold split_slashes. unfold parts_syntax, path_start in H. rewrite Ea in H.
    apply andb_prop in H as [H _]. apply andb_prop in H as [_ H]. unfold tail_text. destruct (p_path p) as [|c [|d pa]].
    + destruct (p_query p) as [[|? ?]|], (p_fragment p) as [[|? ?]|]; reflexivity.
    + destruct (p_query p), (p_fragment p); cbn; rewrite ?andb_false_r; reflexivity.
    + cbn. apply negb_true_iff in H. rewrite H. reflexivity.
Qed.

Lemma scheme_no s d : scheme_syntax s = true -> In d [35; 47; 58; 63] -> ~ In d s.
Proof.
  intros Hs Hd. destruct s as [|c s]; [discriminate|]. cbn in Hs. apply andb_prop in Hs as [Hc Hs]. intros [->|Hin].
  - repeat (destruct Hd as [<-|Hd]; [discriminate Hc|]). contradiction.
  - revert Hin. apply (forallb_no _ _ _ Hs). repeat (destruct Hd as [<-|Hd]; [reflexivity|]). contradiction.
Qed.

Definition seg_char (c : Z) : bool := negb (one_of [35; 47; 58; 63] c).

Lemma seg_chars l : (forall d, In d [35; 47; 58; 63] -> ~ In d l) -> forallb seg_char l = true.
Proof.
  intros H. apply forallb_forall. intros x Hx. unfold seg_char, one_of. apply negb_true_iff. apply not_true_is_false. intros E.
  apply existsb_exists in E as (d & Hd & E). assert (x = d) as -> by lia. exact (H d Hd Hx).
Qed.

(** No prefix of a relative reference up to a colon is a scheme. *)
Lemma relative_not_scheme p a t : parts_syntax p = true -> p_scheme p = None ->
  slashes_text (p_auth p) ++ tail_text p = a ++ 58 :: t -> scheme_syntax a = true -> False.
Proof.
  intros H Hs E Ha. assert (Sa : forallb seg_char a = true) by (apply seg_chars; intros d Hd; exact (scheme_no a d Ha Hd)).
  destruct (p_auth p) as [au|] eqn:Eau.
  - destruct a as [|c a]; [discriminate Ha|]. cbn in E. injection E as <- _. discriminate Ha.
  - cbn [slashes_text app] in E. unfold parts_syntax, relative_ok in H. rewrite Hs in H.
    apply andb_prop in H as [H Hr]. repeat (apply andb_prop in H as [H ?]). unfold tail_text, first_segment in *.
    match goal with X : pct_all path_char _ = true |- _ => rename X into Hpa end.
    destruct (span (fun c => negb (c =? 47)) (p_path p)) as [seg rest] eqn:Es. cbn [fst] in Hr. pose proof (span_app _ _ _ _ Es) as Ep.
    pose proof (span_all _ _ _ _ Es) as Hseg. rewrite Ep in E, Hpa. rewrite <- app_assoc in E.
    assert (S1 : forallb seg_char seg = true).
    { apply seg_chars. intros d Hd Hin. assert (Hin' : In d (seg ++ rest)) by (apply in_app_iff; auto).
      destruct Hd as [<-|[<-|[<-|[<-|[]]]]]; revert Hin; [intros _; revert Hin' | | | intros _; revert Hin'];
        [apply (pct_all_no path_char); [exact Hpa | class_char..] | apply (forallb_no _ _ _ Hseg); reflexivity |
         apply (forallb_no _ _ _ Hr); reflexivity | apply (pct_all_no path_char); [exact Hpa | class_char..]]. }
    assert (S2 : stops seg_char (rest ++ pre 63 (p_query p) ++ pre 35 (p_fragment p))).
    { destruct rest as [|c rest]; [destruct (p_query p), (p_fragment p); exact Logic.I || reflexivity|].
      apply span_stop in Es. cbn in Es |- *. assert (c = 47) as -> by lia. reflexivity. }
    pose proof (span_complete _ _ _ S1 S2) as E1. rewrite E in E1. rewrite (span_complete _ _ (58 :: t) Sa eq_refl) in E1.
    injection E1 as <- E1. destruct rest as [|c rest]; cbn in E1.
    + destruct (p_query p), (p_fragment p); discriminate E1.
    + injection E1 as <- _. apply span_stop in Es. discriminate Es.
Qed.

Lemma split_scheme_complete p : parts_syntax p = true ->
  split_scheme (parts_text p) = (p_scheme p, slashes_text (p_auth p) ++ tail_text p).
Proof.
  intros H. unfold parts_text. change (p_path p ++ pre 63 (p_query p) ++ pre 35 (p_fragment p)) with (tail_text p). unfold split_scheme.
  destruct (p_scheme p) as [sc|] eqn:Es.
  - assert (Ss : scheme_syntax sc = true).
    { unfold parts_syntax in H. rewrite Es in H. repeat (apply andb_prop in H as [H ?]). exact H. }
    cbn [post]. rewrite <- app_assoc. cbn [app]. rewrite cut_complete by (apply (scheme_no sc); [exact Ss | cbn; auto]). rewrite Ss. reflexivity.
  - cbn [post app]. destruct (cut 58 _) as [[a t]|] eqn:Ec; [|reflexivity]. destruct (scheme_syntax a) eqn:Ea; [|reflexivity].
    exfalso. exact (relative_not_scheme p a t H Es (cut_app _ _ _ _ Ec) Ea).
Qed.

(** The parts that are found are the parts that make up the text. *)
Lemma split_uri_grammar s p : split_uri 0 s = Some p <-> parts_text p = s /\ parts_syntax p = true.
Proof.
  split; [apply split_uri_sound|]. intros [<- H]. unfold split_uri. rewrite (split_scheme_complete p H), (split_slashes_complete p H).
  pose proof (split_tail_complete p H) as E. destruct (p_auth p) as [a|] eqn:Ea; [|exact E].
  assert (Sa : auth_syntax a = true); [|rewrite Sa; exact E].
  unfold parts_syntax in H. rewrite Ea in H. repeat (apply andb_prop in H as [H ?]). assumption.
Qed.

End Grammar.

(** ** Percent encoding *)
Definition hex_value (c : Z) : Z := if digit c then c - 48 else if 97 <=? c then c - 87 else c - 55.

(** The text without its encoding; a percent sign that encodes nothing stays. *)
Fixpoint unpct (plus : bool) (l : list Z) : list Z :=
  match l with
  | [] => []
  | c :: r =>
      if (c =? 43) && plus then 32 :: unpct plus r
      else match r with
           | x :: y :: r' =>
               if (c =? 37) && (hexdig x && hexdig y) then hex_value x * 16 + hex_value y :: unpct plus r' else c :: unpct plus r
           | _ => c :: unpct plus r
           end
  end.

Lemma hex_value_range c : hexdig c = true -> 0 <= hex_value c < 16.
Proof. unfold hexdig, hex_value, digit, within. intros H. destruct ((48 <=? c) && (c <=? 57)) eqn:E; [lia|]. zcase; lia. Qed.

Lemma strtol16_spec c : is_u8 c -> strtol16_digit c = hex_value c.
Proof. intros H. unfold strtol16_digit, hex_value. rewrite isdigit_digit by exact H. reflexivity. Qed.

Lemma put8_app out v rest w : is_u8 v -> put8 (out ++ w :: rest) (length out) v = Ret (out ++ v :: rest).
Proof.
  intros H. rewrite put8_in by (rewrite length_app; cbn; lia). rewrite insert_app_r_alt, Nat.sub_diag by lia. cbn.
  unfold u8. rewrite Z.mod_small by rlia. reflexivity.
Qed.

Lemma decode_run uri u ctl plus : 0 <= ctl -> forall fuel l i out rest, drop i uri = l ++ 0 :: u -> txt l -> (length l <= fuel)%nat ->
  (length l < length rest)%nat ->
  exists rest', decode_loop fuel uri (i + length l) (out ++ rest) ctl plus i (length out) =
    Ret (out ++ unpct plus l ++ 0 :: rest', (length out + length (unpct plus l))%nat).
Proof.
  intros Hctl. induction fuel as [|fuel IH]; intros l i out rest Hu Hl Hf Hr.
  - destruct l; [|cbn in Hf; lia]. destruct rest as [|w rest]; [cbn in Hr; lia|]. exists rest. cbn [decode_loop length]. rewrite Nat.add_0_r, Nat.ltb_irrefl.
    rewrite put8_app by rlia. cbn. rewrite Nat.add_0_r. reflexivity.
  - destruct l as [|c l]; (destruct rest as [|w rest]; [cbn in Hr; lia|]).
    { exists rest. cbn [decode_loop length]. rewrite Nat.add_0_r, Nat.ltb_irrefl, put8_app by rlia. cbn. rewrite Nat.add_0_r. reflexivity. }
    cbn [decode_loop]. in_range. rewrite (at_head _ _ _ _ Hu). cbn [obind]. inversion_clear Hl as [|? ? [Hc _] Hl']. cbn in Hf, Hr.
    assert (Step : forall v, is_u8 v -> exists rest',
      (let! ret := put8 (out ++ w :: rest) (length out) v in decode_loop fuel uri (i + length (c :: l)) ret ctl plus (S i) (S (length out))) =
      Ret (out ++ (v :: unpct plus l) ++ 0 :: rest', (length out + length (v :: unpct plus l))%nat)).
    { intros v Hv. rewrite put8_app by exact Hv. cbn [obind]. destruct (IH l (S i) (out ++ [v]) rest (at_tail _ _ _ _ Hu) Hl' ltac:(lia) ltac:(lia)) as [rest' E].
      exists rest'. rewrite length_app in E. cbn [length] in E |- *. rewrite Nat.add_1_r, <- app_assoc in E. replace (i + S (length l))%nat with (S i + length l)%nat by lia.
      cbn [app] in E. rewrite E, <- app_assoc. cbn [app]. rewrite Nat.add_succ_r. reflexivity. }
    cbn [unpct]. rewrite (proj2 (Z.ltb_ge ctl 0)), orb_false_r by lia. destruct (Z.eqb_spec c 63) as [->|N].
    { destruct (Step 63 Hc) as [rest' E]. exists rest'. rewrite E. destruct l as [|x [|y l]]; reflexivity. }
    destruct ((c =? 43) && plus); [destruct (Step 32 ltac:(rlia)) as [rest' E]; exists rest'; rewrite E; reflexivity|].
    destruct (Step c Hc) as [r0 E0]. destruct (Z.eqb_spec c 37) as [->|N'].
    2: { rewrite andb_false_r. cbn [obind]. exists r0. rewrite E0. destruct l as [|x [|y l]]; reflexivity. }
    rewrite andb_true_r. destruct (Nat.ltb_spec (i + 2) (i + length (37 :: l))) as [L|L]; cbn [length] in L.
    2: { cbn [obind]. exists r0. rewrite E0. destruct l as [|x [|y l]]; try reflexivity. cbn in L. lia. }
    rewrite (xdigits_run uri i 37 l (0 :: u) Hu Hl') by (split; [rlia | reflexivity]). cbn [obind andb].
    destruct l as [|x [|y l]]; try (exists r0; rewrite E0; reflexivity).
    destruct (hexdig x && hexdig y) eqn:Eh; [|exists r0; rewrite E0; reflexivity]. apply andb_prop in Eh as [Hx Hy].
    rewrite (at_tail2 _ _ _ _ _ Hu), (at_tail3 _ _ _ _ _ _ Hu). cbn [obind].
    inversion_clear Hl' as [|? ? [Ux _] Hl2]. inversion_clear Hl2 as [|? ? [Uy _] Hl3]. rewrite !strtol16_spec by assumption.
    pose proof (hex_value_range x Hx). pose proof (hex_value_range y Hy). rewrite put8_app by rlia. cbn [obind]. cbn [length] in *.
    destruct (IH l (i + 3)%nat (out ++ [hex_value x * 16 + hex_value y]) rest (at_skip uri i [37; x; y] _ Hu) Hl3 ltac:(lia) ltac:(lia)) as [rest' E].
    exists rest'. rewrite length_app in E. cbn [length] in E. rewrite Nat.add_1_r, <- app_assoc in E. replace (i + S (S (S (length l))))%nat with (i + 3 + length l)%nat by lia.
    cbn [app] in E. rewrite E, <- app_assoc. cbn [app length]. rewrite Nat.add_succ_r. reflexivity.
Qed.

Lemma uridecode_run `{M : Malloc} `{L : !MallocSize M} src u plus n : txt src ->
  match mm_malloc n (length src + 1) with
  | None => evhttp_uridecode (src ++ 0 :: u) plus n = Ret None
  | Some _ => exists rest, evhttp_uridecode (src ++ 0 :: u) plus n =
      Ret (Some (unpct plus src ++ 0 :: rest, length (unpct plus src)))
  end.
Proof.
  intros Hs. unfold evhttp_uridecode. rewrite (cstr_stop _ _ Hs). cbn [obind].
  destruct (mm_malloc n (length src + 1)) as [ret|] eqn:Em; [|reflexivity]. apply mm_malloc_size in Em.
  unfold evhttp_decode_uri_internal.
  destruct (decode_run (src ++ 0 :: u) u (if plus then 1 else 0) plus ltac:(destruct plus; lia) (length src) src 0 [] ret eq_refl Hs (le_n _) ltac:(lia)) as [rest E].
  exists rest. cbn [app length Nat.add] in E. replace ((if plus then 1 else 0) =? 1) with plus by (destruct plus; reflexivity).
  rewrite E. reflexivity.
Qed.

Lemma pct_hex c : is_u8 c -> (hexdig (hex_upper (c / 16)) && hexdig (hex_upper (c mod 16))) &&
  (hex_value (hex_upper (c / 16)) * 16 + hex_value (hex_upper (c mod 16)) =? c) = true.
Proof.
  exact (byte_cases (fun c => (hexdig (hex_upper (c / 16)) && hexdig (hex_upper (c mod 16))) &&
    (hex_value (hex_upper (c / 16)) * 16 + hex_value (hex_upper (c mod 16)) =? c)) (fun _ => true) ltac:(vm_compute; reflexivity) c).
Qed.

Lemma unpct_char plus c l : c <> 37 -> (c =? 43) && plus = false -> unpct plus (c :: l) = c :: unpct plus l.
Proof. intros N P. cbn. rewrite P, (proj2 (Z.eqb_neq c 37) N). destruct l as [|x [|y l]]; reflexivity. Qed.

Lemma unpct_encode plus s : Forall is_u8 s -> unpct plus (uriencode_chars s plus) = s.
Proof.
  induction 1 as [|c s Hc Hs IH]; [reflexivity|]. unfold uriencode_chars. cbn [flat_map]. fold (uriencode_chars s plus).
  rewrite unreserved_spec by exact Hc. destruct (unreserved c) eqn:E.
  - cbn [app]. rewrite unpct_char, IH; [reflexivity | intros ->; discriminate E|]. destruct (Z.eqb_spec c 43) as [->|]; [discriminate E | reflexivity].
  - destruct ((c =? 32) && plus) eqn:Ep; cbn [app].
    + apply andb_prop in Ep as [Ec ->]. cbn. rewrite IH. f_equal. lia.
    + unfold pct. replace (u8 c) with c by (unfold u8; rewrite Z.mod_small by exact Hc; reflexivity).
      pose proof (pct_hex c Hc) as H. apply andb_prop in H as [H1 H2]. cbn. rewrite H1, IH. f_equal. lia.
Qed.

Lemma encode_txt plus s : Forall is_u8 s -> txt (uriencode_chars s plus).
Proof.
  induction 1 as [|c s Hc Hs IH]; [constructor|]. unfold uriencode_chars. cbn [flat_map]. fold (uriencode_chars s plus).
  apply Forall_app. split; [|exact IH]. rewrite unreserved_spec by exact Hc. destruct (unreserved c) eqn:E.
  - repeat constructor; try apply Hc. intros ->. discriminate E.
  - destruct ((c =? 32) && plus); [repeat constructor; try rlia; discriminate|]. unfold pct, u8, hex_upper.
    repeat constructor; try (rlia); try discriminate; zcase; try rlia; Z.div_mod_to_equations; rlia.
Qed.

(** ** An allocator and an address test *)
Definition malloc_all : Malloc := fun _ size => Some (repeat 0 size).
Definition pton_loopback : InetPton := fun s => bool_decide (s = [58; 58; 49]).

Lemma malloc_all_size : MallocSize malloc_all.
Proof. intros n size m [= <-]. apply repeat_length. Qed.

Lemma pton_loopback_chars : InetPtonChars pton_loopback.
Proof. split; intros s H; apply bool_decide_eq_true in H as ->; [reflexivity | cbn; lia]. Qed.

Lemma txt_check l : forallb (fun c => (0 <? c) && (c <? 256)) l = true -> txt l.
Proof. rewrite forallb_forall, List.Forall_forall. intros H c Hc. specialize (H c Hc). split; [rlia | lia]. Qed.

(** ** Properties *)

(** ** The grammar against RFC 3986 *)
Section Departures.
Context `{I : InetPton} `{C : !InetPtonChars I}.

Lemma bracketed_ext f g h : (forall b, f b = g b) -> bracketed f h = bracketed g h.
Proof. intros H. destruct h as [|c t]; cbn; [reflexivity|]. destruct (rev t); [reflexivity | rewrite H; reflexivity]. Qed.

Lemma literal_rfc b : literal_syntax b =
  (inet_pton6 b || rfc_future b) && negb (match b with c :: _ => c =? 86 | [] => false end) ||
  match b with
  | c :: v => (c =? 118) && let '(x, r) := span hexdig v in negb (bool_decide (x = [])) && bool_decide (r = [46])
  | [] => false
  end.
Proof.
  assert (Hp : forall c v, inet_pton6 (c :: v) = true -> c <> 118 /\ c <> 86).
  { intros c v H%inet_pton6_chars. cbn [forallb] in H. apply andb_prop in H as [H _]. split; intros ->; discriminate H. }
  destruct b as [|c v]; cbn [literal_syntax rfc_future].
  { destruct (inet_pton6 []) eqn:E; [apply inet_pton6_length in E; cbn in E; lia | reflexivity]. }
  destruct (Z.eqb_spec c 118) as [->|N].
  - change (118 =? 86) with false. cbn [orb negb]. rewrite andb_true_r.
    destruct (inet_pton6 (118 :: v)) eqn:E; [destruct (Hp _ _ E); congruence|]. cbn [orb andb]. unfold future_syntax.
    destruct (span hexdig v) as [x r]. destruct (bool_decide (x = [])); [reflexivity|]. cbn [negb andb].
    destruct r as [|d a]; [reflexivity|]. destruct (Z.eqb_spec d 46) as [->|Nd]; cbn [andb].
    + destruct a; [reflexivity|]. rewrite (bool_decide_eq_false_2 (46 :: _ = [46])) by congruence. rewrite orb_false_r. reflexivity.
    + rewrite bool_decide_eq_false_2 by congruence. reflexivity.
  - cbn [andb]. rewrite orb_false_r. destruct (Z.eqb_spec c 86) as [->|N']; cbn [orb andb negb].
    + rewrite andb_false_r. destruct (inet_pton6 (86 :: v)) eqn:E; [destruct (Hp _ _ E); congruence | apply andb_false_r].
    + rewrite orb_false_r, andb_true_r. destruct (inet_pton6 (c :: v)) eqn:E; [|apply andb_false_r].
      apply inet_pton6_length in E. rewrite (proj2 (Nat.ltb_lt _ _)) by lia. reflexivity.
Qed.

Lemma host_libevent h : host_syntax h = rfc_host h && negb (capital_future h) || empty_future h.
Proof.
  unfold host_syntax, rfc_host, capital_future, empty_future. change (bracket_syntax h) with (bracketed literal_syntax h).
  rewrite (bracketed_ext _ _ h literal_rfc). destruct h as [|c t]; [reflexivity|]. cbn [bracketed].
  destruct (Z.eqb_spec c 91) as [->|N]; cbn [andb]; [|btauto].
  assert (R : pct_all reg_char (91 :: t) = false); [|rewrite R; destruct (rev t) as [|d b]; [reflexivity | btauto]].
  rewrite pct_all_eq by reflexivity. destruct t as [|x [|y t]]; reflexivity.
Qed.

(** What is parsed is what the departures leave of the RFC and add to it. *)
Lemma parts_libevent p : parts_syntax p = libevent_syntax p.
Proof.
  unfold parts_syntax, libevent_syntax, syntax_with, port_fits. destruct (p_auth p) as [a|]; [|btauto].
  unfold auth_syntax. rewrite host_libevent. unfold port_syntax. destruct (a_port a) as [d|]; cbn [opt_all]; btauto.
Qed.

Lemma rfc_libevent p : rfc_syntax p = true -> port_fits p = true ->
  (forall a, p_auth p = Some a -> capital_future (a_host a) = false) -> libevent_syntax p = true.
Proof.
  unfold rfc_syntax, libevent_syntax, syntax_with. intros H -> Hc. rewrite andb_true_r.
  destruct (p_auth p) as [a|]; [|exact H]. rewrite (Hc a eq_refl). cbn [negb]. rewrite andb_true_r.
  destruct (rfc_host (a_host a)); [exact H|]. exfalso. revert H.
  destruct (opt_all scheme_syntax _), (opt_all (pct_all user_char) _); discriminate.
Qed.
End Departures.

(** C28: [evhttp_uri_parse] returns on every terminated text, whatever the allocator
    answers, and never reads or writes outside its copy.  The texts it takes apart
    are those of the grammar of RFC 3986 with three exceptions, all in the
    authority: an IPvFuture host with a capital V and a port above 65535 are
    refused, and an IPvFuture host that is empty behind its point is accepted.
    A structure it returns holds the parts of the text; when memory lasts it
    returns one for every such text, in particular for every text of the RFC
    without a capital IPvFuture and with a port that fits. *)
Theorem uri_parse_grammar `{M : Malloc} `{I : InetPton} `{C : !InetPtonChars I} src u : txt src ->
  exists o, evhttp_uri_parse (src ++ 0 :: u) = Ret o /\
    (forall v, o = Some v -> exists p, parts_text p = src /\ libevent_syntax p = true /\ v = uri_of 0 p) /\
    ((forall n k, mm_malloc n k <> None) -> forall p, parts_text p = src -> libevent_syntax p = true -> o = Some (uri_of 0 p)) /\
    ((forall n k, mm_malloc n k <> None) -> forall p, parts_text p = src -> rfc_syntax p = true -> port_fits p = true ->
       (forall a, p_auth p = Some a -> capital_future (a_host a) = false) -> o = Some (uri_of 0 p)).
Proof.
  intros Hs. destruct (uri_parse_run src u 0 Hs) as (o & E & Ho). exists o. split; [exact E|].
  assert (H : (forall n k, mm_malloc n k <> None) -> forall p, parts_text p = src -> libevent_syntax p = true -> o = Some (uri_of 0 p)).
  { intros Hm p E1 E2. rewrite <- parts_libevent in E2. destruct Ho as [->|[_ (n & k & Hk)]]; [|destruct (Hm n k Hk)].
    rewrite (proj2 (split_uri_grammar src p) (conj E1 E2)). reflexivity. }
  split; [|split; [exact H | intros Hm p E1 E2 E3 E4; exact (H Hm p E1 (rfc_libevent p E2 E3 E4))]].
  - intros v ->. destruct Ho as [Ho|[Ho _]]; [|discriminate]. destruct (split_uri 0 src) as [p|] eqn:Ep; [|discriminate].
    injection Ho as ->. apply split_uri_grammar in Ep as [E1 E2]. rewrite parts_libevent in E2. eauto.
Qed.

(** Every text comes back from its percent encoding, with blanks as plus
    signs or not; the decoder stays in the block it allocates and reports the
    length. *)
Theorem uricode_roundtrip `{M : Malloc} `{L : !MallocSize M} s u plus n k e : txt s ->
  evhttp_uriencode (s ++ 0 :: u) plus n = Ret (Some e) -> mm_malloc k (length e) <> None ->
  exists rest, evhttp_uridecode e plus k = Ret (Some (s ++ 0 :: rest, length s)).
Proof.
  intros Hs He Hk. assert (Hb : Forall is_u8 s) by (eapply Forall_impl; [exact Hs | intros c [Hc _]; exact Hc]).
  unfold evhttp_uriencode in He. rewrite (cstr_stop _ _ Hs) in He. cbn [obind] in He.
  destruct (malloc_ok n _) eqn:En; [|discriminate]. injection He as <-. rewrite length_app in Hk. cbn [length] in Hk.
  pose proof (uridecode_run (uriencode_chars s plus) [] plus k (encode_txt plus s Hb)) as R.
  destruct (mm_malloc k (length (uriencode_chars s plus) + 1)) as [m|]; [|congruence].
  rewrite (unpct_encode plus s Hb) in R. exact R.
Qed.

(** [a://u@[::1]:80/b?c#d] *)
Definition sample : parts :=
  mkParts (Some [97]) (Some (mkAuth (Some [117]) [91; 58; 58; 49; 93] (Some [56; 48]))) [47; 98] (Some [99]) (Some [100]).

Lemma uri_parse_grammar_witness : exists o, @evhttp_uri_parse malloc_all pton_loopback (parts_text sample ++ [0]) = Ret o /\
  o = Some (mkUri 0 (Some [97]) (Some [117]) (Some [91; 58; 58; 49; 93]) 80 (Some [47; 98]) (Some [99]) (Some [100])).
Proof.
  destruct (@uri_parse_grammar malloc_all pton_loopback pton_loopback_chars (parts_text sample) [] ltac:(apply txt_check; reflexivity))
    as (o & E & _ & H).
  exists o. split; [exact E|]. exact (proj1 H ltac:(discriminate) sample eq_refl eq_refl).
Defined.

(** The three departures, on [a://[v1.]], [a://[V1.x]] and [a://h:70000]. *)
Example departures :
  let on host port := mkParts (Some [97]) (Some (mkAuth None host port)) [] None None in
  let empty := on [91; 118; 49; 46; 93] None in
  let capital := on [91; 86; 49; 46; 120; 93] None in
  let big := on [104] (Some [55; 48; 48; 48; 48]) in
  map (@libevent_syntax pton_loopback) [empty; capital; big] = [true; false; false] /\
  map (@rfc_syntax pton_loopback) [empty; capital; big] = [false; true; true].
Proof. split; reflexivity. Qed.

Lemma uricode_roundtrip_witness : exists rest,
  @evhttp_uridecode malloc_all [97; 43; 37; 50; 53; 0] true 1 = Ret (Some ([97; 32; 37] ++ 0 :: rest, 3%nat)).
Proof.
  apply (@uricode_roundtrip malloc_all malloc_all_size [97; 32; 37] [] true 0 1); [apply txt_check; reflexivity | reflexivity | discriminate].
Defined.
