(* ===== verification/HttpServer.v ===== *)
(** * The HTTP server (http-server.c, the request dispatch of libevent/http.c)

    [send_document_cb] answers a request for a document.  Its calls of the kernel
    and of libevent that can be seen from outside are the list of [effect]s; what
    the kernel answers is the record [kernel].  [evhttp_handle_request] chooses the
    callback; [http_main] registers one for the path /dump and no virtual hosts.

    File names and texts are lists of bytes without the terminator, except where a
    function is given a pointer: there the terminator is part of the list. *)

From S2P Require Import Prelude HttpUri HttpUriRef HttpUriRun HttpGrammar.
From Stdlib Require Ascii String.

Import String.StringSyntax.
Local Open Scope string_scope.
Local Open Scope Z_scope.
Local Open Scope list_scope.

(** ** Content types *)
Definition EVUTIL_TOLOWER_TABLE : list Z := [
  0; 1; 2; 3; 4; 5; 6; 7; 8; 9; 10; 11; 12; 13; 14; 15;
  16; 17; 18; 19; 20; 21; 22; 23; 24; 25; 26; 27; 28; 29; 30; 31;
  32; 33; 34; 35; 36; 37; 38; 39; 40; 41; 42; 43; 44; 45; 46; 47;
  48; 49; 50; 51; 52; 53; 54; 55; 56; 57; 58; 59; 60; 61; 62; 63;
  64; 97; 98; 99; 100; 101; 102; 103; 104; 105; 106; 107; 108; 109; 110; 111;
  112; 113; 114; 115; 116; 117; 118; 119; 120; 121; 122; 91; 92; 93; 94; 95;
  96; 97; 98; 99; 100; 101; 102; 103; 104; 105; 106; 107; 108; 109; 110; 111;
  112; 113; 114; 115; 116; 117; 118; 119; 120; 121; 122; 123; 124; 125; 126; 127;
  128; 129; 130; 131; 132; 133; 134; 135; 136; 137; 138; 139; 140; 141; 142; 143;
  144; 145; 146; 147; 148; 149; 150; 151; 152; 153; 154; 155; 156; 157; 158; 159;
  160; 161; 162; 163; 164; 165; 166; 167; 168; 169; 170; 171; 172; 173; 174; 175;
  176; 177; 178; 179; 180; 181; 182; 183; 184; 185; 186; 187; 188; 189; 190; 191;
  192; 193; 194; 195; 196; 197; 198; 199; 200; 201; 202; 203; 204; 205; 206; 207;
  208; 209; 210; 211; 212; 213; 214; 215; 216; 217; 218; 219; 220; 221; 222; 223;
  224; 225; 226; 227; 228; 229; 230; 231; 232; 233; 234; 235; 236; 237; 238; 239;
  240; 241; 242; 243; 244; 245; 246; 247; 248; 249; 250; 251; 252; 253; 254; 255].

Definition EVUTIL_TOLOWER (c : Z) : Z := nth (Z.to_nat (u8 c)) EVUTIL_TOLOWER_TABLE 0.

(** [evutil_ascii_strcasecmp] on two terminated strings. *)
Fixpoint evutil_ascii_strcasecmp (s1 s2 : list Z) : outcome Z :=
  match s1, s2 with
  | x1 :: r1, x2 :: r2 =>
      let c1 := EVUTIL_TOLOWER x1 in
      let c2 := EVUTIL_TOLOWER x2 in
      if c1 <? c2 then Ret (-1) else if c2 <? c1 then Ret 1 else if c1 =? 0 then Ret 0 else evutil_ascii_strcasecmp r1 r2
  | _, _ => Crash OutOfBounds
  end.

Definition content_type_table : list (list Z * list Z) :=
  [(bytes "txt", bytes "text/plain"); (bytes "c", bytes "text/plain"); (bytes "h", bytes "text/plain");
   (bytes "html", bytes "text/html"); (bytes "htm", bytes "text/htm"); (bytes "css", bytes "text/css");
   (bytes "gif", bytes "image/gif"); (bytes "jpg", bytes "image/jpeg"); (bytes "jpeg", bytes "image/jpeg");
   (bytes "png", bytes "image/png"); (bytes "pdf", bytes "application/pdf"); (bytes "ps", bytes "application/postscript")].

(** [strrchr(path, '.')]: what follows the last point. *)
Fixpoint last_period (s : list Z) : option (list Z) :=
  match s with
  | [] => None
  | c :: r => match last_period r with Some e => Some e | None => if c =? 46 then Some r else None end
  end.

Fixpoint find_type (table : list (list Z * list Z)) (extension : list Z) : outcome (list Z) :=
  match table with
  | [] => Ret (bytes "application/misc")
  | (e, t) :: r =>
      let! k := evutil_ascii_strcasecmp (e ++ [0]) (extension ++ [0]) in
      if k =? 0 then Ret t else find_type r extension
  end.

Definition guess_content_type (path : list Z) : outcome (list Z) :=
  match last_period path with
  | None => Ret (bytes "application/misc")
  | Some e => if one_of e 47 then Ret (bytes "application/misc") else find_type content_type_table e
  end.

(** ** Effects *)
Inductive resource := RUri | RDecoded | RWhole | REvb | RDir | RFd (fd : Z).
Inductive chunk := Text (s : list Z) | FileChunk (fd size : Z).
Inductive effect :=
| Acquire (r : resource)
| Release (r : resource)
| Stat (p : list Z)
| Opendir (p : list Z)
| Open (p : list Z)
| AddHeader (k v : list Z)
| Fwrite (s : list Z)
| SendReply (code : Z) (body : list chunk)
| SendError (code : Z).

(** What the kernel and the allocator of buffers answer: [stat] whether there is a
    directory, [opendir] and [readdir] the names, [open] a descriptor, [fstat] a
    size; whether [evbuffer_new] and [evbuffer_add_file] succeed. *)
Record kernel := mkKernel {
  k_stat : list Z -> option bool; k_dir : list Z -> option (list (list Z)); k_open : list Z -> option Z;
  k_fstat : Z -> option Z; evbuffer_new_ok : bool; add_file_ok : bool }.

Definition EVHTTP_REQ_GET : Z := 1.
Definition EVHTTP_REQ_POST : Z := 2.
Definition EVHTTP_REQ_HEAD : Z := 4.
Definition EVHTTP_REQ_PUT : Z := 8.
Definition EVHTTP_REQ_DELETE : Z := 16.

Definition HTTP_BADREQUEST : Z := 400.
Definition HTTP_NOTFOUND : Z := 404.
Definition HTTP_NOTIMPLEMENTED : Z := 501.

(** ** Callbacks *)

(** The input goes to the standard output in pieces of 128 bytes; the headers, which
    are printed too, are left out. *)
Fixpoint dump_input (fuel : nat) (buf : list Z) : outcome (list effect) :=
  match buf with
  | [] => Ret []
  | _ =>
      match fuel with
      | O => Crash Diverge
      | S f => let! e := dump_input f (drop 128 buf) in Ret (Fwrite (take 128 buf) :: e)
      end
  end.

Definition dump_request_cb (input : list Z) : outcome (list effect) :=
  let! e := dump_input (length input) input in
  Ret (e ++ [SendReply 200 []]).

Definition newline : list Z := [10].

(** The page for a directory. *)
Definition index_head (decoded_path path trailing_slash : list Z) : list Z :=
  bytes "<!DOCTYPE html>" ++ newline ++ bytes "<html>" ++ newline ++ bytes " <head>" ++ newline ++
  bytes "  <meta charset='utf-8'>" ++ newline ++
  bytes "  <title>" ++ decoded_path ++ bytes "</title>" ++ newline ++
  bytes "  <base href='" ++ path ++ trailing_slash ++ bytes "'>" ++ newline ++
  bytes " </head>" ++ newline ++ bytes " <body>" ++ newline ++
  bytes "  <h1>" ++ decoded_path ++ bytes "</h1>" ++ newline ++ bytes "  <ul>" ++ newline.
Definition index_entry (name : list Z) : list Z :=
  bytes "    <li><a href=" ++ [34] ++ name ++ [34] ++ bytes ">" ++ name ++ bytes "</a>" ++ newline.
Definition index_foot : list Z := bytes "</ul></body></html>" ++ newline.

(** [path[strlen(path)-1] != '/'] *)
Definition trailing_slash (path : list Z) : list Z :=
  match last path with Some c => if c =? 47 then [] else [47] | None => [47] end.

(** [strstr(s, "..")] *)
Fixpoint has_dotdot (s : list Z) : bool :=
  match s with
  | c :: (d :: _) as r => (c =? 46) && (d =? 46) || has_dotdot r
  | _ => false
  end.

Section Server.
Context `{Malloc} `{InetPton}.

(** The labels [err] and [done]: [fd] is open or not, the blocks are freed. *)
Definition err (fd : option Z) : list effect :=
  SendError HTTP_NOTFOUND :: match fd with Some fd => [Release (RFd fd)] | None => [] end.
Definition done (decoded whole evb : bool) : list effect :=
  Release RUri :: (if decoded then [Release RDecoded] else []) ++ (if whole then [Release RWhole] else []) ++
  (if evb then [Release REvb] else []).

(** The document itself, from [evbuffer_new] on. *)
Definition send_directory (k : kernel) (path decoded_path whole_path : list Z) : outcome (list effect) :=
  match k_dir k whole_path with
  | None => Ret (Opendir whole_path :: err None)
  | Some names =>
      if negb (evbuffer_new_ok k) then Crash NullDeref
      else
        Ret ([Opendir whole_path; Acquire RDir; Release RDir; AddHeader (bytes "Content-Type") (bytes "text/html");
              SendReply 200 (Text (index_head decoded_path path (trailing_slash path)) ::
                             map (fun name => Text (index_entry name)) names ++ [Text index_foot])])
  end.

Definition send_file (k : kernel) (decoded_path whole_path : list Z) : outcome (list effect) :=
  let! type := guess_content_type decoded_path in
  match k_open k whole_path with
  | None => Ret (Open whole_path :: err None)
  | Some fd =>
      match k_fstat k fd with
      | None => Ret (Open whole_path :: Acquire (RFd fd) :: err (Some fd))
      | Some size =>
          let opened := [Open whole_path; Acquire (RFd fd); AddHeader (bytes "Content-Type") type] in
          if negb (add_file_ok k) then Ret (opened ++ [SendReply 200 []])
          else if negb (evbuffer_new_ok k) then Crash NullDeref
          else Ret (opened ++ [Release (RFd fd); SendReply 200 [FileChunk fd size]])
      end
  end.

(** At most eight allocations are made by [evhttp_uri_parse]: the next ones are
    numbers 8 and 9. *)
Definition send_document_cb (k : kernel) (docroot : list Z) (command : Z) (uri input : list Z) : outcome (list effect) :=
  if negb (command =? EVHTTP_REQ_GET) then dump_request_cb input
  else
    let! decoded := evhttp_uri_parse uri in
    match decoded with
    | None => Ret [SendError HTTP_BADREQUEST]
    | Some decoded =>
        let path := match HttpUri.path decoded with Some p => p | None => [47] end in
        let! block := evhttp_uridecode (path ++ [0]) false 8 in
        match block with
        | None => Ret (Acquire RUri :: err None ++ done false false false)
        | Some (block, _) =>
            let! decoded_path := cstr block in
            let start := [Acquire RUri; Acquire RDecoded] in
            if has_dotdot decoded_path then Ret (start ++ err None ++ done true false false)
            else
              let len := (length decoded_path + length docroot + 2)%nat in
              if negb (malloc_ok 9 len) then Ret (start ++ err None ++ done true false false)
              else
                let whole_path := take (len - 1) (docroot ++ 47 :: decoded_path) in
                let start := start ++ [Acquire RWhole; Stat whole_path] in
                match k_stat k whole_path with
                | None => Ret (start ++ err None ++ done true true false)
                | Some is_dir =>
                    let! e := if is_dir then send_directory k path decoded_path whole_path
                              else send_file k decoded_path whole_path in
                    let start := start ++ (if evbuffer_new_ok k then [Acquire REvb] else []) in
                    Ret (start ++ e ++ done true true (evbuffer_new_ok k))
                end
        end
    end.

(** ** Dispatch *)
Inductive callback := DumpCb | DocumentCb.

Record evhttp_request := mkReq { req_type : Z; req_uri : option (list Z); response_code : Z; uri_elems : evhttp_uri; input_buffer : list Z }.

Definition list_eqb (a b : list Z) : bool := bool_decide (a = b).

(** [evhttp_dispatch_callback], as allocation 7 of the request. *)
Definition evhttp_dispatch_callback (callbacks : list (list Z * callback)) (req : evhttp_request) : outcome (option callback) :=
  match path (uri_elems req) with
  | None => Crash NullDeref
  | Some p =>
      match mm_malloc 7 (length p + 1) with
      | None => Ret None
      | Some translated =>
          let! (t, _) := evhttp_decode_uri_internal (p ++ [0]) (length p) translated 0 in
          let! name := cstr t in
          Ret (snd <$> List.find (fun cb => list_eqb (fst cb) name) callbacks)
      end
  end.

Definition allowed_methods : Z :=
  Z.lor EVHTTP_REQ_GET (Z.lor EVHTTP_REQ_POST (Z.lor EVHTTP_REQ_HEAD (Z.lor EVHTTP_REQ_PUT EVHTTP_REQ_DELETE))).

(** The callbacks of [http_main]. *)
Definition server_callbacks : list (list Z * callback) := [(bytes "/dump", DumpCb)].

Definition evhttp_handle_request (k : kernel) (docroot : list Z) (req : evhttp_request) : outcome (list effect) :=
  match req_uri req with
  | None => Ret [SendError (response_code req)]
  | Some uri =>
      if Z.land allowed_methods (req_type req) =? 0 then Ret [SendError HTTP_NOTIMPLEMENTED]
      else
        let! cb := evhttp_dispatch_callback server_callbacks req in
        match cb with
        | Some DumpCb => dump_request_cb (input_buffer req)
        | _ => send_document_cb k docroot (req_type req) uri (input_buffer req)
        end
  end.

End Server.

(** ** Options *)
Record options := mkOpts {
  o_port : Z; o_iocp : bool; o_verbose : Z; o_max_body_size : Z; o_unlink : bool;
  o_unixsock : option (list Z); o_bind : option (list Z); o_docroot : list Z }.

(** What [getopt] delivers: one of the option letters with its argument. *)
Inductive opt := OptP (arg : Z) | OptU (arg : list Z) | Optu | OptI | OptM (arg : Z) | OptV | OptH (arg : list Z) | Opth | OptUnknown.

Definition parse_opt (o : options) (x : opt) : option options :=
  match o with
  | mkOpts port iocp verbose maxb unl sock bind root =>
      match x with
      | OptP a => Some (mkOpts a iocp verbose maxb unl sock bind root)
      | OptU a => Some (mkOpts port iocp verbose maxb unl (Some a) bind root)
      | Optu => Some (mkOpts port iocp verbose maxb true sock bind root)
      | OptI => Some (mkOpts port true verbose maxb unl sock bind root)
      | OptM a => Some (mkOpts port iocp verbose a unl sock bind root)
      | OptV => Some (mkOpts port iocp (i32 (verbose + 1)) maxb unl sock bind root)
      | OptH a => Some (mkOpts port iocp verbose maxb unl sock (Some a) root)
      | Opth => None
      | OptUnknown => Some o
      end
  end.

(** [None] is the exit in [print_usage]; [rest] the arguments behind the options. *)
Definition parse_opts (opts : list opt) (rest : list (list Z)) : option options :=
  o ← foldl (fun o x => o ← o; parse_opt o x) (Some (mkOpts 0 false 0 0 false None None [])) opts;
  match rest with
  | [_] => Some (mkOpts 80 (o_iocp o) (o_verbose o) (o_max_body_size o) (o_unlink o) (o_unixsock o) (o_bind o) [47])
  | _ => None
  end.
