(* ===== verification/HttpProps.v ===== *)
(** * Properties of the HTTP server *)

From S2P Require Import Prelude HttpUri HttpUriRef HttpUriRun HttpGrammar HttpServer.
From Stdlib Require Ascii String.

Import String.StringSyntax.
Local Open Scope string_scope.

Local Open Scope Z_scope.
Local Open Scope list_scope.

(** ** File names

    The components of a name, and the name with the components that go nowhere or
    back removed: how a name resolves lexically, which is what the kernel makes of
    it when no component is a symbolic link. *)
Fixpoint components (l : list Z) : list (list Z) :=
  match l with
  | [] => [[]]
  | c :: r =>
      if c =? 47 then [] :: components r
      else match components r with h :: t => (c :: h) :: t | [] => [[c]] end
  end.

Definition dot : list Z := [46].
Definition dotdot : list Z := [46; 46].
Definition real (x : list Z) : bool := negb (list_eqb x [] || list_eqb x dot).

Definition enter (at_ : list (list Z)) (x : list Z) : list (list Z) :=
  if list_eqb x dotdot then removelast at_ else if real x then at_ ++ [x] else at_.
Definition normalize (l : list Z) : list (list Z) := fold_left enter (components l) [].

Lemma components_slash a b : components (a ++ 47 :: b) = components a ++ components b.
Proof.
  induction a as [|c a IH]; [reflexivity|]. cbn [components app]. rewrite IH. destruct (c =? 47); [reflexivity|].
  destruct (components a) as [|h t] eqn:E; [|reflexivity]. exfalso. destruct a as [|d a]; cbn in E; [discriminate|].
  destruct (d =? 47); [discriminate|]. destruct (components a); discriminate.
Qed.

Lemma dotdot_component : forall l, In dotdot (components l) -> has_dotdot l = true.
Proof.
  assert (H : forall l h t, components l = h :: t -> (forall x, h = 46 :: x -> exists l', l = 46 :: l')).
  { intros l h t E x ->. destruct l as [|c l]; cbn in E; [discriminate|]. destruct (c =? 47); [discriminate|].
    destruct (components l); injection E as -> _; eauto. }
  induction l as [|c l IH]; [intros [[=]|[]]|]. cbn [components]. destruct (Z.eqb_spec c 47) as [->|N].
  - intros [[=]|Hin]. destruct l as [|d l]; [destruct Hin as [[=]|[]]|]. change (has_dotdot (47 :: d :: l)) with (has_dotdot (d :: l)). exact (IH Hin).
  - assert (T : In dotdot (components l) -> has_dotdot (c :: l) = true).
    { intros Hin. destruct l as [|d l]; [destruct Hin as [[=]|[]]|].
      change (has_dotdot (c :: d :: l)) with ((c =? 46) && (d =? 46) || has_dotdot (d :: l)). rewrite (IH Hin). apply orb_true_r. }
    destruct (components l) as [|h t] eqn:E; [intros [[=]|[]]|]. intros [Heq|Hin]; [|apply T; right; exact Hin].
    injection Heq as -> ->. destruct (H l [46] t E [] eq_refl) as [l' ->]. reflexivity.
Qed.

Lemma enter_forward cs : forall at_, ~ In dotdot cs -> fold_left enter cs at_ = at_ ++ filter real cs.
Proof.
  induction cs as [|x cs IH]; intros at_ Hn; cbn [fold_left]; [rewrite app_nil_r; reflexivity|].
  rewrite IH by (intros H; apply Hn; right; exact H). unfold enter, list_eqb.
  rewrite bool_decide_eq_false_2 by (intros ->; apply Hn; left; reflexivity).
  destruct (real x) eqn:E; [rewrite filter_cons_True by (rewrite E; exact Logic.I) | rewrite filter_cons_False by (rewrite E; tauto)];
    [rewrite <- app_assoc|]; reflexivity.
Qed.

Lemma normalize_below a b : has_dotdot b = false -> normalize (a ++ 47 :: b) = normalize a ++ filter real (components b).
Proof.
  intros H. unfold normalize. rewrite components_slash, fold_left_app. apply enter_forward.
  intros Hin. apply dotdot_component in Hin. congruence.
Qed.

(** ** The document callback *)

(** The text up to its first terminator. *)
Definition upto0 (l : list Z) : list Z := fst (span (fun c => negb (c =? 0)) l).

Lemma cstr_upto l r : cstr (l ++ 0 :: r) = Ret (upto0 l).
Proof.
  unfold upto0. induction l as [|c l IH]; [reflexivity|]. cbn [cstr app span]. destruct (c =? 0); [reflexivity|].
  cbn [negb]. rewrite IH. destruct (span _ l). reflexivity.
Qed.

Section Server.
Context `{M : Malloc} `{L : !MallocSize M} `{I : InetPton} `{C : !InetPtonChars I}.

(** [send_document_cb] once the path has been decoded to [dp]. *)
Definition answer (k : kernel) (docroot path dp : list Z) : outcome (list effect) :=
  let start := [Acquire RUri; Acquire RDecoded] in
  if has_dotdot dp || negb (malloc_ok 9 (length dp + length docroot + 2)) then Ret (start ++ err None ++ done true false false)
  else
    let whole := docroot ++ 47 :: dp in
    let start := start ++ [Acquire RWhole; Stat whole] in
    match k_stat k whole with
    | None => Ret (start ++ err None ++ done true true false)
    | Some is_dir =>
        let! e := if is_dir then send_directory k path dp whole else send_file k dp whole in
        Ret ((start ++ (if evbuffer_new_ok k then [Acquire REvb] else [])) ++ e ++ done true true (evbuffer_new_ok k))
    end.

Lemma txt_path p src : parts_text p = src -> txt src -> txt (p_path p).
Proof.
  intros <- H. unfold parts_text in H. apply txt_app_inv in H as [_ H]. apply txt_app_inv in H as [_ H].
  apply txt_app_inv in H as [H _]. exact H.
Qed.

(** Some request for memory is refused. *)
Definition memory_fails : Prop := exists n size, mm_malloc n size = None.

(** The path of the request after RFC 3986, decoded, up to a zero byte. *)
Definition decoded (p : parts) : list Z := upto0 (unpct false (p_path p)).

(** A GET request: a bad URI, no memory, or the document of the decoded path. *)
Lemma send_document_run k docroot src u input : txt src ->
  (send_document_cb k docroot EVHTTP_REQ_GET (src ++ 0 :: u) input = Ret [SendError HTTP_BADREQUEST] /\
   (memory_fails \/ forall p, parts_text p = src -> parts_syntax p = false)) \/
  exists p, parts_text p = src /\ parts_syntax p = true /\
    (send_document_cb k docroot EVHTTP_REQ_GET (src ++ 0 :: u) input = Ret (Acquire RUri :: err None ++ done false false false) /\
     memory_fails \/
     send_document_cb k docroot EVHTTP_REQ_GET (src ++ 0 :: u) input = answer k docroot (p_path p) (decoded p)).
Proof.
  intros Hs. unfold send_document_cb. change (negb (EVHTTP_REQ_GET =? EVHTTP_REQ_GET)) with false. cbn iota.
  unfold evhttp_uri_parse. destruct (uri_parse_run src u 0 Hs) as (o & -> & Ho). cbn [obind].
  destruct o as [v|].
  2:{ left. split; [reflexivity|]. destruct Ho as [Ho|[_ Ho]]; [right | left; exact Ho]. intros p E1.
      destruct (parts_syntax p) eqn:E2; [|reflexivity]. rewrite (proj2 (split_uri_grammar src p) (conj E1 E2)) in Ho. discriminate. }
  right. destruct Ho as [Ho|[Ho _]]; [|discriminate].
  destruct (split_uri 0 src) as [p|] eqn:Ep; [|discriminate]. injection Ho as ->. apply split_uri_grammar in Ep as [E1 E2].
  exists p. split; [exact E1|]. split; [exact E2|]. assert (Epath : path (uri_of 0 p) = Some (p_path p)).
  { unfold uri_of. destruct (p_auth p); reflexivity. }
  rewrite Epath. pose proof (uridecode_run (p_path p) [] false 8 (txt_path p src E1 Hs)) as R.
  destruct (mm_malloc 8 _) eqn:E8; [|rewrite R; left; split; [reflexivity | eexists _, _; exact E8]]. destruct R as [rest ->]. right. cbn [obind].
  rewrite cstr_upto. cbn [obind]. unfold answer, decoded. set (dp := upto0 _). destruct (has_dotdot dp); [reflexivity|]. cbn [orb].
  destruct (negb (malloc_ok 9 _)); [reflexivity|].
  assert (Et : take (length dp + length docroot + 2 - 1) (docroot ++ 47 :: dp) = docroot ++ 47 :: dp)
    by (apply take_ge; rewrite length_app; cbn; lia).
  rewrite Et. destruct (k_stat k (docroot ++ 47 :: dp)); reflexivity.
Qed.

(** The names that are handed to the kernel. *)
Definition name_of (e : effect) : option (list Z) :=
  match e with Stat p | Opendir p | Open p => Some p | _ => None end.
Definition names (tr : list effect) : list (list Z) := omap name_of tr.

Lemma answer_names k docroot path dp tr q : answer k docroot path dp = Ret tr -> In q (names tr) ->
  q = docroot ++ 47 :: dp /\ has_dotdot dp = false.
Proof.
  unfold answer. destruct (has_dotdot dp); [intros [= <-]; contradiction|]. cbn [orb].
  destruct (negb (malloc_ok 9 _)); [intros [= <-]; contradiction|]. set (whole := docroot ++ 47 :: dp).
  destruct (k_stat k whole) as [[|]|].
  - unfold send_directory. destruct (k_dir k whole); [destruct (evbuffer_new_ok k); [|discriminate]|];
      intros [= <-]; try destruct (evbuffer_new_ok k); cbn; intuition congruence.
  - unfold send_file. destruct (guess_content_type dp); [|discriminate]. cbn [obind]. destruct (k_open k whole) as [fd|].
    + destruct (k_fstat k fd); [destruct (add_file_ok k); [destruct (evbuffer_new_ok k); [|discriminate]|]|];
        intros [= <-]; try destruct (evbuffer_new_ok k); cbn; intuition congruence.
    + intros [= <-]; try destruct (evbuffer_new_ok k); cbn; intuition congruence.
  - intros [= <-]. cbn. intuition congruence.
Qed.

End Server.

(** ** Content types *)
Lemma tolower_char c : char c -> EVUTIL_TOLOWER c <> 0 /\ 0 <= EVUTIL_TOLOWER c.
Proof.
  intros [H N]. pose proof (byte_cases (fun c => (c =? 0) || ((0 <? EVUTIL_TOLOWER c))) (fun _ => true) ltac:(vm_compute; reflexivity) c H) as E.
  cbn beta in E. lia.
Qed.

Lemma strcasecmp_run : forall a b, txt a -> txt b ->
  exists k, evutil_ascii_strcasecmp (a ++ [0]) (b ++ [0]) = Ret k /\ (k =? 0) = list_eqb (map EVUTIL_TOLOWER a) (map EVUTIL_TOLOWER b).
Proof.
  induction a as [|x a IH]; intros [|y b] Ha Hb; unfold list_eqb; cbn [app evutil_ascii_strcasecmp map].
  - exists 0. split; reflexivity.
  - inversion_clear Hb as [|? ? Hy _]. destruct (tolower_char y Hy). change (EVUTIL_TOLOWER 0) with 0.
    rewrite (proj2 (Z.ltb_lt 0 _)) by lia. exists (-1). split; [reflexivity|]. rewrite bool_decide_eq_false_2 by discriminate. reflexivity.
  - inversion_clear Ha as [|? ? Hx _]. destruct (tolower_char x Hx). change (EVUTIL_TOLOWER 0) with 0.
    rewrite (proj2 (Z.ltb_ge _ 0)), (proj2 (Z.ltb_lt 0 _)) by lia. exists 1. split; [reflexivity|].
    rewrite bool_decide_eq_false_2 by discriminate. reflexivity.
  - inversion_clear Ha as [|? ? Hx Ha']. inversion_clear Hb as [|? ? Hy Hb']. destruct (tolower_char x Hx).
    set (l1 := EVUTIL_TOLOWER x) in *. set (l2 := EVUTIL_TOLOWER y).
    destruct (Z.ltb_spec l1 l2); [|destruct (Z.ltb_spec l2 l1)].
    1,2: eexists; (split; [reflexivity|]); rewrite bool_decide_eq_false_2 by (intros [=]; lia); reflexivity.
    rewrite (proj2 (Z.eqb_neq l1 0)) by assumption. destruct (IH b Ha' Hb') as (k & -> & Ek). exists k. split; [reflexivity|]. rewrite Ek.
    replace l2 with l1 by lia. unfold list_eqb. apply bool_decide_ext. split; [intros -> | intros [=]]; congruence.
Qed.

Definition lower_eq (e : list Z) (t : list Z * list Z) : bool := list_eqb (map EVUTIL_TOLOWER (fst t)) (map EVUTIL_TOLOWER e).

Lemma find_type_run table e : txt e -> Forall (fun t => txt (fst t)) table ->
  find_type table e = Ret (match List.find (lower_eq e) table with Some t => snd t | None => bytes "application/misc" end).
Proof.
  intros He Ht. induction Ht as [|[x t] table Hx _ IH]; [reflexivity|]. cbn [find_type List.find].
  destruct (strcasecmp_run x e Hx He) as (k & -> & Ek). cbn [obind]. unfold lower_eq at 1. cbn [fst]. rewrite <- Ek.
  destruct (k =? 0); [reflexivity | exact IH].
Qed.

Lemma table_txt : Forall (fun t => txt (fst t)) content_type_table.
Proof. repeat constructor; cbn; (rlia || discriminate). Qed.

Lemma last_period_suffix s : forall e, last_period s = Some e -> exists b, s = b ++ 46 :: e.
Proof.
  induction s as [|c s IH]; cbn; [discriminate|]. intros e. destruct (last_period s) as [e'|].
  - intros [= ->]. destruct (IH e eq_refl) as [b ->]. exists (c :: b). reflexivity.
  - destruct (Z.eqb_spec c 46) as [->|]; [|discriminate]. intros [= ->]. exists []. reflexivity.
Qed.

(** The type is found by what follows the last point of the last component, in
    capitals or not. *)
Lemma guess_content_type_run s : txt s ->
  guess_content_type s = Ret (match last_period s with
    | None => bytes "application/misc"
    | Some e => if one_of e 47 then bytes "application/misc"
                else match List.find (lower_eq e) content_type_table with Some t => snd t | None => bytes "application/misc" end
    end).
Proof.
  intros Hs. unfold guess_content_type. destruct (last_period s) as [e|] eqn:E; [|reflexivity]. destruct (one_of e 47); [reflexivity|].
  apply last_period_suffix in E as [b ->]. apply txt_app_inv in Hs as [_ Hs]. inversion_clear Hs.
  apply find_type_run; [assumption | apply table_txt].
Qed.

Lemma unpct_u8 plus : forall k l, (length l <= k)%nat -> txt l -> Forall is_u8 (unpct plus l).
Proof.
  induction k as [|k IH]; intros l Hk Hl; (destruct l as [|c l]; [constructor|]); cbn in Hk; [lia|].
  inversion_clear Hl as [|? ? [Hc _] Hl']. cbn [unpct]. destruct ((c =? 43) && plus); [constructor; [rlia | apply IH; [lia | exact Hl']]|].
  assert (D : Forall is_u8 (c :: unpct plus l)) by (constructor; [exact Hc | apply IH; [lia | exact Hl']]).
  destruct l as [|x [|y l]]; try exact D. destruct ((c =? 37) && (hexdig x && hexdig y)) eqn:E; [|exact D].
  apply andb_prop in E as [_ E]. apply andb_prop in E as [Hx Hy]. pose proof (hex_value_range x Hx). pose proof (hex_value_range y Hy).
  constructor; [rlia|]. apply IH; [cbn in Hk; lia|]. inversion_clear Hl' as [|? ? _ H2]. inversion_clear H2. assumption.
Qed.

Lemma upto0_txt l : Forall is_u8 l -> txt (upto0 l).
Proof.
  unfold upto0. induction 1 as [|c l Hc _ IH]; [constructor|]. cbn [span]. destruct (Z.eqb_spec c 0); [constructor|]. cbn [negb].
  destruct (span _ l). constructor; [split; assumption | exact IH].
Qed.

(** ** Replies and resources *)
Definition reply_of (e : effect) : option Z := match e with SendReply c _ | SendError c => Some c | _ => None end.
Definition replies (tr : list effect) : list Z := omap reply_of tr.
Definition printed (tr : list effect) : list Z := concat (omap (fun e => match e with Fwrite s => Some s | _ => None end) tr).

Definition resource_eqb (a b : resource) : bool :=
  match a, b with
  | RUri, RUri | RDecoded, RDecoded | RWhole, RWhole | REvb, REvb | RDir, RDir => true
  | RFd x, RFd y => x =? y
  | _, _ => false
  end.

(** What is held after a run that acquires nothing twice and releases only what is
    held; a descriptor that a buffer takes over is released. *)
Fixpoint hold (h : list resource) (tr : list effect) : option (list resource) :=
  match tr with
  | [] => Some h
  | Acquire r :: tr => if existsb (resource_eqb r) h then None else hold (r :: h) tr
  | Release r :: tr => if existsb (resource_eqb r) h then hold (List.filter (fun x => negb (resource_eqb r x)) h) tr else None
  | _ :: tr => hold h tr
  end.

Lemma dump_input_run : forall fuel buf, (length buf <= fuel)%nat ->
  exists cs, dump_input fuel buf = Ret (map Fwrite cs) /\ concat cs = buf.
Proof.
  induction fuel as [|fuel IH]; intros buf Hf; (destruct buf as [|c buf]; [exists []; split; reflexivity|]); [cbn in Hf; lia|].
  cbn [dump_input]. destruct (IH (drop 128 (c :: buf))) as (cs & -> & E); [rewrite length_drop; cbn in *; lia|].
  cbn [obind]. exists (take 128 (c :: buf) :: cs). split; [reflexivity|]. cbn [concat]. rewrite E. apply take_drop.
Qed.

Lemma dump_run input : exists tr, dump_request_cb input = Ret tr /\ replies tr = [200] /\ hold [] tr = Some [] /\ printed tr = input.
Proof.
  unfold dump_request_cb. destruct (dump_input_run (length input) input (le_n _)) as (cs & -> & E). cbn [obind].
  eexists. split; [reflexivity|]. rewrite <- E. clear E. unfold replies, printed. rewrite !omap_app. cbn [omap list_omap reply_of].
  induction cs as [|c cs (IH1 & IH2 & IH3)]; [repeat split|]. cbn [map app omap list_omap reply_of concat hold].
  split; [exact IH1|]. split; [exact IH2|]. cbn [concat app] in *. rewrite app_nil_r in *. congruence.
Qed.

Section Answers.
Context `{M : Malloc} `{L : !MallocSize M} `{I : InetPton} `{C : !InetPtonChars I}.

(** The document with this name: the page of a directory, the contents of a file. *)
Definition document (k : kernel) (path dp name : list Z) : option (list chunk) :=
  match k_stat k name with
  | Some true =>
      names ← k_dir k name;
      Some (Text (index_head dp path (trailing_slash path)) :: map (fun n => Text (index_entry n)) names ++ [Text index_foot])
  | Some false => fd ← k_open k name; size ← k_fstat k fd; Some [FileChunk fd size]
  | None => None
  end.

(** The answer to a GET: the document, or 404. *)
Definition document_code (k : kernel) (docroot path dp : list Z) (tr : list effect) (c : Z) : Prop :=
  match (if has_dotdot dp then None else document k path dp (docroot ++ 47 :: dp)) with
  | Some body => c = 200 /\ In (SendReply 200 body) tr
  | None => c = 404
  end.

Lemma answer_run k docroot path dp : evbuffer_new_ok k = true -> add_file_ok k = true -> txt dp ->
  exists tr c, answer k docroot path dp = Ret tr /\ hold [] tr = Some [] /\ replies tr = [c] /\
    (document_code k docroot path dp tr c \/ memory_fails /\ c = 404).
Proof.
  intros He Ha Hdp. unfold answer, document_code, document. rewrite He.
  destruct (has_dotdot dp); [eexists _, 404; repeat split; left; reflexivity|]. cbn [orb].
  destruct (malloc_ok 9 _) eqn:Em; [|eexists _, 404; repeat split; right; split; [exact (malloc_fails _ _ Em) | reflexivity]].
  cbn [negb]. set (whole := docroot ++ 47 :: dp).
  destruct (k_stat k whole) as [[|]|]; [| |eexists _, 404; repeat split; left; reflexivity].
  - unfold send_directory. rewrite He. destruct (k_dir k whole) as [ns|]; eexists _, _; repeat split; left; [|reflexivity].
    cbn [mbind option_bind]. split; [reflexivity|]. apply in_or_app. right. apply in_or_app. left. cbn. auto 6.
  - unfold send_file. rewrite (guess_content_type_run dp Hdp), He, Ha. cbn [obind].
    destruct (k_open k whole) as [fd|]; [|eexists _, 404; repeat split; left; reflexivity]. cbn [mbind option_bind].
    destruct (k_fstat k fd) as [size|]; eexists _, _; (split; [reflexivity|]); cbn [negb app hold];
      cbn; rewrite Z.eqb_refl; cbn; (split; [reflexivity|]); (split; [reflexivity|]); left; [|reflexivity].
    split; [reflexivity|]. auto 12.
Qed.

Lemma split_uri_text fl s p : split_uri fl s = Some p -> parts_text p = s.
Proof.
  unfold split_uri. destruct (split_scheme s) as [sc r] eqn:E1. destruct (split_slashes r) as [au r'] eqn:E2.
  apply split_scheme_text in E1 as [-> _]. apply split_slashes_text in E2 as ->.
  assert (T : forall au, split_tail fl sc au r' = Some p -> parts_text p = post 58 sc ++ slashes_text au ++ r').
  { intros au' E. pose proof (split_tail_parts _ _ _ _ _ E) as [<- <-]. unfold parts_text. do 2 f_equal. revert E.
    unfold split_tail. destruct (part_span _ _ r') as [pa r0] eqn:F0. destruct (split_opt 63 _ _ _) as [qu r1] eqn:F1.
    destruct (split_opt 35 _ _ _) as [fr r2] eqn:F2. destruct r2; [|discriminate]. destruct (_ && _); [|discriminate].
    intros [= <-]. cbn. rewrite (part_span_app _ _ _ _ _ F0), (split_opt_text _ _ _ _ _ _ F1), (split_opt_text _ _ _ _ _ _ F2), app_nil_r. reflexivity. }
  destruct au as [a|]; [destruct (auth_syntax a); [|discriminate]|]; apply T.
Qed.

Lemma uri_of_path fl p : path (uri_of fl p) = Some (p_path p).
Proof. unfold uri_of. destruct (p_auth p); reflexivity. Qed.

(** The callback is found by the decoded path. *)
Lemma dispatch_run cbs req p : path (uri_elems req) = Some p -> txt p ->
  exists cb, evhttp_dispatch_callback cbs req = Ret cb /\
    (cb = snd <$> List.find (fun x => list_eqb (fst x) (upto0 (unpct false p))) cbs \/ cb = None /\ memory_fails).
Proof.
  intros Hp Ht. unfold evhttp_dispatch_callback. rewrite Hp.
  destruct (mm_malloc 7 (length p + 1)) as [m|] eqn:Em; [|exists None; split; [reflexivity | right; split; [reflexivity | eexists _, _; exact Em]]].
  apply mm_malloc_size in Em. unfold evhttp_decode_uri_internal.
  destruct (decode_run (p ++ [0]) [] 0 false ltac:(lia) (length p) p 0 [] m eq_refl Ht (le_n _) ltac:(lia)) as [rest E].
  cbn [app length Nat.add] in E. change (0 =? 1) with false. rewrite E. cbn [obind]. rewrite cstr_upto. cbn [obind]. eauto.
Qed.

(** The request is for the page that dumps it. *)
Definition for_dump (req : evhttp_request) : Prop :=
  exists p, path (uri_elems req) = Some p /\ upto0 (unpct false p) = bytes "/dump".

(** The code of the answer to a request, and what goes with it. *)
Inductive right_code (k : kernel) (docroot : list Z) (req : evhttp_request) (src : list Z) (tr : list effect) : Z -> Prop :=
| code_method : Z.land allowed_methods (req_type req) = 0 -> right_code k docroot req src tr 501
| code_dump : Z.land allowed_methods (req_type req) <> 0 -> req_type req <> EVHTTP_REQ_GET \/ for_dump req ->
    printed tr = input_buffer req -> right_code k docroot req src tr 200
| code_uri : req_type req = EVHTTP_REQ_GET -> ~ for_dump req ->
    (forall p, parts_text p = src -> parts_syntax p = false) -> right_code k docroot req src tr 400
| code_document p c : req_type req = EVHTTP_REQ_GET -> ~ for_dump req ->
    parts_text p = src -> parts_syntax p = true -> document_code k docroot (p_path p) (decoded p) tr c ->
    right_code k docroot req src tr c
| code_memory c : req_type req = EVHTTP_REQ_GET -> memory_fails -> In c [200; 400; 404] -> right_code k docroot req src tr c.

(** ** Properties *)

(** C26: every name that a request for a document makes the server look up is the
    document root followed by a slash and the decoded path of the request, and
    resolves lexically to the root's directory and components after it: no [..]
    leads out of it.  Symbolic links are not resolved here; the kernel follows
    those it finds, as the comment in the source says. *)
Theorem served_path_contained k docroot src u input tr q : txt src ->
  send_document_cb k docroot EVHTTP_REQ_GET (src ++ 0 :: u) input = Ret tr -> In q (names tr) ->
  exists p, parts_text p = src /\ parts_syntax p = true /\ q = docroot ++ 47 :: decoded p /\
    normalize q = normalize docroot ++ filter real (components (decoded p)).
Proof.
  intros Hs E Hin. destruct (send_document_run k docroot src u input Hs) as [[R _]|(p & E1 & E2 & [[R _]|R])]; rewrite R in E.
  - injection E as <-. contradiction.
  - injection E as <-. contradiction.
  - destruct (answer_names k docroot _ _ tr q E Hin) as [-> Hd]. exists p. repeat (split; [assumption || reflexivity|]). apply normalize_below, Hd.
Qed.


End Answers.

(** The root is /s, which holds one file, x/y.GIF. *)
Definition kernel0 : kernel :=
  mkKernel (fun p => if list_eqb p (bytes "/s//x/y.GIF") then Some false else None) (fun _ => None)
    (fun _ => Some 5) (fun _ => Some 1000) true true.
Definition root0 : list Z := bytes "/s".
Definition uri0 : list Z := bytes "/x%2Fy.GIF?q".

Lemma served_path_contained_witness : exists tr p,
  @send_document_cb malloc_all pton_loopback kernel0 root0 EVHTTP_REQ_GET (uri0 ++ [0]) [] = Ret tr /\
  parts_text p = uri0 /\ normalize (bytes "/s//x/y.GIF") = normalize root0 ++ filter real (components (decoded p)).
Proof.
  destruct (@send_document_cb malloc_all pton_loopback kernel0 root0 EVHTTP_REQ_GET (uri0 ++ [0]) []) as [tr|] eqn:E; [|vm_compute in E; discriminate].
  destruct (@served_path_contained malloc_all malloc_all_size pton_loopback pton_loopback_chars kernel0 root0 uri0 [] [] tr (bytes "/s//x/y.GIF")
    ltac:(apply txt_check; reflexivity) E) as (p & E1 & E2 & E3 & E4); [vm_compute in E; injection E as <-; vm_compute; auto|].
  exists tr, p. split; [reflexivity|]. split; [exact E1 | exact E4].
Defined.

Definition request0 : evhttp_request :=
  mkReq EVHTTP_REQ_GET (Some (uri0 ++ [0])) 0 (mkUri 1 None None None (-1) (Some (bytes "/x%2Fy.GIF")) (Some [113]) None) [].


(** ** Without a buffer *)

(** [evbuffer_new] is not checked: without memory for the buffer, a document that is
    there ends the server. *)
Lemma no_buffer_crash : @send_document_cb malloc_all pton_loopback
  (mkKernel (k_stat kernel0) (k_dir kernel0) (k_open kernel0) (k_fstat kernel0) false true) root0 EVHTTP_REQ_GET (uri0 ++ [0]) [] = Crash NullDeref.
Proof. vm_compute. reflexivity. Qed.

(** When the file cannot be added to the buffer its descriptor stays open, and the
    empty document is sent with 200. *)
Lemma add_file_leak : exists tr, @send_document_cb malloc_all pton_loopback
  (mkKernel (k_stat kernel0) (k_dir kernel0) (k_open kernel0) (k_fstat kernel0) true false) root0 EVHTTP_REQ_GET (uri0 ++ [0]) [] = Ret tr /\
  hold [] tr = Some [RFd 5] /\ replies tr = [200].
Proof. eexists. split; [vm_compute; reflexivity|]. split; reflexivity. Qed.

(** Whatever document root and port are asked for, the root is the whole file system
    and the port 80. *)
Lemma parse_opts_root opts rest o : parse_opts opts rest = Some o -> o_docroot o = [47] /\ o_port o = 80 /\ normalize (o_docroot o) = [].
Proof.
  unfold parse_opts. destruct (foldl _ _ opts) as [o'|]; cbn [mbind option_bind]; [|discriminate].
  destruct rest as [|r [|]]; try discriminate. intros [= <-]. repeat split.
Qed.
