(* ===== verification/RtpFrame.v ===== *)
(** * Media sources of the RTSP server (rtsp/rtp.h, rtsp/media.h, rtsp/*Source.cpp)

    A source cuts a frame into RTP payloads.  Each packet is a block of 1600
    bytes the packet objects share by reference: [heap] is the list of the blocks
    made so far, and [data] is the index of one.  [fresh n] is what the [n]-th
    block holds when it is made, which the code does not set.  The bytes 0..3 of
    a block are for the TCP framing, 4..15 for the RTP header, both written by the
    connections (RtpConn.v); the payload starts at 16.  [sendFrameCallback] is the
    callback the session installs; it works on the heap and a state of its own.

    The reference is the list of the payloads of a frame, and a receiver that puts
    the access units together again (RFC 6184 5.6 and 5.8, RFC 7798 4.4.3, RFC
    3640 3.3.6). *)

From S2P Require Import Prelude.

Local Open Scope Z_scope.

Definition RTP_HEADER_SIZE : nat := 12.
Definition MAX_RTP_PAYLOAD_SIZE : Z := 1420.
Definition BLOCK_SIZE : nat := 1600.

Abbreviation MediaChannelId := nat (only parsing).

(** [struct AVFrame]; [buffer] has [size + 1] bytes. *)
Record AVFrame := mkFrame { buffer : list Z; size : Z; type : Z; timestamp : Z }.

(** [struct RtpPacket]; [D] is what stands for the reference [data], here an index of the heap. *)
Record RtpPacket (D : Type) := mkPacket { data : D; pkt_size : Z; pkt_timestamp : Z; pkt_type : Z; last : Z }.
Arguments mkPacket {D}.
Arguments data {D}.
Arguments pkt_size {D}.
Arguments pkt_timestamp {D}.
Arguments pkt_type {D}.
Arguments last {D}.

Abbreviation heap := (list (list Z)).

(** [memcpy(b + i, src, n)] *)
Definition memcpy (b : list Z) (i : nat) (src : list Z) (n : Z) : outcome (list Z) :=
  if n <=? lenZ src then stores b i (take (Z.to_nat n) src) else Crash OutOfBounds.

(** A change of the bytes behind a packet's [data]. *)
Definition on_block (h : heap) (d : nat) (f : list Z -> outcome (list Z)) : outcome heap :=
  match h !! d with
  | Some b => let! b := f b in Ret (<[d := b]> h)
  | None => Crash NullDeref
  end.

(** [H264Source::getTimeStamp]: [us] is the steady clock in microseconds. *)
Definition getTimeStamp (us : Z) : Z := u32 ((us + 500) / 1000 * 90).

Section source.
Context {W : Type} (fresh : nat -> list Z).

Definition state : Type := heap * W.
Definition SendFrameCallback : Type := MediaChannelId -> RtpPacket nat -> state -> outcome (bool * state).

(** [RtpPacket()]: the index of the new block and the heap with it. *)
Definition new_block (h : heap) : nat * heap := (length h, h ++ [fresh (length h)]).

Context (sendFrameCallback : option SendFrameCallback).

(** [if (_sendFrameCallback) if (!_sendFrameCallback(channelId, rtpPkt)) return false;] *)
Definition send_frame (channelId : MediaChannelId) (pkt : RtpPacket nat) (s : state) : outcome (bool * state) :=
  match sendFrameCallback with Some cb => cb channelId pkt s | None => Ret (true, s) end.

(** A packet whose payload is the bytes [hd] and [n] bytes of [src], handed on. *)
Definition send_packet (channelId : MediaChannelId) (hd src : list Z) (n ts ty lst : Z) (s : state) :
    outcome (bool * state) :=
  let (d, h) := new_block s.1 in
  let! h := on_block h d (fun b =>
    let! b := stores b (4 + RTP_HEADER_SIZE) hd in
    memcpy b (4 + RTP_HEADER_SIZE + length hd) src n) in
  send_frame channelId (mkPacket d (u32 (16 + lenZ hd + n)) ts ty lst) (h, s.2).

(** The fragments of a unit: [FU] is the array without its last byte, [x] the
    last byte, [frameBuf] and [frameSize] what is left.  A round takes bytes of
    the buffer or crashes, so its length bounds the rounds. *)
Fixpoint fu_loop (fuel : nat) (channelId : MediaChannelId) (FU : list Z) (x : Z) (frameBuf : list Z) (frameSize ts ty : Z)
    (s : state) : outcome (bool * state) :=
  match fuel with
  | O => Crash Diverge
  | S fuel =>
      let n := lenZ FU + 1 in
      if MAX_RTP_PAYLOAD_SIZE <? u32 (frameSize + n) then
        let! (ok, s) := send_packet channelId (FU ++ [x]) frameBuf (MAX_RTP_PAYLOAD_SIZE - n) ts ty 0 s in
        if ok then
          fu_loop fuel channelId FU (u8 (Z.land x (Z.lnot 0x80))) (drop (Z.to_nat (MAX_RTP_PAYLOAD_SIZE - n)) frameBuf)
            (u32 (frameSize - (MAX_RTP_PAYLOAD_SIZE - n))) ts ty s
        else Ret (false, s)
      else send_packet channelId (FU ++ [u8 (Z.lor x 0x40)]) frameBuf frameSize ts ty 1 s
  end.

Definition stamped (us : Z) (frame : AVFrame) : Z :=
  if timestamp frame =? 0 then getTimeStamp us else timestamp frame.

(** [H264Source::handleFrame] *)
Definition H264_handleFrame (us : Z) (channelId : MediaChannelId) (frame : AVFrame) (s : state) : outcome (bool * state) :=
  let ts := stamped us frame in
  if size frame <=? MAX_RTP_PAYLOAD_SIZE then
    send_packet channelId [] (buffer frame) (size frame) ts (type frame) 1 s
  else
    let! b0 := get8 (buffer frame) 0 in
    fu_loop (S (length (buffer frame))) channelId [Z.lor (Z.land b0 0xE0) 28] (Z.lor 0x80 (Z.land b0 0x1f))
      (drop 1 (buffer frame)) (u32 (size frame - 1)) ts (type frame) s.

(** [H265Source::handleFrame] *)
Definition H265_handleFrame (us : Z) (channelId : MediaChannelId) (frame : AVFrame) (s : state) : outcome (bool * state) :=
  let ts := stamped us frame in
  if size frame <=? MAX_RTP_PAYLOAD_SIZE then
    send_packet channelId [] (buffer frame) (size frame) ts (type frame) 1 s
  else
    let! b0 := get8 (buffer frame) 0 in
    let! b1 := get8 (buffer frame) 1 in
    let nalUnitType := Z.shiftr (Z.land b0 0x7E) 1 in
    fu_loop (S (length (buffer frame))) channelId [Z.lor (Z.land b0 0x81) (Z.shiftl 49 1); b1] (Z.lor 0x80 nalUnitType)
      (drop 2 (buffer frame)) (u32 (size frame - 2)) ts (type frame) s.

Definition ADTS_SIZE : Z := 7.
Definition AU_SIZE : Z := 4.

(** [AACSource::handleFrame]; what the callback returns is not looked at. *)
Definition AAC_handleFrame (hasADTS : bool) (channelId : MediaChannelId) (frame : AVFrame) (s : state) :
    outcome (bool * state) :=
  if MAX_RTP_PAYLOAD_SIZE - AU_SIZE <? size frame then Ret (false, s)
  else
    let adtsSize := if hasADTS then ADTS_SIZE else 0 in
    let frameSize := u32 (size frame - adtsSize) in
    let AU := [0x00; 0x10; u8 (Z.shiftr (Z.land frameSize 0x1fe0) 5); u8 (Z.shiftl (Z.land frameSize 0x1f) 3)] in
    let! (_, s) := send_packet channelId AU (drop (Z.to_nat adtsSize) (buffer frame)) frameSize (timestamp frame) (type frame) 1 s in
    Ret (true, s).

(** [G711ASource::handleFrame] *)
Definition G711A_handleFrame (channelId : MediaChannelId) (frame : AVFrame) (s : state) : outcome (bool * state) :=
  if MAX_RTP_PAYLOAD_SIZE <? size frame then Ret (false, s)
  else
    let! (_, s) := send_packet channelId [] (buffer frame) (size frame) (timestamp frame) (type frame) 1 s in
    Ret (true, s).
End source.

(** ** The payloads of a frame *)

(** A payload and its marker. *)
Abbreviation marked := (list Z * Z)%type.

Fixpoint cut (fuel : nat) (FU : list Z) (x : Z) (rest : list Z) : list marked :=
  match fuel with
  | O => []
  | S fuel =>
      let step := Z.to_nat (MAX_RTP_PAYLOAD_SIZE - (lenZ FU + 1)) in
      if MAX_RTP_PAYLOAD_SIZE <? lenZ rest + (lenZ FU + 1) then
        ((FU ++ [x]) ++ take step rest, 0) :: cut fuel FU (Z.land x 0x7f) (drop step rest)
      else [((FU ++ [Z.lor x 0x40]) ++ rest, 1)]
  end.

Definition h264_payloads (nal : list Z) : list marked :=
  match nal with
  | b0 :: rest =>
      if lenZ nal <=? MAX_RTP_PAYLOAD_SIZE then [(nal, 1)]
      else cut (S (length nal)) [Z.lor (Z.land b0 0xE0) 28] (Z.lor 0x80 (Z.land b0 0x1f)) rest
  | [] => [([], 1)]
  end.

Definition h265_payloads (nal : list Z) : list marked :=
  match nal with
  | b0 :: b1 :: rest =>
      if lenZ nal <=? MAX_RTP_PAYLOAD_SIZE then [(nal, 1)]
      else cut (S (length nal)) [Z.lor (Z.land b0 0x81) 98; b1] (Z.lor 0x80 (Z.shiftr (Z.land b0 0x7E) 1)) rest
  | _ => [(nal, 1)]
  end.

(** The bytes of a frame, and what its fields must be for the code to read inside the buffer. *)
Definition bytes_of (frame : AVFrame) : list Z := take (Z.to_nat (size frame)) (buffer frame).
Definition frame_ok (frame : AVFrame) : Prop :=
  0 <= size frame <= INT_MAX /\ size frame <= lenZ (buffer frame) /\ Forall is_u8 (buffer frame).

(** ** A receiver *)

Inductive part := Whole (nal : list Z) | Fragment (first final : bool) (hd body : list Z).

Definition parse_h264 (p : list Z) : option part :=
  match p with
  | b :: r =>
      let t := Z.land b 31 in
      if (1 <=? t) && (t <=? 23) then Some (Whole p)
      else if t =? 28 then
        match r with
        | f :: r => Some (Fragment (Z.testbit f 7) (Z.testbit f 6) [Z.lor (Z.land b 0xE0) (Z.land f 0x1f)] r)
        | [] => None
        end
      else None
  | [] => None
  end.

Definition parse_h265 (p : list Z) : option part :=
  match p with
  | b0 :: b1 :: r =>
      let t := Z.shiftr (Z.land b0 0x7E) 1 in
      if t <? 48 then Some (Whole p)
      else if t =? 49 then
        match r with
        | f :: r => Some (Fragment (Z.testbit f 7) (Z.testbit f 6) [Z.lor (Z.land b0 0x81) (Z.shiftl (Z.land f 0x3f) 1); b1] r)
        | [] => None
        end
      else None
  | _ => None
  end.

(** [acc] is the unit that has begun; a fragment out of place is an error. *)
Fixpoint reassemble (parse : list Z -> option part) (acc : option (list Z)) (ps : list (list Z)) : option (list (list Z)) :=
  match ps with
  | [] => match acc with None => Some [] | Some _ => None end
  | p :: ps =>
      match parse p, acc with
      | Some (Whole u), None => cons u <$> reassemble parse None ps
      | Some (Fragment true final hd body), None =>
          if final then cons (hd ++ body) <$> reassemble parse None ps else reassemble parse (Some (hd ++ body)) ps
      | Some (Fragment false final _ body), Some u =>
          if final then cons (u ++ body) <$> reassemble parse None ps else reassemble parse (Some (u ++ body)) ps
      | _, _ => None
      end
  end.

(** One access unit behind an AU header section of 16 bits: 13 of size, 3 of index. *)
Definition au_payload (au : list Z) : list Z := [0; 16; lenZ au / 32; 8 * (lenZ au mod 32)] ++ au.

Definition parse_au (p : list Z) : option (list Z) :=
  match p with
  | 0 :: 16 :: a :: b :: au => if (256 * a + b) / 8 =? lenZ au then Some au else None
  | _ => None
  end.

(** A unit whose type is the payload format's own: its first byte has a type a
    packet can carry whole. *)
Definition h264_nal (nal : list Z) : Prop := exists b r, nal = b :: r /\ (1 <=? Z.land b 31) && (Z.land b 31 <=? 23) = true.
Definition h265_nal (nal : list Z) : Prop := exists b0 b1 r, nal = b0 :: b1 :: r /\ (Z.shiftr (Z.land b0 0x7E) 1 <? 48) = true.

(** ** Reassembly *)

Definition fu_byte (s e : bool) (t : Z) : Z := (if s then 128 else 0) + (if e then 64 else 0) + t.

Lemma fu_byte_bits s t : 0 <= t < 64 ->
  Z.land (fu_byte s false t) 0x7f = fu_byte false false t /\ Z.lor (fu_byte s false t) 0x40 = fu_byte s true t /\
  Z.lor 0x80 t = fu_byte true false t.
Proof.
  intros H. assert (K : is_u8 t) by rlia.
  pose proof (byte_all (fun t => (64 <=? t) || (Z.land (fu_byte s false t) 0x7f =? fu_byte false false t)
    && (Z.lor (fu_byte s false t) 0x40 =? fu_byte s true t) && (Z.lor 0x80 t =? fu_byte true false t))
    ltac:(destruct s; vm_compute; reflexivity) t K) as E.
  cbn beta in E. lia.
Qed.

Lemma fu_byte_fields s e t : 0 <= t < 64 ->
  Z.testbit (fu_byte s e t) 7 = s /\ Z.testbit (fu_byte s e t) 6 = e /\ Z.land (fu_byte s e t) 0x3f = t /\
  Z.land (fu_byte s e t) 0x1f = Z.land t 0x1f.
Proof.
  intros H. assert (K : is_u8 t) by rlia.
  pose proof (byte_all (fun t => (64 <=? t) || Bool.eqb (Z.testbit (fu_byte s e t) 7) s && Bool.eqb (Z.testbit (fu_byte s e t) 6) e
    && (Z.land (fu_byte s e t) 0x3f =? t) && (Z.land (fu_byte s e t) 0x1f =? Z.land t 0x1f))
    ltac:(destruct s, e; vm_compute; reflexivity) t K) as E.
  cbn beta in E. rewrite (proj2 (Z.leb_gt 64 t)) in E by lia. cbn [orb] in E. rewrite !andb_true_iff in E.
  destruct E as [[[A B] C] D]. apply eqb_prop in A, B. split_and!; [assumption | assumption | lia | lia].
Qed.

(** Any fuel beyond the length gives the same list. *)
Lemma cut_fuel FU : lenZ FU < 1000 -> forall f g x rest, (length rest < f)%nat -> (length rest < g)%nat -> cut f FU x rest = cut g FU x rest.
Proof.
  intros HF f. induction f as [|f IH]; intros [|g] x rest Hf Hg; try lia. cbn [cut]. zcase; [|reflexivity]. f_equal.
  apply IH; rewrite length_drop; unfold MAX_RTP_PAYLOAD_SIZE in *; lia.
Qed.

Section reassembly.
Context (parse : list Z -> option part) (FU hd : list Z) (t : Z).
Hypothesis (Hn : lenZ FU < 1000) (Ht : 0 <= t < 64).
Hypothesis parse_fu : forall s e body, parse ((FU ++ [fu_byte s e t]) ++ body) = Some (Fragment s e hd body).

Lemma reassemble_cut fuel : forall rest ps u, (length rest < fuel)%nat ->
  reassemble parse (Some u) (map fst (cut fuel FU (fu_byte false false t) rest) ++ ps) = cons (u ++ rest) <$> reassemble parse None ps.
Proof.
  induction fuel as [|fuel IH]; intros rest ps u H; [lia|].
  destruct (fu_byte_bits false t Ht) as (E1 & E2 & _). cbn [cut]. rewrite E1, E2. zcase; cbn [map fst app reassemble]; rewrite parse_fu; [|reflexivity].
  rewrite IH by (rewrite length_drop; unfold MAX_RTP_PAYLOAD_SIZE in *; lia). rewrite <- app_assoc, take_drop. reflexivity.
Qed.

Lemma reassemble_unit fuel rest ps : (length rest < fuel)%nat -> MAX_RTP_PAYLOAD_SIZE < lenZ rest + (lenZ FU + 1) ->
  reassemble parse None (map fst (cut fuel FU (fu_byte true false t) rest) ++ ps) = cons (hd ++ rest) <$> reassemble parse None ps.
Proof.
  intros H L. destruct fuel as [|fuel]; [lia|].
  destruct (fu_byte_bits true t Ht) as (E1 & _). cbn [cut]. rewrite E1, (proj2 (Z.ltb_lt _ _) L). cbn [map fst app reassemble].
  rewrite parse_fu, reassemble_cut by (rewrite length_drop; unfold MAX_RTP_PAYLOAD_SIZE in *; lia). rewrite <- app_assoc, take_drop. reflexivity.
Qed.
End reassembly.

(** The fragments of a unit of each format are parsed as such. *)
Lemma h264_fu b : is_u8 b -> 0 <= Z.land b 0x1f < 32 /\
  forall s e body, parse_h264 (([Z.lor (Z.land b 0xE0) 28] ++ [fu_byte s e (Z.land b 0x1f)]) ++ body) = Some (Fragment s e [b] body).
Proof.
  intros H.
  pose proof (byte_all (fun b => (Z.land (Z.lor (Z.land b 0xE0) 28) 31 =? 28) && (0 <=? Z.land b 0x1f) && (Z.land b 0x1f <? 32)
    && (Z.lor (Z.land (Z.lor (Z.land b 0xE0) 28) 0xE0) (Z.land (Z.land b 0x1f) 0x1f) =? b)) ltac:(vm_compute; reflexivity) b H) as E.
  cbn beta in E. rewrite !andb_true_iff in E. destruct E as [[[E1 E2] E3] E4]. split; [lia|]. intros s e body.
  destruct (fu_byte_fields s e (Z.land b 0x1f)) as (F1 & F2 & _ & F4); [lia|].
  cbn [parse_h264 app]. apply Z.eqb_eq in E1, E4. rewrite E1, F1, F2, F4, E4. reflexivity.
Qed.

Lemma h265_fu b b1 : is_u8 b -> let t := Z.shiftr (Z.land b 0x7E) 1 in 0 <= t < 64 /\
  forall s e body, parse_h265 (([Z.lor (Z.land b 0x81) 98; b1] ++ [fu_byte s e t]) ++ body) = Some (Fragment s e [b; b1] body).
Proof.
  intros H t.
  pose proof (byte_all (fun b => let t := Z.shiftr (Z.land b 0x7E) 1 in (Z.shiftr (Z.land (Z.lor (Z.land b 0x81) 98) 0x7E) 1 =? 49)
    && (0 <=? t) && (t <? 64) && (Z.lor (Z.land (Z.lor (Z.land b 0x81) 98) 0x81) (Z.shiftl t 1) =? b)) ltac:(vm_compute; reflexivity) b H) as E.
  cbv zeta beta in E. fold t in E. rewrite !andb_true_iff in E. destruct E as [[[E1 E2] E3] E4]. split; [lia|]. intros s e body.
  destruct (fu_byte_fields s e t) as (F1 & F2 & F3 & _); [lia|].
  cbn [parse_h265 app]. apply Z.eqb_eq in E1, E4. rewrite E1, F1, F2, F3, E4. reflexivity.
Qed.

Lemma h264_reassemble nal ps : Forall is_u8 nal -> h264_nal nal ->
  reassemble parse_h264 None (map fst (h264_payloads nal) ++ ps) = cons nal <$> reassemble parse_h264 None ps.
Proof.
  intros B (b & r & -> & T). unfold h264_payloads. zcase.
  - cbn [map fst app reassemble parse_h264]. rewrite T. reflexivity.
  - apply Forall_cons in B as [B _]. destruct (h264_fu b B) as [R P].
    destruct (fu_byte_bits true (Z.land b 0x1f)) as (_ & _ & ->); [lia|].
    rewrite (reassemble_unit parse_h264 [_] [b] (Z.land b 0x1f) ltac:(cbn; lia) ltac:(lia) P) by (cbn [length] in *; lia). reflexivity.
Qed.

Lemma h265_reassemble nal ps : Forall is_u8 nal -> h265_nal nal ->
  reassemble parse_h265 None (map fst (h265_payloads nal) ++ ps) = cons nal <$> reassemble parse_h265 None ps.
Proof.
  intros B (b & b1 & r & -> & T). unfold h265_payloads. zcase.
  - cbn [map fst app reassemble parse_h265]. rewrite T. reflexivity.
  - apply Forall_cons in B as [B _]. destruct (h265_fu b b1 B) as [R P].
    destruct (fu_byte_bits true (Z.shiftr (Z.land b 0x7E) 1)) as (_ & _ & ->); [lia|].
    rewrite (reassemble_unit parse_h265 [_; _] [b; b1] (Z.shiftr (Z.land b 0x7E) 1) ltac:(cbn; lia) ltac:(lia) P) by (cbn [length] in *; lia). reflexivity.
Qed.

Lemma parse_au_payload au : parse_au (au_payload au) = Some au.
Proof.
  unfold parse_au, au_payload. cbn [app]. rewrite (proj2 (Z.eqb_eq _ _)); [reflexivity|].
  pose proof (Z.div_mod (lenZ au) 32 ltac:(lia)) as D. set (n := lenZ au) in *.
  replace (256 * (n / 32) + 8 * (n mod 32)) with (n * 8) by lia. apply Z.div_mul. lia.
Qed.

Lemma u8_fix x : (u8 x =? x) = true -> is_u8 x.
Proof. intros E%Z.eqb_eq. rewrite <- E. apply u8_range. Qed.

(** Payloads are bytes and keep the limit. *)
Definition payload_ok (p : marked) : Prop := Forall is_u8 p.1 /\ lenZ p.1 <= MAX_RTP_PAYLOAD_SIZE.

Lemma cut_ok FU : lenZ FU < 1000 -> Forall is_u8 FU -> forall fuel x rest, is_u8 x -> Forall is_u8 rest -> Forall payload_ok (cut fuel FU x rest).
Proof.
  intros HF BF. assert (M : MAX_RTP_PAYLOAD_SIZE = 1420) by reflexivity. induction fuel as [|fuel IH]; intros x rest Bx Br; [constructor|].
  pose proof (byte_all (fun x => (u8 (Z.land x 0x7f) =? Z.land x 0x7f) && (u8 (Z.lor x 0x40) =? Z.lor x 0x40)) ltac:(vm_compute; reflexivity) x Bx) as Ex.
  apply andb_prop in Ex as [X1%u8_fix X2%u8_fix]. cbn [cut]. zcase.
  - constructor; [|apply IH; [exact X1 | apply Forall_drop, Br]].
    split; cbn [fst]; [rewrite !Forall_app; split_and!; [exact BF | constructor; [exact Bx | constructor] | apply Forall_take, Br]|].
    rewrite !length_app, length_take. cbn [length]. lia.
  - constructor; [|constructor]. split; cbn [fst]; [rewrite !Forall_app; split_and!; [exact BF | constructor; [exact X2 | constructor] | exact Br]|].
    rewrite !length_app. cbn [length]. lia.
Qed.

Lemma h264_payloads_ok nal : Forall is_u8 nal -> Forall payload_ok (h264_payloads nal).
Proof.
  intros B. unfold h264_payloads. destruct nal as [|b r]; [constructor; [split; [exact B | cbn; unfold MAX_RTP_PAYLOAD_SIZE; lia] | constructor]|].
  zcase; [constructor; [split; assumption | constructor]|]. apply Forall_cons in B as [B0 Br].
  pose proof (byte_all (fun b => (u8 (Z.lor (Z.land b 0xE0) 28) =? Z.lor (Z.land b 0xE0) 28)
    && (u8 (Z.lor 0x80 (Z.land b 0x1f)) =? Z.lor 0x80 (Z.land b 0x1f))) ltac:(vm_compute; reflexivity) b B0) as [X1%u8_fix X2%u8_fix]%andb_prop.
  apply cut_ok; [cbn; lia | constructor; [exact X1 | constructor] | exact X2 | exact Br].
Qed.

Lemma h265_payloads_ok nal : Forall is_u8 nal -> Forall payload_ok (h265_payloads nal).
Proof.
  intros B. assert (S : lenZ nal <= MAX_RTP_PAYLOAD_SIZE -> Forall payload_ok [(nal, 1)]) by (intros L; constructor; [split; assumption | constructor]).
  unfold h265_payloads. destruct nal as [|b [|b1 r]]; [apply S; cbn; unfold MAX_RTP_PAYLOAD_SIZE; lia | apply S; cbn; unfold MAX_RTP_PAYLOAD_SIZE; lia|].
  zcase; [apply S; assumption|]. apply Forall_cons in B as [B0 [B1 Br]%Forall_cons].
  pose proof (byte_all (fun b => (u8 (Z.lor (Z.land b 0x81) 98) =? Z.lor (Z.land b 0x81) 98)
    && (u8 (Z.lor 0x80 (Z.shiftr (Z.land b 0x7E) 1)) =? Z.lor 0x80 (Z.shiftr (Z.land b 0x7E) 1))) ltac:(vm_compute; reflexivity) b B0) as [X1%u8_fix X2%u8_fix]%andb_prop.
  apply cut_ok; [cbn; lia | constructor; [exact X1 | constructor; [exact B1 | constructor]] | exact X2 | exact Br].
Qed.

(** ** The sources hand the payloads on *)

Section delivery.
Context {W : Type} (fresh : nat -> list Z) (cb : option (SendFrameCallback (W := W))).
Hypothesis fresh_size : forall n, length (fresh n) = BLOCK_SIZE.
Implicit Types (s : state (W := W)).

(** A block with a payload. *)
Definition filled (b p : list Z) : list Z := take 16 b ++ p ++ drop (16 + length p) b.

Definition deliver1 (ch : nat) (ts ty : Z) (p : marked) s : outcome (bool * state) :=
  send_frame cb ch (mkPacket (length s.1) (16 + lenZ p.1) ts ty p.2) (s.1 ++ [filled (fresh (length s.1)) p.1], s.2).

(** Payload after payload until the callback refuses one. *)
Fixpoint deliver (ch : nat) (ts ty : Z) (ps : list marked) s : outcome (bool * state) :=
  match ps with
  | [] => Ret (true, s)
  | p :: ps => let! (ok, s) := deliver1 ch ts ty p s in if ok then deliver ch ts ty ps s else Ret (false, s)
  end.

Lemma deliver_one ch ts ty p s : deliver ch ts ty [p] s = deliver1 ch ts ty p s.
Proof. cbn [deliver]. destruct (deliver1 ch ts ty p s) as [[[] s']|]; reflexivity. Qed.

Lemma stores_filled b pre p : length b = BLOCK_SIZE -> (16 + length pre + length p <= BLOCK_SIZE)%nat -> Forall is_u8 p ->
  stores (filled b pre) (16 + length pre) p = Ret (filled b (pre ++ p)).
Proof.
  intros L H B. unfold filled. rewrite app_assoc.
  assert (E : length (take 16 b ++ pre) = (16 + length pre)%nat) by (rewrite length_app, length_take; unfold BLOCK_SIZE in *; lia).
  rewrite <- E at 2. rewrite stores_at by (rewrite length_drop; unfold BLOCK_SIZE in *; lia).
  rewrite map_u8_id, drop_drop, <- !app_assoc by exact B. rewrite length_app, Nat.add_assoc. reflexivity.
Qed.

Lemma send_packet_spec ch hd src n ts ty lst s : 0 <= n <= lenZ src -> lenZ hd + n <= 1584 -> Forall is_u8 hd -> Forall is_u8 src ->
  send_packet fresh cb ch hd src n ts ty lst s = deliver1 ch ts ty (hd ++ take (Z.to_nat n) src, lst) s.
Proof.
  intros Hn Hl Hh Hs. unfold send_packet, new_block, on_block, deliver1, memcpy. cbn [fst snd].
  rewrite list_lookup_middle by reflexivity. set (b := fresh (length s.1)).
  assert (Lb : length b = BLOCK_SIZE) by apply fresh_size.
  assert (Lt : length (take (Z.to_nat n) src) = Z.to_nat n) by (rewrite length_take; lia).
  replace b with (filled b []) at 1 by (unfold filled; cbn [app length]; rewrite Nat.add_0_r; apply take_drop).
  change (4 + RTP_HEADER_SIZE)%nat with (16 + length (@nil Z))%nat at 1.
  rewrite stores_filled by (assumption || cbn [length]; unfold BLOCK_SIZE; lia). cbn [obind app].
  rewrite (proj2 (Z.leb_le _ _)) by lia. change (4 + RTP_HEADER_SIZE + length hd)%nat with (16 + length hd)%nat.
  rewrite stores_filled by (try apply Forall_take; try assumption; rewrite ?Lt; unfold BLOCK_SIZE; lia). cbn [obind].
  rewrite insert_app_r_alt, Nat.sub_diag by lia. cbn [insert list_insert].
  rewrite u32_id by (unfold is_u32; lia). rewrite length_app, Lt. do 2 f_equal. lia.
Qed.

Lemma fu_loop_spec fuel : forall ch FU x buf n ts ty s,
  0 <= n <= lenZ buf -> n < 4294967296 - 1000 -> n < Z.of_nat fuel -> lenZ FU < 1000 -> Forall is_u8 FU -> is_u8 x -> Forall is_u8 buf ->
  fu_loop fresh cb fuel ch FU x buf n ts ty s = deliver ch ts ty (cut fuel FU x (take (Z.to_nat n) buf)) s.
Proof.
  induction fuel as [|fuel IH]; intros ch FU x buf n ts ty s Hn Hb Hf HF BF Bx Bb; [lia|].
  assert (Lt : lenZ (take (Z.to_nat n) buf) = n) by (rewrite length_take; lia).
  pose proof (byte_all (fun x => (Z.land x (Z.lnot 0x80) =? Z.land x 0x7f) && (u8 (Z.land x (Z.lnot 0x80)) =? Z.land x 0x7f)
    && (u8 (Z.lor x 0x40) =? Z.lor x 0x40)) ltac:(vm_compute; reflexivity) x Bx) as Ex. cbn beta in Ex.
  cbn [fu_loop cut]. rewrite Lt, u32_id by (unfold is_u32; lia).
  replace (u8 (Z.land x (Z.lnot 0x80))) with (Z.land x 0x7f) by lia. replace (u8 (Z.lor x 0x40)) with (Z.lor x 0x40) by lia.
  assert (M : MAX_RTP_PAYLOAD_SIZE = 1420) by reflexivity.
  assert (B1 : Forall is_u8 (FU ++ [x])) by (apply Forall_app; split; [assumption | constructor; [assumption | constructor]]).
  zcase.
  - rewrite send_packet_spec by (try assumption; rewrite ?length_app; cbn [length]; lia). cbn [deliver].
    rewrite (take_take buf), Nat.min_l by lia. destruct (deliver1 _ _ _ _ _) as [[[] s']|]; [|reflexivity|reflexivity]. cbn [obind].
    rewrite u32_id by (unfold is_u32; lia). rewrite IH; try lia; try assumption.
    + rewrite skipn_firstn_comm. do 3 f_equal. lia.
    + rewrite length_drop. lia.
    + assert (0 <= Z.land x 0x7f) by (apply Z.land_nonneg; lia).
      replace (Z.land x 0x7f) with (u8 (Z.land x (Z.lnot 0x80))) by lia. apply u8_range.
    + apply Forall_drop, Bb.
  - rewrite send_packet_spec; [rewrite deliver_one; reflexivity | lia | rewrite length_app; cbn [length]; lia | | exact Bb].
    apply Forall_app; split; [assumption | constructor; [|constructor]]. replace (Z.lor x 0x40) with (u8 (Z.lor x 0x40)) by lia. apply u8_range.
Qed.

Lemma bytes_of_length frame : frame_ok frame -> lenZ (bytes_of frame) = size frame.
Proof. intros (H1 & H2 & _). unfold bytes_of. rewrite length_take. lia. Qed.

Lemma whole_spec ch ts ty frame s : frame_ok frame -> size frame <= MAX_RTP_PAYLOAD_SIZE ->
  send_packet fresh cb ch [] (buffer frame) (size frame) ts ty 1 s = deliver1 ch ts ty (bytes_of frame, 1) s.
Proof.
  intros (F1 & F2 & F3) H. unfold MAX_RTP_PAYLOAD_SIZE in H.
  rewrite send_packet_spec by (try assumption; cbn [length]; try constructor; lia). reflexivity.
Qed.

Lemma fragments_spec n ch FU x ts ty frame s : frame_ok frame -> MAX_RTP_PAYLOAD_SIZE < size frame -> (n <= 2)%nat ->
  lenZ FU < 1000 -> Forall is_u8 FU -> is_u8 x ->
  fu_loop fresh cb (S (length (buffer frame))) ch FU x (drop n (buffer frame)) (u32 (size frame - Z.of_nat n)) ts ty s =
  deliver ch ts ty (cut (S (length (bytes_of frame))) FU x (drop n (bytes_of frame))) s.
Proof.
  intros F H Hn HF BF Bx. pose proof (bytes_of_length frame F) as L. destruct F as (F1 & F2 & F3). unfold INT_MAX, MAX_RTP_PAYLOAD_SIZE in *.
  rewrite u32_id by (unfold is_u32; lia).
  rewrite fu_loop_spec by (try assumption; try apply Forall_drop, F3; rewrite ?length_drop; lia). f_equal.
  replace (take (Z.to_nat (size frame - Z.of_nat n)) (drop n (buffer frame))) with (drop n (bytes_of frame))
    by (unfold bytes_of; rewrite skipn_firstn_comm; f_equal; lia).
  apply cut_fuel; rewrite ?length_drop; lia.
Qed.

Lemma H264_spec us ch frame s : frame_ok frame ->
  H264_handleFrame fresh cb us ch frame s = deliver ch (stamped us frame) (type frame) (h264_payloads (bytes_of frame)) s.
Proof.
  intros F. pose proof (bytes_of_length frame F) as L. unfold H264_handleFrame. zcase.
  - rewrite whole_spec, <- deliver_one by assumption. f_equal. unfold h264_payloads.
    destruct (bytes_of frame) eqn:E; [reflexivity|]. rewrite (proj2 (Z.leb_le _ _)) by lia. reflexivity.
  - destruct (bytes_of frame) as [|b0 r] eqn:E; [cbn [length] in L; unfold MAX_RTP_PAYLOAD_SIZE in *; lia|].
    assert (B : buffer frame !! 0%nat = Some b0 /\ is_u8 b0).
    { split; [|apply (Forall_inv (l := r)); rewrite <- E; apply Forall_take, F].
      rewrite <- (lookup_take_lt _ (Z.to_nat (size frame))) by (unfold MAX_RTP_PAYLOAD_SIZE in *; lia). fold (bytes_of frame). rewrite E. reflexivity. }
    destruct B as [B0 Bb]. unfold get8. rewrite B0. cbn [obind].
    pose proof (byte_all (fun b => (u8 (Z.lor (Z.land b 0xE0) 28) =? Z.lor (Z.land b 0xE0) 28)
      && (u8 (Z.lor 0x80 (Z.land b 0x1f)) =? Z.lor 0x80 (Z.land b 0x1f))) ltac:(vm_compute; reflexivity) b0 Bb) as [X1%u8_fix X2%u8_fix]%andb_prop.
    rewrite (fragments_spec 1) by (try assumption; cbn [length]; try lia; repeat constructor; apply X1).
    rewrite E. cbn [h264_payloads]. rewrite (proj2 (Z.leb_gt _ _)) by lia. reflexivity.
Qed.

Lemma H265_spec us ch frame s : frame_ok frame ->
  H265_handleFrame fresh cb us ch frame s = deliver ch (stamped us frame) (type frame) (h265_payloads (bytes_of frame)) s.
Proof.
  intros F. pose proof (bytes_of_length frame F) as L. unfold H265_handleFrame. zcase.
  - rewrite whole_spec, <- deliver_one by assumption. f_equal. unfold h265_payloads.
    destruct (bytes_of frame) as [|b0 [|b1 r]] eqn:E; try reflexivity. rewrite (proj2 (Z.leb_le _ _)) by lia. reflexivity.
  - destruct (bytes_of frame) as [|b0 [|b1 r]] eqn:E; try (cbn [length] in L; unfold MAX_RTP_PAYLOAD_SIZE in *; lia).
    assert (K : forall i, (i < 2)%nat -> buffer frame !! i = (b0 :: b1 :: r) !! i).
    { intros i Hi. rewrite <- E. unfold bytes_of. rewrite lookup_take_lt by (unfold MAX_RTP_PAYLOAD_SIZE in *; lia). reflexivity. }
    assert (B : Forall is_u8 (b0 :: b1 :: r)) by (rewrite <- E; apply Forall_take, F).
    apply Forall_cons in B as [Bb [Bb1 _]%Forall_cons].
    unfold get8. rewrite (K 0%nat), (K 1%nat) by lia. cbn [lookup list_lookup obind].
    pose proof (byte_all (fun b => (u8 (Z.lor (Z.land b 0x81) 98) =? Z.lor (Z.land b 0x81) 98)
      && (u8 (Z.lor 0x80 (Z.shiftr (Z.land b 0x7E) 1)) =? Z.lor 0x80 (Z.shiftr (Z.land b 0x7E) 1))) ltac:(vm_compute; reflexivity) b0 Bb)
      as [X1%u8_fix X2%u8_fix]%andb_prop.
    rewrite (fragments_spec 2) by (try assumption; cbn [length]; try lia; repeat constructor; apply X1 || apply Bb1).
    rewrite E. cbn [h265_payloads]. rewrite (proj2 (Z.leb_gt _ _)) by lia. reflexivity.
Qed.

Lemma au_bytes n : 0 <= n < 8192 ->
  u8 (Z.shiftr (Z.land n 0x1fe0) 5) = n / 32 /\ u8 (Z.shiftl (Z.land n 0x1f) 3) = 8 * (n mod 32).
Proof.
  intros H. rewrite Z.shiftr_land, Z.shiftr_div_pow2, Z.shiftl_mul_pow2 by lia. change (Z.shiftr 0x1fe0 5) with (Z.ones 8).
  change 0x1f with (Z.ones 5). rewrite !Z.land_ones by lia. change (2 ^ 5) with 32. change (2 ^ 8) with 256. change (2 ^ 3) with 8.
  pose proof (Z.mod_pos_bound n 32 ltac:(lia)).
  assert (0 <= n / 32 < 256) by (split; [apply Z.div_pos; lia | apply Z.div_lt_upper_bound; lia]).
  unfold u8. rewrite Z.mod_mod, (Z.mod_small (n / 32)), (Z.mod_small (n mod 32 * 8)) by lia. lia.
Qed.

Definition adts (hasADTS : bool) : nat := if hasADTS then 7 else 0.

Lemma AAC_spec hasADTS ch frame s : frame_ok frame -> Z.of_nat (adts hasADTS) <= size frame <= MAX_RTP_PAYLOAD_SIZE - AU_SIZE ->
  AAC_handleFrame fresh cb hasADTS ch frame s =
  let! (_, s) := deliver1 ch (timestamp frame) (type frame) (au_payload (drop (adts hasADTS) (bytes_of frame)), 1) s in Ret (true, s).
Proof.
  intros F H. pose proof (bytes_of_length frame F) as L. destruct F as (F1 & F2 & F3). unfold AAC_handleFrame, MAX_RTP_PAYLOAD_SIZE, AU_SIZE in *.
  rewrite (proj2 (Z.ltb_ge _ _)) by lia.
  replace (if hasADTS then ADTS_SIZE else 0) with (Z.of_nat (adts hasADTS)) by (destruct hasADTS; reflexivity).
  rewrite Nat2Z.id, u32_id by (unfold is_u32; lia). set (k := adts hasADTS) in *. set (n := size frame - Z.of_nat k).
  destruct (au_bytes n) as [-> ->]; [lia|].
  assert (0 <= n / 32 < 256 /\ 0 <= n mod 32 < 32) as [D1 D2].
  { split; [split; [apply Z.div_pos; lia | apply Z.div_lt_upper_bound; lia] | apply Z.mod_pos_bound; lia]. }
  rewrite send_packet_spec by (try apply Forall_drop, F3; rewrite ?length_drop; cbn [length]; try lia; repeat constructor; rlia).
  replace (take (Z.to_nat n) (drop k (buffer frame))) with (drop k (bytes_of frame))
    by (unfold bytes_of; rewrite skipn_firstn_comm; f_equal; lia).
  unfold au_payload. rewrite length_drop. replace (Z.of_nat (length (bytes_of frame) - k)) with n by lia. reflexivity.
Qed.

Lemma G711A_spec ch frame s : frame_ok frame -> size frame <= MAX_RTP_PAYLOAD_SIZE ->
  G711A_handleFrame fresh cb ch frame s =
  let! (_, s) := deliver1 ch (timestamp frame) (type frame) (bytes_of frame, 1) s in Ret (true, s).
Proof.
  intros F H. unfold G711A_handleFrame. rewrite (proj2 (Z.ltb_ge _ _)) by lia. rewrite whole_spec by assumption. reflexivity.
Qed.

(** A frame shorter than the ADTS header the source takes off: the length wraps
    round and the copy leaves both buffers. *)
Lemma AAC_short ch frame s : 0 <= size frame < ADTS_SIZE -> lenZ (buffer frame) < INT_MAX ->
  AAC_handleFrame fresh cb true ch frame s = Crash OutOfBounds.
Proof.
  intros H L. unfold AAC_handleFrame, ADTS_SIZE, INT_MAX, MAX_RTP_PAYLOAD_SIZE, AU_SIZE in *. rewrite (proj2 (Z.ltb_ge _ _)) by lia.
  unfold send_packet, new_block, on_block. rewrite list_lookup_middle by reflexivity.
  set (b := fresh (length s.1)). set (n := u32 (size frame - 7)).
  assert (N : n = size frame - 7 + 4294967296) by (unfold n, u32; symmetry; apply Z.mod_unique_pos with (-1); lia).
  replace b with (filled b []) by (unfold filled; cbn [app length]; rewrite Nat.add_0_r; apply take_drop).
  change (4 + RTP_HEADER_SIZE)%nat with (16 + length (@nil Z))%nat. unfold memcpy. rewrite length_drop.
  rewrite stores_filled; [|apply fresh_size | cbn; unfold BLOCK_SIZE; lia | repeat constructor; try apply u8_range; rlia].
  cbn [obind]. rewrite (proj2 (Z.leb_gt _ _)) by lia. reflexivity.
Qed.
End delivery.
