(* ===== verification/RtpConn.v ===== *)
(** * RTP connections and the media session (rtsp/RtpConnection.cpp, rtsp/MediaSession.cpp, rtsp/TaskScheduler.cpp)

    A frame thread runs [MediaSession::handleFrame]: the source cuts the frame
    into packets, and the session's callback queues each packet as a trigger event
    on the scheduler of every client.  Scheduler threads take the events, write
    the client's RTP header into the packet's block and send.  The block is shared:
    by the clients of one scheduler, and with a copy for each further scheduler.

    The threads meet at the points [interfere]: there the next batch of the
    schedule runs, a list of actions of the scheduler threads.  An event is two
    actions, the header and the sending, so that another thread may come between
    them.  A theorem for every schedule is one for every interleaving at these
    points.  [sent] lists what was handed to the sockets.

    The threads reach blocks through [PacketStore], whose instance [shared_blocks]
    is the code.  Its other instance [own_blocks] gives each packet a block of its
    own; RtpShare.v shows the two do the same. *)

From stdpp Require Import gmap.
From S2P Require Import Prelude RtpFrame.

Local Open Scope Z_scope.

(** ** Data *)

Definition MAX_MEDIA_CHANNEL : nat := 2.
Definition RTP_VERSION : Z := 2.
Definition VIDEO_FRAME_I : Z := 0x01.
Definition kGOPCache : Z := 200.
Definition kMaxTriggetEvents : Z := 5000.

Inductive TransportMode := RTP_OVER_TCP | RTP_OVER_UDP | RTP_OVER_MULTICAST.

(** [RtpHeader]; the fields of 16 and 32 bits hold their value in network order. *)
Record RtpHeader := mkHeader {
  csrc : Z; extension : Z; padding : Z; version : Z; payload : Z; marker : Z; seq : Z; ts : Z; ssrc : Z }.

Record MediaChannelInfo := mkInfo {
  rtpHeader : RtpHeader; rtpChannel : Z; rtcpChannel : Z; rtpPort : Z; rtcpPort : Z; packetSeq : Z; clockRate : Z;
  isSetup : bool; isPlay : bool; isRecord : bool }.

(** [sched] is the identifier of the scheduler of the RTSP connection, [fd] its socket. *)
Record RtpConnection := mkConn {
  sched : nat; fd : Z; transportMode : TransportMode; isMulticast : bool; isClosed : bool; hasIDRFrame : bool;
  hasGOPFrame : bool; frameType : Z; localRtpPort : list Z; localRtcpPort : list Z; rtpfd : list Z; rtcpfd : list Z;
  mediaChannelInfo : list MediaChannelInfo }.

Definition header_eta (h : RtpHeader) : RtpHeader :=
  mkHeader (csrc h) (extension h) (padding h) (version h) (payload h) (marker h) (seq h) (ts h) (ssrc h).
Definition info_eta (i : MediaChannelInfo) : MediaChannelInfo :=
  mkInfo (rtpHeader i) (rtpChannel i) (rtcpChannel i) (rtpPort i) (rtcpPort i) (packetSeq i) (clockRate i) (isSetup i) (isPlay i)
    (isRecord i).
Definition conn_eta (c : RtpConnection) : RtpConnection :=
  mkConn (sched c) (fd c) (transportMode c) (isMulticast c) (isClosed c) (hasIDRFrame c) (hasGOPFrame c) (frameType c)
    (localRtpPort c) (localRtcpPort c) (rtpfd c) (rtcpfd c) (mediaChannelInfo c).
#[export] Instance set_payload : Setter payload := ltac:(mk_setter header_eta).
#[export] Instance set_marker : Setter marker := ltac:(mk_setter header_eta).
#[export] Instance set_seq : Setter seq := ltac:(mk_setter header_eta).
#[export] Instance set_ts : Setter ts := ltac:(mk_setter header_eta).
#[export] Instance set_rtpHeader : Setter rtpHeader := ltac:(mk_setter info_eta).
#[export] Instance set_rtpChannel : Setter rtpChannel := ltac:(mk_setter info_eta).
#[export] Instance set_rtcpChannel : Setter rtcpChannel := ltac:(mk_setter info_eta).
#[export] Instance set_rtpPort : Setter rtpPort := ltac:(mk_setter info_eta).
#[export] Instance set_rtcpPort : Setter rtcpPort := ltac:(mk_setter info_eta).
#[export] Instance set_packetSeq : Setter packetSeq := ltac:(mk_setter info_eta).
#[export] Instance set_clockRate : Setter clockRate := ltac:(mk_setter info_eta).
#[export] Instance set_isSetup : Setter isSetup := ltac:(mk_setter info_eta).
#[export] Instance set_isPlay : Setter isPlay := ltac:(mk_setter info_eta).
#[export] Instance set_isRecord : Setter isRecord := ltac:(mk_setter info_eta).
#[export] Instance set_transportMode : Setter transportMode := ltac:(mk_setter conn_eta).
#[export] Instance set_isMulticast : Setter isMulticast := ltac:(mk_setter conn_eta).
#[export] Instance set_isClosed : Setter isClosed := ltac:(mk_setter conn_eta).
#[export] Instance set_hasIDRFrame : Setter hasIDRFrame := ltac:(mk_setter conn_eta).
#[export] Instance set_hasGOPFrame : Setter hasGOPFrame := ltac:(mk_setter conn_eta).
#[export] Instance set_frameType : Setter frameType := ltac:(mk_setter conn_eta).
#[export] Instance set_localRtpPort : Setter localRtpPort := ltac:(mk_setter conn_eta).
#[export] Instance set_localRtcpPort : Setter localRtcpPort := ltac:(mk_setter conn_eta).
#[export] Instance set_rtpfd : Setter rtpfd := ltac:(mk_setter conn_eta).
#[export] Instance set_rtcpfd : Setter rtcpfd := ltac:(mk_setter conn_eta).
#[export] Instance set_mediaChannelInfo : Setter mediaChannelInfo := ltac:(mk_setter conn_eta).

(** ** The connection *)

(** [RtpConnection::RtpConnection]; [rd] and [rd'] are the random values of the two
    channels.  [_transportMode] and the local ports are not initialised: [mode] is
    any, the ports are zero here and are set before they are read. *)
Definition new_info (rd_seq rd_ts rd_ssrc : Z) : MediaChannelInfo :=
  mkInfo (mkHeader 0 0 0 RTP_VERSION 0 0 0 (htonl rd_ts) (htonl rd_ssrc)) 0 0 0 0 (Z.land rd_seq 0xffff) 0 false false false.

Definition new_conn (sched : nat) (fd : Z) (mode : TransportMode) (rd : Z * Z * Z) (rd' : Z * Z * Z) : RtpConnection :=
  mkConn sched fd mode false false false false 0 [0; 0] [0; 0] [0; 0] [0; 0]
    [new_info rd.1.1 rd.1.2 rd.2; new_info rd'.1.1 rd'.1.2 rd'.2].

(** [_mediaChannelInfo[channelId]] and a change of it. *)
Definition channel (c : RtpConnection) (ch : nat) : outcome MediaChannelInfo :=
  match mediaChannelInfo c !! ch with Some i => Ret i | None => Crash OutOfBounds end.
Definition set_channel (c : RtpConnection) (ch : nat) (i : MediaChannelInfo) : RtpConnection :=
  c <| mediaChannelInfo := <[ch := i]> (mediaChannelInfo c) |>.

Definition setClockRate (ch : nat) (rate : Z) (c : RtpConnection) : outcome RtpConnection :=
  let! i := channel c ch in Ret (set_channel c ch (i <| clockRate := u32 rate |>)).

(** The field has 7 bits. *)
Definition setPayloadType (ch : nat) (p : Z) (c : RtpConnection) : outcome RtpConnection :=
  let! i := channel c ch in Ret (set_channel c ch (i <| rtpHeader := (rtpHeader i) <| payload := p mod 128 |> |>)).

Definition setupRtpOverTcp (ch : nat) (rtp rtcp : Z) (c : RtpConnection) : outcome (bool * RtpConnection) :=
  let! i := channel c ch in
  let c := set_channel c ch (i <| rtpChannel := u16 rtp |> <| rtcpChannel := u16 rtcp |> <| isSetup := true |>) in
  let c := c <| rtpfd := <[ch := fd c]> (rtpfd c) |> <| rtcpfd := <[ch := fd c]> (rtcpfd c) |> in
  Ret (true, c <| transportMode := RTP_OVER_TCP |>).

(** The ten tries for a pair of ports: a random number, the two sockets, and
    whether each could be bound.  [false] when the tenth has failed. *)
Fixpoint bind_ports (tries : list (Z * (Z * bool) * (Z * bool))) (ch : nat) (c : RtpConnection) : bool * RtpConnection :=
  match tries with
  | [] => (false, c)
  | (rd, (s1, ok1), (s2, ok2)) :: tries =>
      let port := Z.land rd 0xfffe in
      let c := c <| localRtpPort := <[ch := port]> (localRtpPort c) |> <| localRtcpPort := <[ch := u16 (port + 1)]> (localRtcpPort c) |> in
      let c := c <| rtpfd := <[ch := s1]> (rtpfd c) |> in
      if negb ok1 then bind_ports tries ch c
      else
        let c := c <| rtcpfd := <[ch := s2]> (rtcpfd c) |> in
        if negb ok2 then bind_ports tries ch c else (true, c)
  end.

(** [peer] is the result of [getPeerAddr]; the addresses are left out. *)
Definition setupRtpOverUdp (peer : Z) (tries : list (Z * (Z * bool) * (Z * bool))) (ch : nat) (rtp rtcp : Z) (c : RtpConnection) :
    outcome (bool * RtpConnection) :=
  if peer <? 0 then Ret (false, c)
  else
    let! i := channel c ch in
    let c := set_channel c ch (i <| rtpPort := u16 rtp |> <| rtcpPort := u16 rtcp |>) in
    let (ok, c) := bind_ports (take 10 tries) ch c in
    if negb ok then Ret (false, c)
    else
      let! i := channel c ch in
      let c := set_channel c ch (i <| isSetup := true |>) in
      Ret (true, c <| transportMode := RTP_OVER_UDP |>).

(** The ten tries for a port of a multicast channel. *)
Fixpoint bind_port (tries : list (Z * (Z * bool))) (ch : nat) (c : RtpConnection) : bool * RtpConnection :=
  match tries with
  | [] => (false, c)
  | (rd, (s1, ok1)) :: tries =>
      let c := c <| localRtpPort := <[ch := Z.land rd 0xfffe]> (localRtpPort c) |> <| rtpfd := <[ch := s1]> (rtpfd c) |> in
      if negb ok1 then bind_port tries ch c else (true, c)
  end.

(** The address of the group is left out. *)
Definition setupRtpOverMulticast (tries : list (Z * (Z * bool))) (ch : nat) (port : Z) (c : RtpConnection) : outcome (bool * RtpConnection) :=
  let (ok, c) := bind_port (take 10 tries) ch c in
  if negb ok then Ret (false, c)
  else
    let! i := channel c ch in
    let c := set_channel c ch (i <| rtpPort := u16 port |> <| isSetup := true |>) in
    Ret (true, c <| transportMode := RTP_OVER_MULTICAST |> <| isMulticast := true |>).

Definition play (c : RtpConnection) : RtpConnection :=
  c <| mediaChannelInfo := map (fun i => if isSetup i then i <| isPlay := true |> else i) (mediaChannelInfo c) |>.

Definition record (c : RtpConnection) : RtpConnection :=
  c <| mediaChannelInfo :=
    map (fun i => if isSetup i then i <| isRecord := true |> <| isPlay := true |> else i) (mediaChannelInfo c) |>.

Definition teardown (c : RtpConnection) : RtpConnection :=
  if isClosed c then c
  else c <| isClosed := true |> <| mediaChannelInfo := map (fun i => i <| isPlay := false |> <| isRecord := false |>) (mediaChannelInfo c) |>.

Definition setFrameType (t : Z) (c : RtpConnection) : RtpConnection :=
  let c := c <| frameType := t |> in
  if negb (hasIDRFrame c) && ((t =? 0) || (t =? VIDEO_FRAME_I)) then c <| hasIDRFrame := true |> else c.

(** The descriptors [~RtpConnection] closes. *)
Definition closes (c : RtpConnection) : list Z :=
  flat_map (fun chn => List.filter (Z.ltb 0) (option_list (rtpfd c !! chn)) ++ List.filter (Z.ltb 0) (option_list (rtcpfd c !! chn)))
    (List.seq 0 MAX_MEDIA_CHANNEL).

(** The 12 bytes of a header in memory. *)
Definition header_bytes (h : RtpHeader) : list Z :=
  [csrc h + 16 * extension h + 32 * padding h + 64 * version h; payload h + 128 * marker h;
   u8 (seq h); u8 (seq h / 256);
   u8 (ts h); u8 (ts h / 256); u8 (ts h / 65536); u8 (ts h / 16777216);
   u8 (ssrc h); u8 (ssrc h / 256); u8 (ssrc h / 65536); u8 (ssrc h / 16777216)].

(** The test of [setRtpHeader] and of the event. *)
Definition sendable (c : RtpConnection) (i : MediaChannelInfo) : bool :=
  (isPlay i || isRecord i) && (hasIDRFrame c || (frameType c =? kGOPCache)).

(** ** Blocks *)

(** What the code does with the block of a packet. *)
Class PacketStore (H D : Type) := {
  (** [RtpPacket tmpPkt; memcpy(tmpPkt.data.get(), pkt.data.get(), size)] *)
  copy_block : D -> Z -> H -> outcome (D * H);
  (** [RtpPacket tmpPkt; tmpPkt.data = pkt.data] *)
  share_block : D -> H -> D * H;
  (** a run of stores at an offset *)
  store_block : D -> nat -> list Z -> H -> outcome (D * H);
  (** the bytes from an offset up to a size *)
  read_block : D -> nat -> Z -> H -> outcome (list Z) }.

(** The bytes [i..n-1] of a block. *)
Definition slice (b : list Z) (i : nat) (n : Z) : outcome (list Z) :=
  if n <=? lenZ b then Ret (drop i (take (Z.to_nat n) b)) else Crash OutOfBounds.

(** The code: references into the heap. *)
#[refine] Instance shared_blocks (fresh : nat -> list Z) : PacketStore heap nat := {
  copy_block d n h :=
    match h !! d with
    | Some src =>
        let (d', h) := new_block fresh h in
        let! h := on_block h d' (fun b => memcpy b 0 src n) in Ret (d', h)
    | None => Crash NullDeref
    end;
  share_block d h := (d, snd (new_block fresh h));
  store_block d i vs h := let! h := on_block h d (fun b => stores b i vs) in Ret (d, h);
  read_block d i n h := match h !! d with Some b => slice b i n | None => Crash NullDeref end }.
Defined.

(** ** Schedulers and the session *)

Record event (D : Type) := mkEvent { ev_conn : nat; ev_ch : nat; ev_pkt : RtpPacket D }.
Arguments mkEvent {D}.
Arguments ev_conn {D}.
Arguments ev_ch {D}.
Arguments ev_pkt {D}.

(** A task scheduler: its queue, and the event whose header is written and that
    is not sent yet. *)
Record scheduler (D : Type) := mkSched { triggerEvents : list (event D); running : option (event D) }.
Arguments mkSched {D}.
Arguments triggerEvents {D}.
Arguments running {D}.

Inductive conn_op :=
| OpClockRate (ch : nat) (rate : Z) | OpPayloadType (ch : nat) (p : Z) | OpSetupTcp (ch : nat) (rtp rtcp : Z)
| OpSetupUdp (peer : Z) (tries : list (Z * (Z * bool) * (Z * bool))) (ch : nat) (rtp rtcp : Z)
| OpPlay | OpRecord | OpTeardown.

(** What the scheduler threads do: the two halves of an event, [ret] being the
    result of [sendto]; a request on a connection; a client joins or leaves the
    session; the RTSP connection is destroyed. *)
Inductive action :=
| Begin (k : nat) | Finish (k : nat) (ret : Z) | Request (c : nat) (op : conn_op)
| AddClient (c : nat) | RemoveClient (fd : Z) | Destroy (c : nat).

Inductive source := H264 | H265 | AAC (hasADTS : bool) | PCMA.

Record session (D : Type) := mkSession {
  conns : gmap nat RtpConnection; scheds : list (scheduler D); clients : list (Z * nat); mediaSources : list (option source);
  session_isMulticast : bool; gopCacheEnabled : bool; hasNewClient : bool; gopCache : AVFrame; notified : list Z;
  schedule : list (list action); sent : list (nat * nat * list Z) }.
Arguments mkSession {D}.
Arguments conns {D}.
Arguments scheds {D}.
Arguments clients {D}.
Arguments mediaSources {D}.
Arguments session_isMulticast {D}.
Arguments gopCacheEnabled {D}.
Arguments hasNewClient {D}.
Arguments gopCache {D}.
Arguments notified {D}.
Arguments schedule {D}.
Arguments sent {D}.

#[export] Instance set_conns {D : Type} : Setter (@conns D) := fun f w =>
  mkSession (f (conns w)) (scheds w) (clients w) (mediaSources w) (session_isMulticast w) (gopCacheEnabled w) (hasNewClient w) (gopCache w) (notified w) (schedule w) (sent w).
#[export] Instance set_scheds {D : Type} : Setter (@scheds D) := fun f w =>
  mkSession (conns w) (f (scheds w)) (clients w) (mediaSources w) (session_isMulticast w) (gopCacheEnabled w) (hasNewClient w) (gopCache w) (notified w) (schedule w) (sent w).
#[export] Instance set_clients {D : Type} : Setter (@clients D) := fun f w =>
  mkSession (conns w) (scheds w) (f (clients w)) (mediaSources w) (session_isMulticast w) (gopCacheEnabled w) (hasNewClient w) (gopCache w) (notified w) (schedule w) (sent w).
#[export] Instance set_gopCacheEnabled {D : Type} : Setter (@gopCacheEnabled D) := fun f w =>
  mkSession (conns w) (scheds w) (clients w) (mediaSources w) (session_isMulticast w) (f (gopCacheEnabled w)) (hasNewClient w) (gopCache w) (notified w) (schedule w) (sent w).
#[export] Instance set_hasNewClient {D : Type} : Setter (@hasNewClient D) := fun f w =>
  mkSession (conns w) (scheds w) (clients w) (mediaSources w) (session_isMulticast w) (gopCacheEnabled w) (f (hasNewClient w)) (gopCache w) (notified w) (schedule w) (sent w).
#[export] Instance set_gopCache {D : Type} : Setter (@gopCache D) := fun f w =>
  mkSession (conns w) (scheds w) (clients w) (mediaSources w) (session_isMulticast w) (gopCacheEnabled w) (hasNewClient w) (f (gopCache w)) (notified w) (schedule w) (sent w).
#[export] Instance set_notified {D : Type} : Setter (@notified D) := fun f w =>
  mkSession (conns w) (scheds w) (clients w) (mediaSources w) (session_isMulticast w) (gopCacheEnabled w) (hasNewClient w) (gopCache w) (f (notified w)) (schedule w) (sent w).
#[export] Instance set_schedule {D : Type} : Setter (@schedule D) := fun f w =>
  mkSession (conns w) (scheds w) (clients w) (mediaSources w) (session_isMulticast w) (gopCacheEnabled w) (hasNewClient w) (gopCache w) (notified w) (f (schedule w)) (sent w).
#[export] Instance set_sent {D : Type} : Setter (@sent D) := fun f w =>
  mkSession (conns w) (scheds w) (clients w) (mediaSources w) (session_isMulticast w) (gopCacheEnabled w) (hasNewClient w) (gopCache w) (notified w) (schedule w) (f (sent w)).

Definition apply_op (op : conn_op) (c : RtpConnection) : outcome RtpConnection :=
  match op with
  | OpClockRate ch rate => setClockRate ch rate c
  | OpPayloadType ch p => setPayloadType ch p c
  | OpSetupTcp ch rtp rtcp => let! (_, c) := setupRtpOverTcp ch rtp rtcp c in Ret c
  | OpSetupUdp peer tries ch rtp rtcp => let! (_, c) := setupRtpOverUdp peer tries ch rtp rtcp c in Ret c
  | OpPlay => Ret (play c)
  | OpRecord => Ret (record c)
  | OpTeardown => Ret (teardown c)
  end.

(** [std::map] keeps the clients in the order of their sockets. *)
Fixpoint insert_client (fd : Z) (c : nat) (l : list (Z * nat)) : list (Z * nat) :=
  match l with
  | (fd', c') :: l' => if fd <? fd' then (fd, c) :: l else (fd', c') :: insert_client fd c l'
  | [] => [(fd, c)]
  end.

Definition is_client (fd : Z) (l : list (Z * nat)) : bool := existsb (fun x => x.1 =? fd) l.

(** [MediaSession::addClient]; [notified] lists the numbers given to the notify callback. *)
Definition addClient {D : Type} (fd : Z) (c : nat) (w : session D) : bool * session D :=
  if is_client fd (clients w) then (false, w)
  else
    let l := insert_client fd c (clients w) in
    (true, w <| clients := l |> <| notified := notified w ++ [lenZ l] |> <| hasNewClient := true |>).

(** [MediaSession::removeClient] *)
Definition removeClient {D : Type} (fd : Z) (w : session D) : session D :=
  if is_client fd (clients w) then
    let l := List.filter (fun x => negb (x.1 =? fd)) (clients w) in
    w <| clients := l |> <| notified := notified w ++ [lenZ l] |>
  else w.

Section threads.
Context {H D : Type} `{PacketStore H D}.
Implicit Types (w : session D) (s : H * session D) (pkt : RtpPacket D).

(** The thread of scheduler [k] is between two events. *)
Definition idle w (k : nat) : bool :=
  match scheds w !! k with Some sc => match running sc with None => true | Some _ => false end | None => true end.

(** A use of a connection that is gone is a use of freed memory. *)
Definition the_conn w (c : nat) : outcome RtpConnection :=
  match conns w !! c with Some cn => Ret cn | None => Crash NullDeref end.
Definition set_conn w (c : nat) (cn : RtpConnection) : session D := w <| conns := <[c := cn]> (conns w) |>.
Definition set_sched w (k : nat) (sc : scheduler D) : session D := w <| scheds := <[k := sc]> (scheds w) |>.

(** [RtpConnection::setRtpHeader] *)
Definition setRtpHeader (ch : nat) pkt (cn : RtpConnection) (h : H) : outcome (RtpConnection * RtpPacket D * H) :=
  let! i := channel cn ch in
  if sendable cn i then
    let hd := (rtpHeader i) <| marker := last pkt mod 2 |> <| ts := htonl (pkt_timestamp pkt) |> <| seq := htons (packetSeq i) |> in
    let cn := set_channel cn ch (i <| packetSeq := u16 (packetSeq i + 1) |> <| rtpHeader := hd |>) in
    let! (d, h) := store_block (data pkt) 4 (header_bytes hd) h in
    Ret (cn, mkPacket d (pkt_size pkt) (pkt_timestamp pkt) (pkt_type pkt) (last pkt), h)
  else Ret (cn, pkt, h).

(** The first half of the event of [RtpConnection::sendRtpPacket]: it is taken
    from the queue, the frame type is set and the header written. *)
Definition begin_event (k : nat) s : outcome (H * session D) :=
  let (h, w) := s in
  match scheds w !! k with
  | Some (mkSched (e :: q) None) =>
      let! cn := the_conn w (ev_conn e) in
      let cn := setFrameType (pkt_type (ev_pkt e)) cn in
      let! (cn, pkt, h) := setRtpHeader (ev_ch e) (ev_pkt e) cn h in
      Ret (h, set_sched (set_conn w (ev_conn e) cn) k (mkSched q (Some (mkEvent (ev_conn e) (ev_ch e) pkt))))
  | _ => Ret s
  end.

(** [RtpConnection::sendRtpOverTcp]: the bytes given to [TcpConnection::send]. *)
Definition sendRtpOverTcp (i : MediaChannelInfo) pkt (h : H) : outcome (list Z * H) :=
  let n := u32 (pkt_size pkt - 4) in
  let! (d, h) := store_block (data pkt) 0
    [36; u8 (rtpChannel i); u8 (Z.shiftr (Z.land n 0xFF00) 8); u8 (Z.land n 0xFF)] h in
  let! b := read_block d 0 (pkt_size pkt) h in Ret (b, h).

(** [RtpConnection::sendRtpOverUdp]: the datagram, and the connection after [sendto]. *)
Definition sendRtpOverUdp (ret : Z) pkt (cn : RtpConnection) (h : H) : outcome (list Z * RtpConnection) :=
  let! b := read_block (data pkt) 4 (pkt_size pkt) h in
  Ret (b, if ret <? 0 then teardown cn else cn).

(** The second half of the event. *)
Definition finish_event (k : nat) (ret : Z) s : outcome (H * session D) :=
  let (h, w) := s in
  match scheds w !! k with
  | Some (mkSched q (Some e)) =>
      let! cn := the_conn w (ev_conn e) in
      let! i := channel cn (ev_ch e) in
      let w := set_sched w k (mkSched q None) in
      if sendable cn i then
        match transportMode cn with
        | RTP_OVER_TCP =>
            let! (b, h) := sendRtpOverTcp i (ev_pkt e) h in
            Ret (h, w <| sent := sent w ++ [(ev_conn e, ev_ch e, b)] |>)
        | _ =>
            let! (b, cn) := sendRtpOverUdp ret (ev_pkt e) cn h in
            Ret (h, set_conn (w <| sent := sent w ++ [(ev_conn e, ev_ch e, b)] |>) (ev_conn e) cn)
        end
      else Ret (h, w)
  | _ => Ret s
  end.

(** A request, or the end of an RTSP connection, runs on the connection's own
    thread, between two events. *)
Definition on_thread (c : nat) (f : RtpConnection -> session D -> outcome (session D)) s : outcome (H * session D) :=
  let (h, w) := s in
  match conns w !! c with
  | Some cn => if idle w (sched cn) then let! w := f cn w in Ret (h, w) else Ret s
  | None => Ret s
  end.

Definition act (a : action) s : outcome (H * session D) :=
  match a with
  | Begin k => begin_event k s
  | Finish k ret => finish_event k ret s
  | Request c op => on_thread c (fun cn w => let! cn := apply_op op cn in Ret (set_conn w c cn)) s
  | AddClient c => on_thread c (fun cn w => Ret (snd (addClient (fd cn) c w))) s
  | RemoveClient fd => Ret (s.1, removeClient fd s.2)
  | Destroy c => on_thread c (fun _ w => Ret (w <| conns := delete c (conns w) |>)) s
  end.

Fixpoint acts (l : list action) s : outcome (H * session D) :=
  match l with [] => Ret s | a :: l => let! s := act a s in acts l s end.

(** The other threads run. *)
Definition interfere s : outcome (H * session D) :=
  match schedule s.2 with
  | [] => Ret s
  | l :: r => acts l (s.1, s.2 <| schedule := r |>)
  end.
End threads.

(** ** Sending *)

Section frames.
Context {H D : Type} `{PacketStore H D}.
Implicit Types (w : session D) (s : H * session D) (pkt : RtpPacket D).

(** [TaskScheduler::addTriggerEvent] *)
Definition addTriggerEvent (k : nat) (e : event D) w : outcome (bool * session D) :=
  match scheds w !! k with
  | Some sc =>
      if lenZ (triggerEvents sc) <? kMaxTriggetEvents then
        Ret (true, set_sched w k (mkSched (triggerEvents sc ++ [e]) (running sc)))
      else Ret (false, w)
  | None => Crash OutOfBounds
  end.

(** [RtpConnection::sendRtpPacket] *)
Definition sendRtpPacket (c ch : nat) pkt (isGOPCache : bool) w : outcome (Z * session D) :=
  let! cn := the_conn w c in
  if isClosed cn then Ret (-1, w)
  else if isGOPCache && (hasGOPFrame cn || hasIDRFrame cn) then Ret (0, w)
  else
    let w := if isGOPCache && negb (last pkt =? 0) then set_conn w c (cn <| hasGOPFrame := true |>) else w in
    let! (ret, w) := addTriggerEvent (sched cn) (mkEvent c ch pkt) w in
    Ret (if ret then 0 else -1, w).

(** [packets.find(id)] *)
Fixpoint find_packet (k : nat) (l : list (nat * RtpPacket D)) : option (RtpPacket D) :=
  match l with [] => None | (k', p) :: l => if (k =? k')%nat then Some p else find_packet k l end.

(** The section under [_mtxMap] of the callback: the clients that live, last
    first, one packet for each of their schedulers, and the clients that stay in
    the map. *)
Fixpoint gather (l : list (Z * nat)) pkt (packets : list (nat * RtpPacket D)) (front : list nat) (h : H) w :
    outcome (list (Z * nat) * list (nat * RtpPacket D) * list nat * H) :=
  match l with
  | [] => Ret ([], packets, front, h)
  | (fd, c) :: l =>
      match conns w !! c with
      | None => gather l pkt packets front h w
      | Some cn =>
          let id := sched cn in
          let! (packets, h) :=
            match find_packet id packets with
            | Some _ => Ret (packets, h)
            | None =>
                let! (d, h) := match packets with _ :: _ => copy_block (data pkt) (pkt_size pkt) h | [] => Ret (share_block (data pkt) h) end in
                Ret (packets ++ [(id, mkPacket d (pkt_size pkt) (pkt_timestamp pkt) (pkt_type pkt) (last pkt))], h)
            end in
          let! (l, packets, front, h) := gather l pkt packets (c :: front) h w in
          Ret ((fd, c) :: l, packets, front, h)
      end
  end.

(** The loop over the clients: how many were sent to. *)
Fixpoint send_all (front : list nat) (packets : list (nat * RtpPacket D)) (ch : nat) (count : Z) s : outcome (Z * (H * session D)) :=
  match front with
  | [] => Ret (count, s)
  | c :: front =>
      let! s := interfere s in
      let! cn := the_conn s.2 c in
      match find_packet (sched cn) packets with
      | Some p =>
          if gopCacheEnabled s.2 && (hasGOPFrame cn || hasIDRFrame cn) then send_all front packets ch count s
          else
            let! s := interfere s in
            let! (ret, w) := sendRtpPacket c ch p (gopCacheEnabled s.2) s.2 in
            if session_isMulticast w && (ret =? 0) then Ret (count + 1, (s.1, w))
            else send_all front packets ch (count + 1) (s.1, w)
      | None => send_all front packets ch count s
      end
  end.

(** The callback [MediaSession::addMediaSource] installs. *)
Definition send_callback (ch : nat) pkt s : outcome (bool * (H * session D)) :=
  let! s := interfere s in
  let! (l, packets, front, h) := gather (clients s.2) pkt [] [] s.1 s.2 in
  let! (count, s) := send_all front packets ch 0 (h, s.2 <| clients := l |>) in
  Ret (negb (gopCacheEnabled s.2 && (count =? 0)), s).

(** [MediaSession::handleFrame]; [handle] is [handleFrame] of the source, [us'] the
    clock at the replay of the key frame. *)
Definition session_handleFrame (handle : source -> Z -> nat -> AVFrame -> H * session D -> outcome (bool * (H * session D)))
    (us us' : Z) (ch : nat) (frame : AVFrame) s : outcome (bool * (H * session D)) :=
  match mediaSources s.2 !! ch with
  | None => Crash OutOfBounds
  | Some None => Ret (false, s)
  | Some (Some src) =>
      let! (_, s) := handle src us ch frame s in
      let video := match src with H264 | H265 => true | _ => false end in
      if negb (session_isMulticast s.2) && video then
        let s := if type frame =? VIDEO_FRAME_I
                 then (s.1, s.2 <| gopCache := mkFrame (buffer frame) (size frame) kGOPCache (timestamp frame) |>) else s in
        if hasNewClient s.2 && (0 <? size (gopCache s.2)) then
          let g := mkFrame (buffer (gopCache s.2)) (size (gopCache s.2)) (type (gopCache s.2)) (getTimeStamp us') in
          let s := (s.1, s.2 <| hasNewClient := false |> <| gopCacheEnabled := true |> <| gopCache := g |>) in
          let! (_, s) := handle src us' ch g s in
          Ret (true, (s.1, s.2 <| gopCacheEnabled := false |>))
        else Ret (true, s)
      else Ret (true, s)
  end.
End frames.

(** [_mediaSources[channelId]->handleFrame(channelId, frame)] with the session's callback. *)
Definition source_handleFrame (fresh : nat -> list Z) (src : source) (us : Z) (ch : nat) (frame : AVFrame)
    (s : heap * session nat) : outcome (bool * (heap * session nat)) :=
  let cb : option (SendFrameCallback (W := session nat)) := Some (send_callback (H0 := shared_blocks fresh)) in
  match src with
  | H264 => H264_handleFrame fresh cb us ch frame s
  | H265 => H265_handleFrame fresh cb us ch frame s
  | AAC hasADTS => AAC_handleFrame fresh cb hasADTS ch frame s
  | PCMA => G711A_handleFrame fresh cb ch frame s
  end.

Definition handleFrame (fresh : nat -> list Z) (us us' : Z) (ch : nat) (frame : AVFrame) (s : heap * session nat) :
    outcome (bool * (heap * session nat)) :=
  session_handleFrame (source_handleFrame fresh) us us' ch frame s.
