(* ===== verification/RtpShare.v ===== *)
(** * Sharing of packet blocks is not seen (rtsp/MediaSession.cpp, rtsp/RtpConnection.cpp)

    [own_blocks] is the store in which every packet carries its block as a value,
    so that no event can change another's bytes.  The session over the shared heap
    and the session over own blocks send the same bytes, under every schedule.

    The reason is the invariant [sim]: there is an owner of each block, a scheduler,
    and only events of the owner refer to it; an event writes below byte 16 only,
    and what it reads below byte 16 it has written itself. *)

From stdpp Require Import gmap.
From S2P Require Import Prelude RtpFrame RtpConn.

Local Open Scope Z_scope.

(** ** The specification *)

#[refine] Instance own_blocks : PacketStore unit (list Z) := {
  copy_block d n h := Ret (d, h);
  share_block d h := (d, h);
  store_block d i vs h := let! d := stores d i vs in Ret (d, h);
  read_block d i n h := slice d i n }.
Defined.

Definition own_packet (ts ty : Z) (p : marked) : RtpPacket (list Z) :=
  mkPacket (filled (repeat 0 BLOCK_SIZE) p.1) (16 + lenZ p.1) ts ty p.2.

(** The packets of a frame, one after the other. *)
Fixpoint send_payloads (ch : nat) (ts ty : Z) (ps : list marked) (s : unit * session (list Z)) :
    outcome (bool * (unit * session (list Z))) :=
  match ps with
  | [] => Ret (true, s)
  | p :: ps => let! (ok, s) := send_callback ch (own_packet ts ty p) s in if ok then send_payloads ch ts ty ps s else Ret (false, s)
  end.

Definition send_frame_spec (src : source) (us : Z) (ch : nat) (frame : AVFrame) (s : unit * session (list Z)) :
    outcome (bool * (unit * session (list Z))) :=
  let one p := let! (_, s) := send_callback ch (own_packet (timestamp frame) (type frame) (p, 1)) s in Ret (true, s) in
  match src with
  | H264 => send_payloads ch (stamped us frame) (type frame) (h264_payloads (bytes_of frame)) s
  | H265 => send_payloads ch (stamped us frame) (type frame) (h265_payloads (bytes_of frame)) s
  | AAC hasADTS => if MAX_RTP_PAYLOAD_SIZE - AU_SIZE <? size frame then Ret (false, s) else one (au_payload (drop (adts hasADTS) (bytes_of frame)))
  | PCMA => if MAX_RTP_PAYLOAD_SIZE <? size frame then Ret (false, s) else one (bytes_of frame)
  end.

Definition handleFrame_spec (us us' : Z) (ch : nat) (frame : AVFrame) (s : unit * session (list Z)) :
    outcome (bool * (unit * session (list Z))) :=
  session_handleFrame send_frame_spec us us' ch frame s.

(** ** Outcomes *)

(** Both return, related, or both end in the same crash. *)
Definition orel {A B : Type} (R : A -> B -> Prop) (m : outcome A) (n : outcome B) : Prop :=
  match m, n with Ret a, Ret b => R a b | Crash c, Crash c' => c = c' | _, _ => False end.

Lemma orel_bind {A B A' B' : Type} (R : A -> B -> Prop) (S : A' -> B' -> Prop) m n f g :
  orel R m n -> (forall a b, R a b -> orel S (f a) (g b)) -> orel S (obind m f) (obind n g).
Proof. intros H K. destruct m, n; cbn in *; try contradiction; [apply K, H | exact H]. Qed.

Lemma orel_bind_eq {A B A' B' : Type} (R : A -> B -> Prop) (S : A' -> B' -> Prop) m n f g :
  orel R m n -> (forall a b, m = Ret a -> R a b -> orel S (f a) (g b)) -> orel S (obind m f) (obind n g).
Proof. intros H K. destruct m, n; cbn in *; try contradiction; [apply K; auto | exact H]. Qed.

Lemma orel_bind_eq2 {A B A' B' : Type} (R : A -> B -> Prop) (S : A' -> B' -> Prop) m n f g :
  orel R m n -> (forall a b, m = Ret a -> n = Ret b -> R a b -> orel S (f a) (g b)) -> orel S (obind m f) (obind n g).
Proof. intros H K. destruct m, n; cbn in *; try contradiction; [apply K; auto | exact H]. Qed.

Lemma orel_mono {A B : Type} (R S : A -> B -> Prop) m n : orel R m n -> (forall a b, R a b -> S a b) -> orel S m n.
Proof. intros H K. destruct m, n; cbn in *; auto. Qed.

Lemma Forall2_forall_in {A B : Type} (R S : A -> B -> Prop) l m : Forall2 R l m -> (forall a b, In a l -> R a b -> S a b) -> Forall2 S l m.
Proof. induction 1 as [|a b l m H _ IH]; intros K; constructor; [apply K; [left; reflexivity | exact H] | apply IH; intros; apply K; [right|]; assumption]. Qed.

Lemma orel_same {A : Type} (m : outcome A) : orel eq m m.
Proof. destruct m; reflexivity. Qed.

(** ** What a connection keeps *)

(** The scheduler and the socket of a connection and the fixed fields of its headers. *)
Definition fixed_fields (i : MediaChannelInfo) : Z * Z * Z * Z * Z :=
  let h := rtpHeader i in (csrc h, extension h, padding h, version h, ssrc h).
Definition identity (cn : RtpConnection) : nat * Z * list (Z * Z * Z * Z * Z) := (sched cn, fd cn, map fixed_fields (mediaChannelInfo cn)).

Lemma identity_set_channel cn ch i j : channel cn ch = Ret i -> fixed_fields j = fixed_fields i -> identity (set_channel cn ch j) = identity cn.
Proof.
  unfold channel. destruct (mediaChannelInfo cn !! ch) as [i'|] eqn:E; [|discriminate]. intros X F. injection X as ->.
  unfold identity, set_channel. cbn. f_equal. rewrite list_fmap_insert. rewrite F. apply list_insert_id. rewrite list_lookup_fmap, E. reflexivity.
Qed.

Lemma identity_map f cn : (forall i, fixed_fields (f i) = fixed_fields i) -> identity (cn <| mediaChannelInfo := map f (mediaChannelInfo cn) |>) = identity cn.
Proof. intros F. unfold identity. cbn. f_equal. rewrite map_map. apply map_ext, F. Qed.

Lemma identity_teardown cn : identity (teardown cn) = identity cn.
Proof. unfold teardown. destruct (isClosed cn); [reflexivity|]. unfold identity. cbn. f_equal. rewrite map_map. reflexivity. Qed.

Lemma identity_setFrameType t cn : identity (setFrameType t cn) = identity cn.
Proof. unfold setFrameType. destruct (_ && _); reflexivity. Qed.

Lemma bind_ports_keeps tries ch : forall cn, identity (bind_ports tries ch cn).2 = identity cn.
Proof.
  induction tries as [|[[rd [s1 ok1]] [s2 ok2]] tries IH]; intros cn; [reflexivity|]. cbn [bind_ports].
  destruct ok1, ok2; cbn [negb]; rewrite ?IH; reflexivity.
Qed.

Lemma identity_apply_op op cn cn' : apply_op op cn = Ret cn' -> identity cn' = identity cn.
Proof.
  destruct op; cbn [apply_op]; unfold setClockRate, setPayloadType, setupRtpOverTcp, setupRtpOverUdp; intros E.
  1,2,3: destruct (channel cn ch) as [i|] eqn:Ei; [injection E as <- | discriminate]; apply (identity_set_channel cn ch i); [exact Ei | reflexivity].
  - destruct (peer <? 0); [injection E as <-; reflexivity|]. destruct (channel cn ch) as [i|] eqn:Ei; [|discriminate]. cbn [obind] in E.
    set (c1 := set_channel _ _ _) in E. assert (I1 : identity c1 = identity cn) by (apply (identity_set_channel cn ch i); [exact Ei | reflexivity]).
    destruct (bind_ports (take 10 tries) ch c1) as [ok c2] eqn:B.
    assert (I2 : identity c2 = identity cn) by (rewrite <- I1, <- (bind_ports_keeps (take 10 tries) ch c1), B; reflexivity).
    destruct ok; cbn [negb] in E; [|injection E as <-; exact I2]. destruct (channel c2 ch) as [j|] eqn:Ej; [|discriminate]. injection E as <-.
    rewrite <- I2. apply (identity_set_channel c2 ch j); [exact Ej | reflexivity].
  - injection E as <-. apply identity_map. intros i. destruct (isSetup i); reflexivity.
  - injection E as <-. apply identity_map. intros i. destruct (isSetup i); reflexivity.
  - injection E as <-. apply identity_teardown.
Qed.

(** A connection that is there was there and has its identity. *)
Definition kept (cs cs' : gmap nat RtpConnection) : Prop :=
  forall c cn', cs' !! c = Some cn' -> exists cn, cs !! c = Some cn /\ identity cn' = identity cn.

Lemma kept_refl cs : kept cs cs.
Proof. intros c cn E. exists cn. auto. Qed.

Lemma kept_trans cs1 cs2 cs3 : kept cs1 cs2 -> kept cs2 cs3 -> kept cs1 cs3.
Proof.
  intros A B c cn E. destruct (B c cn E) as (cn2 & E2 & I2). destruct (A c cn2 E2) as (cn1 & E1 & I1). exists cn1. split; [exact E1 | congruence].
Qed.

Lemma kept_insert cs c cn cn' : cs !! c = Some cn -> identity cn' = identity cn -> kept cs (<[c := cn']> cs).
Proof. intros E I c' cn0 Hc. apply lookup_insert_Some in Hc as [[<- <-]|[N Hc]]; [exists cn; auto | exists cn0; auto]. Qed.

Lemma the_conn_Ret {D : Type} (w : session D) c cn : the_conn w c = Ret cn -> conns w !! c = Some cn.
Proof. unfold the_conn. destruct (conns w !! c); [intros E; injection E as ->; reflexivity | discriminate]. Qed.

Section identities.
Context {H D : Type} `{PacketStore H D}.
Implicit Types (s : H * session D).

Lemma begin_kept k s s' : begin_event k s = Ret s' -> kept (conns s.2) (conns s'.2).
Proof.
  destruct s as [h w]. unfold begin_event. destruct (scheds w !! k) as [[[|e q] [r|]]|]; try (intros E; injection E as <-; apply kept_refl).
  destruct (the_conn w (ev_conn e)) as [cn|] eqn:G; [|discriminate]. apply the_conn_Ret in G. cbn [obind].
  unfold setRtpHeader. set (cn1 := setFrameType _ cn). destruct (channel cn1 (ev_ch e)) as [i|] eqn:Ei; [|discriminate]. cbn [obind].
  assert (I1 : identity cn1 = identity cn) by apply identity_setFrameType.
  destruct (sendable cn1 i).
  - destruct (store_block _ _ _ _) as [[d h1]|]; [|discriminate]. intros E. injection E as <-. apply (kept_insert _ _ cn); [exact G|].
    rewrite <- I1. apply (identity_set_channel cn1 _ i); [exact Ei | reflexivity].
  - intros E. injection E as <-. apply (kept_insert _ _ cn); assumption.
Qed.

Lemma finish_kept k ret s s' : finish_event k ret s = Ret s' -> kept (conns s.2) (conns s'.2).
Proof.
  destruct s as [h w]. unfold finish_event. destruct (scheds w !! k) as [[q [e|]]|]; try (intros E; injection E as <-; apply kept_refl).
  destruct (the_conn w (ev_conn e)) as [cn|] eqn:G; [|discriminate]. apply the_conn_Ret in G. cbn [obind].
  destruct (channel cn (ev_ch e)) as [i|]; [|discriminate]. cbn [obind]. destruct (sendable cn i); [|intros E; injection E as <-; apply kept_refl].
  destruct (transportMode cn).
  1:{ destruct (sendRtpOverTcp i (ev_pkt e) h) as [[b h1]|]; [|discriminate]. intros E. injection E as <-. apply kept_refl. }
  all: unfold sendRtpOverUdp; destruct (read_block _ _ _ _) as [b|]; [|discriminate]; intros E; injection E as <-;
    (apply (kept_insert _ _ cn); [exact G | destruct (ret <? 0); [apply identity_teardown | reflexivity]]).
Qed.

Lemma act_kept a s s' : act a s = Ret s' -> kept (conns s.2) (conns s'.2).
Proof.
  destruct a as [k|k ret|c op|c|sfd|c]; cbn [act].
  - apply begin_kept.
  - apply finish_kept.
  - destruct s as [h w]. unfold on_thread. destruct (conns w !! c) as [cn|] eqn:G; [|intros E; injection E as <-; apply kept_refl].
    destruct (idle w (sched cn)); [|intros E; injection E as <-; apply kept_refl].
    destruct (apply_op op cn) as [cn'|] eqn:Ea; [|discriminate]. intros E. injection E as <-.
    apply (kept_insert _ _ cn); [exact G | apply (identity_apply_op op), Ea].
  - destruct s as [h w]. unfold on_thread. destruct (conns w !! c) as [cn|] eqn:G; [|intros E; injection E as <-; apply kept_refl].
    destruct (idle w (sched cn)); intros E; injection E as <-; [|apply kept_refl]. unfold addClient. destruct (is_client _ _); apply kept_refl.
  - intros E. injection E as <-. unfold removeClient. destruct (is_client sfd _); apply kept_refl.
  - destruct s as [h w]. unfold on_thread. destruct (conns w !! c) as [cn|] eqn:G; [|intros E; injection E as <-; apply kept_refl].
    destruct (idle w (sched cn)); intros E; injection E as <-; [|apply kept_refl]. intros c' cn' Hc. cbn in Hc.
    apply lookup_delete_Some in Hc as [_ Hc]. exists cn'. auto.
Qed.

Lemma interfere_kept s s' : interfere s = Ret s' -> kept (conns s.2) (conns s'.2).
Proof.
  unfold interfere. destruct (schedule s.2) as [|l r]; [intros E; injection E as <-; apply kept_refl|].
  change (conns s.2) with (conns (s.1, s.2 <| schedule := r |>).2). generalize (s.1, s.2 <| schedule := r |>).
  induction l as [|a l IH]; intros t E; [injection E as <-; apply kept_refl|]. cbn [acts] in E.
  destruct (act a t) as [t1|] eqn:Ea; [|discriminate]. eapply kept_trans; [apply (act_kept a), Ea | apply IH, E].
Qed.

(** What only the frame thread changes. *)
Definition static {E : Type} (w : session E) := (mediaSources w, session_isMulticast w, gopCacheEnabled w, gopCache w).

Lemma act_static a s s' : act a s = Ret s' -> static s'.2 = static s.2.
Proof.
  destruct s as [h w], a as [k|k ret|c op|c|sfd|c]; cbn [act]; unfold begin_event, finish_event, on_thread.
  - destruct (scheds w !! k) as [[[|e q] [r|]]|]; try (intros E; injection E as <-; reflexivity).
    destruct (the_conn w (ev_conn e)); [|discriminate]. cbn [obind]. destruct (setRtpHeader _ _ _ _) as [[[? ?] ?]|]; [|discriminate].
    intros E; injection E as <-; reflexivity.
  - destruct (scheds w !! k) as [[q [e|]]|]; try (intros E; injection E as <-; reflexivity).
    destruct (the_conn w (ev_conn e)) as [cn|]; [|discriminate]. cbn [obind]. destruct (channel cn (ev_ch e)) as [i|]; [|discriminate]. cbn [obind].
    destruct (sendable cn i); [|intros E; injection E as <-; reflexivity]. destruct (transportMode cn).
    1:{ destruct (sendRtpOverTcp i (ev_pkt e) h) as [[? ?]|]; [|discriminate]. intros E; injection E as <-; reflexivity. }
    all: destruct (sendRtpOverUdp ret (ev_pkt e) cn h) as [[? ?]|]; [|discriminate]; intros E; injection E as <-; reflexivity.
  - destruct (conns w !! c) as [cn|]; [|intros E; injection E as <-; reflexivity]. destruct (idle w (sched cn)); [|intros E; injection E as <-; reflexivity].
    destruct (apply_op op cn); [|discriminate]. intros E; injection E as <-; reflexivity.
  - destruct (conns w !! c) as [cn|]; [|intros E; injection E as <-; reflexivity].
    destruct (idle w (sched cn)); intros E; injection E as <-; [|reflexivity]. unfold addClient. destruct (is_client _ _); reflexivity.
  - intros E; injection E as <-. unfold removeClient. destruct (is_client _ _); reflexivity.
  - destruct (conns w !! c) as [cn|]; [|intros E; injection E as <-; reflexivity].
    destruct (idle w (sched cn)); intros E; injection E as <-; reflexivity.
Qed.

Lemma interfere_static s s' : interfere s = Ret s' -> static s'.2 = static s.2.
Proof.
  unfold interfere. destruct (schedule s.2) as [|l r]; [intros E; injection E as <-; reflexivity|].
  change (static s.2) with (static (s.1, s.2 <| schedule := r |>).2). generalize (s.1, s.2 <| schedule := r |>).
  induction l as [|a l IH]; intros t E; [injection E as <-; reflexivity|]. cbn [acts] in E.
  destruct (act a t) as [t1|] eqn:Ea; [|discriminate]. rewrite (IH _ E). apply (act_static a), Ea.
Qed.

Lemma sendRtpPacket_static c ch p gop (w : session D) r w' : sendRtpPacket c ch p gop w = Ret (r, w') -> static w' = static w.
Proof.
  unfold sendRtpPacket. destruct (the_conn w c) as [cn|]; [|discriminate]. cbn [obind].
  destruct (isClosed cn); [intros E; injection E as <- <-; reflexivity|]. destruct (gop && _); [intros E; injection E as <- <-; reflexivity|].
  destruct (gop && _); unfold addTriggerEvent; destruct (_ !! _); cbn [obind]; try discriminate; destruct (_ <? _); intros E; injection E as <- <-; reflexivity.
Qed.

Lemma send_all_static front ps ch : forall count s n s', send_all front ps ch count s = Ret (n, s') -> static s'.2 = static s.2.
Proof.
  induction front as [|c front IH]; intros count s n s'; cbn [send_all]; [intros E; injection E as <- <-; reflexivity|].
  destruct (interfere s) as [s1|] eqn:I1; [|discriminate]. apply interfere_static in I1. cbn [obind].
  destruct (the_conn s1.2 c) as [cn|]; [|discriminate]. cbn [obind]. rewrite <- I1.
  destruct (find_packet (sched cn) ps) as [p|]; [|apply IH]. destruct (gopCacheEnabled s1.2 && _); [apply IH|].
  destruct (interfere s1) as [s2|] eqn:I2; [|discriminate]. apply interfere_static in I2. cbn [obind]. rewrite <- I2.
  destruct (sendRtpPacket c ch p (gopCacheEnabled s2.2) s2.2) as [[r w]|] eqn:I3; [|discriminate]. apply sendRtpPacket_static in I3. cbn [obind]. rewrite <- I3.
  destruct (_ && _); [intros E; injection E as <- <-; reflexivity|]. intros E. apply IH in E. exact E.
Qed.

Lemma callback_static ch p s b s' : send_callback ch p s = Ret (b, s') -> static s'.2 = static s.2.
Proof.
  unfold send_callback. destruct (interfere s) as [s1|] eqn:I1; [|discriminate]. apply interfere_static in I1. cbn [obind].
  destruct (gather _ _ _ _ _ _) as [[[[l ps] front] h]|]; [|discriminate]. cbn [obind].
  destruct (send_all front ps ch 0 _) as [[n s2]|] eqn:I2; [|discriminate]. apply send_all_static in I2. cbn [obind]. intros E. injection E as <- <-.
  rewrite I2. exact I1.
Qed.
End identities.

(** ** Blocks *)

Lemma stores_lookup vs : forall b i, (i + length vs <= length b)%nat ->
  exists b', stores b i vs = Ret b' /\ length b' = length b /\
    forall j, b' !! j = if decide (i <= j < i + length vs)%nat then u8 <$> vs !! (j - i)%nat else b !! j.
Proof.
  induction vs as [|v vs IH]; intros b i H; cbn [length] in *.
  - exists b. split_and!; [reflexivity | reflexivity|]. intros j. rewrite decide_False by lia. reflexivity.
  - cbn [stores]. rewrite put8_in by lia. cbn [obind]. destruct (IH (<[i := u8 v]> b) (S i)) as (b' & -> & L & E).
    { rewrite length_insert. lia. }
    exists b'. split_and!; [reflexivity | rewrite L, length_insert; reflexivity|]. intros j. rewrite E.
    destruct (decide (j = i)) as [->|N].
    + rewrite decide_False, decide_True, Nat.sub_diag by lia. rewrite list_lookup_insert_eq by lia. reflexivity.
    + rewrite list_lookup_insert_ne by lia. destruct (decide (S i <= j < S i + length vs)%nat).
      * rewrite decide_True by lia. replace (j - i)%nat with (S (j - S i)) by lia. reflexivity.
      * rewrite decide_False by lia. reflexivity.
Qed.

(** The same bytes from [lo] up to [n]. *)
Definition agree (lo : nat) (n : Z) (b b' : list Z) : Prop :=
  length b = BLOCK_SIZE /\ length b' = BLOCK_SIZE /\ forall j, (lo <= j)%nat -> Z.of_nat j < n -> exists x, is_u8 x /\ b !! j = Some x /\ b' !! j = Some x.

Lemma agree_slice lo n b b' : agree lo n b b' -> n <= 1600 -> orel eq (slice b lo n) (slice b' lo n).
Proof.
  intros (L & L' & E) Hn. unfold slice. rewrite L, L'. change (Z.of_nat BLOCK_SIZE) with 1600. rewrite (proj2 (Z.leb_le _ _)) by lia. cbn.
  apply list_eq. intros j. rewrite !lookup_drop. destruct (decide (lo + j < Z.to_nat n)%nat) as [K|K].
  - rewrite !lookup_take_lt by lia. destruct (E (lo + j)%nat) as (x & _ & -> & ->); [lia | lia | reflexivity].
  - rewrite !lookup_take_ge by lia. reflexivity.
Qed.

(** A store below what the blocks agree on makes them agree on more. *)
Lemma agree_stores lo i vs n b b' : agree lo n b b' -> (i + length vs = lo)%nat -> (lo <= 16)%nat ->
  orel (fun c c' => agree i n c c' /\ length c = length b /\ forall j, (16 <= j)%nat -> c !! j = b !! j) (stores b i vs) (stores b' i vs).
Proof.
  intros (L & L' & E) Hi Hl. unfold BLOCK_SIZE in *.
  destruct (stores_lookup vs b i) as (c & -> & Lc & Ec); [lia|]. destruct (stores_lookup vs b' i) as (c' & -> & Lc' & Ec'); [lia|].
  cbn. split_and!; [split_and!; [unfold BLOCK_SIZE; lia | unfold BLOCK_SIZE; lia|] | exact Lc|].
  - intros j H1 H2. rewrite Ec, Ec'. destruct (decide _); [|apply E; lia].
    destruct (lookup_lt_is_Some_2 vs (j - i)) as [x ->]; [lia|]. exists (u8 x). split; [apply u8_range | auto].
  - intros j Hj. rewrite Ec, decide_False by lia. reflexivity.
Qed.

(** ** The invariant *)

(** A packet of the code and one with an own block: the payload is the same. *)
Definition pkt_rel (h : heap) (lo : nat) (p : RtpPacket nat) (q : RtpPacket (list Z)) : Prop :=
  pkt_size p = pkt_size q /\ pkt_timestamp p = pkt_timestamp q /\ pkt_type p = pkt_type q /\ last p = last q /\
  pkt_size p <= 1600 /\ exists b, h !! data p = Some b /\ agree lo (pkt_size p) b (data q).

Definition ev_rel (h : heap) (lo : nat) (e : event nat) (f : event (list Z)) : Prop :=
  ev_conn e = ev_conn f /\ ev_ch e = ev_ch f /\ pkt_rel h lo (ev_pkt e) (ev_pkt f).

(** The event will be sent. *)
Definition sends {D : Type} (cs : gmap nat RtpConnection) (e : event D) : Prop :=
  exists cn i, cs !! ev_conn e = Some cn /\ channel cn (ev_ch e) = Ret i /\ sendable cn i = true.

(** An event of scheduler [k]: so is its connection, and [k] owns its block. *)
Definition homed (own : nat -> option nat) (cs : gmap nat RtpConnection) (k : nat) (e : event nat) : Prop :=
  own (data (ev_pkt e)) = Some k /\ forall cn, cs !! ev_conn e = Some cn -> sched cn = k.

Definition sched_rel (own : nat -> option nat) (cs : gmap nat RtpConnection) (h : heap) (k : nat) (sc : scheduler nat)
    (sd : scheduler (list Z)) : Prop :=
  Forall2 (fun e f => ev_rel h 16 e f /\ homed own cs k e) (triggerEvents sc) (triggerEvents sd) /\
  match running sc, running sd with
  | None, None => True
  | Some e, Some f => ev_rel h 16 e f /\ homed own cs k e /\ (sends cs e -> ev_rel h 4 e f)
  | _, _ => False
  end.

(** Everything of a session but its schedulers. *)
Definition strip {D : Type} (w : session D) : session unit :=
  mkSession (conns w) [] (clients w) (mediaSources w) (session_isMulticast w) (gopCacheEnabled w) (hasNewClient w) (gopCache w)
    (notified w) (schedule w) (sent w).

Definition scheds_rel (own : nat -> option nat) (cs : gmap nat RtpConnection) (h : heap) (l : list (scheduler nat))
    (m : list (scheduler (list Z))) : Prop :=
  length l = length m /\ forall k sc sd, l !! k = Some sc -> m !! k = Some sd -> sched_rel own cs h k sc sd.

Definition sim (own : nat -> option nat) (s : heap * session nat) (t : unit * session (list Z)) : Prop :=
  strip s.2 = strip t.2 /\ scheds_rel own (conns s.2) s.1 (scheds s.2) (scheds t.2).

(** What a thread may do to blocks: write below the payload. *)
Definition heap_ext (h h' : heap) : Prop :=
  forall d b, h !! d = Some b -> exists b', h' !! d = Some b' /\ length b' = length b /\ forall j, (16 <= j)%nat -> b' !! j = b !! j.

(** The same session after a change that keeps the blocks' payloads. *)
Definition sim_from (own : nat -> option nat) (h : heap) (s : heap * session nat) (t : unit * session (list Z)) : Prop :=
  sim own s t /\ heap_ext h s.1.

Lemma heap_ext_refl h : heap_ext h h.
Proof. intros d b E. exists b. auto. Qed.

Lemma heap_ext_trans h1 h2 h3 : heap_ext h1 h2 -> heap_ext h2 h3 -> heap_ext h1 h3.
Proof.
  intros A B d b E. destruct (A d b E) as (b2 & E2 & L2 & K2). destruct (B d b2 E2) as (b3 & E3 & L3 & K3).
  exists b3. split_and!; [exact E3 | congruence | intros j Hj; rewrite K3, K2 by exact Hj; reflexivity].
Qed.

Lemma pkt_rel_ext h h' p q : heap_ext h h' -> pkt_rel h 16 p q -> pkt_rel h' 16 p q.
Proof.
  intros X (E1 & E2 & E3 & E4 & Sz & b & Eb & L & L' & A). destruct (X _ _ Eb) as (b' & Eb' & Lb & K).
  do 5 (split; [assumption|]). exists b'. split; [exact Eb'|]. split_and!; [congruence | exact L'|].
  intros j H1 H2. rewrite K by exact H1. apply A; assumption.
Qed.

Lemma ev_rel_ext h h' e f : heap_ext h h' -> ev_rel h 16 e f -> ev_rel h' 16 e f.
Proof. intros X (A & B & C). split_and!; [exact A | exact B | exact (pkt_rel_ext _ _ _ _ X C)]. Qed.

(** A block another scheduler does not own is as it was. *)
Lemma pkt_rel_same h h' lo p q : h' !! data p = h !! data p -> pkt_rel h lo p q -> pkt_rel h' lo p q.
Proof. intros E (E1 & E2 & E3 & E4 & Sz & b & Eb & A). do 5 (split; [assumption|]). exists b. rewrite E. auto. Qed.

(** A scheduler is not touched by a thread that keeps its connections and, of its
    blocks, the ones it does not own. *)
Lemma sched_rel_frame own cs cs' h h' k sc sd :
  heap_ext h h' -> (forall d, own d = Some k -> h' !! d = h !! d) ->
  (forall c cn, cs' !! c = Some cn -> exists cn', cs !! c = Some cn' /\ sched cn = sched cn' /\ (sched cn = k -> running sc <> None ->
     mediaChannelInfo cn = mediaChannelInfo cn' /\ hasIDRFrame cn = hasIDRFrame cn' /\ frameType cn = frameType cn')) ->
  sched_rel own cs h k sc sd -> sched_rel own cs' h' k sc sd.
Proof.
  intros X Y Z [Q R]. assert (Hm : forall e, homed own cs k e -> homed own cs' k e).
  { intros e [O P]. split; [exact O|]. intros cn Ec. destruct (Z _ _ Ec) as (cn' & Ec' & Es & _). rewrite Es. apply P, Ec'. }
  split.
  - eapply Forall2_impl; [exact Q|]. intros e f [A B]. split; [eapply ev_rel_ext; eassumption | apply Hm, B].
  - destruct (running sc) as [e|] eqn:Er, (running sd) as [f|]; try exact R. destruct R as (A & B & C).
    split_and!; [eapply ev_rel_ext; eassumption | apply Hm, B|]. intros (cn & i & Ec & Ei & Sn).
    destruct (Z _ _ Ec) as (cn' & Ec' & Es & K). destruct K as (K1 & K2 & K3); [rewrite Es; apply B, Ec' | discriminate|].
    destruct C as (C1 & C2 & C3).
    { exists cn', i. split_and!; [exact Ec' | unfold channel in *; rewrite <- K1; exact Ei | unfold sendable in *; rewrite <- K2, <- K3; exact Sn]. }
    split_and!; [exact C1 | exact C2|]. eapply pkt_rel_same; [|exact C3]. apply Y, B.
Qed.

(** ** The threads *)

Section threads.
Context (fresh : nat -> list Z).
Implicit Types (h : heap) (w : session nat) (v : session (list Z)).
#[local] Existing Instance shared_blocks.

Lemma heap_ext_insert h d b b' : h !! d = Some b -> length b' = length b -> (forall j, (16 <= j)%nat -> b' !! j = b !! j) ->
  heap_ext h (<[d := b']> h).
Proof.
  intros E L K e c Ec. destruct (decide (e = d)) as [->|N].
  - rewrite E in Ec. injection Ec as <-. exists b'. rewrite list_lookup_insert_eq by (eapply lookup_lt_Some, E). auto.
  - exists c. rewrite list_lookup_insert_ne by congruence. auto.
Qed.

(** A store below the payload, in both. *)
Lemma store_sim h lo i vs p q : pkt_rel h lo p q -> (i + length vs = lo)%nat -> (lo <= 16)%nat ->
  orel (fun '(d, h') '(d', _) => d = data p /\ pkt_rel h' i p (mkPacket d' (pkt_size q) (pkt_timestamp q) (pkt_type q) (last q)) /\
     heap_ext h h' /\ forall e, e <> data p -> h' !! e = h !! e)
    (store_block (H := heap) (PacketStore := shared_blocks fresh) (data p) i vs h) (store_block (data q) i vs tt).
Proof.
  intros (E1 & E2 & E3 & E4 & Sz & b & Eb & A) Hi Hl. cbn. unfold on_block. rewrite Eb.
  pose proof (agree_stores lo i vs (pkt_size p) b (data q) A Hi Hl) as K.
  destruct (stores b i vs) as [c|], (stores (data q) i vs) as [c'|]; cbn in K |- *; try contradiction; [|exact K].
  destruct K as (Ag & Lc & Kc). split_and!; [reflexivity | | eapply heap_ext_insert; eassumption | intros e N; apply list_lookup_insert_ne; congruence].
  do 5 (split; [assumption|]). exists c. split; [|exact Ag]. apply list_lookup_insert_eq, (lookup_lt_Some _ _ _ Eb).
Qed.

Lemma pkt_rel_weaken h lo lo' p q : (lo <= lo')%nat -> pkt_rel h lo p q -> pkt_rel h lo' p q.
Proof.
  intros Hl (E1 & E2 & E3 & E4 & Sz & b & Eb & L & L' & A). do 5 (split; [assumption|]). exists b. split; [exact Eb|].
  split_and!; [exact L | exact L' | intros j H1 H2; apply A; lia].
Qed.

Lemma setRtpHeader_sim ch p q cn h : pkt_rel h 16 p q ->
  orel (fun '(cn1, p1, h1) '(cn2, q2, _) => cn1 = cn2 /\ data p1 = data p /\ pkt_rel h1 16 p1 q2 /\
     (forall i, channel cn1 ch = Ret i -> sendable cn1 i = true -> pkt_rel h1 4 p1 q2) /\ heap_ext h h1 /\
     (forall e, e <> data p -> h1 !! e = h !! e) /\ sched cn1 = sched cn)
    (setRtpHeader (H0 := shared_blocks fresh) ch p cn h) (setRtpHeader ch q cn tt).
Proof.
  intros P. pose proof P as (E1 & E2 & E3 & E4 & _). unfold setRtpHeader. destruct (channel cn ch) as [i|c] eqn:Ei; cbn [obind]; [|reflexivity].
  destruct (sendable cn i) eqn:Sn.
  - rewrite <- E2, <- E4. eapply orel_bind; [apply (store_sim h 16 4 _ p q P); reflexivity|].
    intros [d h1] [d' u] (-> & R & X & Y). cbn [orel].
    assert (R4 : pkt_rel h1 4 (mkPacket (data p) (pkt_size p) (pkt_timestamp p) (pkt_type p) (last p))
      (mkPacket d' (pkt_size q) (pkt_timestamp p) (pkt_type q) (last p))) by (destruct p; cbn in *; rewrite <- E2, <- E4 in R; exact R).
    split_and!; try reflexivity; try assumption; [eapply pkt_rel_weaken; [|exact R4]; lia | intros; exact R4].
  - cbn [orel]. split_and!; try reflexivity; try assumption; [|apply heap_ext_refl].
    intros i0 Ei0 Sn0. rewrite Ei in Ei0. injection Ei0 as <-. congruence.
Qed.

(** A step that changes scheduler [k], connections of [k] and blocks [k] owns. *)
Lemma sim_step own k h w v h' w' v' sc sd :
  sim own (h, w) (tt, v) -> strip w' = strip v' -> scheds w' = <[k := sc]> (scheds w) -> scheds v' = <[k := sd]> (scheds v) ->
  heap_ext h h' -> (forall d, own d <> Some k -> h' !! d = h !! d) ->
  (forall c cn, conns w' !! c = Some cn -> exists cn', conns w !! c = Some cn' /\ sched cn = sched cn' /\ (sched cn <> k ->
     mediaChannelInfo cn = mediaChannelInfo cn' /\ hasIDRFrame cn = hasIDRFrame cn' /\ frameType cn = frameType cn')) ->
  sched_rel own (conns w') h' k sc sd -> sim_from own h (h', w') (tt, v').
Proof.
  intros [S0 [L C]] S1 E1 E2 X Y Z R. cbn [fst snd] in *. split; [|exact X]. split; [exact S1|]. cbn [fst snd]. rewrite E1, E2.
  split; [rewrite !length_insert; exact L|]. intros k' sc' sd' A B. destruct (decide (k' = k)) as [->|N].
  - apply list_lookup_insert_Some in A as [(_ & <- & _)|[? _]]; [|congruence].
    apply list_lookup_insert_Some in B as [(_ & <- & _)|[? _]]; [exact R | congruence].
  - rewrite list_lookup_insert_ne in A by congruence. rewrite list_lookup_insert_ne in B by congruence. eapply sched_rel_frame; [exact X | | | apply C; eassumption].
    + intros d Ed. apply Y. congruence.
    + intros c cn Ec. destruct (Z c cn Ec) as (cn' & Ec' & Es & K). exists cn'. split_and!; [exact Ec' | exact Es|]. intros Ek _. apply K. congruence.
Qed.

Lemma strip_fields w v : strip w = strip v -> conns w = conns v /\ clients w = clients v /\ mediaSources w = mediaSources v /\
  session_isMulticast w = session_isMulticast v /\ gopCacheEnabled w = gopCacheEnabled v /\ hasNewClient w = hasNewClient v /\
  gopCache w = gopCache v /\ notified w = notified v /\ schedule w = schedule v /\ sent w = sent v.
Proof. unfold strip. intros E. injection E. auto 12. Qed.

Lemma sim_sched own h w v k : sim own (h, w) (tt, v) ->
  match scheds w !! k, scheds v !! k with
  | Some sc, Some sd => sched_rel own (conns w) h k sc sd
  | None, None => True
  | _, _ => False
  end.
Proof.
  intros [_ [L C]]. cbn [fst snd] in *. destruct (scheds w !! k) as [sc|] eqn:A, (scheds v !! k) as [sd|] eqn:B; [| | |exact I].
  - apply C; assumption.
  - apply lookup_ge_None in B. apply lookup_lt_Some in A. lia.
  - apply lookup_ge_None in A. apply lookup_lt_Some in B. lia.
Qed.

Lemma the_conn_sim w v c : strip w = strip v -> the_conn w c = the_conn v c.
Proof. intros E. destruct (strip_fields w v E) as (C & _). unfold the_conn. rewrite C. reflexivity. Qed.

Lemma sim_refl own h w v : sim own (h, w) (tt, v) -> sim_from own h (h, w) (tt, v).
Proof. intros S. split; [exact S | apply heap_ext_refl]. Qed.

Lemma setFrameType_keeps t cn : sched (setFrameType t cn) = sched cn.
Proof. unfold setFrameType. destruct (_ && _); reflexivity. Qed.

Lemma begin_sim own k h w v : sim own (h, w) (tt, v) ->
  orel (sim_from own h) (begin_event (H0 := shared_blocks fresh) k (h, w)) (begin_event k (tt, v)).
Proof.
  intros S. pose proof (sim_sched own h w v k S) as R. pose proof (proj1 S) as E. cbn [snd] in E. unfold begin_event.
  destruct (scheds w !! k) as [[q r]|] eqn:A, (scheds v !! k) as [[q' r']|]; try contradiction; [|apply sim_refl, S].
  destruct R as [Q R]. cbn [triggerEvents running] in *. destruct r as [e0|], r' as [f0|]; try contradiction.
  { destruct q, q'; apply sim_refl, S. }
  destruct Q as [|e f q q' [Re [Ow Hc]] Q]; [apply sim_refl, S|]. destruct Re as (Ec & Eh & P). pose proof P as (_ & _ & Et & _).
  rewrite (the_conn_sim w v _ E), <- Ec, <- Eh, <- Et. destruct (the_conn v (ev_conn e)) as [cn|] eqn:G; [|reflexivity]. cbn [obind].
  eapply orel_bind; [apply (setRtpHeader_sim (ev_ch e) _ _ (setFrameType (pkt_type (ev_pkt e)) cn) h P)|].
  intros [[cn1 p1] h1] [[cn2 q2] u] (<- & Dp & P16 & P4 & X & Y & Hs). cbn [orel]. rewrite setFrameType_keeps in Hs. destruct u.
  assert (G' : conns w !! ev_conn e = Some cn).
  { rewrite <- (the_conn_sim w v _ E) in G. unfold the_conn in G. destruct (conns w !! ev_conn e); [injection G as ->; reflexivity | discriminate]. }
  eapply (sim_step own k); [exact S | unfold set_sched, set_conn, strip in *; cbn; injection E; intros; congruence | reflexivity | reflexivity
    | exact X | intros d Nd; apply Y; congruence | |].
  - intros c cn' Hc'. unfold set_sched, set_conn in Hc'. cbn [conns upd set_conns set_scheds] in Hc'.
    apply lookup_insert_Some in Hc' as [[<- <-]|[N Hc']].
    + exists cn. split_and!; [exact G' | exact Hs|]. intros K. contradict K. rewrite Hs. apply Hc, G'.
    + exists cn'. auto.
  - assert (Hm : forall e', homed own (conns w) k e' -> homed own (<[ev_conn e := cn1]> (conns w)) k e').
    { intros e' [O1 O2]. split; [exact O1|]. intros cn' Hc'. apply lookup_insert_Some in Hc' as [[Ee <-]|[N Hc']]; [|auto].
      rewrite Hs. apply O2. rewrite <- Ee. exact G'. }
    split; cbn [triggerEvents running].
    + eapply Forall2_impl; [exact Q|]. intros e' f' [A1 A2]. split; [eapply ev_rel_ext; eassumption | apply Hm, A2].
    + split_and!; [split_and!; [reflexivity | reflexivity | exact P16] | | ].
      * split; [cbn [ev_pkt data]; rewrite Dp; exact Ow|]. apply (Hm (mkEvent _ _ p1)). split; [cbn; rewrite Dp; exact Ow | exact Hc].
      * intros (cn' & i & Ec' & Ei & Sn). cbn in Ec'. rewrite lookup_insert_eq in Ec'. injection Ec' as <-.
        split_and!; [reflexivity | reflexivity | eapply P4; eassumption].
Qed.

Lemma homed_insert own cs c cn cn1 k e : cs !! c = Some cn -> sched cn1 = sched cn -> homed own cs k e -> homed own (<[c := cn1]> cs) k e.
Proof.
  intros G Hs [O1 O2]. split; [exact O1|]. intros cn' Hc'. apply lookup_insert_Some in Hc' as [[Ee <-]|[N Hc']]; [|auto].
  rewrite Hs. apply O2. rewrite <- Ee. exact G.
Qed.

Lemma queue_frame own cs cs' h h' k q q' : heap_ext h h' -> (forall e, homed own cs k e -> homed own cs' k e) ->
  Forall2 (fun e f => ev_rel h 16 e f /\ homed own cs k e) q q' -> Forall2 (fun e f => ev_rel h' 16 e f /\ homed own cs' k e) q q'.
Proof. intros X Hm Q. eapply Forall2_impl; [exact Q|]. intros e f [A B]. split; [eapply ev_rel_ext; eassumption | apply Hm, B]. Qed.

Lemma teardown_sched cn : sched (teardown cn) = sched cn.
Proof. unfold teardown. destruct (isClosed cn); reflexivity. Qed.

Lemma conn_changed w c cn cn1 k : conns w !! c = Some cn -> sched cn1 = sched cn -> sched cn = k ->
  forall c' cn', <[c := cn1]> (conns w) !! c' = Some cn' -> exists cn0, conns w !! c' = Some cn0 /\ sched cn' = sched cn0 /\ (sched cn' <> k ->
     mediaChannelInfo cn' = mediaChannelInfo cn0 /\ hasIDRFrame cn' = hasIDRFrame cn0 /\ frameType cn' = frameType cn0).
Proof.
  intros G Hs Hk c' cn' Hc'. apply lookup_insert_Some in Hc' as [[<- <-]|[N Hc']]; [|exists cn'; auto].
  exists cn. split_and!; [exact G | exact Hs | intros K; congruence].
Qed.

(** The two ways of sending read the same bytes. *)
Lemma udp_sim ret e f cn h : ev_rel h 4 e f ->
  orel (fun x y => x = y /\ sched x.2 = sched cn) (sendRtpOverUdp (H := heap) (H0 := shared_blocks fresh) ret (ev_pkt e) cn h) (sendRtpOverUdp ret (ev_pkt f) cn tt).
Proof.
  intros (_ & _ & Sz & _ & _ & _ & Le & b & Eb & Ag). unfold sendRtpOverUdp. cbn [read_block shared_blocks own_blocks]. rewrite Eb, <- Sz.
  eapply orel_bind; [exact (agree_slice 4 _ _ _ Ag Le)|]. intros x _ <-. split; [reflexivity|].
  cbn. destruct (ret <? 0); [apply teardown_sched | reflexivity].
Qed.

Lemma tcp_sim i e f h : ev_rel h 4 e f ->
  orel (fun '(b, h') '(b', _) => b = b' /\ heap_ext h h' /\ forall d, d <> data (ev_pkt e) -> h' !! d = h !! d)
    (sendRtpOverTcp (H := heap) (H0 := shared_blocks fresh) i (ev_pkt e) h) (sendRtpOverTcp i (ev_pkt f) tt).
Proof.
  intros (_ & _ & P). pose proof P as (Sz & _ & _ & _ & Le & _). unfold sendRtpOverTcp. rewrite <- Sz.
  eapply orel_bind; [apply (store_sim h 4 0 _ _ _ P); [reflexivity | lia]|].
  intros [d h1] [d' u] (-> & (_ & _ & _ & _ & _ & b & Eb & Ag) & X & Y). cbn [read_block shared_blocks own_blocks]. rewrite Eb.
  eapply orel_bind; [exact (agree_slice 0 _ _ _ Ag Le)|]. intros x _ <-. cbn. auto.
Qed.

Lemma finish_sim own k ret h w v : sim own (h, w) (tt, v) ->
  orel (sim_from own h) (finish_event (H0 := shared_blocks fresh) k ret (h, w)) (finish_event k ret (tt, v)).
Proof.
  intros S. pose proof (sim_sched own h w v k S) as R. pose proof (proj1 S) as E. cbn [snd] in E. unfold finish_event.
  destruct (scheds w !! k) as [[q r]|] eqn:A, (scheds v !! k) as [[q' r']|]; try contradiction; [|apply sim_refl, S].
  destruct R as [Q R]. cbn [triggerEvents running] in *. destruct r as [e|], r' as [f|]; try contradiction; [|apply sim_refl, S].
  destruct R as ((Ec & Eh & P16) & [Ow Hc] & P4). rewrite <- (the_conn_sim w v _ E), <- Ec, <- Eh.
  destruct (the_conn w (ev_conn e)) as [cn|] eqn:G; [|reflexivity]. apply the_conn_Ret in G. cbn [obind].
  destruct (channel cn (ev_ch e)) as [i|] eqn:Ei; [|reflexivity]. cbn [obind].
  assert (Old : forall c cn', conns w !! c = Some cn' -> exists cn0, conns w !! c = Some cn0 /\ sched cn' = sched cn0 /\ (sched cn' <> k ->
    mediaChannelInfo cn' = mediaChannelInfo cn0 /\ hasIDRFrame cn' = hasIDRFrame cn0 /\ frameType cn' = frameType cn0)) by (intros c cn' Hc'; exists cn'; auto).
  destruct (sendable cn i) eqn:Sn.
  2:{ eapply (sim_step own k); [exact S | exact E | reflexivity | reflexivity | apply heap_ext_refl | reflexivity | exact Old|].
      split; [exact Q | exact I]. }
  assert (P4' : ev_rel h 4 e f) by (apply P4; exists cn, i; auto).
  destruct (transportMode cn) eqn:Tm.
  1:{ eapply orel_bind; [apply tcp_sim, P4'|]. intros [b h1] [b' u] (<- & X & Y). destruct u. cbn [orel].
      eapply (sim_step own k); [exact S | unfold set_sched, strip in *; cbn; injection E; intros; congruence | reflexivity | reflexivity
        | exact X | intros d Nd; apply Y; congruence | exact Old |].
      split; [|exact I]. eapply queue_frame; [exact X | intros e' H'; exact H' | exact Q]. }
  all: eapply orel_bind; [apply (udp_sim ret e f cn h P4')|]; intros [b cn'] _ [<- Hs]; cbn [orel snd] in *;
    (eapply (sim_step own k); [exact S | unfold set_sched, set_conn, strip in *; cbn; injection E; intros; congruence | reflexivity | reflexivity
      | apply heap_ext_refl | reflexivity | exact (conn_changed w _ cn cn' k G Hs (Hc _ G)) |]);
    (split; [|exact I]; eapply queue_frame; [apply heap_ext_refl | | exact Q]; intros e'; eapply homed_insert; eassumption).
Qed.

(** A step that changes connections whose scheduler is idle. *)
Lemma sim_conns own h w v w' v' :
  sim own (h, w) (tt, v) -> strip w' = strip v' -> scheds w' = scheds w -> scheds v' = scheds v ->
  (forall c cn, conns w' !! c = Some cn -> exists cn', conns w !! c = Some cn' /\ sched cn = sched cn' /\ (idle w (sched cn) = false ->
     mediaChannelInfo cn = mediaChannelInfo cn' /\ hasIDRFrame cn = hasIDRFrame cn' /\ frameType cn = frameType cn')) ->
  sim own (h, w') (tt, v').
Proof.
  intros [S0 [L C]] S1 E1 E2 Z. cbn [fst snd] in *. split; [exact S1|]. cbn [fst snd]. rewrite E1, E2. split; [exact L|]. intros k sc sd A B.
  eapply sched_rel_frame; [apply heap_ext_refl | reflexivity | | apply C; eassumption].
  intros c cn Ec. destruct (Z c cn Ec) as (cn' & Ec' & Es & K). exists cn'. split_and!; [exact Ec' | exact Es|]. intros Ek Er. apply K.
  unfold idle. rewrite Ek, A. destruct (running sc); [reflexivity | contradiction].
Qed.

Lemma idle_sim own h w v k : sim own (h, w) (tt, v) -> idle w k = idle v k.
Proof.
  intros S. pose proof (sim_sched own h w v k S) as R. unfold idle. destruct (scheds w !! k) as [sc|], (scheds v !! k) as [sd|]; try contradiction; auto.
  destruct R as [_ R]. destruct (running sc), (running sd); try contradiction; reflexivity.
Qed.

Lemma act_sim own a h w v : sim own (h, w) (tt, v) ->
  orel (sim_from own h) (act (H0 := shared_blocks fresh) a (h, w)) (act a (tt, v)).
Proof.
  intros S. pose proof (proj1 S) as E. cbn [snd] in E. destruct (strip_fields w v E) as (Ec & El & _ & _ & _ & _ & _ & En & _).
  destruct a as [k|k ret|c op|c|sfd|c]; cbn [act].
  - apply begin_sim, S.
  - apply finish_sim, S.
  - unfold on_thread. rewrite <- Ec. destruct (conns w !! c) as [cn|] eqn:G; [|apply sim_refl, S].
    rewrite <- (idle_sim own h w v (sched cn) S). destruct (idle w (sched cn)) eqn:Ei; [|apply sim_refl, S].
    destruct (apply_op op cn) as [cn'|] eqn:Ea; [|reflexivity]. apply identity_apply_op in Ea. apply (f_equal (fun x => x.1.1)) in Ea. cbn in Ea. cbn [obind orel]. apply sim_refl.
    eapply sim_conns; [exact S | unfold set_conn, strip in *; cbn; injection E; intros; congruence | reflexivity | reflexivity |].
    intros c' cn0 Hc'. cbn in Hc'. apply lookup_insert_Some in Hc' as [[<- <-]|[N Hc']]; [|exists cn0; auto].
    exists cn. split_and!; [exact G | exact Ea | congruence].
  - unfold on_thread. rewrite <- Ec. destruct (conns w !! c) as [cn|] eqn:G; [|apply sim_refl, S].
    rewrite <- (idle_sim own h w v (sched cn) S). destruct (idle w (sched cn)) eqn:Ei; [|apply sim_refl, S].
    cbn [obind orel]. apply sim_refl. unfold addClient. rewrite <- El, <- En. destruct (is_client (fd cn) (clients w)); [exact S|]. cbn [snd].
    eapply sim_conns; [exact S | unfold strip in *; cbn; injection E; intros; congruence | reflexivity | reflexivity | intros c' cn' Hc'; exists cn'; auto].
  - cbn [orel fst snd]. apply sim_refl. unfold removeClient. rewrite <- El, <- En. destruct (is_client sfd (clients w)); [|exact S].
    eapply sim_conns; [exact S | unfold strip in *; cbn; injection E; intros; congruence | reflexivity | reflexivity | intros c' cn' Hc'; exists cn'; auto].
  - unfold on_thread. rewrite <- Ec. destruct (conns w !! c) as [cn|] eqn:G; [|apply sim_refl, S].
    rewrite <- (idle_sim own h w v (sched cn) S). destruct (idle w (sched cn)) eqn:Ei; [|apply sim_refl, S]. cbn [obind orel]. apply sim_refl.
    eapply sim_conns; [exact S | unfold strip in *; cbn; injection E; intros; congruence | reflexivity | reflexivity |].
    intros c' cn' Hc'. cbn in Hc'. apply lookup_delete_Some in Hc' as [N Hc']. exists cn'. auto.
Qed.

Lemma acts_sim own l : forall h w v, sim own (h, w) (tt, v) ->
  orel (sim_from own h) (acts (H0 := shared_blocks fresh) l (h, w)) (acts l (tt, v)).
Proof.
  induction l as [|a l IH]; intros h w v S; [apply sim_refl, S|]. cbn [acts]. eapply orel_bind; [apply act_sim, S|].
  intros [h1 w1] [[] v1] [S1 X1]. eapply orel_mono; [apply IH, S1|]. intros s t [S2 X2]. split; [exact S2 | eapply heap_ext_trans; eassumption].
Qed.

Lemma interfere_sim own h w v : sim own (h, w) (tt, v) ->
  orel (sim_from own h) (interfere (H0 := shared_blocks fresh) (h, w)) (interfere (tt, v)).
Proof.
  intros S. pose proof (proj1 S) as E. cbn [snd] in E. destruct (strip_fields w v E) as (_ & _ & _ & _ & _ & _ & _ & _ & Es & _).
  unfold interfere. cbn [fst snd]. rewrite <- Es. destruct (schedule w) as [|l r]; [apply sim_refl, S|]. apply acts_sim.
  eapply sim_conns; [exact S | unfold strip in *; cbn; injection E; intros; congruence | reflexivity | reflexivity | intros c' cn' Hc'; exists cn'; auto].
Qed.
End threads.

(** ** The frame thread *)

Section frames.
Context (fresh : nat -> list Z).
Hypothesis fresh_size : forall n, length (fresh n) = BLOCK_SIZE.
Implicit Types (h : heap) (w : session nat) (v : session (list Z)).

(** No event refers to block [d]. *)
Definition free w (d : nat) : Prop :=
  forall k sc e, scheds w !! k = Some sc -> In e (triggerEvents sc) \/ running sc = Some e -> data (ev_pkt e) <> d.

Definition owner (own : nat -> option nat) (d : nat) (k : option nat) : nat -> option nat := fun e => if decide (e = d) then k else own e.

Lemma pkt_rel_app h b lo p q : pkt_rel h lo p q -> pkt_rel (h ++ [b]) lo p q.
Proof. intros P. pose proof P as (_ & _ & _ & _ & _ & c & Ec & _). eapply pkt_rel_same; [|exact P]. rewrite Ec. apply lookup_app_l_Some, Ec. Qed.

Lemma pkt_rel_lt h lo p q : pkt_rel h lo p q -> (data p < length h)%nat.
Proof. intros (_ & _ & _ & _ & _ & c & Ec & _). apply (lookup_lt_Some _ _ _ Ec). Qed.

(** A change of the heap and of owners that every event allows. *)
Lemma sim_events own own' h h' w v : sim own (h, w) (tt, v) ->
  (forall k sc e, scheds w !! k = Some sc -> In e (triggerEvents sc) \/ running sc = Some e -> own' (data (ev_pkt e)) = own (data (ev_pkt e))) ->
  (forall lo p q, pkt_rel h lo p q -> pkt_rel h' lo p q) -> sim own' (h', w) (tt, v).
Proof.
  intros [S [L C]] Ho Hh. cbn [fst snd] in *. split; [exact S|]. split; [exact L|]. cbn [fst snd]. intros k sc sd A B.
  destruct (C k sc sd A B) as [Q R]. assert (Hm : forall e, In e (triggerEvents sc) \/ running sc = Some e ->
    homed own (conns w) k e -> homed own' (conns w) k e) by (intros e I [O P]; split; [rewrite (Ho k sc e A I); exact O | exact P]).
  assert (Hv : forall lo e f, ev_rel h lo e f -> ev_rel h' lo e f) by (intros lo e f (X & Y & Z); split_and!; [exact X | exact Y | apply Hh, Z]).
  split.
  - eapply Forall2_forall_in; [exact Q|]. intros e f I [X Y]. split; [apply Hv, X | apply Hm; [left; exact I | exact Y]].
  - destruct (running sc) as [e|], (running sd) as [f|]; try exact R. destruct R as (X & Y & Z).
    split_and!; [apply Hv, X | apply Hm; [right; reflexivity | exact Y] | intros K; apply Hv, Z, K].
Qed.

Lemma sim_free own h w v : sim own (h, w) (tt, v) -> free w (length h).
Proof.
  intros [_ [L C]] k sc e A I. cbn [fst snd] in *. destruct (lookup_lt_is_Some_2 (scheds v) k) as [sd B]; [rewrite <- L; apply (lookup_lt_Some _ _ _ A)|].
  destruct (C k sc sd A B) as [Q R]. destruct I as [I|I].
  - apply list_elem_of_In in I. apply list_elem_of_lookup in I as [j Ej]. destruct (Forall2_lookup_l _ _ _ _ _ Q Ej) as (f & _ & (_ & _ & P) & _).
    apply pkt_rel_lt in P. lia.
  - rewrite I in R. destruct (running sd); [|contradiction]. destruct R as ((_ & _ & P) & _). apply pkt_rel_lt in P. lia.
Qed.

Lemma sim_owner own h w v d k : sim own (h, w) (tt, v) -> free w d -> sim (owner own d k) (h, w) (tt, v).
Proof.
  intros S F. eapply sim_events; [exact S | | auto]. intros k' sc e A I. unfold owner. rewrite decide_False; [reflexivity|]. exact (F k' sc e A I).
Qed.

Lemma sim_app own h w v b : sim own (h, w) (tt, v) -> sim own (h ++ [b], w) (tt, v).
Proof. intros S. eapply sim_events; [exact S | reflexivity | intros; apply pkt_rel_app; assumption]. Qed.

Definition packets_rel (own : nat -> option nat) (h : heap) : list (nat * RtpPacket nat) -> list (nat * RtpPacket (list Z)) -> Prop :=
  Forall2 (fun x y => x.1 = y.1 /\ pkt_rel h 16 x.2 y.2 /\ own (data x.2) = Some x.1).

Lemma find_packet_sim own h ps qs k : packets_rel own h ps qs ->
  match find_packet k ps, find_packet k qs with
  | Some p, Some q => pkt_rel h 16 p q /\ own (data p) = Some k
  | None, None => True
  | _, _ => False
  end.
Proof.
  induction 1 as [|[k1 p] [k2 q] ps qs (E & P & O) _ IH]; [exact I|]. cbn [fst snd find_packet] in *. subst k2.
  destruct (Nat.eqb_spec k k1); [subst; auto | exact IH].
Qed.

(** A packet with the same fields and another block. *)
Definition reblock {D E : Type} (p : RtpPacket D) (d : E) : RtpPacket E := mkPacket d (pkt_size p) (pkt_timestamp p) (pkt_type p) (last p).

Lemma copy_sim h p q : pkt_rel h 16 p q ->
  exists b, copy_block (H := heap) (PacketStore := shared_blocks fresh) (data p) (pkt_size p) h = Ret (length h, h ++ [b]) /\
    pkt_rel (h ++ [b]) 16 (reblock p (length h)) (reblock q (data q)).
Proof.
  intros (E1 & E2 & E3 & E4 & Sz & b & Eb & L & L' & A). cbn. rewrite Eb. unfold on_block. rewrite list_lookup_middle by reflexivity.
  unfold memcpy. rewrite (proj2 (Z.leb_le _ _)) by (rewrite L; unfold BLOCK_SIZE; lia).
  assert (Lt : (length (take (Z.to_nat (pkt_size p)) b) <= 1600)%nat) by (rewrite length_take, L; unfold BLOCK_SIZE; lia).
  destruct (stores_lookup (take (Z.to_nat (pkt_size p)) b) (fresh (length h)) 0) as (c & -> & Lc & Ec).
  { rewrite fresh_size. exact Lt. }
  exists (c). cbn [obind]. rewrite insert_app_r_alt, Nat.sub_diag by lia. split; [reflexivity|].
  do 5 (split; [assumption|]). exists c. split; [apply list_lookup_middle; reflexivity|].
  split_and!; [rewrite Lc; apply fresh_size | exact L'|]. intros j H1 H2. cbn [pkt_size reblock] in H2. rewrite Ec, Nat.sub_0_r, length_take, L.
  unfold BLOCK_SIZE in *. rewrite decide_True by lia. rewrite lookup_take_lt by lia. destruct (A j) as (x & Bx & X1 & X2); [lia | exact H2|].
  exists x. rewrite X1. split_and!; [exact Bx | | exact X2]. cbn. f_equal. apply Z.mod_small, Bx.
Qed.

Lemma packets_rel_grow own h ps qs b d k : packets_rel own h ps qs -> (length h <= d)%nat -> packets_rel (owner own d k) (h ++ [b]) ps qs.
Proof.
  intros P Hd. eapply Forall2_impl; [exact P|]. intros x y (E & R & O). pose proof (pkt_rel_lt _ _ _ _ R).
  split_and!; [exact E | apply pkt_rel_app, R | unfold owner; rewrite decide_False by lia; exact O].
Qed.

(** One client more: its scheduler's packet is there, shares the block, or has a copy. *)
Lemma packet_for_sim own h w v pkt pkt' ps qs id : sim own (h, w) (tt, v) -> pkt_rel h 16 pkt pkt' -> packets_rel own h ps qs ->
  (ps = [] -> free w (data pkt)) ->
  orel (fun '(ps1, h1) '(qs1, _) => ps1 <> [] /\ pkt_rel h1 16 pkt pkt' /\ exists own', sim own' (h1, w) (tt, v) /\ packets_rel own' h1 ps1 qs1)
    match find_packet id ps with
    | Some _ => Ret (ps, h)
    | None =>
        let! (d, h) := match ps with
          | _ :: _ => copy_block (H := heap) (PacketStore := shared_blocks fresh) (data pkt) (pkt_size pkt) h
          | [] => Ret (share_block (H := heap) (PacketStore := shared_blocks fresh) (data pkt) h) end in
        Ret (ps ++ [(id, mkPacket d (pkt_size pkt) (pkt_timestamp pkt) (pkt_type pkt) (last pkt))], h)
    end
    match find_packet id qs with
    | Some _ => Ret (qs, tt)
    | None =>
        let! (d, h) := match qs with _ :: _ => copy_block (data pkt') (pkt_size pkt') tt | [] => Ret (share_block (data pkt') tt) end in
        Ret (qs ++ [(id, mkPacket d (pkt_size pkt') (pkt_timestamp pkt') (pkt_type pkt') (last pkt'))], h)
    end.
Proof.
  intros S P Q F. pose proof (find_packet_sim own h ps qs id Q) as K.
  destruct (find_packet id ps) as [p0|] eqn:Ep, (find_packet id qs) as [q0|]; try contradiction.
  { cbn [orel]. split_and!; [intros ->; discriminate Ep | exact P | exists own; auto]. }
  destruct Q as [|x y ps qs R0 Q].
  - cbn. split_and!; [discriminate | apply pkt_rel_app, P|]. exists (owner own (data pkt) (Some id)). split; [apply sim_app, sim_owner; auto|].
    constructor; [|constructor]. split_and!; [reflexivity | | unfold owner; apply decide_True; reflexivity].
    destruct pkt, pkt'. apply pkt_rel_app, P.
  - destruct (copy_sim h pkt pkt' P) as (b & -> & Rb). cbn [obind copy_block own_blocks orel].
    split_and!; [discriminate | apply pkt_rel_app, P|]. exists (owner own (length h) (Some id)).
    split; [apply sim_app, sim_owner; [exact S | eapply sim_free, S]|].
    apply Forall2_app; [apply packets_rel_grow; [constructor; assumption | lia]|]. constructor; [|constructor].
    split_and!; [reflexivity | exact Rb | unfold owner; apply decide_True; reflexivity].
Qed.

Lemma gather_sim pkt pkt' w v l : forall own h ps qs front,
  sim own (h, w) (tt, v) -> pkt_rel h 16 pkt pkt' -> packets_rel own h ps qs -> (ps = [] -> free w (data pkt)) ->
  orel (fun '(l1, ps1, f1, h1) '(l2, qs2, f2, _) => l1 = l2 /\ f1 = f2 /\ exists own', sim own' (h1, w) (tt, v) /\ packets_rel own' h1 ps1 qs2)
    (gather (H0 := shared_blocks fresh) l pkt ps front h w) (gather l pkt' qs front tt v).
Proof.
  induction l as [|[sfd c] l IH]; intros own h ps qs front S P Q F; [cbn; eauto|].
  pose proof (proj1 S) as E. cbn [snd] in E. destruct (strip_fields w v E) as (Ec & _). cbn [gather]. rewrite <- Ec.
  destruct (conns w !! c) as [cn|]; [|eapply IH; eassumption].
  eapply orel_bind; [apply (packet_for_sim own h w v pkt pkt' ps qs (sched cn)); assumption|].
  intros [ps1 h1] [qs1 []] (N & P1 & own1 & S1 & Q1). eapply orel_bind; [apply (IH own1 h1 ps1 qs1 (c :: front)); auto; contradiction|].
  intros [[[l1 ps2] f1] h2] [[[l2 qs2] f2] u] (<- & <- & own2 & S2 & Q2). cbn. eauto.
Qed.

Lemma addTriggerEvent_sim own h w v k e f : sim own (h, w) (tt, v) -> ev_rel h 16 e f -> homed own (conns w) k e ->
  orel (fun '(r, w1) '(r', v1) => r = r' /\ sim own (h, w1) (tt, v1)) (addTriggerEvent k e w) (addTriggerEvent k f v).
Proof.
  intros S R Hm. pose proof (sim_sched own h w v k S) as K. unfold addTriggerEvent.
  destruct (scheds w !! k) as [sc|], (scheds v !! k) as [sd|]; try contradiction; [|reflexivity]. destruct K as [Q U].
  rewrite <- (Forall2_length _ _ _ Q). destruct (_ <? _); [|cbn; auto]. cbn. split; [reflexivity|].
  apply (sim_step own k h w v h _ _ (mkSched (triggerEvents sc ++ [e]) (running sc)) (mkSched (triggerEvents sd ++ [f]) (running sd)));
    [exact S | apply S | reflexivity | reflexivity | apply heap_ext_refl | reflexivity | intros c cn Hc; exists cn; auto |].
  split; [|exact U]. cbn [triggerEvents]. apply Forall2_app; [exact Q | constructor; [split; assumption | constructor]].
Qed.

Lemma sendRtpPacket_sim own h w v c ch p q gop : sim own (h, w) (tt, v) -> pkt_rel h 16 p q ->
  (forall cn, conns w !! c = Some cn -> own (data p) = Some (sched cn)) ->
  orel (fun '(r, w1) '(r', v1) => r = r' /\ sim own (h, w1) (tt, v1) /\ kept (conns w) (conns w1)) (sendRtpPacket c ch p gop w) (sendRtpPacket c ch q gop v).
Proof.
  intros S P Hc. pose proof (proj1 S) as E. cbn [snd] in E. pose proof P as (_ & _ & _ & El & _). unfold sendRtpPacket.
  rewrite <- (the_conn_sim w v _ E). destruct (the_conn w c) as [cn|] eqn:G; [|reflexivity]. apply the_conn_Ret in G. cbn [obind].
  destruct (isClosed cn); [cbn; split_and!; [reflexivity | exact S | apply kept_refl]|].
  destruct (gop && _); [cbn; split_and!; [reflexivity | exact S | apply kept_refl]|]. rewrite <- El.
  set (b := gop && negb (last p =? 0)).
  assert (K : sim own (h, if b then set_conn w c (cn <| hasGOPFrame := true |>) else w) (tt, if b then set_conn v c (cn <| hasGOPFrame := true |>) else v) /\
    kept (conns w) (conns (if b then set_conn w c (cn <| hasGOPFrame := true |>) else w))).
  { destruct b; [|split; [exact S | apply kept_refl]]. split; [|apply (kept_insert _ _ cn); [exact G | reflexivity]].
    eapply sim_conns; [exact S | unfold set_conn, strip in *; cbn; injection E; intros; congruence | reflexivity | reflexivity |].
    intros c' cn' Hc'. cbn in Hc'. apply lookup_insert_Some in Hc' as [[<- <-]|[N Hc']]; [exists cn | exists cn']; auto. }
  destruct K as [S1 K1]. set (w1 := if b then _ else w) in *. set (v1 := if b then _ else v) in *.
  eapply orel_bind_eq.
  - apply (addTriggerEvent_sim own h w1 v1 (sched cn) (mkEvent c ch p) (mkEvent c ch q) S1); [split_and!; [reflexivity | reflexivity | exact P]|].
    split; [apply Hc, G|]. cbn [ev_conn]. intros cn' Hc'. destruct (K1 c cn' Hc') as (cn0 & G0 & I0). rewrite G in G0. injection G0 as <-.
    exact (f_equal (fun x => x.1.1) I0).
  - intros [r w2] [r' v2] Er [<- S2]. cbn. split_and!; [reflexivity | exact S2|]. eapply kept_trans; [exact K1|]. unfold addTriggerEvent in Er.
    destruct (scheds w1 !! sched cn); [|discriminate]. destruct (_ <? _); injection Er as <- <-; apply kept_refl.
Qed.

Lemma send_all_sim own ps qs ch front : forall count h w v, sim own (h, w) (tt, v) -> packets_rel own h ps qs ->
  orel (fun '(n, s) '(n', t) => n = n' /\ sim own s t) (send_all (H0 := shared_blocks fresh) front ps ch count (h, w)) (send_all front qs ch count (tt, v)).
Proof.
  induction front as [|c front IH]; intros count h w v S Q; [cbn; auto|]. cbn [send_all].
  eapply orel_bind; [apply interfere_sim, S|]. intros [h1 w1] [[] v1] [S1 X1]. cbn [fst snd] in *.
  assert (Q1 : packets_rel own h1 ps qs) by (eapply Forall2_impl; [exact Q|]; intros x y (A & B & C); split_and!; [exact A | eapply pkt_rel_ext; eassumption | exact C]).
  pose proof (proj1 S1) as E. cbn [snd] in E. rewrite <- (the_conn_sim w1 v1 _ E). destruct (the_conn w1 c) as [cn|] eqn:G; [|reflexivity].
  apply the_conn_Ret in G. cbn [obind]. pose proof (find_packet_sim own h1 ps qs (sched cn) Q1) as F.
  destruct (find_packet (sched cn) ps) as [p|], (find_packet (sched cn) qs) as [q|]; try contradiction; [|apply IH; assumption].
  destruct F as [P Ow]. destruct (strip_fields w1 v1 E) as (_ & _ & _ & _ & Eg & _). rewrite <- Eg. destruct (gopCacheEnabled w1 && _); [apply IH; assumption|].
  eapply orel_bind_eq; [apply interfere_sim, S1|]. intros [h2 w2] [[] v2] Ei [S2 X2]. apply interfere_kept in Ei. cbn [fst snd] in *.
  pose proof (proj1 S2) as E2. cbn [snd] in E2. destruct (strip_fields w2 v2 E2) as (_ & _ & _ & _ & Eg2 & _). rewrite <- Eg2.
  eapply orel_bind; [apply (sendRtpPacket_sim own h2 w2 v2 c ch p q _ S2)|].
  - eapply pkt_rel_ext; eassumption.
  - intros cn' Hc'. destruct (Ei c cn' Hc') as (cn0 & G0 & I0). rewrite G in G0. injection G0 as <-. rewrite Ow. f_equal. symmetry. exact (f_equal (fun x => x.1.1) I0).
  - intros [r w3] [r' v3] (<- & S3 & _). destruct (strip_fields w3 v3 (proj1 S3)) as (_ & _ & _ & Em & _). rewrite <- Em.
    destruct (session_isMulticast w3 && _); [cbn; auto|]. apply IH; [exact S3|].
    eapply Forall2_impl; [exact Q1|]; intros x y (A & B & C); split_and!; [exact A | eapply pkt_rel_ext; eassumption | exact C].
Qed.

(** A block nobody owns is in no queue. *)
Lemma sim_unowned own h w v d : sim own (h, w) (tt, v) -> own d = None -> free w d.
Proof.
  intros [_ [L C]] O k sc e A I Ed. cbn [fst snd] in *. destruct (lookup_lt_is_Some_2 (scheds v) k) as [sd B]; [rewrite <- L; apply (lookup_lt_Some _ _ _ A)|].
  destruct (C k sc sd A B) as [Q R]. assert (K : own (data (ev_pkt e)) = Some k); [|congruence]. destruct I as [I|I].
  - apply list_elem_of_In in I. apply list_elem_of_lookup in I as [j Ej]. destruct (Forall2_lookup_l _ _ _ _ _ Q Ej) as (f & _ & _ & [O' _]). exact O'.
  - rewrite I in R. destruct (running sd); [|contradiction]. apply R.
Qed.

Lemma callback_sim own h w v ch p q : sim own (h, w) (tt, v) -> pkt_rel h 16 p q -> own (data p) = None ->
  orel (fun '(b, s) '(b', t) => b = b' /\ exists own', sim own' s t) (send_callback (H0 := shared_blocks fresh) ch p (h, w)) (send_callback ch q (tt, v)).
Proof.
  intros S P O. unfold send_callback. eapply orel_bind; [apply interfere_sim, S|]. intros [h1 w1] [[] v1] [S1 X1]. cbn [fst snd] in *.
  destruct (strip_fields w1 v1 (proj1 S1)) as (_ & El & _). rewrite <- El.
  eapply orel_bind; [apply (gather_sim p q w1 v1 (clients w1) own h1 [] [] [] S1)|].
  - eapply pkt_rel_ext; eassumption.
  - constructor.
  - intros _. eapply sim_unowned; eassumption.
  - intros [[[l ps] front] h2] [[[l' qs] front'] []] (<- & <- & own' & S2 & Q).
    eapply orel_bind; [apply (send_all_sim own' ps qs ch front 0 h2)|].
    + eapply sim_conns; [exact S2 | pose proof (proj1 S2) as E; unfold strip in *; cbn in *; injection E; intros; congruence | reflexivity | reflexivity |].
      intros c cn Hc. exists cn. auto.
    + exact Q.
    + intros [n [h3 w3]] [n' [u v3]] [<- S3]. cbn. destruct (strip_fields w3 v3 (proj1 S3)) as (_ & _ & _ & _ & Eg & _). rewrite <- Eg. eauto.
Qed.

(** Some owner. *)
Definition related (s : heap * session nat) (t : unit * session (list Z)) : Prop := exists own, sim own s t.

Abbreviation cb := (Some (send_callback (H0 := shared_blocks fresh)) : option (SendFrameCallback (W := session nat))).

Lemma filled_lookup b p j : (length b = BLOCK_SIZE)%nat -> (16 <= j)%nat -> (j < 16 + length p)%nat -> filled b p !! j = p !! (j - 16)%nat.
Proof.
  intros L H1 H2. unfold filled. assert (Lt : length (take 16 b) = 16%nat) by (rewrite length_take; unfold BLOCK_SIZE in *; lia).
  rewrite lookup_app_r by lia. rewrite Lt, lookup_app_l by lia. reflexivity.
Qed.

Lemma filled_length b p : length b = BLOCK_SIZE -> (length p <= 1584)%nat -> length (filled b p) = BLOCK_SIZE.
Proof. intros L H. unfold filled. rewrite !length_app, length_take, length_drop. unfold BLOCK_SIZE in *. lia. Qed.

Lemma deliver1_sim ch t ty p s u : related s u -> payload_ok p ->
  orel (fun x y => x.1 = y.1 /\ related x.2 y.2) (deliver1 fresh cb ch t ty p s) (send_callback ch (own_packet t ty p) u).
Proof.
  intros [own S] [B Hm]. assert (Hl : (length p.1 <= 1584)%nat) by (unfold MAX_RTP_PAYLOAD_SIZE in Hm; lia). destruct s as [h w], u as [[] v]. unfold deliver1, send_frame. cbn [fst snd].
  eapply orel_mono; [apply (callback_sim (owner own (length h) None) (h ++ [filled (fresh (length h)) p.1]))|].
  - apply sim_app, sim_owner; [exact S | eapply sim_free, S].
  - unfold own_packet. do 4 (split; [reflexivity|]). split; [cbn; lia|]. exists (filled (fresh (length h)) p.1).
    split; [apply list_lookup_middle; reflexivity|]. split_and!; [apply filled_length; auto | apply filled_length; [apply repeat_length | exact Hl]|].
    intros j H1 H2. cbn [pkt_size data] in *. rewrite !filled_lookup by (try apply repeat_length; try apply fresh_size; lia).
    destruct (lookup_lt_is_Some_2 p.1 (j - 16)) as [x Ex]; [lia|]. exists x. rewrite Ex. split; [|auto].
    rewrite Forall_lookup in B. exact (B _ _ Ex).
  - cbn [data]. unfold owner. apply decide_True. reflexivity.
  - intros [b s] [b' t'] [<- K]. split; [reflexivity | exact K].
Qed.

Lemma deliver_sim ch t ty ps : Forall payload_ok ps -> forall s u, related s u ->
  orel (fun x y => x.1 = y.1 /\ related x.2 y.2) (deliver fresh cb ch t ty ps s) (send_payloads ch t ty ps u).
Proof.
  induction 1 as [|p ps B _ IH]; intros s u R; [cbn; auto|]. cbn [deliver send_payloads].
  eapply orel_bind; [apply deliver1_sim; assumption|]. intros [ok s1] [ok' u1] [E R1]. cbn [fst snd] in *. subst ok'.
  destruct ok; [apply IH, R1 | cbn; auto].
Qed.

Lemma payloads_static ch t ty ps : forall s b s', send_payloads ch t ty ps s = Ret (b, s') -> static s'.2 = static s.2.
Proof.
  induction ps as [|p ps IH]; intros s b s'; cbn [send_payloads]; [intros E; injection E as <- <-; reflexivity|].
  destruct (send_callback ch _ s) as [[ok s1]|] eqn:I1; [|discriminate]. apply callback_static in I1. cbn [obind]. rewrite <- I1.
  destruct ok; [apply IH | intros E; injection E as <- <-; reflexivity].
Qed.

Lemma source_static src us ch frame s b s' : send_frame_spec src us ch frame s = Ret (b, s') -> static s'.2 = static s.2.
Proof.
  unfold send_frame_spec. destruct src; try apply payloads_static; (destruct (_ <? _); [intros E; injection E as <- <-; reflexivity|]);
    (destruct (send_callback ch _ s) as [[ok s1]|] eqn:I1; [|discriminate]); cbn [obind]; intros E; injection E as <- <-; apply (callback_static _ _ _ _ _ I1).
Qed.

(** The frame a source can take: its bytes are there, and it has an ADTS header
    where one is taken off. *)
Definition usable (src : source) (frame : AVFrame) : Prop :=
  frame_ok frame /\ match src with AAC hasADTS => Z.of_nat (adts hasADTS) <= size frame | _ => True end.

Lemma bytes_of_bytes frame : frame_ok frame -> Forall is_u8 (bytes_of frame).
Proof. intros (_ & _ & B). apply Forall_take, B. Qed.

Lemma au_payload_ok au : Forall is_u8 au -> lenZ au <= MAX_RTP_PAYLOAD_SIZE - AU_SIZE -> payload_ok (au_payload au, 1).
Proof.
  intros B L. unfold MAX_RTP_PAYLOAD_SIZE, AU_SIZE in *. assert (D : 0 <= lenZ au / 32 < 256 /\ 0 <= lenZ au mod 32 < 32).
  { split; [split; [apply Z.div_pos; lia | apply Z.div_lt_upper_bound; lia] | apply Z.mod_pos_bound; lia]. }
  split; cbn [fst]; unfold au_payload; [|rewrite length_app; cbn [length]; unfold MAX_RTP_PAYLOAD_SIZE; lia].
  apply Forall_app. split; [|exact B]. repeat (apply Forall_cons; split; [rlia|]). constructor.
Qed.

Lemma source_sim src us ch frame s u : related s u -> usable src frame ->
  orel (fun x y => x.1 = y.1 /\ related x.2 y.2) (source_handleFrame fresh src us ch frame s) (send_frame_spec src us ch frame u).
Proof.
  intros R [F A]. pose proof (bytes_of_bytes frame F) as B. pose proof (bytes_of_length frame F) as L.
  unfold source_handleFrame, send_frame_spec. destruct src.
  - rewrite H264_spec by assumption. apply deliver_sim; [apply h264_payloads_ok, B | exact R].
  - rewrite H265_spec by assumption. apply deliver_sim; [apply h265_payloads_ok, B | exact R].
  - destruct (Z.ltb_spec (MAX_RTP_PAYLOAD_SIZE - AU_SIZE) (size frame)) as [K|K].
    + unfold AAC_handleFrame. rewrite (proj2 (Z.ltb_lt _ _) K). cbn. auto.
    + rewrite AAC_spec by (try assumption; lia). eapply orel_bind; [apply deliver1_sim; [exact R|]|].
      * apply au_payload_ok; [apply Forall_drop, B | rewrite length_drop; lia].
      * intros [ok s1] [ok' u1] [_ R1]. cbn in *. auto.
  - destruct (Z.ltb_spec MAX_RTP_PAYLOAD_SIZE (size frame)) as [K|K].
    + unfold G711A_handleFrame. rewrite (proj2 (Z.ltb_lt _ _) K). cbn. auto.
    + rewrite G711A_spec by assumption. eapply orel_bind; [apply deliver1_sim; [exact R | split; [exact B | cbn [fst]; lia]]|].
      intros [ok s1] [ok' u1] [_ R1]. cbn in *. auto.
Qed.

(** A change of the session's own fields. *)
Lemma related_set h w v w' v' : related (h, w) (tt, v) -> strip w' = strip v' -> scheds w' = scheds w -> scheds v' = scheds v ->
  conns w' = conns w -> related (h, w') (tt, v').
Proof. intros [own S] E E1 E2 Ec. exists own. eapply sim_conns; eauto. intros c cn Hc. rewrite Ec in Hc. exists cn. auto. Qed.

Lemma related_strip s u : related s u -> strip s.2 = strip u.2.
Proof. intros [own S]. apply S. Qed.

Lemma frame_ok_fields a b : buffer a = buffer b -> size a = size b -> frame_ok a -> frame_ok b.
Proof. unfold frame_ok. intros -> ->. auto. Qed.

Lemma static_fields {D E : Type} (w : session D) (v : session E) : static w = static v ->
  mediaSources w = mediaSources v /\ session_isMulticast w = session_isMulticast v /\ gopCache w = gopCache v.
Proof. unfold static. intros E0. injection E0. auto. Qed.

Definition good (w : session nat) : Prop := frame_ok (gopCache w).

(** The replay of the key frame to the new clients. *)
Lemma replay_sim src us' ch s u : related s u -> good s.2 -> match src with AAC _ => False | _ => True end ->
  let replay {H D : Type} (handle : source -> Z -> nat -> AVFrame -> H * session D -> outcome (bool * (H * session D))) s :=
    if hasNewClient s.2 && (0 <? size (gopCache s.2)) then
      let g := mkFrame (buffer (gopCache s.2)) (size (gopCache s.2)) (type (gopCache s.2)) (getTimeStamp us') in
      let s := (s.1, s.2 <| hasNewClient := false |> <| gopCacheEnabled := true |> <| gopCache := g |>) in
      let! (_, s) := handle src us' ch g s in
      Ret (true, (s.1, s.2 <| gopCacheEnabled := false |>))
    else Ret (true, s) in
  orel (fun x y => x.1 = y.1 /\ related x.2 y.2 /\ good x.2.2 /\ mediaSources x.2.2 = mediaSources s.2)
    (replay (source_handleFrame fresh) s) (replay send_frame_spec u).
Proof.
  intros R G V replay. unfold replay. clear replay. destruct s as [h w], u as [[] v]. cbn [fst snd] in *.
  pose proof (related_strip _ _ R) as E. cbn [snd] in E. destruct (strip_fields w v E) as (_ & _ & Em & _ & _ & En & Eg & _). rewrite <- En, <- Eg.
  destruct (hasNewClient w && _); [|cbn; auto]. set (g := mkFrame _ _ _ _).
  assert (Gg : frame_ok g) by (eapply frame_ok_fields; [reflexivity | reflexivity | exact G]).
  eapply orel_bind_eq2; [apply (source_sim src us' ch g)|].
  - eapply related_set; [exact R | unfold strip in *; cbn in *; injection E; intros; congruence | reflexivity | reflexivity | reflexivity].
  - split; [exact Gg | destruct src; [exact I | exact I | contradiction | exact I]].
  - intros [ok [h1 w1]] [ok' [[] v1]] _ Eb [_ R1]. apply source_static in Eb. cbn [fst snd] in *. pose proof (related_strip _ _ R1) as E1. cbn [snd] in E1.
    destruct (strip_fields w1 v1 E1) as (_ & _ & Em1 & _ & _ & _ & Eg1 & _). destruct (static_fields _ _ Eb) as (M1 & _ & G1). cbn in M1, G1. cbn [orel fst snd].
    split_and!; [reflexivity | | unfold good; cbn; rewrite Eg1, G1; exact Gg | cbn; congruence].
    eapply related_set; [exact R1 | unfold strip in *; cbn in *; injection E1; intros; congruence | reflexivity | reflexivity | reflexivity].
Qed.

Lemma handleFrame_sim us us' ch frame s u : related s u -> good s.2 ->
  (forall src, mediaSources s.2 !! ch = Some (Some src) -> usable src frame) ->
  orel (fun x y => x.1 = y.1 /\ related x.2 y.2 /\ good x.2.2 /\ mediaSources x.2.2 = mediaSources s.2)
    (handleFrame fresh us us' ch frame s) (handleFrame_spec us us' ch frame u).
Proof.
  intros R G U. unfold handleFrame, handleFrame_spec, session_handleFrame. destruct s as [h w], u as [[] v]. cbn [fst snd] in *.
  pose proof (related_strip _ _ R) as E. cbn [snd] in E. destruct (strip_fields w v E) as (_ & _ & Em & _). rewrite <- Em.
  destruct (mediaSources w !! ch) as [[src|]|]; [|cbn; auto | reflexivity]. specialize (U src eq_refl).
  eapply orel_bind_eq2; [apply source_sim; eassumption|].
  intros [ok [h1 w1]] [ok' [[] v1]] _ Eb [_ R1]. apply source_static in Eb. cbn [fst snd] in *. pose proof (related_strip _ _ R1) as E1. cbn [snd] in E1.
  destruct (strip_fields w1 v1 E1) as (_ & _ & Em1 & Eu1 & _ & _ & Eg1 & _). destruct (static_fields _ _ Eb) as (M1 & _ & G1).
  destruct (strip_fields w v E) as (_ & _ & _ & _ & _ & _ & Eg & _).
  assert (Good1 : good w1) by (unfold good; rewrite Eg1, G1, <- Eg; exact G). assert (Ms : mediaSources w1 = mediaSources w) by congruence.
  rewrite <- Eu1. destruct (negb (session_isMulticast w1) && _) eqn:Ev; [|cbn; auto].
  assert (V : match src with AAC _ => False | _ => True end) by (destruct src; try exact I; destruct (session_isMulticast w1); discriminate Ev).
  destruct (type frame =? VIDEO_FRAME_I).
  - eapply orel_mono; [apply (replay_sim src us' ch (_, _) (_, _)); [| |exact V]|].
    + eapply related_set; [exact R1 | unfold strip in *; cbn in *; injection E1; intros; congruence | reflexivity | reflexivity | reflexivity].
    + unfold good. cbn. eapply frame_ok_fields; [reflexivity | reflexivity | apply U].
    + cbn. intros x y (A & B & C & D). split_and!; [exact A | exact B | exact C | congruence].
  - eapply orel_mono; [apply (replay_sim src us' ch (_, _) (_, _) R1 Good1 V)|]. cbn. intros x y (A & B & C & D). split_and!; [exact A | exact B | exact C | congruence].
Qed.
End frames.
