(* ===== verification/RtpStream.v ===== *)
(** * What a client receives (rtsp/RtpConnection.cpp, rtsp/MediaSession.cpp)

    A receiver of RTP, over UDP and interleaved in TCP, and the invariant of the
    stream of one connection and channel: the packets sent are RTP packets of the
    connection with consecutive sequence numbers, and their payloads, the one in
    hand and the ones in the queue are, in this order, payloads of the source.

    The invariant is about the session in which packets own their blocks; RtpShare.v
    carries it over to the code. *)

From stdpp Require Import gmap.
From S2P Require Import Prelude RtpFrame RtpConn RtpShare.

Local Open Scope Z_scope.

(** ** A receiver *)

Record rtp := mkRtp { r_marker : Z; r_type : Z; r_seq : Z; r_ts : Z; r_ssrc : Z; r_payload : list Z }.

Definition be (l : list Z) : Z := fold_left (fun a b => 256 * a + b) l 0.

(** RFC 3550: version 2, no padding, extension or contributing sources. *)
Definition parse_rtp (b : list Z) : option rtp :=
  match b with
  | 128 :: m :: s1 :: s0 :: t3 :: t2 :: t1 :: t0 :: r3 :: r2 :: r1 :: r0 :: p =>
      Some (mkRtp (m / 128) (m mod 128) (be [s1; s0]) (be [t3; t2; t1; t0]) (be [r3; r2; r1; r0]) p)
  | _ => None
  end.

(** RFC 2326 10.12: a packet in the TCP stream comes behind a dollar sign, a
    channel and a length. *)
Definition unframe (b : list Z) : list Z :=
  match b with m :: _ :: _ :: _ :: r => if m =? 36 then r else b | _ => b end.

Lemma be_htons v : is_u16 v -> be [u8 (u8 (htons v)); u8 (u8 (htons v / 256))] = v.
Proof. intros H. cbn. unfold htons. wrap_lia. Qed.

Lemma bytes4 a b c d : is_u8 a -> is_u8 b -> is_u8 c -> is_u8 d -> let z := a + 256 * b + 65536 * c + 16777216 * d in
  u8 z = a /\ u8 (z / 256) = b /\ u8 (z / 65536) = c /\ u8 (z / 16777216) = d.
Proof. intros Ha Hb Hc Hd z. unfold z, u8, is_u8 in *. Z.div_mod_to_equations. lia. Qed.

Lemma be_htonl v : is_u32 v -> be [u8 (u8 (htonl v)); u8 (u8 (htonl v / 256)); u8 (u8 (htonl v / 65536)); u8 (u8 (htonl v / 16777216))] = v.
Proof.
  intros H. rewrite !u8_u8. unfold htonl, bswap32.
  set (d := u8 v). set (c := u8 (v / 256)). set (b := u8 (v / 65536)). set (a := u8 (v / 16777216)).
  assert (V : v = d + 256 * c + 65536 * b + 16777216 * a) by (unfold a, b, c, d, u8, is_u32 in *; Z.div_mod_to_equations; lia).
  replace (d * 16777216 + c * 65536 + b * 256 + a) with (a + 256 * b + 65536 * c + 16777216 * d) by lia.
  destruct (bytes4 a b c d) as (-> & -> & -> & ->); try apply u8_range. cbn. lia.
Qed.

(** ** The stream of a connection *)

Section stream.
Context (c ch : nat) (s0 ssrc0 : Z).
Hypothesis ssrc0_range : is_u32 ssrc0.
Implicit Types (w : session (list Z)) (e : event (list Z)) (s : unit * session (list Z)).

Definition mine {D : Type} (e : event D) : bool := (ev_conn e =? c)%nat && (ev_ch e =? ch)%nat.

(** The payload of an event. *)
Definition pay e : list Z := drop 16 (take (Z.to_nat (pkt_size (ev_pkt e))) (data (ev_pkt e))).

(** What was sent on the channel. *)
Definition outs {D : Type} (w : session D) : list (list Z) :=
  map snd (List.filter (fun x => (x.1.1 =? c)%nat && (x.1.2 =? ch)%nat) (sent w)).

(** RTP packets of the connection, numbered from [s0], with payloads [P]. *)
Definition stream (bs P : list (list Z)) : Prop :=
  exists rs, map (fun b => parse_rtp (unframe b)) bs = map Some rs /\ map r_payload rs = P /\
    forall i r, rs !! i = Some r -> r_seq r = u16 (s0 + Z.of_nat i) /\ r_ssrc r = ssrc0.

(** The channel after [n] headers. *)
Definition info_ok (i : MediaChannelInfo) (n : Z) : Prop :=
  fixed_fields i = (0, 0, 0, 2, htonl ssrc0) /\ 0 <= payload (rtpHeader i) < 128 /\ packetSeq i = u16 (s0 + n).

Definition header_ok e (n : Z) : Prop :=
  exists r, parse_rtp (drop 4 (take (Z.to_nat (pkt_size (ev_pkt e))) (data (ev_pkt e)))) = Some r /\
    r_seq r = u16 (s0 + n) /\ r_ssrc r = ssrc0 /\ r_payload r = pay e.

Definition block_ok e : Prop := length (data (ev_pkt e)) = BLOCK_SIZE /\ 16 <= pkt_size (ev_pkt e) <= 1600.

(** The event whose header is written and that will be sent, and the queue. *)
Definition current w (cn : RtpConnection) (i : MediaChannelInfo) : list (event (list Z)) :=
  match scheds w !! sched cn with
  | Some sc => match running sc with Some e => if mine e && sendable cn i then [e] else [] | None => [] end
  | None => []
  end.
Definition waiting w (cn : RtpConnection) : list (event (list Z)) :=
  match scheds w !! sched cn with Some sc => List.filter mine (triggerEvents sc) | None => [] end.

Definition events_ok w : Prop :=
  forall k sc e, scheds w !! k = Some sc -> In e (triggerEvents sc) \/ running sc = Some e ->
    block_ok e /\ (ev_conn e = c -> forall cn, conns w !! c = Some cn -> sched cn = k).

Definition conn_inv (prod P : list (list Z)) w (cn : RtpConnection) : Prop :=
  exists i, channel cn ch = Ret i /\ info_ok i (lenZ P + lenZ (current w cn i)) /\
    (forall e, In e (current w cn i) -> header_ok e (lenZ P)) /\
    sublist (P ++ map pay (current w cn i) ++ map pay (waiting w cn)) prod.

Definition inv (prod : list (list Z)) w : Prop :=
  events_ok w /\ exists P, stream (outs w) P /\ sublist P prod /\ forall cn, conns w !! c = Some cn -> conn_inv prod P w cn.

Lemma stream_length bs P : stream bs P -> length bs = length P.
Proof. intros (rs & E & <- & _). apply (f_equal length) in E. rewrite !length_map in E. rewrite length_map. exact E. Qed.

Lemma stream_snoc bs P b r : stream bs P -> parse_rtp (unframe b) = Some r -> r_seq r = u16 (s0 + lenZ P) -> r_ssrc r = ssrc0 ->
  stream (bs ++ [b]) (P ++ [r_payload r]).
Proof.
  intros (rs & E & <- & K) Er Es Ec. exists (rs ++ [r]). rewrite !map_app, E. cbn [map]. rewrite Er. split_and!; [reflexivity | reflexivity|].
  intros i x Ex. apply lookup_app_Some in Ex as [Ex|[Hi Ex]]; [apply K, Ex|]. apply list_lookup_singleton_Some in Ex as [Hi' <-].
  rewrite length_map in Es. replace i with (length rs) by lia. auto.
Qed.

Lemma inv_more prod x w : inv prod w -> inv (prod ++ x) w.
Proof.
  intros (Ev & P & St & Sb & Cn). split; [exact Ev|]. exists P. split_and!; [exact St | apply sublist_inserts_r, Sb|].
  intros cn G. destruct (Cn cn G) as (i & Ei & Io & Ho & Sl). exists i. split_and!; [exact Ei | exact Io | exact Ho | apply sublist_inserts_r, Sl].
Qed.

Lemma stores_split b i vs : (i + length vs <= length b)%nat -> stores b i vs = Ret (take i b ++ map u8 vs ++ drop (i + length vs) b).
Proof.
  intros H. assert (L : length (take i b) = i) by (rewrite length_take; lia).
  pose proof (stores_at vs (take i b) (drop i b)) as E. rewrite L, take_drop, length_drop, drop_drop in E. apply E. lia.
Qed.

(** The header the connection writes is the one a receiver reads. *)
Lemma header_parses i m t p : fixed_fields i = (0, 0, 0, 2, htonl ssrc0) -> 0 <= payload (rtpHeader i) < 128 -> is_u16 (packetSeq i) ->
  exists r, parse_rtp (map u8 (header_bytes ((rtpHeader i) <| marker := m mod 2 |> <| ts := htonl t |> <| seq := htons (packetSeq i) |>)) ++ p) = Some r /\
    r_seq r = packetSeq i /\ r_ssrc r = ssrc0 /\ r_payload r = p.
Proof.
  unfold fixed_fields. destruct (rtpHeader i) as [a b d e pt mk sq tm sr]. cbn [csrc extension padding version ssrc payload].
  intros F Hp Hs. injection F as -> -> -> -> ->. cbn [upd set_marker set_ts set_seq header_bytes csrc extension padding version payload marker seq ts ssrc].
  cbn [map app]. change (u8 (0 + 16 * 0 + 32 * 0 + 64 * 2)) with 128. eexists. split; [reflexivity|]. cbn [r_seq r_ssrc r_payload].
  split_and!; [apply be_htons, Hs | apply be_htonl, ssrc0_range | reflexivity].
Qed.

(** ** Steps *)

Lemma lookup_sched k k' (sc : scheduler (list Z)) w : scheds w !! k = Some sc -> forall sd, (<[k := sd]> (scheds w)) !! k' = if decide (k' = k) then Some sd else scheds w !! k'.
Proof.
  intros E sd. destruct (decide (k' = k)) as [->|N]; [apply list_lookup_insert_eq, (lookup_lt_Some _ _ _ E) | apply list_lookup_insert_ne; congruence].
Qed.

Definition same_sched (o o' : option RtpConnection) : Prop := forall cn', o' = Some cn' -> exists cn, o = Some cn /\ sched cn' = sched cn.

Lemma events_ok_insert k sc sd w w' : events_ok w -> scheds w !! k = Some sc -> scheds w' = <[k := sd]> (scheds w) ->
  same_sched (conns w !! c) (conns w' !! c) ->
  (forall e, In e (triggerEvents sd) \/ running sd = Some e -> block_ok e /\
     exists e0, (In e0 (triggerEvents sc) \/ running sc = Some e0) /\ ev_conn e = ev_conn e0) -> events_ok w'.
Proof.
  intros Ev A E Sc K k' sc' e. rewrite E, (lookup_sched k k' sc w A sd). intros B I.
  assert (Home : forall k0 cn', (forall cn, conns w !! c = Some cn -> sched cn = k0) -> conns w' !! c = Some cn' -> sched cn' = k0).
  { intros k0 cn' H Hc. destruct (Sc cn' Hc) as (cn & G & ->). apply H, G. }
  destruct (decide (k' = k)) as [->|N].
  - injection B as <-. destruct (K e I) as (Bo & e0 & I0 & Ec). split; [exact Bo|]. intros Hc cn' G'.
    apply (Home k cn'); [|exact G']. apply (Ev k sc e0 A I0). congruence.
  - destruct (Ev k' sc' e B I) as [Bo Hm]. split; [exact Bo|]. intros Hc cn' G'. apply (Home k' cn'); [|exact G']. apply Hm, Hc.
Qed.

(** The queue and the event in hand of a connection of another scheduler, or
    without an event of the channel, are as they were. *)
Lemma conn_inv_frame prod P w w' cn : conn_inv prod P w cn ->
  (forall i, current w' cn i = current w cn i) -> waiting w' cn = waiting w cn -> conn_inv prod P w' cn.
Proof. intros (i & Ei & Io & Ho & Sl) C W. exists i. rewrite C, W. auto. Qed.

Lemma setRtpHeader_own ch' pkt cn i : channel cn ch' = Ret i -> length (data pkt) = BLOCK_SIZE ->
  setRtpHeader ch' pkt cn tt = Ret (
    if sendable cn i then
      let hd := (rtpHeader i) <| marker := last pkt mod 2 |> <| ts := htonl (pkt_timestamp pkt) |> <| seq := htons (packetSeq i) |> in
      (set_channel cn ch' (i <| packetSeq := u16 (packetSeq i + 1) |> <| rtpHeader := hd |>),
       reblock pkt (take 4 (data pkt) ++ map u8 (header_bytes hd) ++ drop 16 (data pkt)), tt)
    else (cn, pkt, tt)).
Proof.
  intros Ei L. unfold setRtpHeader. rewrite Ei. cbn [obind]. destruct (sendable cn i); [|reflexivity].
  cbn [store_block own_blocks]. rewrite stores_split by (rewrite L; cbn; unfold BLOCK_SIZE; lia). reflexivity.
Qed.

Lemma channel_set cn ch' ch'' i j : channel cn ch' = Ret i ->
  channel (set_channel cn ch' j) ch'' = if (ch'' =? ch')%nat then Ret j else channel cn ch''.
Proof.
  unfold channel, set_channel. cbn. destruct (mediaChannelInfo cn !! ch') as [x|] eqn:E; [|discriminate]. intros _.
  destruct (Nat.eqb_spec ch'' ch') as [->|N]; [|rewrite list_lookup_insert_ne by congruence; reflexivity].
  rewrite list_lookup_insert_eq by (apply (lookup_lt_Some _ _ _ E)). reflexivity.
Qed.

Lemma channel_setFrameType t cn ch' : channel (setFrameType t cn) ch' = channel cn ch'.
Proof. unfold setFrameType. destruct (_ && _); reflexivity. Qed.

(** The new header leaves the payload. *)
Lemma reheader pkt hb : length (data pkt) = BLOCK_SIZE -> length hb = 12%nat -> 16 <= pkt_size pkt <= 1600 -> forall cn' ch',
  let e := mkEvent cn' ch' (reblock pkt (take 4 (data pkt) ++ map u8 hb ++ drop 16 (data pkt))) in
  block_ok e /\ pay e = pay (mkEvent cn' ch' pkt) /\
  drop 4 (take (Z.to_nat (pkt_size pkt)) (data (ev_pkt e))) = map u8 hb ++ pay e.
Proof.
  intros L Lh Sz cn' ch'. cbn zeta. unfold block_ok, pay. cbn [ev_pkt data reblock pkt_size]. unfold BLOCK_SIZE in *.
  assert (L4 : length (take 4 (data pkt)) = 4%nat) by (rewrite length_take; lia).
  set (n := Z.to_nat (pkt_size pkt)). assert (Hn : (16 <= n)%nat) by lia.
  assert (E : take n (take 4 (data pkt) ++ map u8 hb ++ drop 16 (data pkt)) = take 4 (data pkt) ++ map u8 hb ++ take (n - 16) (drop 16 (data pkt))).
  { rewrite take_app, L4, (take_ge (take 4 _)) by lia. f_equal. rewrite take_app, length_map, Lh, (take_ge (map u8 hb)) by (rewrite length_map; lia). do 2 f_equal. lia. }
  rewrite E. split_and!; [rewrite !length_app, length_map, length_drop; lia | lia | lia | |].
  - rewrite app_assoc, drop_app_length' by (rewrite length_app, length_map; lia). rewrite skipn_firstn_comm. reflexivity.
  - rewrite drop_app_length' by lia. f_equal. rewrite app_assoc, drop_app_length' by (rewrite length_app, length_map; lia). reflexivity.
Qed.

Lemma sched_view k sc sd w cn i : scheds w !! k = Some sc -> forall w', scheds w' = <[k := sd]> (scheds w) ->
  current w' cn i = (if decide (sched cn = k) then match running sd with Some e => if mine e && sendable cn i then [e] else [] | None => [] end else current w cn i) /\
  waiting w' cn = (if decide (sched cn = k) then List.filter mine (triggerEvents sd) else waiting w cn).
Proof. intros A w' E. unfold current, waiting. rewrite E, (lookup_sched k _ sc w A). destruct (decide _); auto. Qed.

Lemma sendable_kept cn cn' i i' : isPlay i' = isPlay i -> isRecord i' = isRecord i -> hasIDRFrame cn' = hasIDRFrame cn -> frameType cn' = frameType cn ->
  sendable cn' i' = sendable cn i.
Proof. unfold sendable. intros -> -> -> ->. reflexivity. Qed.

Lemma u16_succ z n : u16 (u16 (z + n) + 1) = u16 (z + (n + 1)).
Proof. unfold u16. rewrite Zplus_mod_idemp_l. f_equal. lia. Qed.

(** The event taken from the queue is one of the connection's. *)
Lemma begin_own prod P w k e q cn cn1 p1 : conn_inv prod P w cn -> scheds w !! k = Some (mkSched (e :: q) None) -> sched cn = k ->
  block_ok e -> ev_conn e = c ->
  setRtpHeader (ev_ch e) (ev_pkt e) (setFrameType (pkt_type (ev_pkt e)) cn) tt = Ret (cn1, p1, tt) ->
  sched cn1 = k -> forall w', scheds w' = <[k := mkSched q (Some (mkEvent (ev_conn e) (ev_ch e) p1))]> (scheds w) ->
  conn_inv prod P w' cn1 /\ block_ok (mkEvent (ev_conn e) (ev_ch e) p1).
Proof.
  intros (i & Ei & (Ff & Fp & Fs) & Ho & Sl) A Hk [Lb Sz] Ec R Hk1 w' Ew. set (cn' := setFrameType _ cn) in R.
  assert (C0 : current w cn i = []) by (unfold current; rewrite Hk, A; reflexivity).
  assert (W0 : waiting w cn = List.filter mine (e :: q)) by (unfold waiting; rewrite Hk, A; reflexivity).
  rewrite C0, W0 in *. cbn [map length app] in Fs, Sl. rewrite Z.add_0_r in Fs. cbn [List.filter] in Sl.
  destruct (channel cn' (ev_ch e)) as [ie|] eqn:Ee; [|unfold setRtpHeader in R; rewrite Ee in R; discriminate].
  rewrite (setRtpHeader_own _ _ _ ie Ee Lb) in R.
  assert (View : forall j, current w' cn1 j = (if mine (mkEvent (ev_conn e) (ev_ch e) p1) && sendable cn1 j then [mkEvent (ev_conn e) (ev_ch e) p1] else []) /\
    waiting w' cn1 = List.filter mine q).
  { intros j. destruct (sched_view k _ (mkSched q (Some (mkEvent (ev_conn e) (ev_ch e) p1))) w cn1 j A w' Ew) as [-> ->]. rewrite !decide_True by exact Hk1. split; reflexivity. }
  change (mine (mkEvent (ev_conn e) (ev_ch e) p1)) with (mine e) in View. unfold mine in *. rewrite Ec, Nat.eqb_refl in *. cbn [andb] in *.
  destruct (Nat.eqb_spec (ev_ch e) ch) as [Eh|Nh].
  - rewrite Eh in *. unfold cn' in Ee. rewrite channel_setFrameType, Ei in Ee. injection Ee as <-. fold cn' in R.
    destruct (sendable cn' i) eqn:Sn; injection R as <- <-.
    + set (hd := (rtpHeader i) <| marker := _ |> <| ts := _ |> <| seq := _ |>) in *.
      destruct (reheader (ev_pkt e) (header_bytes hd) Lb eq_refl Sz c ch) as (Bo & Pe & De).
      set (e1 := mkEvent c ch _) in *. split; [|exact Bo].
      set (i1 := i <| packetSeq := u16 (packetSeq i + 1) |> <| rtpHeader := hd |>) in *. exists i1.
      destruct (View i1) as [-> ->]. assert (S1 : sendable (set_channel cn' ch i1) i1 = true) by (rewrite <- Sn; apply sendable_kept; reflexivity). rewrite S1.
      split_and!.
      * rewrite (channel_set cn' ch ch i i1) by (unfold cn'; rewrite channel_setFrameType; exact Ei). rewrite Nat.eqb_refl. reflexivity.
      * split_and!; [exact Ff | exact (proj1 Fp) | exact (proj2 Fp) | cbn [i1 packetSeq upd set_packetSeq set_rtpHeader length]]. unfold i1. cbn. rewrite Fs. apply u16_succ.
      * intros x [<-|[]]. destruct (header_parses i (last (ev_pkt e)) (pkt_timestamp (ev_pkt e)) (pay e1) Ff Fp) as (r & Er & Es & Er2 & Ep); [rewrite Fs; apply u16_range|].
        exists r. split_and!; [unfold e1 at 1 2; cbn [ev_pkt pkt_size reblock]; rewrite <- Er; f_equal; exact De | rewrite Es, Fs; reflexivity | exact Er2 | exact Ep].
      * cbn [map app andb]. rewrite Pe. unfold pay in *. exact Sl.
    + split; [|split; [exact Lb | exact Sz]]. exists i. destruct (View i) as [-> ->]. rewrite Sn. cbn [map app length].
      split_and!; [unfold cn'; rewrite channel_setFrameType; exact Ei | refine (conj Ff (conj Fp _)); cbn; rewrite Z.add_0_r; exact Fs | intros x [] |].
      etrans; [|exact Sl]. apply sublist_app; [reflexivity | apply sublist_cons; reflexivity].
  - cbn [andb] in *. assert (Cn1 : channel cn1 ch = Ret i /\ block_ok (mkEvent c (ev_ch e) p1)).
    { pose (hd := (rtpHeader ie) <| marker := last (ev_pkt e) mod 2 |> <| ts := htonl (pkt_timestamp (ev_pkt e)) |> <| seq := htons (packetSeq ie) |>).
      destruct (sendable cn' ie); injection R as <- <-.
      - rewrite (channel_set cn' _ ch ie) by exact Ee. destruct (Nat.eqb_spec ch (ev_ch e)); [congruence|]. unfold cn'. rewrite channel_setFrameType.
        split; [exact Ei|]. exact (proj1 (reheader (ev_pkt e) (header_bytes hd) Lb eq_refl Sz c (ev_ch e))).
      - unfold cn'. rewrite channel_setFrameType. split; [exact Ei | split; assumption]. }
    destruct Cn1 as [C1 B1]. split; [|exact B1]. exists i. destruct (View i) as [-> ->]. cbn [map app length].
    split_and!; [exact C1 | refine (conj Ff (conj Fp _)); cbn; rewrite Z.add_0_r; exact Fs | intros x [] | exact Sl].
Qed.

(** Another scheduler's step, or one on another connection or channel. *)
Lemma conn_inv_other prod P w w' cn k sc sd : conn_inv prod P w cn -> scheds w !! k = Some sc -> scheds w' = <[k := sd]> (scheds w) ->
  (sched cn = k -> List.filter mine (triggerEvents sd) = List.filter mine (triggerEvents sc) /\
     (forall e, running sd = Some e -> mine e = false) /\ (forall e, running sc = Some e -> mine e = false)) -> conn_inv prod P w' cn.
Proof.
  intros C A E K. eapply conn_inv_frame; [exact C | |].
  - intros i. destruct (sched_view k sc sd w cn i A w' E) as [-> _]. destruct (decide (sched cn = k)) as [D|D]; [|reflexivity].
    destruct (K D) as (_ & K1 & K2). unfold current. rewrite D, A.
    destruct (running sd) as [e|]; [rewrite (K1 e eq_refl)|]; (destruct (running sc) as [e'|]; [rewrite (K2 e' eq_refl)|]); reflexivity.
  - destruct (C) as (i & _). destruct (sched_view k sc sd w cn i A w' E) as [_ ->]. destruct (decide (sched cn = k)) as [D|D]; [|reflexivity].
    destruct (K D) as (K0 & _). unfold waiting. rewrite D, A. exact K0.
Qed.

Lemma mine_other {D : Type} (e : event D) : ev_conn e <> c -> mine e = false.
Proof. unfold mine. intros N. apply Nat.eqb_neq in N. rewrite N. reflexivity. Qed.

Lemma begin_inv prod k s s' : begin_event k s = Ret s' -> inv prod s.2 -> inv prod s'.2.
Proof.
  destruct s as [[] w]. unfold begin_event. destruct (scheds w !! k) as [[[|e q] [r|]]|] eqn:A; try (intros E; injection E as <-; auto).
  destruct (the_conn w (ev_conn e)) as [cn|] eqn:G; [|discriminate]. apply the_conn_Ret in G. cbn [obind].
  destruct (setRtpHeader _ _ _ _) as [[[cn1 p1] []]|] eqn:R; [|discriminate]. cbn [obind]. intros E. injection E as <-. cbn [snd].
  intros (Ev & P & St & Sb & Cn). assert (I0 : In e (triggerEvents (mkSched (e :: q) None)) \/ running (mkSched (e :: q) None) = Some e) by (left; left; reflexivity).
  destruct (Ev k _ e A I0) as [Be He]. set (e1 := mkEvent (ev_conn e) (ev_ch e) p1). set (w' := set_sched _ _ _).
  assert (Ew : scheds w' = <[k := mkSched q (Some e1)]> (scheds w)) by reflexivity.
  assert (K : sched cn1 = sched cn /\ block_ok e1).
  { set (cn' := setFrameType _ cn) in R. destruct (channel cn' (ev_ch e)) as [ie|] eqn:Ee; [|unfold setRtpHeader in R; rewrite Ee in R; discriminate].
    rewrite (setRtpHeader_own _ _ _ ie Ee (proj1 Be)) in R.
    pose (hd := (rtpHeader ie) <| marker := last (ev_pkt e) mod 2 |> <| ts := htonl (pkt_timestamp (ev_pkt e)) |> <| seq := htons (packetSeq ie) |>).
    assert (Hs : sched cn' = sched cn) by exact (f_equal (fun x => x.1.1) (identity_setFrameType _ cn)).
    destruct (sendable cn' ie); injection R as <- <-; (split; [exact Hs|]).
    - exact (proj1 (reheader (ev_pkt e) (header_bytes hd) (proj1 Be) eq_refl (proj2 Be) (ev_conn e) (ev_ch e))).
    - exact Be. }
  destruct K as [Ks Kb]. split.
  - eapply (events_ok_insert k); [exact Ev | exact A | exact Ew | |].
    + intros cn' Hc. cbn in Hc. apply lookup_insert_Some in Hc as [[Ec <-]|[N Hc]]; [exists cn; rewrite <- Ec; auto | exists cn'; auto].
    + cbn [triggerEvents running]. intros x [I|I]; [|injection I as <-; split; [exact Kb | exists e; auto]].
      split; [apply (Ev k _ x A); left; right; exact I | exists x; split; [left; right; exact I | reflexivity]].
  - exists P. split_and!; [exact St | exact Sb|]. intros cn' Hc. cbn in Hc. apply lookup_insert_Some in Hc as [[Ec <-]|[N Hc]].
    + assert (G' : conns w !! c = Some cn) by (rewrite <- Ec; exact G). assert (Hk : sched cn = k) by (apply He; [exact Ec | exact G']).
      refine (proj1 (begin_own prod P w k e q cn cn1 p1 (Cn cn G') A Hk Be Ec R _ w' Ew)). congruence.
    + eapply conn_inv_other; [apply Cn, Hc | exact A | exact Ew|]. intros _. cbn [triggerEvents running List.filter].
      rewrite (mine_other e) by exact N. split_and!; [reflexivity | intros x Ex; injection Ex as <-; apply mine_other; exact N | discriminate].
Qed.

Lemma unframe_rtp b r : parse_rtp b = Some r -> unframe b = b.
Proof.
  destruct b as [|m [|x [|y [|z b]]]]; try reflexivity. intros E. cbn [unframe]. destruct (Z.eqb_spec m 36) as [->|]; [discriminate E | reflexivity].
Qed.

(** The bytes on the wire are the packet in the block. *)
Lemma delivered_bytes ret i e cn b : block_ok e ->
  (exists h, sendRtpOverTcp i (ev_pkt e) tt = Ret (b, h)) \/ (exists cn', sendRtpOverUdp ret (ev_pkt e) cn tt = Ret (b, cn')) ->
  forall r, parse_rtp (drop 4 (take (Z.to_nat (pkt_size (ev_pkt e))) (data (ev_pkt e)))) = Some r -> parse_rtp (unframe b) = Some r.
Proof.
  intros [L Sz] W r Er. unfold BLOCK_SIZE in L. set (n := Z.to_nat (pkt_size (ev_pkt e))) in *. destruct W as [[h W]|[cn' W]].
  - unfold sendRtpOverTcp in W. cbn [store_block own_blocks] in W. rewrite stores_split in W by (cbn [length]; lia).
    cbn [obind read_block own_blocks] in W. unfold slice in W. rewrite (proj2 (Z.leb_le _ _)) in W by (rewrite !length_app, length_drop; cbn [length map]; lia).
    fold n in W. injection W as <- _.
    rewrite drop_0. rewrite skipn_firstn_comm in Er. assert (N4 : (4 <= n)%nat) by lia. clearbody n.
    destruct n as [|[|[|[|m]]]]; try lia. cbn [take unframe]. change (u8 36 =? 36) with true. cbn [Nat.sub] in Er. rewrite Nat.sub_0_r in Er. exact Er.
  - unfold sendRtpOverUdp in W. cbn [read_block own_blocks] in W. unfold slice in W. rewrite (proj2 (Z.leb_le _ _)) in W by lia. fold n in W.
    injection W as <- _. rewrite (unframe_rtp _ r Er). exact Er.
Qed.

Lemma teardown_channel cn j : channel cn ch = Ret j -> exists j', channel (teardown cn) ch = Ret j' /\
  fixed_fields j' = fixed_fields j /\ payload (rtpHeader j') = payload (rtpHeader j) /\ packetSeq j' = packetSeq j.
Proof.
  unfold teardown. destruct (isClosed cn); [intros E; exists j; auto|]. unfold channel. cbn. rewrite list_lookup_fmap.
  destruct (mediaChannelInfo cn !! ch) as [x|]; [|discriminate]. intros E. injection E as ->. cbn. eexists. split; [reflexivity | auto].
Qed.

(** After the event in hand: the connection may have been torn down. *)
Lemma conn_inv_done prod P w w' cn cn' k q e i : conn_inv prod P w cn -> scheds w !! k = Some (mkSched q (Some e)) -> sched cn = k ->
  scheds w' = <[k := mkSched q None]> (scheds w) -> (cn' = cn \/ cn' = teardown cn) -> channel cn ch = Ret i ->
  conn_inv prod (P ++ (if mine e && sendable cn i then [pay e] else [])) w' cn'.
Proof.
  intros (j & Ej & (Ff & Fp & Fs) & Ho & Sl) A Hk E Hc Ei. rewrite Ei in Ej. injection Ej as <-.
  assert (J : exists j', channel cn' ch = Ret j' /\ fixed_fields j' = fixed_fields i /\ payload (rtpHeader j') = payload (rtpHeader i) /\ packetSeq j' = packetSeq i).
  { destruct Hc as [-> | ->]; [exists i; auto | apply teardown_channel, Ei]. }
  destruct J as (j' & Ej' & F1 & F2 & F3). assert (Hk' : sched cn' = k).
  { destruct Hc as [-> | ->]; [exact Hk|]. rewrite <- Hk. exact (f_equal (fun x => x.1.1) (identity_teardown cn)). }
  exists j'. destruct (sched_view k _ (mkSched q None) w cn' j' A w' E) as [-> ->]. rewrite !decide_True by exact Hk'. cbn [running triggerEvents map app length].
  assert (C : current w cn i = if mine e && sendable cn i then [e] else []) by (unfold current; rewrite Hk, A; reflexivity).
  assert (W : waiting w cn = List.filter mine q) by (unfold waiting; rewrite Hk, A; reflexivity). rewrite C, W in *.
  split_and!; [exact Ej' | refine (conj (eq_trans F1 Ff) (conj _ _)); [rewrite F2; exact Fp|] | intros x [] |].
  - rewrite F3, Fs. f_equal. rewrite length_app. destruct (_ && _); cbn [length]; lia.
  - destruct (_ && _); rewrite <- !app_assoc; cbn [map app] in *; exact Sl.
Qed.

Lemma outs_snoc w e b (x : session (list Z)) : sent x = sent w ++ [(ev_conn e, ev_ch e, b)] ->
  outs x = outs w ++ (if mine (D := list Z) e then [b] else []).
Proof. intros E. unfold outs. rewrite E, List.filter_app, map_app. cbn [List.filter fst snd]. unfold mine. destruct (_ && _); reflexivity. Qed.

Lemma finish_events k q e w w' : events_ok w -> scheds w !! k = Some (mkSched q (Some e)) -> scheds w' = <[k := mkSched q None]> (scheds w) ->
  same_sched (conns w !! c) (conns w' !! c) -> events_ok w'.
Proof.
  intros Ev A E Sc. eapply (events_ok_insert k); [exact Ev | exact A | exact E | exact Sc|]. cbn [triggerEvents running]. intros x [I|I]; [|discriminate].
  split; [apply (Ev k _ x A); left; exact I | exists x; auto].
Qed.

(** The end of an event: what is sent, and the connection it leaves. *)
Lemma finish_stream prod w w' k q e cn cn' i b ret h : inv prod w -> scheds w !! k = Some (mkSched q (Some e)) -> conns w !! ev_conn e = Some cn ->
  channel cn (ev_ch e) = Ret i -> sendable cn i = true -> (cn' = cn \/ cn' = teardown cn) ->
  sendRtpOverTcp i (ev_pkt e) tt = Ret (b, h) \/ sendRtpOverUdp ret (ev_pkt e) cn tt = Ret (b, cn') ->
  scheds w' = <[k := mkSched q None]> (scheds w) -> conns w' !! c = (if (ev_conn e =? c)%nat then Some cn' else conns w !! c) ->
  sent w' = sent w ++ [(ev_conn e, ev_ch e, b)] -> inv prod w'.
Proof.
  intros (Ev & P & St & Sb & Cn) A G Ei Sn Hc W E Ec Es. assert (I0 : In e (triggerEvents (mkSched q (Some e))) \/ running (mkSched q (Some e)) = Some e) by (right; reflexivity).
  destruct (Ev k _ e A I0) as [Be He]. assert (W' : (exists h, sendRtpOverTcp i (ev_pkt e) tt = Ret (b, h)) \/ (exists cn', sendRtpOverUdp ret (ev_pkt e) cn tt = Ret (b, cn'))) by (destruct W; eauto).
  assert (Hs : sched cn' = sched cn) by (destruct Hc as [-> | ->]; [reflexivity | exact (f_equal (fun x => x.1.1) (identity_teardown cn))]).
  destruct (Nat.eqb_spec (ev_conn e) c) as [Hm|N].
  - rewrite Hm in G. pose proof (He Hm cn G) as Hk. split.
    { eapply (finish_events k q e); [exact Ev | exact A | exact E|]. rewrite Ec. intros x Ex. injection Ex as <-. exists cn. auto. }
    destruct (Cn cn G) as (j & Ej & (Ff & Fp & Fs) & Ho & Sl). exists (P ++ (if mine e && sendable cn j then [pay e] else [])).
    assert (C : current w cn j = if mine e && sendable cn j then [e] else []) by (unfold current; rewrite Hk, A; reflexivity).
    rewrite (outs_snoc w e b w' Es).
    assert (M : mine e = true -> j = i).
    { unfold mine. intros [_ Hh%Nat.eqb_eq]%andb_prop. rewrite <- Hh, Ei in Ej. congruence. }
    split_and!.
    + destruct (mine e) eqn:Me; cbn [andb]; [|rewrite !app_nil_r; exact St]. rewrite (M eq_refl), Sn in *. destruct (Ho e) as (r & Er & Rs & Rc & Rp); [rewrite C; left; reflexivity|].
      rewrite <- Rp. eapply stream_snoc; [exact St | eapply delivered_bytes; eassumption | exact Rs | exact Rc].
    + rewrite C in Sl. destruct (mine e && sendable cn j); [|rewrite app_nil_r; exact Sb]. etrans; [|exact Sl].
      apply sublist_app; [reflexivity|]. cbn [map app]. apply sublist_skip, sublist_nil_l.
    + rewrite Ec. intros x Ex. injection Ex as <-. eapply conn_inv_done; [apply Cn, G | exact A | exact Hk | exact E | exact Hc | exact Ej].
  - split; [eapply (finish_events k q e); [exact Ev | exact A | exact E|]; rewrite Ec; intros x Ex; exists x; auto|].
    exists P. rewrite (outs_snoc w e b w' Es), (mine_other e N), app_nil_r. split_and!; [exact St | exact Sb|]. rewrite Ec. intros x Ex.
    eapply conn_inv_other; [apply Cn, Ex | exact A | exact E|]. intros _. cbn [triggerEvents running].
    split_and!; [reflexivity | discriminate | intros y Ey; injection Ey as <-; apply mine_other, N].
Qed.

Lemma finish_inv prod k ret s s' : finish_event k ret s = Ret s' -> inv prod s.2 -> inv prod s'.2.
Proof.
  destruct s as [[] w]. unfold finish_event. destruct (scheds w !! k) as [[q [e|]]|] eqn:A; try (intros E; injection E as <-; auto).
  destruct (the_conn w (ev_conn e)) as [cn|] eqn:G; [|discriminate]. apply the_conn_Ret in G. cbn [obind].
  destruct (channel cn (ev_ch e)) as [i|] eqn:Ei; [|discriminate]. cbn [obind]. destruct (sendable cn i) eqn:Sn.
  - intros E I. destruct (transportMode cn) eqn:Tm.
    1:{ destruct (sendRtpOverTcp i (ev_pkt e) tt) as [[b []]|] eqn:W; [|discriminate]. injection E as <-. cbn [snd].
        eapply (finish_stream prod w _ k q e cn cn i b ret tt); [exact I | exact A | exact G | exact Ei | exact Sn | left; reflexivity | left; exact W | reflexivity | | reflexivity].
        cbn. destruct (Nat.eqb_spec (ev_conn e) c) as [<-|]; [exact G | reflexivity]. }
    all: destruct (sendRtpOverUdp ret (ev_pkt e) cn tt) as [[b cn']|] eqn:W; [|discriminate]; injection E as <-; cbn [snd];
      (eapply (finish_stream prod w _ k q e cn cn' i b ret tt); [exact I | exact A | exact G | exact Ei | exact Sn | | right; exact W | reflexivity | | reflexivity]);
      [unfold sendRtpOverUdp in W; destruct (read_block _ _ _ _); [|discriminate]; injection W as _ <-; destruct (ret <? 0); auto
      | cbn; destruct (Nat.eqb_spec (ev_conn e) c) as [<-|N]; [apply lookup_insert_eq | apply lookup_insert_ne; exact N]].
  - intros E. injection E as <-. cbn [snd]. intros (Ev & P & St & Sb & Cn).
    split; [eapply (finish_events k q e); [exact Ev | exact A | reflexivity | intros x Ex; exists x; auto]|].
    exists P. split_and!; [exact St | exact Sb|]. intros x Ex. cbn in Ex. destruct (decide (ev_conn e = c)) as [Hm|N].
    + assert (x = cn) as -> by congruence. destruct (Cn cn Ex) as (j & Ej & C'). assert (Hk : sched cn = k) by (apply (Ev k _ e A); [right; reflexivity | exact Hm | exact Ex]).
      pose proof (conn_inv_done prod P w (set_sched w k (mkSched q None)) cn cn k q e j (Cn cn Ex) A Hk eq_refl (or_introl eq_refl) Ej) as K.
      assert (Z : mine e && sendable cn j = false); [|rewrite Z, app_nil_r in K; exact K]. destruct (mine e) eqn:Me; [|reflexivity].
      unfold mine in Me. apply andb_prop in Me as [_ Hh%Nat.eqb_eq]. rewrite <- Hh, Ei in Ej. injection Ej as <-. exact Sn.
    + eapply conn_inv_other; [apply Cn, Ex | exact A | reflexivity|]. intros _. cbn [triggerEvents running].
      split_and!; [reflexivity | discriminate | intros y Ey; injection Ey as <-; apply mine_other, N].
Qed.

(** A request keeps what the stream needs of the channel. *)
Definition keeps_channel (cn cn' : RtpConnection) : Prop := forall j, channel cn ch = Ret j ->
  exists j', channel cn' ch = Ret j' /\ fixed_fields j' = fixed_fields j /\
    (0 <= payload (rtpHeader j) < 128 -> 0 <= payload (rtpHeader j') < 128) /\ packetSeq j' = packetSeq j.

Lemma channel_refl cn : keeps_channel cn cn.
Proof. intros j E. exists j. auto. Qed.

Lemma channel_trans a b d : keeps_channel a b -> keeps_channel b d -> keeps_channel a d.
Proof.
  intros X Y j E. destruct (X j E) as (j1 & E1 & F1 & P1 & S1). destruct (Y j1 E1) as (j2 & E2 & F2 & P2 & S2).
  exists j2. split_and!; [exact E2 | congruence | auto | congruence].
Qed.

Lemma keeps_set cn ch' i i' : channel cn ch' = Ret i -> fixed_fields i' = fixed_fields i -> (0 <= payload (rtpHeader i) < 128 -> 0 <= payload (rtpHeader i') < 128) ->
  packetSeq i' = packetSeq i -> keeps_channel cn (set_channel cn ch' i').
Proof.
  intros E F P S j Ej. rewrite (channel_set cn ch' ch i i' E). destruct (Nat.eqb_spec ch ch') as [->|]; [|exists j; auto].
  rewrite Ej in E. injection E as ->. exists i'. auto.
Qed.

Lemma keeps_infos cn cn' : mediaChannelInfo cn' = mediaChannelInfo cn -> keeps_channel cn cn'.
Proof. intros E j. unfold channel. rewrite E. intros Ej. exists j. auto. Qed.

Lemma keeps_map f cn : (forall i, fixed_fields (f i) = fixed_fields i /\ payload (rtpHeader (f i)) = payload (rtpHeader i) /\ packetSeq (f i) = packetSeq i) ->
  keeps_channel cn (cn <| mediaChannelInfo := map f (mediaChannelInfo cn) |>).
Proof.
  intros K j. unfold channel. cbn. rewrite list_lookup_fmap. destruct (mediaChannelInfo cn !! ch) as [x|]; [|discriminate]. intros E. injection E as ->.
  destruct (K j) as (K1 & K2 & K3). exists (f j). cbn. rewrite K2. auto.
Qed.

Lemma bind_ports_infos tries ch' : forall cn, mediaChannelInfo (bind_ports tries ch' cn).2 = mediaChannelInfo cn.
Proof.
  induction tries as [|[[rd [s1 ok1]] [s2 ok2]] tries IH]; intros cn; [reflexivity|]. cbn [bind_ports].
  destruct ok1, ok2; cbn [negb]; rewrite ?IH; reflexivity.
Qed.

Lemma apply_op_keeps op cn cn' : apply_op op cn = Ret cn' -> keeps_channel cn cn'.
Proof.
  destruct op as [ch' rate|ch' p|ch' a b|peer tries ch' a b| | |]; cbn [apply_op]; unfold setClockRate, setPayloadType, setupRtpOverTcp, setupRtpOverUdp; intros E.
  - destruct (channel cn ch') as [i|] eqn:Ei; [|discriminate]. injection E as <-. eapply keeps_set; [exact Ei | reflexivity | auto | reflexivity].
  - destruct (channel cn ch') as [i|] eqn:Ei; [|discriminate]. injection E as <-. eapply keeps_set; [exact Ei | reflexivity | | reflexivity].
    intros _. cbn. apply Z.mod_pos_bound. lia.
  - destruct (channel cn ch') as [i|] eqn:Ei; [|discriminate]. injection E as <-. eapply channel_trans; [eapply keeps_set; [exact Ei | | |] | apply keeps_infos; reflexivity]; [reflexivity | auto | reflexivity].
  - destruct (peer <? 0); [injection E as <-; apply channel_refl|]. destruct (channel cn ch') as [i|] eqn:Ei; [|discriminate]. cbn [obind] in E.
    set (c1 := set_channel _ _ _) in E. assert (K1 : keeps_channel cn c1) by (eapply keeps_set; [exact Ei | reflexivity | auto | reflexivity]).
    destruct (bind_ports (take 10 tries) ch' c1) as [ok c2] eqn:B.
    assert (K2 : keeps_channel cn c2) by (eapply channel_trans; [exact K1|]; apply keeps_infos; rewrite <- (bind_ports_infos (take 10 tries) ch' c1), B; reflexivity).
    destruct ok; cbn [negb] in E; [|injection E as <-; exact K2]. destruct (channel c2 ch') as [j|] eqn:Ej; [|discriminate]. injection E as <-.
    eapply channel_trans; [exact K2|]. eapply channel_trans; [eapply keeps_set; [exact Ej | | |] | apply keeps_infos; reflexivity]; [reflexivity | auto | reflexivity].
  - injection E as <-. apply keeps_map. intros i. destruct (isSetup i); auto.
  - injection E as <-. apply keeps_map. intros i. destruct (isSetup i); auto.
  - injection E as <-. intros j Ej. destruct (teardown_channel cn j Ej) as (j' & E1 & E2 & E3 & E4). exists j'. rewrite E3. auto.
Qed.

(** With the thread between two events a request changes nothing of the stream. *)
Lemma conn_inv_idle prod P w w' cn cn' : conn_inv prod P w cn -> idle w (sched cn) = true -> scheds w' = scheds w -> sched cn' = sched cn ->
  keeps_channel cn cn' -> conn_inv prod P w' cn'.
Proof.
  intros (j & Ej & (Ff & Fp & Fs) & _ & Sl) Id E Hs K. destruct (K j Ej) as (j' & Ej' & F1 & F2 & F3).
  assert (C : current w cn j = [] /\ current w' cn' j' = []).
  { unfold current, idle in *. rewrite E, Hs. destruct (scheds w !! sched cn) as [sc|]; [|auto]. destruct (running sc); [discriminate | auto]. }
  destruct C as [C1 C2]. assert (W : waiting w' cn' = waiting w cn) by (unfold waiting; rewrite E, Hs; reflexivity).
  exists j'. rewrite C1 in *. rewrite C2, W. split_and!; [exact Ej' | refine (conj (eq_trans F1 Ff) (conj (F2 Fp) _)); rewrite F3; exact Fs | intros x [] | exact Sl].
Qed.

(** A change of a connection the events do not see. *)
Definition same_view (cn cn' : RtpConnection) : Prop :=
  mediaChannelInfo cn' = mediaChannelInfo cn /\ hasIDRFrame cn' = hasIDRFrame cn /\ frameType cn' = frameType cn.

Lemma conn_inv_view prod P w w' cn cn' : conn_inv prod P w cn -> scheds w' = scheds w -> sched cn' = sched cn -> same_view cn cn' -> conn_inv prod P w' cn'.
Proof.
  intros (j & Ej & Io & Ho & Sl) E Hs (V1 & V2 & V3).
  assert (C : current w' cn' j = current w cn j) by (unfold current, sendable; rewrite E, Hs, V2, V3; reflexivity).
  exists j. unfold waiting. rewrite C, E, Hs. split_and!; [unfold channel; rewrite V1; exact Ej | exact Io | exact Ho | exact Sl].
Qed.

Lemma inv_frame prod w w' : inv prod w -> scheds w' = scheds w -> sent w' = sent w ->
  (forall cn', conns w' !! c = Some cn' -> exists cn, conns w !! c = Some cn /\ sched cn' = sched cn /\
     (same_view cn cn' \/ idle w (sched cn) = true /\ keeps_channel cn cn')) -> inv prod w'.
Proof.
  intros (Ev & P & St & Sb & Cn) E Es K. split.
  - intros k sc e A I. rewrite E in A. destruct (Ev k sc e A I) as [B H]. split; [exact B|]. intros Hc cn' G. destruct (K cn' G) as (cn & G' & -> & _). apply H; assumption.
  - exists P. unfold outs. rewrite Es. split_and!; [exact St | exact Sb|]. intros cn' G. destruct (K cn' G) as (cn & G' & Hs & [V|[Id Kc]]).
    + eapply conn_inv_view; [apply Cn, G' | exact E | exact Hs | exact V].
    + eapply conn_inv_idle; [apply Cn, G' | exact Id | exact E | exact Hs | exact Kc].
Qed.

Lemma same_view_refl cn : same_view cn cn.
Proof. unfold same_view. auto. Qed.
#[local] Hint Resolve same_view_refl : core.

Lemma act_inv prod a s s' : act a s = Ret s' -> inv prod s.2 -> inv prod s'.2.
Proof.
  destruct a as [k|k ret|c' op|c'|sfd|c']; cbn [act]; [apply begin_inv | apply finish_inv | | | |].
  - destruct s as [h w]. unfold on_thread. destruct (conns w !! c') as [cn|] eqn:G; [|intros E; injection E as <-; auto].
    destruct (idle w (sched cn)) eqn:Id; [|intros E; injection E as <-; auto]. destruct (apply_op op cn) as [cn'|] eqn:Ea; [|discriminate]. intros E I. injection E as <-.
    eapply inv_frame; [exact I | reflexivity | reflexivity|]. intros x Ex. cbn in Ex. apply lookup_insert_Some in Ex as [[Ec <-]|[N Ex]]; [|exists x; auto].
    exists cn. rewrite <- Ec. split_and!; [exact G | exact (f_equal (fun x => x.1.1) (identity_apply_op _ _ _ Ea)) | right; split; [exact Id | eapply apply_op_keeps, Ea]].
  - destruct s as [h w]. unfold on_thread. destruct (conns w !! c') as [cn|] eqn:G; [|intros E; injection E as <-; auto].
    destruct (idle w (sched cn)); intros E I; injection E as <-; [|exact I]. unfold addClient. cbn [snd]. destruct (is_client _ _); [exact I|].
    eapply inv_frame; [exact I | reflexivity | reflexivity|]. intros x Ex. exists x. auto.
  - intros E I. injection E as <-. unfold removeClient. cbn [snd]. destruct (is_client _ _); [|exact I].
    eapply inv_frame; [exact I | reflexivity | reflexivity|]. intros x Ex. exists x. auto.
  - destruct s as [h w]. unfold on_thread. destruct (conns w !! c') as [cn|] eqn:G; [|intros E; injection E as <-; auto].
    destruct (idle w (sched cn)); intros E I; injection E as <-; [|exact I].
    eapply inv_frame; [exact I | reflexivity | reflexivity|]. intros x Ex. cbn in Ex. apply lookup_delete_Some in Ex as [_ Ex]. exists x. auto.
Qed.

(** ** Clients *)

(** The connection is a client at most once, under its own socket. *)
Definition client_once w : Prop :=
  (forall f cn, In (f, c) (clients w) -> conns w !! c = Some cn -> f = fd cn) /\
  (length (List.filter (fun x => x.2 =? c)%nat (clients w)) <= 1)%nat.

Lemma client_once_kept w w' : client_once w -> clients w' = clients w -> kept (conns w) (conns w') -> client_once w'.
Proof.
  intros [A B] E K. split; [|rewrite E; exact B]. intros f cn' I G. rewrite E in I. destruct (K c cn' G) as (cn & G' & Id).
  rewrite (A f cn I G'). symmetry. exact (f_equal (fun x => x.1.2) Id).
Qed.

Lemma client_once_less w w' : client_once w -> conns w' = conns w -> (forall x, In x (clients w') -> In x (clients w)) ->
  (length (List.filter (fun x => x.2 =? c)%nat (clients w')) <= length (List.filter (fun x => x.2 =? c)%nat (clients w)))%nat -> client_once w'.
Proof. intros [A B] E I L. split; [|lia]. intros f cn H G. rewrite E in G. apply A; auto. Qed.

Lemma begin_clients k s s' : begin_event k s = Ret s' -> clients s'.2 = clients s.2.
Proof.
  destruct s as [h w]. unfold begin_event. destruct (scheds w !! k) as [[[|e q] [r|]]|]; try (intros E; injection E as <-; reflexivity).
  destruct (the_conn w (ev_conn e)); [|discriminate]. cbn [obind]. destruct (setRtpHeader _ _ _ _) as [[[? ?] ?]|]; [|discriminate].
  intros E; injection E as <-; reflexivity.
Qed.

Lemma finish_clients k ret s s' : finish_event k ret s = Ret s' -> clients s'.2 = clients s.2.
Proof.
  destruct s as [h w]. unfold finish_event. destruct (scheds w !! k) as [[q [e|]]|]; try (intros E; injection E as <-; reflexivity).
  destruct (the_conn w (ev_conn e)) as [cn|]; [|discriminate]. cbn [obind]. destruct (channel cn (ev_ch e)) as [i|]; [|discriminate]. cbn [obind].
  destruct (sendable cn i); [|intros E; injection E as <-; reflexivity]. destruct (transportMode cn).
  1:{ destruct (sendRtpOverTcp i (ev_pkt e) h) as [[? ?]|]; [|discriminate]. intros E; injection E as <-; reflexivity. }
  all: destruct (sendRtpOverUdp ret (ev_pkt e) cn h) as [[? ?]|]; [|discriminate]; intros E; injection E as <-; reflexivity.
Qed.

Lemma insert_client_in f c' l x : In x (insert_client f c' l) -> x = (f, c') \/ In x l.
Proof.
  induction l as [|[f0 c0] l IH]; cbn [insert_client]; [intros [<-|[]]; auto|]. destruct (f <? f0); [intros [<-|I]; auto|].
  intros [<-|I]; [right; left; reflexivity|]. destruct (IH I) as [->|K]; [left; reflexivity | right; right; exact K].
Qed.

Lemma insert_client_count f c' l : length (List.filter (fun x => x.2 =? c)%nat (insert_client f c' l)) =
  ((if c' =? c then 1 else 0) + length (List.filter (fun x => x.2 =? c) l))%nat.
Proof.
  induction l as [|[f0 c0] l IH]; cbn [insert_client List.filter snd]; [destruct (c' =? c)%nat; reflexivity|].
  destruct (f <? f0); cbn [List.filter snd]; [destruct (c' =? c)%nat, (c0 =? c)%nat; reflexivity|].
  destruct (c0 =? c)%nat; cbn [length]; rewrite IH; destruct (c' =? c)%nat; lia.
Qed.

Lemma act_client a s s' : act a s = Ret s' -> client_once s.2 -> client_once s'.2.
Proof.
  intros E I. destruct a as [k|k ret|c' op|c'|sfd|c']; cbn [act] in E.
  - eapply client_once_kept; [exact I | eapply begin_clients, E | eapply begin_kept, E].
  - eapply client_once_kept; [exact I | eapply finish_clients, E | eapply finish_kept, E].
  - eapply client_once_kept; [exact I | | apply (act_kept (Request c' op) s s'), E]. destruct s as [h w]. unfold on_thread in E.
    destruct (conns w !! c'); [|injection E as <-; reflexivity]. destruct (idle w _); [|injection E as <-; reflexivity].
    destruct (apply_op op _); [|discriminate]. injection E as <-. reflexivity.
  - destruct s as [h w]. unfold on_thread in E. destruct (conns w !! c') as [cn|] eqn:G; [|injection E as <-; exact I].
    destruct (idle w (sched cn)); injection E as <-; [|exact I]. unfold addClient. destruct (is_client (fd cn) (clients w)) eqn:Ic; [exact I|].
    destruct I as [A B]. cbn [snd] in *. split; cbn [clients conns upd set_clients set_notified set_hasNewClient].
    + intros f cn' H G'. apply insert_client_in in H as [H|H]; [|apply A; assumption]. injection H as -> ->. congruence.
    + rewrite insert_client_count. destruct (Nat.eqb_spec c' c) as [->|]; [|exact B].
      assert (Z : List.filter (fun x => x.2 =? c)%nat (clients w) = []); [|rewrite Z; cbn; lia].
      destruct (List.filter _ (clients w)) as [|[f0 c0] r] eqn:F; [reflexivity|]. exfalso.
      assert (H : In (f0, c0) (List.filter (fun x => x.2 =? c)%nat (clients w))) by (rewrite F; left; reflexivity).
      apply filter_In in H as [H1 H2%Nat.eqb_eq]. cbn in H2. subst c0. rewrite (A f0 cn H1 G) in H1. unfold is_client in Ic.
      assert (T : existsb (fun x => x.1 =? fd cn) (clients w) = true) by (apply existsb_exists; exists (fd cn, c); split; [exact H1 | apply Z.eqb_refl]). congruence.
  - injection E as <-. unfold removeClient. cbn [snd]. destruct (is_client _ _); [|exact I]. eapply client_once_less; [exact I | reflexivity | |]; cbn.
    + intros x H. apply filter_In in H. apply H.
    + generalize (clients s.2). intros l. induction l as [|[f0 c0] l IH]; [reflexivity|]. cbn [List.filter fst snd]. destruct (negb _); cbn [List.filter snd]; destruct (c0 =? c)%nat; cbn [length]; lia.
  - eapply client_once_kept; [exact I | | apply (act_kept (Destroy c') s s'), E]. destruct s as [h w]. unfold on_thread in E.
    destruct (conns w !! c'); [|injection E as <-; reflexivity]. destruct (idle w _); injection E as <-; reflexivity.
Qed.

(** Both invariants, under every batch of the other threads. *)
Definition good_stream (prod : list (list Z)) w : Prop := inv prod w /\ client_once w.

Lemma interfere_inv prod s s' : interfere s = Ret s' -> good_stream prod s.2 -> good_stream prod s'.2.
Proof.
  unfold interfere. destruct (schedule s.2) as [|l r]; [intros E; injection E as <-; auto|].
  assert (K : good_stream prod s.2 -> good_stream prod (s.1, s.2 <| schedule := r |>).2).
  { intros [I C]. split; [|exact C]. eapply inv_frame; [exact I | reflexivity | reflexivity|]. intros x Ex. exists x. auto. }
  intros E I. apply K in I. revert E I. clear K. generalize (s.1, s.2 <| schedule := r |>).
  induction l as [|a l IH]; intros t E I; [injection E as <-; exact I|]. cbn [acts] in E.
  destruct (act a t) as [t1|] eqn:Ea; [|discriminate]. apply (IH t1 E). split; [eapply act_inv, I; exact Ea | eapply act_client, I; exact Ea].
Qed.

(** ** The frame thread *)

Definition pkt_ok (pkt : RtpPacket (list Z)) (p : list Z) : Prop := forall c' ch', block_ok (mkEvent c' ch' pkt) /\ pay (mkEvent c' ch' pkt) = p.

(** What an event for [c'] and [ch'] adds to the stream. *)
Definition adds (c' ch' : nat) (p : list Z) : list (list Z) := if (c' =? c)%nat && (ch' =? ch)%nat then [p] else [].

Lemma addTriggerEvent_inv prod k c' ch' pkt p w r w' : addTriggerEvent k (mkEvent c' ch' pkt) w = Ret (r, w') -> pkt_ok pkt p ->
  (c' = c -> forall cn, conns w !! c = Some cn -> sched cn = k) -> inv prod w -> inv (prod ++ adds c' ch' p) w'.
Proof.
  unfold addTriggerEvent. destruct (scheds w !! k) as [sc|] eqn:A; [|discriminate]. destruct (_ <? _); intros E Po Hc I; injection E as <- <-; [|apply inv_more, I].
  destruct (Po c' ch') as [Bo Pe]. set (e := mkEvent c' ch' pkt) in *. set (sd := mkSched (triggerEvents sc ++ [e]) (running sc)).
  pose proof I as (Ev & P & St & Sb & Cn). split.
  - intros k' sc' x. cbn. rewrite (lookup_sched k k' sc w A sd). destruct (decide (k' = k)) as [->|N]; [|apply Ev]. intros B H. injection B as <-.
    cbn [triggerEvents running sd] in H. destruct H as [H|H]; [|apply (Ev k sc x A); right; exact H].
    apply in_app_iff in H as [H|[<-|[]]]; [apply (Ev k sc x A); left; exact H|]. split; [exact Bo | intros Ec cn G; apply Hc; assumption].
  - exists P. split_and!; [exact St | apply sublist_inserts_r, Sb|]. intros cn G. cbn in G. destruct (Cn cn G) as (i & Ei & Io & Ho & Sl).
    exists i. destruct (sched_view k sc sd w cn i A (set_sched w k sd) eq_refl) as [-> ->].
    destruct (decide (sched cn = k)) as [D|D].
    + assert (C : current w cn i = match running sd with Some e => if mine e && sendable cn i then [e] else [] | None => [] end) by (unfold current; rewrite D, A; reflexivity).
      assert (W : waiting w cn = List.filter mine (triggerEvents sc)) by (unfold waiting; rewrite D, A; reflexivity).
      rewrite <- C. cbn [triggerEvents sd]. rewrite List.filter_app, map_app, <- W. split_and!; [exact Ei | exact Io | exact Ho|].
      rewrite !app_assoc in *. apply sublist_app; [exact Sl|]. unfold adds. cbn [List.filter]. unfold mine. cbn [ev_conn ev_ch e].
      destruct (_ && _); [cbn [map]; rewrite Pe; reflexivity | reflexivity].
    + split_and!; [exact Ei | exact Io | exact Ho | apply sublist_inserts_r, Sl].
Qed.

Lemma sendRtpPacket_inv prod c' ch' pkt p gop w r w' : sendRtpPacket c' ch' pkt gop w = Ret (r, w') -> pkt_ok pkt p -> good_stream prod w ->
  good_stream (prod ++ adds c' ch' p) w'.
Proof.
  unfold sendRtpPacket. intros E Po [I C]. destruct (the_conn w c') as [cn|] eqn:G; [|discriminate]. apply the_conn_Ret in G. cbn [obind] in E.
  destruct (isClosed cn); [injection E as <- <-; split; [apply inv_more, I | exact C]|].
  destruct (gop && _); [injection E as <- <-; split; [apply inv_more, I | exact C]|].
  set (w1 := if gop && _ then _ else w) in E.
  assert (K : inv prod w1 /\ client_once w1 /\ (c' = c -> forall cn', conns w1 !! c = Some cn' -> sched cn' = sched cn)).
  { unfold w1. destruct (gop && _); [|split_and!; [exact I | exact C | intros -> cn' G'; congruence]]. split_and!.
    - eapply inv_frame; [exact I | reflexivity | reflexivity|]. intros x Ex. cbn in Ex. apply lookup_insert_Some in Ex as [[-> <-]|[N Ex]]; [|exists x; auto].
      exists cn. split_and!; [exact G | reflexivity | left; split_and!; reflexivity].
    - eapply client_once_kept; [exact C | reflexivity | apply (kept_insert _ _ cn); [exact G | reflexivity]].
    - intros -> cn' G'. cbn in G'. rewrite lookup_insert_eq in G'. injection G' as <-. reflexivity. }
  destruct K as (I1 & C1 & H1). destruct (addTriggerEvent (sched cn) _ w1) as [[ok w2]|] eqn:Ea; [|discriminate]. injection E as _ <-. split.
  - eapply addTriggerEvent_inv; eassumption.
  - unfold addTriggerEvent in Ea. destruct (scheds w1 !! sched cn); [|discriminate]. destruct (_ <? _); injection Ea as _ <-; [|exact C1].
    eapply client_once_kept; [exact C1 | reflexivity | apply kept_refl].
Qed.

Lemma good_more prod x w : good_stream prod w -> good_stream (prod ++ x) w.
Proof. intros [I C]. split; [apply inv_more, I | exact C]. Qed.

(** A client that is in the list once is sent the packet at most once. *)
Lemma send_all_inv ch' qs p front : (forall k q, find_packet k qs = Some q -> pkt_ok q p) -> forall prod count s n s',
  (length (List.filter (Nat.eqb c) front) <= 1)%nat -> send_all front qs ch' count s = Ret (n, s') -> good_stream prod s.2 ->
  good_stream (prod ++ (if existsb (Nat.eqb c) front then adds c ch' p else [])) s'.2.
Proof.
  intros Q. induction front as [|c' front IH]; intros prod count s n s' Once E I; cbn [send_all] in E.
  { injection E as <- <-. cbn. rewrite app_nil_r. exact I. }
  destruct (interfere s) as [s1|] eqn:I1; [|discriminate]. apply (interfere_inv prod) in I1; [|exact I]. cbn [obind] in E.
  destruct (the_conn s1.2 c') as [cn|]; [|discriminate]. cbn [obind] in E.
  assert (Once' : (length (List.filter (Nat.eqb c) front) <= 1)%nat) by (cbn [List.filter] in Once; destruct (c =? c')%nat; cbn [length] in Once; lia).
  assert (Skip : good_stream (prod ++ (if existsb (Nat.eqb c) front then adds c ch' p else [])) s'.2 ->
    good_stream (prod ++ (if existsb (Nat.eqb c) (c' :: front) then adds c ch' p else [])) s'.2).
  { cbn [existsb]. destruct (existsb (Nat.eqb c) front); [rewrite orb_true_r; auto|]. rewrite app_nil_r. intros K. apply good_more, K. }
  destruct (find_packet (sched cn) qs) as [q|] eqn:F; [|apply Skip; eapply IH; eassumption].
  destruct (gopCacheEnabled s1.2 && _); [apply Skip; eapply IH; eassumption|].
  destruct (interfere s1) as [s2|] eqn:I2; [|discriminate]. apply (interfere_inv prod) in I2; [|exact I1]. cbn [obind] in E.
  destruct (sendRtpPacket c' ch' q _ s2.2) as [[r w]|] eqn:Es; [|discriminate]. cbn [obind] in E.
  apply (sendRtpPacket_inv prod c' ch' q p) in Es; [|eapply Q, F | exact I2]. cbn [existsb].
  assert (Rest : forall prod', good_stream prod' w -> good_stream (prod' ++ (if existsb (Nat.eqb c) front then adds c ch' p else [])) s'.2).
  { intros prod' K. destruct (_ && _); [injection E as <- <-; apply good_more, K | eapply IH; eassumption]. }
  destruct (Nat.eqb_spec c c') as [<-|N].
  - cbn [orb]. assert (Z : existsb (Nat.eqb c) front = false).
    { destruct (existsb (Nat.eqb c) front) eqn:X; [|reflexivity]. apply existsb_exists in X as (x & X1 & X2).
      assert (Y : In x (List.filter (Nat.eqb c) front)) by (apply filter_In; auto). cbn [List.filter] in Once. rewrite Nat.eqb_refl in Once. cbn [length] in Once.
      destruct (List.filter (Nat.eqb c) front); [destruct Y | cbn [length] in Once; lia]. }
    specialize (Rest _ Es). rewrite Z, app_nil_r in Rest. exact Rest.
  - cbn [orb]. apply Rest. unfold adds in Es. rewrite (proj2 (Nat.eqb_neq c' c)) in Es by congruence. cbn [andb] in Es. rewrite app_nil_r in Es. exact Es.
Qed.

Lemma find_packet_in {D : Type} k (ps : list (nat * RtpPacket D)) q : find_packet k ps = Some q -> In (k, q) ps.
Proof.
  induction ps as [|[k0 q0] ps IH]; cbn [find_packet]; [discriminate|]. destruct (Nat.eqb_spec k k0) as [->|]; [intros E; injection E as <-; left; reflexivity | right; auto].
Qed.

(** With own blocks the packets of the schedulers are the packet; the clients kept
    and sent to are among the clients. *)
Lemma gather_own pkt w l : forall ps front l' ps' front' u, Forall (fun x => x.2 = pkt) ps ->
  gather l pkt ps front tt w = Ret (l', ps', front', u) ->
  Forall (fun x => x.2 = pkt) ps' /\ (forall x, In x l' -> In x l) /\
  (length (List.filter (fun x => x.2 =? c)%nat l') <= length (List.filter (fun x => x.2 =? c)%nat l))%nat /\
  (length (List.filter (Nat.eqb c) front') <= length (List.filter (fun x => x.2 =? c)%nat l) + length (List.filter (Nat.eqb c) front))%nat.
Proof.
  induction l as [|[f c'] l IH]; intros ps front l' ps' front' u Q E; cbn [gather] in E.
  { injection E as <- <- <- _. split_and!; auto. }
  destruct (conns w !! c') as [cn|].
  2:{ destruct (IH _ _ _ _ _ _ Q E) as (A & B & C & D). split_and!; [exact A | intros x H; right; apply B, H | | ]; cbn [List.filter snd]; destruct (c' =? c)%nat; cbn [length]; lia. }
  assert (K : exists ps1, Forall (fun x => x.2 = pkt) ps1 /\ (let! (l, packets, front, h) := gather l pkt ps1 (c' :: front) tt w in
    Ret ((f, c') :: l, packets, front, h)) = Ret (l', ps', front', u)).
  { destruct (find_packet (sched cn) ps); [exists ps; auto|]. exists (ps ++ [(sched cn, pkt)]). split; [apply Forall_app; split; [exact Q | constructor; [reflexivity | constructor]]|].
    destruct ps; cbn [share_block copy_block own_blocks obind] in E; destruct pkt; exact E. }
  destruct K as (ps1 & Q1 & E1). destruct (gather l pkt ps1 (c' :: front) tt w) as [[[[l1 ps2] f2] u2]|] eqn:Eg; [|discriminate]. cbn [obind] in E1. injection E1 as <- <- <- _.
  destruct (IH _ _ _ _ _ _ Q1 Eg) as (A & B & C & D). split_and!; [exact A | intros x [<-|H]; [left; reflexivity | right; apply B, H] | | ].
  - cbn [List.filter snd]. destruct (c' =? c)%nat; cbn [length]; lia.
  - cbn [List.filter snd] in *. destruct (Nat.eqb_spec c c') as [<-|N].
    + rewrite Nat.eqb_refl. cbn [length] in *. lia.
    + rewrite (proj2 (Nat.eqb_neq c' c)) by congruence. lia.
Qed.

Lemma callback_inv ch' pkt p prod s b s' : send_callback ch' pkt s = Ret (b, s') -> pkt_ok pkt p -> good_stream prod s.2 ->
  good_stream (prod ++ adds c ch' p) s'.2.
Proof.
  unfold send_callback. intros E Po I. destruct (interfere s) as [[[] w1]|] eqn:I1; [|discriminate]. apply (interfere_inv prod) in I1; [|exact I]. cbn [obind fst snd] in *.
  destruct (gather (clients w1) pkt [] [] tt w1) as [[[[l ps] front] []]|] eqn:Eg; [|discriminate]. cbn [obind] in E.
  destruct (gather_own _ _ _ _ _ _ _ _ _ (Forall_nil_2 _) Eg) as (A & B & C & D). cbn [List.filter length] in D. destruct I1 as [I1 [C1 C2]].
  destruct (send_all front ps ch' 0 _) as [[n s2]|] eqn:Es; [|discriminate]. cbn [obind] in E. injection E as _ <-.
  apply (send_all_inv ch' ps p front) with (prod := prod) in Es.
  - destruct (existsb (Nat.eqb c) front); [exact Es | rewrite app_nil_r in Es; apply good_more, Es].
  - intros k q F%find_packet_in. rewrite Forall_forall in A. specialize (A (k, q) (proj2 (list_elem_of_In _ _) F)). cbn in A. rewrite A. exact Po.
  - lia.
  - split; cbn [snd].
    + eapply inv_frame; [exact I1 | reflexivity | reflexivity|]. intros x Ex. exists x. auto.
    + eapply client_once_less; [split; [exact C1 | exact C2] | reflexivity | exact B | exact C].
Qed.

Lemma own_packet_ok t ty p : payload_ok p -> pkt_ok (own_packet t ty p) p.1.
Proof.
  intros [_ L] c' ch'. unfold MAX_RTP_PAYLOAD_SIZE in L. split.
  - split; [apply filled_length; [apply repeat_length | lia] | cbn; lia].
  - unfold pay. cbn [ev_pkt data pkt_size own_packet]. unfold filled. set (z := repeat 0 BLOCK_SIZE).
    assert (Lz : length (take 16 z) = 16%nat) by reflexivity.
    replace (Z.to_nat (16 + lenZ p.1)) with (length (take 16 z ++ p.1)) by (rewrite length_app, Lz; lia).
    rewrite app_assoc, take_app_length, drop_app_length' by (rewrite Lz; reflexivity). reflexivity.
Qed.

(** The payloads of [ch'] that belong to the channel. *)
Definition on_channel (ch' : nat) (l : list (list Z)) : list (list Z) := if (ch' =? ch)%nat then l else [].

Lemma adds_on_channel ch' p : adds c ch' p = on_channel ch' [p].
Proof. unfold adds. rewrite Nat.eqb_refl. reflexivity. Qed.

Lemma on_channel_app ch' l l' : on_channel ch' (l ++ l') = on_channel ch' l ++ on_channel ch' l'.
Proof. unfold on_channel. destruct (_ =? _)%nat; reflexivity. Qed.

Lemma payloads_inv ch' t ty ps : Forall payload_ok ps -> forall prod s b s', send_payloads ch' t ty ps s = Ret (b, s') ->
  good_stream prod s.2 -> good_stream (prod ++ on_channel ch' (map fst ps)) s'.2.
Proof.
  induction 1 as [|p ps Po _ IH]; intros prod s b s' E I; cbn [send_payloads] in E; [injection E as _ <-; apply good_more, I|].
  destruct (send_callback ch' (own_packet t ty p) s) as [[ok s1]|] eqn:Ec; [|discriminate]. cbn [obind] in E.
  apply (callback_inv ch' _ p.1 prod) in Ec; [|apply own_packet_ok, Po | exact I]. rewrite adds_on_channel in Ec.
  change (map fst (p :: ps)) with ([p.1] ++ map fst ps). rewrite on_channel_app, app_assoc.
  destruct ok; [eapply IH; eassumption | injection E as _ <-; apply good_more, Ec].
Qed.
End stream.

(** ** A run *)

(** A call of [handleFrame]: the two readings of the clock, the channel, the frame. *)
Record push := mkPush { p_us : Z; p_us' : Z; p_ch : nat; p_frame : AVFrame }.

Fixpoint push_frames {H D : Type} (handle : Z -> Z -> nat -> AVFrame -> H * session D -> outcome (bool * (H * session D)))
    (ps : list push) (s : H * session D) : outcome (list bool * (H * session D)) :=
  match ps with
  | [] => Ret ([], s)
  | p :: ps =>
      let! (b, s) := handle (p_us p) (p_us' p) (p_ch p) (p_frame p) s in
      let! (bs, s) := push_frames handle ps s in Ret (b :: bs, s)
  end.

Definition is_video (src : source) : bool := match src with H264 | H265 => true | _ => false end.

(** The payloads a source makes of a unit. *)
Definition unit_payloads (src : source) (nal : list Z) : list marked :=
  match src with
  | H264 => h264_payloads nal
  | H265 => h265_payloads nal
  | AAC hasADTS => if MAX_RTP_PAYLOAD_SIZE - AU_SIZE <? lenZ nal then [] else [(au_payload (drop (adts hasADTS) nal), 1)]
  | PCMA => if MAX_RTP_PAYLOAD_SIZE <? lenZ nal then [] else [(nal, 1)]
  end.

(** The key frame the session holds after a frame. *)
Definition next_key (src : source) (frame : AVFrame) (key : list Z) : list Z :=
  if is_video src && (type frame =? VIDEO_FRAME_I) then bytes_of frame else key.

(** The payloads of channel [ch] the frames give: those of each frame, which the
    last key frame may follow once more. *)
Inductive shown (sources : list (option source)) (ch : nat) : list Z -> list push -> list (list Z) -> Prop :=
| shown_nil key : shown sources ch key [] []
| shown_none key p ps out : sources !! p_ch p = Some None -> shown sources ch key ps out -> shown sources ch key (p :: ps) out
| shown_push key p ps src out : sources !! p_ch p = Some (Some src) -> shown sources ch (next_key src (p_frame p) key) ps out ->
    shown sources ch key (p :: ps) (on_channel ch (p_ch p) (map fst (unit_payloads src (bytes_of (p_frame p)))) ++ out)
| shown_replay key p ps src out : sources !! p_ch p = Some (Some src) -> is_video src = true ->
    shown sources ch (next_key src (p_frame p) key) ps out ->
    shown sources ch key (p :: ps) (on_channel ch (p_ch p) (map fst (unit_payloads src (bytes_of (p_frame p)))) ++
      on_channel ch (p_ch p) (map fst (unit_payloads src (next_key src (p_frame p) key))) ++ out).

Section run.
Context (c ch : nat) (s0 ssrc0 : Z).
Hypothesis ssrc0_range : is_u32 ssrc0.
Implicit Types (s : unit * session (list Z)).

Lemma source_inv src us ch' frame prod s b s' : send_frame_spec src us ch' frame s = Ret (b, s') -> usable src frame ->
  good_stream c ch s0 ssrc0 prod s.2 -> good_stream c ch s0 ssrc0 (prod ++ on_channel ch ch' (map fst (unit_payloads src (bytes_of frame)))) s'.2.
Proof.
  intros E [F A] I. pose proof (bytes_of_bytes frame F) as B. pose proof (bytes_of_length frame F) as L.
  unfold send_frame_spec in E. destruct src as [| |a|]; cbn [unit_payloads].
  - eapply payloads_inv; [exact ssrc0_range | apply h264_payloads_ok, B | exact E | exact I].
  - eapply payloads_inv; [exact ssrc0_range | apply h265_payloads_ok, B | exact E | exact I].
  - rewrite L. destruct (Z.ltb_spec (MAX_RTP_PAYLOAD_SIZE - AU_SIZE) (size frame)) as [K|K]; [injection E as _ <-; apply good_more, I|].
    destruct (send_callback ch' _ s) as [[ok s1]|] eqn:Ec; [|discriminate]. injection E as _ <-. cbn [map fst]. rewrite <- (adds_on_channel c).
    eapply callback_inv; [exact ssrc0_range | exact Ec | | exact I].
    apply (own_packet_ok _ _ (au_payload (drop (adts a) (bytes_of frame)), 1)), au_payload_ok; [apply Forall_drop, B | rewrite length_drop; lia].
  - rewrite L. destruct (Z.ltb_spec MAX_RTP_PAYLOAD_SIZE (size frame)) as [K|K]; [injection E as _ <-; apply good_more, I|].
    destruct (send_callback ch' _ s) as [[ok s1]|] eqn:Ec; [|discriminate]. injection E as _ <-. cbn [map fst]. rewrite <- (adds_on_channel c).
    eapply callback_inv; [exact ssrc0_range | exact Ec | | exact I].
    apply (own_packet_ok _ _ (bytes_of frame, 1)). split; [exact B | cbn [fst]; lia].
Qed.

(** The session's own fields do not matter to the stream. *)
Lemma good_fields prod w w' : good_stream c ch s0 ssrc0 prod w -> scheds w' = scheds w -> sent w' = sent w -> conns w' = conns w -> clients w' = clients w ->
  good_stream c ch s0 ssrc0 prod w'.
Proof.
  intros [I C] E1 E2 E3 E4. split.
  - eapply inv_frame; [exact I | exact E1 | exact E2|]. intros x Ex. rewrite E3 in Ex. exists x. split_and!; [exact Ex | reflexivity | left; split_and!; reflexivity].
  - eapply client_once_kept; [exact C | exact E4 | rewrite E3; apply kept_refl].
Qed.

(** One call: its payloads, and those of the key frame where it is replayed. *)
Lemma handleFrame_inv us us' ch' frame prod s b s' src : handleFrame_spec us us' ch' frame s = Ret (b, s') ->
  mediaSources s.2 !! ch' = Some (Some src) -> usable src frame -> frame_ok (gopCache s.2) -> good_stream c ch s0 ssrc0 prod s.2 ->
  let key := next_key src frame (bytes_of (gopCache s.2)) in
  (exists replay, (replay = [] \/ is_video src = true /\ session_isMulticast s.2 = false /\ replay = on_channel ch ch' (map fst (unit_payloads src key))) /\
    good_stream c ch s0 ssrc0 (prod ++ on_channel ch ch' (map fst (unit_payloads src (bytes_of frame))) ++ replay) s'.2) /\
  mediaSources s'.2 = mediaSources s.2 /\ session_isMulticast s'.2 = session_isMulticast s.2 /\ frame_ok (gopCache s'.2) /\
  (session_isMulticast s.2 = false -> bytes_of (gopCache s'.2) = key).
Proof.
  unfold handleFrame_spec, session_handleFrame. intros E Es U G I. set (key := next_key src frame (bytes_of (gopCache s.2))). rewrite Es in E.
  destruct (send_frame_spec src us ch' frame s) as [[ok s1]|] eqn:E1; [|discriminate]. cbn [obind] in E.
  pose proof (source_static _ _ _ _ _ _ _ E1) as St. destruct (static_fields _ _ St) as (M1 & U1 & G1).
  apply (source_inv src us ch' frame prod) in E1; [|exact U | exact I].
  change (match src with H264 | H265 => true | _ => false end) with (is_video src) in E.
  destruct (negb (session_isMulticast s1.2) && is_video src) eqn:Ev.
  2:{ injection E as _ <-. split_and!; [exists []; rewrite app_nil_r; auto | exact M1 | exact U1 | rewrite G1; exact G|].
      intros Hm. rewrite G1. unfold key, next_key. rewrite U1, Hm in Ev. cbn [negb andb] in Ev. rewrite Ev. reflexivity. }
  apply andb_prop in Ev as [Em%negb_true_iff Ev]. rewrite U1 in Em. set (s2 := if type frame =? VIDEO_FRAME_I then _ else s1) in E.
  assert (K : good_stream c ch s0 ssrc0 (prod ++ on_channel ch ch' (map fst (unit_payloads src (bytes_of frame)))) s2.2 /\ bytes_of (gopCache s2.2) = key /\
    frame_ok (gopCache s2.2) /\ mediaSources s2.2 = mediaSources s.2 /\ session_isMulticast s2.2 = session_isMulticast s.2).
  { unfold s2, key, next_key. rewrite Ev. cbn [andb]. destruct (type frame =? VIDEO_FRAME_I).
    - split_and!; [eapply good_fields; [exact E1 | | | |]; reflexivity | reflexivity | apply (frame_ok_fields frame); [reflexivity | reflexivity | apply U] | exact M1 | exact U1].
    - rewrite G1. split_and!; [exact E1 | reflexivity | exact G | exact M1 | exact U1]. }
  destruct K as (I2 & K2 & F2 & M2 & U2). clearbody s2. destruct (hasNewClient s2.2 && _).
  2:{ injection E as _ <-. split_and!; [exists []; rewrite app_nil_r; auto | exact M2 | exact U2 | exact F2 | intros _; exact K2]. }
  set (g := mkFrame _ _ _ _) in E. assert (Gg : frame_ok g) by (apply (frame_ok_fields (gopCache s2.2)); [reflexivity | reflexivity | exact F2]).
  destruct (send_frame_spec src us' ch' g _) as [[ok' s3]|] eqn:E3; [|discriminate]. cbn [obind] in E. injection E as _ <-.
  pose proof (source_static _ _ _ _ _ _ _ E3) as St3. destruct (static_fields _ _ St3) as (M3 & U3 & G3). cbn in M3, U3, G3.
  apply (source_inv src us' ch' g (prod ++ on_channel ch ch' (map fst (unit_payloads src (bytes_of frame))))) in E3.
  - split_and!; [|cbn; congruence | cbn; congruence | cbn; rewrite G3; exact Gg | intros _; cbn; rewrite G3; exact K2].
    exists (on_channel ch ch' (map fst (unit_payloads src key))). split; [right; auto|]. rewrite app_assoc.
    replace key with (bytes_of g) by exact K2. eapply good_fields; [exact E3 | | | |]; reflexivity.
  - split; [exact Gg | destruct src; try exact Logic.I; discriminate Ev].
  - eapply good_fields; [exact I2 | | | |]; reflexivity.
Qed.

Definition usable_push (sources : list (option source)) (p : push) : Prop :=
  exists o, sources !! p_ch p = Some o /\ forall src, o = Some src -> usable src (p_frame p).

Lemma push_inv ps : forall prod s bs s', push_frames handleFrame_spec ps s = Ret (bs, s') -> Forall (usable_push (mediaSources s.2)) ps ->
  frame_ok (gopCache s.2) -> good_stream c ch s0 ssrc0 prod s.2 -> forall key, (session_isMulticast s.2 = false -> key = bytes_of (gopCache s.2)) ->
  exists out, shown (mediaSources s.2) ch key ps out /\ good_stream c ch s0 ssrc0 (prod ++ out) s'.2.
Proof.
  induction ps as [|p ps IH]; intros prod s bs s' E U G I key Hk; cbn [push_frames] in E.
  { injection E as _ <-. exists []. rewrite app_nil_r. split; [constructor | exact I]. }
  apply Forall_cons in U as [(o & Eo & Uo) U]. destruct (handleFrame_spec _ _ _ _ s) as [[b s1]|] eqn:E1; [|discriminate]. cbn [obind] in E.
  destruct (push_frames handleFrame_spec ps s1) as [[bs1 s2]|] eqn:E2; [|discriminate]. injection E as _ <-.
  destruct o as [src|].
  - destruct (handleFrame_inv _ _ _ _ prod _ _ _ src E1 Eo (Uo src eq_refl) G I) as ((replay & R & I1) & M1 & U1 & G1 & K1).
    destruct (IH _ _ _ _ E2 ltac:(rewrite M1; exact U) G1 I1 (next_key src (p_frame p) key)) as (out & Sh & I2).
    { rewrite U1. intros Hm. rewrite K1, (Hk Hm) by exact Hm. reflexivity. }
    rewrite M1 in Sh. destruct R as [->|(Vi & Mu & ->)].
    + exists (on_channel ch (p_ch p) (map fst (unit_payloads src (bytes_of (p_frame p)))) ++ out). split; [eapply shown_push; eassumption|].
      rewrite app_nil_r in I2. rewrite app_assoc. exact I2.
    + eexists. split; [eapply shown_replay; eassumption|]. rewrite <- (Hk Mu) in I2. rewrite <- !app_assoc in I2. exact I2.
  - unfold handleFrame_spec, session_handleFrame in E1. rewrite Eo in E1. injection E1 as <- <-.
    destruct (IH _ _ _ _ E2 U G I key Hk) as (out & Sh & I2). exists out. split; [apply shown_none; assumption | exact I2].
Qed.
End run.
