(* ===== verification/RtpLive.v ===== *)
(** * The session does not crash while its connections live (rtsp/MediaSession.cpp, rtsp/RtpConnection.cpp)

    An event holds a bare pointer to its connection.  As long as no RTSP connection
    is destroyed every use of a connection, channel, scheduler or block is in
    bounds, under every schedule. *)

From stdpp Require Import gmap.
From S2P Require Import Prelude RtpFrame RtpConn RtpShare RtpStream.

Local Open Scope Z_scope.

(** An action that destroys no connection and names a channel of the session. *)
Definition op_tame (op : conn_op) : Prop :=
  match op with
  | OpClockRate ch _ | OpPayloadType ch _ | OpSetupTcp ch _ _ | OpSetupUdp _ _ ch _ _ => (ch < MAX_MEDIA_CHANNEL)%nat
  | _ => True
  end.
Definition tame (a : action) : Prop :=
  match a with Destroy _ => False | Request _ op => op_tame op | _ => True end.

Section live.
Implicit Types (w : session (list Z)) (s : unit * session (list Z)) (e : event (list Z)).

Definition conns_ok w : Prop :=
  forall c cn, conns w !! c = Some cn -> length (mediaChannelInfo cn) = MAX_MEDIA_CHANNEL /\ (sched cn < length (scheds w))%nat.

Definition event_ok w e : Prop := is_Some (conns w !! ev_conn e) /\ (ev_ch e < MAX_MEDIA_CHANNEL)%nat /\ block_ok e.

Definition queues_ok w : Prop := forall k sc e, scheds w !! k = Some sc -> In e (triggerEvents sc) \/ running sc = Some e -> event_ok w e.

Definition sound w : Prop := conns_ok w /\ queues_ok w /\ Forall (Forall tame) (schedule w).

(** The connections that were there are there. *)
Definition all_live (w w' : session (list Z)) : Prop := forall c, is_Some (conns w !! c) -> is_Some (conns w' !! c).

(** A step returns, and nothing it needs is lost. *)
Definition safe_step (m : outcome (unit * session (list Z))) w : Prop := exists w', m = Ret (tt, w') /\ sound w' /\ all_live w w'.

Lemma channel_total w c cn ch : conns_ok w -> conns w !! c = Some cn -> (ch < MAX_MEDIA_CHANNEL)%nat -> exists i, channel cn ch = Ret i.
Proof.
  intros C G H. destruct (C c cn G) as [L _]. unfold channel. destruct (lookup_lt_is_Some_2 (mediaChannelInfo cn) ch) as [i ->]; [lia | eauto].
Qed.

Lemma the_conn_total w c : is_Some (conns w !! c) -> exists cn, the_conn w c = Ret cn /\ conns w !! c = Some cn.
Proof. intros [cn E]. exists cn. unfold the_conn. rewrite E. auto. Qed.

(** A step that replaces one scheduler and one connection. *)
Lemma sound_update w w' k sc sd c cn cn' : sound w -> scheds w !! k = Some sc -> scheds w' = <[k := sd]> (scheds w) -> conns w !! c = Some cn ->
  conns w' = <[c := cn']> (conns w) -> schedule w' = schedule w -> length (mediaChannelInfo cn') = length (mediaChannelInfo cn) -> sched cn' = sched cn ->
  (forall e, In e (triggerEvents sd) \/ running sd = Some e -> block_ok e /\ exists e0, (In e0 (triggerEvents sc) \/ running sc = Some e0) /\ ev_conn e = ev_conn e0 /\ ev_ch e = ev_ch e0) ->
  sound w' /\ all_live w w'.
Proof.
  intros (C & Q & T) A Es G Ec Et Hl Hs K. assert (L : all_live w w').
  { intros x [y Ey]. rewrite Ec. destruct (decide (x = c)) as [->|N]; [rewrite lookup_insert_eq; eauto | rewrite lookup_insert_ne by congruence; eauto]. }
  split; [|exact L]. split_and!; [| | rewrite Et; exact T].
  - intros x y Ey. rewrite Ec in Ey. rewrite Es, length_insert. apply lookup_insert_Some in Ey as [[<- <-]|[N Ey]]; [rewrite Hl, Hs; apply (C c cn G) | apply (C x y Ey)].
  - intros k' sc' e A' I. rewrite Es, (lookup_sched k k' sc w A sd) in A'. destruct (decide (k' = k)) as [->|N].
    + injection A' as <-. destruct (K e I) as (B & e0 & I0 & E1 & E2). destruct (Q k sc e0 A I0) as (L0 & H0 & _).
      split_and!; [rewrite E1; apply L, L0 | rewrite E2; exact H0 | exact B].
    + destruct (Q k' sc' e A' I) as (L0 & H0 & B). split_and!; [apply L, L0 | exact H0 | exact B].
Qed.

Lemma all_live_refl w : all_live w w.
Proof. intros x H. exact H. Qed.

Lemma begin_safe k w : sound w -> safe_step (begin_event k (tt, w)) w.
Proof.
  intros S. pose proof S as (C & Q & T). unfold safe_step, begin_event. assert (Stay : exists w', Ret (tt, w) = Ret (tt, w') /\ sound w' /\ all_live w w') by (exists w; auto using all_live_refl).
  destruct (scheds w !! k) as [[[|e q] [r|]]|] eqn:A; try exact Stay. clear Stay.
  assert (I : In e (triggerEvents (mkSched (e :: q) None)) \/ running (mkSched (e :: q) None) = Some e) by (left; left; reflexivity).
  destruct (Q k _ e A I) as (L & H & B). destruct (the_conn_total w _ L) as (cn & -> & G). cbn [obind].
  set (cn' := setFrameType _ cn). destruct (channel_total w _ cn _ C G H) as [i Ei].
  assert (Ei' : channel cn' (ev_ch e) = Ret i) by (unfold cn'; rewrite channel_setFrameType; exact Ei).
  rewrite (setRtpHeader_own _ _ _ i Ei' (proj1 B)).
  assert (Hs : sched cn' = sched cn /\ mediaChannelInfo cn' = mediaChannelInfo cn) by (unfold cn', setFrameType; destruct (_ && _); auto). destruct Hs as [Hs Hi].
  pose (hd := (rtpHeader i) <| marker := last (ev_pkt e) mod 2 |> <| ts := htonl (pkt_timestamp (ev_pkt e)) |> <| seq := htons (packetSeq i) |>).
  destruct (sendable cn' i); cbn [obind]; (eexists; split; [reflexivity|]); (eapply sound_update; [exact S | exact A | reflexivity | exact G | reflexivity | reflexivity | | |]).
  1: cbn; rewrite length_insert, Hi; reflexivity.
  1: exact Hs.
  2: rewrite Hi; reflexivity.
  2: exact Hs.
  all: cbn [triggerEvents running]; intros x [Ix|Ix]; [split; [apply (Q k _ x A); left; right; exact Ix | exists x; split; [left; right; exact Ix | auto]] | injection Ix as <-; split; [|exists e; auto]].
  - exact (proj1 (reheader (ev_pkt e) (header_bytes hd) (proj1 B) eq_refl (proj2 B) (ev_conn e) (ev_ch e))).
  - exact B.
Qed.

Lemma finish_safe k ret w : sound w -> safe_step (finish_event k ret (tt, w)) w.
Proof.
  intros S. pose proof S as (C & Q & T). unfold safe_step, finish_event. assert (Stay : exists w', Ret (tt, w) = Ret (tt, w') /\ sound w' /\ all_live w w') by (exists w; auto using all_live_refl).
  destruct (scheds w !! k) as [[q [e|]]|] eqn:A; try exact Stay. clear Stay.
  destruct (Q k _ e A (or_intror eq_refl)) as (L & H & [Lb Sz]). destruct (the_conn_total w _ L) as (cn & -> & G). cbn [obind].
  destruct (channel_total w _ cn _ C G H) as [i ->]. cbn [obind]. unfold BLOCK_SIZE in Lb.
  assert (Up : forall w' cn', scheds w' = <[k := mkSched q None]> (scheds w) -> conns w' = <[ev_conn e := cn']> (conns w) -> schedule w' = schedule w ->
    length (mediaChannelInfo cn') = length (mediaChannelInfo cn) -> sched cn' = sched cn -> sound w' /\ all_live w w').
  { intros w' cn' E1 E2 E3 E4 E5. eapply sound_update; [exact S | exact A | exact E1 | exact G | exact E2 | exact E3 | exact E4 | exact E5|].
    cbn [triggerEvents running]. intros x [Ix|Ix]; [|discriminate]. split; [apply (Q k _ x A); left; exact Ix | exists x; auto]. }
  assert (Same : forall w' : session (list Z), conns w' = conns w -> conns w' = <[ev_conn e := cn]> (conns w)) by (intros w' ->; symmetry; apply insert_id, G).
  destruct (sendable cn i); [|eexists; split; [reflexivity|]; eapply Up; try reflexivity; apply Same; reflexivity].
  destruct (transportMode cn).
  - unfold sendRtpOverTcp. cbn [store_block own_blocks]. rewrite stores_split by (cbn [length]; lia). cbn [obind read_block own_blocks]. unfold slice.
    rewrite (proj2 (Z.leb_le _ _)) by (rewrite !length_app, length_map, length_take, length_drop; cbn [length]; lia). cbn [obind].
    eexists. split; [reflexivity|]. eapply Up; try reflexivity. apply Same. reflexivity.
  - unfold sendRtpOverUdp. cbn [read_block own_blocks]. unfold slice. rewrite (proj2 (Z.leb_le _ _)) by lia. cbn [obind]. eexists. split; [reflexivity|].
    eapply Up; try reflexivity; destruct (ret <? 0); try reflexivity; unfold teardown; destruct (isClosed cn); try reflexivity. cbn. apply length_map.
  - unfold sendRtpOverUdp. cbn [read_block own_blocks]. unfold slice. rewrite (proj2 (Z.leb_le _ _)) by lia. cbn [obind]. eexists. split; [reflexivity|].
    eapply Up; try reflexivity; destruct (ret <? 0); try reflexivity; unfold teardown; destruct (isClosed cn); try reflexivity. cbn. apply length_map.
Qed.

(** A step that leaves the schedulers alone. *)
Lemma sound_frame w w' : sound w -> scheds w' = scheds w -> Forall (Forall tame) (schedule w') -> all_live w w' ->
  (forall c cn', conns w' !! c = Some cn' -> exists cn, conns w !! c = Some cn /\ length (mediaChannelInfo cn') = length (mediaChannelInfo cn) /\ sched cn' = sched cn) -> sound w'.
Proof.
  intros (C & Q & T) E Et L K. split_and!; [| | exact Et].
  - intros c cn' G. destruct (K c cn' G) as (cn & G' & -> & ->). rewrite E. apply (C c cn G').
  - intros k sc e A I. rewrite E in A. destruct (Q k sc e A I) as (L0 & H & B). split_and!; [apply L, L0 | exact H | exact B].
Qed.

Lemma sound_same w w' : sound w -> scheds w' = scheds w -> schedule w' = schedule w -> conns w' = conns w -> sound w' /\ all_live w w'.
Proof.
  intros S E1 E2 E3. assert (L : all_live w w') by (intros x H; rewrite E3; exact H). split; [|exact L].
  eapply sound_frame; [exact S | exact E1 | rewrite E2; apply S | exact L | intros c cn; rewrite E3; intros G; exists cn; auto].
Qed.

Lemma apply_op_total op cn : op_tame op -> length (mediaChannelInfo cn) = MAX_MEDIA_CHANNEL ->
  exists cn', apply_op op cn = Ret cn' /\ length (mediaChannelInfo cn') = length (mediaChannelInfo cn).
Proof.
  assert (Ch : forall c ch, length (mediaChannelInfo c) = MAX_MEDIA_CHANNEL -> (ch < MAX_MEDIA_CHANNEL)%nat -> exists i, channel c ch = Ret i).
  { intros c ch L H. unfold channel. destruct (lookup_lt_is_Some_2 (mediaChannelInfo c) ch) as [i ->]; [lia | eauto]. }
  intros T L. destruct op as [ch r|ch p|ch a b|peer tries ch a b| | |]; cbn [apply_op op_tame] in *; unfold setClockRate, setPayloadType, setupRtpOverTcp, setupRtpOverUdp.
  1,2,3: destruct (Ch cn ch L T) as [i ->]; cbn [obind]; (eexists; split; [reflexivity | cbn; apply length_insert]).
  - destruct (peer <? 0); [eexists; split; reflexivity|]. destruct (Ch cn ch L T) as [i ->]. cbn [obind]. set (c1 := set_channel _ _ _).
    assert (L1 : length (mediaChannelInfo c1) = length (mediaChannelInfo cn)) by (cbn; apply length_insert).
    pose proof (bind_ports_infos (take 10 tries) ch c1) as B. destruct (bind_ports (take 10 tries) ch c1) as [ok c2]. cbn [snd] in B.
    destruct ok; cbn [negb]; [|eexists; split; [reflexivity | rewrite B; exact L1]].
    destruct (Ch c2 ch) as [j ->]; [rewrite B, L1; exact L | exact T|]. cbn [obind]. eexists. split; [reflexivity|]. cbn. rewrite length_insert, B. exact L1.
  - eexists. split; [reflexivity|]. cbn. apply length_map.
  - eexists. split; [reflexivity|]. cbn. apply length_map.
  - eexists. split; [reflexivity|]. unfold teardown. destruct (isClosed cn); [reflexivity|]. cbn. apply length_map.
Qed.

Lemma act_safe a w : tame a -> sound w -> safe_step (act a (tt, w)) w.
Proof.
  intros Ta S. assert (Stay : safe_step (Ret (tt, w)) w) by (exists w; auto using all_live_refl).
  destruct a as [k|k ret|c op|c|sfd|c]; cbn [act tame] in *; [apply begin_safe, S | apply finish_safe, S | | | | contradiction].
  - unfold on_thread. destruct (conns w !! c) as [cn|] eqn:G; [|exact Stay]. destruct (idle w (sched cn)); [|exact Stay].
    destruct (apply_op_total op cn Ta (proj1 (proj1 S c cn G))) as (cn' & E & L). rewrite E. cbn [obind]. eexists. split; [reflexivity|].
    assert (Lv : all_live w (set_conn w c cn')).
    { intros x [y Ey]. cbn. destruct (decide (x = c)) as [->|N]; [rewrite lookup_insert_eq; eauto | rewrite lookup_insert_ne by congruence; eauto]. }
    split; [|exact Lv]. eapply sound_frame; [exact S | reflexivity | apply S | exact Lv|]. intros x y Ey. cbn in Ey.
    apply lookup_insert_Some in Ey as [[<- <-]|[N Ey]]; [|exists y; auto]. exists cn. split_and!; [exact G | exact L | exact (f_equal (fun x => x.1.1) (identity_apply_op _ _ _ E))].
  - unfold on_thread. destruct (conns w !! c) as [cn|] eqn:G; [|exact Stay]. destruct (idle w (sched cn)); [|exact Stay]. cbn [obind]. eexists. split; [reflexivity|].
    unfold addClient. destruct (is_client _ _); apply sound_same; try reflexivity; exact S.
  - eexists. split; [reflexivity|]. unfold removeClient. cbn [snd]. destruct (is_client _ _); apply sound_same; try reflexivity; exact S.
Qed.

Lemma all_live_trans w1 w2 w3 : all_live w1 w2 -> all_live w2 w3 -> all_live w1 w3.
Proof. intros A B c H. apply B, A, H. Qed.

Lemma acts_safe l : Forall tame l -> forall w, sound w -> safe_step (acts l (tt, w)) w.
Proof.
  induction 1 as [|a l Ta _ IH]; intros w S; cbn [acts]; [exists w; auto using all_live_refl|].
  destruct (act_safe a w Ta S) as (w1 & -> & S1 & L1). cbn [obind]. destruct (IH w1 S1) as (w2 & -> & S2 & L2). exists w2. eauto using all_live_trans.
Qed.

Lemma interfere_safe w : sound w -> safe_step (interfere (tt, w)) w.
Proof.
  intros S. unfold interfere. cbn [fst snd]. destruct (schedule w) as [|l r] eqn:E; [exists w; auto using all_live_refl|].
  pose proof S as (_ & _ & T). rewrite E in T. apply Forall_cons in T as [Tl Tr].
  assert (S1 : sound (w <| schedule := r |>)) by (eapply sound_frame; [exact S | reflexivity | exact Tr | intros x Hx; exact Hx | intros c cn G; exists cn; auto]).
  destruct (acts_safe l Tl _ S1) as (w' & E' & S' & L'). exists w'. auto.
Qed.

(** The gathered packets are the packet and the gathered clients live. *)
Lemma gather_safe pkt w l : forall ps front, Forall (fun x => x.2 = pkt) ps -> Forall (fun c => is_Some (conns w !! c)) front ->
  exists l' ps' front', gather l pkt ps front tt w = Ret (l', ps', front', tt) /\ Forall (fun x => x.2 = pkt) ps' /\ Forall (fun c => is_Some (conns w !! c)) front'.
Proof.
  induction l as [|[f c] l IH]; intros ps front Q F; cbn [gather]; [eauto 8|]. destruct (conns w !! c) as [cn|] eqn:G; [|apply IH; assumption].
  assert (F' : Forall (fun c => is_Some (conns w !! c)) (c :: front)) by (constructor; [rewrite G; eauto | exact F]).
  destruct (find_packet (sched cn) ps).
  - cbn [obind]. destruct (IH ps (c :: front) Q F') as (l' & ps' & f' & -> & Q' & F''). cbn [obind]. eauto 8.
  - assert (Q1 : Forall (fun x => x.2 = pkt) (ps ++ [(sched cn, pkt)])) by (apply Forall_app; split; [exact Q | constructor; [reflexivity | constructor]]).
    destruct (IH _ (c :: front) Q1 F') as (l' & ps' & f' & E & Q' & F''). exists ((f, c) :: l'), ps', f'. split; [|auto].
    destruct ps; cbn [share_block copy_block own_blocks obind app] in *; destruct pkt as [d1 d2 d3 d4 d5]; cbn [data pkt_size pkt_timestamp pkt_type last app] in *; rewrite E; reflexivity.
Qed.

Lemma sendRtpPacket_safe c ch pkt gop w : sound w -> is_Some (conns w !! c) -> (ch < MAX_MEDIA_CHANNEL)%nat -> (forall c' ch', block_ok (mkEvent c' ch' pkt)) ->
  exists r w', sendRtpPacket c ch pkt gop w = Ret (r, w') /\ sound w' /\ all_live w w'.
Proof.
  intros S L H B. unfold sendRtpPacket. destruct (the_conn_total w c L) as (cn & -> & G). cbn [obind].
  destruct (isClosed cn); [eauto using all_live_refl|]. destruct (gop && _); [eauto using all_live_refl|]. set (w1 := if gop && _ then _ else w).
  assert (K : sound w1 /\ all_live w w1 /\ scheds w1 = scheds w /\ is_Some (conns w1 !! c)).
  { unfold w1. destruct (gop && _); [|auto using all_live_refl].
    assert (Lv : all_live w (set_conn w c (cn <| hasGOPFrame := true |>))).
    { intros x [y Ey]. cbn. destruct (decide (x = c)) as [->|N]; [rewrite lookup_insert_eq; eauto | rewrite lookup_insert_ne by congruence; eauto]. }
    split_and!; [|exact Lv | reflexivity | apply Lv, L]. eapply sound_frame; [exact S | reflexivity | apply S | exact Lv|].
    intros x y Ey. cbn in Ey. apply lookup_insert_Some in Ey as [[<- <-]|[N Ey]]; [exists cn; auto | exists y; auto]. }
  destruct K as (S1 & L1 & E1 & L0). unfold addTriggerEvent.
  destruct (lookup_lt_is_Some_2 (scheds w1) (sched cn)) as [sc A]; [rewrite E1; apply (proj1 S c cn G)|]. rewrite A.
  destruct (_ <? _); cbn [obind]; [|eauto]. do 2 eexists. split; [reflexivity|]. set (sd := mkSched _ _).
  assert (Lv : all_live w1 (set_sched w1 (sched cn) sd)) by (intros x Hx; exact Hx). split; [|eapply all_live_trans; [exact L1 | exact Lv]].
  destruct S1 as (C1 & Q1 & T1). split_and!; [intros x y Ey; cbn; rewrite length_insert; apply (C1 x y Ey) | | exact T1].
  intros k' sc' e A' I. cbn in A'. rewrite (lookup_sched (sched cn) k' sc w1 A sd) in A'. destruct (decide (k' = sched cn)) as [->|N]; [|apply (Q1 k' sc' e A' I)].
  injection A' as <-. cbn [triggerEvents running sd] in I. destruct I as [I|I]; [|apply (Q1 _ sc e A (or_intror I))].
  apply in_app_iff in I as [I|[<-|[]]]; [apply (Q1 _ sc e A (or_introl I))|]. split_and!; [exact L0 | exact H | apply B].
Qed.

Lemma send_all_safe ps pkt ch front : Forall (fun x => x.2 = pkt) ps -> (ch < MAX_MEDIA_CHANNEL)%nat -> (forall c' ch', block_ok (mkEvent c' ch' pkt)) ->
  forall count w, sound w -> Forall (fun c => is_Some (conns w !! c)) front ->
  exists n w', send_all front ps ch count (tt, w) = Ret (n, (tt, w')) /\ sound w' /\ all_live w w'.
Proof.
  intros Q H B. induction front as [|c front IH]; intros count w S F; cbn [send_all]; [eauto 8 using all_live_refl|]. apply Forall_cons in F as [Fc F].
  assert (Go : forall w1, all_live w w1 -> Forall (fun c => is_Some (conns w1 !! c)) front) by (intros w1 L1; eapply Forall_impl; [exact F | intros x; apply L1]).
  destruct (interfere_safe w S) as (w1 & -> & S1 & L1). cbn [obind fst snd]. destruct (the_conn_total w1 c (L1 c Fc)) as (cn & -> & G). cbn [obind].
  destruct (find_packet (sched cn) ps) as [q|] eqn:Eq.
  - assert (q = pkt) as -> by (apply find_packet_in in Eq; rewrite Forall_forall in Q; apply (Q (sched cn, q)), list_elem_of_In, Eq).
    destruct (gopCacheEnabled w1 && _); [destruct (IH count w1 S1 (Go w1 L1)) as (n & w' & -> & S' & L'); eauto 8 using all_live_trans|].
    destruct (interfere_safe w1 S1) as (w2 & -> & S2 & L2). cbn [obind fst snd].
    destruct (sendRtpPacket_safe c ch pkt (gopCacheEnabled w2) w2 S2 (L2 c (L1 c Fc)) H B) as (r & w3 & -> & S3 & L3). cbn [obind].
    assert (L03 : all_live w w3) by eauto using all_live_trans. destruct (_ && _); [eauto 8|].
    destruct (IH (count + 1) w3 S3 (Go w3 L03)) as (n & w' & -> & S' & L'). eauto 8 using all_live_trans.
  - destruct (IH count w1 S1 (Go w1 L1)) as (n & w' & -> & S' & L'). eauto 8 using all_live_trans.
Qed.

Lemma callback_safe ch pkt w : sound w -> (ch < MAX_MEDIA_CHANNEL)%nat -> (forall c' ch', block_ok (mkEvent c' ch' pkt)) ->
  exists b w', send_callback ch pkt (tt, w) = Ret (b, (tt, w')) /\ sound w'.
Proof.
  intros S H B. unfold send_callback. destruct (interfere_safe w S) as (w1 & -> & S1 & _). cbn [obind fst snd].
  destruct (gather_safe pkt w1 (clients w1) [] [] (Forall_nil_2 _) (Forall_nil_2 _)) as (l & ps & front & -> & Q & F). cbn [obind].
  match goal with |- context [send_all front ps ch 0 (tt, ?x)] => set (w2 := x) end.
  assert (S2 : sound w2) by (eapply sound_same; [exact S1 | | |]; reflexivity).
  destruct (send_all_safe ps pkt ch front Q H B 0 w2 S2 F) as (n & w' & -> & S3 & _). cbn [obind snd]. eauto.
Qed.

Lemma payloads_safe ch t ty ps : (ch < MAX_MEDIA_CHANNEL)%nat -> Forall payload_ok ps -> forall w, sound w ->
  exists b w', send_payloads ch t ty ps (tt, w) = Ret (b, (tt, w')) /\ sound w'.
Proof.
  intros H. induction 1 as [|p ps Po _ IH]; intros w S; cbn [send_payloads]; [eauto|].
  destruct (callback_safe ch (own_packet t ty p) w S H) as (ok & w1 & -> & S1); [intros; apply own_packet_ok, Po|]. cbn [obind]. destruct ok; [apply IH, S1 | eauto].
Qed.

Lemma source_safe src us ch frame w : sound w -> (ch < MAX_MEDIA_CHANNEL)%nat -> usable src frame ->
  exists b w', send_frame_spec src us ch frame (tt, w) = Ret (b, (tt, w')) /\ sound w'.
Proof.
  intros S H [F A]. pose proof (bytes_of_bytes frame F) as B. pose proof (bytes_of_length frame F) as L. unfold send_frame_spec. destruct src as [| |a|].
  - apply payloads_safe; [exact H | apply h264_payloads_ok, B | exact S].
  - apply payloads_safe; [exact H | apply h265_payloads_ok, B | exact S].
  - destruct (Z.ltb_spec (MAX_RTP_PAYLOAD_SIZE - AU_SIZE) (size frame)) as [K|K]; [eauto|].
    destruct (callback_safe ch (own_packet (timestamp frame) (type frame) (au_payload (drop (adts a) (bytes_of frame)), 1)) w S H) as (ok & w1 & -> & S1); [|cbn; eauto].
    intros c' ch'. apply (own_packet_ok _ _ (au_payload (drop (adts a) (bytes_of frame)), 1)), au_payload_ok; [apply Forall_drop, B | rewrite length_drop; lia].
  - destruct (Z.ltb_spec MAX_RTP_PAYLOAD_SIZE (size frame)) as [K|K]; [eauto|].
    destruct (callback_safe ch (own_packet (timestamp frame) (type frame) (bytes_of frame, 1)) w S H) as (ok & w1 & -> & S1); [|cbn; eauto].
    intros c' ch'. apply (own_packet_ok _ _ (bytes_of frame, 1)). split; [exact B | cbn [fst]; lia].
Qed.

Lemma handleFrame_safe us us' ch frame w o : sound w -> (ch < MAX_MEDIA_CHANNEL)%nat -> mediaSources w !! ch = Some o ->
  (forall src, o = Some src -> usable src frame) -> frame_ok (gopCache w) ->
  exists b w', handleFrame_spec us us' ch frame (tt, w) = Ret (b, (tt, w')) /\ sound w' /\ mediaSources w' = mediaSources w /\ frame_ok (gopCache w').
Proof.
  intros S H Eo U G. unfold handleFrame_spec, session_handleFrame. cbn [snd]. rewrite Eo. destruct o as [src|]; [|eauto 8]. specialize (U src eq_refl).
  destruct (source_safe src us ch frame w S H U) as (ok & w1 & E1 & S1). rewrite E1. cbn [obind fst snd].
  pose proof (source_static _ _ _ _ _ _ _ E1) as St. destruct (static_fields _ _ St) as (M1 & U1 & G1). cbn [snd] in *.
  destruct (_ && _) eqn:Ev; [|rewrite <- M1; do 2 eexists; split_and!; [reflexivity | exact S1 | reflexivity | rewrite G1; exact G]].
  assert (V : match src with AAC _ => False | _ => True end) by (destruct src; try exact I; destruct (session_isMulticast w1); discriminate Ev).
  set (s2 := if type frame =? VIDEO_FRAME_I then _ else _).
  assert (K : exists w2, s2 = (tt, w2) /\ sound w2 /\ mediaSources w2 = mediaSources w /\ frame_ok (gopCache w2)).
  { unfold s2. destruct (type frame =? VIDEO_FRAME_I); [|exists w1; rewrite G1; auto]. eexists. split_and!; [reflexivity | | exact M1 | apply (frame_ok_fields frame); [reflexivity | reflexivity | apply U]].
    eapply sound_same; [exact S1 | | |]; reflexivity. }
  destruct K as (w2 & E2 & S2 & M2 & G2). rewrite E2. cbn [fst snd]. destruct (hasNewClient w2 && _); [|eauto 8]. set (g := mkFrame _ _ _ _).
  assert (Gg : frame_ok g) by (apply (frame_ok_fields (gopCache w2)); [reflexivity | reflexivity | exact G2]). set (w3 := (_ <| gopCache := g |>)).
  assert (S3 : sound w3) by (eapply sound_same; [exact S2 | | |]; reflexivity).
  destruct (source_safe src us' ch g w3 S3 H) as (ok' & w4 & E4 & S4); [split; [exact Gg | destruct src; try exact I; contradiction]|].
  rewrite E4. cbn [obind fst snd]. pose proof (source_static _ _ _ _ _ _ _ E4) as St4. destruct (static_fields _ _ St4) as (M4 & _ & G4). cbn in M4, G4.
  do 2 eexists. split_and!; [reflexivity | eapply sound_same; [exact S4 | | |]; reflexivity | cbn; congruence | cbn; rewrite G4; exact Gg].
Qed.

Lemma push_safe ps : forall w, sound w -> frame_ok (gopCache w) -> length (mediaSources w) = MAX_MEDIA_CHANNEL -> Forall (usable_push (mediaSources w)) ps ->
  exists bs w', push_frames handleFrame_spec ps (tt, w) = Ret (bs, (tt, w')).
Proof.
  induction ps as [|p ps IH]; intros w S G L U; cbn [push_frames]; [eauto|]. apply Forall_cons in U as [(o & Eo & Uo) U].
  destruct (handleFrame_safe (p_us p) (p_us' p) (p_ch p) (p_frame p) w o S) as (b & w1 & -> & S1 & M1 & G1); try assumption.
  { apply lookup_lt_Some in Eo. lia. }
  cbn [obind]. destruct (IH w1 S1 G1) as (bs & w2 & ->); [rewrite M1; exact L | rewrite M1; exact U|]. cbn [obind]. eauto.
Qed.
End live.
