(* ===== verification/RtpProps.v ===== *)
(** * RTP: properties (rtsp/*Source.cpp, rtsp/RtpConnection.cpp, rtsp/MediaSession.cpp)

    Round trip of the video sources, sharing of packet blocks, the stream of a
    client under every interleaving, and the use of a destroyed connection. *)

From stdpp Require Import gmap.
From S2P Require Import Prelude RtpFrame RtpConn RtpShare RtpStream RtpLive.

Local Open Scope Z_scope.

(** ** Sources *)

(** A callback that keeps the payloads. *)
Definition tape : SendFrameCallback (W := list (list Z)) := fun _ pkt s =>
  match s.1 !! data pkt with
  | Some b => let! p := slice b 16 (pkt_size pkt) in Ret (true, (s.1, s.2 ++ [p]))
  | None => Crash NullDeref
  end.

(** [handleFrame] of the video sources, and the frames one after the other. *)
Inductive video := VH264 | VH265.

Definition video_handleFrame (v : video) (fresh : nat -> list Z) (us : Z) (ch : nat) (frame : AVFrame)
    (s : heap * list (list Z)) : outcome (bool * (heap * list (list Z))) :=
  match v with
  | VH264 => H264_handleFrame fresh (Some tape) us ch frame s
  | VH265 => H265_handleFrame fresh (Some tape) us ch frame s
  end.

Fixpoint all_frames (v : video) (fresh : nat -> list Z) (us : Z) (ch : nat) (frames : list AVFrame) (s : heap * list (list Z)) :
    outcome (heap * list (list Z)) :=
  match frames with
  | [] => Ret s
  | f :: frames => let! (_, s) := video_handleFrame v fresh us ch f s in all_frames v fresh us ch frames s
  end.

Definition video_payloads (v : video) : list Z -> list marked := match v with VH264 => h264_payloads | VH265 => h265_payloads end.
Definition video_parse (v : video) : list Z -> option part := match v with VH264 => parse_h264 | VH265 => parse_h265 end.
Definition video_nal (v : video) : list Z -> Prop := match v with VH264 => h264_nal | VH265 => h265_nal end.

Section tape.
Context (fresh : nat -> list Z).
Hypothesis fresh_size : forall n, length (fresh n) = BLOCK_SIZE.

Lemma tape_deliver1 ch t ty p h l : payload_ok p ->
  deliver1 fresh (Some tape) ch t ty p (h, l) = Ret (true, (h ++ [filled (fresh (length h)) p.1], l ++ [p.1])).
Proof.
  intros [_ Hl]. unfold MAX_RTP_PAYLOAD_SIZE in Hl.
  unfold deliver1, send_frame, tape. cbn [fst snd data pkt_size]. rewrite list_lookup_middle by reflexivity. set (b := fresh (length h)).
  assert (Lb : length b = BLOCK_SIZE) by apply fresh_size. assert (L16 : length (take 16 b) = 16%nat) by (rewrite length_take, Lb; reflexivity).
  unfold slice. rewrite (filled_length b p.1 Lb) by lia. rewrite (proj2 (Z.leb_le _ _)) by (unfold BLOCK_SIZE; lia). cbn [obind].
  do 5 f_equal. unfold filled. replace (Z.to_nat (16 + lenZ p.1)) with (length (take 16 b ++ p.1)) by (rewrite length_app, L16; lia).
  rewrite app_assoc, take_app_length, drop_app_length' by (rewrite L16; reflexivity). reflexivity.
Qed.

Lemma tape_deliver ch t ty ps : Forall payload_ok ps -> forall h l, exists h',
  deliver fresh (Some tape) ch t ty ps (h, l) = Ret (true, (h', l ++ map fst ps)).
Proof.
  induction 1 as [|p ps Po _ IH]; intros h l; cbn [deliver map]; [rewrite app_nil_r; eauto|]. rewrite tape_deliver1 by exact Po. cbn [obind].
  destruct (IH (h ++ [filled (fresh (length h)) p.1]) (l ++ [p.1])) as [h' ->]. exists h'. rewrite <- app_assoc. reflexivity.
Qed.

Lemma video_spec v us ch frame s : frame_ok frame ->
  video_handleFrame v fresh us ch frame s = deliver fresh (Some tape) ch (stamped us frame) (type frame) (video_payloads v (bytes_of frame)) s.
Proof. intros F. destruct v; [apply H264_spec | apply H265_spec]; assumption. Qed.

Lemma video_payloads_ok v nal : Forall is_u8 nal -> Forall payload_ok (video_payloads v nal).
Proof. destruct v; [apply h264_payloads_ok | apply h265_payloads_ok]. Qed.

Lemma video_reassemble v nal ps : Forall is_u8 nal -> video_nal v nal ->
  reassemble (video_parse v) None (map fst (video_payloads v nal) ++ ps) = cons nal <$> reassemble (video_parse v) None ps.
Proof. destruct v; [apply h264_reassemble | apply h265_reassemble]. Qed.

Lemma all_frames_spec v us ch frames : Forall frame_ok frames -> forall h l, exists h',
  all_frames v fresh us ch frames (h, l) = Ret (h', l ++ flat_map (fun f => map fst (video_payloads v (bytes_of f))) frames).
Proof.
  induction 1 as [|f frames F _ IH]; intros h l; cbn [all_frames flat_map]; [rewrite app_nil_r; eauto|]. rewrite video_spec by exact F.
  destruct (tape_deliver ch (stamped us f) (type f) (video_payloads v (bytes_of f)) (video_payloads_ok v _ (bytes_of_bytes f F)) h l) as [h1 ->].
  cbn [obind]. destruct (IH h1 (l ++ map fst (video_payloads v (bytes_of f)))) as [h2 ->]. exists h2. rewrite <- app_assoc. reflexivity.
Qed.

Lemma frames_reassemble v frames : Forall frame_ok frames -> Forall (fun f => video_nal v (bytes_of f)) frames ->
  reassemble (video_parse v) None (flat_map (fun f => map fst (video_payloads v (bytes_of f))) frames) = Some (map bytes_of frames).
Proof.
  induction 1 as [|f frames F _ IH]; intros N; [reflexivity|]. apply Forall_cons in N as [Nf N]. cbn [flat_map map].
  rewrite (video_reassemble v _ _ (bytes_of_bytes f F) Nf), IH by exact N. reflexivity.
Qed.
End tape.

(** C31: The H.264 and H.265 sources can be undone: whatever the fresh blocks hold, the
    sources accept every sequence of frames whose first byte has a type a packet
    can carry, hand on payloads of at most 1420 bytes, and a receiver of the payload
    format that puts the fragments together gets the frames back, byte for byte
    and in order. *)
Theorem rtp_video_roundtrip (v : video) (fresh : nat -> list Z) (us : Z) (ch : nat) (frames : list AVFrame) :
  (forall n, length (fresh n) = BLOCK_SIZE) -> Forall frame_ok frames -> Forall (fun f => video_nal v (bytes_of f)) frames ->
  exists h ps, all_frames v fresh us ch frames ([], []) = Ret (h, ps) /\ Forall (fun p => lenZ p <= MAX_RTP_PAYLOAD_SIZE) ps /\
    reassemble (video_parse v) None ps = Some (map bytes_of frames).
Proof.
  intros Fr F N. destruct (all_frames_spec fresh Fr v us ch frames F [] []) as [h E]. cbn [app] in E. do 2 eexists. split_and!; [exact E | | apply frames_reassemble; assumption].
  clear E N. induction F as [|f frames Ff _ IH]; [constructor|]. cbn [flat_map]. apply Forall_app. split; [|exact IH].
  pose proof (video_payloads_ok v _ (bytes_of_bytes f Ff)) as P. apply Forall_map. eapply Forall_impl; [exact P|]. intros p [_ L]. exact L.
Qed.

Definition zero_blocks (n : nat) : list Z := repeat 0 BLOCK_SIZE.

(** A frame of 3000 bytes goes out in three fragments. *)
Lemma rtp_video_roundtrip_witness :
  exists h ps, all_frames VH264 zero_blocks 0 0 [mkFrame (0x65 :: repeat 7 3000) 3000 1 90; mkFrame [0x41; 5; 0] 2 2 91] ([], []) = Ret (h, ps) /\
    Forall (fun p => lenZ p <= MAX_RTP_PAYLOAD_SIZE) ps /\
    reassemble (video_parse VH264) None ps = Some (map bytes_of [mkFrame (0x65 :: repeat 7 3000) 3000 1 90; mkFrame [0x41; 5; 0] 2 2 91]).
Proof.
  apply (rtp_video_roundtrip VH264).
  - intros n. apply repeat_length.
  - constructor; [|constructor; [|constructor]]; (split_and!; [vm_compute; discriminate | vm_compute; discriminate | vm_compute; discriminate | apply bytes_check; vm_compute; reflexivity]).
  - constructor; [|constructor; [|constructor]]; (do 2 eexists; split; [reflexivity | vm_compute; reflexivity]).
Defined.

(** ** Sessions *)

(** Nothing is queued and nothing was sent. *)
Definition quiet (w : session nat) : Prop := Forall (fun sc => sc = mkSched [] None) (scheds w) /\ sent w = [].

(** The same session in which packets will own their blocks. *)
Definition own_session (w : session nat) : session (list Z) :=
  mkSession (conns w) (map (fun _ => mkSched [] None) (scheds w)) (clients w) (mediaSources w) (session_isMulticast w) (gopCacheEnabled w)
    (hasNewClient w) (gopCache w) (notified w) (schedule w) (sent w).

Lemma quiet_related w : quiet w -> related ([], w) (tt, own_session w).
Proof.
  intros [Q _]. exists (fun _ => None). split; [reflexivity|]. split; [cbn; rewrite length_map; reflexivity|]. intros k sc sd A B. cbn [fst snd] in *.
  rewrite Forall_lookup in Q. rewrite (Q k sc A). cbn in B. rewrite list_lookup_fmap, A in B. injection B as <-. split; [constructor | exact I].
Qed.

Lemma push_sim fresh ps : (forall n, length (fresh n) = BLOCK_SIZE) -> forall s u, related s u -> good s.2 -> Forall (usable_push (mediaSources s.2)) ps ->
  orel (fun x y => x.1 = y.1 /\ strip x.2.2 = strip y.2.2) (push_frames (handleFrame fresh) ps s) (push_frames handleFrame_spec ps u).
Proof.
  intros Fr. induction ps as [|p ps IH]; intros s u R G U; cbn [push_frames]; [cbn; split; [reflexivity | apply related_strip, R]|].
  apply Forall_cons in U as [(o & Eo & Uo) U]. eapply orel_bind; [apply handleFrame_sim; [exact Fr | exact R | exact G | intros src Es; apply Uo; congruence]|].
  intros [b s1] [b' u1] (Eb & R1 & G1 & M1). cbn [fst snd] in *. subst b'.
  eapply orel_bind; [apply (IH s1 u1 R1 G1); rewrite M1; exact U|]. intros [bs s2] [bs' u2] [E S]. cbn [fst snd] in *. cbn. subst bs'. auto.
Qed.

(** C30: Sharing a packet's block between the clients of a scheduler, with a copy for
    each further scheduler, cannot be seen: whatever the schedule of the scheduler
    threads, with an event of one thread between the header and the sending of
    another's, the session sends the same bytes to the same clients and ends in the
    same state as one in which every queued packet has a block of its own, or
    fails in the same way. *)
Theorem rtp_sharing_unseen (fresh : nat -> list Z) (ps : list push) (w : session nat) :
  (forall n, length (fresh n) = BLOCK_SIZE) -> quiet w -> frame_ok (gopCache w) -> Forall (usable_push (mediaSources w)) ps ->
  orel (fun x y => x.1 = y.1 /\ strip x.2.2 = strip y.2.2)
    (push_frames (handleFrame fresh) ps ([], w)) (push_frames handleFrame_spec ps (tt, own_session w)).
Proof. intros Fr Q G U. apply push_sim; [exact Fr | apply quiet_related, Q | exact G | exact U]. Qed.

(** A session with three connections on two schedulers, all playing over UDP, and
    schedules of events that overlap. *)
Definition demo_conn (k : nat) (sock ssrc : Z) : RtpConnection :=
  let c := new_conn k sock RTP_OVER_UDP (65535, 7, ssrc) (200, 8, ssrc + 1) in
  play (set_channel c 0 ((new_info 65535 7 ssrc) <| isSetup := true |>)).

Definition demo (sch : list (list action)) : session nat :=
  mkSession {[0%nat := demo_conn 0 5 100; 1%nat := demo_conn 1 6 200; 2%nat := demo_conn 1 7 300]} [mkSched [] None; mkSched [] None]
    [(5, 0%nat); (6, 1%nat); (7, 2%nat)] [Some H264; None] false false false (mkFrame [0] 0 0 0) [] sch [].

(** The channel of connection 1. *)
Definition demo_info : MediaChannelInfo :=
  mkInfo (rtpHeader (new_info 65535 7 200)) 0 0 0 0 65535 0 true true false.

Definition overlap : list action := [Begin 0; Begin 1; Finish 1 4; Begin 1; Finish 0 4; Finish 1 4].
Definition demo_pushes : list push := repeat (mkPush 1000000 1000001 0 (mkFrame [0x65; 1; 2; 3; 0] 4 1 0)) 3.

Lemma demo_usable : Forall (usable_push [Some H264; None]) demo_pushes.
Proof.
  assert (U : usable_push [Some H264; None] (mkPush 1000000 1000001 0 (mkFrame [0x65; 1; 2; 3; 0] 4 1 0))); [|repeat constructor; exact U].
  exists (Some H264). split; [reflexivity|]. intros src E. injection E as <-.
  split; [split_and!; [vm_compute; discriminate | vm_compute; discriminate | vm_compute; discriminate | apply bytes_check; vm_compute; reflexivity] | exact I].
Qed.

Lemma rtp_sharing_unseen_witness :
  quiet (demo (repeat overlap 20)) /\
  orel (fun x y => x.1 = y.1 /\ strip x.2.2 = strip y.2.2)
    (push_frames (handleFrame zero_blocks) demo_pushes ([], demo (repeat overlap 20)))
    (push_frames handleFrame_spec demo_pushes (tt, own_session (demo (repeat overlap 20)))).
Proof.
  assert (Q : quiet (demo (repeat overlap 20))) by (split; [repeat constructor | reflexivity]). split; [exact Q|].
  apply (rtp_sharing_unseen zero_blocks demo_pushes (demo (repeat overlap 20))).
  - intros n. apply repeat_length.
  - exact Q.
  - split_and!; [vm_compute; discriminate | vm_compute; discriminate | vm_compute; discriminate | apply bytes_check; vm_compute; reflexivity].
  - exact demo_usable.
Defined.

(** A connection as the constructor leaves it: the fixed fields of its headers. *)
Definition fresh_channel (i : MediaChannelInfo) (ssrc0 : Z) : Prop :=
  fixed_fields i = (0, 0, 0, RTP_VERSION, htonl ssrc0) /\ 0 <= payload (rtpHeader i) < 128 /\ is_u16 (packetSeq i) /\ is_u32 ssrc0.

(** Every client is one under its own socket. *)
Definition clients_ok (w : session nat) : Prop :=
  NoDup (map snd (clients w)) /\ forall f c cn, In (f, c) (clients w) -> conns w !! c = Some cn -> f = fd cn.

Lemma NoDup_filter_one (c : nat) (l : list (Z * nat)) : NoDup (map snd l) -> (length (List.filter (fun x => x.2 =? c)%nat l) <= 1)%nat.
Proof.
  induction l as [|[f c'] l IH]; cbn [map snd List.filter]; [cbn; lia|]. intros N. apply NoDup_cons in N as [N1 N2].
  destruct (Nat.eqb_spec c' c) as [->|]; [|apply IH, N2]. cbn [length]. assert (Z : List.filter (fun x => x.2 =? c)%nat l = []); [|rewrite Z; cbn; lia].
  clear IH N2. induction l as [|[f' c'] l IH]; [reflexivity|]. cbn [map snd List.filter] in *. rewrite not_elem_of_cons in N1. destruct N1 as [N1 N2].
  rewrite (proj2 (Nat.eqb_neq c' c)) by congruence. apply IH, N2.
Qed.

Lemma quiet_own_queue w : quiet w -> forall k sc e, scheds (own_session w) !! k = Some sc -> In e (triggerEvents sc) \/ running sc = Some e -> False.
Proof.
  intros Q k sc e A I. cbn in A. rewrite list_lookup_fmap in A. destruct (scheds w !! k); [|discriminate]. injection A as <-. destruct I as [[]|I]; discriminate.
Qed.

Lemma quiet_stream w c ch cn i ssrc0 : quiet w -> clients_ok w -> conns w !! c = Some cn -> channel cn ch = Ret i -> fresh_channel i ssrc0 ->
  good_stream c ch (packetSeq i) ssrc0 [] (own_session w).
Proof.
  intros Q [C1 C2] G Ei (F & P & S & _). split.
  - split; [intros k sc e A I; destruct (quiet_own_queue w Q k sc e A I)|]. exists []. split_and!; [|constructor|].
    + exists []. unfold outs. cbn. rewrite (proj2 Q). split_and!; [reflexivity | reflexivity|]. intros j r E. discriminate.
    + intros cn' G'. cbn in G'. rewrite G in G'. injection G' as <-. exists i.
      assert (V : current c ch (own_session w) cn i = [] /\ waiting c ch (own_session w) cn = []).
      { unfold current, waiting. destruct (scheds (own_session w) !! sched cn) as [sc|] eqn:A; [|auto]. split.
        - destruct (running sc) eqn:R; [destruct (quiet_own_queue w Q _ sc _ A (or_intror R)) | reflexivity].
        - destruct (triggerEvents sc) as [|e q] eqn:T; [reflexivity|]. destruct (quiet_own_queue w Q _ sc e A). left. rewrite T. left. reflexivity. }
      destruct V as [-> ->]. split_and!; [exact Ei | refine (conj F (conj P _)) | intros e [] | constructor]. cbn. rewrite Z.add_0_r. symmetry. apply Z.mod_small, S.
  - split; [intros f cn' I G'; eapply C2; eassumption | apply NoDup_filter_one, C1].
Qed.

Lemma quiet_sound w : quiet w -> (forall c cn, conns w !! c = Some cn -> length (mediaChannelInfo cn) = MAX_MEDIA_CHANNEL /\ (sched cn < length (scheds w))%nat) ->
  Forall (Forall tame) (schedule w) -> sound (own_session w).
Proof.
  intros Q C T. split_and!; [|intros k sc e A I; destruct (quiet_own_queue w Q k sc e A I) | exact T]. intros c cn G. cbn. rewrite length_map. apply (C c cn G).
Qed.


Lemma demo_conns c cn : conns (demo (repeat overlap 20)) !! c = Some cn ->
  c = 0%nat /\ cn = demo_conn 0 5 100 \/ c = 1%nat /\ cn = demo_conn 1 6 200 \/ c = 2%nat /\ cn = demo_conn 1 7 300.
Proof.
  cbn [conns demo]. rewrite lookup_insert_Some. intros [[<- <-]|[_ H]]; [auto|]. rewrite lookup_insert_Some in H. destruct H as [[<- <-]|[_ H]]; [auto|].
  apply lookup_singleton_Some in H as [<- <-]. auto.
Qed.


(** The run of the witness sends: the first packet of connection 1 has sequence
    number 65535, the next ones 0 and 1. *)
Example demo_sends : match push_frames (handleFrame zero_blocks) demo_pushes ([], demo (repeat overlap 20)) with
  | Ret (_, (_, w)) => map (fun b => r_seq <$> parse_rtp (unframe b)) (outs 1 0 w) = [Some 65535; Some 0; Some 1]
  | Crash _ => False
  end.
Proof. vm_compute. reflexivity. Qed.

(** An event keeps a bare pointer to its connection: a client that is destroyed
    while a packet for it is queued is used afterwards, here by the scheduler that
    takes the event. *)
Theorem destroyed_connection_used :
  push_frames (handleFrame zero_blocks) demo_pushes ([], demo [[]; []; []; []; []; []; []; [Destroy 0; Begin 0]]) = Crash NullDeref.
Proof. vm_compute. reflexivity. Qed.

(** An AAC frame shorter than the ADTS header the source takes off makes the length
    wrap round and the copy leave the buffers, whatever the callback. *)
Corollary aac_short_frame_overruns {W : Type} (fresh : nat -> list Z) (cb : option (SendFrameCallback (W := W))) (ch : nat) (frame : AVFrame) (s : state) :
  (forall n, length (fresh n) = BLOCK_SIZE) -> 0 <= size frame < ADTS_SIZE -> lenZ (buffer frame) < INT_MAX ->
  AAC_handleFrame fresh cb true ch frame s = Crash OutOfBounds.
Proof. intros Fr H L. apply AAC_short; assumption. Qed.

(** The descriptors [~RtpConnection] closes after a TCP setup: the RTSP socket, twice for each
    channel, before [~TcpConnection] closes it. *)
Corollary tcp_setup_closes_twice (sock a b : Z) (cn cn' : RtpConnection) (k : nat) (mode : TransportMode) (rd rd' : Z * Z * Z) :
  0 < sock -> cn = new_conn k sock mode rd rd' -> setupRtpOverTcp 0 a b cn = Ret (true, cn') -> closes cn' = [sock; sock].
Proof.
  intros H -> E. unfold setupRtpOverTcp, new_conn in E. cbn in E. injection E as <-. cbn. rewrite (proj2 (Z.ltb_lt 0 sock) H). reflexivity.
Qed.
