(* ===== verification/RtspRing.v ===== *)
(** * The queue of trigger events (rtsp/RingBuffer.h, rtsp/TaskScheduler.cpp)

    [RingBuffer] is used by one consumer, the scheduler's thread in
    [handleTriggerEvent], and by any number of producers in [addTriggerEvent], who
    push under a mutex.  The consumer takes no lock: the two sides share the slots
    and the counter [_numDatas].  A thread runs from one access of shared memory to
    the next; a run is a list of the threads that move.

    The specification is a bounded queue with atomic operations: the calls of the
    ring take effect at one of their steps, in an order a bounded queue allows. *)

From S2P Require Import Prelude.

Local Open Scope Z_scope.

(** ** Threads *)

(** A producer: idle; called; the size was tested outside the mutex; holds the
    mutex and is to test the counter; the slot is to be written, [_putPos] to be
    advanced, the counter to be counted up; the mutex is to be released. *)
Inductive producer :=
| PIdle | PCalled (d : Z) | PLock (d : Z) | PTest (d : Z) | PStore (d : Z) | PAdd (d : Z) | PInc (d : Z) | PUnlock (d : Z).

(** The consumer: idle; about to move the slot out, to advance [_getPos], to count down. *)
Inductive consumer := CIdle | CLoad | CAdd (d : Z) | CDec (d : Z).

Record ring := mkRing {
  slots : list Z; putPos : nat; getPos : nat; numDatas : Z; mutex : option nat; producers : list producer; taker : consumer }.

Definition capacity (r : ring) : Z := lenZ (slots r).

(** [add] *)
Definition add (cap : Z) (pos : nat) : nat := if Z.of_nat pos + 1 =? cap then 0%nat else S pos.

(** What a step shows: a push that took effect or was refused, what
    [addTriggerEvent] returned, an element popped, a pop that found nothing. *)
Inductive label := Pushed (d : Z) | Refused (d : Z) | Returned (d : Z) (ok : bool) | Popped (d : Z) | Empty.

Definition ring_new (cap n : nat) : ring := mkRing (repeat 0 cap) 0 0 0 None (repeat PIdle n) CIdle.

Definition set_producer (r : ring) (i : nat) (p : producer) : ring :=
  mkRing (slots r) (putPos r) (getPos r) (numDatas r) (mutex r) (<[i := p]> (producers r)) (taker r).
Definition set_taker (r : ring) (c : consumer) : ring :=
  mkRing (slots r) (putPos r) (getPos r) (numDatas r) (mutex r) (producers r) c.

(** One step of producer [i]: [TaskScheduler::addTriggerEvent] with [RingBuffer::pushData]. *)
Definition produce (r : ring) (i : nat) : ring * list label :=
  match producers r !! i with
  | Some (PCalled d) =>
      if numDatas r <? capacity r then (set_producer r i (PLock d), []) else (set_producer r i PIdle, [Returned d false])
  | Some (PLock d) =>
      match mutex r with
      | None => let r := set_producer r i (PTest d) in
                (mkRing (slots r) (putPos r) (getPos r) (numDatas r) (Some i) (producers r) (taker r), [])
      | Some _ => (r, [])
      end
  | Some (PTest d) =>
      if numDatas r <? capacity r then (set_producer r i (PStore d), []) else (set_producer r i (PUnlock d), [Refused d])
  | Some (PStore d) =>
      let r := set_producer r i (PAdd d) in
      (mkRing (<[putPos r := d]> (slots r)) (putPos r) (getPos r) (numDatas r) (mutex r) (producers r) (taker r), [])
  | Some (PAdd d) =>
      let r := set_producer r i (PInc d) in
      (mkRing (slots r) (add (capacity r) (putPos r)) (getPos r) (numDatas r) (mutex r) (producers r) (taker r), [])
  | Some (PInc d) =>
      let r := set_producer r i (PUnlock d) in
      (mkRing (slots r) (putPos r) (getPos r) (numDatas r + 1) (mutex r) (producers r) (taker r), [Pushed d])
  | Some (PUnlock d) =>
      let r := set_producer r i PIdle in
      (mkRing (slots r) (putPos r) (getPos r) (numDatas r) None (producers r) (taker r), [Returned d true])
  | _ => (r, [])
  end.

(** One step of the consumer: [RingBuffer::pop]. *)
Definition consume (r : ring) : ring * list label :=
  match taker r with
  | CIdle => if 0 <? numDatas r then (set_taker r CLoad, []) else (r, [Empty])
  | CLoad => match slots r !! getPos r with Some d => (set_taker r (CAdd d), []) | None => (r, []) end
  | CAdd d => let r := set_taker r (CDec d) in
              (mkRing (slots r) (putPos r) (add (capacity r) (getPos r)) (numDatas r) (mutex r) (producers r) (taker r), [])
  | CDec d => let r := set_taker r CIdle in
              (mkRing (slots r) (putPos r) (getPos r) (numDatas r - 1) (mutex r) (producers r) (taker r), [Popped d])
  end.

(** A thread that is idle calls [addTriggerEvent(d)]; producer [i] moves; the consumer moves. *)
Inductive move := Call (i : nat) (d : Z) | Producer (i : nat) | Consumer.

Definition ring_step (r : ring) (m : move) : ring * list label :=
  match m with
  | Call i d => match producers r !! i with Some PIdle => (set_producer r i (PCalled d), []) | _ => (r, []) end
  | Producer i => produce r i
  | Consumer => consume r
  end.

Fixpoint ring_run (r : ring) (ms : list move) : ring * list label :=
  match ms with
  | [] => (r, [])
  | m :: ms => let (r, l) := ring_step r m in let (r, l') := ring_run r ms in (r, l ++ l')
  end.

(** ** A bounded queue *)

Inductive bounded (cap : Z) : list Z -> label -> list Z -> Prop :=
| bounded_push q d : lenZ q < cap -> bounded cap q (Pushed d) (q ++ [d])
| bounded_refuse q d : lenZ q = cap -> bounded cap q (Refused d) q
| bounded_return q d ok : bounded cap q (Returned d ok) q
| bounded_pop q d : bounded cap (d :: q) (Popped d) q
| bounded_empty : bounded cap [] Empty [].

(** The labels are a run of the queue. *)
Inductive queue_run (cap : Z) : list Z -> list label -> list Z -> Prop :=
| queue_nil q : queue_run cap q [] q
| queue_cons q q1 q2 l ls : bounded cap q l q1 -> queue_run cap q1 ls q2 -> queue_run cap q (l :: ls) q2.

(** ** The invariant *)

(** The thread is in the section under the mutex. *)
Definition inside (p : producer) : bool := match p with PTest _ | PStore _ | PAdd _ | PInc _ | PUnlock _ => true | _ => false end.

(** The slot of the [n]-th element ever pushed. *)
Definition slot (r : ring) (n : nat) : nat := (n mod length (slots r))%nat.

(** The section of a producer: what it found, wrote and advanced. *)
Definition section_ok (r : ring) (n : nat) (q : list Z) (p : producer) : Prop :=
  match p with
  | PTest _ | PUnlock _ => putPos r = slot r (n + length q)
  | PStore _ => putPos r = slot r (n + length q) /\ lenZ q < capacity r
  | PAdd d => putPos r = slot r (n + length q) /\ lenZ q < capacity r /\ slots r !! slot r (n + length q) = Some d
  | PInc d => putPos r = slot r (n + length q + 1) /\ lenZ q < capacity r /\ slots r !! slot r (n + length q) = Some d
  | _ => True
  end.

Definition taker_ok (r : ring) (n : nat) (q : list Z) : Prop :=
  match taker r with
  | CIdle => getPos r = slot r n
  | CLoad => getPos r = slot r n /\ q <> []
  | CAdd d => getPos r = slot r n /\ hd_error q = Some d
  | CDec d => getPos r = slot r (n + 1) /\ hd_error q = Some d
  end.

(** [n] elements were popped and the queue is [q]. *)
Record shape (r : ring) (n : nat) (q : list Z) : Prop := {
  sh_cap : 0 < capacity r;
  sh_num : numDatas r = lenZ q;
  sh_max : lenZ q <= capacity r;
  sh_slots : forall j d, q !! j = Some d -> slots r !! slot r (n + j) = Some d;
  sh_holder : forall i, mutex r = Some i -> (i < length (producers r))%nat;
  sh_mutex : forall i p, producers r !! i = Some p -> inside p = true <-> mutex r = Some i;
  sh_free : mutex r = None -> putPos r = slot r (n + length q);
  sh_prod : forall i p, producers r !! i = Some p -> section_ok r n q p;
  sh_taker : taker_ok r n q }.

Lemma add_slot r n : 0 < capacity r -> add (capacity r) (slot r n) = slot r (n + 1).
Proof.
  unfold capacity, slot, add. intros H. set (c := length (slots r)) in *. assert (C : c <> 0%nat) by lia.
  pose proof (Nat.mod_upper_bound n c C) as B. rewrite <- (Nat.Div0.add_mod_idemp_l n 1 c). set (m := (n mod c)%nat) in *.
  destruct (Z.eqb_spec (Z.of_nat m + 1) (Z.of_nat c)) as [E|E].
  - replace (m + 1)%nat with c by lia. symmetry. apply Nat.Div0.mod_same.
  - rewrite Nat.mod_small by lia. lia.
Qed.

Lemma slot_neq r n j k : (j < k)%nat -> (k < j + length (slots r))%nat -> slot r (n + j) <> slot r (n + k).
Proof.
  unfold slot. intros H1 H2 E. set (c := length (slots r)) in *. assert (C : c <> 0%nat) by lia.
  pose proof (Nat.div_mod (n + j) c C). pose proof (Nat.div_mod (n + k) c C). rewrite E in *.
  set (a := ((n + j) / c)%nat) in *. set (b := ((n + k) / c)%nat) in *. assert (k - j = c * (b - a))%nat by nia.
  destruct (b - a)%nat as [|x]; nia.
Qed.

(** Only the holder of the mutex is in the section. *)
Lemma one_inside r n q i j p p' : shape r n q -> producers r !! i = Some p -> producers r !! j = Some p' -> inside p = true -> inside p' = true -> i = j.
Proof. intros S A B I J. apply (sh_mutex _ _ _ S _ _ A) in I. apply (sh_mutex _ _ _ S _ _ B) in J. congruence. Qed.

Lemma section_outside r n q p : inside p = false -> section_ok r n q p.
Proof. destruct p; try discriminate; intros _; exact I. Qed.

(** A step of producer [i] that leaves the counter, the queue and the consumer: the
    others are outside the section or see what they saw. *)
Lemma shape_producer r r' n q i p p' : shape r n q -> producers r !! i = Some p ->
  producers r' = <[i := p']> (producers r) -> numDatas r' = numDatas r -> getPos r' = getPos r -> taker r' = taker r -> length (slots r') = length (slots r) ->
  (forall j d, q !! j = Some d -> slots r' !! slot r (n + j) = Some d) ->
  mutex r' = (if inside p' then Some i else if inside p then None else mutex r) -> (inside p' = true -> inside p = false -> mutex r = None) ->
  (inside p || inside p' = false -> slots r' = slots r /\ putPos r' = putPos r) ->
  section_ok r' n q p' -> (inside p' = false -> inside p = true -> putPos r' = slot r (n + length q)) -> shape r' n q.
Proof.
  intros S A Ep En Eg Et El Es Em Hm Ho Sc Fr. pose proof (lookup_lt_Some _ _ _ A) as Li.
  assert (Sl : forall k, slot r' k = slot r k) by (intros k; unfold slot; rewrite El; reflexivity).
  assert (Cp : capacity r' = capacity r) by (unfold capacity; rewrite El; reflexivity).
  assert (Mi : inside p = true <-> mutex r = Some i) by apply (sh_mutex _ _ _ S _ _ A).
  split.
  - rewrite Cp. apply S.
  - rewrite En. apply S.
  - rewrite Cp. apply S.
  - intros j d E. rewrite Sl. apply Es, E.
  - intros j E. rewrite Ep, length_insert. rewrite Em in E. destruct (inside p'); [injection E as <-; exact Li|]. destruct (inside p); [discriminate | apply (sh_holder _ _ _ S), E].
  - intros j x B. rewrite Ep in B. rewrite Em. destruct (decide (j = i)) as [->|N].
    + rewrite list_lookup_insert_eq in B by exact Li. injection B as <-. destruct (inside p') eqn:Ip'; [tauto|]. destruct (inside p) eqn:Ip; [split; discriminate|].
      split; [discriminate|]. intros K. apply Mi in K. discriminate.
    + rewrite list_lookup_insert_ne in B by congruence. pose proof (sh_mutex _ _ _ S _ _ B) as Mj. destruct (inside p') eqn:Ip'.
      * split; [|intros K; congruence]. intros K. apply Mj in K. destruct (inside p) eqn:Ip; [apply proj1 in Mi; specialize (Mi eq_refl); congruence|]. rewrite (Hm eq_refl eq_refl) in K. discriminate.
      * destruct (inside p) eqn:Ip; [|exact Mj]. split; [|discriminate]. intros K. apply Mj in K. apply proj1 in Mi. specialize (Mi eq_refl). congruence.
  - intros E. rewrite Em in E. rewrite Sl. destruct (inside p') eqn:Ip'; [discriminate|]. destruct (inside p) eqn:Ip; [apply Fr; reflexivity|].
    destruct (Ho eq_refl) as [_ ->]. apply (sh_free _ _ _ S), E.
  - intros j x B. rewrite Ep in B. destruct (decide (j = i)) as [->|N].
    + rewrite list_lookup_insert_eq in B by exact Li. injection B as <-. exact Sc.
    + rewrite list_lookup_insert_ne in B by congruence. destruct (inside x) eqn:Ix; [|apply section_outside, Ix].
      pose proof (sh_mutex _ _ _ S _ _ B) as Mj. assert (Mj' : mutex r = Some j) by (apply Mj, Ix).
      destruct (inside p || inside p') eqn:Io.
      * exfalso. destruct (inside p) eqn:Ip; [apply proj1 in Mi; specialize (Mi eq_refl); congruence|]. cbn [orb] in Io. rewrite (Hm Io eq_refl) in Mj'. discriminate.
      * destruct (Ho eq_refl) as [E1 E2]. pose proof (sh_prod _ _ _ S _ _ B) as K. unfold section_ok in *. rewrite Cp, E1, E2. destruct x; rewrite ?Sl; exact K.
  - pose proof (sh_taker _ _ _ S) as K. unfold taker_ok in *. rewrite Et, Eg. destruct (taker r); rewrite ?Sl; exact K.
Qed.

(** The counter goes up: the element is in the queue. *)
Lemma shape_push r n q i d : shape r n q -> producers r !! i = Some (PInc d) ->
  shape (mkRing (slots r) (putPos r) (getPos r) (numDatas r + 1) (mutex r) (<[i := PUnlock d]> (producers r)) (taker r)) n (q ++ [d]) /\ lenZ q < capacity r.
Proof.
  intros S A. destruct (sh_prod _ _ _ S _ _ A) as (P1 & P2 & P3). pose proof (lookup_lt_Some _ _ _ A) as Li. split; [|exact P2].
  assert (Mi : mutex r = Some i) by (apply (sh_mutex _ _ _ S _ _ A); reflexivity).
  split; cbn [slots putPos getPos numDatas mutex producers taker].
  - apply (sh_cap _ _ _ S).
  - rewrite (sh_num _ _ _ S), length_app. cbn [length]. lia.
  - rewrite length_app. cbn [length]. unfold capacity in *. cbn [slots]. lia.
  - intros j x E. unfold slot. cbn [slots]. apply lookup_app_Some in E as [E|[Hj E]]; [apply (sh_slots _ _ _ S _ _ E)|].
    apply list_lookup_singleton_Some in E as [Hj' <-]. replace j with (length q) by lia. exact P3.
  - intros j E. rewrite length_insert. apply (sh_holder _ _ _ S _ E).
  - intros j x B. destruct (decide (j = i)) as [->|N].
    + rewrite list_lookup_insert_eq in B by exact Li. injection B as <-. cbn. tauto.
    + rewrite list_lookup_insert_ne in B by congruence. apply (sh_mutex _ _ _ S _ _ B).
  - intros E. congruence.
  - intros j x B. destruct (decide (j = i)) as [->|N].
    + rewrite list_lookup_insert_eq in B by exact Li. injection B as <-. cbn [section_ok putPos]. rewrite length_app, Nat.add_assoc. exact P1.
    + rewrite list_lookup_insert_ne in B by congruence. apply section_outside. destruct (inside x) eqn:Ix; [|reflexivity].
      apply (sh_mutex _ _ _ S _ _ B) in Ix. congruence.
  - pose proof (sh_taker _ _ _ S) as K. unfold taker_ok in *. cbn [taker getPos]. unfold slot in *. cbn [slots]. destruct (taker r); try exact K.
    + destruct K as [K1 K2]. split; [exact K1|]. destruct q; discriminate.
    + destruct K as [K1 K2]. split; [exact K1|]. destruct q; [discriminate | exact K2].
    + destruct K as [K1 K2]. split; [exact K1|]. destruct q; [discriminate | exact K2].
Qed.

(** The counter goes down: the element is out of the queue. *)
Lemma shape_pop r n d q : shape r n (d :: q) -> taker r = CDec d ->
  shape (mkRing (slots r) (putPos r) (getPos r) (numDatas r - 1) (mutex r) (producers r) CIdle) (n + 1) q.
Proof.
  intros S T. pose proof (sh_max _ _ _ S) as M. cbn [length] in M.
  assert (L : (n + 1 + length q = n + length (d :: q))%nat) by (cbn [length]; lia).
  split; cbn [slots putPos getPos numDatas mutex producers taker]; unfold slot, capacity; cbn [slots].
  - apply (sh_cap _ _ _ S).
  - rewrite (sh_num _ _ _ S). cbn [length]. lia.
  - unfold capacity in M. lia.
  - intros j x E. rewrite <- Nat.add_assoc. apply (sh_slots _ _ _ S (1 + j)). exact E.
  - apply (sh_holder _ _ _ S).
  - apply (sh_mutex _ _ _ S).
  - rewrite L. apply (sh_free _ _ _ S).
  - intros i p A. pose proof (sh_prod _ _ _ S i p A) as K. unfold section_ok, slot, capacity in *. cbn [slots putPos]. rewrite L. cbn [length] in *. destruct p; try exact K; intuition lia.
  - pose proof (sh_taker _ _ _ S) as K. unfold taker_ok in *. rewrite T in K. cbn [taker getPos]. apply K.
Qed.

Lemma shape_taker r n q g c : shape r n q -> taker_ok (mkRing (slots r) (putPos r) g (numDatas r) (mutex r) (producers r) c) n q ->
  shape (mkRing (slots r) (putPos r) g (numDatas r) (mutex r) (producers r) c) n q.
Proof. intros [] T. split; assumption. Qed.

(** Every step is a step of the bounded queue, or is not seen. *)
Definition simulates (r r' : ring) (n : nat) (q : list Z) (ls : list label) : Prop :=
  length (slots r') = length (slots r) /\ exists n' q', shape r' n' q' /\ queue_run (capacity r) q ls q'.

Lemma simulates_same r r' n q : length (slots r') = length (slots r) -> shape r' n q -> simulates r r' n q [].
Proof. intros L S. split; [exact L|]. exists n, q. split; [exact S | constructor]. Qed.

Lemma simulates_one r r' n q l : length (slots r') = length (slots r) -> shape r' n q -> bounded (capacity r) q l q -> simulates r r' n q [l].
Proof. intros L S B. split; [exact L|]. exists n, q. split; [exact S | econstructor; [exact B | constructor]]. Qed.

Lemma full_or_room r n q : shape r n q -> (numDatas r <? capacity r) = false -> lenZ q = capacity r.
Proof. intros S E. apply Z.ltb_ge in E. rewrite (sh_num _ _ _ S) in E. pose proof (sh_max _ _ _ S). lia. Qed.

Lemma consume_sim r n q r' ls : shape r n q -> consume r = (r', ls) -> simulates r r' n q ls.
Proof.
  intros S. pose proof (sh_taker _ _ _ S) as T. unfold taker_ok in T. unfold consume. destruct (taker r) as [| |d|d] eqn:Et.
  - destruct (Z.ltb_spec 0 (numDatas r)) as [K|K]; intros E; injection E as <- <-; rewrite (sh_num _ _ _ S) in K.
    + apply simulates_same; [reflexivity|]. apply shape_taker; [exact S|]. cbn. split; [exact T|]. intros ->. cbn in K. lia.
    + apply simulates_one; [reflexivity | exact S|]. destruct q; [constructor | cbn [length] in K; lia].
  - destruct T as [T1 T2]. destruct q as [|d q]; [congruence|]. pose proof (sh_slots _ _ _ S 0 d eq_refl) as L. rewrite Nat.add_0_r, <- T1 in L. rewrite L.
    intros E; injection E as <- <-. apply simulates_same; [reflexivity|]. apply shape_taker; [exact S|]. split; [exact T1 | reflexivity].
  - destruct T as [T1 T2]. intros E; injection E as <- <-. apply simulates_same; [reflexivity|]. apply (shape_taker r); [exact S|].
    split; [cbn [getPos set_taker]; rewrite T1; apply (add_slot r n), (sh_cap _ _ _ S) | exact T2].
  - destruct T as [T1 T2]. destruct q as [|x q]; [discriminate|]. injection T2 as ->. intros E; injection E as <- <-. split; [reflexivity|].
    exists (n + 1)%nat, q. split; [apply (shape_pop r n d q S Et) | econstructor; [constructor | constructor]].
Qed.

Lemma produce_sim r n q i r' ls : shape r n q -> produce r i = (r', ls) -> simulates r r' n q ls.
Proof.
  intros S. unfold produce. destruct (producers r !! i) as [p|] eqn:A; [|intros E; injection E as <- <-; apply simulates_same; [reflexivity | exact S]].
  pose proof (sh_prod _ _ _ S _ _ A) as Sc. pose proof (sh_mutex _ _ _ S _ _ A) as Mu. pose proof (sh_slots _ _ _ S) as Sl.
  destruct p as [|d|d|d|d|d|d|d]; cbn [inside section_ok] in *.
  - intros E; injection E as <- <-. apply simulates_same; [reflexivity | exact S].
  - destruct (numDatas r <? capacity r) eqn:F; intros E; injection E as <- <-; [apply simulates_same | apply simulates_one; [| |constructor]]; try reflexivity;
      (eapply (shape_producer r _ n q i); [exact S | exact A | reflexivity..| exact Sl | reflexivity | discriminate | auto | exact I | discriminate]).
  - destruct (mutex r) as [j|] eqn:M; intros E; injection E as <- <-; apply simulates_same; try reflexivity; [exact S|].
    eapply (shape_producer r _ n q i); [exact S | exact A | reflexivity..| exact Sl | reflexivity | auto | discriminate | exact (sh_free _ _ _ S M) | discriminate].
  - destruct (numDatas r <? capacity r) eqn:F; intros E; injection E as <- <-.
    + apply simulates_same; [reflexivity|]. apply Z.ltb_lt in F. rewrite (sh_num _ _ _ S) in F.
      eapply (shape_producer r _ n q i); [exact S | exact A | reflexivity..| exact Sl | apply Mu; reflexivity | discriminate | discriminate | split; [exact Sc | exact F] | discriminate].
    + apply simulates_one; [reflexivity | | constructor; apply (full_or_room r n q S F)].
      eapply (shape_producer r _ n q i); [exact S | exact A | reflexivity..| exact Sl | apply Mu; reflexivity | discriminate | discriminate | exact Sc | discriminate].
  - destruct Sc as [S1 S2]. intros E; injection E as <- <-. apply simulates_same; [apply length_insert|].
    assert (Ls : (slot r (n + length q) < length (slots r))%nat) by (apply Nat.mod_upper_bound; pose proof (sh_cap _ _ _ S); unfold capacity in *; lia).
    eapply (shape_producer r _ n q i); [exact S | exact A | reflexivity | reflexivity | reflexivity | reflexivity | apply length_insert | | apply Mu; reflexivity | discriminate | discriminate | | discriminate].
    + intros j x E. cbn [slots set_producer putPos]. rewrite S1, list_lookup_insert_ne; [apply Sl, E|]. pose proof (lookup_lt_Some _ _ _ E). intros K. symmetry in K. revert K.
      apply slot_neq; [lia | unfold capacity in S2; lia].
    + cbn [section_ok putPos set_producer]. unfold slot, capacity. cbn [slots]. rewrite length_insert. split_and!; [exact S1 | exact S2|].
      rewrite S1. apply list_lookup_insert_eq, Ls.
  - destruct Sc as (S1 & S2 & S3). intros E; injection E as <- <-. apply simulates_same; [reflexivity|].
    eapply (shape_producer r _ n q i); [exact S | exact A | reflexivity..| exact Sl | apply Mu; reflexivity | discriminate | discriminate | | discriminate].
    split_and!; [|exact S2 | exact S3]. cbn [putPos set_producer]. rewrite S1. apply (add_slot r), (sh_cap _ _ _ S).
  - intros E; injection E as <- <-. split; [reflexivity|]. destruct (shape_push r n q i d S A) as [S' Hl]. exists n, (q ++ [d]). split; [exact S'|].
    econstructor; [constructor; exact Hl | constructor].
  - intros E; injection E as <- <-. apply simulates_one; [reflexivity | | constructor].
    eapply (shape_producer r _ n q i); [exact S | exact A | reflexivity..| exact Sl | reflexivity | discriminate | discriminate | exact I | intros _ _; exact Sc].
Qed.

Lemma ring_step_sim r n q m r' ls : shape r n q -> ring_step r m = (r', ls) -> simulates r r' n q ls.
Proof.
  intros S. destruct m as [i d|i|]; cbn [ring_step]; [|apply produce_sim, S | apply consume_sim, S].
  destruct (producers r !! i) as [p|] eqn:A; [|intros E; injection E as <- <-; apply simulates_same; [reflexivity | exact S]].
  destruct p; intros E; injection E as <- <-; apply simulates_same; try reflexivity; try exact S.
  eapply (shape_producer r _ n q i); [exact S | exact A | reflexivity..| exact (sh_slots _ _ _ S) | reflexivity | discriminate | auto | exact I | discriminate].
Qed.

Lemma queue_run_app cap q l1 q1 l2 q2 : queue_run cap q l1 q1 -> queue_run cap q1 l2 q2 -> queue_run cap q (l1 ++ l2) q2.
Proof. induction 1 as [|q q1 q3 l ls B _ IH]; [auto|]. intros K. econstructor; [exact B | apply IH, K]. Qed.

Lemma ring_run_sim ms : forall r n q r' ls, shape r n q -> ring_run r ms = (r', ls) -> simulates r r' n q ls.
Proof.
  induction ms as [|m ms IH]; intros r n q r' ls S; cbn [ring_run]; [intros E; injection E as <- <-; apply simulates_same; [reflexivity | exact S]|].
  destruct (ring_step r m) as [r1 l1] eqn:E1. destruct (ring_step_sim r n q m r1 l1 S E1) as (L1 & n1 & q1 & S1 & Q1).
  destruct (ring_run r1 ms) as [r2 l2] eqn:E2. destruct (IH r1 n1 q1 r2 l2 S1 E2) as (L2 & n2 & q2 & S2 & Q2). intros E; injection E as <- <-.
  split; [congruence|]. exists n2, q2. split; [exact S2|]. eapply queue_run_app; [exact Q1|]. unfold capacity in *. rewrite <- L1. exact Q2.
Qed.

Lemma shape_new cap k : (0 < cap)%nat -> shape (ring_new cap k) 0 [].
Proof.
  intros H. split; unfold ring_new, capacity, slot, taker_ok; cbn [slots putPos getPos numDatas mutex producers taker length]; rewrite ?repeat_length; try lia; try discriminate.
  - intros i p A. apply list_elem_of_lookup_2, list_elem_of_In, repeat_spec in A. subst p. cbn. split; discriminate.
  - intros _. symmetry. apply Nat.Div0.mod_0_l.
  - intros i p A. apply list_elem_of_lookup_2, list_elem_of_In, repeat_spec in A. subst p. exact I.
  - symmetry. apply Nat.Div0.mod_0_l.
Qed.

(** C37: The ring buffer is a bounded queue: however the steps of any number of
    [addTriggerEvent] calls and of the scheduler's [pop] interleave, between any two
    accesses of the slots, the positions and the counter, what was pushed, refused,
    popped and found empty is a run of a queue of the ring's capacity with atomic
    operations, which at the end holds the elements not yet popped. *)
Theorem ring_is_bounded_queue (cap n : nat) (ms : list move) :
  (0 < cap)%nat ->
  exists q, queue_run (Z.of_nat cap) [] (snd (ring_run (ring_new cap n) ms)) q /\ numDatas (fst (ring_run (ring_new cap n) ms)) = lenZ q.
Proof.
  intros H. destruct (ring_run (ring_new cap n) ms) as [r ls] eqn:E.
  destruct (ring_run_sim ms _ _ _ _ _ (shape_new cap n H) E) as (_ & m & q & S & Q). exists q. split; [|apply (sh_num _ _ _ S)].
  unfold capacity in Q. cbn [slots ring_new] in Q. rewrite repeat_length in Q. exact Q.
Qed.

(** Two producers and the consumer in turns. *)
Definition ring_demo : list move := [Call 0 7; Call 1 8] ++ concat (repeat [Producer 0; Consumer; Producer 1; Consumer] 12).

Lemma ring_is_bounded_queue_witness :
  snd (ring_run (ring_new 2 2) ring_demo) <> [] /\
  exists q, queue_run 2 [] (snd (ring_run (ring_new 2 2) ring_demo)) q /\ numDatas (fst (ring_run (ring_new 2 2) ring_demo)) = lenZ q.
Proof. split; [vm_compute; discriminate | apply (ring_is_bounded_queue 2 2 ring_demo); lia]. Defined.

(** [addTriggerEvent] tests the size before it takes the mutex and does not look at
    what [push] returns: with one free slot two callers pass the test, the second
    event is refused, and its caller is told it was queued. *)
Example trigger_event_lost :
  snd (ring_run (ring_new 1 2) ([Call 0 7; Call 1 8; Producer 0; Producer 1] ++ repeat (Producer 0) 7 ++ repeat (Producer 1) 7)) =
  [Pushed 7; Returned 7 true; Refused 8; Returned 8 true].
Proof. vm_compute. reflexivity. Qed.
