(* ===== verification/RtspTimer.v ===== *)
(** * Timers of the scheduler (rtsp/Timer.h, rtsp/Timer.cpp)

    [TimerQueue] keeps its timers in a map from identifiers and in a map ordered by
    deadline and identifier; both refer to the same [Timer] objects, [objects] here.
    [now] is the steady clock in milliseconds.  [callback] says what the callback of
    a timer returns at its [n]-th run of all; [fired] lists the identifiers whose
    callbacks ran. *)

From stdpp Require Import gmap.
From S2P Require Import Prelude.

Local Open Scope Z_scope.

Record Timer := mkTimer { interval : Z; nextTimeout : Z }.

(** An entry of [_events]: deadline, identifier, object. *)
Abbreviation entry := (Z * Z * nat)%type.

Record TimerQueue := mkQueue {
  objects : list Timer; timers : gmap Z nat; events : list entry; lastTimerId : Z; fired : list Z }.

Definition queue_new : TimerQueue := mkQueue [] ∅ [] 0 [].

(** [std::pair] compares the deadlines, then the identifiers. *)
Definition key_lt (a b : Z * Z) : bool := (a.1 <? b.1) || (a.1 =? b.1) && (a.2 <? b.2).
Definition key_eq (a b : Z * Z) : bool := (a.1 =? b.1) && (a.2 =? b.2).

(** [_events.emplace]: a key that is there stays. *)
Fixpoint emplace_event (k : Z * Z) (o : nat) (es : list entry) : list entry :=
  match es with
  | [] => [(k, o)]
  | (k', o') :: es' => if key_lt k k' then (k, o) :: es else if key_eq k k' then es else (k', o') :: emplace_event k o es'
  end.

Definition erase_event (k : Z * Z) (es : list entry) : list entry := List.filter (fun e => negb (key_eq e.1 k)) es.

(** [Timer::Timer] and [Timer::setNextTimeout]. *)
Definition new_timer (ms now : Z) : Timer := let i := if ms =? 0 then 1 else ms in mkTimer i (now + i).
Definition setNextTimeout (now : Z) (t : Timer) : Timer := mkTimer (interval t) (now + interval t).

(** [TimerQueue::addTimer] *)
Definition addTimer (now ms : Z) (q : TimerQueue) : Z * TimerQueue :=
  let timerId := u32 (lastTimerId q + 1) in
  let o := length (objects q) in
  (timerId, mkQueue (objects q ++ [new_timer ms now]) (match timers q !! timerId with None => <[timerId := o]> (timers q) | Some _ => timers q end)
     (emplace_event (now + ms, timerId) o (events q)) timerId (fired q)).

(** [TimerQueue::removeTimer] *)
Definition removeTimer (timerId : Z) (q : TimerQueue) : outcome TimerQueue :=
  match timers q !! timerId with
  | Some o =>
      match objects q !! o with
      | Some t => Ret (mkQueue (objects q) (delete timerId (timers q)) (erase_event (nextTimeout t, timerId) (events q)) (lastTimerId q) (fired q))
      | None => Crash NullDeref
      end
  | None => Ret q
  end.

(** [TimerQueue::getTimeRemaining] *)
Definition getTimeRemaining (now : Z) (q : TimerQueue) : outcome Z :=
  if decide (timers q = ∅) then Ret (-1)
  else match events q with
       | [] => Crash NullDeref
       | (t, _, _) :: _ => let msec := t - now in Ret (if msec <=? 0 then 0 else msec)
       end.

(** The loop of [TimerQueue::handleTimerEvent]. *)
Fixpoint timer_loop (fuel : nat) (callback : Z -> nat -> bool) (now : Z) (q : TimerQueue) : outcome TimerQueue :=
  match fuel with
  | O => Crash Diverge
  | S fuel =>
      if decide (timers q = ∅) then Ret q
      else match events q with
           | [] => Crash NullDeref
           | (t, timerId, o) :: es =>
               if t <=? now then
                 let flag := callback timerId (length (fired q)) in
                 let fired' := fired q ++ [timerId] in
                 if flag then
                   match objects q !! o with
                   | Some x =>
                       let x := setNextTimeout now x in
                       timer_loop fuel callback now
                         (mkQueue (<[o := x]> (objects q)) (timers q) (emplace_event (nextTimeout x, timerId) o es) (lastTimerId q) fired')
                   | None => Crash NullDeref
                   end
                 else timer_loop fuel callback now (mkQueue (objects q) (delete timerId (timers q)) (events q) (lastTimerId q) fired')
               else Ret q
           end
  end.

(** [TimerQueue::handleTimerEvent]; [fuel] bounds the rounds of the loop, which the
    code does not. *)
Definition handleTimerEvent (fuel : nat) (callback : Z -> nat -> bool) (now : Z) (q : TimerQueue) : outcome TimerQueue :=
  if decide (timers q = ∅) then Ret q else timer_loop fuel callback now q.

(** ** The invariant *)

Fixpoint sorted (es : list entry) : Prop :=
  match es with
  | [] => True
  | e :: es => (forall e', In e' es -> key_lt e.1 e'.1 = true) /\ sorted es
  end.

(** The two maps hold the same timers, each under its next deadline. *)
Record timers_ok (q : TimerQueue) : Prop := {
  tm_sorted : sorted (events q);
  tm_event : forall t id o, In (t, id, o) (events q) -> timers q !! id = Some o;
  tm_timer : forall id o, timers q !! id = Some o -> exists x, objects q !! o = Some x /\ 1 <= interval x /\ In (nextTimeout x, id, o) (events q);
  tm_once : NoDup (map (fun e => e.1.2) (events q));
  tm_own : forall id id' o, timers q !! id = Some o -> timers q !! id' = Some o -> id = id';
  tm_ids : forall id o, timers q !! id = Some o -> 0 < id <= lastTimerId q }.

(** The timers that are due, by deadline. *)
Definition due (now : Z) (es : list entry) : list entry := List.filter (fun e => e.1.1 <=? now) es.

Abbreviation ids es := (map (fun e : entry => e.1.2) es).

Lemma key_lt_trans a b d : key_lt a b = true -> key_lt b d = true -> key_lt a d = true.
Proof. unfold key_lt. lia. Qed.

Lemma key_total a b : key_lt a b = false -> key_eq a b = false -> key_lt b a = true.
Proof. unfold key_lt, key_eq. lia. Qed.

(** With a new key the entry is put in its place. *)
Lemma emplace_perm k o es : ~ In k.2 (ids es) -> Permutation (emplace_event k o es) ((k, o) :: es).
Proof.
  induction es as [|[k' o'] es IH]; cbn [emplace_event]; intros N; [reflexivity|]. destruct (key_lt k k'); [reflexivity|].
  destruct (key_eq k k') eqn:E; [exfalso; apply N; left; unfold key_eq in E; cbn; lia|].
  rewrite IH by (intros H; apply N; right; exact H). apply perm_swap.
Qed.

Lemma emplace_in k o es e : ~ In k.2 (ids es) -> In e (emplace_event k o es) <-> e = (k, o) \/ In e es.
Proof.
  intros N. split; intros H.
  - apply (Permutation_in _ (emplace_perm k o es N)) in H as [<-|H]; auto.
  - apply (Permutation_in _ (Permutation_sym (emplace_perm k o es N))). destruct H as [->|H]; [left; reflexivity | right; exact H].
Qed.

Lemma emplace_sorted k o es : ~ In k.2 (ids es) -> sorted es -> sorted (emplace_event k o es).
Proof.
  induction es as [|[k' o'] es IH]; cbn [emplace_event]; intros N S; [split; [intros e [] | exact I]|]. destruct S as [S1 S2].
  assert (N' : ~ In k.2 (ids es)) by (intros H; apply N; right; exact H).
  destruct (key_lt k k') eqn:L.
  - split; [|split; assumption]. intros e [<-|H]; [exact L|]. eapply key_lt_trans; [exact L | apply S1, H].
  - destruct (key_eq k k') eqn:E; [split; assumption|]. split; [|apply IH; assumption]. intros e H. apply emplace_in in H as [->|H]; [|apply S1, H | exact N'].
    apply key_total; assumption.
Qed.

(** A deadline in the future is not due. *)
Lemma emplace_due now k o es : now < k.1 -> due now (emplace_event k o es) = due now es.
Proof.
  intros H. induction es as [|[k' o'] es IH]; cbn [emplace_event]; [cbn; rewrite (proj2 (Z.leb_gt _ _)) by exact H; reflexivity|].
  destruct (key_lt k k'); [unfold due; cbn [List.filter fst]; rewrite (proj2 (Z.leb_gt k.1 now)) by exact H; reflexivity|].
  destruct (key_eq k k'); [reflexivity|]. unfold due in *. cbn [List.filter fst]. rewrite IH. reflexivity.
Qed.

Lemma sorted_due now e es : sorted (e :: es) -> now < e.1.1 -> due now (e :: es) = [].
Proof.
  intros [S _] H. unfold due. cbn [List.filter]. rewrite (proj2 (Z.leb_gt _ _)) by exact H. induction es as [|e' es IH]; [reflexivity|].
  cbn [List.filter]. assert (L : key_lt e.1 e'.1 = true) by (apply S; left; reflexivity). rewrite (proj2 (Z.leb_gt _ _)) by (unfold key_lt in L; lia).
  apply IH. intros x Hx. apply S. right. exact Hx.
Qed.

Lemma sorted_tail e es : sorted (e :: es) -> sorted es.
Proof. intros [_ S]. exact S. Qed.

Lemma in_ids t id o (es : list entry) : In (t, id, o) es -> In id (ids es).
Proof. intros H. apply in_map_iff. exists (t, id, o). auto. Qed.

(** An identifier has one entry. *)
Lemma once_entry es : NoDup (ids es) -> forall t id o t' o', In (t, id, o) es -> In (t', id, o') es -> t = t' /\ o = o'.
Proof.
  induction es as [|[[t0 id0] o0] es IH]; intros N t id o t' o' A B; [destruct A|]. cbn [map fst snd] in N. apply NoDup_cons in N as [N1 N2].
  rewrite list_elem_of_In in N1. destruct A as [A|A], B as [B|B].
  - split; congruence.
  - exfalso. apply N1. injection A as <- <- <-. eapply in_ids, B.
  - exfalso. apply N1. injection B as <- <- <-. eapply in_ids, A.
  - eapply IH; eassumption.
Qed.

(** The deadline of an entry is the object's. *)
Lemma entry_next q t id o x : timers_ok q -> In (t, id, o) (events q) -> objects q !! o = Some x -> t = nextTimeout x /\ 1 <= interval x.
Proof.
  intros T H E. destruct (tm_timer _ T id o (tm_event _ T t id o H)) as (y & Ey & I & H'). rewrite E in Ey. injection Ey as <-.
  split; [apply (once_entry _ (tm_once _ T) _ _ _ _ _ H H') | exact I].
Qed.

(** The first timer goes to the back. *)
Lemma timers_ok_rearm q now t id o es x f : timers_ok q -> events q = (t, id, o) :: es -> objects q !! o = Some x ->
  timers_ok (mkQueue (<[o := setNextTimeout now x]> (objects q)) (timers q) (emplace_event (now + interval x, id) o es) (lastTimerId q) f).
Proof.
  intros T E Ex. assert (H0 : In (t, id, o) (events q)) by (rewrite E; left; reflexivity). pose proof (tm_once _ T) as N. rewrite E in N. cbn [map fst snd] in N.
  apply NoDup_cons in N as [N1 N2]. rewrite list_elem_of_In in N1. assert (Nk : ~ In (now + interval x, id).2 (ids es)) by exact N1.
  split; cbn [objects timers events lastTimerId].
  - apply emplace_sorted; [exact Nk|]. pose proof (tm_sorted _ T) as S. rewrite E in S. apply (sorted_tail _ _ S).
  - intros t' id' o' H. apply emplace_in in H as [H|H]; [|apply (tm_event _ T t'); rewrite E; right; exact H | exact Nk].
    injection H as -> -> ->. apply (tm_event _ T _ _ _ H0).
  - intros id' o' H. destruct (tm_timer _ T id' o' H) as (y & Ey & I & K). destruct (decide (o' = o)) as [->|No].
    + assert (id' = id) as -> by (eapply (tm_own _ T); [exact H | apply (tm_event _ T _ _ _ H0)]). rewrite Ex in Ey. injection Ey as <-.
      exists (setNextTimeout now x). rewrite list_lookup_insert_eq by (eapply lookup_lt_Some, Ex). split_and!; [reflexivity | exact I|].
      apply emplace_in; [exact Nk | left; reflexivity].
    + exists y. rewrite list_lookup_insert_ne by congruence. split_and!; [exact Ey | exact I|]. apply emplace_in; [exact Nk|]. right.
      rewrite E in K. destruct K as [K|K]; [injection K as _ _ ->; congruence | exact K].
  - rewrite (emplace_perm _ o es Nk). cbn [map fst snd]. apply NoDup_cons. rewrite list_elem_of_In. auto.
  - apply (tm_own _ T).
  - apply (tm_ids _ T).
Qed.

Definition always (_ : Z) (_ : nat) : bool := true.

Lemma no_timers q : timers_ok q -> timers q = ∅ -> events q = [].
Proof.
  intros T E. destruct (events q) as [|[[t id] o] es] eqn:Ev; [reflexivity|]. pose proof (tm_event _ T t id o) as K. rewrite Ev, E in K.
  specialize (K (or_introl eq_refl)). rewrite lookup_empty in K. discriminate.
Qed.

Lemma loop_fires now fuel : forall q, timers_ok q -> (length (due now (events q)) < fuel)%nat ->
  exists q', timer_loop fuel always now q = Ret q' /\ fired q' = fired q ++ ids (due now (events q)) /\ timers_ok q' /\ due now (events q') = [] /\
    timers q' = timers q /\ lastTimerId q' = lastTimerId q.
Proof.
  induction fuel as [|fuel IH]; intros q T H; [lia|]. cbn [timer_loop].
  destruct (decide (timers q = ∅)) as [E|NE].
  { exists q. rewrite (no_timers q T E). cbn. rewrite app_nil_r. auto 8. }
  destruct (events q) as [|[[t id] o] es] eqn:Ev.
  { exfalso. apply NE, map_empty. intros id. destruct (timers q !! id) as [o|] eqn:G; [|reflexivity]. destruct (tm_timer _ T id o G) as (x & _ & _ & K). rewrite Ev in K. destruct K. }
  pose proof (tm_sorted _ T) as S. rewrite Ev in S. destruct (Z.leb_spec t now) as [L|L].
  2:{ exists q. rewrite (sorted_due now (t, id, o) es S L). cbn [map]. rewrite app_nil_r, Ev. split_and!; auto. apply (sorted_due now (t, id, o) es S L). }
  assert (H0 : In (t, id, o) (events q)) by (rewrite Ev; left; reflexivity).
  destruct (tm_timer _ T id o (tm_event _ T _ _ _ H0)) as (x & Ex & I & _). unfold always at 1. rewrite Ex.
  assert (D : due now ((t, id, o) :: es) = (t, id, o) :: due now es) by (unfold due; cbn [List.filter fst]; rewrite (proj2 (Z.leb_le _ _)) by exact L; reflexivity).
  rewrite D in H |- *. cbn [length] in H. change (nextTimeout (setNextTimeout now x)) with (now + interval x).
  match goal with |- context [timer_loop fuel always now ?y] => set (q1 := y) end.
  assert (De : due now (events q1) = due now es) by (unfold q1; cbn [events]; apply emplace_due; cbn; lia).
  destruct (IH q1 (timers_ok_rearm q now t id o es x _ T Ev Ex)) as (q' & E' & F' & T' & D' & M' & L'); [rewrite De; lia|].
  exists q'. rewrite E', F', De. unfold q1. cbn [fired map fst snd timers lastTimerId] in *. rewrite <- app_assoc. split_and!; auto.
Qed.

(** ** The operations keep it *)

Lemma timers_ok_new : timers_ok queue_new.
Proof.
  split; cbn [queue_new events timers lastTimerId map sorted]; try (intros *; rewrite lookup_empty; discriminate); [exact I | intros t id o [] | constructor].
Qed.

Lemma addTimer_ok now ms q : timers_ok q -> 1 <= ms -> 0 <= lastTimerId q < 4294967295 ->
  timers_ok (addTimer now ms q).2 /\ (addTimer now ms q).1 = lastTimerId q + 1 /\ lastTimerId (addTimer now ms q).2 = lastTimerId q + 1.
Proof.
  intros T Hm Hl. unfold addTimer. rewrite u32_id by (unfold is_u32; lia). cbn [fst snd lastTimerId]. split_and!; [|reflexivity | reflexivity].
  set (id := lastTimerId q + 1). set (o := length (objects q)).
  assert (Nt : timers q !! id = None) by (destruct (timers q !! id) as [x|] eqn:G; [apply (tm_ids _ T) in G; lia | reflexivity]). rewrite Nt.
  assert (Nk : ~ In (now + ms, id).2 (ids (events q))).
  { intros H. apply in_map_iff in H as ([[t id'] o'] & E & H). cbn in E. subst id'. pose proof (tm_event _ T _ _ _ H). congruence. }
  assert (No : forall id' o', timers q !! id' = Some o' -> (o' < o)%nat) by (intros id' o' G; destruct (tm_timer _ T id' o' G) as (x & Ex & _); apply (lookup_lt_Some _ _ _ Ex)).
  split; cbn [objects timers events lastTimerId].
  - apply emplace_sorted; [exact Nk | apply T].
  - intros t id' o' H. apply emplace_in in H as [H|H]; [|pose proof (tm_event _ T _ _ _ H) as G; rewrite lookup_insert_ne; [exact G | congruence] | exact Nk].
    injection H as -> -> ->. apply lookup_insert_eq.
  - intros id' o' G. apply lookup_insert_Some in G as [[<- <-]|[N G]].
    + exists (new_timer ms now). rewrite list_lookup_middle by reflexivity. unfold new_timer. rewrite (proj2 (Z.eqb_neq ms 0)) by lia.
      split_and!; [reflexivity | exact Hm | apply emplace_in; [exact Nk | left; reflexivity]].
    + destruct (tm_timer _ T id' o' G) as (x & Ex & I & H). exists x. split_and!; [apply lookup_app_l_Some, Ex | exact I | apply emplace_in; [exact Nk | right; exact H]].
  - rewrite (emplace_perm _ o _ Nk). cbn [map fst snd]. apply NoDup_cons. rewrite list_elem_of_In. split; [exact Nk | apply T].
  - intros a b o' A B. apply lookup_insert_Some in A as [[<- <-]|[Na A]]; apply lookup_insert_Some in B as [[<- E]|[Nb B]].
    + reflexivity.
    + apply No in B. lia.
    + apply No in A. lia.
    + eapply (tm_own _ T); eassumption.
  - intros id' o' G. apply lookup_insert_Some in G as [[<- <-]|[N G]]; [lia | apply (tm_ids _ T) in G; lia].
Qed.

Lemma erase_in q t id o e : timers_ok q -> In (t, id, o) (events q) -> In e (erase_event (t, id) (events q)) <-> In e (events q) /\ e.1.2 <> id.
Proof.
  intros T H. unfold erase_event. rewrite filter_In. destruct e as [[t' id'] o']. cbn [fst snd]. split; intros [A B]; (split; [exact A|]).
  - intros ->. destruct (once_entry _ (tm_once _ T) _ _ _ _ _ H A) as [<- _]. unfold key_eq in B. cbn in B. lia.
  - unfold key_eq. cbn. lia.
Qed.

Lemma filter_sorted f es : sorted es -> sorted (List.filter f es).
Proof.
  induction es as [|e es IH]; [auto|]. intros [S1 S2]. cbn [List.filter]. destruct (f e); [|apply IH, S2]. split; [|apply IH, S2].
  intros e' H. apply filter_In in H as [H _]. apply S1, H.
Qed.

Lemma filter_NoDup f (es : list entry) : NoDup (ids es) -> NoDup (ids (List.filter f es)).
Proof.
  induction es as [|e es IH]; [auto|]. cbn [map]. intros N. apply NoDup_cons in N as [N1 N2]. cbn [List.filter]. destruct (f e); [|apply IH, N2].
  cbn [map]. apply NoDup_cons. split; [|apply IH, N2]. rewrite list_elem_of_In in *. intros H. apply N1. apply in_map_iff in H as (x & Ex & H).
  apply in_map_iff. exists x. split; [exact Ex | apply filter_In in H; apply H].
Qed.

(** A timer that is removed is in neither map afterwards, and no other is touched. *)
Lemma removeTimer_ok id q : timers_ok q -> exists q', removeTimer id q = Ret q' /\ timers_ok q' /\ timers q' = delete id (timers q) /\ lastTimerId q' = lastTimerId q /\ fired q' = fired q.
Proof.
  intros T. unfold removeTimer. destruct (timers q !! id) as [o|] eqn:G.
  2:{ exists q. rewrite delete_id by exact G. auto 8. }
  destruct (tm_timer _ T id o G) as (x & -> & _ & H). eexists. split; [reflexivity|]. split_and!; try reflexivity.
  pose proof (fun e => erase_in q (nextTimeout x) id o e T H) as Er.
  split; cbn [objects timers events lastTimerId].
  - apply filter_sorted, T.
  - intros t id' o' K. apply Er in K as [K N]. cbn in N. rewrite lookup_delete_ne by congruence. apply (tm_event _ T _ _ _ K).
  - intros id' o' K. apply lookup_delete_Some in K as [N K]. destruct (tm_timer _ T id' o' K) as (y & Ey & I & H'). exists y.
    split_and!; [exact Ey | exact I | apply Er; split; [exact H' | cbn; congruence]].
  - apply filter_NoDup, T.
  - intros a b o' A B. apply lookup_delete_Some in A as [_ A]. apply lookup_delete_Some in B as [_ B]. eapply (tm_own _ T); eassumption.
  - intros id' o' K. apply lookup_delete_Some in K as [_ K]. apply (tm_ids _ T _ _ K).
Qed.

(** ** Runs *)

Inductive timer_op := Add (now ms : Z) | Remove (id : Z) | Handle (now : Z).

Definition timer_step (op : timer_op) (q : TimerQueue) : outcome TimerQueue :=
  match op with
  | Add now ms => Ret (addTimer now ms q).2
  | Remove id => removeTimer id q
  | Handle now => handleTimerEvent (S (length (events q))) always now q
  end.

Fixpoint timer_run (ops : list timer_op) (q : TimerQueue) : outcome TimerQueue :=
  match ops with [] => Ret q | op :: ops => let! q := timer_step op q in timer_run ops q end.

Definition op_ok (op : timer_op) : Prop := match op with Add _ ms => 1 <= ms | _ => True end.

Lemma due_length now es : (length (due now es) <= length es)%nat.
Proof. unfold due. induction es as [|e es IH]; cbn [List.filter length]; [lia|]. destruct (_ <=? _); cbn [length]; lia. Qed.

Lemma timer_step_ok op q : timers_ok q -> op_ok op -> 0 <= lastTimerId q < 4294967295 ->
  exists q', timer_step op q = Ret q' /\ timers_ok q' /\ lastTimerId q <= lastTimerId q' <= lastTimerId q + 1.
Proof.
  intros T O L. destruct op as [now ms|id|now]; cbn [timer_step op_ok] in *.
  - destruct (addTimer_ok now ms q T O L) as (T' & _ & L'). eexists. split; [reflexivity|]. rewrite L'. split; [exact T' | lia].
  - destruct (removeTimer_ok id q T) as (q' & E & T' & _ & L' & _). exists q'. rewrite L'. split_and!; auto; lia.
  - unfold handleTimerEvent. destruct (decide (timers q = ∅)); [exists q; split_and!; auto; lia|].
    destruct (loop_fires now (S (length (events q))) q T) as (q' & E & _ & T' & _ & _ & L'); [pose proof (due_length now (events q)); lia|].
    exists q'. rewrite L'. split_and!; auto; lia.
Qed.

Lemma timer_run_ok ops : Forall op_ok ops -> forall q, timers_ok q -> 0 <= lastTimerId q -> lastTimerId q + lenZ ops < 4294967295 ->
  exists q', timer_run ops q = Ret q' /\ timers_ok q'.
Proof.
  induction 1 as [|op ops O _ IH]; intros q T L H; cbn [timer_run]; [eauto|]. cbn [length] in H.
  destruct (timer_step_ok op q T O) as (q1 & -> & T1 & L1); [lia|]. cbn [obind]. apply IH; [exact T1 | lia | lia].
Qed.

(** The timer is running and its deadline has come. *)
Definition is_due (q : TimerQueue) (now id : Z) : Prop :=
  exists o x, timers q !! id = Some o /\ objects q !! o = Some x /\ nextTimeout x <= now.

Lemma due_is_due q now id : timers_ok q -> In id (ids (due now (events q))) <-> is_due q now id.
Proof.
  intros T. rewrite in_map_iff. split.
  - intros ([[t id'] o] & E & H). cbn in E. subst id'. unfold due in H. apply filter_In in H as [H L]. cbn in L.
    pose proof (tm_event _ T _ _ _ H) as G. destruct (tm_timer _ T _ _ G) as (x & Ex & _). destruct (entry_next q t id o x T H Ex) as [-> _]. exists o, x. split_and!; [exact G | exact Ex | lia].
  - intros (o & x & G & Ex & L). destruct (tm_timer _ T _ _ G) as (y & Ey & _ & H). rewrite Ex in Ey. injection Ey as <-.
    exists (nextTimeout x, id, o). split; [reflexivity|]. unfold due. apply filter_In. split; [exact H | cbn; lia].
Qed.

(** The time the timer is to fire next. *)
Definition deadline (q : TimerQueue) (id t : Z) : Prop :=
  exists o x, timers q !! id = Some o /\ objects q !! o = Some x /\ nextTimeout x = t.

Lemma sorted_lookup es : sorted es -> forall i j a b, (i < j)%nat -> es !! i = Some a -> es !! j = Some b -> key_lt a.1 b.1 = true.
Proof.
  induction es as [|e es IH]; intros S0 i j a b L A B; [discriminate|]. destruct S0 as [H S]. destruct j as [|j]; [lia|]. cbn in B. destruct i as [|i].
  - injection A as <-. apply H, list_elem_of_In, (list_elem_of_lookup_2 _ _ _ B).
  - exact (IH S i j a b ltac:(lia) A B).
Qed.

(** The timers fire by deadline, those with the same one by number. *)
Definition by_deadline (q : TimerQueue) (l : list Z) : Prop :=
  forall i j a b ta tb, (i < j)%nat -> l !! i = Some a -> l !! j = Some b -> deadline q a ta -> deadline q b tb -> ta < tb \/ ta = tb /\ a < b.

Lemma due_by_deadline q now : timers_ok q -> by_deadline q (ids (due now (events q))).
Proof.
  intros T i j a b ta tb L A B Da Db.
  assert (K : forall k id t, ids (due now (events q)) !! k = Some id -> deadline q id t -> exists o, due now (events q) !! k = Some (t, id, o)).
  { intros k id t K (o & x & G & Ex & <-). apply list_lookup_fmap_Some in K as ([[t' id'] o'] & -> & K). cbn in *.
    pose proof (proj1 (list_elem_of_In _ _) (list_elem_of_lookup_2 _ _ _ K)) as H. apply filter_In in H as [H _].
    pose proof (tm_event _ T _ _ _ H) as G'. rewrite G in G'. injection G' as <-. exists o. rewrite K.
    destruct (entry_next q t' id' o x T H Ex) as [-> _]. reflexivity. }
  destruct (K i a ta A Da) as [oa A']. destruct (K j b tb B Db) as [ob B'].
  pose proof (sorted_lookup _ (filter_sorted _ _ (tm_sorted _ T)) i j _ _ L A' B') as S. unfold key_lt in S. cbn in S. lia.
Qed.

(** C38: Repeating timers: after any sequence of at most 2^32 - 2 calls of [addTimer]
    with a period of at least 1 ms, [removeTimer] and [handleTimerEvent], when every
    callback asks for repetition, the queue is well formed, and a call of
    [handleTimerEvent] returns, having run the callback of every timer whose deadline
    has come exactly once and no other, in the order of the deadlines (those with the
    same one by number), keeps all timers, and leaves the scheduler no timer that is
    due, so that it waits. *)
Theorem timers_fire_once (ops : list timer_op) (now : Z) :
  Forall op_ok ops -> lenZ ops < 4294967295 ->
  exists q, timer_run ops queue_new = Ret q /\ forall fuel, (length (events q) < fuel)%nat ->
    exists q' l, handleTimerEvent fuel always now q = Ret q' /\ fired q' = fired q ++ l /\ NoDup l /\ (forall id, In id l <-> is_due q now id) /\ by_deadline q l /\
      timers q' = timers q /\ (forall id, ~ is_due q' now id) /\ exists ms, getTimeRemaining now q' = Ret ms /\ ms <> 0.
Proof.
  intros O H. destruct (timer_run_ok ops O queue_new timers_ok_new) as (q & E & T); [cbn; lia | cbn [lastTimerId queue_new]; lia|]. exists q. split; [exact E|].
  intros fuel Hf. destruct (loop_fires now fuel q T) as (q' & E' & F' & T' & D' & M' & _); [pose proof (due_length now (events q)); lia|].
  exists q', (ids (due now (events q))). unfold handleTimerEvent.
  assert (E2 : (if decide (timers q = ∅) then Ret q else timer_loop fuel always now q) = Ret q').
  { destruct (decide (timers q = ∅)) as [Em|]; [|exact E']. rewrite <- E'. destruct fuel; [lia|]. cbn [timer_loop]. rewrite decide_True by exact Em. reflexivity. }
  split_and!; [exact E2 | exact F' | apply filter_NoDup, T | intros id; apply due_is_due, T | apply due_by_deadline, T | exact M' | intros id K; apply (due_is_due q' now id T') in K; rewrite D' in K; destruct K|].
  unfold getTimeRemaining. destruct (decide (timers q' = ∅)) as [Em|Ne]; [exists (-1); split; [reflexivity | lia]|].
  destruct (events q') as [|[[t id] o] es] eqn:Ev.
  - exfalso. apply Ne, map_empty. intros id. destruct (timers q' !! id) as [o|] eqn:G; [|reflexivity]. destruct (tm_timer _ T' id o G) as (x & _ & _ & K). rewrite Ev in K. destruct K.
  - unfold due in D'. cbn [List.filter fst] in D'. destruct (Z.leb_spec t now) as [K|K]; [discriminate|]. rewrite (proj2 (Z.leb_gt _ _)) by lia. eexists. split; [reflexivity | lia].
Qed.

Lemma timers_fire_once_witness :
  exists q, timer_run [Add 100 20; Add 100 5; Add 101 7; Remove 2; Handle 108] queue_new = Ret q /\ forall fuel, (length (events q) < fuel)%nat ->
    exists q' l, handleTimerEvent fuel always 130 q = Ret q' /\ fired q' = fired q ++ l /\ NoDup l /\ (forall id, In id l <-> is_due q 130 id) /\ by_deadline q l /\
      timers q' = timers q /\ (forall id, ~ is_due q' 130 id) /\ exists ms, getTimeRemaining 130 q' = Ret ms /\ ms <> 0.
Proof.
  apply (timers_fire_once [Add 100 20; Add 100 5; Add 101 7; Remove 2; Handle 108] 130); [repeat constructor; cbn; lia | cbn; lia].
Defined.

(** A callback that returns false for timer 1. *)
Definition once (id : Z) (_ : nat) : bool := negb (id =? 1).

(** The queue after such a run of timer 1, beside timer 2. *)
Definition stuck (f : list Z) : TimerQueue :=
  mkQueue [mkTimer 30 30; mkTimer 50 50] {[2 := 1%nat]} [(30, 1, 0%nat); (50, 2, 1%nat)] 2 f.

Lemma stuck_loops now : 30 <= now -> forall fuel f, timer_loop fuel once now (stuck f) = Crash Diverge.
Proof.
  intros H fuel. induction fuel as [|fuel IH]; intros f; [reflexivity|]. cbn [timer_loop stuck timers events objects lastTimerId fired].
  rewrite decide_False by (apply insert_non_empty). rewrite (proj2 (Z.leb_le 30 now)) by exact H. change (once 1 (length f)) with false. cbn iota.
  assert (D : delete 1 ({[2 := 1%nat]} : gmap Z nat) = {[2 := 1%nat]}) by (vm_compute; reflexivity). rewrite D. apply IH.
Qed.

(** A timer whose callback returns false, as the one that removes a closed connection
    does, is taken from one map only: with another timer in the queue
    [handleTimerEvent] runs that callback again and again and never returns. *)
Theorem oneshot_timer_never_returns (fuel : nat) (now : Z) :
  30 <= now -> handleTimerEvent fuel once now (addTimer 0 50 (addTimer 0 30 queue_new).2).2 = Crash Diverge.
Proof.
  intros H. assert (E : (addTimer 0 50 (addTimer 0 30 queue_new).2).2 =
    mkQueue [mkTimer 30 30; mkTimer 50 50] {[2 := 1%nat; 1 := 0%nat]} [(30, 1, 0%nat); (50, 2, 1%nat)] 2 []) by (vm_compute; reflexivity).
  rewrite E. unfold handleTimerEvent. cbn [timers]. rewrite decide_False by (apply insert_non_empty). destruct fuel as [|fuel]; [reflexivity|].
  cbn [timer_loop timers events objects lastTimerId fired]. rewrite decide_False by (apply insert_non_empty). rewrite (proj2 (Z.leb_le 30 now)) by exact H.
  change (once 1 (length (@nil Z))) with false. cbn iota.
  assert (D : delete 1 ({[2 := 1%nat; 1 := 0%nat]} : gmap Z nat) = {[2 := 1%nat]}) by (vm_compute; reflexivity). rewrite D. apply (stuck_loops now H).
Qed.

Lemma oneshot_timer_never_returns_witness : handleTimerEvent 1000 once 31 (addTimer 0 50 (addTimer 0 30 queue_new).2).2 = Crash Diverge.
Proof. apply (oneshot_timer_never_returns 1000 31). lia. Defined.

(** A timer of period 0 is queued under the time it was added and removed under the
    next millisecond: its event stays. *)
Example zero_timer_stays : exists q, removeTimer 1 (addTimer 0 0 queue_new).2 = Ret q /\ timers q = ∅ /\ events q <> [].
Proof. eexists. split; [vm_compute; reflexivity|]. split; [vm_compute; reflexivity | discriminate]. Qed.
