(* ===== verification/RtspIo.v ===== *)
(** * The receive buffer of a TCP connection (rtsp/BufferReader.h, rtsp/BufferReader.cpp)

    The received bytes that are not consumed yet, in a vector with two indices.
    What [recv] answers is an argument.  The specification is a queue of bytes
    with a count of those received since it was last empty: the vector is never
    compacted, so that count is what the limit of the buffer is about. *)

From S2P Require Import Prelude.

Local Open Scope Z_scope.

(** ** BufferReader *)

Module Reader.

Definition MAX_BYTES_PER_READ : Z := 2048.
Definition MAX_BUFFER_SIZE : Z := 10240.
Definition kInitialSize : nat := 2048.

Record BufferReader := mkReader { buffer : list Z; readerIndex : Z; writerIndex : Z }.

Definition new_reader : BufferReader := mkReader (repeat 0 kInitialSize) 0 0.

Definition readableBytes (b : BufferReader) : Z := u32 (writerIndex b - readerIndex b).
Definition writableBytes (b : BufferReader) : Z := u32 (lenZ (buffer b) - writerIndex b).

(** The bytes between [peek()] and [beginWrite()]. *)
Definition readable (b : BufferReader) : list Z :=
  drop (Z.to_nat (readerIndex b)) (take (Z.to_nat (writerIndex b)) (buffer b)).

Definition retrieveAll (b : BufferReader) : BufferReader := mkReader (buffer b) 0 0.

Definition retrieve (len : Z) (b : BufferReader) : BufferReader :=
  if len <=? readableBytes b then
    let r := readerIndex b + len in
    if r =? writerIndex b then mkReader (buffer b) 0 0 else mkReader (buffer b) r (writerIndex b)
  else retrieveAll b.

(** [::recv] at [beginWrite()], a negative number or the bytes it gives, and what [readFd] does behind it. *)
Definition recv (got : Z + list Z) (b : BufferReader) : outcome (Z * BufferReader) :=
  match got with
  | inl e => Ret (e, b)
  | inr bytes =>
      let! m := stores (buffer b) (Z.to_nat (writerIndex b)) bytes in
      Ret (lenZ bytes, mkReader m (readerIndex b) (if 0 <? lenZ bytes then writerIndex b + lenZ bytes else writerIndex b))
  end.

Definition readFd (got : Z + list Z) (b : BufferReader) : outcome (Z * BufferReader) :=
  if writableBytes b <? MAX_BYTES_PER_READ then
    if MAX_BUFFER_SIZE <? lenZ (buffer b) then Ret (0, b)
    else recv got (mkReader (buffer b ++ repeat 0 (Z.to_nat MAX_BYTES_PER_READ)) (readerIndex b) (writerIndex b))
  else recv got b.

(** [readAll]: the string it assigns, when there is one. *)
Definition readAll (b : BufferReader) : option (list Z) * BufferReader :=
  if 0 <? readableBytes b then (Some (readable b), mkReader (buffer b) 0 0) else (None, b).

(** [std::search] and [std::find_end] for the two bytes CR LF: the offset from [peek()]. *)
Fixpoint first_crlf (l : list Z) : option nat :=
  match l with
  | x :: t => if (x =? 13) && (match t with y :: _ => y =? 10 | [] => false end) then Some 0%nat else S <$> first_crlf t
  | [] => None
  end.

Fixpoint last_crlf (l : list Z) : option nat :=
  match l with
  | x :: t =>
      match last_crlf t with
      | Some n => Some (S n)
      | None => match t with y :: _ => if (x =? 13) && (y =? 10) then Some 0%nat else None | [] => None end
      end
  | [] => None
  end.

Definition findFirstCrlf (b : BufferReader) : option nat := first_crlf (readable b).
Definition findLastCrlf (b : BufferReader) : option nat := last_crlf (readable b).

(** [retrieveUntil(end)] with [end = peek() + n]. *)
Definition retrieveUntil (n : nat) (b : BufferReader) : BufferReader := retrieve (Z.of_nat n) b.

(** [readUntilCrlf]: the string it assigns, up to and with the last CR LF. *)
Definition readUntilCrlf (b : BufferReader) : option (list Z) * BufferReader :=
  match findLastCrlf b with
  | None => (None, b)
  | Some n => (Some (take (n + 2) (readable b)), retrieve (Z.of_nat n + 2) b)
  end.

Definition ok (b : BufferReader) : Prop :=
  0 <= readerIndex b <= writerIndex b /\ writerIndex b <= lenZ (buffer b) /\ lenZ (buffer b) <= 12288.

Lemma readable_length b : ok b -> lenZ (readable b) = writerIndex b - readerIndex b.
Proof. intros (H1 & H2 & _). unfold readable. rewrite length_drop, length_take. lia. Qed.

Lemma readableBytes_length b : ok b -> readableBytes b = lenZ (readable b).
Proof. intros K. rewrite readable_length by exact K. destruct K as (H1 & H2 & H3). unfold readableBytes. apply u32_id. unfold is_u32. lia. Qed.

Lemma retrieve_ok len b : ok b -> 0 <= len -> ok (retrieve len b) /\ readable (retrieve len b) = drop (Z.to_nat len) (readable b).
Proof.
  intros K L. pose proof (readable_length b K) as RL. unfold retrieve. rewrite (readableBytes_length b K). pose proof K as (H1 & H2 & H3).
  assert (All : ok (retrieveAll b) /\ readable (retrieveAll b) = []) by (split; [unfold ok; cbn; lia | reflexivity]).
  destruct (Z.leb_spec len (lenZ (readable b))) as [C|C].
  - destruct (Z.eqb_spec (readerIndex b + len) (writerIndex b)) as [E|E].
    + split; [apply All|]. rewrite drop_ge by lia. reflexivity.
    + split; [unfold ok; cbn; lia|]. unfold readable. cbn [readerIndex writerIndex buffer]. rewrite drop_drop. f_equal. lia.
  - split; [apply All|]. rewrite drop_ge by lia. apply All.
Qed.

Lemma readable_grow b z : ok b -> readable (mkReader (buffer b ++ z) (readerIndex b) (writerIndex b)) = readable b.
Proof. intros (H1 & H2 & _). unfold readable. cbn [buffer readerIndex writerIndex]. rewrite take_app_le by lia. reflexivity. Qed.

(** [recv] writes behind what is readable and inside the vector. *)
Lemma recv_ok b bytes : ok b -> Forall is_u8 bytes -> lenZ bytes <= lenZ (buffer b) - writerIndex b ->
  exists m, stores (buffer b) (Z.to_nat (writerIndex b)) bytes = Ret m /\ length m = length (buffer b) /\
    let b' := mkReader m (readerIndex b) (writerIndex b + lenZ bytes) in ok b' /\ readable b' = readable b ++ bytes.
Proof.
  intros (H1 & H2 & H3) B L. set (w := Z.to_nat (writerIndex b)). assert (Lw : length (take w (buffer b)) = w) by (rewrite length_take; lia).
  pose proof (stores_at bytes (take w (buffer b)) (drop w (buffer b))) as E. rewrite Lw, take_drop, length_drop in E. specialize (E ltac:(lia)).
  rewrite (map_u8_id _ B) in E.
  eexists. split_and!; [exact E | rewrite !length_app, !length_drop, Lw; lia|]. cbn zeta. split.
  - unfold ok. cbn [readerIndex writerIndex buffer]. rewrite !length_app, !length_drop, Lw. lia.
  - unfold readable. cbn [readerIndex writerIndex buffer]. fold w. rewrite app_assoc.
    replace (Z.to_nat (writerIndex b + lenZ bytes)) with (length (take w (buffer b) ++ bytes)) by (rewrite length_app, Lw; lia).
    rewrite take_app_length, drop_app_le by lia. reflexivity.
Qed.

(** What is found is a CR LF, and there is none behind it. *)
Lemma last_crlf_spec l : match last_crlf l with
  | Some n => l !! n = Some 13 /\ l !! S n = Some 10 /\ (forall m, (n < m)%nat -> l !! m = Some 13 -> l !! S m = Some 10 -> False)
  | None => forall m, l !! m = Some 13 -> l !! S m = Some 10 -> False
  end.
Proof.
  induction l as [|x t IH]; [intros m; rewrite lookup_nil; discriminate|]. cbn [last_crlf]. destruct (last_crlf t) as [n|].
  - destruct IH as (A & B & C). split_and!; [exact A | exact B|]. intros [|m] Hm; [lia|]. apply C. lia.
  - destruct t as [|y t]; [intros [|m] A B; discriminate|]. destruct (Z.eqb_spec x 13) as [->|Nx], (Z.eqb_spec y 10) as [->|Ny]; cbn [andb].
    1: split_and!; [reflexivity | reflexivity | intros [|m] Hm; [lia | apply IH]].
    all: intros [|m] A B; [cbn in A, B; congruence | exact (IH m A B)].
Qed.

(** *** Sequences of calls *)

Inductive read_op := ReadFd (got : Z + list Z) | Retrieve (len : Z) | RetrieveAll | ReadAll | ReadUntilCrlf.

(** What a call gives: the result of [recv] or the string that is assigned. *)
Inductive answer := Count (n : Z) | Text (s : option (list Z)) | Nothing.

Definition reader_step (o : read_op) (b : BufferReader) : outcome (answer * BufferReader) :=
  match o with
  | ReadFd got => let! (n, b) := readFd got b in Ret (Count n, b)
  | Retrieve len => Ret (Nothing, retrieve len b)
  | RetrieveAll => Ret (Nothing, retrieveAll b)
  | ReadAll => let (s, b) := readAll b in Ret (Text s, b)
  | ReadUntilCrlf => let (s, b) := readUntilCrlf b in Ret (Text s, b)
  end.

Fixpoint reader_run (os : list read_op) (b : BufferReader) : outcome (list answer * BufferReader) :=
  match os with
  | [] => Ret ([], b)
  | o :: os =>
      let! (a, b) := reader_step o b in
      let! (r, b) := reader_run os b in
      Ret (a :: r, b)
  end.

(** The specification: the bytes that wait, and how many were received since none waited. *)
Definition queue_take (n : nat) (q : list Z) (w : Z) : list Z * Z :=
  match drop n q with [] => ([], 0) | q' => (q', w) end.

Definition queue_step (o : read_op) (q : list Z) (w : Z) : answer * (list Z * Z) :=
  match o with
  | ReadFd got =>
      if MAX_BUFFER_SIZE <? w then (Count 0, (q, w))
      else match got with
           | inl e => (Count e, (q, w))
           | inr bytes => (Count (lenZ bytes), (q ++ bytes, w + lenZ bytes))
           end
  | Retrieve len => (Nothing, queue_take (Z.to_nat len) q w)
  | RetrieveAll => (Nothing, ([], 0))
  | ReadAll => match q with [] => (Text None, (q, w)) | _ => (Text (Some q), ([], 0)) end
  | ReadUntilCrlf =>
      match last_crlf q with
      | None => (Text None, (q, w))
      | Some n => (Text (Some (take (n + 2) q)), queue_take (n + 2) q w)
      end
  end.

Fixpoint queue_run (os : list read_op) (q : list Z) (w : Z) : list answer * (list Z * Z) :=
  match os with
  | [] => ([], (q, w))
  | o :: os => let '(a, (q, w)) := queue_step o q w in let '(r, s) := queue_run os q w in (a :: r, s)
  end.

(** What the caller and the kernel guarantee: [recv] gives bytes, at most as many as asked for; lengths are not negative. *)
Definition fair_op (o : read_op) : Prop :=
  match o with
  | ReadFd (inl e) => e < 0
  | ReadFd (inr bytes) => Forall is_u8 bytes /\ lenZ bytes <= MAX_BYTES_PER_READ
  | Retrieve len => 0 <= len
  | _ => True
  end.

Definition rep (b : BufferReader) (q : list Z) (w : Z) : Prop :=
  ok b /\ readable b = q /\ writerIndex b = w /\ (q = [] -> w = 0) /\ (exists k, lenZ (buffer b) = 2048 * k).

Lemma rep_new : rep new_reader [] 0.
Proof.
  assert (L : length (buffer new_reader) = kInitialSize) by apply repeat_length. unfold kInitialSize in L.
  split_and!; [unfold ok; rewrite L; cbn [readerIndex writerIndex new_reader]; lia | reflexivity | reflexivity | reflexivity | exists 1; rewrite L; reflexivity].
Qed.

Lemma queue_take_rep b q w len : rep b q w -> 0 <= len ->
  exists q' w', queue_take (Z.to_nat len) q w = (q', w') /\ rep (retrieve len b) q' w'.
Proof.
  intros (K & Q & W & E & D) L. destruct (retrieve_ok len b K L) as [K' R']. pose proof (readable_length b K) as RL. rewrite Q in *.
  unfold queue_take. do 2 eexists. split; [apply surjective_pairing|].
  assert (Ew : writerIndex (retrieve len b) = (match drop (Z.to_nat len) q with [] => ([], 0) | q' => (q', w) end).2).
  { pose proof K as (H1 & H2 & H3). assert (LD : lenZ (drop (Z.to_nat len) q) = Z.max 0 (lenZ q - len)) by (rewrite length_drop; lia).
    unfold retrieve. rewrite (readableBytes_length b K), Q.
    destruct (drop (Z.to_nat len) q) as [|x l]; cbn [length snd] in *; repeat (zcase; cbn [writerIndex retrieveAll]); lia. }
  split_and!; [exact K' | rewrite R'; destruct (drop (Z.to_nat len) q); reflexivity | exact Ew | destruct (drop (Z.to_nat len) q); [reflexivity | discriminate] |].
  unfold retrieve. repeat case_match; exact D.
Qed.

Lemma recv_rep got b q w : rep b q w -> fair_op (ReadFd got) -> MAX_BYTES_PER_READ <= lenZ (buffer b) - w ->
  exists n b' q' w', recv got b = Ret (n, b') /\ rep b' q' w' /\
    (Count n, (q', w')) = match got with inl e => (Count e, (q, w)) | inr bytes => (Count (lenZ bytes), (q ++ bytes, w + lenZ bytes)) end.
Proof.
  intros (K & Q & W & E & D) F L. destruct got as [e|bytes]; [exists e, b, q, w; split_and!; auto; unfold rep; auto|].
  destruct F as [FB FL]. destruct (recv_ok b bytes K FB) as (m & Hm & Lm & K1 & R1); [lia|].
  unfold recv. rewrite Hm. cbn [obind]. do 4 eexists. split_and!; [reflexivity | | reflexivity].
  replace (if 0 <? lenZ bytes then writerIndex b + lenZ bytes else writerIndex b) with (writerIndex b + lenZ bytes) by (zcase; lia).
  rewrite Q in R1. split_and!; [exact K1 | exact R1 | cbn [writerIndex]; lia | | cbn [buffer]; rewrite Lm; exact D].
  intros N. apply app_eq_nil in N as [-> ->]. cbn. rewrite E; reflexivity.
Qed.

Lemma grow_rep b q w : rep b q w -> lenZ (buffer b) <= MAX_BUFFER_SIZE ->
  rep (mkReader (buffer b ++ repeat 0 (Z.to_nat MAX_BYTES_PER_READ)) (readerIndex b) (writerIndex b)) q w.
Proof.
  intros (K & Q & W & E & k & D) L. pose proof K as (H1 & H2 & H3). unfold MAX_BUFFER_SIZE, MAX_BYTES_PER_READ in *.
  split_and!; [| rewrite readable_grow by exact K; exact Q | exact W | exact E | exists (k + 1); cbn [buffer]; rewrite length_app, repeat_length; lia].
  unfold ok. cbn [readerIndex writerIndex buffer]. rewrite length_app, repeat_length. lia.
Qed.

Lemma readFd_rep got b q w : rep b q w -> fair_op (ReadFd got) ->
  exists n b' q' w', readFd got b = Ret (n, b') /\ rep b' q' w' /\ queue_step (ReadFd got) q w = (Count n, (q', w')).
Proof.
  intros R F. pose proof R as (K & Q & W & E & k & D). pose proof K as (H1 & H2 & H3). unfold readFd, queue_step, writableBytes.
  rewrite u32_id by (unfold is_u32; lia). assert (Room : forall b0, rep b0 q w -> MAX_BYTES_PER_READ <= lenZ (buffer b0) - w -> w <= MAX_BUFFER_SIZE ->
    exists n b' q' w', recv got b0 = Ret (n, b') /\ rep b' q' w' /\ (if MAX_BUFFER_SIZE <? w then (Count 0, (q, w)) else
      match got with inl e => (Count e, (q, w)) | inr bytes => (Count (lenZ bytes), (q ++ bytes, w + lenZ bytes)) end) = (Count n, (q', w'))).
  { intros b0 R0 L0 L1. destruct (recv_rep got b0 q w R0 F L0) as (n & b' & q' & w' & A & B & C). exists n, b', q', w'. split_and!; auto. zcase; [lia | congruence]. }
  zcase; [zcase|].
  - exists 0, b, q, w. split_and!; [reflexivity | exact R |]. unfold MAX_BUFFER_SIZE, MAX_BYTES_PER_READ in *. zcase; [reflexivity | lia].
  - apply Room; [apply grow_rep; [exact R | lia] | cbn [buffer]; rewrite length_app, repeat_length |]; unfold MAX_BUFFER_SIZE, MAX_BYTES_PER_READ in *; lia.
  - apply Room; [exact R | lia | unfold MAX_BUFFER_SIZE, MAX_BYTES_PER_READ in *; lia].
Qed.

Lemma empty_rep b q w : rep b q w -> rep (retrieveAll b) [] 0.
Proof. intros (K & Q & W & E & D). pose proof K as (H1 & H2 & H3). split_and!; try reflexivity; [unfold ok; cbn; lia | exact D]. Qed.

Lemma reader_step_ok o b q w : rep b q w -> fair_op o ->
  exists a b' q' w', reader_step o b = Ret (a, b') /\ queue_step o q w = (a, (q', w')) /\ rep b' q' w'.
Proof.
  intros R F. pose proof R as (K & Q & W & E & D). destruct o as [got|len| | |]; cbn [reader_step].
  - destruct (readFd_rep got b q w R F) as (n & b' & q' & w' & -> & R' & S). cbn [obind]. eauto 8.
  - destruct (queue_take_rep b q w len R F) as (q' & w' & S & R'). cbn [queue_step]. rewrite S. eauto 8.
  - do 4 eexists. split_and!; [reflexivity | reflexivity | exact (empty_rep b q w R)].
  - unfold readAll. rewrite (readableBytes_length b K), Q. cbn [queue_step]. destruct q as [|x q]; [do 4 eexists; split_and!; [reflexivity | reflexivity | exact R]|].
    destruct (Z.ltb_spec 0 (lenZ (x :: q))); [|cbn [length] in *; lia]. do 4 eexists. split_and!; [reflexivity | reflexivity | exact (empty_rep b _ w R)].
  - unfold readUntilCrlf, findLastCrlf. rewrite Q. cbn [queue_step]. destruct (last_crlf q) as [n|]; [|do 4 eexists; split_and!; [reflexivity | reflexivity | exact R]].
    destruct (queue_take_rep b q w (Z.of_nat n + 2) R) as (q' & w' & S & R'); [lia|]. replace (Z.to_nat (Z.of_nat n + 2)) with (n + 2)%nat in S by lia. rewrite S. eauto 8.
Qed.

(** C36: The receive buffer is a queue of bytes.  Any sequence of [readFd],
    [retrieve], [retrieveAll], [readAll] and [readUntilCrlf] on a new buffer runs
    without an access outside the vector, its answers are those of a queue, what
    is readable at the end is what the queue holds, and the vector has at most
    12288 bytes.  [readFd] refuses (returns 0, which closes the connection)
    exactly when more than 10240 bytes came in since nothing waited. *)
Theorem reader_is_byte_queue os : Forall fair_op os ->
  let '(answers, (q, w)) := queue_run os [] 0 in
  exists b, reader_run os new_reader = Ret (answers, b) /\ readable b = q /\ lenZ (buffer b) <= 12288 /\ writerIndex b = w.
Proof.
  assert (Run : forall b q w, rep b q w -> Forall fair_op os ->
    exists r b' q' w', reader_run os b = Ret (r, b') /\ queue_run os q w = (r, (q', w')) /\ rep b' q' w').
  { induction os as [|o os IH]; intros b q w R F; [exists [], b, q, w; auto|]. inversion F as [|? ? F1 F2]; subst.
    destruct (reader_step_ok o b q w R F1) as (a & b1 & q1 & w1 & E1 & S1 & R1). destruct (IH b1 q1 w1 R1 F2) as (r & b2 & q2 & w2 & E2 & S2 & R2).
    exists (a :: r), b2, q2, w2. cbn [reader_run queue_run]. rewrite E1, S1. cbn [obind]. rewrite E2, S2. auto. }
  intros F. destruct (Run _ _ _ rep_new F) as (r & b & q & w & E & S & (K & Q & W & _)). rewrite S. exists b. split_and!; auto. apply K.
Qed.

Lemma reader_is_byte_queue_witness :
  let '(answers, (q, w)) := queue_run [ReadFd (inr [65; 13; 10; 66]); ReadUntilCrlf; Retrieve 0; ReadAll; ReadFd (inl (-1))] [] 0 in
  exists b, reader_run [ReadFd (inr [65; 13; 10; 66]); ReadUntilCrlf; Retrieve 0; ReadAll; ReadFd (inl (-1))] new_reader = Ret (answers, b) /\
    readable b = q /\ lenZ (buffer b) <= 12288 /\ writerIndex b = w.
Proof.
  apply (reader_is_byte_queue [ReadFd (inr [65; 13; 10; 66]); ReadUntilCrlf; Retrieve 0; ReadAll; ReadFd (inl (-1))]).
  repeat apply Forall_cons_2; try apply Forall_nil_2; try exact I; [split; [apply bytes_check; reflexivity | vm_compute; discriminate] | |]; cbn; lia.
Defined.

Example reader_demo :
  queue_run [ReadFd (inr [65; 13; 10; 66]); ReadUntilCrlf; Retrieve 0; ReadAll; ReadFd (inl (-1))] [] 0
  = ([Count 4; Text (Some [65; 13; 10]); Nothing; Text (Some [66]); Count (-1)], ([], 0)).
Proof. reflexivity. Qed.
End Reader.
