(* ===== verification/RtspTcp.v ===== *)
(** * A TCP connection of the RTSP server (rtsp/BufferWriter.cpp, rtsp/TcpConnection.cpp, rtsp/Channel.h, the channel calls of rtsp/EpollTaskScheduler.cpp)

    The packets that are not sent yet wait in the connection's [BufferWriter], the
    first one possibly sent in part; the connection asks the scheduler for
    writability as long as something waits.  What the kernel answers is an
    argument: the bytes [recv] gives and, for each [::send], a [reply].  What the
    read callback does with the connection is an argument as well: a list of the
    calls it makes and the value it returns. *)

From S2P Require Import Prelude.
From S2P Require Import RtspIo.

Local Open Scope Z_scope.

(** ** BufferWriter *)

Module Writer.

(** [Packet]: [writeIndex] bytes of the first [size] of [data] are sent. *)
Record Packet := mkPacket { data : list Z; size : Z; writeIndex : Z }.

Record BufferWriter := mkWriter { queue : list Packet; maxQueueLength : Z }.

Definition isEmpty (b : BufferWriter) : bool := match queue b with [] => true | _ => false end.

(** [append] of a shared block. *)
Definition append (d : list Z) (sz index : Z) (b : BufferWriter) : bool * BufferWriter :=
  if sz <=? index then (false, b)
  else if maxQueueLength b <=? lenZ (queue b) then (false, b)
  else (true, mkWriter (queue b ++ [mkPacket d sz index]) (maxQueueLength b)).

(** [append] of a plain pointer: [size + 512] bytes are allocated and [size] are copied. *)
Definition append_copy (d : list Z) (sz index : Z) (b : BufferWriter) : outcome (bool * BufferWriter) :=
  if sz <=? index then Ret (false, b)
  else if maxQueueLength b <=? lenZ (queue b) then Ret (false, b)
  else if lenZ d <? sz then Crash OutOfBounds
  else let! m := stores (repeat 0 (Z.to_nat (u32 (sz + 512)))) 0 (take (Z.to_nat sz) d) in
       Ret (true, mkWriter (queue b ++ [mkPacket m sz index]) (maxQueueLength b)).

(** What [::send] answers: it takes bytes, none, fails with [EINTR] or [EAGAIN], fails otherwise. *)
Inductive reply := Sent (n : Z) | Zero | Again | Error.

(** The bytes [::send] takes of the [len] bytes offered. *)
Definition taken (n len : Z) : Z := Z.max 1 (Z.min n len).

(** [send] with [timeout = 0]: the value it returns, the queue, the bytes the
    kernel took.  A round goes on exactly when it popped the front packet.  With
    no reply left the socket would block. *)
Fixpoint send_loop (q : list Packet) (rs : list reply) : outcome (Z * (list Packet * list Z)) :=
  match q with
  | [] => Ret (0, ([], []))
  | p :: q' =>
      match rs with
      | Sent n :: rs =>
          if lenZ (data p) <? size p then Crash OutOfBounds
          else
            let k := taken n (u32 (size p - writeIndex p)) in
            let bytes := take (Z.to_nat k) (drop (Z.to_nat (writeIndex p)) (data p)) in
            let w := u32 (writeIndex p + k) in
            if size p =? w then
              let! (r, (q'', out)) := send_loop q' rs in
              Ret (r, (q'', bytes ++ out))
            else Ret (k, (mkPacket (data p) (size p) w :: q', bytes))
      | Error :: _ => Ret (-1, (q, []))
      | Zero :: _ | Again :: _ | [] => Ret (0, (q, []))
      end
  end.

Definition send (rs : list reply) (b : BufferWriter) : outcome (Z * (BufferWriter * list Z)) :=
  let! (r, (q, out)) := send_loop (queue b) rs in
  Ret (r, (mkWriter q (maxQueueLength b), out)).

(** What is still to be sent. *)
Definition rest (p : Packet) : list Z := drop (Z.to_nat (writeIndex p)) (take (Z.to_nat (size p)) (data p)).
Definition pending (b : BufferWriter) : list Z := concat (map rest (queue b)).

Definition packet_ok (p : Packet) : Prop := 0 <= writeIndex p < size p /\ size p <= lenZ (data p) /\ is_u32 (size p).
Definition writer_ok (b : BufferWriter) : Prop := Forall packet_ok (queue b) /\ lenZ (queue b) <= maxQueueLength b.

(** Each round sends a piece of the front packet. *)
Lemma rest_split p k : packet_ok p -> 0 < k <= size p - writeIndex p ->
  rest p = take (Z.to_nat k) (drop (Z.to_nat (writeIndex p)) (data p)) ++ rest (mkPacket (data p) (size p) (writeIndex p + k)).
Proof.
  intros (H1 & H2 & H3) K. unfold rest. cbn [data size writeIndex]. set (w := Z.to_nat (writeIndex p)). set (n := Z.to_nat k).
  replace (Z.to_nat (writeIndex p + k)) with (w + n)%nat by lia. rewrite <- drop_drop.
  rewrite <- (take_drop n (drop w (take (Z.to_nat (size p)) (data p)))) at 1. f_equal.
  rewrite !take_drop_commute, take_take. do 2 f_equal. lia.
Qed.

Lemma rest_all p : packet_ok p -> rest p = take (Z.to_nat (size p - writeIndex p)) (drop (Z.to_nat (writeIndex p)) (data p)).
Proof. intros (H1 & H2 & H3). unfold rest. rewrite take_drop_commute. do 2 f_equal. lia. Qed.

Lemma send_loop_ok q : forall rs, Forall packet_ok q ->
  exists r q' out, send_loop q rs = Ret (r, (q', out)) /\ Forall packet_ok q' /\ (length q' <= length q)%nat /\
    concat (map rest q) = out ++ concat (map rest q') /\ (r < 0 -> exists n, rs !! n = Some Error).
Proof.
  assert (Stay : forall q (rs : list reply) r, Forall packet_ok q -> (r < 0 -> exists n, rs !! n = Some Error) ->
    exists r0 q' out, @Ret (Z * (list Packet * list Z)) (r, (q, [])) = Ret (r0, (q', out)) /\ Forall packet_ok q' /\ (length q' <= length q)%nat /\
    concat (map rest q) = out ++ concat (map rest q') /\ (r0 < 0 -> exists n, rs !! n = Some Error)) by (intros; do 3 eexists; split_and!; auto).
  induction q as [|p q IH]; intros rs F; cbn [send_loop]; [apply Stay; [constructor | lia]|]. inversion F as [|? ? P F2]; subst.
  pose proof P as (H1 & H2 & H3). destruct rs as [|[n| | |] rs]; try (apply Stay; [exact F | lia]).
  2: { apply Stay; [exact F | intros _; exists 0%nat; reflexivity]. }
  destruct (Z.ltb_spec (lenZ (data p)) (size p)); [lia|]. unfold is_u32 in H3. rewrite (u32_id (size p - writeIndex p)) by (unfold is_u32; lia).
  set (k := taken n (size p - writeIndex p)). assert (K : 0 < k <= size p - writeIndex p) by (unfold k, taken; lia).
  rewrite (u32_id (writeIndex p + k)) by (unfold is_u32; lia). cbn [map concat]. destruct (Z.eqb_spec (size p) (writeIndex p + k)) as [E|E].
  - destruct (IH rs F2) as (r & q' & out & -> & F' & L' & C' & R'). cbn [obind]. do 3 eexists. split_and!; [reflexivity | exact F' | cbn; lia | |].
    + rewrite C', (rest_all p P), <- app_assoc. do 3 f_equal. lia.
    + intros R0. destruct (R' R0) as [i Hi]. exists (S i). exact Hi.
  - do 3 eexists. split_and!; [reflexivity | constructor; [|exact F2] | cbn; lia | | lia].
    + unfold packet_ok, is_u32. cbn [data size writeIndex]. lia.
    + cbn [map concat]. rewrite (rest_split p k P K), app_assoc. reflexivity.
Qed.

Lemma send_ok b rs : writer_ok b ->
  exists r b' out, send rs b = Ret (r, (b', out)) /\ writer_ok b' /\ maxQueueLength b' = maxQueueLength b /\ pending b = out ++ pending b' /\
    (r < 0 -> exists n, rs !! n = Some Error).
Proof.
  intros [F L]. destruct (send_loop_ok (queue b) rs F) as (r & q' & out & E & F' & L' & C & R). unfold send. rewrite E. cbn [obind].
  do 3 eexists. split_and!; [reflexivity | split; [exact F' | cbn; lia] | reflexivity | exact C | exact R].
Qed.

Lemma pending_append b p : pending (mkWriter (queue b ++ [p]) (maxQueueLength b)) = pending b ++ rest p.
Proof. unfold pending. cbn [queue]. rewrite map_app, concat_app. cbn. rewrite app_nil_r. reflexivity. Qed.

Lemma append_ok b d sz : writer_ok b -> is_u32 sz -> sz <= lenZ d ->
  let (r, b') := append d sz 0 b in writer_ok b' /\ maxQueueLength b' = maxQueueLength b /\
    r = (0 <? sz) && (lenZ (queue b) <? maxQueueLength b) /\ pending b' = pending b ++ (if r then take (Z.to_nat sz) d else []).
Proof.
  intros [F L] U D. unfold append. repeat zcase; cbn [andb]; split_and!; try reflexivity; try (split; assumption); try lia; try (rewrite app_nil_r; reflexivity).
  - split; cbn [queue maxQueueLength]; [|rewrite length_app; cbn; lia]. apply Forall_app. split; [exact F|]. constructor; [|constructor]. unfold packet_ok, is_u32 in *. cbn. lia.
  - apply pending_append.
Qed.

(** The copy is queued as the shared block is. *)
Lemma append_copy_ok b d sz : writer_ok b -> 0 <= sz < 4294966784 -> sz <= lenZ d -> Forall is_u8 d ->
  exists m, append_copy d sz 0 b = Ret (append m sz 0 b) /\ sz <= lenZ m /\ take (Z.to_nat sz) m = take (Z.to_nat sz) d.
Proof.
  intros _ U D B. pose (m := take (Z.to_nat sz) d ++ repeat 0 512). exists m.
  assert (Lt : length (take (Z.to_nat sz) d) = Z.to_nat sz) by (rewrite length_take; lia).
  assert (Es : stores (repeat 0 (Z.to_nat (u32 (sz + 512)))) 0 (take (Z.to_nat sz) d) = Ret m).
  { rewrite u32_id by (unfold is_u32; lia). replace (Z.to_nat (sz + 512)) with (Z.to_nat sz + 512)%nat by lia. rewrite repeat_app.
    pose proof (stores_at (take (Z.to_nat sz) d) [] (repeat 0 (Z.to_nat sz) ++ repeat 0 512)) as E. cbn [length app] in E. rewrite E by (rewrite length_app, repeat_length; lia).
    rewrite drop_app_length' by (rewrite repeat_length; lia). unfold m. do 2 f_equal. apply map_u8_id, Forall_take, B. }
  split_and!; [| unfold m; rewrite length_app, Lt, repeat_length; lia | unfold m; rewrite take_app_length' by lia; reflexivity].
  unfold append_copy, append. rewrite Es. repeat zcase; try reflexivity. lia.
Qed.
End Writer.

(** ** TcpConnection *)

Import Reader Writer.

Definition EVENT_IN : Z := 1.
Definition EVENT_PRI : Z := 2.
Definition EVENT_OUT : Z := 4.
Definition EVENT_ERR : Z := 8.
Definition EVENT_HUP : Z := 16.

(** The connection with its channel.  [registered]: the events the scheduler asks
    [epoll] for on this descriptor, when it has the channel.  [wire]: the bytes
    the kernel took; [accepted]: those of the calls of [send] whose [append]
    succeeded; [closings]: how often the close and disconnect callbacks ran. *)
Record TcpConnection := mkTcp {
  readBuffer : BufferReader; writeBuffer : BufferWriter; events : Z; registered : option Z; isClosed : bool;
  wire : list Z; accepted : list Z; closings : nat }.

Definition isWriting (c : TcpConnection) : bool := negb (Z.land (events c) EVENT_OUT =? 0).

Definition set_events (v : Z) (c : TcpConnection) : TcpConnection :=
  mkTcp (readBuffer c) (writeBuffer c) v (registered c) (isClosed c) (wire c) (accepted c) (closings c).
Definition set_registered (v : option Z) (c : TcpConnection) : TcpConnection :=
  mkTcp (readBuffer c) (writeBuffer c) (events c) v (isClosed c) (wire c) (accepted c) (closings c).
Definition set_read (b : BufferReader) (c : TcpConnection) : TcpConnection :=
  mkTcp b (writeBuffer c) (events c) (registered c) (isClosed c) (wire c) (accepted c) (closings c).

Definition enableReading (c : TcpConnection) : TcpConnection := set_events (Z.lor (events c) EVENT_IN) c.
Definition enableWriting (c : TcpConnection) : TcpConnection := set_events (Z.lor (events c) EVENT_OUT) c.
Definition disableWriting (c : TcpConnection) : TcpConnection := set_events (Z.land (events c) (Z.lnot EVENT_OUT)) c.

(** [EpollTaskScheduler::updateChannel] and [removeChannel], on this descriptor. *)
Definition updateChannel (c : TcpConnection) : TcpConnection :=
  match registered c with
  | Some _ => if events c =? 0 then set_registered None c else set_registered (Some (events c)) c
  | None => if negb (events c =? 0) then set_registered (Some (events c)) c else c
  end.
Definition removeChannel (c : TcpConnection) : TcpConnection :=
  match registered c with Some _ => set_registered None c | None => c end.

Definition new_tcp : TcpConnection :=
  updateChannel (enableReading (mkTcp new_reader (mkWriter [] 500) 0 None false [] [] 0)).

(** [handleClose]: the flag it sets is [false]. *)
Definition handleClose (c : TcpConnection) : TcpConnection :=
  if negb (isClosed c) then
    let c := mkTcp (readBuffer c) (writeBuffer c) (events c) (registered c) false (wire c) (accepted c) (closings c) in
    let c := removeChannel c in
    mkTcp (readBuffer c) (writeBuffer c) (events c) (registered c) (isClosed c) (wire c) (accepted c) (S (closings c))
  else c.

Definition handleError (c : TcpConnection) : TcpConnection := handleClose c.
Definition close (c : TcpConnection) : TcpConnection := if isClosed c then c else handleClose c.

Definition handleWrite (rs : list reply) (c : TcpConnection) : outcome TcpConnection :=
  if isClosed c then Ret c
  else
    let! (ret, (b, out)) := Writer.send rs (writeBuffer c) in
    let c := mkTcp (readBuffer c) b (events c) (registered c) (isClosed c) (wire c ++ out) (accepted c) (closings c) in
    if ret <? 0 then Ret (handleClose c)
    else if isEmpty b then (if isWriting c then Ret (updateChannel (disableWriting c)) else Ret c)
    else if negb (isWriting c) then Ret (updateChannel (enableWriting c)) else Ret c.

(** What [append] left of the writer, with the log of what it accepted. *)
Definition appended (d : list Z) (sz : Z) (r : bool * BufferWriter) (c : TcpConnection) : TcpConnection :=
  mkTcp (readBuffer c) r.2 (events c) (registered c) (isClosed c) (wire c) (accepted c ++ if r.1 then take (Z.to_nat sz) d else []) (closings c).

(** The two calls [send]: of a shared block, of a plain pointer. *)
Definition send_shared (d : list Z) (sz : Z) (rs : list reply) (c : TcpConnection) : outcome TcpConnection :=
  if isClosed c then Ret c
  else handleWrite rs (appended d sz (append d sz 0 (writeBuffer c)) c).
Definition send_plain (d : list Z) (sz : Z) (rs : list reply) (c : TcpConnection) : outcome TcpConnection :=
  if isClosed c then Ret c
  else let! r := append_copy d sz 0 (writeBuffer c) in handleWrite rs (appended d sz r c).

(** What the owner of the connection calls, the read callback among them. *)
Inductive call :=
| SendShared (d : list Z) (sz : Z) (rs : list reply)
| SendPlain (d : list Z) (sz : Z) (rs : list reply)
| Consume (o : read_op)
| Close.

Definition do_call (k : call) (c : TcpConnection) : outcome TcpConnection :=
  match k with
  | SendShared d sz rs => send_shared d sz rs c
  | SendPlain d sz rs => send_plain d sz rs c
  | Consume o => let! (_, b) := reader_step o (readBuffer c) in Ret (set_read b c)
  | Close => Ret (close c)
  end.

Fixpoint do_calls (ks : list call) (c : TcpConnection) : outcome TcpConnection :=
  match ks with [] => Ret c | k :: ks => let! c := do_call k c in do_calls ks c end.

(** [handleRead] with what [recv] answers and what [_readCB] does and returns. *)
Definition handleRead (got : Z + list Z) (ks : list call) (keep : bool) (c : TcpConnection) : outcome TcpConnection :=
  if isClosed c then Ret c
  else
    let! (ret, b) := readFd got (readBuffer c) in
    let c := set_read b c in
    if ret <=? 0 then Ret (handleClose c)
    else
      let! c := do_calls ks c in
      if keep then Ret c else Ret (handleClose c).

(** [Channel::handleEvent] *)
Definition handleEvent (mask : Z) (got : Z + list Z) (ks : list call) (keep : bool) (rs : list reply) (c : TcpConnection) : outcome TcpConnection :=
  let! c := if negb (Z.land mask (Z.lor EVENT_PRI EVENT_IN) =? 0) then handleRead got ks keep c else Ret c in
  let! c := if negb (Z.land mask EVENT_OUT =? 0) then handleWrite rs c else Ret c in
  if negb (Z.land mask EVENT_HUP =? 0) then Ret (handleClose c)
  else if negb (Z.land mask EVENT_ERR =? 0) then Ret (handleError c) else Ret c.

(** What happens to a connection: [epoll] reports, or its owner calls. *)
Inductive happening :=
| Polled (mask : Z) (got : Z + list Z) (ks : list call) (keep : bool) (rs : list reply)
| Called (k : call).

Definition happen (h : happening) (c : TcpConnection) : outcome TcpConnection :=
  match h with
  | Polled mask got ks keep rs => handleEvent mask got ks keep rs c
  | Called k => do_call k c
  end.

Fixpoint happens (hs : list happening) (c : TcpConnection) : outcome TcpConnection :=
  match hs with [] => Ret c | h :: hs => let! c := happen h c in happens hs c end.

(** ** The invariant *)

(** What the owner and the kernel guarantee: blocks are as long as is said. *)
Definition fair_call (k : call) : Prop :=
  match k with
  | SendShared d sz _ => is_u32 sz /\ sz <= lenZ d
  | SendPlain d sz _ => 0 <= sz < 4294966784 /\ sz <= lenZ d /\ Forall is_u8 d
  | Consume o => fair_op o
  | Close => True
  end.
Definition fair (h : happening) : Prop :=
  match h with
  | Polled _ got ks _ _ => fair_op (ReadFd got) /\ Forall fair_call ks
  | Called k => fair_call k
  end.

Record base (c : TcpConnection) : Prop := {
  base_writer : writer_ok (writeBuffer c);
  base_max : maxQueueLength (writeBuffer c) = 500;
  base_reader : exists q w, rep (readBuffer c) q w;
  base_open : isClosed c = false;
  base_stream : accepted c = wire c ++ pending (writeBuffer c);
  base_events : events c = EVENT_IN \/ events c = Z.lor EVENT_IN EVENT_OUT;
  base_registered : closings c = 0%nat -> registered c = Some (events c) }.

(** Writability is asked for exactly when something waits, until the first close. *)
Definition armed (c : TcpConnection) : Prop := closings c = 0%nat -> isWriting c = negb (isEmpty (writeBuffer c)).

Definition tcp_ok (c : TcpConnection) : Prop := base c /\ armed c.

Lemma tcp_ok_new : tcp_ok new_tcp.
Proof.
  split; [|intros _; reflexivity]. constructor; try reflexivity; [split; [exact (Forall_nil_2 _) | change (0 <= 500); lia] | exists [], 0; exact rep_new | left; reflexivity].
Qed.

Lemma handleClose_ok c : base c -> tcp_ok (handleClose c).
Proof.
  intros [H1 H2 H3 H4 H5 H6 H7]. unfold handleClose. rewrite H4. cbn [negb]. unfold removeChannel. cbn [registered].
  split; [constructor|intros E]; destruct (registered c); auto; try discriminate; cbn in *; discriminate.
Qed.

Lemma set_read_ok b q w c : tcp_ok c -> rep b q w -> tcp_ok (set_read b c).
Proof. intros [[H1 H2 H3 H4 H5 H6 H7] A] R. split; [constructor; eauto | exact A]. Qed.

Lemma updateChannel_ok v c : base c -> v = EVENT_IN \/ v = Z.lor EVENT_IN EVENT_OUT -> base (updateChannel (set_events v c)).
Proof.
  intros [H1 H2 H3 H4 H5 H6 H7] V. unfold updateChannel. cbn [events registered set_events].
  assert (N : (v =? 0) = false) by (destruct V as [-> | ->]; reflexivity). rewrite N. destruct (registered c); constructor; auto.
Qed.

Lemma handleWrite_ok rs c : base c -> exists c', handleWrite rs c = Ret c' /\ tcp_ok c'.
Proof.
  intros B. pose proof B as [H1 H2 H3 H4 H5 H6 H7]. unfold handleWrite. rewrite H4.
  destruct (send_ok (writeBuffer c) rs H1) as (r & b & out & -> & W & M & P & _). cbn [obind].
  set (c1 := mkTcp (readBuffer c) b (events c) (registered c) false (wire c ++ out) (accepted c) (closings c)).
  assert (B1 : base c1) by (constructor; auto; [cbn; congruence | cbn; rewrite H5, P, app_assoc; reflexivity]).
  destruct (r <? 0); [eexists; split; [reflexivity | apply handleClose_ok, B1]|].
  assert (Arm : forall v, v = EVENT_IN /\ isEmpty b = true \/ v = Z.lor EVENT_IN EVENT_OUT /\ isEmpty b = false -> tcp_ok (updateChannel (set_events v c1))).
  { intros v V. split; [apply updateChannel_ok; [exact B1 | tauto]|]. intros _. unfold updateChannel. cbn [events registered set_events c1].
    destruct V as [[-> E] | [-> E]], (registered c); transitivity (negb (isEmpty b)); try reflexivity; rewrite E; reflexivity. }
  assert (Stay : isWriting c1 = negb (isEmpty b) -> tcp_ok c1) by (intros E; split; [exact B1 | intros _; exact E]).
  unfold disableWriting, enableWriting. unfold isWriting in *. cbn [events c1] in *.
  destruct (isEmpty b) eqn:E, H6 as [H6 | H6]; rewrite H6 in *; cbn [negb]; eexists; (split; [reflexivity|]); try (apply Stay; reflexivity); apply Arm; auto.
Qed.

Lemma appended_ok d sz c : base c -> is_u32 sz -> sz <= lenZ d -> base (appended d sz (append d sz 0 (writeBuffer c)) c).
Proof.
  intros [H1 H2 H3 H4 H5 H6 H7] U D. pose proof (append_ok (writeBuffer c) d sz H1 U D) as A. destruct (append d sz 0 (writeBuffer c)) as [r b].
  destruct A as (W & M & _ & P). constructor; auto; [cbn; congruence|]. cbn. rewrite P, H5, app_assoc. reflexivity.
Qed.

Lemma do_call_ok k c : tcp_ok c -> fair_call k -> exists c', do_call k c = Ret c' /\ tcp_ok c'.
Proof.
  intros [B A] F. pose proof (base_open c B) as O. destruct k as [d sz rs|d sz rs|o|]; cbn [do_call fair_call] in *.
  - unfold send_shared. rewrite O. apply handleWrite_ok, appended_ok; [exact B | apply F | apply F].
  - unfold send_plain. rewrite O. destruct F as (U & D & Y). destruct (append_copy_ok (writeBuffer c) d sz (base_writer c B) U D Y) as (m & -> & L & T).
    cbn [obind]. apply handleWrite_ok. unfold appended. rewrite <- T. apply appended_ok; [exact B | unfold is_u32; lia | exact L].
  - destruct (base_reader c B) as (q & w & R). destruct (reader_step_ok o _ q w R F) as (a & b & q' & w' & -> & _ & R'). cbn [obind].
    eexists. split; [reflexivity | exact (set_read_ok b q' w' c (conj B A) R')].
  - eexists. split; [reflexivity|]. unfold close. rewrite O. apply handleClose_ok, B.
Qed.

Lemma do_calls_ok ks : forall c, tcp_ok c -> Forall fair_call ks -> exists c', do_calls ks c = Ret c' /\ tcp_ok c'.
Proof.
  induction ks as [|k ks IH]; intros c T F; [exists c; auto|]. inversion F as [|? ? F1 F2]; subst. cbn [do_calls].
  destruct (do_call_ok k c T F1) as (c1 & -> & T1). cbn [obind]. exact (IH c1 T1 F2).
Qed.

Lemma handleRead_ok got ks keep c : tcp_ok c -> fair_op (ReadFd got) -> Forall fair_call ks -> exists c', handleRead got ks keep c = Ret c' /\ tcp_ok c'.
Proof.
  intros T F G. pose proof T as [B A]. unfold handleRead. rewrite (base_open c B). destruct (base_reader c B) as (q & w & R).
  destruct (readFd_rep got _ q w R F) as (n & b & q' & w' & -> & R' & _). cbn [obind]. pose proof (set_read_ok b q' w' c T R') as T1.
  destruct (n <=? 0); [eexists; split; [reflexivity | apply handleClose_ok, T1]|].
  destruct (do_calls_ok ks _ T1 G) as (c2 & -> & T2). cbn [obind]. destruct keep; eexists; (split; [reflexivity|]); [exact T2 | apply handleClose_ok, T2].
Qed.

Lemma happen_ok h c : tcp_ok c -> fair h -> exists c', happen h c = Ret c' /\ tcp_ok c'.
Proof.
  destruct h as [mask got ks keep rs|k]; [|apply do_call_ok]. intros T [F G]. cbn [happen]. unfold handleEvent.
  assert (S1 : exists c1, (if negb (Z.land mask (Z.lor EVENT_PRI EVENT_IN) =? 0) then handleRead got ks keep c else Ret c) = Ret c1 /\ tcp_ok c1).
  { destruct (negb _); [apply handleRead_ok; assumption | eauto]. }
  destruct S1 as (c1 & -> & T1). cbn [obind].
  assert (S2 : exists c2, (if negb (Z.land mask EVENT_OUT =? 0) then handleWrite rs c1 else Ret c1) = Ret c2 /\ tcp_ok c2).
  { destruct (negb _); [apply handleWrite_ok, T1 | eauto]. }
  destruct S2 as (c2 & -> & T2). cbn [obind]. unfold handleError.
  repeat (destruct (negb _)); eexists; (split; [reflexivity|]); try exact T2; apply handleClose_ok, T2.
Qed.

(** C35: A connection loses nothing it accepted and keeps its order.  Whatever
    [epoll] reports, the kernel answers, the read callback does and the owner
    calls, nothing is read or written outside a buffer; the bytes the kernel took,
    followed by those that wait, are those of the accepted calls of [send], in
    order; and at most 500 packets wait.  Until the connection is first closed (by
    the owner, the peer or an error) the scheduler has its channel and asks for
    writability exactly when bytes wait; after that the channel is gone and what
    still waits is not sent. *)
Theorem tcp_stream_kept hs : Forall fair hs -> exists c, happens hs new_tcp = Ret c /\
  accepted c = wire c ++ pending (writeBuffer c) /\ lenZ (queue (writeBuffer c)) <= 500 /\
  (closings c = 0%nat -> exists ev, registered c = Some ev /\ Z.land ev EVENT_IN <> 0 /\ (Z.land ev EVENT_OUT <> 0 <-> pending (writeBuffer c) <> [])).
Proof.
  assert (Run : forall c, tcp_ok c -> Forall fair hs -> exists c', happens hs c = Ret c' /\ tcp_ok c').
  { induction hs as [|h hs IH]; intros c T F; [exists c; auto|]. inversion F as [|? ? F1 F2]; subst. cbn [happens].
    destruct (happen_ok h c T F1) as (c1 & -> & T1). cbn [obind]. exact (IH c1 T1 F2). }
  intros F. destruct (Run _ tcp_ok_new F) as (c & E & [[H1 H2 H3 H4 H5 H6 H7] A]). exists c. split_and!; [exact E | exact H5 | rewrite <- H2; apply H1 |].
  intros N. exists (events c). specialize (A N). unfold isWriting in A.
  assert (P : isEmpty (writeBuffer c) = false <-> pending (writeBuffer c) <> []).
  { destruct H1 as [Fq _]. unfold isEmpty, pending. destruct (queue (writeBuffer c)) as [|p q]; [split; [discriminate | intros X; exfalso; exact (X eq_refl)]|].
    split; [intros _ X|reflexivity]. inversion Fq as [|? ? (P1 & P2 & P3) _]; subst. apply app_eq_nil in X as [X _]. apply (f_equal length) in X.
    unfold rest in X. rewrite length_drop, length_take in X. cbn in X. lia. }
  split_and!; [exact (H7 N) | destruct H6 as [-> | ->]; cbn; discriminate |]. rewrite <- P.
  destruct (isEmpty (writeBuffer c)), H6 as [E6 | E6]; rewrite E6 in *; try discriminate A; split; try reflexivity; try discriminate.
  intros X. destruct X. reflexivity.
Qed.

Definition demo_happenings : list happening :=
  [Called (SendShared [1; 2; 3; 4] 4 [Sent 1]); Called (SendPlain [5; 6] 2 [Again]);
   Polled 5 (inr [79; 75]) [Consume ReadAll; SendShared [7] 1 []] true [Sent 9; Sent 1]].

Lemma tcp_stream_kept_witness : exists c, happens demo_happenings new_tcp = Ret c /\
  accepted c = wire c ++ pending (writeBuffer c) /\ lenZ (queue (writeBuffer c)) <= 500 /\
  (closings c = 0%nat -> exists ev, registered c = Some ev /\ Z.land ev EVENT_IN <> 0 /\ (Z.land ev EVENT_OUT <> 0 <-> pending (writeBuffer c) <> [])).
Proof.
  apply (tcp_stream_kept demo_happenings). unfold demo_happenings.
  repeat apply Forall_cons_2; try apply Forall_nil_2; cbn [fair fair_call fair_op]; split_and!; try (apply bytes_check; reflexivity); try (unfold is_u32, MAX_BYTES_PER_READ; cbn; lia).
  repeat constructor; cbn; lia.
Defined.

Example demo_wire : exists c, happens demo_happenings new_tcp = Ret c /\ wire c = [1; 2; 3; 4; 5] /\ pending (writeBuffer c) = [6; 7] /\ registered c = Some 5.
Proof. eexists. split_and!; vm_compute; reflexivity. Qed.

(** The flag of [handleClose] stays [false]: every further event of the
    connection closes it again, with the callbacks, and a [send] that cannot be
    completed hands the channel back to the scheduler. *)
Corollary close_repeats c : isClosed c = false -> closings (handleClose (handleClose c)) = (closings c + 2)%nat /\ isClosed (handleClose c) = false.
Proof. intros E. unfold handleClose at 2 3. rewrite E. cbn [negb]. unfold removeChannel, handleClose. cbn. destruct (registered c); cbn; (split; [lia | reflexivity]). Qed.

Example closed_channel_registered_again :
  exists c, happens [Called Close; Called (SendShared [1] 1 [])] new_tcp = Ret c /\ closings c = 1%nat /\ registered c = Some (Z.lor EVENT_IN EVENT_OUT).
Proof. eexists. split_and!; vm_compute; reflexivity. Qed.
