(* ===== verification/RtspMessage.v ===== *)
(** * RTSP requests (rtsp/RtspMessage.h, rtsp/RtspMessage.cpp)

    [RtspRequest] parses what waits in the receive buffer and builds the answers.
    Texts are lists of bytes without the terminator.  [sscanf] is written as an
    interpreter of the directives the code uses; a text longer than its array is a
    store outside it.  The parameters of the two hash maps are kept under their
    names, since [emplace] leaves one that is present as it is. *)

From stdpp Require Import gmap strings.
From Stdlib Require Ascii String.
From S2P Require Import Prelude RtspIo RtpFrame RtpConn.

Import String.StringSyntax.
Local Open Scope string_scope.
Local Open Scope Z_scope.
Local Open Scope list_scope.

Import Reader.

(** ** Text *)

Definition isspace (c : Z) : bool := (c =? 32) || ((9 <=? c) && (c <=? 13)).
Definition isdigit (c : Z) : bool := (48 <=? c) && (c <=? 57).

(** The C string at the start of a text. *)
Definition c_str (s : list Z) : list Z := takewhile (fun c => negb (c =? 0)) s.

Fixpoint prefixb (p s : list Z) : bool :=
  match p, s with
  | [], _ => true
  | x :: p, y :: s => (x =? y) && prefixb p s
  | _, [] => false
  end.

(** [std::string::find] *)
Fixpoint find_sub (p s : list Z) : option nat :=
  if prefixb p s then Some 0%nat
  else match s with [] => None | _ :: s => S <$> find_sub p s end.

Definition contains (p s : list Z) : bool := match find_sub p s with Some _ => true | None => false end.

Definition text_eqb (a b : list Z) : bool := bool_decide (a = b).

(** The number that decimal digits stand for. *)
Definition number (ds : list Z) : Z := fold_left (fun a c => 10 * a + (c - 48)) ds 0.

(** [%u] and [%hu]: a 64-bit number, which saturates, or its negative, stored with [w] bits. *)
Definition stored (w : Z) (neg : bool) (n : Z) : Z :=
  (if 2 ^ 64 <=? n then 2 ^ 64 - 1 else if neg then - n else n) mod 2 ^ w.

(** The directives: white space, a literal character, [%s] and [%[^c]] into an array
    of [cap] bytes, [%*[^c]], an unsigned number of [w] bits. *)
Inductive directive := Space | Lit (c : Z) | Word (cap : nat) | Until (c : Z) (cap : nat) | Skip (c : Z) | Unsigned (w : Z).

Inductive value := Str (s : list Z) | Num (n : Z).

(** The values assigned before the first directive that fails. *)
Fixpoint sscanf (ds : list directive) (s : list Z) : outcome (list value) :=
  match ds with
  | [] => Ret []
  | Space :: ds => sscanf ds (dropwhile isspace s)
  | Lit c :: ds => match s with x :: s => if x =? c then sscanf ds s else Ret [] | [] => Ret [] end
  | Word cap :: ds =>
      let s := dropwhile isspace s in
      let w := takewhile (fun c => negb (isspace c)) s in
      match w with
      | [] => Ret []
      | _ => if (length w <? cap)%nat
             then let! vs := sscanf ds (dropwhile (fun c => negb (isspace c)) s) in Ret (Str w :: vs)
             else Crash OutOfBounds
      end
  | Until c cap :: ds =>
      let w := takewhile (fun x => negb (x =? c)) s in
      match w with
      | [] => Ret []
      | _ => if (length w <? cap)%nat
             then let! vs := sscanf ds (dropwhile (fun x => negb (x =? c)) s) in Ret (Str w :: vs)
             else Crash OutOfBounds
      end
  | Skip c :: ds =>
      match takewhile (fun x => negb (x =? c)) s with
      | [] => Ret []
      | _ => sscanf ds (dropwhile (fun x => negb (x =? c)) s)
      end
  | Unsigned w :: ds =>
      let s := dropwhile isspace s in
      let (neg, s) := match s with x :: t => if x =? 45 then (true, t) else if x =? 43 then (false, t) else (false, s) | [] => (false, s) end in
      match takewhile isdigit s with
      | [] => Ret []
      | n => let! vs := sscanf ds (dropwhile isdigit s) in Ret (Num (stored w neg (number n)) :: vs)
      end
  end.

(** ** RtspRequest *)

Inductive RtspRequestParseState := kParseRequestLine | kParseHeadersLine | kGotAll.
Inductive Method := OPTIONS | DESCRIBE | SETUP | PLAY | TEARDOWN | GET_PARAMETER | RTCP | NONE.

#[export] Instance Method_eq_dec : EqDecision Method.
Proof. solve_decision. Defined.

Abbreviation params := (gmap String.string (list Z * Z)).

Record RtspRequest := mkRequest {
  method : Method; channelId : nat; transport : TransportMode; requestLineParam : params; headerLineParam : params;
  state : RtspRequestParseState }.

Definition gotAll (q : RtspRequest) : bool := match state q with kGotAll => true | _ => false end.

Definition reset (q : RtspRequest) : RtspRequest := mkRequest (method q) (channelId q) (transport q) ∅ ∅ kParseRequestLine.

Definition emplace (k : String.string) (v : list Z * Z) (m : params) : params :=
  match m !! k with Some _ => m | None => <[k := v]> m end.

Definition set_method (m : Method) (q : RtspRequest) : RtspRequest :=
  mkRequest m (channelId q) (transport q) (requestLineParam q) (headerLineParam q) (state q).
Definition set_channelId (c : nat) (q : RtspRequest) : RtspRequest :=
  mkRequest (method q) c (transport q) (requestLineParam q) (headerLineParam q) (state q).
Definition set_transport (t : TransportMode) (q : RtspRequest) : RtspRequest :=
  mkRequest (method q) (channelId q) t (requestLineParam q) (headerLineParam q) (state q).
Definition set_line (m : params) (q : RtspRequest) : RtspRequest :=
  mkRequest (method q) (channelId q) (transport q) m (headerLineParam q) (state q).
Definition set_header (m : params) (q : RtspRequest) : RtspRequest :=
  mkRequest (method q) (channelId q) (transport q) (requestLineParam q) m (state q).
Definition set_state (s : RtspRequestParseState) (q : RtspRequest) : RtspRequest :=
  mkRequest (method q) (channelId q) (transport q) (requestLineParam q) (headerLineParam q) s.

(** A parameter of the headers. *)
Definition add_header (k : String.string) (n : Z) (q : RtspRequest) : RtspRequest :=
  set_header (emplace k ([], n) (headerLineParam q)) q.

Definition method_of (s : list Z) : Method :=
  if text_eqb s (bytes "OPTIONS") then OPTIONS
  else if text_eqb s (bytes "DESCRIBE") then DESCRIBE
  else if text_eqb s (bytes "SETUP") then SETUP
  else if text_eqb s (bytes "PLAY") then PLAY
  else if text_eqb s (bytes "TEARDOWN") then TEARDOWN
  else if text_eqb s (bytes "GET_PARAMETER") then GET_PARAMETER
  else NONE.

(** The URL behind [rtsp://]: host, port and suffix. *)
Definition parse_url (url : list Z) : outcome (option (list Z * Z * list Z)) :=
  let! vs := sscanf [Until 58 64; Lit 58; Unsigned 16; Lit 47; Word 64] url in
  match vs with
  | [Str ip; Num port; Str suffix] => Ret (Some (ip, port, suffix))
  | _ =>
      let! vs := sscanf [Until 47 64; Lit 47; Word 64] url in
      match vs with
      | [Str ip; Str suffix] => Ret (Some (ip, 554, suffix))
      | _ => Ret None
      end
  end.

Definition parseRequestLine (message : list Z) (q : RtspRequest) : outcome (bool * RtspRequest) :=
  let! vs := sscanf [Word 64; Space; Word 512; Space; Word 64] (c_str message) in
  match vs with
  | [Str methodString; Str url; Str version] =>
      let q := set_method (method_of methodString) q in
      match method q with
      | NONE => Ret (false, q)
      | _ =>
          if negb (prefixb (bytes "rtsp://") url) then Ret (false, q)
          else
            let! u := parse_url (drop 7 url) in
            match u with
            | None => Ret (false, q)
            | Some (ip, port, suffix) =>
                let m := requestLineParam q in
                let m := emplace "url" (url, 0) m in
                let m := emplace "url_ip" (ip, 0) m in
                let m := emplace "url_port" ([], port) m in
                let m := emplace "url_suffix" (suffix, 0) m in
                let m := emplace "version" (version, 0) m in
                let m := emplace "method" (methodString, 0) m in
                Ret (true, set_state kParseHeadersLine (set_line m q))
            end
      end
  | _ => Ret (true, q)
  end.

(** [%*[^:]: %u] behind a name. *)
Definition header_number (s : list Z) : outcome (list value) := sscanf [Skip 58; Lit 58; Space; Unsigned 32] (c_str s).

Definition parseCSeq (message : list Z) (q : RtspRequest) : outcome (bool * RtspRequest) :=
  match find_sub (bytes "CSeq") message with
  | Some pos =>
      let! vs := header_number (drop pos message) in
      let cseq := match vs with [Num n] => n | _ => 0 end in
      Ret (true, add_header "cseq" cseq q)
  | None => Ret (false, q)
  end.

Definition parseAccept (message : list Z) : bool := contains (bytes "Accept") message && contains (bytes "sdp") message.

(** [%*[^;];%*[^;];%*[^=]=%hu-%hu] *)
Definition transport_numbers (s : list Z) : outcome (list value) :=
  sscanf [Skip 59; Lit 59; Skip 59; Lit 59; Skip 61; Lit 61; Unsigned 16; Lit 45; Unsigned 16] (c_str s).

Definition parseTransport (message : list Z) (q : RtspRequest) : outcome (bool * RtspRequest) :=
  if contains (bytes "Transport") message then
    match find_sub (bytes "RTP/AVP/TCP") message with
    | Some pos =>
        let q := set_transport RTP_OVER_TCP q in
        let! vs := transport_numbers (drop pos message) in
        match vs with
        | [Num a; Num b] => Ret (true, add_header "rtcp_channel" b (add_header "rtp_channel" a q))
        | _ => Ret (false, q)
        end
    | None =>
        match find_sub (bytes "RTP/AVP") message with
        | Some pos =>
            if contains (bytes "unicast") (drop pos message) then
              let q := set_transport RTP_OVER_UDP q in
              let! vs := transport_numbers (drop pos message) in
              match vs with
              | [Num a; Num b] => Ret (true, add_header "rtcp_port" b (add_header "rtp_port" a q))
              | _ => Ret (false, q)
              end
            else if contains (bytes "multicast") (drop pos message) then
              let q := set_transport RTP_OVER_MULTICAST q in
              Ret (true, add_header "rtcp_port" 0 (add_header "rtp_port" 0 q))
            else Ret (false, q)
        | None => Ret (false, q)
        end
    end
  else Ret (false, q).

Definition parseSessionId (message : list Z) : outcome bool :=
  match find_sub (bytes "Session") message with
  | Some pos =>
      let! vs := header_number (drop pos message) in
      Ret (match vs with [_] => true | _ => false end)
  | None => Ret false
  end.

Definition parseMediaChannel (q : RtspRequest) : RtspRequest :=
  let q := set_channelId 0 q in
  match requestLineParam q !! "url" with
  | Some (url, _) => if contains (bytes "track1") url then set_channelId 1 q else q
  | None => q
  end.

Definition parseHeadersLine (message : list Z) (q : RtspRequest) : outcome (bool * RtspRequest) :=
  let! (found, q) := parseCSeq message q in
  if negb found && match headerLineParam q !! "cseq" with Some _ => false | None => true end then Ret (false, q)
  else
    match method q with
    | OPTIONS | TEARDOWN | GET_PARAMETER => Ret (true, set_state kGotAll q)
    | DESCRIBE => if parseAccept message then Ret (true, set_state kGotAll q) else Ret (true, q)
    | SETUP =>
        let! (ok, q) := parseTransport message q in
        if ok then Ret (true, set_state kGotAll (parseMediaChannel q)) else Ret (true, q)
    | PLAY =>
        let! ok := parseSessionId message in
        if ok then Ret (true, set_state kGotAll q) else Ret (true, q)
    | _ => Ret (true, q)
    end.

(** The round of [parseRequest] in state [kParseHeadersLine]. *)
Definition parse_headers (ret : bool) (q : RtspRequest) (b : BufferReader) : outcome (bool * RtspRequest * BufferReader) :=
  match findLastCrlf b with
  | Some n =>
      let! (ret, q) := parseHeadersLine (take n (readable b)) q in
      Ret (ret, q, retrieveUntil (n + 2) b)
  | None => Ret (ret, q, b)
  end.

(** [peek()[0]] reads the vector even when nothing is readable. *)
Definition parseRequest (q : RtspRequest) (b : BufferReader) : outcome (bool * RtspRequest * BufferReader) :=
  let! c := get8 (buffer b) (Z.to_nat (readerIndex b)) in
  if c =? 36 then Ret (true, set_method RTCP q, b)
  else
    match state q with
    | kParseRequestLine =>
        let! (ret, q, b) :=
          match findFirstCrlf b with
          | Some n =>
              let! (ret, q) := parseRequestLine (take n (readable b)) q in
              Ret (ret, q, retrieveUntil (n + 2) b)
          | None => Ret (true, q, b)
          end in
        match state q with
        | kParseHeadersLine => parse_headers ret q b
        | _ => Ret (ret, q, b)
        end
    | kParseHeadersLine => parse_headers true q b
    | kGotAll => Ret (true, q, retrieveAll b)
    end.

Definition header_value (k : String.string) (q : RtspRequest) : Z := match headerLineParam q !! k with Some (_, n) => n | None => 0 end.
Definition line_text (k : String.string) (q : RtspRequest) : list Z := match requestLineParam q !! k with Some (s, _) => s | None => [] end.

Definition getCSeq (q : RtspRequest) : Z := header_value "cseq" q.
Definition getIp (q : RtspRequest) : list Z := line_text "url_ip" q.
Definition getRtspUrl (q : RtspRequest) : list Z := line_text "url" q.
Definition getRtspUrlSuffix (q : RtspRequest) : list Z := line_text "url_suffix" q.
Definition getRtpChannel (q : RtspRequest) : Z := u8 (header_value "rtp_channel" q).
Definition getRtcpChannel (q : RtspRequest) : Z := u8 (header_value "rtcp_channel" q).
Definition getRtpPort (q : RtspRequest) : Z := u16 (header_value "rtp_port" q).
Definition getRtcpPort (q : RtspRequest) : Z := u16 (header_value "rtcp_port" q).

(** ** The answers *)

Fixpoint digits (fuel : nat) (n : Z) : list Z :=
  match fuel with
  | O => []
  | S fuel => if n <? 10 then [48 + n] else digits fuel (n / 10) ++ [48 + n mod 10]
  end.

(** [%u] and [%d] of a number of at most 64 bits. *)
Definition decimal (n : Z) : list Z := digits 20 n.
Definition signed_decimal (n : Z) : list Z := if n <? 0 then 45 :: decimal (- n) else decimal n.

Definition crlf : list Z := [13; 10].

(** [memset], [snprintf] and [strlen] on an array of [n] bytes. *)
Definition snprintf (n : Z) (s : list Z) : list Z := take (Z.to_nat (n - 1)) s.

Definition buildOptionRes (n : Z) (q : RtspRequest) : list Z :=
  snprintf n (bytes "RTSP/1.0 200 OK" ++ crlf ++ bytes "CSeq: " ++ decimal (getCSeq q) ++ crlf ++
    bytes "Public: OPTIONS, DESCRIBE, SETUP, TEARDOWN, PLAY" ++ crlf ++ crlf).

Definition buildDescribeRes (n : Z) (sdp : list Z) (q : RtspRequest) : list Z :=
  snprintf n (bytes "RTSP/1.0 200 OK" ++ crlf ++ bytes "CSeq: " ++ decimal (getCSeq q) ++ crlf ++
    bytes "Content-Length: " ++ decimal (lenZ (c_str sdp)) ++ crlf ++ bytes "Content-Type: application/sdp" ++ crlf ++ crlf ++ c_str sdp).

Definition buildSetupMulticastRes (n : Z) (ip : list Z) (port sessionId : Z) (q : RtspRequest) : list Z :=
  snprintf n (bytes "RTSP/1.0 200 OK" ++ crlf ++ bytes "CSeq: " ++ decimal (getCSeq q) ++ crlf ++
    bytes "Transport: RTP/AVP;multicast;destination=" ++ c_str ip ++ bytes ";source=" ++ c_str (getIp q) ++ bytes ";port=" ++ decimal port ++
    bytes "-0;ttl=255" ++ crlf ++ bytes "Session: " ++ decimal sessionId ++ crlf ++ crlf).

Definition buildSetupUdpRes (n : Z) (rtpChn rtcpChn sessionId : Z) (q : RtspRequest) : list Z :=
  snprintf n (bytes "RTSP/1.0 200 OK" ++ crlf ++ bytes "CSeq: " ++ decimal (getCSeq q) ++ crlf ++
    bytes "Transport: RTP/AVP;unicast;client_port=" ++ decimal (getRtpPort q) ++ bytes "-" ++ decimal (getRtcpPort q) ++
    bytes ";server_port=" ++ decimal rtpChn ++ bytes "-" ++ decimal rtcpChn ++ crlf ++ bytes "Session: " ++ decimal sessionId ++ crlf ++ crlf).

Definition buildSetupTcpRes (n : Z) (rtpChn rtcpChn sessionId : Z) (q : RtspRequest) : list Z :=
  snprintf n (bytes "RTSP/1.0 200 OK" ++ crlf ++ bytes "CSeq: " ++ decimal (getCSeq q) ++ crlf ++
    bytes "Transport: RTP/AVP/TCP;unicast;interleaved=" ++ decimal rtpChn ++ bytes "-" ++ decimal rtcpChn ++ crlf ++
    bytes "Session: " ++ decimal sessionId ++ crlf ++ crlf).

(** [rtpInfo] is [nullptr] in the only call. *)
Definition buildPlayRes (n : Z) (rtpInfo : option (list Z)) (sessionId : Z) (q : RtspRequest) : list Z :=
  let buf := snprintf n (bytes "RTSP/1.0 200 OK" ++ crlf ++ bytes "CSeq: " ++ signed_decimal (i32 (getCSeq q)) ++ crlf ++
    bytes "Range: npt=0.000-" ++ crlf ++ bytes "Session: " ++ decimal sessionId ++ bytes "; timeout=60" ++ crlf) in
  let buf := match rtpInfo with Some s => buf ++ snprintf (n - lenZ buf) (c_str s ++ crlf) | None => buf end in
  buf ++ snprintf (n - lenZ buf) crlf.

Definition buildTeardownRes (n : Z) (sessionId : Z) (q : RtspRequest) : list Z :=
  snprintf n (bytes "RTSP/1.0 200 OK" ++ crlf ++ bytes "CSeq: " ++ signed_decimal (i32 (getCSeq q)) ++ crlf ++
    bytes "Session: " ++ decimal sessionId ++ crlf ++ crlf).

Definition buildGetParamterRes (n : Z) (sessionId : Z) (q : RtspRequest) : list Z :=
  snprintf n (bytes "RTSP/1.0 200 OK" ++ crlf ++ bytes "CSeq: " ++ signed_decimal (i32 (getCSeq q)) ++ crlf ++
    bytes "Session: " ++ decimal sessionId ++ crlf ++ crlf).

Definition buildNotFoundRes (n : Z) (q : RtspRequest) : list Z :=
  snprintf n (bytes "RTSP/1.0 404 Stream Not Found" ++ crlf ++ bytes "CSeq: " ++ decimal (getCSeq q) ++ crlf ++ crlf).

Definition buildServerErrorRes (n : Z) (q : RtspRequest) : list Z :=
  snprintf n (bytes "RTSP/1.0 500 Internal Server Error" ++ crlf ++ bytes "CSeq: " ++ decimal (getCSeq q) ++ crlf ++ crlf).

Definition buildUnsupportedRes (n : Z) (q : RtspRequest) : list Z :=
  snprintf n (bytes "RTSP/1.0 461 Unsupported transport" ++ crlf ++ bytes "CSeq: " ++ signed_decimal (i32 (getCSeq q)) ++ crlf ++ crlf).

(** ** Requests as text *)

Inductive client_transport := ClientTcp (rtp rtcp : Z) | ClientUdp (rtp rtcp : Z) | ClientMulticast.

(** The methods a client sends, with what they carry. *)
Inductive client_method := COptions | CDescribe | CSetup (t : client_transport) | CPlay (session : Z) | CTeardown | CGetParameter.

Record client_request := mkClient { r_method : client_method; r_host : list Z; r_port : option Z; r_suffix : list Z; r_version : list Z; r_cseq : Z }.

Definition method_name (m : client_method) : list Z :=
  match m with
  | COptions => bytes "OPTIONS" | CDescribe => bytes "DESCRIBE" | CSetup _ => bytes "SETUP" | CPlay _ => bytes "PLAY"
  | CTeardown => bytes "TEARDOWN" | CGetParameter => bytes "GET_PARAMETER"
  end.
Definition method_tag (m : client_method) : Method :=
  match m with
  | COptions => OPTIONS | CDescribe => DESCRIBE | CSetup _ => SETUP | CPlay _ => PLAY | CTeardown => TEARDOWN | CGetParameter => GET_PARAMETER
  end.

Definition url_rest (r : client_request) : list Z :=
  r_host r ++ match r_port r with Some p => bytes ":" ++ decimal p | None => [] end ++ bytes "/" ++ r_suffix r.
Definition url_text (r : client_request) : list Z := bytes "rtsp://" ++ url_rest r.

Definition request_line (r : client_request) : list Z := method_name (r_method r) ++ [32] ++ url_text r ++ [32] ++ r_version r.

(** The header that belongs to the method, with its CR LF. *)
Definition own_header (m : client_method) : list Z :=
  match m with
  | CDescribe => bytes "Accept: application/sdp" ++ crlf
  | CSetup (ClientTcp a b) => bytes "Transport: RTP/AVP/TCP;unicast;interleaved=" ++ decimal a ++ bytes "-" ++ decimal b ++ crlf
  | CSetup (ClientUdp a b) => bytes "Transport: RTP/AVP;unicast;client_port=" ++ decimal a ++ bytes "-" ++ decimal b ++ crlf
  | CSetup ClientMulticast => bytes "Transport: RTP/AVP;multicast" ++ crlf
  | CPlay s => bytes "Session: " ++ decimal s ++ crlf
  | _ => []
  end.

Definition headers_text (r : client_request) : list Z := bytes "CSeq: " ++ decimal (r_cseq r) ++ crlf ++ own_header (r_method r).

Definition request_text (r : client_request) : list Z := request_line r ++ crlf ++ headers_text r ++ crlf.

Example first_answer :
  buildOptionRes 2048 (add_header "cseq" 7 (mkRequest OPTIONS 0 RTP_OVER_TCP ∅ ∅ kGotAll)) =
  bytes "RTSP/1.0 200 OK" ++ crlf ++ bytes "CSeq: 7" ++ crlf ++ bytes "Public: OPTIONS, DESCRIBE, SETUP, TEARDOWN, PLAY" ++ crlf ++ crlf.
Proof. vm_compute. reflexivity. Qed.

Definition text_reader (s : list Z) : BufferReader := mkReader (s ++ repeat 0 (2048 - length s)) 0 (lenZ s).

Example demo_parse :
  let r := mkClient (CSetup (ClientUdp 5000 5001)) (bytes "10.0.0.2") (Some 8554) (bytes "live/track1") (bytes "RTSP/1.0") 3 in
  match parseRequest (mkRequest NONE 0 RTP_OVER_TCP ∅ ∅ kParseRequestLine) (text_reader (request_text r)) with
  | Ret (ok, q, b) => ok = true /\ gotAll q = true /\ method q = SETUP /\ getCSeq q = 3 /\ getRtpPort q = 5000 /\ channelId q = 1%nat /\ readable b = []
  | Crash _ => False
  end.
Proof. vm_compute. repeat split. Qed.

(** ** The text of a request is read back *)

Definition graph (c : Z) : bool := negb (isspace c) && ((0 <? c) && (c <? 256)).

(** What the arrays of the parser can hold. *)
Definition word_ok (n : nat) (s : list Z) : Prop := s <> [] /\ (length s < n)%nat /\ Forall (fun c => graph c = true) s.

Definition without (c : Z) (s : list Z) : Prop := Forall (fun x => negb (x =? c) = true) s.

Definition url_ok (r : client_request) : Prop :=
  without 58 (r_host r) /\ without 47 (r_host r) /\
  match r_port r with
  | Some p => is_u16 p
  | None => without 58 (r_suffix r) /\ (length (r_host r) + 1 + length (r_suffix r) < 64)%nat
  end.

Definition method_ok (m : client_method) : Prop :=
  match m with
  | CSetup (ClientTcp a b) => is_u8 a /\ is_u8 b
  | CSetup (ClientUdp a b) => is_u16 a /\ is_u16 b
  | CPlay s => is_u32 s
  | _ => True
  end.

Definition client_ok (r : client_request) : Prop :=
  word_ok 64 (r_host r) /\ word_ok 64 (r_suffix r) /\ word_ok 64 (r_version r) /\ url_ok r /\ is_u32 (r_cseq r) /\ method_ok (r_method r).

(** Digits that stand for [n]. *)
Definition digits_of (n : Z) (ds : list Z) : Prop := ds <> [] /\ Forall (fun c => isdigit c = true) ds /\ number ds = n.

Lemma number_snoc ds c : number (ds ++ [c]) = 10 * number ds + (c - 48).
Proof. unfold number. rewrite fold_left_app. reflexivity. Qed.

Lemma digits_spec fuel : forall n, 0 <= n < 10 ^ Z.of_nat fuel -> (0 < fuel)%nat -> digits_of n (digits fuel n) /\ (length (digits fuel n) <= fuel)%nat.
Proof.
  induction fuel as [|fuel IH]; [lia|]. intros n Hn _. cbn [digits]. destruct (Z.ltb_spec n 10) as [L|L].
  - split; [|cbn; lia]. split_and!; [discriminate | constructor; [unfold isdigit; lia | constructor] | unfold number; cbn; lia].
  - replace (Z.of_nat (S fuel)) with (Z.of_nat fuel + 1) in Hn by lia. rewrite Z.pow_add_r in Hn by lia. change (10 ^ 1) with 10 in Hn.
    assert (Hf : (0 < fuel)%nat) by (destruct fuel; [change (10 ^ Z.of_nat 0) with 1 in Hn; lia | lia]).
    destruct (IH (n / 10)) as [(_ & D & N) Lk]; [split; [apply Z.div_pos; lia | apply Z.div_lt_upper_bound; lia] | exact Hf |].
    split; [|rewrite length_app; cbn; lia].
    pose proof (Z.mod_pos_bound n 10 ltac:(lia)) as B. split_and!.
    + destruct (digits fuel (n / 10)); discriminate.
    + apply Forall_app. split; [exact D | constructor; [unfold isdigit; lia | constructor]].
    + rewrite number_snoc, N. pose proof (Z.div_mod n 10 ltac:(lia)). lia.
Qed.

Lemma decimal_spec n : 0 <= n < 2 ^ 64 -> digits_of n (decimal n) /\ (length (decimal n) <= 20)%nat.
Proof. intros H. apply digits_spec; [|lia]. change (10 ^ Z.of_nat 20) with 100000000000000000000. change (2 ^ 64) with 18446744073709551616 in H. lia. Qed.
