(* ===== verification/RtspParse.v ===== *)
(** * What the parser of RTSP requests does with a request (rtsp/RtspMessage.cpp)

    The text of a request is read back: every field the getters return is the one
    the client wrote.  A request whose first line is short is parsed without a
    store outside the arrays, whatever its bytes are. *)

From stdpp Require Import gmap strings.
From Stdlib Require Ascii String.
From S2P Require Import Prelude RtspIo RtpFrame RtpConn RtspMessage.

Import String.StringSyntax.
Local Open Scope string_scope.
Local Open Scope Z_scope.
Local Open Scope list_scope.

Import Reader.

(** ** The directives *)

(** What may follow a text a directive stops at. *)
Definition stops (f : Z -> bool) (r : list Z) : Prop := match r with [] => True | x :: _ => f x = false end.

Lemma graph_nospace s : Forall (fun c => graph c = true) s -> Forall (fun c => negb (isspace c) = true) s.
Proof. intros G. eapply Forall_impl; [exact G|]. unfold graph. intros c E. apply andb_true_iff in E. apply E. Qed.

Lemma dropspace_graph s r : s <> [] -> Forall (fun c => negb (isspace c) = true) s -> dropwhile isspace (s ++ r) = s ++ r.
Proof.
  intros N F. destruct F as [|x s Hx F]; [congruence|]. cbn [app dropwhile]. apply negb_true_iff in Hx. rewrite Hx. reflexivity.
Qed.

Lemma scan_word cap ds s r : word_ok cap s -> stops (fun c => negb (isspace c)) r ->
  sscanf (Word cap :: ds) (s ++ r) = let! vs := sscanf ds r in Ret (Str s :: vs).
Proof.
  intros (N & L & G) R. apply graph_nospace in G. cbn [sscanf]. rewrite (dropspace_graph s r N G). destruct (while_app _ s r G R) as [-> ->].
  rewrite (proj2 (Nat.ltb_lt _ _) L). destruct s; [congruence | reflexivity].
Qed.

Lemma scan_until c cap ds s r : s <> [] -> (length s < cap)%nat -> without c s -> stops (fun x => negb (x =? c)) r ->
  sscanf (Until c cap :: ds) (s ++ r) = let! vs := sscanf ds r in Ret (Str s :: vs).
Proof.
  intros N L W R. cbn [sscanf]. destruct (while_app _ s r W R) as [-> ->]. rewrite (proj2 (Nat.ltb_lt _ _) L). destruct s; [congruence | reflexivity].
Qed.

Lemma scan_skip c ds s r : s <> [] -> without c s -> stops (fun x => negb (x =? c)) r -> sscanf (Skip c :: ds) (s ++ r) = sscanf ds r.
Proof. intros N W R. cbn [sscanf]. destruct (while_app _ s r W R) as [-> ->]. destruct s; [congruence | reflexivity]. Qed.

Lemma scan_unsigned w ds n d r : digits_of n d -> 0 <= n < 2 ^ w -> 0 <= w <= 64 -> stops isdigit r ->
  sscanf (Unsigned w :: ds) (d ++ r) = let! vs := sscanf ds r in Ret (Num n :: vs).
Proof.
  intros (N & D & V) B W R. cbn [sscanf]. rewrite dropspace_graph; [|exact N | eapply Forall_impl; [exact D|]; unfold isdigit, isspace; intros c; lia].
  assert (Sg : match d ++ r with x :: t => if x =? 45 then (true, t) else if x =? 43 then (false, t) else (false, d ++ r) | [] => (false, d ++ r) end = (false, d ++ r)).
  { destruct D as [|x d Hx D]; [congruence|]. cbn [app]. unfold isdigit in Hx. destruct (Z.eqb_spec x 45), (Z.eqb_spec x 43); try lia. reflexivity. }
  rewrite Sg. destruct (while_app _ d r D R) as [-> ->]. destruct d as [|x d]; [congruence|]. rewrite V. unfold stored. pose proof (Z.pow_le_mono_r 2 w 64 ltac:(lia) ltac:(lia)).
  destruct (Z.leb_spec (2 ^ 64) n); [lia|]. rewrite Z.mod_small by lia. reflexivity.
Qed.

Lemma scan_space ds w r : w <> [] -> Forall (fun c => graph c = true) w -> sscanf (Space :: ds) (32 :: w ++ r) = sscanf ds (w ++ r).
Proof. intros N G. cbn [sscanf dropwhile isspace Z.eqb Pos.eqb orb]. rewrite dropspace_graph; [reflexivity | exact N | apply graph_nospace, G]. Qed.

Lemma scan_lit c ds s : sscanf (Lit c :: ds) (c :: s) = sscanf ds s.
Proof. cbn [sscanf]. rewrite Z.eqb_refl. reflexivity. Qed.

(** ** Substrings *)

Lemma prefixb_app p r : prefixb p (p ++ r) = true.
Proof. induction p as [|x p IH]; [reflexivity|]. cbn. rewrite Z.eqb_refl. exact IH. Qed.

Lemma find_sub_here p r : find_sub p (p ++ r) = Some 0%nat.
Proof. pose proof (prefixb_app p r) as E. destruct (p ++ r); cbn [find_sub]; rewrite E; reflexivity. Qed.

Lemma find_sub_skip c p pre r : without c pre -> find_sub (c :: p) (pre ++ r) = Nat.add (length pre) <$> find_sub (c :: p) r.
Proof.
  induction 1 as [|x pre Hx _ IH]; [cbn; destruct (find_sub (c :: p) r); reflexivity|].
  cbn [app find_sub prefixb]. rewrite Z.eqb_sym in Hx. apply negb_true_iff in Hx. rewrite Hx. cbn [andb]. rewrite IH. destruct (find_sub (c :: p) r); reflexivity.
Qed.

Lemma find_sub_none c p s : without c s -> find_sub (c :: p) s = None.
Proof. intros W. rewrite <- (app_nil_r s), find_sub_skip by exact W. reflexivity. Qed.

(** A step at which the pattern does not begin. *)
Lemma find_sub_step p x s : prefixb p (x :: s) = false -> find_sub p (x :: s) = S <$> find_sub p s.
Proof. intros E. cbn [find_sub]. rewrite E. reflexivity. Qed.

Lemma contains_here p r : contains p (p ++ r) = true.
Proof. unfold contains. rewrite find_sub_here. reflexivity. Qed.

Lemma contains_skip c p pre r : without c pre -> contains (c :: p) (pre ++ r) = contains (c :: p) r.
Proof. intros W. unfold contains. rewrite find_sub_skip by exact W. destruct (find_sub (c :: p) r); reflexivity. Qed.

Lemma without_check c s : forallb (fun x => negb (x =? c)) s = true -> without c s.
Proof. intros E. apply Forall_forall. intros x Hx. apply list_elem_of_In in Hx. exact (proj1 (forallb_forall _ s) E x Hx). Qed.

Lemma without_app c a b : without c a -> without c b -> without c (a ++ b).
Proof. intros A B. apply Forall_app. auto. Qed.

Lemma without_digits c n ds : digits_of n ds -> isdigit c = false -> without c ds.
Proof. intros (_ & D & _) N. eapply Forall_impl; [exact D|]. unfold isdigit in *. intros x. lia. Qed.

Lemma without_graph c s : Forall (fun c => graph c = true) s -> graph c = false -> without c s.
Proof. intros G N. eapply Forall_impl; [exact G|]. intros x Hx. destruct (Z.eqb_spec x c); [congruence | reflexivity]. Qed.

Lemma c_str_id s : without 0 s -> c_str s = s.
Proof. intros W. unfold c_str. pose proof (while_app (fun c => negb (c =? 0)) s [] W I) as [E _]. rewrite app_nil_r in E. exact E. Qed.

(** ** The buffer *)

Lemma first_crlf_at l r : without 13 l -> first_crlf (l ++ 13 :: 10 :: r) = Some (length l).
Proof. induction 1 as [|x l Hx _ IH]; [reflexivity|]. cbn [app first_crlf]. apply negb_true_iff in Hx. rewrite Hx. cbn [andb]. rewrite IH. reflexivity. Qed.

Lemma last_crlf_at l : last_crlf (l ++ [13; 10]) = Some (length l).
Proof. induction l as [|x l IH]; [reflexivity|]. cbn [app last_crlf]. rewrite IH. reflexivity. Qed.

(** ** The request line *)

Lemma graph_check s : forallb graph s = true -> Forall (fun c => graph c = true) s.
Proof. intros E. apply Forall_forall. intros x Hx. apply list_elem_of_In in Hx. exact (proj1 (forallb_forall _ s) E x Hx). Qed.

Lemma digits_graph n ds : digits_of n ds -> Forall (fun c => graph c = true) ds.
Proof. intros (_ & D & _). eapply Forall_impl; [exact D|]. unfold isdigit, graph, isspace. intros c. lia. Qed.

Lemma u16_digits p : is_u16 p -> digits_of p (decimal p) /\ (length (decimal p) <= 20)%nat.
Proof. unfold is_u16. intros H. apply decimal_spec. change (2 ^ 64) with 18446744073709551616. lia. Qed.
Lemma u32_digits p : is_u32 p -> digits_of p (decimal p).
Proof. unfold is_u32. intros H. apply decimal_spec. change (2 ^ 64) with 18446744073709551616. lia. Qed.

Definition port_of (r : client_request) : Z := match r_port r with Some p => p | None => 554 end.

Lemma parse_url_text r : client_ok r -> parse_url (url_rest r) = Ret (Some (r_host r, port_of r, r_suffix r)).
Proof.
  intros ((HN & HL & HG) & S & _ & (W1 & W2 & U) & _). unfold url_rest, port_of. destruct (r_port r) as [p|].
  - destruct (u16_digits p U) as [D _]. unfold parse_url. change (bytes ":") with [58]. change (bytes "/") with [47]. rewrite <- app_assoc.
    rewrite scan_until by (assumption || reflexivity). cbn [app]. rewrite scan_lit.
    rewrite scan_unsigned with (n := p) by (assumption || reflexivity || (unfold is_u16 in U; change (2 ^ 16) with 65536; lia)). rewrite scan_lit.
    rewrite <- (app_nil_r (r_suffix r)), scan_word by (assumption || exact I). rewrite app_nil_r. reflexivity.
  - destruct U as [W3 L3]. unfold parse_url. change (bytes "/") with [47]. cbn [app].
    assert (E1 : sscanf [Until 58 64; Lit 58; Unsigned 16; Lit 47; Word 64] (r_host r ++ 47 :: r_suffix r) = Ret [Str (r_host r ++ 47 :: r_suffix r)]).
    { rewrite <- (app_nil_r (r_host r ++ 47 :: r_suffix r)). rewrite scan_until; [rewrite app_nil_r; reflexivity | destruct (r_host r); discriminate
        | rewrite length_app; cbn; lia | apply without_app; [exact W1 | constructor; [reflexivity | exact W3]] | exact I]. }
    rewrite E1. cbn [obind]. rewrite scan_until by (assumption || reflexivity). rewrite scan_lit.
    rewrite <- (app_nil_r (r_suffix r)), scan_word by (assumption || exact I). rewrite app_nil_r. reflexivity.
Qed.

Lemma url_word r : client_ok r -> word_ok 512 (url_text r).
Proof.
  intros ((HN & HL & HG) & (SN & SL & SG) & _ & (W1 & W2 & U) & _). unfold url_text, url_rest. split_and!; [discriminate| |].
  - rewrite !length_app. destruct (r_port r) as [p|]; [destruct (u16_digits p U) as [_ D]; rewrite length_app|]; cbn [bytes length]; lia.
  - apply Forall_app. split; [apply graph_check; reflexivity|]. apply Forall_app. split; [exact HG|].
    apply Forall_app. split; [|apply Forall_app; split; [apply graph_check; reflexivity | exact SG]].
    destruct (r_port r) as [p|]; [|constructor]. apply Forall_app. split; [apply graph_check; reflexivity|]. apply (digits_graph p). apply u16_digits, U.
Qed.

Lemma method_word m : word_ok 64 (method_name m).
Proof. destruct m; (split_and!; [discriminate | cbn; lia | apply graph_check; reflexivity]). Qed.

Lemma method_of_name m : method_of (method_name m) = method_tag m.
Proof. destruct m; vm_compute; reflexivity. Qed.

Lemma tag_known m {A} (x y : A) : match method_tag m with NONE => x | _ => y end = y.
Proof. destruct m; reflexivity. Qed.

Lemma request_line_graph r : client_ok r -> without 0 (request_line r) /\ without 13 (request_line r).
Proof.
  intros K. pose proof (url_word r K) as (_ & _ & UG). pose proof (method_word (r_method r)) as (_ & _ & MG). destruct K as (_ & _ & (_ & _ & VG) & _).
  unfold request_line. split; (apply without_app; [apply without_graph; [exact MG | reflexivity]|]; apply without_app; [apply without_check; reflexivity|];
    apply without_app; [apply without_graph; [exact UG | reflexivity]|]; apply without_app; [apply without_check; reflexivity|];
    apply without_graph; [exact VG | reflexivity]).
Qed.

Lemma scan_line r : client_ok r ->
  sscanf [Word 64; Space; Word 512; Space; Word 64] (c_str (request_line r)) = Ret [Str (method_name (r_method r)); Str (url_text r); Str (r_version r)].
Proof.
  intros K. rewrite c_str_id by apply request_line_graph, K. pose proof (url_word r K) as U. destruct K as (_ & _ & V & _). unfold request_line. cbn [app].
  rewrite scan_word by (apply method_word || reflexivity).
  rewrite scan_space, scan_word by (apply U || reflexivity).
  rewrite <- (app_nil_r (r_version r)), scan_space, scan_word by (apply V || exact I). rewrite app_nil_r. reflexivity.
Qed.

(** The parameters of the request line. *)
Definition line_params (r : client_request) : params :=
  let m := emplace "url" (url_text r, 0) ∅ in
  let m := emplace "url_ip" (r_host r, 0) m in
  let m := emplace "url_port" ([], port_of r) m in
  let m := emplace "url_suffix" (r_suffix r, 0) m in
  let m := emplace "version" (r_version r, 0) m in
  emplace "method" (method_name (r_method r), 0) m.

Lemma parse_line_text r q : client_ok r -> requestLineParam q = ∅ ->
  parseRequestLine (request_line r) q = Ret (true, set_state kParseHeadersLine (set_line (line_params r) (set_method (method_tag (r_method r)) q))).
Proof.
  intros K E. unfold parseRequestLine. rewrite scan_line by exact K. cbn [obind]. rewrite method_of_name. cbn [set_method method].
  rewrite tag_known. unfold url_text at 1. rewrite prefixb_app. cbn [negb].
  replace (drop 7 (url_text r)) with (url_rest r) by reflexivity. rewrite parse_url_text by exact K. cbn [obind].
  unfold set_method at 1. cbn [requestLineParam]. rewrite E. reflexivity.
Qed.

(** ** The headers *)

Lemma header_number_text name n d r : name <> [] -> without 58 name -> digits_of n d -> is_u32 n -> stops isdigit r ->
  without 0 (name ++ 58 :: 32 :: d ++ r) -> header_number (name ++ 58 :: 32 :: d ++ r) = Ret [Num n].
Proof.
  intros N W D U R Z. unfold header_number. rewrite c_str_id by exact Z. rewrite scan_skip by (assumption || reflexivity). rewrite scan_lit.
  rewrite scan_space by (apply D || apply (digits_graph n), D).
  rewrite scan_unsigned with (n := n) by (assumption || (unfold is_u32 in U; change (2 ^ 32) with 4294967296; lia) || lia). reflexivity.
Qed.

Lemma transport_numbers_text x y z a b da db : x <> [] -> y <> [] -> z <> [] -> without 59 x -> without 59 y -> without 61 z ->
  digits_of a da -> digits_of b db -> is_u16 a -> is_u16 b ->
  let s := x ++ 59 :: y ++ 59 :: z ++ 61 :: da ++ 45 :: db ++ crlf in without 0 s -> transport_numbers s = Ret [Num a; Num b].
Proof.
  intros X Y Z W1 W2 W3 D1 D2 U1 U2 s C. unfold transport_numbers. rewrite c_str_id by exact C. unfold s.
  rewrite scan_skip, scan_lit by (assumption || reflexivity). rewrite scan_skip, scan_lit by (assumption || reflexivity).
  rewrite scan_skip, scan_lit by (assumption || reflexivity). unfold is_u16 in *. pose proof (eq_refl : 2 ^ 16 = 65536).
  rewrite scan_unsigned with (n := a) by (assumption || reflexivity || lia). rewrite scan_lit.
  rewrite scan_unsigned with (n := b) by (assumption || reflexivity || lia). reflexivity.
Qed.

(** The first header, in front of the method's own. *)
Definition cseq_line (r : client_request) : list Z := bytes "CSeq: " ++ decimal (r_cseq r) ++ crlf.

Lemma cseq_without r c : client_ok r -> isdigit c = false -> forallb (fun x => negb (x =? c)) (bytes "CSeq: " ++ crlf) = true -> without c (cseq_line r).
Proof.
  intros K N E. rewrite forallb_app in E. apply andb_true_iff in E as [E1 E2]. apply without_app; [apply without_check, E1|].
  apply without_app; [|apply without_check, E2]. apply (without_digits c (r_cseq r)); [apply u32_digits, K | exact N].
Qed.

Lemma own_header_clean m : method_ok m -> without 0 (own_header m).
Proof.
  intros K. assert (Dig : forall n, is_u32 n -> without 0 (decimal n)) by (intros n U; apply (without_digits 0 n); [apply u32_digits, U | reflexivity]).
  destruct m as [| |[a b|a b|]|s| |]; cbn [own_header method_ok] in *; repeat apply without_app; try (apply without_check; reflexivity); apply Dig; rlia.
Qed.

Lemma headers_split r : headers_text r = cseq_line r ++ own_header (r_method r).
Proof. unfold headers_text, cseq_line. rewrite <- !app_assoc. reflexivity. Qed.

Lemma headers_clean r : client_ok r -> without 0 (headers_text r).
Proof.
  intros K. rewrite headers_split.
  apply without_app; [apply (cseq_without r 0 K); reflexivity | apply own_header_clean, K].
Qed.

Lemma parseCSeq_text r q : client_ok r -> parseCSeq (headers_text r) q = Ret (true, add_header "cseq" (r_cseq r) q).
Proof.
  intros K. pose proof (headers_clean r K) as C. unfold parseCSeq, headers_text in *.
  change (bytes "CSeq: ") with (bytes "CSeq" ++ [58; 32]) in *. rewrite <- app_assoc in *. cbn [app] in *.
  rewrite find_sub_here, drop_0. rewrite (header_number_text _ (r_cseq r)); [reflexivity | discriminate | apply without_check; reflexivity
    | apply u32_digits, K | apply K | reflexivity | exact C].
Qed.

Definition with_transport (t : client_transport) (q : RtspRequest) : RtspRequest :=
  match t with
  | ClientTcp a b => add_header "rtcp_channel" b (add_header "rtp_channel" a (set_transport RTP_OVER_TCP q))
  | ClientUdp a b => add_header "rtcp_port" b (add_header "rtp_port" a (set_transport RTP_OVER_UDP q))
  | ClientMulticast => add_header "rtcp_port" 0 (add_header "rtp_port" 0 (set_transport RTP_OVER_MULTICAST q))
  end.

Lemma parseAccept_text r : client_ok r -> r_method r = CDescribe -> parseAccept (headers_text r) = true.
Proof.
  intros K E. rewrite headers_split, E. unfold parseAccept. cbn [own_header].
  change (bytes "Accept") with (65 :: bytes "ccept"). change (bytes "sdp") with (115 :: bytes "dp").
  rewrite (contains_skip 65) by (apply (cseq_without r 65 K); reflexivity).
  rewrite (contains_skip 115) by (apply (cseq_without r 115 K); reflexivity). reflexivity.
Qed.

Lemma parseSession_text r s : client_ok r -> r_method r = CPlay s -> parseSessionId (headers_text r) = Ret true.
Proof.
  intros K E. pose proof (headers_clean r K) as C. rewrite headers_split, E in *. destruct K as (_ & _ & _ & _ & U & M). rewrite E in M. cbn [method_ok own_header] in *.
  unfold parseSessionId. pose proof (u32_digits _ U) as D.
  assert (F : find_sub (bytes "Session") (cseq_line r ++ bytes "Session: " ++ decimal s ++ crlf) = Some (length (cseq_line r))).
  { unfold cseq_line. change (bytes "CSeq: ") with ([67] ++ [83] ++ bytes "eq: "). rewrite <- !app_assoc.
    change (bytes "Session") with (83 :: bytes "ession"). rewrite (find_sub_skip 83 _ [67]) by (apply without_check; reflexivity).
    cbn [app]. rewrite find_sub_step by reflexivity. rewrite (app_assoc (bytes "eq: ")), (app_assoc (_ ++ _) crlf).
    rewrite (find_sub_skip 83 _ ((bytes "eq: " ++ decimal (r_cseq r)) ++ crlf)).
    2: { apply without_app; [|apply without_check; reflexivity]. apply without_app; [apply without_check; reflexivity | apply (without_digits 83 (r_cseq r)); [exact D | reflexivity]]. }
    change (bytes "Session: ") with ((83 :: bytes "ession") ++ [58; 32]). rewrite <- (app_assoc (83 :: _)), find_sub_here. cbn [fmap option_fmap option_map].
    f_equal. rewrite !length_app. cbn [bytes length app]. rewrite !length_app. cbn [length]. lia. }
  rewrite F, drop_app_length. apply Forall_app in C as [_ C]. change (bytes "Session: ") with (bytes "Session" ++ [58; 32]) in *. rewrite <- app_assoc in *. cbn [app] in *.
  rewrite (header_number_text _ s); [reflexivity | discriminate | apply without_check; reflexivity | apply u32_digits, M | exact M | reflexivity | exact C].
Qed.

(** The transport stands behind [CSeq: n CR LF Transport: ]. *)
Definition transport_prefix (r : client_request) : list Z := cseq_line r ++ bytes "Transport: ".

Lemma transport_found r p t : client_ok r -> find_sub (bytes "RTP/AVP" ++ p) (transport_prefix r ++ (bytes "RTP/AVP" ++ p) ++ t) = Some (length (transport_prefix r)).
Proof.
  intros K. change (bytes "RTP/AVP") with (82 :: bytes "TP/AVP"). cbn [app]. rewrite (find_sub_skip 82).
  - change (82 :: (bytes "TP/AVP" ++ p) ++ t) with ((82 :: bytes "TP/AVP" ++ p) ++ t). rewrite find_sub_here. cbn. f_equal. lia.
  - apply without_app; [apply (cseq_without r 82 K); reflexivity | apply without_check; reflexivity].
Qed.

Lemma prefixb_cut p c d x t : x <> c -> prefixb (p ++ c :: d) (p ++ x :: t) = false.
Proof.
  intros N. induction p as [|y p IH]; cbn; [destruct (Z.eqb_spec c x); [congruence | reflexivity]|]. rewrite Z.eqb_refl. exact IH.
Qed.

Lemma transport_not_tcp r x t : client_ok r -> x <> 47 -> without 82 (x :: t) -> find_sub (bytes "RTP/AVP/TCP") (transport_prefix r ++ bytes "RTP/AVP" ++ x :: t) = None.
Proof.
  intros K N W. change (bytes "RTP/AVP/TCP") with (82 :: bytes "TP/AVP/TCP"). change (bytes "RTP/AVP") with ([82] ++ bytes "TP/AVP"). rewrite (find_sub_skip 82).
  - rewrite <- app_assoc. cbn [app]. rewrite find_sub_step.
    + rewrite find_sub_none; [reflexivity|]. apply without_app; [apply without_check; reflexivity | exact W].
    + exact (prefixb_cut (bytes "RTP/AVP") 47 (bytes "TCP") x t N).
  - apply without_app; [apply (cseq_without r 82 K); reflexivity | apply without_check; reflexivity].
Qed.

Lemma transport_named r s : client_ok r -> contains (bytes "Transport") (transport_prefix r ++ s) = true.
Proof.
  intros K. unfold transport_prefix. rewrite <- app_assoc. change (bytes "Transport") with (84 :: bytes "ransport").
  rewrite (contains_skip 84) by (apply (cseq_without r 84 K); reflexivity).
  change (bytes "Transport: ") with ((84 :: bytes "ransport") ++ bytes ": "). rewrite <- app_assoc. apply contains_here.
Qed.

Lemma pair_without c a b : is_u16 a -> is_u16 b -> isdigit c = false -> negb (45 =? c) && negb (13 =? c) && negb (10 =? c) = true ->
  without c (decimal a ++ bytes "-" ++ decimal b ++ crlf).
Proof.
  intros U V N E. apply andb_true_iff in E as [E E3]. apply andb_true_iff in E as [E1 E2].
  apply without_app; [apply (without_digits c a); [apply u16_digits, U | exact N]|]. apply without_app; [constructor; [exact E1 | constructor]|].
  apply without_app; [apply (without_digits c b); [apply u16_digits, V | exact N]|]. repeat constructor; assumption.
Qed.

(** The text behind the prefix. *)
Definition transport_tail (t : client_transport) : list Z :=
  match t with
  | ClientTcp a b => (bytes "RTP/AVP" ++ bytes "/TCP") ++ 59 :: bytes "unicast" ++ 59 :: bytes "interleaved" ++ 61 :: decimal a ++ 45 :: decimal b ++ crlf
  | ClientUdp a b => (bytes "RTP/AVP" ++ []) ++ 59 :: bytes "unicast" ++ 59 :: bytes "client_port" ++ 61 :: decimal a ++ 45 :: decimal b ++ crlf
  | ClientMulticast => (bytes "RTP/AVP" ++ []) ++ 59 :: bytes "multicast" ++ crlf
  end.

Lemma transport_split r t : r_method r = CSetup t -> headers_text r = transport_prefix r ++ transport_tail t.
Proof. intros E. rewrite headers_split, E. unfold transport_prefix. rewrite <- app_assoc. f_equal. destruct t; reflexivity. Qed.

Lemma parseTransport_text r t q : client_ok r -> r_method r = CSetup t -> parseTransport (headers_text r) q = Ret (true, with_transport t q).
Proof.
  intros K E. pose proof (headers_clean r K) as C. rewrite (transport_split r t E) in *. pose proof K as (_ & _ & _ & _ & _ & M). rewrite E in M.
  apply Forall_app in C as [_ C]. unfold parseTransport. rewrite transport_named by exact K.
  destruct t as [a b|a b|]; cbn [method_ok transport_tail] in *.
  - destruct M as [U V]. change (bytes "RTP/AVP/TCP") with (bytes "RTP/AVP" ++ bytes "/TCP"). rewrite transport_found, drop_app_length by exact K.
    rewrite (transport_numbers_text _ _ _ a b); try discriminate; try (apply without_check; reflexivity); try (apply u16_digits); try exact C; try (unfold is_u8, is_u16 in *; lia). reflexivity.
  - destruct M as [U V]. rewrite app_nil_r in C at 1. rewrite app_nil_r at 1.
    rewrite transport_not_tcp; [|exact K | discriminate|].
    2: { constructor; [reflexivity|]. apply without_app; [apply without_check; reflexivity|]. constructor; [reflexivity|]. apply without_app; [apply without_check; reflexivity|].
         constructor; [reflexivity|]. apply (pair_without 82 a b U V); reflexivity. }
    change (bytes "RTP/AVP") with (bytes "RTP/AVP" ++ []) at 1 2 3. rewrite transport_found, !drop_app_length by exact K.
    rewrite !app_nil_r. replace (contains (bytes "unicast") _) with true.
    2: { symmetry. change (bytes "unicast") with (117 :: bytes "nicast") at 1. rewrite (contains_skip 117) by (apply without_check; reflexivity).
         exact (eq_trans (contains_skip 117 (bytes "nicast") [59] _ ltac:(apply without_check; reflexivity)) (contains_here (bytes "unicast") _)). }
    rewrite (transport_numbers_text _ _ _ a b); try discriminate; try (apply without_check; reflexivity); try (apply u16_digits); try exact C; try assumption. reflexivity.
  - rewrite app_nil_r at 1. rewrite transport_not_tcp; [|exact K | discriminate | apply without_check; reflexivity].
    change (bytes "RTP/AVP") with (bytes "RTP/AVP" ++ []) at 1. rewrite transport_found, drop_app_length by exact K. reflexivity.
Qed.

(** ** The request *)

Lemma peek_at b n x : readable b !! n = Some x -> get8 (buffer b) (Z.to_nat (readerIndex b) + n) = Ret x.
Proof. intros L. unfold readable in L. rewrite lookup_drop, lookup_take_Some in L. unfold get8. destruct L as [-> _]. reflexivity. Qed.

Lemma peek_first b x l : readable b = x :: l -> get8 (buffer b) (Z.to_nat (readerIndex b)) = Ret x.
Proof. intros E. rewrite <- (Nat.add_0_r (Z.to_nat (readerIndex b))). apply peek_at. rewrite E. reflexivity. Qed.

Lemma queue_take_suffix n q w q' w' : queue_take n q w = (q', w') -> exists used, q = used ++ q'.
Proof. intros E. exists (take n q). rewrite <- (take_drop n q) at 1. f_equal. unfold queue_take in E. destruct (drop n q); inversion E; reflexivity. Qed.

(** What is consumed up to and with a CR LF. *)
Lemma retrieve_line b q w p r : rep b q w -> q = p ++ 13 :: 10 :: r -> exists w', rep (retrieveUntil (length p + 2) b) r w'.
Proof.
  intros R ->. destruct (queue_take_rep b _ w (Z.of_nat (length p + 2)) R) as (q' & w' & E & R'); [lia|]. exists w'. unfold retrieveUntil.
  unfold queue_take in E. rewrite Nat2Z.id in E. rewrite drop_app_ge in E by lia. replace (length p + 2 - length p)%nat with 2%nat in E by lia. cbn [drop skipn] in E.
  destruct r; inversion E; subst; exact R'.
Qed.

Definition finish (r : client_request) (q : RtspRequest) : RtspRequest :=
  let q := add_header "cseq" (r_cseq r) q in
  set_state kGotAll match r_method r with CSetup t => parseMediaChannel (with_transport t q) | _ => q end.

Lemma parse_headers_text r q : client_ok r -> method q = method_tag (r_method r) -> parseHeadersLine (headers_text r) q = Ret (true, finish r q).
Proof.
  intros K E. unfold parseHeadersLine, finish. rewrite parseCSeq_text by exact K. cbn [obind negb andb]. cbn [method add_header set_header]. rewrite E.
  destruct (r_method r) as [| |t|s| |] eqn:Em; cbn [method_tag]; try reflexivity.
  - rewrite parseAccept_text by assumption. reflexivity.
  - rewrite (parseTransport_text r t) by assumption. reflexivity.
  - rewrite (parseSession_text r s) by assumption. reflexivity.
Qed.

(** The state between two requests. *)
Definition fresh_request (q : RtspRequest) : Prop := state q = kParseRequestLine /\ requestLineParam q = ∅ /\ headerLineParam q = ∅.

Lemma parse_request_text r q b w : client_ok r -> fresh_request q -> rep b (request_text r) w ->
  exists b', parseRequest q b = Ret (true, finish r (set_state kParseHeadersLine (set_line (line_params r) (set_method (method_tag (r_method r)) q))), b') /\ rep b' [] 0.
Proof.
  intros K (S & L & H) R. pose proof R as (_ & Q & _).
  assert (F : exists x l, request_text r = x :: l /\ (x =? 36) = false) by (destruct (r_method r) eqn:E; unfold request_text, request_line; rewrite E; do 2 eexists; (split; [reflexivity | reflexivity])).
  destruct F as (x & l & Ex & Nx). unfold parseRequest. rewrite (peek_first b x l) by (rewrite Q; exact Ex). cbn [obind]. rewrite Nx, S.
  unfold findFirstCrlf. rewrite Q. unfold request_text at 1. cbn [app crlf]. rewrite first_crlf_at by apply request_line_graph, K.
  assert (T : take (length (request_line r)) (request_text r) = request_line r) by apply take_app_length. rewrite T, parse_line_text by assumption. cbn [obind state set_state].
  destruct (retrieve_line b (request_text r) w (request_line r) (headers_text r ++ crlf) R) as [w1 R1]; [reflexivity|].
  pose proof R1 as (_ & Q1 & _). unfold parse_headers, findLastCrlf. rewrite Q1. unfold crlf at 1. rewrite last_crlf_at, take_app_length.
  rewrite parse_headers_text by (exact K || reflexivity). cbn [obind].
  destruct (retrieve_line _ (headers_text r ++ crlf) w1 (headers_text r) [] R1) as [w2 R2]; [reflexivity|].
  eexists. split; [reflexivity|]. pose proof R2 as (_ & _ & _ & E2 & _). rewrite (E2 eq_refl) in R2. exact R2.
Qed.

(** The getters on what was parsed, by evaluation of the maps. *)
Lemma line_params_lookup r :
  line_params r !! "url" = Some (url_text r, 0) /\ line_params r !! "url_ip" = Some (r_host r, 0) /\ line_params r !! "url_port" = Some ([], port_of r) /\
  line_params r !! "url_suffix" = Some (r_suffix r, 0).
Proof. unfold line_params. generalize (url_text r) (r_host r) (port_of r) (r_suffix r) (r_version r) (method_name (r_method r)). intros. vm_compute. auto. Qed.

Lemma finish_fields r q : headerLineParam q = ∅ -> requestLineParam q = line_params r -> let q' := finish r q in
  gotAll q' = true /\ method q' = method q /\ requestLineParam q' = line_params r /\ getCSeq q' = r_cseq r /\
  match r_method r with
  | CSetup t =>
      channelId q' = (if contains (bytes "track1") (url_text r) then 1%nat else 0%nat) /\
      match t with
      | ClientTcp a c => transport q' = RTP_OVER_TCP /\ getRtpChannel q' = u8 a /\ getRtcpChannel q' = u8 c
      | ClientUdp a c => transport q' = RTP_OVER_UDP /\ getRtpPort q' = u16 a /\ getRtcpPort q' = u16 c
      | ClientMulticast => transport q' = RTP_OVER_MULTICAST
      end
  | _ => True
  end.
Proof.
  intros H L q'. destruct (line_params_lookup r) as (U & _). rewrite <- L in U. unfold q', finish, parseMediaChannel, getCSeq, getRtpChannel, getRtcpChannel, getRtpPort, getRtcpPort, header_value.
  destruct q as [m ch tr lp hp st]. cbn [headerLineParam requestLineParam] in *. subst hp. destruct (r_method r) as [| |[a c|a c|]|s| |];
  cbn [add_header with_transport set_header set_transport set_channelId requestLineParam]; try (split_and!; reflexivity || exact L); rewrite U; destruct (contains (bytes "track1") (url_text r)); split_and!; reflexivity || exact L.
Qed.

(** ** No store outside the arrays *)

Lemma dropwhile_length {A} (f : A -> bool) l : (length (dropwhile f l) <= length l)%nat.
Proof. rewrite <- (takewhile_dropwhile f l) at 2. rewrite length_app. lia. Qed.
Lemma takewhile_length {A} (f : A -> bool) l : (length (takewhile f l) <= length l)%nat.
Proof. rewrite <- (takewhile_dropwhile f l) at 2. rewrite length_app. lia. Qed.

Definition fits (n : nat) (d : directive) : Prop := match d with Word cap | Until _ cap => (n < cap)%nat | _ => True end.
Definition no_longer (n : nat) (v : value) : Prop := match v with Str s => (length s <= n)%nat | Num _ => True end.

Lemma sscanf_safe n ds : Forall (fits n) ds -> forall s, (length s <= n)%nat -> exists vs, sscanf ds s = Ret vs /\ Forall (no_longer n) vs.
Proof.
  induction 1 as [|d ds Hd _ IH]; intros s L; [exists []; auto|].
  assert (Stop : exists vs, @Ret (list value) [] = Ret vs /\ Forall (no_longer n) vs) by (exists []; auto).
  assert (Drop : forall f : Z -> bool, exists vs, sscanf ds (dropwhile f s) = Ret vs /\ Forall (no_longer n) vs) by (intros f; apply IH; pose proof (dropwhile_length f s); lia).
  assert (Store : forall (f : Z -> bool) cap s, (length s <= n)%nat -> (n < cap)%nat -> exists vs, match takewhile f s with
    | [] => Ret [] | _ => if (length (takewhile f s) <? cap)%nat then let! vs := sscanf ds (dropwhile f s) in Ret (Str (takewhile f s) :: vs) else Crash OutOfBounds end = Ret vs /\ Forall (no_longer n) vs).
  { intros f cap s0 L0 C. pose proof (takewhile_length f s0) as T. destruct (takewhile f s0) as [|x w] eqn:E; [exists []; auto|]. rewrite <- E in *.
    destruct (Nat.ltb_spec (length (takewhile f s0)) cap); [|lia]. destruct (IH (dropwhile f s0)) as (vs & -> & F); [pose proof (dropwhile_length f s0); lia|].
    cbn [obind]. eexists. split; [reflexivity|]. constructor; [cbn; lia | exact F]. }
  destruct d as [|c|cap|c cap|c|w]; cbn [sscanf fits] in *.
  - apply Drop.
  - destruct s as [|x s]; [exact Stop|]. destruct (x =? c); [apply IH; cbn in L; lia | exact Stop].
  - apply Store; [pose proof (dropwhile_length isspace s); lia | exact Hd].
  - apply Store; [exact L | exact Hd].
  - destruct (takewhile _ s); [exact Stop | apply Drop].
  - set (s1 := dropwhile isspace s). assert (L1 : (length s1 <= n)%nat) by (pose proof (dropwhile_length isspace s); unfold s1; lia).
    assert (Sg : exists neg s2, (length s2 <= n)%nat /\ match s1 with x :: t => if x =? 45 then (true, t) else if x =? 43 then (false, t) else (false, s1) | [] => (false, s1) end = (neg, s2)).
    { destruct s1 as [|x t]; [exists false, []; auto|]. cbn in L1. destruct (x =? 45); [exists true, t; split; [lia | reflexivity]|].
      destruct (x =? 43); [exists false, t; split; [lia | reflexivity] | exists false, (x :: t); auto]. }
    destruct Sg as (neg & s2 & L2 & ->). destruct (takewhile isdigit s2); [exact Stop|].
    destruct (IH (dropwhile isdigit s2)) as (vs & -> & F); [pose proof (dropwhile_length isdigit s2); lia|]. cbn [obind]. eexists. split; [reflexivity|].
    constructor; [exact I | exact F].
Qed.

Lemma c_str_length s : (length (c_str s) <= length s)%nat.
Proof. apply takewhile_length. Qed.

Lemma header_number_total s : exists vs, header_number s = Ret vs.
Proof. destruct (sscanf_safe (length s) [Skip 58; Lit 58; Space; Unsigned 32]) with (s := c_str s) as (vs & E & _); [repeat constructor | apply c_str_length | exists vs; exact E]. Qed.

Lemma transport_numbers_total s : exists vs, transport_numbers s = Ret vs.
Proof.
  destruct (sscanf_safe (length s) [Skip 59; Lit 59; Skip 59; Lit 59; Skip 61; Lit 61; Unsigned 16; Lit 45; Unsigned 16]) with (s := c_str s) as (vs & E & _);
    [repeat constructor | apply c_str_length | exists vs; exact E].
Qed.

(** Every result of a step is a value, by cases of the code. *)
Ltac total := repeat first [ progress cbn [obind] | match goal with
  | |- exists x, Ret _ = Ret x => eexists; reflexivity
  | |- context [header_number ?s] => let vs := fresh "vs" in destruct (header_number_total s) as [vs ->]
  | |- context [transport_numbers ?s] => let vs := fresh "vs" in destruct (transport_numbers_total s) as [vs ->]
  | |- exists x, (match ?e with _ => _ end) = Ret x => destruct e
  end ].

Lemma parseHeadersLine_total s q : exists res, parseHeadersLine s q = Ret res.
Proof.
  unfold parseHeadersLine. assert (C : exists r, parseCSeq s q = Ret r) by (unfold parseCSeq; total). destruct C as [[found q1] ->]. cbn [obind].
  assert (T : exists r, parseTransport s q1 = Ret r) by (unfold parseTransport; total). destruct T as [[ok q2] ->].
  assert (P : exists r, parseSessionId s = Ret r) by (unfold parseSessionId; total). destruct P as [p ->]. total.
Qed.

Lemma parse_url_total s : (length s < 64)%nat -> exists res, parse_url s = Ret res.
Proof.
  intros L. unfold parse_url.
  destruct (sscanf_safe 63 [Until 58 64; Lit 58; Unsigned 16; Lit 47; Word 64]) with (s := s) as (vs & -> & _); [repeat constructor | lia|].
  destruct (sscanf_safe 63 [Until 47 64; Lit 47; Word 64]) with (s := s) as (vs' & -> & _); [repeat constructor | lia|]. total.
Qed.

Lemma parseRequestLine_total s q : (length s < 64)%nat -> exists res, parseRequestLine s q = Ret res.
Proof.
  intros L. unfold parseRequestLine.
  destruct (sscanf_safe 63 [Word 64; Space; Word 512; Space; Word 64]) with (s := c_str s) as (vs & -> & F); [repeat constructor; cbn; lia | pose proof (c_str_length s); lia|].
  cbn [obind]. destruct vs as [|[m|?] [|[url|?] [|[v|?] [|? ?]]]]; try (eexists; reflexivity). inversion F as [|? ? _ F1]; subst. inversion F1 as [|? ? Lu _]; subst.
  cbn [no_longer] in Lu. destruct (parse_url_total (drop 7 url)) as [u E]; [rewrite length_drop; lia|]. rewrite E. total.
Qed.

(** ** Properties *)

(** C33: The parser reads back the text of a request of a request line, a CSeq and
    the one header its method has.  For every method, host, port, suffix, version,
    sequence number and transport that fit its arrays (words of fewer than 64
    graphic characters; no colon or slash in the host; without a port no colon in
    the suffix either, and host and suffix together under 64), a buffer that holds
    exactly the text of the request is parsed to the end: the request is complete,
    each getter returns what the client wrote, the port is 554 when the client gave
    none, and nothing is left in the buffer. *)
Theorem rtsp_request_roundtrip r q b w : client_ok r -> fresh_request q -> rep b (request_text r) w ->
  exists q' b', parseRequest q b = Ret (true, q', b') /\ rep b' [] 0 /\ gotAll q' = true /\ method q' = method_tag (r_method r) /\
  getCSeq q' = r_cseq r /\ getRtspUrl q' = url_text r /\ getIp q' = r_host r /\ getRtspUrlSuffix q' = r_suffix r /\
  requestLineParam q' !! "url_port" = Some ([], port_of r) /\
  match r_method r with
  | CSetup t =>
      channelId q' = (if contains (bytes "track1") (url_text r) then 1%nat else 0%nat) /\
      match t with
      | ClientTcp a c => transport q' = RTP_OVER_TCP /\ getRtpChannel q' = a /\ getRtcpChannel q' = c
      | ClientUdp a c => transport q' = RTP_OVER_UDP /\ getRtpPort q' = a /\ getRtcpPort q' = c
      | ClientMulticast => transport q' = RTP_OVER_MULTICAST
      end
  | _ => True
  end.
Proof.
  intros K F R. destruct (parse_request_text r q b w K F R) as (b' & E & R'). eexists _, b'. split; [exact E|]. split; [exact R'|].
  match goal with |- context [finish r ?x] => destruct (finish_fields r x (proj2 (proj2 F)) eq_refl) as (F1 & F2 & F3 & F4 & F5); set (q' := finish r x) in * end.
  destruct (line_params_lookup r) as (L1 & L2 & L3 & L4). unfold getRtspUrl, getIp, getRtspUrlSuffix, line_text. rewrite F3, L1, L2, L3, L4.
  split_and!; try assumption; try reflexivity. destruct K as (_ & _ & _ & _ & _ & M). destruct (r_method r) as [| |[a c|a c|]|s| |]; try exact I; cbn [method_ok] in M.
  - destruct F5 as (C & T & A & B). rewrite A, B. split_and!; try assumption; apply Z.mod_small, M.
  - destruct F5 as (C & T & A & B). rewrite A, B. split_and!; try assumption; apply Z.mod_small, M.
  - exact F5.
Qed.

Definition demo_request : client_request :=
  mkClient (CSetup (ClientUdp 5000 5001)) (bytes "10.0.0.2") (Some 8554) (bytes "live/track1") (bytes "RTSP/1.0") 3.
Definition blank_request : RtspRequest := mkRequest NONE 0 RTP_OVER_TCP ∅ ∅ kParseRequestLine.

Lemma rtsp_request_roundtrip_witness : exists q' b', parseRequest blank_request (text_reader (request_text demo_request)) = Ret (true, q', b') /\
  rep b' [] 0 /\ gotAll q' = true /\ method q' = SETUP /\ getCSeq q' = 3 /\ getRtspUrl q' = url_text demo_request /\ getIp q' = bytes "10.0.0.2" /\
  getRtspUrlSuffix q' = bytes "live/track1" /\ requestLineParam q' !! "url_port" = Some ([], 8554) /\
  channelId q' = 1%nat /\ transport q' = RTP_OVER_UDP /\ getRtpPort q' = 5000 /\ getRtcpPort q' = 5001.
Proof.
  assert (L : length (request_text demo_request) = 110%nat) by (vm_compute; reflexivity).
  destruct (rtsp_request_roundtrip demo_request blank_request (text_reader (request_text demo_request)) 110) as (q' & b' & E).
  - unfold client_ok, url_ok, word_ok, demo_request. cbn [r_host r_suffix r_version r_port r_cseq r_method method_ok].
    split_and!; try discriminate; try (vm_compute; lia); try (apply graph_check; reflexivity); try (apply without_check; reflexivity); unfold is_u16, is_u32; lia.
  - split_and!; reflexivity.
  - split_and!; [unfold ok; cbn [readerIndex writerIndex buffer text_reader]; rewrite length_app, repeat_length, L; lia | vm_compute; reflexivity
      | vm_compute; reflexivity | discriminate | exists 1; vm_compute; reflexivity].
  - exists q', b'. exact E.
Defined.

(** C34: The parser never leaves its arrays when the line it reads is shorter than 64
    bytes.  Whatever bytes wait, and in every state of the request, [parseRequest]
    returns, keeps the buffer well formed, and what is left of it is the end of
    what was there. *)
Theorem rtsp_parse_safe q b x l w : rep b (x :: l) w -> (forall n, state q = kParseRequestLine -> first_crlf (x :: l) = Some n -> (n < 64)%nat) ->
  exists ret q' b' rest w', parseRequest q b = Ret (ret, q', b') /\ rep b' rest w' /\ exists used, x :: l = used ++ rest.
Proof.
  intros R Short. pose proof R as (_ & Q & _). unfold parseRequest. rewrite (peek_first b x l Q). cbn [obind].
  assert (Same : forall (ret : bool) (q' : RtspRequest), exists ret' q'' b' rest w', Ret (ret, q', b) = Ret (ret', q'', b') /\ rep b' rest w' /\ exists used, x :: l = used ++ rest).
  { intros ret q'. exists ret, q', b, (x :: l), w. split_and!; [reflexivity | exact R | exists []; reflexivity]. }
  assert (Headers : forall ret q1 b1 r1 w1, rep b1 r1 w1 -> (exists used, x :: l = used ++ r1) ->
    exists ret' q' b' rest w', parse_headers ret q1 b1 = Ret (ret', q', b') /\ rep b' rest w' /\ exists used, x :: l = used ++ rest).
  { intros ret q1 b1 r1 w1 R1 [u1 U1]. unfold parse_headers. destruct (findLastCrlf b1) as [n|]; [|do 5 eexists; split_and!; [reflexivity | exact R1 | eauto]].
    destruct (parseHeadersLine_total (take n (readable b1)) q1) as [[ret' q'] ->]. cbn [obind].
    destruct (queue_take_rep b1 r1 w1 (Z.of_nat (n + 2)) R1) as (r2 & w2 & E2 & R2); [lia|]. do 5 eexists. split_and!; [reflexivity | exact R2|].
    destruct (queue_take_suffix _ _ _ _ _ E2) as [u2 U2]. exists (u1 ++ u2). rewrite U1, U2, app_assoc. reflexivity. }
  destruct (x =? 36); [apply Same|]. destruct (state q) eqn:Eq.
  - unfold findFirstCrlf. rewrite Q. destruct (first_crlf (x :: l)) as [n|] eqn:Ef; cbn [obind]; [|rewrite Eq; apply Same].
    destruct (parseRequestLine_total (take n (x :: l)) q) as [[ret q1] ->]; [rewrite length_take; specialize (Short n eq_refl eq_refl); lia|]. cbn [obind].
    destruct (queue_take_rep b (x :: l) w (Z.of_nat (n + 2)) R) as (r1 & w1 & E1 & R1); [lia|].
    pose proof (queue_take_suffix _ _ _ _ _ E1) as U.
    destruct (state q1); [|exact (Headers ret q1 _ r1 w1 R1 U)|]; (do 5 eexists; split_and!; [reflexivity | exact R1 | exact U]).
  - exact (Headers true q b (x :: l) w R (ex_intro _ [] eq_refl)).
  - do 5 eexists. split_and!; [reflexivity | exact (empty_rep b _ w R) | exists (x :: l); rewrite app_nil_r; reflexivity].
Qed.

Lemma rtsp_parse_safe_witness : let s := bytes "PLAY rtsp://h/s" ++ crlf in
  exists ret q' b' rest w', parseRequest blank_request (text_reader s) = Ret (ret, q', b') /\ rep b' rest w' /\ exists used, s = used ++ rest.
Proof.
  apply (rtsp_parse_safe blank_request (text_reader (bytes "PLAY rtsp://h/s" ++ crlf)) 80 (bytes "LAY rtsp://h/s" ++ crlf) 17).
  - split_and!; [unfold ok; split_and!; vm_compute; discriminate | vm_compute; reflexivity
      | vm_compute; reflexivity | discriminate | exists 1; vm_compute; reflexivity].
  - intros n _ E. vm_compute in E. injection E as <-. lia.
Defined.

(** Host, slash and suffix of 64 bytes together, without a port, are read into the 64 bytes of [ip]. *)
Example long_url_overruns :
  parseRequest blank_request (text_reader (bytes "OPTIONS rtsp://camera.example.org/a/stream/with/a/name/that/is/somewhat/longer1 RTSP/1.0" ++ crlf ++ crlf)) = Crash OutOfBounds.
Proof. vm_compute. reflexivity. Qed.

(** The headers are taken to reach to the last CR LF: a second request that came
    with the first is swallowed. *)
Definition play_request (n : Z) : client_request := mkClient (CPlay 1) (bytes "h") None (bytes "s") (bytes "RTSP/1.0") n.
Example pipelined_request_lost :
  match parseRequest blank_request (text_reader (request_text (play_request 1) ++ request_text (play_request 2))) with
  | Ret (ok, q, b) => ok = true /\ getCSeq q = 1 /\ readable b = []
  | Crash _ => False
  end.
Proof. vm_compute. auto. Qed.

(** A request that comes in two pieces is refused when the first piece ends behind
    a header other than CSeq, and when what follows CSeq has three words. *)
Definition in_pieces (a b : list Z) : option (bool * bool) :=
  match parseRequest blank_request (text_reader a) with
  | Ret (ok1, q, _) =>
      match parseRequest (if gotAll q then reset q else q) (text_reader b) with Ret (ok2, _, _) => Some (ok1, ok2) | Crash _ => None end
  | Crash _ => None
  end.
Example split_request_refused :
  fst <$> in_pieces (bytes "OPTIONS rtsp://h/s RTSP/1.0" ++ crlf ++ bytes "User-Agent: x" ++ crlf) (bytes "CSeq: 1" ++ crlf ++ crlf) = Some false /\
  in_pieces (bytes "OPTIONS rtsp://h/s RTSP/1.0" ++ crlf ++ bytes "CSeq: 1" ++ crlf) (bytes "User-Agent: x y" ++ crlf ++ crlf) = Some (true, false).
Proof. split; vm_compute; reflexivity. Qed.
