(* ===== verification/RtspServe.v ===== *)
(** * The RTSP server's side of a connection (rtsp/RtspConnection.cpp, rtsp/RtspServer.cpp)

    [RtspConnection::onRead] parses what waits in the receive buffer and answers a
    request that is complete.  The server's media sessions are two maps, from the
    suffix of a URL to an identifier and from the identifier to the session; of a
    session, what the handlers ask it for is kept.  What a handler does to the
    outside is a list of [effect]s; the answers of the kernel to the calls that set
    up sockets are arguments.  The mode in which the connection pushes to another
    server is left out. *)

From stdpp Require Import gmap strings.
From Stdlib Require Ascii String.
From S2P Require Import Prelude RtspIo RtpFrame RtpConn RtspMessage RtspParse.

Import String.StringSyntax.
Local Open Scope string_scope.
Local Open Scope Z_scope.
Local Open Scope list_scope.

Import Reader.

(** ** The server's sessions *)

(** A media session: its suffix, its identifier, for each channel the clock rate
    and the payload type of the source, the text of [getSdpMessage], and the
    address and the ports when it is multicast. *)
Record media := mkMedia {
  m_suffix : list Z; m_id : Z; m_sources : list (option (Z * Z)); m_sdp : list Z; m_multicast : option (list Z * list Z) }.

Record RtspServer := mkServer { rtspSuffixMap : gmap (list Z) Z; mediaSessions : gmap Z media }.

Definition addMeidaSession (m : media) (s : RtspServer) : Z * RtspServer :=
  match rtspSuffixMap s !! m_suffix m with
  | Some _ => (0, s)
  | None =>
      let sessions := match mediaSessions s !! m_id m with Some _ => mediaSessions s | None => <[m_id m := m]> (mediaSessions s) end in
      (m_id m, mkServer (<[m_suffix m := m_id m]> (rtspSuffixMap s)) sessions)
  end.

Definition removeMeidaSession (id : Z) (s : RtspServer) : RtspServer :=
  match mediaSessions s !! id with
  | Some m => mkServer (delete (m_suffix m) (rtspSuffixMap s)) (delete id (mediaSessions s))
  | None => s
  end.

(** [lookMediaSession] of a suffix and of an identifier. *)
Definition look_id (id : Z) (s : RtspServer) : option media := mediaSessions s !! id.
Definition look_suffix (suffix : list Z) (s : RtspServer) : option media :=
  match rtspSuffixMap s !! suffix with Some id => mediaSessions s !! id | None => None end.

(** The two maps describe the same sessions. *)
Definition maps_agree (s : RtspServer) : Prop :=
  (forall id m, mediaSessions s !! id = Some m -> m_id m = id /\ rtspSuffixMap s !! m_suffix m = Some id) /\
  (forall x id, rtspSuffixMap s !! x = Some id -> exists m, mediaSessions s !! id = Some m /\ m_suffix m = x).

Lemma maps_agree_empty : maps_agree (mkServer ∅ ∅).
Proof. split; intros a b E; cbn in E; rewrite lookup_empty in E; discriminate. Qed.

(** A session is added under an identifier that is not in use, which
    [MediaSession] guarantees by counting, and is then found under both names. *)
Lemma add_keeps m s : maps_agree s -> mediaSessions s !! m_id m = None -> let s' := snd (addMeidaSession m s) in maps_agree s' /\
  (rtspSuffixMap s !! m_suffix m = None -> look_suffix (m_suffix m) s' = Some m /\ look_id (m_id m) s' = Some m).
Proof.
  intros [A B] N. unfold addMeidaSession, look_suffix, look_id. destruct (rtspSuffixMap s !! m_suffix m) as [id0|] eqn:E; cbn [snd]; [split; [split; assumption | discriminate]|].
  rewrite N. unfold maps_agree. cbn [rtspSuffixMap mediaSessions]. split; [|intros _; rewrite !lookup_insert_eq; auto]. split.
  - intros id m' E'. apply lookup_insert_Some in E' as [[<- <-]|[Ne E']]; [rewrite lookup_insert_eq; auto|]. destruct (A id m' E') as [X Y]. split; [exact X|].
    rewrite lookup_insert_ne; [exact Y | congruence].
  - intros x id E'. apply lookup_insert_Some in E' as [[<- <-]|[Ne E']]; [exists m; rewrite lookup_insert_eq; auto|]. destruct (B x id E') as (m' & X & Y).
    exists m'. split; [rewrite lookup_insert_ne by congruence; exact X | exact Y].
Qed.

Lemma remove_keeps id s : maps_agree s -> maps_agree (removeMeidaSession id s) /\ look_id id (removeMeidaSession id s) = None.
Proof.
  intros [A B]. unfold removeMeidaSession, look_id. destruct (mediaSessions s !! id) as [m|] eqn:E; [|split; [split; assumption | exact E]].
  destruct (A id m E) as [Im Sm]. unfold maps_agree. cbn [rtspSuffixMap mediaSessions]. split; [split | apply lookup_delete_eq].
  - intros j m' E'. apply lookup_delete_Some in E' as [Ne E']. destruct (A j m' E') as [X Y]. split; [exact X|]. rewrite lookup_delete_ne; [exact Y | congruence].
  - intros x j E'. apply lookup_delete_Some in E' as [Ne E']. destruct (B x j E') as (m' & X & Y). exists m'. split; [|exact Y].
    rewrite lookup_delete_ne; [exact X | congruence].
Qed.

(** ** The connection *)

(** What the handlers do: send a message, join and leave a media session, ask the
    scheduler for what arrives on the RTCP socket of a channel and stop asking,
    close the connection. *)
Inductive effect := Message (s : list Z) | Join (id : Z) | Leave (id : Z) | Watch (ch : nat) (fd : Z) | Unwatch (ch : nat) | Closed.

Record RtspConnection := mkRtsp {
  aliveCount : Z; sessionId : Z; request : RtspRequest; rtpConn : RtpConnection; rtcpChannels : list (option Z); effects : list effect }.

(** What the kernel answers to the calls of the set-up, and the address of the
    RTP connection, which serves as the number of its session. *)
Record kernel := mkKernel { k_peer : Z; k_udp : list (Z * (Z * bool) * (Z * bool)); k_multicast : list (Z * (Z * bool)); k_this : Z }.

Definition with_effect (e : effect) (c : RtspConnection) : RtspConnection :=
  mkRtsp (aliveCount c) (sessionId c) (request c) (rtpConn c) (rtcpChannels c) (effects c ++ [e]).
Definition with_request (q : RtspRequest) (c : RtspConnection) : RtspConnection :=
  mkRtsp (aliveCount c) (sessionId c) q (rtpConn c) (rtcpChannels c) (effects c).
Definition with_rtp (r : RtpConnection) (c : RtspConnection) : RtspConnection :=
  mkRtsp (aliveCount c) (sessionId c) (request c) r (rtcpChannels c) (effects c).
Definition with_session (id : Z) (c : RtspConnection) : RtspConnection :=
  mkRtsp (aliveCount c) id (request c) (rtpConn c) (rtcpChannels c) (effects c).
Definition with_rtcp (l : list (option Z)) (c : RtspConnection) : RtspConnection :=
  mkRtsp (aliveCount c) (sessionId c) (request c) (rtpConn c) l (effects c).

Definition sendMessage (s : list Z) (c : RtspConnection) : RtspConnection := with_effect (Message s) c.

Definition keepAlive (c : RtspConnection) : RtspConnection :=
  mkRtsp (i32 (aliveCount c + 1)) (sessionId c) (request c) (rtpConn c) (rtcpChannels c) (effects c).

Definition getRtpSessionId (k : kernel) : Z := u32 (k_this k).

Section handlers.
Context (server : RtspServer) (k : kernel).

(** [onClose], which [handleClose] calls. *)
Definition onClose (c : RtspConnection) : RtspConnection :=
  let c := if negb (sessionId c =? 0) then
             match look_id (sessionId c) server with Some m => with_effect (Leave (m_id m)) c | None => c end
           else c in
  fold_left (fun c chn => match rtcpChannels c !! chn with Some (Some _) => with_effect (Unwatch chn) c | _ => c end) (List.seq 0 MAX_MEDIA_CHANNEL) c.

Definition close_connection (c : RtspConnection) : RtspConnection := onClose (with_effect Closed c).

Definition handleCmdOption (c : RtspConnection) : RtspConnection := sendMessage (buildOptionRes 2048 (request c)) c.

(** The loop of [handleCmdDescribe] over the channels. *)
Fixpoint set_sources (chn : nat) (l : list (option (Z * Z))) (r : RtpConnection) : outcome RtpConnection :=
  match l with
  | [] => Ret r
  | None :: l => set_sources (S chn) l r
  | Some (clock, payload) :: l =>
      let! r := setClockRate chn clock r in
      let! r := setPayloadType chn payload r in
      set_sources (S chn) l r
  end.

Definition handleCmdDescribe (c : RtspConnection) : outcome RtspConnection :=
  match look_suffix (getRtspUrlSuffix (request c)) server with
  | None => Ret (sendMessage (buildNotFoundRes 4096 (request c)) c)
  | Some m =>
      let c := with_effect (Join (m_id m)) (with_session (m_id m) c) in
      let! r := set_sources 0 (take MAX_MEDIA_CHANNEL (m_sources m)) (rtpConn c) in
      let c := with_rtp r c in
      match m_sdp m with
      | [] => Ret (sendMessage (buildServerErrorRes 4096 (request c)) c)
      | sdp => Ret (sendMessage (buildDescribeRes 4096 sdp (request c)) c)
      end
  end.

Definition transport_unsupport (c : RtspConnection) : RtspConnection := sendMessage (buildUnsupportedRes 4096 (request c)) c.
Definition server_error (c : RtspConnection) : RtspConnection := sendMessage (buildServerErrorRes 4096 (request c)) c.

Definition setup_multicast (ip ports : list Z) (c : RtspConnection) : outcome RtspConnection :=
  let ch := channelId (request c) in
  match ports !! ch with
  | None => Crash OutOfBounds
  | Some port =>
      let sessionId := u16 (getRtpSessionId k) in
      let! (ok, r) := setupRtpOverMulticast (k_multicast k) ch port (rtpConn c) in
      let c := with_rtp r c in
      if negb ok then Ret (server_error c)
      else Ret (sendMessage (buildSetupMulticastRes 4096 ip port sessionId (request c)) c)
  end.

Definition setup_tcp (c : RtspConnection) : outcome RtspConnection :=
  let q := request c in
  let! (_, r) := setupRtpOverTcp (channelId q) (getRtpChannel q) (getRtcpChannel q) (rtpConn c) in
  Ret (sendMessage (buildSetupTcpRes 4096 (getRtpChannel q) (getRtcpChannel q) (u16 (getRtpSessionId k)) q) (with_rtp r c)).

Definition setup_udp (c : RtspConnection) : outcome RtspConnection :=
  let q := request c in
  let ch := channelId q in
  let! (ok, r) := setupRtpOverUdp (k_peer k) (k_udp k) ch (getRtpPort q) (getRtcpPort q) (rtpConn c) in
  let c := with_rtp r c in
  if ok then
    match rtcpfd r !! ch, localRtpPort r !! ch, localRtcpPort r !! ch with
    | Some rtcp, Some rtpPort, Some rtcpPort =>
        let c := with_effect (Watch ch rtcp) (with_rtcp (<[ch := Some rtcp]> (rtcpChannels c)) c) in
        Ret (sendMessage (buildSetupUdpRes 4096 rtpPort rtcpPort (u16 (getRtpSessionId k)) q) c)
    | _, _, _ => Crash OutOfBounds
    end
  else Ret (server_error c).

Definition handleCmdSetup (c : RtspConnection) : outcome RtspConnection :=
  match look_id (sessionId c) server with
  | None => Ret (server_error c)
  | Some m =>
      match m_multicast m with
      | Some (ip, ports) =>
          match transport (request c) with RTP_OVER_MULTICAST => setup_multicast ip ports c | _ => Ret (transport_unsupport c) end
      | None =>
          match transport (request c) with
          | RTP_OVER_TCP => setup_tcp c
          | RTP_OVER_UDP => setup_udp c
          | RTP_OVER_MULTICAST => Ret (transport_unsupport c)
          end
      end
  end.

Definition handleCmdPlay (c : RtspConnection) : RtspConnection :=
  let c := with_rtp (play (rtpConn c)) c in
  sendMessage (buildPlayRes 2048 None (u16 (getRtpSessionId k)) (request c)) c.

Definition handleCmdTeardown (c : RtspConnection) : RtspConnection :=
  let c := with_rtp (teardown (rtpConn c)) c in
  close_connection (sendMessage (buildTeardownRes 2048 (u16 (getRtpSessionId k)) (request c)) c).

Definition handleCmdGetParamter (c : RtspConnection) : RtspConnection :=
  sendMessage (buildGetParamterRes 2048 (u16 (getRtpSessionId k)) (request c)) c.

(** [handleRtcp] on the buffer. *)
Definition handleRtcp (b : BufferReader) : outcome BufferReader :=
  let at_ n := get8 (buffer b) (Z.to_nat (readerIndex b) + n) in
  let! c0 := at_ 0%nat in
  if (c0 =? 36) && (4 <? readableBytes b) then
    let! c2 := at_ 2%nat in
    let! c3 := at_ 3%nat in
    let pktSize := u16 (Z.lor (Z.shiftl c2 8) c3) in
    Ret (if readableBytes b <=? pktSize + 4 then retrieve (pktSize + 4) b else b)
  else Ret b.

(** The handler of a complete request. *)
Definition dispatch (m : Method) (c : RtspConnection) : outcome RtspConnection :=
  match m with
  | OPTIONS => Ret (handleCmdOption c)
  | DESCRIBE => handleCmdDescribe c
  | SETUP => handleCmdSetup c
  | PLAY => Ret (handleCmdPlay c)
  | TEARDOWN => Ret (handleCmdTeardown c)
  | GET_PARAMETER => Ret (handleCmdGetParamter c)
  | _ => Ret c
  end.

Definition handleRtspRequest (b : BufferReader) (c : RtspConnection) : outcome (bool * BufferReader * RtspConnection) :=
  let! (ok, q, b) := parseRequest (request c) b in
  let c := with_request q c in
  if ok then
    match method q with
    | RTCP => let! b := handleRtcp b in Ret (true, b, c)
    | m =>
        if negb (gotAll q) then Ret (true, b, c)
        else
          let! c := dispatch m c in
          Ret (true, b, if gotAll (request c) then with_request (reset (request c)) c else c)
    end
  else Ret (false, b, c).

Definition MAX_RTSP_MESSAGE_SIZE : Z := 2048.

(** [onRead] of a connection of the server. *)
Definition onRead (b : BufferReader) (c : RtspConnection) : outcome (bool * BufferReader * RtspConnection) :=
  let c := keepAlive c in
  if readableBytes b <=? 0 then Ret (false, b, c)
  else
    let! (ok, b, c) := handleRtspRequest b c in
    if negb ok then Ret (false, b, c)
    else Ret (true, if MAX_RTSP_MESSAGE_SIZE <? readableBytes b then retrieveAll b else b, c).
End handlers.
