(* ===== verification/RtspDialogue.v ===== *)
(** * Dialogues with the RTSP server (rtsp/RtspConnection.cpp)

    A client sends requests one after the other; each arrives complete.  The
    connection answers each of them with one message, in order, with the number of
    the request and the status its session calls for.  The specification
    [statuses] only follows the identifier of the session. *)

From stdpp Require Import gmap strings.
From Stdlib Require Ascii String.
From S2P Require Import Prelude RtspIo RtpFrame RtpConn RtspMessage RtspParse RtspServe.

Import String.StringSyntax.
Local Open Scope string_scope.
Local Open Scope Z_scope.
Local Open Scope list_scope.

Import Reader.

(** ** What a request is answered *)

Definition ok200 : list Z := bytes "200 OK".
Definition not_found404 : list Z := bytes "404 Stream Not Found".
Definition unsupported461 : list Z := bytes "461 Unsupported transport".
Definition error500 : list Z := bytes "500 Internal Server Error".

Definition both_bound (t : Z * (Z * bool) * (Z * bool)) : bool := t.1.2.2 && t.2.2.
Definition bound (t : Z * (Z * bool)) : bool := t.2.2.

Definition setup_status (k : kernel) (m : media) (t : client_transport) : list Z :=
  match m_multicast m, t with
  | Some _, ClientMulticast => if existsb bound (take 10 (k_multicast k)) then ok200 else error500
  | None, ClientTcp _ _ => ok200
  | None, ClientUdp _ _ => if (0 <=? k_peer k) && existsb both_bound (take 10 (k_udp k)) then ok200 else error500
  | _, _ => unsupported461
  end.

Definition status (server : RtspServer) (k : kernel) (id : Z) (r : client_request) : list Z :=
  match r_method r with
  | CDescribe => match look_suffix (r_suffix r) server with None => not_found404 | Some m => match m_sdp m with [] => error500 | _ => ok200 end end
  | CSetup t => match look_id id server with None => error500 | Some m => setup_status k m t end
  | _ => ok200
  end.

(** The session a request leaves the connection in. *)
Definition next_session (server : RtspServer) (id : Z) (r : client_request) : Z :=
  match r_method r with
  | CDescribe => match look_suffix (r_suffix r) server with Some m => m_id m | None => id end
  | _ => id
  end.

Fixpoint statuses (server : RtspServer) (id : Z) (rs : list (kernel * client_request)) : list (list Z) :=
  match rs with [] => [] | (k, r) :: rs => status server k id r :: statuses server (next_session server id r) rs end.

(** The status line and the number of the request. *)
Definition reply_head (st : list Z) (cseq : Z) : list Z := bytes "RTSP/1.0 " ++ st ++ crlf ++ bytes "CSeq: " ++ decimal cseq ++ crlf.

Definition answers_to (st : list Z) (r : client_request) (msg : list Z) : Prop := exists tail, msg = reply_head st (r_cseq r) ++ tail.

Definition messages (l : list effect) : list (list Z) := omap (fun e => match e with Message s => Some s | _ => None end) l.

(** ** The messages *)

Lemma snprintf_prefix n p r : lenZ p < n -> exists t, snprintf n (p ++ r) = p ++ t.
Proof. intros L. unfold snprintf. rewrite take_app_ge by lia. eauto. Qed.

Lemma head_length st n : is_u32 n -> (length st <= 40)%nat -> lenZ (reply_head st n) < 200.
Proof.
  unfold is_u32. intros U L. destruct (decimal_spec n) as [_ D]; [change (2 ^ 64) with 18446744073709551616; lia|].
  unfold reply_head. rewrite !length_app. cbn [bytes length crlf]. lia.
Qed.

(** A builder whose format starts with the head. *)
Lemma builds st n (size : Z) body tail : is_u32 n -> (length st <= 40)%nat -> 200 <= size -> body = reply_head st n ++ tail ->
  exists t, snprintf size body = reply_head st n ++ t.
Proof. intros U L S ->. apply snprintf_prefix. pose proof (head_length st n U L). lia. Qed.

Lemma signed_same n : 0 <= n < 2147483648 -> signed_decimal (i32 n) = decimal n.
Proof. intros H. rewrite i32_id by (unfold is_i32; lia). unfold signed_decimal. destruct (Z.ltb_spec n 0); [lia | reflexivity]. Qed.

Section builders.
Context (q : RtspRequest) (n : Z).
Hypothesis (U : 0 <= n < 2147483648) (E : getCSeq q = n).

Lemma n_u32 : is_u32 n.
Proof. unfold is_u32. lia. Qed.

Ltac build := eapply builds; [exact n_u32 | cbn; lia | lia |]; unfold reply_head; rewrite <- ?app_assoc; rewrite ?E; rewrite ?signed_same by exact U; reflexivity.

Lemma build_option : exists t, buildOptionRes 2048 q = reply_head ok200 n ++ t.
Proof. unfold buildOptionRes. build. Qed.
Lemma build_describe sdp : exists t, buildDescribeRes 4096 sdp q = reply_head ok200 n ++ t.
Proof. unfold buildDescribeRes. build. Qed.
Lemma build_multicast ip port s : exists t, buildSetupMulticastRes 4096 ip port s q = reply_head ok200 n ++ t.
Proof. unfold buildSetupMulticastRes. build. Qed.
Lemma build_udp a b s : exists t, buildSetupUdpRes 4096 a b s q = reply_head ok200 n ++ t.
Proof. unfold buildSetupUdpRes. build. Qed.
Lemma build_tcp a b s : exists t, buildSetupTcpRes 4096 a b s q = reply_head ok200 n ++ t.
Proof. unfold buildSetupTcpRes. build. Qed.
Lemma build_teardown s : exists t, buildTeardownRes 2048 s q = reply_head ok200 n ++ t.
Proof. unfold buildTeardownRes. build. Qed.
Lemma build_parameter s : exists t, buildGetParamterRes 2048 s q = reply_head ok200 n ++ t.
Proof. unfold buildGetParamterRes. build. Qed.
Lemma build_not_found : exists t, buildNotFoundRes 4096 q = reply_head not_found404 n ++ t.
Proof. unfold buildNotFoundRes. build. Qed.
Lemma build_error : exists t, buildServerErrorRes 4096 q = reply_head error500 n ++ t.
Proof. unfold buildServerErrorRes. build. Qed.
Lemma build_unsupported : exists t, buildUnsupportedRes 4096 q = reply_head unsupported461 n ++ t.
Proof. unfold buildUnsupportedRes. build. Qed.
Lemma build_play s : exists t, buildPlayRes 2048 None s q = reply_head ok200 n ++ t.
Proof.
  unfold buildPlayRes. match goal with |- exists t, snprintf 2048 ?b ++ _ = _ => assert (B : exists t, snprintf 2048 b = reply_head ok200 n ++ t) by build end.
  destruct B as [t ->]. rewrite <- app_assoc. eauto.
Qed.
End builders.

(** ** The handlers *)

(** The arrays of a connection have an entry for each channel. *)
Definition arrays_ok (r : RtpConnection) : Prop :=
  length (mediaChannelInfo r) = MAX_MEDIA_CHANNEL /\ length (localRtpPort r) = MAX_MEDIA_CHANNEL /\ length (localRtcpPort r) = MAX_MEDIA_CHANNEL /\
  length (rtpfd r) = MAX_MEDIA_CHANNEL /\ length (rtcpfd r) = MAX_MEDIA_CHANNEL.

Lemma channel_ok r ch : arrays_ok r -> (ch < MAX_MEDIA_CHANNEL)%nat -> exists i, channel r ch = Ret i.
Proof. intros (L & _) H. unfold channel. destruct (lookup_lt_is_Some_2 (mediaChannelInfo r) ch) as [i ->]; [lia | eauto]. Qed.

Lemma set_channel_ok r ch i : arrays_ok r -> arrays_ok (set_channel r ch i).
Proof. intros A. unfold arrays_ok, set_channel in *. cbn. rewrite length_insert. exact A. Qed.

Lemma bind_ports_ok tries ch : forall r, arrays_ok r -> exists r', bind_ports tries ch r = (existsb both_bound tries, r') /\ arrays_ok r'.
Proof.
  induction tries as [|[[rd [s1 ok1]] [s2 ok2]] tries IH]; intros r A; [exists r; auto|]. cbn [bind_ports existsb].
  unfold both_bound at 1. cbn [fst snd].
  destruct ok1, ok2; cbn [negb andb orb]; try (apply IH; unfold arrays_ok in *; cbn; rewrite !length_insert; exact A).
  eexists. split; [reflexivity|]. unfold arrays_ok in *. cbn. rewrite !length_insert. exact A.
Qed.

Lemma bind_port_ok tries ch : forall r, arrays_ok r -> exists r', bind_port tries ch r = (existsb bound tries, r') /\ arrays_ok r'.
Proof.
  induction tries as [|[rd [s1 ok1]] tries IH]; intros r A; [exists r; auto|]. cbn [bind_port existsb]. unfold bound at 1. cbn [fst snd].
  destruct ok1; cbn [negb orb]; [|apply IH; unfold arrays_ok in *; cbn; rewrite !length_insert; exact A].
  eexists. split; [reflexivity|]. unfold arrays_ok in *. cbn. rewrite !length_insert. exact A.
Qed.

Lemma setup_udp_ok peer tries ch a b r : arrays_ok r -> (ch < MAX_MEDIA_CHANNEL)%nat ->
  exists r', setupRtpOverUdp peer tries ch a b r = Ret ((0 <=? peer) && existsb both_bound (take 10 tries), r') /\ arrays_ok r'.
Proof.
  intros A H. unfold setupRtpOverUdp. destruct (Z.ltb_spec peer 0), (Z.leb_spec 0 peer); try lia; cbn [andb]; [eauto|].
  destruct (channel_ok r ch A H) as [i ->]. cbn [obind].
  match goal with |- context [bind_ports _ _ ?x] => destruct (bind_ports_ok (take 10 tries) ch x) as (r1 & -> & A1); [apply set_channel_ok, A|] end.
  destruct (existsb both_bound (take 10 tries)); cbn [negb]; [|eauto]. destruct (channel_ok r1 ch A1 H) as [j ->]. cbn [obind].
  eexists. split; [reflexivity|]. exact (set_channel_ok r1 ch _ A1).
Qed.

Lemma setup_multicast_ok tries ch p r : arrays_ok r -> (ch < MAX_MEDIA_CHANNEL)%nat ->
  exists r', setupRtpOverMulticast tries ch p r = Ret (existsb bound (take 10 tries), r') /\ arrays_ok r'.
Proof.
  intros A H. unfold setupRtpOverMulticast. destruct (bind_port_ok (take 10 tries) ch r A) as (r1 & -> & A1).
  destruct (existsb bound (take 10 tries)); cbn [negb]; [|eauto]. destruct (channel_ok r1 ch A1 H) as [j ->]. cbn [obind].
  eexists. split; [reflexivity|]. exact (set_channel_ok r1 ch _ A1).
Qed.

Lemma setup_tcp_ok ch a b r : arrays_ok r -> (ch < MAX_MEDIA_CHANNEL)%nat -> exists r', setupRtpOverTcp ch a b r = Ret (true, r') /\ arrays_ok r'.
Proof.
  intros A H. unfold setupRtpOverTcp. destruct (channel_ok r ch A H) as [i ->]. cbn [obind]. eexists. split; [reflexivity|].
  pose proof (set_channel_ok r ch (i <| rtpChannel := u16 a |> <| rtcpChannel := u16 b |> <| isSetup := true |>) A) as B. unfold arrays_ok in *. cbn in *. rewrite !length_insert in *. exact B.
Qed.

Lemma set_sources_ok l : forall chn r, arrays_ok r -> (chn + length l <= MAX_MEDIA_CHANNEL)%nat -> exists r', set_sources chn l r = Ret r' /\ arrays_ok r'.
Proof.
  induction l as [|[[clock payload]|] l IH]; intros chn r A H; cbn [set_sources length] in *; [eauto | | apply IH; [exact A | lia]].
  destruct (channel_ok r chn A ltac:(lia)) as [i Hi]. unfold setClockRate. rewrite Hi. cbn [obind].
  pose proof (set_channel_ok r chn (i <| clockRate := u32 clock |>) A) as A1. destruct (channel_ok _ chn A1 ltac:(lia)) as [j Hj]. unfold setPayloadType. rewrite Hj. cbn [obind].
  apply IH; [apply set_channel_ok, A1 | lia].
Qed.

(** A session as [RtspServer] holds it. *)
Definition media_ok (m : media) : Prop := match m_multicast m with Some (_, ports) => length ports = MAX_MEDIA_CHANNEL | None => True end.
Definition server_ok (s : RtspServer) : Prop := forall id m, mediaSessions s !! id = Some m -> media_ok m.

Lemma look_suffix_ok s x m : server_ok s -> look_suffix x s = Some m -> media_ok m.
Proof. intros K E. unfold look_suffix in E. destruct (rtspSuffixMap s !! x) as [id|]; [exact (K id m E) | discriminate]. Qed.

Lemma messages_app a b : messages (a ++ b) = messages a ++ messages b.
Proof. apply omap_app. Qed.

(** What [onClose] adds is no message. *)
Lemma close_silent server c : let c' := close_connection server c in
  messages (effects c') = messages (effects c) /\ rtpConn c' = rtpConn c /\ sessionId c' = sessionId c /\ request c' = request c.
Proof.
  unfold close_connection, onClose. cbn [with_effect sessionId].
  assert (Fold : forall l c0, let c' := fold_left (fun c chn => match rtcpChannels c !! chn with Some (Some _) => with_effect (Unwatch chn) c | _ => c end) l c0 in
    messages (effects c') = messages (effects c0) /\ rtpConn c' = rtpConn c0 /\ sessionId c' = sessionId c0 /\ request c' = request c0).
  { induction l as [|chn l IH]; intros c0; [auto|]. cbn [fold_left]. destruct (rtcpChannels c0 !! chn) as [[fd|]|]; [|apply IH | apply IH].
    destruct (IH (with_effect (Unwatch chn) c0)) as (M & R & S & Q). cbn [with_effect effects rtpConn sessionId request] in *. rewrite messages_app in M. cbn in M. rewrite app_nil_r in M. auto. }
  cbv zeta. match goal with |- context [fold_left _ _ ?x] => destruct (Fold (List.seq 0 MAX_MEDIA_CHANNEL) x) as (-> & -> & -> & ->) end.
  destruct (negb (sessionId c =? 0)); [destruct (look_id (sessionId c) server)|]; cbn [with_effect effects rtpConn sessionId request]; rewrite ?messages_app; cbn; rewrite ?app_nil_r; auto.
Qed.

(** What the handlers read of the parsed request. *)
Definition carries (r : client_request) (q : RtspRequest) : Prop :=
  getCSeq q = r_cseq r /\ getRtspUrlSuffix q = r_suffix r /\
  match r_method r with
  | CSetup t => (channelId q < MAX_MEDIA_CHANNEL)%nat /\
      transport q = match t with ClientTcp _ _ => RTP_OVER_TCP | ClientUdp _ _ => RTP_OVER_UDP | ClientMulticast => RTP_OVER_MULTICAST end
  | _ => True
  end.

Definition answered (st : list Z) (id : Z) (r : client_request) (c c' : RtspConnection) : Prop :=
  (exists msg, messages (effects c') = messages (effects c) ++ [msg] /\ answers_to st r msg) /\
  arrays_ok (rtpConn c') /\ sessionId c' = id /\ request c' = request c.

Lemma sent_message st r c c1 msg : messages (effects c1) = messages (effects c) -> arrays_ok (rtpConn c1) -> request c1 = request c ->
  (exists t, msg = reply_head st (r_cseq r) ++ t) -> answered st (sessionId c1) r c (sendMessage msg c1).
Proof.
  intros M A Q H. split_and!; [|exact A | reflexivity | exact Q]. exists msg. split; [|exact H]. cbn [sendMessage with_effect effects]. rewrite messages_app, M. reflexivity.
Qed.

Section dispatching.
Context (server : RtspServer) (k : kernel) (r : client_request).
Hypothesis (Hs : server_ok server) (Hc : 0 <= r_cseq r < 2147483648).

Lemma describe_ok c : arrays_ok (rtpConn c) -> carries r (request c) -> r_method r = CDescribe ->
  exists c', handleCmdDescribe server c = Ret c' /\ answered (status server k (sessionId c) r) (next_session server (sessionId c) r) r c c'.
Proof.
  intros A (Eq & Es & _) Em. unfold handleCmdDescribe, status, next_session. rewrite Es, Em. destruct (look_suffix (r_suffix r) server) as [m|] eqn:El.
  - destruct (set_sources_ok (take MAX_MEDIA_CHANNEL (m_sources m)) 0 (rtpConn c) A) as (r' & E' & A'); [rewrite length_take; lia|].
    cbn [with_effect with_session rtpConn]. rewrite E'. cbn [obind].
    set (c1 := with_rtp r' (with_effect (Join (m_id m)) (with_session (m_id m) c))).
    assert (M1 : messages (effects c1) = messages (effects c)) by (unfold c1; cbn [with_rtp with_effect with_session effects]; rewrite messages_app; apply app_nil_r).
    destruct (m_sdp m) as [|x sdp]; (eexists; split; [reflexivity|]); apply (sent_message _ r c c1 _ M1 A' eq_refl); [apply build_error | apply build_describe]; assumption.
  - eexists. split; [reflexivity|]. apply (sent_message _ r c c _ eq_refl A eq_refl). apply build_not_found; assumption.
Qed.

Lemma setup_ok c t : arrays_ok (rtpConn c) -> carries r (request c) -> r_method r = CSetup t ->
  exists c', handleCmdSetup server k c = Ret c' /\ answered (status server k (sessionId c) r) (sessionId c) r c c'.
Proof.
  intros A (Eq & _ & R) Em. rewrite Em in R. destruct R as [Ch Tr]. unfold handleCmdSetup, status. rewrite Em.
  assert (Reply : forall st msg, (exists t0, msg = reply_head st (r_cseq r) ++ t0) -> exists c', Ret (sendMessage msg c) = Ret c' /\ answered st (sessionId c) r c c').
  { intros st msg H. eexists. split; [reflexivity | exact (sent_message st r c c msg eq_refl A eq_refl H)]. }
  destruct (look_id (sessionId c) server) as [m|] eqn:El; [|apply Reply, build_error; assumption].
  pose proof (Hs _ _ El) as Mo. unfold media_ok, setup_status in *. destruct (m_multicast m) as [[ip ports]|].
  - rewrite Tr. destruct t as [a b|a b|]; try (apply Reply, build_unsupported; assumption).
    unfold setup_multicast. destruct (lookup_lt_is_Some_2 ports (channelId (request c))) as [port ->]; [lia|].
    destruct (setup_multicast_ok (k_multicast k) (channelId (request c)) port (rtpConn c) A Ch) as (r' & -> & A'). cbn [obind].
    destruct (existsb bound (take 10 (k_multicast k))); cbn [negb]; (eexists; split; [reflexivity|]);
      apply (sent_message _ r c (with_rtp r' c) _ eq_refl A' eq_refl); [apply build_multicast | apply build_error]; assumption.
  - rewrite Tr. destruct t as [a b|a b|]; [| |apply Reply, build_unsupported; assumption].
    + unfold setup_tcp. destruct (setup_tcp_ok (channelId (request c)) (getRtpChannel (request c)) (getRtcpChannel (request c)) (rtpConn c) A Ch) as (r' & -> & A'). cbn [obind].
      eexists. split; [reflexivity|]. apply (sent_message _ r c (with_rtp r' c) _ eq_refl A' eq_refl). apply build_tcp; assumption.
    + unfold setup_udp. destruct (setup_udp_ok (k_peer k) (k_udp k) (channelId (request c)) (getRtpPort (request c)) (getRtcpPort (request c)) (rtpConn c) A Ch) as (r' & -> & A').
      cbn [obind]. destruct ((0 <=? k_peer k) && existsb both_bound (take 10 (k_udp k))).
      * pose proof A' as (_ & L1 & L2 & _ & L3). destruct (lookup_lt_is_Some_2 (rtcpfd r') (channelId (request c))) as [x ->]; [lia|].
        destruct (lookup_lt_is_Some_2 (localRtpPort r') (channelId (request c))) as [y ->]; [lia|]. destruct (lookup_lt_is_Some_2 (localRtcpPort r') (channelId (request c))) as [z ->]; [lia|].
        eexists. split; [reflexivity|]. match goal with |- answered _ _ _ _ (sendMessage _ ?c1) => apply (sent_message _ r c c1) end; try reflexivity; [|exact A' | apply build_udp; assumption].
        cbn [with_effect with_rtcp with_rtp effects]. rewrite messages_app. apply app_nil_r.
      * eexists. split; [reflexivity|]. apply (sent_message _ r c (with_rtp r' c) _ eq_refl A' eq_refl). apply build_error; assumption.
Qed.

Lemma played_ok rc : arrays_ok rc -> arrays_ok (play rc) /\ arrays_ok (teardown rc).
Proof. intros A. unfold play, teardown. unfold arrays_ok in *. split; [cbn; rewrite length_map; exact A|]. destruct (isClosed rc); [exact A|]. cbn. rewrite length_map. exact A. Qed.

Lemma dispatch_ok c : arrays_ok (rtpConn c) -> carries r (request c) ->
  exists c', dispatch server k (method_tag (r_method r)) c = Ret c' /\ answered (status server k (sessionId c) r) (next_session server (sessionId c) r) r c c'.
Proof.
  intros A R. pose proof R as (Eq & _). destruct (played_ok (rtpConn c) A) as [A1 A2]. destruct (r_method r) as [| |t|s| |] eqn:Em; cbn [method_tag dispatch].
  - eexists. split; [reflexivity|]. unfold status, next_session. rewrite Em. apply (sent_message _ r c c _ eq_refl A eq_refl), build_option; assumption.
  - exact (describe_ok c A R Em).
  - unfold next_session. rewrite Em. exact (setup_ok c t A R Em).
  - eexists. split; [reflexivity|]. unfold status, next_session. rewrite Em. apply (sent_message _ r c (with_rtp (play (rtpConn c)) c) _ eq_refl A1 eq_refl), build_play; assumption.
  - eexists. split; [reflexivity|]. unfold status, next_session, handleCmdTeardown. rewrite Em. cbv zeta.
    match goal with |- answered _ _ _ _ (close_connection _ ?c1) => destruct (close_silent server c1) as (M & Rt & Si & Q);
      assert (S : answered ok200 (sessionId c) r c c1) by (apply (sent_message _ r c (with_rtp (teardown (rtpConn c)) c) _ eq_refl A2 eq_refl), build_teardown; assumption) end.
    destruct S as (S1 & S2 & S3 & S4). unfold answered. rewrite M, Rt, Si, Q. auto.
  - eexists. split; [reflexivity|]. unfold status, next_session. rewrite Em. apply (sent_message _ r c c _ eq_refl A eq_refl), build_parameter; assumption.
Qed.
End dispatching.

(** ** Dialogues *)

Definition ready (server : RtspServer) (c : RtspConnection) : Prop := server_ok server /\ arrays_ok (rtpConn c) /\ fresh_request (request c).

Lemma carries_finish r q : client_ok r -> headerLineParam q = ∅ -> requestLineParam q = line_params r -> carries r (finish r q).
Proof.
  intros K H L. destruct (finish_fields r q H L) as (_ & _ & F3 & F4 & F5). destruct (line_params_lookup r) as (_ & _ & _ & L4).
  split_and!; [exact F4 | unfold getRtspUrlSuffix, line_text; rewrite F3, L4; reflexivity|].
  destruct (r_method r) as [| |[a b|a b|]|s| |]; try exact I; destruct F5 as (C & T); split; try (rewrite C; destruct (contains _ _); unfold MAX_MEDIA_CHANNEL; lia); try apply T.
Qed.

Lemma empty_readable b : rep b [] 0 -> readableBytes b = 0.
Proof. intros (K & Q & _). rewrite (readableBytes_length b K), Q. reflexivity. Qed.

Lemma onRead_ok server k r b w c : client_ok r -> 0 <= r_cseq r < 2147483648 -> ready server c -> rep b (request_text r) w ->
  exists b' c' msg, onRead server k b c = Ret (true, b', c') /\ rep b' [] 0 /\ ready server c' /\ sessionId c' = next_session server (sessionId c) r /\
    messages (effects c') = messages (effects c) ++ [msg] /\ answers_to (status server k (sessionId c) r) r msg.
Proof.
  intros K Cq (Hs & A & F) R. pose proof R as (Kb & Q & _). unfold onRead. rewrite (readableBytes_length b Kb), Q.
  assert (N : 0 < lenZ (request_text r)) by (unfold request_text; rewrite !length_app; cbn [crlf length]; lia). destruct (Z.leb_spec (lenZ (request_text r)) 0); [lia|].
  destruct (parse_request_text r (request c) b w K F R) as (b' & E & R'). unfold handleRtspRequest. cbn [keepAlive request]. rewrite E. cbn [obind].
  match goal with |- context [finish r ?x] => pose proof (finish_fields r x (proj2 (proj2 F)) eq_refl) as (F1 & F2 & _); pose proof (carries_finish r x K (proj2 (proj2 F)) eq_refl) as Rd; set (q := finish r x) in * end.
  assert (Eq : method q = method_tag (r_method r)) by exact F2. rewrite Eq.
  destruct (dispatch_ok server k r Hs Cq (with_request q (keepAlive c)) A Rd) as (c' & D & (msg & M & An) & A' & Si & Rq). cbn [with_request keepAlive sessionId request effects] in *.
  replace (match method_tag (r_method r) with RTCP => let! b0 := handleRtcp b' in Ret (true, b0, with_request q (keepAlive c))
    | m => if negb (gotAll q) then Ret (true, b', with_request q (keepAlive c)) else
        let! c0 := dispatch server k m (with_request q (keepAlive c)) in Ret (true, b', if gotAll (request c0) then with_request (reset (request c0)) c0 else c0) end)
    with (Ret (true, b', with_request (reset q) c')).
  2: { rewrite F1. cbn [negb]. destruct (r_method r); cbn [method_tag] in *; rewrite D; cbn [obind]; rewrite Rq, F1; reflexivity. }
  cbn [obind negb]. rewrite (empty_readable b' R'). exists b', (with_request (reset q) c'), msg.
  split_and!; [reflexivity | exact R' | split_and!; [exact Hs | exact A' | split_and!; reflexivity] | exact Si | exact M | exact An].
Qed.

(** The bytes of a request fit one read. *)
Lemma text_fits r : client_ok r -> Forall is_u8 (request_text r) /\ lenZ (request_text r) <= MAX_BYTES_PER_READ.
Proof.
  intros K. pose proof (url_word r K) as (_ & UL & UG). pose proof (method_word (r_method r)) as (_ & ML & MG). destruct K as (_ & _ & (_ & VL & VG) & _ & C & M).
  assert (G : forall s, Forall (fun c => graph c = true) s -> Forall is_u8 s) by (intros s H; eapply Forall_impl; [exact H|]; unfold graph, is_u8; intros c; lia).
  assert (D : forall n, is_u32 n -> Forall is_u8 (decimal n) /\ (length (decimal n) <= 20)%nat).
  { intros n Hn. destruct (decimal_spec n) as [Dn Ln]; [unfold is_u32 in Hn; change (2 ^ 64) with 18446744073709551616; lia|]. split; [apply G, (digits_graph n), Dn | exact Ln]. }
  assert (O : Forall is_u8 (own_header (r_method r)) /\ (length (own_header (r_method r)) <= 100)%nat).
  { destruct (r_method r) as [| |[a b|a b|]|s| |]; cbn [own_header method_ok] in *; try (split; [apply bytes_check; reflexivity | cbn; lia]).
    - destruct (D a) as [Da La]; [rlia|]. destruct (D b) as [Db Lb]; [rlia|]. split; [repeat (apply Forall_app; split); assumption || (apply bytes_check; reflexivity) | rewrite !length_app; cbn [bytes length crlf]; lia].
    - destruct (D a) as [Da La]; [rlia|]. destruct (D b) as [Db Lb]; [rlia|]. split; [repeat (apply Forall_app; split); assumption || (apply bytes_check; reflexivity) | rewrite !length_app; cbn [bytes length crlf]; lia].
    - destruct (D s M) as [Da La]. split; [repeat (apply Forall_app; split); assumption || (apply bytes_check; reflexivity) | rewrite !length_app; cbn [bytes length crlf]; lia]. }
  destruct O as [OB OL]. destruct (D _ C) as [CB CL]. unfold request_text, request_line, headers_text, MAX_BYTES_PER_READ.
  split; [|rewrite !length_app; cbn [bytes length crlf]; lia].
  rewrite !Forall_app. split_and!; try assumption; try (apply bytes_check; reflexivity); apply G; assumption.
Qed.

(** Bytes arrive, and [onRead] runs after each arrival until it asks to close. *)
Fixpoint serve (server : RtspServer) (ds : list (kernel * list Z)) (b : BufferReader) (c : RtspConnection) :
    outcome (bool * BufferReader * RtspConnection) :=
  match ds with
  | [] => Ret (true, b, c)
  | (k, d) :: ds =>
      let! (_, b) := readFd (inr d) b in
      let! (ok, b, c) := onRead server k b c in
      if ok then serve server ds b c else Ret (false, b, c)
  end.

(** Each request arrives complete. *)
Definition dialogue (server : RtspServer) (rs : list (kernel * client_request)) : BufferReader -> RtspConnection -> outcome (bool * BufferReader * RtspConnection) :=
  serve server (map (fun kr => (kr.1, request_text kr.2)) rs).

Definition request_ok (kr : kernel * client_request) : Prop := client_ok kr.2 /\ r_cseq kr.2 < 2147483648.

Lemma dialogue_ok server rs : forall b c, ready server c -> rep b [] 0 -> Forall request_ok rs ->
  exists b' c' msgs, dialogue server rs b c = Ret (true, b', c') /\ rep b' [] 0 /\ ready server c' /\ messages (effects c') = messages (effects c) ++ msgs /\
    Forall2 (fun st_r msg => answers_to st_r.1 st_r.2 msg) (zip (statuses server (sessionId c) rs) (map snd rs)) msgs.
Proof.
  induction rs as [|[k r] rs IH]; intros b c Rd R F; [exists b, c, []; rewrite app_nil_r; auto|]. inversion F as [|? ? [K Cq] F2]; subst. cbn [snd] in *.
  destruct (text_fits r K) as [TB TL]. unfold dialogue. cbn [serve statuses map zip zip_with fst snd].
  destruct (readFd_rep (inr (request_text r)) b [] 0 R (conj TB TL)) as (n & b1 & q1 & w1 & -> & R1 & S1). cbn [obind].
  assert (q1 = request_text r) as -> by (cbn in S1; congruence). pose proof K as (_ & _ & _ & _ & [C0 _] & _).
  destruct (onRead_ok server k r b1 w1 c K (conj C0 Cq) Rd R1) as (b2 & c2 & msg & -> & R2 & Rd2 & Si & M & An). cbn [obind].
  destruct (IH b2 c2 Rd2 R2 F2) as (b3 & c3 & msgs & E & R3 & Rd3 & M3 & An3). exists b3, c3, (msg :: msgs).
  split_and!; [exact E | exact R3 | exact Rd3 | rewrite M3, M, <- app_assoc; reflexivity|]. constructor; [exact An | rewrite <- Si; exact An3].
Qed.


Definition demo_media : media := mkMedia (bytes "live") 2 [Some (90000, 96); None] (bytes "v=0") None.
Definition demo_server : RtspServer := snd (addMeidaSession demo_media (mkServer ∅ ∅)).
Definition demo_rtsp : RtspConnection := mkRtsp 1 0 blank_request (new_conn 0 7 RTP_OVER_TCP (1, 2, 3) (4, 5, 6)) [None; None] [].
Definition demo_kernel : kernel := mkKernel 0 [(1000, (8, false), (9, true)); (2000, (8, true), (9, true))] [] 305419896.
Definition client (m : client_method) (suffix : list Z) (n : Z) : kernel * client_request := (demo_kernel, mkClient m (bytes "h") None suffix (bytes "RTSP/1.0") n).
Definition demo_dialogue : list (kernel * client_request) :=
  [client COptions (bytes "live") 1; client CDescribe (bytes "other") 2; client (CSetup (ClientTcp 0 1)) (bytes "live") 3; client CDescribe (bytes "live") 4;
   client (CSetup (ClientUdp 5000 5001)) (bytes "live/track0") 5; client (CPlay 22136) (bytes "live") 6; client CTeardown (bytes "live") 7].


Example demo_statuses : statuses demo_server 0 demo_dialogue = [ok200; not_found404; error500; ok200; ok200; ok200; ok200].
Proof. vm_compute. reflexivity. Qed.

(** ** Interleaved RTCP *)

Lemma rtcp_kept b w hi lo x more : rep b (36 :: x :: hi :: lo :: more) w -> is_u8 hi -> is_u8 lo -> 256 * hi + lo < lenZ more -> handleRtcp b = Ret b.
Proof.
  intros (K & Q & _) H L M. unfold handleRtcp. rewrite !(peek_at b) with (x := 36) by (rewrite Q; reflexivity). cbn [obind].
  rewrite (readableBytes_length b K), Q. rewrite (peek_at b 2 hi), (peek_at b 3 lo) by (rewrite Q; reflexivity). cbn [obind].
  rewrite lor_shiftl_add by (unfold is_u8 in *; lia). unfold u16. rewrite Z.mod_small by (unfold is_u8 in *; lia). cbn [length].
  destruct (_ && _); [|reflexivity]. destruct (Z.leb_spec (Z.of_nat (S (S (S (S (length more)))))) (hi * 2 ^ 8 + lo + 4)); [lia | reflexivity].
Qed.

(** C39: A request behind an RTCP packet is never read.  When the buffer holds a
    whole interleaved packet and at least one byte more, the packet is not taken
    out: [handleRtcp] only drops a packet that is not followed by anything.  As
    long as no more than 2048 bytes wait, whatever arrives afterwards is added
    behind it, no request is parsed and nothing is sent. *)
Theorem rtcp_blocks_requests server ds : forall b w c x hi lo more, rep b (36 :: x :: hi :: lo :: more) w -> is_u8 hi -> is_u8 lo -> 256 * hi + lo < lenZ more ->
  Forall (fun kd => Forall is_u8 kd.2 /\ kd.2 <> []) ds -> w + lenZ (concat (map snd ds)) <= MAX_BUFFER_SIZE ->
  4 + lenZ more + lenZ (concat (map snd ds)) <= MAX_RTSP_MESSAGE_SIZE ->
  exists b' c', serve server ds b c = Ret (true, b', c') /\ readable b' = 36 :: x :: hi :: lo :: more ++ concat (map snd ds) /\ effects c' = effects c /\ state (request c') = state (request c).
Proof.
  induction ds as [|[k d] ds IH]; intros b w c x hi lo more R H L M F W T; cbn [serve map concat snd] in *.
  - exists b, c. rewrite app_nil_r. split_and!; try reflexivity. apply R.
  - inversion F as [|? ? [Fb Fn] F2]; subst. cbn [snd] in *. rewrite length_app in *. unfold MAX_BUFFER_SIZE, MAX_RTSP_MESSAGE_SIZE in *.
    assert (Fair : fair_op (ReadFd (inr d))) by (split; [exact Fb | unfold MAX_BYTES_PER_READ; lia]).
    destruct (readFd_rep (inr d) b _ w R Fair) as (n & b1 & q1 & w1 & -> & R1 & S1). cbn [obind]. cbn [queue_step] in S1. unfold MAX_BUFFER_SIZE in S1.
    destruct (Z.ltb_spec 10240 w); [lia|]. injection S1 as _ <- <-. cbn [app] in R1.
    assert (M1 : 256 * hi + lo < lenZ (more ++ d)) by (rewrite length_app; lia).
    assert (O : onRead server k b1 c = Ret (true, b1, with_request (set_method RTCP (request c)) (keepAlive c))).
    { pose proof R1 as (K1 & Q1 & _). unfold onRead. rewrite (readableBytes_length b1 K1), Q1. destruct (Z.leb_spec (lenZ (36 :: x :: hi :: lo :: more ++ d)) 0); [cbn [length] in *; lia|].
      unfold handleRtspRequest. unfold parseRequest. rewrite (peek_first b1 36 _ Q1). cbn [obind Z.eqb Pos.eqb set_method method].
      rewrite (rtcp_kept b1 _ hi lo x (more ++ d) R1 H L M1). cbn [obind negb]. rewrite (readableBytes_length b1 K1), Q1.
      unfold MAX_RTSP_MESSAGE_SIZE. destruct (Z.ltb_spec 2048 (lenZ (36 :: x :: hi :: lo :: more ++ d))); [cbn [length] in *; rewrite length_app in *; lia | reflexivity]. }
    rewrite O. cbn [obind]. destruct (IH b1 _ (with_request (set_method RTCP (request c)) (keepAlive c)) x hi lo (more ++ d) R1 H L M1 F2) as (b' & c' & E & Q & Ef & St); [lia | rewrite length_app; lia|].
    exists b', c'. rewrite <- app_assoc in Q. auto.
Qed.

Definition rtcp_then_options : list Z := [36; 1; 0; 2; 80; 80] ++ request_text (client COptions (bytes "live") 9).2.

Lemma rtcp_blocks_requests_witness : exists b' c', serve demo_server [(demo_kernel, request_text (client COptions (bytes "live") 10).2)] (text_reader rtcp_then_options) demo_rtsp = Ret (true, b', c') /\
  readable b' = rtcp_then_options ++ request_text (client COptions (bytes "live") 10).2 /\ effects c' = [] /\ state (request c') = kParseRequestLine.
Proof.
  destruct (rtcp_blocks_requests demo_server [(demo_kernel, request_text (client COptions (bytes "live") 10).2)] (text_reader rtcp_then_options) (lenZ rtcp_then_options) demo_rtsp 1 0 2
    ([80; 80] ++ request_text (client COptions (bytes "live") 9).2)) as (b' & c' & E & Q & Ef & St).
  - split_and!; [unfold ok; split_and!; vm_compute; discriminate | vm_compute; reflexivity | reflexivity | discriminate | exists 1; vm_compute; reflexivity].
  - unfold is_u8. lia.
  - unfold is_u8. lia.
  - vm_compute. reflexivity.
  - constructor; [|constructor]. split; [apply bytes_check; vm_compute; reflexivity | discriminate].
  - vm_compute. discriminate.
  - vm_compute. discriminate.
  - exists b', c'. split; [exact E|]. split; [rewrite Q; vm_compute; reflexivity|]. split; [exact Ef | exact St].
Defined.
